(* ===== verification/_CoqProject ===== *)
-Q . S2P
Prelude.v
Digits.v
Varint.v
Protobuf.v
Vector.v
Multihash.v
Base58.v
CString.v
Hex.v
Multiaddr.v
Peer.v
Unixfs.v
Cid.v
Base32.v
Files.v
Heap.v
Block.v
Record.v
Node.v
CidSet.v
NodeLinks.v
NodePath.v
Datastore.v
Paths.v
Blockstore.v
Merkledag.v
BitswapMessage.v
BitswapFill.v
PeerRequestQueue.v
WantlistQueue.v
KademliaMessage.v
ThreadsafeBuffer.v
Protocol.v
CState.v
YamuxFrame.v
YamuxState.v
YamuxStream.v
YamuxSession.v
YamuxWrite.v
YamuxInvariant.v
YamuxTraffic.v
Peerstore.v
Providerstore.v
Dht.v
CidText.v
Importer.v
Exporter.v
ImportTree.v
Resolver.v
Connection.v
Lmdb.v
Dialer.v
Online.v
Ipns.v
Names.v
Pins.v
JournalMessage.v
Journal.v
Decoders.v
Base32Decode.v
Multibase.v
Keys.v
SecioMessage.v
SecioCrypto.v
MultistreamIO.v
SecioStream.v
Secio.v
SecioHandshake.v
BitswapNetwork.v
