(* ===== verification/Prelude.v ===== *)
(** * libipfs: verification library (root file)

    libipfs stores and exchanges content-addressed data.  A file is split into
    nodes of a Merkle DAG; a node is encoded with protobuf, wrapped into a block
    and stored under the sha256 of its encoding; blocks are exchanged between
    peers with the bitswap protocol; peers find each other and the providers of a
    block through kademlia messages, over streams that yamux multiplexes on one
    connection.  This library models that core: everything between a C struct and
    the bytes on disk or on the wire, the queues and stores in between, and the
    way of a file into the repository and out of it.

    ** Parts

    Source paths are relative to src/; each file below is one part, and a Rocq
    definition has the name of the C function or struct it models.  The helper
    definitions named [..._loop] are the loops inside those functions.

    Foundations
    - [Heap]: memory for linked cells, used by [NodeLinks], [CidSet] and
      [PeerRequestQueue].  [CState]: a state monad over [res] with an invariant
      calculus, used by yamux.  [CString]: the functions of string.h on objects
      that end somewhere.  [Digits]: numbers in a base, for the text encodings.

    Wire layer (libp2p/)
    - [Varint]: protobuf/varint.c, 7-bit groups over explicit buffers.
    - [Protobuf]: protobuf/protobuf.c, field encoders and decoders, and the two
      shapes all message codecs of the program are written in: a sequence of
      [put_field] steps, and a [decode_fields] loop that switches on the field
      number.  The classes [Codec] and [CodecLaws] are the interface between a
      message and the messages that embed it: [emits] says which bytes an
      encoder writes and that they fit, [parses] what a decoder makes of them.
    - [Vector]: utils/vector.c, growable arrays of pointers.
    - [Multihash]: multihash/multihash.c.
    - [Base32], [Base32Decode], [Base58]: crypto/encoding/base32.c and base58.c.
      [Hex]: the conversions of multiaddr/varhexutils.c.   [Multibase]: base16.c and
      libipfs/multibase/multibase.c.
    - [Files]: os/utils.c, paths and file sizes over a map from paths to contents.

    Data (libipfs/)
    - [Unixfs]: unixfs/unixfs.c.   [Cid], [CidText]: cid/cid.c, values and texts.
      [Block]: blocks/block.c.
    - [Node]: merkledag/node.c, values and codec.  [NodeLinks]: the same file's
      operations on the linked list of a node, in memory.  [NodePath]: its
      functions on paths.   [CidSet]: cid/set.c.

    Storage (libipfs/)
    - [Datastore]: libp2p/db/datastore.h as the class [Datastore] with its laws
      [DatastoreLaws], and datastore/ds_helper.c.
    - [Blockstore]: blocks/blockstore.c, one file per block.
    - [Merkledag]: repo/fsrepo/fs_repo.c (blocks, nodes, UnixFS objects) and
      merkledag/merkledag.c.  Adding a node goes through all of the above: [Node]
      encodes it, sha256 names it, [Block] wraps it, [Blockstore] writes the file
      whose name [Base32] makes, [Datastore] records the hash.
    - [Paths]: path/path.c, texts of paths, and flatfs/flatfs.c, the flat store of
      files.   [Pins]: pin/pin.c, what a pin covers.

    Names (libipfs/)
    - [Ipns]: namesys/publisher.c, resolver.c and pb.c, names of nodes in any
      datastore, published into [Lmdb] and told to peers through [Online].
    - [Names]: names from outside: namesys/proquint.c, isdomain.c, dns.c,
      dnslink/dnslink.c with its command, the cache of namesys/routing.c, and
      libp2p/utils/urlencode.c.

    Files in and out (libipfs/importer/)
    - [Importer]: importer.c and the directory functions of libp2p/os/utils.c: a
      file is cut into pieces, each a node that [Merkledag] stores.
      [ImportTree]: the node of a whole tree of files and directories, the
      reference for the import of directories.
    - [Exporter]: exporter.c, and the reading side of routing/offline.c it gets
      nodes with.   [Resolver]: resolver.c, from a path to a node.

    Bitswap (libipfs/exchange/bitswap/)
    - [BitswapMessage]: message.c, structs and codecs.  [BitswapFill]: the
      functions of message.c that move what waits for a peer into a message.
    - [PeerRequestQueue]: peer_request_queue.c, one request per peer, and the
      linked queue of the peers.
    - [WantlistQueue]: wantlist_queue.c and want_manager.c, the CIDs this node
      looks for and who asked.  Serving an entry puts blocks into the peers'
      requests of [PeerRequestQueue], whose serving fills a message with
      [BitswapFill].
    - [BitswapNetwork]: network.c, bitswap.c and the wantlist's thread of engine.c.
      A node is a record of its stores, its two queues and its peers; sending gives
      the bytes handed to the stream, and a message of a peer changes the record.

    Peers (libp2p/)
    - [Multiaddr]: multiaddr/, addresses as text and as bytes.
    - [Peer]: peer/peer.c, comparison and codec.   [Peerstore],
      [Providerstore]: peer/peerstore.c and peer/providerstore.c.
    - [Record], [KademliaMessage]: record/record.c and record/message.c.
    - [Dht]: routing/dht_protocol.c, the answering side of kademlia over the two
      stores and a datastore.   [Online]: libipfs/routing/online.c and the asking side of
      dht_protocol.c, which dials and writes through [Dialer].

    Streams (libp2p/)
    - [ThreadsafeBuffer]: utils/threadsafe_buffer.c.   [Protocol]:
      net/protocol.c, the choice of a protocol for a message, with the
      [*_can_handle] functions of the protocols of both libraries.
    - [YamuxFrame], [YamuxState], [YamuxStream], [YamuxSession]: yamux/, frames,
      the memory of a connection, its channels, and what arrives on it; with the
      negotiation of net/multistream.c on a channel.  [YamuxWrite],
      [YamuxInvariant] and [YamuxTraffic] hold the theorems on them.

    Connections (libp2p/)
    - [Connection]: net/connectionstream.c and net/socket.c over a socket, and the
      function table of struct Stream as the class [Stream] with its laws
      [StreamLaws], which a connection has.   [MultistreamIO]: net/multistream.c over
      any stream with those laws.   [Dialer]: conn/dialer.c and
      conn/tcp_transport_dialer.c, how a peer is joined, and what the streams make of a
      session that is handed to them in place of their context; sockets and the
      negotiations in the thread of the swarm are the class [Sessions].
    - [Keys]: crypto/key.c and crypto/peerutils.c.   [SecioMessage]: secio/propose.c
      and secio/exchange.c.   The rest of secio/secio.c: [SecioCrypto], the choice of
      algorithms, the keys and the cipher (with the counter mode of mbedtls/aes.c);
      [SecioStream], frames on the socket, the encrypted reads and writes; [Secio],
      the handshake, with the signatures of crypto/rsa.c and the key agreement of
      crypto/ephemeral.c; [SecioHandshake], what two ends of it do together.

    Replication (libipfs/journal/, libipfs/repo/fsrepo/)
    - [JournalMessage]: journal_message.c and journal_entry.c, structs and codecs.
      [Lmdb]: lmdb_datastore.c and lmdb_journalstore.c, hashes with their times in
      an lmdb database and the journal beside them.   [Journal]: journal.c, the
      exchange of the two between nodes.
    - [Decoders]: which of the message decoders above end on every input.

    ** Conventions

    - A call returns a [res]: [Ret], or [UB] for what C leaves undefined (an
      access outside an object, a NULL or freed pointer, signed overflow, reading
      an uninitialised object), or [AssertFail], or [NoFuel].  [let!] sequences
      calls.
    - Integers are [Z] at the width of the C type (LP64): unsigned arithmetic
      wraps through [u8]/[u32]/[u64], conversions to signed types through
      [s8]/[s32]/[s64], signed arithmetic that can overflow is [int_op].
      Floating point occurs in size estimates and address parsing only, where
      its value is exact; the definitions say the exact value.
    - Memory: a [bytes] value is what a pointer points to, up to the end of the
      object, so that every access is checked against the real bound.  A pointer
      that may be NULL is an [option]; [ptr] also has the uninitialised or freed
      pointer.  Out-parameters are extra results.  Objects that the code relinks
      or frees while other pointers lead to them live in a [heap] (links of a
      node, cells of a CID set, entries and requests of the peer queue) or in the
      tables of a connection ([YamuxState]): a freed cell is gone and touching it
      is [UB].  Other objects have one owner and are values; the release of their
      memory is then not visible in the model, and neither is a second pointer to
      the same object.  Entries of the stores of peers and providers are named by
      their position.  [fresh n] is a new object whose contents are not
      determined by the code.  The size of the stack is not limited.
    - Allocation may fail: [malloc_ok] of the class [Malloc] decides by size.
      Theorems about success assume [MallocOk]; theorems without it hold for
      every allocator.  Likewise [Disk] and [DiskOk] for the operating system's
      refusal to create or write a file.
    - Code outside the repository, or modelled only by its interface, is an
      argument: sha256, the datastore, the file system of an import, liblmdb (the
      class [Lmdb]: the items of its two databases in their order, and which calls
      it refuses), the answers of the DNS library, the routing's functions, the handlers of protocols, and the record
      [BitswapContext] of network operations.  Calls of yamux to the layer below
      and to the protocol on a channel are events of its state.
    - A socket is the list of what its next reads give (bytes or an error), the
      list of what its next writes take, and what was sent.  RSA, the elliptic curves,
      HMAC, SHA-256 and the block of AES are the operations of the class [Mbedtls];
      the theorem on the handshake assumes [MbedtlsOk], that they do what they are
      documented to do.
    - Locks (pthread) and waiting have no counterpart: every operation is one
      step.  The log is off, but the arguments of its functions are evaluated
      where the code computes them.  Arrays of length zero are allowed, as the
      compilers in use do.

    ** Fuel

    Structural loops run over the list they walk or over the counter of the C
    loop.  A decoder loop gets [decode_fuel n], one turn per byte of a message of
    [n] bytes and one more: every turn consumes at least one byte ([forward]),
    so that no input uses it up -- except for the decoders of links and of
    kademlia messages, which do diverge, and for which that is a theorem.  A
    walk over linked cells gets [walk_fuel h], the number of cells in the heap
    and one more: a list visits each of its cells once, and a walk that needs
    more runs in a circle.  Reading a file for import takes a turn for each full
    piece and two more.  The fuel of [ipfs_import_file] is the depth of the
    directories, of [ipfs_exporter_cat_node] the depth of links, of
    [ipfs_resolver_get] one more than the parts of a path it looks at, of
    [ipfs_pin_has_child] one more than the height of the tree; the theorems say which
    value is enough.  [yamux_stream_write] takes its fuel as an
    argument: with a window that is not 0 one turn for each piece is enough, and
    with the window every channel has no fuel is.  The search in the journal
    ([find_record]) takes its fuel as an argument too: it can go on forever; so does the
    count behind the steps of [ipfs_dns], which passes the range of an int or ends at once.  The
    loops on a socket get a turn for each thing it has in its lists, for each second
    of the timeout, and some more.

    ** What is shown

    - Every message codec ([Varint], [Protobuf], [Multihash], [Unixfs], [Cid],
      [Block], [Node], [BitswapMessage], [Record], [Peer], [KademliaMessage]):
      the encoder stays inside its own size estimate and decoding gives the value
      back, with the exact part that is lost where something is lost; the bytes
      are those of a reference wire format.
    - Texts ([Base32], [Base32Decode], [Base58], [Multibase], [CidText],
      [Multiaddr]): keys and texts as closed
      forms, and the way back.
    - [Cid]: the comparison is a total order up to [cid_equiv].  [CidSet]: the
      list is a set keyed by hash; what adding, asking and removing do to it.
    - [NodeLinks], [NodePath]: the list operations against lists, and path
      resolution against the path cut at its slashes.
    - [Blockstore], [Merkledag]: what was put is got back, under the laws of the
      datastore, and earlier entries survive unless their file names collide.
    - [Exporter], [Resolver]: a file that was imported is got back byte by byte,
      and a tree that was imported is found by its paths, as far as the resolver
      goes.
    - [BitswapFill], [PeerRequestQueue], [WantlistQueue]: nothing is lost or sent
      twice when a message is filled; the queue refines a list of requests; one
      served entry reaches exactly the peers that asked.   [BitswapNetwork]: a block
      one node wants and a peer of it has arrives, through the bytes of two messages;
      messages that are undefined behaviour for the one who gets them; a want that stops
      the thread.
    - [Peerstore], [Dht], [Online]: the store refines a map from ids to peers; a
      provider that was announced is found; the asking side writes nothing to any peer,
      because it hands the session to the stream; a search that fails returns success; the
      messages that no node survives.
    - [Ipns], [Names], [Paths]: when publishing stores a path, the journal's part of the put
      is undefined, and peers are told only when nothing was stored; resolving names ends;
      proquints are bytes; the links in DNS records the command follows, and the resolvers
      that never succeed; the shortest name of a path, by its elements; what a
      write to the flat store leaves behind.   [Pins]: a recursive pin of an imported
      directory covers exactly the nodes stored for it.
    - [ThreadsafeBuffer]: a queue of bytes.  [Protocol]: which protocol gets a
      message.  [YamuxInvariant]: what every reachable connection satisfies;
      [YamuxTraffic], [YamuxWrite]: the messages written to a channel and what arrives on
      a channel that was just opened.
    - [MultistreamIO], [SecioStream]: what is written at one end is read at the other,
      message by message.  [SecioCrypto]: two peers choose the same algorithms and
      order; which choices have usable keys.  [SecioHandshake]: two ends complete the
      handshake, and each can read the other.
    - [JournalMessage], [Journal], [Lmdb]: what a journal message asks for and puts into any
      datastore, why two nodes of this code cannot exchange one, and what lmdb keeps.
    - Where the code does not do what it means to, the theorem states what it
      does: [Vector] deletion, removal of links and CIDs, the order in the peer
      queue, sessions of a new wantlist entry, paths of two names, the window of a
      channel, over-reading of a declared length.

    ** Not modelled

    Opening, accepting and upgrading connections, servers, threads, HTTP,
    configuration files and the command line (core/, cmd/, commands/, the rest of
    conn/, repo/config/) are I/O.  namesys/namesys.c dispatches between resolvers through functions
    that call each other without end; namesys/name.c, namesys/base.c, routing/k_routing.c and
    routing/supernode.c are drafts without a caller or a body.  liblmdb, mbedTLS, jsmn and the BitTorrent DHT are
    third-party code.  Of the parts above: the thread that serves the peers'
    requests and reads their streams, of bitswap; the sockets and negotiations of
    [Dialer], the remote half of [Resolver], of [Names] the library that asks for DNS
    records and the two processes of dns.c, of yamux the functions that wait, close and free, of secio and
    multistream the headers of the protocols on a session and the set-up of streams,
    and of the lmdb datastore opening and closing the environment, which only call
    liblmdb. *)
From stdpp Require Export base list option numbers tactics gmap.
From Stdlib Require Export ZArith Lia.

#[global] Open Scope Z_scope.

(** ** Outcomes of a C call

    [Ret a]: the call returns.  [UB]: the call does something C leaves
    undefined (out-of-bounds access, over-wide shift, read of an
    uninitialised or dangling object, signed overflow).  [AssertFail]: an
    [assert()] fires and the process aborts.  [NoFuel]: the bound given to a
    loop that is not structural was used up; a theorem [f fuel = Ret a] states
    that the loop terminates. *)
Inductive res (A : Type) : Type :=
| Ret (a : A)
| UB
| AssertFail
| NoFuel.
Arguments Ret {A} a.
Arguments UB {A}.
Arguments AssertFail {A}.
Arguments NoFuel {A}.

Definition rbind {A B} (m : res A) (k : A -> res B) : res B :=
  match m with
  | Ret a => k a
  | UB => UB
  | AssertFail => AssertFail
  | NoFuel => NoFuel
  end.

Declare Scope c_scope.
Delimit Scope c_scope with c.
Notation "'let!' x ':=' m 'in' k" := (rbind m (fun x => k))
  (at level 10, x pattern, m at level 200, k at level 200) : c_scope.
#[global] Open Scope c_scope.

#[export] Instance res_eq_dec {A} `{EqDecision A} : EqDecision (res A).
Proof. solve_decision. Defined.

Lemma rbind_ret {A B} (a : A) (k : A -> res B) : rbind (Ret a) k = k a.
Proof. reflexivity. Qed.

Lemma rbind_assoc {A B C} (m : res A) (f : A -> res B) (g : B -> res C) :
  rbind (rbind m f) g = rbind m (fun a => rbind (f a) g).
Proof. by destruct m. Qed.

Lemma rbind_inv {A B} (m : res A) (k : A -> res B) b :
  rbind m k = Ret b -> exists a, m = Ret a /\ k a = Ret b.
Proof. destruct m; simpl; naive_solver. Qed.

Lemma rbind_total {A B} (m : res A) (k : A -> res B) :
  m <> NoFuel -> (forall a, m = Ret a -> k a <> NoFuel) -> rbind m k <> NoFuel.
Proof. destruct m; simpl; eauto. Qed.

(** ** Machine integers (LP64: [int] 32 bits, [size_t] and [unsigned long long] 64) *)
Definition u8 (z : Z) : Z := z mod 2 ^ 8.
Definition u32 (z : Z) : Z := z mod 2 ^ 32.
Definition u64 (z : Z) : Z := z mod 2 ^ 64.
(** conversion to [signed char] / [int]: two's complement wrap-around *)
Definition s8 (z : Z) : Z := (z + 2 ^ 7) mod 2 ^ 8 - 2 ^ 7.
Definition s32 (z : Z) : Z := (z + 2 ^ 31) mod 2 ^ 32 - 2 ^ 31.
Definition s64 (z : Z) : Z := (z + 2 ^ 63) mod 2 ^ 64 - 2 ^ 63.
Definition INT_MAX : Z := 2 ^ 31 - 1.

(** signed [int] arithmetic: overflow is undefined *)
Definition int_op (z : Z) : res Z :=
  if (- 2 ^ 31 <=? z) && (z <? 2 ^ 31) then Ret z else UB.

Lemma u64_small z : 0 <= z < 2 ^ 64 -> u64 z = z.
Proof. intros. unfold u64. by rewrite Z.mod_small. Qed.
Lemma u32_small z : 0 <= z < 2 ^ 32 -> u32 z = z.
Proof. intros. unfold u32. by rewrite Z.mod_small. Qed.
Lemma u8_small z : 0 <= z < 2 ^ 8 -> u8 z = z.
Proof. intros. unfold u8. by rewrite Z.mod_small. Qed.
Lemma u64_range z : 0 <= u64 z < 2 ^ 64.
Proof. unfold u64. apply Z.mod_pos_bound. lia. Qed.
Lemma s32_small z : - 2 ^ 31 <= z < 2 ^ 31 -> s32 z = z.
Proof. intros. unfold s32. rewrite Z.mod_small; lia. Qed.
Lemma s8_small z : - 2 ^ 7 <= z < 2 ^ 7 -> s8 z = z.
Proof. intros. unfold s8. rewrite Z.mod_small; lia. Qed.
Lemma int_op_small z : - 2 ^ 31 <= z < 2 ^ 31 -> int_op z = Ret z.
Proof.
  intros. unfold int_op.
  rewrite (proj2 (Z.leb_le _ _)), (proj2 (Z.ltb_lt _ _)) by lia. done.
Qed.

(** ** Byte strings and memory objects

    A pointer into an object is the list of the bytes from the pointer to the
    end of the object, so [p[i]] is in bounds exactly when the list has an
    element [i]; [&p[n]] is [padd p n].  A function that writes through a
    pointer returns the updated bytes. *)
Abbreviation bytes := (list Z).

Definition zlen {A} (l : list A) : Z := Z.of_nat (length l).
Definition ztake {A} (n : Z) (l : list A) : list A := take (Z.to_nat n) l.
Definition zdrop {A} (n : Z) (l : list A) : list A := drop (Z.to_nat n) l.

Definition byte_range (b : Z) : Prop := 0 <= b < 256.
Definition is_bytes (l : bytes) : Prop := Forall byte_range l.

(** [p[i]] as an rvalue *)
Definition rd (p : bytes) (i : Z) : res Z :=
  if i <? 0 then UB
  else match p !! Z.to_nat i with Some b => Ret b | None => UB end.

(** [&p[n]] *)
Definition padd (p : bytes) (n : Z) : res bytes :=
  if (0 <=? n) && (n <=? zlen p) then Ret (zdrop n p) else UB.

(** the [n] bytes a [memcpy(_, p, n)] reads *)
Definition memrd (p : bytes) (n : Z) : res bytes :=
  if (0 <=? n) && (n <=? zlen p) then Ret (ztake n p) else UB.

(** [memcpy(p, src, zlen src)] *)
Definition memwr (p src : bytes) : res bytes :=
  if zlen src <=? zlen p then Ret (src ++ zdrop (zlen src) p) else UB.

(** call [f] on [&p[off]] and put what it wrote back into the object *)
Definition with_ptr {A} (p : bytes) (off : Z) (f : bytes -> res (A * bytes))
  : res (A * bytes) :=
  let! q := padd p off in
  let! (a, q') := f q in
  Ret (a, ztake off p ++ q').

(** [strlen(p)]: reads up to and including the first NUL *)
Fixpoint strlen (p : bytes) : res Z :=
  match p with
  | [] => UB
  | b :: p' => if b =? 0 then Ret 0 else let! n := strlen p' in Ret (1 + n)
  end.

(** a NULL pointer has no readable bytes *)
Definition deref (p : option bytes) : bytes := default [] p.

(** A pointer that may hold the garbage of a fresh [malloc]: nothing can be read
    through NULL or through a wild pointer. *)
Inductive ptr (A : Type) : Type :=
| Null
| Wild
| Ptr (a : A).
Arguments Null {A}.
Arguments Wild {A}.
Arguments Ptr {A} a.
#[export] Instance ptr_eq_dec {A} `{EqDecision A} : EqDecision (ptr A).
Proof. solve_decision. Defined.
Definition pderef (p : ptr bytes) : bytes := match p with Ptr b => b | _ => [] end.

(** ** The allocator

    [malloc] is outside the program: [malloc_ok n] says whether a request of
    [n] bytes is granted, and [uninit_byte i] is what byte [i] of a fresh object
    (or of an uninitialised array) happens to hold.  Both outcomes are modelled
    in the functions that test for NULL. *)
Class Malloc := {
  malloc_ok : Z -> bool;
  uninit_byte : nat -> Z
}.

(** an uninitialised array of [n] bytes *)
Definition fresh `{Malloc} (n : Z) : bytes := uninit_byte <$> seq 0 (Z.to_nat n).

(** an uninitialised unsigned integer of [w] bits *)
Definition uninit_uint `{Malloc} (w : Z) : Z := uninit_byte 0 mod 2 ^ w.

(** an allocator that never fails, for concrete runs *)
Definition malloc_total : Malloc := {| malloc_ok := fun _ => true; uninit_byte := fun _ => 165 |}.
(** "memory is available": the hypothesis of the theorems on successful runs *)
Class MallocOk (M : Malloc) : Prop := malloc_always : forall n, malloc_ok n = true.
#[export] Instance malloc_total_ok : MallocOk malloc_total.
Proof. intros n. reflexivity. Qed.
(** an allocator that always fails *)
Definition malloc_none : Malloc := {| malloc_ok := fun _ => false; uninit_byte := fun _ => 0 |}.

(** ** Lemmas on [zlen], [ztake], [zdrop] *)
Section zlist.
Context {A : Type}.
Implicit Types l : list A.

Lemma zlen_nil : zlen (@nil A) = 0.
Proof. reflexivity. Qed.
Lemma zlen_cons x l : zlen (x :: l) = 1 + zlen l.
Proof. unfold zlen. simpl. lia. Qed.
Lemma zlen_app l k : zlen (l ++ k) = zlen l + zlen k.
Proof. unfold zlen. rewrite length_app. lia. Qed.
Lemma zlen_nonneg l : 0 <= zlen l.
Proof. unfold zlen. lia. Qed.
Lemma zlen_take n l : 0 <= n <= zlen l -> zlen (ztake n l) = n.
Proof. unfold zlen, ztake. intros. rewrite length_take. lia. Qed.
Lemma zlen_drop n l : 0 <= n <= zlen l -> zlen (zdrop n l) = zlen l - n.
Proof. unfold zlen, zdrop. intros. rewrite length_drop. lia. Qed.
Lemma zlen_replicate n (x : A) : 0 <= n -> zlen (replicate (Z.to_nat n) x) = n.
Proof. unfold zlen. rewrite length_replicate. lia. Qed.
Lemma zlen_0_nil l : zlen l = 0 -> l = [].
Proof. destruct l; [done|]. rewrite zlen_cons. pose proof (zlen_nonneg l). lia. Qed.

Lemma zdrop_0 l : zdrop 0 l = l.
Proof. reflexivity. Qed.
Lemma ztake_0 l : ztake 0 l = [].
Proof. reflexivity. Qed.
Lemma ztake_app_len l k : ztake (zlen l) (l ++ k) = l.
Proof. unfold ztake, zlen. rewrite Nat2Z.id. apply take_app_length. Qed.
Lemma zdrop_app_len l k : zdrop (zlen l) (l ++ k) = k.
Proof. unfold zdrop, zlen. rewrite Nat2Z.id. apply drop_app_length. Qed.
Lemma ztake_all n l : zlen l <= n -> ztake n l = l.
Proof. unfold ztake, zlen. intros. apply take_ge. lia. Qed.
Lemma zdrop_zdrop n m l : 0 <= n -> 0 <= m -> zdrop n (zdrop m l) = zdrop (m + n) l.
Proof. unfold zdrop. intros. rewrite drop_drop. f_equal. lia. Qed.
Lemma ztake_zdrop n l : ztake n l ++ zdrop n l = l.
Proof. apply take_drop. Qed.
Lemma ztake_app_ge n l k : n = zlen l -> ztake n (l ++ k) = l.
Proof. intros ->. apply ztake_app_len. Qed.
Lemma zdrop_app_ge n l k : n = zlen l -> zdrop n (l ++ k) = k.
Proof. intros ->. apply zdrop_app_len. Qed.
Lemma zdrop_ge n l : zlen l <= n -> zdrop n l = [].
Proof. intros. unfold zdrop, zlen in *. apply drop_ge. lia. Qed.
Lemma zdrop_cons n x l : 0 <= n -> zdrop (1 + n) (x :: l) = zdrop n l.
Proof. intros. unfold zdrop. rewrite Z2Nat.inj_add by lia. done. Qed.
Lemma ztake_cons n x l : 0 <= n -> ztake (1 + n) (x :: l) = x :: ztake n l.
Proof. intros. unfold ztake. rewrite Z2Nat.inj_add by lia. done. Qed.
End zlist.

Lemma zlen_fmap {A B} (f : A -> B) (l : list A) : zlen (f <$> l) = zlen l.
Proof. unfold zlen. by rewrite length_fmap. Qed.

(** rewriting with the length lemmas, then linear arithmetic *)
Create Rewrite HintDb zlen.
Create HintDb wire.
Create HintDb heap.
#[export] Hint Rewrite @zlen_nil @zlen_cons @zlen_app : zlen.
#[export] Hint Rewrite @zlen_take @zlen_drop using lia : zlen.
Ltac zlen_facts :=
  repeat match goal with
  | |- context [zlen ?l] =>
      lazymatch goal with
      | _ : 0 <= zlen l |- _ => fail
      | _ => pose proof (zlen_nonneg l)
      end
  | H : context [zlen ?l] |- _ =>
      lazymatch goal with
      | _ : 0 <= zlen l |- _ => fail
      | _ => pose proof (zlen_nonneg l)
      end
  end.
Ltac zlia := autorewrite with zlen in *; zlen_facts; lia.

(** [Forall] of a concrete list, element by element *)
Ltac forall_tac tac := repeat (apply Forall_cons_2; [tac|]); apply Forall_nil_2.

(** decide the boolean comparisons of the goal with [zlia] *)
Ltac zbool :=
  repeat match goal with
  | |- context [?a <=? ?b] =>
      first [ rewrite (proj2 (Z.leb_le a b)) by zlia
            | rewrite (proj2 (Z.leb_gt a b)) by zlia ]
  | |- context [?a <? ?b] =>
      first [ rewrite (proj2 (Z.ltb_lt a b)) by zlia
            | rewrite (proj2 (Z.ltb_ge a b)) by zlia ]
  | |- context [?a =? ?b] =>
      first [ rewrite (proj2 (Z.eqb_eq a b)) by zlia
            | rewrite (proj2 (Z.eqb_neq a b)) by zlia ]
  end; cbn [andb orb negb].

Lemma padd_ok p n : 0 <= n <= zlen p -> padd p n = Ret (zdrop n p).
Proof. intros. unfold padd. by zbool. Qed.
Lemma padd_app p q n : n = zlen p -> padd (p ++ q) n = Ret q.
Proof. intros ->. rewrite padd_ok by zlia. by rewrite zdrop_app_len. Qed.
Lemma memrd_ok p n : 0 <= n <= zlen p -> memrd p n = Ret (ztake n p).
Proof. intros. unfold memrd. by zbool. Qed.
Lemma memrd_app p q n : n = zlen p -> memrd (p ++ q) n = Ret p.
Proof. intros ->. rewrite memrd_ok by zlia. by rewrite ztake_app_len. Qed.
Lemma memrd_all p n : n = zlen p -> memrd p n = Ret p.
Proof. intros ->. rewrite memrd_ok by zlia. by rewrite ztake_all by lia. Qed.
Lemma memrd_over p n : zlen p < n -> memrd p n = UB.
Proof. intros. unfold memrd. zbool. destruct (0 <=? n); done. Qed.
Lemma memwr_ok p src : zlen src <= zlen p -> memwr p src = Ret (src ++ zdrop (zlen src) p).
Proof. intros. unfold memwr. by zbool. Qed.

Lemma rd_0 b p : rd (b :: p) 0 = Ret b.
Proof. reflexivity. Qed.
Lemma rd_1 a b p : rd (a :: b :: p) 1 = Ret b.
Proof. reflexivity. Qed.
Lemma rd_app_mid pre x post : rd (pre ++ x :: post) (zlen pre) = Ret x.
Proof.
  unfold rd, zlen. zbool. rewrite Nat2Z.id, lookup_app_r, Nat.sub_diag by lia. done.
Qed.

Lemma strlen_nul s rest : Forall (fun b => b <> 0) s -> strlen (s ++ 0 :: rest) = Ret (zlen s).
Proof.
  induction 1 as [|b s Hb _ IH]; [done|]. simpl. zbool.
  rewrite IH, zlen_cons. done.
Qed.

(** the string a [char*] denotes: the bytes before the first NUL *)
Fixpoint c_str (p : bytes) : bytes :=
  match p with
  | [] => []
  | b :: p' => if b =? 0 then [] else b :: c_str p'
  end.
(** the object holds a NUL-terminated string *)
Definition terminated (p : bytes) : Prop := 0 ∈ p.

Lemma c_str_split p : terminated p ->
  Forall (fun b => b <> 0) (c_str p) /\ exists rest, p = c_str p ++ 0 :: rest.
Proof.
  unfold terminated. induction p as [|b p IH]; [by intros ?%elem_of_nil|].
  rewrite elem_of_cons. simpl. destruct (Z.eqb_spec b 0) as [->|Hb]; intros Hp.
  - split; [apply Forall_nil_2|]. by exists p.
  - destruct IH as [IH1 [rest IH2]]; [naive_solver|].
    split; [by apply Forall_cons_2|]. exists rest. simpl. by f_equal.
Qed.
Lemma strlen_c_str p : terminated p -> strlen p = Ret (zlen (c_str p)).
Proof.
  intros [Hn [rest Hp]]%c_str_split. rewrite Hp at 1. by apply strlen_nul.
Qed.
Lemma c_str_nul s rest : Forall (fun b => b <> 0) s -> c_str (s ++ 0 :: rest) = s.
Proof.
  induction 1 as [|b s Hb _ IH]; [done|]. simpl. zbool. by rewrite IH.
Qed.
(** [strcmp(a, b)]: reads both up to the first difference or the common NUL *)
Fixpoint c_strcmp (a b : bytes) : res Z :=
  match a, b with
  | x :: a', y :: b' =>
    if x =? y then (if x =? 0 then Ret 0 else c_strcmp a' b') else Ret (x - y)
  | _, _ => UB
  end.

Lemma c_strcmp_ok a b : terminated a -> terminated b ->
  exists r, c_strcmp a b = Ret r /\ (r = 0 <-> c_str a = c_str b).
Proof.
  unfold terminated. revert b. induction a as [|x a IH]; intros b; [by intros ?%elem_of_nil|].
  destruct b as [|y b]; [by intros _ ?%elem_of_nil|]. rewrite !elem_of_cons. simpl. intros Ha Hb.
  destruct (Z.eqb_spec x y) as [->|Hxy].
  - destruct (Z.eqb_spec y 0) as [Hy|Hy]; [by exists 0|].
    destruct Ha as [Ha|Ha], Hb as [Hb|Hb]; try congruence.
    destruct (IH b Ha Hb) as (r & Hr & Hiff).
    exists r. split; [done|]. rewrite Hiff. split; [by intros ->|by intros [= ->]].
  - exists (x - y). split; [done|]. split; [lia|].
    destruct (Z.eqb_spec x 0), (Z.eqb_spec y 0); intros E; congruence.
Qed.
Lemma terminated_nul s rest : terminated (s ++ 0 :: rest).
Proof. apply elem_of_app. right. apply list_elem_of_here. Qed.

Lemma zlen_fresh `{Malloc} n : 0 <= n -> zlen (fresh n) = n.
Proof. intros. unfold fresh, zlen. rewrite length_fmap, length_seq. lia. Qed.

(** ** Bits *)
Lemma lor_shiftl n f w : 0 <= n -> 0 <= f -> 0 <= w < 2 ^ n -> Z.lor (Z.shiftl f n) w = f * 2 ^ n + w.
Proof.
  intros Hn Hf Hw.
  assert (Z.land (Z.shiftl f n) w = 0) as Hl.
  { apply Z.bits_inj'. intros i Hi. rewrite Z.land_spec, Z.bits_0, Z.shiftl_spec by lia.
    destruct (decide (i < n)); [by rewrite Z.testbit_neg_r by lia|].
    replace w with (w mod 2 ^ n) by (apply Z.mod_small; lia).
    rewrite Z.mod_pow2_bits_high by lia. apply andb_false_r. }
  rewrite <- Z.lxor_lor, <- Z.add_nocarry_lxor by done.
  by rewrite Z.shiftl_mul_pow2 by lia.
Qed.

(** ** Finite checks

    A boolean property of bytes is decided by evaluating it on the 256 of them. *)
Lemma byte_forall (P : Z -> bool) :
  forallb P (seqZ 0 256) = true -> forall b, byte_range b -> P b = true.
Proof.
  intros H b Hb. rewrite forallb_forall in H. apply H.
  apply list_elem_of_In, elem_of_seqZ. unfold byte_range in Hb. lia.
Qed.

(** ** Lexicographic comparison of integer strings *)
Fixpoint lex (a b : list Z) : comparison :=
  match a, b with
  | [], [] => Eq
  | [], _ => Lt
  | _, [] => Gt
  | x :: a, y :: b => match x ?= y with Eq => lex a b | c => c end
  end.

Lemma lex_refl a : lex a a = Eq.
Proof. induction a as [|x a IH]; simpl; [done|]. by rewrite Z.compare_refl. Qed.

Lemma lex_eq a b : lex a b = Eq <-> a = b.
Proof.
  split; [|intros ->; apply lex_refl].
  revert b. induction a as [|x a IH]; intros [|y b]; simpl; try done.
  destruct (Z.compare_spec x y) as [->| |]; try done. intros. f_equal. auto.
Qed.

Lemma lex_antisym a b : lex b a = CompOpp (lex a b).
Proof.
  revert b. induction a as [|x a IH]; intros [|y b]; simpl; try done.
  rewrite (Z.compare_antisym x y). destruct (x ?= y); simpl; auto.
Qed.

Lemma lex_lt_trans a b c : lex a b = Lt -> lex b c = Lt -> lex a c = Lt.
Proof.
  revert b c. induction a as [|x a IH]; intros [|y b] [|z c]; simpl; try done.
  destruct (Z.compare_spec x y), (Z.compare_spec y z), (Z.compare_spec x z);
    subst; try done; try lia; eauto.
Qed.

(** ** Narrowing a 64-bit value *)
Lemma s32_u64 z : s32 (u64 z) = s32 z.
Proof.
  unfold s32, u64. f_equal. rewrite <- (Zplus_mod_idemp_l (z mod 2 ^ 64)), <- (Zplus_mod_idemp_l z).
  by rewrite Z.mod_mod_divide by (exists (2 ^ 32); reflexivity).
Qed.
Lemma s8_u64 z : s8 (u64 z) = s8 z.
Proof.
  unfold s8, u64. f_equal. rewrite <- (Zplus_mod_idemp_l (z mod 2 ^ 64)), <- (Zplus_mod_idemp_l z).
  by rewrite Z.mod_mod_divide by (exists (2 ^ 56); reflexivity).
Qed.
