(* ===== verification/Digits.v ===== *)
(** * Numbers as digit lists

    The value of a list of digits, most significant first, in any base: the
    reference for the code that converts between bases. *)
From S2P Require Import Prelude.

Definition digits (base : Z) (l : list Z) : Prop := Forall (fun d => 0 <= d < base) l.

Fixpoint num (base : Z) (l : list Z) : Z :=
  match l with
  | [] => 0
  | d :: l => d * base ^ zlen l + num base l
  end.

(** [n] digits of [z] *)
Fixpoint to_digits (base : Z) (n : nat) (z : Z) : list Z :=
  match n with
  | O => []
  | S n => to_digits base n (z / base) ++ [z mod base]
  end.

Section digits.
Context (base : Z) (Hbase : 1 < base).
Implicit Types l k : list Z.

Lemma num_app l k : num base (l ++ k) = num base l * base ^ zlen k + num base k.
Proof using Hbase.
  induction l as [|d l IH]; cbn [app num]; [lia|]. rewrite IH, zlen_app, Z.pow_add_r by (zlen_facts; lia). lia.
Qed.

Lemma num_snoc l d : num base (l ++ [d]) = num base l * base + d.
Proof using Hbase. rewrite num_app. cbn [num]. rewrite zlen_cons, zlen_nil. change (1 + 0) with 1. rewrite Z.pow_1_r, Z.pow_0_r. lia. Qed.

Lemma num_bound l : digits base l -> 0 <= num base l < base ^ zlen l.
Proof using Hbase.
  induction 1 as [|d l Hd _ IH]; [by split|]. cbn [num]. rewrite zlen_cons, Z.pow_add_r by (zlen_facts; lia).
  rewrite Z.pow_1_r. nia.
Qed.

Lemma num_zeros n l : num base (replicate n 0 ++ l) = num base l.
Proof using Hbase. induction n as [|n IH]; cbn [replicate app num]; [done|]. by rewrite IH. Qed.

(** a number has one list of digits of a given length *)
Lemma num_inj l k : digits base l -> digits base k -> length l = length k -> num base l = num base k -> l = k.
Proof using Hbase.
  intros Hl. revert k. induction Hl as [|d l Hd Hl IH]; intros [|e k] Hk Hlen E; try done.
  apply Forall_cons in Hk as [He Hk]. injection Hlen as Hlen. cbn [num] in E.
  replace (zlen k) with (zlen l) in E by (unfold zlen; by rewrite Hlen).
  pose proof (num_bound l Hl) as Bl. pose proof (num_bound k Hk) as Bk.
  replace (zlen k) with (zlen l) in Bk by (unfold zlen; by rewrite Hlen).
  assert (d = e) as -> by nia. f_equal. apply IH; [done|done|lia].
Qed.

Lemma to_digits_length n z : length (to_digits base n z) = n.
Proof using. revert z. induction n as [|n IH]; intros z; [done|]. cbn [to_digits]. rewrite length_app, IH. simpl. lia. Qed.

Lemma to_digits_ok n z : digits base (to_digits base n z).
Proof using Hbase.
  revert z. induction n as [|n IH]; intros z; [constructor|]. cbn [to_digits]. apply Forall_app. split; [apply IH|].
  constructor; [|constructor]. apply Z.mod_pos_bound. lia.
Qed.

Lemma num_to_digits n z : 0 <= z < base ^ Z.of_nat n -> num base (to_digits base n z) = z.
Proof using Hbase.
  revert z. induction n as [|n IH]; intros z Hz.
  - rewrite Z.pow_0_r in Hz. cbn [to_digits num]. lia.
  - cbn [to_digits]. rewrite num_snoc, IH.
    + pose proof (Z.div_mod z base ltac:(lia)). lia.
    + rewrite Nat2Z.inj_succ, Z.pow_succ_r in Hz by lia. split; [apply Z.div_pos; lia|].
      apply Z.div_lt_upper_bound; lia.
Qed.

Lemma to_digits_num l : digits base l -> to_digits base (length l) (num base l) = l.
Proof using Hbase.
  intros Hl. apply num_inj; [apply to_digits_ok|done|apply to_digits_length|].
  rewrite num_to_digits; [done|]. apply (num_bound l Hl).
Qed.

(** leading zeros aside, a number has one list of digits *)
Lemma num_unique l k : digits base l -> digits base k -> hd 1 l <> 0 -> hd 1 k <> 0 -> num base l = num base k -> l = k.
Proof using Hbase.
  intros Hl Hk Hl0 Hk0 E.
  assert (Hpos : forall m, digits base m -> hd 1 m <> 0 -> m <> [] -> base ^ (zlen m - 1) <= num base m).
  { intros [|d m] Hm Hd Hne; [done|]. apply Forall_cons in Hm as [Hd0 Hm]. cbn [hd num] in *. rewrite zlen_cons.
    replace (1 + zlen m - 1) with (zlen m) by lia. pose proof (num_bound m Hm).
    pose proof (Z.pow_pos_nonneg base (zlen m)). zlen_facts. nia. }
  pose proof (num_bound l Hl) as Bl. pose proof (num_bound k Hk) as Bk.
  assert (Hlt : forall m m' : list Z, digits base m -> hd 1 m <> 0 -> num base m < base ^ zlen m' -> m <> [] -> zlen m <= zlen m').
  { intros m m' Hm Hd Hlt Hne. specialize (Hpos m Hm Hd Hne). zlen_facts.
    assert (base ^ (zlen m - 1) < base ^ zlen m') as Hp by lia.
    apply Z.pow_lt_mono_r_iff in Hp; lia. }
  assert (length l = length k).
  { assert (zlen l = zlen k); [|unfold zlen in *; lia]. zlen_facts.
    destruct l as [|d l], k as [|e k]; [done| | |].
    - specialize (Hpos (e :: k) Hk Hk0 ltac:(done)). cbn [num] in E, Hpos.
      pose proof (Z.pow_pos_nonneg base (zlen (e :: k) - 1)). rewrite zlen_cons in *. zlen_facts. lia.
    - specialize (Hpos (d :: l) Hl Hl0 ltac:(done)). cbn [num] in E, Hpos.
      pose proof (Z.pow_pos_nonneg base (zlen (d :: l) - 1)). rewrite zlen_cons in *. zlen_facts. lia.
    - pose proof (Hlt (d :: l) (e :: k) Hl Hl0 ltac:(lia) ltac:(done)).
      pose proof (Hlt (e :: k) (d :: l) Hk Hk0 ltac:(lia) ltac:(done)). lia. }
  by apply num_inj.
Qed.
End digits.

(** ** The shortest list of digits *)
Fixpoint strip_zeros (l : list Z) : list Z :=
  match l with
  | [] => []
  | d :: k => if d =? 0 then strip_zeros k else l
  end.

Definition show (base n : Z) : list Z :=
  match strip_zeros (to_digits base (S (Z.to_nat (Z.log2 n))) n) with
  | [] => [0]
  | l => l
  end.

Lemma strip_zeros_split l : hd 1 (strip_zeros l) <> 0 /\ exists n, l = replicate n 0 ++ strip_zeros l.
Proof.
  induction l as [|d l [IH1 [n IH2]]]; [split; [done|by exists 0%nat]|]. cbn [strip_zeros].
  destruct (Z.eqb_spec d 0) as [->|Hd]; [|split; [done|by exists 0%nat]].
  split; [done|]. exists (S n). cbn [replicate app]. by f_equal.
Qed.

Section show.
Context (base : Z) (Hbase : 1 < base).

Lemma show_spec n : 0 <= n -> digits base (show base n) /\ num base (show base n) = n /\
  (0 < n -> hd 1 (show base n) <> 0) /\ show base n <> [].
Proof using Hbase.
  intros Hn. unfold show. set (l := to_digits base _ n).
  assert (num base l = n) as Hl.
  { apply num_to_digits; [done|]. split; [done|]. rewrite Nat2Z.inj_succ, Z2Nat.id by apply Z.log2_nonneg.
    destruct (Z.eq_dec n 0) as [->|]; [apply Z.pow_pos_nonneg; cbn; lia|].
    eapply Z.lt_le_trans; [apply (Z.log2_spec n); lia|]. apply Z.pow_le_mono_l. lia. }
  pose proof (to_digits_ok base Hbase (S (Z.to_nat (Z.log2 n))) n) as Hd. fold l in Hd.
  destruct (strip_zeros_split l) as [Hh [k Hk]]. destruct (strip_zeros l) as [|d s] eqn:Es.
  - rewrite Hk, num_zeros in Hl by done. cbn [num] in Hl. subst n.
    split_and!; [constructor; [lia|constructor]|done|lia|done].
  - rewrite Hk in Hd. apply Forall_app in Hd as [_ Hd]. rewrite Hk, num_zeros in Hl by done. by split_and!.
Qed.

Lemma show_0 : show base 0 = [0].
Proof using. unfold show. reflexivity. Qed.

(** a number below [base ^ k] has at most [k] digits *)
Lemma show_length n k : 0 <= n < base ^ k -> 1 <= k -> 1 <= zlen (show base n) <= k.
Proof using Hbase.
  intros Hn Hk. destruct (show_spec n) as (Hd & Hv & Hh & Hne); [lia|].
  destruct (show base n) as [|d l] eqn:E; [done|]. rewrite zlen_cons. zlen_facts. split; [lia|].
  destruct (Z.eq_dec n 0) as [->|Hn0].
  { rewrite show_0 in E. injection E as <- <-. rewrite zlen_nil. lia. }
  specialize (Hh ltac:(lia)). cbn [hd] in Hh. cbn [num] in Hv. apply Forall_cons in Hd as [Hd Hl].
  pose proof (num_bound base Hbase l Hl). pose proof (Z.pow_pos_nonneg base (zlen l)).
  assert (base ^ zlen l < base ^ k) as Hp by nia. apply Z.pow_lt_mono_r_iff in Hp; lia.
Qed.

(** and at least [k + 1] from [base ^ k] on *)
Lemma show_length_ge n k : base ^ k <= n -> 0 <= k -> k + 1 <= zlen (show base n).
Proof using Hbase.
  intros Hn Hk. pose proof (Z.pow_pos_nonneg base k). destruct (show_spec n) as (Hd & Hv & _ & _); [lia|].
  pose proof (num_bound base Hbase _ Hd) as Hb. zlen_facts.
  assert (base ^ k < base ^ zlen (show base n)) as Hp by lia. apply Z.pow_lt_mono_r_iff in Hp; lia.
Qed.

Lemma show_num l : digits base l -> hd 0 l <> 0 -> show base (num base l) = l.
Proof using Hbase.
  intros Hl Hh. pose proof (num_bound base Hbase l Hl). destruct (show_spec (num base l)) as (Hd & Hv & Hs & _); [lia|].
  apply (num_unique base Hbase); try done; [|by destruct l].
  apply Hs. destruct l as [|d l]; [done|]. cbn [num hd] in *. apply Forall_cons in Hl as [Hd' Hl'].
  pose proof (num_bound base Hbase l Hl'). pose proof (Z.pow_pos_nonneg base (zlen l)). zlen_facts. nia.
Qed.
End show.
