(* ===== verification/Varint.v ===== *)
(** * Varints (libp2p/protobuf/varint.c)

    [varint_encode] and [varint_decode] over explicit buffers, the reference
    encoding [varint_bytes], and the lemmas the wire layer builds on. *)
From S2P Require Import Prelude.

(** [static const char MSB = 0x80], [MSBALL = ~0x7F]: both are -128 as a
    signed [char]; converted to [unsigned long long] they are 2^64 - 128. *)
Definition MSB : Z := s8 128.
Definition MSBALL : Z := s8 (Z.lnot 127).

Definition N1 : Z := 128.
Definition N2 : Z := 16384.
Definition N3 : Z := 2097152.
Definition N4 : Z := 268435456.
Definition N5 : Z := 34359738368.
Definition N6 : Z := 4398046511104.
Definition N7 : Z := 562949953421312.
Definition N8 : Z := 72057594037927936.
Definition N9 : Z := 9223372036854775808.

Definition varint_encoding_length (n : Z) : Z :=
  if n <? N1 then 1
  else if n <? N2 then 2
  else if n <? N3 then 3
  else if n <? N4 then 4
  else if n <? N5 then 5
  else if n <? N6 then 6
  else if n <? N7 then 7
  else if n <? N8 then 8
  else if n <? N9 then 9
  else 10.

(** The [while] loop and the final store; [p] is what [ptr] points to, [n] is
    [ptr - buf].  The result is the number of bytes written and the bytes at
    [ptr] afterwards. *)
Fixpoint varint_encode_loop (copy : Z) (p : bytes) (n len : Z) : res (Z * bytes) :=
  match p with
  | [] => UB
  | _ :: p' =>
    if negb (Z.land copy (u64 MSBALL) =? 0) then
      let b := u8 (Z.lor (Z.land copy 255) (u64 MSB)) in
      if n + 1 <? len then
        let! (k, q) := varint_encode_loop (Z.shiftr copy 7) p' (n + 1) len in
        Ret (k, b :: q)
      else AssertFail
    else Ret (n + 1, u8 copy :: p')
  end.

Definition varint_encode (n : Z) (buf : bytes) (len : Z) : res (Z * bytes) :=
  varint_encode_loop n buf 0 len.

(** [result += ((ll & 0x7F) << bits)] *)
Definition varint_accumulate (result b bits : Z) : res Z :=
  if bits <? 64 then Ret (u64 (result + u64 (Z.shiftl (Z.land b 127) bits))) else UB.

Fixpoint varint_decode_loop (p : bytes) (len result bits n : Z) : res (Z * Z) :=
  match p with
  | [] => UB
  | b :: p' =>
    if negb (Z.land b MSB =? 0) then
      let! result' := varint_accumulate result b bits in
      if n + 1 <? len then varint_decode_loop p' len result' (bits + 7) (n + 1)
      else AssertFail
    else
      let! result' := varint_accumulate result b bits in
      Ret (result', n + 1)
  end.

(** value decoded, number of bytes processed *)
Definition varint_decode (buf : bytes) (len : Z) : res (Z * Z) :=
  varint_decode_loop buf len 0 0 0.

(** ** Reference encoding: little-endian base 128, continuation bit on all but
    the last byte.  Ten digits are enough for 64 bits. *)
Fixpoint base128 (fuel : nat) (n : Z) : bytes :=
  match fuel with
  | O => []
  | S f => if n <? 128 then [n] else (128 + n mod 128) :: base128 f (n / 128)
  end.
Definition varint_bytes (n : Z) : bytes := base128 10 n.

(** the value of a digit sequence *)
Fixpoint base128_value (l : bytes) : Z :=
  match l with
  | [] => 0
  | b :: l' => b mod 128 + 128 * base128_value l'
  end.

(** ** Bit-level facts *)
Lemma land_msball n : 0 <= n < 2 ^ 64 -> (Z.land n (u64 MSBALL) =? 0) = (n <? 128).
Proof.
  intros Hn. change (u64 MSBALL) with (Z.shiftl (Z.ones 57) 7).
  assert (Z.land n (Z.shiftl (Z.ones 57) 7) = Z.shiftl (Z.shiftr n 7) 7) as ->.
  { apply Z.bits_inj'. intros i Hi. rewrite Z.land_spec, !Z.shiftl_spec by lia.
    destruct (decide (i < 7)).
    - rewrite !(Z.testbit_neg_r _ (i - 7)) by lia. by rewrite andb_false_r.
    - rewrite Z.shiftr_spec by lia. replace (i - 7 + 7) with i by lia.
      rewrite Z.testbit_ones_nonneg by lia.
      destruct (Z.ltb_spec (i - 7) 57); [by rewrite andb_true_r|].
      rewrite andb_false_r. symmetry. destruct (decide (n = 0)) as [->|]; [apply Z.bits_0|].
      apply Z.bits_above_log2; [lia|]. apply Z.log2_lt_pow2; [lia|].
      eapply Z.lt_le_trans; [apply Hn|]. apply Z.pow_le_mono_r; lia. }
  rewrite Z.shiftl_mul_pow2, Z.shiftr_div_pow2 by lia.
  pose proof (Z.div_mod n (2 ^ 7) ltac:(lia)). pose proof (Z.mod_pos_bound n (2 ^ 7) ltac:(lia)).
  destruct (Z.ltb_spec n 128); [apply Z.eqb_eq|apply Z.eqb_neq]; lia.
Qed.

Lemma or_msb n : 0 <= n -> u8 (Z.lor (Z.land n 255) (u64 MSB)) = 128 + n mod 128.
Proof.
  intros Hn. change 255 with (Z.ones 8). rewrite Z.land_ones by lia.
  assert (byte_range (n mod 2 ^ 8)) as Hb by (apply Z.mod_pos_bound; lia).
  apply (byte_forall (fun b => u8 (Z.lor b (u64 MSB)) =? 128 + b mod 128)) in Hb;
    [|vm_compute; reflexivity].
  apply Z.eqb_eq in Hb. rewrite Hb. f_equal.
  change (2 ^ 8) with (128 * 2). rewrite Z.rem_mul_r by lia.
  rewrite Z.mul_comm, Z_mod_plus_full. by rewrite Z.mod_mod by lia.
Qed.

Lemma land_msb b : byte_range b -> (Z.land b MSB =? 0) = (b <? 128).
Proof.
  intros Hb. apply (byte_forall (fun b => eqb (Z.land b MSB =? 0) (b <? 128))) in Hb.
  - by apply eqb_prop.
  - vm_compute. reflexivity.
Qed.

Lemma land_127 b : Z.land b 127 = b mod 128.
Proof. change 127 with (Z.ones 7). by rewrite Z.land_ones by lia. Qed.

Lemma shiftr_7 n : Z.shiftr n 7 = n / 128.
Proof. by rewrite Z.shiftr_div_pow2 by lia. Qed.

(** ** The reference encoding *)
Lemma base128_S k n :
  base128 (S k) n = if n <? 128 then [n] else (128 + n mod 128) :: base128 k (n / 128).
Proof. reflexivity. Qed.

Lemma base128_nonempty k n : 0 < zlen (base128 (S k) n).
Proof. simpl. destruct (n <? 128); zlia. Qed.

Lemma varint_bytes_pos n : 1 <= zlen (varint_bytes n).
Proof. pose proof (base128_nonempty 9 n). unfold varint_bytes. lia. Qed.

Lemma base128_length_le k n : zlen (base128 k n) <= Z.of_nat k.
Proof.
  revert n. induction k as [|k IH]; intros n; [done|]. simpl base128.
  destruct (n <? 128); [zlia|]. rewrite zlen_cons. specialize (IH (n / 128)). lia.
Qed.

Lemma varint_bytes_le n : zlen (varint_bytes n) <= 10.
Proof. apply (base128_length_le 10). Qed.

Lemma varint_bytes_small n : 0 <= n < 128 -> varint_bytes n = [n].
Proof. intros. unfold varint_bytes. simpl. by zbool. Qed.

Lemma base128_bytes k n : 0 <= n -> is_bytes (base128 k n).
Proof.
  revert n. induction k as [|k IH]; intros n Hn; [constructor|]. simpl.
  destruct (Z.ltb_spec n 128).
  - repeat constructor; unfold byte_range; lia.
  - constructor; [|apply IH; apply Z.div_pos; lia].
    pose proof (Z.mod_pos_bound n 128 ltac:(lia)). unfold byte_range. lia.
Qed.

Lemma varint_bytes_is_bytes n : 0 <= n -> is_bytes (varint_bytes n).
Proof. apply base128_bytes. Qed.

(** [n / 128] stays below the bound of one digit less *)
Lemma div128_bound n k : 0 <= n < 128 ^ Z.of_nat (S k) -> 0 <= n / 128 < 128 ^ Z.of_nat k.
Proof.
  intros [H1 H2]. split; [apply Z.div_pos; lia|]. apply Z.div_lt_upper_bound; [lia|].
  rewrite Nat2Z.inj_succ, Z.pow_succ_r in H2 by lia. lia.
Qed.

Lemma base128_length j k n :
  (j < k)%nat -> 128 ^ Z.of_nat j <= n < 128 ^ Z.of_nat (S j) -> (0 < j)%nat ->
  zlen (base128 k n) = Z.of_nat (S j).
Proof.
  revert k n. induction j as [|j IH]; intros k n Hk Hn Hj; [lia|].
  destruct k as [|k]; [lia|]. simpl base128.
  assert (128 <= n).
  { rewrite Nat2Z.inj_succ, Z.pow_succ_r in Hn by lia.
    pose proof (Z.pow_pos_nonneg 128 (Z.of_nat j) ltac:(lia) ltac:(lia)). lia. }
  zbool. rewrite zlen_cons.
  assert (128 ^ Z.of_nat j <= n / 128 < 128 ^ Z.of_nat (S j)) as Hd.
  { split; [|apply div128_bound; split; [lia|apply Hn]].
    apply Z.div_le_lower_bound; [lia|]. destruct Hn as [Hn _].
    rewrite Nat2Z.inj_succ, Z.pow_succ_r in Hn by lia. lia. }
  destruct j as [|j].
  - destruct k as [|k]; [lia|]. simpl. change (Z.of_nat 1) with 1 in Hd. by zbool.
  - rewrite (IH k) by (try apply Hd; lia). lia.
Qed.

Lemma base128_length_at j k n lo hi m :
  (j < k)%nat -> (0 < j)%nat -> lo = 128 ^ Z.of_nat j -> hi = 128 ^ Z.of_nat (S j) ->
  m = Z.of_nat (S j) -> lo <= n < hi -> zlen (base128 k n) = m.
Proof. intros ? ? -> -> -> ?. by apply base128_length. Qed.

Lemma varint_bytes_length n :
  0 <= n < 2 ^ 64 -> zlen (varint_bytes n) = varint_encoding_length n.
Proof.
  intros Hn. unfold varint_encoding_length, N1, N2, N3, N4, N5, N6, N7, N8, N9.
  destruct (Z.ltb_spec n 128); [by rewrite varint_bytes_small by lia|].
  unfold varint_bytes. remember 10%nat as k eqn:Hk.
  repeat match goal with
  | |- context [if n <? ?c then ?k else _] =>
      destruct (Z.ltb_spec n c);
      [let j := eval compute in (Z.to_nat (k - 1)) in
       eapply (base128_length_at j); [lia|lia|reflexivity|reflexivity|reflexivity|lia]|]
  end.
  eapply (base128_length_at 9); [lia|lia|reflexivity|reflexivity|reflexivity|lia].
Qed.

(** ** [varint_encode] *)
Lemma varint_encode_loop_spec k n p i len :
  0 <= n < 128 ^ Z.of_nat (S k) -> n < 2 ^ 64 -> i < len -> len - i <= zlen p ->
  let bs := base128 (S k) n in
  varint_encode_loop n p i len =
    if i + zlen bs <=? len then Ret (i + zlen bs, bs ++ zdrop (zlen bs) p) else AssertFail.
Proof.
  cbv zeta. revert n p i. induction k as [|k IH]; intros n p i Hn Hn64 Hi Hp;
    (destruct p as [|x p]; [rewrite zlen_nil in Hp; lia|rewrite zlen_cons in Hp]);
    cbn [varint_encode_loop]; rewrite land_msball, (base128_S _ n) by lia;
    destruct (Z.ltb_spec n 128) as [Hs|Hs]; simpl negb; cbv iota.
  - rewrite u8_small, zlen_cons, zlen_nil by lia. zbool. done.
  - change (128 ^ Z.of_nat 1) with 128 in Hn. lia.
  - rewrite u8_small, zlen_cons, zlen_nil by lia. zbool. done.
  - rewrite or_msb, shiftr_7 by lia.
    pose proof (base128_nonempty k (n / 128)).
    destruct (Z.ltb_spec (i + 1) len).
    + rewrite IH by (try apply div128_bound; try lia; pose proof (Z.div_lt n 128); lia).
      rewrite (zlen_cons (128 + n mod 128)).
      replace (i + 1 + zlen (base128 (S k) (n / 128)))
        with (i + (1 + zlen (base128 (S k) (n / 128)))) by lia.
      destruct (_ <=? len); [|done]. cbn [rbind]. do 2 f_equal. simpl. by rewrite zdrop_cons by zlia.
    + rewrite zlen_cons. by zbool.
Qed.

(** With at least one byte of room inside the object, the outcome is decided
    by the length of the encoding. *)
Lemma varint_encode_spec n buf len :
  0 <= n < 2 ^ 64 -> 1 <= len <= zlen buf ->
  varint_encode n buf len =
    if zlen (varint_bytes n) <=? len
    then Ret (zlen (varint_bytes n), varint_bytes n ++ zdrop (zlen (varint_bytes n)) buf)
    else AssertFail.
Proof.
  intros Hn Hl. unfold varint_encode. rewrite (varint_encode_loop_spec 9).
  - done.
  - split; [apply Hn|]. eapply Z.lt_trans; [apply Hn|]. reflexivity.
  - lia.
  - lia.
  - lia.
Qed.

(** ** [varint_decode] *)
Lemma varint_accumulate_ok result b bits :
  bits < 64 ->
  varint_accumulate result b bits = Ret (u64 (result + u64 (b mod 128 * 2 ^ bits)))
  \/ bits < 0.
Proof.
  intros. destruct (decide (bits < 0)); [by right|left]. unfold varint_accumulate.
  zbool. by rewrite land_127, Z.shiftl_mul_pow2 by lia.
Qed.

Lemma u64_add_u64 a b : u64 (a + u64 b) = u64 (a + b).
Proof. unfold u64. by rewrite Zplus_mod_idemp_r. Qed.
Lemma u64_u64_add a b : u64 (u64 a + b) = u64 (a + b).
Proof. unfold u64. by rewrite Zplus_mod_idemp_l. Qed.

Lemma varint_accumulate_val result b n :
  (n < 10)%nat ->
  varint_accumulate (u64 result) b (7 * Z.of_nat n) =
    Ret (u64 (result + b mod 128 * 128 ^ Z.of_nat n)).
Proof.
  intros. destruct (varint_accumulate_ok (u64 result) b (7 * Z.of_nat n)) as [->|]; [lia| |lia].
  rewrite u64_add_u64, u64_u64_add. do 3 f_equal. rewrite Z.pow_mul_r by lia. done.
Qed.

Lemma varint_accumulate_small result b n :
  (n < 10)%nat -> 0 <= result -> result + b mod 128 * 128 ^ Z.of_nat n < 2 ^ 64 ->
  varint_accumulate result b (7 * Z.of_nat n) = Ret (result + b mod 128 * 128 ^ Z.of_nat n).
Proof.
  intros Hn Hr Hb. pose proof (Z.mod_pos_bound b 128 ltac:(lia)).
  pose proof (Z.pow_pos_nonneg 128 (Z.of_nat n) ltac:(lia) ltac:(lia)).
  rewrite <- (u64_small result) at 1 by nia.
  rewrite varint_accumulate_val by done. by rewrite u64_small by nia.
Qed.

Lemma varint_accumulate_over result b n :
  (10 <= n)%nat -> varint_accumulate result b (7 * Z.of_nat n) = UB.
Proof. intros. unfold varint_accumulate. by zbool. Qed.

(** What the decoder does on any bytes: [c] is the number of leading bytes with
    the continuation bit. *)
Fixpoint continuation (p : bytes) : nat :=
  match p with
  | [] => 0
  | b :: p' => if b <? 128 then 0 else S (continuation p')
  end.

Lemma continuation_le p : (continuation p <= length p)%nat.
Proof. induction p as [|b p IH]; simpl; [lia|]. destruct (b <? 128); lia. Qed.

Definition varint_outcome (p : bytes) (len : Z) (n : nat) (result : Z) : res (Z * Z) :=
  let c := continuation p in
  let total := (n + c)%nat in
  if Z.of_nat total <? len then
    if (total <? 10)%nat
    then Ret (u64 (result + 128 ^ Z.of_nat n * base128_value (take (S c) p)), Z.of_nat total + 1)
    else UB
  else if (Z.to_nat len <=? 10)%nat then AssertFail else UB.

Lemma varint_decode_loop_spec p len n result :
  is_bytes p -> Z.of_nat n < len -> len <= Z.of_nat n + zlen p -> (n < 10)%nat ->
  varint_decode_loop p len (u64 result) (7 * Z.of_nat n) (Z.of_nat n) =
    varint_outcome p len n result.
Proof.
  revert n result. induction p as [|b p IH]; intros n result Hp Hn Hlen Hn10;
    [rewrite zlen_nil in Hlen; lia|].
  inversion_clear Hp as [|? ? Hb Hp']. rewrite zlen_cons in Hlen.
  cbn [varint_decode_loop]. rewrite land_msb, varint_accumulate_val by done.
  unfold varint_outcome. cbn [continuation]. destruct (Z.ltb_spec b 128) as [Hs|Hs]; simpl negb; cbv iota.
  - cbn [rbind take base128_value]. rewrite Nat.add_0_r. zbool.
    rewrite (proj2 (Nat.ltb_lt n 10)) by done.
    rewrite take_0. cbn [base128_value]. do 3 f_equal. ring.
  - cbn [rbind]. destruct (Z.ltb_spec (Z.of_nat n + 1) len) as [Hl|Hl].
    + replace (7 * Z.of_nat n + 7) with (7 * Z.of_nat (S n)) by lia.
      replace (Z.of_nat n + 1) with (Z.of_nat (S n)) by lia.
      destruct (decide (S n < 10)%nat) as [Hn'|Hn'].
      * rewrite IH by (done || lia). unfold varint_outcome.
        replace (S n + continuation p)%nat with (n + S (continuation p))%nat by lia.
        destruct (_ <? len); [|done]. destruct (_ <? 10)%nat; [|done].
        do 2 f_equal. f_equal. cbn [take base128_value].
        rewrite Nat2Z.inj_succ, Z.pow_succ_r by lia. ring.
      * destruct p as [|b' p]; [rewrite zlen_nil in Hlen; lia|]. cbn [varint_decode_loop].
        rewrite !varint_accumulate_over by lia. cbn [rbind].
        rewrite (proj2 (Nat.leb_gt (Z.to_nat len) 10)) by lia.
        rewrite (proj2 (Nat.ltb_ge (n + _) 10)) by lia.
        destruct (negb _), (_ <? len); done.
    + zbool. rewrite (proj2 (Nat.leb_le (Z.to_nat len) 10)) by lia. done.
Qed.

Lemma varint_decode_spec p len :
  is_bytes p -> 1 <= len <= zlen p -> varint_decode p len = varint_outcome p len 0 0.
Proof.
  intros Hp Hl. apply (varint_decode_loop_spec p len 0 0); (done || lia).
Qed.

(** ** Decoding what was encoded *)
Lemma varint_decode_loop_bytes k n rest len result i :
  0 <= n < 128 ^ Z.of_nat (S k) -> 0 <= result -> (i < 10)%nat ->
  result + n * 128 ^ Z.of_nat i < 2 ^ 64 ->
  Z.of_nat i + zlen (base128 (S k) n) <= len ->
  varint_decode_loop (base128 (S k) n ++ rest) len result (7 * Z.of_nat i) (Z.of_nat i) =
    Ret (result + n * 128 ^ Z.of_nat i, Z.of_nat i + zlen (base128 (S k) n)).
Proof.
  revert n result i. induction k as [|k IH]; intros n result i Hn Hr Hi Hb Hl;
    rewrite (base128_S _ n) in *; destruct (Z.ltb_spec n 128) as [Hs|Hs];
    cbn [app varint_decode_loop] in *;
    pose proof (Z.pow_pos_nonneg 128 (Z.of_nat i) ltac:(lia) ltac:(lia)) as Hp;
    pose proof (Z.mod_pos_bound n 128 ltac:(lia)) as Hm;
    rewrite land_msb by (unfold byte_range; lia); zbool; cbv iota; rewrite zlen_cons in *.
  - rewrite varint_accumulate_small; rewrite ?(Z.mod_small n 128); (done || nia).
  - change (128 ^ Z.of_nat 1) with 128 in Hn. lia.
  - rewrite varint_accumulate_small; rewrite ?(Z.mod_small n 128); (done || nia).
  - pose proof (base128_nonempty k (n / 128)).
    replace ((128 + n mod 128)) with (n mod 128 + 1 * 128) by lia.
    pose proof (Z.div_mod n 128 ltac:(lia)) as Hdm.
    pose proof (Z.div_pos n 128 ltac:(lia) ltac:(lia)).
    assert (128 ^ Z.of_nat (S i) = 128 * 128 ^ Z.of_nat i) as Hpow
      by (rewrite Nat2Z.inj_succ, Z.pow_succ_r by lia; done).
    assert ((n mod 128 + 1 * 128) mod 128 = n mod 128) as Hmm
      by (by rewrite Z_mod_plus_full, Z.mod_mod by lia).
    rewrite varint_accumulate_small by (rewrite ?Hmm; nia).
    rewrite Hmm. cbn [rbind]. zbool.
    replace (7 * Z.of_nat i + 7) with (7 * Z.of_nat (S i)) by lia.
    replace (Z.of_nat i + 1) with (Z.of_nat (S i)) by lia.
    rewrite IH.
    + do 2 f_equal; [|lia]. rewrite Hpow. nia.
    + by apply div128_bound.
    + nia.
    + destruct (decide (i = 9)%nat) as [->|]; [|lia].
      change (128 ^ Z.of_nat 9) with 9223372036854775808 in *. nia.
    + rewrite Hpow. nia.
    + lia.
Qed.

Lemma varint_decode_bytes n rest len :
  0 <= n < 2 ^ 64 -> zlen (varint_bytes n) <= len ->
  varint_decode (varint_bytes n ++ rest) len = Ret (n, zlen (varint_bytes n)).
Proof.
  intros Hn Hl. pose proof (varint_decode_loop_bytes 9 n rest len 0 0) as H.
  change (Z.of_nat 0) with 0 in H. change (7 * 0) with 0 in H. change (128 ^ 0) with 1 in H.
  unfold varint_decode, varint_bytes in *. rewrite H; try lia. by rewrite Z.mul_1_r.
Qed.

(** ** Whatever the bytes and the length, a decoded varint lies inside the object *)
Lemma varint_decode_loop_range p len result bits n :
  match varint_decode_loop p len result bits n with
  | Ret (v, k) => n + 1 <= k <= n + zlen p /\ 0 <= v < 2 ^ 64
  | NoFuel => False
  | _ => True
  end.
Proof.
  revert result bits n. induction p as [|b p IH]; intros result bits n; simpl; [done|].
  rewrite zlen_cons. zlen_facts. unfold varint_accumulate.
  destruct (negb _), (bits <? 64); cbn [rbind]; try done.
  - destruct (n + 1 <? len); [|done].
    specialize (IH (u64 (result + u64 (Z.shiftl (Z.land b 127) bits))) (bits + 7) (n + 1)).
    destruct (varint_decode_loop _ _ _ _ _) as [[v k]| | |]; try done.
    split; [lia|apply IH].
  - split; [lia|apply u64_range].
Qed.

Lemma varint_decode_range p len v k :
  varint_decode p len = Ret (v, k) -> 1 <= k <= zlen p /\ 0 <= v < 2 ^ 64.
Proof.
  intros E. pose proof (varint_decode_loop_range p len 0 0 0) as Hr.
  unfold varint_decode in E. rewrite E in Hr. destruct Hr. split; [lia|done].
Qed.

Lemma varint_decode_fuel p len : varint_decode p len <> NoFuel.
Proof.
  intros E. pose proof (varint_decode_loop_range p len 0 0 0) as Hr.
  unfold varint_decode in E. by rewrite E in Hr.
Qed.

(** ** Properties *)

(** Encoding a 64-bit value into a buffer of [len] bytes writes
    exactly [varint_encoding_length] bytes (between 1 and 10), touches nothing
    behind them, and decoding the buffer gives the value and that length back;
    when the value does not fit in [len] bytes the [assert] fires. *)
Lemma varint_roundtrip (n : Z) (buf : bytes) (len : Z) :
  0 <= n < 2 ^ 64 -> 1 <= len <= zlen buf ->
  let k := varint_encoding_length n in
  1 <= k <= 10 /\
  (k <= len -> exists enc, zlen enc = k /\ is_bytes enc /\
     varint_encode n buf len = Ret (k, enc ++ zdrop k buf) /\
     varint_decode (enc ++ zdrop k buf) len = Ret (n, k)) /\
  (len < k -> varint_encode n buf len = AssertFail).
Proof.
  intros Hn Hl k. unfold k. rewrite <- varint_bytes_length by done.
  pose proof (varint_bytes_pos n). pose proof (varint_bytes_le n).
  rewrite varint_encode_spec by done. split_and!; [lia|done| |]; intros Hk.
  - exists (varint_bytes n). zbool. split_and!; [done|apply varint_bytes_is_bytes; lia|done|].
    by apply varint_decode_bytes.
  - by zbool.
Qed.

(** [varint_decode] on arbitrary bytes, with [len] inside the
    object: let [c] be the number of leading bytes with the continuation bit.
    If [c < len] and [c < 10] the value is the base-128 number modulo 2^64 and
    [c + 1] bytes are consumed; if [c >= len] the [assert] fires, unless ten
    bytes were read before, and then (as when [c >= 10]) the shift by 70 bits
    is undefined. *)
Lemma varint_decode_total (p : bytes) (len : Z) :
  is_bytes p -> 1 <= len <= zlen p ->
  let c := continuation p in
  (Z.of_nat c < len -> (c < 10)%nat ->
     varint_decode p len = Ret (u64 (base128_value (take (S c) p)), Z.of_nat c + 1)) /\
  (len <= Z.of_nat c -> len <= 10 -> varint_decode p len = AssertFail) /\
  ((10 <= c)%nat -> 10 < len -> varint_decode p len = UB).
Proof.
  intros Hp Hl c. unfold c. rewrite varint_decode_spec by done. unfold varint_outcome. cbn [Nat.add].
  change (128 ^ Z.of_nat 0) with 1. rewrite Z.add_0_l, Z.mul_1_l.
  split_and!; intros H1 H2.
  - zbool. by rewrite (proj2 (Nat.ltb_lt _ _)).
  - zbool. by rewrite (proj2 (Nat.leb_le _ _)) by lia.
  - destruct (_ <? len); [by rewrite (proj2 (Nat.ltb_ge _ _))|].
    by rewrite (proj2 (Nat.leb_gt _ _)) by lia.
Qed.
