(* ===== verification/Protobuf.v ===== *)
(** * The protobuf wire layer (libp2p/protobuf/protobuf.c)

    The field encoders and decoders, the two shapes every message codec of the
    program is written in (a sequence of [put_field] steps; a [decode_fields]
    loop that switches on the field number), the reference wire format and the
    interface lemmas ([emits], [parses]) the message files use. *)
From S2P Require Import Prelude Varint.

(** [enum WireType] *)
Definition WIRETYPE_VARINT : Z := 0.
Definition WIRETYPE_64BIT : Z := 1.
Definition WIRETYPE_LENGTH_DELIMITED : Z := 2.
Definition WIRETYPE_START_GROUP : Z := 3.
Definition WIRETYPE_END_GROUP : Z := 4.
Definition WIRETYPE_32BIT : Z := 5.

(** ** Encoders

    An encoder receives the buffer and [max_buffer_length]; it returns its
    [int] result and [*bytes_written], and the buffer after its stores. *)
Definition encoded : Type := res ((Z * Z) * bytes).

(** [unsigned int field_no = field_number << 3; field = field_no | field_type]
    (gcc: the shift of an [int] wraps) *)
Definition field_key (field_number field_type : Z) : Z :=
  Z.lor (u32 (s32 (Z.shiftl field_number 3))) field_type.

Definition protobuf_encode_length_delimited (field_number field_type : Z) (incoming : bytes)
    (incoming_length : Z) (buffer : bytes) (max_buffer_length : Z) : encoded :=
  let! (n1, buffer) :=
    varint_encode (field_key field_number field_type) buffer (s32 max_buffer_length) in
  let bytes_written := n1 in
  let! (n2, buffer) :=
    with_ptr buffer bytes_written (fun p =>
      varint_encode incoming_length p (s32 (u64 (max_buffer_length - bytes_written)))) in
  let bytes_written := u64 (bytes_written + n2) in
  if 0 <? incoming_length then
    let! src := memrd incoming incoming_length in
    let! (_, buffer) :=
      with_ptr buffer bytes_written (fun p => let! q := memwr p src in Ret (tt, q)) in
    Ret ((1, u64 (bytes_written + incoming_length)), buffer)
  else Ret ((1, bytes_written), buffer).

Definition protobuf_encode_string (field_number field_type : Z) (incoming buffer : bytes)
    (max_buffer_length : Z) : encoded :=
  let! n := strlen incoming in
  protobuf_encode_length_delimited field_number field_type incoming n buffer max_buffer_length.

Definition protobuf_encode_varint (field_number field_type incoming : Z) (buffer : bytes)
    (max_buffer_length : Z) : encoded :=
  let! (n1, buffer) :=
    varint_encode (field_key field_number field_type) buffer (s32 max_buffer_length) in
  let bytes_written := n1 in
  let! (n2, buffer) :=
    with_ptr buffer bytes_written (fun p =>
      varint_encode incoming p (s32 (u64 (max_buffer_length - bytes_written)))) in
  Ret ((1, u64 (bytes_written + n2)), buffer).

(** The step every message encoder repeats:
    [retVal = f(..., &buffer[*bytes_written], max - *bytes_written, &bytes_used);
     if (retVal == 0) return 0; *bytes_written += bytes_used;] then [k]. *)
Definition put_field (f : bytes -> Z -> encoded) (max : Z) (k : Z -> bytes -> encoded)
    (bytes_written : Z) (buffer : bytes) : encoded :=
  let! ((retVal, bytes_used), buffer) :=
    with_ptr buffer bytes_written (fun p => f p (u64 (max - bytes_written))) in
  if retVal =? 0 then Ret ((0, bytes_written), buffer)
  else k (u64 (bytes_written + bytes_used)) buffer.

Definition put_done (bytes_written : Z) (buffer : bytes) : encoded :=
  Ret ((1, bytes_written), buffer).

(** the same without the test of [retVal] *)
Definition put_unchecked (f : bytes -> Z -> encoded) (max : Z) (k : Z -> bytes -> encoded)
    (bytes_written : Z) (buffer : bytes) : encoded :=
  let! ((_, bytes_used), buffer) :=
    with_ptr buffer bytes_written (fun p => f p (u64 (max - bytes_written))) in
  k (u64 (bytes_written + bytes_used)) buffer.

(** the step in a loop over a list *)
Definition put_each {A} (f : A -> bytes -> Z -> encoded) (max : Z)
    (l : list A) (k : Z -> bytes -> encoded) : Z -> bytes -> encoded :=
  foldr (fun x k => put_field (f x) max k) k l.
Definition put_each_unchecked {A} (f : A -> bytes -> Z -> encoded) (max : Z)
    (l : list A) (k : Z -> bytes -> encoded) : Z -> bytes -> encoded :=
  foldr (fun x k => put_unchecked (f x) max k) k l.

(** A nested message is encoded into a temporary array of [size] bytes, which
    then becomes a length-delimited field. *)
Definition encode_nested `{Malloc} (field_number size : Z) (f : bytes -> Z -> encoded)
    (buffer : bytes) (max_buffer_length : Z) : encoded :=
  let! ((retVal, temp_size), temp) := f (fresh size) size in
  if retVal =? 0 then Ret ((0, 0), buffer)
  else protobuf_encode_length_delimited field_number WIRETYPE_LENGTH_DELIMITED
         temp temp_size buffer max_buffer_length.
(** the variant whose temporary array comes from [malloc] *)
Definition encode_nested_malloc `{Malloc} (field_number size : Z) (f : bytes -> Z -> encoded)
    (buffer : bytes) (max_buffer_length : Z) : encoded :=
  if malloc_ok size then encode_nested field_number size f buffer max_buffer_length
  else Ret ((0, 0), buffer).

(** ** Decoders *)
Section decoders.
Context `{Malloc}.

(** [None]: returned 0 (malloc failed).  Otherwise the copied bytes (whose
    number is [*results_length]) and [*bytes_read]. *)
Definition protobuf_decode_length_delimited (buffer : bytes) (buffer_length : Z)
  : res (option (bytes * Z)) :=
  let! (field_size, n) := varint_decode buffer (s32 buffer_length) in
  if malloc_ok field_size then
    let! p := padd buffer n in
    let! data := memrd p field_size in
    Ret (Some (data, u64 (n + field_size)))
  else Ret None.

Definition protobuf_decode_varint (buffer : bytes) (buffer_length : Z) : res (Z * Z) :=
  varint_decode buffer (s32 buffer_length).

(** The string is copied into a fresh zero-terminated object; when [length] is
    not positive [*results] is left as it was (the [None] inside). *)
Definition protobuf_decode_string (buffer : bytes) (buffer_length : Z)
  : res (option (option bytes * Z)) :=
  let! (v, n) := varint_decode buffer (s32 buffer_length) in
  let length := s32 v in
  let bytes_read := u64 (n + length) in
  if 0 <? length then
    if malloc_ok (length + 1) then
      let! p := padd buffer n in
      let! data := memrd p length in
      Ret (Some (Some (data ++ [0]), bytes_read))
    else Ret None
  else Ret (Some (None, bytes_read)).
End decoders.

(** field number, field type, bytes read *)
Definition protobuf_decode_field_and_type (buffer : bytes) (buffer_length : Z)
  : res (Z * Z * Z) :=
  let! (field, n) := varint_decode buffer buffer_length in
  let field_no := s32 (Z.shiftr field 3) in
  let field_type := u32 (u64 (field - s32 (Z.shiftl field_no 3))) in
  Ret (field_no, field_type, n).

(** The loop of every message decoder:
    [while (pos < buffer_length) { protobuf_decode_field_and_type(&buffer[pos],
     buffer_length, ...); pos += bytes_read; switch (field_no) {...} }].
    The handler is the [switch]: it receives the field number, [&buffer[pos]]
    and [buffer_length - pos], and returns the decoded object and what it adds
    to [pos], or [None] for the paths that leave the function with 0.  The
    length passed for the key is [buffer_length], not the rest. *)
Definition handler (S : Type) : Type := Z -> bytes -> Z -> S -> res (option (S * Z)).

Fixpoint decode_fields {S} (fuel : nat) (h : handler S) (buffer : bytes)
    (buffer_length pos : Z) (st : S) : res (option S) :=
  match fuel with
  | O => NoFuel
  | Datatypes.S fuel =>
    if pos <? buffer_length then
      let! p := padd buffer pos in
      let! (field_no, _, bytes_read) := protobuf_decode_field_and_type p (s32 buffer_length) in
      let pos := u64 (pos + bytes_read) in
      let! p := padd buffer pos in
      let! r := h field_no p (u64 (buffer_length - pos)) st in
      match r with
      | None => Ret None
      | Some (st', bytes_read) =>
        decode_fields fuel h buffer buffer_length (u64 (pos + bytes_read)) st'
      end
    else Ret (Some st)
  end.

(** every turn of the loop that does not move backwards reads at least the key *)
Definition decode_fuel (buffer_length : Z) : nat := S (Z.to_nat buffer_length).

(** ** Reference wire format *)
Definition wire_key (f wt : Z) : bytes := varint_bytes (f * 8 + wt).
Definition varint_field (f v : Z) : bytes := wire_key f WIRETYPE_VARINT ++ varint_bytes v.
Definition bytes_field (f : Z) (data : bytes) : bytes :=
  wire_key f WIRETYPE_LENGTH_DELIMITED ++ varint_bytes (zlen data) ++ data.

(** ** The encoder interface

    [emits e bs]: given room for [bs], the encoder [e] succeeds, stores exactly
    [bs] at the front of the buffer and reports its length. *)
Definition emits (e : bytes -> Z -> encoded) (bs : bytes) : Prop :=
  forall buf max, zlen bs <= max -> max <= zlen buf -> max <= INT_MAX ->
    e buf max = Ret ((1, zlen bs), bs ++ zdrop (zlen bs) buf).

(** [continues k max bs]: the rest [k] of an encoder emits [bs] behind what is
    already written. *)
Definition continues (k : Z -> bytes -> encoded) (max : Z) (bs : bytes) : Prop :=
  forall w buf, 0 <= w -> w + zlen bs <= max -> max <= zlen buf -> max <= INT_MAX ->
    k w buf = Ret ((1, w + zlen bs), ztake w buf ++ bs ++ zdrop (w + zlen bs) buf).

Lemma with_ptr_ok {A} p off (f : bytes -> res (A * bytes)) a q :
  0 <= off <= zlen p -> f (zdrop off p) = Ret (a, q) ->
  with_ptr p off f = Ret (a, ztake off p ++ q).
Proof. intros Ho Hf. unfold with_ptr. rewrite padd_ok by done. cbn [rbind]. by rewrite Hf. Qed.

Lemma u64_len z : 0 <= z <= 2 * INT_MAX -> u64 z = z.
Proof. intros. apply u64_small. unfold INT_MAX in *. lia. Qed.
Lemma s32_len z : 0 <= z <= INT_MAX -> s32 z = z.
Proof. intros. apply s32_small. unfold INT_MAX in *. lia. Qed.

Lemma continues_done max : continues put_done max [].
Proof.
  intros w buf Hw Hmax Hbuf _. unfold put_done. rewrite zlen_nil, Z.add_0_r. simpl.
  by rewrite ztake_zdrop.
Qed.

Lemma continues_put f max k bs ks :
  emits f bs -> continues k max ks -> continues (put_field f max k) max (bs ++ ks).
Proof.
  intros Hf Hk w buf Hw Hmax Hbuf Hint. unfold put_field. rewrite zlen_app in *.
  zlen_facts. unfold INT_MAX in *.
  rewrite u64_small by lia.
  erewrite with_ptr_ok; [|lia|apply Hf; rewrite ?zlen_drop; unfold INT_MAX; lia].
  cbn [rbind]. change (1 =? 0) with false. cbv iota.
  rewrite u64_small by lia.
  rewrite Hk; rewrite ?zlen_app, ?zlen_drop, ?zlen_take; rewrite ?zlen_drop; unfold INT_MAX; try lia.
  do 2 f_equal; [f_equal; lia|].
  rewrite zdrop_zdrop by lia.
  assert (ztake (w + zlen bs) (ztake w buf ++ bs ++ zdrop (w + zlen bs) buf) = ztake w buf ++ bs) as ->.
  { rewrite app_assoc. apply ztake_app_ge. rewrite zlen_app, zlen_take by lia. lia. }
  assert (zdrop (w + zlen bs + zlen ks) (ztake w buf ++ bs ++ zdrop (w + zlen bs) buf)
          = zdrop (w + (zlen bs + zlen ks)) buf) as ->.
  { replace (w + (zlen bs + zlen ks)) with (w + zlen bs + zlen ks) by lia.
    rewrite <- (zdrop_zdrop (zlen ks) (w + zlen bs) (ztake w buf ++ _)) by lia.
    rewrite app_assoc, zdrop_app_ge by (rewrite zlen_app, zlen_take by lia; lia).
    rewrite zdrop_zdrop by lia. done. }
  by rewrite <- !app_assoc.
Qed.

Lemma continues_put_unchecked f max k bs ks :
  emits f bs -> continues k max ks -> continues (put_unchecked f max k) max (bs ++ ks).
Proof.
  intros Hf Hk w buf Hw Hmax Hbuf Hint.
  rewrite <- (continues_put f max k bs ks Hf Hk w buf Hw Hmax Hbuf Hint).
  unfold put_unchecked, put_field. rewrite zlen_app in Hmax. zlen_facts. unfold INT_MAX in *.
  rewrite u64_small by lia.
  erewrite with_ptr_ok; [|lia|apply Hf; rewrite ?zlen_drop; unfold INT_MAX; lia]. reflexivity.
Qed.

Lemma continues_if (c : bool) f max k bs ks :
  (c = true -> emits f bs) -> continues k max ks ->
  continues ((if c then put_field f max else id) k) max ((if c then bs else []) ++ ks).
Proof. intros. destruct c; [apply continues_put; auto|done]. Qed.

Lemma continues_each {A} (f : A -> bytes -> Z -> encoded) g max l k ks :
  Forall (fun x => emits (f x) (g x)) l -> continues k max ks ->
  continues (put_each f max l k) max (concat (g <$> l) ++ ks).
Proof.
  intros Hl Hk. induction Hl as [|x l Hx _ IH]; simpl; [done|].
  rewrite <- app_assoc. by apply continues_put.
Qed.

Lemma continues_each_unchecked {A} (f : A -> bytes -> Z -> encoded) g max l k ks :
  Forall (fun x => emits (f x) (g x)) l -> continues k max ks ->
  continues (put_each_unchecked f max l k) max (concat (g <$> l) ++ ks).
Proof.
  intros Hl Hk. induction Hl as [|x l Hx _ IH]; simpl; [done|].
  rewrite <- app_assoc. by apply continues_put_unchecked.
Qed.

Lemma emits_continues (k : Z -> Z -> bytes -> encoded) bs :
  (forall max, continues (k max) max bs) -> emits (fun buf max => k max 0 buf) bs.
Proof.
  intros Hk buf max H1 H2 H3. rewrite Hk by lia. rewrite Z.add_0_l, ztake_0. done.
Qed.

(** ** Keys *)
Definition field_ok (f : Z) : Prop := 0 <= f < 2 ^ 28.
Definition wt_ok (wt : Z) : Prop := 0 <= wt < 8.

Lemma lor_shift3 f wt : 0 <= f -> wt_ok wt -> Z.lor (Z.shiftl f 3) wt = f * 8 + wt.
Proof. intros Hf Hw. by apply (lor_shiftl 3). Qed.

Lemma shiftl3_s32 f : field_ok f -> s32 (Z.shiftl f 3) = f * 8.
Proof. unfold field_ok. intros. rewrite Z.shiftl_mul_pow2 by lia. apply s32_small. lia. Qed.

Lemma field_key_ok f wt : field_ok f -> wt_ok wt -> field_key f wt = f * 8 + wt.
Proof.
  intros Hf Hw. unfold field_key. rewrite shiftl3_s32 by done.
  rewrite u32_small by (unfold field_ok in Hf; lia).
  rewrite <- lor_shift3 by (unfold field_ok in Hf; done || lia).
  by rewrite Z.shiftl_mul_pow2 by lia.
Qed.

Lemma key_bound f wt : field_ok f -> wt_ok wt -> 0 <= f * 8 + wt < 2 ^ 31.
Proof. unfold field_ok, wt_ok. lia. Qed.

Lemma decode_field_and_type_key f wt rest len :
  field_ok f -> wt_ok wt -> zlen (wire_key f wt) <= len ->
  protobuf_decode_field_and_type (wire_key f wt ++ rest) len = Ret (f, wt, zlen (wire_key f wt)).
Proof.
  intros Hf Hw Hl. pose proof (key_bound f wt Hf Hw). unfold protobuf_decode_field_and_type, wire_key in *.
  rewrite varint_decode_bytes by lia. cbn [rbind].
  assert (s32 (Z.shiftr (f * 8 + wt) 3) = f) as ->.
  { rewrite Z.shiftr_div_pow2 by lia. change (2 ^ 3) with 8. unfold wt_ok, field_ok in *.
    rewrite Z.div_add_l, (Z.div_small wt), Z.add_0_r by lia. apply s32_small. lia. }
  rewrite shiftl3_s32 by done. unfold wt_ok in *.
  replace (f * 8 + wt - f * 8) with wt by lia.
  rewrite u64_small, u32_small by lia. done.
Qed.

Lemma wire_key_length f wt : 0 <= f < 16 -> wt_ok wt -> zlen (wire_key f wt) = 1.
Proof. intros. unfold wire_key, wt_ok in *. by rewrite varint_bytes_small by lia. Qed.
Lemma wire_key_pos f wt : 1 <= zlen (wire_key f wt).
Proof. apply varint_bytes_pos. Qed.

(** ** The three field encoders emit the reference format *)
Lemma varint_encode_emits n buf max :
  0 <= n < 2 ^ 64 -> zlen (varint_bytes n) <= max -> max <= zlen buf -> max <= INT_MAX ->
  varint_encode n buf (s32 max) =
    Ret (zlen (varint_bytes n), varint_bytes n ++ zdrop (zlen (varint_bytes n)) buf).
Proof.
  intros Hn H1 H2 H3. pose proof (varint_bytes_pos n). rewrite s32_len by lia.
  rewrite varint_encode_spec by lia. by zbool.
Qed.

(** a write of [bs] behind [as_], which is already at the front of the buffer *)
Lemma with_ptr_append {A} (x y buf : bytes) (f : bytes -> res (A * bytes)) a :
  f (zdrop (zlen x) buf) = Ret (a, y ++ zdrop (zlen y) (zdrop (zlen x) buf)) ->
  zlen x + zlen y <= zlen buf ->
  with_ptr (x ++ zdrop (zlen x) buf) (zlen x) f =
    Ret (a, (x ++ y) ++ zdrop (zlen (x ++ y)) buf).
Proof.
  intros Hf Hl. erewrite with_ptr_ok; [|zlia|by rewrite zdrop_app_len].
  rewrite ztake_app_len, zlen_app, zdrop_zdrop, <- app_assoc by zlia. done.
Qed.

Lemma encode_varint_emits f wt v :
  field_ok f -> wt_ok wt -> 0 <= v < 2 ^ 64 ->
  emits (protobuf_encode_varint f wt v) (wire_key f wt ++ varint_bytes v).
Proof.
  intros Hf Hw Hv buf max H1 H2 H3. unfold protobuf_encode_varint.
  pose proof (key_bound f wt Hf Hw). rewrite field_key_ok by done. rewrite zlen_app in *.
  fold (wire_key f wt). pose proof (varint_bytes_pos v). pose proof (wire_key_pos f wt).
  unfold INT_MAX in *.
  rewrite varint_encode_emits by (unfold INT_MAX; fold (wire_key f wt); lia).
  fold (wire_key f wt). cbn [rbind]. rewrite u64_small by lia.
  erewrite with_ptr_append; [|apply varint_encode_emits; rewrite ?zlen_drop; unfold INT_MAX; lia|lia].
  cbn [rbind]. rewrite u64_small, zlen_app by lia. done.
Qed.

(** [incoming] may be an object longer than the [n] bytes that are encoded *)
Lemma encode_length_delimited_emits f wt data rest n :
  field_ok f -> wt_ok wt -> n = zlen data ->
  emits (protobuf_encode_length_delimited f wt (data ++ rest) n)
        (wire_key f wt ++ varint_bytes n ++ data).
Proof.
  intros Hf Hw -> buf max H1 H2 H3. unfold protobuf_encode_length_delimited.
  pose proof (key_bound f wt Hf Hw). rewrite field_key_ok by done. rewrite !zlen_app in *.
  fold (wire_key f wt). pose proof (varint_bytes_pos (zlen data)). pose proof (wire_key_pos f wt).
  zlen_facts. unfold INT_MAX in *.
  rewrite varint_encode_emits by (unfold INT_MAX; fold (wire_key f wt); lia).
  fold (wire_key f wt). cbn [rbind]. rewrite (u64_small (max - _)) by lia.
  erewrite with_ptr_append; [|apply varint_encode_emits; rewrite ?zlen_drop; unfold INT_MAX; lia|lia].
  cbn [rbind]. rewrite (u64_small (zlen _ + zlen _)) by lia.
  destruct (Z.ltb_spec 0 (zlen data)) as [Hd|Hd].
  - rewrite memrd_app by done. cbn [rbind].
    set (key := wire_key f wt) in *. set (sz := varint_bytes (zlen data)) in *.
    rewrite <- (zlen_app key sz).
    erewrite with_ptr_append;
      [|rewrite memwr_ok by (rewrite zlen_drop; rewrite zlen_app; lia); reflexivity
      |rewrite zlen_app; lia].
    cbn [rbind]. rewrite !zlen_app, <- !app_assoc, u64_small by lia. by rewrite !Z.add_assoc.
  - assert (data = []) as -> by (apply zlen_0_nil; lia).
    rewrite !app_nil_r, !zlen_app, zlen_nil, Z.add_0_r. done.
Qed.

Lemma wt_varint_ok : wt_ok WIRETYPE_VARINT.
Proof. unfold wt_ok, WIRETYPE_VARINT. lia. Qed.
Lemma wt_delimited_ok : wt_ok WIRETYPE_LENGTH_DELIMITED.
Proof. unfold wt_ok, WIRETYPE_LENGTH_DELIMITED. lia. Qed.

Lemma encode_varint_field_emits f v :
  field_ok f -> 0 <= v < 2 ^ 64 ->
  emits (protobuf_encode_varint f WIRETYPE_VARINT v) (varint_field f v).
Proof. intros. apply encode_varint_emits; auto using wt_varint_ok. Qed.

Lemma encode_bytes_field_emits f data n :
  field_ok f -> n = zlen data ->
  emits (protobuf_encode_length_delimited f WIRETYPE_LENGTH_DELIMITED data n) (bytes_field f data).
Proof.
  intros Hf ->. rewrite <- (app_nil_r data) at 1.
  apply encode_length_delimited_emits; auto using wt_delimited_ok.
Qed.

(** [n] bytes at the front of an object that may be longer *)
Lemma encode_prefix_field_emits f p n :
  field_ok f -> 0 <= n <= zlen p ->
  emits (protobuf_encode_length_delimited f WIRETYPE_LENGTH_DELIMITED p n) (bytes_field f (ztake n p)).
Proof.
  intros Hf Hn. rewrite <- (ztake_zdrop n p) at 1.
  unfold bytes_field. rewrite (zlen_take n p) by done.
  apply encode_length_delimited_emits; auto using wt_delimited_ok. by rewrite zlen_take.
Qed.

Lemma encode_string_field_emits f s rest :
  field_ok f -> Forall (fun b => b <> 0) s ->
  emits (protobuf_encode_string f WIRETYPE_LENGTH_DELIMITED (s ++ 0 :: rest)) (bytes_field f s).
Proof.
  intros Hf Hs buf max. unfold protobuf_encode_string. rewrite strlen_nul by done. cbn [rbind].
  apply encode_length_delimited_emits; auto using wt_delimited_ok.
Qed.

Lemma encode_nested_emits `{Malloc} f size e bs :
  field_ok f -> emits e bs -> zlen bs <= size <= INT_MAX ->
  emits (encode_nested f size e) (bytes_field f bs).
Proof.
  intros Hf He Hs buf max H1 H2 H3. zlen_facts. unfold encode_nested.
  rewrite He by (rewrite ?zlen_fresh; lia). cbn [rbind]. change (1 =? 0) with false. cbv iota.
  apply encode_length_delimited_emits; auto using wt_delimited_ok.
Qed.

Lemma encode_nested_malloc_emits `{Malloc} f size e bs :
  malloc_ok size = true -> field_ok f -> emits e bs -> zlen bs <= size <= INT_MAX ->
  emits (encode_nested_malloc f size e) (bytes_field f bs).
Proof.
  intros Hm Hf He Hs buf max. unfold encode_nested_malloc. rewrite Hm.
  by apply encode_nested_emits.
Qed.

(** ** The decoder interface

    [handles h f payload st st']: on field [f] the switch consumes exactly
    [payload].  [parses h bs st st']: the loop, standing at [bs], consumes it
    in at most one turn per byte and goes on behind it in state [st']. *)
Definition handles {S} (h : handler S) (f : Z) (payload : bytes) (st st' : S) : Prop :=
  forall rest rem, zlen payload <= rem <= INT_MAX ->
    h f (payload ++ rest) rem st = Ret (Some (st', zlen payload)).

Definition parses {S} (h : handler S) (bs : bytes) (st st' : S) : Prop :=
  forall pre post len, zlen pre + zlen bs <= len <= INT_MAX ->
    exists k, (k <= length bs)%nat /\ forall fuel,
      decode_fields (k + fuel) h (pre ++ bs ++ post) len (zlen pre) st =
      decode_fields fuel h (pre ++ bs ++ post) len (zlen pre + zlen bs) st'.

Section parses.
Context {S : Type} (h : handler S).

Lemma parses_nil st : parses h [] st st.
Proof.
  intros pre post len _. exists 0%nat. split; [done|]. intros fuel.
  by rewrite zlen_nil, Z.add_0_r.
Qed.

Lemma parses_app bs1 bs2 st1 st2 st3 :
  parses h bs1 st1 st2 -> parses h bs2 st2 st3 -> parses h (bs1 ++ bs2) st1 st3.
Proof.
  intros H1 H2 pre post len Hl. rewrite zlen_app in Hl. zlen_facts.
  destruct (H1 pre (bs2 ++ post) len) as (k1 & Hk1 & E1); [lia|].
  destruct (H2 (pre ++ bs1) post len) as (k2 & Hk2 & E2); [rewrite zlen_app; lia|].
  exists (k1 + k2)%nat. split; [rewrite length_app; lia|]. intros fuel.
  rewrite <- Nat.add_assoc, <- app_assoc, E1.
  rewrite <- !app_assoc, !zlen_app in E2. rewrite E2, zlen_app, Z.add_assoc. done.
Qed.

(** one turn of the loop at a field *)
Lemma decode_fields_turn f wt pre p len fuel st :
  field_ok f -> wt_ok wt -> zlen pre + zlen (wire_key f wt) <= len <= INT_MAX ->
  decode_fields (Datatypes.S fuel) h (pre ++ wire_key f wt ++ p) len (zlen pre) st =
    let! r := h f p (len - (zlen pre + zlen (wire_key f wt))) st in
    match r with
    | None => Ret None
    | Some (st', n) =>
      decode_fields fuel h (pre ++ wire_key f wt ++ p) len (u64 (zlen pre + zlen (wire_key f wt) + n)) st'
    end.
Proof.
  intros Hf Hw Hl. pose proof (wire_key_pos f wt). zlen_facts. cbn [decode_fields]. zbool.
  rewrite padd_app by done. cbn [rbind].
  rewrite s32_len, decode_field_and_type_key by (done || lia). cbn [rbind].
  rewrite (u64_len (zlen pre + _)) by lia.
  rewrite (app_assoc pre), padd_app by (rewrite zlen_app; lia). cbn [rbind].
  by rewrite u64_len by lia.
Qed.

(** a field that the handler takes without moving the position: the loop stays *)
Lemma decode_fields_stuck f wt pre p len fuel st :
  field_ok f -> wt_ok wt -> zlen pre + zlen (wire_key f wt) <= len <= INT_MAX ->
  h f p (len - (zlen pre + zlen (wire_key f wt))) st = Ret (Some (st, u64 (- zlen (wire_key f wt)))) ->
  decode_fields fuel h (pre ++ wire_key f wt ++ p) len (zlen pre) st = NoFuel.
Proof.
  intros Hf Hw Hl Hh. induction fuel as [|fuel IH]; [done|].
  rewrite decode_fields_turn, Hh by done. cbn [rbind].
  replace (u64 _) with (zlen pre); [exact IH|]. unfold u64. rewrite Zplus_mod_idemp_r.
  zlen_facts. unfold INT_MAX in *. rewrite Z.mod_small by lia. lia.
Qed.

Lemma parses_field f wt payload st st' :
  field_ok f -> wt_ok wt -> handles h f payload st st' ->
  parses h (wire_key f wt ++ payload) st st'.
Proof.
  intros Hf Hw Hh pre post len Hl. rewrite zlen_app in Hl. pose proof (wire_key_pos f wt).
  zlen_facts. exists 1%nat. split.
  { rewrite length_app. unfold zlen in *. lia. }
  intros fuel. rewrite <- app_assoc. cbn [Nat.add]. rewrite decode_fields_turn by (done || lia).
  rewrite Hh by lia. cbn [rbind].
  rewrite u64_len by (unfold INT_MAX in *; lia). by rewrite zlen_app, Z.add_assoc.
Qed.

Lemma parses_if (c : bool) bs st st' :
  (c = true -> parses h bs st st') -> (c = false -> st = st') ->
  parses h (if c then bs else []) st st'.
Proof. intros H1 H2. destruct c; [auto|]. rewrite H2 by done. apply parses_nil. Qed.

(** a repeated field, decoded element by element into the state *)
Lemma parses_each {A} (g : A -> bytes) (step : S -> A -> S) l st :
  (forall x st, x ∈ l -> parses h (g x) st (step st x)) ->
  parses h (concat (g <$> l)) st (fold_left step l st).
Proof.
  revert st. induction l as [|x l IH]; intros st Hx; simpl; [apply parses_nil|].
  eapply parses_app; [apply Hx, list_elem_of_here|].
  apply IH. intros y st' Hy. apply Hx. by apply list_elem_of_further.
Qed.

(** the same when each step relies on what the elements before it left: [F pre]
    is the state after the elements [pre] *)
Lemma parses_list {A} (g : A -> bytes) (F : list A -> S) l :
  (forall pre x post, l = pre ++ x :: post -> parses h (g x) (F pre) (F (pre ++ [x]))) ->
  parses h (concat (g <$> l)) (F []) (F l).
Proof.
  induction l as [|x l IH] using rev_ind; intros Hx; [apply parses_nil|].
  rewrite fmap_app, concat_app. eapply parses_app.
  - apply IH. intros pre y post ->. apply (Hx pre y (post ++ [x])). by rewrite <- app_assoc.
  - cbn [fmap list_fmap concat]. rewrite app_nil_r. by apply (Hx l x []).
Qed.

(** the whole loop on a buffer that starts with [bs] *)
Lemma parses_decode bs post st st' :
  parses h bs st st' -> zlen bs <= INT_MAX ->
  decode_fields (decode_fuel (zlen bs)) h (bs ++ post) (zlen bs) 0 st = Ret (Some st').
Proof.
  intros Hp Hl. destruct (Hp [] post (zlen bs)) as (k & Hk & E); [rewrite zlen_nil; lia|].
  simpl app in E. rewrite zlen_nil in E. unfold decode_fuel.
  replace (Datatypes.S (Z.to_nat (zlen bs))) with (k + Datatypes.S (length bs - k))%nat
    by (unfold zlen; lia).
  rewrite E. cbn [decode_fields]. by zbool.
Qed.
End parses.

(** ** Reading one field's payload *)
Lemma decode_varint_payload v rest rem :
  0 <= v < 2 ^ 64 -> zlen (varint_bytes v) <= rem <= INT_MAX ->
  varint_decode (varint_bytes v ++ rest) (s32 rem) = Ret (v, zlen (varint_bytes v)).
Proof.
  intros. pose proof (varint_bytes_pos v). rewrite s32_len by lia.
  apply varint_decode_bytes; lia.
Qed.

Lemma decode_bytes_payload {M : Malloc} {Hm : MallocOk M} data rest rem :
  zlen (varint_bytes (zlen data) ++ data) <= rem <= INT_MAX ->
  protobuf_decode_length_delimited ((varint_bytes (zlen data) ++ data) ++ rest) rem =
    Ret (Some (data, zlen (varint_bytes (zlen data) ++ data))).
Proof.
  intros Hl. unfold protobuf_decode_length_delimited. rewrite zlen_app in *.
  pose proof (varint_bytes_pos (zlen data)). zlen_facts. unfold INT_MAX in *.
  rewrite <- app_assoc, decode_varint_payload by (unfold INT_MAX; lia).
  cbn [rbind]. rewrite malloc_always, padd_app by done. cbn [rbind]. rewrite memrd_app by done.
  cbn [rbind]. by rewrite u64_small by lia.
Qed.

Lemma decode_string_payload {M : Malloc} {Hm : MallocOk M} s rest rem :
  zlen (varint_bytes (zlen s) ++ s) <= rem <= INT_MAX ->
  protobuf_decode_string ((varint_bytes (zlen s) ++ s) ++ rest) rem =
    Ret (Some (if 0 <? zlen s then Some (s ++ [0]) else None,
               zlen (varint_bytes (zlen s) ++ s))).
Proof.
  intros Hl. unfold protobuf_decode_string. rewrite zlen_app in *.
  pose proof (varint_bytes_pos (zlen s)). zlen_facts. unfold INT_MAX in *.
  rewrite <- app_assoc, decode_varint_payload by (unfold INT_MAX; lia).
  cbn [rbind]. rewrite s32_small, u64_small by lia.
  destruct (0 <? zlen s); [|done]. rewrite malloc_always, padd_app by done. cbn [rbind].
  by rewrite memrd_app by done.
Qed.

(** a length that is negative as an [int]: nothing is set, and the position
    goes back by what is left of it after the five bytes of the length *)
Lemma decode_string_negative {M : Malloc} k rest rem : 5 <= k < 2 ^ 31 -> 5 <= rem <= INT_MAX ->
  protobuf_decode_string (varint_bytes (2 ^ 32 - k) ++ rest) rem = Ret (Some (None, u64 (5 - k))).
Proof.
  intros Hk Hr. unfold protobuf_decode_string.
  assert (zlen (varint_bytes (2 ^ 32 - k)) = 5) as Hl.
  { rewrite varint_bytes_length by lia. unfold varint_encoding_length, N1, N2, N3, N4, N5. by zbool. }
  rewrite decode_varint_payload by lia. cbn [rbind].
  assert (s32 (2 ^ 32 - k) = - k) as ->.
  { unfold s32. replace (2 ^ 32 - k + 2 ^ 31) with (2 ^ 31 - k + 1 * 2 ^ 32) by lia.
    rewrite Z_mod_plus_full, Z.mod_small by lia. lia. }
  zbool. by rewrite Hl.
Qed.

Lemma parses_varint {S} (h : handler S) f v st st' :
  field_ok f -> handles h f (varint_bytes v) st st' -> parses h (varint_field f v) st st'.
Proof. intros. apply parses_field; auto using wt_varint_ok. Qed.

Lemma parses_bytes {S} (h : handler S) f data st st' :
  field_ok f -> handles h f (varint_bytes (zlen data) ++ data) st st' ->
  parses h (bytes_field f data) st st'.
Proof. intros. apply parses_field; auto using wt_delimited_ok. Qed.

(** ** Termination of the decoder loop

    A handler is [forward] when what it adds to the position stays inside the
    object; then every turn of the loop moves forward and the fuel is enough on
    every input. *)
Definition advances {A} (m : res (option (A * Z))) (p : bytes) : Prop :=
  match m with
  | Ret (Some (_, n)) => 0 <= n <= zlen p
  | NoFuel => False
  | _ => True
  end.

Definition forward {S} (h : handler S) : Prop :=
  forall f p rem st, zlen p < 2 ^ 63 -> advances (h f p rem st) p.

Lemma padd_inv p n q : padd p n = Ret q -> 0 <= n <= zlen p /\ q = zdrop n p.
Proof.
  unfold padd. destruct (Z.leb_spec 0 n), (Z.leb_spec n (zlen p)); simpl; naive_solver.
Qed.

Lemma decode_fields_total {S} (h : handler S) buffer len fuel pos st :
  forward h -> zlen buffer < 2 ^ 63 -> 0 <= pos -> (Z.to_nat (len - pos) < fuel)%nat ->
  decode_fields fuel h buffer len pos st <> NoFuel.
Proof.
  intros Hh Hb. revert pos st. induction fuel as [|fuel IH]; intros pos st Hp Hf; [lia|].
  cbn [decode_fields]. destruct (Z.ltb_spec pos len) as [Hlt|]; [|done].
  destruct (padd buffer pos) as [p| | |] eqn:Ep; cbn [rbind]; try done;
    [|unfold padd in Ep; by destruct (_ && _)].
  apply padd_inv in Ep as [? ->]. unfold protobuf_decode_field_and_type. rewrite rbind_assoc.
  destruct (varint_decode _ _) as [[v n]| | |] eqn:Ev; cbn [rbind]; try done;
    [|by apply varint_decode_fuel in Ev].
  apply varint_decode_range in Ev as [Hn _]. rewrite zlen_drop in Hn by lia.
  rewrite (u64_small (pos + n)) by lia.
  rewrite padd_ok by lia. cbn [rbind].
  specialize (Hh (s32 (Z.shiftr v 3)) (zdrop (pos + n) buffer) (u64 (len - (pos + n))) st).
  rewrite zlen_drop in Hh by lia. specialize (Hh ltac:(lia)). revert Hh.
  destruct (h _ _ _ _) as [[[st' m]|]| | |]; cbn [rbind advances]; try done.
  intros Hm. rewrite zlen_drop in Hm by lia. rewrite u64_small by lia. apply IH; lia.
Qed.

Lemma decode_fields_terminates {S} (h : handler S) buffer len st :
  forward h -> zlen buffer < 2 ^ 63 ->
  decode_fields (decode_fuel len) h buffer len 0 st <> NoFuel.
Proof. intros. apply decode_fields_total; unfold decode_fuel; (done || lia). Qed.

Lemma advances_varint {A} p len (k : Z -> A) :
  advances (let! (v, n) := varint_decode p len in Ret (Some (k v, n))) p.
Proof.
  destruct (varint_decode p len) as [[v n]| | |] eqn:E; simpl; try done.
  - apply varint_decode_range in E. lia.
  - by apply varint_decode_fuel in E.
Qed.

Lemma advances_bytes `{Malloc} p len :
  zlen p < 2 ^ 63 -> advances (protobuf_decode_length_delimited p len) p.
Proof.
  intros Hp. unfold protobuf_decode_length_delimited.
  destruct (varint_decode p (s32 len)) as [[v n]| | |] eqn:E; simpl; try done;
    [|by apply varint_decode_fuel in E].
  apply varint_decode_range in E as [Hn Hv].
  destruct (malloc_ok v); [|done]. rewrite padd_ok by lia. cbn [rbind]. unfold memrd.
  destruct (Z.leb_spec 0 v), (Z.leb_spec v (zlen (zdrop n p))) as [Hd|]; simpl; try done.
  rewrite zlen_drop in Hd by lia. rewrite u64_small by lia. lia.
Qed.

Lemma decode_bytes_inv `{Malloc} p len b n :
  protobuf_decode_length_delimited p len = Ret (Some (b, n)) -> zlen b <= zlen p.
Proof.
  unfold protobuf_decode_length_delimited. intros ([v m] & E & Hb)%rbind_inv.
  apply varint_decode_range in E as [Hn Hv]. destruct (malloc_ok v); [|done].
  rewrite padd_ok in Hb by lia. cbn [rbind] in Hb. unfold memrd in Hb.
  destruct (Z.leb_spec 0 v), (Z.leb_spec v (zlen (zdrop m p))) as [Hd|]; simpl in Hb; try done.
  injection Hb as <- _. rewrite zlen_take by lia. rewrite zlen_drop in Hd by lia. lia.
Qed.

Lemma memrd_fuel p n : memrd p n <> NoFuel.
Proof. unfold memrd. by destruct (_ && _). Qed.

(** ** Lengths of fields (for the [*_encode_size] bounds) *)
Lemma varint_field_le f v : 0 <= f < 16 -> zlen (varint_field f v) <= 11.
Proof.
  intros. unfold varint_field. rewrite zlen_app, wire_key_length by auto using wt_varint_ok.
  pose proof (varint_bytes_le v). lia.
Qed.
Lemma bytes_field_le f data : 0 <= f < 16 -> zlen (bytes_field f data) <= 11 + zlen data.
Proof.
  intros. unfold bytes_field. rewrite !zlen_app, wire_key_length by auto using wt_delimited_ok.
  pose proof (varint_bytes_le (zlen data)). lia.
Qed.

Lemma varint_bytes_le2 n : 0 <= n < 16384 -> zlen (varint_bytes n) <= 2.
Proof.
  intros. rewrite varint_bytes_length by lia. unfold varint_encoding_length, N1, N2.
  destruct (n <? _); [lia|]. by zbool.
Qed.
Lemma bytes_field_small f data : 0 <= f < 16 -> zlen data < 16384 ->
  zlen (bytes_field f data) <= 3 + zlen data.
Proof.
  intros. zlen_facts. unfold bytes_field. rewrite !zlen_app, wire_key_length by auto using wt_delimited_ok.
  pose proof (varint_bytes_le2 (zlen data)). lia.
Qed.

(** ** The codec interface

    What the message files promise to the messages that nest theirs: an encoder
    that emits a reference form, a size estimate that is large enough, and a
    decoder that reads the reference form back. *)
Class Codec (T : Type) := {
  codec_encode : T -> bytes -> Z -> encoded;
  codec_size : T -> Z;
  codec_decode : bytes -> Z -> res (option T)
}.

Class CodecLaws {T} (C : Codec T) := {
  codec_wire : T -> bytes;
  codec_valid : T -> Prop;
  codec_saved : T -> T;
  codec_emits x : codec_valid x -> emits (codec_encode x) (codec_wire x);
  codec_size_ok x : codec_valid x -> zlen (codec_wire x) <= codec_size x <= INT_MAX;
  codec_decode_wire x post :
    codec_valid x ->
    codec_decode (codec_wire x ++ post) (zlen (codec_wire x)) = Ret (Some (codec_saved x))
}.

Section codec.
Context {T : Type} {C : Codec T} {L : CodecLaws C}.

(** encode into a buffer of the estimated size, then decode what was written *)
Lemma codec_roundtrip x buf : codec_valid x -> zlen buf = codec_size x ->
  exists n buf', codec_encode x buf (zlen buf) = Ret ((1, n), buf') /\
    n <= zlen buf' /\ zlen buf' = zlen buf /\ codec_decode buf' n = Ret (Some (codec_saved x)).
Proof.
  intros Hx Hb. pose proof (codec_size_ok x Hx). zlen_facts.
  eexists _, _. split; [apply codec_emits; (done || lia)|].
  rewrite zlen_app, zlen_drop by lia. split; [lia|]. split; [lia|]. by apply codec_decode_wire.
Qed.

Lemma codec_nested_emits {M : Malloc} f x : field_ok f -> codec_valid x ->
  emits (encode_nested f (codec_size x) (codec_encode x)) (bytes_field f (codec_wire x)).
Proof. intros. apply encode_nested_emits; auto using codec_emits, codec_size_ok. Qed.

Lemma codec_nested_malloc_emits {M : Malloc} {Hm : MallocOk M} f x : field_ok f -> codec_valid x ->
  emits (encode_nested_malloc f (codec_size x) (codec_encode x)) (bytes_field f (codec_wire x)).
Proof.
  intros. apply encode_nested_malloc_emits; auto using codec_emits, codec_size_ok, malloc_always.
Qed.

Lemma codec_decode_all x : codec_valid x ->
  codec_decode (codec_wire x) (zlen (codec_wire x)) = Ret (Some (codec_saved x)).
Proof. intros. rewrite <- (app_nil_r (codec_wire x)) at 1. by apply codec_decode_wire. Qed.
End codec.

(** one branch of a handler's switch on a well-formed payload *)
Tactic Notation "solve_handles" reference(h) :=
  let rest := fresh "rest" in let rem := fresh "rem" in let Hr := fresh "Hr" in
  intros rest rem Hr; unfold h; zbool;
  first [ rewrite decode_varint_payload by lia
        | rewrite decode_bytes_payload by auto
        | rewrite decode_string_payload by auto ];
  cbn [rbind].
(** one branch of a handler that reads a length-delimited field moves forward *)
Ltac solve_advances Hp :=
  match goal with
  | |- advances (rbind (protobuf_decode_length_delimited ?p ?rem) _) _ =>
    let Ha := fresh "Ha" in
    pose proof (advances_bytes p rem Hp) as Ha; revert Ha;
    let E := fresh "E" in
    destruct (protobuf_decode_length_delimited p rem) as [[[? ?]|]| | |] eqn:E; cbn [rbind]; try done;
    apply decode_bytes_inv in E
  | |- advances (rbind (varint_decode _ _) _) _ => apply advances_varint
  | |- advances (Ret (Some (_, 0))) _ => simpl; zlen_facts; lia
  end.

Ltac solve_field_ok := unfold field_ok; lia.
#[export] Hint Extern 1 (field_ok _) => solve_field_ok : wire.
#[export] Hint Resolve advances_varint advances_bytes : wire.
#[export] Hint Resolve wt_varint_ok wt_delimited_ok continues_done continues_put continues_if
  encode_varint_field_emits encode_bytes_field_emits encode_prefix_field_emits encode_string_field_emits
  parses_nil parses_varint parses_bytes : wire.

(** ** Properties *)

(** A length-delimited field written by
    [protobuf_encode_length_delimited] is read back by
    [protobuf_decode_field_and_type] followed by
    [protobuf_decode_length_delimited]: the same field number, wire type and
    bytes, and together they consume exactly what was written. *)
Lemma length_delimited_roundtrip {M : Malloc} {Hm : MallocOk M} (f : Z) (data buf : bytes) :
  0 <= f < 2 ^ 28 -> zlen (bytes_field f data) <= zlen buf <= INT_MAX ->
  exists k v out p,
    protobuf_encode_length_delimited f WIRETYPE_LENGTH_DELIMITED data (zlen data) buf (zlen buf) =
      Ret ((1, k + v), out) /\ zlen out = zlen buf /\
    protobuf_decode_field_and_type out (zlen buf) = Ret (f, WIRETYPE_LENGTH_DELIMITED, k) /\
    padd out k = Ret p /\
    protobuf_decode_length_delimited p (zlen buf - k) = Ret (Some (data, v)).
Proof.
  intros Hf Hl. set (key := wire_key f WIRETYPE_LENGTH_DELIMITED).
  set (payload := varint_bytes (zlen data) ++ data).
  assert (bytes_field f data = key ++ payload) as Hb by done.
  assert (zlen key + zlen payload <= zlen buf) as Hr by (rewrite <- zlen_app, <- Hb; lia). zlen_facts.
  exists (zlen key), (zlen payload), (bytes_field f data ++ zdrop (zlen (bytes_field f data)) buf),
    (payload ++ zdrop (zlen (bytes_field f data)) buf).
  rewrite (encode_bytes_field_emits f data (zlen data) Hf eq_refl) by lia.
  rewrite Hb, zlen_app, <- app_assoc. split_and!.
  - done.
  - rewrite !zlen_app, zlen_drop by lia. lia.
  - apply decode_field_and_type_key; [done|apply wt_delimited_ok|fold key; lia].
  - by apply padd_app.
  - apply decode_bytes_payload. fold payload. lia.
Qed.

(** [protobuf_decode_length_delimited] and [protobuf_decode_string]
    trust the length in the message: when it exceeds what is left of the
    object they copy from behind its end, whatever [buffer_length] says. *)
Lemma length_delimited_overread {M : Malloc} {Hm : MallocOk M} (v : Z) (rest : bytes) (len : Z) :
  zlen rest < v < 2 ^ 31 -> 10 <= len <= INT_MAX ->
  protobuf_decode_length_delimited (varint_bytes v ++ rest) len = UB /\
  protobuf_decode_string (varint_bytes v ++ rest) len = UB.
Proof.
  intros Hv Hl. zlen_facts. pose proof (varint_bytes_le v).
  unfold protobuf_decode_length_delimited, protobuf_decode_string.
  rewrite decode_varint_payload by lia. cbn [rbind].
  rewrite (s32_small v) by lia. zbool. rewrite !malloc_always, padd_app by done. cbn [rbind].
  by rewrite memrd_over by lia.
Qed.
