(* ===== verification/Vector.v ===== *)
(** * Pointer vectors (libp2p/utils/vector.c)

    A growable array of pointers.  A vector owns its slots, not what they point
    to; an element NULL is [None]. *)
From S2P Require Import Prelude.

(** [capacity] and [total] of [struct Libp2pVector]; [v_alloc] is the number of
    slots really behind [items] (0 when the allocation failed); [v_items] are
    the slots below [total]. *)
Record vector (A : Type) := mkVector {
  v_capacity : Z;
  v_alloc : Z;
  v_items : list (option A)
}.
Arguments mkVector {A}.
Arguments v_capacity {A}.
Arguments v_alloc {A}.
Arguments v_items {A}.

Definition v_total {A} (v : vector A) : Z := zlen (v_items v).
Definition sizeof_Libp2pVector : Z := 16.
Definition sizeof_ptr : Z := 8.

Section vector.
Context {M : Malloc} {A : Type}.
Implicit Types v : vector A.

(** the result of [malloc] for the struct itself is not tested *)
Definition libp2p_utils_vector_new (initial_size : Z) : res (vector A) :=
  if malloc_ok sizeof_Libp2pVector then
    Ret (mkVector initial_size
           (if malloc_ok (u64 (sizeof_ptr * initial_size)) then initial_size else 0) [])
  else UB.

Definition libp2p_utils_vector_total v : Z := v_total v.

(** [realloc] to 0 bytes frees the slots *)
Definition libp2p_utils_vector_resize v (capacity : Z) : vector A :=
  if capacity =? 0 then mkVector (v_capacity v) 0 (v_items v)
  else if malloc_ok (u64 (sizeof_ptr * capacity))
  then mkVector capacity capacity (v_items v)
  else v.

Definition libp2p_utils_vector_add v (item : option A) : res (Z * vector A) :=
  let! v :=
    if v_capacity v =? v_total v then
      let! c := int_op (v_capacity v * 2) in Ret (libp2p_utils_vector_resize v c)
    else Ret v in
  if v_total v <? v_alloc v then
    let! total := int_op (v_total v + 1) in
    Ret (total, mkVector (v_capacity v) (v_alloc v) (v_items v ++ [item]))
  else UB.

Definition libp2p_utils_vector_set v (index : Z) (item : option A) : vector A :=
  if (0 <=? index) && (index <? v_total v)
  then mkVector (v_capacity v) (v_alloc v) (<[Z.to_nat index := item]> (v_items v))
  else v.

Definition libp2p_utils_vector_get v (index : Z) : option A :=
  if (0 <=? index) && (index <? v_total v)
  then mjoin (v_items v !! Z.to_nat index)
  else None.

(** what a loop [for (i = 0; i < v->total; i++) libp2p_utils_vector_get(v, i)] sees *)
Definition vector_each v : list (option A) :=
  libp2p_utils_vector_get v <$> seqZ 0 (libp2p_utils_vector_total v).

(** one turn of the shifting loop *)
Definition vector_shift (l : list (option A)) (i : nat) : list (option A) :=
  <[S i := None]> (<[i := mjoin (l !! S i)]> l).

Definition libp2p_utils_vector_delete v (index : Z) : vector A :=
  if (index <? 0) || (v_total v <=? index) then v
  else
    let items := <[Z.to_nat index := None]> (v_items v) in
    let items := foldl vector_shift items (seq 0 (length items - 1)) in
    let items := take (length items - 1) items in
    let v := mkVector (v_capacity v) (v_alloc v) items in
    if (0 <? v_total v) && (v_total v =? v_capacity v / 4)
    then libp2p_utils_vector_resize v (v_capacity v / 2)
    else v.

(** ** The shifting loop *)
Lemma shift_loop (pre l : list (option A)) x n :
  length l = n ->
  foldl vector_shift (pre ++ x :: l) (seq (length pre) n) =
    pre ++ l ++ (match l with [] => [x] | _ => [None] end).
Proof.
  revert pre x n. induction l as [|y l IH]; intros pre x n <-; [done|].
  cbn [length seq foldl]. unfold vector_shift at 2.
  replace (pre ++ x :: y :: l) with ((pre ++ [x]) ++ y :: l) by (by rewrite <- app_assoc).
  rewrite lookup_app_r by (rewrite length_app; simpl; lia).
  replace (S (length pre) - length (pre ++ [x]))%nat with 0%nat by (rewrite length_app; simpl; lia).
  cbn [lookup list_lookup mjoin option_join].
  rewrite <- app_assoc. cbn [app].
  replace (length pre) with (length pre + 0)%nat at 2 by lia. rewrite insert_app_r.
  replace (S (length pre)) with (length pre + 1)%nat at 1 by lia. rewrite insert_app_r.
  cbn [insert list_insert].
  replace (pre ++ y :: None :: l) with ((pre ++ [y]) ++ None :: l) by (by rewrite <- app_assoc).
  replace (S (length pre)) with (length (pre ++ [y])) by (rewrite length_app; simpl; lia).
  rewrite IH by done. rewrite <- app_assoc. simpl. by destruct l.
Qed.

Lemma vector_delete_items v index : 0 <= index < v_total v ->
  v_items (libp2p_utils_vector_delete v index) = tail (<[Z.to_nat index := None]> (v_items v)).
Proof.
  intros Hi. unfold libp2p_utils_vector_delete. zbool.
  assert (v_items v <> []) as Hne.
  { intros E. unfold v_total in Hi. rewrite E in Hi. unfold zlen in Hi. simpl length in Hi. lia. }
  set (l := <[_ := _]> (v_items v)).
  assert (length l <> 0%nat) as Hl.
  { unfold l. rewrite length_insert. by destruct (v_items v). }
  destruct l as [|x l]; [done|].
  pose proof (shift_loop [] l x (length l) eq_refl) as Hs. cbn [length app] in Hs.
  assert (take (length (foldl vector_shift (x :: l) (seq 0 (length (x :: l) - 1))) - 1)
            (foldl vector_shift (x :: l) (seq 0 (length (x :: l) - 1))) = l) as ->.
  { cbn [length]. rewrite Nat.sub_succ, Nat.sub_0_r, Hs.
    rewrite length_app. destruct l; [done|]. simpl length at 2.
    rewrite Nat.add_sub. apply take_app_length. }
  cbn [tail]. destruct (_ && _); [|done]. unfold libp2p_utils_vector_resize.
  destruct (_ =? 0); [done|]. by destruct (malloc_ok _).
Qed.

Lemma vector_each_items v : vector_each v = v_items v.
Proof.
  apply list_eq. intros i. unfold vector_each, libp2p_utils_vector_total, v_total, zlen.
  rewrite list_lookup_fmap. destruct (decide (i < length (v_items v))%nat) as [Hi|Hi].
  - rewrite lookup_seqZ_lt by lia. cbn [fmap option_fmap option_map].
    unfold libp2p_utils_vector_get, v_total, zlen. zbool. replace (Z.to_nat (0 + Z.of_nat i)) with i by lia.
    by destruct (lookup_lt_is_Some_2 (v_items v) i Hi) as [x ->].
  - rewrite lookup_seqZ_ge by lia. symmetry. apply lookup_ge_None_2. lia.
Qed.

(** ** The representation invariant *)
Definition vector_ok v : Prop := 1 <= v_capacity v <= 2 ^ 30 /\ v_alloc v = v_capacity v /\
  v_total v <= v_capacity v.

Context {Hm : MallocOk M}.

Lemma vector_new_ok n : 1 <= n <= 2 ^ 30 ->
  exists v, libp2p_utils_vector_new n = Ret v /\ vector_ok v /\ v_items v = [].
Proof.
  intros. unfold libp2p_utils_vector_new. rewrite !malloc_always. eexists. split; [done|].
  split; [|done]. unfold vector_ok, v_total, zlen. simpl v_items. simpl v_capacity. simpl v_alloc. simpl length. lia.
Qed.

Lemma vector_add_ok v item : vector_ok v -> v_total v < 2 ^ 29 ->
  exists v', libp2p_utils_vector_add v item = Ret (v_total v + 1, v') /\
    vector_ok v' /\ v_items v' = v_items v ++ [item].
Proof.
  intros (Hc & Ha & Ht) Hlim. unfold libp2p_utils_vector_add.
  destruct (Z.eqb_spec (v_capacity v) (v_total v)) as [He|He].
  - rewrite int_op_small by lia. cbn [rbind]. unfold libp2p_utils_vector_resize. zbool.
    rewrite malloc_always. unfold v_total in *. cbn [v_items v_alloc v_capacity] in *. zbool.
    rewrite int_op_small by (zlen_facts; lia). cbn [rbind]. eexists. split; [done|].
    split; [|done]. unfold vector_ok, v_total. cbn [v_items v_alloc v_capacity].
    rewrite zlen_app. change (zlen [item]) with 1. lia.
  - cbn [rbind]. unfold v_total in *. zbool. rewrite int_op_small by (zlen_facts; lia).
    cbn [rbind]. eexists. split; [done|].
    split; [|done]. unfold vector_ok, v_total. cbn [v_items v_alloc v_capacity].
    rewrite zlen_app. change (zlen [item]) with 1. lia.
Qed.

Lemma vector_delete_ok v index : vector_ok v -> vector_ok (libp2p_utils_vector_delete v index).
Proof.
  intros Hv. destruct (decide (0 <= index < v_total v)) as [Hi|Hi].
  2:{ unfold libp2p_utils_vector_delete. destruct (_ || _) eqn:E; [done|].
      apply orb_false_iff in E as [E1%Z.ltb_ge E2%Z.leb_gt]. lia. }
  pose proof (vector_delete_items v index Hi) as Hitems.
  assert (v_total (libp2p_utils_vector_delete v index) = v_total v - 1) as Htot.
  { unfold v_total in *. rewrite Hitems. unfold zlen in *.
    pose proof (length_insert (v_items v) (Z.to_nat index) None) as Hl. revert Hl.
    destruct (<[_:=_]> (v_items v)); simpl; lia. }
  revert Hitems Htot. unfold libp2p_utils_vector_delete. zbool.
  set (w := mkVector _ _ (take _ _)).
  destruct ((0 <? v_total w) && (v_total w =? v_capacity w / 4)) eqn:E.
  - apply andb_prop in E as [E1%Z.ltb_lt E2%Z.eqb_eq].
    unfold libp2p_utils_vector_resize. destruct Hv as (Hc & Ha & Ht).
    assert (v_capacity w = v_capacity v) as Hw by done. rewrite Hw in *.
    pose proof (Z.div_mod (v_capacity v) 4 ltac:(lia)).
    pose proof (Z.mod_pos_bound (v_capacity v) 4 ltac:(lia)).
    pose proof (Z.div_mod (v_capacity v) 2 ltac:(lia)).
    pose proof (Z.mod_pos_bound (v_capacity v) 2 ltac:(lia)).
    zbool. rewrite malloc_always. intros _ _. unfold vector_ok. cbn [v_capacity v_alloc].
    change (v_total (mkVector _ _ (v_items w))) with (v_total w). lia.
  - intros _ Htot. destruct Hv as (Hc & Ha & Ht). unfold vector_ok.
    assert (v_capacity w = v_capacity v /\ v_alloc w = v_alloc v) as [-> ->] by done. lia.
Qed.
End vector.

Lemma vector_new_total {M : Malloc} {A} n : libp2p_utils_vector_new (A := A) n <> NoFuel.
Proof. unfold libp2p_utils_vector_new. by destruct (malloc_ok _). Qed.
Lemma int_op_total z : int_op z <> NoFuel.
Proof. unfold int_op. by destruct (_ && _). Qed.
Lemma vector_add_total {M : Malloc} {A} (v : vector A) x : libp2p_utils_vector_add v x <> NoFuel.
Proof.
  unfold libp2p_utils_vector_add. apply rbind_total.
  - destruct (_ =? _); [|done]. apply rbind_total; [apply int_op_total|done].
  - intros w _. destruct (_ <? _); [|done]. apply rbind_total; [apply int_op_total|done].
Qed.

(** ** Vectors built by pushing *)

(** the capacity after [n] pushes into a new vector of capacity 1 *)
Fixpoint push_capacity (n : nat) : Z :=
  match n with
  | O => 1
  | S n => if push_capacity n =? Z.of_nat n then push_capacity n * 2 else push_capacity n
  end.
Definition vector_of {A} (l : list (option A)) : vector A :=
  mkVector (push_capacity (length l)) (push_capacity (length l)) l.

(** a vector pointer that stays NULL until the first push *)
Definition pushed {A} (l : list (option A)) : option (vector A) :=
  match l with [] => None | _ => Some (vector_of l) end.

(** the elements that are not NULL *)
Definition live {A} (v : vector A) : list A := omap id (v_items v).
Definition all_live {A} (v : vector A) : Prop := v_items v = Some <$> live v.

Lemma push_capacity_bound n : 1 <= push_capacity n /\ Z.of_nat n <= push_capacity n <= Z.max 1 (2 * Z.of_nat n).
Proof.
  induction n as [|n IH]; cbn [push_capacity]; [lia|].
  destruct (Z.eqb_spec (push_capacity n) (Z.of_nat n)); lia.
Qed.

Lemma live_vector_of {A} (l : list A) : live (vector_of (Some <$> l)) = l.
Proof.
  unfold live. cbn [v_items vector_of]. induction l as [|x l IH]; simpl; [done|]. by f_equal.
Qed.

Lemma vector_add_of {M : Malloc} {Hm : MallocOk M} {A} (l : list (option A)) x : zlen l < 2 ^ 30 ->
  libp2p_utils_vector_add (vector_of l) x = Ret (zlen l + 1, vector_of (l ++ [x])).
Proof.
  intros Hl. pose proof (push_capacity_bound (length l)) as Hc. unfold zlen in Hl.
  unfold libp2p_utils_vector_add, vector_of, v_total, zlen. cbn [v_items v_capacity v_alloc].
  rewrite length_app, Nat.add_1_r. cbn [push_capacity].
  destruct (Z.eqb_spec (push_capacity (length l)) (Z.of_nat (length l))) as [He|He].
  - rewrite int_op_small by lia. cbn [rbind]. unfold libp2p_utils_vector_resize. zbool.
    rewrite malloc_always. cbn [v_items v_capacity v_alloc]. zbool. by rewrite int_op_small by lia.
  - cbn [rbind v_items v_alloc v_capacity]. zbool. by rewrite int_op_small by lia.
Qed.

Lemma vector_new_of {M : Malloc} {Hm : MallocOk M} {A} :
  libp2p_utils_vector_new 1 = Ret (vector_of (A := A) []).
Proof. unfold libp2p_utils_vector_new. by rewrite !malloc_always. Qed.

(** a vector all of whose elements are there *)
Definition holds {A} (v : vector A) (l : list A) : Prop := v_items v = Some <$> l.

Lemma holds_total {A} (v : vector A) l : holds v l -> v_total v = zlen l.
Proof. unfold holds, v_total, zlen. intros ->. by rewrite length_fmap. Qed.

Lemma holds_get {A} (v : vector A) pre x post : holds v (pre ++ x :: post) ->
  libp2p_utils_vector_get v (zlen pre) = Some x.
Proof.
  intros Hv. pose proof (holds_total _ _ Hv) as Ht. unfold libp2p_utils_vector_get.
  rewrite zlen_app, zlen_cons in Ht. zlen_facts. zbool. rewrite Hv.
  unfold zlen. rewrite Nat2Z.id, list_lookup_fmap, lookup_app_r, Nat.sub_diag by lia. done.
Qed.

Lemma holds_set {A} (v : vector A) pre x y post : holds v (pre ++ x :: post) ->
  holds (libp2p_utils_vector_set v (zlen pre) (Some y)) (pre ++ y :: post).
Proof.
  intros Hv. pose proof (holds_total _ _ Hv) as Ht. unfold libp2p_utils_vector_set.
  rewrite zlen_app, zlen_cons in Ht. zlen_facts. zbool. unfold holds. cbn [v_items]. rewrite Hv.
  unfold zlen. rewrite Nat2Z.id. rewrite <- list_fmap_insert. f_equal.
  replace (length pre) with (length pre + 0)%nat by lia. by rewrite insert_app_r.
Qed.

Lemma holds_add {M : Malloc} {Hm : MallocOk M} {A} (v : vector A) l x : holds v l -> vector_ok v -> zlen l < 2 ^ 29 ->
  exists v' n, libp2p_utils_vector_add v (Some x) = Ret (n, v') /\ vector_ok v' /\ holds v' (l ++ [x]).
Proof.
  intros Hv Hok Hl. rewrite <- (holds_total _ _ Hv) in Hl.
  destruct (vector_add_ok v (Some x) Hok Hl) as (v' & Ha & Hok' & Hi).
  exists v', (v_total v + 1). split_and!; [done|done|]. unfold holds. rewrite Hi, Hv.
  by rewrite fmap_app.
Qed.

(** ** Properties *)

(** Deleting index [i] always drops the element at index 0 and
    puts NULL in front of the old index [i]: it is the deletion of [i] exactly
    when [i = 0]; for a larger [i] two elements are lost and the vector holds a
    NULL pointer. *)
Lemma vector_delete_drops_head {M : Malloc} {A} (v : vector A) (i : Z) :
  0 <= i < v_total v ->
  let v' := libp2p_utils_vector_delete v i in
  v_total v' = v_total v - 1 /\
  (i = 0 -> v_items v' = tail (v_items v)) /\
  (0 < i -> v_items v' = (<[(Z.to_nat i - 1)%nat := None]> (tail (v_items v)) : list (option A)) /\
            libp2p_utils_vector_get v' (i - 1) = None).
Proof.
  intros Hi v'. pose proof (vector_delete_items v i Hi) as Hl. fold v' in Hl.
  assert (v_items v <> []) as Hne.
  { intros E. unfold v_total in Hi. rewrite E in Hi. unfold zlen in Hi. simpl length in Hi. lia. }
  assert (v_total v' = v_total v - 1) as Ht.
  { unfold v_total in *. rewrite Hl. unfold zlen in *.
    pose proof (length_insert (v_items v) (Z.to_nat i) None) as Hlen. revert Hlen.
    destruct (<[_:=_]> (v_items v)); simpl; lia. }
  split; [done|]. split.
  - intros ->. rewrite Hl. by destruct (v_items v).
  - intros Hpos. assert (v_items v' = <[(Z.to_nat i - 1)%nat := None]> (tail (v_items v))) as Hv'.
    { rewrite Hl. destruct (v_items v) as [|x l]; [done|].
      destruct (Z.to_nat i) as [|k] eqn:Ek; [lia|]. simpl. by rewrite Nat.sub_0_r. }
    split; [done|]. unfold libp2p_utils_vector_get. rewrite Ht. zbool.
    rewrite Hv'. replace (Z.to_nat (i - 1)) with (Z.to_nat i - 1)%nat by lia.
    rewrite list_lookup_insert_eq; [done|].
    unfold v_total, zlen in Hi. destruct (v_items v); simpl in *; [done|lia].
Qed.
