(* ===== verification/Multihash.v ===== *)
(** * Multihashes (libp2p/multihash/multihash.c)

    A multihash is a one-byte hash code, a one-byte length and the digest. *)
From S2P Require Import Prelude.

Definition MH_E_NO_ERROR : Z := 0.
Definition MH_E_UNKNOWN_CODE : Z := -1.
Definition MH_E_TOO_SHORT : Z := -2.
Definition MH_E_TOO_LONG : Z := -3.
Definition MH_E_VARINT_NOT_SUPPORTED : Z := -4.
Definition MH_E_DIGSET_TOO_LONG : Z := -5.
Definition MH_H_SHA2_256 : Z := 18.
Definition VARINT_MASK : Z := Z.shiftl 1 7.

Definition check_len (len : Z) : Z :=
  if len <? 1 then MH_E_TOO_SHORT
  else if 128 <=? len then MH_E_TOO_LONG
  else MH_E_NO_ERROR.

Definition check_multihash (mh : bytes) (len : Z) : res Z :=
  if len <? 3 then Ret MH_E_TOO_SHORT
  else
    let! b0 := rd mh 0 in
    if negb (Z.land b0 VARINT_MASK =? 0) then Ret MH_E_VARINT_NOT_SUPPORTED
    else
      let! b1 := rd mh 1 in
      if negb (Z.land b1 VARINT_MASK =? 0) then Ret MH_E_VARINT_NOT_SUPPORTED
      else Ret (check_len b1).

Definition mh_multihash_hash (mh : bytes) (len : Z) : res Z :=
  let! err := check_multihash mh len in
  if negb (err =? 0) then Ret err else rd mh 0.

Definition mh_multihash_length (mh : bytes) (len : Z) : res Z :=
  let! err := check_multihash mh len in
  if negb (err =? 0) then Ret err else rd mh 1.

(** [inl err]: an error; [inr (digest, digest_len)]: [digest] points into the
    multihash itself. *)
Definition mh_multihash_digest (multihash : bytes) (len : Z) : res (Z + bytes * Z) :=
  let! err := check_multihash multihash len in
  if negb (err =? 0) then Ret (inl err)
  else
    let! digest_len := mh_multihash_length multihash len in
    let! digest := padd multihash 2 in
    Ret (inr (digest, u64 digest_len)).

(** [int] result *)
Definition mh_new_length (code hash_len : Z) : Z := s32 (u64 (2 + hash_len)).

Definition mh_new (buffer : bytes) (code : Z) (digest : bytes) (digest_len : Z)
  : res (Z * bytes) :=
  if negb (Z.land code VARINT_MASK =? 0) then Ret (MH_E_VARINT_NOT_SUPPORTED, buffer)
  else if 127 <? digest_len then Ret (MH_E_DIGSET_TOO_LONG, buffer)
  else
    let! buffer := memwr buffer [Z.land (u8 code) 255] in
    let! (_, buffer) :=
      with_ptr buffer 1 (fun p => let! q := memwr p [u8 digest_len] in Ret (tt, q)) in
    let! src := memrd digest digest_len in
    let! (_, buffer) :=
      with_ptr buffer 2 (fun p => let! q := memwr p src in Ret (tt, q)) in
    Ret (0, buffer).

(** ** The wire form and its laws *)
Definition multihash_bytes (code : Z) (digest : bytes) : bytes := code :: zlen digest :: digest.

Lemma land_mask b : byte_range b -> (Z.land b VARINT_MASK =? 0) = (b <? 128).
Proof.
  intros Hb.
  apply (byte_forall (fun b => eqb (Z.land b VARINT_MASK =? 0) (b <? 128))) in Hb.
  - by apply eqb_prop.
  - vm_compute. reflexivity.
Qed.

Lemma mh_new_ok buffer code digest rest :
  0 <= code < 128 -> zlen digest <= 127 -> 2 + zlen digest <= zlen buffer ->
  mh_new buffer code (digest ++ rest) (zlen digest) =
    Ret (0, multihash_bytes code digest ++ zdrop (2 + zlen digest) buffer).
Proof.
  intros Hc Hd Hb. zlen_facts. unfold mh_new.
  rewrite land_mask by (unfold byte_range; lia). zbool.
  destruct buffer as [|x [|y buffer]]; [zlia|zlia|]. rewrite !zlen_cons in Hb. zlen_facts.
  rewrite memwr_ok by zlia. cbn [rbind app].
  change (zdrop (zlen [_]) (x :: y :: buffer)) with (y :: buffer).
  unfold with_ptr at 1. rewrite padd_ok by zlia. cbn [rbind].
  change (zdrop 1 (_ :: y :: buffer)) with (y :: buffer).
  rewrite memwr_ok by zlia. cbn [rbind app].
  change (zdrop (zlen [_]) (y :: buffer)) with buffer.
  change (ztake 1 (?a :: _)) with [a]. cbn [app].
  rewrite memrd_app by done. cbn [rbind].
  unfold with_ptr. rewrite padd_ok by zlia. cbn [rbind].
  change (zdrop 2 (_ :: _ :: buffer)) with buffer.
  rewrite memwr_ok by lia. cbn [rbind].
  change (ztake 2 (?a :: ?b :: _)) with [a; b]. cbn [app].
  rewrite !u8_small by lia. change 255 with (Z.ones 8).
  rewrite Z.land_ones, Z.mod_small by lia. unfold multihash_bytes.
  replace (2 + zlen digest) with (1 + (1 + zlen digest)) by lia.
  by rewrite !zdrop_cons by lia.
Qed.

Lemma mh_new_too_long buffer code digest n :
  0 <= code < 128 -> 127 < n -> mh_new buffer code digest n = Ret (MH_E_DIGSET_TOO_LONG, buffer).
Proof.
  intros. unfold mh_new. rewrite land_mask by (unfold byte_range; lia). by zbool.
Qed.

Lemma check_multihash_ok code digest rest len :
  0 <= code < 128 -> 1 <= zlen digest <= 127 -> 3 <= len ->
  check_multihash (multihash_bytes code digest ++ rest) len = Ret MH_E_NO_ERROR.
Proof.
  intros Hc Hd Hl. unfold check_multihash, multihash_bytes. zbool. cbn [app].
  rewrite rd_0, rd_1. cbn [rbind].
  rewrite !land_mask by (unfold byte_range; lia). zbool.
  unfold check_len. by zbool.
Qed.


(** ** Properties *)

(** [mh_new] followed by the accessors gives back the code and the
    digest of a multihash of 1 to 127 bytes, in [mh_new_length] bytes, and the
    digest accessor points into the multihash itself; a longer digest is
    refused and the buffer left alone. *)
Lemma multihash_roundtrip (code : Z) (digest buffer : bytes) :
  0 <= code < 128 -> 1 <= zlen digest -> mh_new_length code (zlen digest) <= zlen buffer ->
  zlen digest < 2 ^ 30 ->
  (zlen digest <= 127 ->
     exists mh rest, mh_new buffer code digest (zlen digest) = Ret (0, mh) /\ zlen mh = zlen buffer /\
       mh_multihash_hash mh (mh_new_length code (zlen digest)) = Ret code /\
       mh_multihash_length mh (mh_new_length code (zlen digest)) = Ret (zlen digest) /\
       mh_multihash_digest mh (mh_new_length code (zlen digest)) = Ret (inr (digest ++ rest, zlen digest))) /\
  (127 < zlen digest -> mh_new buffer code digest (zlen digest) = Ret (MH_E_DIGSET_TOO_LONG, buffer)).
Proof.
  intros Hc Hd Hb Hs. unfold mh_new_length in *. rewrite u64_small, s32_small in * by (rewrite ?u64_small; lia).
  split; intros Hl; [|by apply mh_new_too_long].
  exists (multihash_bytes code digest ++ zdrop (2 + zlen digest) buffer), (zdrop (2 + zlen digest) buffer).
  unfold mh_multihash_hash, mh_multihash_digest, mh_multihash_length.
  rewrite !check_multihash_ok by lia. split_and!.
  - rewrite <- (app_nil_r digest) at 1. apply mh_new_ok; lia.
  - unfold multihash_bytes. zlia.
  - done.
  - done.
  - cbn [rbind]. change (negb (MH_E_NO_ERROR =? 0)) with false. cbv iota.
    unfold multihash_bytes. cbn [app]. rewrite rd_1, padd_ok by zlia. cbn [rbind].
    by rewrite u64_small by lia.
Qed.
