(* ===== verification/Base58.v ===== *)
(** * Base58 (libp2p/crypto/encoding/base58.c, libp2p/multiaddr/base58.c)

    The two files hold the same two functions under different names.  The
    decoder keeps the number in 32-bit words, the encoder in base-58 digits. *)
From S2P Require Import Prelude Digits.

(** "123456789ABCDEFGHJKLMNPQRSTUVWXYZabcdefghijkmnopqrstuvwxyz" and its NUL *)
Definition b58digits_ordered : bytes :=
  seqZ 49 9 ++ seqZ 65 8 ++ seqZ 74 5 ++ seqZ 80 11 ++ seqZ 97 11 ++ seqZ 109 14 ++ [0].

Definition b58digits_map : list Z :=
  [-1;-1;-1;-1;-1;-1;-1;-1; -1;-1;-1;-1;-1;-1;-1;-1;
   -1;-1;-1;-1;-1;-1;-1;-1; -1;-1;-1;-1;-1;-1;-1;-1;
   -1;-1;-1;-1;-1;-1;-1;-1; -1;-1;-1;-1;-1;-1;-1;-1;
   -1; 0; 1; 2; 3; 4; 5; 6;  7; 8;-1;-1;-1;-1;-1;-1;
   -1; 9;10;11;12;13;14;15; 16;-1;17;18;19;20;21;-1;
   22;23;24;25;26;27;28;29; 30;31;32;-1;-1;-1;-1;-1;
   -1;33;34;35;36;37;38;39; 40;41;42;43;-1;44;45;46;
   47;48;49;50;51;52;53;54; 55;56;57;-1;-1;-1;-1;-1].

(** ** Decoding *)

(** the number of leading '1's and the rest; the table has 128 entries *)
Fixpoint b58_zeros (s : bytes) (zerocount : Z) : res (Z * bytes) :=
  match s with
  | [] => Ret (zerocount, [])
  | ch :: s' =>
    let! d := rd b58digits_map ch in
    if d =? 0 then b58_zeros s' (u32 (zerocount + 1)) else Ret (zerocount, s)
  end.

(** [outi * 58 + c], from the last word to the first, and the carry out of it *)
Fixpoint b58_multiply (outi : list Z) (c : Z) : list Z * Z :=
  match outi with
  | [] => ([], c)
  | w :: ws =>
    let (ws, c) := b58_multiply ws c in
    let t := u64 (w * 58 + c) in
    (Z.land t 4294967295 :: ws, u32 (Z.shiftr (Z.land t 270582939648) 32))
  end.

(** the second loop; [None]: the function returns 0 *)
Fixpoint b58_accumulate (s : bytes) (outi : list Z) (zeromask : Z) : res (option (list Z)) :=
  match s with
  | [] => Ret (Some outi)
  | ch :: s =>
    if negb (Z.land ch 128 =? 0) then Ret None
    else
      let! d := rd b58digits_map ch in
      if d =? -1 then Ret None
      else
        let (outi, c) := b58_multiply outi d in
        if negb (c =? 0) then Ret None
        else
          let! w := rd outi 0 in
          if negb (Z.land w zeromask =? 0) then Ret None else b58_accumulate s outi zeromask
  end.

Definition b58_word_bytes (w : Z) : bytes :=
  [Z.land (Z.shiftr w 24) 255; Z.land (Z.shiftr w 16) 255; Z.land (Z.shiftr w 8) 255; Z.land w 255].

(** what the [switch] writes: the last [bytesleft] bytes of the first word *)
Definition b58_first_bytes (w bytesleft : Z) : bytes :=
  (if 3 <=? bytesleft then [Z.shiftr (Z.land w 16711680) 16] else []) ++
  (if 2 <=? bytesleft then [Z.shiftr (Z.land w 65280) 8] else []) ++ [Z.land w 255].

Definition b58_output (outi : list Z) (bytesleft : Z) : res bytes :=
  if bytesleft =? 0 then Ret (outi ≫= b58_word_bytes)
  else let! w := rd outi 0 in Ret (b58_first_bytes w bytesleft ++ (zdrop 1 outi ≫= b58_word_bytes)).

(** the zeros at the front *)
Fixpoint count_zeros (l : list Z) : Z :=
  match l with
  | [] => 0
  | b :: l => if b =? 0 then 1 + count_zeros l else 0
  end.

(** the result, the buffer [*bin] and [*binszp] *)
Definition libp2p_crypto_encoding_base58_decode (b58 : bytes) (base58_size : Z) (bin : bytes) (binszp : Z)
  : res (Z * bytes * Z) :=
  let binsz := binszp in
  let outisz := u64 (binsz + 3) / 4 in
  let bytesleft := u8 (binsz mod 4) in
  let zeromask := if bytesleft =? 0 then 0 else u32 (Z.shiftl 4294967295 (bytesleft * 8)) in
  let! b58sz := strlen b58 in
  let! s := memrd b58 b58sz in
  let! (zerocount, s) := b58_zeros s 0 in
  let! outi := b58_accumulate s (replicate (Z.to_nat outisz) 0) zeromask in
  match outi with
  | None => Ret (0, bin, binszp)
  | Some outi =>
    let! out := b58_output outi bytesleft in
    let! bin := memwr bin out in
    let! read := memrd bin binsz in
    Ret (1, bin, u64 (binsz - count_zeros read + zerocount))
  end.

Definition multiaddr_encoding_base58_decode := libp2p_crypto_encoding_base58_decode.

(** ** Encoding *)

(** [while (zcount < n && !bin[zcount]) ++zcount], with [n] turns left *)
Fixpoint b58_leading (n : nat) (zcount : Z) (bin : bytes) : res Z :=
  match n with
  | O => Ret zcount
  | S n => let! b := rd bin zcount in if b =? 0 then b58_leading n (zcount + 1) bin else Ret zcount
  end.

(** the inner loop, with [j + 1 = n]; the new buffer and the final [j] *)
Fixpoint b58_inner (n : nat) (carry high : Z) (buf : bytes) : res (bytes * Z) :=
  let j := Z.of_nat n - 1 in
  if (high <? j) || negb (carry =? 0) then
    match n with
    | O => UB
    | S n' =>
      let! d := rd buf j in
      let! t := int_op (256 * d) in
      let! carry := int_op (carry + t) in
      b58_inner n' (Z.quot carry 58) high (<[n' := u8 (Z.rem carry 58)]> buf)
    end
  else Ret (buf, j).

(** the outer loop from index [i], with [n] turns left *)
Fixpoint b58_outer (n : nat) (i high : Z) (bin buf : bytes) : res bytes :=
  match n with
  | O => Ret buf
  | S n =>
    let! carry := rd bin i in
    let! (buf, j) := b58_inner (length buf) carry high buf in
    b58_outer n (i + 1) j bin buf
  end.

Fixpoint b58_text (l : list Z) : res bytes :=
  match l with
  | [] => Ret []
  | d :: l => let! c := rd b58digits_ordered d in let! r := b58_text l in Ret (c :: r)
  end.

(** the result, the buffer [*base58] and [*base58_size]; [memset(base58, '1', zcount)]
    writes over the pointer, not over what it points to, and the pointer is used
    after it *)
Definition libp2p_crypto_encoding_base58_encode (binary_data : bytes) (binary_data_size : Z)
    (base58 : bytes) (base58_size : Z) : res (Z * bytes * Z) :=
  let! zcount := b58_leading (Z.to_nat (s64 binary_data_size)) 0 binary_data in
  let size := u64 (u64 (u64 (binary_data_size - zcount) * 138) / 100 + 1) in
  let buf := replicate (Z.to_nat size) 0 in
  let! buf := b58_outer (Z.to_nat (s64 binary_data_size - zcount)) zcount (size - 1) binary_data buf in
  let j := count_zeros buf in
  if base58_size <=? zcount + size - j then Ret (0, base58, u64 (zcount + size - j + 1))
  else if negb (zcount =? 0) then UB
  else
    let! text := b58_text (zdrop j buf) in
    let! base58 := memwr base58 (text ++ [0]) in
    Ret (1, base58, zlen text + 1).

Definition multiaddr_encoding_base58_encode := libp2p_crypto_encoding_base58_encode.

(** ** Sizes

    The code computes [ceil(n * log2(58) / 8)], [floor(n * log2(58) / 8)] and
    [ceil(8 / log2(58) * n)] with [double]s.  The definitions are the exact
    values; no [n] up to 20000 comes so close to an integer that rounding could
    change the result. *)
Definition b58_digits_floor (n : Z) : Z := Z.log2 (58 ^ n) / 8.
Definition b58_digits_ceil (n : Z) : Z := (Z.log2_up (58 ^ n) + 7) / 8.

Definition libp2p_crypto_encoding_base58_decode_size (encoded_size : Z) : Z := b58_digits_ceil encoded_size.
Definition libp2p_crypto_encoding_base58_encode_size (decoded_size : Z) : Z :=
  if decoded_size =? 0 then 0 else zlen (show 58 (256 ^ decoded_size)).
Definition multiaddr_encoding_base58_decode_size (base58_string : bytes) : res Z :=
  let! n := strlen base58_string in Ret (b58_digits_floor n).
Definition multiaddr_encoding_base58_decode_max_size (base58_string : bytes) : res Z :=
  let! n := strlen base58_string in Ret (b58_digits_ceil n).

(** ** The alphabet *)
Definition b58_chr (d : Z) : Z := default 0 (b58digits_ordered !! Z.to_nat d).

(** a character and its digit *)
Definition b58_valid (ch : Z) : Prop := 0 <= ch < 128 /\ default (-1) (b58digits_map !! Z.to_nat ch) <> -1.
Definition b58_digit (ch : Z) : Z := default (-1) (b58digits_map !! Z.to_nat ch).

Lemma rd_in (p : list Z) i d : 0 <= i < zlen p -> rd p i = Ret (default d (p !! Z.to_nat i)).
Proof.
  intros Hi. unfold rd. zbool. destruct (lookup_lt_is_Some_2 p (Z.to_nat i)) as [x Hx]; [unfold zlen in Hi; lia|].
  by rewrite Hx.
Qed.

Lemma b58_chr_ok d : 0 <= d < 58 -> rd b58digits_ordered d = Ret (b58_chr d) /\ b58_valid (b58_chr d) /\
  b58_digit (b58_chr d) = d /\ b58_chr d <> 0.
Proof.
  intros Hd. split; [apply rd_in; change (zlen b58digits_ordered) with 59; lia|].
  assert (forallb (fun d => negb (d <? 58) || ((0 <=? b58_chr d) && (b58_chr d <? 128) && (b58_digit (b58_chr d) =? d)
    && negb (b58_chr d =? 0))) (seqZ 0 256) = true) as Hall by (vm_compute; reflexivity).
  pose proof (byte_forall _ Hall d ltac:(unfold byte_range; lia)) as H. cbv beta in H. revert H. zbool.
  intros (((H1%Z.leb_le & H2%Z.ltb_lt)%andb_prop & H3%Z.eqb_eq)%andb_prop & H4%negb_true_iff%Z.eqb_neq)%andb_prop.
  unfold b58_valid. fold (b58_digit (b58_chr d)). rewrite H3. split_and!; lia.
Qed.

Lemma b58_digit_ok ch : b58_valid ch -> rd b58digits_map ch = Ret (b58_digit ch) /\ 0 <= b58_digit ch < 58 /\
  b58_chr (b58_digit ch) = ch /\ Z.land ch 128 = 0.
Proof.
  intros [Hch Hv]. split; [apply rd_in; change (zlen b58digits_map) with 128; lia|].
  assert (forallb (fun ch => negb (ch <? 128) || (b58_digit ch =? -1) || ((0 <=? b58_digit ch) && (b58_digit ch <? 58)
    && (b58_chr (b58_digit ch) =? ch) && (Z.land ch 128 =? 0))) (seqZ 0 256) = true) as Hall by (vm_compute; reflexivity).
  pose proof (byte_forall _ Hall ch ltac:(unfold byte_range; lia)) as H. cbv beta in H. revert H. zbool.
  fold (b58_digit ch) in Hv. rewrite (proj2 (Z.eqb_neq (b58_digit ch) (-1)) Hv). cbn [orb].
  intros (((H1%Z.leb_le & H2%Z.ltb_lt)%andb_prop & H3%Z.eqb_eq)%andb_prop & H4%Z.eqb_eq)%andb_prop.
  split_and!; lia.
Qed.

(** the text of a list of digits and the number a text denotes *)
Definition b58_string (l : list Z) : bytes := b58_chr <$> l.
Definition b58_number (s : bytes) : Z := num 58 (b58_digit <$> s).

Lemma b58_string_digits l : digits 58 l -> b58_digit <$> b58_string l = l.
Proof.
  induction 1 as [|d l Hd _ IH]; [done|]. unfold b58_string in *. cbn [fmap list_fmap].
  destruct (b58_chr_ok d Hd) as (_ & _ & -> & _). by rewrite IH.
Qed.
Lemma b58_string_valid l : digits 58 l -> Forall b58_valid (b58_string l).
Proof. intros Hl. apply Forall_fmap. eapply Forall_impl; [exact Hl|]. intros d Hd. apply (b58_chr_ok d Hd). Qed.
Lemma b58_string_nonzero l : digits 58 l -> Forall (fun c => c <> 0) (b58_string l).
Proof. intros Hl. apply Forall_fmap. eapply Forall_impl; [exact Hl|]. intros d Hd. apply (b58_chr_ok d Hd). Qed.
Lemma b58_text_ok l : digits 58 l -> b58_text l = Ret (b58_string l).
Proof.
  induction 1 as [|d l Hd _ IH]; [done|]. cbn [b58_text]. destruct (b58_chr_ok d Hd) as (-> & _). cbn [rbind].
  rewrite IH. done.
Qed.
Lemma valid_digits s : Forall b58_valid s -> digits 58 (b58_digit <$> s).
Proof. intros Hs. apply Forall_fmap. eapply Forall_impl; [exact Hs|]. intros ch Hch. apply (b58_digit_ok ch Hch). Qed.

(** ** The zeros at the front *)
Lemma count_zeros_split (l : list Z) : exists k, l = replicate (Z.to_nat (count_zeros l)) 0 ++ k /\ hd 1 k <> 0 /\
  zlen l = count_zeros l + zlen k /\ 0 <= count_zeros l.
Proof.
  induction l as [|b l (k & Hl & Hk & Hlen & Hz)]; [by exists []|]. cbn [count_zeros].
  destruct (Z.eqb_spec b 0) as [->|Hb].
  - exists k. replace (Z.to_nat (1 + count_zeros l)) with (S (Z.to_nat (count_zeros l))) by lia.
    cbn [replicate app]. rewrite zlen_cons. split_and!; [by f_equal|done|lia|lia].
  - exists (b :: l). by split_and!.
Qed.

Lemma count_zeros_app n (k : list Z) : hd 1 k <> 0 -> count_zeros (replicate n 0 ++ k) = Z.of_nat n.
Proof.
  intros Hk. induction n as [|n IH]; cbn [replicate app count_zeros].
  - destruct k as [|b k]; [done|]. cbn [count_zeros hd] in *. by zbool.
  - rewrite Z.eqb_refl, IH. lia.
Qed.

(** ** The encoder *)
Lemma inner_step_bound d carry : 0 <= d < 58 -> 0 <= carry < 256 ->
  0 <= (256 * d + carry) / 58 < 256 /\ 0 <= (256 * d + carry) mod 58 < 58.
Proof. intros. split; [|apply Z.mod_pos_bound; lia]. split; [apply Z.div_pos; lia|]. apply Z.div_lt_upper_bound; lia. Qed.

(** the digits below index [n] take the carry in; all below [high] are zero *)
Lemma b58_inner_ok : forall (pre suf : list Z) carry high,
  digits 58 pre -> 0 <= carry < 256 -> -1 <= high -> Forall (eq 0) (take (Z.to_nat (high + 1)) pre) ->
  num 58 pre * 256 + carry < 58 ^ zlen pre ->
  exists pre' j, b58_inner (length pre) carry high (pre ++ suf) = Ret (pre' ++ suf, j) /\
    digits 58 pre' /\ length pre' = length pre /\ num 58 pre' = num 58 pre * 256 + carry /\
    -1 <= j < zlen pre /\ Forall (eq 0) (take (Z.to_nat (j + 1)) pre').
Proof.
  induction pre as [|d p IH] using rev_ind; intros suf carry high Hpre Hc Hh Hz Hb.
  - change (58 ^ zlen (@nil Z)) with 1 in Hb. cbn [num] in Hb. assert (carry = 0) as -> by lia.
    exists [], (-1). cbn [length b58_inner]. rewrite (proj2 (Z.ltb_ge high (Z.of_nat 0 - 1))) by lia.
    split_and!; try done.
  - apply Forall_app in Hpre as [Hp Hd]. apply Forall_inv in Hd. rewrite length_app, Nat.add_1_r. cbn [b58_inner].
    replace (Z.of_nat (S (length p)) - 1) with (zlen p) by (unfold zlen; lia).
    rewrite zlen_app in *. change (zlen [d]) with 1 in *.
    destruct ((high <? zlen p) || negb (carry =? 0)) eqn:Econd.
    + rewrite <- app_assoc. cbn [app]. assert (rd (p ++ d :: suf) (zlen p) = Ret d) as ->.
      { unfold rd. zbool. unfold zlen. by rewrite Nat2Z.id, list_lookup_middle. }
      cbn [rbind]. rewrite !int_op_small by lia. cbn [rbind]. rewrite int_op_small by lia. cbn [rbind].
      rewrite Z.quot_div_nonneg, Z.rem_mod_nonneg by lia. rewrite (Z.add_comm carry).
      destruct (inner_step_bound d carry Hd Hc) as [Hq Hr]. rewrite u8_small by lia.
      rewrite insert_app_r_alt, Nat.sub_diag by lia. cbn [insert list_insert].
      set (q := (256 * d + carry) / 58) in *. set (r := (256 * d + carry) mod 58) in *.
      assert (256 * d + carry = 58 * q + r) as Hqr by (apply Z.div_mod; lia).
      rewrite num_snoc in Hb by lia. rewrite Z.pow_add_r in Hb by (zlen_facts; lia).
      destruct (IH (r :: suf) q high Hp Hq Hh) as (p' & j & E & Hp' & Hl' & Hnum & Hj & Hz').
      { rewrite take_app in Hz. by apply Forall_app in Hz as [? _]. }
      { nia. }
      exists (p' ++ [r]), j. rewrite E, <- app_assoc. split; [done|].
      split; [apply Forall_app; split; [done|by constructor]|]. rewrite length_app, Hl'. simpl length.
      split; [lia|]. rewrite !num_snoc by lia. split; [nia|]. split; [lia|].
      rewrite take_app_le; [done|]. unfold zlen in Hj. lia.
    + apply orb_false_iff in Econd as [Hhigh%Z.ltb_ge Hcarry%negb_false_iff%Z.eqb_eq]. subst carry.
      exists (p ++ [d]), (zlen p). rewrite length_app, Nat.add_1_r.
      assert (Forall (eq 0) (p ++ [d])) as Hall.
      { rewrite take_ge in Hz; [done|]. rewrite length_app. simpl. unfold zlen in Hhigh. lia. }
      assert (num 58 (p ++ [d]) = 0) as Hnum.
      { clear -Hall. induction Hall as [|x l Hx _ IH]; [done|]. cbn [num]. rewrite IH, <- Hx. lia. }
      split_and!; [done|by apply Forall_app; split; [|constructor]|lia|lia|zlen_facts; lia|zlen_facts; lia|].
      by apply Forall_take.
Qed.

Lemma b58_outer_ok (m : list Z) size : is_bytes m -> forall (pre : list Z) rest buf high,
  digits 58 buf -> zlen buf = size -> -1 <= high -> Forall (eq 0) (take (Z.to_nat (high + 1)) buf) ->
  num 58 buf = num 256 pre -> is_bytes pre -> num 256 (pre ++ m) < 58 ^ size ->
  exists buf', b58_outer (length m) (zlen pre) high (pre ++ m ++ rest) buf = Ret buf' /\
    digits 58 buf' /\ zlen buf' = size /\ num 58 buf' = num 256 (pre ++ m).
Proof.
  induction 1 as [|b m Hb Hm IH]; intros pre rest buf high Hbuf Hs Hh Hz Hnum Hpre Hlt.
  - exists buf. rewrite app_nil_r. by split_and!.
  - cbn [length b58_outer]. assert (rd (pre ++ (b :: m) ++ rest) (zlen pre) = Ret b) as ->.
    { unfold rd. zlen_facts. zbool. unfold zlen. cbn [app]. by rewrite Nat2Z.id, list_lookup_middle. }
    cbn [rbind]. unfold byte_range in Hb.
    assert (num 58 buf * 256 + b < 58 ^ zlen buf) as Hstep.
    { rewrite Hnum, Hs, <- (num_snoc 256 ltac:(lia)). eapply Z.le_lt_trans; [|exact Hlt].
      replace (pre ++ b :: m) with ((pre ++ [b]) ++ m) by (by rewrite <- app_assoc).
      rewrite (num_app 256 ltac:(lia) (pre ++ [b])). pose proof (num_bound 256 ltac:(lia) m Hm).
      assert (0 <= num 256 (pre ++ [b])) as H0.
      { apply num_bound; [lia|]. apply Forall_app. split; [exact Hpre|by constructor]. }
      pose proof (Z.pow_pos_nonneg 256 (zlen m)). zlen_facts. nia. }
    destruct (b58_inner_ok buf [] b high Hbuf ltac:(lia) Hh Hz Hstep) as (buf' & j & E & Hbuf' & Hl' & Hn' & Hj & Hz').
    rewrite !app_nil_r in E. rewrite E. cbn [rbind].
    replace (zlen pre + 1) with (zlen (pre ++ [b])) by (rewrite zlen_app; reflexivity).
    replace (pre ++ (b :: m) ++ rest) with ((pre ++ [b]) ++ m ++ rest) by (by rewrite <- !app_assoc).
    replace (pre ++ b :: m) with ((pre ++ [b]) ++ m) in * by (by rewrite <- app_assoc).
    apply IH; try done.
    + unfold zlen in *. lia.
    + lia.
    + rewrite num_snoc by lia. lia.
    + apply Forall_app. split; [done|]. by constructor.
Qed.

(** the array is large enough: 256 ^ 100 <= 58 ^ 138 *)
Lemma b58_size_enough m : 0 <= m -> 256 ^ m < 58 ^ (m * 138 / 100 + 1).
Proof.
  intros Hm. assert (H100 : 256 ^ 100 <= 58 ^ 138) by (vm_compute; discriminate).
  assert (0 <= m * 138 / 100) as Hk by (apply Z.div_pos; lia).
  apply (Z.pow_lt_mono_l_iff _ _ 100); [apply Z.pow_nonneg; lia..|lia|].
  rewrite <- !Z.pow_mul_r by lia. rewrite (Z.mul_comm m 100), Z.pow_mul_r by lia.
  eapply Z.le_lt_trans; [apply Z.pow_le_mono_l; split; [apply Z.pow_nonneg; lia|exact H100]|].
  rewrite <- Z.pow_mul_r by lia. apply Z.pow_lt_mono_r; [lia|lia|].
  pose proof (Z.div_mod (m * 138) 100 ltac:(lia)). pose proof (Z.mod_pos_bound (m * 138) 100 ltac:(lia)). lia.
Qed.

Lemma b58_leading_ok z m rest : forall pre, hd 1 m <> 0 ->
  b58_leading (z + length m) (zlen pre) (pre ++ replicate z 0 ++ m ++ rest) = Ret (zlen pre + Z.of_nat z).
Proof.
  induction z as [|z IH]; intros pre Hm; cbn [replicate app Nat.add].
  - rewrite Z.add_0_r. destruct m as [|b m]; [done|]. cbn [length b58_leading app].
    unfold rd. zlen_facts. zbool. unfold zlen. rewrite Nat2Z.id, list_lookup_middle by done. cbn [rbind].
    cbn [hd] in Hm. by zbool.
  - cbn [b58_leading]. assert (rd (pre ++ 0 :: replicate z 0 ++ m ++ rest) (zlen pre) = Ret 0) as ->.
    { unfold rd. zlen_facts. zbool. unfold zlen. by rewrite Nat2Z.id, list_lookup_middle. }
    cbn [rbind]. rewrite Z.eqb_refl.
    replace (zlen pre + 1) with (zlen (pre ++ [0])) by (rewrite zlen_app; reflexivity).
    replace (pre ++ 0 :: replicate z 0 ++ m ++ rest) with ((pre ++ [0]) ++ replicate z 0 ++ m ++ rest)
      by (by rewrite <- app_assoc).
    rewrite IH by done. rewrite zlen_app. change (zlen [0]) with 1. f_equal. lia.
Qed.

(** [z] zero bytes, then the bytes [m]: the digits of the number, then the outcome *)
Lemma base58_encode_ok z m rest base58 sz : is_bytes m -> hd 1 m <> 0 -> zlen m < 2 ^ 50 -> Z.of_nat z < 2 ^ 50 ->
  exists d, digits 58 d /\ hd 1 d <> 0 /\ num 58 d = num 256 m /\ zlen d <= zlen m * 138 / 100 + 1 /\
    libp2p_crypto_encoding_base58_encode (replicate z 0 ++ m ++ rest) (Z.of_nat z + zlen m) base58 sz =
      if sz <=? Z.of_nat z + zlen d then Ret (0, base58, Z.of_nat z + zlen d + 1)
      else if (0 <? Z.of_nat z) then UB
      else let! base58 := memwr base58 (b58_string d ++ [0]) in Ret (1, base58, zlen d + 1).
Proof.
  intros Hm Hh Hlm Hlz. zlen_facts. unfold libp2p_crypto_encoding_base58_encode.
  assert (Hs64 : forall x, 0 <= x < 2 ^ 60 -> s64 x = x).
  { intros x Hx. unfold s64. rewrite Z.mod_small; lia. }
  rewrite Hs64 by lia. replace (Z.to_nat (Z.of_nat z + zlen m)) with (z + length m)%nat by (unfold zlen; lia).
  pose proof (b58_leading_ok z m rest [] Hh) as Hlead. cbn [app] in Hlead. change (zlen (@nil Z)) with 0 in Hlead.
  rewrite Hlead. cbn [rbind].
  replace (0 + Z.of_nat z) with (Z.of_nat z) by lia. replace (Z.of_nat z + zlen m - Z.of_nat z) with (zlen m) by lia.
  assert (0 <= zlen m * 138 / 100 <= zlen m * 138) as Hk.
  { split; [apply Z.div_pos; lia|]. apply Z.div_le_upper_bound; lia. }
  rewrite (u64_small (zlen m)), (u64_small (zlen m * 138)), (u64_small (zlen m * 138 / 100 + 1)) by lia.
  set (size := zlen m * 138 / 100 + 1) in *.
  replace (Z.to_nat (zlen m)) with (length m) by (unfold zlen; lia).
  assert (Hzeros : forall n, digits 58 (replicate n 0)) by (intros n; apply Forall_replicate; lia).
  pose proof (b58_outer_ok m size Hm (replicate z 0) rest (replicate (Z.to_nat size) 0) (size - 1)) as Hout.
  destruct Hout as (buf & E & Hbuf & Hlb & Hnum).
  - done.
  - apply zlen_replicate. lia.
  - lia.
  - apply Forall_take, Forall_replicate. done.
  - rewrite <- (app_nil_r (replicate z 0)), <- (app_nil_r (replicate (Z.to_nat size) 0)), !num_zeros by lia. done.
  - apply Forall_replicate. unfold byte_range. lia.
  - rewrite num_zeros by lia. eapply Z.lt_trans; [apply (num_bound 256 ltac:(lia) m Hm)|]. apply b58_size_enough. lia.
  - replace (zlen (replicate z 0)) with (Z.of_nat z) in E by (unfold zlen; by rewrite length_replicate).
    rewrite E. cbn [rbind]. destruct (count_zeros_split buf) as (d & Hd & Hd0 & Hdl & Hcz).
    rewrite num_zeros in Hnum by lia.
    assert (zdrop (count_zeros buf) buf = d) as Hdrop.
    { rewrite Hd at 2. unfold zdrop. rewrite <- (length_replicate (Z.to_nat (count_zeros buf)) 0) at 1. apply drop_app_length. }
    exists d. split.
    { rewrite Hd in Hbuf. by apply Forall_app in Hbuf as [_ ?]. }
    split; [done|]. split; [rewrite <- Hnum, Hd; by rewrite num_zeros|]. split; [lia|].
    replace (Z.of_nat z + size - count_zeros buf) with (Z.of_nat z + zlen d) by lia. rewrite Hdrop.
    destruct (sz <=? _); [rewrite u64_small by (zlen_facts; lia); done|].
    destruct (Z.eqb_spec (Z.of_nat z) 0) as [Hz|Hz]; cbn [negb].
    + rewrite (proj2 (Z.ltb_ge 0 (Z.of_nat z))) by lia. rewrite b58_text_ok.
      * cbn [rbind]. replace (zlen (b58_string d)) with (zlen d) by (unfold zlen, b58_string; by rewrite length_fmap). done.
      * rewrite Hd in Hbuf. by apply Forall_app in Hbuf as [_ ?].
    + by rewrite (proj2 (Z.ltb_lt 0 (Z.of_nat z))) by lia.
Qed.

(** ** The decoder *)
Lemma land_high_mask w k : 0 <= k <= 32 -> 0 <= w < 2 ^ 32 ->
  Z.land w (Z.shiftl (Z.ones (32 - k)) k) = Z.shiftl (Z.shiftr w k) k.
Proof.
  intros Hk Hw. apply Z.bits_inj'. intros i Hi. rewrite Z.land_spec, !Z.shiftl_spec by lia.
  destruct (decide (i < k)).
  - rewrite !(Z.testbit_neg_r _ (i - k)) by lia. by rewrite andb_false_r.
  - rewrite Z.shiftr_spec by lia. replace (i - k + k) with i by lia. rewrite Z.testbit_ones_nonneg by lia.
    destruct (Z.ltb_spec (i - k) (32 - k)); [by rewrite andb_true_r|].
    rewrite andb_false_r. symmetry. destruct (decide (w = 0)) as [->|]; [apply Z.bits_0|].
    apply Z.bits_above_log2; [lia|]. apply Z.log2_lt_pow2; [lia|].
    eapply Z.lt_le_trans; [apply Hw|]. apply Z.pow_le_mono_r; lia.
Qed.

Lemma land_high_zero w k : 0 <= k <= 32 -> 0 <= w < 2 ^ 32 ->
  Z.land w (Z.shiftl (Z.ones (32 - k)) k) = 0 <-> w < 2 ^ k.
Proof.
  intros Hk Hw. rewrite land_high_mask, Z.shiftl_mul_pow2, Z.shiftr_div_pow2 by lia.
  pose proof (Z.pow_pos_nonneg 2 k ltac:(lia) ltac:(lia)). rewrite Z.mul_eq_0.
  split; [|intros; left; by apply Z.div_small; lia].
  intros [E|E]; [|lia]. apply Z.div_small_iff in E; lia.
Qed.

Abbreviation words := (digits (2 ^ 32)).

Lemma b58_multiply_ok l : words l -> forall c, 0 <= c < 58 ->
  exists l' c', b58_multiply l c = (l', c') /\ words l' /\ length l' = length l /\ 0 <= c' < 58 /\
    num (2 ^ 32) l' + c' * (2 ^ 32) ^ zlen l = num (2 ^ 32) l * 58 + c.
Proof.
  induction 1 as [|w l Hw _ IH]; intros c Hc.
  - exists [], c. split_and!; try done; try lia; [constructor|]. change ((2 ^ 32) ^ zlen (@nil Z)) with 1. cbn [num]. lia.
  - destruct (IH c Hc) as (l' & c' & E & Hl' & Hlen & Hc' & Hnum). cbn [b58_multiply]. rewrite E.
    rewrite u64_small by lia. set (t := w * 58 + c') in *.
    change 4294967295 with (Z.ones 32). rewrite Z.land_ones by lia.
    change 270582939648 with (Z.shiftl 63 32). rewrite Z.shiftr_land.
    change (Z.shiftr (Z.shiftl 63 32) 32) with (Z.ones 6). rewrite Z.land_ones, Z.shiftr_div_pow2 by lia.
    pose proof (Z.div_mod t (2 ^ 32) ltac:(lia)) as Hdm. pose proof (Z.mod_pos_bound t (2 ^ 32) ltac:(lia)).
    assert (0 <= t < 2 ^ 32 * 58) as Ht by (unfold t; lia).
    assert (0 <= t / 2 ^ 32 < 58) by (split; [apply Z.div_pos; lia|apply Z.div_lt_upper_bound; lia]). rewrite (Z.mod_small (t / 2 ^ 32)), u32_small by lia.
    exists (t mod 2 ^ 32 :: l'), (t / 2 ^ 32). split; [done|]. split; [by constructor|].
    split; [simpl; by rewrite Hlen|]. split; [lia|]. cbn [num]. rewrite zlen_cons.
    assert (zlen l' = zlen l) as -> by (unfold zlen; by rewrite Hlen).
    rewrite Z.pow_add_r, Z.pow_1_r by (zlen_facts; lia). unfold t in Hdm at 1.
    apply (f_equal (fun x => x * (2 ^ 32) ^ zlen l)) in Hdm. lia.
Qed.

Section accumulate.
(** numbers below [B] are those whose first word passes the test *)
Context (n : nat) (B zeromask : Z) (Hn : (0 < n)%nat) (HB : B <= (2 ^ 32) ^ Z.of_nat n).
Context (Hfits : forall w l, words (w :: l) -> length (w :: l) = n ->
  (Z.land w zeromask =? 0) = (num (2 ^ 32) (w :: l) <? B)).

Lemma b58_accumulate_ok s : Forall b58_valid s -> forall l, words l -> length l = n -> num (2 ^ 32) l < B ->
  b58_accumulate s l zeromask = Ret None /\ B <= num (2 ^ 32) l * 58 ^ zlen s + b58_number s \/
  exists l', b58_accumulate s l zeromask = Ret (Some l') /\ words l' /\ length l' = n /\
    num (2 ^ 32) l' = num (2 ^ 32) l * 58 ^ zlen s + b58_number s /\ num (2 ^ 32) l' < B.
Proof using Hn HB Hfits.
  induction 1 as [|ch s Hch Hs IH]; intros l Hl Hlen Hlt.
  - right. exists l. unfold b58_number. cbn [fmap list_fmap num]. change (zlen (@nil Z)) with 0. split_and!; try done. lia.
  - cbn [b58_accumulate]. destruct (b58_digit_ok ch Hch) as (Hrd & Hd & _ & Hland). rewrite Hland, Hrd. cbn [rbind negb].
    rewrite Z.eqb_refl. cbn [negb]. rewrite (proj2 (Z.eqb_neq (b58_digit ch) (-1))) by lia.
    destruct (b58_multiply_ok l Hl _ Hd) as (l' & c & -> & Hl' & Hlen' & Hc & Hnum).
    pose proof (num_bound 58 ltac:(lia) _ (valid_digits s Hs)) as Hrest.
    assert (zlen (b58_digit <$> s) = zlen s) as Hz by (unfold zlen; by rewrite length_fmap). rewrite Hz in Hrest.
    fold (b58_number s) in Hrest.
    assert (b58_number (ch :: s) = b58_digit ch * 58 ^ zlen s + b58_number s) as ->.
    { unfold b58_number. cbn [fmap list_fmap num]. by rewrite Hz. }
    assert (58 ^ zlen (ch :: s) = 58 * 58 ^ zlen s) as ->.
    { rewrite zlen_cons, Z.pow_add_r by (zlen_facts; lia). done. }
    pose proof (Z.pow_pos_nonneg 58 (zlen s) ltac:(lia) (zlen_nonneg s)) as Hp.
    assert (zlen l = Z.of_nat n) as Hzl by (unfold zlen; by rewrite Hlen). rewrite Hzl in Hnum.
    pose proof (Z.pow_pos_nonneg (2 ^ 32) (Z.of_nat n) ltac:(lia) ltac:(lia)) as Hpw.
    pose proof (num_bound (2 ^ 32) ltac:(lia) l' Hl') as Hbl'.
    destruct (Z.eqb_spec c 0) as [->|Hc0]; cbn [negb]; [|left; split; [done|nia]].
    destruct l' as [|w l']; [simpl in Hlen'; lia|]. cbn [rd]. rewrite rd_0. cbn [rbind].
    rewrite (Hfits w l') by (done || lia). destruct (Z.ltb_spec (num (2 ^ 32) (w :: l')) B) as [Hb|Hb]; cbn [negb].
    + destruct (IH (w :: l') Hl' ltac:(lia) Hb) as [[E Hge]|(l'' & E & Hl'' & Hlen'' & Hn'' & Hb'')]; rewrite E.
      * left. split; [done|]. nia.
      * right. exists l''. split_and!; try done. nia.
    + left. split; [done|]. nia.
Qed.
End accumulate.

Lemma b58_word_ok w : 0 <= w < 2 ^ 32 -> digits 256 (b58_word_bytes w) /\ num 256 (b58_word_bytes w) = w.
Proof.
  intros Hw. unfold b58_word_bytes. change 255 with (Z.ones 8). rewrite !Z.land_ones, !Z.shiftr_div_pow2 by lia.
  split; [repeat constructor; apply Z.mod_pos_bound; lia|]. cbn [num].
  change (256 ^ zlen [_; _; _]) with (256 ^ 3). change (256 ^ zlen [_; _]) with (256 ^ 2).
  change (256 ^ zlen [_]) with 256. change (256 ^ zlen []) with 1.
  Z.to_euclidean_division_equations. lia.
Qed.

Lemma b58_words_ok l : words l -> digits 256 (l ≫= b58_word_bytes) /\
  zlen (l ≫= b58_word_bytes) = 4 * zlen l /\ num 256 (l ≫= b58_word_bytes) = num (2 ^ 32) l.
Proof.
  induction 1 as [|w l Hw _ (IH1 & IH2 & IH3)]; [by split; [constructor|]|]. cbn [mbind list_bind]. destruct (b58_word_ok w Hw) as [Hd Hn].
  split; [by apply Forall_app|]. rewrite zlen_app, IH2. change (zlen (b58_word_bytes w)) with 4. rewrite zlen_cons.
  split; [lia|]. rewrite num_app, Hn, IH2, IH3 by lia. cbn [num].
  rewrite <- (Z.pow_mul_r 2 32), (Z.pow_mul_r 256 4) by (zlen_facts; lia). change (256 ^ 4) with (2 ^ 32).
  rewrite <- Z.pow_mul_r by (zlen_facts; lia). done.
Qed.

Lemma b58_first_ok w b : 1 <= b <= 3 -> 0 <= w < 2 ^ (8 * b) ->
  digits 256 (b58_first_bytes w b) /\ zlen (b58_first_bytes w b) = b /\ num 256 (b58_first_bytes w b) = w.
Proof.
  intros Hb Hw. unfold b58_first_bytes. change 255 with (Z.ones 8).
  assert (Z.shiftr (Z.land w 65280) 8 = (w / 2 ^ 8) mod 2 ^ 8) as ->.
  { rewrite Z.shiftr_land. change (Z.shiftr 65280 8) with (Z.ones 8). by rewrite Z.land_ones, Z.shiftr_div_pow2 by lia. }
  assert (Z.shiftr (Z.land w 16711680) 16 = (w / 2 ^ 16) mod 2 ^ 8) as ->.
  { rewrite Z.shiftr_land. change (Z.shiftr 16711680 16) with (Z.ones 8). by rewrite Z.land_ones, Z.shiftr_div_pow2 by lia. }
  rewrite Z.land_ones by lia.
  assert (b = 1 \/ b = 2 \/ b = 3) as [-> | [-> | ->]] by lia; cbn -[Z.pow Z.div Z.modulo num zlen Z.mul] in *;
    (split; [repeat constructor; apply Z.mod_pos_bound; lia|]); (split; [done|]); cbn [num];
    change (256 ^ zlen [_; _]) with (256 ^ 2); change (256 ^ zlen [_]) with 256; change (256 ^ zlen []) with 1;
    Z.to_euclidean_division_equations; lia.
Qed.

(** for [binsz] bytes: the words, and the test on the first of them *)
Lemma b58_layout binsz : 0 < binsz < 2 ^ 50 ->
  let n := Z.to_nat ((binsz + 3) / 4) in let b := binsz mod 4 in
  let zeromask := if b =? 0 then 0 else u32 (Z.shiftl 4294967295 (b * 8)) in
  (0 < n)%nat /\ 256 ^ binsz <= (2 ^ 32) ^ Z.of_nat n /\
  (forall w l, words (w :: l) -> length (w :: l) = n -> (Z.land w zeromask =? 0) = (num (2 ^ 32) (w :: l) <? 256 ^ binsz)) /\
  (forall l, words l -> length l = n -> num (2 ^ 32) l < 256 ^ binsz ->
    b58_output l b = Ret (to_digits 256 (Z.to_nat binsz) (num (2 ^ 32) l))).
Proof.
  intros Hbin n b zeromask. pose proof (Z.div_mod binsz 4 ltac:(lia)) as Hdm. pose proof (Z.mod_pos_bound binsz 4 ltac:(lia)) as Hmod.
  fold b in Hdm, Hmod. set (q := binsz / 4) in *.
  assert (Hn : Z.of_nat n = if b =? 0 then q else q + 1).
  { unfold n. rewrite Z2Nat.id by (apply Z.div_pos; lia). rewrite Hdm.
    destruct (Z.eqb_spec b 0) as [Hb|Hb].
    - rewrite Hb. symmetry. apply (Z.div_unique_pos _ _ _ 3); lia.
    - symmetry. apply (Z.div_unique_pos _ _ _ (b - 1)); lia. }
  assert (Hp : forall k, 0 <= k -> (2 ^ 32) ^ k = 256 ^ (4 * k)).
  { intros k Hk. rewrite Z.pow_mul_r by lia. done. }
  assert (Hdig : forall out v, digits 256 out -> zlen out = binsz -> num 256 out = v -> out = to_digits 256 (Z.to_nat binsz) v).
  { intros out v Ho Hl <-. replace (Z.to_nat binsz) with (length out) by (unfold zlen in Hl; lia).
    symmetry. by apply to_digits_num. }
  destruct (Z.eqb_spec b 0) as [Hb|Hb].
  - split; [lia|]. split; [rewrite Hp by lia; apply Z.pow_le_mono_r; lia|]. split.
    + intros w l Hl Hlen. unfold zeromask. rewrite Z.land_0_r. symmetry. apply Z.ltb_lt.
      pose proof (num_bound (2 ^ 32) ltac:(lia) _ Hl) as Hbd. unfold zlen in Hbd. rewrite Hlen, Hp in Hbd by lia.
      replace (4 * Z.of_nat n) with binsz in Hbd by lia. lia.
    + intros l Hl Hlen Hlt. unfold b58_output. rewrite Hb. cbn [Z.eqb].
      destruct (b58_words_ok l Hl) as (H1 & H2 & H3). f_equal. apply Hdig; [done|unfold zlen in *; lia|done].
  - assert (Hmask : zeromask = Z.shiftl (Z.ones (32 - 8 * b)) (8 * b)).
    { unfold zeromask. assert (b = 1 \/ b = 2 \/ b = 3) as [-> | [-> | ->]] by lia; reflexivity. }
    assert (Hpow : 256 ^ binsz = 2 ^ (8 * b) * (2 ^ 32) ^ q).
    { rewrite Hp by lia. rewrite (Z.pow_mul_r 2 8) by lia. rewrite <- Z.pow_add_r by lia. f_equal. lia. }
    assert (Hfit : forall w l, words (w :: l) -> length (w :: l) = n ->
      (w < 2 ^ (8 * b) <-> num (2 ^ 32) (w :: l) < 256 ^ binsz)).
    { intros w l Hl Hlen. apply Forall_cons in Hl as [Hw Hl]. cbn [num]. pose proof (num_bound (2 ^ 32) ltac:(lia) _ Hl) as Hbd.
      assert (zlen l = q) as Hq by (unfold zlen; simpl length in Hlen; lia). rewrite Hq in *. rewrite Hpow.
      pose proof (Z.pow_pos_nonneg (2 ^ 32) q ltac:(lia) ltac:(lia)). nia. }
    split; [lia|]. split; [rewrite Hp by lia; apply Z.pow_le_mono_r; lia|]. split.
    + intros w l Hl Hlen. apply Bool.eq_iff_eq_true. rewrite Z.eqb_eq, Z.ltb_lt, Hmask.
      rewrite land_high_zero by (lia || by apply Forall_inv in Hl). by apply Hfit.
    + intros [|w l] Hl Hlen Hlt; [simpl in Hlen; lia|]. unfold b58_output. rewrite (proj2 (Z.eqb_neq b 0) Hb), rd_0. cbn [rbind].
      assert (w < 2 ^ (8 * b)) as Hwb by (by apply (Hfit w l)). apply Forall_cons in Hl as [Hw Hl].
      change (zdrop 1 (w :: l)) with l. destruct (b58_words_ok l Hl) as (H1 & H2 & H3).
      destruct (b58_first_ok w b ltac:(lia) ltac:(lia)) as (H4 & H5 & H6). f_equal. apply Hdig.
      * by apply Forall_app.
      * rewrite zlen_app, H2, H5. unfold zlen. simpl length in Hlen. lia.
      * rewrite num_app, H6, H3, H2 by lia. cbn [num]. rewrite Hp by (zlen_facts; lia). done.
Qed.

(** leading '1's *)
Definition b58_ones (s : bytes) : Z := count_zeros (b58_digit <$> s).

Lemma b58_zeros_ok s : Forall b58_valid s -> forall z, 0 <= z -> z + zlen s < 2 ^ 32 ->
  exists s', b58_zeros s z = Ret (z + b58_ones s, s') /\ Forall b58_valid s' /\ b58_number s' = b58_number s.
Proof.
  induction 1 as [|ch s Hch Hs IH]; intros z Hz Hlen.
  - exists []. cbn [b58_zeros]. unfold b58_ones. cbn [fmap list_fmap count_zeros]. rewrite Z.add_0_r. split_and!; [done|constructor|done].
  - cbn [b58_zeros]. destruct (b58_digit_ok ch Hch) as (-> & Hd & _). cbn [rbind].
    unfold b58_ones. cbn [fmap list_fmap count_zeros]. rewrite zlen_cons in Hlen. zlen_facts.
    destruct (Z.eqb_spec (b58_digit ch) 0) as [E|E].
    + rewrite u32_small by lia. destruct (IH (z + 1)) as (s' & -> & Hs' & Hn); [lia..|].
      exists s'. fold (b58_ones s). split; [do 2 f_equal; lia|]. split; [done|]. rewrite Hn. unfold b58_number.
      cbn [fmap list_fmap num]. rewrite E. lia.
    + exists (ch :: s). rewrite Z.add_0_r. split_and!; [done|by constructor|done].
Qed.

Lemma base58_decode_ok s rest k bin binsz : Forall b58_valid s -> zlen s < 2 ^ 31 -> 0 < binsz < 2 ^ 50 -> binsz <= zlen bin ->
  let v := b58_number s in let out := to_digits 256 (Z.to_nat binsz) v in
  libp2p_crypto_encoding_base58_decode (s ++ 0 :: rest) k bin binsz =
    if v <? 256 ^ binsz then Ret (1, out ++ zdrop binsz bin, binsz - count_zeros out + b58_ones s)
    else Ret (0, bin, binsz).
Proof.
  intros Hs Hls Hbin Hlb v out. unfold libp2p_crypto_encoding_base58_decode. rewrite (u64_small (binsz + 3)) by lia.
  destruct (b58_layout binsz Hbin) as (Hn & HB & Hfits & Hout).
  pose proof (Z.mod_pos_bound binsz 4 ltac:(lia)). rewrite (u8_small (binsz mod 4)) by lia.
  assert (Forall (fun b => b <> 0) s) as Hnz.
  { eapply Forall_impl; [exact Hs|]. intros ch Hch ->. destruct Hch as [_ Hch]. by apply Hch. }
  rewrite strlen_nul by done. cbn [rbind]. rewrite memrd_app by done. cbn [rbind].
  destruct (b58_zeros_ok s Hs 0 ltac:(lia) ltac:(lia)) as (s' & -> & Hs' & Hnum). cbn [rbind].
  set (n := Z.to_nat ((binsz + 3) / 4)) in *. set (zm := if binsz mod 4 =? 0 then 0 else _) in *.
  assert (num (2 ^ 32) (replicate n 0) = 0) as H0 by (rewrite <- (app_nil_r (replicate n 0)); by rewrite num_zeros by lia).
  assert (0 < 256 ^ binsz) as HBpos by (apply Z.pow_pos_nonneg; lia).
  destruct (b58_accumulate_ok n (256 ^ binsz) zm Hn HB Hfits s' Hs' (replicate n 0)) as [[-> Hge]|(l & -> & Hl & Hlen & Hv & Hlt)].
  - apply Forall_replicate. lia.
  - apply length_replicate.
  - by rewrite H0.
  - cbn [rbind]. rewrite H0, Hnum in Hge. rewrite (proj2 (Z.ltb_ge v _)) by (unfold v; lia). done.
  - cbn [rbind]. rewrite H0, Hnum in Hv. rewrite (proj2 (Z.ltb_lt v _)) by (unfold v; lia).
    rewrite (Hout l Hl Hlen Hlt). cbn [rbind]. replace (num (2 ^ 32) l) with v by (unfold v; lia). fold out.
    assert (zlen out = binsz) as Hlo by (unfold zlen, out; rewrite to_digits_length; lia).
    rewrite memwr_ok by lia. cbn [rbind]. rewrite memrd_app by lia. cbn [rbind].
    destruct (count_zeros_split out) as (d & _ & _ & Hd & Hcz). pose proof (zlen_nonneg d).
    assert (0 <= b58_ones s <= zlen s).
    { unfold b58_ones. destruct (count_zeros_split (b58_digit <$> s)) as (d' & _ & _ & Hd' & Hcz').
      pose proof (zlen_nonneg d'). unfold zlen in *. rewrite length_fmap in Hd'. lia. }
    rewrite u64_small by lia. by rewrite Hlo.
Qed.

(** ** A number and its two texts *)
(** a byte string without leading zero and the digits of the same number *)
Definition same_number (d m : list Z) : Prop :=
  digits 58 d /\ hd 1 d <> 0 /\ is_bytes m /\ hd 1 m <> 0 /\ num 58 d = num 256 m.

Lemma same_number_unique d d' m : same_number d m -> same_number d' m -> d = d'.
Proof. intros (Hd & H0 & _ & _ & Hn) (Hd' & H0' & _ & _ & Hn'). apply (num_unique 58); (done || lia || congruence). Qed.

Lemma base58_encode_text (m rest base58 : bytes) (sz : Z) : is_bytes m -> hd 1 m <> 0 -> zlen m < 2 ^ 30 ->
  exists d, same_number d m /\ zlen d <= zlen m * 138 / 100 + 1 /\
    (zlen d < sz <= zlen base58 ->
     libp2p_crypto_encoding_base58_encode (m ++ rest) (zlen m) base58 sz =
       Ret (1, b58_string d ++ 0 :: zdrop (zlen d + 1) base58, zlen d + 1)).
Proof.
  intros Hm Hh Hlm. zlen_facts.
  destruct (base58_encode_ok 0 m rest base58 sz Hm Hh ltac:(lia) ltac:(lia)) as (d & Hd & Hd0 & Hnum & Hdl & E).
  exists d. split; [by repeat split|]. split; [lia|]. intros Hsz.
  cbn [replicate app] in E. change (Z.of_nat 0) with 0 in E. rewrite !Z.add_0_l in E.
  rewrite (proj2 (Z.leb_gt sz (zlen d))) in E by lia. change (0 <? 0) with false in E. cbv iota in E.
  assert (zlen (b58_string d ++ [0]) = zlen d + 1) as Hl1 by (unfold b58_string; rewrite zlen_app, zlen_fmap; reflexivity).
  rewrite memwr_ok in E by lia. cbn [rbind] in E. by rewrite <- app_assoc, Hl1 in E.
Qed.

Lemma base58_decode_text (d m rest bin : bytes) (binsz k : Z) :
  same_number d m -> zlen d < 2 ^ 31 -> 0 < binsz < 2 ^ 50 -> binsz <= zlen bin ->
  libp2p_crypto_encoding_base58_decode (b58_string d ++ 0 :: rest) k bin binsz =
    if zlen m <=? binsz
    then Ret (1, replicate (Z.to_nat (binsz - zlen m)) 0 ++ m ++ zdrop binsz bin, zlen m)
    else Ret (0, bin, binsz).
Proof.
  intros (Hd & Hd0 & Hm & Hh & Hnum) Hdl Hbin Hlb. zlen_facts.
  assert (zlen (b58_string d) = zlen d) as Hls by apply zlen_fmap.
  assert (b58_number (b58_string d) = num 256 m) as Hn by (unfold b58_number; by rewrite b58_string_digits).
  rewrite base58_decode_ok by (done || by apply b58_string_valid || lia). rewrite Hn.
  pose proof (num_bound 256 ltac:(lia) m Hm) as Hbd.
  assert (b58_ones (b58_string d) = 0) as ->.
  { unfold b58_ones. rewrite b58_string_digits by done. destruct d as [|x d]; [done|]. cbn [count_zeros hd] in *. by zbool. }
  destruct (Z.leb_spec (zlen m) binsz) as [Hle|Hgt].
  - rewrite (proj2 (Z.ltb_lt _ _)).
    2:{ eapply Z.lt_le_trans; [apply Hbd|]. apply Z.pow_le_mono_r; lia. }
    assert (to_digits 256 (Z.to_nat binsz) (num 256 m) = replicate (Z.to_nat (binsz - zlen m)) 0 ++ m) as ->.
    { rewrite <- (num_zeros 256 ltac:(lia) (Z.to_nat (binsz - zlen m)) m).
      replace (Z.to_nat binsz) with (length (replicate (Z.to_nat (binsz - zlen m)) 0 ++ m))
        by (rewrite length_app, length_replicate; unfold zlen in *; lia).
      apply to_digits_num; [lia|]. apply Forall_app. split; [apply Forall_replicate; lia|exact Hm]. }
    rewrite count_zeros_app by done. rewrite <- app_assoc. do 3 f_equal. lia.
  - rewrite (proj2 (Z.ltb_ge _ _)); [done|]. destruct m as [|b m]; [rewrite zlen_nil in *; lia|].
    apply Forall_cons in Hm as [Hb0 Hm]. unfold byte_range in Hb0. cbn [hd num] in *. rewrite zlen_cons in Hgt.
    pose proof (num_bound 256 ltac:(lia) m Hm) as Hbm.
    transitivity (256 ^ zlen m); [apply Z.pow_le_mono_r; lia|].
    pose proof (Z.pow_pos_nonneg 256 (zlen m)). zlen_facts. nia.
Qed.

(** the number of digits lies between the powers of the base *)
Lemma same_number_powers d m : same_number d m -> m <> [] ->
  d <> [] /\ 58 ^ (zlen d - 1) <= num 256 m < 58 ^ zlen d /\ 256 ^ (zlen m - 1) <= num 58 d < 256 ^ zlen m.
Proof.
  intros (Hd & Hd0 & Hm & Hm0 & Hn) Hne.
  assert (Hlow : forall base l, 1 < base -> digits base l -> hd 1 l <> 0 -> l <> [] -> base ^ (zlen l - 1) <= num base l).
  { intros base [|x l] Hb Hl Hx Hnil; [done|]. apply Forall_cons in Hl as [Hx0 Hl]. cbn [hd num] in *. rewrite zlen_cons.
    replace (1 + zlen l - 1) with (zlen l) by lia. pose proof (num_bound base Hb l Hl).
    pose proof (Z.pow_pos_nonneg base (zlen l)). zlen_facts. nia. }
  pose proof (Hlow 256 m ltac:(lia) Hm Hm0 Hne). pose proof (num_bound 256 ltac:(lia) m Hm). pose proof (num_bound 58 ltac:(lia) d Hd).
  assert (d <> []) as Hdne.
  { intros ->. cbn [num] in Hn. destruct m as [|x m]; [done|].
    pose proof (Z.pow_pos_nonneg 256 (zlen (x :: m) - 1)). rewrite zlen_cons in *. zlen_facts. lia. }
  pose proof (Hlow 58 d ltac:(lia) Hd Hd0 Hdne). split_and!; (done || lia).
Qed.

(** the size functions are bounds *)
Lemma b58_sizes_enough d m : same_number d m -> m <> [] ->
  zlen m <= b58_digits_ceil (zlen d) /\ zlen d <= libp2p_crypto_encoding_base58_encode_size (zlen m).
Proof.
  intros Hdm Hne. pose proof (same_number_powers d m Hdm Hne) as (Hdne & H1 & H2).
  destruct Hdm as (Hd & Hd0 & Hm & Hm0 & Hn). destruct d as [|x d]; [done|]. destruct m as [|y m]; [done|].
  pose proof (num_bound 58 ltac:(lia) _ Hd) as Hb. rewrite !zlen_cons in *. zlen_facts. split.
  - unfold b58_digits_ceil. apply Z.div_le_lower_bound; [lia|].
    assert (2 ^ (8 * zlen m) < 58 ^ (1 + zlen d)) as Hp.
    { rewrite Z.pow_mul_r by lia. change (2 ^ 8) with 256. replace (1 + zlen m - 1) with (zlen m) in * by lia. lia. }
    apply Z.log2_up_lt_pow2 in Hp; lia.
  - unfold libp2p_crypto_encoding_base58_encode_size. rewrite (proj2 (Z.eqb_neq _ 0)) by lia.
    destruct (Z.le_gt_cases (58 ^ (1 + zlen d - 1)) (256 ^ (1 + zlen m))) as [Hle|Hgt]; [|lia].
    pose proof (show_length_ge 58 ltac:(lia) _ _ Hle ltac:(lia)). lia.
Qed.

(** the text of a sha2-256 multihash has 46 characters, and its size is exact *)
Lemma b58_multihash_size d t : same_number d (18 :: 32 :: t) -> zlen t = 32 ->
  zlen d = 46 /\ b58_digits_ceil (zlen d) = 34.
Proof.
  intros Hdm Ht. pose proof (same_number_powers d _ Hdm ltac:(done)) as (_ & H & _).
  destruct Hdm as (_ & _ & Hm & _). apply Forall_cons in Hm as [_ Hm]. apply Forall_cons in Hm as [_ Hm].
  pose proof (num_bound 256 ltac:(lia) t Hm) as Hb. cbn [num] in H. rewrite !zlen_cons, Ht in *. zlen_facts.
  assert (58 ^ 45 < 18 * 256 ^ (1 + 32) + 32 * 256 ^ 32) by (vm_compute; reflexivity).
  assert (18 * 256 ^ (1 + 32) + 33 * 256 ^ 32 < 58 ^ 46) by (vm_compute; reflexivity).
  assert (zlen d - 1 < 46) by (apply (Z.pow_lt_mono_r_iff 58); lia).
  assert (45 < zlen d) by (apply (Z.pow_lt_mono_r_iff 58); lia).
  assert (zlen d = 46) as -> by lia. split; [done|]. vm_compute. reflexivity.
Qed.

(** what is no text of base 58: 0, or a read outside the table *)
Lemma b58_accumulate_invalid s ch post l zm : Forall b58_valid s -> byte_range ch -> ~ b58_valid ch -> l <> [] ->
  b58_accumulate (s ++ ch :: post) l zm = Ret None.
Proof.
  intros Hs Hr Hch. revert l. induction Hs as [|c s Hc _ IH]; intros l Hl; cbn [app b58_accumulate].
  - destruct (decide (ch < 128)) as [Hlt|Hge].
    + destruct (negb (Z.land ch 128 =? 0)); [done|]. rewrite (rd_in b58digits_map ch (-1)).
      2:{ change (zlen b58digits_map) with 128. unfold byte_range in Hr. lia. }
      cbn [rbind]. fold (b58_digit ch). destruct (Z.eqb_spec (b58_digit ch) (-1)) as [E|E]; [done|].
      exfalso. apply Hch. split; [unfold byte_range in Hr; lia|done].
    + assert (forallb (fun ch => (ch <? 128) || negb (Z.land ch 128 =? 0)) (seqZ 0 256) = true) as Hall by (vm_compute; reflexivity).
      pose proof (byte_forall _ Hall ch Hr) as H. cbv beta in H. rewrite (proj2 (Z.ltb_ge ch 128)) in H by lia.
      cbn [orb] in H. by rewrite H.
  - destruct (b58_digit_ok c Hc) as (-> & Hd & _ & ->). rewrite Z.eqb_refl. cbn [negb rbind].
    rewrite (proj2 (Z.eqb_neq (b58_digit c) (-1))) by lia.
    destruct (b58_multiply l (b58_digit c)) as [l' c'] eqn:E. destruct (negb (c' =? 0)); [done|].
    destruct l' as [|w l'].
    { destruct l as [|x l]; [done|]. cbn [b58_multiply] in E. by destruct (b58_multiply l _). }
    rewrite rd_0. cbn [rbind]. destruct (negb _); [done|]. by apply IH.
Qed.

(** ** Properties *)

(** Property C18. A byte string without a leading zero byte is encoded as the
    digits of its number in base 58, and decoding the text gives it back: at the
    end of the buffer, whose unused bytes in front are set to 0, with its length
    in [*binszp].  Only a buffer of exactly the right size holds the bytes where
    the caller looks for them; one that is too small is refused. *)
Theorem base58_encode_decode (m rest base58 bin : bytes) (sz binsz k : Z) :
  is_bytes m -> hd 1 m <> 0 -> zlen m < 2 ^ 30 -> 2 * zlen m + 2 < sz -> sz <= zlen base58 ->
  0 < binsz < 2 ^ 50 -> binsz <= zlen bin ->
  exists s tail,
    libp2p_crypto_encoding_base58_encode (m ++ rest) (zlen m) base58 sz = Ret (1, s ++ 0 :: tail, zlen s + 1) /\
    b58_number s = num 256 m /\
    libp2p_crypto_encoding_base58_decode (s ++ 0 :: tail) k bin binsz =
      if zlen m <=? binsz
      then Ret (1, replicate (Z.to_nat (binsz - zlen m)) 0 ++ m ++ zdrop binsz bin, zlen m)
      else Ret (0, bin, binsz).
Proof.
  intros Hm Hh Hlm Hsz Hb Hbin Hlb. zlen_facts.
  destruct (base58_encode_text m rest base58 sz Hm Hh Hlm) as (d & Hd & Hdl & E).
  assert (zlen m * 138 / 100 <= 2 * zlen m) by (apply Z.div_le_upper_bound; lia).
  assert (zlen (b58_string d) = zlen d) as Hls by apply zlen_fmap.
  exists (b58_string d), (zdrop (zlen d + 1) base58). rewrite Hls. split; [apply E; lia|].
  split; [|by apply base58_decode_text; try lia].
  destruct Hd as (Hd & _ & _ & _ & Hnum). unfold b58_number. by rewrite b58_string_digits.
Qed.

Lemma base58_encode_decode_witness :
  exists s tail,
    libp2p_crypto_encoding_base58_encode ([1; 2; 3] ++ []) 3 (replicate 12 7) 12 = Ret (1, s ++ 0 :: tail, zlen s + 1) /\
    b58_number s = 66051 /\
    libp2p_crypto_encoding_base58_decode (s ++ 0 :: tail) 5 (replicate 5 9) 5 = Ret (1, [0; 0; 1; 2; 3], 3).
Proof.
  apply (base58_encode_decode [1; 2; 3] [] (replicate 12 7) (replicate 5 9) 12 5 5).
  - forall_tac ltac:(unfold byte_range; lia).
  - discriminate.
  - reflexivity.
  - reflexivity.
  - vm_compute. discriminate.
  - lia.
  - vm_compute. discriminate.
Defined.

Lemma b58_zeros_app s t : Forall b58_valid s -> forall z, exists z' s', Forall b58_valid s' /\ (s' = [] <-> Forall (eq 49) s) /\
  b58_zeros (s ++ t) z = match s' with [] => b58_zeros t z' | _ => Ret (z', s' ++ t) end.
Proof.
  induction 1 as [|ch s Hch Hs IH]; intros z; [by exists z, []|]. cbn [app b58_zeros].
  destruct (b58_digit_ok ch Hch) as (-> & Hd & Hchr & _). cbn [rbind].
  destruct (Z.eqb_spec (b58_digit ch) 0) as [E|E].
  - destruct (IH (u32 (z + 1))) as (z' & s' & Hs' & Hiff & Heq). exists z', s'. split; [done|]. split; [|done].
    rewrite Hiff, Forall_cons. rewrite E in Hchr. change (b58_chr 0) with 49 in Hchr. tauto.
  - exists z, (ch :: s). split; [by constructor|]. split; [|done]. split; [done|]. intros [<- _]%Forall_cons. by destruct E.
Qed.

(** A text with a character outside the alphabet is refused and
    nothing is written -- except that the search for leading '1's looks such a
    character up in a table of 128 entries: a text whose first character other
    than '1' is above 127 makes the decoder read outside the table. *)
Lemma base58_decode_invalid (s post rest bin : bytes) (ch k binsz : Z) :
  Forall b58_valid s -> byte_range ch -> ch <> 0 -> ~ b58_valid ch -> Forall (fun b => b <> 0) post ->
  0 < binsz < 2 ^ 50 ->
  libp2p_crypto_encoding_base58_decode (s ++ ch :: post ++ 0 :: rest) k bin binsz =
    if decide (Forall (eq 49) s) then (if ch <? 128 then Ret (0, bin, binsz) else UB) else Ret (0, bin, binsz).
Proof.
  intros Hs Hr Hch0 Hch Hpost Hbin. unfold libp2p_crypto_encoding_base58_decode. rewrite (u64_small (binsz + 3)) by lia.
  destruct (b58_layout binsz Hbin) as (Hn & _ & _ & _).
  replace (s ++ ch :: post ++ 0 :: rest) with ((s ++ ch :: post) ++ 0 :: rest) by (by rewrite <- app_assoc).
  assert (Forall (fun b => b <> 0) (s ++ ch :: post)) as Hnz.
  { apply Forall_app. split; [|by constructor]. eapply Forall_impl; [exact Hs|]. intros c Hc ->. destruct Hc as [_ Hc]. by apply Hc. }
  rewrite strlen_nul by done. cbn [rbind]. rewrite memrd_app by done. cbn [rbind].
  set (n := Z.to_nat ((binsz + 3) / 4)) in *. set (zm := if u8 (binsz mod 4) =? 0 then 0 else _).
  assert (replicate n 0 <> []) as Hne by (intros E; apply (f_equal length) in E; rewrite length_replicate in E; simpl in E; lia).
  assert (Hacc : forall s', Forall b58_valid s' -> b58_accumulate (s' ++ ch :: post) (replicate n 0) zm = Ret None).
  { intros s' Hs'. by apply b58_accumulate_invalid. }
  destruct (b58_zeros_app s (ch :: post) Hs 0) as (z' & s' & Hs' & Hiff & ->).
  destruct s' as [|c s'].
  - rewrite decide_True by (by apply Hiff). cbn [b58_zeros]. destruct (Z.ltb_spec ch 128) as [Hlt|Hge].
    + rewrite (rd_in b58digits_map ch (-1)). 2:{ change (zlen b58digits_map) with 128. unfold byte_range in Hr. lia. }
      cbn [rbind]. fold (b58_digit ch). destruct (Z.eqb_spec (b58_digit ch) 0) as [E|E].
      { exfalso. apply Hch. split; [unfold byte_range in Hr; lia|]. fold (b58_digit ch). by rewrite E. }
      cbn [rbind]. specialize (Hacc [] ltac:(constructor)). cbn [app] in Hacc. by rewrite Hacc.
    + unfold rd. rewrite (proj2 (Z.ltb_ge ch 0)) by lia. rewrite lookup_ge_None_2; [done|]. simpl. lia.
  - rewrite decide_False by (intros H; by apply Hiff in H). cbn [rbind]. by rewrite Hacc.
Qed.

(** bytes that start with 0 cannot be encoded: the [memset] of the leading '1's
    writes over the pointer to the result *)
Lemma base58_encode_leading_zero z m rest base58 sz : is_bytes m -> hd 1 m <> 0 -> zlen m < 2 ^ 30 -> Z.of_nat (S z) < 2 ^ 30 ->
  Z.of_nat (S z) + 2 * zlen m + 2 < sz ->
  libp2p_crypto_encoding_base58_encode (replicate (S z) 0 ++ m ++ rest) (Z.of_nat (S z) + zlen m) base58 sz = UB.
Proof.
  intros Hm Hh Hl Hz Hsz. destruct (base58_encode_ok (S z) m rest base58 sz Hm Hh ltac:(lia) ltac:(lia)) as (d & _ & _ & _ & Hd & ->).
  zlen_facts. assert (zlen m * 138 / 100 <= 2 * zlen m) by (apply Z.div_le_upper_bound; lia).
  rewrite (proj2 (Z.leb_gt _ _)) by lia. by rewrite (proj2 (Z.ltb_lt 0 _)) by lia.
Qed.
