(* ===== verification/CString.v ===== *)
(** * Texts of the C library

    The functions of <string.h>, <stdlib.h> and <stdio.h> that the text codecs
    use, on the characters of a string (without its NUL), and arrays of a fixed
    capacity that hold a string. *)
From Stdlib Require Import String Ascii.
From S2P Require Import Prelude Digits.

(** a string literal *)
Definition txt (s : string) : bytes := (fun a => Z.of_N (N_of_ascii a)) <$> list_ascii_of_string s.
Definition lit (s : string) : bytes := txt s ++ [0].

(** what a [char*] that is only read denotes *)
Definition read_str (p : bytes) : res bytes := let! n := strlen p in memrd p n.

(** [strrchr(s, c)]: the index of the last occurrence *)
Fixpoint c_strrchr (s : bytes) (c : Z) : option Z :=
  match s with
  | [] => None
  | x :: s =>
    match c_strrchr s c with
    | Some k => Some (k + 1)
    | None => if x =? c then Some 0 else None
    end
  end.

(** [strcpy] and [strcat] into an array of [cap] bytes that holds a string *)
Definition strcpy_into (cap : Z) (src : bytes) : res bytes := if zlen src <? cap then Ret src else UB.
Definition strcat_into (cap : Z) (dst src : bytes) : res bytes := strcpy_into cap (dst ++ src).

(** the object of [cap] bytes, cleared before, that holds the string *)
Definition str_object (cap : Z) (s : bytes) : bytes := s ++ replicate (Z.to_nat (cap - zlen s)) 0.

(** ** Numbers *)
Definition is_space (b : Z) : bool := (b =? 32) || ((9 <=? b) && (b <=? 13)).
Definition is_digit (b : Z) : bool := (48 <=? b) && (b <=? 57).

Fixpoint skip_spaces (s : bytes) : bytes :=
  match s with
  | [] => []
  | b :: s' => if is_space b then skip_spaces s' else s
  end.

(** whether there is a minus, and the rest *)
Definition read_sign (s : bytes) : bool * bytes :=
  match s with
  | b :: s' => if b =? 45 then (true, s') else if b =? 43 then (false, s') else (false, s)
  | [] => (false, [])
  end.

(** the digits at the front, [val] being what a character is worth (-1: no digit) *)
Fixpoint read_digits (val : Z -> Z) (s : bytes) : list Z :=
  match s with
  | [] => []
  | b :: s' => if val b <? 0 then [] else val b :: read_digits val s'
  end.

Definition dec_val (b : Z) : Z := if is_digit b then b - 48 else -1.
Definition hex_val (b : Z) : Z :=
  if is_digit b then b - 48
  else if (97 <=? b) && (b <=? 102) then b - 87
  else if (65 <=? b) && (b <=? 70) then b - 55
  else -1.

(** [atoi(s)]; a number that is no [int] is undefined behaviour *)
Definition c_atoi (s : bytes) : res Z :=
  let (neg, s) := read_sign (skip_spaces s) in
  let v := num 10 (read_digits dec_val s) in
  int_op (if neg then - v else v).

(** [strtol(s, NULL, 16)], for short texts *)
Definition c_strtol16 (s : bytes) : Z :=
  let (neg, s) := read_sign (skip_spaces s) in
  let s := match s with
           | 48 :: x :: d :: s' => if ((x =? 120) || (x =? 88)) && (0 <=? hex_val d) then d :: s' else s
           | _ => s
           end in
  let v := num 16 (read_digits hex_val s) in
  if neg then - v else v.

(** ["%d"] of a number that is not negative *)
Definition dec (n : Z) : bytes := Z.add 48 <$> show 10 n.

Definition hex_chr (upper : bool) (d : Z) : Z := if d <? 10 then 48 + d else (if upper then 55 else 87) + d.
(** ["%02x"] and ["%02X"] *)
Definition hex02 (upper : bool) (n : Z) : bytes :=
  let s := hex_chr upper <$> show 16 n in if zlen s <? 2 then 48 :: s else s.

(** ** Parts *)
(** the tokens [strtok] finds: the longest pieces without the delimiter *)
Fixpoint tokens_from (delim : Z) (cur s : bytes) : list bytes :=
  match s with
  | [] => if zlen cur =? 0 then [] else [cur]
  | b :: s =>
    if b =? delim then (if zlen cur =? 0 then [] else [cur]) ++ tokens_from delim [] s
    else tokens_from delim (cur ++ [b]) s
  end.
Definition tokens (delim : Z) (s : bytes) : list bytes := tokens_from delim [] s.

Fixpoint is_prefix (p s : bytes) : bool :=
  match p, s with
  | [], _ => true
  | x :: p, y :: s => (x =? y) && is_prefix p s
  | _ :: _, [] => false
  end.

(** [strstr]: the index of the first occurrence *)
Fixpoint c_strstr (s needle : bytes) : option Z :=
  if is_prefix needle s then Some 0
  else match s with
       | [] => None
       | _ :: s => Z.succ <$> c_strstr s needle
       end.

(** [strncmp(a, b, n) == 0]: up to [n] characters, not beyond a common NUL *)
Fixpoint strncmp_eq (n : nat) (a b : bytes) : res bool :=
  match n with
  | O => Ret true
  | S n =>
    match a, b with
    | x :: a, y :: b => if x =? y then (if x =? 0 then Ret true else strncmp_eq n a b) else Ret false
    | _, _ => UB
    end
  end.

(** ** Lemmas *)
Definition nonzero (s : bytes) : Prop := Forall (fun b => b <> 0) s.

Lemma strrchr_none s : 47 ∉ s -> c_strrchr s 47 = None.
Proof.
  induction s as [|x s IH]; [done|]. intros [Hx Hs]%not_elem_of_cons. cbn [c_strrchr]. rewrite IH by done.
  by rewrite (proj2 (Z.eqb_neq x 47)).
Qed.
Lemma strrchr_last pre w : 47 ∉ w -> c_strrchr (pre ++ 47 :: w) 47 = Some (zlen pre).
Proof.
  intros Hw. induction pre as [|x pre IH]; cbn [app c_strrchr].
  - by rewrite strrchr_none.
  - rewrite IH, zlen_cons. f_equal. lia.
Qed.

Lemma read_str_nul s rest : nonzero s -> read_str (s ++ 0 :: rest) = Ret s.
Proof. intros Hs. unfold read_str. rewrite strlen_nul by done. cbn [rbind]. by apply memrd_app. Qed.

Lemma read_str_object cap s : nonzero s -> zlen s < cap -> read_str (str_object cap s) = Ret s.
Proof.
  intros Hs Hl. unfold str_object. replace (Z.to_nat (cap - zlen s)) with (S (Z.to_nat (cap - zlen s - 1))) by lia.
  by apply read_str_nul.
Qed.

Lemma c_str_all s : nonzero s -> c_str s = s.
Proof. induction 1 as [|b s Hb _ IH]; [done|]. cbn [c_str]. by rewrite (proj2 (Z.eqb_neq b 0)), IH by done. Qed.

Lemma strcat_ok cap dst src : zlen dst + zlen src < cap -> strcat_into cap dst src = Ret (dst ++ src).
Proof. intros. unfold strcat_into, strcpy_into. rewrite zlen_app. by zbool. Qed.

Lemma txt_nonzero s : forallb (fun b => negb (b =? 0)) (txt s) = true -> nonzero (txt s).
Proof.
  intros H. apply Forall_forall. intros b Hb. rewrite forallb_forall in H.
  apply list_elem_of_In in Hb. specialize (H b Hb). by destruct (Z.eqb_spec b 0).
Qed.

(** decimal texts *)
Definition dec_digit (b : Z) : Prop := 48 <= b <= 57.

Lemma dec_digits n : 0 <= n -> Forall dec_digit (dec n).
Proof.
  intros Hn. apply Forall_fmap. destruct (show_spec 10 ltac:(lia) n Hn) as (Hd & _).
  eapply Forall_impl; [exact Hd|]. unfold dec_digit. simpl. lia.
Qed.
Lemma dec_nonempty n : 0 <= n -> 0 < zlen (dec n).
Proof.
  intros Hn. destruct (show_spec 10 ltac:(lia) n Hn) as (_ & _ & _ & Hne). unfold dec.
  destruct (show 10 n) as [|d l]; [done|]. cbn [fmap list_fmap]. rewrite zlen_cons. zlen_facts. lia.
Qed.
Lemma dec_length n k : 0 <= n < 10 ^ k -> 1 <= k -> zlen (dec n) <= k.
Proof. intros. unfold dec. rewrite zlen_fmap. by apply show_length. Qed.
Lemma dec_length_ge n k : 10 ^ k <= n -> 0 <= k -> k + 1 <= zlen (dec n).
Proof. intros. unfold dec. rewrite zlen_fmap. by apply show_length_ge. Qed.

Lemma read_digits_dec l rest : digits 10 l -> dec_val (hd 0 rest) < 0 ->
  read_digits dec_val ((Z.add 48 <$> l) ++ rest) = l.
Proof.
  intros Hl Hr. induction Hl as [|d l Hd _ IH]; cbn [fmap list_fmap app read_digits].
  - destruct rest as [|b rest]; [done|]. cbn [hd read_digits] in *. by zbool.
  - assert (dec_val (48 + d) = d) as E by (unfold dec_val, is_digit; zbool; cbn; lia).
    rewrite E. zbool. by rewrite IH.
Qed.

Lemma atoi_dec n rest : 0 <= n < 2 ^ 31 -> dec_val (hd 0 rest) < 0 -> c_atoi (dec n ++ rest) = Ret n.
Proof.
  intros Hn Hr. unfold c_atoi. pose proof (dec_nonempty n ltac:(lia)) as Hne.
  pose proof (dec_digits n ltac:(lia)) as Hdd.
  destruct (show_spec 10 ltac:(lia) n ltac:(lia)) as (Hd & Hv & _).
  assert (read_sign (skip_spaces (dec n ++ rest)) = (false, dec n ++ rest)) as ->.
  { destruct (dec n) as [|b l]; [done|]. apply Forall_cons in Hdd as [Hb _]. unfold dec_digit in Hb.
    cbn [app skip_spaces]. unfold is_space. zbool. cbn [orb andb read_sign]. by zbool. }
  unfold dec. rewrite read_digits_dec by done. rewrite Hv. apply int_op_small. lia.
Qed.

(** tokens of a text put together from pieces *)
Definition piece (delim : Z) (t : bytes) : Prop := t <> [] /\ Forall (fun b => b <> delim) t.

Lemma tokens_from_piece delim t : Forall (fun b => b <> delim) t -> forall cur s,
  tokens_from delim cur (t ++ s) = tokens_from delim (cur ++ t) s.
Proof.
  induction 1 as [|b t Hb _ IH]; intros cur s; cbn [app tokens_from]; [by rewrite app_nil_r|].
  zbool. by rewrite IH, <- app_assoc.
Qed.

Lemma tokens_delim delim t s : piece delim t -> tokens delim (t ++ delim :: s) = t :: tokens delim s.
Proof.
  intros [Hne Ht]. unfold tokens. rewrite tokens_from_piece by done. cbn [app tokens_from].
  rewrite Z.eqb_refl. destruct t; [done|]. rewrite zlen_cons. zlen_facts. by zbool.
Qed.
Lemma tokens_last delim t : piece delim t -> tokens delim t = [t].
Proof.
  intros [Hne Ht]. unfold tokens. rewrite <- (app_nil_r t) at 1. rewrite tokens_from_piece by done. cbn [app tokens_from].
  destruct t; [done|]. rewrite zlen_cons. zlen_facts. by zbool.
Qed.
Lemma tokens_skip delim s : tokens delim (delim :: s) = tokens delim s.
Proof. unfold tokens. cbn [tokens_from]. by rewrite Z.eqb_refl. Qed.

(** pieces behind delimiters, with or without one at the end *)
Definition delimited (delim : Z) (ws : list bytes) : bytes := concat (cons delim <$> ws).

Lemma tokens_delimited delim ws tail : Forall (piece delim) ws -> tail = [] \/ tail = [delim] ->
  tokens delim (delimited delim ws ++ tail) = ws.
Proof.
  intros Hws Ht. unfold delimited. induction Hws as [|w ws Hw Hws IH].
  - destruct Ht as [->| ->]; [done|]. apply tokens_skip.
  - cbn [fmap list_fmap concat app]. rewrite tokens_skip, <- app_assoc.
    destruct Hws as [|w' ws Hw' Hws]; cbn [fmap list_fmap concat app] in *.
    + destruct Ht as [->| ->]; [by rewrite app_nil_r, tokens_last|by rewrite tokens_delim].
    + rewrite tokens_delim by done. by rewrite <- IH, tokens_skip.
Qed.

Lemma delimited_app delim ws ws' : delimited delim (ws ++ ws') = delimited delim ws ++ delimited delim ws'.
Proof. unfold delimited. by rewrite fmap_app, concat_app. Qed.

(** decimal numbers are pieces, and no NUL is among their digits *)
Lemma dec_piece delim n : 0 <= n -> ~ dec_digit delim -> piece delim (dec n).
Proof.
  intros Hn Hd. split.
  - pose proof (dec_nonempty n Hn). by destruct (dec n).
  - eapply Forall_impl; [by apply dec_digits|]. by intros b Hb ->.
Qed.
Lemma dec_nonzero n : 0 <= n -> nonzero (dec n).
Proof. intros Hn. eapply Forall_impl; [by apply dec_digits|]. unfold dec_digit. simpl. lia. Qed.
Lemma atoi_dec_all n : 0 <= n < 2 ^ 31 -> c_atoi (dec n) = Ret n.
Proof. intros. rewrite <- (app_nil_r (dec n)). by apply atoi_dec. Qed.

(** comparing with a literal *)
Lemma strncmp_eq_prefix k (s rest p : bytes) : nonzero s -> k = length s -> (k <= length p)%nat ->
  strncmp_eq k p (s ++ rest) = Ret (is_prefix s p).
Proof.
  intros Hs ->. revert p. induction Hs as [|x s Hx Hs IH]; intros [|y p] Hl; try done;
    cbn [length app strncmp_eq is_prefix] in *; [lia|].
  rewrite (Z.eqb_sym x y). destruct (Z.eqb_spec y x) as [->|]; [|done].
  rewrite (proj2 (Z.eqb_neq x 0)) by done. cbn [andb]. apply IH. lia.
Qed.

Lemma is_prefix_spec s p : is_prefix s p = true <-> exists rest, p = s ++ rest.
Proof.
  revert p. induction s as [|x s IH]; intros p; cbn [is_prefix].
  - split; [by exists p|done].
  - destruct p as [|y p]; [by split; [|intros (rest & E)]|].
    rewrite andb_true_iff, IH, Z.eqb_eq. split.
    + intros [-> (rest & ->)]. by exists rest.
    + intros (rest & [= -> ->]). split; [done|by exists rest].
Qed.
