(* ===== verification/Hex.v ===== *)
(** * Hexadecimal texts and the protocol table (libp2p/multiaddr/varhexutils.c, varint.c, protocols.c)

    What the conversion of addresses between text and bytes is built from. *)
From Stdlib Require Import String.
From S2P Require Import Prelude Digits CString.

(** ** Variable-length integers (varint.h)

    [n] is what is left of the SIZE/8 turns of the loop; [None] is the result -1.
    The encoder sets the continuation bit in every byte, the last one included. *)
Fixpoint uvarint_encode (n : nat) (i val : Z) (buf : bytes) (bufsize : Z) : res (option Z * bytes) :=
  match n with
  | O => Ret (None, buf)
  | S n =>
    if i <? bufsize then
      let! (_, buf) := with_ptr buf i (fun p => let! p := memwr p [u8 (Z.lor (Z.land val 255) 128)] in Ret (tt, p)) in
      let val := Z.shiftr val 7 in
      if val =? 0 then Ret (Some (i + 1), buf) else uvarint_encode n (i + 1) val buf bufsize
    else Ret (None, buf)
  end.

(** the result and [*val]; the shift is a shift of an [int] *)
Fixpoint uvarint_decode (n : nat) (i val : Z) (buf : bytes) (bufsize : Z) : res (option Z * Z) :=
  match n with
  | O => Ret (None, val)
  | S n =>
    if i <? bufsize then
      let! b := rd buf i in
      if 32 <=? 7 * i then UB
      else
        let! part := int_op (Z.shiftl (Z.land b 127) (7 * i)) in
        let val := Z.lor val part in
        if Z.land b 128 =? 0 then Ret (Some (i + 1), val) else uvarint_decode n (i + 1) val buf bufsize
    else Ret (None, val)
  end.

Definition uvarint_encode32 := uvarint_encode 4 0.
Definition uvarint_encode64 := uvarint_encode 8 0.
Definition uvarint_decode32 := uvarint_decode 4 0 0.
Definition uvarint_decode64 := uvarint_decode 8 0 0.

(** ** Numbers as hexadecimal texts *)
(** the two characters of a pair, or one when the second is the NUL *)
Definition hex_byte (a b : Z) : Z := u8 (c_strtol16 (c_str [a; b])).

Definition Int_To_Hex (int2hex : Z) : bytes :=
  let result := hex02 true int2hex in
  if zlen result mod 2 =? 0 then result else 48 :: result.

Definition hex_step (val byte : Z) : Z :=
  let nibble :=
    if is_digit byte then byte - 48
    else if (97 <=? byte) && (byte <=? 102) then byte - 97 + 10
    else if (65 <=? byte) && (byte <=? 70) then byte - 65 + 10
    else byte in
  Z.lor (u64 (Z.shiftl val 4)) (Z.land nibble 15).

Definition Hex_To_Int (hax : bytes) : Z := fold_left hex_step hax 0.

(** ** Bytes as hexadecimal texts *)
Section hex.
Context {M : Malloc}.

(** the results of [malloc] are not tested *)
Definition vthconvert (input : bytes) (in_size : Z) : res bytes :=
  let! n := int_op (in_size * 2) in
  let! n := int_op (n + 1) in
  if (n <=? 0) || negb (malloc_ok n) then UB
  else let! input := memrd input in_size in Ret ((input ≫= hex02 false) ++ [0]).

Definition Var_To_Hex (incoming : option bytes) (incoming_size : Z) : res (option bytes) :=
  match incoming with
  | None => Ret None
  | Some incoming => let! r := vthconvert incoming incoming_size in Ret (Some r)
  end.

(** the loop; a text of odd length is written past the end of the result *)
Fixpoint hex_pairs (s : bytes) : res bytes :=
  match s with
  | [] => Ret []
  | [_] => UB
  | a :: b :: s => let! r := hex_pairs s in Ret (hex_byte a b :: r)
  end.

(** the array and [*num_bytes] *)
Definition Hex_To_Var (incoming : bytes) : res (bytes * Z) :=
  let! s := read_str incoming in
  let num_bytes := Z.quot (s32 (zlen s)) 2 in
  if malloc_ok num_bytes then let! r := hex_pairs s in Ret (r, num_bytes)
  else if zlen s =? 0 then Ret ([], 0) else UB.
End hex.

(** ** Varints as hexadecimal texts *)
Definition convert (buf : bytes) : res bytes :=
  let! buf := memrd buf 10 in Ret (buf ≫= hex02 true).
Definition convert2 (bufhx : bytes) : res bytes := let! b := rd bufhx 0 in Ret (hex02 true b).

(** the array has 400 bytes and 800 are announced *)
Definition Num_To_HexVar_64 (v : Z) : res bytes :=
  let! (_, buf) := uvarint_encode64 v (replicate 400 0) 800 in convert buf.
Definition Num_To_HexVar_32 (v : Z) : res bytes :=
  let! (_, buf) := uvarint_encode32 v [0] 1 in convert2 buf.

(** [buffy]: 200 pairs of characters of the array [codo], and zeros *)
Definition hexvar_bytes (codo : bytes) : bytes :=
  ((fun i => hex_byte (default 0 (codo !! Z.to_nat (2 * i))) (default 0 (codo !! Z.to_nat (2 * i + 1)))) <$> seqZ 0 200)
  ++ replicate 200 0.

Definition HexVar_To_Num_64 (theHEXstring : bytes) : res Z :=
  let! s := read_str theHEXstring in
  let! codo := strcpy_into 800 s in
  let! (_, decoded) := uvarint_decode64 (hexvar_bytes (str_object 800 codo)) 400 in Ret decoded.
Definition HexVar_To_Num_32 (theHEXstring : bytes) : res Z :=
  let! s := read_str theHEXstring in
  let! codo := strcpy_into 800 s in
  let! (_, decoded) := uvarint_decode32 (hexvar_bytes (str_object 800 codo)) 10 in Ret decoded.

(** [xrzk_bytescnt] is static and never reset: its value before the call is the
    first argument *)
Definition Var_Bytes_Count (xrzk_bytescnt : Z) (p : bytes) : res Z :=
  let! p := memrd p 10 in
  Ret (fold_left (fun c b => if b =? 0 then c else s8 (c + 1)) p xrzk_bytescnt).

(** ** The protocol table *)
Record Protocol := mkProtocol { deccode : Z; size : Z; name : bytes }.

Definition protocol_table : list Protocol :=
  [ mkProtocol 4 32 (txt "ip4"); mkProtocol 41 128 (txt "ip6"); mkProtocol 6 16 (txt "tcp"); mkProtocol 17 16 (txt "udp");
    mkProtocol 33 16 (txt "dccp"); mkProtocol 132 16 (txt "sctp"); mkProtocol 301 0 (txt "udt"); mkProtocol 302 0 (txt "utp");
    mkProtocol 42 (-1) (txt "ipfs"); mkProtocol 480 0 (txt "http"); mkProtocol 443 0 (txt "https"); mkProtocol 477 0 (txt "ws");
    mkProtocol 444 10 (txt "onion"); mkProtocol 275 0 (txt "libp2p-webrtc-star") ].

(** every item is allocated on its own, and the results are not tested *)
Definition load_protocols `{Malloc} : res (list Protocol) :=
  if malloc_ok 16 && malloc_ok 40 then Ret protocol_table else UB.

Definition proto_with_name (head : list Protocol) (proto_w_name : bytes) : option Protocol :=
  List.find (fun p => bool_decide (proto_w_name = name p)) head.
Definition proto_with_deccode (head : list Protocol) (proto_w_deccode : Z) : option Protocol :=
  List.find (fun p => deccode p =? proto_w_deccode) head.

(** ** Lemmas *)
(** the text of bytes *)
Definition hex (upper : bool) (l : bytes) : bytes := l ≫= hex02 upper.

Lemma hex_step_ok up v d : 0 <= v < 2 ^ 60 -> 0 <= d < 16 -> hex_step v (hex_chr up d) = v * 16 + d.
Proof.
  intros Hv Hd. unfold hex_step.
  match goal with |- Z.lor _ (Z.land ?n _) = _ => assert (n = d) as -> end.
  { unfold hex_chr, is_digit. destruct (Z.ltb_spec d 10); [zbool; cbn [andb]; lia|].
    destruct up; zbool; cbn [andb]; lia. }
  change 15 with (Z.ones 4). rewrite Z.land_ones, Z.mod_small by lia.
  rewrite Z.shiftl_mul_pow2, u64_small by lia.
  rewrite <- Z.shiftl_mul_pow2 by lia. apply lor_shiftl; lia.
Qed.

(** both characters of a byte *)
Lemma hex02_ok up b : byte_range b ->
  let h := hex_chr up (b / 16) in let k := hex_chr up (b mod 16) in
  hex02 up b = [h; k] /\ hex_byte h k = b /\ h <> 0 /\ k <> 0 /\ k <> 82.
Proof.
  intros Hb. assert (forallb (fun b => let h := hex_chr up (b / 16) in let k := hex_chr up (b mod 16) in
    bool_decide (hex02 up b = [h; k]) && (hex_byte h k =? b) && negb (h =? 0) && negb (k =? 0) && negb (k =? 82))
    (seqZ 0 256) = true) as Hall by (destruct up; vm_compute; reflexivity).
  pose proof (byte_forall _ Hall b Hb) as H. cbv beta zeta in H. rewrite !andb_true_iff, !negb_true_iff, !Z.eqb_neq, Z.eqb_eq in H.
  destruct H as ((((H1%bool_decide_eq_true & H2) & H3) & H4) & H5). by split_and!.
Qed.

Lemma hex_cons up b l : hex up (b :: l) = hex02 up b ++ hex up l.
Proof. reflexivity. Qed.
Lemma hex_app up l k : hex up (l ++ k) = hex up l ++ hex up k.
Proof. apply bind_app. Qed.

Lemma hex_length up l : is_bytes l -> zlen (hex up l) = 2 * zlen l.
Proof.
  induction 1 as [|b l Hb _ IH]; [done|]. rewrite hex_cons, zlen_app, IH, zlen_cons.
  destruct (hex02_ok up b Hb) as (-> & _). rewrite !zlen_cons, zlen_nil. lia.
Qed.
Lemma hex_nonzero up l : is_bytes l -> nonzero (hex up l).
Proof.
  induction 1 as [|b l Hb _ IH]; [constructor|]. rewrite hex_cons. apply Forall_app. split; [|done].
  destruct (hex02_ok up b Hb) as (-> & _ & H1 & H2 & _). by repeat constructor.
Qed.
Lemma hex_pairs_ok up l : is_bytes l -> hex_pairs (hex up l) = Ret l.
Proof.
  induction 1 as [|b l Hb _ IH]; [done|]. rewrite hex_cons. destruct (hex02_ok up b Hb) as (-> & Hv & _).
  cbn [app hex_pairs]. rewrite IH. cbn [rbind]. by rewrite Hv.
Qed.

Lemma Hex_To_Int_from up l : is_bytes l -> forall v, 0 <= v -> v * 256 ^ zlen l + num 256 l < 2 ^ 64 ->
  fold_left hex_step (hex up l) v = v * 256 ^ zlen l + num 256 l.
Proof.
  induction 1 as [|b l Hb Hl IH]; intros v Hv Hm; cbn [num] in *.
  { change (zlen []) with 0. cbn. lia. }
  rewrite zlen_cons in *. rewrite Z.pow_add_r, Z.pow_1_r in * by (zlen_facts; lia).
  pose proof (num_bound 256 ltac:(lia) l Hl). pose proof (Z.pow_pos_nonneg 256 (zlen l) ltac:(lia) ltac:(zlen_facts; lia)).
  unfold byte_range in Hb. assert (v * 256 < 2 ^ 64) by nia.
  rewrite hex_cons, fold_left_app. destruct (hex02_ok up b Hb) as (-> & _). cbn [fold_left].
  pose proof (Z.div_mod b 16 ltac:(lia)). pose proof (Z.mod_pos_bound b 16 ltac:(lia)).
  assert (0 <= b / 16 < 16) by (split; [apply Z.div_pos; lia|apply Z.div_lt_upper_bound; lia]).
  rewrite (hex_step_ok up v), (hex_step_ok up (v * 16 + _)) by lia. rewrite IH by nia. nia.
Qed.

Lemma Hex_To_Int_ok up l : is_bytes l -> zlen l <= 8 -> Hex_To_Int (hex up l) = num 256 l.
Proof.
  intros Hl Hz. unfold Hex_To_Int. rewrite (Hex_To_Int_from up l Hl 0) by
    (pose proof (num_bound 256 ltac:(lia) l Hl); pose proof (Z.pow_le_mono_r 256 (zlen l) 8 ltac:(lia) Hz); lia).
  lia.
Qed.

(** ** [Int_To_Hex] prints the shortest list of bytes *)
Definition nibbles (l : bytes) : list Z := l ≫= fun b => [b / 16; b mod 16].

Lemma nibbles_ok l : is_bytes l -> digits 16 (nibbles l) /\ num 16 (nibbles l) = num 256 l /\ zlen (nibbles l) = 2 * zlen l.
Proof.
  induction 1 as [|b l Hb _ (IH1 & IH2 & IH3)]; [split_and!; [constructor|done|done]|].
  change (nibbles (b :: l)) with (b / 16 :: b mod 16 :: nibbles l). unfold byte_range in Hb.
  pose proof (Z.div_mod b 16 ltac:(lia)). pose proof (Z.mod_pos_bound b 16 ltac:(lia)).
  assert (0 <= b / 16 < 16) by (split; [apply Z.div_pos; lia|apply Z.div_lt_upper_bound; lia]).
  split; [constructor; [lia|constructor; [lia|done]]|]. rewrite !zlen_cons, IH3. split; [|lia]. cbn [num].
  rewrite zlen_cons, IH2, IH3. zlen_facts. rewrite Z.pow_add_r, Z.pow_mul_r by lia. change (16 ^ 2) with 256.
  rewrite Z.pow_1_r. nia.
Qed.

Lemma hex_nibbles up l : is_bytes l -> hex up l = hex_chr up <$> nibbles l.
Proof.
  induction 1 as [|b l Hb _ IH]; [done|]. rewrite hex_cons, IH. by destruct (hex02_ok up b Hb) as (-> & _).
Qed.

Lemma Int_To_Hex_ok n : 0 <= n -> Int_To_Hex n = hex true (show 256 n).
Proof.
  intros Hn. destruct (show_spec 256 ltac:(lia) n Hn) as (Hd & Hv & Hh & Hne).
  rewrite (hex_nibbles true _ Hd). destruct (nibbles_ok _ Hd) as (Kd & Kv & Kl). rewrite Hv in Kv.
  unfold Int_To_Hex, hex02. rewrite !zlen_fmap. destruct (Z.eq_dec n 0) as [->|Hn0]; [reflexivity|].
  specialize (Hh ltac:(lia)). destruct (show 256 n) as [|b l] eqn:E; [done|].
  change (nibbles (b :: l)) with (b / 16 :: b mod 16 :: nibbles l) in *. cbn [hd] in Hh.
  apply Forall_cons in Hd as [Hb _]. rewrite !zlen_cons in Kl. zlen_facts.
  destruct (Z.eq_dec (b / 16) 0) as [Hz|Hz].
  - assert (show 16 n = b mod 16 :: nibbles l) as ->.
    { rewrite <- Kv. cbn [num]. rewrite Hz, Z.mul_0_l, Z.add_0_l. apply Forall_cons in Kd as [_ Kd].
      apply (show_num 16 ltac:(lia) _ Kd). cbn [hd]. pose proof (Z.div_mod b 16 ltac:(lia)). lia. }
    rewrite Hz. rewrite zlen_cons. cbn [fmap list_fmap]. destruct (Z.ltb_spec (1 + zlen (nibbles l)) 2) as [Hl|Hl].
    + rewrite !zlen_cons, zlen_fmap. replace (zlen (nibbles l)) with 0 by lia. reflexivity.
    + rewrite zlen_cons, zlen_fmap. assert ((1 + zlen (nibbles l)) mod 2 = 1) as ->; [|reflexivity].
      replace (1 + zlen (nibbles l)) with (1 + zlen l * 2) by lia. by rewrite Z_mod_plus_full.
  - assert (show 16 n = b / 16 :: b mod 16 :: nibbles l) as -> by (rewrite <- Kv; by apply show_num).
    rewrite !zlen_cons. zbool. rewrite zlen_fmap, !zlen_cons.
    assert ((1 + (1 + zlen (nibbles l))) mod 2 = 0) as ->; [|reflexivity].
    replace (1 + (1 + zlen (nibbles l))) with (zlen l * 2 + 2) by lia. rewrite Z.add_comm, Z_mod_plus_full. done.
Qed.

(** ** Length prefixes of one byte *)
Lemma hexvar_roundtrip n : 0 <= n < 128 ->
  Num_To_HexVar_32 n = Ret (hex02 true (n + 128)) /\ HexVar_To_Num_32 (hex02 true (n + 128) ++ [0]) = Ret n /\
  HexVar_To_Num_32 (hex02 false (n + 128) ++ [0]) = Ret n.
Proof.
  intros Hn. assert (forallb (fun n => negb (n <? 128) ||
    (bool_decide (Num_To_HexVar_32 n = Ret (hex02 true (n + 128)))
     && bool_decide (HexVar_To_Num_32 (hex02 true (n + 128) ++ [0]) = Ret n)
     && bool_decide (HexVar_To_Num_32 (hex02 false (n + 128) ++ [0]) = Ret n))) (seqZ 0 256) = true) as Hall
    by (vm_compute; reflexivity).
  pose proof (byte_forall _ Hall n ltac:(unfold byte_range; lia)) as H. cbv beta in H. revert H. zbool.
  cbn [negb orb]. rewrite !andb_true_iff, !bool_decide_eq_true. tauto.
Qed.
