(* ===== verification/Multiaddr.v ===== *)
(** * Multiaddresses (libp2p/multiaddr/protoutils.c, multiaddr.c)

    Addresses as texts ("/ip4/1.2.3.4/tcp/4001/ipfs/Qm...") and as bytes: the
    two conversions, the struct that holds both forms, and the functions that
    look for parts of an address. *)
From Stdlib Require Import String.
From S2P Require Import Prelude Digits Base58 CString Hex.

(** ** IPv4 texts *)
Definition valid_digit (ip_str : bytes) : bool := forallb is_digit ip_str.

(** the loop over the pieces between the dots, [ptr] and those behind it; a
    piece whose number is out of range is examined again and again *)
Fixpoint ipv4_loop (fuel : nat) (pieces : list bytes) (dots : Z) (err : bool) : res (Z * bool) :=
  match pieces with
  | [] => Ret (dots, err)
  | ptr :: rest =>
    match fuel with
    | O => NoFuel
    | S fuel =>
      let err := err || negb (valid_digit ptr) in
      let! num := c_atoi ptr in
      if (0 <=? num) && (num <=? 255) then
        ipv4_loop fuel rest (match rest with [] => dots | _ => dots + 1 end) err
      else ipv4_loop fuel pieces dots true
    end
  end.

Definition is_valid_ipv4 (ip_str : bytes) : res Z :=
  let pieces := tokens 46 ip_str in
  let! (dots, err) := ipv4_loop (length pieces) pieces 0 (match pieces with [] => true | _ => false end) in
  Ret (if (dots =? 3) && negb err then 1 else 0).

(** The sum is computed with [double]s, which are exact below 2^53; the function
    is called for texts that [is_valid_ipv4] has accepted. *)
Definition ip2int (ipconvertint : bytes) : res Z :=
  let! ip := strcpy_into 16 ipconvertint in
  match tokens 46 ip with
  | p1 :: p2 :: p3 :: p4 :: _ =>
    let! ipat1 := c_atoi p1 in let! ipat2 := c_atoi p2 in
    let! ipat3 := c_atoi p3 in let! ipat4 := c_atoi p4 in
    let final_result := ipat1 * 2 ^ 24 + ipat2 * 2 ^ 16 + ipat3 * 2 ^ 8 + ipat4 in
    if (0 <=? final_result) && (final_result <? 2 ^ 53) then Ret final_result else UB
  | _ => UB
  end.

Definition int2ip (inputintip : Z) : bytes :=
  let ipint := u32 (s32 inputintip) in
  dec (Z.shiftr ipint 24 mod 256) ++ 46 :: dec (Z.shiftr ipint 16 mod 256) ++
  46 :: dec (Z.shiftr ipint 8 mod 256) ++ 46 :: dec (ipint mod 256).

(** ** Bytes to text *)
Section conversions.
Context {M : Malloc}.

(** the text of one address that is not an IPFS id: [a] has room for 5 bytes *)
Definition address_text (protocol : Protocol) (address : bytes) (results : bytes) : res bytes :=
  let! results := strcat_into 800 results (47 :: name protocol ++ [47]) in
  if decide (name protocol = txt "ip4") then strcat_into 800 results (int2ip (Hex_To_Int address))
  else if decide (name protocol = txt "tcp" \/ name protocol = txt "udp") then
    let! a := strcpy_into 5 (dec (Hex_To_Int address)) in strcat_into 800 results a
  else Ret results.

(** the "IPFS CASE"; [None]: the text does not fit *)
Definition ipfs_text (protocol : Protocol) (hex : bytes) (lastpos : Z) (results : bytes) : res (option bytes) :=
  let lastpos := lastpos + 4 in
  let! p := padd hex (lastpos - 2) in
  let! prefixedvarint := memrd p 2 in
  let! addrsize := HexVar_To_Num_32 (prefixedvarint ++ [0]) in
  let! p := padd hex lastpos in
  let! IPFS_ADDR := memrd p (s32 addrsize) in
  let! (addrbuf, num_bytes) := Hex_To_Var (IPFS_ADDR ++ [0]) in
  let! b58_size := strlen (IPFS_ADDR ++ [0]) in
  let! (returnstatus, b58, _) :=
    multiaddr_encoding_base58_encode addrbuf num_bytes (replicate (Z.to_nat b58_size) 0) b58_size in
  if returnstatus =? 0 then Ret None
  else
    let! b58 := read_str b58 in
    let! results := strcat_into 800 results (47 :: name protocol ++ [47]) in
    let! results := strcat_into 800 results b58 in Ret (Some results).

(** from the label NAX on *)
Fixpoint bytes_to_string_loop (fuel : nat) (head : list Protocol) (hex : bytes) (size2 lastpos : Z) (results : bytes)
  : res (option bytes) :=
  match fuel with
  | O => NoFuel
  | S fuel =>
    let finish results := let! results := strcat_into 800 results [47] in Ret (Some results) in
    let! pid0 := rd hex lastpos in
    let! pid1 := rd hex (lastpos + 1) in
    match proto_with_deccode head (s32 (Hex_To_Int (c_str [pid0; pid1]))) with
    | None => finish results
    | Some protocol =>
      if decide (name protocol = txt "ipfs") then
        let! results := ipfs_text protocol hex lastpos results in
        match results with None => Ret None | Some results => finish results end
      else
        let lastpos := lastpos + 2 in
        let n := Z.quot (size protocol) 4 in
        let! p := padd hex lastpos in
        let! address := memrd p n in
        let lastpos := lastpos + n in
        let! results := address_text protocol (c_str address) results in
        if lastpos <? size2 then bytes_to_string_loop fuel head hex size2 lastpos results else finish results
    end
  end.

(** the result and the object [*buffer]; every turn reads at least the two
    characters of a protocol *)
Definition bytes_to_string (in_bytes : bytes) (in_bytes_size : Z) : res (Z * bytes) :=
  let! head := load_protocols in
  let! n := int_op (in_bytes_size * 2) in
  let! tmp := vthconvert in_bytes in_bytes_size in
  let! hex := memrd tmp n in
  if malloc_ok 800 then
    let! results := bytes_to_string_loop (S (Z.to_nat n)) head (hex ++ [0]) n 0 [] in
    Ret (match results with None => (0, fresh 800) | Some results => (1, str_object 800 results) end)
  else UB.

(** ** Text to bytes *)
(** the four characters of a port: [Int_To_Hex] gives two or four *)
Definition port_hex (port : Z) : res bytes :=
  let! himm_woot := strcpy_into 5 (Int_To_Hex port) in
  Ret match himm_woot with
      | [c0; c1] => [48; 48; c0; c1]
      | [c0; c1; c2] => [48; c0; c1; c2]
      | _ => himm_woot
      end.

(** what is returned, [*results] and [*results_size] *)
Definition ERR : bytes * bytes * Z := (lit "ERR", [], 0).

(** [strcpy(prefixed, ...)] and the two [strcat]s of the IPFS case *)
Definition ipfs_bytes (incoming : bytes) : res (bytes * bytes * Z) :=
  let! result_buffer_length := multiaddr_encoding_base58_decode_max_size (incoming ++ [0]) in
  let! (return_value, result_buffer, length) :=
    multiaddr_encoding_base58_decode (incoming ++ [0]) (zlen incoming)
      (replicate (Z.to_nat result_buffer_length) 0) result_buffer_length in
  if return_value =? 0 then Ret ERR
  else
    let! decoded := memrd result_buffer length in
    let! addr_encoded := strcpy_into 300 (hex false decoded) in
    let ilen := zlen addr_encoded in
    let! prefixed := Num_To_HexVar_32 ilen in
    let! prefixed := strcpy_into 3 prefixed in
    let results_size := ilen + 3 in
    if malloc_ok results_size then
      let! r := strcat_into results_size prefixed addr_encoded in
      let results := str_object results_size r in Ret (results, results, results_size)
    else UB.

Definition address_string_to_bytes (protocol : Protocol) (incoming : bytes) : res (bytes * bytes * Z) :=
  let code := deccode protocol in
  if code =? 4 then
    let! testip := strcpy_into 16 incoming in
    let! valid := is_valid_ipv4 testip in
    if valid =? 1 then
      let! iip := ip2int incoming in
      let results := Int_To_Hex iip in
      if malloc_ok (zlen results) then Ret (results, results, zlen results) else UB
    else Ret ERR
  else if (code =? 6) || (code =? 17) then
    let! port := c_atoi incoming in
    if (port <? 65536) && (0 <? port) then
      let! himm_woot := port_hex port in
      if malloc_ok 5 then
        let results := str_object 5 himm_woot in Ret (results, results, 5)
      else UB
    else Ret ERR
  else if code =? 42 then ipfs_bytes incoming
  else Ret ERR.

(** what [strncat(_, s, n)] appends *)
Definition read_strn (s : bytes) (n : Z) : res bytes :=
  if n <=? zlen s then Ret (c_str (ztake n s)) else read_str s.

(** the words between the slashes; [protx] is set when the next word is an
    address.  The result is [malf] and [processed]. *)
Fixpoint string_to_bytes_loop (head : list Protocol) (words : list bytes) (protx : option Protocol)
    (processed : bytes) (malf : bool) : res (bool * bytes) :=
  match words with
  | [] => Ret (malf, processed)
  | wp :: words =>
    match protx with
    | None =>
      match proto_with_name head wp with
      | None => Ret (true, processed)
      | Some protx =>
        let! processed := strcat_into 800 processed (Int_To_Hex (deccode protx)) in
        string_to_bytes_loop head words (Some protx) processed malf
      end
    | Some protx =>
      let! (r, s_to_b, s_to_b_size) := address_string_to_bytes protx wp in
      let! c := c_strcmp r (lit "ERR") in
      if c =? 0 then string_to_bytes_loop head words None processed true
      else
        let temp_size := zlen processed in
        let! s := read_strn s_to_b s_to_b_size in
        let! processed := strcat_into 800 processed s in
        if temp_size + s_to_b_size <? 800 then string_to_bytes_loop head words None processed malf else UB
    end
  end.

(** [None]: returned 0 *)
Definition string_to_bytes (strx : bytes) (strsize : Z) : res (option (bytes * Z)) :=
  let! c := rd strx 0 in
  if negb (c =? 47) then Ret None
  else
    let! s := read_str strx in
    let! pstring := strcpy_into (strsize + 1) s in
    let! head := load_protocols in
    let! (malf, processed) := string_to_bytes_loop head (tokens 47 pstring) None [] false in
    if malf : bool then Ret None
    else let! r := Hex_To_Var (processed ++ [0]) in Ret (Some r).
End conversions.

(** ** struct MultiAddress

    The string is the object behind the pointer; [multiaddress_copy] can leave
    pointers uninitialised. *)
Record MultiAddress := mkMultiAddress {
  ma_string : ptr bytes;
  ma_bytes : ptr bytes;
  ma_bsize : Z
}.

#[export] Instance MultiAddress_eq_dec : EqDecision MultiAddress.
Proof. solve_decision. Defined.

Definition sizeof_MultiAddress : Z := 24.

(** reading through a pointer *)
Definition pget (p : ptr bytes) : res bytes := match p with Ptr b => Ret b | _ => UB end.
Definition pstr (p : ptr bytes) : res bytes := let! b := pget p in read_str b.

Section multiaddress.
Context {M : Malloc}.

Definition multiaddress_new : option MultiAddress :=
  if malloc_ok sizeof_MultiAddress then Some (mkMultiAddress Null Null 0) else None.

(** [None]: NULL; what was allocated is released *)
Definition multiaddress_new_from_bytes (byteaddress : option bytes) (size : Z) : res (option MultiAddress) :=
  match multiaddress_new, byteaddress with
  | Some _, Some byteaddress =>
    if malloc_ok size then
      let! b := memrd byteaddress size in
      let! (r, string) := bytes_to_string byteaddress size in
      Ret (if r =? 0 then None else Some (mkMultiAddress (Ptr string) (Ptr b) size))
    else Ret None
  | _, _ => Ret None
  end.

Definition multiaddress_new_from_string (straddress : bytes) : res (option MultiAddress) :=
  match multiaddress_new with
  | None => Ret None
  | Some _ =>
    let! s := read_str straddress in
    if malloc_ok (zlen s + 1) then
      let! r := string_to_bytes (s ++ [0]) (zlen s) in
      Ret (match r with
           | None => None
           | Some (b, n) => Some (mkMultiAddress (Ptr (s ++ [0])) (Ptr b) n)
           end)
    else Ret None
  end.

(** the test is whether the pointer is NULL *)
Definition multiaddress_is_ip (a : MultiAddress) : res Z :=
  match ma_bytes a with
  | Null => Ret 0
  | Wild => UB
  | Ptr b => let! b := rd b 0 in Ret (if (b =? 4) || (b =? 41) then 1 else 0)
  end.
Definition multiaddress_is_ip4 (a : MultiAddress) : res Z :=
  let! p := pget (ma_bytes a) in let! b := rd p 0 in Ret (if b =? 4 then 1 else 0).
Definition multiaddress_is_ip6 (a : MultiAddress) : res Z :=
  let! p := pget (ma_bytes a) in let! b := rd p 0 in Ret (if b =? 41 then 1 else 0).

Definition AF_INET : Z := 2.
Definition AF_INET6 : Z := 10.
Definition multiaddress_get_ip_family (a : MultiAddress) : res Z :=
  let! p := pget (ma_bytes a) in
  let! b := rd p 0 in
  if b =? 4 then Ret AF_INET else let! b := rd p 0 in Ret (if b =? 41 then AF_INET6 else 0).

(** the result and [*ip] when it is set *)
Definition multiaddress_get_ip_address (a : MultiAddress) : res (Z * option bytes) :=
  let! s := pstr (ma_string a) in
  if negb (is_prefix (txt "/ip4/") s) && negb (is_prefix (txt "/ip6/") s) then Ret (0, None)
  else
    match c_strstr s (txt "/tcp/"), c_strstr s (txt "/udp/") with
    | None, None => Ret (0, None)
    | _, _ =>
      if malloc_ok (zlen s) then
        let! str := strcpy_into (zlen s) (zdrop 5 s) in
        match c_strstr str [47] with
        | None => UB
        | Some pos => if malloc_ok (pos + 1) then Ret (1, Some (ztake pos str ++ [0])) else UB
        end
      else Ret (0, None)
    end.

Definition multiaddress_get_ip_port (a : MultiAddress) : res Z :=
  let! s := pstr (ma_string a) in
  match (match c_strstr s (txt "/tcp/") with Some i => Some i | None => c_strstr s (txt "/udp/") end) with
  | None => Ret (-1)
  | Some i =>
    let ptr := zdrop (i + 5) s in
    match c_strstr ptr [47] with
    | None => c_atoi ptr
    | Some e => c_atoi (ztake e ptr)
    end
  end.

(** [None]: NULL *)
Definition multiaddress_get_peer_id (a : MultiAddress) : res (option bytes) :=
  let! s := pstr (ma_string a) in
  match c_strstr s (txt "/ipfs/") with
  | None => Ret None
  | Some i =>
    let ptr := zdrop (i + 6) s in
    let str_len := match c_strstr ptr [47] with Some slash => slash | None => zlen ptr end in
    if (0 <? str_len) && malloc_ok (str_len + 1) then Ret (Some (ztake str_len ptr ++ [0])) else Ret None
  end.

(** what is not copied is left as [malloc] gave it *)
Definition multiaddress_copy (a : option MultiAddress) : res (option MultiAddress) :=
  match a with
  | None => Ret None
  | Some a =>
    if malloc_ok sizeof_MultiAddress then
      let! b :=
        (if 0 <? ma_bsize a then
           if malloc_ok (ma_bsize a) then
             let! src := pget (ma_bytes a) in let! b := memrd src (ma_bsize a) in Ret (Some (Ptr b, ma_bsize a))
           else Ret None
         else Ret (Some (Wild, num 256 (fresh 8)))) in
      match b with
      | None => Ret None
      | Some (b, n) =>
        match ma_string a with
        | Null => Ret (Some (mkMultiAddress Wild b n))
        | p =>
          let! s := pstr p in
          if malloc_ok (zlen s + 1) then Ret (Some (mkMultiAddress (Ptr (s ++ [0])) b n))
          else if (0 <? n) && negb (0 <? ma_bsize a) then UB else Ret None
        end
      end
    else Ret None
  end.

(** the result and the address, [None] when it was freed.  [exstr] has no room
    for the NUL unless [string] starts with a slash. *)
Definition multiaddress_encapsulate (result : option MultiAddress) (string : option bytes)
  : res (Z * option MultiAddress) :=
  match result, string with
  | Some a, Some string =>
    let! c := rd string 0 in
    let! old := pstr (ma_string a) in
    let n := if c =? 47 then zlen old + 1 else zlen old in
    if malloc_ok n then
      let! exstr := strcpy_into n old in
      let! s := read_str string in
      let n := zlen s + zlen exstr + 1 in
      if malloc_ok n then
        let! new := strcat_into n exstr (if c =? 47 then zdrop 1 s else s) in
        let obj := new ++ 0 :: zdrop (zlen new + 1) (fresh n) in
        let! r := string_to_bytes obj (zlen new + 1) in
        Ret (match r with
             | None => (0, None)
             | Some (b, size) => (1, Some (mkMultiAddress (Ptr obj) (Ptr b) size))
             end)
      else Ret (0, None)
    else UB
  | _, _ => Ret (0, result)
  end.

(** slashes become spaces before [srci] is looked for, and come back only when
    it is found *)
Definition slash_to_space (b : Z) : Z := if b =? 47 then 32 else b.
Definition space_to_slash (b : Z) : Z := if b =? 32 then 47 else b.

Definition multiaddress_decapsulate (result : option MultiAddress) (srci : option bytes)
  : res (Z * option MultiAddress) :=
  match result, srci with
  | Some a, Some srci =>
    let! obj := pget (ma_string a) in
    let! s := read_str obj in
    let! src := read_str srci in
    let rest := zdrop (zlen s) obj in
    let procstr := slash_to_space <$> s in
    match c_strstr procstr src with
    | None => Ret (0, Some (mkMultiAddress (Ptr (procstr ++ rest)) (ma_bytes a) (ma_bsize a)))
    | Some pos =>
      let obj := (space_to_slash <$> ztake pos procstr) ++ replicate (Z.to_nat (zlen s - pos)) 0 ++ rest in
      let! r := string_to_bytes obj (pos + 1) in
      Ret (match r with
           | None => (0, None)
           | Some (b, size) => (1, Some (mkMultiAddress (Ptr obj) (Ptr b) size))
           end)
    end
  | _, _ => Ret (0, result)
  end.

(** the first difference of the bytes, [b] minus [a] *)
Fixpoint compare_bytes (n : nat) (i : Z) (a b : bytes) : res Z :=
  match n with
  | O => Ret 0
  | S n =>
    let! y := rd b i in let! x := rd a i in
    if y - x =? 0 then compare_bytes n (i + 1) a b else Ret (y - x)
  end.

Definition multiaddress_compare (a b : option MultiAddress) : res Z :=
  match a, b with
  | None, None => Ret 0
  | None, Some _ => Ret (-1)
  | Some _, None => Ret 1
  | Some a, Some b =>
    let total := s32 (u64 (ma_bsize b - ma_bsize a)) in
    if negb (total =? 0) then Ret total
    else if ma_bsize b =? 0 then Ret 0
    else
      let! y := pget (ma_bytes b) in let! x := pget (ma_bytes a) in
      compare_bytes (Z.to_nat (ma_bsize b)) 0 x y
  end.

Definition multiaddress_compare_id (a b : MultiAddress) : res Z :=
  let! a_id := multiaddress_get_peer_id a in
  let! b_id := multiaddress_get_peer_id b in
  match a_id, b_id with
  | None, None => Ret 0
  | None, Some _ => Ret (-1)
  | Some _, None => Ret 1
  | Some a_id, Some b_id => c_strcmp a_id b_id
  end.
End multiaddress.

(** ** Addresses

    What the texts and the bytes denote: a list of components.  An IPFS id is
    the 32-byte digest of a sha2-256 multihash. *)
Inductive component :=
| Ip4 (a b c d : Z)
| Tcp (port : Z)
| Udp (port : Z)
| Ipfs (digest : bytes).

Definition ip4_text (a b c d : Z) : bytes := dec a ++ 46 :: dec b ++ 46 :: dec c ++ 46 :: dec d.
Definition peer_hash (digest : bytes) : bytes := 18 :: 32 :: digest.
Definition peer_text (digest : bytes) : bytes := b58_string (show 58 (num 256 (peer_hash digest))).

Definition component_words (c : component) : list bytes :=
  match c with
  | Ip4 a b c d => [txt "ip4"; ip4_text a b c d]
  | Tcp p => [txt "tcp"; dec p]
  | Udp p => [txt "udp"; dec p]
  | Ipfs t => [txt "ipfs"; peer_text t]
  end.
Definition component_text (c : component) : bytes := delimited 47 (component_words c).
Definition address_words (l : list component) : list bytes := l ≫= component_words.
Definition address_string (l : list component) : bytes := delimited 47 (address_words l).

(** the bytes the code writes: the number of an IPv4 address without leading
    zero bytes, and the length of an id as its hexadecimal digits, with the bit
    that announces another byte *)
Definition port_bytes (p : Z) : bytes := [p / 256; p mod 256].
Definition component_bytes (c : component) : bytes :=
  match c with
  | Ip4 a b c d => 4 :: show 256 (num 256 [a; b; c; d])
  | Tcp p => 6 :: port_bytes p
  | Udp p => 17 :: port_bytes p
  | Ipfs t => 42 :: 196 :: peer_hash t
  end.
Definition address_bytes (l : list component) : bytes := l ≫= component_bytes.

Definition component_ok (c : component) : Prop :=
  match c with
  | Ip4 a b c d => is_bytes [a; b; c; d]
  | Tcp p | Udp p => 0 < p < 65536
  | Ipfs t => is_bytes t /\ zlen t = 32
  end.

(** *** Facts about the parts *)
Lemma peer_hash_ok t : is_bytes t -> zlen t = 32 -> is_bytes (peer_hash t) /\ zlen (peer_hash t) = 34.
Proof.
  intros Ht Hl. unfold peer_hash. rewrite !zlen_cons, Hl. split; [|done]. by repeat (constructor; [unfold byte_range; lia|]).
Qed.

Lemma peer_digits t : is_bytes t -> zlen t = 32 ->
  same_number (show 58 (num 256 (peer_hash t))) (peer_hash t) /\ zlen (show 58 (num 256 (peer_hash t))) = 46.
Proof.
  intros Ht Hl. destruct (peer_hash_ok t Ht Hl) as [Hm Hz].
  destruct (show_spec 58 ltac:(lia) (num 256 (peer_hash t))) as (Hd & Hv & Hh & _); [apply (num_bound 256 ltac:(lia) _ Hm)|].
  assert (same_number (show 58 (num 256 (peer_hash t))) (peer_hash t)) as Hs.
  { split_and!; try done. apply Hh. unfold peer_hash. cbn [num]. apply Forall_cons in Hm as [_ Hm].
    pose proof (num_bound 256 ltac:(lia) _ Hm) as Hb. cbn [num] in Hb. pose proof (Z.pow_pos_nonneg 256 (zlen (32 :: t))).
    zlen_facts. lia. }
  split; [done|]. by apply (b58_multihash_size _ t Hs).
Qed.

Lemma peer_text_length t : is_bytes t -> zlen t = 32 -> zlen (peer_text t) = 46.
Proof. intros Ht Hl. unfold peer_text, b58_string. rewrite zlen_fmap. by apply peer_digits. Qed.

(** characters of base 58 are letters and digits *)
Lemma b58_chr_plain d : 0 <= d < 58 -> b58_chr d <> 0 /\ b58_chr d <> 47.
Proof.
  intros Hd. assert (forallb (fun d => negb (d <? 58) || (negb (b58_chr d =? 0) && negb (b58_chr d =? 47))) (seqZ 0 256) = true)
    as Hall by (vm_compute; reflexivity).
  pose proof (byte_forall _ Hall d ltac:(unfold byte_range; lia)) as H. cbv beta in H.
  rewrite (proj2 (Z.ltb_lt d 58)) in H by lia. revert H. rewrite orb_false_l, andb_true_iff, !negb_true_iff, !Z.eqb_neq. tauto.
Qed.
Lemma peer_text_piece t : is_bytes t -> zlen t = 32 -> piece 47 (peer_text t) /\ nonzero (peer_text t).
Proof.
  intros Ht Hl. destruct (peer_digits t Ht Hl) as [(Hd & _) Hz]. pose proof (peer_text_length t Ht Hl) as Hp.
  repeat split.
  - intros E. rewrite E in Hp. done.
  - apply Forall_fmap. eapply Forall_impl; [exact Hd|]. intros d Hr. by apply b58_chr_plain.
  - apply Forall_fmap. eapply Forall_impl; [exact Hd|]. intros d Hr. by apply b58_chr_plain.
Qed.

Lemma byte_dec b : byte_range b -> piece 46 (dec b) /\ 0 < zlen (dec b) <= 3 /\ c_atoi (dec b) = Ret b /\
  valid_digit (dec b) = true.
Proof.
  intros Hb. unfold byte_range in Hb. split; [apply dec_piece; [lia|unfold dec_digit; lia]|].
  pose proof (dec_nonempty b ltac:(lia)). pose proof (dec_length b 3 ltac:(lia) ltac:(lia)).
  split; [lia|]. split; [apply atoi_dec_all; lia|]. apply forallb_forall. intros x Hx%list_elem_of_In.
  pose proof (dec_digits b ltac:(lia)) as Hd. rewrite Forall_forall in Hd. specialize (Hd x Hx).
  unfold dec_digit in Hd. unfold is_digit. by zbool.
Qed.

Section ip4.
Context (a b c d : Z) (Hok : is_bytes [a; b; c; d]).

Lemma ip4_parts : byte_range a /\ byte_range b /\ byte_range c /\ byte_range d.
Proof using Hok. unfold is_bytes in Hok. rewrite !Forall_cons in Hok. tauto. Qed.

Lemma ip4_tokens : tokens 46 (ip4_text a b c d) = [dec a; dec b; dec c; dec d].
Proof using Hok.
  destruct ip4_parts as (Ha & Hb & Hc & Hd). unfold ip4_text.
  rewrite !tokens_delim by (by apply byte_dec). by rewrite tokens_last by (by apply byte_dec).
Qed.
Lemma ip4_text_length : zlen (ip4_text a b c d) <= 15.
Proof using Hok.
  destruct ip4_parts as (Ha & Hb & Hc & Hd). unfold ip4_text. rewrite !zlen_app, !zlen_cons, !zlen_app, !zlen_cons, !zlen_app, !zlen_cons.
  pose proof (byte_dec a Ha). pose proof (byte_dec b Hb). pose proof (byte_dec c Hc). pose proof (byte_dec d Hd). lia.
Qed.
Lemma ip4_text_chars : Forall (fun x => x = 46 \/ dec_digit x) (ip4_text a b c d).
Proof using Hok.
  destruct ip4_parts as (Ha & Hb & Hc & Hd). unfold byte_range in *.
  assert (forall n, 0 <= n -> Forall (fun x => x = 46 \/ dec_digit x) (dec n)) as Hdec
    by (intros n Hn; eapply Forall_impl; [by apply dec_digits|tauto]).
  unfold ip4_text. repeat (apply Forall_app; split; [apply Hdec; lia|]; constructor; [by left|]). apply Hdec. lia.
Qed.
Lemma is_valid_ipv4_ok : is_valid_ipv4 (ip4_text a b c d) = Ret 1.
Proof using Hok.
  destruct ip4_parts as (Ha & Hb & Hc & Hd). unfold is_valid_ipv4. rewrite ip4_tokens. cbn [length ipv4_loop].
  destruct (byte_dec a Ha) as (_ & _ & -> & ->). destruct (byte_dec b Hb) as (_ & _ & -> & ->).
  destruct (byte_dec c Hc) as (_ & _ & -> & ->). destruct (byte_dec d Hd) as (_ & _ & -> & ->).
  unfold byte_range in *. cbn [rbind]. by zbool.
Qed.
Lemma ip4_number : 0 <= num 256 [a; b; c; d] < 2 ^ 32.
Proof using Hok. apply (num_bound 256 ltac:(lia) [a; b; c; d] Hok). Qed.

Lemma ip2int_ok : ip2int (ip4_text a b c d) = Ret (num 256 [a; b; c; d]).
Proof using Hok.
  destruct ip4_parts as (Ha & Hb & Hc & Hd). unfold ip2int, strcpy_into. pose proof ip4_text_length. zbool. cbn [rbind].
  rewrite ip4_tokens. destruct (byte_dec a Ha) as (_ & _ & -> & _). destruct (byte_dec b Hb) as (_ & _ & -> & _).
  destruct (byte_dec c Hc) as (_ & _ & -> & _). destruct (byte_dec d Hd) as (_ & _ & -> & _). cbn [rbind].
  unfold byte_range in *. zbool. cbn [andb]. f_equal. change (num 256 [a; b; c; d]) with (a * 256 ^ 3 + (b * 256 ^ 2 + (c * 256 ^ 1 + (d * 256 ^ 0 + 0)))). lia.
Qed.
Lemma int2ip_ok : int2ip (num 256 [a; b; c; d]) = ip4_text a b c d.
Proof using Hok.
  destruct ip4_parts as (Ha & Hb & Hc & Hd). pose proof ip4_number. unfold int2ip.
  assert (u32 (s32 (num 256 [a; b; c; d])) = num 256 [a; b; c; d]) as ->.
  { unfold u32, s32. rewrite Zminus_mod_idemp_l. replace (_ + 2 ^ 31 - 2 ^ 31) with (num 256 [a; b; c; d]) by lia. by apply Z.mod_small. }
  change (num 256 [a; b; c; d]) with (a * 256 ^ 3 + (b * 256 ^ 2 + (c * 256 ^ 1 + (d * 256 ^ 0 + 0)))).
  rewrite !Z.shiftr_div_pow2 by lia. unfold byte_range in *. unfold ip4_text.
  replace (a * 256 ^ 3 + _) with (a * 2 ^ 24 + (b * 2 ^ 16 + c * 2 ^ 8 + d)) by lia.
  rewrite Z.div_add_l, (Z.div_small (b * _ + _ + _)), Z.add_0_r, (Z.mod_small a) by lia.
  replace (a * 2 ^ 24 + (b * 2 ^ 16 + c * 2 ^ 8 + d)) with ((a * 256 + b) * 2 ^ 16 + (c * 2 ^ 8 + d)) by lia.
  rewrite Z.div_add_l, (Z.div_small (c * _ + _)), Z.add_0_r, (Z.add_comm (a * 256)), Z_mod_plus_full, (Z.mod_small b) by lia.
  replace ((b + a * 256) * 2 ^ 16 + (c * 2 ^ 8 + d)) with (((b + a * 256) * 256 + c) * 2 ^ 8 + d) by lia.
  rewrite Z.div_add_l, (Z.div_small d), Z.add_0_r by lia. rewrite (Z.add_comm _ c), Z_mod_plus_full, (Z.mod_small c) by lia.
  rewrite (Z.add_comm _ d). change (2 ^ 8) with 256. by rewrite Z_mod_plus_full, (Z.mod_small d) by lia.
Qed.
End ip4.

Lemma port_bytes_ok p : 0 < p < 65536 -> is_bytes (port_bytes p) /\ num 256 (port_bytes p) = p.
Proof.
  intros Hp. pose proof (Z.div_mod p 256 ltac:(lia)). pose proof (Z.mod_pos_bound p 256 ltac:(lia)).
  assert (0 <= p / 256 < 256) by (split; [apply Z.div_pos; lia|apply Z.div_lt_upper_bound; lia]).
  split; [repeat (constructor; [unfold byte_range; lia|]); constructor|].
  change (num 256 (port_bytes p)) with (p / 256 * 256 ^ 1 + (p mod 256 * 256 ^ 0 + 0)). lia.
Qed.

Lemma port_hex_ok p : 0 < p < 65536 -> port_hex p = Ret (hex true (port_bytes p)).
Proof.
  intros Hp. destruct (port_bytes_ok p Hp) as [Hb Hn]. unfold port_hex. rewrite Int_To_Hex_ok by lia.
  unfold port_bytes in *. apply Forall_cons in Hb as [Hb1 Hb2]. pose proof Hb2 as Hb3. apply Forall_cons in Hb2 as [Hb2 _].
  destruct (Z.eq_dec (p / 256) 0) as [E|E].
  - assert (show 256 p = [p mod 256]) as ->.
    { rewrite <- Hn at 1. rewrite E. change (num 256 [0; p mod 256]) with (num 256 [p mod 256]).
      apply show_num; [lia|done|]. cbn [hd]. pose proof (Z.div_mod p 256 ltac:(lia)). lia. }
    rewrite E, !hex_cons. destruct (hex02_ok true _ Hb2) as (-> & _). reflexivity.
  - assert (show 256 p = [p / 256; p mod 256]) as ->.
    { rewrite <- Hn at 1. apply show_num; [lia|by constructor|done]. }
    rewrite !hex_cons. destruct (hex02_ok true _ Hb1) as (-> & _). destruct (hex02_ok true _ Hb2) as (-> & _). reflexivity.
Qed.

Lemma component_bytes_ok c : component_ok c -> is_bytes (component_bytes c) /\
  2 <= zlen (component_bytes c) <= 36.
Proof.
  destruct c as [a b c d|p|p|t]; cbn [component_ok component_bytes]; intros Hok.
  - pose proof (ip4_number a b c d Hok) as Hn. destruct (show_spec 256 ltac:(lia) _ (proj1 Hn)) as (Hd & _).
    pose proof (show_length 256 ltac:(lia) (num 256 [a; b; c; d]) 4 ltac:(lia) ltac:(lia)).
    rewrite zlen_cons. split; [|lia]. constructor; [unfold byte_range; lia|done].
  - destruct (port_bytes_ok p Hok) as [Hb _]. split; [constructor; [unfold byte_range; lia|done]|]. split; discriminate.
  - destruct (port_bytes_ok p Hok) as [Hb _]. split; [constructor; [unfold byte_range; lia|done]|]. split; discriminate.
  - destruct (peer_hash_ok t (proj1 Hok) (proj2 Hok)) as [Hb Hl].
    rewrite !zlen_cons, Hl. split; [|lia]. do 2 (constructor; [unfold byte_range; lia|]). done.
Qed.

Lemma txt_piece s : bool_decide (txt s <> []) && forallb (fun b => negb (b =? 47) && negb (b =? 0)) (txt s) = true ->
  piece 47 (txt s) /\ nonzero (txt s).
Proof.
  intros [Hn%bool_decide_eq_true Hf]%andb_true_iff. rewrite forallb_forall in Hf.
  assert (forall b, b ∈ txt s -> b <> 47 /\ b <> 0) as Hc.
  { intros b Hb%list_elem_of_In%Hf. rewrite andb_true_iff, !negb_true_iff, !Z.eqb_neq in Hb. tauto. }
  repeat split; [done|apply Forall_forall; intros b Hb; by apply Hc|apply Forall_forall; intros b Hb; by apply Hc].
Qed.

Lemma component_words_pieces c : component_ok c ->
  Forall (piece 47) (component_words c) /\ Forall nonzero (component_words c).
Proof.
  assert (forall n, 0 <= n -> piece 47 (dec n) /\ nonzero (dec n)) as Hdec.
  { intros n Hn. split; [apply dec_piece; [done|unfold dec_digit; lia]|by apply dec_nonzero]. }
  assert (forall w v, piece 47 w /\ nonzero w -> piece 47 v /\ nonzero v -> Forall (piece 47) [w; v] /\ Forall nonzero [w; v]) as Htwo.
  { intros w v [? ?] [? ?]. split; do 2 (apply Forall_cons; split; [done|]); constructor. }
  destruct c as [a b c d|p|p|t]; cbn [component_ok component_words]; intros Hok; apply Htwo; try (by apply txt_piece).
  - pose proof (ip4_text_chars a b c d Hok) as Hc. repeat split.
    + unfold ip4_text. by destruct (dec a).
    + eapply Forall_impl; [exact Hc|]. unfold dec_digit. simpl. lia.
    + eapply Forall_impl; [exact Hc|]. unfold dec_digit. simpl. lia.
  - apply Hdec. lia.
  - apply Hdec. lia.
  - by destruct Hok; apply peer_text_piece.
Qed.

(** *** From text to bytes *)
Section text_to_bytes.
Context {M : Malloc} {Hm : MallocOk M}.

(** a text that stands for bytes *)
Definition hex_of (s l : bytes) : Prop := hex_pairs s = Ret l /\ nonzero s /\ zlen s = 2 * zlen l.

Lemma hex_of_hex up l : is_bytes l -> hex_of (hex up l) l.
Proof using. intros Hl. split_and!; [by apply hex_pairs_ok|by apply hex_nonzero|by apply hex_length]. Qed.

Lemma hex_of_app s1 l1 s2 l2 : hex_of s1 l1 -> hex_of s2 l2 -> hex_of (s1 ++ s2) (l1 ++ l2).
Proof using.
  intros (P1 & N1 & Z1) (P2 & N2 & Z2). split; [|split; [by apply Forall_app|rewrite !zlen_app; lia]].
  clear -P1 P2 Hm. revert s1 P1. induction l1 as [|x l1 IH]; intros s1 P1.
  - destruct s1 as [|a [|b s1]]; [done|done|]. cbn [hex_pairs] in P1. by destruct (hex_pairs s1).
  - destruct s1 as [|a [|b s1]]; [done|done|]. cbn [hex_pairs app] in *.
    destruct (hex_pairs s1) as [r| | |] eqn:E; cbn [rbind] in P1; try done. injection P1 as <- <-.
    by rewrite (IH s1 E).
Qed.

(** no result is taken for "ERR" *)
Lemma hex_not_err up b l s : byte_range b -> exists c, c_strcmp ((hex up (b :: l)) ++ s) (lit "ERR") = Ret c /\ c <> 0.
Proof using.
  intros Hb. rewrite hex_cons. destruct (hex02_ok up b Hb) as (-> & _ & H1 & H2 & H3).
  change (lit "ERR") with [69; 82; 82; 0]. cbn [app c_strcmp].
  destruct (Z.eqb_spec (hex_chr up (b / 16)) 69) as [E|E]; [|eexists; split; [done|lia]].
  rewrite (proj2 (Z.eqb_neq _ 0)) by lia. rewrite (proj2 (Z.eqb_neq _ 82)) by done. eexists. split; [done|]. lia.
Qed.

Lemma read_strn_all s : nonzero s -> read_strn s (zlen s) = Ret s.
Proof using.
  intros Hs. unfold read_strn. zlen_facts. zbool. rewrite ztake_all by lia. by rewrite c_str_all.
Qed.
Lemma read_strn_object s n : nonzero s -> n = zlen s + 1 -> read_strn (str_object n s) n = Ret s.
Proof using.
  intros Hs ->. zlen_facts. unfold read_strn, str_object.
  replace (Z.to_nat (zlen s + 1 - zlen s)) with 1%nat by lia. cbn [replicate].
  assert (zlen (s ++ [0]) = zlen s + 1) as Hl by (rewrite zlen_app; done). rewrite Hl. zbool.
  rewrite ztake_all by lia. f_equal. by apply c_str_nul.
Qed.

(** what an address contributes *)
Definition contributes (r : res (bytes * bytes * Z)) (l : bytes) : Prop :=
  exists x s n, r = Ret (x, s, n) /\ (exists c, c_strcmp x (lit "ERR") = Ret c /\ c <> 0) /\
    (exists p, read_strn s n = Ret p /\ hex_of p l) /\ n <= 2 * zlen l + 1.

Lemma ip4_contributes protocol a b c d : is_bytes [a; b; c; d] -> deccode protocol = 4 ->
  contributes (address_string_to_bytes protocol (ip4_text a b c d)) (show 256 (num 256 [a; b; c; d])).
Proof using Hm.
  intros Hok Hp. unfold address_string_to_bytes. rewrite Hp. cbn [Z.eqb Pos.eqb]. unfold strcpy_into.
  pose proof (ip4_text_length a b c d Hok). zbool. cbn [rbind]. rewrite is_valid_ipv4_ok, ip2int_ok by done. cbn [rbind].
  rewrite Z.eqb_refl. cbn [rbind]. rewrite malloc_always. pose proof (ip4_number a b c d Hok) as Hn.
  destruct (show_spec 256 ltac:(lia) _ (proj1 Hn)) as (Hd & _ & _ & Hne). rewrite Int_To_Hex_ok by lia.
  set (l := show 256 _) in *. eexists _, _, _. split; [done|]. split.
  { destruct l as [|x l]; [done|]. apply Forall_cons in Hd as [Hx _]. rewrite <- (app_nil_r (hex true _)). by apply hex_not_err. }
  split; [exists (hex true l); split; [apply read_strn_all; by apply hex_nonzero|by apply hex_of_hex]|].
  rewrite hex_length by done. lia.
Qed.

Lemma port_contributes protocol p : 0 < p < 65536 -> deccode protocol = 6 \/ deccode protocol = 17 ->
  contributes (address_string_to_bytes protocol (dec p)) (port_bytes p).
Proof using Hm.
  intros Hp Hc. destruct (port_bytes_ok p Hp) as [Hb _]. unfold address_string_to_bytes.
  assert ((deccode protocol =? 4) = false) as -> by (destruct Hc as [-> | ->]; done).
  assert ((deccode protocol =? 6) || (deccode protocol =? 17) = true) as -> by (destruct Hc as [-> | ->]; done).
  rewrite atoi_dec_all by lia. cbn [rbind]. zbool. rewrite port_hex_ok by done. cbn [rbind]. rewrite malloc_always.
  assert (zlen (hex true (port_bytes p)) = 4) as Hl by (rewrite hex_length by done; done).
  eexists _, _, _. split; [done|]. split.
  { unfold str_object. rewrite Hl. apply hex_not_err. by apply Forall_cons in Hb as [? _]. }
  split; [|change (zlen (port_bytes p)) with 2; lia].
  exists (hex true (port_bytes p)). split; [|by apply hex_of_hex].
  apply read_strn_object; [by apply hex_nonzero|lia].
Qed.

Lemma ipfs_contributes protocol t : is_bytes t -> zlen t = 32 -> deccode protocol = 42 ->
  contributes (address_string_to_bytes protocol (peer_text t)) (196 :: peer_hash t).
Proof using Hm.
  intros Ht Hl Hp. unfold address_string_to_bytes. rewrite Hp. cbn [Z.eqb Pos.eqb orb]. unfold ipfs_bytes.
  destruct (peer_digits t Ht Hl) as [Hs Hd]. destruct (peer_hash_ok t Ht Hl) as [Hb Hlh].
  destruct (peer_text_piece t Ht Hl) as [_ Hnz]. pose proof (peer_text_length t Ht Hl) as Hpl.
  unfold multiaddr_encoding_base58_decode_max_size. rewrite strlen_nul by done. cbn [rbind]. rewrite Hpl.
  change (b58_digits_ceil 46) with 34. unfold multiaddr_encoding_base58_decode, peer_text at 1.
  rewrite (base58_decode_text _ _ _ _ _ _ Hs) by (rewrite ?zlen_replicate by lia; lia).
  rewrite Hlh, Z.leb_refl. change (Z.to_nat (34 - 34)) with 0%nat. cbn [replicate app rbind].
  rewrite zdrop_ge by done. rewrite app_nil_r. change (1 =? 0) with false. cbv iota.
  rewrite memrd_all by done. cbn [rbind]. assert (zlen (hex false (peer_hash t)) = 68) as Hh by (rewrite hex_length by done; lia).
  unfold strcpy_into. rewrite Hh. cbn [Z.ltb Z.compare Pos.compare Pos.compare_cont rbind]. rewrite Hh.
  destruct (hexvar_roundtrip 68 ltac:(lia)) as (-> & _). cbn [rbind]. change (zlen (hex02 true (68 + 128)) <? 3) with true.
  cbv iota. cbn [rbind]. rewrite malloc_always. rewrite strcat_ok by (rewrite Hh; reflexivity). cbn [rbind].
  assert (hex02 true (68 + 128) = hex true [196]) as -> by reflexivity.
  assert (hex_of (hex true [196] ++ hex false (peer_hash t)) (196 :: peer_hash t)) as Hof.
  { apply (hex_of_app _ [196]); apply hex_of_hex; [|done]. constructor; [unfold byte_range; lia|constructor]. }
  assert (zlen (hex true [196] ++ hex false (peer_hash t)) = 70) as H70 by (rewrite zlen_app, Hh; reflexivity).
  eexists _, _, _. split; [done|]. split.
  { unfold str_object. rewrite <- !app_assoc. apply hex_not_err. unfold byte_range. lia. }
  split; [|rewrite zlen_cons, Hlh; lia].
  eexists. split; [|exact Hof]. apply read_strn_object; [apply Hof|lia].
Qed.

(** one component of a text *)
Lemma string_to_bytes_component c ws processed l malf : component_ok c -> hex_of processed l ->
  zlen processed + 2 * zlen (component_bytes c) + 1 < 800 ->
  exists p, hex_of p (component_bytes c) /\
    string_to_bytes_loop protocol_table (component_words c ++ ws) None processed malf =
      string_to_bytes_loop protocol_table ws None (processed ++ p) malf.
Proof using Hm.
  intros Hok Hp Hl.
  assert (exists n w protx code l', component_words c = [n; w] /\ component_bytes c = code :: l' /\
    byte_range code /\ proto_with_name protocol_table n = Some protx /\ Int_To_Hex (deccode protx) = hex true [code] /\
    contributes (address_string_to_bytes protx w) l')
    as (n & w & protx & code & l' & Hw & Hb & Hcode & Hn & Hh & x & s & k & E & (e & He & He0) & (q & Hq & Hqof) & Hk).
  { destruct c as [a b c d|p|p|t]; cbn [component_ok component_words] in *; do 5 eexists;
      (split; [reflexivity|]; split; [reflexivity|]; split; [unfold byte_range; lia|];
       split; [vm_compute; reflexivity|]; split; [vm_compute; reflexivity|]).
    - by apply ip4_contributes.
    - apply port_contributes; [done|by left].
    - apply port_contributes; [done|by right].
    - destruct Hok; by apply ipfs_contributes. }
  rewrite Hw, Hb in *. rewrite zlen_cons in Hl. zlen_facts.
  assert (zlen (hex true [code]) = 2) as Hl2 by (rewrite hex_length by (by constructor); done).
  destruct Hqof as (Q1 & Q2 & Q3). exists (hex true [code] ++ q). split.
  { apply (hex_of_app _ [code]); [apply hex_of_hex; by constructor|done]. }
  cbn [app string_to_bytes_loop]. rewrite Hn, Hh, strcat_ok by lia. cbn [rbind].
  rewrite E. cbn [rbind]. rewrite He. cbn [rbind]. rewrite (proj2 (Z.eqb_neq e 0)) by done.
  rewrite Hq. cbn [rbind]. rewrite strcat_ok by (rewrite !zlen_app; lia). cbn [rbind].
  rewrite zlen_app, Hl2. rewrite (proj2 (Z.ltb_lt (zlen processed + 2 + k) 800)) by lia. by rewrite <- app_assoc.
Qed.

Lemma string_to_bytes_components cs : Forall component_ok cs -> forall processed l malf, hex_of processed l ->
  zlen processed + 2 * zlen (address_bytes cs) + 1 < 800 ->
  exists p, hex_of p (l ++ address_bytes cs) /\
    string_to_bytes_loop protocol_table (address_words cs) None processed malf = Ret (malf, p).
Proof using Hm.
  induction 1 as [|c cs Hc _ IH]; intros processed l malf Hp Hl.
  - exists processed. by rewrite app_nil_r.
  - change (address_bytes (c :: cs)) with (component_bytes c ++ address_bytes cs) in *. rewrite zlen_app in Hl. zlen_facts.
    destruct (string_to_bytes_component c (address_words cs) processed l malf Hc Hp ltac:(lia)) as (p & Hof & E).
    destruct (IH (processed ++ p) (l ++ component_bytes c) malf) as (r & Hr & E').
    + by apply hex_of_app.
    + rewrite zlen_app. destruct Hof as (_ & _ & ->). lia.
    + exists r. rewrite app_assoc. split; [done|]. rewrite <- E'. exact E.
Qed.

Lemma address_words_ok cs : Forall component_ok cs ->
  Forall (piece 47) (address_words cs) /\ Forall nonzero (address_words cs).
Proof using.
  induction 1 as [|c cs Hc _ [IH1 IH2]]; [split; constructor|].
  change (address_words (c :: cs)) with (component_words c ++ address_words cs).
  destruct (component_words_pieces c Hc) as [H1 H2]. split; by apply Forall_app.
Qed.
Lemma address_string_nonzero cs : Forall component_ok cs -> nonzero (address_string cs).
Proof using.
  intros [_ H]%address_words_ok. unfold address_string, delimited. induction H as [|w ws Hw _ IH]; [constructor|].
  cbn [fmap list_fmap concat app]. constructor; [done|]. by apply Forall_app.
Qed.

Lemma string_to_bytes_ok cs tail rest n : cs <> [] -> Forall component_ok cs -> tail = [] \/ tail = [47] ->
  2 * zlen (address_bytes cs) + 1 < 800 -> zlen (address_string cs ++ tail) <= n ->
  string_to_bytes ((address_string cs ++ tail) ++ 0 :: rest) n = Ret (Some (address_bytes cs, zlen (address_bytes cs))).
Proof using Hm.
  intros Hne Hcs Ht Hl Hn. unfold string_to_bytes.
  assert (exists s, address_string cs = 47 :: s) as [s Es].
  { destruct cs as [|c cs]; [done|]. by destruct c; eexists. }
  assert (rd ((address_string cs ++ tail) ++ 0 :: rest) 0 = Ret 47) as -> by (rewrite Es; apply rd_0). cbn [rbind negb].
  change (negb (47 =? 47)) with false. cbv iota.
  rewrite read_str_nul by (apply Forall_app; split; [by apply address_string_nonzero|destruct Ht as [-> | ->]; repeat constructor; done]).
  cbn [rbind]. unfold strcpy_into. zbool. cbn [rbind]. unfold load_protocols. rewrite !malloc_always. cbn [andb rbind].
  unfold address_string. rewrite tokens_delimited by (done || by apply address_words_ok).
  destruct (string_to_bytes_components cs Hcs [] [] false) as (p & (P1 & P2 & P3) & ->).
  { split_and!; [done|constructor|done]. }
  { rewrite zlen_nil. lia. }
  cbn [rbind]. cbn [app] in *. unfold Hex_To_Var. rewrite read_str_nul by done. cbn [rbind]. rewrite malloc_always, P1. cbn [rbind].
  do 3 f_equal. rewrite P3. zlen_facts. rewrite s32_small, Z.mul_comm by lia. by rewrite Z.quot_mul.
Qed.
End text_to_bytes.

(** *** From bytes to text *)

(** what the code can print: a port of at most four digits, and an IPv4 address
    whose first byte is there *)
Definition short_port (c : component) : Prop :=
  match c with Tcp p | Udp p => p < 10000 | _ => True end.
Definition canonical (c : component) : Prop :=
  match c with Ip4 a _ _ _ => 0 < a | _ => True end.
#[export] Instance short_port_dec c : Decision (short_port c).
Proof. destruct c; cbn [short_port]; apply _. Defined.

(** printing ends behind the first id *)
Fixpoint printed (cs : list component) : list component :=
  match cs with
  | [] => []
  | Ipfs t :: _ => [Ipfs t]
  | c :: cs => c :: printed cs
  end.

Section bytes_to_text.
Context {M : Malloc} {Hm : MallocOk M}.

Lemma hex_at pre up b l post : byte_range b ->
  rd (pre ++ hex up (b :: l) ++ post) (zlen pre) = Ret (hex_chr up (b / 16)) /\
  rd (pre ++ hex up (b :: l) ++ post) (zlen pre + 1) = Ret (hex_chr up (b mod 16)) /\
  Hex_To_Int (c_str [hex_chr up (b / 16); hex_chr up (b mod 16)]) = b /\
  pre ++ hex up (b :: l) ++ post = (pre ++ hex up [b]) ++ hex up l ++ post.
Proof using.
  intros Hb. destruct (hex02_ok up b Hb) as (E & _ & H1 & H2 & _). rewrite !hex_cons, E. cbn [app].
  assert (forall pre x q, rd (pre ++ x :: q) (zlen pre) = Ret x) as Hrd.
  { intros q x r. unfold rd. zlen_facts. zbool. unfold zlen. by rewrite Nat2Z.id, list_lookup_middle. }
  split; [apply Hrd|]. split.
  { pose proof (Hrd (pre ++ [hex_chr up (b / 16)]) (hex_chr up (b mod 16)) (hex up l ++ post)) as H.
    rewrite zlen_app, <- app_assoc in H. exact H. }
  split; [|by rewrite <- app_assoc].
  rewrite c_str_all by (constructor; [done|constructor; [done|constructor]]). rewrite <- E.
  rewrite <- (app_nil_r (hex02 up b)). change (hex02 up b ++ []) with (hex up [b]).
  rewrite (Hex_To_Int_ok up [b]) by (by constructor || done). cbn [num]. rewrite zlen_nil. lia.
Qed.

(** a turn of the loop at a component that is no id *)
Lemma bytes_to_string_turn fuel pre code l post size2 results protocol :
  byte_range code -> is_bytes l -> proto_with_deccode protocol_table code = Some protocol ->
  name protocol <> txt "ipfs" -> Z.quot (size protocol) 4 = 2 * zlen l ->
  let text := pre ++ hex false (code :: l) ++ post in
  let lastpos := zlen pre + 2 + 2 * zlen l in
  bytes_to_string_loop (S fuel) protocol_table text size2 (zlen pre) results =
    let! results := address_text protocol (hex false l) results in
    if lastpos <? size2 then bytes_to_string_loop fuel protocol_table text size2 lastpos results
    else let! results := strcat_into 800 results [47] in Ret (Some results).
Proof using.
  intros Hc Hl Hp Hn Hq text lastpos. cbn [bytes_to_string_loop].
  destruct (hex_at pre false code l post Hc) as (H1 & H2 & H3 & H4). fold text in H1, H2, H4.
  rewrite H1, H2. cbn [rbind]. rewrite H3. unfold byte_range in Hc. rewrite s32_small by lia. rewrite Hp.
  rewrite decide_False by done. assert (zlen (hex false [code]) = 2) as Hl2 by (rewrite hex_length by (by constructor); done).
  rewrite H4 at 1. rewrite padd_app by (rewrite zlen_app; lia). cbn [rbind]. rewrite Hq.
  rewrite memrd_app by (by rewrite hex_length). cbn [rbind]. rewrite c_str_all by (by apply hex_nonzero). done.
Qed.

Lemma address_text_ip4 protocol a b c d results : name protocol = txt "ip4" -> is_bytes [a; b; c; d] ->
  zlen results + zlen (component_text (Ip4 a b c d)) < 800 ->
  address_text protocol (hex false [a; b; c; d]) results = Ret (results ++ component_text (Ip4 a b c d)).
Proof using.
  intros Hn Hok. unfold component_text, component_words, delimited. cbn [fmap list_fmap concat]. rewrite app_nil_r.
  unfold address_text. rewrite Hn. change (txt "ip4") with [105; 112; 52]. cbn [app].
  rewrite !zlen_cons. intros Hl. zlen_facts. rewrite strcat_ok by (rewrite !zlen_cons, zlen_nil; lia). cbn [rbind].
  rewrite decide_True by done. rewrite Hex_To_Int_ok by done. rewrite int2ip_ok by done.
  rewrite strcat_ok by (rewrite zlen_app, !zlen_cons, zlen_nil; lia). by rewrite <- app_assoc.
Qed.

Lemma address_text_port protocol p results c : 0 < p < 65536 ->
  (name protocol = txt "tcp" /\ c = Tcp p) \/ (name protocol = txt "udp" /\ c = Udp p) ->
  zlen results + zlen (component_text c) < 800 ->
  address_text protocol (hex false (port_bytes p)) results =
    if decide (p < 10000) then Ret (results ++ component_text c) else UB.
Proof using.
  intros Hp Hc Hl. destruct (port_bytes_ok p Hp) as [Hb Hv].
  assert (component_text c = 47 :: (name protocol ++ [47]) ++ dec p) as E.
  { destruct Hc as [[-> ->]|[-> ->]]; unfold component_text, component_words, delimited; cbn [fmap list_fmap concat];
      rewrite app_nil_r; reflexivity. }
  rewrite E in *. rewrite zlen_cons, zlen_app in Hl. zlen_facts. unfold address_text.
  rewrite strcat_ok by (rewrite zlen_cons; lia). cbn [rbind].
  rewrite decide_False by (destruct Hc as [[-> _]|[-> _]]; done).
  rewrite decide_True by (destruct Hc as [[-> _]|[-> _]]; [by left|by right]).
  rewrite Hex_To_Int_ok by (done || discriminate). rewrite Hv. unfold strcpy_into.
  destruct (decide (p < 10000)) as [Hs|Hs].
  - pose proof (dec_length p 4 ltac:(lia) ltac:(lia)). zbool. cbn [rbind].
    rewrite strcat_ok by (rewrite zlen_app, zlen_cons; lia). by rewrite <- app_assoc.
  - pose proof (dec_length_ge p 4 ltac:(lia) ltac:(lia)). by zbool.
Qed.

Lemma ipfs_text_ok protocol t pre post results : name protocol = txt "ipfs" -> is_bytes t -> zlen t = 32 ->
  zlen results + zlen (component_text (Ipfs t)) < 800 ->
  ipfs_text protocol (pre ++ hex false (component_bytes (Ipfs t)) ++ post) (zlen pre) results =
    Ret (Some (results ++ component_text (Ipfs t))).
Proof using Hm.
  intros Hn Ht Hl. destruct (peer_digits t Ht Hl) as [Hs Hd]. destruct (peer_hash_ok t Ht Hl) as [Hb Hlh].
  destruct (peer_text_piece t Ht Hl) as [_ Hnz]. pose proof (peer_text_length t Ht Hl) as Hpl.
  assert (component_text (Ipfs t) = (47 :: txt "ipfs" ++ [47]) ++ peer_text t) as ->.
  { unfold component_text, component_words, delimited. cbn [fmap list_fmap concat]. by rewrite app_nil_r. }
  rewrite zlen_app, Hpl. change (zlen (47 :: txt "ipfs" ++ [47])) with 6. intros Hcap. zlen_facts.
  unfold ipfs_text, component_bytes. change (42 :: 196 :: peer_hash t) with ([42] ++ [196] ++ peer_hash t).
  rewrite !hex_app. replace (zlen pre + 4 - 2) with (zlen (pre ++ hex false [42])) by (rewrite zlen_app; change (zlen (hex false [42])) with 2; lia).
  rewrite <- !app_assoc. rewrite (app_assoc pre). rewrite padd_app by done. cbn [rbind]. rewrite memrd_app by done. cbn [rbind].
  change (hex false [196] ++ [0]) with (hex02 false (68 + 128) ++ [0]).
  destruct (hexvar_roundtrip 68 ltac:(lia)) as (_ & _ & ->). cbn [rbind].
  rewrite (app_assoc (pre ++ _)). rewrite padd_app by (rewrite !zlen_app; change (zlen (hex false [42])) with 2; change (zlen (hex false [196])) with 2; lia).
  cbn [rbind]. assert (zlen (hex false (peer_hash t)) = 68) as Hh by (rewrite hex_length by done; lia).
  rewrite memrd_app by (rewrite Hh; reflexivity). cbn [rbind]. unfold Hex_To_Var.
  rewrite read_str_nul by (by apply hex_nonzero). cbn [rbind]. rewrite malloc_always, hex_pairs_ok by done. cbn [rbind].
  rewrite strlen_nul by (by apply hex_nonzero). cbn [rbind]. rewrite Hh. change (Z.quot (s32 68) 2) with 34.
  destruct (base58_encode_text (peer_hash t) [] (replicate (Z.to_nat 68) 0) 68 Hb ltac:(done) ltac:(lia)) as (d & Hdm & _ & E).
  assert (d = show 58 (num 256 (peer_hash t))) as ->.
  { destruct Hdm as (D1 & D2 & _ & _ & D3), Hs as (S1 & S2 & _ & _ & S3). apply (num_unique 58 ltac:(lia)); try done. lia. }
  rewrite app_nil_r, Hd, Hlh in E. unfold multiaddr_encoding_base58_encode.
  rewrite E by (rewrite zlen_replicate; lia). cbn [rbind]. change (1 =? 0) with false. cbv iota.
  fold (peer_text t). rewrite read_str_nul by done. cbn [rbind]. rewrite Hn. rewrite strcat_ok by (change (zlen (47 :: _)) with 6; lia).
  cbn [rbind]. rewrite strcat_ok by (rewrite zlen_app; change (zlen (47 :: _)) with 6; lia). cbn [rbind]. by rewrite <- app_assoc.
Qed.

(** one component that is no id *)
Lemma bytes_to_string_component fuel pre c post size2 results :
  component_ok c -> canonical c -> (forall t, c <> Ipfs t) ->
  zlen results + zlen (component_text c) + 1 < 800 ->
  let lastpos := zlen pre + 2 * zlen (component_bytes c) in
  bytes_to_string_loop (S fuel) protocol_table (pre ++ hex false (component_bytes c) ++ post) size2 (zlen pre) results =
    if decide (short_port c) then
      let results := results ++ component_text c in
      if lastpos <? size2 then
        bytes_to_string_loop fuel protocol_table (pre ++ hex false (component_bytes c) ++ post) size2 lastpos results
      else Ret (Some (results ++ [47]))
    else UB.
Proof using Hm.
  intros Hok Hcan Hni Hl lastpos. zlen_facts.
  assert (exists code l protocol, component_bytes c = code :: l /\ byte_range code /\ is_bytes l /\
    proto_with_deccode protocol_table code = Some protocol /\ name protocol <> txt "ipfs" /\
    Z.quot (size protocol) 4 = 2 * zlen l /\
    address_text protocol (hex false l) results =
      if decide (short_port c) then Ret (results ++ component_text c) else UB)
    as (code & l & protocol & Hb & Hcode & Hlb & Hp & Hn & Hq & Ht).
  { destruct c as [a b c d|p|p|t]; [| | |by destruct (Hni t)]; cbn [component_ok canonical component_bytes] in *.
    - assert (show 256 (num 256 [a; b; c; d]) = [a; b; c; d]) as -> by (apply show_num; [lia|done|cbn [hd]; lia]).
      do 3 eexists. split; [done|]. split; [unfold byte_range; lia|]. split; [done|]. split; [vm_compute; reflexivity|].
      split; [done|]. split; [done|]. cbn [short_port]. rewrite decide_True by done. apply address_text_ip4; (done || lia).
    - destruct (port_bytes_ok p Hok) as [Hpb _]. do 3 eexists. split; [done|]. split; [unfold byte_range; lia|]. split; [done|].
      split; [vm_compute; reflexivity|]. split; [done|]. split; [done|]. apply address_text_port; [done|by left|lia].
    - destruct (port_bytes_ok p Hok) as [Hpb _]. do 3 eexists. split; [done|]. split; [unfold byte_range; lia|]. split; [done|].
      split; [vm_compute; reflexivity|]. split; [done|]. split; [done|]. apply address_text_port; [done|by right|lia]. }
  unfold lastpos. clear lastpos. rewrite Hb, zlen_cons. rewrite (bytes_to_string_turn fuel pre code l post size2 results protocol) by done. rewrite Ht.
  destruct (decide (short_port c)); [|done]. cbn [rbind].
  replace (zlen pre + 2 + 2 * zlen l) with (zlen pre + 2 * (1 + zlen l)) by lia.
  rewrite strcat_ok by (rewrite zlen_app; change (zlen [47]) with 1; lia). done.
Qed.

Lemma component_text_pos c : component_ok c -> 0 < zlen (component_text c).
Proof using.
  intros _. destruct c; unfold component_text, component_words, delimited; cbn [fmap list_fmap concat app];
    rewrite zlen_cons; zlen_facts; lia.
Qed.

Lemma address_string_cons c cs : address_string (c :: cs) = component_text c ++ address_string cs.
Proof using. apply delimited_app. Qed.

(** an id ends the text *)
Lemma bytes_to_string_id fuel pre t post size2 results : is_bytes t -> zlen t = 32 ->
  zlen results + zlen (component_text (Ipfs t)) + 1 < 800 ->
  bytes_to_string_loop (S fuel) protocol_table (pre ++ hex false (component_bytes (Ipfs t)) ++ post) size2 (zlen pre) results =
    Ret (Some (results ++ component_text (Ipfs t) ++ [47])).
Proof using Hm.
  intros Ht Htl Hl. zlen_facts. cbn [bytes_to_string_loop component_bytes].
  destruct (hex_at pre false 42 (196 :: peer_hash t) post ltac:(unfold byte_range; lia)) as (-> & -> & E & _).
  cbn [rbind]. rewrite E. clear E. change (s32 42) with 42.
  change (proto_with_deccode protocol_table 42) with (Some (mkProtocol 42 (-1) (txt "ipfs"))).
  cbv iota beta. rewrite decide_True by done. pose proof (ipfs_text_ok (mkProtocol 42 (-1) (txt "ipfs")) t pre post results eq_refl Ht Htl ltac:(lia)) as E.
  cbn [component_bytes] in E. rewrite E. cbn [rbind].
  rewrite strcat_ok by (rewrite zlen_app; change (zlen [47]) with 1; lia). cbn [rbind]. by rewrite <- app_assoc.
Qed.

Lemma bytes_to_string_components cs : cs <> [] -> Forall component_ok cs -> Forall canonical cs ->
  forall fuel pre results, (length cs <= fuel)%nat -> zlen results + zlen (address_string (printed cs)) + 1 < 800 ->
  bytes_to_string_loop fuel protocol_table (pre ++ hex false (address_bytes cs) ++ [0])
    (zlen pre + 2 * zlen (address_bytes cs)) (zlen pre) results =
  if decide (Forall short_port (printed cs)) then Ret (Some (results ++ address_string (printed cs) ++ [47])) else UB.
Proof using Hm.
  induction cs as [|c cs IH]; intros Hne Hok Hcan; [done|]. apply Forall_cons in Hok as [Hc Hok], Hcan as [Hcc Hcan].
  intros [|fuel] pre results Hf Hl; cbn [length] in Hf; [lia|].
  change (address_bytes (c :: cs)) with (component_bytes c ++ address_bytes cs). rewrite hex_app, <- app_assoc.
  pose proof (component_bytes_ok c Hc) as [Hcb Hcl]. pose proof (component_text_pos c Hc) as Htp.
  assert ((exists t, c = Ipfs t) \/ (forall t, c <> Ipfs t)) as [[t ->]|Hni] by (destruct c; [by right..|left; by eexists]).
  - cbn [printed] in *. destruct Hc as [Ht Htl].
    assert (address_string [Ipfs t] = component_text (Ipfs t)) as Es by (rewrite address_string_cons; apply app_nil_r).
    rewrite Es in *. rewrite decide_True by (constructor; [done|constructor]). by apply bytes_to_string_id.
  - assert (printed (c :: cs) = c :: printed cs) as Ep by (destruct c as [| | |t]; try done; by destruct (Hni t)).
    rewrite Ep in *. rewrite address_string_cons in *. rewrite zlen_app in Hl. zlen_facts.
    rewrite bytes_to_string_component by (done || lia).
    rewrite zlen_app. destruct (decide (short_port c)) as [Hs|Hs].
    2:{ rewrite decide_False; [done|]. by intros [? _]%Forall_cons. }
    destruct cs as [|c' cs].
    + cbn [printed]. change (zlen (address_bytes [])) with 0. rewrite Z.add_0_r, Z.ltb_irrefl.
      rewrite decide_True by (constructor; [done|constructor]). rewrite app_nil_r, <- app_assoc. done.
    + assert (0 < zlen (address_bytes (c' :: cs))).
      { apply Forall_cons in Hok as [Hc' _]. pose proof (component_bytes_ok c' Hc') as [_ ?].
        change (address_bytes (c' :: cs)) with (component_bytes c' ++ address_bytes cs). rewrite zlen_app. zlen_facts. lia. }
      zbool. specialize (IH ltac:(done) Hok Hcan fuel (pre ++ hex false (component_bytes c)) (results ++ component_text c) ltac:(lia)).
      rewrite !zlen_app, (hex_length false (component_bytes c)) in IH by done. rewrite <- !app_assoc in IH.
      replace (zlen pre + 2 * (zlen (component_bytes c) + zlen (address_bytes (c' :: cs)))) with
        (zlen pre + 2 * zlen (component_bytes c) + 2 * zlen (address_bytes (c' :: cs))) by lia.
      rewrite IH by lia. destruct (decide (Forall short_port (printed (c' :: cs)))) as [Hd|Hd].
      * rewrite decide_True by (by constructor). by rewrite <- !app_assoc.
      * rewrite decide_False; [done|]. by intros [_ ?]%Forall_cons.
Qed.

Lemma address_bytes_ok cs : Forall component_ok cs -> is_bytes (address_bytes cs) /\ Z.of_nat (length cs) <= zlen (address_bytes cs).
Proof using.
  induction 1 as [|c cs Hc _ [IH1 IH2]]; [split; [constructor|done]|].
  pose proof (component_bytes_ok c Hc) as [Hcb Hcl].
  change (address_bytes (c :: cs)) with (component_bytes c ++ address_bytes cs). rewrite zlen_app.
  split; [by apply Forall_app|]. cbn [length]. lia.
Qed.

Lemma bytes_to_string_ok cs rest : cs <> [] -> Forall component_ok cs -> Forall canonical cs ->
  zlen (address_bytes cs) < 2 ^ 29 -> zlen (address_string (printed cs)) + 1 < 800 ->
  bytes_to_string (address_bytes cs ++ rest) (zlen (address_bytes cs)) =
    if decide (Forall short_port (printed cs)) then Ret (1, str_object 800 (address_string (printed cs) ++ [47])) else UB.
Proof using Hm.
  intros Hne Hok Hcan Hl Hs. destruct (address_bytes_ok cs Hok) as [Hb Hlen]. zlen_facts.
  unfold bytes_to_string, load_protocols. rewrite !malloc_always. cbn [andb rbind].
  rewrite int_op_small by lia. cbn [rbind]. unfold vthconvert. rewrite int_op_small by lia. cbn [rbind].
  rewrite int_op_small by lia. cbn [rbind]. rewrite malloc_always. zbool. rewrite memrd_app by done. cbn [rbind].
  fold (hex false (address_bytes cs)). rewrite memrd_app by (rewrite hex_length by done; lia). cbn [rbind].
  rewrite Z.mul_comm.
  pose proof (bytes_to_string_components cs Hne Hok Hcan (S (Z.to_nat (2 * zlen (address_bytes cs)))) [] [] ltac:(lia)) as E.
  change (zlen []) with 0 in E. cbn [app] in E. rewrite !Z.add_0_l in E. rewrite E by lia.
  destruct (decide _); done.
Qed.
End bytes_to_text.

(** ** The struct *)
(** an id may only stand at the end *)
Definition id_last (cs : list component) : Prop := printed cs = cs.

Definition address_ok (cs : list component) : Prop :=
  cs <> [] /\ Forall component_ok cs /\ 2 * zlen (address_bytes cs) + 1 < 800 /\ zlen (address_string cs) + 1 < 800.

(** what [multiaddress_new_from_bytes] makes of an address that can be printed *)
Definition address_struct (cs : list component) : MultiAddress :=
  mkMultiAddress (Ptr (str_object 800 (address_string cs ++ [47]))) (Ptr (address_bytes cs)) (zlen (address_bytes cs)).
Definition printable (cs : list component) : Prop :=
  address_ok cs /\ Forall canonical cs /\ id_last cs /\ Forall short_port cs.

Section struct.
Context {M : Malloc} {Hm : MallocOk M}.

Lemma new_from_string_ok cs tail rest : address_ok cs -> tail = [] \/ tail = [47] ->
  multiaddress_new_from_string ((address_string cs ++ tail) ++ 0 :: rest) =
    Ret (Some (mkMultiAddress (Ptr ((address_string cs ++ tail) ++ [0])) (Ptr (address_bytes cs)) (zlen (address_bytes cs)))).
Proof using Hm.
  intros (Hne & Hok & Hl & _) Ht. unfold multiaddress_new_from_string, multiaddress_new. rewrite malloc_always.
  rewrite read_str_nul by (apply Forall_app; split; [by apply address_string_nonzero|destruct Ht as [-> | ->]; repeat constructor; done]).
  cbn [rbind]. rewrite malloc_always. by rewrite string_to_bytes_ok by (done || lia).
Qed.

Lemma new_from_bytes_ok cs rest : address_ok cs -> Forall canonical cs -> id_last cs ->
  multiaddress_new_from_bytes (Some (address_bytes cs ++ rest)) (zlen (address_bytes cs)) =
    if decide (Forall short_port cs) then Ret (Some (address_struct cs)) else UB.
Proof using Hm.
  intros (Hne & Hok & Hl & Hs) Hcan Hid. unfold multiaddress_new_from_bytes, multiaddress_new. rewrite !malloc_always.
  rewrite memrd_app by done. cbn [rbind]. rewrite bytes_to_string_ok by (rewrite ?Hid; done || lia). rewrite Hid.
  by destruct (decide (Forall short_port cs)).
Qed.
End struct.

(** *** Looking for a part *)
Lemma strstr_skip w s n : Forall (fun b => b <> 47) w -> c_strstr (w ++ s) (47 :: n) = Z.add (zlen w) <$> c_strstr s (47 :: n).
Proof.
  induction 1 as [|b w Hb _ IH]; cbn [app].
  - destruct (c_strstr s (47 :: n)); done.
  - cbn [c_strstr is_prefix]. rewrite (proj2 (Z.eqb_neq 47 b)) by done. cbn [andb]. rewrite IH, zlen_cons.
    destruct (c_strstr s (47 :: n)); cbn; [|done]. f_equal. lia.
Qed.
Lemma strstr_none w n : Forall (fun b => b <> 47) w -> c_strstr w (47 :: n) = None.
Proof. intros Hw. rewrite <- (app_nil_r w). by rewrite strstr_skip. Qed.

(** a needle with a character the text does not have *)
Lemma strstr_absent x s n : Forall (fun b => b <> x) s -> x ∈ n -> c_strstr s n = None.
Proof.
  intros Hs Hx. assert (forall s, Forall (fun b => b <> x) s -> is_prefix n s = false) as Hp.
  { clear s Hs. induction n as [|y n IH]; [by apply elem_of_nil in Hx|]. intros [|z s] Hs; [done|]. cbn [is_prefix].
    apply Forall_cons in Hs as [Hz Hs]. apply elem_of_cons in Hx as [->|Hx]; [by rewrite (proj2 (Z.eqb_neq y z))|].
    by rewrite IH, andb_false_r. }
  induction Hs as [|b s Hb Hs IH]; cbn [c_strstr]; rewrite Hp by (by constructor); [done|]. by rewrite IH.
Qed.

(** looking for "/w/" among words behind slashes *)
Lemma is_prefix_word w w0 r : Forall (fun b => b <> 47) w -> Forall (fun b => b <> 47) w0 ->
  is_prefix (w0 ++ [47]) (w ++ 47 :: r) = bool_decide (w0 = w).
Proof.
  intros Hw Hw0. revert w Hw. induction Hw0 as [|x w0 Hx Hw0 IH]; intros w Hw.
  - destruct Hw as [|y w Hy Hw]; [done|]. cbn [app is_prefix]. by rewrite (proj2 (Z.eqb_neq 47 y)) by done.
  - destruct Hw as [|y w Hy Hw]; cbn [app is_prefix].
    + by rewrite (proj2 (Z.eqb_neq x 47)) by done.
    + rewrite IH by done. destruct (Z.eqb_spec x y) as [->|Hxy]; cbn [andb].
      * apply bool_decide_ext. split; [by intros ->|by intros [= ->]].
      * rewrite bool_decide_eq_false_2; [done|]. by intros [= ? ?].
Qed.

Lemma strstr_word ws w0 r : Forall (piece 47) ws -> piece 47 w0 -> w0 ∉ ws ->
  c_strstr (delimited 47 ws ++ 47 :: w0 ++ 47 :: r) (47 :: w0 ++ [47]) = Some (zlen (delimited 47 ws)).
Proof.
  intros Hws [_ Hw0] Hin. induction Hws as [|w ws [_ Hw] Hws IH].
  - cbn [delimited fmap list_fmap concat app c_strstr is_prefix]. rewrite Z.eqb_refl. cbn [andb].
    by rewrite is_prefix_word, bool_decide_eq_true_2 by done.
  - apply not_elem_of_cons in Hin as [Hne Hin]. change (delimited 47 (w :: ws)) with ((47 :: w) ++ delimited 47 ws).
    rewrite <- app_assoc. assert (exists k, delimited 47 ws ++ 47 :: w0 ++ 47 :: r = 47 :: k) as [k Hk].
    { destruct ws as [|w' ws]; [by eexists|]. change (delimited 47 (w' :: ws)) with (47 :: (w' ++ delimited 47 ws)). by eexists. }
    cbn [app c_strstr is_prefix]. rewrite Z.eqb_refl, Hk. cbn [andb].
    rewrite is_prefix_word, bool_decide_eq_false_2 by done. rewrite <- Hk, strstr_skip, IH by done.
    cbn [fmap option_fmap option_map]. rewrite zlen_cons, zlen_app. f_equal. lia.
Qed.

Lemma strstr_word_none ws w0 tail : Forall (piece 47) ws -> piece 47 w0 -> w0 ∉ ws -> tail = [] \/ tail = [47] ->
  c_strstr (delimited 47 ws ++ tail) (47 :: w0 ++ [47]) = None.
Proof.
  intros Hws [Hne0 Hw0] Hin Ht. induction Hws as [|w ws [_ Hw] Hws IH].
  - destruct Ht as [-> | ->]; [done|]. by destruct w0.
  - apply not_elem_of_cons in Hin as [Hne Hin]. change (delimited 47 (w :: ws)) with ((47 :: w) ++ delimited 47 ws).
    rewrite <- app_assoc. cbn [app c_strstr is_prefix]. rewrite Z.eqb_refl. cbn [andb].
    rewrite strstr_skip, IH by done. cbn [fmap option_fmap option_map].
    assert (is_prefix (w0 ++ [47]) (w ++ delimited 47 ws ++ tail) = false) as ->; [|done].
    destruct ws as [|w' ws].
    + destruct Ht as [-> | ->]; cbn [delimited fmap list_fmap concat app].
      * rewrite app_nil_r. clear -Hw Hw0. revert w Hw. induction Hw0 as [|x w0 Hx _ IH]; intros [|y w] Hw; try done.
        { cbn [app is_prefix]. apply Forall_cons in Hw as [Hy _]. by rewrite (proj2 (Z.eqb_neq 47 y)). }
        cbn [app is_prefix]. apply Forall_cons in Hw as [_ Hw]. by rewrite IH, andb_false_r.
      * by rewrite is_prefix_word, bool_decide_eq_false_2.
    + change (delimited 47 (w' :: ws)) with (47 :: (w' ++ delimited 47 ws)). cbn [app].
      by rewrite is_prefix_word, bool_decide_eq_false_2.
Qed.

(** the slash behind a word *)
Lemma strstr_slash w r : Forall (fun b => b <> 47) w ->
  c_strstr (w ++ r) [47] = match r with [] => None | _ => Z.add (zlen w) <$> c_strstr r [47] end.
Proof. intros Hw. rewrite strstr_skip by done. by destruct r. Qed.

Section accessors.
Context {M : Malloc} {Hm : MallocOk M} (a b c d p : Z) (id : option bytes) (tail : bytes).
Let ids := if id is Some t then [Ipfs t] else [].
Context (Hok : Forall component_ok (Ip4 a b c d :: Tcp p :: ids)) (Ht : tail = [] \/ tail = [47]).
Let ws := address_words ids.
Let s := address_string (Ip4 a b c d :: Tcp p :: ids) ++ tail.

Lemma accessor_facts : piece 47 (ip4_text a b c d) /\ piece 47 (dec p) /\ Forall (piece 47) ws /\ nonzero s /\
  (forall w, w ∈ [txt "tcp"; txt "ipfs"] -> w <> ip4_text a b c d /\ w <> dec p) /\ c_atoi (dec p) = Ret p.
Proof using Hok Ht.
  pose proof (address_words_ok _ Hok) as [Hw _]. pose proof (address_string_nonzero _ Hok) as Hnz.
  apply Forall_cons in Hok as [H4 [Hp Hid]%Forall_cons].
  change (address_words _) with ([txt "ip4"; ip4_text a b c d; txt "tcp"; dec p] ++ ws) in Hw.
  apply Forall_app in Hw as [Hw Hws]. repeat (apply Forall_cons in Hw as [? Hw]). cbn [component_ok] in H4, Hp.
  split_and!; try done.
  - unfold s. apply Forall_app. split; [exact Hnz|]. destruct Ht as [-> | ->]; repeat constructor; done.
  - assert (Hin : forall w, w ∈ [txt "tcp"; txt "ipfs"] -> exists x l, w = x :: l /\ 105 <= x).
    { intros w [->|[->|[]%elem_of_nil]%elem_of_cons]%elem_of_cons; do 2 eexists; (split; [reflexivity|vm_compute; discriminate]). }
    intros w (x & l & -> & Hx)%Hin. split; intros E.
    + pose proof (ip4_text_chars a b c d H4) as Hc. rewrite <- E in Hc. apply Forall_cons in Hc as [Hc _]. unfold dec_digit in Hc. lia.
    + pose proof (dec_digits p ltac:(lia)) as Hc. rewrite <- E in Hc. apply Forall_cons in Hc as [Hc _]. unfold dec_digit in Hc. lia.
  - apply atoi_dec_all. lia.
Qed.

Lemma accessor_string : s = delimited 47 [txt "ip4"; ip4_text a b c d] ++ 47 :: txt "tcp" ++ 47 :: dec p ++ delimited 47 ws ++ tail.
Proof using.
  unfold s, address_string. change (address_words _) with ([txt "ip4"; ip4_text a b c d] ++ [txt "tcp"; dec p] ++ ws).
  rewrite !delimited_app, <- !app_assoc. f_equal. unfold delimited at 1. cbn [fmap list_fmap concat]. cbn [app].
  by rewrite app_nil_r, <- app_assoc.
Qed.

(** what follows the port: nothing, or a slash *)
Lemma accessor_rest : delimited 47 ws ++ tail = [] \/ exists r, delimited 47 ws ++ tail = 47 :: r.
Proof using Hok Ht.
  unfold ws, ids. destruct id as [t|]; [right; by eexists|]. destruct Ht as [-> | ->]; [by left|right; by eexists].
Qed.

Lemma strstr_tcp : c_strstr s (txt "/tcp/") = Some (5 + zlen (ip4_text a b c d)).
Proof using Hok Ht.
  destruct accessor_facts as (H4 & Hp & Hws & _ & Hne & _). rewrite accessor_string.
  change (txt "/tcp/") with (47 :: txt "tcp" ++ [47]). rewrite strstr_word.
  - unfold delimited. cbn [fmap list_fmap concat]. f_equal. rewrite app_nil_r, zlen_app, !zlen_cons. change (zlen (txt "ip4")) with 3. lia.
  - constructor; [by apply txt_piece|]. constructor; [done|constructor].
  - by apply txt_piece.
  - destruct (Hne (txt "tcp") (list_elem_of_here _ _)) as [Hn _]. rewrite !elem_of_cons, elem_of_nil. by intros [E|[E|E]].
Qed.

(** the struct: only its string matters here *)
Context (m : MultiAddress) (rest : bytes) (Hstr : ma_string m = Ptr (s ++ 0 :: rest)).

Lemma accessor_read : pstr (ma_string m) = Ret s.
Proof using Hok Ht Hstr. destruct accessor_facts as (_ & _ & _ & Hnz & _). rewrite Hstr. by apply read_str_nul. Qed.

Lemma accessor_port : multiaddress_get_ip_port m = Ret p.
Proof using Hok Ht Hstr.
  destruct accessor_facts as (H4 & Hp & Hws & Hnz & Hne & Hat). unfold multiaddress_get_ip_port. rewrite accessor_read. cbn [rbind].
  rewrite strstr_tcp.
  assert (zdrop (5 + zlen (ip4_text a b c d) + 5) s = dec p ++ delimited 47 ws ++ tail) as ->.
  { rewrite accessor_string. unfold delimited at 1. cbn [fmap list_fmap concat]. rewrite app_nil_r.
    replace (47 :: txt "tcp" ++ 47 :: dec p ++ delimited 47 ws ++ tail) with (txt "/tcp/" ++ dec p ++ delimited 47 ws ++ tail) by done.
    rewrite app_assoc. apply zdrop_app_ge. rewrite !zlen_app, !zlen_cons.
    change (zlen (txt "/tcp/")) with 5. change (zlen (txt "ip4")) with 3. lia. }
  destruct Hp as [_ Hp]. rewrite strstr_slash by done. destruct accessor_rest as [E|[r E]].
  - rewrite E, app_nil_r. done.
  - rewrite E. cbn [c_strstr is_prefix]. rewrite Z.eqb_refl. cbn [andb fmap option_fmap option_map].
    by rewrite Z.add_0_r, ztake_app_len.
Qed.

Lemma accessor_ip : multiaddress_get_ip_address m = Ret (1, Some (ip4_text a b c d ++ [0])).
Proof using Hm Hok Ht Hstr.
  destruct accessor_facts as (H4 & _). unfold multiaddress_get_ip_address. rewrite accessor_read. cbn [rbind].
  rewrite strstr_tcp. assert (s = txt "/ip4/" ++ ip4_text a b c d ++ 47 :: txt "tcp" ++ 47 :: dec p ++ delimited 47 ws ++ tail) as Es.
  { rewrite accessor_string. unfold delimited at 1. cbn [fmap list_fmap concat]. by rewrite app_nil_r, <- !app_assoc. }
  assert (is_prefix (txt "/ip4/") s = true) as -> by (by rewrite Es). cbn [negb andb]. rewrite malloc_always.
  assert (zdrop 5 s = ip4_text a b c d ++ 47 :: txt "tcp" ++ 47 :: dec p ++ delimited 47 ws ++ tail) as Ed
    by (rewrite Es; by apply zdrop_app_ge).
  assert (5 <= zlen s) by (rewrite Es, zlen_app; change (zlen (txt "/ip4/")) with 5; zlen_facts; lia).
  unfold strcpy_into. rewrite (zlen_drop 5 s) by lia. rewrite (proj2 (Z.ltb_lt _ _)) by lia. cbn [rbind]. rewrite Ed.
  destruct H4 as [_ H4]. rewrite strstr_slash by done. cbn [c_strstr is_prefix]. rewrite Z.eqb_refl. cbn [andb fmap option_fmap option_map].
  by rewrite Z.add_0_r, malloc_always, ztake_app_len.
Qed.

Lemma accessor_id : multiaddress_get_peer_id m = Ret ((fun t => peer_text t ++ [0]) <$> id).
Proof using Hm Hok Ht Hstr.
  destruct accessor_facts as (H4 & Hp & Hws & _ & Hne & _). unfold multiaddress_get_peer_id. rewrite accessor_read. cbn [rbind].
  destruct (Hne (txt "ipfs") (list_elem_of_further _ _ _ (list_elem_of_here _ _))) as [Hn4 Hnp].
  set (front := [txt "ip4"; ip4_text a b c d; txt "tcp"; dec p]).
  assert (Forall (piece 47) front) as Hfront.
  { unfold front. constructor; [by apply txt_piece|]. constructor; [done|]. constructor; [by apply txt_piece|]. by constructor. }
  assert (txt "ipfs" ∉ front) as Hnot.
  { unfold front. rewrite !elem_of_cons, elem_of_nil. by intros [E|[E|[E|[E|E]]]]. }
  change (txt "/ipfs/") with (47 :: txt "ipfs" ++ [47]).
  assert (s = delimited 47 front ++ delimited 47 ws ++ tail) as Es.
  { unfold s, address_string. change (address_words _) with (front ++ ws). by rewrite delimited_app, <- app_assoc. }
  destruct id as [t|].
  - assert (component_ok (Ipfs t)) as [Htb Htl] by (by pose proof Hok as [_ [_ [Hid _]%Forall_cons]%Forall_cons]%Forall_cons).
    destruct (peer_text_piece t Htb Htl) as [[_ Hpt] _]. pose proof (peer_text_length t Htb Htl) as Hl.
    assert (s = delimited 47 front ++ 47 :: txt "ipfs" ++ 47 :: peer_text t ++ tail) as -> by
      (rewrite Es; unfold ws, ids; f_equal; unfold delimited; cbn [address_words mbind list_bind component_words app fmap list_fmap concat];
       by rewrite app_nil_r, <- ?app_assoc).
    rewrite strstr_word by (done || by apply txt_piece).
    assert (zdrop (zlen (delimited 47 front) + 6) (delimited 47 front ++ 47 :: txt "ipfs" ++ 47 :: peer_text t ++ tail) = peer_text t ++ tail) as ->.
    { replace (47 :: txt "ipfs" ++ 47 :: peer_text t ++ tail) with (txt "/ipfs/" ++ peer_text t ++ tail) by done.
      rewrite app_assoc. apply zdrop_app_ge. by rewrite zlen_app. }
    rewrite strstr_slash by done. destruct Ht as [-> | ->].
    + rewrite app_nil_r, Hl. cbn [Z.ltb Z.compare andb]. rewrite malloc_always. by rewrite ztake_all by lia.
    + cbn [c_strstr is_prefix]. rewrite Z.eqb_refl. cbn [andb fmap option_fmap option_map]. rewrite Z.add_0_r, malloc_always.
      rewrite Hl at 1. cbn [Z.ltb Z.compare andb]. by rewrite ztake_app_len.
  - rewrite Es. unfold ws, ids. change (delimited 47 (address_words [])) with (@nil Z). cbn [app].
    by rewrite strstr_word_none by (done || by apply txt_piece).
Qed.
End accessors.

(** ** Properties *)

(** Property C19. For a list of components, [multiaddress_new_from_string] makes of
    its text the struct with its bytes.  From the bytes of an address whose ids
    stand at the end, whose IPv4 addresses do not begin with 0 and whose ports
    have at most four digits, [multiaddress_new_from_bytes] makes the struct with
    the same text and a slash, and this text gives the same bytes again; a
    port from 10000 on is written past an array of five bytes. *)
Theorem multiaddress_text_bytes {M : Malloc} {Hm : MallocOk M} (cs : list component) (srest brest : bytes) :
  address_ok cs ->
  let from_text := mkMultiAddress (Ptr (address_string cs ++ [0])) (Ptr (address_bytes cs)) (zlen (address_bytes cs)) in
  multiaddress_new_from_string (address_string cs ++ 0 :: srest) = Ret (Some from_text) /\
  (Forall canonical cs -> id_last cs ->
   multiaddress_new_from_bytes (Some (address_bytes cs ++ brest)) (zlen (address_bytes cs)) =
     if decide (Forall short_port cs) then Ret (Some (address_struct cs)) else UB) /\
  multiaddress_new_from_string (str_object 800 (address_string cs ++ [47])) =
    Ret (Some (mkMultiAddress (Ptr ((address_string cs ++ [47]) ++ [0])) (Ptr (address_bytes cs)) (zlen (address_bytes cs)))).
Proof.
  intros Hok from_text. split; [|split].
  - pose proof (new_from_string_ok cs [] srest Hok ltac:(by left)) as E. by rewrite app_nil_r in E.
  - intros Hcan Hid. by apply new_from_bytes_ok.
  - unfold str_object. destruct Hok as (? & ? & ? & Hl). zlen_facts.
    assert (zlen (address_string cs ++ [47]) < 800) by (rewrite zlen_app; change (zlen [47]) with 1; lia).
    replace (Z.to_nat (800 - zlen (address_string cs ++ [47]))) with (S (Z.to_nat (799 - zlen (address_string cs ++ [47])))) by lia.
    cbn [replicate]. apply new_from_string_ok; [|by right]. by repeat split.
Qed.

Definition sample_address : list component := [Ip4 10 0 0 1; Tcp 4001; Ipfs (replicate 32%nat 7)].

Lemma sample_address_ok : address_ok sample_address.
Proof.
  split; [done|]. split.
  - forall_tac ltac:(cbn [component_ok]; first [lia | split; [apply Forall_replicate; unfold byte_range; lia | reflexivity]
      | forall_tac ltac:(unfold byte_range; lia)]).
  - vm_compute. split; reflexivity.
Qed.

Lemma multiaddress_text_bytes_witness :
  let M := malloc_total in let cs := sample_address in
  multiaddress_new_from_string (address_string cs ++ 0 :: []) =
    Ret (Some (mkMultiAddress (Ptr (address_string cs ++ [0])) (Ptr (address_bytes cs)) (zlen (address_bytes cs)))) /\
  (Forall canonical cs -> id_last cs ->
   multiaddress_new_from_bytes (Some (address_bytes cs ++ [])) (zlen (address_bytes cs)) =
     if decide (Forall short_port cs) then Ret (Some (address_struct cs)) else UB) /\
  multiaddress_new_from_string (str_object 800 (address_string cs ++ [47])) =
    Ret (Some (mkMultiAddress (Ptr ((address_string cs ++ [47]) ++ [0])) (Ptr (address_bytes cs)) (zlen (address_bytes cs)))).
Proof. intros M cs. apply (multiaddress_text_bytes sample_address [] []). apply sample_address_ok. Defined.

(** [is_valid_ipv4] does not end when a piece behind acceptable ones
    is a number below 0 or above 255: the loop does not go on to the next piece.
    So "/ip4/256.0.0.1" never becomes a multiaddress. *)
Lemma ipv4_validation_diverges (good : list (bytes * Z)) (bad : bytes) (n : Z) (rest : list bytes) (fuel : nat) (dots : Z) (err : bool) :
  Forall (fun g => c_atoi g.1 = Ret g.2 /\ 0 <= g.2 <= 255) good -> c_atoi bad = Ret n -> n < 0 \/ 255 < n ->
  ipv4_loop fuel (good.*1 ++ bad :: rest) dots err = NoFuel.
Proof.
  intros Hg Hb Hn. revert fuel dots err. induction Hg as [|[g v] good [Hv Hr] _ IH]; intros fuel.
  - assert ((0 <=? n) && (n <=? 255) = false) as E by (destruct Hn; [by zbool|zbool; by rewrite andb_false_r || idtac]).
    induction fuel as [|fuel IH]; intros dots err; [done|]. cbn [fmap list_fmap app ipv4_loop]. rewrite Hb. cbn [rbind].
    rewrite E. apply IH.
  - intros dots err. destruct fuel as [|fuel]; [done|]. cbn [fmap list_fmap app ipv4_loop fst snd] in *. rewrite Hv. cbn [rbind].
    zbool. apply IH.
Qed.

(** On the address of a peer, with or without its id, the accessors
    give its parts: the family, the text of the IPv4 address, the port and the
    id. *)
Lemma multiaddress_accessors {M : Malloc} {Hm : MallocOk M} (a b c d p : Z) (id : option bytes) (tail rest data : bytes) (n : Z) :
  let cs := Ip4 a b c d :: Tcp p :: (if id is Some t then [Ipfs t] else []) in
  Forall component_ok cs -> tail = [] \/ tail = [47] ->
  let m := mkMultiAddress (Ptr ((address_string cs ++ tail) ++ 0 :: rest)) (Ptr (4 :: data)) n in
  multiaddress_is_ip m = Ret 1 /\ multiaddress_get_ip_family m = Ret AF_INET /\
  multiaddress_get_ip_address m = Ret (1, Some (ip4_text a b c d ++ [0])) /\
  multiaddress_get_ip_port m = Ret p /\
  multiaddress_get_peer_id m = Ret ((fun t => peer_text t ++ [0]) <$> id).
Proof.
  intros cs Hok Ht m. split; [done|]. split; [done|].
  split; [by eapply accessor_ip|]. split; [by eapply accessor_port|]. by eapply accessor_id.
Qed.

(** [multiaddress_decapsulate] never finds a text with a slash in
    it, "/tcp" for example: it has just turned the slashes of the address into
    spaces.  It returns 0 and leaves the spaces in the address. *)
Lemma decapsulate_never_finds_slash {M : Malloc} (s rest n nrest : bytes) (b : ptr bytes) (size : Z) :
  nonzero s -> nonzero n -> 47 ∈ n ->
  multiaddress_decapsulate (Some (mkMultiAddress (Ptr (s ++ 0 :: rest)) b size)) (Some (n ++ 0 :: nrest)) =
    Ret (0, Some (mkMultiAddress (Ptr ((slash_to_space <$> s) ++ 0 :: rest)) b size)).
Proof.
  intros Hs Hn Hin. unfold multiaddress_decapsulate. cbn [ma_string ma_bytes ma_bsize pget rbind].
  rewrite !read_str_nul by done. cbn [rbind]. rewrite (strstr_absent 47); [by rewrite zdrop_app_len| |done].
  apply Forall_fmap, Forall_true. intros x. unfold compose, slash_to_space. destruct (Z.eqb_spec x 47) as [->|Hx]; done.
Qed.
