(* ===== verification/Peer.v ===== *)
(** * Peers (libp2p/peer/peer.c)

    [struct Libp2pPeer], the functions that create, copy and compare peers, and
    the protobuf codec.  Connections and streams are not modelled. *)
From Stdlib Require Import String.
From S2P Require Import Prelude Varint Digits Protobuf Base58 CString Hex Multiaddr.

(** [addr_head] is the list of the items, NULL ones included; [sessionContext] is
    NULL or says whether there is a default stream *)
Record Libp2pPeer := mkPeer {
  id : option bytes;
  id_size : Z;
  addr_head : list (option MultiAddress);
  connection_type : Z;
  sessionContext : option bool;
  is_local : Z
}.

#[export] Instance Libp2pPeer_eq_dec : EqDecision Libp2pPeer.
Proof. solve_decision. Defined.

Definition CONNECTION_TYPE_NOT_CONNECTED : Z := 0.
Definition CONNECTION_TYPE_CONNECTED : Z := 1.
Definition sizeof_Libp2pPeer : Z := 48.
Definition sizeof_Libp2pLinkedList : Z := 16.

(** from index [i], with [n] bytes left; [char] is signed *)
Fixpoint peer_compare_loop (n : nat) (i : Z) (a b : bytes) : res Z :=
  match n with
  | O => Ret 0
  | S n =>
    let! x := rd a i in
    let! y := rd b i in
    if x =? y then peer_compare_loop n (i + 1) a b else Ret (s8 y - s8 x)
  end.

Definition libp2p_peer_compare (a b : option Libp2pPeer) : res Z :=
  match a, b with
  | None, None => Ret 0
  | None, Some _ => Ret (-1)
  | Some _, None => Ret 1
  | Some a, Some b =>
    if id_size a =? id_size b then
      peer_compare_loop (Z.to_nat (id_size a)) 0 (deref (id a)) (deref (id b))
    else Ret (s32 (u64 (id_size b - id_size a)))
  end.

Definition libp2p_peer_matches_id (p : Libp2pPeer) (peer_id : bytes) (peer_size : Z) : res Z :=
  if u64 peer_size =? id_size p then
    let! eq := strncmp_eq (Z.to_nat (id_size p)) (deref (id p)) peer_id in Ret (if eq : bool then 1 else 0)
  else Ret 0.

(** the static array has 100 bytes *)
Definition libp2p_peer_id_to_string (p : Libp2pPeer) : res bytes :=
  let! b := memrd (deref (id p)) (id_size p) in
  if id_size p <? 100 then Ret (b ++ [0]) else UB.

(** the session that is freed is not part of the model *)
Definition libp2p_peer_handle_connection_error (p : Libp2pPeer) : Libp2pPeer :=
  mkPeer (id p) (id_size p) (addr_head p) CONNECTION_TYPE_NOT_CONNECTED None (is_local p).

(** the result and the peer *)
Definition libp2p_peer_is_connected (p : Libp2pPeer) : Z * Libp2pPeer :=
  let p :=
    if connection_type p =? CONNECTION_TYPE_CONNECTED then
      match sessionContext p with
      | Some true => p
      | s => mkPeer (id p) (id_size p) (addr_head p) CONNECTION_TYPE_NOT_CONNECTED s (is_local p)
      end
    else p in
  (if connection_type p =? CONNECTION_TYPE_CONNECTED then 1 else 0, p).

Section peer.
Context {M : Malloc}.

Definition peer_blank : Libp2pPeer := mkPeer None 0 [] CONNECTION_TYPE_NOT_CONNECTED None 0.
Definition libp2p_peer_new : option Libp2pPeer := if malloc_ok sizeof_Libp2pPeer then Some peer_blank else None.

(** no result of an allocation is tested *)
Definition libp2p_peer_new_from_multiaddress (addr : option MultiAddress) : res Libp2pPeer :=
  match addr with
  | None => UB
  | Some a =>
    let! i := multiaddress_get_peer_id a in
    if malloc_ok sizeof_Libp2pPeer && malloc_ok sizeof_Libp2pLinkedList then
      let! (i, n) :=
        match i with
        | None => Ret (None, 0)
        | Some i => let! s := read_str i in if malloc_ok (zlen s) then Ret (Some s, zlen s) else UB
        end in
      let! copy := multiaddress_copy (Some a) in
      Ret (mkPeer i n [copy] CONNECTION_TYPE_NOT_CONNECTED None 0)
    else UB
  end.

(** the addresses: a NULL item is left out, and no allocation is tested *)
Fixpoint copy_addresses (l : list (option MultiAddress)) : res (list (option MultiAddress)) :=
  match l with
  | [] => Ret []
  | None :: l => copy_addresses l
  | Some a :: l =>
    if malloc_ok sizeof_Libp2pLinkedList then
      let! copy := multiaddress_copy (Some a) in
      let! l := copy_addresses l in Ret (copy :: l)
    else UB
  end.

(** the copy has the same session *)
Definition libp2p_peer_copy (p : Libp2pPeer) : res (option Libp2pPeer) :=
  match libp2p_peer_new with
  | None => Ret None
  | Some _ =>
    if malloc_ok (id_size p) then
      let! i := memrd (deref (id p)) (id_size p) in
      let! l := copy_addresses (addr_head p) in
      Ret (Some (mkPeer (Some i) (id_size p) l (connection_type p) (sessionContext p) (is_local p)))
    else Ret None
  end.

(** ** The codec *)
(** the sum is kept in an [int] *)
Definition libp2p_peer_protobuf_encode_size (p : option Libp2pPeer) : Z :=
  match p with
  | None => 0
  | Some p =>
    u64 (fold_left (fun sz (a : option MultiAddress) =>
                      match a with None => sz | Some a => s32 (u64 (sz + 11 + ma_bsize a)) end)
           (addr_head p) (s32 (u64 (11 + id_size p + 11))))
  end.

Definition address_field (a : option MultiAddress) (buffer : bytes) (max : Z) : encoded :=
  match a with
  | None => Ret ((1, 0), buffer)
  | Some a => protobuf_encode_length_delimited 2 WIRETYPE_LENGTH_DELIMITED (pderef (ma_bytes a)) (ma_bsize a) buffer max
  end.

Definition libp2p_peer_protobuf_encode (p : Libp2pPeer) (buffer : bytes) (max_buffer_size : Z) : encoded :=
  let max := max_buffer_size in
  (put_field (protobuf_encode_length_delimited 1 WIRETYPE_LENGTH_DELIMITED (deref (id p)) (id_size p)) max
  (put_each address_field max (addr_head p)
  (put_field (protobuf_encode_varint 3 WIRETYPE_VARINT (connection_type p)) max
  put_done))) 0 buffer.

(** the allocation is not tested *)
Definition libp2p_peer_protobuf_encode_with_alloc (p : option Libp2pPeer) : res (Z * bytes * Z) :=
  let size := libp2p_peer_protobuf_encode_size p in
  match p with
  | None => UB
  | Some p =>
    if malloc_ok size then
      let! ((r, written), buffer) := libp2p_peer_protobuf_encode p (fresh size) size in Ret (r, buffer, written)
    else UB
  end.

(** The number of field 3 is stored with eight bytes into the four of the enum
    and the four of the padding behind it. *)
Definition peer_handler : handler Libp2pPeer := fun field_no p rem peer =>
  if field_no =? 1 then
    let! s := protobuf_decode_length_delimited p rem in
    match s with
    | None => Ret None
    | Some (d, n) =>
      Ret (Some (mkPeer (Some d) (zlen d) (addr_head peer) (connection_type peer) (sessionContext peer) (is_local peer), n))
    end
  else if field_no =? 2 then
    let! s := protobuf_decode_length_delimited p rem in
    match s with
    | None => Ret None
    | Some (buffer, n) =>
      if malloc_ok sizeof_Libp2pLinkedList then
        let! address := multiaddress_new_from_bytes (Some buffer) (s32 (zlen buffer)) in
        Ret (Some (mkPeer (id peer) (id_size peer) (addr_head peer ++ [address]) (connection_type peer)
                     (sessionContext peer) (is_local peer), n))
      else Ret None
    end
  else if field_no =? 3 then
    let! (v, n) := varint_decode p (s32 rem) in
    Ret (Some (mkPeer (id peer) (id_size peer) (addr_head peer) (u32 v) (sessionContext peer) (is_local peer), n))
  else Ret (Some (peer, 0)).

(** [None]: returned 0 *)
Definition libp2p_peer_protobuf_decode (buffer : bytes) (in_size : Z) : res (option Libp2pPeer) :=
  match libp2p_peer_new with
  | None => Ret None
  | Some p => decode_fields (decode_fuel in_size) peer_handler buffer in_size 0 p
  end.
End peer.

(** ** Validity and the reference form *)
Definition peer_id_bytes (p : Libp2pPeer) : bytes := ztake (id_size p) (deref (id p)).

(** an address that [multiaddress_new_from_bytes] can read *)
Definition readable (a : MultiAddress) : Prop :=
  exists cs, printable cs /\ ma_bytes a = Ptr (address_bytes cs) /\ ma_bsize a = zlen (address_bytes cs).

Definition peer_encodable (p : Libp2pPeer) : Prop :=
  0 <= id_size p <= zlen (deref (id p)) /\ 0 <= connection_type p < 2 ^ 32 /\
  Forall (from_option readable True) (addr_head p) /\
  id_size p + 1000 * zlen (addr_head p) + 22 <= INT_MAX.

Definition address_wire (a : option MultiAddress) : bytes :=
  match a with None => [] | Some a => bytes_field 2 (pderef (ma_bytes a)) end.

Definition peer_wire (p : Libp2pPeer) : bytes :=
  bytes_field 1 (peer_id_bytes p) ++ concat (address_wire <$> addr_head p) ++ varint_field 3 (connection_type p).

(** what the decoder makes of the bytes of an address *)
Definition address_saved `{Malloc} (a : MultiAddress) : option MultiAddress :=
  match multiaddress_new_from_bytes (Some (pderef (ma_bytes a))) (ma_bsize a) with Ret r => r | _ => None end.

(** the session and [is_local] are not saved, and NULL addresses are left out *)
Definition peer_saved `{Malloc} (p : Libp2pPeer) : Libp2pPeer :=
  mkPeer (Some (peer_id_bytes p)) (id_size p) ((fun a => address_saved a) <$> omap (fun x => x) (addr_head p))
    (connection_type p) None 0.

Section proofs.
Context {M : Malloc}.

Lemma readable_size a : readable a -> zlen (pderef (ma_bytes a)) = ma_bsize a /\ 0 < ma_bsize a < 400 /\
  is_bytes (pderef (ma_bytes a)).
Proof using.
  intros (cs & ((Hne & Hok & Hl & _) & _) & Hb & Hs). rewrite Hb, Hs. cbn [pderef].
  destruct (address_bytes_ok cs Hok) as [Hby Hlen]. split; [done|]. split; [|done].
  destruct cs; [done|]. cbn [length] in Hlen. lia.
Qed.

Lemma peer_id_length p : peer_encodable p -> zlen (peer_id_bytes p) = id_size p.
Proof using. intros (H & _). by apply zlen_take. Qed.

Definition address_size (sz : Z) (a : option MultiAddress) : Z :=
  match a with None => sz | Some a => s32 (u64 (sz + 11 + ma_bsize a)) end.

Lemma address_sizes l : Forall (from_option readable True) l -> forall sz, 0 <= sz -> sz + 1000 * zlen l <= INT_MAX ->
  sz + zlen (concat (address_wire <$> l)) <= fold_left address_size l sz <= sz + 1000 * zlen l.
Proof using.
  induction 1 as [|a l Ha _ IH]; intros sz Hsz Hl; cbn [fmap list_fmap concat fold_left].
  - change (zlen []) with 0. lia.
  - rewrite zlen_app, zlen_cons in *. zlen_facts. destruct a as [a|]; cbn [address_size address_wire from_option] in *.
    + destruct (readable_size a Ha) as (Hz & Hs & _). pose proof (bytes_field_le 2 (pderef (ma_bytes a)) ltac:(lia)).
      unfold INT_MAX in *. rewrite u64_small, s32_small by lia. specialize (IH (sz + 11 + ma_bsize a) ltac:(lia) ltac:(lia)). lia.
    + specialize (IH sz ltac:(lia) ltac:(lia)). change (zlen []) with 0. lia.
Qed.

Lemma peer_size_ok p : peer_encodable p -> zlen (peer_wire p) <= libp2p_peer_protobuf_encode_size (Some p) <= INT_MAX.
Proof using.
  intros Hp. pose proof (peer_id_length p Hp) as Hi. destruct Hp as (Hid & Hc & Ha & Hl). zlen_facts. unfold peer_wire.
  rewrite !zlen_app. pose proof (bytes_field_le 1 (peer_id_bytes p) ltac:(lia)).
  pose proof (varint_field_le 3 (connection_type p) ltac:(lia)). unfold libp2p_peer_protobuf_encode_size.
  unfold INT_MAX in *. rewrite (u64_small (11 + _ + 11)), s32_small by lia.
  change (fun sz (a : option MultiAddress) => match a with None => sz | Some a => s32 (u64 (sz + 11 + ma_bsize a)) end) with address_size.
  pose proof (address_sizes _ Ha (11 + id_size p + 11) ltac:(lia) ltac:(unfold INT_MAX; lia)).
  rewrite u64_small by (zlen_facts; lia). lia.
Qed.

Lemma address_emits a : from_option readable True a -> emits (address_field a) (address_wire a).
Proof using.
  destruct a as [a|]; cbn [from_option]; intros Ha.
  - destruct (readable_size a Ha) as (Hz & _). unfold address_field, address_wire. rewrite <- Hz. auto with wire.
  - intros buf max _ _ _. cbn [address_field address_wire]. change (zlen []) with 0. by rewrite zdrop_0.
Qed.

Lemma peer_encode_emits p : peer_encodable p -> emits (libp2p_peer_protobuf_encode p) (peer_wire p).
Proof using.
  intros (Hid & Hc & Ha & Hl). apply (emits_continues (fun max => _)). intros max. unfold peer_wire.
  apply continues_put; [apply encode_prefix_field_emits; [auto with wire|done]|].
  apply continues_each; [|rewrite <- (app_nil_r (varint_field 3 _)); apply continues_put; [|apply continues_done]].
  - eapply Forall_impl; [exact Ha|]. intros a. apply address_emits.
  - apply encode_varint_field_emits; [auto with wire|lia].
Qed.

Context {Hm : MallocOk M}.

Lemma readable_saved a : readable a -> exists cs, printable cs /\ address_saved a = Some (address_struct cs) /\
  multiaddress_new_from_bytes (Some (pderef (ma_bytes a))) (ma_bsize a) = Ret (Some (address_struct cs)).
Proof using Hm.
  intros (cs & Hp & Hb & Hs). exists cs. split; [done|]. unfold address_saved. rewrite Hb, Hs. cbn [pderef].
  destruct Hp as (Hok & Hcan & Hid & Hsh). pose proof (new_from_bytes_ok cs [] Hok Hcan Hid) as E.
  rewrite app_nil_r, decide_True in E by done. by rewrite E.
Qed.

(** the state of the decoder behind the addresses [l] *)
Definition after_addresses (i : bytes) (l : list (option MultiAddress)) : Libp2pPeer :=
  mkPeer (Some i) (zlen i) ((fun a => address_saved a) <$> omap (fun x => x) l) CONNECTION_TYPE_NOT_CONNECTED None 0.

Lemma peer_parses p : peer_encodable p -> parses peer_handler (peer_wire p) peer_blank (peer_saved p).
Proof using Hm.
  intros Hp. pose proof (peer_id_length p Hp) as Hi. destruct Hp as (Hid & Hc & Ha & Hl). unfold peer_wire.
  eapply parses_app; [apply parses_bytes; [auto with wire|by solve_handles peer_handler]|]. cbn [addr_head peer_blank].
  eapply parses_app.
  - apply (parses_list peer_handler address_wire (after_addresses (peer_id_bytes p))). intros pre x post Hx.
    rewrite Hx in Ha. apply Forall_app in Ha as [_ [Hxr _]%Forall_cons]. unfold after_addresses.
    rewrite omap_app, fmap_app. destruct x as [a|]; cbn [address_wire from_option] in *.
    + destruct (readable_size a Hxr) as (Hz & Hs & _). destruct (readable_saved a Hxr) as (cs & _ & Es & E).
      apply parses_bytes; [auto with wire|]. solve_handles peer_handler. rewrite malloc_always, Hz, s32_small, E by lia.
      cbn [rbind omap list_omap fmap list_fmap]. by rewrite Es.
    + cbn [omap list_omap fmap list_fmap]. rewrite app_nil_r. apply parses_nil.
  - apply parses_varint; [auto with wire|]. solve_handles peer_handler. unfold after_addresses, peer_saved.
    cbn [id id_size addr_head sessionContext is_local]. by rewrite u32_small, Hi by lia.
Qed.

Lemma peer_decode_wire p post : peer_encodable p ->
  libp2p_peer_protobuf_decode (peer_wire p ++ post) (zlen (peer_wire p)) = Ret (Some (peer_saved p)).
Proof using Hm.
  intros Hp. pose proof (peer_size_ok p Hp). unfold libp2p_peer_protobuf_decode, libp2p_peer_new.
  rewrite malloc_always. apply parses_decode; [by apply peer_parses|lia].
Qed.
End proofs.

#[export] Instance peer_codec {M : Malloc} : Codec Libp2pPeer := {
  codec_encode := libp2p_peer_protobuf_encode;
  codec_size p := libp2p_peer_protobuf_encode_size (Some p);
  codec_decode := libp2p_peer_protobuf_decode
}.
#[export] Instance peer_codec_laws {M : Malloc} {Hm : MallocOk M} : CodecLaws peer_codec := {
  codec_wire := peer_wire;
  codec_valid := peer_encodable;
  codec_saved := peer_saved;
  codec_emits := peer_encode_emits;
  codec_size_ok := peer_size_ok;
  codec_decode_wire := peer_decode_wire
}.

(** a decoded peer is encoded as it came *)
Section saved.
Context {M : Malloc} {Hm : MallocOk M}.

Lemma peer_saved_ok p : peer_encodable p -> peer_encodable (peer_saved p) /\ peer_wire (peer_saved p) = peer_wire p /\
  libp2p_peer_protobuf_encode_size (Some (peer_saved p)) = libp2p_peer_protobuf_encode_size (Some p).
Proof using Hm.
  intros Hp. pose proof (peer_id_length p Hp) as Hi. destruct Hp as (Hid & Hc & Ha & Hl).
  assert (peer_id_bytes (peer_saved p) = peer_id_bytes p) as E.
  { unfold peer_id_bytes at 1. cbn [peer_saved id id_size]. change (deref (Some ?b)) with b. by rewrite ztake_all by lia. }
  assert (Forall (from_option readable True) (addr_head (peer_saved p)) /\
    concat (address_wire <$> addr_head (peer_saved p)) = concat (address_wire <$> addr_head p) /\
    zlen (addr_head (peer_saved p)) <= zlen (addr_head p) /\
    forall z, fold_left address_size (addr_head (peer_saved p)) z = fold_left address_size (addr_head p) z) as (A1 & A2 & A3 & A4).
  { cbn [peer_saved addr_head]. clear -Ha Hm. induction Ha as [|[a|] l Ha _ (B1 & B2 & B3 & B4)]; [split_and!; done || constructor| |].
    - cbn [from_option omap list_omap fmap list_fmap concat fold_left] in *. destruct (readable_saved a Ha) as (cs & Hcs & Es & _).
      destruct Ha as (cs' & Hp' & Hb & Hz). assert (address_struct cs = address_struct cs') as Ec.
      { pose proof (readable_saved a ltac:(by exists cs')) as (cs2 & _ & Es2 & En). rewrite Hb, Hz in En. cbn [pderef] in En.
        destruct Hp' as (H1 & H2 & H3 & H4). pose proof (new_from_bytes_ok cs' [] H1 H2 H3) as En'.
        rewrite app_nil_r, decide_True in En' by done. congruence. }
      rewrite Es, Ec. split_and!.
      + constructor; [|done]. cbn. exists cs'. by split_and!.
      + cbn [address_wire]. rewrite B2. do 2 f_equal. by rewrite Hb.
      + rewrite !zlen_cons. lia.
      + intros z. rewrite <- B4. cbn [address_size address_struct ma_bsize]. by rewrite Hz.
    - cbn [omap list_omap fmap list_fmap concat address_wire fold_left address_size app] in *. split_and!; try done.
      rewrite zlen_cons. lia. }
  split; [|split].
  - split; [|split; [done|split; [done|]]]; cbn [peer_saved id id_size] in *; [change (deref (Some ?b)) with b; lia|lia].
  - unfold peer_wire. rewrite E, A2. done.
  - unfold libp2p_peer_protobuf_encode_size.
    change (fun sz (a : option MultiAddress) => match a with None => sz | Some a => s32 (u64 (sz + 11 + ma_bsize a)) end) with address_size.
    rewrite A4. done.
Qed.
End saved.

(** ** Properties *)

(** A peer whose addresses can be printed is encoded in a buffer of
    the estimated size, and comes back from the decoder with its id, its
    connection type and, in order, the addresses its bytes stand for, with their
    texts; NULL addresses, the session and [is_local] are not saved. *)
Lemma peer_encode_decode {M : Malloc} {Hm : MallocOk M} (p : Libp2pPeer) :
  peer_encodable p ->
  exists buf n p' css, libp2p_peer_protobuf_encode_with_alloc (Some p) = Ret (1, buf, n) /\ n <= zlen buf /\
    libp2p_peer_protobuf_decode buf n = Ret (Some p') /\
    id p' = Some (peer_id_bytes p) /\ id_size p' = id_size p /\ connection_type p' = connection_type p /\
    Forall2 (fun a cs => ma_bytes a = Ptr (address_bytes cs)) (omap (fun x => x) (addr_head p)) css /\
    addr_head p' = (fun cs => Some (address_struct cs)) <$> css.
Proof.
  intros Hp. pose proof (peer_size_ok p Hp) as Hs. zlen_facts.
  assert (exists css, Forall2 (fun a cs => ma_bytes a = Ptr (address_bytes cs)) (omap (fun x => x) (addr_head p)) css /\
    addr_head (peer_saved p) = (fun cs => Some (address_struct cs)) <$> css) as (css & Hcss & Hh).
  { destruct Hp as (_ & _ & Ha & _). cbn [peer_saved addr_head]. induction Ha as [|[a|] l Ha _ (css & Hcss & IH)]; [by exists []| |by exists css].
    cbn [from_option omap list_omap] in *. destruct (readable_saved a Ha) as (cs & _ & Es & E). destruct Ha as (cs' & Hp' & Hb & Hz).
    rewrite Hb, Hz in E. cbn [pderef] in E. pose proof Hp' as (Hok & Hcan & Hid & Hsh).
    pose proof (new_from_bytes_ok cs' [] Hok Hcan Hid) as E'. rewrite app_nil_r, decide_True in E' by done.
    exists (cs' :: css). cbn [fmap list_fmap]. split; [by constructor|]. f_equal; [|exact IH].
    rewrite Es. rewrite E' in E. congruence. }
  unfold libp2p_peer_protobuf_encode_with_alloc. rewrite malloc_always, (peer_encode_emits p Hp) by (rewrite ?zlen_fresh by lia; lia).
  cbn [rbind]. eexists _, _, (peer_saved p), css. split; [done|]. split; [zlia|]. split; [by apply peer_decode_wire|]. by split_and!.
Qed.

Definition sample_peer : Libp2pPeer :=
  mkPeer (Some [81; 109; 88]) 3 [Some (address_struct sample_address); None; Some (address_struct [Ip4 127 0 0 1; Udp 53])]
    CONNECTION_TYPE_CONNECTED (Some true) 0.

Lemma sample_addresses_readable : printable sample_address /\ printable [Ip4 127 0 0 1; Udp 53].
Proof.
  split; (split; [|split; [|split; [reflexivity|]]]).
  - apply sample_address_ok.
  - forall_tac ltac:(cbn [canonical]; lia || done).
  - forall_tac ltac:(cbn [short_port]; lia || done).
  - split; [done|]. split; [|vm_compute; split; reflexivity].
    forall_tac ltac:(cbn [component_ok]; first [lia | forall_tac ltac:(unfold byte_range; lia)]).
  - forall_tac ltac:(cbn [canonical]; lia || done).
  - forall_tac ltac:(cbn [short_port]; lia || done).
Qed.

Lemma sample_peer_ok : peer_encodable sample_peer.
Proof.
  destruct sample_addresses_readable as [H1 H2].
  split; [done|]. split; [done|]. split; [|vm_compute; discriminate].
  constructor; [by exists sample_address|]. constructor; [done|]. constructor; [by eexists|constructor].
Qed.
