(* ===== verification/Unixfs.v ===== *)
(** * UnixFS objects (libipfs/unixfs/unixfs.c)

    The [struct UnixFS], its block-size list, and its protobuf codec. *)
From S2P Require Import Prelude Varint Protobuf.

(** [enum UnixFSDataType] *)
Definition UNIXFS_RAW : Z := 0.
Definition UNIXFS_DIRECTORY : Z := 1.
Definition UNIXFS_FILE : Z := 2.
Definition UNIXFS_METADATA : Z := 3.
Definition UNIXFS_SYMLINK : Z := 4.

(** [bytes] and [hash] are pointers (NULL is [None]).  The list
    [block_size_head] is owned by the object and reachable through it only, so
    it is the list of its [block_size]s. *)
Record UnixFS := mkUnixFS {
  data_type : Z;
  bytes_size : Z;
  ubytes : option bytes;
  file_size : Z;
  block_size_head : list Z;
  hash : option bytes;
  hash_length : Z
}.

#[export] Instance UnixFS_eq_dec : EqDecision UnixFS.
Proof. solve_decision. Defined.

Definition sizeof_UnixFS : Z := 56.
Definition sizeof_UnixFSBlockSizeNode : Z := 16.

Definition set_data_type (v : Z) (o : UnixFS) : UnixFS :=
  mkUnixFS v (bytes_size o) (ubytes o) (file_size o) (block_size_head o) (hash o) (hash_length o).
Definition set_ubytes (b : bytes) (o : UnixFS) : UnixFS :=
  mkUnixFS (data_type o) (zlen b) (Some b) (file_size o) (block_size_head o) (hash o) (hash_length o).
Definition set_file_size (v : Z) (o : UnixFS) : UnixFS :=
  mkUnixFS (data_type o) (bytes_size o) (ubytes o) v (block_size_head o) (hash o) (hash_length o).
Definition set_block_sizes (l : list Z) (o : UnixFS) : UnixFS :=
  mkUnixFS (data_type o) (bytes_size o) (ubytes o) (file_size o) l (hash o) (hash_length o).

Section unixfs.
Context `{Malloc}.

Definition unixfs_blank : UnixFS := mkUnixFS UNIXFS_RAW 0 None 0 [] None 0.

(** [None]: returned 0 *)
Definition ipfs_unixfs_new : option UnixFS :=
  if malloc_ok sizeof_UnixFS then Some unixfs_blank else None.

(** the position of the last node, [None] for NULL *)
Definition ipfs_unixfs_get_last_block_size (obj : UnixFS) : option nat :=
  match block_size_head obj with
  | [] => None
  | _ :: l => Some (length l)
  end.

(** [to_delete] is the position of the node in the list; a node that is not in
    the list has a position past its end.  When the node is the head
    ([previous == NULL]) the whole list is dropped. *)
Definition ipfs_unixfs_remove_blocksize (obj : UnixFS) (to_delete : nat) : UnixFS :=
  match block_size_head obj, to_delete with
  | [], _ => set_block_sizes [] obj
  | _ :: _, O => set_block_sizes [] obj
  | l, S _ => set_block_sizes (delete to_delete l) obj
  end.

(** the loop of [ipfs_unixfs_free] *)
Fixpoint unixfs_free_blocks (fuel : nat) (obj : UnixFS) : res UnixFS :=
  match fuel with
  | O => NoFuel
  | S fuel =>
    match ipfs_unixfs_get_last_block_size obj with
    | None => Ret obj
    | Some i => unixfs_free_blocks fuel (ipfs_unixfs_remove_blocksize obj i)
    end
  end.

(** returned value and the object afterwards; the hash function is mbedtls's *)
Definition ipfs_unixfs_add_data (sha256 : bytes -> bytes) (data : bytes) (data_length : Z)
    (o : UnixFS) : res (Z * UnixFS) :=
  if malloc_ok data_length then
    let! d := memrd data data_length in
    if malloc_ok 32 then
      Ret (1, mkUnixFS (data_type o) data_length (Some d) (file_size o) (block_size_head o)
                (Some (sha256 d)) 32)
    else
      (* the freed [bytes] pointer stays in the object *)
      Ret (0, mkUnixFS (data_type o) data_length (Some []) (file_size o) (block_size_head o)
                None 32)
  else
    Ret (0, mkUnixFS (data_type o) data_length None (file_size o) (block_size_head o)
              (hash o) (hash_length o)).

Definition ipfs_unixfs_add_blocksize (block_size : Z) (o : UnixFS) : Z * UnixFS :=
  if malloc_ok sizeof_UnixFSBlockSizeNode
  then (1, set_block_sizes (block_size_head o ++ [block_size]) o)
  else (0, o).

Definition ipfs_unixfs_protobuf_encode_size (obj : UnixFS) : Z :=
  foldl (fun sz _ => u64 (sz + 11))
    (u64 (u64 (u64 (0 + (bytes_size obj + 11)) + 2) + 11)) (block_size_head obj).

Definition ipfs_unixfs_protobuf_encode (incoming : option UnixFS) (outgoing : bytes)
    (max_buffer_size : Z) : encoded :=
  match incoming with
  | None => Ret ((1, 0), outgoing)
  | Some o =>
    let max := max_buffer_size in
    (put_field (protobuf_encode_varint 1 WIRETYPE_VARINT (data_type o)) max
    ((if 0 <? bytes_size o then
        put_field (protobuf_encode_length_delimited 2 WIRETYPE_LENGTH_DELIMITED
                     (deref (ubytes o)) (bytes_size o)) max else id)
    ((if 0 <? file_size o then
        put_field (protobuf_encode_varint 3 WIRETYPE_VARINT (file_size o)) max else id)
    (put_each_unchecked (fun bs => protobuf_encode_varint 4 WIRETYPE_VARINT bs) max
       (block_size_head o)
    put_done)))) 0 outgoing
  end.

Definition unixfs_handler : handler UnixFS := fun field_no p rem result =>
  if field_no =? 1 then
    let! (v, n) := varint_decode p (s32 rem) in Ret (Some (set_data_type (u32 v) result, n))
  else if field_no =? 2 then
    let! r := protobuf_decode_length_delimited p rem in
    match r with
    | None => Ret None
    | Some (b, n) => Ret (Some (set_ubytes b result, n))
    end
  else if field_no =? 3 then
    let! (v, n) := varint_decode p (s32 rem) in Ret (Some (set_file_size v result, n))
  else if field_no =? 4 then
    let! (v, n) := varint_decode p (s32 rem) in
    let (_, result) := ipfs_unixfs_add_blocksize v result in Ret (Some (result, n))
  else Ret (Some (result, 0)).

(** [None]: returned 0 *)
Definition ipfs_unixfs_protobuf_decode (incoming : bytes) (incoming_size : Z)
  : res (option UnixFS) :=
  if incoming_size =? 0 then Ret None
  else
    match ipfs_unixfs_new with
    | None => Ret None
    | Some o => decode_fields (decode_fuel incoming_size) unixfs_handler incoming incoming_size 0 o
    end.
End unixfs.

(** ** Reference form *)
Definition unixfs_wire (o : UnixFS) : bytes :=
  varint_field 1 (data_type o) ++
  (if 0 <? bytes_size o then bytes_field 2 (deref (ubytes o)) else []) ++
  (if 0 <? file_size o then varint_field 3 (file_size o) else []) ++
  concat (varint_field 4 <$> block_size_head o).

(** the invariant of the struct: sizes agree, scalars fit their C types *)
Definition unixfs_ok (o : UnixFS) : Prop :=
  0 <= data_type o <= UNIXFS_SYMLINK /\
  bytes_size o = zlen (deref (ubytes o)) /\
  0 <= file_size o < 2 ^ 64 /\
  Forall (fun b => 0 <= b < 2 ^ 64) (block_size_head o).

(** what the format keeps: no hash, and no difference between NULL and empty bytes *)
Definition unixfs_saved (o : UnixFS) : UnixFS :=
  mkUnixFS (data_type o) (bytes_size o)
    (if 0 <? bytes_size o then ubytes o else None)
    (file_size o) (block_size_head o) None 0.

Section proofs.
Context {M : Malloc}.

Lemma concat_length_le {A} (g : A -> bytes) c l :
  (forall x, zlen (g x) <= c) -> zlen (concat (g <$> l)) <= c * zlen l.
Proof.
  intros Hg. induction l as [|x l IH]; [simpl; zlia|].
  rewrite fmap_cons. cbn [concat]. rewrite zlen_app, zlen_cons. specialize (Hg x). lia.
Qed.

Lemma encode_size_eq o :
  0 <= bytes_size o -> bytes_size o + 24 + 11 * zlen (block_size_head o) <= INT_MAX ->
  ipfs_unixfs_protobuf_encode_size o = bytes_size o + 24 + 11 * zlen (block_size_head o).
Proof.
  intros Hb Hs. unfold ipfs_unixfs_protobuf_encode_size, INT_MAX in *.
  zlen_facts. rewrite (u64_small (0 + _)), (u64_small (_ + 2)), (u64_small (_ + 11)) by lia.
  replace (bytes_size o + 24) with (0 + (bytes_size o + 11) + 2 + 11) in * by lia.
  assert (0 <= 0 + (bytes_size o + 11) + 2 + 11) as Hp by lia. revert Hs Hp.
  generalize (0 + (bytes_size o + 11) + 2 + 11).
  induction (block_size_head o) as [|x l IH]; intros z Hs Hp; simpl; [zlia|].
  rewrite zlen_cons in *. zlen_facts. rewrite u64_small, IH by lia. lia.
Qed.

Lemma unixfs_wire_length o : unixfs_ok o ->
  zlen (unixfs_wire o) <= bytes_size o + 24 + 11 * zlen (block_size_head o).
Proof.
  intros (Ht & Hb & Hf & Hl). unfold unixfs_wire, UNIXFS_SYMLINK in *. rewrite !zlen_app.
  pose proof (concat_length_le (varint_field 4) 11 (block_size_head o)
    ltac:(intros; apply varint_field_le; lia)).
  assert (zlen (varint_field 1 (data_type o)) = 2) as ->.
  { unfold varint_field. rewrite zlen_app, wire_key_length by auto with wire lia.
    by rewrite varint_bytes_small by lia. }
  assert (zlen (if 0 <? bytes_size o then bytes_field 2 (deref (ubytes o)) else [])
          <= 11 + bytes_size o).
  { zlen_facts. destruct (0 <? bytes_size o).
    - rewrite Hb. apply bytes_field_le. lia.
    - rewrite zlen_nil. lia. }
  assert (zlen (if 0 <? file_size o then varint_field 3 (file_size o) else []) <= 11).
  { destruct (0 <? file_size o); [apply varint_field_le; lia|rewrite zlen_nil; lia]. }
  lia.
Qed.

Lemma unixfs_encode_emits o : unixfs_ok o ->
  emits (ipfs_unixfs_protobuf_encode (Some o)) (unixfs_wire o).
Proof.
  intros (Ht & Hb & Hf & Hl).
  apply (emits_continues (fun max => _)). intros max. unfold unixfs_wire, UNIXFS_SYMLINK in *.
  apply continues_put; [auto with wire lia|].
  apply continues_if; [auto with wire|].
  apply continues_if; [auto with wire lia|].
  rewrite <- (app_nil_r (concat _)).
  apply continues_each_unchecked; [|apply continues_done].
  eapply Forall_impl; [exact Hl|]. simpl. auto with wire.
Qed.

(** *** Decoding *)
Definition add_block (st : UnixFS) (b : Z) : UnixFS :=
  set_block_sizes (block_size_head st ++ [b]) st.

Lemma fold_add_block l st :
  fold_left add_block l st = set_block_sizes (block_size_head st ++ l) st.
Proof.
  revert st. induction l as [|b l IH]; intros st; simpl.
  - rewrite app_nil_r. by destruct st.
  - rewrite IH. unfold add_block. simpl. by rewrite <- app_assoc.
Qed.

Context {Hm : MallocOk M}.

Lemma unixfs_handles_type v st : 0 <= v < 2 ^ 64 ->
  handles unixfs_handler 1 (varint_bytes v) st (set_data_type (u32 v) st).
Proof. intros Hv rest rem Hr. unfold unixfs_handler. zbool. by rewrite decode_varint_payload by lia. Qed.

Lemma unixfs_handles_bytes b st :
  handles unixfs_handler 2 (varint_bytes (zlen b) ++ b) st (set_ubytes b st).
Proof. intros rest rem Hr. unfold unixfs_handler. zbool. by rewrite decode_bytes_payload by auto. Qed.

Lemma unixfs_handles_file_size v st : 0 <= v < 2 ^ 64 ->
  handles unixfs_handler 3 (varint_bytes v) st (set_file_size v st).
Proof. intros Hv rest rem Hr. unfold unixfs_handler. zbool. by rewrite decode_varint_payload by lia. Qed.

Lemma unixfs_handles_block v st : 0 <= v < 2 ^ 64 ->
  handles unixfs_handler 4 (varint_bytes v) st (add_block st v).
Proof.
  intros Hv rest rem Hr. unfold unixfs_handler. zbool. rewrite decode_varint_payload by lia.
  cbn [rbind]. unfold ipfs_unixfs_add_blocksize. by rewrite malloc_always.
Qed.

Lemma unixfs_parses o : unixfs_ok o ->
  parses unixfs_handler (unixfs_wire o) unixfs_blank (unixfs_saved o).
Proof.
  intros (Ht & Hb & Hf & Hl). unfold unixfs_wire, unixfs_saved, UNIXFS_SYMLINK in *.
  eapply parses_app; [apply parses_varint, unixfs_handles_type; auto with wire lia|].
  rewrite u32_small by lia.
  eapply parses_app; [apply (parses_if _ _ _ _ (mkUnixFS (data_type o) (bytes_size o)
    (if 0 <? bytes_size o then ubytes o else None) 0 [] None 0))|].
  - intros Hc. rewrite Hc. destruct (ubytes o) as [b|] eqn:Eb;
      [|change (zlen (deref None)) with 0 in Hb; apply Z.ltb_lt in Hc; lia].
    rewrite Hb. apply parses_bytes, unixfs_handles_bytes. auto with wire.
  - intros Hc. rewrite Hc. apply Z.ltb_ge in Hc. zlen_facts. by replace (bytes_size o) with 0 by lia.
  - eapply parses_app; [apply (parses_if _ _ _ _ (mkUnixFS (data_type o) (bytes_size o)
      (if 0 <? bytes_size o then ubytes o else None) (file_size o) [] None 0))|].
    + intros Hc. apply parses_varint, unixfs_handles_file_size; auto with wire.
    + intros Hc. apply Z.ltb_ge in Hc. by replace (file_size o) with 0 by lia.
    + replace (mkUnixFS _ _ _ _ (block_size_head o) _ _) with
        (fold_left add_block (block_size_head o) (mkUnixFS (data_type o) (bytes_size o)
          (if 0 <? bytes_size o then ubytes o else None) (file_size o) [] None 0))
        by (by rewrite fold_add_block).
      apply parses_each. intros v st Hv. rewrite Forall_forall in Hl.
      apply parses_varint, unixfs_handles_block; auto with wire.
Qed.

Lemma unixfs_handler_forward : forward unixfs_handler.
Proof.
  intros f p rem st Hp. unfold unixfs_handler.
  destruct (f =? 1); [apply advances_varint|].
  destruct (f =? 2).
  { pose proof (advances_bytes p rem Hp) as Ha. revert Ha.
    by destruct (protobuf_decode_length_delimited p rem) as [[[b n]|]| | |]. }
  destruct (f =? 3); [apply advances_varint|].
  destruct (f =? 4); [|simpl; zlen_facts; lia].
  unfold ipfs_unixfs_add_blocksize. rewrite malloc_always. apply advances_varint.
Qed.
Lemma unixfs_wire_pos o : 0 < zlen (unixfs_wire o).
Proof.
  unfold unixfs_wire, varint_field. rewrite !zlen_app. pose proof (wire_key_pos 1 WIRETYPE_VARINT).
  zlen_facts. lia.
Qed.

(** the invariant together with the limit on the size of the encoding *)
Definition unixfs_fits (o : UnixFS) : Prop :=
  unixfs_ok o /\ bytes_size o + 24 + 11 * zlen (block_size_head o) <= INT_MAX.

Lemma unixfs_size_ok o : unixfs_fits o ->
  zlen (unixfs_wire o) <= ipfs_unixfs_protobuf_encode_size o <= INT_MAX.
Proof.
  intros [Hok Hsz]. pose proof (unixfs_wire_length o Hok). pose proof Hok as (_ & Hb & _).
  zlen_facts. rewrite encode_size_eq by lia. lia.
Qed.

Lemma unixfs_decode_wire o post : unixfs_fits o ->
  ipfs_unixfs_protobuf_decode (unixfs_wire o ++ post) (zlen (unixfs_wire o)) =
    Ret (Some (unixfs_saved o)).
Proof.
  intros Hf. pose proof (unixfs_wire_pos o). pose proof (unixfs_size_ok o Hf).
  unfold ipfs_unixfs_protobuf_decode, ipfs_unixfs_new. zbool. rewrite malloc_always.
  apply parses_decode; [apply unixfs_parses, Hf|lia].
Qed.
End proofs.

#[export] Instance unixfs_codec {M : Malloc} : Codec UnixFS := {
  codec_encode o := ipfs_unixfs_protobuf_encode (Some o);
  codec_size := ipfs_unixfs_protobuf_encode_size;
  codec_decode := ipfs_unixfs_protobuf_decode
}.
#[export] Instance unixfs_codec_laws {M : Malloc} {Hm : MallocOk M} : CodecLaws unixfs_codec := {
  codec_wire := unixfs_wire;
  codec_valid := unixfs_fits;
  codec_saved := unixfs_saved;
  codec_emits o Ho := unixfs_encode_emits o (proj1 Ho);
  codec_size_ok := unixfs_size_ok;
  codec_decode_wire := unixfs_decode_wire
}.


(** ** Properties *)

(** A well-formed UnixFS object encoded into a buffer of
    [ipfs_unixfs_protobuf_encode_size] bytes always succeeds inside the buffer,
    and decoding the bytes written gives the object back (up to the hash, which
    the format does not carry). *)
Lemma unixfs_encode_decode {M : Malloc} {Hm : MallocOk M} (o : UnixFS) (buf : bytes) :
  unixfs_fits o -> zlen buf = ipfs_unixfs_protobuf_encode_size o ->
  exists n buf', ipfs_unixfs_protobuf_encode (Some o) buf (zlen buf) = Ret ((1, n), buf') /\
    n <= zlen buf' /\ zlen buf' = zlen buf /\
    ipfs_unixfs_protobuf_decode buf' n = Ret (Some (unixfs_saved o)).
Proof. exact (codec_roundtrip o buf). Qed.

(** the object the importer builds for a two-block file *)
Definition sample_unixfs : UnixFS :=
  mkUnixFS UNIXFS_FILE 3 (Some [104; 105; 10]) 524291 [262144; 262144] (Some [1; 2]) 2.

Lemma sample_unixfs_fits : unixfs_fits sample_unixfs.
Proof.
  unfold unixfs_fits, unixfs_ok, UNIXFS_SYMLINK, INT_MAX. cbn -[zlen Z.pow].
  split_and!; first [unfold UNIXFS_FILE; lia | reflexivity | forall_tac lia | vm_compute; discriminate].
Qed.

(** Decoding UnixFS bytes terminates on every input: the loop
    always moves forward, so [buffer_length] turns (plus the exit test) are
    enough whatever the bytes say. *)
Lemma unixfs_decode_terminates {M : Malloc} {Hm : MallocOk M} (buf : bytes) (n : Z) :
  zlen buf < 2 ^ 63 -> ipfs_unixfs_protobuf_decode buf n <> NoFuel.
Proof.
  intros Hb. unfold ipfs_unixfs_protobuf_decode. destruct (n =? 0); [done|].
  destruct ipfs_unixfs_new; [|done].
  by apply decode_fields_terminates; [apply unixfs_handler_forward|].
Qed.
