(* ===== verification/Cid.v ===== *)
(** * Content identifiers (libipfs/cid/cid.c)

    [struct Cid], its constructors, its protobuf codec, the order
    [ipfs_cid_compare] and the multibase cast. *)
From S2P Require Import Prelude Varint Protobuf Multihash.

Definition CID_RAW : Z := 85.
Definition CID_DAG_PROTOBUF : Z := 112.
Definition CID_ETHEREUM_BLOCK : Z := 144.

(** [struct Cid]; [hash] is a pointer to [hash_length] bytes, or NULL *)
Record Cid := mkCid {
  cid_version : Z;
  cid_codec : Z;
  cid_hash : option bytes;
  cid_hash_length : Z
}.

#[export] Instance Cid_eq_dec : EqDecision Cid.
Proof. solve_decision. Defined.

Definition sizeof_Cid : Z := 24.

Section cid.
Context `{Malloc}.

(** result NULL is [None]; [codec] is a [char] *)
Definition ipfs_cid_new (version : Z) (hash : option bytes) (hash_length codec : Z)
  : res (option Cid) :=
  if malloc_ok sizeof_Cid then
    if hash_length =? 0 then Ret (Some (mkCid version codec None hash_length))
    else
      match hash with
      | None => Ret (Some (mkCid version codec None hash_length))
      | Some p =>
        if malloc_ok hash_length then
          let! h := memrd p hash_length in
          Ret (Some (mkCid version codec (Some h) hash_length))
        else Ret None
      end
  else Ret None.

Definition ipfs_cid_copy (original : Cid) : res (option Cid) :=
  if malloc_ok sizeof_Cid then
    if malloc_ok (cid_hash_length original) then
      let! h := memrd (deref (cid_hash original)) (cid_hash_length original) in
      Ret (Some (mkCid (cid_version original) (cid_codec original) (Some h)
                   (cid_hash_length original)))
    else Ret None
  else Ret None.

Definition ipfs_cid_protobuf_encode_size (cid : option Cid) : Z :=
  match cid with
  | Some c => u64 (11 + 12 + cid_hash_length c + 11)
  | None => 0
  end.

Definition ipfs_cid_protobuf_encode (cid : option Cid) (buffer : bytes) (buffer_length : Z)
  : encoded :=
  match cid with
  | None => Ret ((1, 0), buffer)
  | Some c =>
    let max := buffer_length in
    (put_field (protobuf_encode_varint 1 WIRETYPE_VARINT (u64 (cid_version c))) max
    (put_field (protobuf_encode_varint 2 WIRETYPE_VARINT (u64 (cid_codec c))) max
    (put_field (protobuf_encode_length_delimited 3 WIRETYPE_LENGTH_DELIMITED
                  (deref (cid_hash c)) (cid_hash_length c)) max
    put_done))) 0 buffer
  end.

(** the locals of [ipfs_cid_protobuf_decode]: [hash] and [hash_length] are not
    initialised before the loop *)
Record cid_locals := mkCidLocals {
  l_version : Z;
  l_hash : option bytes;
  l_codec : Z
}.

Definition cid_handler : handler cid_locals := fun field_no p rem l =>
  if field_no =? 1 then
    let! (v, n) := varint_decode p (s32 rem) in
    Ret (Some (mkCidLocals (s32 v) (l_hash l) (l_codec l), n))
  else if field_no =? 2 then
    let! (v, n) := varint_decode p (s32 rem) in
    Ret (Some (mkCidLocals (l_version l) (l_hash l) (s8 v), n))
  else if field_no =? 3 then
    let! r := protobuf_decode_length_delimited p rem in
    match r with
    | None => Ret None
    | Some (b, n) => Ret (Some (mkCidLocals (l_version l) (Some b) (l_codec l), n))
    end
  else Ret (Some (l, 0)).

(** [None]: returned 0; [Some o]: returned 1 with [*output = o].  Using [hash]
    when no field 3 was seen reads an uninitialised pointer. *)
Definition ipfs_cid_protobuf_decode (buffer : bytes) (buffer_length : Z)
  : res (option (option Cid)) :=
  if buffer_length =? 0 then Ret (Some None)
  else
    let! r := decode_fields (decode_fuel buffer_length) cid_handler buffer buffer_length 0
                (mkCidLocals 0 None 0) in
    match r with
    | None => Ret None
    | Some l =>
      match l_hash l with
      | None => UB
      | Some h =>
        let! output := ipfs_cid_new (l_version l) (Some h) (zlen h) (l_codec l) in
        match output with
        | None => Ret None
        | Some c => Ret (Some (Some c))
        end
      end
    end.
End cid.

(** the [for] loop of [ipfs_cid_compare] over [i < a->hash_length] *)
Fixpoint cid_compare_bytes (n : nat) (a b : bytes) (i : Z) : res Z :=
  match n with
  | O => Ret 0
  | S n =>
    let! x := rd a i in
    let! y := rd b i in
    if negb (x =? y) then Ret (y - x) else cid_compare_bytes n a b (i + 1)
  end.

Definition ipfs_cid_compare (a b : option Cid) : res Z :=
  match a, b with
  | None, None => Ret 0
  | Some _, None => Ret (-1)
  | None, Some _ => Ret 1
  | Some a, Some b =>
    if negb (cid_version a =? cid_version b) then int_op (cid_version b - cid_version a)
    else if negb (cid_codec a =? cid_codec b) then int_op (cid_codec b - cid_codec a)
    else if negb (cid_hash_length a =? cid_hash_length b)
    then Ret (s32 (u64 (cid_hash_length b - cid_hash_length a)))
    else cid_compare_bytes (Z.to_nat (cid_hash_length a)) (deref (cid_hash a)) (deref (cid_hash b)) 0
  end.

(** The result and the structure that was filled; [hash] points into
    [incoming]. *)
Definition ipfs_cid_cast (incoming : bytes) (incoming_size : Z) (cid : Cid) : res (Z * Cid) :=
  let! is_multihash :=
    if incoming_size =? 34 then
      let! b0 := rd incoming 0 in
      if b0 =? 18 then let! b1 := rd incoming 1 in Ret (b1 =? 32) else Ret false
    else Ret false in
  if is_multihash then
    let! len := mh_multihash_length incoming incoming_size in
    let! d := mh_multihash_digest incoming incoming_size in
    match d with
    | inl _ => Ret (1, mkCid 0 CID_DAG_PROTOBUF (cid_hash cid) (u64 len))
    | inr (digest, n) => Ret (1, mkCid 0 CID_DAG_PROTOBUF (Some digest) n)
    end
  else
    let! (v, num_bytes) := varint_decode incoming (s32 incoming_size) in
    let version := s32 v in
    if (num_bytes =? 0) || (1 <? version) || (version <? 0)
    then Ret (0, mkCid version (cid_codec cid) (cid_hash cid) (cid_hash_length cid))
    else
      let pos := s32 num_bytes in
      let! p := padd incoming pos in
      let! (c, num_bytes) := varint_decode p (s32 (u64 (incoming_size - pos))) in
      if num_bytes =? 0 then Ret (0, mkCid version (cid_codec cid) (cid_hash cid) (cid_hash_length cid))
      else
        let pos := s32 (u64 (pos + num_bytes)) in
        let! h := padd incoming pos in
        Ret (1, mkCid version (s32 (u32 c)) (Some h) (u64 (incoming_size - pos))).

(** ** Validity and equivalence *)
Definition cid_ok (c : Cid) : Prop :=
  - 2 ^ 30 <= cid_version c < 2 ^ 30 /\ - 2 ^ 30 <= cid_codec c < 2 ^ 30 /\
  cid_hash_length c = zlen (deref (cid_hash c)) /\ is_bytes (deref (cid_hash c)) /\
  cid_hash_length c + 34 <= INT_MAX.

(** Two structs denote the same identifier: NULL and an empty hash are not told
    apart. *)
Definition cid_equiv (a b : Cid) : Prop :=
  cid_version a = cid_version b /\ cid_codec a = cid_codec b /\
  cid_hash_length a = cid_hash_length b /\ deref (cid_hash a) = deref (cid_hash b).

#[export] Instance cid_equiv_equivalence : Equivalence cid_equiv.
Proof.
  split.
  - intros a. by repeat split.
  - intros a b (? & ? & ? & ?). by repeat split.
  - intros a b c (? & ? & ? & ?) (? & ? & ? & ?). repeat split; congruence.
Qed.

#[export] Instance ipfs_cid_compare_proper :
  Proper (cid_equiv ==> cid_equiv ==> eq) (fun a b => ipfs_cid_compare (Some a) (Some b)).
Proof.
  intros a a' (Ha1 & Ha2 & Ha3 & Ha4) b b' (Hb1 & Hb2 & Hb3 & Hb4). simpl.
  by rewrite Ha1, Ha2, Ha3, Ha4, Hb1, Hb2, Hb3, Hb4.
Qed.

#[export] Instance cid_ok_proper : Proper (cid_equiv ==> iff) cid_ok.
Proof.
  intros a a' (Ha1 & Ha2 & Ha3 & Ha4). unfold cid_ok. by rewrite Ha1, Ha2, Ha3, Ha4.
Qed.

(** the fields in the order in which they are compared *)
Definition cid_key (c : Cid) : list Z :=
  cid_version c :: cid_codec c :: cid_hash_length c :: deref (cid_hash c).

Lemma cid_key_equiv a b : cid_key a = cid_key b <-> cid_equiv a b.
Proof. unfold cid_key, cid_equiv. split; [intros [= ]|intros (-> & -> & -> & ->)]; done. Qed.

Lemma cid_compare_bytes_spec pre a b :
  length a = length b -> is_bytes a -> is_bytes b ->
  exists r, cid_compare_bytes (length a) (pre ++ a) (pre ++ b) (zlen pre) = Ret r /\
    (r ?= 0) = lex b a.
Proof.
  revert pre b. induction a as [|x a IH]; intros pre [|y b] Hl Ha Hb; try done.
  - by exists 0.
  - inversion_clear Ha. inversion_clear Hb. simpl. rewrite !rd_app_mid. cbn [rbind].
    destruct (Z.eqb_spec x y) as [->|Hxy]; simpl.
    + destruct (IH (pre ++ [y]) b) as (r & Hr & Hc); [simpl in Hl; lia|done|done|].
      exists r. rewrite Z.compare_refl. split; [|done].
      rewrite <- Hr, <- !app_assoc, zlen_app. done.
    + exists (y - x). split; [done|].
      destruct (Z.compare_spec y x); [lia| |]; [apply Z.compare_lt_iff|apply Z.compare_gt_iff]; lia.
Qed.

Lemma int_op_sign x y : - 2 ^ 30 <= x < 2 ^ 30 -> - 2 ^ 30 <= y < 2 ^ 30 ->
  exists r, int_op (y - x) = Ret r /\ (r ?= 0) = (y ?= x).
Proof.
  intros. exists (y - x). split; [apply int_op_small; lia|].
  by rewrite (Z.compare_sub y x).
Qed.

Lemma cid_compare_lex a b : cid_ok a -> cid_ok b ->
  exists r, ipfs_cid_compare (Some a) (Some b) = Ret r /\
    (r ?= 0) = lex (cid_key b) (cid_key a).
Proof.
  intros (Hva & Hca & Hla & Hba & Hsa) (Hvb & Hcb & Hlb & Hbb & Hsb). unfold cid_key. simpl.
  destruct (Z.eqb_spec (cid_version a) (cid_version b)) as [->|Hv]; simpl.
  2:{ destruct (int_op_sign (cid_version a) (cid_version b)) as (r & -> & Hr); [done..|].
      exists r. split; [done|]. rewrite Hr. destruct (Z.compare_spec (cid_version b) (cid_version a)); done || lia. }
  rewrite Z.compare_refl.
  destruct (Z.eqb_spec (cid_codec a) (cid_codec b)) as [->|Hc]; simpl.
  2:{ destruct (int_op_sign (cid_codec a) (cid_codec b)) as (r & -> & Hr); [done..|].
      exists r. split; [done|]. rewrite Hr. destruct (Z.compare_spec (cid_codec b) (cid_codec a)); done || lia. }
  rewrite Z.compare_refl.
  destruct (Z.eqb_spec (cid_hash_length a) (cid_hash_length b)) as [Hl|Hl]; simpl.
  - rewrite Hl, Z.compare_refl.
    destruct (cid_compare_bytes_spec [] (deref (cid_hash a)) (deref (cid_hash b))) as (r & Hr & Hc);
      [unfold zlen in *; lia|done|done|].
    exists r. split; [|done]. rewrite <- Hr, <- Hl, Hla. unfold zlen at 1. by rewrite Nat2Z.id.
  - eexists. split; [done|]. rewrite s32_u64. zlen_facts. unfold INT_MAX in *.
    rewrite s32_small by lia. rewrite (Z.compare_sub (cid_hash_length b)).
    destruct (_ ?= 0) eqn:E; try done. apply Z.compare_eq in E. lia.
Qed.

(** CID pointers that the comparison calls equal *)
Definition cid_match (a b : option Cid) : Prop :=
  match a, b with
  | None, None => True
  | Some a, Some b => cid_equiv a b
  | _, _ => False
  end.
#[export] Instance cid_match_dec a b : Decision (cid_match a b).
Proof.
  refine (match a, b with
          | None, None => left I
          | Some a, Some b => cast_if (decide (cid_key a = cid_key b))
          | _, _ => right (fun H => H)
          end); simpl; by rewrite <- cid_key_equiv.
Defined.

Lemma cid_compare_match a b : from_option cid_ok True a -> from_option cid_ok True b ->
  exists r, ipfs_cid_compare a b = Ret r /\ (r = 0 <-> cid_match a b).
Proof.
  destruct a as [a|], b as [b|]; simpl from_option; intros Ha Hb;
    [|exists (-1); split; [done|split; [done|intros []]]
     |exists 1; split; [done|split; [done|intros []]]|by exists 0].
  destruct (cid_compare_lex a b Ha Hb) as (r & Hr & Hc). exists r. split; [done|].
  rewrite <- Z.compare_eq_iff, Hc, lex_eq, cid_key_equiv. simpl. split; by symmetry.
Qed.

(** ** The codec *)
Definition cid_wire (c : Cid) : bytes :=
  varint_field 1 (u64 (cid_version c)) ++ varint_field 2 (u64 (cid_codec c)) ++
  bytes_field 3 (deref (cid_hash c)).

(** a NULL [struct Cid*] is encoded as nothing *)
Definition cid_wire_opt (c : option Cid) : bytes :=
  match c with Some c => cid_wire c | None => [] end.

(** what decoding gives back: the codec has passed through a [char] *)
Definition cid_saved (c : Cid) : Cid :=
  mkCid (cid_version c) (s8 (cid_codec c))
    (if cid_hash_length c =? 0 then None else cid_hash c) (cid_hash_length c).

Section proofs.
Context {M : Malloc}.

Lemma cid_copy_ok {Hm : MallocOk M} c : 0 <= cid_hash_length c -> zlen (deref (cid_hash c)) = cid_hash_length c ->
  cid_hash c <> None -> ipfs_cid_copy c = Ret (Some c).
Proof.
  intros Hl Hz Hn. unfold ipfs_cid_copy. rewrite !malloc_always, memrd_all by done. cbn [rbind].
  destruct c as [v k [h|] n]; done.
Qed.

Lemma cid_encode_emits c : cid_ok c -> emits (ipfs_cid_protobuf_encode (Some c)) (cid_wire c).
Proof.
  intros (_ & _ & Hl & _). apply (emits_continues (fun max => _)). intros max. unfold cid_wire.
  pose proof (u64_range (cid_version c)). pose proof (u64_range (cid_codec c)).
  rewrite <- (app_nil_r (bytes_field 3 _)).
  auto 10 with wire.
Qed.

Lemma cid_wire_length c : cid_ok c -> zlen (cid_wire c) <= ipfs_cid_protobuf_encode_size (Some c).
Proof.
  intros (_ & _ & Hl & _ & Hs). unfold cid_wire, ipfs_cid_protobuf_encode_size. rewrite !zlen_app.
  pose proof (varint_field_le 1 (u64 (cid_version c)) ltac:(lia)).
  pose proof (varint_field_le 2 (u64 (cid_codec c)) ltac:(lia)).
  pose proof (bytes_field_le 3 (deref (cid_hash c)) ltac:(lia)).
  zlen_facts. unfold INT_MAX in *. rewrite (u64_small (_ + 11)) by lia. lia.
Qed.

Lemma cid_encode_size_le c : cid_ok c ->
  0 <= ipfs_cid_protobuf_encode_size (Some c) <= INT_MAX.
Proof.
  intros (_ & _ & Hl & _ & Hs). zlen_facts. unfold ipfs_cid_protobuf_encode_size, INT_MAX in *.
  rewrite u64_small by lia. lia.
Qed.

Context {Hm : MallocOk M}.

Lemma cid_handles_version v st : 0 <= v < 2 ^ 64 ->
  handles cid_handler 1 (varint_bytes v) st (mkCidLocals (s32 v) (l_hash st) (l_codec st)).
Proof. intros Hv rest rem Hr. unfold cid_handler. zbool. by rewrite decode_varint_payload by lia. Qed.

Lemma cid_handles_codec v st : 0 <= v < 2 ^ 64 ->
  handles cid_handler 2 (varint_bytes v) st (mkCidLocals (l_version st) (l_hash st) (s8 v)).
Proof. intros Hv rest rem Hr. unfold cid_handler. zbool. by rewrite decode_varint_payload by lia. Qed.

Lemma cid_handles_hash b st :
  handles cid_handler 3 (varint_bytes (zlen b) ++ b) st
    (mkCidLocals (l_version st) (Some b) (l_codec st)).
Proof. intros rest rem Hr. unfold cid_handler. zbool. by rewrite decode_bytes_payload by auto. Qed.

Lemma cid_parses c : cid_ok c ->
  parses cid_handler (cid_wire c) (mkCidLocals 0 None 0)
    (mkCidLocals (cid_version c) (Some (deref (cid_hash c))) (s8 (cid_codec c))).
Proof.
  intros (Hv & Hc & _). unfold cid_wire.
  eapply parses_app; [apply parses_varint, cid_handles_version; auto using u64_range with wire|].
  eapply parses_app; [apply parses_varint, cid_handles_codec; auto using u64_range with wire|].
  rewrite s32_u64, s8_u64, s32_small by lia. apply parses_bytes, cid_handles_hash. auto with wire.
Qed.

Lemma cid_wire_pos c : 0 < zlen (cid_wire c).
Proof.
  unfold cid_wire, varint_field. rewrite !zlen_app.
  pose proof (wire_key_pos 1 WIRETYPE_VARINT). zlen_facts. lia.
Qed.

(** decoding the identifier at the front of a buffer *)
Lemma cid_decode_wire c post : cid_ok c ->
  ipfs_cid_protobuf_decode (cid_wire c ++ post) (zlen (cid_wire c)) = Ret (Some (Some (cid_saved c))).
Proof.
  intros Hok. pose proof (cid_wire_pos c). pose proof (cid_wire_length c Hok).
  pose proof (cid_encode_size_le c Hok). unfold ipfs_cid_protobuf_decode. zbool.
  erewrite parses_decode; [|by apply cid_parses|lia]. cbn [rbind l_hash l_version l_codec].
  destruct Hok as (_ & _ & Hl & _). unfold ipfs_cid_new, cid_saved. rewrite !malloc_always, <- Hl.
  destruct (cid_hash_length c =? 0) eqn:E0; [done|].
  rewrite memrd_all by done. cbn [rbind].
  destruct (cid_hash c) eqn:Eh; [done|]. simpl in Hl. apply Z.eqb_neq in E0. done.
Qed.

Lemma cid_decode_wire_opt c post : from_option cid_ok True c ->
  ipfs_cid_protobuf_decode (cid_wire_opt c ++ post) (zlen (cid_wire_opt c)) =
    Ret (Some (cid_saved <$> c)).
Proof. destruct c; [apply cid_decode_wire|done]. Qed.

Lemma cid_handler_forward : forward cid_handler.
Proof.
  intros f p rem st Hp. unfold cid_handler.
  destruct (f =? 1); [apply advances_varint|].
  destruct (f =? 2); [apply advances_varint|].
  destruct (f =? 3); [|simpl; zlen_facts; lia].
  pose proof (advances_bytes p rem Hp) as Ha. revert Ha.
  by destruct (protobuf_decode_length_delimited p rem) as [[[b n]|]| | |].
Qed.

Lemma cid_new_total version h len codec : ipfs_cid_new version h len codec <> NoFuel.
Proof.
  unfold ipfs_cid_new. repeat case_match; try done.
  pose proof (memrd_fuel l len). by destruct (memrd l len).
Qed.

Lemma cid_decode_total buf n : zlen buf < 2 ^ 63 -> ipfs_cid_protobuf_decode buf n <> NoFuel.
Proof.
  intros Hb. unfold ipfs_cid_protobuf_decode. destruct (n =? 0); [done|].
  pose proof (decode_fields_terminates cid_handler buf n (mkCidLocals 0 None 0)
    cid_handler_forward Hb) as Ht. revert Ht.
  destruct (decode_fields _ _ _ _ _ _) as [[l|]| | |]; cbn [rbind]; try done. intros _.
  destruct (l_hash l) as [h|]; [|done].
  pose proof (cid_new_total (l_version l) (Some h) (zlen h) (l_codec l)) as Ht. revert Ht.
  by destruct (ipfs_cid_new _ _ _ _) as [[c|]| | |].
Qed.
End proofs.

#[export] Instance cid_opt_codec {M : Malloc} : Codec (option Cid) := {
  codec_encode := ipfs_cid_protobuf_encode;
  codec_size := ipfs_cid_protobuf_encode_size;
  codec_decode := ipfs_cid_protobuf_decode
}.

Lemma cid_opt_emits c : from_option cid_ok True c ->
  emits (ipfs_cid_protobuf_encode c) (cid_wire_opt c).
Proof. destruct c; [apply cid_encode_emits|]. intros _ buf max H1 H2 H3. done. Qed.

Lemma cid_opt_size c : from_option cid_ok True c ->
  zlen (cid_wire_opt c) <= ipfs_cid_protobuf_encode_size c <= INT_MAX.
Proof.
  destruct c as [c|]; [|done]. simpl from_option. intros Hc.
  split; [by apply cid_wire_length|by apply cid_encode_size_le].
Qed.

#[export] Instance cid_opt_codec_laws {M : Malloc} {Hm : MallocOk M} : CodecLaws cid_opt_codec := {
  codec_wire := cid_wire_opt;
  codec_valid := from_option cid_ok True;
  codec_saved := fmap cid_saved;
  codec_emits := cid_opt_emits;
  codec_size_ok := cid_opt_size;
  codec_decode_wire := cid_decode_wire_opt
}.

Lemma cid_decode_opt_all {M : Malloc} {Hm : MallocOk M} c : from_option cid_ok True c ->
  ipfs_cid_protobuf_decode (cid_wire_opt c) (zlen (cid_wire_opt c)) = Ret (Some (cid_saved <$> c)).
Proof. exact (codec_decode_all c). Qed.

(** ** Properties *)

(** Property C12. A valid CID encoded into a buffer of
    [ipfs_cid_protobuf_encode_size] bytes succeeds inside the buffer, and
    decoding what was written gives the same version and hash, and the codec
    reduced to a signed 8-bit [char]. *)
Theorem cid_encode_decode {M : Malloc} {Hm : MallocOk M} (c : Cid) (buf : bytes) :
  cid_ok c -> zlen buf = ipfs_cid_protobuf_encode_size (Some c) ->
  exists n buf', ipfs_cid_protobuf_encode (Some c) buf (zlen buf) = Ret ((1, n), buf') /\
    n <= zlen buf' /\ zlen buf' = zlen buf /\
    ipfs_cid_protobuf_decode buf' n = Ret (Some (Some (cid_saved c))).
Proof. exact (codec_roundtrip (Some c) buf). Qed.

Definition sample_cid : Cid := mkCid 1 CID_ETHEREUM_BLOCK (Some [222; 173; 190; 239]) 4.

Lemma sample_cid_ok : cid_ok sample_cid.
Proof.
  unfold cid_ok, sample_cid, CID_ETHEREUM_BLOCK, INT_MAX. cbn -[zlen Z.pow].
  split_and!; first [lia | reflexivity | forall_tac ltac:(unfold byte_range; lia)].
Qed.

Lemma cid_encode_decode_witness :
  let M := malloc_total in
  exists n buf', ipfs_cid_protobuf_encode (Some sample_cid) (replicate 38%nat 0) 38 = Ret ((1, n), buf') /\
    n <= zlen buf' /\ zlen buf' = 38 /\
    ipfs_cid_protobuf_decode buf' n = Ret (Some (Some (cid_saved sample_cid))).
Proof.
  intros M. apply (cid_encode_decode sample_cid (replicate 38%nat 0)).
  - apply sample_cid_ok.
  - reflexivity.
Defined.

(** The codec survives an encode/decode round trip exactly when it
    fits a signed [char]: every multicodec of the header from
    [CID_ETHEREUM_BLOCK] (0x90) up is changed. *)
Lemma cid_codec_survives_iff {M : Malloc} {Hm : MallocOk M} (c : Cid) (post : bytes) :
  cid_ok c ->
  (exists c', ipfs_cid_protobuf_decode (cid_wire c ++ post) (zlen (cid_wire c)) = Ret (Some (Some c')) /\
     cid_codec c' = cid_codec c) <-> -128 <= cid_codec c < 128.
Proof.
  intros Hok. rewrite cid_decode_wire by done. split.
  - intros (c' & [= <-] & Hc). simpl in Hc. rewrite <- Hc. unfold s8.
    pose proof (Z.mod_pos_bound (cid_codec c + 2 ^ 7) (2 ^ 8) ltac:(lia)). lia.
  - intros Hc. eexists. split; [done|]. simpl. apply s8_small. lia.
Qed.

(** A CID message that carries no hash field makes the decoder use
    its [hash] pointer uninitialised, whatever version and codec it carries. *)
Lemma cid_decode_without_hash_undefined {M : Malloc} (version codec : Z) (post : bytes) :
  0 <= version < 2 ^ 64 -> 0 <= codec < 2 ^ 64 ->
  let msg := varint_field 1 version ++ varint_field 2 codec in
  ipfs_cid_protobuf_decode (msg ++ post) (zlen msg) = UB.
Proof.
  intros Hv Hc msg. unfold ipfs_cid_protobuf_decode.
  assert (0 < zlen msg <= 22) as Hl.
  { unfold msg. rewrite zlen_app. pose proof (varint_field_le 1 version ltac:(lia)).
    pose proof (varint_field_le 2 codec ltac:(lia)).
    pose proof (wire_key_pos 1 WIRETYPE_VARINT). unfold varint_field in *.
    rewrite !zlen_app in *. zlen_facts. lia. }
  zbool.
  rewrite (parses_decode cid_handler msg post _ (mkCidLocals (s32 version) None (s8 codec)));
    [done|unfold msg|unfold INT_MAX; lia].
  eapply parses_app; apply parses_varint.
  - auto with wire.
  - by apply cid_handles_version.
  - auto with wire.
  - by apply cid_handles_codec.
Qed.

(** On valid CIDs the comparison never overflows or reads out of
    bounds, and it is a total order up to [cid_equiv]: it returns 0 exactly for
    equal identifiers, swapping the arguments flips the sign, and it is
    transitive ("> 0 if side B is greater"). *)
Lemma cid_compare_total_order (a b c : Cid) :
  cid_ok a -> cid_ok b -> cid_ok c ->
  exists rab rba rbc rac,
    ipfs_cid_compare (Some a) (Some b) = Ret rab /\ ipfs_cid_compare (Some b) (Some a) = Ret rba /\
    ipfs_cid_compare (Some b) (Some c) = Ret rbc /\ ipfs_cid_compare (Some a) (Some c) = Ret rac /\
    (rab = 0 <-> cid_equiv a b) /\ Z.sgn rab = - Z.sgn rba /\
    (0 < rab -> 0 < rbc -> 0 < rac).
Proof.
  intros Ha Hb Hc.
  destruct (cid_compare_lex a b Ha Hb) as (rab & -> & Hab).
  destruct (cid_compare_lex b a Hb Ha) as (rba & -> & Hba).
  destruct (cid_compare_lex b c Hb Hc) as (rbc & -> & Hbc).
  destruct (cid_compare_lex a c Ha Hc) as (rac & -> & Hac).
  exists rab, rba, rbc, rac. do 4 (split; [done|]). split_and!.
  - rewrite <- Z.compare_eq_iff, Hab, lex_eq, cid_key_equiv. split; by symmetry.
  - rewrite lex_antisym in Hba. rewrite <- Hab in Hba.
    destruct (Z.compare_spec rab 0), (Z.compare_spec rba 0); try done; lia.
  - intros H1 H2. apply Z.compare_gt_iff in H1, H2. apply Z.compare_gt_iff.
    rewrite Hab in H1. rewrite Hbc in H2. rewrite Hac.
    rewrite lex_antisym in *. destruct (lex (cid_key a) (cid_key b)) eqn:E1; try done.
    destruct (lex (cid_key b) (cid_key c)) eqn:E2; try done.
    by rewrite (lex_lt_trans _ _ _ E1 E2).
Qed.

(** [ipfs_cid_cast] reads back both binary forms of a CID: a
    sha2-256 multihash is a version-0 CID with the protobuf codec, and
    [<version><codec><hash>] with version 0 or 1 gives these three; a larger
    version is refused. *)
Lemma cid_cast_spec (c0 : Cid) (digest h : bytes) (v codec : Z) :
  zlen digest = 32 -> is_bytes digest -> is_bytes h -> 0 <= v < 2 ^ 31 -> 0 <= codec < 2 ^ 31 ->
  v <> 18 ->
  let mh := multihash_bytes MH_H_SHA2_256 digest in
  let cid1 := varint_bytes v ++ varint_bytes codec ++ h in
  zlen cid1 <= INT_MAX ->
  ipfs_cid_cast mh (zlen mh) c0 = Ret (1, mkCid 0 CID_DAG_PROTOBUF (Some digest) 32) /\
  (v <= 1 -> ipfs_cid_cast cid1 (zlen cid1) c0 = Ret (1, mkCid v codec (Some h) (zlen h))) /\
  (1 < v < 128 -> exists c, ipfs_cid_cast cid1 (zlen cid1) c0 = Ret (0, c)).
Proof.
  intros Hd Hdb Hh Hv Hc Hv18 mh cid1 Hlen.
  assert (forall v', v' < 128 -> v' <> 18 -> 0 <= v' -> v = v' ->
    (let! m := if zlen cid1 =? 34 then
        let! b0 := rd cid1 0 in
        if b0 =? 18 then let! b1 := rd cid1 1 in Ret (b1 =? 32) else Ret false
      else Ret false in Ret m) = Ret false) as Hnot.
  { intros v' H1 H2 H3 ->. unfold cid1. rewrite (varint_bytes_small v') by lia. cbn [app].
    destruct (_ =? 34); [|done]. rewrite rd_0. cbn [rbind]. by zbool. }
  split_and!.
  - assert (zlen mh = 34) as Hmh by (unfold mh, multihash_bytes; zlia).
    assert (rd mh 0 = Ret 18 /\ rd mh 1 = Ret 32) as [Hr0 Hr1].
    { unfold mh, multihash_bytes. by rewrite rd_0, rd_1, Hd. }
    assert (check_multihash mh 34 = Ret MH_E_NO_ERROR) as Hck.
    { rewrite <- (app_nil_r mh). apply check_multihash_ok; unfold MH_H_SHA2_256; lia. }
    unfold ipfs_cid_cast, mh_multihash_digest, mh_multihash_length.
    rewrite Hmh, Hr0, Hck. zbool. cbn [rbind]. zbool. rewrite Hr1. cbn [rbind]. zbool.
    change (negb (MH_E_NO_ERROR =? 0)) with false. cbv iota. cbn [rbind].
    rewrite padd_ok by lia. cbn [rbind]. by rewrite u64_small by lia.
  - intros Hv1. specialize (Hnot v ltac:(lia) ltac:(lia) ltac:(lia) eq_refl).
    unfold ipfs_cid_cast. destruct (if zlen cid1 =? 34 then _ else _) as [m| | |]; try done.
    simpl in Hnot. injection Hnot as ->. cbn [rbind].
    unfold cid1 in *. rewrite !zlen_app in *. zlen_facts. unfold INT_MAX in *.
    rewrite varint_decode_bytes by (rewrite ?s32_small; lia). cbn [rbind].
    pose proof (varint_bytes_pos v). pose proof (varint_bytes_pos codec).
    rewrite !(s32_small v) by lia. zbool.
    rewrite (s32_small (zlen (varint_bytes v))) by lia. rewrite padd_app by done. cbn [rbind].
    rewrite (u64_small (_ - _)) by lia.
    rewrite varint_decode_bytes by (rewrite ?s32_small; lia). cbn [rbind]. zbool.
    rewrite (u64_small (zlen (varint_bytes v) + _)), s32_small by lia.
    rewrite app_assoc, padd_app by (rewrite zlen_app; lia). cbn [rbind].
    rewrite u32_small, s32_small, u64_small by lia. do 3 f_equal. lia.
  - intros Hv1. specialize (Hnot v ltac:(lia) ltac:(lia) ltac:(lia) eq_refl).
    unfold ipfs_cid_cast. destruct (if zlen cid1 =? 34 then _ else _) as [m| | |]; try done.
    simpl in Hnot. injection Hnot as ->. cbn [rbind].
    unfold cid1 in *. rewrite !zlen_app in *. zlen_facts. unfold INT_MAX in *.
    rewrite varint_decode_bytes by (rewrite ?s32_small; lia). cbn [rbind].
    rewrite !(s32_small v) by lia. pose proof (varint_bytes_pos v). zbool. eauto.
Qed.
