(* ===== verification/Base32.v ===== *)
(** * Base32 (libp2p/crypto/encoding/base32.c)

    The encoder and its size function.  The encoder stops when the output is
    full, and the size function gives less than the encoding needs: a key made
    with it is a prefix of the base32 text. *)
From S2P Require Import Prelude.

(** "ABCDEFGHIJKLMNOPQRSTUVWXYZ234567" *)
Definition b32str : bytes := seqZ 65 26 ++ seqZ 50 6.
Definition pad : Z := 61.

(** [b32str[z & 0x1f]] *)
Definition b32chr (z : Z) : res Z := rd b32str (Z.land z 31).

(** [*out++ = c; if (!--outlen) break;] and the rest of the loop *)
Definition emit (c : res Z) (outlen : Z) (k : Z -> res bytes) : res bytes :=
  let! c := c in
  let outlen := outlen - 1 in
  if outlen =? 0 then Ret [c] else let! r := k outlen in Ret (c :: r).

(** [--inlen ? to_uchar(in[i]) >> s : 0], with the decremented [inlen] *)
Definition next_bits (inp : bytes) (inlen i s : Z) : res Z :=
  if inlen =? 0 then Ret 0 else let! c := rd inp i in Ret (Z.shiftr c s).

(** what is written to [out]; the last line of the function is the NUL *)
Fixpoint base32_encode_loop (fuel : nat) (inp : bytes) (inlen outlen : Z) : res bytes :=
  match fuel with
  | O => NoFuel
  | S fuel =>
    if (inlen =? 0) || (outlen =? 0) then Ret (if outlen =? 0 then [] else [0])
    else
      let! c0 := rd inp 0 in
      emit (b32chr (Z.shiftr c0 3)) outlen (fun outlen =>
      let inlen := inlen - 1 in
      let second := let! t := next_bits inp inlen 1 6 in b32chr (Z.shiftl c0 2 + t) in
      emit second outlen (fun outlen =>
      let third := if inlen =? 0 then Ret pad else let! c1 := rd inp 1 in b32chr (Z.shiftr c1 1) in
      emit third outlen (fun outlen =>
      let fourth := if inlen =? 0 then Ret pad else
        let! c1 := rd inp 1 in
        let! t := next_bits inp (inlen - 1) 2 4 in b32chr (Z.shiftl c1 4 + t) in
      let inlen := if inlen =? 0 then 0 else inlen - 1 in
      emit fourth outlen (fun outlen =>
      let fifth := if inlen =? 0 then Ret pad else
        let! c2 := rd inp 2 in
        let! t := next_bits inp (inlen - 1) 3 7 in b32chr (Z.shiftl c2 1 + t) in
      let inlen := if inlen =? 0 then 0 else inlen - 1 in
      emit fifth outlen (fun outlen =>
      let sixth := if inlen =? 0 then Ret pad else let! c3 := rd inp 3 in b32chr (Z.shiftr c3 2) in
      emit sixth outlen (fun outlen =>
      let seventh := if inlen =? 0 then Ret pad else
        let! c3 := rd inp 3 in
        let! t := next_bits inp (inlen - 1) 4 5 in b32chr (Z.shiftl c3 3 + t) in
      let inlen := if inlen =? 0 then 0 else inlen - 1 in
      emit seventh outlen (fun outlen =>
      let eighth := if inlen =? 0 then Ret pad else let! c4 := rd inp 4 in b32chr c4 in
      emit eighth outlen (fun outlen =>
      let inlen := if inlen =? 0 then 0 else inlen - 1 in
      let! inp := if inlen =? 0 then Ret inp else padd inp 5 in
      base32_encode_loop fuel inp inlen outlen))))))))
  end.

Definition base32_encode (inp : bytes) (inlen outlen : Z) : res bytes :=
  base32_encode_loop (S (Z.to_nat inlen)) inp inlen outlen.

(** returned value, [*results_length] and the buffer *)
Definition libp2p_crypto_encoding_base32_encode (incoming : bytes) (incoming_length : Z)
    (results : bytes) (results_length : Z) : res (Z * Z * bytes) :=
  let! results := memwr results (replicate (Z.to_nat results_length) 0) in
  let! out := base32_encode incoming incoming_length results_length in
  let! results := memwr results out in
  let! last := rd results (results_length - 1) in
  if last =? 0 then let! n := strlen results in Ret (1, n, results)
  else Ret (1, results_length, results).

Definition libp2p_crypto_encoding_base32_encode_size (incoming_length : Z) : Z :=
  let incoming_length := u64 (incoming_length - 5) in
  let incoming_length := incoming_length / 5 in
  u64 (incoming_length * 8 + 1).

(** ** The reference encoding (RFC 4648) *)
Definition chr (z : Z) : Z := default 0 (b32str !! Z.to_nat z).

(** the eight characters of a group of five bytes *)
Definition quintets (a b c d e : Z) : list Z :=
  [a / 8; (a * 4 + b / 64) mod 32; (b / 2) mod 32; (b * 16 + c / 16) mod 32;
   (c * 2 + d / 128) mod 32; (d / 4) mod 32; (d * 8 + e / 32) mod 32; e mod 32].

(** the last group: [n] characters and padding *)
Definition b32_last (n : nat) (a b c d : Z) : bytes :=
  (chr <$> take n (quintets a b c d 0)) ++ replicate (8 - n) pad.

Fixpoint b32 (s : bytes) : bytes :=
  match s with
  | [] => []
  | [a] => b32_last 2 a 0 0 0
  | [a; b] => b32_last 4 a b 0 0
  | [a; b; c] => b32_last 5 a b c 0
  | [a; b; c; d] => b32_last 7 a b c d
  | a :: b :: c :: d :: e :: s => (chr <$> quintets a b c d e) ++ b32 s
  end.

Lemma group_ind (P : bytes -> Prop) : P [] -> (forall a, P [a]) -> (forall a b, P [a; b]) ->
  (forall a b c, P [a; b; c]) -> (forall a b c d, P [a; b; c; d]) ->
  (forall a b c d e s, P s -> P (a :: b :: c :: d :: e :: s)) -> forall s, P s.
Proof.
  intros H0 H1 H2 H3 H4 H5. fix IH 1.
  intros [|a [|b [|c [|d [|e s]]]]];
    [exact H0|apply H1|apply H2|apply H3|apply H4|apply H5, IH].
Qed.

(** the bit operations of the source on bytes *)
Lemma b32chr_ok z q : 0 <= q < 32 -> z mod 32 = q -> b32chr z = Ret (chr q).
Proof.
  intros Hq Hz. unfold b32chr, chr. change 31 with (Z.ones 5). rewrite Z.land_ones by lia.
  change (2 ^ 5) with 32. rewrite Hz. unfold rd. rewrite (proj2 (Z.ltb_ge q 0)) by lia.
  destruct (b32str !! Z.to_nat q) eqn:E; [done|].
  apply lookup_ge_None in E. change (length b32str) with 32%nat in E. lia.
Qed.

Ltac shifts := rewrite ?Z.shiftr_div_pow2, ?Z.shiftl_mul_pow2 by lia;
  change (2 ^ 1) with 2; change (2 ^ 2) with 4; change (2 ^ 3) with 8; change (2 ^ 4) with 16;
  change (2 ^ 5) with 32; change (2 ^ 6) with 64; change (2 ^ 7) with 128.

(** [emit] writes one character and lets the rest fill what is left *)
Lemma emit_ok c x n t k : c = Ret x -> 1 <= n -> (n - 1 <> 0 -> k (n - 1) = Ret (ztake (n - 1) t)) ->
  emit c n k = Ret (ztake n (x :: t)).
Proof.
  intros -> Hn Hk. unfold emit. cbn [rbind]. destruct (Z.eqb_spec (n - 1) 0) as [H|H].
  - replace n with 1 by lia. done.
  - rewrite Hk by lia. cbn [rbind]. replace n with (1 + (n - 1)) at 2 by lia. by rewrite ztake_cons by lia.
Qed.

Lemma rd_at (p : bytes) i x : 0 <= i -> p !! Z.to_nat i = Some x -> rd p i = Ret x.
Proof. intros Hi Hx. unfold rd. rewrite (proj2 (Z.ltb_ge i 0)) by lia. by rewrite Hx. Qed.

(** the bounds of the bytes at the front of a string *)
Ltac uncons_bytes :=
  repeat match goal with H : Forall _ (_ :: _) |- _ => apply Forall_cons in H as [? H] end.

(** one character: the reads, the bits, and the position in the output *)
Ltac char_tac :=
  cbv zeta beta; unfold next_bits; zbool; cbn [rbind];
  rewrite ?rd_0; cbn [rbind];
  repeat (erewrite rd_at by (lia || reflexivity); cbn [rbind]);
  first [ reflexivity | apply b32chr_ok; [|shifts]; Z.to_euclidean_division_equations; lia ].
Ltac emit_tac := cbv beta; apply emit_ok; [char_tac|lia|intros ?].

#[local] Arguments emit : simpl never.

Lemma base32_encode_loop_end fuel inp n : (0 < fuel)%nat -> 0 <= n ->
  base32_encode_loop fuel inp 0 n = Ret (ztake n [0]).
Proof.
  destruct fuel as [|fuel]; [lia|]. intros _ Hn. cbn [base32_encode_loop]. change (0 =? 0) with true.
  cbn [orb]. f_equal. destruct (Z.eqb_spec n 0) as [->|Hz]; [done|].
  by rewrite ztake_all by (rewrite zlen_cons; change (@zlen Z []) with 0; lia).
Qed.

Lemma base32_encode_loop_ok s : is_bytes s -> forall fuel n rest, (length s < fuel)%nat -> 0 <= n ->
  base32_encode_loop fuel (s ++ rest) (zlen s) n = Ret (ztake n (b32 s ++ [0])).
Proof.
  induction s as [|a|a b|a b c|a b c d|a b c d e s IH] using group_ind; intros Hs fuel n rest Hf Hn.
  all: destruct fuel as [|fuel]; [simpl in Hf; lia|].
  all: unfold is_bytes, byte_range in Hs; uncons_bytes.
  { apply (base32_encode_loop_end (S fuel) rest n); [lia|done]. }
  all: cbn [base32_encode_loop]; rewrite ?zlen_cons, ?zlen_nil; zbool.
  all: destruct (Z.eqb_spec n 0) as [->|Hz]; [done|]; cbn [app].
  all: cbn [b32 b32_last quintets fmap list_fmap take replicate app Nat.sub].
  all: do 8 emit_tac.
  1-4: apply base32_encode_loop_end; [simpl in Hf; lia|lia].
  cbv zeta. replace (1 + _ - 1 - 1 - 1 - 1 - 1) with (zlen s) by lia. simpl in Hf.
  destruct (Z.eqb_spec (zlen s) 0) as [E|E]; cbn [rbind].
  - apply zlen_0_nil in E as ->. apply base32_encode_loop_end; [lia|lia].
  - rewrite padd_ok by zlia. cbn [rbind]. apply IH; [done|lia|lia].
Qed.

Lemma base32_encode_ok s rest n : is_bytes s -> 0 <= n ->
  base32_encode (s ++ rest) (zlen s) n = Ret (ztake n (b32 s ++ [0])).
Proof.
  intros Hs Hn. unfold base32_encode. apply base32_encode_loop_ok; [done| |done].
  unfold zlen. lia.
Qed.

(** ** Characters of the encoding *)
(** neither NUL nor a slash *)
Definition key_char (c : Z) : Prop := c <> 0 /\ c <> 47.

Lemma chr_inj x y : 0 <= x < 32 -> 0 <= y < 32 -> chr x = chr y -> x = y.
Proof.
  intros Hx Hy. unfold chr.
  assert (Hnd : NoDup b32str) by (by apply (bool_decide_unpack _)).
  destruct (b32str !! Z.to_nat x) as [a|] eqn:Ex; [|apply lookup_ge_None in Ex; change (length b32str) with 32%nat in Ex; lia].
  destruct (b32str !! Z.to_nat y) as [b|] eqn:Ey; [|apply lookup_ge_None in Ey; change (length b32str) with 32%nat in Ey; lia].
  simpl. intros ->. pose proof (NoDup_lookup _ _ _ _ Hnd Ex Ey). lia.
Qed.

Lemma chr_key x : 0 <= x < 32 -> key_char (chr x).
Proof.
  intros Hx. unfold chr.
  destruct (b32str !! Z.to_nat x) as [a|] eqn:Ex; [|apply lookup_ge_None in Ex; change (length b32str) with 32%nat in Ex; lia].
  assert (Hall : Forall key_char b32str) by (repeat constructor; lia).
  rewrite Forall_forall in Hall. apply Hall. by eapply list_elem_of_lookup_2.
Qed.

Lemma quintets_range a b c d e :
  0 <= a < 256 -> Forall (fun x => 0 <= x < 32) (quintets a b c d e).
Proof. intros Ha. unfold quintets. repeat constructor; Z.to_euclidean_division_equations; lia. Qed.

Lemma quintets_inj a b c d e a' b' c' d' e' :
  0 <= a < 256 -> 0 <= b < 256 -> 0 <= c < 256 -> 0 <= d < 256 -> 0 <= e < 256 ->
  0 <= a' < 256 -> 0 <= b' < 256 -> 0 <= c' < 256 -> 0 <= d' < 256 -> 0 <= e' < 256 ->
  quintets a b c d e = quintets a' b' c' d' e' -> [a; b; c; d; e] = [a'; b'; c'; d'; e'].
Proof.
  unfold quintets. intros. injection H9 as E0 E1 E2 E3 E4 E5 E6 E7.
  assert (a = a') by (Z.to_euclidean_division_equations; lia). subst a'.
  assert (b = b') by (Z.to_euclidean_division_equations; lia). subst b'.
  assert (c = c') by (Z.to_euclidean_division_equations; lia). subst c'.
  assert (d = d') by (Z.to_euclidean_division_equations; lia). subst d'.
  assert (e = e') by (Z.to_euclidean_division_equations; lia). by subst e'.
Qed.

Lemma chars_inj l k : Forall (fun x => 0 <= x < 32) l -> Forall (fun x => 0 <= x < 32) k ->
  chr <$> l = chr <$> k -> l = k.
Proof.
  intros Hl. revert k. induction Hl as [|x l Hx _ IH]; intros k Hk; destruct Hk as [|y k Hy Hk]; try done.
  cbn [fmap list_fmap]. intros [= E1 E2]. f_equal; [by apply chr_inj|by apply IH].
Qed.

Lemma b32_last_chars n a b c d : (n <= 8)%nat -> 0 <= a < 256 -> Forall key_char (b32_last n a b c d).
Proof.
  intros Hn Ha. unfold b32_last. apply Forall_app. split.
  - apply Forall_fmap, Forall_take. eapply Forall_impl; [by apply (quintets_range a b c d 0)|].
    intros x Hx. by apply chr_key.
  - apply Forall_replicate. done.
Qed.

Lemma b32_chars s : is_bytes s -> Forall key_char (b32 s).
Proof.
  induction s as [|a|a b|a b c|a b c d|a b c d e s IH] using group_ind; intros Hs;
    unfold is_bytes, byte_range in Hs; uncons_bytes; [constructor|by apply b32_last_chars; [lia|]..|].
  cbn [b32]. apply Forall_app. split; [|by apply IH].
  apply Forall_fmap. eapply Forall_impl; [by apply quintets_range|]. intros x Hx. by apply chr_key.
Qed.

(** [BASE32_LENGTH] of the source *)
Lemma b32_length s : zlen (b32 s) = (zlen s + 4) / 5 * 8.
Proof.
  induction s as [|a|a b|a b c|a b c d|a b c d e s IH] using group_ind; try reflexivity.
  cbn [b32]. rewrite zlen_app, IH, !zlen_cons. unfold zlen at 1. cbn [length fmap list_fmap quintets].
  Z.to_euclidean_division_equations; lia.
Qed.

Lemma key_chars_nonzero l : Forall key_char l -> Forall (fun b => b <> 0) l.
Proof. intros Hl. eapply Forall_impl; [exact Hl|]. by intros x [? _]. Qed.

(** the public function: the text, cut where the buffer of [n] bytes ends *)
Lemma encode_fits s rest results n : is_bytes s -> 1 <= n <= zlen (b32 s) -> n <= zlen results ->
  libp2p_crypto_encoding_base32_encode (s ++ rest) (zlen s) results n =
    Ret (1, n, ztake n (b32 s) ++ zdrop n results).
Proof.
  intros Hs Hn Hr. unfold libp2p_crypto_encoding_base32_encode.
  rewrite memwr_ok by (rewrite zlen_replicate; lia). cbn [rbind]. rewrite zlen_replicate by lia.
  rewrite base32_encode_ok by (done || lia). cbn [rbind].
  assert (Ht : ztake n (b32 s ++ [0]) = ztake n (b32 s)).
  { unfold ztake. apply take_app_le. unfold zlen in Hn. lia. }
  assert (Hl : zlen (ztake n (b32 s)) = n) by (apply zlen_take; lia).
  rewrite Ht, memwr_ok by (rewrite zlen_app, zlen_replicate, zlen_drop, Hl by lia; lia). cbn [rbind].
  rewrite Hl, (zdrop_app_ge n) by (rewrite zlen_replicate; lia).
  assert (exists c, ztake n (b32 s) !! Z.to_nat (n - 1) = Some c /\ c <> 0) as (c & Hc & Hc0).
  { destruct (ztake n (b32 s) !! Z.to_nat (n - 1)) as [c|] eqn:E.
    - exists c. split; [done|]. pose proof (key_chars_nonzero _ (b32_chars s Hs)) as Hall.
      unfold ztake in E. rewrite lookup_take_lt in E by lia. by eapply Forall_lookup_1 in Hall.
    - apply lookup_ge_None in E. unfold zlen in Hl. lia. }
  rewrite (rd_at _ _ c) by (lia || by apply lookup_app_l_Some). cbn [rbind]. by zbool.
Qed.

Lemma encode_padded s rest results n : is_bytes s -> zlen (b32 s) < n <= zlen results ->
  libp2p_crypto_encoding_base32_encode (s ++ rest) (zlen s) results n =
    Ret (1, zlen (b32 s), b32 s ++ replicate (Z.to_nat (n - zlen (b32 s))) 0 ++ zdrop n results).
Proof.
  intros Hs Hn. pose proof (zlen_nonneg (b32 s)). unfold libp2p_crypto_encoding_base32_encode.
  rewrite memwr_ok by (rewrite zlen_replicate; lia). cbn [rbind]. rewrite zlen_replicate by lia.
  rewrite base32_encode_ok by (done || lia). cbn [rbind].
  assert (Hz1 : zlen (b32 s ++ [0]) = zlen (b32 s) + 1) by (rewrite zlen_app; reflexivity).
  rewrite ztake_all by lia.
  rewrite memwr_ok by (rewrite Hz1, zlen_app, zlen_replicate, zlen_drop by lia; lia). cbn [rbind].
  set (k := Z.to_nat (n - zlen (b32 s))).
  assert (Hz : (b32 s ++ [0]) ++ zdrop (zlen (b32 s ++ [0])) (replicate (Z.to_nat n) 0 ++ zdrop n results)
    = b32 s ++ replicate k 0 ++ zdrop n results).
  { rewrite <- app_assoc. f_equal. rewrite Hz1. unfold zdrop at 1. rewrite drop_app_le by (rewrite length_replicate; lia).
    rewrite drop_replicate, app_assoc. f_equal. replace k with (S (Z.to_nat n - Z.to_nat (zlen (b32 s) + 1))) by lia. done. }
  rewrite Hz. rewrite (rd_at _ _ 0); [|lia|].
  - cbn [rbind]. change (0 =? 0) with true.
    replace k with (S (k - 1)) at 1 by lia. cbn [replicate app]. cbv iota.
    rewrite strlen_nul by (by apply key_chars_nonzero, b32_chars). done.
  - rewrite lookup_app_r by (unfold zlen in *; lia).
    rewrite lookup_app_l by (rewrite length_replicate; unfold zlen in *; lia).
    apply lookup_replicate_2. unfold zlen in *; lia.
Qed.

(** ** What a key made with [libp2p_crypto_encoding_base32_encode_size] keeps *)
Lemma encode_size_ok n : 5 <= n < 2 ^ 60 ->
  libp2p_crypto_encoding_base32_encode_size n = (n - 5) / 5 * 8 + 1.
Proof.
  intros Hn. unfold libp2p_crypto_encoding_base32_encode_size. rewrite (u64_small (n - 5)) by lia.
  apply u64_small. Z.to_euclidean_division_equations; lia.
Qed.

(** the name of the file for a hash *)
Definition base32_key (s : bytes) : bytes := ztake ((zlen s - 5) / 5 * 8 + 1) (b32 s).

Lemma b32_prefix k : forall s t, is_bytes s -> is_bytes t ->
  (5 * k + 5 <= length s)%nat -> (5 * k + 5 <= length t)%nat ->
  take (8 * k + 1) (b32 s) = take (8 * k + 1) (b32 t) <->
  take (5 * k) s = take (5 * k) t /\ (fun x => x / 8) <$> s !! (5 * k)%nat = (fun x => x / 8) <$> t !! (5 * k)%nat.
Proof.
  induction k as [|k IH]; intros s t Hs Ht Hls Hlt;
    destruct s as [|a [|b [|c [|d [|e s]]]]]; try (simpl in Hls; lia);
    destruct t as [|a' [|b' [|c' [|d' [|e' t]]]]]; try (simpl in Hlt; lia);
    unfold is_bytes, byte_range in Hs, Ht; uncons_bytes.
  - cbn. split.
    + intros [= E]. split; [done|]. f_equal. apply chr_inj; [Z.to_euclidean_division_equations; lia..|done].
    + intros [_ [= E]]. by rewrite E.
  - cbn [b32].
    replace (8 * S k + 1)%nat with (8 + (8 * k + 1))%nat by lia.
    replace (5 * S k)%nat with (5 + 5 * k)%nat by lia.
    rewrite !take_app_add' by done.
    specialize (IH s t ltac:(done) ltac:(done)). simpl in Hls, Hlt.
    specialize (IH ltac:(lia) ltac:(lia)).
    change ((a :: b :: c :: d :: e :: s) !! (5 + 5 * k)%nat) with (s !! (5 * k)%nat).
    change ((a' :: b' :: c' :: d' :: e' :: t) !! (5 + 5 * k)%nat) with (t !! (5 * k)%nat).
    change (take (5 + 5 * k) (a :: b :: c :: d :: e :: s)) with ([a; b; c; d; e] ++ take (5 * k) s).
    change (take (5 + 5 * k) (a' :: b' :: c' :: d' :: e' :: t)) with ([a'; b'; c'; d'; e'] ++ take (5 * k) t).
    split.
    + intros E. apply app_inj_1 in E as [E1 E2]; [|done].
      apply chars_inj in E1; [|by apply quintets_range..].
      apply quintets_inj in E1; [|done..]. apply IH in E2 as [-> ?]. by rewrite E1.
    + intros [E1 E2]. apply app_inj_1 in E1 as [E0 E1]; [|done]. injection E0 as <- <- <- <- <-.
      f_equal. by apply IH.
Qed.

(** ** Properties *)

(** [libp2p_crypto_encoding_base32_encode] writes the RFC 4648 text
    of the input, padded, when the buffer is larger than the text, and a prefix
    of it that fills the buffer otherwise; it never writes outside the [n] bytes
    it was given.  [libp2p_crypto_encoding_base32_encode_size] is always smaller
    than the text: two inputs of the same length give the same key in a buffer
    of that size exactly when they agree on all but their last five to nine bytes
    and on the top five bits of the first of these. *)
Lemma base32_key_spec (s t rest results : bytes) (n : Z) :
  is_bytes s -> is_bytes t -> 5 <= zlen s < 2 ^ 60 -> zlen t = zlen s -> 1 <= n <= zlen results ->
  let size := libp2p_crypto_encoding_base32_encode_size (zlen s) in
  let k := Z.to_nat ((zlen s - 5) / 5 * 5) in
  libp2p_crypto_encoding_base32_encode (s ++ rest) (zlen s) results n =
    (if n <=? zlen (b32 s) then Ret (1, n, ztake n (b32 s) ++ zdrop n results)
     else Ret (1, zlen (b32 s), b32 s ++ replicate (Z.to_nat (n - zlen (b32 s))) 0 ++ zdrop n results)) /\
  size < zlen (b32 s) /\
  (ztake size (b32 s) = ztake size (b32 t) <->
   take k s = take k t /\ (fun x => x / 8) <$> s !! k = (fun x => x / 8) <$> t !! k).
Proof.
  intros Hs Ht Hls Hlt Hn size k. split_and!.
  - destruct (Z.leb_spec n (zlen (b32 s))); [apply encode_fits|apply encode_padded]; done || lia.
  - unfold size. rewrite encode_size_ok, b32_length by lia. Z.to_euclidean_division_equations; lia.
  - unfold size, ztake. rewrite encode_size_ok by lia.
    set (q := Z.to_nat ((zlen s - 5) / 5)).
    replace (Z.to_nat ((zlen s - 5) / 5 * 8 + 1)) with (8 * q + 1)%nat
      by (unfold q; Z.to_euclidean_division_equations; lia).
    replace k with (5 * q)%nat by (unfold k, q; Z.to_euclidean_division_equations; lia).
    apply b32_prefix; [done|done|..]; unfold q, zlen in *; Z.to_euclidean_division_equations; lia.
Qed.

(** two different 32-byte hashes with the same 41-character key *)
Definition ex_hash (x : Z) : bytes := replicate 26 7 ++ replicate 6 x.
