(* ===== verification/Files.v ===== *)
(** * Files and paths (libp2p/os/utils.c)

    The part of the file system the repository uses: a map from paths to
    contents, with the C library's [fopen], [fwrite] and [fread] on whole files,
    and the path functions of os/utils.c.  What the operating system refuses is
    a parameter. *)
From S2P Require Import Prelude.

(** [fopen_w path]: opening for writing succeeds; [fwrite_count path n]: how many
    of [n] bytes are written; [file_limit]: no file is longer *)
Class Disk := {
  fopen_w : bytes -> bool;
  fwrite_count : bytes -> Z -> Z
}.
(** "the disk works": the hypothesis of the theorems on successful runs *)
Class DiskOk (D : Disk) : Prop := {
  disk_open : forall p, fopen_w p = true;
  disk_write : forall p n, fwrite_count p n = n
}.
Definition disk_total : Disk := {| fopen_w := fun _ => true; fwrite_count := fun _ n => n |}.
#[export] Instance disk_total_ok : DiskOk disk_total.
Proof. by split. Qed.

(** the files, by path *)
Abbreviation files := (gmap bytes bytes).

(** [fopen(filename, "wb")], [fwrite(data, 1, n, file)] and [fclose]: writing to
    the NULL of a failed [fopen] is undefined *)
Definition write_file `{Disk} (fs : files) (filename data : bytes) (n : Z) : res (Z * files) :=
  let! l := strlen filename in
  let name := ztake l filename in
  if fopen_w name then
    let! d := memrd data n in
    let k := Z.max 0 (Z.min n (fwrite_count name n)) in
    Ret (k, <[name := ztake k d]> fs)
  else UB.

(** [fopen(filename, "rb")]: the content, or NULL *)
Definition fopen_r (fs : files) (filename : bytes) : res (option bytes) :=
  let! l := strlen filename in Ret (fs !! ztake l filename).

(** the [int] that [ftell] is returned as *)
Definition os_utils_file_size (fs : files) (path : bytes) : res Z :=
  let! f := fopen_r fs path in
  Ret (match f with None => 0 | Some c => s32 (zlen c) end).

(** [unsigned char buffer[file_size]] and [fread(buffer, 1, file_size, file)]:
    a negative [int] becomes a size no array can have *)
Definition read_buffer `{Malloc} (file_size : Z) (content : bytes) : res (Z * bytes) :=
  if file_size <? 0 then UB
  else
    let d := ztake file_size content in
    let! buffer := memwr (fresh file_size) d in
    Ret (zlen d, buffer).

(** ** Joining two parts of a path *)
Definition os_utils_filepath_join (root extension results : bytes) (max_len : Z) : res (Z * bytes) :=
  let! rl := strlen root in
  let! el := strlen extension in
  if max_len <? u64 (rl + el + 1) then Ret (0, results)
  else
    let! r := memrd root (rl + 1) in
    let! results := memwr results r in
    let! last := rd root (rl - 1) in
    let! first := rd extension 0 in
    let! (_, results) :=
      if negb (last =? 47) && negb (first =? 47) then
        with_ptr results rl (fun p => let! p := memwr p [47; 0] in Ret (tt, p))
      else Ret (tt, results) in
    let! end_ := strlen results in
    let! e := memrd extension el in
    let! (_, results) := with_ptr results end_ (fun p => let! p := memwr p (e ++ [0]) in Ret (tt, p)) in
    Ret (1, results).

(** ** The joined path *)
Definition join (r e : bytes) : bytes :=
  if bool_decide (last r = Some 47) || bool_decide (head e = Some 47) then r ++ e else r ++ 47 :: e.

Definition c_string (s : bytes) : Prop := Forall (fun b => b <> 0) s.

Lemma join_app r e : exists s, join r e = r ++ s ++ e /\ zlen s <= 1 /\ c_string s.
Proof.
  unfold join. destruct (_ || _); [exists []|exists [47]]; (split_and!; [done|by vm_compute|by repeat constructor]).
Qed.
Lemma join_ok r e : c_string r -> c_string e -> c_string (join r e).
Proof.
  intros Hr He. destruct (join_app r e) as (s & -> & _ & Hs).
  unfold c_string. by repeat apply Forall_app_2.
Qed.
Lemma join_length r e : zlen (join r e) <= zlen r + zlen e + 1.
Proof. destruct (join_app r e) as (s & -> & Hs & _). rewrite !zlen_app. lia. Qed.
Lemma join_not_nil r e : r <> [] -> join r e <> [].
Proof. destruct (join_app r e) as (s & -> & _ & _). destruct r; [done|discriminate]. Qed.

Lemma with_ptr_app {A} p q n (f : bytes -> res (A * bytes)) a q' : n = zlen p -> f q = Ret (a, q') ->
  with_ptr (p ++ q) n f = Ret (a, p ++ q').
Proof.
  intros -> Hf. unfold with_ptr. rewrite padd_app by done. cbn [rbind]. rewrite Hf. cbn [rbind].
  by rewrite ztake_app_len.
Qed.

Lemma last_rd r q : r <> [] -> exists c, last r = Some c /\ rd (r ++ q) (zlen r - 1) = Ret c.
Proof.
  destruct r as [|c r _] using rev_ind; [done|]. intros _. exists c. split; [apply last_snoc|].
  rewrite zlen_app, zlen_cons, zlen_nil. replace (zlen r + (1 + 0) - 1) with (zlen r) by lia.
  unfold rd. rewrite (proj2 (Z.ltb_ge _ 0)) by zlia. unfold zlen. rewrite Nat2Z.id.
  rewrite <- app_assoc. change ([c] ++ q) with (c :: q). by rewrite list_lookup_middle.
Qed.

(** the second part, written over the NUL of the first *)
Lemma join_append r e q : c_string r -> zlen e + 1 <= zlen q + 1 ->
  (let! end_ := strlen (r ++ 0 :: q) in
   let! (_, results) := with_ptr (r ++ 0 :: q) end_
     (fun p => let! p := memwr p (e ++ [0]) in Ret (tt, p)) in Ret (1, results)) =
  Ret (1, r ++ e ++ 0 :: zdrop (zlen e) q).
Proof.
  intros Hr Hq. rewrite strlen_nul by done. cbn [rbind].
  rewrite (with_ptr_app r (0 :: q) _ _ tt ((e ++ [0]) ++ zdrop (zlen e) q)); [|done|].
  - cbn [rbind]. by rewrite <- (app_assoc e).
  - rewrite memwr_ok by zlia. cbn [rbind]. rewrite zlen_app. change (zlen [0]) with 1.
    rewrite (Z.add_comm (zlen e)). by rewrite zdrop_cons by zlia.
Qed.

(** with room for one more character than [os_utils_filepath_join] asks for *)
Lemma filepath_join_ok r e rr er results : c_string r -> c_string e -> r <> [] ->
  zlen r + zlen e + 2 <= zlen results < 2 ^ 63 ->
  exists q, os_utils_filepath_join (r ++ 0 :: rr) (e ++ 0 :: er) results (zlen results) =
    Ret (1, join r e ++ 0 :: q) /\ zlen (join r e ++ 0 :: q) = zlen results.
Proof.
  intros Hr He Hne Hlen. pose proof (zlen_nonneg r). pose proof (zlen_nonneg e).
  unfold os_utils_filepath_join. rewrite !strlen_nul by done. cbn [rbind].
  rewrite u64_small by lia. rewrite (proj2 (Z.ltb_ge _ _)) by lia.
  replace (r ++ 0 :: rr) with ((r ++ [0]) ++ rr) by (by rewrite <- app_assoc).
  rewrite memrd_app by (rewrite zlen_app; reflexivity). cbn [rbind].
  rewrite memwr_ok by (rewrite zlen_app; change (zlen [0]) with 1; lia). cbn [rbind].
  rewrite <- !app_assoc. destruct (last_rd r ([0] ++ rr) Hne) as (c & Hlast & ->). cbn [rbind].
  assert (Hfirst : exists c, rd (e ++ 0 :: er) 0 = Ret c /\ (c = 47 <-> head e = Some 47)).
  { destruct e as [|x e]; simpl; eexists; (split; [apply rd_0|]); [done|].
    split; [by intros ->|by intros [= ->]]. }
  destruct Hfirst as (c' & -> & Hhead). cbn [rbind].
  replace (memrd (e ++ 0 :: er) (zlen e)) with (Ret e) by (symmetry; by apply memrd_app).
  set (q0 := zdrop (zlen (r ++ [0])) results).
  assert (Hq0 : zlen q0 = zlen results - zlen r - 1).
  { unfold q0. rewrite zlen_drop; rewrite zlen_app; change (zlen [0]) with 1; lia. }
  change ([0] ++ q0) with (0 :: q0). unfold join. rewrite Hlast.
  assert (Hc : bool_decide (Some c = Some 47) = (c =? 47)).
  { destruct (Z.eqb_spec c 47); [apply bool_decide_eq_true_2|apply bool_decide_eq_false_2]; congruence. }
  assert (Hc' : bool_decide (head e = Some 47) = (c' =? 47)).
  { destruct (Z.eqb_spec c' 47); [by apply bool_decide_eq_true_2, Hhead|].
    apply bool_decide_eq_false_2. by rewrite <- Hhead. }
  rewrite Hc, Hc'.
  destruct ((c =? 47) || (c' =? 47)) eqn:E.
  - replace (negb (c =? 47) && negb (c' =? 47)) with false by (by destruct (c =? 47), (c' =? 47)).
    cbn [rbind]. exists (zdrop (zlen e) q0). rewrite join_append by (done || lia). rewrite <- app_assoc.
    split; [done|]. rewrite !zlen_app, zlen_cons, zlen_drop by lia. lia.
  - replace (negb (c =? 47) && negb (c' =? 47)) with true by (by destruct (c =? 47), (c' =? 47)).
    destruct q0 as [|x q0]; [change (@zlen Z []) with 0 in Hq0; lia|]. rewrite zlen_cons in Hq0.
    rewrite (with_ptr_app r (0 :: x :: q0) _ _ tt ([47; 0] ++ q0)); [|done|].
    + cbn [rbind]. replace (r ++ [47; 0] ++ q0) with ((r ++ [47]) ++ 0 :: q0) by (by rewrite <- app_assoc).
      exists (zdrop (zlen e) q0). rewrite join_append; [|by apply Forall_app; split; [|repeat constructor]|lia].
      rewrite <- !app_assoc. split; [done|]. repeat rewrite ?zlen_app, ?zlen_cons; rewrite ?zlen_nil, zlen_drop by lia. lia.
    + rewrite memwr_ok by (rewrite !zlen_cons; zlia). done.
Qed.

(** with exactly the room it asks for, when a slash is added *)
Lemma filepath_join_ub r e rr er results : c_string r -> c_string e -> r <> [] ->
  zlen results = zlen r + zlen e + 1 -> zlen results < 2 ^ 63 -> last r <> Some 47 -> head e <> Some 47 ->
  os_utils_filepath_join (r ++ 0 :: rr) (e ++ 0 :: er) results (zlen results) = UB.
Proof.
  intros Hr He Hne Hlen Hmax Hlast47 Hhead47. pose proof (zlen_nonneg r). pose proof (zlen_nonneg e).
  unfold os_utils_filepath_join. rewrite !strlen_nul by done. cbn [rbind].
  rewrite u64_small by lia. rewrite (proj2 (Z.ltb_ge _ _)) by lia.
  replace (r ++ 0 :: rr) with ((r ++ [0]) ++ rr) by (by rewrite <- app_assoc).
  rewrite memrd_app by (rewrite zlen_app; reflexivity). cbn [rbind].
  rewrite memwr_ok by (rewrite zlen_app; change (zlen [0]) with 1; lia). cbn [rbind].
  rewrite <- !app_assoc. destruct (last_rd r ([0] ++ rr) Hne) as (c & Hlast & ->). cbn [rbind].
  assert (Hfirst : exists c, rd (e ++ 0 :: er) 0 = Ret c /\ c <> 47).
  { destruct e as [|x e]; simpl in *; eexists; (split; [apply rd_0|]); congruence. }
  destruct Hfirst as (c' & -> & Hhead). cbn [rbind].
  rewrite (proj2 (Z.eqb_neq c 47)) by congruence. rewrite (proj2 (Z.eqb_neq c' 47)) by done. cbn [negb andb].
  set (q0 := zdrop (zlen (r ++ [0])) results).
  assert (Hq0 : zlen q0 = zlen e).
  { unfold q0. rewrite zlen_drop; rewrite zlen_app; change (zlen [0]) with 1; lia. }
  change ([0] ++ q0) with (0 :: q0). destruct q0 as [|x q0].
  - unfold with_ptr. rewrite padd_app by done. done.
  - rewrite zlen_cons in Hq0. rewrite (with_ptr_app r (0 :: x :: q0) _ _ tt ([47; 0] ++ q0)); [|done|].
    + cbn [rbind]. replace (r ++ [47; 0] ++ q0) with ((r ++ [47]) ++ 0 :: q0) by (by rewrite <- app_assoc).
      rewrite strlen_nul by (by apply Forall_app; split; [|repeat constructor]). cbn [rbind].
      replace (memrd (e ++ 0 :: er) (zlen e)) with (Ret e) by (symmetry; by apply memrd_app). cbn [rbind].
      unfold with_ptr. rewrite padd_app by done. cbn [rbind]. unfold memwr.
      rewrite (proj2 (Z.leb_gt _ _)); [done|]. rewrite zlen_app, !zlen_cons, zlen_nil. lia.
    + rewrite memwr_ok by (rewrite !zlen_cons; zlia). done.
Qed.

(** ** Properties *)

(** [os_utils_filepath_join] puts the two parts together with one
    slash between them, unless one of them has it already.  It refuses a buffer
    shorter than both parts and a NUL, but a slash of its own needs one byte
    more: a buffer of exactly that length is accepted and overrun. *)
Lemma filepath_join_spec (r e rr er results : bytes) :
  c_string r -> c_string e -> r <> [] -> zlen r + zlen e + 1 < 2 ^ 63 -> zlen results < 2 ^ 63 ->
  (zlen results < zlen r + zlen e + 1 ->
     os_utils_filepath_join (r ++ 0 :: rr) (e ++ 0 :: er) results (zlen results) = Ret (0, results)) /\
  (zlen r + zlen e + 2 <= zlen results -> exists q,
     os_utils_filepath_join (r ++ 0 :: rr) (e ++ 0 :: er) results (zlen results) = Ret (1, join r e ++ 0 :: q)) /\
  (zlen results = zlen r + zlen e + 1 -> last r <> Some 47 -> head e <> Some 47 ->
     os_utils_filepath_join (r ++ 0 :: rr) (e ++ 0 :: er) results (zlen results) = UB).
Proof.
  intros Hr He Hne Hmax Hres. split_and!.
  - intros Hlt. unfold os_utils_filepath_join. rewrite !strlen_nul by done. cbn [rbind].
    rewrite u64_small by zlia. by rewrite (proj2 (Z.ltb_lt _ _)) by lia.
  - intros Hle. destruct (filepath_join_ok r e rr er results Hr He Hne ltac:(lia)) as (q & E & _). by exists q.
  - intros Heq Hl Hh. by apply filepath_join_ub.
Qed.
