(* ===== verification/Heap.v ===== *)
(** * Linked structures in memory

    The heap of the components that relink or free list cells: a map from
    locations to cells, each with its data and its [next] pointer.  A freed
    location is absent and is never handed out again, so any use of a dangling
    pointer is [UB].  [seg m p ls q] is the list segment from [p] to [q]. *)
From S2P Require Import Prelude.

(** a pointer; NULL is [None] *)
Abbreviation loc := (option positive).

Record heap (D : Type) := mkHeap {
  cells : gmap positive (D * loc);
  brk : positive
}.
Arguments mkHeap {D}.
Arguments cells {D}.
Arguments brk {D}.

Section heap.
Context {D : Type}.
Implicit Types (h : heap D) (m : gmap positive (D * loc)) (p q : loc) (l : positive).

Definition load h p : res (D * loc) :=
  match p with
  | None => UB
  | Some l => match cells h !! l with Some v => Ret v | None => UB end
  end.

Definition store h p (v : D * loc) : res (heap D) :=
  let! _ := load h p in
  match p with
  | None => UB
  | Some l => Ret (mkHeap (<[l := v]> (cells h)) (brk h))
  end.

(** [free(NULL)] does nothing; freeing twice is undefined *)
Definition release h p : res (heap D) :=
  match p with
  | None => Ret h
  | Some l =>
    match cells h !! l with
    | Some _ => Ret (mkHeap (delete l (cells h)) (brk h))
    | None => UB
    end
  end.

Definition alloc `{Malloc} (size : Z) (v : D * loc) h : option (positive * heap D) :=
  if malloc_ok size then Some (brk h, mkHeap (<[brk h := v]> (cells h)) (Pos.succ (brk h)))
  else None.

(** enough turns to walk any list of the heap, and the final test *)
Definition walk_fuel h : nat := S (size (cells h)).

Definition heap_ok h : Prop := forall l, is_Some (cells h !! l) -> (l < brk h)%positive.

(** ** List segments *)
Fixpoint seg m p (ls : list (positive * D)) q : Prop :=
  match ls with
  | [] => p = q
  | (l, d) :: ls => p = Some l /\ exists n, m !! l = Some (d, n) /\ seg m n ls q
  end.

Lemma seg_app m p ls1 ls2 q :
  seg m p (ls1 ++ ls2) q <-> exists r, seg m p ls1 r /\ seg m r ls2 q.
Proof.
  revert p. induction ls1 as [|[l d] ls1 IH]; intros p; simpl.
  - split; [by exists p|]. by intros (r & -> & ?).
  - split.
    + intros (-> & n & Hl & (r & H1 & H2)%IH). exists r. split; [|done]. split; [done|]. by exists n.
    + intros (r & (-> & n & Hl & H1) & H2). split; [done|]. exists n. split; [done|].
      apply IH. by exists r.
Qed.

Lemma seg_det m p ls ls' : seg m p ls None -> seg m p ls' None -> ls = ls'.
Proof.
  revert p ls'. induction ls as [|[l d] ls IH]; intros p [|[l' d'] ls']; simpl.
  - done.
  - by intros -> (? & _).
  - by intros (? & _) ->.
  - intros (-> & n & Hl & H1) ([= <-] & n' & Hl' & H2). rewrite Hl in Hl'.
    injection Hl' as <- <-. f_equal. by eapply IH.
Qed.

Lemma seg_unique m l d ls1 ls2 p : seg m p (ls1 ++ (l, d) :: ls2) None -> l ∉ ls2.*1.
Proof.
  intros (r & _ & Hs)%seg_app Hin.
  apply list_elem_of_fmap in Hin as ([l' d'] & -> & (k1 & k2 & ->)%list_elem_of_split). simpl in Hs.
  destruct Hs as (-> & n & Hl & Hs). pose proof Hs as (r' & _ & Hs')%seg_app.
  destruct Hs' as (_ & n' & Hl' & Hs'). rewrite Hl in Hl'. injection Hl' as <- <-.
  pose proof (seg_det _ _ _ _ Hs Hs') as E. apply (f_equal length) in E.
  rewrite length_app in E. simpl in E. lia.
Qed.

Lemma seg_NoDup m p ls : seg m p ls None -> NoDup ls.*1.
Proof.
  revert p. induction ls as [|[l d] ls IH]; intros p Hs; simpl; [constructor|].
  constructor; [by apply (seg_unique m l d [] ls p)|].
  destruct Hs as (_ & n & _ & Hs). by eapply IH.
Qed.

Lemma seg_insert m p ls q l v : l ∉ ls.*1 -> seg m p ls q -> seg (<[l := v]> m) p ls q.
Proof.
  revert p. induction ls as [|[l' d] ls IH]; intros p; simpl; [done|].
  rewrite not_elem_of_cons. intros [Hne Hl] (-> & n & Hm & Hs). split; [done|]. exists n.
  rewrite lookup_insert_ne by done. auto.
Qed.

Lemma seg_delete m p ls q l : l ∉ ls.*1 -> seg m p ls q -> seg (delete l m) p ls q.
Proof.
  revert p. induction ls as [|[l' d] ls IH]; intros p; simpl; [done|].
  rewrite not_elem_of_cons. intros [Hne Hl] (-> & n & Hm & Hs). split; [done|]. exists n.
  rewrite lookup_delete_ne by done. auto.
Qed.

Lemma seg_lookup m p ls1 l d ls2 q : seg m p (ls1 ++ (l, d) :: ls2) q ->
  exists n, m !! l = Some (d, n) /\ seg m p ls1 (Some l) /\ seg m n ls2 q.
Proof. intros (r & H1 & (-> & n & Hl & H2))%seg_app. by exists n. Qed.

Lemma seg_elem m p ls q l : seg m p ls q -> l ∈ ls.*1 -> is_Some (m !! l).
Proof.
  intros Hs ([l' d] & -> & (k1 & k2 & ->)%list_elem_of_split)%list_elem_of_fmap.
  apply seg_lookup in Hs as (n & Hl & _). by exists (d, n).
Qed.

Lemma locs_size m (ls : list positive) : NoDup ls -> (forall l, l ∈ ls -> is_Some (m !! l)) ->
  (length ls <= size m)%nat.
Proof.
  intros Hnd Hin. rewrite <- size_dom, <- (size_list_to_set (C := gset positive) ls) by done.
  apply subseteq_size. intros l Hl. apply elem_of_list_to_set in Hl. apply elem_of_dom. auto.
Qed.

Lemma seg_length m p ls : seg m p ls None -> (length ls <= size m)%nat.
Proof.
  intros Hs. rewrite <- (length_fmap fst ls). apply locs_size; [by eapply seg_NoDup|].
  intros l Hl. by eapply seg_elem.
Qed.

Lemma seg_head_lookup m p l d ls : seg m p ((l, d) :: ls) None ->
  exists n, p = Some l /\ m !! l = Some (d, n) /\ seg m n ls None.
Proof. intros (-> & n & Hl & Hs). by exists n. Qed.

(** replacing the pointer at the end of a segment *)
Lemma seg_snoc_insert m p ls l d q n : l ∉ ls.*1 -> seg m p ls (Some l) -> q = n ->
  seg (<[l := (d, n)]> m) p (ls ++ [(l, d)]) q.
Proof.
  intros Hl Hs ->. apply seg_app. exists (Some l). split; [by apply seg_insert|].
  simpl. split; [done|]. exists n. by rewrite lookup_insert_eq.
Qed.

(** linking a new cell behind the last one *)
Lemma seg_snoc m p ls ll d l d' : l ∉ (ls ++ [(ll, d)]).*1 -> seg m p (ls ++ [(ll, d)]) None ->
  seg (<[l := (d', None)]> (<[ll := (d, Some l)]> m)) p ((ls ++ [(ll, d)]) ++ [(l, d')]) None.
Proof.
  intros Hn Hs. pose proof (seg_NoDup _ _ _ Hs) as Hnd.
  rewrite fmap_app in Hn, Hnd. cbn [fmap list_fmap fst] in Hn, Hnd.
  apply not_elem_of_app in Hn as [Hn1 Hn2]. rewrite list_elem_of_singleton in Hn2.
  apply NoDup_app in Hnd as (_ & Hnd & _).
  assert (Hll : ll ∉ ls.*1) by (intros Hin; apply (Hnd ll Hin), list_elem_of_singleton; done).
  apply seg_lookup in Hs as (n & Hl & H1 & H2). simpl in H2. subst n.
  apply seg_app. exists (Some l). split.
  - apply seg_insert; [|by apply seg_snoc_insert].
    rewrite fmap_app. apply not_elem_of_app. split; [done|]. change ([(ll, d)].*1) with [ll].
    by rewrite list_elem_of_singleton.
  - split; [done|]. exists None. by rewrite lookup_insert_eq.
Qed.

(** ** Heap operations *)
Lemma load_some h l v : cells h !! l = Some v -> load h (Some l) = Ret v.
Proof. intros Hl. simpl. by rewrite Hl. Qed.
Lemma load_freed h l : cells h !! l = None -> load h (Some l) = UB.
Proof. intros Hl. simpl. by rewrite Hl. Qed.
Lemma store_some h l v w : cells h !! l = Some w ->
  store h (Some l) v = Ret (mkHeap (<[l := v]> (cells h)) (brk h)).
Proof. intros Hl. unfold store, load. by rewrite Hl. Qed.
Lemma release_some h l w : cells h !! l = Some w ->
  release h (Some l) = Ret (mkHeap (delete l (cells h)) (brk h)).
Proof. intros Hl. unfold release. by rewrite Hl. Qed.

Lemma alloc_ok {M : Malloc} {Hm : MallocOk M} n v h :
  alloc n v h = Some (brk h, mkHeap (<[brk h := v]> (cells h)) (Pos.succ (brk h))).
Proof. unfold alloc. by rewrite malloc_always. Qed.

Lemma heap_ok_fresh h : heap_ok h -> cells h !! brk h = None.
Proof.
  intros Hok. apply eq_None_not_Some. intros Hl. specialize (Hok _ Hl). lia.
Qed.
Lemma heap_ok_seg_fresh h p ls q : heap_ok h -> seg (cells h) p ls q -> brk h ∉ ls.*1.
Proof. intros Hok Hs Hin. apply (seg_elem _ _ _ _ _ Hs) in Hin. specialize (Hok _ Hin). lia. Qed.

Lemma heap_ok_alloc h v : heap_ok h -> heap_ok (mkHeap (<[brk h := v]> (cells h)) (Pos.succ (brk h))).
Proof.
  intros Hok l. cbn [cells brk]. destruct (decide (l = brk h)) as [->|Hne]; [lia|].
  rewrite lookup_insert_ne by done. intros Hl. specialize (Hok _ Hl). lia.
Qed.
Lemma heap_ok_insert h l v : heap_ok h -> is_Some (cells h !! l) -> heap_ok (mkHeap (<[l := v]> (cells h)) (brk h)).
Proof.
  intros Hok Hl l'. cbn [cells brk]. destruct (decide (l' = l)) as [->|Hne]; [auto|].
  rewrite lookup_insert_ne by done. auto.
Qed.
Lemma heap_ok_delete h l : heap_ok h -> heap_ok (mkHeap (delete l (cells h)) (brk h)).
Proof. intros Hok l'. cbn [cells brk]. rewrite lookup_delete_is_Some. naive_solver. Qed.
End heap.

#[export] Hint Resolve seg_insert seg_delete heap_ok_alloc heap_ok_insert heap_ok_delete : heap.
