(* ===== verification/Block.v ===== *)
(** * Storage blocks (libipfs/blocks/block.c)

    [struct Block]: raw data and the CID it is stored under, with its protobuf
    codec, the constructor from data and the copy. *)
From S2P Require Import Prelude Varint Protobuf Multihash Cid.

(** [cid] and [data] are pointers (NULL is [None]) *)
Record Block := mkBlock {
  block_cid : option Cid;
  block_data : option bytes;
  block_data_length : Z
}.

#[export] Instance Block_eq_dec : EqDecision Block.
Proof. solve_decision. Defined.

Definition sizeof_Block : Z := 24.

(** [libp2p_crypto_hashing_sha256] (libp2p/crypto/sha256.c) calls mbedTLS,
    whose function is the argument [sha256]; the 32 bytes it writes *)
Definition libp2p_crypto_hashing_sha256 (sha256 : bytes -> bytes) (input : bytes)
    (input_length : Z) : res (Z * bytes) :=
  let! data := memrd input input_length in Ret (32, sha256 data).

Section block.
Context {M : Malloc}.

Definition ipfs_block_new : option Block :=
  if malloc_ok sizeof_Block then Some (mkBlock None None 0) else None.

Definition ipfs_blocks_block_protobuf_encode_size (block : Block) : Z :=
  u64 (22 + ipfs_cid_protobuf_encode_size (block_cid block) + block_data_length block).

Definition ipfs_blocks_block_protobuf_encode (block : Block) (buffer : bytes)
    (max_buffer_length : Z) : encoded :=
  let max := max_buffer_length in
  (put_unchecked (protobuf_encode_length_delimited 1 WIRETYPE_LENGTH_DELIMITED
                    (deref (block_data block)) (block_data_length block)) max
  (put_field (encode_nested 2 (ipfs_cid_protobuf_encode_size (block_cid block))
                (ipfs_cid_protobuf_encode (block_cid block))) max
  put_done)) 0 buffer.

Definition block_handler : handler Block := fun field_no p rem block =>
  if field_no =? 1 then
    let! r := protobuf_decode_length_delimited p rem in
    match r with
    | None => Ret None
    | Some (d, n) => Ret (Some (mkBlock (block_cid block) (Some d) (zlen d), n))
    end
  else if field_no =? 2 then
    let! r := protobuf_decode_length_delimited p rem in
    match r with
    | None => Ret None
    | Some (temp_buffer, n) =>
      let! c := ipfs_cid_protobuf_decode temp_buffer (zlen temp_buffer) in
      match c with
      | None => Ret None
      | Some c => Ret (Some (mkBlock c (block_data block) (block_data_length block), n))
      end
    end
  else Ret (Some (block, 0)).

(** [None]: returned 0 *)
Definition ipfs_blocks_block_protobuf_decode (buffer : bytes) (buffer_length : Z)
  : res (option Block) :=
  match ipfs_block_new with
  | None => Ret None
  | Some block =>
    decode_fields (decode_fuel buffer_length) block_handler buffer buffer_length 0 block
  end.

(** The result, whether the pointer left in [block->cid] is to a live object (or
    NULL), and the block. *)
Definition ipfs_blocks_block_add_data (sha256 : bytes -> bytes) (data : bytes) (data_size : Z)
    (block : Block) : res (Z * bool * Block) :=
  let! (r, hash) := libp2p_crypto_hashing_sha256 sha256 data data_size in
  if r =? 0 then Ret (0, true, block)
  else
    let! c := ipfs_cid_new 0 (Some hash) 32 CID_DAG_PROTOBUF in
    match c with
    | None => Ret (0, true, mkBlock None (block_data block) (block_data_length block))
    | Some c =>
      if malloc_ok data_size then
        let! d := memrd data data_size in
        Ret (1, true, mkBlock (Some c) (Some d) data_size)
      else Ret (0, false, mkBlock (Some c) None data_size)
    end.

(** copying dereferences [original->cid] without a test *)
Definition ipfs_block_copy (original : Block) : res (option Block) :=
  match ipfs_block_new with
  | None => Ret None
  | Some _ =>
    if malloc_ok (block_data_length original) then
      let! d := memrd (deref (block_data original)) (block_data_length original) in
      match block_cid original with
      | None => UB
      | Some c =>
        let! c := ipfs_cid_copy c in
        match c with
        | None => Ret None
        | Some c => Ret (Some (mkBlock (Some c) (Some d) (block_data_length original)))
        end
      end
    else Ret None
  end.
End block.

(** ** Validity and the reference form *)
(** the [data_length] bytes of the block; the object behind [data] may be longer
    (it was allocated from an estimate) *)
Definition block_payload (b : Block) : bytes := ztake (block_data_length b) (deref (block_data b)).
Definition payload_ok (b : Block) : Prop :=
  0 <= block_data_length b <= zlen (deref (block_data b)).

Definition block_ok (b : Block) : Prop :=
  from_option cid_ok True (block_cid b) /\ payload_ok b /\
  from_option cid_hash_length 0 (block_cid b) + block_data_length b + 64 <= INT_MAX.

Definition block_wire (b : Block) : bytes :=
  bytes_field 1 (block_payload b) ++ bytes_field 2 (cid_wire_opt (block_cid b)).

(** decoding never leaves [data] NULL: a field of 0 bytes is still a field *)
Definition block_saved (b : Block) : Block :=
  mkBlock (cid_saved <$> block_cid b) (Some (block_payload b)) (block_data_length b).

Lemma block_payload_length b : payload_ok b -> zlen (block_payload b) = block_data_length b.
Proof. apply zlen_take. Qed.

Section proofs.
Context {M : Malloc}.

Lemma cid_opt_size_eq c : from_option cid_ok True c ->
  0 <= from_option cid_hash_length 0 c /\
  ipfs_cid_protobuf_encode_size c <= from_option cid_hash_length 0 c + 34.
Proof.
  destruct c as [c|]; simpl; [|lia]. intros (_ & _ & Hh & _ & Hl).
  zlen_facts. unfold INT_MAX in *. rewrite u64_small by lia. lia.
Qed.

Lemma block_size_ok b : block_ok b ->
  zlen (block_wire b) <= ipfs_blocks_block_protobuf_encode_size b <= INT_MAX.
Proof.
  intros (Hc & Hd & Hl). pose proof (cid_opt_size _ Hc). pose proof (cid_opt_size_eq _ Hc).
  unfold block_wire, ipfs_blocks_block_protobuf_encode_size. rewrite zlen_app.
  pose proof (bytes_field_le 1 (block_payload b) ltac:(lia)) as Hp.
  rewrite block_payload_length in Hp by done. unfold payload_ok in Hd.
  pose proof (bytes_field_le 2 (cid_wire_opt (block_cid b)) ltac:(lia)).
  zlen_facts. unfold INT_MAX in *. rewrite u64_small by lia. lia.
Qed.

Lemma block_encode_emits b : block_ok b ->
  emits (ipfs_blocks_block_protobuf_encode b) (block_wire b).
Proof.
  intros (Hc & Hd & Hl). apply (emits_continues (fun max => _)). intros max. unfold block_wire.
  apply continues_put_unchecked; [auto with wire|].
  rewrite <- (app_nil_r (bytes_field 2 _)). apply continues_put; [|apply continues_done].
  apply encode_nested_emits; [auto with wire|by apply cid_opt_emits|by apply cid_opt_size].
Qed.

Context {Hm : MallocOk M}.

Lemma block_handles_data d b :
  handles block_handler 1 (varint_bytes (zlen d) ++ d) b (mkBlock (block_cid b) (Some d) (zlen d)).
Proof. by solve_handles block_handler. Qed.

Lemma block_handles_cid c b : from_option cid_ok True c ->
  handles block_handler 2 (varint_bytes (zlen (cid_wire_opt c)) ++ cid_wire_opt c) b
    (mkBlock (cid_saved <$> c) (block_data b) (block_data_length b)).
Proof.
  intros Hc. solve_handles block_handler.
  by rewrite cid_decode_opt_all.
Qed.

Lemma block_parses b : block_ok b -> parses block_handler (block_wire b) (mkBlock None None 0) (block_saved b).
Proof.
  intros (Hc & Hd & Hl). unfold block_wire, block_saved.
  eapply parses_app; [apply parses_bytes, block_handles_data; auto with wire|].
  rewrite block_payload_length by done. apply parses_bytes; [auto with wire|]. by apply (block_handles_cid _ (mkBlock _ _ _)).
Qed.

Lemma block_decode_wire b post : block_ok b ->
  ipfs_blocks_block_protobuf_decode (block_wire b ++ post) (zlen (block_wire b)) =
    Ret (Some (block_saved b)).
Proof.
  intros Hb. pose proof (block_size_ok b Hb). unfold ipfs_blocks_block_protobuf_decode, ipfs_block_new.
  rewrite malloc_always. apply parses_decode; [by apply block_parses|lia].
Qed.

Lemma block_handler_forward : forward block_handler.
Proof.
  intros f p rem st Hp. unfold block_handler.
  destruct (f =? 1); [solve_advances Hp|]. destruct (f =? 2); [|solve_advances Hp].
  solve_advances Hp. intros Hn.
  pose proof (cid_decode_total l (zlen l) ltac:(lia)) as Ht. revert Ht.
  by destruct (ipfs_cid_protobuf_decode _ _) as [[c|]| | |].
Qed.

Lemma block_decode_total buf n : zlen buf < 2 ^ 63 -> ipfs_blocks_block_protobuf_decode buf n <> NoFuel.
Proof.
  intros Hb. unfold ipfs_blocks_block_protobuf_decode, ipfs_block_new. rewrite malloc_always.
  by apply decode_fields_terminates; [apply block_handler_forward|].
Qed.
End proofs.

#[export] Instance block_codec {M : Malloc} : Codec Block := {
  codec_encode := ipfs_blocks_block_protobuf_encode;
  codec_size := ipfs_blocks_block_protobuf_encode_size;
  codec_decode := ipfs_blocks_block_protobuf_decode
}.
#[export] Instance block_codec_laws {M : Malloc} {Hm : MallocOk M} : CodecLaws block_codec := {
  codec_wire := block_wire;
  codec_valid := block_ok;
  codec_saved := block_saved;
  codec_emits := block_encode_emits;
  codec_size_ok := block_size_ok;
  codec_decode_wire := block_decode_wire
}.

(** ** Properties *)

(** A block encoded into a buffer of
    [ipfs_blocks_block_protobuf_encode_size] bytes succeeds inside the buffer,
    and decoding what was written gives its data and its CID back (the CID's
    codec reduced to a [char]). *)
Lemma block_encode_decode {M : Malloc} {Hm : MallocOk M} (b : Block) (buf : bytes) :
  block_ok b -> zlen buf = ipfs_blocks_block_protobuf_encode_size b ->
  exists n buf', ipfs_blocks_block_protobuf_encode b buf (zlen buf) = Ret ((1, n), buf') /\
    n <= zlen buf' /\ zlen buf' = zlen buf /\
    ipfs_blocks_block_protobuf_decode buf' n = Ret (Some (block_saved b)).
Proof. exact (codec_roundtrip b buf). Qed.

Definition sample_block : Block := mkBlock (Some sample_cid) (Some [1; 2; 3]) 3.
Lemma sample_block_ok : block_ok sample_block.
Proof. split; [apply sample_cid_ok|]. split; [done|]. vm_compute. discriminate. Qed.

(** [ipfs_blocks_block_add_data] gives the block a copy of the data
    and the CID whose hash is the sha256 of exactly that data, and copying such
    a block gives an equal one.  When only the last allocation fails the call
    returns 0 and the block keeps a pointer to the CID it has just freed. *)
Lemma block_add_data_spec {M : Malloc} (sha256 : bytes -> bytes) (data rest : bytes) (b : Block) :
  malloc_ok sizeof_Cid = true -> malloc_ok sizeof_Block = true -> malloc_ok 32 = true ->
  zlen (sha256 data) = 32 ->
  let b' := mkBlock (Some (mkCid 0 CID_DAG_PROTOBUF (Some (sha256 data)) 32)) (Some data) (zlen data) in
  (malloc_ok (zlen data) = true ->
     ipfs_blocks_block_add_data sha256 (data ++ rest) (zlen data) b = Ret (1, true, b') /\
     ipfs_block_copy b' = Ret (Some b')) /\
  (malloc_ok (zlen data) = false ->
     exists b'', ipfs_blocks_block_add_data sha256 (data ++ rest) (zlen data) b = Ret (0, false, b'') /\
       block_cid b'' = block_cid b').
Proof.
  intros H1 H2 H3 Hs b'.
  assert (forall k : option Cid -> res (Z * bool * Block),
    (let! (r, hash) := libp2p_crypto_hashing_sha256 sha256 (data ++ rest) (zlen data) in
     if r =? 0 then Ret (0, true, b)
     else let! c := ipfs_cid_new 0 (Some hash) 32 CID_DAG_PROTOBUF in k c) = k (block_cid b')) as Hnew.
  { intros k. unfold libp2p_crypto_hashing_sha256, ipfs_cid_new.
    rewrite memrd_app by done. cbn [rbind]. rewrite H1, H3. zbool.
    by rewrite memrd_all by lia. }
  unfold ipfs_blocks_block_add_data. rewrite Hnew. cbn [block_cid b'].
  split; intros Hd; rewrite Hd; [|by eexists].
  rewrite memrd_app by done. split; [done|]. unfold ipfs_block_copy, ipfs_block_new, ipfs_cid_copy.
  cbn [block_cid block_data block_data_length cid_hash cid_hash_length deref default b'].
  rewrite H2, Hd, memrd_all by done. cbn [rbind]. rewrite H1, H3.
  by rewrite memrd_all by done.
Qed.
