(* ===== verification/Record.v ===== *)
(** * Signed records of the DHT (libp2p/record/record.c)

    [struct Libp2pRecord], its protobuf codec, and the function that builds and
    encodes a signed record. *)
From S2P Require Import Prelude Varint Protobuf Multihash Cid Block.

(** pointers may be NULL ([None]); the object behind a pointer may be longer
    than the size field *)
Record Libp2pRecord := mkRecord {
  rec_key : option bytes;
  rec_key_size : Z;
  rec_value : option bytes;
  rec_value_size : Z;
  rec_author : option bytes;
  rec_author_size : Z;
  rec_signature : option bytes;
  rec_signature_size : Z;
  rec_time_received : option bytes;
  rec_time_received_size : Z
}.

#[export] Instance Libp2pRecord_eq_dec : EqDecision Libp2pRecord.
Proof. solve_decision. Defined.

Definition sizeof_Libp2pRecord : Z := 80.

(** the fields of [struct RsaPrivateKey] that are used here *)
Record RsaPrivateKey := mkRsaPrivateKey {
  rsa_der : bytes;
  public_key_der : bytes;
  public_key_length : Z
}.

Section record.
Context {M : Malloc}.

Definition record_blank : Libp2pRecord := mkRecord None 0 None 0 None 0 None 0 None 0.

Definition libp2p_record_new : option Libp2pRecord :=
  if malloc_ok sizeof_Libp2pRecord then Some record_blank else None.

Definition libp2p_record_protobuf_encode_size (r : option Libp2pRecord) : Z :=
  match r with
  | None => 0
  | Some r =>
    u64 (11 + rec_key_size r + 11 + rec_value_size r + 11 + rec_author_size r
         + 11 + rec_signature_size r + 11 + rec_time_received_size r)
  end.

Definition libp2p_record_protobuf_encode (r : Libp2pRecord) (buffer : bytes)
    (max_buffer_size : Z) : encoded :=
  let max := max_buffer_size in
  let put f p n := put_field (protobuf_encode_length_delimited f WIRETYPE_LENGTH_DELIMITED (deref p) n) max in
  (put 1 (rec_key r) (rec_key_size r)
  (put 2 (rec_value r) (rec_value_size r)
  (put 3 (rec_author r) (rec_author_size r)
  (put 4 (rec_signature r) (rec_signature_size r)
  (put 5 (rec_time_received r) (rec_time_received_size r)
  put_done))))) 0 buffer.

(** the result, [*buffer] and [*buffer_size] *)
Definition libp2p_record_protobuf_allocate_and_encode (r : option Libp2pRecord)
  : res (Z * option bytes * Z) :=
  let size := libp2p_record_protobuf_encode_size r in
  if malloc_ok size then
    match r with
    | None => UB
    | Some r =>
      let! ((retVal, written), buffer) := libp2p_record_protobuf_encode r (fresh size) size in
      Ret (if retVal =? 0 then (0, None, 0) else (retVal, Some buffer, written))
    end
  else Ret (0, None, 0).

Definition set_key (key : bytes) (size : Z) (r : Libp2pRecord) : Libp2pRecord :=
  mkRecord (Some key) size (rec_value r) (rec_value_size r) (rec_author r) (rec_author_size r)
    (rec_signature r) (rec_signature_size r) (rec_time_received r) (rec_time_received_size r).
(** what the fields 2 to 5 store *)
Definition set_field (field_no : Z) (d : bytes) (r : Libp2pRecord) : Libp2pRecord :=
  let put i p := if field_no =? i then Some d else p in
  let put_size i n := if field_no =? i then zlen d else n in
  mkRecord (rec_key r) (rec_key_size r) (put 2 (rec_value r)) (put_size 2 (rec_value_size r))
    (put 3 (rec_author r)) (put_size 3 (rec_author_size r)) (put 4 (rec_signature r)) (put_size 4 (rec_signature_size r))
    (put 5 (rec_time_received r)) (put_size 5 (rec_time_received_size r)).

(** the [switch] of the decoder; the key is a string, and its size is taken with
    [strlen] even when [protobuf_decode_string] has set nothing *)
Definition record_handler : handler Libp2pRecord := fun field_no p rem r =>
  if field_no =? 1 then
    let! s := protobuf_decode_string p rem in
    match s with
    | None => Ret None
    | Some (results, n) =>
      match (match results with Some s => Some s | None => rec_key r end) with
      | None => UB
      | Some key => let! size := strlen key in Ret (Some (set_key key size r, n))
      end
    end
  else if (2 <=? field_no) && (field_no <=? 5) then
    let! s := protobuf_decode_length_delimited p rem in
    match s with
    | None => Ret None
    | Some (d, n) => Ret (Some (set_field field_no d r, n))
    end
  else Ret (Some (r, 0)).

(** [None]: returned 0, with [*out] NULL *)
Definition libp2p_record_protobuf_decode (buffer : bytes) (in_size : Z) : res (option Libp2pRecord) :=
  match libp2p_record_new with
  | None => Ret None
  | Some r => decode_fields (decode_fuel in_size) record_handler buffer in_size 0 r
  end.

(** What a [malloc]ed buffer of [n] bytes holds after [memcpy]s to its front. *)
Definition memcpy3 (n : Z) (a b c : bytes) : res bytes :=
  let! (_, buf) := with_ptr (fresh n) 0 (fun p => let! p := memwr p a in Ret (tt, p)) in
  let! (_, buf) := with_ptr buf (zlen a) (fun p => let! p := memwr p b in Ret (tt, p)) in
  let! (_, buf) := with_ptr buf (zlen a + zlen b) (fun p => let! p := memwr p c in Ret (tt, p)) in
  Ret buf.

(** [libp2p_crypto_rsa_sign] (mbedTLS) is the argument [rsa_sign]: from the
    private key and the bytes, the signature, or [None] when it returns 0.  The
    argument [record_buf] is the pointer of the caller, which is freed on every
    failure; the result is 0 or -1, [*record_buf] and [*rec_size] when set. *)
Definition libp2p_record_make_put_record (sha256 : bytes -> bytes)
    (rsa_sign : RsaPrivateKey -> bytes -> option bytes) (record_buf : ptr bytes) (sk : RsaPrivateKey)
    (key value : bytes) (vlen sign : Z) : res (Z * ptr bytes * option Z) :=
  let exit_error (p : ptr bytes) := match p with Wild => UB | _ => Ret (-1, Null, None) end in
  let! key_size := strlen key in
  let! (_, hash) := libp2p_crypto_hashing_sha256 sha256 (public_key_der sk) (public_key_length sk) in
  let bytes_size := u64 (key_size + vlen + 32) in
  if malloc_ok bytes_size then
    let! signature :=
      (if sign =? 0 then Ret (Some (None, 0))
       else
         let! k := memrd key key_size in
         let! v := memrd value vlen in
         let! msg := memcpy3 bytes_size k v hash in
         Ret (match rsa_sign sk msg with None => None | Some s => Some (Some s, zlen s) end)) in
    match signature with
    | None => exit_error record_buf
    | Some (signature, signature_size) =>
      let record := mkRecord (Some key) key_size (Some value) vlen (Some hash) 32
                      signature signature_size None 0 in
      let protobuf_size := libp2p_record_protobuf_encode_size (Some record) in
      if malloc_ok protobuf_size then
        let! ((r, written), buf) := libp2p_record_protobuf_encode record (fresh protobuf_size) protobuf_size in
        if r =? 0 then exit_error (Ptr buf) else Ret (0, Ptr buf, Some written)
      else exit_error Null
    end
  else exit_error record_buf.
End record.

(** ** Validity and the reference form *)
Definition rec_bytes (p : option bytes) (n : Z) : bytes := ztake n (deref p).
Definition field_fits (p : option bytes) (n : Z) : Prop := 0 <= n <= zlen (deref p).

Definition record_fits (r : Libp2pRecord) : Prop :=
  field_fits (rec_key r) (rec_key_size r) /\ field_fits (rec_value r) (rec_value_size r) /\
  field_fits (rec_author r) (rec_author_size r) /\ field_fits (rec_signature r) (rec_signature_size r) /\
  field_fits (rec_time_received r) (rec_time_received_size r) /\
  rec_key_size r + rec_value_size r + rec_author_size r + rec_signature_size r
    + rec_time_received_size r + 55 <= INT_MAX.

(** a key must have a first character, and a NUL in it cuts it off *)
Definition record_ok (r : Libp2pRecord) : Prop :=
  record_fits r /\ 0 < rec_key_size r /\ Forall (fun b => b <> 0) (rec_bytes (rec_key r) (rec_key_size r)).

Definition record_wire (r : Libp2pRecord) : bytes :=
  bytes_field 1 (rec_bytes (rec_key r) (rec_key_size r)) ++
  bytes_field 2 (rec_bytes (rec_value r) (rec_value_size r)) ++
  bytes_field 3 (rec_bytes (rec_author r) (rec_author_size r)) ++
  bytes_field 4 (rec_bytes (rec_signature r) (rec_signature_size r)) ++
  bytes_field 5 (rec_bytes (rec_time_received r) (rec_time_received_size r)).

(** decoding copies; NULL comes back as an empty object, and the key ends in NUL *)
Definition record_saved (r : Libp2pRecord) : Libp2pRecord :=
  mkRecord (Some (rec_bytes (rec_key r) (rec_key_size r) ++ [0])) (rec_key_size r)
    (Some (rec_bytes (rec_value r) (rec_value_size r))) (rec_value_size r)
    (Some (rec_bytes (rec_author r) (rec_author_size r))) (rec_author_size r)
    (Some (rec_bytes (rec_signature r) (rec_signature_size r))) (rec_signature_size r)
    (Some (rec_bytes (rec_time_received r) (rec_time_received_size r))) (rec_time_received_size r).

Lemma rec_bytes_length p n : field_fits p n -> zlen (rec_bytes p n) = n.
Proof. apply zlen_take. Qed.

Section proofs.
Context {M : Malloc}.

Lemma record_size_ok r : record_fits r ->
  zlen (record_wire r) <= libp2p_record_protobuf_encode_size (Some r) <= INT_MAX.
Proof.
  intros (H1 & H2 & H3 & H4 & H5 & Hl). unfold record_wire, libp2p_record_protobuf_encode_size.
  rewrite !zlen_app.
  pose proof (bytes_field_le 1 (rec_bytes (rec_key r) (rec_key_size r)) ltac:(lia)).
  pose proof (bytes_field_le 2 (rec_bytes (rec_value r) (rec_value_size r)) ltac:(lia)).
  pose proof (bytes_field_le 3 (rec_bytes (rec_author r) (rec_author_size r)) ltac:(lia)).
  pose proof (bytes_field_le 4 (rec_bytes (rec_signature r) (rec_signature_size r)) ltac:(lia)).
  pose proof (bytes_field_le 5 (rec_bytes (rec_time_received r) (rec_time_received_size r)) ltac:(lia)).
  rewrite !rec_bytes_length in * by done. unfold field_fits, INT_MAX in *. rewrite u64_small by lia. lia.
Qed.

Lemma record_encode_emits r : record_fits r -> emits (libp2p_record_protobuf_encode r) (record_wire r).
Proof.
  intros (H1 & H2 & H3 & H4 & H5 & Hl). apply (emits_continues (fun max => _)). intros max.
  unfold record_wire. rewrite <- (app_nil_r (bytes_field 5 _)).
  repeat (apply continues_put; [apply encode_prefix_field_emits; [auto with wire|done]|]).
  apply continues_done.
Qed.

Context {Hm : MallocOk M}.

Lemma record_handles_key s r : 0 < zlen s -> Forall (fun b => b <> 0) s ->
  handles record_handler 1 (varint_bytes (zlen s) ++ s) r (set_key (s ++ [0]) (zlen s) r).
Proof. intros Hl Hs. solve_handles record_handler. zbool. by rewrite strlen_nul. Qed.

Lemma record_parses_field f d r : 2 <= f <= 5 -> parses record_handler (bytes_field f d) r (set_field f d r).
Proof. intros Hf. apply parses_bytes; [unfold field_ok; lia|]. by solve_handles record_handler. Qed.

Lemma record_parses r : record_ok r -> parses record_handler (record_wire r) record_blank (record_saved r).
Proof.
  intros ((H1 & H2 & H3 & H4 & H5 & Hl) & Hk & Hn). unfold record_wire.
  assert (record_saved r = set_field 5 (rec_bytes (rec_time_received r) (rec_time_received_size r))
    (set_field 4 (rec_bytes (rec_signature r) (rec_signature_size r))
    (set_field 3 (rec_bytes (rec_author r) (rec_author_size r))
    (set_field 2 (rec_bytes (rec_value r) (rec_value_size r))
    (set_key (rec_bytes (rec_key r) (rec_key_size r) ++ [0]) (zlen (rec_bytes (rec_key r) (rec_key_size r))) record_blank))))) as ->.
  { unfold set_field, set_key, record_saved. cbn. by rewrite !rec_bytes_length. }
  eapply parses_app; [apply parses_bytes; [auto with wire|apply record_handles_key; [by rewrite rec_bytes_length|done]]|].
  repeat (eapply parses_app; [apply record_parses_field; lia|]). apply record_parses_field. lia.
Qed.

Lemma record_decode_wire r post : record_ok r ->
  libp2p_record_protobuf_decode (record_wire r ++ post) (zlen (record_wire r)) = Ret (Some (record_saved r)).
Proof.
  intros Hr. pose proof (record_size_ok r (proj1 Hr)). unfold libp2p_record_protobuf_decode, libp2p_record_new.
  rewrite malloc_always. apply parses_decode; [by apply record_parses|lia].
Qed.

Lemma record_decode_keyless r rest len : rec_bytes (rec_key r) (rec_key_size r) = [] ->
  zlen (record_wire r) <= len <= INT_MAX ->
  decode_fields (decode_fuel len) record_handler (record_wire r ++ rest) len 0 record_blank = UB.
Proof.
  intros Hk Hl. unfold record_wire in *. rewrite Hk in *. clear Hk.
  match goal with |- context[bytes_field 1 [] ++ ?x] => set (w := x) in * end.
  rewrite zlen_app in Hl. change (zlen (bytes_field 1 [])) with 2 in Hl. zlen_facts.
  unfold decode_fuel. change ((bytes_field 1 [] ++ w) ++ rest) with ([] ++ wire_key 1 2 ++ [0] ++ w ++ rest).
  rewrite (decode_fields_turn record_handler 1 2 []) by (auto with wire; change (zlen [] + _) with 1; lia).
  change (zlen [] + _) with 1. unfold record_handler at 1. zbool.
  pose proof (decode_string_payload [] (w ++ rest) (len - 1)) as Hs. change (zlen []) with 0 in Hs.
  change ((varint_bytes 0 ++ []) ++ w ++ rest) with ([0] ++ w ++ rest) in Hs.
  by rewrite Hs by (change (zlen (_ ++ _)) with 1; lia).
Qed.

Lemma record_allocate_ok r : record_fits r ->
  exists tail, libp2p_record_protobuf_allocate_and_encode (Some r) =
    Ret (1, Some (record_wire r ++ tail), zlen (record_wire r)).
Proof.
  intros Hr. pose proof (record_size_ok r Hr) as Hs. unfold libp2p_record_protobuf_allocate_and_encode.
  zlen_facts.
  rewrite malloc_always, (record_encode_emits r Hr) by (rewrite ?zlen_fresh by lia; lia). cbn [rbind]. by eexists.
Qed.
End proofs.

Definition record_loop_message : bytes := [10; 1; 97; 10; 250; 255; 255; 255; 15].

(** A key of length -6 behind another key moves the decoder back to where the
    field began: the message [record_loop_message] never ends. *)
Lemma record_decode_diverges {M : Malloc} {Hm : MallocOk M} (rest : bytes) (len : Z) (fuel : nat) (st : Libp2pRecord) :
  zlen record_loop_message <= len <= INT_MAX ->
  decode_fields fuel record_handler (record_loop_message ++ rest) len 0 st = NoFuel.
Proof.
  intros Hl. destruct fuel as [|fuel]; [done|]. change (zlen record_loop_message) with 9 in Hl.
  change (record_loop_message ++ rest) with ([] ++ wire_key 1 2 ++ ([1] ++ [97]) ++ [10; 250; 255; 255; 255; 15] ++ rest).
  rewrite (decode_fields_turn record_handler 1 2 []) by (auto with wire; change (zlen [] + _) with 1; lia).
  change (zlen [] + _) with 1.
  rewrite (record_handles_key [97] st) by (first [reflexivity | forall_tac lia | change (zlen _) with 2; lia]).
  cbn [rbind]. change (u64 _) with (zlen [10; 1; 97]).
  apply (decode_fields_stuck record_handler 1 2 [10; 1; 97] ([250; 255; 255; 255; 15] ++ rest));
    [auto with wire|done|change (zlen _ + _) with 4; lia|].
  unfold record_handler. zbool. change (zlen [10; 1; 97] + _) with 4.
  pose proof (decode_string_negative 6 rest (len - 4) ltac:(lia) ltac:(lia)) as Hs.
  change (varint_bytes (2 ^ 32 - 6)) with [250; 255; 255; 255; 15] in Hs. by rewrite Hs.
Qed.

(** ** Putting a record *)
Section put.
Context {M : Malloc} {Hm : MallocOk M} (sha256 : bytes -> bytes).
Context (rsa_sign : RsaPrivateKey -> bytes -> option bytes).

Lemma memcpy_at (x y buf : bytes) : zlen x + zlen y <= zlen buf ->
  with_ptr (x ++ zdrop (zlen x) buf) (zlen x) (fun p => let! p := memwr p y in Ret (tt, p)) =
    Ret (tt, (x ++ y) ++ zdrop (zlen (x ++ y)) buf).
Proof using. intros Hl. zlen_facts. apply with_ptr_append; [|done]. by rewrite memwr_ok by (rewrite zlen_drop; lia). Qed.

Lemma memcpy3_ok n (a b c : bytes) : n = zlen a + zlen b + zlen c -> memcpy3 n a b c = Ret (a ++ b ++ c).
Proof using.
  intros ->. zlen_facts. unfold memcpy3.
  set (buf := fresh _). assert (zlen buf = zlen a + zlen b + zlen c) as Hb by (apply zlen_fresh; lia).
  pose proof (memcpy_at [] a buf ltac:(change (zlen []) with 0; lia)) as E. change (zlen []) with 0 in E.
  rewrite zdrop_0 in E. cbn [app] in E. rewrite E. cbn [rbind].
  rewrite memcpy_at by lia. cbn [rbind]. rewrite <- zlen_app, memcpy_at by (rewrite zlen_app; lia). cbn [rbind].
  rewrite zdrop_ge by (rewrite !zlen_app; lia). by rewrite app_nil_r, <- app_assoc.
Qed.

(** the record that is encoded *)
Definition put_record (key value sig : bytes) (sk : RsaPrivateKey) : Libp2pRecord :=
  mkRecord (Some (key ++ [0])) (zlen key) (Some value) (zlen value)
    (Some (sha256 (ztake (public_key_length sk) (public_key_der sk)))) 32 (Some sig) (zlen sig) (Some []) 0.

Lemma put_encoded key krest value vrest sig (psig : option bytes) sk :
  0 < zlen key -> Forall (fun b => b <> 0) key -> (forall m, zlen (sha256 m) = 32) -> deref psig = sig ->
  zlen key + zlen value + zlen sig + 87 <= 2 ^ 31 - 1 ->
  let r := mkRecord (Some (key ++ 0 :: krest)) (zlen key) (Some (value ++ vrest)) (zlen value)
    (Some (sha256 (ztake (public_key_length sk) (public_key_der sk)))) 32 psig (zlen sig) None 0 in
  exists buf n,
    (if malloc_ok (libp2p_record_protobuf_encode_size (Some r)) then
       let! ((res, written), b) := libp2p_record_protobuf_encode r (fresh (libp2p_record_protobuf_encode_size (Some r)))
                                     (libp2p_record_protobuf_encode_size (Some r)) in
       if res =? 0 then Ret (-1, Null, None) else Ret (0, Ptr b, Some written)
     else Ret (-1, Null, None)) = Ret (0, Ptr buf, Some n) /\ n <= zlen buf /\
    libp2p_record_protobuf_decode buf n = Ret (Some (put_record key value sig sk)).
Proof.
  intros Hk Hn Hsha Hsig Hl r. zlen_facts. pose proof (Hsha (ztake (public_key_length sk) (public_key_der sk))) as Ha.
  assert (record_ok r /\ record_saved r = put_record key value sig sk) as [Hr Hsv].
  { unfold record_ok, record_fits, record_saved, put_record, rec_bytes, field_fits, r, INT_MAX. cbn [rec_key rec_key_size
      rec_value rec_value_size rec_author rec_author_size rec_signature rec_signature_size rec_time_received
      rec_time_received_size]. rewrite !Hsig. cbn [deref default from_option id].
    rewrite !ztake_app_len, (ztake_all (zlen sig) sig) by lia. rewrite (ztake_all 32 _ (Z.eq_le_incl _ _ Ha)), ztake_0.
    rewrite !zlen_app, zlen_cons, Ha. zlen_facts. split_and!; done || lia. }
  pose proof (record_size_ok r (proj1 Hr)) as Hs. rewrite malloc_always.
  rewrite (record_encode_emits r (proj1 Hr)) by (zlen_facts; rewrite ?zlen_fresh by lia; lia). cbn [rbind].
  eexists _, _. split; [done|]. split; [zlia|]. rewrite <- Hsv. by apply record_decode_wire.
Qed.
End put.

(** a decoded record is encoded as it came *)
Lemma rec_bytes_saved p n rest : field_fits p n -> rec_bytes (Some (rec_bytes p n ++ rest)) n = rec_bytes p n.
Proof.
  intros Hf. pose proof (rec_bytes_length p n Hf) as Hl. unfold rec_bytes at 1. change (deref (Some ?b)) with b.
  rewrite <- Hl at 1. apply ztake_app_len.
Qed.

Lemma record_saved_ok r : record_ok r -> record_ok (record_saved r) /\ record_wire (record_saved r) = record_wire r.
Proof.
  intros (Hf & Hk & Hnz). pose proof Hf as (H1 & H2 & H3 & H4 & H5 & Hs).
  pose proof (rec_bytes_saved _ _ [0] H1) as E1. pose proof (rec_bytes_saved _ _ [] H2) as E2.
  pose proof (rec_bytes_saved _ _ [] H3) as E3. pose proof (rec_bytes_saved _ _ [] H4) as E4.
  pose proof (rec_bytes_saved _ _ [] H5) as E5. rewrite app_nil_r in E2, E3, E4, E5. split.
  - split; [|by cbn [record_saved rec_key rec_key_size]; rewrite E1].
    assert (forall p n rest, field_fits p n -> field_fits (Some (rec_bytes p n ++ rest)) n) as F.
    { intros p n rest Hp. pose proof (rec_bytes_length p n Hp) as Hl. unfold field_fits. change (deref (Some ?b)) with b.
      rewrite zlen_app, Hl. destruct Hp. zlia. }
    pose proof (F _ _ [] H2) as F2. pose proof (F _ _ [] H3) as F3. pose proof (F _ _ [] H4) as F4. pose proof (F _ _ [] H5) as F5.
    rewrite app_nil_r in F2, F3, F4, F5. split_and!; try done; try apply F; done.
  - unfold record_wire. cbn [record_saved rec_key rec_key_size rec_value rec_value_size
      rec_author rec_author_size rec_signature rec_signature_size rec_time_received rec_time_received_size].
    by rewrite E1, E2, E3, E4, E5.
Qed.

(** ** Properties *)

(** A record whose key is a non-empty string without NUL, encoded by
    [libp2p_record_protobuf_allocate_and_encode], comes back from the decoder
    with all five fields and sizes.  A record with an empty key is encoded just
    as well, but makes the decoder take the length of a NULL string. *)
Lemma record_encode_decode {M : Malloc} {Hm : MallocOk M} (r : Libp2pRecord) :
  record_fits r ->
  exists buf n, libp2p_record_protobuf_allocate_and_encode (Some r) = Ret (1, Some buf, n) /\
    n <= zlen buf /\
    (0 < rec_key_size r -> Forall (fun b => b <> 0) (rec_bytes (rec_key r) (rec_key_size r)) ->
     libp2p_record_protobuf_decode buf n = Ret (Some (record_saved r))) /\
    (rec_key_size r = 0 -> libp2p_record_protobuf_decode buf n = UB).
Proof.
  intros Hr. destruct (record_allocate_ok r Hr) as [tail E]. eexists _, _. split; [exact E|].
  split; [zlia|]. split; [intros Hk Hn; by apply record_decode_wire|]. intros Hk.
  unfold libp2p_record_protobuf_decode, libp2p_record_new. rewrite malloc_always.
  apply record_decode_keyless; [by unfold rec_bytes; rewrite Hk, ztake_0|].
  pose proof (record_size_ok r Hr). lia.
Qed.

(** [libp2p_record_make_put_record] with an RSA function that signs:
    the encoding it returns decodes to a record of the key, the value, the
    sha256 of the public key, and the signature of exactly key, value and
    author, in this order (without [sign]: no signature).  When the RSA function
    refuses, -1 is returned -- after freeing the pointer the caller passed in. *)
Lemma make_put_record_spec {M : Malloc} {Hm : MallocOk M} (sha256 : bytes -> bytes)
    (rsa_sign : RsaPrivateKey -> bytes -> option bytes) (sk : RsaPrivateKey) (record_buf : ptr bytes)
    (key krest value vrest : bytes) (sign : Z) :
  0 < zlen key -> Forall (fun b => b <> 0) key -> (forall m, zlen (sha256 m) = 32) ->
  0 <= public_key_length sk <= zlen (public_key_der sk) ->
  let author := sha256 (ztake (public_key_length sk) (public_key_der sk)) in
  let sig := rsa_sign sk (key ++ value ++ author) in
  zlen key + zlen value + zlen (default [] sig) + 87 <= INT_MAX ->
  let put := libp2p_record_make_put_record sha256 rsa_sign record_buf sk (key ++ 0 :: krest) (value ++ vrest)
    (zlen value) sign in
  if decide (sign <> 0 /\ sig = None) then put = match record_buf with Wild => UB | _ => Ret (-1, Null, None) end
  else exists buf n, put = Ret (0, Ptr buf, Some n) /\ n <= zlen buf /\
    libp2p_record_protobuf_decode buf n =
      Ret (Some (put_record sha256 key value (if sign =? 0 then [] else default [] sig) sk)).
Proof.
  intros Hk Hnz Hsha Hpk author sig Hl put. zlen_facts.
  pose proof (Hsha (ztake (public_key_length sk) (public_key_der sk))) as Ha. fold author in Ha. unfold put, libp2p_record_make_put_record, libp2p_crypto_hashing_sha256.
  rewrite strlen_nul by done. cbn [rbind]. rewrite memrd_ok by done. cbn [rbind]. fold author.
  unfold INT_MAX in *. rewrite (u64_small (zlen key + _ + _)) by (destruct sig; cbn in *; zlen_facts; lia).
  rewrite malloc_always. destruct (Z.eqb_spec sign 0) as [Hs|Hs]; cbn [rbind].
  - rewrite decide_False by tauto. eapply (put_encoded sha256 key krest value vrest [] None sk); done || (rewrite ?zlen_nil; lia).
  - rewrite memrd_app by done. cbn [rbind]. rewrite memrd_app by done. cbn [rbind].
    rewrite memcpy3_ok by lia. cbn [rbind]. fold sig. destruct sig as [s|] eqn:Es; cbn [rbind default] in *.
    + rewrite decide_False by (intros [_ ?]; done).
      apply (put_encoded sha256 key krest value vrest s (Some s) sk); done || (cbn; lia).
    + by rewrite decide_True.
Qed.
