(* ===== verification/Node.v ===== *)
(** * MerkleDAG nodes (libipfs/merkledag/node.c), values and codec

    [struct NodeLink] and [struct HashtableNode], their protobuf codecs, the
    constructors and the path helpers.  The links of a node are the list reached
    from [head_link]; the operations that relink or free list cells are modelled
    on an explicit heap in [NodeLinks]. *)
From S2P Require Import Prelude Varint Protobuf Multihash Unixfs.

(** [next] is not a field: a chain of links is a list.  [nl_name] is the object
    [name] points to, with its terminating NUL. *)
Record NodeLink := mkNodeLink {
  nl_hash_size : Z;
  nl_hash : option bytes;
  nl_name : option bytes;
  nl_t_size : Z
}.

Record HashtableNode := mkNode {
  n_data_size : Z;
  n_data : option bytes;
  n_head_link : list NodeLink;
  n_encoded : option bytes;
  n_hash : option bytes;
  n_hash_size : Z
}.

#[export] Instance NodeLink_eq_dec : EqDecision NodeLink.
Proof. solve_decision. Defined.
#[export] Instance HashtableNode_eq_dec : EqDecision HashtableNode.
Proof. solve_decision. Defined.

Definition sizeof_NodeLink : Z := 40.
Definition sizeof_HashtableNode : Z := 48.

Definition set_node_data (d : bytes) (n : HashtableNode) : HashtableNode :=
  mkNode (zlen d) (Some d) (n_head_link n) (n_encoded n) (n_hash n) (n_hash_size n).
Definition set_node_links (l : list NodeLink) (n : HashtableNode) : HashtableNode :=
  mkNode (n_data_size n) (n_data n) l (n_encoded n) (n_hash n) (n_hash_size n).
Definition set_node_hash (h : option bytes) (sz : Z) (n : HashtableNode) : HashtableNode :=
  mkNode (n_data_size n) (n_data n) (n_head_link n) (n_encoded n) h sz.

(** [name != NULL && strlen(name) > 0] *)
Definition name_present (name : option bytes) : res bool :=
  match name with
  | None => Ret false
  | Some s => let! n := strlen s in Ret (0 <? n)
  end.

Section node.
Context {M : Malloc}.

(** ** Links *)
Definition link_blank : NodeLink := mkNodeLink 0 None None 0.

Definition ipfs_node_link_new : option NodeLink :=
  if malloc_ok sizeof_NodeLink then Some link_blank else None.

Definition ipfs_node_link_create (name : option bytes) (ahash : bytes) (hash_size : Z)
  : res (option NodeLink) :=
  match ipfs_node_link_new with
  | None => Ret None
  | Some link =>
    if malloc_ok hash_size then
      let! h := memrd ahash hash_size in
      let! present := name_present name in
      if present : bool then
        let! n := strlen (deref name) in
        if malloc_ok (n + 1) then
          let! s := memrd (deref name) (n + 1) in
          Ret (Some (mkNodeLink hash_size (Some h) (Some s) 0))
        else Ret None
      else Ret (Some (mkNodeLink hash_size (Some h) (nl_name link) 0))
    else Ret None
  end.

Definition ipfs_node_link_protobuf_encode_size (link : option NodeLink) : res Z :=
  match link with
  | None => Ret 0
  | Some link =>
    let size := 0 in
    let size := if 0 <? nl_hash_size link then u64 (size + (11 + nl_hash_size link)) else size in
    let! present := name_present (nl_name link) in
    let! size :=
      if present : bool then let! n := strlen (deref (nl_name link)) in Ret (u64 (size + (11 + n)))
      else Ret size in
    Ret (if 0 <? nl_t_size link then u64 (size + 22) else size)
  end.

(** the hash is wrapped into a multihash; the result of [mh_new] is ignored *)
Definition link_hash_field (link : NodeLink) (buffer : bytes) (max : Z) : encoded :=
  let hash_length := u64 (mh_new_length MH_H_SHA2_256 (nl_hash_size link)) in
  let! (_, hash) := mh_new (fresh hash_length) MH_H_SHA2_256 (deref (nl_hash link)) (nl_hash_size link) in
  protobuf_encode_length_delimited 1 WIRETYPE_LENGTH_DELIMITED hash hash_length buffer max.

Definition link_name_field (link : NodeLink) (buffer : bytes) (max : Z) : encoded :=
  let! present := name_present (nl_name link) in
  protobuf_encode_string 2 WIRETYPE_LENGTH_DELIMITED
    (if present : bool then deref (nl_name link) else [0]) buffer max.

Definition ipfs_node_link_protobuf_encode (link : NodeLink) (buffer : bytes)
    (max_buffer_length : Z) : encoded :=
  let max := max_buffer_length in
  ((if 0 <? nl_hash_size link then put_field (link_hash_field link) max else id)
  (put_field (link_name_field link) max
  ((if 0 <? nl_t_size link then
      put_field (protobuf_encode_varint 3 WIRETYPE_VARINT (nl_t_size link)) max else id)
  put_done))) 0 buffer.

Definition link_handler : handler NodeLink := fun field_no p rem link =>
  if field_no =? 1 then
    let! r := protobuf_decode_length_delimited p rem in
    match r with
    | None => Ret None
    | Some (hash, n) =>
      if zlen hash <? 2 then Ret None
      else if malloc_ok (zlen hash - 2) then
        Ret (Some (mkNodeLink (zlen hash - 2) (Some (zdrop 2 hash)) (nl_name link) (nl_t_size link), n))
      else Ret None
    end
  else if field_no =? 2 then
    let! r := protobuf_decode_string p rem in
    match r with
    | None => Ret None
    | Some (s, n) =>
      let name := match s with Some s => Some s | None => nl_name link end in
      Ret (Some (mkNodeLink (nl_hash_size link) (nl_hash link) name (nl_t_size link), n))
    end
  else if field_no =? 3 then
    let! (v, n) := varint_decode p (s32 rem) in
    Ret (Some (mkNodeLink (nl_hash_size link) (nl_hash link) (nl_name link) v, n))
  else Ret (Some (link, 0)).

(** [None]: returned 0 and the link is freed *)
Definition ipfs_node_link_protobuf_decode (buffer : bytes) (buffer_length : Z)
  : res (option NodeLink) :=
  match ipfs_node_link_new with
  | None => Ret None
  | Some link => decode_fields (decode_fuel buffer_length) link_handler buffer buffer_length 0 link
  end.

(** ** Nodes *)
Definition node_blank : HashtableNode := mkNode 0 None [] None None 0.

Definition ipfs_hashtable_node_new : option HashtableNode :=
  if malloc_ok sizeof_HashtableNode then Some node_blank else None.

(** the link goes to the end of the chain *)
Definition node_append_link (node : HashtableNode) (mylink : list NodeLink)
  : HashtableNode := set_node_links (n_head_link node ++ mylink) node.

Definition ipfs_hashtable_node_protobuf_encode_size (node : HashtableNode) : res Z :=
  let! size :=
    foldl (fun size current =>
      let! size := size in
      let! n := ipfs_node_link_protobuf_encode_size (Some current) in
      Ret (u64 (size + (11 + n)))) (Ret 0) (n_head_link node) in
  Ret (if 0 <? n_data_size node then u64 (size + (11 + n_data_size node)) else size).

Definition link_field (current : NodeLink) (buffer : bytes) (max : Z) : encoded :=
  let! temp_size := ipfs_node_link_protobuf_encode_size (Some current) in
  encode_nested 2 temp_size (ipfs_node_link_protobuf_encode current) buffer max.

Definition ipfs_hashtable_node_protobuf_encode (node : HashtableNode) (buffer : bytes)
    (max_buffer_length : Z) : encoded :=
  let max := max_buffer_length in
  (put_each link_field max (n_head_link node)
  ((if 0 <? n_data_size node then
      put_field (protobuf_encode_length_delimited 1 WIRETYPE_LENGTH_DELIMITED
                   (deref (n_data node)) (n_data_size node)) max else id)
  put_done)) 0 buffer.

(** a link that does not decode is skipped *)
Definition node_handler : handler HashtableNode := fun field_no p rem node =>
  if field_no =? 1 then
    let! r := protobuf_decode_length_delimited p rem in
    match r with
    | None => Ret None
    | Some (d, n) => Ret (Some (set_node_data d node, n))
    end
  else if field_no =? 2 then
    let! r := protobuf_decode_length_delimited p rem in
    match r with
    | None => Ret None
    | Some (temp_buffer, n) =>
      let! temp_link := ipfs_node_link_protobuf_decode temp_buffer (zlen temp_buffer) in
      match temp_link with
      | Some l => Ret (Some (node_append_link node [l], n))
      | None => Ret (Some (node, n))
      end
    end
  else Ret (Some (node, 0)).

(** [None]: returned 0 *)
Definition ipfs_hashtable_node_protobuf_decode (buffer : bytes) (buffer_length : Z)
  : res (option HashtableNode) :=
  if buffer_length =? 0 then Ret None
  else
    match ipfs_hashtable_node_new with
    | None => Ret None
    | Some node => decode_fields (decode_fuel buffer_length) node_handler buffer buffer_length 0 node
    end.

(** returned value and the node; [Data] NULL is [None] *)
Definition ipfs_hashtable_node_set_data (node : HashtableNode) (Data : option bytes) (data_size : Z)
  : res (Z * HashtableNode) :=
  match Data with
  | None => Ret (0, node)
  | Some p =>
    if malloc_ok data_size then
      let! d := memrd p data_size in
      Ret (1, mkNode data_size (Some d) (n_head_link node) (n_encoded node) (n_hash node) (n_hash_size node))
    else
      Ret (0, mkNode (n_data_size node) None (n_head_link node) (n_encoded node) (n_hash node)
                (n_hash_size node))
  end.

Definition ipfs_hashtable_node_set_hash (node : HashtableNode) (hash : bytes) (hash_size : Z)
  : res (Z * HashtableNode) :=
  let node :=
    if match n_hash node with Some _ => negb (hash_size =? n_hash_size node) | None => false end
    then set_node_hash None 0 node else node in
  let refused :=
    match n_hash node with None => (0 <? hash_size) && negb (malloc_ok hash_size) | Some _ => false end in
  if refused then Ret (0, node)
  else if 0 <? hash_size then
    let! h := memrd hash hash_size in Ret (1, set_node_hash (Some h) hash_size node)
  else Ret (1, node).

Definition ipfs_hashtable_node_set_encoded (N : HashtableNode) (Data : option bytes)
  : Z * HashtableNode :=
  match Data with
  | None => (0, N)
  | Some _ => (1, mkNode (n_data_size N) (n_data N) (n_head_link N) Data (n_hash N) (n_hash_size N))
  end.

Definition ipfs_hashtable_node_get_data (N : HashtableNode) : option bytes := n_data N.

(** the result of [ipfs_hashtable_node_set_data] is ignored *)
Definition ipfs_hashtable_node_create_directory : res (option HashtableNode) :=
  match ipfs_hashtable_node_new with
  | None => Ret None
  | Some node =>
    match ipfs_unixfs_new with
    | None => Ret None
    | Some unix_fs =>
      let unix_fs := set_data_type UNIXFS_DIRECTORY unix_fs in
      let protobuf_len := ipfs_unixfs_protobuf_encode_size unix_fs in
      let! ((r, protobuf_len), protobuf) :=
        ipfs_unixfs_protobuf_encode (Some unix_fs) (fresh protobuf_len) protobuf_len in
      if r =? 0 then Ret None
      else
        let! (_, node) := ipfs_hashtable_node_set_data node (Some protobuf) protobuf_len in
        Ret (Some node)
    end
  end.

Definition ipfs_hashtable_node_is_directory (node : HashtableNode) : res Z :=
  if n_data_size node <? 2 then Ret 0
  else
    let! r := ipfs_unixfs_protobuf_decode (deref (n_data node)) (n_data_size node) in
    match r with
    | None => Ret 0
    | Some unix_fs => Ret (if data_type unix_fs =? UNIXFS_DIRECTORY then 1 else 0)
    end.

Definition ipfs_hashtable_node_new_from_link (mylink : list NodeLink) : option HashtableNode :=
  if malloc_ok sizeof_HashtableNode
  then Some (node_append_link node_blank mylink)
  else None.

(** returned value and [*node], when it was set *)
Definition ipfs_hashtable_node_new_from_data (data : option bytes) (data_size : Z)
  : res (Z * option HashtableNode) :=
  match data with
  | None => Ret (0, None)
  | Some _ =>
    match ipfs_hashtable_node_new with
    | None => Ret (0, None)
    | Some node =>
      let! (r, node) := ipfs_hashtable_node_set_data node data data_size in Ret (r, Some node)
    end
  end.

Definition ipfs_hashtable_node_new_from_encoded (data : option bytes) : Z * option HashtableNode :=
  match data with
  | None => (0, None)
  | Some _ =>
    match ipfs_hashtable_node_new with
    | None => (0, None)
    | Some node => (1, Some (snd (ipfs_hashtable_node_set_encoded node data)))
    end
  end.
End node.

(** ** Validity and reference forms *)
Definition link_name (l : NodeLink) : bytes := c_str (deref (nl_name l)).

Definition link_wire (l : NodeLink) : bytes :=
  (if 0 <? nl_hash_size l
   then bytes_field 1 (multihash_bytes MH_H_SHA2_256 (deref (nl_hash l))) else []) ++
  bytes_field 2 (link_name l) ++
  (if 0 <? nl_t_size l then varint_field 3 (nl_t_size l) else []).

(** what [ipfs_node_link_protobuf_encode_size] computes *)
Definition link_size (l : NodeLink) : Z :=
  (if 0 <? nl_hash_size l then 11 + nl_hash_size l else 0) +
  (if 0 <? zlen (link_name l) then 11 + zlen (link_name l) else 0) +
  (if 0 <? nl_t_size l then 22 else 0).

(** the hash fits a one-byte multihash length, and something is set *)
Definition link_ok (l : NodeLink) : Prop :=
  nl_hash_size l = zlen (deref (nl_hash l)) /\ nl_hash_size l <= 127 /\
  from_option terminated True (nl_name l) /\ 0 <= nl_t_size l < 2 ^ 64 /\
  0 < link_size l <= INT_MAX.

Definition link_saved (l : NodeLink) : NodeLink :=
  mkNodeLink (nl_hash_size l)
    (if 0 <? nl_hash_size l then nl_hash l else None)
    (if 0 <? zlen (link_name l) then Some (link_name l ++ [0]) else None) (nl_t_size l).

Definition links_size (ls : list NodeLink) : Z :=
  foldr (fun l z => 11 + link_size l + z) 0 ls.
Definition node_size (n : HashtableNode) : Z :=
  links_size (n_head_link n) + (if 0 <? n_data_size n then 11 + n_data_size n else 0).

Definition node_wire (n : HashtableNode) : bytes :=
  concat ((fun l => bytes_field 2 (link_wire l)) <$> n_head_link n) ++
  (if 0 <? n_data_size n then bytes_field 1 (deref (n_data n)) else []).

Definition node_ok (n : HashtableNode) : Prop :=
  Forall link_ok (n_head_link n) /\ n_data_size n = zlen (deref (n_data n)) /\
  0 < node_size n <= INT_MAX.

(** [encoded] and [hash] are not part of the message *)
Definition node_saved (n : HashtableNode) : HashtableNode :=
  mkNode (n_data_size n) (if 0 <? n_data_size n then n_data n else None)
    (link_saved <$> n_head_link n) None None 0.

Section proofs.
Context {M : Malloc}.

Lemma name_present_ok name : from_option terminated True name ->
  name_present name = Ret (0 <? zlen (c_str (deref name))).
Proof.
  destruct name as [s|]; [|done]. simpl. intros Hs. by rewrite strlen_c_str.
Qed.

Lemma strlen_name name : from_option terminated True name -> 0 < zlen (c_str (deref name)) ->
  strlen (deref name) = Ret (zlen (c_str (deref name))).
Proof. destruct name as [s|]; [|done]. intros Hs _. by apply strlen_c_str. Qed.

Lemma link_size_parts l : link_ok l -> 0 <= nl_hash_size l /\ 0 <= zlen (link_name l) /\
  0 <= (if 0 <? nl_hash_size l then 11 + nl_hash_size l else 0) /\
  0 <= (if 0 <? zlen (link_name l) then 11 + zlen (link_name l) else 0) /\
  0 <= (if 0 <? nl_t_size l then 22 else 0).
Proof. intros (Hh & _). zlen_facts. repeat case_match; lia. Qed.

Lemma link_encode_size_ok l : link_ok l ->
  ipfs_node_link_protobuf_encode_size (Some l) = Ret (link_size l).
Proof.
  intros Hok. pose proof (link_size_parts l Hok) as (Hp1 & Hp2 & Hp3 & Hp4 & Hp5).
  destruct Hok as (Hh & Hh127 & Hn & Ht & Hs). unfold link_size, link_name, INT_MAX in *.
  unfold ipfs_node_link_protobuf_encode_size. rewrite name_present_ok by done. cbn [rbind].
  assert ((if 0 <? nl_hash_size l then u64 (0 + (11 + nl_hash_size l)) else 0) =
          (if 0 <? nl_hash_size l then 11 + nl_hash_size l else 0)) as ->.
  { destruct (0 <? nl_hash_size l); [rewrite u64_small by lia; lia|done]. }
  revert Hs Hp3 Hp4 Hp5. generalize (if 0 <? nl_hash_size l then 11 + nl_hash_size l else 0).
  intros z Hs Hz. revert Hs.
  destruct (Z.ltb_spec 0 (zlen (c_str (deref (nl_name l))))) as [Hl|Hl].
  - rewrite strlen_name by done. cbn [rbind].
    destruct (0 <? nl_t_size l); intros Hs _ _; rewrite (u64_small (z + _)) by lia;
      rewrite ?u64_small by lia; f_equal; lia.
  - cbn [rbind]. destruct (0 <? nl_t_size l); intros Hs _ _; rewrite ?u64_small by lia; f_equal; lia.
Qed.

Lemma multihash_bytes_length c d : zlen (multihash_bytes c d) = 2 + zlen d.
Proof. unfold multihash_bytes. rewrite !zlen_cons. lia. Qed.

Lemma link_wire_length l : link_ok l -> zlen (link_wire l) <= link_size l.
Proof.
  intros Hok. pose proof (link_size_parts l Hok) as (Hp1 & Hp2 & _).
  destruct Hok as (Hh & Hh127 & Hn & Ht & Hs). unfold link_wire, link_size in *.
  rewrite !zlen_app.
  pose proof (bytes_field_small 1 (multihash_bytes MH_H_SHA2_256 (deref (nl_hash l))) ltac:(lia)) as Hmh.
  rewrite multihash_bytes_length in Hmh. specialize (Hmh ltac:(lia)).
  pose proof (varint_field_le 3 (nl_t_size l) ltac:(lia)).
  pose proof (bytes_field_le 2 (link_name l) ltac:(lia)).
  destruct (Z.ltb_spec 0 (zlen (link_name l))).
  - repeat case_match; rewrite ?zlen_nil; lia.
  - rewrite (zlen_0_nil (link_name l)) by lia. change (zlen (bytes_field 2 [])) with 2.
    repeat case_match; rewrite ?zlen_nil; lia.
Qed.

Lemma link_hash_emits l : link_ok l ->
  emits (link_hash_field l) (bytes_field 1 (multihash_bytes MH_H_SHA2_256 (deref (nl_hash l)))).
Proof.
  intros (Hh & Hh127 & _) buf max H1 H2 H3. unfold link_hash_field, mh_new_length. zlen_facts.
  rewrite (u64_small (2 + _)), s32_small by lia. rewrite (u64_small (2 + _)) by lia. rewrite Hh.
  replace (mh_new _ _ (deref (nl_hash l)) _) with
    (mh_new (fresh (2 + zlen (deref (nl_hash l)))) MH_H_SHA2_256 (deref (nl_hash l) ++ [])
       (zlen (deref (nl_hash l)))) by (by rewrite app_nil_r).
  rewrite mh_new_ok by (rewrite ?zlen_fresh; unfold MH_H_SHA2_256; lia). cbn [rbind].
  rewrite <- multihash_bytes_length with (c := MH_H_SHA2_256).
  by apply encode_length_delimited_emits; auto with wire.
Qed.

Lemma link_name_emits l : link_ok l ->
  emits (link_name_field l) (bytes_field 2 (link_name l)).
Proof.
  intros (_ & _ & Hn & _) buf max. unfold link_name_field, link_name.
  rewrite name_present_ok by done. cbn [rbind]. zlen_facts.
  destruct (Z.ltb_spec 0 (zlen (c_str (deref (nl_name l))))).
  - destruct (nl_name l) as [s|]; [|done]. simpl in *.
    destruct (c_str_split s Hn) as [Hs [rest E]].
    pose proof (encode_string_field_emits 2 (c_str s) rest ltac:(auto with wire) Hs) as He.
    rewrite <- E in He. apply He.
  - rewrite (zlen_0_nil (c_str _)) by lia.
    apply (encode_string_field_emits 2 [] []); [auto with wire|apply Forall_nil_2].
Qed.

Lemma link_encode_emits l : link_ok l -> emits (ipfs_node_link_protobuf_encode l) (link_wire l).
Proof.
  intros Hok. apply (emits_continues (fun max => _)). intros max. unfold link_wire.
  apply continues_if; [auto using link_hash_emits|].
  apply continues_put; [by apply link_name_emits|].
  rewrite <- (app_nil_r (if 0 <? nl_t_size l then _ else _)).
  destruct Hok as (_ & _ & _ & Ht & _). auto with wire.
Qed.

Lemma links_size_nonneg ls : Forall link_ok ls -> 0 <= links_size ls.
Proof.
  induction 1 as [|l ls (_ & _ & _ & _ & Hl) _ IH]; simpl; lia.
Qed.

Lemma node_encode_size_ok n : node_ok n ->
  ipfs_hashtable_node_protobuf_encode_size n = Ret (node_size n).
Proof.
  intros (Hl & Hd & Hs). unfold ipfs_hashtable_node_protobuf_encode_size, node_size, INT_MAX in *.
  assert (forall z, 0 <= z -> z + links_size (n_head_link n) <= 2 ^ 31 ->
    foldl (fun size current =>
      let! size := size in
      let! n := ipfs_node_link_protobuf_encode_size (Some current) in
      Ret (u64 (size + (11 + n)))) (Ret z) (n_head_link n) = Ret (z + links_size (n_head_link n))) as Hf.
  { clear Hs Hd. induction Hl as [|l ls Hl Hls IH]; intros z Hz Hb; cbn [foldl].
    - simpl. by rewrite Z.add_0_r.
    - simpl links_size in *. pose proof (links_size_nonneg ls Hls). pose proof Hl as (_ & _ & _ & _ & Hll).
      rewrite link_encode_size_ok by done. cbn [rbind].
      rewrite u64_small, IH by lia. f_equal. lia. }
  pose proof (links_size_nonneg _ Hl). zlen_facts.
  rewrite Hf by (lia || (revert Hs; case_match; lia)). cbn [rbind].
  revert Hs. destruct (0 <? n_data_size n); intros; [rewrite u64_small by lia|]; f_equal; lia.
Qed.

Lemma node_wire_length n : node_ok n -> zlen (node_wire n) <= node_size n.
Proof.
  intros (Hl & Hd & _). unfold node_wire, node_size. rewrite zlen_app. apply Z.add_le_mono.
  - clear Hd. induction Hl as [|l ls Hl _ IH]; [done|].
    rewrite fmap_cons. cbn [concat links_size foldr]. rewrite zlen_app.
    fold (links_size ls).
    pose proof (link_wire_length l Hl). pose proof (bytes_field_le 2 (link_wire l) ltac:(lia)). lia.
  - case_match; [|done]. rewrite Hd. apply bytes_field_le. lia.
Qed.

Lemma node_encode_emits n : node_ok n -> emits (ipfs_hashtable_node_protobuf_encode n) (node_wire n).
Proof.
  intros (Hl & Hd & _). apply (emits_continues (fun max => _)). intros max. unfold node_wire.
  apply (continues_each link_field (fun l => bytes_field 2 (link_wire l))).
  - eapply Forall_impl; [exact Hl|]. intros l Hok buf m. unfold link_field.
    rewrite link_encode_size_ok by done. cbn [rbind]. pose proof Hok as (_ & _ & _ & _ & Hs).
    apply encode_nested_emits; [auto with wire|by apply link_encode_emits|].
    split; [by apply link_wire_length|lia].
  - rewrite <- (app_nil_r (if 0 <? n_data_size n then _ else _)). auto with wire.
Qed.

(** *** Decoding *)
Context {Hm : MallocOk M}.

Lemma link_handles_hash h st :
  handles link_handler 1
    (varint_bytes (zlen (multihash_bytes MH_H_SHA2_256 h)) ++ multihash_bytes MH_H_SHA2_256 h) st
    (mkNodeLink (zlen h) (Some h) (nl_name st) (nl_t_size st)).
Proof.
  solve_handles link_handler. rewrite multihash_bytes_length. zlen_facts. zbool.
  rewrite malloc_always. unfold multihash_bytes at 1.
  change (zdrop 2 (_ :: _ :: h)) with h. by replace (2 + zlen h - 2) with (zlen h) by lia.
Qed.

Lemma link_handles_name s st :
  handles link_handler 2 (varint_bytes (zlen s) ++ s) st
    (mkNodeLink (nl_hash_size st) (nl_hash st)
       (if 0 <? zlen s then Some (s ++ [0]) else nl_name st) (nl_t_size st)).
Proof. solve_handles link_handler. by destruct (0 <? zlen s). Qed.

Lemma link_handles_t_size v st : 0 <= v < 2 ^ 64 ->
  handles link_handler 3 (varint_bytes v) st
    (mkNodeLink (nl_hash_size st) (nl_hash st) (nl_name st) v).
Proof. intros. by solve_handles link_handler. Qed.

Lemma link_parses l : link_ok l -> parses link_handler (link_wire l) link_blank (link_saved l).
Proof.
  intros (Hh & Hh127 & Hn & Ht & Hs). unfold link_wire, link_saved. zlen_facts.
  eapply parses_app; [apply (parses_if _ _ _ _ (mkNodeLink (nl_hash_size l)
    (if 0 <? nl_hash_size l then nl_hash l else None) None 0))|].
  - intros Hc. rewrite Hc. destruct (nl_hash l) as [h|] eqn:Eh; 
      [|apply Z.ltb_lt in Hc; change (zlen (deref None)) with 0 in Hh; lia].
    rewrite Hh. apply parses_bytes, (link_handles_hash h link_blank). auto with wire.
  - intros Hc. rewrite Hc. apply Z.ltb_ge in Hc. unfold link_blank. f_equal. lia.
  - eapply parses_app; [apply parses_bytes, link_handles_name; auto with wire|].
    cbn [nl_hash_size nl_hash nl_name nl_t_size].
    apply parses_if; [intros _|intros Hc; apply Z.ltb_ge in Hc; f_equal; lia].
    apply parses_varint; [auto with wire|]. by apply (link_handles_t_size _ (mkNodeLink _ _ _ _)).
Qed.

Lemma link_decode_all l : link_ok l ->
  ipfs_node_link_protobuf_decode (link_wire l) (zlen (link_wire l)) = Ret (Some (link_saved l)).
Proof.
  intros Hok. pose proof (link_wire_length l Hok). pose proof Hok as (_ & _ & _ & _ & Hs).
  unfold ipfs_node_link_protobuf_decode, ipfs_node_link_new. rewrite malloc_always.
  rewrite <- (app_nil_r (link_wire l)) at 2. apply parses_decode; [by apply link_parses|lia].
Qed.

Lemma node_handles_data d st :
  handles node_handler 1 (varint_bytes (zlen d) ++ d) st (set_node_data d st).
Proof. by solve_handles node_handler. Qed.

Lemma node_handles_link l st : link_ok l ->
  handles node_handler 2 (varint_bytes (zlen (link_wire l)) ++ link_wire l) st
    (node_append_link st [link_saved l]).
Proof. intros Hl. solve_handles node_handler. by rewrite link_decode_all. Qed.

Lemma fold_add_link ls st :
  fold_left (fun st l => node_append_link st [link_saved l]) ls st =
    set_node_links (n_head_link st ++ (link_saved <$> ls)) st.
Proof.
  revert st. induction ls as [|l ls IH]; intros st; simpl.
  - rewrite app_nil_r. by destruct st.
  - rewrite IH. unfold node_append_link, set_node_links. simpl. by rewrite <- app_assoc.
Qed.

Lemma node_parses n : node_ok n -> parses node_handler (node_wire n) node_blank (node_saved n).
Proof.
  intros (Hl & Hd & Hs). unfold node_wire.
  eapply parses_app.
  - apply (parses_each _ (fun l => bytes_field 2 (link_wire l))
             (fun st l => node_append_link st [link_saved l])).
    intros l st Hin. rewrite Forall_forall in Hl.
    apply parses_bytes; [auto with wire|]. apply node_handles_link. by apply Hl.
  - rewrite fold_add_link. unfold node_saved. apply parses_if.
    + intros Hc. rewrite Hc. destruct (n_data n) as [d|] eqn:Ed;
        [|apply Z.ltb_lt in Hc; change (zlen (deref None)) with 0 in Hd; lia].
      rewrite Hd. apply parses_bytes; [auto with wire|].
      apply (node_handles_data d (set_node_links _ node_blank)).
    + intros Hc. rewrite Hc. apply Z.ltb_ge in Hc. zlen_facts.
      by replace (n_data_size n) with 0 by lia.
Qed.

Lemma node_wire_pos n : node_ok n -> 0 < zlen (node_wire n).
Proof.
  intros (Hl & Hd & Hs). unfold node_wire, node_size in *. rewrite zlen_app.
  assert (forall f d, 0 < zlen (bytes_field f d)) as Hpos.
  { intros. unfold bytes_field. rewrite zlen_app.
    pose proof (wire_key_pos f WIRETYPE_LENGTH_DELIMITED). zlen_facts. lia. }
  destruct (n_head_link n) as [|l ls].
  - simpl in *. revert Hs. case_match; [|lia]. intros _. pose proof (Hpos 1 (deref (n_data n))). zlen_facts. lia.
  - rewrite fmap_cons. cbn [concat]. rewrite zlen_app. pose proof (Hpos 2 (link_wire l)). zlen_facts. lia.
Qed.

Lemma node_decode_wire n post : node_ok n ->
  ipfs_hashtable_node_protobuf_decode (node_wire n ++ post) (zlen (node_wire n)) =
    Ret (Some (node_saved n)).
Proof.
  intros Hok. pose proof (node_wire_pos n Hok). pose proof (node_wire_length n Hok).
  pose proof Hok as (_ & _ & Hs). unfold ipfs_hashtable_node_protobuf_decode, ipfs_hashtable_node_new.
  zbool. rewrite malloc_always. apply parses_decode; [by apply node_parses|lia].
Qed.
End proofs.

(** ** Properties *)

(** Property C8. A well-formed node (every link with at most 127 bytes of hash
    and something to encode) is encoded inside a buffer of
    [ipfs_hashtable_node_protobuf_encode_size] bytes, and decoding what was
    written gives its links, in order, and its data back. *)
Theorem node_encode_decode {M : Malloc} {Hm : MallocOk M} (n : HashtableNode) (buf : bytes) :
  node_ok n -> ipfs_hashtable_node_protobuf_encode_size n = Ret (zlen buf) ->
  exists k buf', ipfs_hashtable_node_protobuf_encode n buf (zlen buf) = Ret ((1, k), buf') /\
    k <= zlen buf' /\ zlen buf' = zlen buf /\
    ipfs_hashtable_node_protobuf_decode buf' k = Ret (Some (node_saved n)).
Proof.
  intros Hok Hb. rewrite node_encode_size_ok in Hb by done. injection Hb as Hb.
  pose proof (node_wire_length n Hok). pose proof Hok as (_ & _ & Hs). zlen_facts.
  eexists _, _. split; [apply node_encode_emits; (done || lia)|].
  rewrite zlen_app, zlen_drop by lia. split; [lia|]. split; [lia|]. by apply node_decode_wire.
Qed.

Definition sample_link : NodeLink := mkNodeLink 4 (Some [1; 2; 3; 4]) (Some [97; 98; 0]) 300.
Definition sample_node : HashtableNode :=
  mkNode 2 (Some [8; 1]) [sample_link; mkNodeLink 1 (Some [9]) None 0] None (Some [7]) 1.

Lemma sample_link_ok : link_ok sample_link.
Proof.
  unfold link_ok, INT_MAX. cbn -[zlen Z.pow]. split_and!; try done.
  apply (terminated_nul [97; 98] []).
Qed.
Lemma sample_node_ok : node_ok sample_node.
Proof.
  split; [|by split_and!].
  apply Forall_cons_2; [apply sample_link_ok|]. apply Forall_cons_2; [|apply Forall_nil_2].
  unfold link_ok, INT_MAX. cbn -[zlen Z.pow]. by split_and!.
Qed.

Lemma node_encode_decode_witness :
  let M := malloc_total in
  exists k buf', ipfs_hashtable_node_protobuf_encode sample_node (replicate 97%nat 0) 97 = Ret ((1, k), buf') /\
    k <= zlen buf' /\ zlen buf' = 97 /\
    ipfs_hashtable_node_protobuf_decode buf' k = Ret (Some (node_saved sample_node)).
Proof.
  intros M. apply (node_encode_decode sample_node (replicate 97%nat 0)).
  - apply sample_node_ok.
  - reflexivity.
Defined.

(** A directory node made by
    [ipfs_hashtable_node_create_directory] is the two bytes [08 01] (a UnixFS
    message of type directory), holds no links, and
    [ipfs_hashtable_node_is_directory] recognises it; any node whose data is a
    UnixFS message is a directory exactly when the message's type says so. *)
Lemma node_directory_recognised {M : Malloc} {Hm : MallocOk M} (o : UnixFS) (n : HashtableNode) :
  unixfs_fits o -> n_data n = Some (unixfs_wire o) -> n_data_size n = zlen (unixfs_wire o) ->
  ipfs_hashtable_node_is_directory n = Ret (if data_type o =? UNIXFS_DIRECTORY then 1 else 0) /\
  exists d, ipfs_hashtable_node_create_directory = Ret (Some d) /\
    n_data d = Some [8; 1] /\ n_data_size d = 2 /\ n_head_link d = [] /\
    ipfs_hashtable_node_is_directory d = Ret 1.
Proof.
  intros Ho Hd Hs. split.
  - unfold ipfs_hashtable_node_is_directory. pose proof Ho as ((Ht & _) & _).
    assert (2 <= zlen (unixfs_wire o)) as Hl.
    { unfold unixfs_wire, varint_field. rewrite !zlen_app.
      pose proof (wire_key_pos 1 WIRETYPE_VARINT). pose proof (varint_bytes_pos (data_type o)).
      zlen_facts. lia. }
    rewrite Hs, Hd. zbool. change (deref (Some ?x)) with x.
    pose proof (unixfs_decode_wire o [] Ho) as Hw. rewrite app_nil_r in Hw. rewrite Hw. done.
  - assert (unixfs_fits (set_data_type UNIXFS_DIRECTORY unixfs_blank)) as Hdir by (repeat split; done).
    exists (set_node_data [8; 1] node_blank).
    assert (ipfs_hashtable_node_create_directory = Ret (Some (set_node_data [8; 1] node_blank))) as ->.
    { unfold ipfs_hashtable_node_create_directory, ipfs_hashtable_node_new, ipfs_unixfs_new.
      rewrite !malloc_always. cbv zeta.
      rewrite (unixfs_encode_emits _ (proj1 Hdir)) by (try apply (unixfs_size_ok _ Hdir); by rewrite zlen_fresh).
      cbn [rbind]. zbool. unfold ipfs_hashtable_node_set_data. rewrite malloc_always.
      change (unixfs_wire _) with [8; 1]. rewrite memrd_app by done. done. }
    split_and!; try done.
    unfold ipfs_hashtable_node_is_directory. cbn [n_data_size set_node_data]. zbool.
    pose proof (unixfs_decode_wire (set_data_type UNIXFS_DIRECTORY unixfs_blank) [] Hdir) as Hw.
    cbn [n_data set_node_data]. change (deref (Some ?x)) with x.
    change (unixfs_wire _ ++ []) with [8; 1] in Hw. change (zlen (unixfs_wire _)) with (zlen [8; 1]) in Hw.
    by rewrite Hw.
Qed.

(** [ipfs_node_link_protobuf_encode_size] is 0 for a link with no
    hash, no name and no size, but the encoder always writes an empty name
    field: encoding a node that holds such a link writes outside the
    temporary array. *)
Lemma link_encode_empty_overflows {M : Malloc} (l : NodeLink) (ls : list NodeLink) (n : HashtableNode)
    (buf : bytes) (max : Z) :
  nl_hash_size l = 0 -> nl_t_size l = 0 -> match nl_name l with Some s => strlen s = Ret 0 | None => True end ->
  n_head_link n = l :: ls ->
  ipfs_node_link_protobuf_encode_size (Some l) = Ret 0 /\
  ipfs_hashtable_node_protobuf_encode n buf max = UB.
Proof.
  intros Hh Ht Hn Hl.
  assert (name_present (nl_name l) = Ret false) as Hp.
  { unfold name_present. destruct (nl_name l); [|done]. by rewrite Hn. }
  assert (ipfs_node_link_protobuf_encode_size (Some l) = Ret 0) as Hsz.
  { unfold ipfs_node_link_protobuf_encode_size. by rewrite Hp, Hh, Ht. }
  split; [done|]. unfold ipfs_hashtable_node_protobuf_encode. rewrite Hl. cbn [put_each foldr].
  unfold put_field at 1, with_ptr. rewrite padd_ok by (zlen_facts; lia). cbn [rbind].
  unfold link_field at 1. rewrite Hsz. cbn [rbind]. unfold encode_nested at 1.
  unfold ipfs_node_link_protobuf_encode. rewrite Hh, Ht. change (0 <? 0) with false. cbv iota.
  unfold id, link_name_field. rewrite Hp. cbn [rbind]. reflexivity.
Qed.

(** The length of a link's name is read as a signed [int] and
    added to the position without a check: the six bytes
    [12 fa ff ff ff 0f] (a name of length -6) move the position back to where it
    was, so decoding any link message that starts with them never ends. *)
Lemma link_decode_diverges {M : Malloc} (rest : bytes) (fuel : nat) (len : Z) (st : NodeLink) :
  6 <= len <= INT_MAX ->
  decode_fields fuel link_handler ([18; 250; 255; 255; 255; 15] ++ rest) len 0 st = NoFuel.
Proof.
  intros Hl. apply (decode_fields_stuck link_handler 2 2 [] ([250; 255; 255; 255; 15] ++ rest));
    [auto with wire|done|by change (zlen _ + _) with 1; lia|].
  unfold link_handler. zbool. change (zlen [] + _) with 1.
  pose proof (decode_string_negative 6 rest (len - 1) ltac:(lia) ltac:(lia)) as Hs.
  change (varint_bytes (2 ^ 32 - 6)) with [250; 255; 255; 255; 15] in Hs. rewrite Hs. by destruct st.
Qed.
