(* ===== verification/CidSet.v ===== *)
(** * CID sets (libipfs/cid/set.c)

    A [struct CidSet] is a linked list of CIDs, keyed by their hashes, whose
    first cell is the set itself; the empty set is one cell with a NULL [cid].
    A cell owns its CID; [Wild] is a pointer to a CID that was freed. *)
From S2P Require Import Prelude Multihash Cid Heap.

Definition ErrAllocFailed : Z := 1.
Definition ErrInvalidParam : Z := 19.

Definition sizeof_CidSet : Z := 16.

Abbreviation cid_heap := (heap (ptr Cid)).

Section set.
Context {M : Malloc}.

Definition ipfs_cid_set_new (h : cid_heap) : option (positive * cid_heap) :=
  alloc sizeof_CidSet (Null, None) h.

(** [set->cid->hash_length == cid->hash_length && memcmp(...) == 0] *)
Definition cid_set_matches (p : ptr Cid) (cid : Cid) : res bool :=
  match p with
  | Ptr c =>
    if cid_hash_length c =? cid_hash_length cid then
      let! a := memrd (deref (cid_hash c)) (cid_hash_length cid) in
      let! b := memrd (deref (cid_hash cid)) (cid_hash_length cid) in
      Ret (bool_decide (a = b))
    else Ret false
  | _ => UB
  end.

(** the struct after [memcpy] and [calloc] of the hash; [false]: [calloc] failed
    and the hash is NULL *)
Definition cid_set_copy (cid : Cid) : res (bool * Cid) :=
  if malloc_ok (cid_hash_length cid) then
    let! b := memrd (deref (cid_hash cid)) (cid_hash_length cid) in
    Ret (true, mkCid (cid_version cid) (cid_codec cid) (Some b) (cid_hash_length cid))
  else Ret (false, mkCid (cid_version cid) (cid_codec cid) None (cid_hash_length cid)).

(** [set->cid] of a cell that receives its first CID; [on_fail] is what is left
    in it when the hash cannot be allocated *)
Definition cid_set_fill (cid : Cid) (on_fail : Cid -> ptr Cid) : res (Z * ptr Cid) :=
  if malloc_ok sizeof_Cid then
    let! (ok, c) := cid_set_copy cid in
    if ok : bool then Ret (0, Ptr c) else Ret (ErrAllocFailed, on_fail c)
  else Ret (ErrAllocFailed, Null).

Fixpoint cid_set_add_loop (fuel : nat) (h : cid_heap) (set : loc) (cid : Cid) (visit : Z)
  : res (Z * cid_heap) :=
  match fuel with
  | O => NoFuel
  | S fuel =>
    let! (c, next) := load h set in
    let! found := cid_set_matches c cid in
    if found : bool then
      if visit =? 0 then
        let! (ok, c) := cid_set_copy cid in
        let! h := store h set (Ptr c, next) in
        Ret (if ok : bool then 0 else ErrAllocFailed, h)
      else Ret (0, h)
    else
      match next with
      | None =>
        match ipfs_cid_set_new h with
        | None => Ret (ErrAllocFailed, h)
        | Some (l, h) =>
          let! h := store h set (c, Some l) in
          let! (err, c) := cid_set_fill cid Ptr in
          let! h := store h (Some l) (c, None) in
          Ret (err, h)
        end
      | Some _ => cid_set_add_loop fuel h next cid visit
      end
  end.

(** in the first cell the CID struct is freed when its hash cannot be allocated *)
Definition ipfs_cid_set_add (h : cid_heap) (set : loc) (cid : option Cid) (visit : Z)
  : res (Z * cid_heap) :=
  match set, cid with
  | None, _ | _, None => Ret (ErrInvalidParam, h)
  | Some _, Some cid =>
    let! (c, next) := load h set in
    match c with
    | Null =>
      let! (err, c) := cid_set_fill cid (fun _ => Wild) in
      let! h := store h set (c, next) in
      Ret (err, h)
    | _ => cid_set_add_loop (walk_fuel h) h set cid visit
    end
  end.

Fixpoint cid_set_has_loop (fuel : nat) (h : cid_heap) (set : loc) (cid : Cid) : res Z :=
  match fuel with
  | O => NoFuel
  | S fuel =>
    let! (c, next) := load h set in
    let! found := cid_set_matches c cid in
    if found : bool then Ret 1
    else match next with None => Ret 0 | Some _ => cid_set_has_loop fuel h next cid end
  end.

Definition ipfs_cid_set_has (h : cid_heap) (set : loc) (cid : option Cid) : res Z :=
  match set, cid with
  | None, _ | _, None => Ret 0
  | Some _, Some cid =>
    let! (c, _) := load h set in
    match c with Null => Ret 0 | _ => cid_set_has_loop (walk_fuel h) h set cid end
  end.

Fixpoint cid_set_remove_loop (fuel : nat) (h : cid_heap) (prev set : loc) (cid : Cid)
  : res (Z * cid_heap) :=
  match fuel with
  | O => NoFuel
  | S fuel =>
    let! (c, next) := load h set in
    let! found := cid_set_matches c cid in
    if found : bool then
      if bool_decide (prev = set) then
        match next with
        | None => let! h := store h prev (Null, next) in Ret (1, h)
        | Some _ =>
          let! (c', _) := load h next in
          let! h := store h prev (c', next) in
          let! h := release h next in
          Ret (1, h)
        end
      else
        let! (pc, _) := load h prev in
        let! h := store h prev (pc, next) in
        let! h := release h set in
        Ret (1, h)
    else
      match next with
      | None => Ret (0, h)
      | Some _ => cid_set_remove_loop fuel h set next cid
      end
  end.

Definition ipfs_cid_set_remove (h : cid_heap) (set : loc) (cid : option Cid) : res (Z * cid_heap) :=
  match set, cid with
  | None, _ | _, None => Ret (0, h)
  | Some _, Some cid =>
    let! (c, _) := load h set in
    match c with
    | Null => Ret (0, h)
    | _ => cid_set_remove_loop (walk_fuel h) h set set cid
    end
  end.

Fixpoint cid_set_len_loop (fuel : nat) (h : cid_heap) (set : loc) (len : Z) : res Z :=
  match fuel with
  | O => NoFuel
  | S fuel =>
    match set with
    | None => Ret len
    | Some _ =>
      let! (_, next) := load h set in
      let! len := int_op (len + 1) in
      cid_set_len_loop fuel h next len
    end
  end.

Definition ipfs_cid_set_len (h : cid_heap) (set : loc) : res Z :=
  match set with
  | None => Ret 0
  | Some _ =>
    let! (c, _) := load h set in
    match c with Null => Ret 0 | _ => cid_set_len_loop (walk_fuel h) h set 0 end
  end.

(** one element of the result: the hash and a NUL; [None] is NULL *)
Definition cid_set_key (c : ptr Cid) : res (option bytes) :=
  match c with
  | Null => Ret None
  | Wild => UB
  | Ptr c =>
    match cid_hash c with
    | None => Ret None
    | Some p =>
      if malloc_ok (u64 (cid_hash_length c + 1)) then
        let! b := memrd p (cid_hash_length c) in Ret (Some (b ++ [0]))
      else Ret None
    end
  end.

(** [for (i = 0; i < len; len++)] with [i] the index in the result, which the
    loop does not change *)
Fixpoint cid_set_keys_loop (fuel : nat) (h : cid_heap) (set : loc) (i len : Z)
    (ret : list (option bytes)) : res (list (option bytes)) :=
  match fuel with
  | O => NoFuel
  | S fuel =>
    if i <? len then
      let! ret :=
        match set with
        | None => Ret ret
        | Some _ =>
          let! (c, _) := load h set in
          let! k := cid_set_key c in
          Ret (match k with Some _ => <[Z.to_nat i := k]> ret | None => ret end)
        end in
      let! (_, next) := load h set in
      let! len := int_op (len + 1) in
      cid_set_keys_loop fuel h next i len ret
    else Ret ret
  end.

(** [None]: NULL *)
Definition ipfs_cid_set_keys (h : cid_heap) (set : loc) : res (option (list (option bytes))) :=
  let! len := ipfs_cid_set_len h set in
  if malloc_ok (u64 ((len + 1) * 8)) then
    let! ret := cid_set_keys_loop (walk_fuel h) h set 0 len (replicate (Z.to_nat (len + 1)) None) in
    Ret (Some ret)
  else Ret None.

(** [func] is the caller's, with a state of its own *)
Fixpoint cid_set_foreach_loop {S} (fuel : nat) (func : S -> Cid -> Z * S) (h : cid_heap) (set : loc)
    (err : Z) (s : S) : res (Z * S) :=
  match fuel with
  | O => NoFuel
  | Datatypes.S fuel =>
    match set with
    | None => Ret (err, s)
    | Some _ =>
      let! (c, next) := load h set in
      match c with
      | Null => cid_set_foreach_loop fuel func h next err s
      | Wild => UB
      | Ptr c =>
        let (err, s) := func s c in
        if negb (err =? 0) then Ret (err, s) else cid_set_foreach_loop fuel func h next err s
      end
    end
  end.

Definition ipfs_cid_set_foreach {S} (func : S -> Cid -> Z * S) (h : cid_heap) (set : loc) (s : S)
  : res (Z * S) := cid_set_foreach_loop (walk_fuel h) func h set 0 s.

(** [*set] is NULL afterwards *)
Fixpoint cid_set_destroy_loop (fuel : nat) (h : cid_heap) (set : loc) : res cid_heap :=
  match fuel with
  | O => NoFuel
  | S fuel =>
    match set with
    | None => Ret h
    | Some _ =>
      let! (c, next) := load h set in
      match c with
      | Wild => UB
      | _ => let! h := release h set in cid_set_destroy_loop fuel h next
      end
    end
  end.

Definition ipfs_cid_set_destroy (h : cid_heap) (set : loc) : res cid_heap :=
  cid_set_destroy_loop (walk_fuel h) h set.
End set.

(** ** Abstract sets *)

(** two CIDs with the same hash are the same member *)
Definition same_hash (a b : Cid) : Prop :=
  cid_hash_length a = cid_hash_length b /\ deref (cid_hash a) = deref (cid_hash b).
#[export] Instance same_hash_dec a b : Decision (same_hash a b).
Proof. unfold same_hash. apply _. Defined.
#[export] Instance same_hash_equivalence : Equivalence same_hash.
Proof.
  split.
  - intros a. done.
  - intros a b [? ?]. by split.
  - intros a b c [? ?] [? ?]. split; congruence.
Qed.

Definition member_ok (c : Cid) : Prop := cid_hash_length c = zlen (deref (cid_hash c)).

(** the cells of members at known locations *)
Definition member_cells (k : list (positive * Cid)) : list (positive * ptr Cid) :=
  (fun x => (x.1, Ptr x.2)) <$> k.

(** [set] is the set of the CIDs [cs], in the order of the list *)
Definition cid_set (h : cid_heap) (set : positive) (cs : list Cid) : Prop :=
  heap_ok h /\ Forall member_ok cs /\
  match cs with
  | [] => cells h !! set = Some (Null, None)
  | _ => exists k, cs = k.*2 /\ seg (cells h) (Some set) (member_cells k) None
  end.

(** the reference operations *)
Definition set_has (c : Cid) (cs : list Cid) : bool := existsb (fun d => bool_decide (same_hash d c)) cs.
Definition stored (c : Cid) : Cid :=
  mkCid (cid_version c) (cid_codec c) (Some (deref (cid_hash c))) (cid_hash_length c).
(** replace the member with the hash of [c], or append [c] *)
Fixpoint set_add (c : Cid) (visit : bool) (cs : list Cid) : list Cid :=
  match cs with
  | [] => [stored c]
  | d :: cs => if decide (same_hash d c) then (if visit then d else stored c) :: cs
               else d :: set_add c visit cs
  end.
Fixpoint set_remove (c : Cid) (cs : list Cid) : list Cid :=
  match cs with
  | [] => []
  | d :: cs => if decide (same_hash d c) then cs else d :: set_remove c cs
  end.

Section proofs.
Context {M : Malloc}.

Lemma cid_set_matches_ok d c : member_ok d -> member_ok c ->
  cid_set_matches (Ptr d) c = Ret (bool_decide (same_hash d c)).
Proof.
  intros Hd Hc. unfold cid_set_matches, member_ok, same_hash in *.
  destruct (Z.eqb_spec (cid_hash_length d) (cid_hash_length c)) as [He|He].
  - rewrite !memrd_all by congruence. cbn [rbind]. f_equal. apply bool_decide_ext. tauto.
  - rewrite bool_decide_eq_false_2 by tauto. done.
Qed.

Lemma member_cells_locs k : (member_cells k).*1 = k.*1.
Proof. unfold member_cells. by rewrite <- list_fmap_compose. Qed.
Lemma member_cells_app k1 k2 : member_cells (k1 ++ k2) = member_cells k1 ++ member_cells k2.
Proof. apply fmap_app. Qed.

(** the walk never runs out of fuel on a set *)
Lemma member_fuel h p k : seg (cells h) p (member_cells k) None -> (length k < walk_fuel h)%nat.
Proof. intros Hs%seg_length. unfold member_cells in Hs. rewrite length_fmap in Hs. unfold walk_fuel. lia. Qed.

(** one cell of a well-formed set *)
Lemma member_step m p pre l d post :
  seg m p (member_cells (pre ++ (l, d) :: post)) None ->
  exists n, m !! l = Some (Ptr d, n) /\ seg m p (member_cells pre) (Some l) /\
    seg m n (member_cells post) None /\ l ∉ pre.*1 /\ l ∉ post.*1.
Proof.
  intros Hs. rewrite member_cells_app in Hs. pose proof (seg_NoDup _ _ _ Hs) as Hnd.
  apply (seg_lookup _ _ (member_cells pre) l (Ptr d) (member_cells post)) in Hs as (n & Hl & H1 & H2).
  exists n. split_and!; try done.
  - rewrite fmap_app, !member_cells_locs in Hnd. apply NoDup_app in Hnd as (_ & Hnd & _).
    intros Hin. apply (Hnd l Hin). apply list_elem_of_here.
  - rewrite fmap_app, !member_cells_locs in Hnd. apply NoDup_app in Hnd as (_ & _ & Hnd).
    by apply NoDup_cons in Hnd as [? _].
Qed.

Lemma seg_nonempty m n k : seg m n (member_cells k) None ->
  match k with [] => n = None | (l, _) :: _ => n = Some l end.
Proof. destruct k as [|[l d] k]; [done|]. by intros [? _]. Qed.

Lemma cid_set_has_loop_ok h c k : member_ok c -> Forall member_ok k.*2 -> forall p fuel,
  k <> [] -> seg (cells h) p (member_cells k) None -> (length k <= fuel)%nat ->
  cid_set_has_loop fuel h p c = Ret (if set_has c k.*2 then 1 else 0).
Proof.
  intros Hc. induction k as [|[l d] k IH]; intros Hk p [|fuel] Hne Hs Hf; try done; [simpl in Hf; lia|].
  apply Forall_cons in Hk as [Hd Hk]. destruct Hs as (-> & n & Hl & Hs). cbn [cid_set_has_loop fst snd] in *.
  rewrite (load_some _ _ _ Hl). cbn [rbind]. rewrite cid_set_matches_ok by done.
  cbn [rbind fmap list_fmap set_has existsb snd]. case_bool_decide; [done|]. cbn [orb].
  pose proof (seg_nonempty _ _ _ Hs) as Hn. destruct k as [|[l' d'] k]; subst n; [done|].
  apply IH; [done|done|done|simpl in *; lia].
Qed.

(** overwriting the CID of one cell *)
Lemma member_update m p pre l d d' post n :
  m !! l = Some (Ptr d, n) -> seg m p (member_cells (pre ++ (l, d) :: post)) None ->
  seg (<[l := (Ptr d', n)]> m) p (member_cells (pre ++ (l, d') :: post)) None.
Proof.
  intros Hl Hs. pose proof (seg_NoDup _ _ _ Hs) as Hnd. rewrite member_cells_app in *.
  apply (seg_lookup _ _ _ l (Ptr d) (member_cells post)) in Hs as (n' & Hl' & H1 & H2).
  rewrite Hl in Hl'. injection Hl' as <-.
  rewrite fmap_app in Hnd. apply NoDup_app in Hnd as (_ & Hpre & Hpost).
  apply NoDup_cons in Hpost as [Hpost _].
  apply seg_app. exists (Some l). split.
  - apply seg_insert; [|done]. intros Hin. apply (Hpre l Hin). apply list_elem_of_here.
  - split; [done|]. exists n. rewrite lookup_insert_eq. split; [done|]. by apply seg_insert.
Qed.

(** linking a new cell behind the last one *)
Lemma member_snoc h p pre l d c :
  heap_ok h -> seg (cells h) p (member_cells (pre ++ [(l, d)])) None ->
  seg (<[brk h := (Ptr c, None)]> (<[l := (Ptr d, Some (brk h))]> (<[brk h := (Null, None)]> (cells h)))) p
    (member_cells (pre ++ [(l, d); (brk h, c)])) None.
Proof.
  intros Hok Hs. pose proof (heap_ok_seg_fresh _ _ _ _ Hok Hs) as Hf. rewrite member_cells_locs in Hf.
  rewrite fmap_app, not_elem_of_app in Hf. destruct Hf as [Hf1 Hf2].
  cbn [fmap list_fmap fst] in Hf2. rewrite list_elem_of_singleton in Hf2.
  apply member_step in Hs as (n & Hl & H1 & _ & Hlp & _).
  rewrite member_cells_app. apply seg_app. exists (Some l). split.
  - repeat (apply seg_insert; [by rewrite member_cells_locs|]). done.
  - split; [done|]. exists (Some (brk h)). rewrite lookup_insert_ne, lookup_insert_eq by done.
    split; [done|]. split; [done|]. exists None.
    split; [apply lookup_insert_eq|done].
Qed.

Lemma cid_set_copy_ok {Hm : MallocOk M} c : member_ok c -> cid_set_copy c = Ret (true, stored c).
Proof. intros Hc. unfold cid_set_copy. by rewrite malloc_always, memrd_all. Qed.
Lemma cid_set_fill_ok {Hm : MallocOk M} c f : member_ok c -> cid_set_fill c f = Ret (0, Ptr (stored c)).
Proof. intros Hc. unfold cid_set_fill. by rewrite malloc_always, cid_set_copy_ok. Qed.

(** the cell that already holds the hash *)
Lemma cid_set_found {Hm : MallocOk M} s c visit h pre l d post n :
  member_ok c -> heap_ok h -> cells h !! l = Some (Ptr d, n) ->
  seg (cells h) (Some s) (member_cells (pre ++ (l, d) :: post)) None ->
  exists h' k',
    (if visit =? 0 then
       let! (ok, c0) := cid_set_copy c in
       let! h1 := store h (Some l) (Ptr c0, n) in Ret (if ok : bool then 0 else ErrAllocFailed, h1)
     else Ret (0, h)) = Ret (0, h') /\ heap_ok h' /\
    seg (cells h') (Some s) (member_cells (pre ++ k')) None /\
    k'.*2 = (if negb (visit =? 0) then d else stored c) :: post.*2.
Proof.
  intros Hc Hok Hl Hs. destruct (visit =? 0).
  - rewrite cid_set_copy_ok by done. cbn [rbind]. rewrite (store_some _ _ _ _ Hl). cbn [rbind].
    eexists _, ((l, stored c) :: post). split; [done|]. split; [apply heap_ok_insert; [done|by eexists]|].
    split; [by eapply member_update|done].
  - by exists h, ((l, d) :: post).
Qed.

(** appending to a list without the hash *)
Lemma cid_set_append {Hm : MallocOk M} s c h pre l d :
  member_ok c -> heap_ok h -> seg (cells h) (Some s) (member_cells (pre ++ [(l, d)])) None ->
  exists h',
    match ipfs_cid_set_new h with
    | None => Ret (ErrAllocFailed, h)
    | Some (l', h) =>
      let! h := store h (Some l) (Ptr d, Some l') in
      let! (err, c) := cid_set_fill c Ptr in
      let! h := store h (Some l') (c, None) in
      Ret (err, h)
    end = Ret (0, h') /\ heap_ok h' /\
    seg (cells h') (Some s) (member_cells (pre ++ [(l, d); (brk h, stored c)])) None.
Proof.
  intros Hc Hok Hs. pose proof (member_step _ _ _ _ _ _ Hs) as (n & Hl & _).
  assert (brk h <> l) as Hne by (intros <-; rewrite heap_ok_fresh in Hl by done; done).
  unfold ipfs_cid_set_new. rewrite alloc_ok.
  erewrite store_some by (cbn [cells]; rewrite lookup_insert_ne by done; exact Hl). cbn [rbind].
  rewrite cid_set_fill_ok by done. cbn [rbind].
  erewrite store_some by (cbn [cells]; rewrite lookup_insert_ne, lookup_insert_eq by done; reflexivity).
  cbn [rbind cells brk]. eexists. split; [done|]. split; [|by apply member_snoc].
  pose proof (heap_ok_alloc h (Null, None) Hok) as H1.
  pose proof (heap_ok_insert _ l (Ptr d, Some (brk h)) H1) as H2. cbn [cells brk] in H2.
  rewrite lookup_insert_ne in H2 by done. specialize (H2 ltac:(by eexists)).
  pose proof (heap_ok_insert _ (brk h) (Ptr (stored c), None) H2) as H3. cbn [cells brk] in H3.
  apply H3. rewrite lookup_insert_ne, lookup_insert_eq by done. by eexists.
Qed.

(** adding behind the cells [pre], none of which has the hash *)
Lemma cid_set_add_loop_ok {Hm : MallocOk M} s c visit post : member_ok c -> forall h pre l d fuel,
  heap_ok h -> Forall member_ok (d :: post.*2) ->
  seg (cells h) (Some s) (member_cells (pre ++ (l, d) :: post)) None ->
  (length post < fuel)%nat ->
  exists h' k', cid_set_add_loop fuel h (Some l) c visit = Ret (0, h') /\ heap_ok h' /\
    seg (cells h') (Some s) (member_cells (pre ++ k')) None /\
    k'.*2 = set_add c (negb (visit =? 0)) (d :: post.*2).
Proof.
  intros Hc. induction post as [|[l' d'] post IH]; intros h pre l d [|fuel] Hok Hk Hs Hf; try (simpl in Hf; lia);
    apply Forall_cons in Hk as [Hd Hk]; pose proof (member_step _ _ _ _ _ _ Hs) as (n & Hl & Hpre & Hpost & Hlp & Hlq);
    cbn [cid_set_add_loop]; rewrite (load_some _ _ _ Hl); cbn [rbind];
    rewrite cid_set_matches_ok by done; cbn [rbind set_add].
  - destruct (decide (same_hash d c)) as [Hsame|Hdiff].
    + rewrite bool_decide_eq_true_2 by done. by eapply cid_set_found.
    + rewrite bool_decide_eq_false_2 by done. simpl in Hpost. subst n.
      destruct (cid_set_append s c h pre l d Hc Hok Hs) as (h' & E & Hok' & Hs').
      eexists h', [(l, d); (brk h, stored c)]. by split_and!.
  - destruct (decide (same_hash d c)) as [Hsame|Hdiff].
    + rewrite bool_decide_eq_true_2 by done. by eapply cid_set_found.
    + rewrite bool_decide_eq_false_2 by done. pose proof Hpost as [-> _].
      destruct (IH h (pre ++ [(l, d)]) l' d' fuel) as (h' & k' & E & Hok' & Hs' & Hk');
        [done|done|by rewrite <- app_assoc|simpl in *; lia|].
      exists h', ((l, d) :: k'). rewrite <- app_assoc in Hs'. split_and!; [done|done|done|].
      rewrite fmap_cons. cbn [snd]. by rewrite Hk'.
Qed.

(** unlinking the cell behind [lp] *)
Lemma member_unlink m p pre lp dp l d post n :
  m !! l = Some (Ptr d, n) -> seg m p (member_cells ((pre ++ [(lp, dp)]) ++ (l, d) :: post)) None ->
  seg (delete l (<[lp := (Ptr dp, n)]> m)) p (member_cells ((pre ++ [(lp, dp)]) ++ post)) None.
Proof.
  intros Hl Hs. pose proof (member_step _ _ _ _ _ _ Hs) as (n' & Hl' & _ & Hpost & Hlpre & Hlpost).
  rewrite Hl in Hl'. injection Hl' as <-.
  rewrite <- app_assoc in *. cbn [app] in *.
  pose proof (member_step _ _ _ _ _ _ Hs) as (n' & Hlp & Hpre & _ & Hlp1 & Hlp2).
  rewrite fmap_cons, not_elem_of_cons in Hlp2. destruct Hlp2 as [Hne Hlp2]. cbn [fst] in Hne.
  rewrite fmap_app, not_elem_of_app in Hlpre. destruct Hlpre as [Hlpre _].
  rewrite member_cells_app. apply seg_app. exists (Some lp). split.
  - apply seg_delete; [by rewrite member_cells_locs|]. apply seg_insert; [by rewrite member_cells_locs|done].
  - split; [done|]. exists n. rewrite lookup_delete_ne, lookup_insert_eq by done. split; [done|].
    apply seg_delete; [by rewrite member_cells_locs|]. apply seg_insert; [by rewrite member_cells_locs|done].
Qed.

(** the branch of the loop that unlinks *)
Lemma cid_set_unlink s h pre lp dp l d post n :
  heap_ok h -> cells h !! l = Some (Ptr d, n) ->
  seg (cells h) (Some s) (member_cells ((pre ++ [(lp, dp)]) ++ (l, d) :: post)) None ->
  bool_decide (Some lp = Some l) = false /\
  exists h',
  (let! (pc, _) := load h (Some lp) in
   let! h := store h (Some lp) (pc, n) in
   let! h := release h (Some l) in
   Ret (1, h)) = Ret (1, h') /\ heap_ok h' /\
  seg (cells h') (Some s) (member_cells ((pre ++ [(lp, dp)]) ++ post)) None.
Proof.
  intros Hok Hl Hs. pose proof (member_unlink _ _ _ _ _ _ _ _ _ Hl Hs) as Hs'.
  rewrite <- app_assoc in Hs. cbn [app] in Hs.
  pose proof (member_step _ _ _ _ _ _ Hs) as (n' & Hlp & _ & _ & _ & Hne).
  rewrite fmap_cons, not_elem_of_cons in Hne. destruct Hne as [Hne _]. cbn [fst] in Hne.
  split; [by apply bool_decide_eq_false_2; intros [= ->]|].
  rewrite (load_some _ _ _ Hlp). cbn [rbind]. rewrite (store_some _ _ _ _ Hlp). cbn [rbind].
  rewrite (release_some _ _ (Ptr d, n)) by (cbn [cells]; by rewrite lookup_insert_ne).
  cbn [rbind]. eexists. split; [done|]. split; [|exact Hs'].
  pose proof (heap_ok_insert h lp (Ptr dp, n) Hok ltac:(by eexists)) as H1.
  apply (heap_ok_delete _ l H1).
Qed.

(** removing behind the cells [pre] and [lp], none of which has the hash *)
Lemma cid_set_remove_loop_ok s c post : member_ok c -> forall h pre lp dp l d fuel,
  heap_ok h -> Forall member_ok (d :: post.*2) ->
  seg (cells h) (Some s) (member_cells ((pre ++ [(lp, dp)]) ++ (l, d) :: post)) None ->
  (length post < fuel)%nat ->
  exists h' k', cid_set_remove_loop fuel h (Some lp) (Some l) c =
      Ret (if set_has c (d :: post.*2) then 1 else 0, h') /\ heap_ok h' /\
    seg (cells h') (Some s) (member_cells ((pre ++ [(lp, dp)]) ++ k')) None /\
    k'.*2 = set_remove c (d :: post.*2).
Proof.
  intros Hc. induction post as [|[l' d'] post IH]; intros h pre lp dp l d [|fuel] Hok Hk Hs Hf; try (simpl in Hf; lia);
    apply Forall_cons in Hk as [Hd Hk]; pose proof (member_step _ _ _ _ _ _ Hs) as (n & Hl & Hpre & Hpost & Hlp & Hlq);
    cbn [cid_set_remove_loop]; rewrite (load_some _ _ _ Hl); cbn [rbind];
    rewrite cid_set_matches_ok by done; cbn [rbind set_remove set_has existsb];
    destruct (decide (same_hash d c)) as [Hsame|Hdiff];
    try (rewrite bool_decide_eq_true_2 by done; cbn [orb];
      destruct (cid_set_unlink _ _ _ _ _ _ _ _ _ Hok Hl Hs) as (Hne & h' & E & Hok' & Hs');
      rewrite Hne, E; by eexists h', _);
    rewrite bool_decide_eq_false_2 by done; cbn [orb].
  - simpl in Hpost. subst n. by exists h, [(l, d)].
  - pose proof Hpost as [-> _].
    destruct (IH h (pre ++ [(lp, dp)]) l d l' d' fuel) as (h' & k' & E & Hok' & Hs' & Hk');
      [done|done|by rewrite <- app_assoc|simpl in *; lia|].
    exists h', ((l, d) :: k'). rewrite <- app_assoc in Hs'. split_and!; [done|done|done|].
    rewrite fmap_cons. cbn [snd]. by rewrite Hk'.
Qed.

(** the first cell of a non-empty set *)
Lemma cid_set_first h s d cs : cid_set h s (d :: cs) ->
  exists k n, cells h !! s = Some (Ptr d, n) /\ cs = k.*2 /\
    seg (cells h) (Some s) (member_cells ((s, d) :: k)) None /\ seg (cells h) n (member_cells k) None /\
    member_ok d /\ Forall member_ok k.*2 /\ heap_ok h.
Proof.
  intros (Hok & Hm & [[|[l d'] k] (E & Hs)]); [done|]. injection E as -> ->.
  pose proof Hs as ([= <-] & n & Hl & Hk). apply Forall_cons in Hm as [Hd Hm]. by exists k, n.
Qed.

Lemma cid_set_of h s d k : heap_ok h -> Forall member_ok (d :: k.*2) ->
  seg (cells h) (Some s) (member_cells ((s, d) :: k)) None -> cid_set h s (d :: k.*2).
Proof. intros Hok Hm Hs. split_and!; [done|done|]. by exists ((s, d) :: k). Qed.

Lemma set_has_add e c v cs : set_has e (set_add c v cs) = set_has e (c :: cs).
Proof.
  assert (bool_decide (same_hash (stored c) e) = bool_decide (same_hash c e)) as Hst by done.
  induction cs as [|d cs IH]; cbn [set_add set_has existsb]; [by rewrite Hst|].
  fold (set_has e cs). case_decide as Hdc; cbn [set_has existsb]; fold (set_has e cs).
  - assert (bool_decide (same_hash d e) = bool_decide (same_hash c e)) as Hde
      by (apply bool_decide_ext; by rewrite Hdc).
    destruct v; rewrite ?Hde, ?Hst; by destruct (bool_decide (same_hash c e)).
  - fold (set_has e (set_add c v cs)). rewrite IH. cbn [set_has existsb]. fold (set_has e cs).
    by destruct (bool_decide (same_hash d e)), (bool_decide (same_hash c e)).
Qed.

Lemma set_add_ok c v cs : member_ok c -> Forall member_ok cs -> Forall member_ok (set_add c v cs).
Proof.
  intros Hc. assert (member_ok (stored c)) by done.
  induction 1 as [|d cs Hd Hcs IH]; simpl; [by repeat constructor|].
  case_decide; [destruct v|]; by apply Forall_cons_2.
Qed.
Lemma set_remove_ok c cs : Forall member_ok cs -> Forall member_ok (set_remove c cs).
Proof.
  induction 1 as [|d cs Hd Hcs IH]; simpl; [done|]. case_decide; [done|]. by apply Forall_cons_2.
Qed.

Lemma cid_set_has_ok h s c cs : member_ok c -> cid_set h s cs ->
  ipfs_cid_set_has h (Some s) (Some c) = Ret (if set_has c cs then 1 else 0).
Proof.
  intros Hc Hset. unfold ipfs_cid_set_has. destruct cs as [|d cs].
  - destruct Hset as (_ & _ & Hl). by rewrite (load_some _ _ _ Hl).
  - destruct (cid_set_first _ _ _ _ Hset) as (k & n & Hl & -> & Hs & Hk & Hd & Hm & _).
    rewrite (load_some _ _ _ Hl). cbn [rbind].
    pose proof (member_fuel _ _ _ Hs).
    apply (cid_set_has_loop_ok h c ((s, d) :: k)); [done|by apply Forall_cons_2|done|done|lia].
Qed.

Lemma cid_set_add_ok {Hm : MallocOk M} h s c visit cs : member_ok c -> cid_set h s cs ->
  exists h', ipfs_cid_set_add h (Some s) (Some c) visit = Ret (0, h') /\
    cid_set h' s (set_add c (negb (visit =? 0)) cs).
Proof.
  intros Hc Hset. unfold ipfs_cid_set_add. destruct cs as [|d cs].
  - destruct Hset as (Hok & _ & Hl). rewrite (load_some _ _ _ Hl). cbn [rbind].
    rewrite cid_set_fill_ok by done. cbn [rbind]. rewrite (store_some _ _ _ _ Hl). cbn [rbind].
    eexists. split; [done|]. split_and!; [apply heap_ok_insert; [done|by eexists]|by repeat constructor|].
    exists [(s, stored c)]. split; [done|]. split; [done|]. exists None.
    split; [apply lookup_insert_eq|done].
  - destruct (cid_set_first _ _ _ _ Hset) as (k & n & Hl & -> & Hs & Hk & Hd & Hmem & Hok).
    rewrite (load_some _ _ _ Hl). cbn [rbind]. pose proof (member_fuel _ _ _ Hs) as Hf. simpl in Hf.
    destruct (cid_set_add_loop_ok s c visit k Hc h [] s d (walk_fuel h)) as (h' & k' & E & Hok' & Hs' & Hk');
      [done|by apply Forall_cons_2|done|lia|].
    exists h'. split; [done|]. split_and!; [done| |].
    + apply set_add_ok; [done|by apply Forall_cons_2].
    + destruct (set_add _ _ _) eqn:E'; [|by exists k'].
      simpl in E'. by case_decide.
Qed.

Lemma cid_set_len_loop_ok h k : forall p fuel len,
  seg (cells h) p (member_cells k) None -> (length k < fuel)%nat -> 0 <= len -> len + Z.of_nat (length k) < 2 ^ 31 ->
  cid_set_len_loop fuel h p len = Ret (len + Z.of_nat (length k)).
Proof.
  induction k as [|[l d] k IH]; intros p [|fuel] len Hs Hf H0 Hlen; try (simpl in Hf; lia).
  - simpl in *. subst p. by rewrite Z.add_0_r.
  - destruct Hs as (-> & n & Hl & Hs). cbn [cid_set_len_loop fst snd length] in *.
    rewrite (load_some _ _ _ Hl). cbn [rbind]. rewrite int_op_small by lia. cbn [rbind].
    rewrite IH by (done || lia). f_equal. lia.
Qed.

Lemma cid_set_keys_loop_ub h k : forall p fuel len ret,
  Forall member_ok k.*2 -> seg (cells h) p (member_cells k) None -> (length k < fuel)%nat ->
  0 < len -> len + Z.of_nat (length k) < 2 ^ 31 ->
  cid_set_keys_loop fuel h p 0 len ret = UB.
Proof.
  induction k as [|[l d] k IH]; intros p [|fuel] len ret Hm Hs Hf H0 Hlen; try (simpl in Hf; lia).
  - simpl in Hs. subst p. cbn [cid_set_keys_loop]. by zbool.
  - apply Forall_cons in Hm as [Hd Hm]. destruct Hs as (-> & n & Hl & Hs).
    cbn [cid_set_keys_loop fst snd length] in *. zbool. rewrite (load_some _ _ _ Hl). cbn [rbind].
    assert (exists key, cid_set_key (Ptr d) = Ret key) as (key & ->).
    { unfold cid_set_key, member_ok in *. destruct (cid_hash d) as [b|]; [|by eexists].
      destruct (malloc_ok _); [|by eexists]. rewrite memrd_all by done. by eexists. }
    cbn [rbind]. rewrite int_op_small by lia. cbn [rbind]. apply IH; (done || lia).
Qed.

(** a set whose first cell points to a freed one *)
Lemma cid_set_broken h s e l : cells h !! s = Some (Ptr e, Some l) -> cells h !! l = None -> member_ok e ->
  ipfs_cid_set_len h (Some s) = UB /\
  forall f, member_ok f -> ~ same_hash e f -> ipfs_cid_set_has h (Some s) (Some f) = UB.
Proof.
  intros Hs Hfree He. assert (exists k0, walk_fuel h = S (S k0)) as (k0 & Hw).
  { unfold walk_fuel. destruct (size (cells h)) eqn:Esz; [|by eexists].
    apply map_size_empty_inv in Esz. by rewrite Esz, lookup_empty in Hs. }
  unfold ipfs_cid_set_len, ipfs_cid_set_has. rewrite Hw, (load_some _ _ _ Hs). cbn [rbind]. split.
  - cbn [cid_set_len_loop]. rewrite (load_some _ _ _ Hs). cbn [rbind].
    rewrite int_op_small by lia. cbn [rbind]. by rewrite (load_freed _ _ Hfree).
  - intros f Hf Hef. cbn [cid_set_has_loop]. rewrite (load_some _ _ _ Hs). cbn [rbind].
    rewrite cid_set_matches_ok, bool_decide_eq_false_2 by done. cbn [rbind].
    by rewrite (load_freed _ _ Hfree).
Qed.
End proofs.

(** ** Properties *)

(** With memory available, [ipfs_cid_set_add] on a well-formed set
    (the empty one included) returns 0 and gives the set in which the member
    with the same hash is kept ([visit]) or replaced, or the CID is appended;
    and [ipfs_cid_set_has] afterwards decides membership by hash. *)
Lemma cid_set_add_has {M : Malloc} {Hm : MallocOk M} (h : cid_heap) (s : positive) (cs : list Cid)
    (c e : Cid) (visit : Z) :
  cid_set h s cs -> member_ok c -> member_ok e ->
  exists h', ipfs_cid_set_add h (Some s) (Some c) visit = Ret (0, h') /\
    cid_set h' s (set_add c (negb (visit =? 0)) cs) /\
    ipfs_cid_set_has h (Some s) (Some e) = Ret (if set_has e cs then 1 else 0) /\
    ipfs_cid_set_has h' (Some s) (Some e) = Ret (if set_has e (c :: cs) then 1 else 0).
Proof.
  intros Hset Hc He. destruct (cid_set_add_ok h s c visit cs Hc Hset) as (h' & E & Hset').
  exists h'. split_and!; [done|done|by apply cid_set_has_ok|].
  by rewrite (cid_set_has_ok _ _ _ _ He Hset'), set_has_add.
Qed.

Definition set_cid (b : Z) : Cid := mkCid 0 CID_DAG_PROTOBUF (Some [b; b]) 2.
(** a set of two members, at 1 and 2 *)
Definition sample_cells : gmap positive (ptr Cid * loc) :=
  <[1%positive := (Ptr (set_cid 7), Some 2%positive)]>
    (<[2%positive := (Ptr (set_cid 8), None)]> ∅).
Definition sample_set : cid_heap := mkHeap sample_cells 3.
Lemma sample_set_ok : cid_set sample_set 1 [set_cid 7; set_cid 8].
Proof.
  split_and!.
  - intros l [v Hl]. unfold sample_set in *. cbn [brk].
    change (sample_cells !! l = Some v) in Hl. unfold sample_cells in Hl.
    apply lookup_insert_Some in Hl as [[<- _]|[_ Hl]]; [done|].
    by apply lookup_insert_Some in Hl as [[<- _]|[_ Hl]].
  - by repeat constructor.
  - exists [(1%positive, set_cid 7); (2%positive, set_cid 8)]. split; [done|].
    split; [done|]. exists (Some 2%positive). split; [done|]. split; [done|]. by exists None.
Qed.

(** [ipfs_cid_set_remove] removes the member with the given hash and
    returns whether there was one, as long as that member is not the first of
    several.  The first of two or more is removed by moving its successor into
    its cell without moving the [next] pointer: the call returns 1, the first
    cell is left pointing to freed memory, and from then on taking the length
    or looking for any other CID is undefined. *)
Lemma cid_set_remove_spec {M : Malloc} (h : cid_heap) (s : positive) (d : Cid) (cs : list Cid) (c : Cid) :
  cid_set h s (d :: cs) -> member_ok c ->
  ((~ same_hash d c \/ cs = []) ->
     exists h', ipfs_cid_set_remove h (Some s) (Some c) = Ret (if set_has c (d :: cs) then 1 else 0, h') /\
       cid_set h' s (set_remove c (d :: cs))) /\
  (same_hash d c -> forall e cs', cs = e :: cs' ->
     exists h', ipfs_cid_set_remove h (Some s) (Some c) = Ret (1, h') /\
       ipfs_cid_set_len h' (Some s) = UB /\
       forall f, member_ok f -> ~ same_hash e f -> ipfs_cid_set_has h' (Some s) (Some f) = UB).
Proof.
  intros Hset Hc. destruct (cid_set_first _ _ _ _ Hset) as (k & n & Hl & -> & Hs & Hk & Hd & Hm & Hok).
  pose proof (member_fuel _ _ _ Hs) as Hf. simpl in Hf.
  assert (ipfs_cid_set_remove h (Some s) (Some c) =
    cid_set_remove_loop (S (walk_fuel h - 1)) h (Some s) (Some s) c) as ->.
  { unfold ipfs_cid_set_remove. rewrite (load_some _ _ _ Hl). cbn [rbind]. f_equal. lia. }
  cbn [cid_set_remove_loop]. rewrite (load_some _ _ _ Hl). cbn [rbind].
  rewrite cid_set_matches_ok by done. cbn [rbind set_has existsb set_remove].
  rewrite (bool_decide_eq_true_2 (Some s = Some s)) by done.
  pose proof (seg_nonempty _ _ _ Hk) as Hn. split.
  - intros Hcase. destruct (decide (same_hash d c)) as [Hsame|Hdiff].
    + destruct Hcase as [Hdiff|Hnil]; [done|]. rewrite bool_decide_eq_true_2 by done. cbn [orb].
      destruct k as [|x k]; [|done]. subst n. rewrite (store_some _ _ _ _ Hl). cbn [rbind].
      eexists. split; [done|]. split_and!; [apply heap_ok_insert; [done|by eexists]|done|].
      apply lookup_insert_eq.
    + rewrite bool_decide_eq_false_2 by done. cbn [orb]. destruct k as [|[l' d'] k]; subst n; [by exists h|].
      change (((l', d') :: k).*2) with (d' :: k.*2) in *. apply Forall_cons in Hm as [Hd' Hm].
      destruct (cid_set_remove_loop_ok s c k Hc h [] s d l' d' (walk_fuel h - 1)) as (h' & k' & E & Hok' & Hs' & Hk');
        [done|by apply Forall_cons_2|done|simpl length in Hf; lia|].
      exists h'. split; [exact E|]. rewrite <- Hk'.
      apply cid_set_of; [done| |done]. apply Forall_cons_2; [done|]. rewrite Hk'.
      apply (set_remove_ok c (d' :: k.*2)). by apply Forall_cons_2.
  - intros Hsame e cs' Ek. rewrite bool_decide_eq_true_2 by done.
    destruct k as [|[l' d'] k]; [done|]. change (((l', d') :: k).*2) with (d' :: k.*2) in *.
    injection Ek as <- <-. subst n.
    pose proof (seg_NoDup _ _ _ Hs) as Hnd. rewrite member_cells_locs in Hnd.
    apply NoDup_cons in Hnd as [Hne _]. cbn [fmap list_fmap fst] in Hne. apply not_elem_of_cons in Hne as [Hne _].
    destruct Hk as (_ & n' & Hl' & _). cbn [fst snd] in Hl'. rewrite (load_some _ _ _ Hl'). cbn [rbind].
    rewrite (store_some _ _ _ _ Hl). cbn [rbind].
    rewrite (release_some _ _ (Ptr d', n')) by (cbn [cells]; by rewrite lookup_insert_ne). cbn [rbind].
    set (h' := mkHeap _ _). exists h'. split; [done|].
    assert (cells h' !! s = Some (Ptr d', Some l')) as Hs'.
    { unfold h'. cbn [cells]. by rewrite lookup_delete_ne, lookup_insert_eq by done. }
    assert (cells h' !! l' = None) as Hfree by apply lookup_delete_eq.
    apply (cid_set_broken _ _ _ l'); [done|done|by apply Forall_cons in Hm as [? _]].
Qed.

(** [ipfs_cid_set_keys] increments the length instead of the index:
    on every non-empty set it runs off the end of the list and dereferences
    NULL; it returns only for the empty set, with an empty vector of keys. *)
Lemma cid_set_keys_undefined {M : Malloc} {Hm : MallocOk M} (h : cid_heap) (s : positive) (cs : list Cid) :
  cid_set h s cs -> zlen cs < 2 ^ 30 ->
  ipfs_cid_set_keys h (Some s) = match cs with [] => Ret (Some [None]) | _ => UB end.
Proof.
  intros Hset Hlen. unfold ipfs_cid_set_keys. destruct cs as [|d cs].
  - destruct Hset as (_ & _ & Hl). unfold ipfs_cid_set_len. rewrite (load_some _ _ _ Hl). cbn [rbind].
    rewrite malloc_always. unfold walk_fuel. cbn [cid_set_keys_loop]. done.
  - destruct (cid_set_first _ _ _ _ Hset) as (k & n & Hl & -> & Hs & Hk & Hd & Hmem & Hok).
    assert (Hf : (length ((s, d) :: k) < walk_fuel h)%nat) by (by eapply member_fuel).
    assert (Hk30 : 1 + Z.of_nat (length k) < 2 ^ 30)
      by (unfold zlen in Hlen; simpl length in Hlen; rewrite length_fmap in Hlen; lia).
    assert (Hlen' : ipfs_cid_set_len h (Some s) = Ret (1 + Z.of_nat (length k))).
    { unfold ipfs_cid_set_len. rewrite (load_some _ _ _ Hl). cbn [rbind].
      rewrite (cid_set_len_loop_ok h ((s, d) :: k)) by (done || (simpl length; lia)). f_equal. simpl length. lia. }
    rewrite Hlen'. cbn [rbind]. rewrite malloc_always.
    rewrite (cid_set_keys_loop_ub h ((s, d) :: k)); [done|by constructor|done|done|lia|simpl length; lia].
Qed.
