(* ===== verification/NodeLinks.v ===== *)
(** * The links of a node in memory (libipfs/merkledag/node.c)

    The operations of node.c that follow and change the [next] pointers of a
    node's links.  A node is the heap of its links and the pointer
    [head_link]. *)
From S2P Require Import Prelude Varint Protobuf Multihash Unixfs Node Heap.

Abbreviation link_heap := (heap NodeLink).

Fixpoint node_link_last_loop (fuel : nat) (h : link_heap) (current : loc) : res loc :=
  match fuel with
  | O => NoFuel
  | S fuel =>
    match current with
    | None => Ret None
    | Some _ =>
      let! (_, next) := load h current in
      match next with None => Ret current | Some _ => node_link_last_loop fuel h next end
    end
  end.

Definition ipfs_node_link_last (h : link_heap) (head : loc) : res loc :=
  node_link_last_loop (walk_fuel h) h head.

(** the loop that stops at [toRemove] or at the end: [previous] and [current] *)
Fixpoint node_find_link (fuel : nat) (h : link_heap) (previous current toRemove : loc)
  : res (loc * loc) :=
  match fuel with
  | O => NoFuel
  | S fuel =>
    match current with
    | None => Ret (previous, None)
    | Some _ =>
      if bool_decide (current = toRemove) then Ret (previous, current)
      else let! (_, next) := load h current in node_find_link fuel h current next toRemove
    end
  end.

(** result, heap and [node->head_link]; in the middle of the list the freed cell
    stays linked *)
Definition ipfs_node_remove_link (h : link_heap) (head toRemove : loc) : res (Z * link_heap * loc) :=
  let! (previous, current) := node_find_link (walk_fuel h) h None head toRemove in
  match current with
  | None => Ret (0, h, head)
  | Some _ =>
    let! (_, next) := load h current in
    let! h := release h current in
    match previous with
    | None => Ret (1, h, next)
    | Some _ => Ret (1, h, head)
    end
  end.

(** the part of [ipfs_hashtable_node_free] that frees the links *)
Fixpoint node_free_links (fuel : nat) (h : link_heap) (head current : loc) : res link_heap :=
  match fuel with
  | O => NoFuel
  | S fuel =>
    match current with
    | None => Ret h
    | Some _ =>
      let! (_, next) := load h current in
      let! (_, h, head) := ipfs_node_remove_link h head current in
      node_free_links fuel h head next
    end
  end.

Definition ipfs_hashtable_node_free (h : link_heap) (head : loc) : res link_heap :=
  node_free_links (walk_fuel h) h head head.

(** a NULL name is dereferenced by [strcmp] *)
Fixpoint get_link_by_name_loop (fuel : nat) (h : link_heap) (current : loc) (Name : bytes) : res loc :=
  match fuel with
  | O => NoFuel
  | S fuel =>
    match current with
    | None => Ret None
    | Some _ =>
      let! (link, next) := load h current in
      let! c := c_strcmp Name (deref (nl_name link)) in
      if c =? 0 then Ret current else get_link_by_name_loop fuel h next Name
    end
  end.

Definition ipfs_hashtable_node_get_link_by_name (h : link_heap) (head : loc) (Name : bytes) : res loc :=
  get_link_by_name_loop (walk_fuel h) h head Name.

(** the condition of the loop in [ipfs_hashtable_node_remove_link_by_name] *)
Definition name_differs (Name name : option bytes) : res bool :=
  match Name, name with
  | None, None => Ret false
  | None, Some _ | Some _, None => Ret true
  | Some a, Some b => let! c := c_strcmp a b in Ret (negb (c =? 0))
  end.

Fixpoint find_link_by_name (fuel : nat) (h : link_heap) (previous current : loc) (Name : option bytes)
  : res (loc * loc) :=
  match fuel with
  | O => NoFuel
  | S fuel =>
    match current with
    | None => Ret (previous, None)
    | Some _ =>
      let! (link, next) := load h current in
      let! differs := name_differs Name (nl_name link) in
      if differs : bool then find_link_by_name fuel h current next Name
      else Ret (previous, current)
    end
  end.

Definition ipfs_hashtable_node_remove_link_by_name (h : link_heap) (head : loc) (Name : option bytes)
  : res (Z * link_heap * loc) :=
  let! (previous, current) := find_link_by_name (walk_fuel h) h None head Name in
  match current with
  | None => Ret (0, h, head)
  | Some _ =>
    let! (_, next) := load h current in
    match previous with
    | None => Ret (1, h, match next with Some _ => next | None => head end)
    | Some _ =>
      let! (plink, _) := load h previous in
      let! h := store h previous (plink, next) in
      let! h := release h current in
      Ret (1, h, head)
    end
  end.

(** the walk to the end, then the new [next] pointer *)
Definition ipfs_hashtable_node_add_link (h : link_heap) (head mylink : loc) : res (link_heap * loc) :=
  match head with
  | None => Ret (h, mylink)
  | Some _ =>
    let! current_end := node_link_last_loop (walk_fuel h) h head in
    let! (link, _) := load h current_end in
    let! h := store h current_end (link, mylink) in
    Ret (h, head)
  end.

(** ** Chains of links *)
Definition links (h : link_heap) (head : loc) (ls : list (positive * NodeLink)) : Prop :=
  seg (cells h) head ls None.

Lemma links_fuel h head ls : links h head ls -> (length ls < walk_fuel h)%nat.
Proof. intros Hs%seg_length. unfold walk_fuel. lia. Qed.

(** the cell in the middle of a chain *)
Lemma links_mid h head ls1 l d ls2 : links h head (ls1 ++ (l, d) :: ls2) ->
  exists n, cells h !! l = Some (d, n) /\ seg (cells h) head ls1 (Some l) /\ links h n ls2 /\
    l ∉ ls1.*1 /\ l ∉ ls2.*1.
Proof.
  intros Hs. pose proof (seg_NoDup _ _ _ Hs) as Hnd.
  apply seg_lookup in Hs as (n & Hl & H1 & H2). exists n. split_and!; try done.
  - rewrite fmap_app in Hnd. apply NoDup_app in Hnd as (_ & Hnd & _).
    intros Hin. apply (Hnd l Hin), list_elem_of_here.
  - rewrite fmap_app in Hnd. apply NoDup_app in Hnd as (_ & _ & Hnd).
    by apply NoDup_cons in Hnd as [? _].
Qed.

Lemma links_head h head ls : links h head ls ->
  match ls with [] => head = None | (l, _) :: _ => head = Some l end.
Proof. destruct ls as [|[l d] ls]; [done|]. by intros [? _]. Qed.

Lemma node_link_last_ok h ls l d : forall head fuel, links h head (ls ++ [(l, d)]) ->
  (length ls < fuel)%nat -> node_link_last_loop fuel h head = Ret (Some l).
Proof.
  induction ls as [|[l' d'] ls IH]; intros head [|fuel] Hs Hf; try (simpl in Hf; lia).
  - destruct Hs as (-> & n & Hl & Hs). simpl in Hs. subst n. cbn [node_link_last_loop].
    by rewrite (load_some _ _ _ Hl).
  - destruct Hs as (-> & n & Hl & Hs). cbn [node_link_last_loop]. rewrite (load_some _ _ _ Hl). cbn [rbind].
    pose proof (links_head _ _ _ Hs) as Hn.
    assert (exists l2, n = Some l2) as [l2 ->] by (destruct ls as [|[? ?] ?]; simpl in Hn; subst n; by eexists).
    apply IH; [done|simpl in *; lia].
Qed.

(** a chain that runs into freed memory *)
Lemma node_link_last_ub h ls l : forall head fuel, seg (cells h) head ls (Some l) -> cells h !! l = None ->
  (length ls < fuel)%nat -> node_link_last_loop fuel h head = UB.
Proof.
  induction ls as [|[l' d'] ls IH]; intros head [|fuel] Hs Hfree Hf; try (simpl in Hf; lia).
  - simpl in Hs. subst head. cbn [node_link_last_loop]. by rewrite (load_freed _ _ Hfree).
  - destruct Hs as (-> & n & Hl & Hs). cbn [node_link_last_loop]. rewrite (load_some _ _ _ Hl). cbn [rbind].
    assert (exists l2, n = Some l2) as [l2 ->].
    { destruct ls as [|[l2 ?] ls]; [by eexists|]. destruct Hs as [-> _]. by eexists. }
    apply IH; [done|done|simpl in *; lia].
Qed.

(** walking to a cell of the chain *)
Lemma node_find_link_ok h ls l d ls2 : forall prev head fuel,
  links h head (ls ++ (l, d) :: ls2) -> l ∉ ls.*1 -> (length ls < fuel)%nat ->
  node_find_link fuel h prev head (Some l) =
    Ret (match last ls with Some x => Some x.1 | None => prev end, Some l).
Proof.
  induction ls as [|[l' d'] ls IH]; intros prev head [|fuel] Hs Hl Hf; try (simpl in Hf; lia).
  - destruct Hs as (-> & n & Hl' & Hs). cbn [node_find_link]. by rewrite bool_decide_eq_true_2.
  - destruct Hs as (-> & n & Hl' & Hs). cbn [node_find_link]. rewrite fmap_cons, not_elem_of_cons in Hl.
    destruct Hl as [Hne Hl]. cbn [fst] in Hne. rewrite bool_decide_eq_false_2 by congruence.
    rewrite (load_some _ _ _ Hl'). cbn [rbind].
    rewrite IH by (done || (simpl in *; lia)). rewrite last_cons. by destruct (last ls).
Qed.

(** finding a cell by name: the cells before it have other names *)
Definition named (l : NodeLink) : Prop := exists s, nl_name l = Some s /\ terminated s.

Lemma get_link_by_name_loop_ok h Name ls ls2 : terminated Name ->
  Forall (fun x => named x.2 /\ link_name x.2 <> c_str Name) ls ->
  match ls2 with [] => True | (_, d) :: _ => named d /\ link_name d = c_str Name end ->
  forall head fuel, links h head (ls ++ ls2) -> (length ls < fuel)%nat ->
  get_link_by_name_loop fuel h head Name = Ret (fst <$> List.hd_error ls2).
Proof.
  intros HN. induction 1 as [|[l d] ls [(s & Hs & Hterm) Hne] _ IH];
    intros H2 head [|fuel] Hc Hf; try (simpl in Hf; lia); cbn [get_link_by_name_loop].
  - destruct ls2 as [|[l d] ls2]; [by unfold links in Hc; simpl in Hc; subst head|].
    destruct Hc as (-> & n & Hl & _). destruct H2 as [(s & Hs & Hterm) Heq].
    rewrite (load_some _ _ _ Hl). cbn [rbind].
    destruct (c_strcmp_ok Name s HN Hterm) as (r & Hr & Hiff).
    rewrite Hs. change (deref (Some s)) with s. rewrite Hr. cbn [rbind].
    rewrite (proj2 (Z.eqb_eq r 0)); [done|]. apply Hiff. unfold link_name in Heq. by rewrite Hs in Heq.
  - destruct Hc as (-> & n & Hl & Hc). cbn [snd] in *. rewrite (load_some _ _ _ Hl). cbn [rbind].
    destruct (c_strcmp_ok Name s HN Hterm) as (r & Hr & Hiff).
    rewrite Hs. change (deref (Some s)) with s. rewrite Hr. cbn [rbind].
    rewrite (proj2 (Z.eqb_neq r 0)).
    + apply IH; [done|done|simpl in *; lia].
    + rewrite Hiff. unfold link_name in Hne. by rewrite Hs in Hne.
Qed.

(** removing the head of the chain *)
Lemma remove_head_ok h l d n ls : links h (Some l) ((l, d) :: ls) -> cells h !! l = Some (d, n) ->
  ipfs_node_remove_link h (Some l) (Some l) = Ret (1, mkHeap (delete l (cells h)) (brk h), n) /\
  links (mkHeap (delete l (cells h)) (brk h)) n ls.
Proof.
  intros Hc Hl. pose proof (links_mid h (Some l) [] l d ls Hc) as (n' & Hl' & _ & H2 & _ & Hn).
  rewrite Hl in Hl'. injection Hl' as <-. unfold ipfs_node_remove_link.
  rewrite (node_find_link_ok h [] l d ls) by (done || unfold walk_fuel; simpl; (apply not_elem_of_nil || lia)).
  cbn [rbind last]. rewrite (load_some _ _ _ Hl). cbn [rbind]. rewrite (release_some _ _ _ Hl). cbn [rbind].
  split; [done|]. by apply seg_delete.
Qed.

(** the cells of [ls], and no others, are gone *)
Definition frees (h h' : link_heap) (ls : list positive) : Prop :=
  forall l, cells h' !! l = if decide (l ∈ ls) then None else cells h !! l.

Lemma node_free_links_ok ls : forall h head fuel, links h head ls -> (length ls < fuel)%nat ->
  exists h', node_free_links fuel h head head = Ret h' /\ frees h h' ls.*1.
Proof.
  induction ls as [|[l d] ls IH]; intros h head [|fuel] Hc Hf; try (simpl in Hf; lia).
  - unfold links in Hc. simpl in Hc. subst head. exists h. split; [done|]. intros l. by rewrite decide_False by apply not_elem_of_nil.
  - pose proof (links_head _ _ _ Hc) as Hh. simpl in Hh. subst head.
    pose proof (links_mid h (Some l) [] l d ls Hc) as (n & Hl & _ & H2 & _ & Hn).
    destruct (remove_head_ok h l d n ls Hc Hl) as [E Hc'].
    destruct (IH _ n fuel Hc') as (h' & E' & Hfr); [simpl in *; lia|].
    exists h'. cbn [node_free_links]. rewrite (load_some _ _ _ Hl). cbn [rbind]. rewrite E. cbn [rbind].
    split; [done|]. intros k. rewrite Hfr. cbn [cells fmap list_fmap fst].
    destruct (decide (k = l)) as [->|Hk].
    + rewrite decide_False by done. rewrite lookup_delete_eq. by rewrite decide_True by apply list_elem_of_here.
    + rewrite lookup_delete_ne by done. apply decide_ext. rewrite elem_of_cons. naive_solver.
Qed.

(** the first link with a name *)
Definition first_named (Name : bytes) (ls : list (positive * NodeLink)) : option (positive * NodeLink) :=
  List.find (fun x => bool_decide (link_name x.2 = c_str Name)) ls.

Lemma first_named_split Name ls : exists ls1 ls2, ls = ls1 ++ ls2 /\
  Forall (fun x => link_name x.2 <> c_str Name) ls1 /\ first_named Name ls = List.hd_error ls2 /\
  match ls2 with [] => True | x :: _ => link_name x.2 = c_str Name end.
Proof.
  induction ls as [|x ls IH]; [by exists [], []|]. unfold first_named. cbn [List.find].
  case_bool_decide as Hx; [by exists [], (x :: ls)|].
  destruct IH as (ls1 & ls2 & -> & H1 & H2 & H3). exists (x :: ls1), ls2. split_and!; try done.
  by apply Forall_cons_2.
Qed.

Lemma get_link_by_name_ok h head Name ls : terminated Name -> Forall (fun x => named x.2) ls ->
  links h head ls ->
  ipfs_hashtable_node_get_link_by_name h head Name = Ret (fst <$> first_named Name ls).
Proof.
  intros HN Hnamed Hc. destruct (first_named_split Name ls) as (ls1 & ls2 & -> & H1 & -> & H2).
  apply Forall_app in Hnamed as [Hn1 Hn2]. pose proof (links_fuel _ _ _ Hc) as Hf. rewrite length_app in Hf.
  apply (get_link_by_name_loop_ok h Name ls1 ls2); [done| | |done|lia].
  - apply Forall_and. by split.
  - destruct ls2 as [|[l d] ls2]; [done|]. apply Forall_cons in Hn2 as [Hd _]. done.
Qed.

(** linking a cell behind the last one *)
Lemma links_snoc h head pre lp dp l d : cells h !! l = Some (d, None) ->
  links h head (pre ++ [(lp, dp)]) -> l ∉ (pre ++ [(lp, dp)]).*1 ->
  links (mkHeap (<[lp := (dp, Some l)]> (cells h)) (brk h)) head (pre ++ [(lp, dp); (l, d)]).
Proof.
  intros Hl Hc Hn. pose proof (links_mid _ _ _ _ _ _ Hc) as (n & Hlp & Hpre & _ & Hlpre & _).
  rewrite fmap_app, not_elem_of_app in Hn. destruct Hn as [_ Hn]. cbn [fmap list_fmap fst] in Hn.
  rewrite list_elem_of_singleton in Hn. apply seg_app. exists (Some lp). split; [by apply seg_insert|].
  split; [done|]. exists (Some l). split; [apply lookup_insert_eq|]. split; [done|].
  exists None. split; [|done]. change (<[lp := (dp, Some l)]> (cells h) !! l = Some (d, None)).
  by rewrite lookup_insert_ne.
Qed.

Lemma add_link_ok h head ls l d : links h head ls -> cells h !! l = Some (d, None) -> l ∉ ls.*1 ->
  exists h' head', ipfs_hashtable_node_add_link h head (Some l) = Ret (h', head') /\
    links h' head' (ls ++ [(l, d)]).
Proof.
  intros Hc Hl Hn. destruct ls as [|[lp dp] pre _] using rev_ind.
  - unfold links in Hc. simpl in Hc. subst head. exists h, (Some l). split; [done|].
    split; [done|]. by exists None.
  - pose proof (links_mid _ _ _ _ _ _ Hc) as (n & Hlp & _).
    pose proof (links_fuel _ _ _ Hc) as Hf. rewrite length_app in Hf. simpl in Hf.
    eexists (mkHeap (<[lp := (dp, Some l)]> (cells h)) (brk h)), head.
    split; [|rewrite <- app_assoc; by apply links_snoc].
    unfold ipfs_hashtable_node_add_link.
    assert (exists l0, head = Some l0) as [l0 ->]
      by (pose proof (links_head _ _ _ Hc) as Hh; destruct pre as [|[? ?] ?]; simpl in Hh; subst; by eexists).
    rewrite (node_link_last_ok h pre lp dp) by (done || lia). cbn [rbind].
    rewrite (load_some _ _ _ Hlp). cbn [rbind]. by rewrite (store_some _ _ _ _ Hlp).
Qed.

(** a location that is not in the chain *)
Lemma node_find_link_absent h ls l : forall prev head fuel,
  links h head ls -> l ∉ ls.*1 -> (length ls < fuel)%nat ->
  exists prev', node_find_link fuel h prev head (Some l) = Ret (prev', None).
Proof.
  induction ls as [|[l' d'] ls IH]; intros prev head [|fuel] Hs Hl Hf; try (simpl in Hf; lia).
  - unfold links in Hs. simpl in Hs. subst head. by exists prev.
  - destruct Hs as (-> & n & Hl' & Hs). cbn [node_find_link]. rewrite fmap_cons, not_elem_of_cons in Hl.
    destruct Hl as [Hne Hl]. cbn [fst] in Hne. rewrite bool_decide_eq_false_2 by congruence.
    rewrite (load_some _ _ _ Hl'). cbn [rbind]. apply IH; [done|done|simpl in *; lia].
Qed.

Definition opt_terminated (name : option bytes) : Prop :=
  match name with Some s => terminated s | None => True end.

Lemma name_differs_ok Name name : opt_terminated Name -> opt_terminated name ->
  name_differs Name name = Ret (bool_decide (c_str <$> Name <> c_str <$> name)).
Proof.
  destruct Name as [a|], name as [b|]; simpl; intros Ha Hb.
  - destruct (c_strcmp_ok a b Ha Hb) as (r & -> & Hr). cbn [rbind]. f_equal.
    destruct (Z.eqb_spec r 0) as [H0|H0]; simpl; symmetry.
    + apply bool_decide_eq_false_2. intros []. by rewrite (proj1 Hr H0).
    + apply bool_decide_eq_true_2. intros [= E]. by apply H0, Hr.
  - done.
  - done.
  - done.
Qed.

(** the search by name stops at the first link with that name *)
Lemma find_link_by_name_ok h Name l d ls2 : opt_terminated Name -> opt_terminated (nl_name d) ->
  c_str <$> Name = c_str <$> nl_name d -> forall ls prev head fuel,
  Forall (fun x => opt_terminated (nl_name x.2) /\ c_str <$> Name <> c_str <$> nl_name x.2) ls ->
  links h head (ls ++ (l, d) :: ls2) -> (length ls < fuel)%nat ->
  find_link_by_name fuel h prev head Name =
    Ret (match last ls with Some x => Some x.1 | None => prev end, Some l).
Proof.
  intros HN Hd Heq. induction ls as [|[l' d'] ls IH]; intros prev head [|fuel] Hall Hs Hf; try (simpl in Hf; lia).
  - destruct Hs as (-> & n & Hl' & Hs). cbn [find_link_by_name]. rewrite (load_some _ _ _ Hl'). cbn [rbind].
    rewrite name_differs_ok by done. cbn [rbind]. rewrite bool_decide_eq_false_2; [done|]. by intros [].
  - destruct Hs as (-> & n & Hl' & Hs). apply Forall_cons in Hall as [[Ht Hne] Hall]. cbn [snd] in *.
    cbn [find_link_by_name]. rewrite (load_some _ _ _ Hl'). cbn [rbind].
    rewrite name_differs_ok by done. cbn [rbind]. rewrite bool_decide_eq_true_2 by done.
    rewrite IH by (done || (simpl in *; lia)). rewrite last_cons. by destruct (last ls).
Qed.

(** unlinking the cell behind [(lp, dp)] *)
Lemma links_unlink h head pre lp dp l d ls2 n : cells h !! l = Some (d, n) ->
  links h head ((pre ++ [(lp, dp)]) ++ (l, d) :: ls2) ->
  links (mkHeap (delete l (<[lp := (dp, n)]> (cells h))) (brk h)) head (pre ++ (lp, dp) :: ls2).
Proof.
  intros Hl Hc. pose proof (links_mid _ _ _ _ _ _ Hc) as (n' & Hl' & H1 & H2 & Hn1 & Hn2).
  rewrite Hl in Hl'. injection Hl' as <-.
  rewrite fmap_app, not_elem_of_app in Hn1. destruct Hn1 as [Hn1 Hne]. cbn [fmap list_fmap fst] in Hne.
  rewrite list_elem_of_singleton in Hne.
  rewrite <- app_assoc in Hc. pose proof (links_mid _ _ _ _ _ _ Hc) as (_ & _ & Hp1 & _ & Hnp1 & Hnp2).
  rewrite fmap_cons, not_elem_of_cons in Hnp2. destruct Hnp2 as [_ Hnp2].
  apply seg_app. exists (Some lp). split; [by apply seg_delete, seg_insert|]. split; [done|]. exists n.
  split; [|by apply seg_delete, seg_insert]. cbn [cells].
  rewrite lookup_delete_ne by done. apply lookup_insert_eq.
Qed.

(** ** Properties *)

(** On a well-formed chain, [ipfs_hashtable_node_add_link] appends
    the (single) link: it is the value-level operation of [Node];
    [ipfs_hashtable_node_get_link_by_name] returns the first link with that
    name or NULL, and [ipfs_hashtable_node_free] frees exactly the cells of the
    chain. *)
Lemma node_links_spec (h : link_heap) (head : loc) (ls : list (positive * NodeLink))
    (l : positive) (d : NodeLink) (n : HashtableNode) (Name : bytes) :
  links h head ls -> cells h !! l = Some (d, None) -> l ∉ ls.*1 -> n_head_link n = ls.*2 ->
  exists h' head', ipfs_hashtable_node_add_link h head (Some l) = Ret (h', head') /\
    links h' head' (ls ++ [(l, d)]) /\
    n_head_link (node_append_link n [d]) = (ls ++ [(l, d)]).*2 /\
    (terminated Name -> Forall (fun x => named x.2) (ls ++ [(l, d)]) ->
     ipfs_hashtable_node_get_link_by_name h' head' Name = Ret (fst <$> first_named Name (ls ++ [(l, d)]))) /\
    exists h'', ipfs_hashtable_node_free h' head' = Ret h'' /\ frees h' h'' (ls ++ [(l, d)]).*1.
Proof.
  intros Hc Hl Hnew Hn. destruct (add_link_ok h head ls l d Hc Hl Hnew) as (h' & head' & E & Hc').
  exists h', head'. split_and!; [done|done| | |].
  - simpl. by rewrite Hn, fmap_app.
  - intros HN Hnamed. by apply get_link_by_name_ok.
  - apply node_free_links_ok; [done|]. by apply links_fuel in Hc'.
Qed.


Definition ex_link (name : bytes) : NodeLink := mkNodeLink 0 None (Some name) 0.

(** two links "a" and "b", and a third "c" that is not linked yet *)
Definition ex_links : link_heap :=
  mkHeap (<[1%positive := (ex_link [97; 0], Some 2%positive)]>
    (<[2%positive := (ex_link [98; 0], None)]> (<[3%positive := (ex_link [99; 0], None)]> ∅))) 4.

Lemma ex_links_ok : links ex_links (Some 1%positive) [(1%positive, ex_link [97; 0]); (2%positive, ex_link [98; 0])].
Proof. split; [done|]. exists (Some 2%positive). split; [done|]. split; [done|]. by exists None. Qed.

(** [ipfs_node_remove_link]: a link that is not in the list gives 0
    and changes nothing; the head is unlinked and freed.  Any other link is
    freed and 1 is returned, but the previous link keeps pointing at it: the
    next walk over the list ([ipfs_node_link_last],
    [ipfs_hashtable_node_add_link]) uses freed memory. *)
Lemma node_remove_link_spec (h : link_heap) (head : loc) (ls1 : list (positive * NodeLink))
    (l : positive) (d : NodeLink) (ls2 : list (positive * NodeLink)) (l' : positive) :
  links h head (ls1 ++ (l, d) :: ls2) -> l' ∉ (ls1 ++ (l, d) :: ls2).*1 ->
  ipfs_node_remove_link h head (Some l') = Ret (0, h, head) /\
  exists h' head', ipfs_node_remove_link h head (Some l) = Ret (1, h', head') /\
    cells h' = delete l (cells h) /\
    match ls1 with
    | [] => links h' head' ls2
    | _ => head' = head /\ ipfs_node_link_last h' head' = UB /\
        forall mylink, ipfs_hashtable_node_add_link h' head' mylink = UB
    end.
Proof.
  intros Hc Hl'. pose proof (links_fuel _ _ _ Hc) as Hf. split.
  - unfold ipfs_node_remove_link.
    destruct (node_find_link_absent h _ l' None head (walk_fuel h) Hc Hl' Hf) as [prev' E]. by rewrite E.
  - pose proof (links_mid _ _ _ _ _ _ Hc) as (n & Hl & H1 & H2 & Hn1 & Hn2).
    destruct ls1 as [|[l1 d1] ls1].
    + pose proof (links_head _ _ _ Hc) as Hh. simpl in Hh. subst head.
      destruct (remove_head_ok h l d n ls2 Hc Hl) as [E Hc']. by exists (mkHeap (delete l (cells h)) (brk h)), n.
    + exists (mkHeap (delete l (cells h)) (brk h)), head. rewrite length_app in Hf. simpl length in Hf.
      assert (Hlast : forall fuel, (S (length ls1) < fuel)%nat ->
        node_link_last_loop fuel (mkHeap (delete l (cells h)) (brk h)) head = UB).
      { intros fuel Hfu. apply (node_link_last_ub _ ((l1, d1) :: ls1) l); [by apply seg_delete| |done].
        apply lookup_delete_eq. }
      assert (Hfu : (S (length ls1) < walk_fuel (mkHeap (delete l (cells h)) (brk h)))%nat).
      { unfold walk_fuel in *. cbn [cells]. rewrite map_size_delete_Some by (by eexists). lia. }
      split_and!; [|done|done|by apply Hlast|].
      * unfold ipfs_node_remove_link. rewrite (node_find_link_ok h ((l1, d1) :: ls1) l d ls2) by (done || simpl length; lia).
        cbn [rbind]. rewrite (load_some _ _ _ Hl). cbn [rbind]. rewrite (release_some _ _ _ Hl). cbn [rbind].
        destruct (last ((l1, d1) :: ls1)) eqn:E; [done|]. by apply last_None in E.
      * intros mylink. destruct H1 as [-> _]. unfold ipfs_hashtable_node_add_link. by rewrite Hlast.
Qed.

(** [ipfs_hashtable_node_remove_link_by_name] of the first link
    with a name ([None] is NULL): behind the head it is unlinked and freed, and
    the rest is a well-formed list; as the head of a longer list it is unlinked
    and its memory is lost; as the only link 1 is returned and nothing is
    removed. *)
Lemma remove_link_by_name_spec (h : link_heap) (head : loc) (ls1 : list (positive * NodeLink))
    (l : positive) (d : NodeLink) (ls2 : list (positive * NodeLink)) (Name : option bytes) :
  links h head (ls1 ++ (l, d) :: ls2) -> opt_terminated Name -> opt_terminated (nl_name d) ->
  c_str <$> Name = c_str <$> nl_name d ->
  Forall (fun x => opt_terminated (nl_name x.2) /\ c_str <$> Name <> c_str <$> nl_name x.2) ls1 ->
  exists h' head', ipfs_hashtable_node_remove_link_by_name h head Name = Ret (1, h', head') /\
    match ls1, ls2 with
    | [], [] => h' = h /\ head' = head
    | [], (l2, _) :: _ => h' = h /\ head' = Some l2 /\ links h' head' ls2
    | _, _ => links h' head' (ls1 ++ ls2) /\ cells h' !! l = None
    end.
Proof.
  intros Hc HN Hd Heq Hall. pose proof (links_fuel _ _ _ Hc) as Hf. rewrite length_app in Hf. simpl length in Hf.
  pose proof (links_mid _ _ _ _ _ _ Hc) as (n & Hl & H1 & H2 & Hn1 & Hn2).
  unfold ipfs_hashtable_node_remove_link_by_name.
  rewrite (find_link_by_name_ok h Name l d ls2 HN Hd Heq ls1) by (done || lia). cbn [rbind].
  rewrite (load_some _ _ _ Hl). cbn [rbind].
  destruct ls1 as [|[lp dp] pre _] using rev_ind.
  - pose proof (links_head _ _ _ H2) as Hh. pose proof (links_head _ _ _ Hc) as Hh0. simpl in Hh0.
    destruct ls2 as [|[l2 d2] ls2]; subst n head; cbn [last]; [by exists h, (Some l)|].
    by exists h, (Some l2).
  - assert (Hlp : exists np, cells h !! lp = Some (dp, np)).
    { rewrite <- app_assoc in Hc. pose proof (links_mid _ _ _ _ _ _ Hc) as (np & Hlp & _). by exists np. }
    destruct Hlp as [np Hlp]. rewrite last_snoc. cbn [fst]. rewrite (load_some _ _ _ Hlp). cbn [rbind].
    rewrite (store_some _ _ _ _ Hlp). cbn [rbind].
    rewrite fmap_app, not_elem_of_app in Hn1. destruct Hn1 as [_ Hne]. cbn [fmap list_fmap fst] in Hne.
    rewrite list_elem_of_singleton in Hne.
    rewrite (release_some _ l (d, n)) by (cbn [cells]; by rewrite lookup_insert_ne). cbn [rbind cells brk].
    eexists _, head. split; [done|].
    pose proof (links_unlink h head pre lp dp l d ls2 n Hl Hc) as Hu.
    rewrite <- app_assoc. cbn [app].
    destruct pre as [|[? ?] pre]; (split; [exact Hu|apply lookup_delete_eq]).
Qed.
