(* ===== verification/NodePath.v ===== *)
(** * Paths into a node (libipfs/merkledag/node.c)

    The functions of node.c that cut a path at its slashes and look the pieces
    up among the links of a node. *)
From S2P Require Import Prelude Node Heap NodeLinks.

Definition slash : Z := 47.
Definition space : Z := 32.

(** ** [strtok_r(_, "/", &end)]

    On the characters that are left: the next token and what [end] points at
    afterwards, or NULL. *)
Fixpoint skip_slash (s : bytes) : bytes :=
  match s with
  | [] => []
  | c :: s' => if c =? slash then skip_slash s' else s
  end.

Fixpoint until_slash (s : bytes) : bytes * bytes :=
  match s with
  | [] => ([], [])
  | c :: s' =>
    if c =? slash then ([], s') else let (w, rest) := until_slash s' in (c :: w, rest)
  end.

Definition strtok (s : bytes) : option (bytes * bytes) :=
  match skip_slash s with [] => None | s' => Some (until_slash s') end.

Section path.
Context {M : Malloc}.

(** ** [Node_Resolve_Max_Size] *)
Fixpoint max_size_loop (fuel : nat) (tr : option (bytes * bytes)) (num : Z) : res Z :=
  match fuel with
  | O => NoFuel
  | S fuel =>
    match tr with
    | None => Ret num
    | Some (_, rest) => let! num := int_op (num + 1) in max_size_loop fuel (strtok rest) num
    end
  end.

Definition Node_Resolve_Max_Size (input1 : option bytes) : res Z :=
  match input1 with
  | None => Ret (-1)
  | Some input1 =>
    let! n := strlen input1 in
    let input := ztake n input1 in
    max_size_loop (S (length input)) (strtok input) 0
  end.

(** ** [Node_Resolve]

    [result] is the caller's array; its elements are NULL or strings. *)
Fixpoint node_resolve_loop (fuel : nat) (tr : option (bytes * bytes)) (i : Z) (retVal : Z)
    (result : list (option bytes)) : res (Z * list (option bytes)) :=
  match fuel with
  | O => NoFuel
  | S fuel =>
    match tr with
    | None => Ret (retVal, result)
    | Some (w, rest) =>
      if zlen result <=? i then UB
      else
        let (word, retVal) :=
          if malloc_ok (zlen w + 1) then (Some (w ++ [0]), retVal) else (None, 0) in
        let! i' := int_op (i + 1) in
        node_resolve_loop fuel (strtok rest) i' retVal (<[Z.to_nat i := word]> result)
    end
  end.

Definition Node_Resolve (result : list (option bytes)) (input1 : option bytes)
  : res (Z * list (option bytes)) :=
  match input1 with
  | None => Ret (0, result)
  | Some input1 =>
    let! n := strlen input1 in
    let input := ztake n input1 in
    node_resolve_loop (S (length input)) (strtok input) 0 1 result
  end.

(** ** [Node_Resolve_Links]

    An element of [LProc->links]: not written, a pointer to a [struct NodeLink]
    that was allocated and not filled, or a pointer to a link. *)
Inductive link_slot := SlotUnset | SlotFresh | SlotLink (l : NodeLink).

Record Link_Proc := mkLinkProc {
  ammount : Z;
  lp_links : list link_slot
}.

Definition sizeof_Link_Proc : Z := 16.

(** one turn of the lookup loop; [memcpy] is only reached with a NULL target *)
Definition resolve_one_link (h : link_heap) (head : loc) (i : nat) (linkname : option bytes)
    (LProc : Link_Proc) : res (link_heap * Link_Proc) :=
  let! proclink := ipfs_hashtable_node_get_link_by_name h head (deref linkname) in
  match proclink with
  | None => Ret (h, LProc)
  | Some _ =>
    let! slot := if malloc_ok sizeof_NodeLink then Ret SlotFresh else UB in
    let! h := release h proclink in
    Ret (h, mkLinkProc (ammount LProc) (<[i := slot]> (lp_links LProc)))
  end.

Fixpoint resolve_links_loop (h : link_heap) (head : loc) (i : nat) (linknames : list (option bytes))
    (LProc : Link_Proc) : res (link_heap * Link_Proc) :=
  match linknames with
  | [] => Ret (h, LProc)
  | linkname :: linknames =>
    let! (h, LProc) := resolve_one_link h head i linkname LProc in
    resolve_links_loop h head (S i) linknames LProc
  end.

(** [N] is the heap of its links with [head_link], or NULL; the array
    [linknames] is filled by [Node_Resolve] *)
Definition Node_Resolve_Links (h : link_heap) (N : option loc) (path : option bytes)
  : res (link_heap * option Link_Proc) :=
  match N, path with
  | None, _ | _, None => Ret (h, None)
  | Some head, Some _ =>
    let! expected := Node_Resolve_Max_Size path in
    if malloc_ok (u64 (sizeof_Link_Proc + sizeof_NodeLink * expected)) then
      let! (_, linknames) := Node_Resolve (replicate (Z.to_nat expected) None) path in
      let! (h, LProc) := resolve_links_loop h head 0 linknames
        (mkLinkProc 0 (replicate (Z.to_nat expected) SlotUnset)) in
      Ret (h, Some LProc)
    else Ret (h, None)
  end.

(** ** [Free_Link_Proc] *)
Fixpoint free_link_proc_loop (n : nat) (slots : list link_slot) : res unit :=
  match n with
  | O => Ret tt
  | S n =>
    match slots with
    | SlotLink _ :: slots => free_link_proc_loop n slots
    | _ => UB
    end
  end.

Definition Free_Link_Proc (LPRC : Link_Proc) : res unit :=
  if ammount LPRC =? 0 then Ret tt
  else free_link_proc_loop (Z.to_nat (ammount LPRC)) (lp_links LPRC).

(** ** [Node_Tree]

    The loop writes a space over each slash; [strlen] of the copy does not
    change. *)
Fixpoint node_tree_loop (input : bytes) : bytes :=
  match input with
  | [] => []
  | c :: input => (if c =? slash then space else c) :: node_tree_loop input
  end.

Definition Node_Tree (result : bytes) (input1 : option bytes) : res (Z * bytes) :=
  match input1 with
  | None => Ret (0, result)
  | Some input1 =>
    let! n := strlen input1 in
    let! result := memwr result (node_tree_loop (ztake n input1) ++ [0]) in
    Ret (1, result)
  end.
End path.

(** ** Words of a path: the non-empty pieces between slashes *)
Fixpoint split_slash (s : bytes) : list bytes :=
  match s with
  | [] => [[]]
  | c :: s' =>
    if c =? slash then [] :: split_slash s'
    else match split_slash s' with w :: ws => (c :: w) :: ws | [] => [[c]] end
  end.

Definition words (s : bytes) : list bytes := filter (fun w => w <> []) (split_slash s).

Lemma words_skip s : words (skip_slash s) = words s.
Proof.
  induction s as [|c s IH]; [done|]. simpl. destruct (c =? slash) eqn:E; [|done].
  rewrite IH. unfold words. simpl. rewrite E. rewrite filter_cons_False; [done|]. by intros [].
Qed.

Lemma skip_slash_head s : match skip_slash s with [] => True | c :: _ => (c =? slash) = false end.
Proof. induction s as [|c s IH]; [done|]. simpl. by destruct (c =? slash) eqn:E. Qed.

Lemma skip_slash_length s : (length (skip_slash s) <= length s)%nat.
Proof. induction s as [|c s IH]; [done|]. simpl. destruct (c =? slash); simpl; lia. Qed.

Lemma until_slash_split s w rest : until_slash s = (w, rest) ->
  exists ws, split_slash s = w :: ws /\ filter (fun w => w <> []) ws = words rest.
Proof.
  revert w rest. induction s as [|c s IH]; intros w rest; simpl; [by intros [= <- <-]; exists []|].
  destruct (c =? slash); [by intros [= <- <-]; exists (split_slash s)|].
  destruct (until_slash s) as [w' rest'] eqn:E. intros [= <- <-].
  destruct (IH w' rest' eq_refl) as (ws & -> & Hws). by exists ws.
Qed.

Lemma until_slash_length s : (length (until_slash s).2 <= length s)%nat.
Proof.
  induction s as [|c s IH]; [done|]. simpl. destruct (c =? slash); simpl; [lia|].
  destruct (until_slash s). simpl in *. lia.
Qed.

(** [strtok_r] takes the words one by one *)
Lemma strtok_words s :
  match strtok s with
  | None => words s = []
  | Some (w, rest) => words s = w :: words rest /\ (length rest < length s)%nat
  end.
Proof.
  unfold strtok. rewrite <- (words_skip s). pose proof (skip_slash_length s) as Hlen.
  pose proof (skip_slash_head s) as Hh. destruct (skip_slash s) as [|c s']; [done|].
  destruct (until_slash (c :: s')) as [w rest] eqn:E.
  destruct (until_slash_split _ _ _ E) as (ws & Hs & Hws).
  assert (Hw : w <> [] /\ (length rest <= length s')%nat).
  { simpl in E. rewrite Hh in E. pose proof (until_slash_length s'). destruct (until_slash s').
    injection E as <- <-. done. }
  split; [|simpl in Hlen; lia]. unfold words at 1. rewrite Hs, filter_cons_True by apply Hw. by rewrite Hws.
Qed.

Lemma words_length s : (length (words s) <= length s)%nat.
Proof.
  remember (length s) as n eqn:E. assert (Hn : (length s <= n)%nat) by lia. clear E. revert s Hn.
  induction n as [|n IH]; intros s Hn; pose proof (strtok_words s) as Hs;
    destruct (strtok s) as [[w rest]|]; [lia|rewrite Hs; simpl; lia| |rewrite Hs; simpl; lia].
  destruct Hs as [-> Hlt]. simpl. specialize (IH rest ltac:(lia)). lia.
Qed.

Lemma max_size_loop_ok fuel : forall s num, (length s < fuel)%nat -> 0 <= num ->
  num + zlen (words s) <= INT_MAX -> max_size_loop fuel (strtok s) num = Ret (num + zlen (words s)).
Proof.
  induction fuel as [|fuel IH]; intros s num Hf Hnum Hmax; [lia|]. cbn [max_size_loop].
  pose proof (strtok_words s) as Hs. destruct (strtok s) as [[w rest]|].
  - destruct Hs as [Hs Hlt]. rewrite Hs, zlen_cons in *. unfold INT_MAX in *.
    pose proof (zlen_nonneg (words rest)).
    rewrite int_op_small by lia. cbn [rbind]. rewrite IH by lia. f_equal. lia.
  - rewrite Hs. by rewrite Z.add_0_r.
Qed.

(** what [Node_Resolve] stores for a word, and its result *)
Definition word_copy `{Malloc} (w : bytes) : option bytes :=
  if malloc_ok (zlen w + 1) then Some (w ++ [0]) else None.
Definition words_copied `{Malloc} (ws : list bytes) : bool := forallb (fun w => malloc_ok (zlen w + 1)) ws.

Lemma insert_at_end {A} (pre rest : list A) x y : <[length pre := x]> (pre ++ y :: rest) = (pre ++ [x]) ++ rest.
Proof. rewrite insert_app_r_alt by lia. rewrite Nat.sub_diag. by rewrite <- app_assoc. Qed.

Lemma node_resolve_loop_ok `{Malloc} fuel : forall s pre old retVal, (length s < fuel)%nat ->
  (length (words s) <= length old)%nat -> zlen pre + zlen (words s) <= INT_MAX ->
  node_resolve_loop fuel (strtok s) (zlen pre) retVal (pre ++ old) =
    Ret (if words_copied (words s) then retVal else 0,
         pre ++ (word_copy <$> words s) ++ drop (length (words s)) old).
Proof.
  induction fuel as [|fuel IH]; intros s pre old retVal Hf Hold Hmax; [lia|]. cbn [node_resolve_loop].
  pose proof (strtok_words s) as Hs. destruct (strtok s) as [[w rest]|]; [|by rewrite Hs].
  destruct Hs as [Hs Hlt]. rewrite Hs in *. rewrite zlen_cons in Hmax. simpl length in Hold.
  destruct old as [|o old]; [simpl in Hold; lia|]. simpl length in Hold.
  pose proof (zlen_nonneg (words rest)). pose proof (zlen_nonneg pre).
  replace (zlen (pre ++ o :: old) <=? zlen pre) with false by (symmetry; apply Z.leb_gt; zlia).
  unfold INT_MAX in *. rewrite int_op_small by lia.
  assert (Hz : zlen pre + 1 = zlen (pre ++ [word_copy w])) by (rewrite zlen_app; reflexivity).
  assert (Hi : Z.to_nat (zlen pre) = length pre) by (unfold zlen; lia).
  replace (if malloc_ok (zlen w + 1) then (Some (w ++ [0]), retVal) else (None, 0))
    with (word_copy w, if malloc_ok (zlen w + 1) then retVal else 0)
    by (unfold word_copy; by destruct (malloc_ok _)).
  cbn [rbind]. rewrite Hi, insert_at_end, Hz, IH; [| lia | lia | rewrite <- Hz; lia].
  f_equal. f_equal; [|by rewrite <- app_assoc].
  unfold words_copied. simpl. destruct (malloc_ok _), (forallb _ _); done.
Qed.

(** too small an array is overrun *)
Lemma node_resolve_loop_ub `{Malloc} fuel : forall s result i retVal, (length s < fuel)%nat ->
  0 <= i <= zlen result -> zlen result < i + zlen (words s) -> zlen result < INT_MAX ->
  node_resolve_loop fuel (strtok s) i retVal result = UB.
Proof.
  induction fuel as [|fuel IH]; intros s result i retVal Hf Hi Hlt Hmax; [lia|]. cbn [node_resolve_loop].
  pose proof (strtok_words s) as Hs. destruct (strtok s) as [[w rest]|].
  - destruct Hs as [Hs Hl]. rewrite Hs, zlen_cons in Hlt.
    destruct (Z.leb_spec (zlen result) i); [done|]. unfold INT_MAX in *.
    rewrite int_op_small by lia. cbn [rbind].
    destruct (malloc_ok _); apply IH; unfold zlen in *; rewrite ?length_insert; lia.
  - rewrite Hs in Hlt. change (zlen []) with 0 in Hlt. lia.
Qed.

Lemma node_resolve_ok (M : Malloc) (path : bytes) (result : list (option bytes)) :
  terminated path -> zlen (words (c_str path)) < INT_MAX ->
  Node_Resolve_Max_Size (Some path) = Ret (zlen (words (c_str path))) /\
  (zlen (words (c_str path)) <= zlen result ->
   Node_Resolve result (Some path) =
     Ret (if words_copied (words (c_str path)) then 1 else 0,
          (word_copy <$> words (c_str path)) ++ zdrop (zlen (words (c_str path))) result)).
Proof.
  intros Hp Hmax. pose proof (c_str_split path Hp) as [_ [rest Hsplit]].
  assert (Ht : ztake (zlen (c_str path)) path = c_str path)
    by (rewrite Hsplit at 2; apply ztake_app_len).
  unfold Node_Resolve_Max_Size, Node_Resolve. rewrite strlen_c_str by done. cbn [rbind]. rewrite Ht.
  split; [apply max_size_loop_ok; lia|].
  intros Hr. rewrite (node_resolve_loop_ok _ (c_str path) [] result 1) by (unfold zlen in *; simpl; lia).
  unfold zdrop, zlen. by rewrite Nat2Z.id.
Qed.

(** ** Lookups in a list that runs into a freed link *)
Lemma get_link_by_name_loop_ub h l Name ls : terminated Name -> cells h !! l = None ->
  Forall (fun x => named x.2 /\ link_name x.2 <> c_str Name) ls ->
  forall head fuel, seg (cells h) head ls (Some l) -> (length ls < fuel)%nat ->
  get_link_by_name_loop fuel h head Name = UB.
Proof.
  intros HN Hfree. induction 1 as [|[l' d] ls [(s & Hs & Hterm) Hne] _ IH];
    intros head [|fuel] Hc Hf; try (simpl in Hf; lia); cbn [get_link_by_name_loop].
  - simpl in Hc. subst head. by rewrite (load_freed _ _ Hfree).
  - destruct Hc as (-> & n & Hl & Hc). cbn [snd] in *. rewrite (load_some _ _ _ Hl). cbn [rbind].
    destruct (c_strcmp_ok Name s HN Hterm) as (r & Hr & Hiff).
    rewrite Hs. change (deref (Some s)) with s. rewrite Hr. cbn [rbind].
    rewrite (proj2 (Z.eqb_neq r 0)); [apply IH; [done|simpl in *; lia]|].
    rewrite Hiff. unfold link_name in Hne. by rewrite Hs in Hne.
Qed.

Lemma node_free_links_ub ls l : forall h head fuel, cells h !! l = None ->
  seg (cells h) head ls (Some l) -> NoDup ls.*1 -> (length ls < fuel)%nat ->
  node_free_links fuel h head head = UB.
Proof.
  induction ls as [|[l1 d1] ls IH]; intros h head [|fuel] Hfree Hc Hnd Hf; try (simpl in Hf; lia);
    cbn [node_free_links].
  - simpl in Hc. subst head. by rewrite (load_freed _ _ Hfree).
  - destruct Hc as (-> & n & Hl & Hc). apply NoDup_cons in Hnd as [Hn Hnd].
    rewrite (load_some _ _ _ Hl). cbn [rbind].
    assert (E : ipfs_node_remove_link h (Some l1) (Some l1) = Ret (1, mkHeap (delete l1 (cells h)) (brk h), n)).
    { unfold ipfs_node_remove_link, walk_fuel. cbn [node_find_link]. rewrite bool_decide_eq_true_2 by done.
      cbn [rbind]. rewrite (load_some _ _ _ Hl). cbn [rbind]. by rewrite (release_some _ _ _ Hl). }
    rewrite E. cbn [rbind]. apply IH.
    + cbn [cells]. destruct (decide (l = l1)) as [->|Hne]; [apply lookup_delete_eq|by rewrite lookup_delete_ne].
    + by apply seg_delete.
    + done.
    + simpl in *. lia.
Qed.

(** the words of a C string are C strings *)
Lemma words_nonzero s : Forall (fun b => b <> 0) s -> Forall (Forall (fun b => b <> 0)) (words s).
Proof.
  intros Hs. unfold words. apply Forall_forall. intros w [_ Hw]%list_elem_of_filter. revert w Hw.
  apply Forall_forall. induction Hs as [|c s Hc _ IH]; simpl; [by repeat constructor|].
  destruct (c =? slash); [by constructor|]. destruct (split_slash s) as [|w ws]; [by repeat constructor|].
  apply Forall_cons in IH as [IH1 IH2]. by constructor; [constructor|].
Qed.

Lemma node_tree_ok (path result : bytes) : terminated path -> zlen (c_str path) < zlen result ->
  Node_Tree result (Some path) =
    Ret (1, ((fun c => if c =? slash then space else c) <$> c_str path) ++ 0 :: zdrop (zlen (c_str path) + 1) result).
Proof.
  intros Hp Hr. pose proof (c_str_split path Hp) as [_ [rest Hsplit]].
  unfold Node_Tree. rewrite strlen_c_str by done. cbn [rbind].
  replace (ztake (zlen (c_str path)) path) with (c_str path) by (rewrite Hsplit at 3; by rewrite ztake_app_len).
  assert (Ht : forall p, node_tree_loop p = (fun c => if c =? slash then space else c) <$> p)
    by (induction p as [|c p IH]; simpl; [done|by rewrite IH]).
  rewrite Ht. assert (Hz : zlen ((fun c => if c =? slash then space else c) <$> c_str path) = zlen (c_str path))
    by (unfold zlen; by rewrite length_fmap).
  rewrite memwr_ok by (rewrite zlen_app, Hz; zlia). cbn [rbind].
  rewrite zlen_app, Hz. by rewrite <- app_assoc.
Qed.

(** ** Properties *)

(** [Node_Resolve_Max_Size] counts the words of a path: the
    non-empty pieces between slashes.  [Node_Resolve] copies them, in order and
    NUL-terminated, to the front of an array that has room for them, with NULL
    for a word that could not be allocated, and returns 1 exactly when all
    were; a smaller array is overrun. *)
Lemma node_resolve_spec (M : Malloc) (path : bytes) (result : list (option bytes)) :
  terminated path -> zlen (words (c_str path)) < INT_MAX ->
  Node_Resolve_Max_Size (Some path) = Ret (zlen (words (c_str path))) /\
  (zlen (words (c_str path)) <= zlen result ->
   Node_Resolve result (Some path) =
     Ret (if words_copied (words (c_str path)) then 1 else 0,
          (word_copy <$> words (c_str path)) ++ zdrop (zlen (words (c_str path))) result)) /\
  (zlen result < zlen (words (c_str path)) -> Node_Resolve result (Some path) = UB).
Proof.
  intros Hp Hmax. destruct (node_resolve_ok M path result Hp Hmax) as [H1 H2]. split_and!; [done|done|].
  intros Hr. pose proof (c_str_split path Hp) as [_ [rest Hsplit]].
  unfold Node_Resolve. rewrite strlen_c_str by done. cbn [rbind].
  replace (ztake (zlen (c_str path)) path) with (c_str path) by (rewrite Hsplit at 3; by rewrite ztake_app_len).
  apply node_resolve_loop_ub; pose proof (zlen_nonneg result); lia.
Qed.

(** "a//bc/" *)
Definition ex_path : bytes := [97; 47; 47; 98; 99; 47; 0].

(** [Node_Resolve_Links] never returns a link: when the first word
    of the path names a link, the result has [ammount] 0 and, in place of the
    link, an allocated struct that nothing was copied to, and the link of the
    node itself has been freed.  The node can then no longer be freed or
    searched: [ipfs_hashtable_node_free], and the lookup of a second word that
    passes the link, use freed memory. *)
Lemma node_resolve_links_frees (M : Malloc) (Hm : MallocOk M) (h : link_heap) (head : loc)
    (ls1 : list (positive * NodeLink)) (l : positive) (d : NodeLink) (ls2 : list (positive * NodeLink))
    (path : bytes) (ws : list bytes) :
  links h head (ls1 ++ (l, d) :: ls2) -> Forall (fun x => named x.2) (ls1 ++ [(l, d)]) ->
  terminated path -> words (c_str path) = link_name d :: ws ->
  Forall (fun x => link_name x.2 <> link_name d) ls1 -> zlen ws + 1 < INT_MAX ->
  match ws with
  | [] =>
    exists h', Node_Resolve_Links h (Some head) (Some path) = Ret (h', Some (mkLinkProc 0 [SlotFresh])) /\
      cells h' = delete l (cells h) /\ Free_Link_Proc (mkLinkProc 0 [SlotFresh]) = Ret tt /\
      ipfs_hashtable_node_free h' head = UB
  | w :: _ =>
    Forall (fun x => link_name x.2 <> w) ls1 ->
    Node_Resolve_Links h (Some head) (Some path) = UB
  end.
Proof.
  intros Hc Hnamed Hp Hw Hne Hmax. apply Forall_app in Hnamed as [Hn1 Hnd]. apply Forall_cons in Hnd as [Hnd _].
  cbn [snd] in Hnd.
  destruct (node_resolve_ok M path (replicate (Z.to_nat (1 + zlen ws)) None)) as [Hsize Hres];
    [done|rewrite Hw, zlen_cons; lia|].
  rewrite Hw, zlen_cons in Hsize, Hres. specialize (Hres ltac:(rewrite zlen_replicate; zlia)).
  pose proof (links_mid _ _ _ _ _ _ Hc) as (n & Hl & H1 & H2 & Hnl1 & _).
  pose proof (links_fuel _ _ _ Hc) as Hf. rewrite length_app in Hf. simpl length in Hf.
  pose proof (seg_NoDup _ _ _ Hc) as Hdup. rewrite fmap_app in Hdup. apply NoDup_app in Hdup as [Hdup _].
  set (h' := mkHeap (delete l (cells h)) (brk h)).
  assert (Hf' : (length ls1 < walk_fuel h')%nat).
  { unfold walk_fuel, h' in *. cbn [cells]. rewrite map_size_delete_Some by (by eexists). lia. }
  assert (Hseg : seg (cells h') head ls1 (Some l)) by (by apply seg_delete).
  assert (Hfree : cells h' !! l = None) by apply lookup_delete_eq.
  assert (Hword : Forall (fun w => terminated (w ++ [0]) /\ c_str (w ++ [0]) = w) (link_name d :: ws)).
  { rewrite <- Hw. apply (Forall_impl (Forall (fun b => b <> 0))); [apply words_nonzero, c_str_split, Hp|].
    intros w Hnz. split; [apply terminated_nul|by apply c_str_nul]. }
  apply Forall_cons in Hword as [[Hwt Hwc] Hwords].
  assert (Hone : resolve_one_link h head 0 (word_copy (link_name d)) (mkLinkProc 0 (replicate (Z.to_nat (1 + zlen ws)) SlotUnset))
    = Ret (h', mkLinkProc 0 (SlotFresh :: replicate (length ws) SlotUnset))).
  { unfold resolve_one_link, word_copy. rewrite malloc_always. change (deref (Some ?x)) with x.
    unfold ipfs_hashtable_node_get_link_by_name.
    rewrite (get_link_by_name_loop_ok h _ ls1 ((l, d) :: ls2)); [|done| |by rewrite Hwc|done|lia].
    - cbn [rbind fmap option_fmap option_map List.hd_error fst]. rewrite malloc_always. cbn [rbind].
      rewrite (release_some _ _ _ Hl). cbn [rbind ammount lp_links].
      rewrite Z2Nat.inj_add by zlia. unfold zlen. by rewrite Nat2Z.id.
    - rewrite Hwc. apply Forall_and. by split. }
  unfold Node_Resolve_Links. rewrite Hsize. cbn [rbind]. rewrite malloc_always.
  rewrite Hres. cbn [rbind fmap list_fmap app resolve_links_loop]. rewrite Hone. cbn [rbind].
  destruct ws as [|w ws].
  - exists h'. split_and!; [done|done|done|]. apply (node_free_links_ub ls1 l); done.
  - intros Hne2. cbn [fmap list_fmap app resolve_links_loop]. apply Forall_cons in Hwords as [[Hw2t Hw2c] _].
    unfold resolve_one_link, word_copy. rewrite malloc_always. change (deref (Some ?x)) with x.
    unfold ipfs_hashtable_node_get_link_by_name.
    rewrite (get_link_by_name_loop_ub h' l _ ls1); [done|done|done| |done|done].
    rewrite Hw2c. apply Forall_and. by split.
Qed.
