(* ===== verification/Datastore.v ===== *)
(** * The datastore interface (libp2p/db/datastore.h, libipfs/datastore/ds_helper.c)

    [struct Datastore] is a table of function pointers; here it is the type class
    [Datastore], with what its clients rely on in [DatastoreLaws].  The helper
    functions derive a base32 key from a hash and record a block. *)
From S2P Require Import Prelude Multihash Cid Block Base32.

Record DatastoreRecord := mkRecord {
  rec_key : option bytes;
  rec_key_size : Z;
  rec_value : option bytes;
  rec_value_size : Z;
  timestamp : Z
}.

Definition sizeof_DatastoreRecord : Z := 40.

(** the state behind [datastore_context] is [D]; [datastore_get] is NULL when it
    returns 0 *)
Class Datastore (D : Type) := {
  datastore_put : DatastoreRecord -> D -> Z * D;
  datastore_get : bytes -> D -> option DatastoreRecord
}.

(** a put that is not refused makes the key present, and no put loses a key *)
Class DatastoreLaws (D : Type) `{Datastore D} : Prop := {
  put_present : forall k r d n d', rec_key r = Some k -> datastore_put r d = (n, d') -> n <> 0 ->
    is_Some (datastore_get k d');
  put_keeps : forall r d n d' k, datastore_put r d = (n, d') ->
    is_Some (datastore_get k d) -> is_Some (datastore_get k d')
}.

(** a datastore that is a map and never refuses *)
#[export] Instance map_datastore : Datastore (gmap bytes DatastoreRecord) := {
  datastore_put r d := (1, <[deref (rec_key r) := r]> d);
  datastore_get k d := d !! k
}.
#[export] Instance map_datastore_laws : DatastoreLaws (gmap bytes DatastoreRecord).
Proof.
  split; simpl.
  - intros k r d n d' Hk [= <- <-] _. rewrite Hk. change (deref (Some k)) with k.
    rewrite lookup_insert_eq. by eexists.
  - intros r d n d' k [= <- <-] Hk. destruct (decide (k = deref (rec_key r))) as [->|Hne].
    + rewrite lookup_insert_eq. by eexists.
    + by rewrite lookup_insert_ne.
Qed.

Section datastore.
Context {M : Malloc}.

Definition libp2p_datastore_record_new : option DatastoreRecord :=
  if malloc_ok sizeof_DatastoreRecord then Some (mkRecord None 0 None 0 0) else None.

(** returned value, [*results_length] and the buffer *)
Definition ipfs_datastore_helper_ds_key_from_binary (binary_array : bytes) (array_length : Z)
    (results : bytes) (max_results_length results_length : Z) : res (Z * Z * bytes) :=
  let encoded_length := libp2p_crypto_encoding_base32_encode_size array_length in
  if max_results_length <? encoded_length then Ret (0, results_length, results)
  else
    let! (retVal, results_length, results) :=
      libp2p_crypto_encoding_base32_encode binary_array array_length results max_results_length in
    if retVal =? 0 then Ret (0, 0, results) else Ret (1, results_length, results).

(** the record for a block: the hash, and its base32 text as the value;
    [None]: the function returns 0 before the put *)
Definition block_record (block : Block) : res (option DatastoreRecord) :=
  match libp2p_datastore_record_new with
  | None => Ret None
  | Some _ =>
    match block_cid block with
    | None => UB
    | Some cid =>
      let key_size := cid_hash_length cid in
      if malloc_ok key_size then
        let! key := memrd (deref (cid_hash cid)) key_size in
        let! (r, fs_key_length, fs_key) :=
          ipfs_datastore_helper_ds_key_from_binary (deref (cid_hash cid)) key_size (fresh 100) 100 100 in
        if r =? 0 then Ret None
        else if malloc_ok fs_key_length then
          let! value := memrd fs_key fs_key_length in
          Ret (Some (mkRecord (Some key) key_size (Some value) fs_key_length 0))
        else Ret None
      else Ret None
    end
  end.

Definition ipfs_datastore_helper_add_block_to_datastore {D} `{Datastore D} (block : Block) (datastore : D)
  : res (Z * D) :=
  let! rec := block_record block in
  match rec with
  | None => Ret (0, datastore)
  | Some rec => Ret (datastore_put rec datastore)
  end.
End datastore.

(** ** The record of a block *)
Lemma key_from_binary_ok s rest results max n : is_bytes s ->
  libp2p_crypto_encoding_base32_encode_size (zlen s) <= max -> 1 <= max <= zlen results ->
  ipfs_datastore_helper_ds_key_from_binary (s ++ rest) (zlen s) results max n =
    (if max <=? zlen (b32 s) then Ret (1, max, ztake max (b32 s) ++ zdrop max results)
     else Ret (1, zlen (b32 s), b32 s ++ replicate (Z.to_nat (max - zlen (b32 s))) 0 ++ zdrop max results)).
Proof.
  intros Hs Hsize Hmax. unfold ipfs_datastore_helper_ds_key_from_binary.
  rewrite (proj2 (Z.ltb_ge _ _)) by done.
  destruct (Z.leb_spec max (zlen (b32 s))).
  - by rewrite encode_fits by (done || lia).
  - by rewrite encode_padded by (done || lia).
Qed.

(** a sha2-256 hash *)
Definition hash_ok (h : bytes) : Prop := is_bytes h /\ zlen h = 32.

Lemma b32_length_32 h : hash_ok h -> zlen (b32 h) = 56.
Proof. intros [_ Hl]. by rewrite b32_length, Hl. Qed.

Lemma block_record_ok {M : Malloc} {Hm : MallocOk M} h b c : hash_ok h -> block_cid b = Some c ->
  cid_hash c = Some h -> cid_hash_length c = 32 ->
  block_record b = Ret (Some (mkRecord (Some h) 32 (Some (b32 h)) 56 0)).
Proof.
  intros Hh Hc Hh1 Hh2. pose proof (b32_length_32 h Hh) as Hb. destruct Hh as [Hb8 Hl].
  unfold block_record, libp2p_datastore_record_new. rewrite malloc_always, Hc, Hh1, Hh2, malloc_always.
  change (deref (Some h)) with h. rewrite memrd_all by done. cbn [rbind]. rewrite <- Hl at 1.
  replace (ipfs_datastore_helper_ds_key_from_binary h (zlen h))
    with (ipfs_datastore_helper_ds_key_from_binary (h ++ []) (zlen h)) by (by rewrite app_nil_r).
  rewrite key_from_binary_ok; [|done|rewrite Hl; by vm_compute|rewrite zlen_fresh; lia].
  rewrite Hb. cbn [Z.leb Z.compare Pos.compare Pos.compare_cont]. change (100 <=? 56) with false. cbn [rbind].
  change (1 =? 0) with false. cbv iota. rewrite malloc_always. by rewrite memrd_app by done.
Qed.
