(* ===== verification/Paths.v ===== *)
(** * Texts of paths (libipfs/path/path.c, libipfs/flatfs/flatfs.c)

    Splitting paths into segments and putting them together, the shortest name of a
    path, what is taken for a path, and the file names of the flat file store.  A text
    is an object with a NUL; its content is read with [read_str]. *)
From Stdlib Require Import String.
From S2P Require Import Prelude CString Files Multihash Cid.

(** util/errs.h *)
Definition ErrAllocFailed : Z := 1.
Definition ErrNULLPointer : Z := 2.
Definition ErrPublishFailed : Z := 6.
Definition ErrResolveFailed : Z := 7.
Definition ErrInvalidProquint : Z := 11.
Definition ErrBadPath : Z := 14.
Definition ErrNoComponents : Z := 15.
Definition ErrCidDecode : Z := 16.
Definition ErrInvalidParam : Z := 19.

Definition ipfs_prefix : bytes := Eval vm_compute in txt "/ipfs/".
Definition ipns_prefix : bytes := Eval vm_compute in txt "/ipns/".

(** [strchr] from one occurrence to the next, counted *)
Definition count_char (c : Z) (s : bytes) : Z := zlen (filter (fun b => b = c) s).

Section paths.
Context {M : Malloc}.

(** [strncat(dst, src, n)] into an object of [cap] bytes; [n] is a [size_t] *)
Definition strncat_into (cap : Z) (dst src : bytes) (n : Z) : res bytes := strcpy_into cap (dst ++ ztake (u64 n) src).

Definition ipfs_path_from_cid (c : Cid) : res (option bytes) :=
  let! cidstr := read_str (deref (cid_hash c)) in
  let l := 7 + zlen cidstr in
  if negb (malloc_ok l) then Ret None
  else
    let! rpath := strncat_into l ipfs_prefix cidstr (l - 1 - 6) in
    Ret (Some (rpath ++ [0])).

(** ** Segments *)
(** how many pieces there are; an empty delimiter is found for ever *)
Fixpoint count_pieces (fuel : nat) (s delim : bytes) : res Z :=
  match fuel with
  | O => NoFuel
  | S fuel =>
    match c_strstr s delim with
    | Some k => let! n := count_pieces fuel (zdrop (k + zlen delim) s) delim in Ret (n + 1)
    | None => Ret 1
    end
  end.

(** what follows the last piece is dropped *)
Fixpoint split_loop (n : nat) (s delim : bytes) : list bytes :=
  match n with
  | O => []
  | S n =>
    match c_strstr s delim with
    | Some k => ztake k s :: split_loop n (zdrop (k + zlen delim) s) delim
    | None => [s]
    end
  end.

(** the texts of the segments, which lie in one copy of the path *)
Definition ipfs_path_split_n (p delim : bytes) (n : Z) : res (option (list bytes)) :=
  let! d := read_str delim in
  if n =? 0 then Ret None
  else
    let! s := read_str p in
    let! n := if n <? 0 then count_pieces (S (length s)) s d else int_op (n + 1) in
    if negb (malloc_ok (zlen s + 1)) then Ret None
    else if negb (malloc_ok (u64 (8 * (n + 1)))) then Ret None
    else Ret (Some (split_loop (Z.to_nat n) s d)).

Definition ipfs_path_split_segments (p : bytes) : res (option (list bytes)) :=
  let! c := rd p 0 in
  let! p := if c =? 47 then padd p 1 else Ret p in
  ipfs_path_split_n p [47; 0] (-1).

Definition ipfs_path_segments_length (s : option (list bytes)) : Z :=
  match s with Some l => zlen l | None => 0 end.

Fixpoint append_segments (retlen : Z) (ret : bytes) (seg : list bytes) : res bytes :=
  match seg with
  | [] => Ret ret
  | s :: seg =>
    let! ret := strncat_into (retlen + 1) ret [47] (retlen - zlen ret) in
    let! ret := strncat_into (retlen + 1) ret s (retlen - zlen ret) in
    append_segments retlen ret seg
  end.

Definition ipfs_path_from_segments (prefix : option bytes) (seg : option (list bytes)) : res (option bytes) :=
  match prefix, seg with
  | Some prefix, Some seg =>
    let! prefix := read_str prefix in
    let retlen := zlen prefix + foldr (fun s z => zlen s + 1 + z) 0 seg in
    if malloc_ok (retlen + 1) then
      let! ret := append_segments retlen prefix seg in
      Ret (Some (ret ++ [0]))
    else Ret None
  | _, _ => Ret None
  end.

(** ** The shortest name *)
(** one segment; [cap] is the size of the buffer, which holds [r] *)
Definition clean_step (cap : Z) (r seg : bytes) : res bytes :=
  let l := cap - 1 in
  if (zlen seg =? 0) && (zlen r =? 0) then strcpy_into cap (ztake l [47])
  else if bool_decide (seg = [46; 46]) then
    Ret (match c_strrchr r 47 with Some s => if 0 <? s then ztake s r else r | None => r end)
  else if negb (zlen seg =? 0) && negb (hd 0 seg =? 47) && negb (bool_decide (seg = [46])) then
    let! r :=
      if zlen r =? 0 then strncat_into cap r [46; 47] (l - zlen r)
      else let! c := rd r (zlen r - 1) in if negb (c =? 47) then strncat_into cap r [47] (l - zlen r) else Ret r in
    strncat_into cap r seg (l - zlen r)
  else Ret r.

Fixpoint clean_loop (cap : Z) (r : bytes) (path : list bytes) : res bytes :=
  match path with
  | [] => Ret r
  | seg :: path => let! r := clean_step cap r seg in clean_loop cap r path
  end.

(** the first byte of the buffer is written before the buffer is tested *)
Definition ipfs_path_clean_path (str : bytes) : res (option bytes) :=
  let! s := read_str str in
  let cap := zlen s + 3 in
  if negb (malloc_ok cap) then UB
  else
    let! path := ipfs_path_split_n str [47; 0] (-1) in
    match path with
    | None => Ret None
    | Some path =>
      let! r := clean_loop cap [] path in
      if malloc_ok (zlen r + 1) then Ret (Some (r ++ [0])) else Ret None
    end.

(** ** What is a path *)
Definition ipfs_path_is_just_a_key (p : bytes) : res Z :=
  let! parts := ipfs_path_split_segments p in
  Ret (match parts with
       | Some l => if (ipfs_path_segments_length parts =? 2) && bool_decide (head l = Some (txt "ipfs")) then 1 else 0
       | None => 0
       end).

(** the result, [*str] as an index into the path ([None]: it was not set or is NULL),
    and the path, in which a slash becomes a NUL *)
Definition ipfs_path_pop_last_segment (p : bytes) : res (Z * option Z * bytes) :=
  let! key := ipfs_path_is_just_a_key p in
  if negb (key =? 0) then Ret (0, None, p)
  else
    let! s := read_str p in
    match c_strrchr s 47 with
    | None => Ret (ErrBadPath, None, p)
    | Some k => Ret (0, Some (k + 1), ztake k p ++ 0 :: zdrop (k + 1) p)
    end.

(** [c] is NULL in every case: the call that would set it is a comment.  The second
    result is what is written to [dst] *)
Definition ipfs_path_parse_from_cid (txt : option bytes) : res (Z * option bytes) :=
  match txt with
  | None => Ret (ErrNoComponents, None)
  | Some t =>
    let! c := rd t 0 in
    if c =? 0 then Ret (ErrNoComponents, None) else Ret (ErrCidDecode, None)
  end.

Definition ipfs_path_parse (t : option bytes) : res (Z * option bytes) :=
  match t with
  | None => Ret (ErrNoComponents, None)
  | Some t =>
    let! c := rd t 0 in
    if c =? 0 then Ret (ErrNoComponents, None)
    else
      let! one_slash :=
        if negb (c =? 47) then Ret true
        else let! rest := padd t 1 in let! tail := read_str rest in Ret (bool_decide (47 ∉ tail)) in
      if one_slash : bool then
        let! t := if c =? 47 then padd t 1 else Ret t in
        let! (err, d) := ipfs_path_parse_from_cid (Some t) in
        Ret (err, if err =? 0 then (fun d => ipfs_prefix ++ d) <$> d else d)
      else
        let! s := read_str t in
        if count_char 47 s <? 3 then Ret (ErrBadPath, None)
        else
          let! e := c_strcmp t (ipfs_prefix ++ [0]) in
          if e =? 0 then
            let! rest := padd t 6 in
            let! s := read_str rest in
            if negb (malloc_ok (zlen s + 1)) then Ret (ErrAllocFailed, None)
            else
              let key := match c_strstr s [47] with Some k => ztake k s | None => s end in
              ipfs_path_parse_from_cid (Some (key ++ [0]))
          else
            let! e := c_strcmp t (ipns_prefix ++ [0]) in
            if negb (e =? 0) then Ret (ErrBadPath, None) else Ret (0, None)
  end.

Definition ipfs_path_is_valid (p : option bytes) : res Z :=
  let! (err, _) := ipfs_path_parse p in Ret err.
End paths.

(** ** The flat file store (flatfs.c) *)
Section flatfs.

Fixpoint drop_slashes (s : bytes) : bytes :=
  match s with
  | x :: s' => if x =? 47 then drop_slashes s' else s
  | [] => []
  end.

(** the text that is written to [out], or 0 *)
Definition ipfs_flatfs_remove_preceeding_slash (inp : bytes) (max_size : Z) : res (option bytes) :=
  let! s := read_str inp in
  if max_size <? u64 (zlen s + 1) then Ret None else Ret (Some (drop_slashes s)).

(** [writeable], [exists] and [mkdir] are those of the operating system *)
Definition ipfs_flatfs_create_directory (writeable exists_ mkdir : bytes -> bool) (full_directory : bytes) : Z :=
  if writeable full_directory then 1 else if exists_ full_directory then 0 else if mkdir full_directory then 1 else 0.

(** sixteen characters of the name *)
Definition directory_name (s : bytes) : bytes := ztake 16 (s ++ replicate (Z.to_nat (16 - zlen s)) 95).

(** the result and the object [derived_path] *)
Definition ipfs_flatfs_get_directory (datastore_path proposed_filename derived_path : bytes) (max_derived_path_length : Z)
  : res (Z * bytes) :=
  let! ds := read_str datastore_path in
  if max_derived_path_length <? u64 (zlen ds + 17) then Ret (0, derived_path)
  else
    let! b := ipfs_flatfs_remove_preceeding_slash proposed_filename max_derived_path_length in
    match b with
    | None => Ret (0, derived_path)
    | Some b => os_utils_filepath_join datastore_path (str_object max_derived_path_length (directory_name b)) derived_path max_derived_path_length
    end.

Definition data_suffix : bytes := Eval vm_compute in txt ".data".
Definition tmp_suffix : bytes := Eval vm_compute in txt ".tmp".

Definition ipfs_flatfs_get_filename (proposed_filename derived_filename : bytes) (max_derived_filename_length : Z)
  : res (Z * bytes) :=
  let! b := ipfs_flatfs_remove_preceeding_slash proposed_filename max_derived_filename_length in
  match b with
  | None => Ret (0, derived_filename)
  | Some b =>
    if max_derived_filename_length <? u64 (zlen b + 6) then Ret (0, derived_filename)
    else
      let! buffer := strcat_into max_derived_filename_length b data_suffix in
      let! derived_filename := memwr derived_filename (buffer ++ [0]) in
      Ret (1, derived_filename)
  end.

Definition ipfs_flatfs_get_full_filename `{Malloc} (datastore_path proposed_filename derived_full_filename : bytes) (max_derived_filename_length : Z)
  : res (Z * bytes) :=
  let! d := ipfs_flatfs_remove_preceeding_slash proposed_filename max_derived_filename_length in
  match d with
  | None => Ret (0, derived_full_filename)
  | Some d =>
    let! (r, directory) := ipfs_flatfs_get_directory datastore_path proposed_filename
      (str_object max_derived_filename_length d) max_derived_filename_length in
    if r =? 0 then Ret (r, derived_full_filename)
    else
      let! (r, actual_filename) := ipfs_flatfs_get_filename proposed_filename (fresh max_derived_filename_length) max_derived_filename_length in
      if r =? 0 then Ret (0, derived_full_filename)
      else os_utils_filepath_join directory actual_filename derived_full_filename max_derived_filename_length
  end.

(** [rename]: 0, or another number when there is no such file *)
Definition c_rename (fs : files) (old new : bytes) : Z * files :=
  match fs !! old with
  | Some c => (0, <[new := c]> (delete old fs))
  | None => (-1, fs)
  end.

(** [fwrite] is asked for one item of [num_bytes] bytes, and says how many items it wrote *)
Definition ipfs_flatfs_put `{Malloc} `{Disk} (writeable exists_ mkdir : bytes -> bool) (fs : files) (datastore_path key byte : bytes) (num_bytes : Z)
  : res (Z * files) :=
  let! ds := read_str datastore_path in
  let! k := read_str key in
  let filename_length := u64 (zlen ds + zlen k + 24) in
  let! (r, full_filename) := ipfs_flatfs_get_directory datastore_path key (fresh filename_length) filename_length in
  if r =? 0 then Ret (0, fs)
  else
    let! dir := read_str full_filename in
    if ipfs_flatfs_create_directory writeable exists_ mkdir dir =? 0 then Ret (0, fs)
    else
      let! (r, full_filename) := ipfs_flatfs_get_full_filename datastore_path key full_filename filename_length in
      if r =? 0 then Ret (0, fs)
      else
        let! name := read_str full_filename in
        let! temp := strcat_into (filename_length + 5) name tmp_suffix in
        let! (written, fs) := write_file fs (temp ++ [0]) byte num_bytes in
        let bytes_written := if (written =? num_bytes) && negb (num_bytes =? 0) then 1 else 0 in
        let '(r, fs) := c_rename fs temp name in
        if negb (r =? 0) then Ret (0, fs) else Ret (if bytes_written =? num_bytes then 1 else 0, fs).
End flatfs.

(** ** Pieces between slashes *)
(** the text cut at every [c] *)
Fixpoint cut (c : Z) (s : bytes) : list bytes :=
  match s with
  | [] => [[]]
  | x :: s =>
    if x =? c then [] :: cut c s
    else match cut c s with w :: ws => (x :: w) :: ws | [] => [[x]] end
  end.

Definition glue (c : Z) (ws : list bytes) : bytes :=
  match ws with [] => [] | w :: ws => w ++ concat (cons c <$> ws) end.

Lemma cut_cons c s : exists w ws, cut c s = w :: ws.
Proof. induction s as [|x s (w & ws & E)]; simpl; [by eexists _, _|]. rewrite E. case_match; by eexists _, _. Qed.

Lemma glue_cut c s : glue c (cut c s) = s.
Proof.
  induction s as [|x s IH]; [done|]. cbn [cut]. destruct (cut_cons c s) as (w & ws & E). rewrite E in *.
  destruct (Z.eqb_spec x c) as [->|_]; cbn [glue fmap list_fmap concat app] in *; by rewrite <- IH.
Qed.

Lemma cut_pieces c s : Forall (fun w => c ∉ w) (cut c s).
Proof.
  induction s as [|x s IH]; cbn [cut]; [constructor; [apply not_elem_of_nil|constructor]|].
  destruct (cut_cons c s) as (w & ws & E). rewrite E in *. apply Forall_cons in IH as [Hw Hws].
  destruct (Z.eqb_spec x c); [constructor; [apply not_elem_of_nil|by constructor]|].
  constructor; [|done]. apply not_elem_of_cons. by split.
Qed.

Lemma strstr_one c s : c_strstr s [c] =
  match cut c s with [] | [_] => None | w :: _ => Some (zlen w) end.
Proof.
  induction s as [|x s IH]; [done|]. cbn [c_strstr is_prefix cut]. rewrite (Z.eqb_sym c x).
  destruct (cut_cons c s) as (w & ws & E). rewrite E in *.
  destruct (Z.eqb_spec x c); cbn [andb]; [done|]. rewrite IH. destruct ws; cbn [fmap option_fmap option_map]; [done|].
  rewrite zlen_cons. f_equal. lia.
Qed.

Lemma cut_step c s w w' ws : cut c s = w :: w' :: ws -> ztake (zlen w) s = w /\ cut c (zdrop (zlen w + 1) s) = w' :: ws.
Proof.
  revert w. induction s as [|x s IH]; intros w; [done|]. cbn [cut]. destruct (cut_cons c s) as (v & vs & E). rewrite E in *.
  destruct (Z.eqb_spec x c).
  - intros [= <- <- <-]. split; [done|]. exact E.
  - intros [= <- ->]. destruct (IH v eq_refl) as [H1 H2]. rewrite zlen_cons. zlen_facts. rewrite ztake_cons by lia.
    rewrite <- Z.add_assoc, zdrop_cons by lia. by rewrite H1.
Qed.

Lemma cut_last c s w : cut c s = [w] -> s = w.
Proof. intros E. rewrite <- (glue_cut c s), E. cbn. by rewrite app_nil_r. Qed.

Lemma cut_count c s : (length (cut c s) <= S (length s))%nat.
Proof.
  induction s as [|x s IH]; [done|]. cbn [cut]. destruct (cut_cons c s) as (w & ws & E). rewrite E in *.
  case_match; cbn [length] in *; lia.
Qed.

Lemma split_loop_cut c n : forall s, (length (cut c s) <= n)%nat -> split_loop n s [c] = cut c s.
Proof.
  induction n as [|n IH]; intros s Hn; destruct (cut_cons c s) as (w & ws & E); rewrite E in *; [cbn in Hn; lia|].
  cbn [split_loop]. rewrite strstr_one, E. destruct ws as [|w' ws]; [by rewrite (cut_last c s w E)|].
  destruct (cut_step c s w w' ws E) as [-> H2]. change (zlen [c]) with 1. rewrite IH by (rewrite H2; cbn in *; lia). by rewrite H2.
Qed.

Lemma count_pieces_cut c fuel : forall s, (length (cut c s) <= fuel)%nat -> count_pieces fuel s [c] = Ret (zlen (cut c s)).
Proof.
  induction fuel as [|n IH]; intros s Hn; destruct (cut_cons c s) as (w & ws & E); rewrite E in *; [cbn in Hn; lia|].
  cbn [count_pieces]. rewrite strstr_one, E. destruct ws as [|w' ws]; [done|].
  destruct (cut_step c s w w' ws E) as [_ H2]. change (zlen [c]) with 1. rewrite IH by (rewrite H2; cbn in *; lia).
  cbn [rbind]. rewrite H2, !zlen_cons. f_equal. lia.
Qed.

Section splitting.
Context {M : Malloc} {Hm : MallocOk M}.

Lemma path_split_ok s rest : nonzero s -> ipfs_path_split_n (s ++ 0 :: rest) [47; 0] (-1) = Ret (Some (cut 47 s)).
Proof.
  intros Hs. unfold ipfs_path_split_n. change (read_str [47; 0]) with (Ret [47]). cbn [rbind].
  change (-1 =? 0) with false. change (-1 <? 0) with true. cbv iota. rewrite read_str_nul by done. cbn [rbind].
  rewrite count_pieces_cut by apply cut_count. cbn [rbind]. rewrite !malloc_always. cbn [negb].
  by rewrite split_loop_cut by (unfold zlen; lia).
Qed.
End splitting.

(** ** The shortest name, by its elements *)
(** [None]: the empty text; otherwise whether the name is rooted, and its elements *)
Definition clean_state : Type := option (bool * list bytes).
Definition render (st : clean_state) : bytes :=
  match st with
  | None => []
  | Some (true, []) => [47]
  | Some (rooted, l) => (if rooted then [] else [46]) ++ delimited 47 l
  end.
Definition clean_element (st : clean_state) (seg : bytes) : clean_state :=
  if decide (seg = []) then match st with None => Some (true, []) | _ => st end
  else if decide (seg = [46]) then st
  else if decide (seg = [46; 46]) then
    match st with
    | Some (rooted, l) => Some (rooted, if rooted && bool_decide (length l <= 1)%nat then l else take (pred (length l)) l)
    | None => None
    end
  else match st with None => Some (false, [seg]) | Some (rooted, l) => Some (rooted, l ++ [seg]) end.
Definition state_ok (st : clean_state) : Prop :=
  match st with None => True | Some (_, l) => Forall (piece 47) l end.

Lemma piece_no_delim c w : piece c w -> c ∉ w.
Proof. intros [_ Hw] Hin. rewrite Forall_forall in Hw. by apply (Hw c Hin). Qed.

Lemma render_snoc rooted l w :
  render (Some (rooted, l ++ [w])) = ((if rooted : bool then [] else [46]) ++ delimited 47 l) ++ 47 :: w.
Proof.
  assert (E : delimited 47 (l ++ [w]) = delimited 47 l ++ 47 :: w).
  { rewrite delimited_app. unfold delimited at 2. cbn [fmap list_fmap concat]. by rewrite app_nil_r. }
  unfold render. rewrite E. destruct rooted; [|done]. by destruct l.
Qed.

(** [..] *)
Lemma render_up st : state_ok st ->
  match c_strrchr (render st) 47 with Some s => if 0 <? s then ztake s (render st) else render st | None => render st end =
  render (clean_element st [46; 46]).
Proof.
  intros Hst. unfold clean_element. rewrite !decide_False, decide_True by done. destruct st as [[rooted l]|]; [|done].
  destruct l as [|w l _] using rev_ind; [by destruct rooted|]. apply Forall_app in Hst as [Hl [Hw _]%Forall_cons].
  rewrite render_snoc, strrchr_last by (by apply piece_no_delim). rewrite length_app. cbn [length].
  destruct (decide (rooted = true /\ l = [])) as [[-> ->]|Hn].
  { rewrite bool_decide_eq_true_2 by (cbn; lia). unfold delimited. cbn. by rewrite app_nil_r. }
  assert (0 < zlen ((if rooted then [] else [46]) ++ delimited 47 l)) as Hpos.
  { destruct rooted; [|rewrite zlen_app; change (zlen [46]) with 1; zlen_facts; lia].
    destruct l as [|v l]; [by destruct Hn|]. unfold delimited. cbn [fmap list_fmap concat app]. rewrite zlen_cons. zlen_facts. lia. }
  rewrite (proj2 (Z.ltb_lt _ _) Hpos), ztake_app_len.
  assert (rooted && bool_decide (length l + 1 <= 1)%nat = false) as ->.
  { destruct rooted; [|done]. apply bool_decide_eq_false_2. destruct l; [by destruct Hn|cbn; lia]. }
  replace (pred (length l + 1)) with (length l) by lia. rewrite take_app_length.
  destruct rooted; [|done]. destruct l; [by destruct Hn|done].
Qed.

Lemma last_not_slash st r c : state_ok st -> render st = r ++ [c] -> render st <> [47] -> c <> 47.
Proof.
  intros Hst E Hn ->. destruct st as [[rooted l]|]; [|by destruct r]. destruct l as [|w l _] using rev_ind.
  - destruct rooted; [done|]. destruct r as [|x [|y r]]; done.
  - apply Forall_app in Hst as [_ [[Hne Hw] _]%Forall_cons]. destruct w as [|x w _] using rev_ind; [done|].
    apply Forall_app in Hw as [_ [Hx _]%Forall_cons]. apply Hx.
    rewrite render_snoc in E. change (47 :: w ++ [x]) with ((47 :: w) ++ [x]) in E. rewrite app_assoc in E.
    by apply app_inj_tail in E as [_ ->].
Qed.

Lemma render_empty st : render st = [] -> st = None.
Proof.
  destruct st as [[rooted l]|]; [|done]. destruct l as [|w l _] using rev_ind; [by destruct rooted|]. rewrite render_snoc.
  intros E. by apply app_eq_nil in E as [_ ?].
Qed.
Lemma render_slash st : state_ok st -> render st = [47] -> st = Some (true, []).
Proof.
  destruct st as [[rooted l]|]; [|done]. intros Hst. destruct l as [|w l _] using rev_ind; [by destruct rooted|]. rewrite render_snoc.
  apply Forall_app in Hst as [_ [[Hne _] _]%Forall_cons]. intros E. exfalso. apply Hne.
  destruct ((if rooted then [] else [46]) ++ delimited 47 l) as [|x [|y k]]; cbn [app] in E; congruence.
Qed.

Lemma strncat_ok cap dst src n : zlen dst + zlen src < cap -> zlen src <= n < 2 ^ 64 -> strncat_into cap dst src n = Ret (dst ++ src).
Proof.
  intros H1 H2. zlen_facts. unfold strncat_into, strcpy_into. rewrite u64_small, ztake_all by lia. rewrite zlen_app.
  by rewrite (proj2 (Z.ltb_lt _ _)) by lia.
Qed.

(** what a segment can add *)
Definition room (st : clean_state) (seg : bytes) : Z := zlen (render st) + zlen seg + (if decide (st = None) then 2 else 1).

(** [step_ok cap st seg]: the buffer follows the elements at a segment *)
Definition step_ok (cap : Z) (st : clean_state) (seg : bytes) : Prop :=
  clean_step cap (render st) seg = Ret (render (clean_element st seg)) /\ state_ok (clean_element st seg) /\
  zlen (render (clean_element st seg)) + (if decide (clean_element st seg = None) then 1 else 0) <= room st seg.

Lemma render_pos st : st <> None -> zlen (render st) =? 0 = false.
Proof. intros Hst. apply Z.eqb_neq. by intros E%zlen_0_nil%render_empty. Qed.

Lemma step_empty cap st : state_ok st -> room st [] < cap < 2 ^ 63 -> step_ok cap st [].
Proof.
  intros Hst Hcap. unfold step_ok, room, clean_step, clean_element in *. change (zlen []) with 0 in *. cbn [Z.eqb andb negb].
  rewrite decide_True by done. destruct st as [st|].
  - rewrite !decide_False in * by done. rewrite render_pos by done.
    rewrite bool_decide_false by done. split_and!; [done|done|lia].
  - rewrite decide_True in * by done. change (zlen (render None)) with 0 in *. cbn [Z.eqb]. rewrite decide_False by done.
    unfold strcpy_into. rewrite ztake_all by (change (zlen [47]) with 1; lia). change (zlen [47]) with 1.
    rewrite (proj2 (Z.ltb_lt _ _)) by lia. split_and!; [done|constructor|]. change (zlen (render (Some (true, [])))) with 1. rewrite decide_True by done. lia.
Qed.

Lemma step_up cap st : state_ok st -> step_ok cap st [46; 46].
Proof.
  intros Hst. unfold step_ok, clean_step. change (zlen [46; 46] =? 0) with false. cbn [andb].
  rewrite bool_decide_true by done. rewrite render_up by done. split; [done|].
  assert (zlen (render (clean_element st [46; 46])) <= zlen (render st)) as Hle.
  { rewrite <- render_up by done. case_match; [|lia]. case_match; [|lia]. unfold ztake, zlen. rewrite length_take. lia. }
  split; [|unfold room; change (zlen [46; 46]) with 2; repeat case_decide; lia].
  unfold clean_element. rewrite !decide_False, decide_True by done. destruct st as [[rooted l]|]; [|done]. cbn [state_ok] in *.
  case_match; [done|]. by apply Forall_take.
Qed.

Lemma step_dot cap st : state_ok st -> step_ok cap st [46].
Proof.
  intros Hst. unfold step_ok, clean_step. change (zlen [46] =? 0) with false. cbn [andb negb hd].
  rewrite bool_decide_false by done. rewrite bool_decide_true by done. change (negb (46 =? 47) && negb true) with false. cbv iota.
  unfold clean_element. rewrite decide_False, decide_True by done. split_and!; [done|done|].
  unfold room. change (zlen [46]) with 1. repeat case_decide; lia.
Qed.

(** a name behind others *)
Lemma step_append cap rooted l w : Forall (piece 47) l -> piece 47 w -> zlen (render (Some (rooted, l))) + zlen w + 1 < cap < 2 ^ 63 ->
  (let! r := let! c := rd (render (Some (rooted, l))) (zlen (render (Some (rooted, l))) - 1) in
     if negb (c =? 47) then strncat_into cap (render (Some (rooted, l))) [47] (cap - 1 - zlen (render (Some (rooted, l)))) else Ret (render (Some (rooted, l))) in
   strncat_into cap r w (cap - 1 - zlen r)) = Ret (render (Some (rooted, l ++ [w]))) /\
  zlen (render (Some (rooted, l ++ [w]))) <= zlen (render (Some (rooted, l))) + zlen w + 1.
Proof.
  intros Hl Hw Hcap. zlen_facts. set (R := render (Some (rooted, l))) in *.
  destruct (last_rd R []) as (c & Hlast & Hrd); [by intros E%render_empty|]. rewrite app_nil_r in Hrd. rewrite Hrd. cbn [rbind].
  apply last_Some in Hlast as [r Hr]. split.
  - destruct (Z.eqb_spec c 47) as [->|Hc]; cbn [negb rbind].
    + assert (R = [47]) as E1.
      { destruct (decide (R = [47])) as [E1|E1]; [done|]. by destruct (last_not_slash (Some (rooted, l)) _ _ Hl Hr E1). }
      pose proof (render_slash (Some (rooted, l)) Hl E1) as [= -> ->]. rewrite strncat_ok by lia. f_equal. unfold R, render, delimited. cbn. by rewrite app_nil_r.
    + rewrite strncat_ok by (change (zlen [47]) with 1; lia). cbn [rbind]. rewrite zlen_app. change (zlen [47]) with 1.
      rewrite strncat_ok by (rewrite ?zlen_app; change (zlen [47]) with 1; lia). rewrite render_snoc. f_equal. rewrite <- app_assoc. f_equal.
      unfold R, render in *. destruct rooted; [|done]. destruct l; [|done]. exfalso. apply Hc. destruct r as [|? [|? ?]]; by injection Hr.
  - rewrite render_snoc, zlen_app, zlen_cons. unfold R, render. destruct rooted; [|lia]. destruct l; cbn [app]; [|lia].
    change (zlen (delimited 47 [])) with 0. change (zlen [47]) with 1. lia.
Qed.

Lemma step_name cap st w : state_ok st -> piece 47 w -> w <> [46] -> w <> [46; 46] -> room st w < cap < 2 ^ 63 -> step_ok cap st w.
Proof.
  intros Hst Hw Hdot Hup Hcap. pose proof Hw as [Hne _]. pose proof (piece_no_delim _ _ Hw) as Hnd. zlen_facts.
  assert (zlen w =? 0 = false) as Hz by (apply Z.eqb_neq; by intros E%zlen_0_nil).
  assert (hd 0 w =? 47 = false) as Hh.
  { destruct w as [|x w]; [done|]. apply Z.eqb_neq. cbn. intros ->. apply Hnd, list_elem_of_here. }
  unfold step_ok, clean_step, clean_element, room in *. rewrite Hz, Hh, !bool_decide_false, !decide_False by done. cbn [andb negb].
  destruct st as [[rooted l]|].
  - rewrite decide_False in Hcap by done. rewrite render_pos by done. destruct (step_append cap rooted l w Hst Hw ltac:(lia)) as [-> Hlen].
    split; [done|]. split; [by apply Forall_app; split; [|constructor]|]. repeat case_decide; (done || lia).
  - rewrite decide_True in Hcap by done. pose proof (zlen_nonneg w). change (render None) with (@nil Z) in *. change (zlen (@nil Z)) with 0 in *. cbn [Z.eqb].
    rewrite strncat_ok by (change (zlen [46; 47]) with 2; change (zlen (@nil Z)) with 0; lia). cbn [rbind app].
    change (zlen [46; 47]) with 2. rewrite strncat_ok by (change (zlen [46; 47]) with 2; lia).
    unfold render, delimited. cbn [fmap list_fmap concat app]. rewrite app_nil_r. split_and!; [done|by constructor|]. rewrite !zlen_cons. repeat case_decide; (done || lia).
Qed.

Lemma clean_step_ok cap st seg : state_ok st -> 47 ∉ seg -> room st seg < cap < 2 ^ 63 -> step_ok cap st seg.
Proof.
  intros Hst Hseg Hcap. destruct (decide (seg = [])) as [->|Hne]; [by apply step_empty|].
  destruct (decide (seg = [46])) as [->|Hdot]; [by apply step_dot|]. destruct (decide (seg = [46; 46])) as [->|Hup]; [by apply step_up|].
  apply step_name; try done. split; [done|]. apply Forall_forall. by intros x Hx ->.
Qed.

(** the room all the segments need *)
Definition segments_room (segs : list bytes) : Z := foldr (fun s z => zlen s + 1 + z) 0 segs.

Lemma segments_room_nonneg segs : 0 <= segments_room segs.
Proof. induction segs as [|s segs IH]; [done|]. cbn [segments_room foldr]. fold (segments_room segs). zlen_facts. lia. Qed.

Lemma segments_room_cut s : segments_room (cut 47 s) = zlen s + 1.
Proof.
  induction s as [|x s IH]; [done|]. cbn [cut]. destruct (cut_cons 47 s) as (w & ws & E). rewrite E in *.
  case_match; cbn [segments_room foldr] in *; rewrite ?zlen_cons, ?zlen_nil in *; lia.
Qed.

Lemma clean_loop_ok cap segs : Forall (fun s => 47 ∉ s) segs -> cap < 2 ^ 63 -> forall st, state_ok st ->
  zlen (render st) + (if decide (st = None) then 1 else 0) + segments_room segs < cap ->
  clean_loop cap (render st) segs = Ret (render (foldl clean_element st segs)) /\
  zlen (render (foldl clean_element st segs)) < cap.
Proof.
  intros Hsegs Hcap. induction Hsegs as [|seg segs Hseg _ IH]; intros st Hst Hr; cbn [clean_loop foldl segments_room foldr] in *.
  - split; [done|]. case_decide; lia.
  - fold (segments_room segs) in Hr. pose proof (segments_room_nonneg segs).
    destruct (clean_step_ok cap st seg Hst Hseg) as (E & Hst' & Hlen); [unfold room; case_decide; lia|].
    rewrite E. cbn [rbind]. apply IH; [done|]. unfold room in Hlen. repeat case_decide; lia.
Qed.

Section more.
Context {M : Malloc} {Hm : MallocOk M}.

Lemma split_segments_ok s rest : nonzero s ->
  ipfs_path_split_segments (s ++ 0 :: rest) = Ret (Some (cut 47 (match s with x :: s' => if x =? 47 then s' else s | [] => [] end))).
Proof.
  intros Hs. unfold ipfs_path_split_segments. destruct Hs as [|x s Hx Hs]; cbn [app].
  - rewrite rd_0. cbn [rbind]. change (0 =? 47) with false. cbn [rbind]. apply (path_split_ok []). constructor.
  - rewrite rd_0. cbn [rbind]. destruct (x =? 47).
    + change (x :: s ++ 0 :: rest) with ([x] ++ s ++ 0 :: rest). rewrite padd_app by done. cbn [rbind]. by apply path_split_ok.
    + cbn [rbind]. apply (path_split_ok (x :: s)). by constructor.
Qed.

Lemma append_segments_ok segs : forall retlen ret, zlen ret + segments_room segs <= retlen < 2 ^ 63 ->
  append_segments retlen ret segs = Ret (ret ++ delimited 47 segs).
Proof.
  induction segs as [|s segs IH]; intros retlen ret Hr; cbn [append_segments segments_room foldr] in *; [by rewrite app_nil_r|].
  fold (segments_room segs) in Hr. pose proof (segments_room_nonneg segs). zlen_facts.
  rewrite strncat_ok by (change (zlen [47]) with 1; lia). cbn [rbind]. rewrite zlen_app. change (zlen [47]) with 1.
  rewrite strncat_ok by (rewrite ?zlen_app; change (zlen [47]) with 1; lia). cbn [rbind].
  rewrite IH by (rewrite !zlen_app; change (zlen [47]) with 1; lia). unfold delimited. cbn [fmap list_fmap concat].
  by rewrite <- !app_assoc.
Qed.

Lemma delimited_cut s : delimited 47 (cut 47 s) = 47 :: s.
Proof.
  rewrite <- (glue_cut 47 s) at 2. destruct (cut_cons 47 s) as (w & ws & ->). done.
Qed.
End more.

(** ** Properties *)

(** the name that is made is that of the elements *)
Lemma clean_path_ok {M : Malloc} {Hm : MallocOk M} (s rest : bytes) :
  nonzero s -> zlen s < 2 ^ 62 ->
  ipfs_path_clean_path (s ++ 0 :: rest) = Ret (Some (render (foldl clean_element None (cut 47 s)) ++ [0])).
Proof.
  intros Hs Hl. unfold ipfs_path_clean_path. rewrite read_str_nul by done. cbn [rbind]. rewrite malloc_always. cbn [negb].
  rewrite path_split_ok by done. cbn [rbind].
  destruct (clean_loop_ok (zlen s + 3) (cut 47 s) (cut_pieces 47 s) ltac:(lia) None I) as [E _].
  { rewrite segments_room_cut. cbn [render]. change (zlen []) with 0. rewrite decide_True by done. lia. }
  change (render None) with (@nil Z) in E. rewrite E. cbn [rbind]. by rewrite malloc_always.
Qed.

(** Property C34. [ipfs_path_clean_path] of any text gives the name whose elements it reads
    between the slashes, and never writes behind its buffer.  The name is rooted when
    an empty element comes first; a single dot and an empty element change nothing;
    two dots take the last element away, but never the first one of a rooted name,
    and at the beginning they are lost; a name that is not rooted begins with a dot. *)
Theorem clean_path_spec {M : Malloc} {Hm : MallocOk M} (s rest : bytes) :
  nonzero s -> zlen s < 2 ^ 62 ->
  ipfs_path_clean_path (s ++ 0 :: rest) = Ret (Some (render (foldl clean_element None (cut 47 s)) ++ [0])).
Proof. apply clean_path_ok. Qed.

Lemma clean_path_spec_witness :
  let M := malloc_total in
  ipfs_path_clean_path (lit "/ipfs//QmX/./a/../b") = Ret (Some (lit "/ipfs/QmX/b")) /\
  ipfs_path_clean_path (lit "/a/..") = Ret (Some (lit "/a")) /\
  ipfs_path_clean_path (lit "../a/../..") = Ret (Some (lit ".")) /\
  ipfs_path_clean_path (lit ".//a") = Ret (Some (lit "/a")).
Proof.
  intros M.
  pose proof (clean_path_spec (M := malloc_total)) as H.
  split_and!; unfold lit.
  - apply (H (txt "/ipfs//QmX/./a/../b") []); [by apply txt_nonzero|reflexivity].
  - apply (H (txt "/a/..") []); [by apply txt_nonzero|reflexivity].
  - apply (H (txt "../a/../..") []); [by apply txt_nonzero|reflexivity].
  - apply (H (txt ".//a") []); [by apply txt_nonzero|reflexivity].
Defined.

(** Splitting a path into segments and putting them together behind a prefix gives the
    path, without a slash in front of it, behind the prefix and a slash. *)
Lemma split_join {M : Malloc} {Hm : MallocOk M} (prefix s rest rest' : bytes) :
  nonzero prefix -> nonzero s -> zlen prefix + zlen s < 2 ^ 62 ->
  exists segs, ipfs_path_split_segments (47 :: s ++ 0 :: rest) = Ret (Some segs) /\
    ipfs_path_from_segments (Some (prefix ++ 0 :: rest')) (Some segs) = Ret (Some (prefix ++ 47 :: s ++ [0])).
Proof.
  intros Hp Hs Hl. exists (cut 47 s). split.
  - change (47 :: s ++ 0 :: rest) with ((47 :: s) ++ 0 :: rest). rewrite split_segments_ok by (by constructor). done.
  - unfold ipfs_path_from_segments. rewrite read_str_nul by done. cbn [rbind]. rewrite malloc_always. fold (segments_room (cut 47 s)).
    rewrite append_segments_ok by (rewrite segments_room_cut; lia). cbn [rbind]. rewrite delimited_cut. by rewrite <- app_assoc.
Qed.

(** [ipfs_path_parse] never succeeds and never writes to its result, whatever
    the text: one with at most its first slash ends at the CID that is not decoded, and
    one with another slash is compared as a whole with the prefix it should begin with. *)
Lemma path_parse_fails {M : Malloc} {Hm : MallocOk M} (s rest : bytes) :
  nonzero s ->
  ipfs_path_parse (Some (s ++ 0 :: rest)) =
    Ret (if bool_decide (s = [] \/ s = [47]) then ErrNoComponents
         else if bool_decide (head s <> Some 47 \/ 47 ∉ tail s) then ErrCidDecode else ErrBadPath, None).
Proof.
  intros Hs. unfold ipfs_path_parse. destruct Hs as [|x s Hx Hs]; cbn [app]; [done|].
  rewrite rd_0. cbn [rbind]. rewrite (proj2 (Z.eqb_neq x 0) Hx).
  assert (Htail : padd (x :: s ++ 0 :: rest) 1 = Ret (s ++ 0 :: rest)) by (change (x :: s ++ 0 :: rest) with ([x] ++ s ++ 0 :: rest); by apply padd_app).
  destruct (Z.eqb_spec x 47) as [->|Hx47]; cbn [negb head tail].
  - rewrite Htail. cbn [rbind]. rewrite read_str_nul by done. cbn [rbind]. destruct (bool_decide_reflect (47 ∉ s)) as [Hn|Hn].
    + cbn [rbind]. unfold ipfs_path_parse_from_cid. destruct Hs as [|y s Hy Hs]; cbn [app]; rewrite rd_0; cbn [rbind]; [done|].
      rewrite (proj2 (Z.eqb_neq y 0) Hy). cbn [rbind]. rewrite bool_decide_false by (by intros [?|?]). by rewrite bool_decide_true by (by right).
    + rewrite bool_decide_false by (intros [?|[= ->]]; [done|apply Hn, not_elem_of_nil]).
      rewrite (bool_decide_false (Some 47 <> Some 47 \/ 47 ∉ s)) by (by intros [?|?]).
      change (47 :: s ++ 0 :: rest) with ((47 :: s) ++ 0 :: rest). rewrite read_str_nul by (by constructor). cbn [rbind].
      destruct (Z.ltb_spec (count_char 47 (47 :: s)) 3) as [Hc|Hc]; [done|].
      assert (Hcmp : forall p, nonzero p -> count_char 47 p < 3 ->
        exists r, c_strcmp ((47 :: s) ++ 0 :: rest) (p ++ [0]) = Ret r /\ r <> 0).
      { intros p Hp Hcp. destruct (c_strcmp_ok ((47 :: s) ++ 0 :: rest) (p ++ [0])) as (r & E & Hr); [apply terminated_nul..|].
        exists r. split; [done|]. intros ->. rewrite !c_str_nul in Hr by (done || by constructor). rewrite (proj1 Hr eq_refl) in Hc. lia. }
      destruct (Hcmp ipfs_prefix ltac:(by apply (bool_decide_unpack _)) ltac:(by vm_compute)) as (r & -> & Hr). cbn [rbind]. rewrite (proj2 (Z.eqb_neq _ _) Hr).
      destruct (Hcmp ipns_prefix ltac:(by apply (bool_decide_unpack _)) ltac:(by vm_compute)) as (r' & -> & Hr'). cbn [rbind]. by rewrite (proj2 (Z.eqb_neq _ _) Hr').
  - cbn [rbind]. unfold ipfs_path_parse_from_cid. rewrite rd_0. cbn [rbind]. rewrite (proj2 (Z.eqb_neq x 0) Hx). cbn [rbind].
    rewrite bool_decide_false by (intros [?|[= ? _]]; done). by rewrite bool_decide_true by (left; congruence).
Qed.


(** *** Files of the flat store *)
Section store.
Context {M : Malloc} {Hm : MallocOk M}.

Lemma drop_slashes_ok s : nonzero s -> nonzero (drop_slashes s) /\ zlen (drop_slashes s) <= zlen s.
Proof.
  induction 1 as [|x s Hx Hs [IH1 IH2]]; cbn [drop_slashes]; [by split; [constructor|]|]. case_match.
  - split; [done|]. rewrite zlen_cons. lia.
  - split; [by constructor|lia].
Qed.

Lemma directory_name_ok s : nonzero s -> nonzero (directory_name s) /\ zlen (directory_name s) = 16.
Proof.
  intros Hs. zlen_facts. unfold directory_name. split.
  - apply Forall_take, Forall_app. split; [done|]. by apply Forall_replicate.
  - apply zlen_take. rewrite zlen_app. destruct (Z.le_gt_cases 16 (zlen s)).
    + pose proof (zlen_nonneg (replicate (Z.to_nat (16 - zlen s)) 95)). lia.
    + rewrite zlen_replicate by lia. lia.
Qed.

Lemma remove_slash_ok s rest max : nonzero s -> zlen s + 1 <= max < 2 ^ 64 ->
  ipfs_flatfs_remove_preceeding_slash (s ++ 0 :: rest) max = Ret (Some (drop_slashes s)).
Proof.
  intros Hs Hmax. zlen_facts. unfold ipfs_flatfs_remove_preceeding_slash. rewrite read_str_nul by done. cbn [rbind].
  rewrite u64_small by lia. by rewrite (proj2 (Z.ltb_ge _ _)) by lia.
Qed.

Lemma get_directory_ok ds dr key kr derived max : nonzero ds -> nonzero key -> ds <> [] -> zlen derived = max ->
  zlen ds + 18 <= max -> zlen key + 1 <= max -> max < 2 ^ 63 ->
  exists q, ipfs_flatfs_get_directory (ds ++ 0 :: dr) (key ++ 0 :: kr) derived max =
    Ret (1, join ds (directory_name (drop_slashes key)) ++ 0 :: q) /\ zlen (join ds (directory_name (drop_slashes key)) ++ 0 :: q) = max.
Proof.
  intros Hds Hkey Hne Hder H1 H2 H3. zlen_facts. unfold ipfs_flatfs_get_directory. rewrite read_str_nul by done. cbn [rbind].
  rewrite u64_small by lia. rewrite (proj2 (Z.ltb_ge _ _)) by lia. rewrite remove_slash_ok by (done || lia). cbn [rbind].
  destruct (drop_slashes_ok key Hkey) as [Hk _]. destruct (directory_name_ok _ Hk) as [Hd Hdl].
  unfold str_object. replace (Z.to_nat (max - zlen (directory_name (drop_slashes key)))) with (S (Z.to_nat (max - 17))) by lia. cbn [replicate].
  rewrite <- Hder. by apply filepath_join_ok; [..|lia].
Qed.

Lemma get_filename_ok key kr derived max : nonzero key -> zlen derived = max -> zlen key + 6 <= max < 2 ^ 63 ->
  exists q, ipfs_flatfs_get_filename (key ++ 0 :: kr) derived max = Ret (1, (drop_slashes key ++ data_suffix) ++ 0 :: q).
Proof.
  intros Hkey Hder Hmax. zlen_facts. destruct (drop_slashes_ok key Hkey) as [Hk Hkl]. unfold ipfs_flatfs_get_filename.
  rewrite remove_slash_ok by (done || lia). cbn [rbind]. zlen_facts. rewrite u64_small by lia. rewrite (proj2 (Z.ltb_ge _ _)) by lia.
  rewrite strcat_ok by (change (zlen data_suffix) with 5; lia). cbn [rbind].
  rewrite memwr_ok by (rewrite !zlen_app; change (zlen data_suffix) with 5; change (zlen [0]) with 1; lia). cbn [rbind].
  eexists. by rewrite <- !app_assoc.
Qed.

(** the name of the file of a key *)
Definition flat_name (ds key : bytes) : bytes :=
  join (join ds (directory_name (drop_slashes key))) (drop_slashes key ++ data_suffix).

Lemma data_name_nonzero key : nonzero key -> nonzero (drop_slashes key ++ data_suffix).
Proof. intros Hk. apply Forall_app. split; [by apply drop_slashes_ok|]. by apply (bool_decide_unpack _). Qed.

Lemma flat_name_ok ds key : nonzero ds -> nonzero key -> nonzero (flat_name ds key) /\ zlen (flat_name ds key) <= zlen ds + zlen key + 23.
Proof.
  intros Hds Hkey. destruct (drop_slashes_ok key Hkey) as [Hk Hkl]. destruct (directory_name_ok _ Hk) as [Hd Hdl]. unfold flat_name. split.
  - apply join_ok; [by apply join_ok|by apply data_name_nonzero].
  - pose proof (join_length (join ds (directory_name (drop_slashes key))) (drop_slashes key ++ data_suffix)) as H1.
    pose proof (join_length ds (directory_name (drop_slashes key))) as H2. rewrite zlen_app in H1. change (zlen data_suffix) with 5 in H1. lia.
Qed.

Lemma get_full_filename_ok ds dr key kr derived max : nonzero ds -> nonzero key -> ds <> [] -> zlen derived = max ->
  zlen ds + zlen key + 24 <= max < 2 ^ 63 ->
  exists q, ipfs_flatfs_get_full_filename (ds ++ 0 :: dr) (key ++ 0 :: kr) derived max = Ret (1, flat_name ds key ++ 0 :: q).
Proof.
  intros Hds Hkey Hne Hder Hmax. zlen_facts. destruct (drop_slashes_ok key Hkey) as [Hk Hkl]. destruct (directory_name_ok _ Hk) as [Hd Hdl].
  unfold ipfs_flatfs_get_full_filename. rewrite remove_slash_ok by (done || lia). cbn [rbind]. zlen_facts.
  destruct (get_directory_ok ds dr key kr (str_object max (drop_slashes key)) max) as (q1 & -> & _); try (done || lia).
  { unfold str_object. rewrite zlen_app, zlen_replicate by lia. lia. }
  cbn [rbind]. change (1 =? 0) with false. cbv iota.
  destruct (get_filename_ok key kr (fresh max) max) as (q2 & ->); [done|by rewrite zlen_fresh by lia|lia|]. cbn [rbind].
  change (1 =? 0) with false. cbv iota. rewrite <- Hder. pose proof (join_length ds (directory_name (drop_slashes key))).
  destruct (filepath_join_ok (join ds (directory_name (drop_slashes key))) (drop_slashes key ++ data_suffix) q1 q2 derived) as (q & E & _).
  - by apply join_ok.
  - by apply data_name_nonzero.
  - by apply join_not_nil.
  - rewrite zlen_app. change (zlen data_suffix) with 5. lia.
  - by exists q.
Qed.
End store.

(** Property C35. [ipfs_flatfs_put] with a directory that is there or can be made writes the
    bytes, under a name of the key's first sixteen characters as directory and the key
    as file, and leaves no temporary file.  It nevertheless returns 0, unless there is
    at most one byte: the number of items that [fwrite] wrote is compared with the
    number of bytes. *)
Theorem flatfs_put_spec {M : Malloc} {Hm : MallocOk M} {Dk : Disk} {Hd : DiskOk Dk}
    (writeable exists_ mkdir : bytes -> bool) (fs : files) (ds dr key kr data rest : bytes) :
  nonzero ds -> ds <> [] -> nonzero key -> zlen ds + zlen key < 2 ^ 62 ->
  (forall d, writeable d = true \/ exists_ d = false /\ mkdir d = true) ->
  ipfs_flatfs_put writeable exists_ mkdir fs (ds ++ 0 :: dr) (key ++ 0 :: kr) (data ++ rest) (zlen data) =
    Ret (if zlen data <=? 1 then 1 else 0, <[flat_name ds key := data]> (delete (flat_name ds key ++ tmp_suffix) fs)).
Proof.
  intros Hds Hne Hkey Hl Henv. zlen_facts. unfold ipfs_flatfs_put. rewrite !read_str_nul by done. cbn [rbind].
  rewrite u64_small by lia. set (max := zlen ds + zlen key + 24).
  destruct (get_directory_ok ds dr key kr (fresh max) max) as (q & -> & Hq); try (done || lia); [by rewrite zlen_fresh by lia|].
  cbn [rbind]. change (1 =? 0) with false. cbv iota. destruct (drop_slashes_ok key Hkey) as [Hk Hkl].
  destruct (directory_name_ok _ Hk) as [Hdn Hdl]. rewrite read_str_nul by (by apply join_ok). cbn [rbind].
  assert (ipfs_flatfs_create_directory writeable exists_ mkdir (join ds (directory_name (drop_slashes key))) = 1) as ->.
  { unfold ipfs_flatfs_create_directory. destruct (Henv (join ds (directory_name (drop_slashes key)))) as [->|[-> ->]]; [done|]. by destruct (writeable _). }
  change (1 =? 0) with false. cbv iota.
  destruct (get_full_filename_ok ds dr key kr (join ds (directory_name (drop_slashes key)) ++ 0 :: q) max) as (q' & ->); try (done || lia).
  cbn [rbind]. change (1 =? 0) with false. cbv iota. destruct (flat_name_ok ds key Hds Hkey) as [Hfn Hfl].
  rewrite read_str_nul by done. cbn [rbind]. rewrite strcat_ok by (change (zlen tmp_suffix) with 4; lia). cbn [rbind].
  unfold write_file. rewrite strlen_nul by (apply Forall_app; split; [done|by apply (bool_decide_unpack _)]). cbn [rbind].
  rewrite ztake_app_len, disk_open, disk_write, memrd_app by done. cbn [rbind]. replace (Z.max 0 (Z.min (zlen data) (zlen data))) with (zlen data) by lia.
  rewrite Z.eqb_refl, ztake_all by lia. cbn [andb]. unfold c_rename. rewrite lookup_insert_eq, delete_insert_eq. change (negb (0 =? 0)) with false. cbv iota.
  do 2 f_equal. destruct (Z.eqb_spec (zlen data) 0) as [E|E]; cbn [negb]; [by rewrite E|].
  destruct (Z.eqb_spec 1 (zlen data)) as [E1|E1]; [by rewrite <- E1|]. by rewrite (proj2 (Z.leb_gt _ _)) by lia.
Qed.

Lemma flatfs_put_spec_witness :
  let M := malloc_total in let Dk := disk_total in
  ipfs_flatfs_put (fun _ => false) (fun _ => false) (fun _ => true) ∅ (lit "/r") (lit "/QmX") [1; 2; 3] 3 =
    Ret (0, {[ txt "/r/QmX_____________/QmX.data" := [1; 2; 3] ]}).
Proof.
  intros M Dk. unfold lit.
  pose proof (flatfs_put_spec (M := malloc_total) (Dk := disk_total) (fun _ => false) (fun _ => false) (fun _ => true) ∅ (txt "/r") [] (txt "/QmX") [] [1; 2; 3] []) as H.
  apply H.
  - by apply txt_nonzero.
  - discriminate.
  - by apply txt_nonzero.
  - reflexivity.
  - intros d. by right.
Defined.
