(* ===== verification/Blockstore.v ===== *)
(** * The block store (libipfs/blocks/blockstore.c)

    Blocks, UnixFS objects and nodes as files of the directory "blockstore" of
    the repository, named by the base32 key of their hash.  [path] is
    [fs_repo->path]; the files are the state of [Files]. *)
From S2P Require Import Prelude Protobuf Multihash Unixfs Cid Block Node Base32 Datastore Files.

Definition sizeof_Blockstore : Z := 40.
Definition sizeof_BlockstoreContext : Z := 8.

(** "blockstore" *)
Definition blockstore_name : bytes := [98; 108; 111; 99; 107; 115; 116; 111; 114; 101].

Section blockstore.
Context {M : Malloc} {Dk : Disk}.

(** [false]: NULL *)
Definition ipfs_blockstore_new : bool :=
  malloc_ok sizeof_Blockstore && malloc_ok sizeof_BlockstoreContext.

(** neither is implemented in the source *)
Definition ipfs_blockstore_delete (cid : Cid) : Z := 0.
Definition ipfs_blockstore_has (cid : Cid) : Z := 0.

Definition ipfs_blockstore_hash_to_base32 (hash : bytes) (hash_length : Z) : res (option bytes) :=
  let key_length := libp2p_crypto_encoding_base32_encode_size hash_length in
  if malloc_ok (u64 (key_length + 1)) then
    let! (retVal, key_length, buffer) :=
      ipfs_datastore_helper_ds_key_from_binary hash hash_length (fresh (u64 (key_length + 1)))
        key_length key_length in
    if retVal =? 0 then Ret None
    else
      let! (_, buffer) := with_ptr buffer key_length (fun p => let! p := memwr p [0] in Ret (tt, p)) in
      Ret (Some buffer)
  else Ret None.

Definition ipfs_blockstore_cid_to_base32 (cid : Cid) : res (option bytes) :=
  ipfs_blockstore_hash_to_base32 (deref (cid_hash cid)) (cid_hash_length cid).

(** [None]: NULL; the result of the second join is not tested *)
Definition ipfs_blockstore_path_get (path filename : bytes) : res (option bytes) :=
  let! n := strlen path in
  let filepath_size := s32 (n + 12) in
  if filepath_size <? 1 then UB
  else
    let! (retVal, filepath) :=
      os_utils_filepath_join path (blockstore_name ++ [0]) (fresh filepath_size) filepath_size in
    if retVal =? 0 then Ret None
    else
      let! a := strlen filepath in
      let! b := strlen filename in
      let complete_filename_size := s32 (a + b + 2) in
      if malloc_ok complete_filename_size then
        let! (_, complete_filename) :=
          os_utils_filepath_join filepath filename (fresh complete_filename_size)
            (u64 complete_filename_size) in
        Ret (Some complete_filename)
      else Ret None.

(** ** Writing

    The three [put] functions differ in the encoder.  The result, what
    [*bytes_written] is set to (if it is), and the files. *)
Definition blockstore_write (path : bytes) (fs : files) (hash : bytes) (hash_length : Z)
    (protobuf_len : res Z) (encode : bytes -> Z -> encoded) : res (Z * option Z * files) :=
  let! key := ipfs_blockstore_hash_to_base32 hash hash_length in
  match key with
  | None => Ret (0, None, fs)
  | Some key =>
    let! protobuf_len := protobuf_len in
    let! ((retVal, protobuf_len), protobuf) := encode (fresh protobuf_len) protobuf_len in
    if retVal =? 0 then Ret (0, None, fs)
    else
      let! filename := ipfs_blockstore_path_get path key in
      match filename with
      | None => Ret (0, None, fs)
      | Some filename =>
        let! (bytes_written, fs) := write_file fs filename protobuf protobuf_len in
        Ret (if bytes_written =? protobuf_len then 1 else 0, Some bytes_written, fs)
      end
  end.

Definition ipfs_blockstore_put (path : bytes) (fs : files) (block : Block) : res (Z * option Z * files) :=
  match block_cid block with
  | None => UB
  | Some cid =>
    blockstore_write path fs (deref (cid_hash cid)) (cid_hash_length cid)
      (Ret (ipfs_blocks_block_protobuf_encode_size block)) (ipfs_blocks_block_protobuf_encode block)
  end.

Definition ipfs_blockstore_put_unixfs (path : bytes) (fs : files) (unix_fs : UnixFS)
  : res (Z * option Z * files) :=
  blockstore_write path fs (deref (hash unix_fs)) (hash_length unix_fs)
    (Ret (ipfs_unixfs_protobuf_encode_size unix_fs)) (ipfs_unixfs_protobuf_encode (Some unix_fs)).

Definition ipfs_blockstore_put_node (path : bytes) (fs : files) (node : HashtableNode)
  : res (Z * option Z * files) :=
  blockstore_write path fs (deref (n_hash node)) (n_hash_size node)
    (ipfs_hashtable_node_protobuf_encode_size node) (ipfs_hashtable_node_protobuf_encode node).

(** ** Reading

    [None]: [fopen] gave NULL.  A NULL key or file name is used without a test. *)
Definition blockstore_read (path : bytes) (fs : files) (hash : bytes) (hash_length : Z)
  : res (option (Z * bytes)) :=
  let! key := ipfs_blockstore_hash_to_base32 hash hash_length in
  let! filename := ipfs_blockstore_path_get path (deref key) in
  let! file_size := os_utils_file_size fs (deref filename) in
  let! file := fopen_r fs (deref filename) in
  match file with
  | None => Ret None
  | Some content => let! r := read_buffer file_size content in Ret (Some r)
  end.

(** [None]: returned 0 *)
Definition ipfs_blockstore_get (path : bytes) (fs : files) (cid : Cid) : res (option Block) :=
  let! r := blockstore_read path fs (deref (cid_hash cid)) (cid_hash_length cid) in
  match r with
  | None => Ret None
  | Some (bytes_read, buffer) =>
    let! block := ipfs_blocks_block_protobuf_decode buffer bytes_read in
    match block with
    | None => Ret None
    | Some block =>
      let! c := ipfs_cid_copy cid in
      Ret (Some (mkBlock c (block_data block) (block_data_length block)))
    end
  end.

(** the NULL of a failed [fopen] goes to [fread] *)
Definition ipfs_blockstore_get_unixfs (path : bytes) (fs : files) (hash : bytes) (hash_length : Z)
  : res (option UnixFS) :=
  let! r := blockstore_read path fs hash hash_length in
  match r with
  | None => UB
  | Some (bytes_read, buffer) => ipfs_unixfs_protobuf_decode buffer bytes_read
  end.

(** when decoding fails, the block that the decoder has freed is freed again;
    only without memory for the block is the pointer NULL *)
Definition ipfs_blockstore_get_node (path : bytes) (fs : files) (hash : bytes) (hash_length : Z)
  : res (option HashtableNode) :=
  let! r := blockstore_read path fs hash hash_length in
  match r with
  | None => UB
  | Some (bytes_read, buffer) =>
    let! block := ipfs_blocks_block_protobuf_decode buffer bytes_read in
    match block with
    | None => if malloc_ok sizeof_Block then UB else Ret None
    | Some block => ipfs_hashtable_node_protobuf_decode (deref (block_data block)) (block_data_length block)
    end
  end.
End blockstore.

(** ** File names *)
Definition path_ok (path : bytes) : Prop :=
  terminated path /\ c_str path <> [] /\ zlen (c_str path) < 2 ^ 20.

(** the file for a hash *)
Definition file_name (path h : bytes) : bytes :=
  join (join (c_str path) blockstore_name) (base32_key h).

Lemma join_inj r k k' : head k <> Some 47 -> head k' <> Some 47 -> join r k = join r k' -> k = k'.
Proof.
  intros H1 H2. unfold join. rewrite (bool_decide_eq_false_2 _ H1), (bool_decide_eq_false_2 _ H2).
  destruct (bool_decide (last r = Some 47)); simpl; intros E; [by apply app_inv_head in E|].
  apply app_inv_head in E. by injection E.
Qed.

Lemma base32_key_chars h : is_bytes h -> Forall key_char (base32_key h).
Proof. intros Hh. unfold base32_key, ztake. by apply Forall_take, b32_chars. Qed.

Lemma key_head l : Forall key_char l -> head l <> Some 47.
Proof. destruct 1 as [|x l [_ Hx] _]; simpl; congruence. Qed.

Lemma base32_key_32 h : hash_ok h -> base32_key h = ztake 41 (b32 h) /\ zlen (base32_key h) = 41.
Proof.
  intros Hh. pose proof (b32_length_32 h Hh) as Hl. destruct Hh as [_ Hz]. unfold base32_key. rewrite Hz.
  split; [done|]. by rewrite zlen_take by (rewrite Hl; vm_compute; split; discriminate).
Qed.

(** two hashes have the same file exactly when their keys agree *)
Lemma file_name_inj path h h' : hash_ok h -> hash_ok h' ->
  file_name path h = file_name path h' <-> base32_key h = base32_key h'.
Proof.
  intros [Hh _] [Hh' _]. unfold file_name. split; [|by intros ->].
  apply join_inj; by apply key_head, base32_key_chars.
Qed.

(** what the key keeps of a hash *)
Lemma base32_key_same h h' : hash_ok h -> hash_ok h' ->
  base32_key h' = base32_key h <->
  take 25 h' = take 25 h /\ (fun x => x / 8) <$> h' !! 25%nat = (fun x => x / 8) <$> h !! 25%nat.
Proof.
  intros Hh Hh'. destruct (base32_key_32 h Hh) as [-> _]. destruct (base32_key_32 h' Hh') as [-> _].
  destruct Hh as [Hh Hl], Hh' as [Hh' Hl'].
  apply (b32_prefix 5 h' h Hh' Hh); unfold zlen in *; lia.
Qed.

Section proofs.
Context {M : Malloc} {Hm : MallocOk M}.

Lemma hash_to_base32_ok h rest : hash_ok h ->
  ipfs_blockstore_hash_to_base32 (h ++ rest) 32 = Ret (Some (base32_key h ++ [0])).
Proof.
  intros Hh. destruct (base32_key_32 h Hh) as [Hk Hkl]. pose proof (b32_length_32 h Hh) as Hb.
  destruct Hh as [Hh Hl]. unfold ipfs_blockstore_hash_to_base32. rewrite malloc_always.
  change (libp2p_crypto_encoding_base32_encode_size 32) with 41. change (u64 (41 + 1)) with 42.
  rewrite <- Hl. rewrite key_from_binary_ok; [|done|rewrite Hl; by vm_compute|rewrite zlen_fresh; lia].
  rewrite Hb. change (41 <=? 56) with true. cbv iota. cbn [rbind]. change (1 =? 0) with false. cbv iota.
  rewrite <- Hk. rewrite (with_ptr_app _ _ _ _ tt ([0] ++ zdrop 1 (zdrop 41 (fresh 42)))); [|done|].
  - cbn [rbind]. replace (zdrop 1 (zdrop 41 (fresh 42))) with (@nil Z); [done|].
    symmetry. apply zlen_0_nil. rewrite zdrop_zdrop by lia. rewrite zlen_drop, zlen_fresh; rewrite ?zlen_fresh; lia.
  - rewrite memwr_ok; [done|]. rewrite zlen_drop, zlen_fresh; rewrite ?zlen_fresh; unfold zlen; simpl; lia.
Qed.

Lemma path_get_ok path k rest : path_ok path -> c_string k -> zlen k < 2 ^ 20 -> head k <> Some 47 ->
  exists q, ipfs_blockstore_path_get path (k ++ 0 :: rest) =
    Ret (Some (join (join (c_str path) blockstore_name) k ++ 0 :: q)).
Proof.
  intros (Hp & Hne & Hlen) Hk Hkl Hkh. destruct (c_str_split path Hp) as [Hr [rp Hsplit]].
  set (r := c_str path) in *. clearbody r. subst path. pose proof (zlen_nonneg r). pose proof (zlen_nonneg k).
  assert (Hbs : c_string blockstore_name) by (repeat constructor; discriminate).
  assert (Hbl : zlen blockstore_name = 10) by reflexivity.
  unfold ipfs_blockstore_path_get. rewrite strlen_nul by done. cbn [rbind].
  rewrite s32_small by lia. rewrite (proj2 (Z.ltb_ge _ _)) by lia.
  destruct (filepath_join_ok r blockstore_name rp [] (fresh (zlen r + 12))) as (q1 & E1 & _);
    [done|done|done|rewrite zlen_fresh by lia; lia|].
  rewrite zlen_fresh in E1 by lia. rewrite E1. cbn [rbind]. change (1 =? 0) with false. cbv iota.
  pose proof (join_ok r blockstore_name Hr Hbs) as Hj. pose proof (join_length r blockstore_name) as Hjl.
  set (d := join r blockstore_name) in *. pose proof (zlen_nonneg d).
  rewrite !strlen_nul by done. cbn [rbind]. rewrite malloc_always. rewrite s32_small by lia.
  destruct (filepath_join_ok d k q1 rest (fresh (zlen d + zlen k + 2))) as (q2 & E2 & _);
    [done|done|by apply join_not_nil|rewrite zlen_fresh by lia; lia|].
  rewrite zlen_fresh in E2 by lia. rewrite u64_small by lia. rewrite E2. cbn [rbind]. by exists q2.
Qed.

Lemma file_name_of path h rest : path_ok path -> hash_ok h ->
  exists q, ipfs_blockstore_path_get path (base32_key h ++ 0 :: rest) = Ret (Some (file_name path h ++ 0 :: q)) /\
    c_string (file_name path h).
Proof.
  intros Hp Hh. destruct (base32_key_32 h Hh) as [_ Hl].
  pose proof (base32_key_chars h (proj1 Hh)) as Hc.
  pose proof (key_chars_nonzero _ Hc) as Hnz.
  destruct (path_get_ok path (base32_key h) rest Hp Hnz ltac:(lia) (key_head _ Hc)) as [q Hq].
  exists q. split; [done|]. unfold file_name. apply join_ok; [|done]. apply join_ok.
  - apply c_str_split, Hp.
  - repeat constructor; discriminate.
Qed.

(** ** Writing and reading a file *)
Context {Dk : Disk} {Hd : DiskOk Dk}.

Lemma blockstore_write_ok path fs h rest size enc w : path_ok path -> hash_ok h ->
  emits enc w -> zlen w <= size <= INT_MAX ->
  blockstore_write path fs (h ++ rest) 32 (Ret size) enc =
    Ret (1, Some (zlen w), <[file_name path h := w]> fs).
Proof.
  intros Hp Hh Henc Hsize. pose proof (zlen_nonneg w). unfold blockstore_write.
  rewrite hash_to_base32_ok by done. cbn [rbind]. rewrite Henc by (rewrite ?zlen_fresh; lia). cbn [rbind].
  change (1 =? 0) with false. cbv iota.
  destruct (file_name_of path h [] Hp Hh) as (q & E & Hc). rewrite E. cbn [rbind]. unfold write_file.
  rewrite strlen_nul by done. cbn [rbind]. rewrite ztake_app_len, disk_open, memrd_app by done. cbn [rbind].
  rewrite disk_write, Z.min_id, Z.max_r by lia. rewrite ztake_all by lia. cbn [rbind]. by rewrite Z.eqb_refl.
Qed.

Lemma blockstore_read_lookup path fs h rest : path_ok path -> hash_ok h ->
  blockstore_read path fs (h ++ rest) 32 =
    match fs !! file_name path h with
    | None => Ret None
    | Some w => let! r := read_buffer (s32 (zlen w)) w in Ret (Some r)
    end.
Proof.
  intros Hp Hh. unfold blockstore_read. rewrite hash_to_base32_ok by done. cbn [rbind].
  change (deref (Some ?x)) with x.
  destruct (file_name_of path h [] Hp Hh) as (q & E & Hc). change [0] with (0 :: @nil Z). rewrite E. cbn [rbind].
  change (deref (Some ?x)) with x. unfold os_utils_file_size, fopen_r. rewrite !strlen_nul by done. cbn [rbind].
  rewrite !ztake_app_len. by destruct (fs !! file_name path h).
Qed.

Lemma read_buffer_ok w : zlen w <= INT_MAX -> read_buffer (s32 (zlen w)) w = Ret (zlen w, w).
Proof.
  intros Hw. pose proof (zlen_nonneg w). unfold INT_MAX in Hw. rewrite s32_small by lia.
  unfold read_buffer. rewrite (proj2 (Z.ltb_ge _ _)) by lia. rewrite ztake_all by lia.
  rewrite memwr_ok by (rewrite zlen_fresh; lia). cbn [rbind].
  rewrite (zlen_0_nil (zdrop _ _)); [by rewrite app_nil_r|]. rewrite zlen_drop; rewrite zlen_fresh; lia.
Qed.

(** reading back, and reading something else *)
Lemma blockstore_read_same path fs h h' w : path_ok path -> hash_ok h -> hash_ok h' ->
  base32_key h' = base32_key h -> zlen w <= INT_MAX ->
  blockstore_read path (<[file_name path h := w]> fs) h' 32 = Ret (Some (zlen w, w)).
Proof.
  intros Hp Hh Hh' Hk Hw. rewrite <- (app_nil_r h'), blockstore_read_lookup by done.
  rewrite (proj2 (file_name_inj path h' h Hh' Hh)) by done. rewrite lookup_insert_eq.
  by rewrite read_buffer_ok.
Qed.
Lemma blockstore_read_other path fs h h' w : path_ok path -> hash_ok h -> hash_ok h' ->
  base32_key h' <> base32_key h ->
  blockstore_read path (<[file_name path h := w]> fs) h' 32 = blockstore_read path fs h' 32.
Proof.
  intros Hp Hh Hh' Hk. rewrite <- (app_nil_r h'), !blockstore_read_lookup by done.
  rewrite lookup_insert_ne; [done|]. intros E. by apply Hk, (file_name_inj path h' h).
Qed.

Lemma blockstore_put_ok path fs b c h : path_ok path -> hash_ok h -> block_ok b ->
  block_cid b = Some c -> cid_hash c = Some h -> cid_hash_length c = 32 ->
  ipfs_blockstore_put path fs b = Ret (1, Some (zlen (block_wire b)), <[file_name path h := block_wire b]> fs).
Proof.
  intros Hp Hh Hb Hc Hh1 Hh2. unfold ipfs_blockstore_put. rewrite Hc, Hh1, Hh2.
  change (deref (Some h)) with h. rewrite <- (app_nil_r h) at 1.
  by apply blockstore_write_ok; [| |apply block_encode_emits|apply block_size_ok].
Qed.
End proofs.

(** ** Properties *)

(** Property C9. After [ipfs_blockstore_put] of a block, [ipfs_blockstore_get]
    with the same hash returns its data under the CID that was asked for, and
    every hash with another file name reads as before.  The file name keeps only
    41 base32 characters of the hash, so a different hash with the same first 205
    bits reads this block too. *)
Theorem blockstore_put_get {M : Malloc} {Hm : MallocOk M} {Dk : Disk} {Hd : DiskOk Dk}
    (path : bytes) (fs : files) (b : Block) (c : Cid) (h : bytes) (c' : Cid) (h' : bytes) :
  path_ok path -> block_ok b ->
  hash_ok h -> block_cid b = Some c -> cid_hash c = Some h -> cid_hash_length c = 32 ->
  hash_ok h' -> cid_hash c' = Some h' -> cid_hash_length c' = 32 ->
  exists fs', ipfs_blockstore_put path fs b = Ret (1, Some (zlen (block_wire b)), fs') /\
    (take 25 h' = take 25 h -> (fun x => x / 8) <$> h' !! 25%nat = (fun x => x / 8) <$> h !! 25%nat ->
     ipfs_blockstore_get path fs' c' = Ret (Some (mkBlock (Some c') (Some (block_payload b)) (block_data_length b)))) /\
    (~ (take 25 h' = take 25 h /\ (fun x => x / 8) <$> h' !! 25%nat = (fun x => x / 8) <$> h !! 25%nat) ->
     ipfs_blockstore_get path fs' c' = ipfs_blockstore_get path fs c').
Proof.
  intros Hp Hb Hh Hc Hc1 Hc2 Hh' Hc1' Hc2'. eexists. split; [by apply (blockstore_put_ok path fs b c h)|].
  unfold ipfs_blockstore_get. rewrite Hc1', Hc2'. change (deref (Some h')) with h'.
  split; [intros H1 H2|intros H12].
  - rewrite blockstore_read_same; [|done..|by apply base32_key_same|].
    + cbn [rbind]. rewrite <- (app_nil_r (block_wire b)) at 1. rewrite block_decode_wire by done. cbn [rbind block_saved block_data block_data_length].
      by rewrite cid_copy_ok by (rewrite ?Hc1', ?Hc2'; (done || apply Hh')).
    + pose proof (block_size_ok b Hb). lia.
  - rewrite blockstore_read_other; [done..|]. by intros E%base32_key_same.
Qed.

Lemma ex_hash_ok x : byte_range x -> hash_ok (ex_hash x).
Proof.
  intros Hx. split; [|reflexivity]. unfold ex_hash. apply Forall_app; split; apply Forall_replicate; [|done].
  unfold byte_range. lia.
Qed.
Definition ex_cid (h : bytes) : Cid := mkCid 1 CID_DAG_PROTOBUF (Some h) 32.
Definition ex_block : Block := mkBlock (Some (ex_cid (ex_hash 1))) (Some [1; 2]) 2.
Lemma ex_block_ok : block_ok ex_block.
Proof.
  unfold block_ok, payload_ok, cid_ok, INT_MAX. cbn -[zlen Z.pow ex_hash is_bytes].
  split_and!; try done. by apply ex_hash_ok.
Qed.
(** "/r" *)
Definition ex_repo_path : bytes := [47; 114; 0].
Lemma ex_repo_path_ok : path_ok ex_repo_path.
Proof. split_and!; [by apply (bool_decide_unpack _)|discriminate|reflexivity]. Qed.

Lemma blockstore_put_get_witness :
  let M := malloc_total in let Dk := disk_total in
  let h := ex_hash 1 in let h' := ex_hash 2 in let c' := ex_cid h' in
  h <> h' /\ take 25 h' = take 25 h /\ (fun x => x / 8) <$> h' !! 25%nat = (fun x => x / 8) <$> h !! 25%nat /\
  exists fs', ipfs_blockstore_put ex_repo_path ∅ ex_block = Ret (1, Some (zlen (block_wire ex_block)), fs') /\
    (take 25 h' = take 25 h -> (fun x => x / 8) <$> h' !! 25%nat = (fun x => x / 8) <$> h !! 25%nat ->
     ipfs_blockstore_get ex_repo_path fs' c' = Ret (Some (mkBlock (Some c') (Some (block_payload ex_block)) (block_data_length ex_block)))) /\
    (~ (take 25 h' = take 25 h /\ (fun x => x / 8) <$> h' !! 25%nat = (fun x => x / 8) <$> h !! 25%nat) ->
     ipfs_blockstore_get ex_repo_path fs' c' = ipfs_blockstore_get ex_repo_path ∅ c').
Proof.
  intros M Dk h h' c'. split; [discriminate|]. split; [reflexivity|]. split; [reflexivity|].
  apply (blockstore_put_get ex_repo_path ∅ ex_block (ex_cid h) h c' h').
  - exact ex_repo_path_ok.
  - exact ex_block_ok.
  - apply ex_hash_ok. unfold byte_range. lia.
  - reflexivity.
  - reflexivity.
  - reflexivity.
  - apply ex_hash_ok. unfold byte_range. lia.
  - reflexivity.
  - reflexivity.
Defined.
