(* ===== verification/Merkledag.v ===== *)
(** * Nodes in the repository (libipfs/repo/fsrepo/fs_repo.c, libipfs/merkledag/merkledag.c)

    The repository pairs the block store with a datastore that knows which
    hashes are present; the merkledag functions convert nodes to blocks, hash
    them and store them there. *)
From S2P Require Import Prelude Protobuf Multihash Unixfs Cid Block Node Base32 Datastore Files Blockstore.

(** [struct FSRepo]: [path], the files below it, and [config->datastore] *)
Record FSRepo (D : Type) := mkRepo {
  path : bytes;
  repo_files : files;
  datastore : D
}.
Arguments mkRepo {D}.
Arguments path {D}.
Arguments repo_files {D}.
Arguments datastore {D}.

Section repo.
Context {M : Malloc} {Dk : Disk} {D : Type} {Ds : Datastore D}.

(** ** fs_repo.c *)

(** result, [*bytes_written] if it is set, and the repository *)
Definition ipfs_repo_fsrepo_block_write (block : Block) (fs_repo : FSRepo D)
  : res (Z * option Z * FSRepo D) :=
  if ipfs_blockstore_new then
    let! (retVal, bytes_written, fs) := ipfs_blockstore_put (path fs_repo) (repo_files fs_repo) block in
    let fs_repo := mkRepo (path fs_repo) fs (datastore fs_repo) in
    if retVal =? 0 then Ret (0, bytes_written, fs_repo)
    else
      let! (retVal, d) := ipfs_datastore_helper_add_block_to_datastore block (datastore fs_repo) in
      Ret (if retVal =? 0 then 0 else 1, bytes_written, mkRepo (path fs_repo) fs d)
  else Ret (0, None, fs_repo).

(** the hash is only looked for in the datastore *)
Definition datastore_has (hash : bytes) (hash_length : Z) (fs_repo : FSRepo D) : res bool :=
  let! k := memrd hash hash_length in
  Ret (match datastore_get k (datastore fs_repo) with Some _ => true | None => false end).

Definition ipfs_repo_fsrepo_node_read (hash : bytes) (hash_length : Z) (fs_repo : FSRepo D)
  : res (option HashtableNode) :=
  let! found := datastore_has hash hash_length fs_repo in
  if found : bool then ipfs_blockstore_get_node (path fs_repo) (repo_files fs_repo) hash hash_length
  else Ret None.

Definition ipfs_repo_fsrepo_block_read (hash : bytes) (hash_length : Z) (fs_repo : FSRepo D)
  : res (option Block) :=
  let! found := datastore_has hash hash_length fs_repo in
  if found : bool then
    let! cid := ipfs_cid_new 0 (Some hash) hash_length CID_DAG_PROTOBUF in
    match cid with
    | None => Ret None
    | Some cid =>
      if ipfs_blockstore_new then ipfs_blockstore_get (path fs_repo) (repo_files fs_repo) cid else Ret None
    end
  else Ret None.

Definition ipfs_repo_fsrepo_unixfs_read (hash : bytes) (hash_length : Z) (fs_repo : FSRepo D)
  : res (option UnixFS) :=
  let! found := datastore_has hash hash_length fs_repo in
  if found : bool then ipfs_blockstore_get_unixfs (path fs_repo) (repo_files fs_repo) hash hash_length
  else Ret None.

(** the encoded node, in an object of the estimated size: result, object and
    length ([None]: [*node_obj] is not set) *)
Definition ipfs_repo_fsrepo_node_get (hash : bytes) (hash_length : Z) (fs_repo : FSRepo D)
  : res (Z * option (bytes * Z)) :=
  let! node := ipfs_repo_fsrepo_node_read hash hash_length fs_repo in
  match node with
  | None => Ret (0, None)
  | Some node =>
    let! node_size := ipfs_hashtable_node_protobuf_encode_size node in
    if malloc_ok node_size then
      let! ((retVal, node_size), node_obj) := ipfs_hashtable_node_protobuf_encode node (fresh node_size) node_size in
      Ret (retVal, Some (node_obj, node_size))
    else Ret (0, None)
  end.

(** ** merkledag.c *)
Definition ipfs_merkledag_convert_node_to_block (node : HashtableNode) : res (option Block) :=
  match ipfs_block_new with
  | None => Ret None
  | Some block =>
    let! cid := ipfs_cid_new 1 (n_hash node) (n_hash_size node) CID_DAG_PROTOBUF in
    match cid with
    | None => Ret None
    | Some cid =>
      let! data_length := ipfs_hashtable_node_protobuf_encode_size node in
      if malloc_ok data_length then
        let! ((retVal, data_length), data) :=
          ipfs_hashtable_node_protobuf_encode node (fresh data_length) data_length in
        if retVal =? 0 then Ret None else Ret (Some (mkBlock (Some cid) (Some data) data_length))
      else Ret None
    end
  end.

Definition ipfs_merkledag_convert_block_to_node (block : Block) : res (option HashtableNode) :=
  ipfs_hashtable_node_protobuf_decode (deref (block_data block)) (block_data_length block).

(** the hash of a node that has none: of its encoding, whether or not that
    succeeded.  [inl]: no memory for the hash, 0 is returned. *)
Definition node_compute_hash (sha256 : bytes -> bytes) (node : HashtableNode)
  : res (HashtableNode + HashtableNode) :=
  match n_hash node with
  | Some _ => Ret (inr node)
  | None =>
    let! protobuf_size := ipfs_hashtable_node_protobuf_encode_size node in
    let! ((_, bytes_encoded), protobuf) :=
      ipfs_hashtable_node_protobuf_encode node (fresh protobuf_size) protobuf_size in
    if malloc_ok 32 then
      let! (r, h) := libp2p_crypto_hashing_sha256 sha256 protobuf bytes_encoded in
      let! h := memwr (fresh 32) h in
      Ret (inr (set_node_hash (Some h) 32 node))
    else Ret (inl (set_node_hash None 32 node))
  end.

(** result, [*bytes_written], the node with its hash, and the repository *)
Definition ipfs_merkledag_add (sha256 : bytes -> bytes) (node : HashtableNode) (fs_repo : FSRepo D)
  : res (Z * option Z * HashtableNode * FSRepo D) :=
  let! n := node_compute_hash sha256 node in
  match n with
  | inl node => Ret (0, None, node, fs_repo)
  | inr node =>
    let! block := ipfs_merkledag_convert_node_to_block node in
    match block with
    | None => Ret (0, None, node, fs_repo)
    | Some block =>
      let! (retVal, bytes_written, fs_repo) := ipfs_repo_fsrepo_block_write block fs_repo in
      Ret (if retVal =? 0 then 0 else 1, bytes_written, node, fs_repo)
    end
  end.

Definition ipfs_merkledag_get (hash : bytes) (hash_size : Z) (fs_repo : FSRepo D)
  : res (option HashtableNode) :=
  let! found := datastore_has hash hash_size fs_repo in
  if found : bool then
    let! node := ipfs_repo_fsrepo_node_read hash hash_size fs_repo in
    match node with
    | None => Ret None
    | Some node => let! (_, node) := ipfs_hashtable_node_set_hash node hash hash_size in Ret (Some node)
    end
  else Ret None.

Definition ipfs_merkledag_get_by_multihash (multihash : bytes) (multihash_length : Z) (fs_repo : FSRepo D)
  : res (option HashtableNode) :=
  let! d := mh_multihash_digest multihash multihash_length in
  match d with
  | inl _ => Ret None
  | inr (hash, hash_size) => ipfs_merkledag_get hash hash_size fs_repo
  end.
End repo.

(** ** A node as a block *)
Definition node_block `{Malloc} (n : HashtableNode) (h : bytes) : Block :=
  mkBlock (Some (mkCid 1 CID_DAG_PROTOBUF (Some h) 32))
    (Some (node_wire n ++ zdrop (zlen (node_wire n)) (fresh (node_size n)))) (zlen (node_wire n)).

(** a node whose block, too, has an encoding of less than 2 GiB *)
Definition node_fits (n : HashtableNode) : Prop := node_ok n /\ node_size n + 96 <= INT_MAX.

Section proofs.
Context {M : Malloc} {Hm : MallocOk M} {Dk : Disk} {Hd : DiskOk Dk} {D : Type} {Ds : Datastore D}.

Lemma node_block_payload n h : node_fits n -> block_payload (node_block n h) = node_wire n.
Proof.
  intros [Hn _]. unfold block_payload. cbn [node_block block_data block_data_length].
  change (deref (Some ?x)) with x. apply ztake_app_len.
Qed.

Lemma node_block_ok n h : node_fits n -> hash_ok h -> block_ok (node_block n h).
Proof.
  intros [Hn Hs] [Hh Hl]. pose proof (node_wire_length n Hn). pose proof (zlen_nonneg (node_wire n)).
  unfold block_ok, payload_ok, cid_ok, node_block, INT_MAX in *.
  cbn -[zlen Z.pow is_bytes deref]. change (deref (Some ?x)) with x. rewrite zlen_app, zlen_drop; rewrite zlen_fresh; try lia.
  unfold CID_DAG_PROTOBUF. split_and!; try done; lia.
Qed.

Lemma convert_node_ok n h : node_fits n -> hash_ok h -> n_hash n = Some h -> n_hash_size n = 32 ->
  ipfs_merkledag_convert_node_to_block n = Ret (Some (node_block n h)).
Proof.
  intros [Hn Hs] [Hh Hl] H1 H2. pose proof (node_wire_length n Hn). pose proof Hn as (_ & _ & Hpos).
  unfold ipfs_merkledag_convert_node_to_block, ipfs_block_new, ipfs_cid_new.
  rewrite !malloc_always, H1, H2. change (32 =? 0) with false. cbv iota. rewrite memrd_all by done. cbn [rbind].
  rewrite node_encode_size_ok by done. cbn [rbind]. rewrite malloc_always.
  rewrite (node_encode_emits n Hn) by (rewrite ?zlen_fresh; lia). cbn [rbind]. done.
Qed.

Lemma convert_block_ok n h : node_fits n ->
  ipfs_merkledag_convert_block_to_node (node_block n h) = Ret (Some (node_saved n)).
Proof. intros [Hn _]. by apply node_decode_wire. Qed.

(** ** Writing a block *)
Lemma block_write_ok (repo : FSRepo D) b c h : path_ok (path repo) -> hash_ok h -> block_ok b ->
  block_cid b = Some c -> cid_hash c = Some h -> cid_hash_length c = 32 ->
  let put := datastore_put (mkRecord (Some h) 32 (Some (b32 h)) 56 0) (datastore repo) in
  ipfs_repo_fsrepo_block_write b repo =
    Ret (if put.1 =? 0 then 0 else 1, Some (zlen (block_wire b)),
         mkRepo (path repo) (<[file_name (path repo) h := block_wire b]> (repo_files repo)) put.2).
Proof.
  intros Hp Hh Hb Hc H1 H2 put. unfold ipfs_repo_fsrepo_block_write, ipfs_blockstore_new.
  rewrite !malloc_always. cbn [andb]. rewrite (blockstore_put_ok _ _ b c h) by done. cbn [rbind].
  change (1 =? 0) with false. cbv iota. unfold ipfs_datastore_helper_add_block_to_datastore.
  rewrite (block_record_ok h b c) by done. cbn [rbind path repo_files datastore]. fold put. by destruct put.
Qed.

(** [h] is the hash of the node, or the one computed from its encoding *)
Lemma compute_hash_ok sha256 n h : node_fits n -> hash_ok h ->
  (n_hash n = Some h /\ n_hash_size n = 32 \/ n_hash n = None /\ sha256 (node_wire n) = h) ->
  node_compute_hash sha256 n = Ret (inr (set_node_hash (Some h) 32 n)).
Proof.
  intros [Hn Hs] [Hh Hl] Hnh. unfold node_compute_hash. destruct Hnh as [[H1 H2]|[-> H2]].
  - rewrite H1. do 2 f_equal. destruct n; simpl in *. by subst.
  - pose proof (node_wire_length n Hn). pose proof Hn as (_ & _ & Hpos).
    rewrite node_encode_size_ok by done. cbn [rbind].
    rewrite (node_encode_emits n Hn) by (rewrite ?zlen_fresh; lia). cbn [rbind]. rewrite malloc_always.
    unfold libp2p_crypto_hashing_sha256. rewrite memrd_app by done. cbn [rbind]. rewrite H2.
    rewrite memwr_ok by (rewrite zlen_fresh; lia). cbn [rbind]. rewrite Hl.
    rewrite (zlen_0_nil (zdrop _ _)); [by rewrite app_nil_r|]. rewrite zlen_drop; rewrite zlen_fresh; lia.
Qed.

Lemma merkledag_add_ok sha256 n h (repo : FSRepo D) : path_ok (path repo) -> node_fits n -> hash_ok h ->
  (n_hash n = Some h /\ n_hash_size n = 32 \/ n_hash n = None /\ sha256 (node_wire n) = h) ->
  let put := datastore_put (mkRecord (Some h) 32 (Some (b32 h)) 56 0) (datastore repo) in
  let w := block_wire (node_block n h) in
  ipfs_merkledag_add sha256 n repo =
    Ret (if put.1 =? 0 then 0 else 1, Some (zlen w), set_node_hash (Some h) 32 n,
         mkRepo (path repo) (<[file_name (path repo) h := w]> (repo_files repo)) put.2).
Proof.
  intros Hp Hn Hh Hnh put w. unfold ipfs_merkledag_add. rewrite (compute_hash_ok _ n h) by done. cbn [rbind].
  rewrite (convert_node_ok (set_node_hash (Some h) 32 n) h) by done. cbn [rbind].
  change (node_block (set_node_hash (Some h) 32 n) h) with (node_block n h).
  rewrite (block_write_ok repo _ (mkCid 1 CID_DAG_PROTOBUF (Some h) 32) h) by (done || by apply node_block_ok).
  cbn [rbind]. fold put w. by destruct (put.1 =? 0).
Qed.

(** ** Reading a node *)
Lemma merkledag_get_ok (repo : FSRepo D) n h h' : path_ok (path repo) -> node_fits n -> hash_ok h ->
  hash_ok h' -> is_Some (datastore_get h' (datastore repo)) -> base32_key h' = base32_key h ->
  repo_files repo !! file_name (path repo) h = Some (block_wire (node_block n h)) ->
  ipfs_merkledag_get h' 32 repo = Ret (Some (set_node_hash (Some h') 32 (node_saved n))).
Proof.
  intros Hp Hn Hh Hh' [rec Hrec] Hk Hf. pose proof (node_block_ok n h Hn Hh) as Hb.
  pose proof (block_size_ok _ Hb). pose proof Hh' as [_ Hl'].
  unfold ipfs_merkledag_get, ipfs_repo_fsrepo_node_read, datastore_has, ipfs_blockstore_get_node.
  rewrite memrd_all by done. cbn [rbind]. rewrite Hrec.
  rewrite <- (app_nil_r h') at 1. rewrite blockstore_read_lookup by done.
  rewrite (proj2 (file_name_inj (path repo) h' h Hh' Hh) Hk), Hf.
  rewrite read_buffer_ok by lia. cbn [rbind].
  rewrite <- (app_nil_r (block_wire _)) at 1. rewrite block_decode_wire by done. cbn [rbind block_saved block_data block_data_length].
  rewrite node_block_payload by done. change (deref (Some ?x)) with x. cbn [node_block block_data_length].
  rewrite <- (app_nil_r (node_wire n)) at 1. rewrite node_decode_wire by apply Hn. cbn [rbind].
  unfold ipfs_hashtable_node_set_hash. cbn [n_hash node_saved]. rewrite malloc_always.
  change ((0 <? 32) && negb true) with false. change (0 <? 32) with true. cbv iota.
  by rewrite memrd_all by done.
Qed.

Lemma merkledag_get_other (repo : FSRepo D) h h' w d : path_ok (path repo) -> hash_ok h -> hash_ok h' ->
  is_Some (datastore_get h' (datastore repo)) -> is_Some (datastore_get h' d) ->
  base32_key h' <> base32_key h ->
  ipfs_merkledag_get h' 32 (mkRepo (path repo) (<[file_name (path repo) h := w]> (repo_files repo)) d) =
    ipfs_merkledag_get h' 32 repo.
Proof.
  intros Hp Hh Hh' [r1 H1] [r2 H2] Hk. pose proof Hh' as [_ Hl'].
  unfold ipfs_merkledag_get, ipfs_repo_fsrepo_node_read, datastore_has, ipfs_blockstore_get_node.
  rewrite memrd_all by done. cbn [rbind datastore path repo_files]. rewrite H1, H2.
  by rewrite blockstore_read_other.
Qed.

Lemma multihash_digest_32 h rest : hash_ok h ->
  mh_multihash_digest (MH_H_SHA2_256 :: 32 :: h ++ rest) 34 = Ret (inr (h ++ rest, 32)).
Proof. intros [_ Hl]. unfold mh_multihash_digest, padd. rewrite !zlen_cons, zlen_app, Hl. zbool. done. Qed.
End proofs.

(** ** Properties *)

(** Property C1. [ipfs_merkledag_add] of a node without a hash stores it under
    the sha256 of its encoding and sets that hash in the node; if the datastore
    accepts the record, [ipfs_merkledag_get] with that hash gives its links and
    its data back.  A hash that was present before still reads the same node,
    unless it shares its first 205 bits with the new one: then it reads the new
    node. *)
Theorem merkledag_add_get {M : Malloc} {Hm : MallocOk M} {Dk : Disk} {Hd : DiskOk Dk} {D : Type}
    {Ds : Datastore D} {Dl : DatastoreLaws D} (sha256 : bytes -> bytes) (n : HashtableNode)
    (repo : FSRepo D) (k : Z) (d : D) :
  path_ok (path repo) -> node_fits n -> n_hash n = None -> hash_ok (sha256 (node_wire n)) ->
  let h := sha256 (node_wire n) in
  datastore_put (mkRecord (Some h) 32 (Some (b32 h)) 56 0) (datastore repo) = (k, d) -> k <> 0 ->
  exists bytes_written repo',
    ipfs_merkledag_add sha256 n repo = Ret (1, Some bytes_written, set_node_hash (Some h) 32 n, repo') /\
    ipfs_merkledag_get h 32 repo' = Ret (Some (set_node_hash (Some h) 32 (node_saved n))) /\
    ipfs_merkledag_get_by_multihash (MH_H_SHA2_256 :: 32 :: h) 34 repo' = ipfs_merkledag_get h 32 repo' /\
    forall h', hash_ok h' -> is_Some (datastore_get h' (datastore repo)) ->
      if decide (take 25 h' = take 25 h /\ (fun x => x / 8) <$> h' !! 25%nat = (fun x => x / 8) <$> h !! 25%nat)
      then ipfs_merkledag_get h' 32 repo' = Ret (Some (set_node_hash (Some h') 32 (node_saved n)))
      else ipfs_merkledag_get h' 32 repo' = ipfs_merkledag_get h' 32 repo.
Proof.
  intros Hp Hn Hnh Hh h Hput Hk.
  pose proof (merkledag_add_ok sha256 n h repo Hp Hn Hh (or_intror (conj Hnh eq_refl))) as Hadd.
  cbv zeta in Hadd. fold h in Hput. rewrite Hput in Hadd. cbn [fst snd] in Hadd.
  rewrite (proj2 (Z.eqb_neq k 0) Hk) in Hadd.
  eexists _, _. split; [exact Hadd|]. clear Hadd.
  assert (Hget : forall h', hash_ok h' -> is_Some (datastore_get h' d) -> base32_key h' = base32_key h ->
    ipfs_merkledag_get h' 32 (mkRepo (path repo)
      (<[file_name (path repo) h := block_wire (node_block n h)]> (repo_files repo)) d) =
      Ret (Some (set_node_hash (Some h') 32 (node_saved n)))).
  { intros h' Hh' Hd' Hk'. apply (merkledag_get_ok _ n h h'); try done. cbn [repo_files path]. apply lookup_insert_eq. }
  split_and!.
  - apply Hget; [done| |done]. by eapply (put_present h _ _ k d); [|exact Hput|done].
  - unfold ipfs_merkledag_get_by_multihash. rewrite <- (app_nil_r h) at 1.
    rewrite (multihash_digest_32 h []) by done. cbn [rbind]. by rewrite app_nil_r.
  - intros h' Hh' Hd'. assert (Hd2 : is_Some (datastore_get h' d)) by (by eapply put_keeps).
    destruct (decide _) as [Hs|Hs].
    + apply Hget; [done|done|]. by apply base32_key_same.
    + apply merkledag_get_other; try done. by intros E%base32_key_same.
Qed.

(** a hash function for concrete runs: the length, then sevens *)
Definition ex_sha (b : bytes) : bytes := zlen b mod 256 :: replicate 31 7.

Definition ex_node : HashtableNode := mkNode 2 (Some [8; 1]) [sample_link] None None 0.

Lemma merkledag_add_get_witness :
  let M := malloc_total in let Dk := disk_total in
  let repo := mkRepo ex_repo_path ∅ (∅ : gmap bytes DatastoreRecord) in
  let h := ex_sha (node_wire ex_node) in
  exists bytes_written repo',
    ipfs_merkledag_add ex_sha ex_node repo = Ret (1, Some bytes_written, set_node_hash (Some h) 32 ex_node, repo') /\
    ipfs_merkledag_get h 32 repo' = Ret (Some (set_node_hash (Some h) 32 (node_saved ex_node))) /\
    ipfs_merkledag_get_by_multihash (MH_H_SHA2_256 :: 32 :: h) 34 repo' = ipfs_merkledag_get h 32 repo' /\
    forall h', hash_ok h' -> is_Some (datastore_get h' (datastore repo)) ->
      if decide (take 25 h' = take 25 h /\ (fun x => x / 8) <$> h' !! 25%nat = (fun x => x / 8) <$> h !! 25%nat)
      then ipfs_merkledag_get h' 32 repo' = Ret (Some (set_node_hash (Some h') 32 (node_saved ex_node)))
      else ipfs_merkledag_get h' 32 repo' = ipfs_merkledag_get h' 32 repo.
Proof.
  intros M Dk repo h.
  apply (merkledag_add_get ex_sha ex_node repo 1 (<[h := mkRecord (Some h) 32 (Some (b32 h)) 56 0]> ∅)).
  - exact ex_repo_path_ok.
  - split; [|by vm_compute]. split; [|by split_and!]. apply Forall_cons_2; [apply sample_link_ok|apply Forall_nil_2].
  - reflexivity.
  - split; [|reflexivity]. constructor; [unfold byte_range; apply Z.mod_pos_bound; lia|].
    apply Forall_replicate. unfold byte_range. lia.
  - reflexivity.
  - discriminate.
Defined.
