(* ===== verification/BitswapMessage.v ===== *)
(** * Bitswap messages (libipfs/exchange/bitswap/message.c)

    The four message structs, their protobuf codecs, and the operations that
    fill an outgoing message. *)
From S2P Require Import Prelude Varint Protobuf Multihash Cid Block Vector.

(** a decoder allocates the struct with [malloc] and does not initialise it *)
Record WantlistEntry := mkWantlistEntry {
  we_block : ptr bytes;
  we_block_size : Z;
  we_priority : Z;
  we_cancel : Z
}.

Record BitswapWantlist := mkWantlist {
  wl_entries : option (vector WantlistEntry);
  wl_full : Z
}.

Record BitswapBlock := mkBitswapBlock {
  bb_prefix : ptr bytes;
  bb_prefix_size : Z;
  bb_bytes : ptr bytes;
  bb_bytes_size : Z
}.

Record BitswapMessage := mkMessage {
  bm_wantlist : option BitswapWantlist;
  bm_blocks : option (vector Block);
  bm_payload : option (vector Block)
}.

(** [struct CidEntry] of peer_request_queue.h *)
Record CidEntry := mkCidEntry {
  ce_cid : option Cid;
  ce_cancel : Z;
  ce_cancel_has_been_sent : Z;
  ce_request_has_been_sent : Z
}.

Definition sizeof_WantlistEntry : Z := 24.
Definition sizeof_BitswapWantlist : Z := 16.
Definition sizeof_BitswapBlock : Z := 32.
Definition sizeof_BitswapMessage : Z := 24.

Section message.
Context {M : Malloc}.

(** ** BitswapBlock *)
Definition ipfs_bitswap_block_new : option BitswapBlock :=
  if malloc_ok sizeof_BitswapBlock then Some (mkBitswapBlock Null 0 Null 0) else None.

Definition ipfs_bitswap_message_block_protobuf_size (block : BitswapBlock) : Z :=
  u64 (33 + bb_prefix_size block + bb_bytes_size block).

Definition ipfs_bitswap_message_block_protobuf_encode (incoming : option BitswapBlock)
    (outgoing : bytes) (max_size : Z) : encoded :=
  match incoming with
  | None => Ret ((1, 0), outgoing)
  | Some b =>
    let max := max_size in
    (put_field (protobuf_encode_length_delimited 1 WIRETYPE_LENGTH_DELIMITED
                  (pderef (bb_prefix b)) (bb_prefix_size b)) max
    (put_field (protobuf_encode_length_delimited 2 WIRETYPE_LENGTH_DELIMITED
                  (pderef (bb_bytes b)) (bb_bytes_size b)) max
    put_done)) 0 outgoing
  end.

(** neither case adds [bytes_read] to [pos] *)
Definition bitswap_block_handler : handler BitswapBlock := fun field_no p rem block =>
  if field_no =? 1 then
    let! r := protobuf_decode_length_delimited p rem in
    match r with
    | None => Ret None
    | Some (d, _) => Ret (Some (mkBitswapBlock (Ptr d) (zlen d) (bb_bytes block) (bb_bytes_size block), 0))
    end
  else if field_no =? 2 then
    let! r := protobuf_decode_length_delimited p rem in
    match r with
    | None => Ret None
    | Some (d, _) => Ret (Some (mkBitswapBlock (bb_prefix block) (bb_prefix_size block) (Ptr d) (zlen d), 0))
    end
  else Ret (Some (block, 0)).

(** what [malloc] returned, before any field is read *)
Definition bitswap_block_uninit : BitswapBlock :=
  mkBitswapBlock Wild (uninit_uint 64) Wild (uninit_uint 64).

(** [None]: returned 0; [Some o]: returned 1 with [*output = o] *)
Definition ipfs_bitswap_message_block_protobuf_decode (buffer : bytes) (buffer_length : Z)
  : res (option (option BitswapBlock)) :=
  if buffer_length =? 0 then Ret (Some None)
  else if malloc_ok sizeof_BitswapBlock then
    let! r := decode_fields (decode_fuel buffer_length) bitswap_block_handler buffer buffer_length 0
                bitswap_block_uninit in
    Ret (Some <$> r)
  else Ret None.

(** ** WantlistEntry *)
Definition ipfs_bitswap_wantlist_entry_new : option WantlistEntry :=
  if malloc_ok sizeof_WantlistEntry then Some (mkWantlistEntry Null 0 1 0) else None.

Definition ipfs_bitswap_wantlist_entry_protobuf_encode_size (entry : WantlistEntry) : Z :=
  u64 (33 + we_block_size entry).

Definition ipfs_bitswap_wantlist_entry_protobuf_encode (entry : option WantlistEntry)
    (buffer : bytes) (buffer_length : Z) : encoded :=
  match entry with
  | None => Ret ((1, 0), buffer)
  | Some e =>
    let max := buffer_length in
    (put_field (protobuf_encode_length_delimited 1 WIRETYPE_LENGTH_DELIMITED
                  (pderef (we_block e)) (we_block_size e)) max
    (put_field (protobuf_encode_varint 2 WIRETYPE_VARINT (we_cancel e)) max
    (put_field (protobuf_encode_varint 3 WIRETYPE_VARINT (we_priority e)) max
    put_done))) 0 buffer
  end.

Definition entry_handler : handler WantlistEntry := fun field_no p rem entry =>
  if field_no =? 1 then
    let! r := protobuf_decode_length_delimited p rem in
    match r with
    | None => Ret None
    | Some (d, n) => Ret (Some (mkWantlistEntry (Ptr d) (zlen d) (we_priority entry) (we_cancel entry), n))
    end
  else if field_no =? 2 then
    let! (v, n) := varint_decode p (s32 rem) in
    Ret (Some (mkWantlistEntry (we_block entry) (we_block_size entry) (we_priority entry) (u8 v), n))
  else if field_no =? 3 then
    let! (v, n) := varint_decode p (s32 rem) in
    Ret (Some (mkWantlistEntry (we_block entry) (we_block_size entry) (u32 v) (we_cancel entry), n))
  else Ret (Some (entry, 0)).

Definition entry_uninit : WantlistEntry :=
  mkWantlistEntry Wild (uninit_uint 64) (uninit_uint 32) (uninit_uint 8).

Definition ipfs_bitswap_wantlist_entry_protobuf_decode (buffer : bytes) (buffer_length : Z)
  : res (option (option WantlistEntry)) :=
  if buffer_length =? 0 then Ret (Some None)
  else if malloc_ok sizeof_WantlistEntry then
    let! r := decode_fields (decode_fuel buffer_length) entry_handler buffer buffer_length 0 entry_uninit in
    Ret (Some <$> r)
  else Ret None.

(** ** BitswapWantlist *)
Definition ipfs_bitswap_wantlist_new : option BitswapWantlist :=
  if malloc_ok sizeof_BitswapWantlist then Some (mkWantlist None 1) else None.

(** a sum over the elements of a vector; a NULL element is dereferenced *)
Definition vector_sum {A} (f : A -> res Z) (v : vector A) (total : Z) : res Z :=
  foldl (fun total e =>
    let! total := total in
    match e with
    | None => UB
    | Some e => let! n := f e in Ret (u64 (total + n))
    end) (Ret total) (vector_each v).

Definition ipfs_bitswap_wantlist_protobuf_encode_size (list : option BitswapWantlist) : res Z :=
  match list with
  | None => Ret 0
  | Some list =>
    match wl_entries list with
    | None => UB
    | Some entries =>
      let! total :=
        vector_sum (fun e => Ret (ipfs_bitswap_wantlist_entry_protobuf_encode_size e)) entries 0 in
      Ret (u64 (total + (11 + 12 + 11)))
    end
  end.

Definition wantlist_entry_field (entry : option WantlistEntry) (buffer : bytes) (max : Z) : encoded :=
  match entry with
  | None => UB
  | Some e =>
    encode_nested_malloc 1 (ipfs_bitswap_wantlist_entry_protobuf_encode_size e)
      (ipfs_bitswap_wantlist_entry_protobuf_encode (Some e)) buffer max
  end.

Definition ipfs_bitswap_wantlist_protobuf_encode (list : option BitswapWantlist) (buffer : bytes)
    (buffer_length : Z) : encoded :=
  match list with
  | None => Ret ((1, 0), buffer)
  | Some list =>
    match wl_entries list with
    | None => UB
    | Some entries =>
      let max := buffer_length in
      (put_each wantlist_entry_field max (vector_each entries)
      (put_field (protobuf_encode_varint 2 WIRETYPE_VARINT (wl_full list)) max
      put_done)) 0 buffer
    end
  end.

(** [if (x == NULL) x = libp2p_utils_vector_new(1); libp2p_utils_vector_add(x, item);] *)
Definition vector_push {A} (v : option (vector A)) (item : option A) : res (vector A) :=
  let! v := match v with Some v => Ret v | None => libp2p_utils_vector_new 1 end in
  let! (_, v) := libp2p_utils_vector_add v item in Ret v.

Definition wantlist_handler : handler BitswapWantlist := fun field_no p rem list =>
  if field_no =? 1 then
    let! r := protobuf_decode_length_delimited p rem in
    match r with
    | None => Ret None
    | Some (temp, n) =>
      let! entry := ipfs_bitswap_wantlist_entry_protobuf_decode temp (zlen temp) in
      match entry with
      | None => Ret None
      | Some entry =>
        let! entries := vector_push (wl_entries list) entry in
        Ret (Some (mkWantlist (Some entries) (wl_full list), n))
      end
    end
  else if field_no =? 2 then
    let! (v, n) := varint_decode p (s32 rem) in
    Ret (Some (mkWantlist (wl_entries list) (u8 v), n))
  else Ret (Some (list, 0)).

Definition ipfs_bitswap_wantlist_protobuf_decode (buffer : bytes) (buffer_length : Z)
  : res (option (option BitswapWantlist)) :=
  if buffer_length =? 0 then Ret (Some None)
  else
    match ipfs_bitswap_wantlist_new with
    | None => Ret None
    | Some list =>
      let! r := decode_fields (decode_fuel buffer_length) wantlist_handler buffer buffer_length 0 list in
      Ret (Some <$> r)
    end.

(** ** BitswapMessage *)
Definition ipfs_bitswap_message_new : option BitswapMessage :=
  if malloc_ok sizeof_BitswapMessage then Some (mkMessage None None None) else None.

Definition ipfs_bitswap_message_protobuf_encode_size (message : option BitswapMessage) : res Z :=
  match message with
  | None => Ret 0
  | Some m =>
    let! total :=
      match bm_blocks m with
      | None => Ret 0
      | Some v => vector_sum (fun b => Ret (u64 (11 + block_data_length b))) v 0
      end in
    let! total :=
      match bm_payload m with
      | None => Ret total
      | Some v => vector_sum (fun b => Ret (u64 (11 + ipfs_blocks_block_protobuf_encode_size b))) v total
      end in
    let! total :=
      match bm_wantlist m with
      | None => Ret total
      | Some w =>
        let! n := ipfs_bitswap_wantlist_protobuf_encode_size (Some w) in Ret (u64 (total + n))
      end in
    Ret (u64 (total + (11 + 12 + 11)))
  end.

Definition blocks_field (entry : option Block) (buffer : bytes) (max : Z) : encoded :=
  match entry with
  | None => UB
  | Some b =>
    protobuf_encode_length_delimited 1 WIRETYPE_LENGTH_DELIMITED (deref (block_data b))
      (block_data_length b) buffer max
  end.

Definition payload_field (entry : option Block) (buffer : bytes) (max : Z) : encoded :=
  match entry with
  | None => UB
  | Some b =>
    encode_nested_malloc 2 (ipfs_blocks_block_protobuf_encode_size b)
      (ipfs_blocks_block_protobuf_encode b) buffer max
  end.

Definition wantlist_field (w : BitswapWantlist) (buffer : bytes) (max : Z) : encoded :=
  let! temp_size := ipfs_bitswap_wantlist_protobuf_encode_size (Some w) in
  encode_nested_malloc 3 temp_size (ipfs_bitswap_wantlist_protobuf_encode (Some w)) buffer max.

(** the elements of a vector that may be NULL *)
Definition each_of {A} (v : option (vector A)) : list (option A) :=
  match v with None => [] | Some v => vector_each v end.

Definition ipfs_bitswap_message_protobuf_encode (message : option BitswapMessage) (buffer : bytes)
    (buffer_length : Z) : encoded :=
  match message with
  | None => Ret ((1, 0), buffer)
  | Some m =>
    let max := buffer_length in
    (put_each blocks_field max (each_of (bm_blocks m))
    (put_each payload_field max (each_of (bm_payload m))
    (match bm_wantlist m with
     | None => put_done
     | Some w => put_field (wantlist_field w) max put_done
     end))) 0 buffer
  end.

Definition message_handler : handler BitswapMessage := fun field_no p rem message =>
  if field_no =? 1 then
    match ipfs_block_new with
    | None => UB
    | Some temp =>
      let! r := protobuf_decode_length_delimited p rem in
      match r with
      | None => Ret None
      | Some (d, n) =>
        let! blocks := vector_push (bm_blocks message) (Some (mkBlock (block_cid temp) (Some d) (zlen d))) in
        Ret (Some (mkMessage (bm_wantlist message) (Some blocks) (bm_payload message), n))
      end
    end
  else if field_no =? 2 then
    let! r := protobuf_decode_length_delimited p rem in
    match r with
    | None => Ret None
    | Some (temp, n) =>
      let! block := ipfs_blocks_block_protobuf_decode temp (zlen temp) in
      match block with
      | None => Ret None
      | Some block =>
        let! payload := vector_push (bm_payload message) (Some block) in
        Ret (Some (mkMessage (bm_wantlist message) (bm_blocks message) (Some payload), n))
      end
    end
  else if field_no =? 3 then
    let! r := protobuf_decode_length_delimited p rem in
    match r with
    | None => Ret None
    | Some (temp, n) =>
      let! w := ipfs_bitswap_wantlist_protobuf_decode temp (zlen temp) in
      match w with
      | None => Ret None
      | Some w => Ret (Some (mkMessage w (bm_blocks message) (bm_payload message), n))
      end
    end
  else Ret (Some (message, 0)).

Definition ipfs_bitswap_message_protobuf_decode (buffer : bytes) (buffer_length : Z)
  : res (option (option BitswapMessage)) :=
  if buffer_length =? 0 then Ret (Some None)
  else
    match ipfs_bitswap_message_new with
    | None => Ret None
    | Some message =>
      let! r := decode_fields (decode_fuel buffer_length) message_handler buffer buffer_length 0 message in
      Ret (Some <$> r)
    end.
End message.

(** ** Reference forms *)
(** the [block_size] bytes of an entry; the object may be longer *)
Definition entry_data (e : WantlistEntry) : bytes := ztake (we_block_size e) (pderef (we_block e)).

Definition entry_wire (e : WantlistEntry) : bytes :=
  bytes_field 1 (entry_data e) ++ varint_field 2 (we_cancel e) ++ varint_field 3 (we_priority e).

Definition entry_ok (e : WantlistEntry) : Prop :=
  0 <= we_block_size e <= zlen (pderef (we_block e)) /\ 0 <= we_cancel e < 2 ^ 8 /\
  0 <= we_priority e < 2 ^ 32 /\ 33 + we_block_size e <= INT_MAX.

Definition entry_saved (e : WantlistEntry) : WantlistEntry :=
  mkWantlistEntry (Ptr (entry_data e)) (we_block_size e) (we_priority e) (we_cancel e).

(** the elements of a vector that may be NULL *)
Definition live_of {A} (v : option (vector A)) : list A := from_option live [] v.

Definition entries_size (l : list WantlistEntry) : Z :=
  foldr (fun e z => 33 + we_block_size e + z) 0 l.

Definition wantlist_size (w : BitswapWantlist) : Z := entries_size (live_of (wl_entries w)) + 34.

Definition wantlist_wire (w : BitswapWantlist) : bytes :=
  concat ((fun e => bytes_field 1 (entry_wire e)) <$> live_of (wl_entries w)) ++
  varint_field 2 (wl_full w).

Definition wantlist_ok (w : BitswapWantlist) : Prop :=
  match wl_entries w with
  | None => False
  | Some v => all_live v /\ Forall entry_ok (live v)
  end /\ 0 <= wl_full w < 2 ^ 8 /\ wantlist_size w <= INT_MAX.

Definition wantlist_saved (w : BitswapWantlist) : BitswapWantlist :=
  mkWantlist (pushed (Some <$> (entry_saved <$> live_of (wl_entries w)))) (wl_full w).

Lemma varint_bytes_le5 n : 0 <= n < 2 ^ 35 -> zlen (varint_bytes n) <= 5.
Proof.
  intros. rewrite varint_bytes_length by lia. unfold varint_encoding_length, N1, N2, N3, N4, N5.
  repeat case_match; lia.
Qed.

Lemma bytes_field_le6 f d : 0 <= f < 16 -> zlen d <= INT_MAX -> zlen (bytes_field f d) <= 6 + zlen d.
Proof.
  intros. zlen_facts. unfold INT_MAX in *. unfold bytes_field.
  rewrite !zlen_app, wire_key_length by auto with wire. pose proof (varint_bytes_le5 (zlen d)). lia.
Qed.

Lemma entry_wire_length e : entry_ok e -> 0 < zlen (entry_wire e) <= we_block_size e + 20.
Proof.
  intros (Hb & Hc & Hp & Hs). unfold entry_wire, varint_field. rewrite !zlen_app.
  rewrite !wire_key_length by auto with wire lia.
  assert (zlen (entry_data e) = we_block_size e) as Hd by (by apply zlen_take).
  pose proof (bytes_field_le6 1 (entry_data e) ltac:(lia) ltac:(lia)).
  pose proof (varint_bytes_le5 (we_cancel e) ltac:(lia)).
  pose proof (varint_bytes_le5 (we_priority e) ltac:(lia)).
  pose proof (varint_bytes_pos (we_cancel e)). zlen_facts. lia.
Qed.

Section proofs.
Context {M : Malloc}.

Lemma entry_size_eq e : entry_ok e ->
  ipfs_bitswap_wantlist_entry_protobuf_encode_size e = 33 + we_block_size e.
Proof.
  intros (Hb & _ & _ & Hs). unfold ipfs_bitswap_wantlist_entry_protobuf_encode_size, INT_MAX in *.
  zlen_facts. by rewrite u64_small by lia.
Qed.

Lemma entry_encode_emits e : entry_ok e ->
  emits (ipfs_bitswap_wantlist_entry_protobuf_encode (Some e)) (entry_wire e).
Proof.
  intros (Hb & Hc & Hp & _). apply (emits_continues (fun max => _)). intros max. unfold entry_wire, entry_data.
  rewrite <- (app_nil_r (varint_field 3 _)). auto 10 with wire lia.
Qed.

Lemma vector_sum_ok {A} (f : A -> res Z) (size : A -> Z) v total :
  all_live v -> Forall (fun x => f x = Ret (size x) /\ 0 <= size x) (live v) ->
  0 <= total -> total + foldr (fun x z => size x + z) 0 (live v) < 2 ^ 64 ->
  vector_sum f v total = Ret (total + foldr (fun x z => size x + z) 0 (live v)).
Proof.
  intros Hv Hf. unfold vector_sum. rewrite vector_each_items, Hv. clear Hv. revert total.
  induction Hf as [|x l [Hx Hx0] Hl IH]; intros total Ht Hb; simpl in *.
  - by rewrite Z.add_0_r.
  - assert (0 <= foldr (fun x z => size x + z) 0 l) as Hl0.
    { clear -Hl. induction Hl as [|y l [_ Hy] _ IHl]; simpl; lia. }
    rewrite Hx. cbn [rbind]. rewrite u64_small by lia. rewrite IH by lia. f_equal. lia.
Qed.

Lemma wantlist_encode_size_ok w : wantlist_ok w ->
  ipfs_bitswap_wantlist_protobuf_encode_size (Some w) = Ret (wantlist_size w).
Proof.
  intros (Hw & Hf & Hs). unfold ipfs_bitswap_wantlist_protobuf_encode_size, wantlist_size in *.
  destruct (wl_entries w) as [v|]; [|done]. simpl live_of in *. destruct Hw as [Hv He].
  unfold entries_size, INT_MAX in *.
  assert (0 <= foldr (fun e z => 33 + we_block_size e + z) 0 (live v)).
  { clear -He. induction He as [|e l (Hb & _) _ IH]; simpl; [done|]. zlen_facts. lia. }
  rewrite (vector_sum_ok _ (fun e => 33 + we_block_size e)); [|done| |lia|lia].
  - cbn [rbind]. rewrite u64_small by lia. f_equal; lia.
  - eapply Forall_impl; [exact He|]. intros e Hok. simpl. rewrite entry_size_eq by done.
    split; [done|]. destruct Hok as (Hb & _). zlen_facts. lia.
Qed.
Lemma foldr_nonneg {A} (size : A -> Z) l : Forall (fun x => 0 <= size x) l ->
  0 <= foldr (fun x z => size x + z) 0 l.
Proof. induction 1; simpl; lia. Qed.

Lemma foldr_elem_le {A} (size : A -> Z) x l :
  Forall (fun x => 11 <= size x) l -> x ∈ l -> size x <= foldr (fun x z => size x + z) 0 l.
Proof.
  induction 1 as [|y l Hy Hl IH]; [by intros ?%elem_of_nil|].
  pose proof (foldr_nonneg size l) as Hn.
  assert (0 <= foldr (fun x z => size x + z) 0 l).
  { apply Hn. eapply Forall_impl; [exact Hl|]. simpl. lia. }
  intros [->|Hin]%elem_of_cons; simpl; [lia|]. specialize (IH Hin). lia.
Qed.

(** a list of length-delimited fields fits when every element leaves room for its header *)
Lemma concat_fields_le {A} f (wire : A -> bytes) (size : A -> Z) l :
  Forall (fun x => zlen (bytes_field f (wire x)) <= size x) l ->
  zlen (concat ((fun x => bytes_field f (wire x)) <$> l)) <= foldr (fun x z => size x + z) 0 l.
Proof.
  induction 1 as [|x l Hx _ IH]; [done|]. rewrite fmap_cons. cbn [concat foldr]. rewrite zlen_app. lia.
Qed.

Lemma wantlist_wire_length w : wantlist_ok w -> 0 < zlen (wantlist_wire w) <= wantlist_size w.
Proof.
  intros (Hw & Hf & Hs). unfold wantlist_wire, wantlist_size in *. rewrite zlen_app.
  destruct (wl_entries w) as [v|]; [|done]. simpl live_of in *. destruct Hw as [Hv He].
  assert (zlen (concat ((fun e => bytes_field 1 (entry_wire e)) <$> live v)) <= entries_size (live v)).
  { apply (concat_fields_le 1 entry_wire (fun e => 33 + we_block_size e)).
    eapply Forall_impl; [exact He|]. intros e Hok. simpl.
    pose proof (entry_wire_length e Hok). pose proof Hok as (_ & _ & _ & Hm).
    pose proof (bytes_field_le6 1 (entry_wire e) ltac:(lia) ltac:(lia)). lia. }
  pose proof (varint_field_le 2 (wl_full w) ltac:(lia)). unfold varint_field in *.
  rewrite zlen_app in *. pose proof (wire_key_pos 2 WIRETYPE_VARINT). zlen_facts. lia.
Qed.

Context {Hm : MallocOk M}.

Lemma continues_each_of {A} (f : option A -> bytes -> Z -> encoded) g max v k ks :
  match v with None => True | Some v => all_live v end ->
  Forall (fun x => emits (f (Some x)) (g x)) (live_of v) -> continues k max ks ->
  continues (put_each f max (each_of v) k) max (concat (g <$> live_of v) ++ ks).
Proof.
  intros Hv Hf Hk. assert (each_of v = Some <$> live_of v) as ->.
  { destruct v as [v|]; [|done]. simpl. by rewrite vector_each_items, Hv. }
  replace (g <$> live_of v) with (from_option g [] <$> (Some <$> live_of v))
    by (by rewrite <- list_fmap_compose).
  apply continues_each; [|done]. by apply Forall_fmap.
Qed.

Lemma wantlist_encode_emits w : wantlist_ok w ->
  emits (ipfs_bitswap_wantlist_protobuf_encode (Some w)) (wantlist_wire w).
Proof.
  intros (Hw & Hf & Hs). unfold wantlist_wire, ipfs_bitswap_wantlist_protobuf_encode.
  destruct (wl_entries w) as [v|] eqn:Ev; [|done]. destruct Hw as [Hv He].
  apply (emits_continues (fun max => _)). intros max.
  rewrite <- (app_nil_r (varint_field 2 _)).
  apply (continues_each_of wantlist_entry_field (fun e => bytes_field 1 (entry_wire e)) max (Some v));
    [done| |auto with wire lia].
  eapply Forall_impl; [exact He|]. intros e Hok buf m. simpl.
  rewrite entry_size_eq by done. pose proof (entry_wire_length e Hok). pose proof Hok as (_ & _ & _ & Hm').
  apply encode_nested_malloc_emits; [apply malloc_always|auto with wire|by apply entry_encode_emits|lia].
Qed.

(** *** Decoding *)
Lemma entry_parses e : entry_ok e -> parses entry_handler (entry_wire e) entry_uninit (entry_saved e).
Proof.
  intros (Hb & Hc & Hp & Hs). unfold entry_wire, entry_saved.
  assert (zlen (entry_data e) = we_block_size e) as <- by (by apply zlen_take).
  rewrite <- (u32_small (we_priority e)) at 2 by lia.
  eapply parses_app; [apply parses_bytes; [auto with wire|by solve_handles entry_handler]|].
  eapply parses_app; [apply parses_varint; [auto with wire|solve_handles entry_handler; reflexivity]|].
  rewrite u8_small by lia.
  apply parses_varint; [auto with wire|by solve_handles entry_handler].
Qed.

Lemma entry_decode_all e : entry_ok e ->
  ipfs_bitswap_wantlist_entry_protobuf_decode (entry_wire e) (zlen (entry_wire e)) =
    Ret (Some (Some (entry_saved e))).
Proof.
  intros Hok. pose proof (entry_wire_length e Hok). pose proof Hok as (_ & _ & _ & Hs).
  unfold ipfs_bitswap_wantlist_entry_protobuf_decode. zbool. rewrite malloc_always.
  pose proof (parses_decode _ _ [] _ _ (entry_parses e Hok) ltac:(lia)) as Hd.
  rewrite app_nil_r in Hd. by rewrite Hd.
Qed.

Lemma vector_push_ok {A} (l : list (option A)) x : zlen l < 2 ^ 30 ->
  vector_push (pushed l) x = Ret (vector_of (l ++ [x])).
Proof.
  intros Hl. unfold vector_push. destruct l as [|y l]; cbn [pushed].
  - rewrite vector_new_of. cbn [rbind]. rewrite vector_add_of by done. done.
  - cbn [rbind]. by rewrite vector_add_of.
Qed.
Lemma pushed_snoc {A} (l : list (option A)) x : pushed (l ++ [x]) = Some (vector_of (l ++ [x])).
Proof. by destruct l. Qed.

(** the number of elements is bounded by the size estimate *)
Lemma sum_length_le {A} (size : A -> Z) c l : Forall (fun x => c <= size x) l ->
  c * zlen l <= foldr (fun x z => size x + z) 0 l.
Proof. induction 1; simpl; [unfold zlen; simpl; lia|]. rewrite zlen_cons. lia. Qed.

(** a repeated field whose elements a decoder pushes to a vector: [F v] is the
    state in which the vector is [v] *)
Lemma parses_pushes {S A B} (h : handler S) f (wire : A -> bytes) (saved : A -> B)
    (F : option (vector B) -> S) l :
  field_ok f -> zlen l < 2 ^ 30 ->
  (forall x v rest rem, x ∈ l -> zlen (varint_bytes (zlen (wire x)) ++ wire x) <= rem <= INT_MAX ->
     h f ((varint_bytes (zlen (wire x)) ++ wire x) ++ rest) rem (F v) =
       let! w := vector_push v (Some (saved x)) in
       Ret (Some (F (Some w), zlen (varint_bytes (zlen (wire x)) ++ wire x)))) ->
  parses h (concat ((fun x => bytes_field f (wire x)) <$> l)) (F None)
    (F (pushed (Some <$> (saved <$> l)))).
Proof.
  intros Hf Hl Hh. set (G := fun pre => F (pushed (Some <$> (saved <$> pre)))).
  change (F None) with (G []). change (F (pushed _)) with (G l).
  apply (parses_list h (fun x => bytes_field f (wire x)) G l). unfold G.
  intros pre x post Hpre. apply parses_bytes; [done|]. intros rest rem Hr.
  rewrite Hh by (done || (rewrite Hpre; apply elem_of_app; right; apply list_elem_of_here)).
  rewrite vector_push_ok.
  - cbn [rbind]. rewrite !fmap_app. change (Some <$> (saved <$> [x])) with [Some (saved x)].
    by rewrite pushed_snoc.
  - unfold zlen. rewrite !length_fmap. fold (zlen pre). rewrite Hpre, zlen_app, zlen_cons in Hl.
    zlen_facts. lia.
Qed.

Lemma entries_length l : Forall entry_ok l -> entries_size l <= INT_MAX -> zlen l < 2 ^ 30.
Proof.
  intros Hl Hs. pose proof (sum_length_le (fun e => 33 + we_block_size e) 33 l) as Hc.
  unfold entries_size, INT_MAX in *. zlen_facts.
  enough (33 * zlen l <= 2 ^ 31 - 1) by lia. etransitivity; [apply Hc|exact Hs].
  eapply Forall_impl; [exact Hl|]. intros e (Hb & _). simpl. zlen_facts. lia.
Qed.

Lemma entries_parse l full : Forall entry_ok l -> entries_size l <= INT_MAX ->
  parses wantlist_handler (concat ((fun e => bytes_field 1 (entry_wire e)) <$> l))
    (mkWantlist None full) (mkWantlist (pushed (Some <$> (entry_saved <$> l))) full).
Proof.
  intros Hl Hs.
  apply (parses_pushes wantlist_handler 1 entry_wire entry_saved (fun v => mkWantlist v full) l);
    [auto with wire|by apply entries_length|].
  intros e v rest rem He Hr. rewrite Forall_forall in Hl.
  unfold wantlist_handler. zbool. rewrite decode_bytes_payload by done. cbn [rbind].
  by rewrite entry_decode_all by auto.
Qed.

Lemma wantlist_decode_all w : wantlist_ok w ->
  ipfs_bitswap_wantlist_protobuf_decode (wantlist_wire w) (zlen (wantlist_wire w)) =
    Ret (Some (Some (wantlist_saved w))).
Proof.
  intros Hok. pose proof (wantlist_wire_length w Hok). pose proof Hok as (Hw & Hf & Hs).
  unfold ipfs_bitswap_wantlist_protobuf_decode, ipfs_bitswap_wantlist_new. zbool. rewrite malloc_always.
  assert (parses wantlist_handler (wantlist_wire w) (mkWantlist None 1) (wantlist_saved w)) as Hp.
  { unfold wantlist_wire, wantlist_saved, wantlist_size in *.
    destruct (wl_entries w) as [v|]; [|done]. simpl live_of in *. destruct Hw as [Hv He].
    eapply parses_app; [apply entries_parse; [done|lia]|].
    rewrite <- (u8_small (wl_full w)) at 2 by lia.
    apply parses_varint; [auto with wire|by solve_handles wantlist_handler]. }
  pose proof (parses_decode _ _ [] _ _ Hp ltac:(lia)) as Hd.
  rewrite app_nil_r in Hd. by rewrite Hd.
Qed.

(** *** The whole message *)
(** a bitswap 1.0 block travels as its bytes only *)
Definition raw_saved (b : Block) : Block := mkBlock None (Some (block_payload b)) (block_data_length b).

Definition blocks_size (l : list Block) : Z :=
  foldr (fun b z => 11 + block_data_length b + z) 0 l.
Definition payload_size (l : list Block) : Z :=
  foldr (fun b z => 11 + ipfs_blocks_block_protobuf_encode_size b + z) 0 l.

Definition message_size (m : BitswapMessage) : Z :=
  blocks_size (live_of (bm_blocks m)) + payload_size (live_of (bm_payload m)) +
  from_option wantlist_size 0 (bm_wantlist m) + 34.

Definition all_live_of {A} (v : option (vector A)) : Prop :=
  match v with None => True | Some v => all_live v end.

Definition message_ok (m : BitswapMessage) : Prop :=
  all_live_of (bm_blocks m) /\ Forall payload_ok (live_of (bm_blocks m)) /\
  all_live_of (bm_payload m) /\ Forall block_ok (live_of (bm_payload m)) /\
  from_option wantlist_ok True (bm_wantlist m) /\ message_size m <= INT_MAX.

Definition message_wire (m : BitswapMessage) : bytes :=
  concat ((fun b => bytes_field 1 (block_payload b)) <$> live_of (bm_blocks m)) ++
  concat ((fun b => bytes_field 2 (block_wire b)) <$> live_of (bm_payload m)) ++
  match bm_wantlist m with Some w => bytes_field 3 (wantlist_wire w) | None => [] end.

Definition message_saved (m : BitswapMessage) : BitswapMessage :=
  mkMessage (wantlist_saved <$> bm_wantlist m)
    (pushed (Some <$> (raw_saved <$> live_of (bm_blocks m))))
    (pushed (Some <$> (block_saved <$> live_of (bm_payload m)))).

Lemma wantlist_size_pos w : wantlist_ok w -> 34 <= wantlist_size w.
Proof.
  intros (Hw & _). unfold wantlist_size, entries_size. destruct (wl_entries w) as [v|]; [|done].
  destruct Hw as [_ He]. simpl live_of.
  pose proof (foldr_nonneg (fun e => 33 + we_block_size e) (live v)) as Hn.
  enough (0 <= foldr (fun e z => 33 + we_block_size e + z) 0 (live v)) by lia.
  apply Hn. eapply Forall_impl; [exact He|]. intros e (Hb & _). simpl. zlen_facts. lia.
Qed.

Lemma raw_sizes l : Forall payload_ok l -> Forall (fun b => 11 <= 11 + block_data_length b) l.
Proof. intros Hl. eapply Forall_impl; [exact Hl|]. intros b Hb. unfold payload_ok in Hb. zlen_facts. lia. Qed.
Lemma block_sizes l : Forall block_ok l ->
  Forall (fun b => 11 <= 11 + ipfs_blocks_block_protobuf_encode_size b) l.
Proof.
  intros Hl. eapply Forall_impl; [exact Hl|]. intros b Hb. pose proof (block_size_ok b Hb).
  zlen_facts. lia.
Qed.

(** the four parts of the size estimate *)
Lemma message_size_parts m : message_ok m ->
  11 * zlen (live_of (bm_blocks m)) <= blocks_size (live_of (bm_blocks m)) /\
  11 * zlen (live_of (bm_payload m)) <= payload_size (live_of (bm_payload m)) /\
  0 <= from_option wantlist_size 0 (bm_wantlist m).
Proof.
  intros (_ & Hb & _ & Hp & Hw & _). split_and!.
  - apply (sum_length_le (fun b => 11 + block_data_length b)), raw_sizes, Hb.
  - apply (sum_length_le (fun b => 11 + ipfs_blocks_block_protobuf_encode_size b)), block_sizes, Hp.
  - destruct (bm_wantlist m) as [w|]; simpl in *; [|lia]. pose proof (wantlist_size_pos w Hw). lia.
Qed.

Lemma optional_sum_ok {A} (f : A -> Z) (size : A -> Z) v total :
  all_live_of v -> Forall (fun x => u64 (f x) = size x /\ 0 <= size x) (live_of v) ->
  0 <= total -> total + foldr (fun x z => size x + z) 0 (live_of v) < 2 ^ 64 ->
  match v with None => Ret total | Some v => vector_sum (fun x => Ret (u64 (f x))) v total end =
    Ret (total + foldr (fun x z => size x + z) 0 (live_of v)).
Proof.
  destruct v as [v|]; simpl; intros Hv Hf Ht Hb; [|by rewrite Z.add_0_r].
  apply vector_sum_ok; try done. eapply Forall_impl; [exact Hf|]. intros x [-> ?]. done.
Qed.

Lemma message_encode_size_ok m : message_ok m ->
  ipfs_bitswap_message_protobuf_encode_size (Some m) = Ret (message_size m).
Proof.
  intros Hok. pose proof (message_size_parts m Hok) as (H1 & H2 & H3).
  destruct Hok as (Hlb & Hb & Hlp & Hp & Hw & Hs). unfold message_size, INT_MAX in *.
  unfold blocks_size, payload_size in *. zlen_facts.
  unfold ipfs_bitswap_message_protobuf_encode_size.
  rewrite (optional_sum_ok (fun b => 11 + block_data_length b) (fun b => 11 + block_data_length b));
    [|done| |lia|lia].
  2:{ apply Forall_forall. intros b Hin.
      pose proof (foldr_elem_le _ b _ (raw_sizes _ Hb) Hin) as Hle. simpl in Hle.
      rewrite Forall_forall in Hb. specialize (Hb b Hin). unfold payload_ok in Hb. zlen_facts.
      rewrite u64_small by lia. lia. }
  cbn [rbind].
  rewrite (optional_sum_ok (fun b => 11 + ipfs_blocks_block_protobuf_encode_size b)
            (fun b => 11 + ipfs_blocks_block_protobuf_encode_size b)); [|done| |lia|lia].
  2:{ eapply Forall_impl; [exact Hp|]. intros b Hbok. pose proof (block_size_ok b Hbok).
      unfold INT_MAX in *. zlen_facts. rewrite u64_small by lia. lia. }
  cbn [rbind]. destruct (bm_wantlist m) as [w|]; cbn [from_option] in *.
  - rewrite wantlist_encode_size_ok by done. cbn [rbind].
    rewrite (u64_small (_ + wantlist_size w)) by lia. rewrite u64_small by lia. f_equal; lia.
  - cbn [rbind]. rewrite u64_small by lia. f_equal; lia.
Qed.

Lemma message_wire_length m : message_ok m -> zlen (message_wire m) <= message_size m.
Proof.
  intros Hok. destruct Hok as (Hlb & Hb & Hlp & Hp & Hw & Hs). unfold message_wire, message_size in *.
  rewrite !zlen_app.
  assert (zlen (concat ((fun b => bytes_field 1 (block_payload b)) <$> live_of (bm_blocks m)))
          <= blocks_size (live_of (bm_blocks m))).
  { apply (concat_fields_le 1 block_payload (fun b => 11 + block_data_length b)).
    eapply Forall_impl; [exact Hb|]. intros b Hbok. simpl. rewrite <- (block_payload_length b) by done. apply bytes_field_le. lia. }
  assert (zlen (concat ((fun b => bytes_field 2 (block_wire b)) <$> live_of (bm_payload m)))
          <= payload_size (live_of (bm_payload m))).
  { apply (concat_fields_le 2 block_wire (fun b => 11 + ipfs_blocks_block_protobuf_encode_size b)).
    eapply Forall_impl; [exact Hp|]. intros b Hbok. simpl. pose proof (block_size_ok b Hbok).
    pose proof (bytes_field_le 2 (block_wire b) ltac:(lia)). lia. }
  destruct (bm_wantlist m) as [w|]; cbn [from_option] in *; [|rewrite zlen_nil; lia].
  pose proof (wantlist_wire_length w Hw). pose proof (bytes_field_le 3 (wantlist_wire w) ltac:(lia)). lia.
Qed.

Lemma message_encode_emits m : message_ok m ->
  emits (ipfs_bitswap_message_protobuf_encode (Some m)) (message_wire m).
Proof.
  intros Hok. destruct Hok as (Hlb & Hb & Hlp & Hp & Hw & Hs).
  apply (emits_continues (fun max => _)). intros max. unfold message_wire.
  apply continues_each_of; [done| |apply continues_each_of; [done| |]].
  - eapply Forall_impl; [exact Hb|]. intros b Hbok. simpl. apply encode_prefix_field_emits; [auto with wire|done].
  - eapply Forall_impl; [exact Hp|]. intros b Hbok. simpl.
    exact (codec_nested_malloc_emits 2 b ltac:(auto with wire) Hbok).
  - destruct (bm_wantlist m) as [w|]; cbn [from_option] in *; [|apply continues_done].
    rewrite <- (app_nil_r (bytes_field 3 _)). apply continues_put; [|apply continues_done].
    intros buf mx. unfold wantlist_field. rewrite wantlist_encode_size_ok by done. cbn [rbind].
    pose proof (wantlist_wire_length w Hw). pose proof Hw as (_ & _ & Hws).
    apply encode_nested_malloc_emits; [apply malloc_always|auto with wire|by apply wantlist_encode_emits|lia].
Qed.

Lemma block_decode_all b : block_ok b ->
  ipfs_blocks_block_protobuf_decode (block_wire b) (zlen (block_wire b)) = Ret (Some (block_saved b)).
Proof. exact (codec_decode_all b). Qed.

Lemma message_parses m : message_ok m ->
  parses message_handler (message_wire m) (mkMessage None None None) (message_saved m).
Proof.
  intros Hok. pose proof (message_size_parts m Hok) as (H1 & H2 & H3).
  destruct Hok as (Hlb & Hb & Hlp & Hp & Hw & Hs). unfold message_size, INT_MAX in *. zlen_facts.
  unfold message_wire, message_saved.
  eapply parses_app; [apply (parses_pushes message_handler 1 block_payload raw_saved
    (fun v => mkMessage None v None) (live_of (bm_blocks m))); [auto with wire|lia|]|].
  { intros b v rest rem Hin Hr. unfold message_handler, ipfs_block_new. zbool.
    rewrite malloc_always, decode_bytes_payload by done. cbn [rbind].
    rewrite Forall_forall in Hb. specialize (Hb b Hin). unfold raw_saved. by rewrite <- (block_payload_length b) by done. }
  eapply parses_app; [apply (parses_pushes message_handler 2 block_wire block_saved
    (fun v => mkMessage None _ v) (live_of (bm_payload m))); [auto with wire|lia|]|].
  { intros b v rest rem Hin Hr. unfold message_handler. zbool.
    rewrite decode_bytes_payload by done. cbn [rbind]. rewrite Forall_forall in Hp.
    by rewrite block_decode_all by auto. }
  destruct (bm_wantlist m) as [w|]; cbn [from_option fmap option_fmap option_map] in *; [|apply parses_nil].
  apply parses_bytes; [auto with wire|]. solve_handles message_handler. by rewrite wantlist_decode_all.
Qed.

(** *** Termination *)
Lemma fmap_total {A B} (f : A -> B) (m : res (option A)) :
  m <> NoFuel -> (let! r := m in Ret (f <$> r)) <> NoFuel.
Proof. by destruct m. Qed.

Lemma entry_handler_forward : forward entry_handler.
Proof.
  intros f p rem st Hp. unfold entry_handler.
  destruct (f =? 1); [solve_advances Hp|]. destruct (f =? 2); [solve_advances Hp|].
  destruct (f =? 3); solve_advances Hp.
Qed.
Lemma entry_decode_total buf n : zlen buf < 2 ^ 63 ->
  ipfs_bitswap_wantlist_entry_protobuf_decode buf n <> NoFuel.
Proof.
  intros Hb. unfold ipfs_bitswap_wantlist_entry_protobuf_decode. destruct (_ =? _); [done|].
  rewrite malloc_always. by apply fmap_total, decode_fields_terminates; [apply entry_handler_forward|].
Qed.

Lemma vector_push_total {A} v (x : option A) : vector_push v x <> NoFuel.
Proof.
  unfold vector_push. apply rbind_total; [destruct v; [done|apply vector_new_total]|].
  intros w _. apply rbind_total; [apply vector_add_total|]. by intros [? ?] _.
Qed.

Lemma wantlist_handler_forward : forward wantlist_handler.
Proof.
  intros f p rem st Hp. unfold wantlist_handler.
  destruct (f =? 1); [|destruct (f =? 2); solve_advances Hp].
  solve_advances Hp. intros Hn.
  pose proof (entry_decode_total l (zlen l) ltac:(lia)) as Ht. revert Ht.
  destruct (ipfs_bitswap_wantlist_entry_protobuf_decode _ _) as [[e|]| | |]; cbn [rbind]; try done.
  pose proof (vector_push_total (wl_entries st) e) as Ht. revert Ht.
  by destruct (vector_push _ _).
Qed.
Lemma wantlist_decode_total buf n : zlen buf < 2 ^ 63 ->
  ipfs_bitswap_wantlist_protobuf_decode buf n <> NoFuel.
Proof.
  intros Hb. unfold ipfs_bitswap_wantlist_protobuf_decode, ipfs_bitswap_wantlist_new.
  destruct (_ =? _); [done|]. rewrite malloc_always.
  by apply fmap_total, decode_fields_terminates; [apply wantlist_handler_forward|].
Qed.

Lemma message_handler_forward : forward message_handler.
Proof.
  intros f p rem st Hp. unfold message_handler, ipfs_block_new.
  destruct (f =? 1); [|destruct (f =? 2); [|destruct (f =? 3); [|solve_advances Hp]]].
  - rewrite malloc_always. solve_advances Hp. intros Hn.
    pose proof (vector_push_total (bm_blocks st) (Some (mkBlock None (Some l) (zlen l)))) as Ht. revert Ht.
    by destruct (vector_push _ _).
  - solve_advances Hp. intros Hn.
    pose proof (block_decode_total l (zlen l) ltac:(lia)) as Ht. revert Ht.
    destruct (ipfs_blocks_block_protobuf_decode _ _) as [[b|]| | |]; cbn [rbind]; try done.
    pose proof (vector_push_total (bm_payload st) (Some b)) as Ht. revert Ht.
    by destruct (vector_push _ _).
  - solve_advances Hp. intros Hn.
    pose proof (wantlist_decode_total l (zlen l) ltac:(lia)) as Ht. revert Ht.
    by destruct (ipfs_bitswap_wantlist_protobuf_decode _ _) as [[w|]| | |].
Qed.
End proofs.

(** ** Properties *)

(** Property C3. A bitswap message (raw blocks, blocks with their CIDs, wantlist)
    is encoded inside a buffer of [ipfs_bitswap_message_protobuf_encode_size]
    bytes, and decoding what was written gives back all its elements in order;
    a message with nothing in it is written as no bytes and read as NULL. *)
Theorem message_encode_decode {M : Malloc} {Hm : MallocOk M} (m : BitswapMessage) (buf : bytes) :
  message_ok m -> ipfs_bitswap_message_protobuf_encode_size (Some m) = Ret (zlen buf) ->
  exists n buf', ipfs_bitswap_message_protobuf_encode (Some m) buf (zlen buf) = Ret ((1, n), buf') /\
    n <= zlen buf' /\ zlen buf' = zlen buf /\
    ipfs_bitswap_message_protobuf_decode buf' n =
      Ret (Some (if n =? 0 then None else Some (message_saved m))).
Proof.
  intros Hok Hb. rewrite message_encode_size_ok in Hb by done. injection Hb as Hb.
  pose proof (message_wire_length m Hok). pose proof Hok as (_ & _ & _ & _ & _ & Hs). zlen_facts.
  eexists _, _. split; [apply message_encode_emits; (done || lia)|].
  rewrite zlen_app, zlen_drop by lia. split; [lia|]. split; [lia|].
  unfold ipfs_bitswap_message_protobuf_decode, ipfs_bitswap_message_new.
  destruct (_ =? 0); [done|]. rewrite malloc_always.
  by rewrite (parses_decode _ _ _ _ _ (message_parses m Hok)) by lia.
Qed.

Definition sample_entry : WantlistEntry := mkWantlistEntry (Ptr [1; 2; 3]) 3 1 0.
Definition sample_message : BitswapMessage :=
  mkMessage (Some (mkWantlist (Some (mkVector 2 2 [Some sample_entry; Some sample_entry])) 1))
    (Some (mkVector 1 1 [Some (mkBlock None (Some [7; 7]) 2)]))
    (Some (mkVector 4 4 [Some sample_block])).

Lemma sample_message_ok : message_ok sample_message.
Proof.
  unfold message_ok. cbn -[zlen Z.pow block_ok].
  assert (entry_ok sample_entry) by (unfold entry_ok; cbn -[zlen Z.pow]; split_and!; done).
  split_and!; try done; repeat (apply Forall_cons_2 || apply Forall_nil_2); try done.
  - apply sample_block_ok.
  - unfold wantlist_ok. cbn -[zlen Z.pow]. split_and!; try done.
    unfold live. simpl. repeat (apply Forall_cons_2 || apply Forall_nil_2); done.
Qed.

Lemma message_encode_decode_witness :
  let M := malloc_total in
  exists n buf', ipfs_bitswap_message_protobuf_encode (Some sample_message) (replicate 227%nat 0) 227 = Ret ((1, n), buf') /\
    n <= zlen buf' /\ zlen buf' = 227 /\
    ipfs_bitswap_message_protobuf_decode buf' n =
      Ret (Some (if n =? 0 then None else Some (message_saved sample_message))).
Proof.
  intros M. apply (message_encode_decode sample_message (replicate 227%nat 0)).
  - apply sample_message_ok.
  - vm_compute. reflexivity.
Defined.

(** Decoding a bitswap message terminates on every input, including
    the nested blocks, CIDs, wantlists and entries. *)
Lemma message_decode_terminates {M : Malloc} {Hm : MallocOk M} (buf : bytes) (n : Z) :
  zlen buf < 2 ^ 63 -> ipfs_bitswap_message_protobuf_decode buf n <> NoFuel.
Proof.
  intros Hb. unfold ipfs_bitswap_message_protobuf_decode, ipfs_bitswap_message_new.
  destruct (_ =? _); [done|]. rewrite malloc_always.
  by apply fmap_total, decode_fields_terminates; [apply message_handler_forward|].
Qed.

(** Two wantlists a peer can send make the encoder dereference NULL
    when they are measured or encoded again: one with no entry at all (the
    vector is created with the first entry), and one that contains an empty
    entry (decoded as a NULL element). *)
Lemma received_wantlist_undefined {M : Malloc} {Hm : MallocOk M} (full : Z) :
  0 <= full < 256 ->
  let no_entry := varint_field 2 full in
  let empty_entry := bytes_field 1 [] ++ varint_field 2 full in
  exists w1 w2,
    ipfs_bitswap_wantlist_protobuf_decode no_entry (zlen no_entry) = Ret (Some (Some w1)) /\
    ipfs_bitswap_wantlist_protobuf_decode empty_entry (zlen empty_entry) = Ret (Some (Some w2)) /\
    ipfs_bitswap_wantlist_protobuf_encode_size (Some w1) = UB /\
    ipfs_bitswap_wantlist_protobuf_encode_size (Some w2) = UB.
Proof.
  intros Hf no_entry empty_entry.
  assert (forall entries, parses wantlist_handler (varint_field 2 full) (mkWantlist entries 1)
            (mkWantlist entries (u8 full))) as Hp.
  { intros entries. apply parses_varint; [auto with wire|]. by solve_handles wantlist_handler. }
  assert (zlen no_entry <= 11) by (apply varint_field_le; lia).
  assert (0 < zlen no_entry).
  { unfold no_entry, varint_field. rewrite zlen_app. pose proof (wire_key_pos 2 WIRETYPE_VARINT). zlen_facts. lia. }
  assert (zlen empty_entry = 2 + zlen no_entry) as Hl by (unfold empty_entry; by rewrite zlen_app).
  exists (mkWantlist None (u8 full)), (mkWantlist (Some (vector_of [None])) (u8 full)).
  unfold ipfs_bitswap_wantlist_protobuf_decode, ipfs_bitswap_wantlist_new. zbool. rewrite malloc_always.
  split_and!; try done.
  - pose proof (parses_decode _ _ [] _ _ (Hp None) ltac:(unfold INT_MAX; fold no_entry; lia)) as Hd.
    rewrite app_nil_r in Hd. fold no_entry in Hd. by rewrite Hd.
  - assert (parses wantlist_handler empty_entry (mkWantlist None 1)
              (mkWantlist (Some (vector_of [None])) (u8 full))) as Hp2.
    { eapply parses_app; [|apply Hp]. apply parses_bytes; [auto with wire|].
      solve_handles wantlist_handler. cbn [rbind wl_entries].
      change (ipfs_bitswap_wantlist_entry_protobuf_decode [] (zlen [])) with
        (Ret (Some (@None WantlistEntry))). cbn [rbind].
      pose proof (vector_push_ok (A := WantlistEntry) [] None eq_refl) as Hv.
      cbn [pushed app] in Hv. cbn [wl_entries]. by rewrite Hv. }
    pose proof (parses_decode _ _ [] _ _ Hp2 ltac:(unfold INT_MAX; lia)) as Hd.
    rewrite app_nil_r in Hd. by rewrite Hd.
Qed.

(** one turn of the loop at a one-byte key, when the handler does not move *)
Lemma bitswap_block_step {M : Malloc} pre k post len st st' fuel :
  0 <= k < 128 -> zlen pre + 1 <= len <= INT_MAX ->
  bitswap_block_handler (k / 8) post (len - (zlen pre + 1)) st = Ret (Some (st', 0)) ->
  decode_fields (S fuel) bitswap_block_handler (pre ++ k :: post) len (zlen pre) st =
  decode_fields fuel bitswap_block_handler ((pre ++ [k]) ++ post) len (zlen (pre ++ [k])) st'.
Proof.
  intros Hk Hl Hh. cbn [decode_fields]. zlen_facts. zbool. rewrite padd_app by done. cbn [rbind].
  pose proof (Z.div_mod k 8 ltac:(lia)) as Hdm. pose proof (Z.mod_pos_bound k 8 ltac:(lia)).
  assert (wire_key (k / 8) (k mod 8) = [k]) as Hkey.
  { unfold wire_key. replace (k / 8 * 8 + k mod 8) with k by lia. by apply varint_bytes_small. }
  pose proof (decode_field_and_type_key (k / 8) (k mod 8) post len) as Hd.
  rewrite Hkey in Hd. change (zlen [k]) with 1 in Hd. cbn [app] in Hd.
  rewrite s32_len, Hd by (unfold field_ok, wt_ok; lia). cbn [rbind]. unfold INT_MAX in *.
  rewrite (u64_small (zlen pre + 1)) by lia.
  replace (pre ++ k :: post) with ((pre ++ [k]) ++ post) by (by rewrite <- app_assoc).
  rewrite padd_app by (by rewrite zlen_app). cbn [rbind].
  rewrite (u64_small (len - _)), Hh by lia. cbn [rbind].
  rewrite zlen_app, Z.add_0_r, u64_small by lia. done.
Qed.

Lemma bitswap_block_skip {M : Malloc} d pre post len st fuel :
  Forall (fun b => 0 <= b < 8) d -> zlen pre + zlen d <= len <= INT_MAX ->
  decode_fields (length d + fuel) bitswap_block_handler (pre ++ d ++ post) len (zlen pre) st =
  decode_fields fuel bitswap_block_handler ((pre ++ d) ++ post) len (zlen (pre ++ d)) st.
Proof.
  intros Hd. revert pre. induction Hd as [|k d Hk Hd IH]; intros pre Hl.
  - by rewrite app_nil_r.
  - rewrite zlen_cons in Hl. zlen_facts. cbn [length Nat.add app].
    rewrite (bitswap_block_step _ _ _ _ _ st) by (try lia; by rewrite Z.div_small by lia).
    rewrite IH by (rewrite zlen_app, zlen_cons, zlen_nil; lia). by rewrite <- !app_assoc.
Qed.

Lemma bitswap_block_value {M : Malloc} {Hm : MallocOk M} c rest rem :
  0 <= c < 128 -> c <= zlen rest -> 1 <= rem <= INT_MAX ->
  protobuf_decode_length_delimited (c :: rest) rem = Ret (Some (ztake c rest, 1 + c)).
Proof.
  intros Hc Hr Hrem. unfold protobuf_decode_length_delimited.
  pose proof (varint_decode_bytes c rest (s32 rem) ltac:(lia)) as Hv.
  rewrite varint_bytes_small in Hv by lia. cbn [app] in Hv. change (zlen [c]) with 1 in Hv.
  rewrite Hv by (rewrite s32_len; lia). cbn [rbind]. rewrite malloc_always.
  change (c :: rest) with ([c] ++ rest). rewrite padd_app by done. cbn [rbind].
  rewrite memrd_ok by lia. cbn [rbind]. by rewrite u64_small by lia.
Qed.

(** [ipfs_bitswap_message_block_protobuf_decode] never steps over a
    field's value: the bytes of a [BitswapBlock] are read again as field keys.
    A block with no prefix whose data ends in [12 00] (hexadecimal) comes back
    with no data at all, although encoding and decoding both return 1. *)
Lemma bitswap_block_decode_wrong {M : Malloc} {Hm : MallocOk M} (d : bytes) :
  Forall (fun b => 0 <= b < 8) d -> zlen d <= 5 ->
  let b := mkBitswapBlock Null 0 (Ptr (d ++ [18; 0])) (zlen d + 2) in
  let wire := bytes_field 1 [] ++ bytes_field 2 (d ++ [18; 0]) in
  emits (ipfs_bitswap_message_block_protobuf_encode (Some b)) wire /\
  ipfs_bitswap_message_block_protobuf_decode wire (zlen wire) =
    Ret (Some (Some (mkBitswapBlock (Ptr []) 0 (Ptr []) 0))).
Proof.
  intros Hd Hl b wire. split.
  - apply (emits_continues (fun max => _)). intros max. unfold wire.
    rewrite <- (app_nil_r (bytes_field 2 _)).
    apply continues_put; [|apply continues_put; [|apply continues_done]].
    + apply encode_bytes_field_emits; [auto with wire|done].
    + apply encode_bytes_field_emits; [auto with wire|]. unfold b. cbn [bb_bytes bb_bytes_size pderef]. by rewrite zlen_app.
  - pose proof (zlen_nonneg d). set (n := zlen d + 2).
    assert (wire = [10; 0; 18; n] ++ d ++ [18; 0]) as ->.
    { unfold wire, bytes_field. rewrite zlen_app. change (zlen [18; 0]) with 2. fold n.
      by rewrite (varint_bytes_small n) by lia. }
    assert (zlen ([10; 0; 18; n] ++ d ++ [18; 0]) = 6 + zlen d) as -> by zlia.
    unfold ipfs_bitswap_message_block_protobuf_decode. zbool. rewrite malloc_always.
    replace (decode_fuel (6 + zlen d)) with (4 + (length d + 3))%nat
      by (unfold decode_fuel, zlen; lia).
    assert (6 + zlen d <= INT_MAX) as Hmax by (unfold INT_MAX; lia).
    set (st1 := mkBitswapBlock (Ptr []) 0 Wild (uninit_uint 64)).
    set (st2 := mkBitswapBlock (Ptr []) 0 (Ptr (d ++ [18; 0])) n).
    set (st3 := mkBitswapBlock (Ptr []) 0 (Ptr []) 0).
    assert (forall rest rem st, 1 <= rem <= INT_MAX -> 0 <= zlen rest ->
      bitswap_block_handler 2 (0 :: rest) rem st =
        Ret (Some (mkBitswapBlock (bb_prefix st) (bb_prefix_size st) (Ptr []) 0, 0))) as Hz.
    { intros rest rem st Hr _. unfold bitswap_block_handler. zbool.
      by rewrite bitswap_block_value by (zlen_facts; lia). }
    cbn [Nat.add app].
    etransitivity; [apply (f_equal (fun r => rbind r _)), (bitswap_block_step [] 10 _ _ _ st1); [lia|zlia|]|].
    { change (10 / 8) with 1. unfold bitswap_block_handler. zbool.
      by rewrite bitswap_block_value by (zlia). }
    etransitivity; [apply (f_equal (fun r => rbind r _)), (bitswap_block_step [10] 0 _ _ _ st1); [lia|zlia|done]|].
    etransitivity; [apply (f_equal (fun r => rbind r _)), (bitswap_block_step [10; 0] 18 _ _ _ st2); [lia|zlia|]|].
    { change (18 / 8) with 2. unfold bitswap_block_handler. zbool.
      rewrite bitswap_block_value by (zlia). cbn [rbind].
      rewrite (ztake_all n) by zlia. by rewrite zlen_app. }
    etransitivity; [apply (f_equal (fun r => rbind r _)), (bitswap_block_step [10; 0; 18] n _ _ _ st2); [lia|zlia|]|].
    { by rewrite Z.div_small by lia. }
    etransitivity; [apply (f_equal (fun r => rbind r _)), (bitswap_block_skip d [10; 0; 18; n] [18; 0]); [done|zlia]|].
    etransitivity; [apply (f_equal (fun r => rbind r _)), (bitswap_block_step ([10; 0; 18; n] ++ d) 18 [0] _ _ st3); [lia|zlia|]|].
    { change (18 / 8) with 2. by rewrite Hz by (zlia). }
    etransitivity; [apply (f_equal (fun r => rbind r _)), (bitswap_block_step (([10; 0; 18; n] ++ d) ++ [18]) 0 [] _ _ st3); [lia|zlia|done]|].
    cbn [decode_fields]. rewrite !zlen_app. change (zlen [_; _; _; _]) with 4. change (zlen [_]) with 1. by zbool.
Qed.
