(* ===== verification/BitswapFill.v ===== *)
(** * Filling an outgoing bitswap message (libipfs/exchange/bitswap/message.c)

    The three functions that move a peer's pending requests and blocks into the
    next message: the wants that were not sent yet, the blocks that are ready,
    and the cancellation of what was delivered. *)
From S2P Require Import Prelude Varint Protobuf Multihash Cid Block Vector BitswapMessage.

Section fill.
Context {M : Malloc}.

(** the elements of a vector of [CidEntry] are owned by the vector, so an update
    through [libp2p_utils_vector_get(v, i)] is an update of element [i] *)
Definition cid_entry_update (cids : vector CidEntry) (i : Z) (e : CidEntry) : vector CidEntry :=
  libp2p_utils_vector_set cids i (Some e).

(** what the two [continue]s let through *)
Definition cid_entry_pending (e : CidEntry) : bool :=
  if negb (ce_cancel e =? 0) && negb (ce_cancel_has_been_sent e =? 0) then false
  else if (ce_cancel e =? 0) && negb (ce_request_has_been_sent e =? 0) then false
  else true.

Definition cid_entry_mark (e : CidEntry) : CidEntry :=
  if negb (ce_cancel e =? 0)
  then mkCidEntry (ce_cid e) (ce_cancel e) 1 (ce_request_has_been_sent e)
  else mkCidEntry (ce_cid e) (ce_cancel e) (ce_cancel_has_been_sent e) 1.

(** the loop of [ipfs_bitswap_message_add_wantlist_items] from index [i], with
    [n] turns left *)
Fixpoint add_wantlist_loop (n : nat) (i : Z) (entries : vector WantlistEntry) (cids : vector CidEntry)
  : res (Z * vector WantlistEntry * vector CidEntry) :=
  match n with
  | O => Ret (1, entries, cids)
  | S n =>
    match libp2p_utils_vector_get cids i with
    | None => UB
    | Some cidEntry =>
      if negb (cid_entry_pending cidEntry) then add_wantlist_loop n (i + 1) entries cids
      else
        match ipfs_bitswap_wantlist_entry_new with
        | None => UB
        | Some _ =>
          let block_size := ipfs_cid_protobuf_encode_size (ce_cid cidEntry) in
          if malloc_ok block_size then
            let! ((r, block_size), block) :=
              ipfs_cid_protobuf_encode (ce_cid cidEntry) (fresh block_size) block_size in
            if r =? 0 then Ret (0, entries, cids)
            else
              let entry := mkWantlistEntry (Ptr block) block_size 1 (u8 (ce_cancel cidEntry)) in
              let! (_, entries) := libp2p_utils_vector_add entries (Some entry) in
              add_wantlist_loop n (i + 1) entries (cid_entry_update cids i (cid_entry_mark cidEntry))
          else Ret (0, entries, cids)
        end
    end
  end.

(** result, the message and the vector of [CidEntry]s *)
Definition ipfs_bitswap_message_add_wantlist_items (message : BitswapMessage) (cids : vector CidEntry)
  : res (Z * BitswapMessage * vector CidEntry) :=
  let wantlist :=
    match bm_wantlist message with Some w => Some w | None => ipfs_bitswap_wantlist_new end in
  match wantlist with
  | None => Ret (0, message, cids)
  | Some w =>
    let! entries := match wl_entries w with Some v => Ret v | None => libp2p_utils_vector_new 1 end in
    let! (r, entries, cids) :=
      add_wantlist_loop (Z.to_nat (libp2p_utils_vector_total cids)) 0 entries cids in
    Ret (r, mkMessage (Some (mkWantlist (Some entries) (wl_full w))) (bm_blocks message) (bm_payload message),
         cids)
  end.

Fixpoint cancel_cid_loop (n : nat) (i : Z) (cids : vector CidEntry) (incoming_cid : option Cid)
  : res (Z * vector CidEntry) :=
  match n with
  | O => Ret (0, cids)
  | S n =>
    match libp2p_utils_vector_get cids i with
    | None => UB
    | Some entry =>
      let! c := ipfs_cid_compare (ce_cid entry) incoming_cid in
      if c =? 0 then
        Ret (1, cid_entry_update cids i
                  (mkCidEntry (ce_cid entry) 1 (ce_cancel_has_been_sent entry) (ce_request_has_been_sent entry)))
      else cancel_cid_loop n (i + 1) cids incoming_cid
    end
  end.

Definition ipfs_bitswap_message_cancel_cid (cids : vector CidEntry) (incoming_cid : option Cid)
  : res (Z * vector CidEntry) :=
  cancel_cid_loop (Z.to_nat (libp2p_utils_vector_total cids)) 0 cids incoming_cid.

(** the first loop of [ipfs_bitswap_message_add_blocks] *)
Fixpoint add_blocks_loop (n : nat) (i : Z) (blocks payload : vector Block) (cids : vector CidEntry)
  : res (vector Block * vector CidEntry) :=
  match n with
  | O => Ret (payload, cids)
  | S n =>
    let current := libp2p_utils_vector_get blocks i in
    let! (_, payload) := libp2p_utils_vector_add payload current in
    match current with
    | None => UB
    | Some b =>
      let! (_, cids) := ipfs_bitswap_message_cancel_cid cids (block_cid b) in
      add_blocks_loop n (i + 1) blocks payload cids
    end
  end.

(** result, message, [blocks] and [cids_they_want] *)
Definition ipfs_bitswap_message_add_blocks (message : option BitswapMessage)
    (blocks : option (vector Block)) (cids : vector CidEntry)
  : res (Z * option BitswapMessage * option (vector Block) * vector CidEntry) :=
  match message, blocks with
  | None, _ | _, None => Ret (0, message, blocks, cids)
  | Some m, Some bs =>
    if v_total bs =? 0 then Ret (0, message, blocks, cids)
    else
      let! payload :=
        match bm_payload m with Some p => Ret p | None => libp2p_utils_vector_new (v_total bs) end in
      let tot_blocks := Z.to_nat (v_total bs) in
      let! (payload, cids) := add_blocks_loop tot_blocks 0 bs payload cids in
      let bs := Nat.iter tot_blocks (fun v => libp2p_utils_vector_delete v 0) bs in
      Ret (1, Some (mkMessage (bm_wantlist m) (bm_blocks m) (Some payload)), Some bs, cids)
  end.
End fill.

(** ** Specifications *)
Section proofs.
Context {M : Malloc} {Hm : MallocOk M}.

(** *** The wants *)
Definition cid_entry_ok (e : CidEntry) : Prop :=
  from_option cid_ok True (ce_cid e) /\ 0 <= ce_cancel e < 2 ^ 8.

(** the bytes and the flags of the entry sent for a want *)
Definition sent_for (w : WantlistEntry) (e : CidEntry) : Prop :=
  entry_data w = cid_wire_opt (ce_cid e) /\ we_block_size w = zlen (cid_wire_opt (ce_cid e)) /\
  we_priority w = 1 /\ we_cancel w = ce_cancel e.

Definition pendings (l : list CidEntry) : list CidEntry := filter (fun e => cid_entry_pending e = true) l.
Definition marked (e : CidEntry) : CidEntry := if cid_entry_pending e then cid_entry_mark e else e.

(** the entry that is built, with the unused end of its allocation *)
Definition made_entry (e : CidEntry) : WantlistEntry :=
  let wire := cid_wire_opt (ce_cid e) in
  mkWantlistEntry (Ptr (wire ++ zdrop (zlen wire) (fresh (ipfs_cid_protobuf_encode_size (ce_cid e)))))
    (zlen wire) 1 (u8 (ce_cancel e)).

Lemma made_entry_sent e : cid_entry_ok e -> sent_for (made_entry e) e.
Proof.
  intros [Hc Hcancel]. unfold sent_for, made_entry, entry_data.
  cbn [we_block we_block_size we_priority we_cancel pderef].
  by rewrite ztake_app_len, u8_small by lia.
Qed.

Lemma add_wantlist_step n i entries cids e :
  cid_entry_ok e -> libp2p_utils_vector_get cids i = Some e -> cid_entry_pending e = true ->
  add_wantlist_loop (S n) i entries cids =
    let! (_, entries) := libp2p_utils_vector_add entries (Some (made_entry e)) in
    add_wantlist_loop n (i + 1) entries (cid_entry_update cids i (cid_entry_mark e)).
Proof.
  intros [Hc Hcancel] Hg Hp. cbn [add_wantlist_loop]. rewrite Hg, Hp. cbn [negb].
  unfold ipfs_bitswap_wantlist_entry_new. rewrite !malloc_always.
  pose proof (cid_opt_size _ Hc) as Hsz. zlen_facts.
  rewrite (cid_opt_emits _ Hc) by (rewrite ?zlen_fresh; lia). cbn [rbind]. by zbool.
Qed.

Lemma add_wantlist_loop_ok post pre entries es cids :
  Forall cid_entry_ok post -> holds cids (pre ++ post) -> vector_ok entries -> holds entries es ->
  zlen es + zlen post <= 2 ^ 29 ->
  exists entries' new cids',
    add_wantlist_loop (length post) (zlen pre) entries cids = Ret (1, entries', cids') /\
    vector_ok entries' /\ holds entries' (es ++ new) /\ Forall2 sent_for new (pendings post) /\
    holds cids' (pre ++ (marked <$> post)).
Proof.
  intros Hpost. revert pre entries es cids.
  induction Hpost as [|e post Hce _ IH]; intros pre entries es cids Hh Hok He Hlen.
  - exists entries, [], cids. rewrite app_nil_r in *. simpl. split_and!; try done. by rewrite app_nil_r.
  - rewrite zlen_cons in Hlen. zlen_facts. cbn [length].
    pose proof (holds_get _ _ _ _ Hh) as Hg. unfold pendings, marked. rewrite filter_cons, fmap_cons.
    destruct (cid_entry_pending e) eqn:Ep.
    + rewrite (add_wantlist_step _ _ _ _ e) by done. rewrite decide_True by done.
      destruct (holds_add entries es (made_entry e) He Hok ltac:(lia)) as (v' & n & Ha & Hok' & Hv').
      rewrite Ha. cbn [rbind].
      replace (zlen pre + 1) with (zlen (pre ++ [cid_entry_mark e])) by (by rewrite zlen_app).
      destruct (IH (pre ++ [cid_entry_mark e]) v' (es ++ [made_entry e])
        (cid_entry_update cids (zlen pre) (cid_entry_mark e))) as (entries' & new & cids' & E & K1 & K2 & K3 & K4);
        [rewrite <- app_assoc; by apply (holds_set _ _ e)|done|done|zlia|].
      exists entries', (made_entry e :: new), cids'. rewrite <- app_assoc in K2, K4.
      split_and!; try done. apply Forall2_cons. by split; [apply made_entry_sent|].
    + cbn [add_wantlist_loop]. rewrite Hg, Ep, decide_False by done. cbn [negb].
      replace (zlen pre + 1) with (zlen (pre ++ [e])) by (by rewrite zlen_app).
      destruct (IH (pre ++ [e]) entries es cids) as (entries' & new & cids' & E & K1 & K2 & K3 & K4);
        [by rewrite <- app_assoc|done|done|lia|].
      exists entries', new, cids'. rewrite <- app_assoc in K4. split_and!; done.
Qed.

Lemma marked_not_pending e : cid_entry_pending (marked e) = false.
Proof.
  unfold marked. destruct (cid_entry_pending e) eqn:Ep; [|done].
  unfold cid_entry_mark, cid_entry_pending in *.
  by destruct (ce_cancel e =? 0) eqn:Ec;
    cbn [negb andb ce_cancel ce_cancel_has_been_sent ce_request_has_been_sent]; rewrite Ec.
Qed.

Lemma pendings_marked l : pendings (marked <$> l) = [].
Proof.
  unfold pendings. induction l as [|e l IH]; [done|].
  rewrite fmap_cons, filter_cons, decide_False by (by rewrite marked_not_pending). done.
Qed.

(** *** Cancelling *)
Fixpoint cancel_first (c : option Cid) (l : list CidEntry) : list CidEntry :=
  match l with
  | [] => []
  | e :: l =>
    if decide (cid_match (ce_cid e) c)
    then mkCidEntry (ce_cid e) 1 (ce_cancel_has_been_sent e) (ce_request_has_been_sent e) :: l
    else e :: cancel_first c l
  end.

Definition cid_valid (c : option Cid) : Prop := from_option cid_ok True c.

Lemma cancel_first_valid c l : Forall (fun e => cid_valid (ce_cid e)) l ->
  Forall (fun e => cid_valid (ce_cid e)) (cancel_first c l).
Proof.
  induction 1 as [|e l He Hl IH]; simpl; [done|]. by case_decide; apply Forall_cons_2.
Qed.

Lemma cancel_cid_loop_ok c post pre cids : cid_valid c -> Forall (fun e => cid_valid (ce_cid e)) post ->
  holds cids (pre ++ post) ->
  exists r cids', cancel_cid_loop (length post) (zlen pre) cids c = Ret (r, cids') /\
    holds cids' (pre ++ cancel_first c post) /\
    (r = 1 <-> Exists (fun e => cid_match (ce_cid e) c) post) /\ (r = 0 \/ r = 1).
Proof.
  intros Hc Hpost. revert pre. induction Hpost as [|e post He _ IH]; intros pre Hh.
  - exists 0, cids. split_and!; [done|done| |by left]. split; [done|]. by intros ?%Exists_nil.
  - cbn [length cancel_cid_loop cancel_first]. rewrite (holds_get _ _ _ _ Hh).
    destruct (cid_compare_match (ce_cid e) c He Hc) as (r & -> & Hr). cbn [rbind].
    destruct (decide (cid_match (ce_cid e) c)) as [Hm'|Hm'].
    + rewrite (proj2 (Z.eqb_eq r 0)) by tauto. eexists 1, _. split; [done|].
      split_and!; [by apply (holds_set _ _ e)| |by right]. split; [by left|done].
    + rewrite (proj2 (Z.eqb_neq r 0)) by tauto.
      replace (zlen pre + 1) with (zlen (pre ++ [e])) by (by rewrite zlen_app).
      destruct (IH (pre ++ [e])) as (r' & cids' & E & H1 & H2 & H3); [by rewrite <- app_assoc|].
      exists r', cids'. rewrite <- app_assoc in H1. split_and!; try done.
      rewrite H2, Exists_cons. tauto.
Qed.

Lemma cancel_cid_ok c l cids : cid_valid c -> Forall (fun e => cid_valid (ce_cid e)) l ->
  holds cids l ->
  exists r cids', ipfs_bitswap_message_cancel_cid cids c = Ret (r, cids') /\
    holds cids' (cancel_first c l) /\
    (r = 1 <-> Exists (fun e => cid_match (ce_cid e) c) l) /\ (r = 0 \/ r = 1).
Proof.
  intros Hc Hl Hh. unfold ipfs_bitswap_message_cancel_cid, libp2p_utils_vector_total.
  rewrite (holds_total _ _ Hh). unfold zlen. rewrite Nat2Z.id.
  by apply (cancel_cid_loop_ok c l [] cids).
Qed.

(** *** The blocks *)
Lemma add_blocks_loop_ok post pre bs payload ps cids l :
  Forall (fun b => cid_valid (block_cid b)) post -> holds bs (pre ++ post) ->
  vector_ok payload -> holds payload ps -> zlen ps + zlen post <= 2 ^ 29 ->
  Forall (fun e => cid_valid (ce_cid e)) l -> holds cids l ->
  exists payload' cids',
    add_blocks_loop (length post) (zlen pre) bs payload cids = Ret (payload', cids') /\
    vector_ok payload' /\ holds payload' (ps ++ post) /\
    holds cids' (foldl (fun l b => cancel_first (block_cid b) l) l post).
Proof.
  intros Hpost. revert pre payload ps cids l.
  induction Hpost as [|b post Hb _ IH]; intros pre payload ps cids l Hh Hok Hp Hlen Hl Hc.
  - exists payload, cids. by rewrite app_nil_r.
  - rewrite zlen_cons in Hlen. zlen_facts. cbn [length add_blocks_loop foldl].
    rewrite (holds_get _ _ _ _ Hh).
    destruct (holds_add payload ps b Hp Hok ltac:(lia)) as (v' & n & Ha & Hok' & Hv').
    rewrite Ha. cbn [rbind].
    destruct (cancel_cid_ok (block_cid b) l cids Hb Hl Hc) as (r & cids1 & -> & Hc1 & _). cbn [rbind].
    replace (zlen pre + 1) with (zlen (pre ++ [b])) by (by rewrite zlen_app).
    destruct (IH (pre ++ [b]) v' (ps ++ [b]) cids1 (cancel_first (block_cid b) l))
      as (payload' & cids' & E & H1' & H2 & H3);
      [by rewrite <- app_assoc|done|done|zlia|by apply cancel_first_valid|done|].
    exists payload', cids'. rewrite <- app_assoc in H2. by split_and!.
Qed.

Lemma delete_head {A} (v : vector A) x l : v_items v = x :: l -> v_items (libp2p_utils_vector_delete v 0) = l.
Proof.
  intros Hv. rewrite vector_delete_items by (unfold v_total; rewrite Hv, zlen_cons; zlen_facts; lia).
  by rewrite Hv.
Qed.
Lemma delete_all {A} (v : vector A) :
  v_items (Nat.iter (length (v_items v)) (fun v => libp2p_utils_vector_delete v 0) v) = [].
Proof.
  remember (length (v_items v)) as n eqn:Hn.
  assert (forall k, (k <= n)%nat ->
    v_items (Nat.iter k (fun v => libp2p_utils_vector_delete v 0) v) = drop k (v_items v)) as Hk.
  { induction k as [|k IH]; intros Hk; [done|]. simpl. specialize (IH ltac:(lia)).
    destruct (v_items v !! k) as [x|] eqn:Ex; [|apply lookup_ge_None_1 in Ex; lia].
    rewrite (drop_S _ _ _ Ex) in IH. by apply (delete_head _ x). }
  rewrite Hk by done. rewrite Hn. apply drop_all.
Qed.
End proofs.

(** ** Properties *)

(** the entries a message already has *)
Definition message_entries (m : BitswapMessage) (es : list WantlistEntry) : Prop :=
  match bm_wantlist m with
  | Some (mkWantlist (Some v) _) => vector_ok v /\ holds v es
  | _ => es = []
  end.

Lemma add_wantlist_items_ok {M : Malloc} {Hm : MallocOk M} m es cids l :
  message_entries m es -> holds cids l -> Forall cid_entry_ok l -> zlen es + zlen l <= 2 ^ 29 ->
  exists v new cids', ipfs_bitswap_message_add_wantlist_items m cids =
    Ret (1, mkMessage (Some (mkWantlist (Some v) (from_option wl_full 1 (bm_wantlist m)))) (bm_blocks m) (bm_payload m), cids') /\
    vector_ok v /\ holds v (es ++ new) /\ Forall2 sent_for new (pendings l) /\ holds cids' (marked <$> l).
Proof.
  intros Hes Hl Hok Hlen. zlen_facts. unfold ipfs_bitswap_message_add_wantlist_items.
  assert (exists w v, match bm_wantlist m with Some w => Some w | None => ipfs_bitswap_wantlist_new end = Some w /\
    wl_full w = from_option wl_full 1 (bm_wantlist m) /\
    match wl_entries w with Some v => Ret v | None => libp2p_utils_vector_new 1 end = Ret v /\
    vector_ok v /\ holds v es) as (w & v & -> & Hfull & E & Hv & Hve).
  { assert (vector_ok (vector_of (A := WantlistEntry) [])) as Hnew by (split_and!; done).
    unfold message_entries, ipfs_bitswap_wantlist_new in *. rewrite malloc_always.
    destruct (bm_wantlist m) as [[[v|] full]|]; subst; eexists _, _;
      (split; [done|]); (split; [done|]); cbn [wl_entries]; rewrite ?vector_new_of; (split; [done|]); done. }
  rewrite E. cbn [rbind]. unfold libp2p_utils_vector_total. rewrite (holds_total _ _ Hl).
  unfold zlen at 1. rewrite Nat2Z.id.
  destruct (add_wantlist_loop_ok l [] v es cids) as (v' & new & cids' & E' & H1 & H2 & H3 & H4); try done.
  change (zlen []) with 0 in E'. rewrite E'. cbn [rbind]. rewrite Hfull. by eexists v', new, cids'.
Qed.

Lemma add_blocks_ok {M : Malloc} {Hm : MallocOk M} (m : BitswapMessage) (bs : vector Block)
    (b : Block) (l ps : list Block) (cids : vector CidEntry) (es : list CidEntry) :
  holds bs (b :: l) -> Forall (fun b => cid_valid (block_cid b)) (b :: l) ->
  match bm_payload m with Some v => vector_ok v /\ holds v ps | None => ps = [] end ->
  holds cids es -> Forall (fun e => cid_valid (ce_cid e)) es -> zlen ps + zlen (b :: l) <= 2 ^ 29 ->
  exists p bs' cids',
    ipfs_bitswap_message_add_blocks (Some m) (Some bs) cids =
      Ret (1, Some (mkMessage (bm_wantlist m) (bm_blocks m) (Some p)), Some bs', cids') /\
    holds p (ps ++ b :: l) /\ v_items bs' = [] /\
    holds cids' (foldl (fun es b => cancel_first (block_cid b) es) es (b :: l)).
Proof.
  intros Hbs Hb Hps Hc Hes Hlen. zlen_facts. pose proof (holds_total _ _ Hbs) as Ht.
  unfold ipfs_bitswap_message_add_blocks. rewrite Ht. rewrite zlen_cons in *. zlen_facts. zbool.
  assert (exists p, match bm_payload m with Some p => Ret p | None => libp2p_utils_vector_new (1 + zlen l) end = Ret p /\
    vector_ok p /\ holds p ps) as (p & -> & Hp & Hpp).
  { destruct (bm_payload m) as [v|]; [by exists v|]. subst ps.
    destruct (vector_new_ok (A := Block) (1 + zlen l) ltac:(lia)) as (v & -> & Hv & Hi).
    exists v. split_and!; [done|done|]. unfold holds. by rewrite Hi. }
  cbn [rbind].
  replace (Z.to_nat (1 + zlen l)) with (length (b :: l)) by (unfold zlen; simpl length; lia).
  destruct (add_blocks_loop_ok (b :: l) [] bs p ps cids es) as (p' & cids' & E & K1 & K2 & K3); try done;
    [rewrite zlen_cons; lia|].
  change (zlen []) with 0 in E. rewrite E. cbn [rbind]. eexists p', _, cids'. split; [done|].
  split_and!; [done| |done].
  replace (length (b :: l)) with (length (v_items bs)); [apply delete_all|].
  unfold holds in Hbs. by rewrite Hbs, length_fmap.
Qed.

(** [ipfs_bitswap_message_add_wantlist_items] appends, in order, one
    entry per pending [CidEntry] (its CID encoded, its cancel flag, priority 1),
    leaves the rest of the message alone and marks what it took, so that a
    second call appends nothing. *)
Lemma add_wantlist_items_spec {M : Malloc} {Hm : MallocOk M} (m : BitswapMessage)
    (es : list WantlistEntry) (cids : vector CidEntry) (l : list CidEntry) :
  message_entries m es -> holds cids l -> Forall cid_entry_ok l -> zlen es + 2 * zlen l <= 2 ^ 28 ->
  exists m' cids' v new,
    ipfs_bitswap_message_add_wantlist_items m cids = Ret (1, m', cids') /\
    (wl_entries <$> bm_wantlist m') = Some (Some v) /\ holds v (es ++ new) /\
    Forall2 sent_for new (pendings l) /\ holds cids' (marked <$> l) /\
    bm_blocks m' = bm_blocks m /\ bm_payload m' = bm_payload m /\
    exists m'' cids'' v'',
      ipfs_bitswap_message_add_wantlist_items m' cids' = Ret (1, m'', cids'') /\
      (wl_entries <$> bm_wantlist m'') = Some (Some v'') /\ holds v'' (es ++ new).
Proof.
  intros Hes Hl Hok Hlen. zlen_facts.
  destruct (add_wantlist_items_ok m es cids l) as (v & new & cids' & E & Hv & Hve & Hnew & Hc); try (done || lia).
  eexists _, cids', v, new. split; [exact E|]. do 6 (split; [done|]).
  assert (zlen new <= zlen l) as Hn.
  { apply Forall2_length in Hnew. unfold zlen. rewrite Hnew. unfold pendings.
    pose proof (length_filter (fun e => cid_entry_pending e = true) l). lia. }
  destruct (add_wantlist_items_ok (mkMessage (Some (mkWantlist (Some v) (from_option wl_full 1 (bm_wantlist m)))) (bm_blocks m) (bm_payload m))
    (es ++ new) cids' (marked <$> l)) as (v' & new' & cids'' & E' & Hv' & Hve' & Hnew' & Hc').
  - done.
  - done.
  - apply Forall_fmap. eapply Forall_impl; [exact Hok|]. intros e [He1 He2]. simpl.
    unfold marked, cid_entry_mark. by repeat case_match.
  - rewrite zlen_app. unfold zlen at 3. rewrite length_fmap. fold (zlen l). lia.
  - rewrite pendings_marked in Hnew'. apply Forall2_nil_inv_r in Hnew' as ->. rewrite app_nil_r in Hve'.
    eexists _, cids'', v'. by split_and!.
Qed.

Definition sample_wants : vector CidEntry :=
  mkVector 4 4 [Some (mkCidEntry (Some sample_cid) 0 0 0); Some (mkCidEntry None 0 0 1);
                Some (mkCidEntry (Some sample_cid) 1 0 1)].
Definition sample_wants_list : list CidEntry :=
  [mkCidEntry (Some sample_cid) 0 0 0; mkCidEntry None 0 0 1; mkCidEntry (Some sample_cid) 1 0 1].

(** [ipfs_bitswap_message_add_blocks] appends every ready block to
    the payload in order, empties the vector of ready blocks, and sets the
    cancel flag of the first [CidEntry] that matches each block's CID; nothing
    else changes. *)
Lemma add_blocks_spec {M : Malloc} {Hm : MallocOk M} (m : BitswapMessage) (bs : vector Block)
    (b : Block) (l ps : list Block) (cids : vector CidEntry) (es : list CidEntry) :
  holds bs (b :: l) -> Forall (fun b => cid_valid (block_cid b)) (b :: l) ->
  match bm_payload m with Some v => vector_ok v /\ holds v ps | None => ps = [] end ->
  holds cids es -> Forall (fun e => cid_valid (ce_cid e)) es -> zlen ps + zlen (b :: l) <= 2 ^ 29 ->
  exists p bs' cids',
    ipfs_bitswap_message_add_blocks (Some m) (Some bs) cids =
      Ret (1, Some (mkMessage (bm_wantlist m) (bm_blocks m) (Some p)), Some bs', cids') /\
    holds p (ps ++ b :: l) /\ v_items bs' = [] /\
    holds cids' (foldl (fun es b => cancel_first (block_cid b) es) es (b :: l)).
Proof. exact (add_blocks_ok m bs b l ps cids es). Qed.
