(* ===== verification/PeerRequestQueue.v ===== *)
(** * The queue of peers (libipfs/exchange/bitswap/peer_request_queue.c)

    What every remote peer wants from us and we from it, and the doubly linked
    queue in which the peers wait for their turn.  Entries and requests are
    objects of two heaps; [next] is the link of the heap cell and [prior] a field
    of its data.  The network is a record of functions. *)
From S2P Require Import Prelude Varint Protobuf Multihash Cid Heap Block Vector Multiaddr Peer BitswapMessage BitswapFill.

(** ** Requests *)
Record PeerRequest := mkRequest {
  peer : option Libp2pPeer;
  cids_they_want : vector CidEntry;
  cids_we_want : vector CidEntry;
  blocks_we_want_to_send : vector Block
}.

Definition sizeof_CidEntry : Z := 24.
Definition sizeof_PeerRequest : Z := 72.
Definition sizeof_PeerRequestEntry : Z := 24.
Definition sizeof_PeerRequestQueue : Z := 56.

(** [prior] and [current]; [next] is in the heap cell *)
Record PeerRequestEntry := mkEntry {
  prior : loc;
  current : loc
}.

Record PeerRequestQueue := mkQueue {
  entries : heap PeerRequestEntry;
  requests : heap PeerRequest;
  first : loc;
  last : loc
}.

(** what the queue uses of the rest of the node: the stream's [peek], connecting
    to a peer, sending a message, and the block store's [Get] *)
Record BitswapContext := mkContext {
  peek : Libp2pPeer -> Z;
  libp2p_peer_connect : Libp2pPeer -> Z * Libp2pPeer;
  ipfs_bitswap_network_send_message : Libp2pPeer -> BitswapMessage -> Z;
  Get : option Cid -> res (option Block)
}.

Section queue.
Context {M : Malloc}.

Definition ipfs_bitswap_peer_request_cid_entry_new : option CidEntry :=
  if malloc_ok sizeof_CidEntry then Some (mkCidEntry None 0 0 0) else None.

(** [libp2p_utils_vector_new] never returns NULL *)
Definition ipfs_bitswap_peer_request_new (rs : heap PeerRequest) : res (option (positive * heap PeerRequest)) :=
  if malloc_ok sizeof_PeerRequest then
    let! they := libp2p_utils_vector_new 1 in
    let! we := libp2p_utils_vector_new 1 in
    let! blocks := libp2p_utils_vector_new 1 in
    Ret (alloc sizeof_PeerRequest (mkRequest None they we blocks, None) rs)
  else Ret None.

Definition ipfs_bitswap_peer_request_free (rs : heap PeerRequest) (request : loc) : res (heap PeerRequest) :=
  release rs request.

Definition ipfs_bitswap_peer_request_entry_new (es : heap PeerRequestEntry)
  : option (positive * heap PeerRequestEntry) :=
  alloc sizeof_PeerRequestEntry (mkEntry None None, None) es.

Definition ipfs_bitswap_peer_request_entry_free (es : heap PeerRequestEntry) (rs : heap PeerRequest)
    (entry : loc) : res (heap PeerRequestEntry * heap PeerRequest) :=
  let! (e, _) := load es entry in
  let! rs := ipfs_bitswap_peer_request_free rs (current e) in
  let! es := release es entry in
  Ret (es, rs).

Definition ipfs_bitswap_peer_request_queue_new (es : heap PeerRequestEntry) (rs : heap PeerRequest)
  : option PeerRequestQueue :=
  if malloc_ok sizeof_PeerRequestQueue then Some (mkQueue es rs None None) else None.

(** from [queue->last] through the [prior] pointers *)
Fixpoint queue_free_loop (fuel : nat) (es : heap PeerRequestEntry) (rs : heap PeerRequest) (cur : loc)
  : res (heap PeerRequestEntry * heap PeerRequest) :=
  match fuel with
  | O => NoFuel
  | S fuel =>
    match cur with
    | None => Ret (es, rs)
    | Some _ =>
      let! (e, _) := load es cur in
      let! (es, rs) := ipfs_bitswap_peer_request_entry_free es rs cur in
      queue_free_loop fuel es rs (prior e)
    end
  end.

Definition ipfs_bitswap_peer_request_queue_free (queue : PeerRequestQueue)
  : res (heap PeerRequestEntry * heap PeerRequest) :=
  queue_free_loop (walk_fuel (entries queue)) (entries queue) (requests queue) (last queue).

(** the old last entry is not linked to the new one *)
Definition ipfs_bitswap_peer_request_queue_add (queue : PeerRequestQueue) (request : loc)
  : res (Z * PeerRequestQueue) :=
  match request with
  | None => Ret (0, queue)
  | Some _ =>
    match ipfs_bitswap_peer_request_entry_new (entries queue) with
    | None => UB
    | Some (l, es) =>
      let! es := store es (Some l) (mkEntry (last queue) request, None) in
      Ret (1, mkQueue es (requests queue)
                (match first queue with None => Some l | Some f => Some f end) (Some l))
    end
  end.

Fixpoint find_entry_loop (fuel : nat) (queue : PeerRequestQueue) (cur : loc) (p : Libp2pPeer) : res loc :=
  match fuel with
  | O => NoFuel
  | S fuel =>
    match cur with
    | None => Ret None
    | Some _ =>
      let! (e, next) := load (entries queue) cur in
      let! (r, _) := load (requests queue) (current e) in
      let! c := libp2p_peer_compare (peer r) (Some p) in
      if c =? 0 then Ret cur else find_entry_loop fuel queue next p
    end
  end.

Definition ipfs_bitswap_peer_request_queue_find_entry (queue : PeerRequestQueue) (p : option Libp2pPeer)
  : res loc :=
  match p with
  | None => Ret None
  | Some p => find_entry_loop (walk_fuel (entries queue)) queue (first queue) p
  end.

(** [entry->prior->next = entry->next] without a test of [entry->prior];
    [queue->first] and [queue->last] stay *)
Definition ipfs_bitswap_peer_request_queue_remove (queue : PeerRequestQueue) (request : loc)
  : res (Z * PeerRequestQueue) :=
  match request with
  | None => Ret (0, queue)
  | Some _ =>
    let! (r, _) := load (requests queue) request in
    let! entry := ipfs_bitswap_peer_request_queue_find_entry queue (peer r) in
    match entry with
    | None => Ret (0, queue)
    | Some _ =>
      let! (e, next) := load (entries queue) entry in
      let! (pe, _) := load (entries queue) (prior e) in
      let! es := store (entries queue) (prior e) (pe, next) in
      let! (e, _) := load es entry in
      let! es := store es entry (mkEntry None (current e), None) in
      let! (es, rs) := ipfs_bitswap_peer_request_entry_free es (requests queue) entry in
      Ret (1, mkQueue es rs (first queue) (last queue))
    end
  end.

(** a vector pointer is [None] when NULL *)
Definition ipfs_bitswap_peer_request_cids_waiting (cidEntries : option (vector CidEntry)) : Z :=
  match cidEntries with
  | None => 0
  | Some v =>
    if existsb (fun e => match e with Some e => ce_cancel e =? 0 | None => false end) (vector_each v)
    then 1 else 0
  end.

(** result and the peer, which may have been marked as not connected *)
Definition something_to_do (ctx : BitswapContext) (request : PeerRequest) : res (Z * PeerRequest) :=
  if 0 <? v_total (blocks_we_want_to_send request) then Ret (1, request)
  else if 0 <? v_total (cids_we_want request) then Ret (1, request)
  else if negb (ipfs_bitswap_peer_request_cids_waiting (Some (cids_they_want request)) =? 0) then Ret (1, request)
  else
    match peer request with
    | None => UB
    | Some p =>
      if connection_type p =? CONNECTION_TYPE_CONNECTED then
        let retVal := peek ctx p in
        if retVal <? 0 then
          Ret (0, mkRequest (Some (libp2p_peer_handle_connection_error p)) (cids_they_want request)
                    (cids_we_want request) (blocks_we_want_to_send request))
        else Ret (retVal, request)
      else Ret (0, request)
    end.

Definition ipfs_bitswap_peer_request_something_to_do (ctx : BitswapContext) (queue : PeerRequestQueue)
    (entry : loc) : res (Z * PeerRequestQueue) :=
  match entry with
  | None => Ret (0, queue)
  | Some _ =>
    let! (e, _) := load (entries queue) entry in
    let! (r, n) := load (requests queue) (current e) in
    let! (retVal, r) := something_to_do ctx r in
    let! rs := store (requests queue) (current e) (r, n) in
    Ret (retVal, mkQueue (entries queue) rs (first queue) (last queue))
  end.

(** the entry moves to the end; its own [next] is not reset *)
Definition move_to_end (queue : PeerRequestQueue) (entry : loc) : res PeerRequestQueue :=
  let! (_, next) := load (entries queue) (first queue) in
  match next with
  | None => Ret queue
  | Some _ =>
    let! (le, _) := load (entries queue) (last queue) in
    let! es := store (entries queue) (last queue) (le, entry) in
    Ret (mkQueue es (requests queue) next entry)
  end.

Definition ipfs_bitswap_peer_request_queue_pop (ctx : BitswapContext) (queue : option PeerRequestQueue)
  : res (loc * option PeerRequestQueue) :=
  match queue with
  | None => Ret (None, queue)
  | Some q =>
    match first q with
    | None => Ret (None, queue)
    | Some _ =>
      let! (todo, q) := ipfs_bitswap_peer_request_something_to_do ctx q (first q) in
      if todo =? 0 then Ret (None, Some q)
      else
        let! (e, _) := load (entries q) (first q) in
        let! q := move_to_end q (first q) in
        Ret (current e, Some q)
    end
  end.

(** a new entry for the peer, at the end *)
Definition queue_append_peer (queue : PeerRequestQueue) (p : option Libp2pPeer) : res (loc * PeerRequestQueue) :=
  match ipfs_bitswap_peer_request_entry_new (entries queue) with
  | None => UB
  | Some (l, es) =>
    let! request := ipfs_bitswap_peer_request_new (requests queue) in
    match request with
    | None => UB
    | Some (r, rs) =>
      let! (req, n) := load rs (Some r) in
      let! rs := store rs (Some r) (mkRequest p (cids_they_want req) (cids_we_want req) (blocks_we_want_to_send req), n) in
      match first queue with
      | None =>
        let! es := store es (Some l) (mkEntry None (Some r), None) in
        Ret (Some r, mkQueue es rs (Some l) (Some l))
      | Some _ =>
        let! (le, _) := load es (last queue) in
        let! es := store es (last queue) (le, Some l) in
        let! es := store es (Some l) (mkEntry (last queue) (Some r), None) in
        Ret (Some r, mkQueue es rs (first queue) (Some l))
      end
    end
  end.

Fixpoint find_peer_loop (fuel : nat) (queue : PeerRequestQueue) (entry : loc) (p : option Libp2pPeer)
  : res (loc * PeerRequestQueue) :=
  match fuel with
  | O => NoFuel
  | S fuel =>
    match entry with
    | None => queue_append_peer queue p
    | Some _ =>
      let! (e, next) := load (entries queue) entry in
      let! (r, _) := load (requests queue) (current e) in
      let! c := libp2p_peer_compare (peer r) p in
      if c =? 0 then Ret (current e, queue) else find_peer_loop fuel queue next p
    end
  end.

Definition ipfs_peer_request_queue_find_peer (queue : PeerRequestQueue) (p : option Libp2pPeer)
  : res (loc * PeerRequestQueue) :=
  find_peer_loop (walk_fuel (entries queue)) queue (first queue) p.

(** 0 is returned in every case *)
Definition ipfs_bitswap_peer_request_queue_fill (queue : PeerRequestQueue) (who : option Libp2pPeer)
    (block : option Block) : res (Z * PeerRequestQueue) :=
  let! (entry, queue) := ipfs_peer_request_queue_find_peer queue who in
  match entry with
  | None => Ret (0, queue)
  | Some _ =>
    let! (r, n) := load (requests queue) entry in
    let! (_, blocks) := libp2p_utils_vector_add (blocks_we_want_to_send r) block in
    let! rs := store (requests queue) entry (mkRequest (peer r) (cids_they_want r) (cids_we_want r) blocks, n) in
    Ret (0, mkQueue (entries queue) rs (first queue) (last queue))
  end.

(** ** Serving a request *)
Definition set_cancel (e : CidEntry) : CidEntry :=
  mkCidEntry (ce_cid e) 1 (ce_cancel_has_been_sent e) (ce_request_has_been_sent e).

Fixpoint get_blocks_loop (ctx : BitswapContext) (n : nat) (i : Z) (they : vector CidEntry) (blocks : vector Block)
  : res (vector CidEntry * vector Block) :=
  match n with
  | O => Ret (they, blocks)
  | S n =>
    match libp2p_utils_vector_get they i with
    | Some e =>
      if ce_cancel e =? 0 then
        let! block := Get ctx (ce_cid e) in
        match block with
        | None => get_blocks_loop ctx n (i + 1) they blocks
        | Some block =>
          let! (_, blocks) := libp2p_utils_vector_add blocks (Some block) in
          get_blocks_loop ctx n (i + 1) (cid_entry_update they i (set_cancel e)) blocks
        end
      else get_blocks_loop ctx n (i + 1) they blocks
    | None => get_blocks_loop ctx n (i + 1) they blocks
    end
  end.

Definition ipfs_bitswap_peer_request_get_blocks_they_want (ctx : BitswapContext) (request : PeerRequest)
  : res PeerRequest :=
  let! (they, blocks) := get_blocks_loop ctx (Z.to_nat (v_total (cids_they_want request))) 0
    (cids_they_want request) (blocks_we_want_to_send request) in
  Ret (mkRequest (peer request) they (cids_we_want request) blocks).

Fixpoint we_want_loop (l : list (option CidEntry)) : res Z :=
  match l with
  | [] => Ret 0
  | None :: _ => UB
  | Some entry :: l => if cid_entry_pending entry then Ret 1 else we_want_loop l
  end.

Definition ipfs_bitswap_peer_request_we_want_cids (cid_entries : option (vector CidEntry)) : res Z :=
  match cid_entries with
  | None => Ret 0
  | Some v => we_want_loop (vector_each v)
  end.

(** the message for a connected peer: result, request after it *)
Definition send_request (ctx : BitswapContext) (request : PeerRequest) (p : Libp2pPeer) : res (Z * PeerRequest) :=
  let msg := ipfs_bitswap_message_new in
  let! request := ipfs_bitswap_peer_request_get_blocks_they_want ctx request in
  let! (_, msg, blocks, they) :=
    ipfs_bitswap_message_add_blocks msg (Some (blocks_we_want_to_send request)) (cids_they_want request) in
  match msg, blocks with
  | Some msg, Some blocks =>
    let! (_, msg, we) := ipfs_bitswap_message_add_wantlist_items msg (cids_we_want request) in
    let request := mkRequest (Some p) they we blocks in
    Ret (if ipfs_bitswap_network_send_message ctx p msg =? 0 then 0 else 1, request)
  | _, _ => UB
  end.

Definition ipfs_bitswap_peer_request_process_entry (ctx : BitswapContext) (request : option PeerRequest)
  : res (Z * option PeerRequest) :=
  match request with
  | None => Ret (0, request)
  | Some r =>
    match peer r with
    | None => Ret (0, request)
    | Some p =>
      let unreachable :=
        (is_local p =? 0) && negb (connection_type p =? CONNECTION_TYPE_CONNECTED) &&
        match addr_head p with Some _ :: _ => false | _ => true end in
      if unreachable then Ret (0, request)
      else
        let connected := negb (is_local p =? 0) || (connection_type p =? CONNECTION_TYPE_CONNECTED) in
        let! want := ipfs_bitswap_peer_request_we_want_cids (Some (cids_we_want r)) in
        let need_to_connect := negb (want =? 0)
          || negb (ipfs_bitswap_peer_request_cids_waiting (Some (cids_they_want r)) =? 0)
          || negb (v_total (blocks_we_want_to_send r) =? 0) in
        if need_to_connect then
          let (connected, p) :=
            if connected then (true, p)
            else let (c, p) := libp2p_peer_connect ctx p in (negb (c =? 0), p) in
          let r := mkRequest (Some p) (cids_they_want r) (cids_we_want r) (blocks_we_want_to_send r) in
          if connected : bool then let! (retVal, r) := send_request ctx r p in Ret (retVal, Some r)
          else Ret (0, Some r)
        else Ret (0, request)
    end
  end.
End queue.

(** ** Peers as identities *)
Definition peer_ok (p : Libp2pPeer) : Prop :=
  id_size p = zlen (deref (id p)) /\ zlen (deref (id p)) < 2 ^ 31 /\ is_bytes (deref (id p)).
Definition peer_id (p : Libp2pPeer) : bytes := deref (id p).

Lemma peer_compare_loop_ok b2 : forall a1 b1 a2, is_bytes a2 -> is_bytes b2 -> length a2 = length b2 ->
  length a1 = length b1 ->
  exists c, peer_compare_loop (length b2) (zlen b1) (a1 ++ a2) (b1 ++ b2) = Ret c /\ (c = 0 <-> a2 = b2).
Proof.
  induction b2 as [|y b2 IH]; intros a1 b1 [|x a2] Ha Hb Hl Hl1; try done; [exists 0; by split|].
  apply Forall_cons in Ha as [Hx Ha], Hb as [Hy Hb]. unfold byte_range in *.
  cbn [length peer_compare_loop].
  assert (forall (k1 k2 : bytes) z, length k1 = length b1 -> rd (k1 ++ z :: k2) (zlen b1) = Ret z) as Hrd.
  { intros k1 k2 z Hk. unfold rd, zlen. rewrite (proj2 (Z.ltb_ge _ 0)) by lia. rewrite Nat2Z.id, <- Hk.
    by rewrite list_lookup_middle. }
  rewrite !Hrd by done. cbn [rbind]. destruct (Z.eqb_spec x y) as [->|Hne].
  - replace (a1 ++ y :: a2) with ((a1 ++ [y]) ++ a2) by (by rewrite <- app_assoc).
    replace (b1 ++ y :: b2) with ((b1 ++ [y]) ++ b2) by (by rewrite <- app_assoc).
    replace (zlen b1 + 1) with (zlen (b1 ++ [y])) by (rewrite zlen_app; reflexivity).
    simpl in Hl. destruct (IH (a1 ++ [y]) (b1 ++ [y]) a2 Ha Hb ltac:(lia)) as (c & E & Hc);
      [rewrite !length_app; simpl; lia|].
    exists c. split; [done|]. rewrite Hc. split; [by intros ->|by intros [= ->]].
  - exists (s8 y - s8 x). split; [done|]. split; [|by intros [= -> ->]].
    unfold s8. intros E. exfalso. apply Hne. Z.to_euclidean_division_equations; lia.
Qed.

(** 0 exactly for the same identity *)
Lemma peer_compare_ok a b : peer_ok a -> peer_ok b ->
  exists c, libp2p_peer_compare (Some a) (Some b) = Ret c /\ (c = 0 <-> peer_id a = peer_id b).
Proof.
  intros (Ha & Hal & Hab) (Hb & Hbl & Hbb). unfold libp2p_peer_compare, peer_id. rewrite Ha, Hb.
  pose proof (zlen_nonneg (deref (id a))). pose proof (zlen_nonneg (deref (id b))).
  destruct (Z.eqb_spec (zlen (deref (id a))) (zlen (deref (id b)))) as [E|E].
  - rewrite E. unfold zlen at 1. rewrite Nat2Z.id.
    apply (peer_compare_loop_ok (deref (id b)) [] [] (deref (id a))); try done. unfold zlen in E. lia.
  - eexists. split; [done|]. split; [|intros E'; by rewrite E' in E].
    unfold s32, u64. intros E'. exfalso. apply E. Z.to_euclidean_division_equations; lia.
Qed.

(** ** Well-formed queues *)

(** the cells for entries and their requests, in order, with the [prior]
    pointers *)
Fixpoint chain (prev : loc) (es : list (positive * positive)) : list (positive * PeerRequestEntry) :=
  match es with
  | [] => []
  | (l, r) :: es => (l, mkEntry prev (Some r)) :: chain (Some l) es
  end.

Fixpoint last_entry (prev : loc) (es : list (positive * positive)) : loc :=
  match es with
  | [] => prev
  | (l, _) :: es => last_entry (Some l) es
  end.

Definition request_of (rs : heap PeerRequest) (e : positive * positive) (req : PeerRequest) : Prop :=
  exists n p, cells rs !! e.2 = Some (req, n) /\ peer req = Some p /\ peer_ok p.

(** [queue q es reqs]: the entries [es] hold the requests [reqs] *)
Definition queue_ok (q : PeerRequestQueue) (es : list (positive * positive)) (reqs : list PeerRequest) : Prop :=
  seg (cells (entries q)) (first q) (chain None es) None /\ last q = last_entry None es /\
  heap_ok (entries q) /\ heap_ok (requests q) /\ Forall2 (request_of (requests q)) es reqs.

Definition req_id (req : PeerRequest) : bytes := from_option peer_id [] (peer req).

Lemma chain_app prev es1 es2 : chain prev (es1 ++ es2) = chain prev es1 ++ chain (last_entry prev es1) es2.
Proof.
  revert prev. induction es1 as [|[l r] es1 IH]; intros prev; [done|].
  cbn [app chain last_entry]. by rewrite IH.
Qed.

Lemma chain_fst prev es : (chain prev es).*1 = es.*1.
Proof.
  revert prev. induction es as [|[l r] es IH]; intros prev; [done|]. cbn [chain fmap list_fmap fst]. by rewrite IH.
Qed.
Lemma chain_length prev es : length (chain prev es) = length es.
Proof. revert prev. induction es as [|[l r] es IH]; intros prev; simpl; [done|]. by rewrite IH. Qed.
Lemma last_entry_app prev es1 es2 : last_entry prev (es1 ++ es2) = last_entry (last_entry prev es1) es2.
Proof. revert prev. induction es1 as [|[l r] es1 IH]; intros prev; simpl; [done|]. apply IH. Qed.
Lemma last_entry_snoc prev es l r : last_entry prev (es ++ [(l, r)]) = Some l.
Proof. revert prev. induction es as [|[l' r'] es IH]; intros prev; simpl; [done|]. apply IH. Qed.

(** ** Walking the queue *)
Section walk.
Context {M : Malloc}.
Implicit Types q : PeerRequestQueue.

Lemma find_peer_step fuel q l pr r n req p : cells (entries q) !! l = Some (mkEntry pr (Some r), n) ->
  request_of (requests q) (l, r) req -> peer_ok p ->
  find_peer_loop (S fuel) q (Some l) (Some p) =
    if decide (req_id req = peer_id p) then Ret (Some r, q) else find_peer_loop fuel q n (Some p).
Proof.
  intros Hl (n' & p' & Hr & Hp' & Hok') Hok. cbn [find_peer_loop]. rewrite (load_some _ _ _ Hl). cbn [rbind current].
  cbn [snd] in Hr. rewrite (load_some _ _ _ Hr). cbn [rbind]. unfold req_id. rewrite Hp'. cbn [from_option].
  destruct (peer_compare_ok p' p Hok' Hok) as (c & -> & Hc). cbn [rbind].
  destruct (decide (peer_id p' = peer_id p)) as [E|E].
  - by rewrite (proj2 (Z.eqb_eq c 0)) by (by apply Hc).
  - rewrite (proj2 (Z.eqb_neq c 0)); [done|]. by rewrite Hc.
Qed.

Lemma find_entry_step fuel q l pr r n req p : cells (entries q) !! l = Some (mkEntry pr (Some r), n) ->
  request_of (requests q) (l, r) req -> peer_ok p ->
  find_entry_loop (S fuel) q (Some l) p =
    if decide (req_id req = peer_id p) then Ret (Some l) else find_entry_loop fuel q n p.
Proof.
  intros Hl (n' & p' & Hr & Hp' & Hok') Hok. cbn [find_entry_loop]. rewrite (load_some _ _ _ Hl). cbn [rbind current].
  cbn [snd] in Hr. rewrite (load_some _ _ _ Hr). cbn [rbind]. unfold req_id. rewrite Hp'. cbn [from_option].
  destruct (peer_compare_ok p' p Hok' Hok) as (c & -> & Hc). cbn [rbind].
  destruct (decide (peer_id p' = peer_id p)) as [E|E].
  - by rewrite (proj2 (Z.eqb_eq c 0)) by (by apply Hc).
  - rewrite (proj2 (Z.eqb_neq c 0)); [done|]. by rewrite Hc.
Qed.

(** entries of other peers are passed; with less fuel than entries the walk does
    not end *)
Lemma find_peer_walk q p es reqs : peer_ok p -> Forall2 (request_of (requests q)) es reqs ->
  Forall (fun req => req_id req <> peer_id p) reqs ->
  forall cur prev after fuel, seg (cells (entries q)) cur (chain prev es) after ->
  find_peer_loop fuel q cur (Some p) =
    if decide (fuel <= length es)%nat then
      match es with [] => match fuel with O => NoFuel | _ => find_peer_loop fuel q after (Some p) end | _ => NoFuel end
    else find_peer_loop (fuel - length es) q after (Some p).
Proof.
  intros Hok Hall. induction Hall as [|[l r] req es reqs Hreq _ IH]; intros Hne cur prev after fuel Hs.
  - simpl in Hs. subst cur. destruct fuel; simpl; [done|]. done.
  - destruct fuel as [|fuel]; [done|]. apply Forall_cons in Hne as [Hne1 Hne].
    destruct Hs as (-> & n & Hl & Hs). rewrite (find_peer_step _ _ _ _ _ _ _ _ Hl Hreq Hok).
    rewrite decide_False by done. rewrite (IH Hne _ _ _ fuel Hs). simpl length.
    destruct (decide (fuel <= length es)%nat), (decide (S fuel <= S (length es))%nat); try lia; [|done].
    destruct es; [|done]. destruct fuel; [done|simpl in *; lia].
Qed.

Lemma find_entry_walk q p es reqs : peer_ok p -> Forall2 (request_of (requests q)) es reqs ->
  Forall (fun req => req_id req <> peer_id p) reqs ->
  forall cur prev after fuel, seg (cells (entries q)) cur (chain prev es) after ->
  find_entry_loop (length es + fuel) q cur p = find_entry_loop fuel q after p.
Proof.
  intros Hok Hall. induction Hall as [|[l r] req es reqs Hreq _ IH]; intros Hne cur prev after fuel Hs.
  - simpl in Hs. by subst cur.
  - apply Forall_cons in Hne as [Hne1 Hne]. destruct Hs as (-> & n & Hl & Hs). simpl length. cbn [Nat.add].
    rewrite (find_entry_step _ _ _ _ _ _ _ _ Hl Hreq Hok). rewrite decide_False by done. by apply IH with (prev := Some l).
Qed.

Lemma queue_fuel q es reqs : queue_ok q es reqs -> (length es < walk_fuel (entries q))%nat.
Proof.
  intros (Hs & _). apply seg_length in Hs. rewrite chain_length in Hs. unfold walk_fuel. lia.
Qed.

(** requests that were there before stay *)
Lemma request_of_insert rs es reqs v : heap_ok rs -> Forall2 (request_of rs) es reqs ->
  Forall2 (request_of (mkHeap (<[brk rs := v]> (cells rs)) (Pos.succ (brk rs)))) es reqs.
Proof.
  intros Hok Hall. eapply Forall2_impl; [exact Hall|]. intros e req (n & p & Hr & Hp & Hpok).
  exists n, p. split; [|done]. cbn [cells]. rewrite lookup_insert_ne; [done|].
  intros E. pose proof (Hok e.2) as Hlt. rewrite <- E in Hlt.
  specialize (Hlt ltac:(rewrite E, Hr; by eexists)). lia.
Qed.

Definition blank_request (p : Libp2pPeer) : PeerRequest := mkRequest (Some p) (vector_of []) (vector_of []) (vector_of []).

Context {Hm : MallocOk M}.

Lemma append_peer_ok q es reqs p : queue_ok q es reqs -> peer_ok p ->
  exists q' l r, queue_append_peer q (Some p) = Ret (Some r, q') /\
    queue_ok q' (es ++ [(l, r)]) (reqs ++ [blank_request p]) /\ cells (requests q) !! r = None.
Proof.
  intros (Hs & Hlast & He & Hr & Hall) Hp. unfold queue_append_peer, ipfs_bitswap_peer_request_entry_new,
    ipfs_bitswap_peer_request_new. rewrite alloc_ok, malloc_always. rewrite !vector_new_of. cbn [rbind].
  rewrite alloc_ok. rewrite (load_some _ _ (mkRequest None (vector_of []) (vector_of []) (vector_of []), None))
    by apply lookup_insert_eq. cbn [rbind].
  erewrite store_some by apply lookup_insert_eq. cbn [rbind cells brk]. rewrite insert_insert_eq.
  set (l := brk (entries q)). set (r := brk (requests q)).
  assert (Hnew : forall req, peer req = Some p -> Forall2 (request_of (mkHeap (<[r := (req, None)]> (cells (requests q))) (Pos.succ r)))
    (es ++ [(l, r)]) (reqs ++ [req])).
  { intros req Hreq. apply Forall2_app; [by apply request_of_insert|]. constructor; [|constructor].
    exists None, p. split; [apply lookup_insert_eq|done]. }
  pose proof (heap_ok_fresh _ He) as Hfresh. fold l in Hfresh.
  destruct es as [|[ll lr] pre _] using rev_ind.
  - simpl in Hs. rewrite Hs. erewrite store_some by apply lookup_insert_eq. cbn [rbind cells brk]. rewrite insert_insert_eq.
    eexists _, l, r. split; [done|]. split; [|by apply heap_ok_fresh].
    split_and!; cbn [entries requests first last]; [|done|by apply heap_ok_alloc|by apply heap_ok_alloc|by apply Hnew].
    split; [done|]. exists None. split; [apply lookup_insert_eq|done].
  - rewrite chain_app in Hs. cbn [chain] in Hs. rewrite last_entry_snoc in Hlast.
    assert (Hf : exists f, first q = Some f).
    { destruct (chain None pre) as [|[f ?] ?]; destruct Hs as [-> _]; by eexists. }
    destruct Hf as [f Hf]. rewrite Hf.
    pose proof (seg_lookup _ _ _ _ _ _ _ Hs) as (n & Hll & _ & Hn). simpl in Hn. subst n.
    assert (Hne : l <> ll) by (intros E; rewrite <- E in Hll; congruence).
    rewrite Hlast. rewrite (load_some _ ll (mkEntry (last_entry None pre) (Some lr), None))
      by (cbn [cells]; by rewrite lookup_insert_ne). cbn [rbind].
    rewrite (store_some _ ll _ (mkEntry (last_entry None pre) (Some lr), None))
      by (cbn [cells]; by rewrite lookup_insert_ne). cbn [rbind cells brk].
    rewrite (store_some _ l _ (mkEntry None None, None))
      by (cbn [cells]; rewrite lookup_insert_ne by done; apply lookup_insert_eq). cbn [rbind cells brk].
    rewrite (insert_insert_ne _ ll l) by done. rewrite insert_insert_eq.
    eexists _, l, r. split; [done|]. split; [|by apply heap_ok_fresh].
    assert (Hin : l ∉ (chain None pre ++ [(ll, mkEntry (last_entry None pre) (Some lr))]).*1)
      by (by eapply heap_ok_seg_fresh).
    split_and!; cbn [entries requests first last].
    + rewrite <- Hf, chain_app. rewrite last_entry_snoc. cbn [chain]. rewrite chain_app. cbn [chain].
      by apply seg_snoc.
    + by rewrite last_entry_snoc.
    + intros k. cbn [cells brk]. destruct (decide (k = l)) as [E|Hk]; [rewrite E; unfold l; lia|].
      rewrite lookup_insert_ne by done. destruct (decide (k = ll)) as [->|Hk2].
      * intros _. specialize (He ll ltac:(by eexists)). lia.
      * rewrite lookup_insert_ne by done. intros Hk3. specialize (He k Hk3). lia.
    + by apply heap_ok_alloc.
    + by apply Hnew.
Qed.

(** the request of the first entry for a peer *)
Fixpoint find_request (p : Libp2pPeer) (es : list (positive * positive)) (reqs : list PeerRequest) : loc :=
  match es, reqs with
  | (_, r) :: es, req :: reqs => if decide (req_id req = peer_id p) then Some r else find_request p es reqs
  | _, _ => None
  end.

Lemma find_peer_loop_ok q p es reqs : peer_ok p -> Forall2 (request_of (requests q)) es reqs ->
  forall cur prev fuel, seg (cells (entries q)) cur (chain prev es) None -> (length es < fuel)%nat ->
  find_peer_loop fuel q cur (Some p) =
    match find_request p es reqs with
    | Some r => Ret (Some r, q)
    | None => queue_append_peer q (Some p)
    end.
Proof.
  intros Hok. induction 1 as [|[l r] req es reqs Hreq _ IH]; intros cur prev [|fuel] Hs Hf; try (simpl in Hf; lia).
  - simpl in Hs. by subst cur.
  - destruct Hs as (-> & n & Hl & Hs). rewrite (find_peer_step _ _ _ _ _ _ _ _ Hl Hreq Hok). cbn [find_request].
    destruct (decide (req_id req = peer_id p)); [done|]. by apply IH with (prev := Some l); [|simpl in Hf; lia].
Qed.

Lemma find_peer_ok q es reqs p : queue_ok q es reqs -> peer_ok p ->
  ipfs_peer_request_queue_find_peer q (Some p) =
    match find_request p es reqs with
    | Some r => Ret (Some r, q)
    | None => queue_append_peer q (Some p)
    end.
Proof.
  intros Hq Hp. pose proof (queue_fuel _ _ _ Hq) as Hf. destruct Hq as (Hs & _ & _ & _ & Hall).
  by apply (find_peer_loop_ok q p es reqs Hp Hall _ None).
Qed.

Lemma find_request_snoc p es reqs l r req : length es = length reqs -> find_request p es reqs = None ->
  find_request p (es ++ [(l, r)]) (reqs ++ [req]) = if decide (req_id req = peer_id p) then Some r else None.
Proof.
  revert reqs. induction es as [|[l' r'] es IH]; intros [|req' reqs] Hl; try done.
  cbn [find_request app]. destruct (decide (req_id req' = peer_id p)); [done|]. apply IH. simpl in Hl. lia.
Qed.

Lemma find_request_none p es reqs : length es = length reqs ->
  Forall (fun req => req_id req <> peer_id p) reqs -> find_request p es reqs = None.
Proof.
  revert es. induction reqs as [|req reqs IH]; intros [|[l r] es] Hl Hall; try done.
  apply Forall_cons in Hall as [H1 H2]. cbn [find_request]. rewrite decide_False by done. apply IH; [simpl in Hl; lia|done].
Qed.

(** only a request with nothing to do is changed *)
Lemma something_to_do_same ctx req t req' : something_to_do ctx req = Ret (t, req') -> t <> 0 -> req' = req.
Proof.
  unfold something_to_do. repeat case_match; intros [= <- <-]; done.
Qed.

(** a segment whose last cell now points somewhere else *)
Lemma seg_redirect m cur es prev l r next : seg m cur (chain prev (es ++ [(l, r)])) None ->
  seg (<[l := (mkEntry (last_entry prev es) (Some r), next)]> m) cur (chain prev (es ++ [(l, r)])) next.
Proof.
  intros Hs. pose proof (seg_NoDup _ _ _ Hs) as Hnd. rewrite chain_app in *. cbn [chain] in *.
  apply seg_lookup in Hs as (n & Hl & H1 & _). apply seg_snoc_insert; [|done|done].
  rewrite fmap_app in Hnd. apply NoDup_app in Hnd as (_ & Hnd & _). intros Hin.
  apply (Hnd l Hin). cbn [fmap list_fmap fst]. apply list_elem_of_here.
Qed.

(** a walk around a cycle does not end *)
Lemma find_peer_cycle q p es reqs cur prev l r req : peer_ok p ->
  Forall2 (request_of (requests q)) es reqs -> Forall (fun req => req_id req <> peer_id p) reqs ->
  request_of (requests q) (l, r) req -> req_id req <> peer_id p ->
  seg (cells (entries q)) cur (chain prev es) (Some l) ->
  cells (entries q) !! l = Some (mkEntry None (Some r), cur) ->
  forall fuel, find_peer_loop fuel q cur (Some p) = NoFuel.
Proof.
  intros Hok Hall Hne Hreq Hne0 Hs Hl fuel. induction fuel as [fuel IH] using lt_wf_ind.
  rewrite (find_peer_walk q p es reqs Hok Hall Hne cur prev (Some l) fuel Hs).
  assert (Hback : forall k, (k <= fuel)%nat -> find_peer_loop k q (Some l) (Some p) = NoFuel).
  { intros [|k] Hk; [done|]. rewrite (find_peer_step _ _ _ _ _ _ _ _ Hl Hreq Hok). rewrite decide_False by done.
    apply IH. lia. }
  destruct (decide (fuel <= length es)%nat).
  - destruct es; [|done]. destruct fuel; [done|]. by apply Hback.
  - apply Hback. lia.
Qed.

(** [load] of every entry of [es] *)
Definition has_entries (m : gmap positive (PeerRequestEntry * loc)) (prev : loc) (es : list (positive * positive)) : Prop :=
  Forall (fun x => exists n, m !! x.1 = Some (x.2, n)) (chain prev es).

Lemma seg_has_entries m cur prev es after : seg m cur (chain prev es) after -> has_entries m prev es.
Proof.
  unfold has_entries. revert cur prev. induction es as [|[l r] es IH]; intros cur prev; [constructor|].
  intros (-> & n & Hl & Hs). constructor; [by exists n|]. by eapply IH.
Qed.

Lemma has_entries_app m prev es1 es2 : has_entries m prev (es1 ++ es2) <->
  has_entries m prev es1 /\ has_entries m (last_entry prev es1) es2.
Proof. unfold has_entries. by rewrite chain_app, Forall_app. Qed.

Lemma has_entries_change m m' prev es : (forall l, l ∈ es.*1 -> m' !! l = m !! l) ->
  has_entries m prev es -> has_entries m' prev es.
Proof.
  intros Hsame Hall. unfold has_entries in *. rewrite Forall_forall in *. intros [l d] Hin.
  destruct (Hall _ Hin) as [n Hn]. exists n. cbn [fst snd] in *. rewrite Hsame; [done|].
  rewrite <- (chain_fst prev). by apply (list_elem_of_fmap_2 fst _ (l, d)).
Qed.

(** freeing the entries from the back, until the freed one *)
Lemma queue_free_ub l es : forall eh rs fuel, has_entries (cells eh) (Some l) es -> NoDup es.*1 -> l ∉ es.*1 ->
  cells eh !! l = None -> (length es < fuel)%nat ->
  queue_free_loop fuel eh rs (last_entry (Some l) es) = UB.
Proof.
  induction es as [|[ll lr] es IH] using rev_ind; intros eh rs [|fuel] Hes Hnd Hl Hfree Hf; try lia.
  - cbn [last_entry queue_free_loop]. by rewrite (load_freed _ _ Hfree).
  - rewrite length_app in Hf. simpl in Hf. rewrite fmap_app in Hnd, Hl. cbn [fmap list_fmap fst] in Hnd, Hl.
    apply NoDup_app in Hnd as (Hnd & Hdisj & _). apply not_elem_of_app in Hl as [Hl1 Hl2].
    rewrite list_elem_of_singleton in Hl2.
    apply has_entries_app in Hes as [Hes Hlast]. apply Forall_cons in Hlast as [[n Hn] _]. cbn [fst snd] in Hn.
    rewrite last_entry_snoc. cbn [queue_free_loop]. rewrite (load_some _ _ _ Hn). cbn [rbind].
    unfold ipfs_bitswap_peer_request_entry_free. rewrite (load_some _ _ _ Hn). cbn [rbind].
    assert (Hrel : forall o, (exists rs', ipfs_bitswap_peer_request_free rs o = Ret rs') \/ ipfs_bitswap_peer_request_free rs o = UB).
    { intros [o|]; unfold ipfs_bitswap_peer_request_free, release; [|by left; eexists].
      destruct (cells rs !! o); [by left; eexists|by right]. }
    cbn [current]. destruct (Hrel (Some lr)) as [[rs' ->]| ->]; [|done]. cbn [rbind].
    rewrite (release_some _ _ _ Hn). cbn [rbind prior].
    apply IH; cbn [cells]; [| done | done | by rewrite lookup_delete_ne | lia].
    apply (has_entries_change (cells eh)); [|done]. intros k Hk. rewrite lookup_delete_ne; [done|].
    intros <-. by apply (Hdisj ll Hk), list_elem_of_singleton.
Qed.

Lemma find_entry_ok q es1 l r es2 reqs1 req reqs2 p :
  queue_ok q (es1 ++ (l, r) :: es2) (reqs1 ++ req :: reqs2) -> length es1 = length reqs1 -> peer_ok p ->
  Forall (fun req => req_id req <> peer_id p) reqs1 -> req_id req = peer_id p ->
  ipfs_bitswap_peer_request_queue_find_entry q (Some p) = Ret (Some l).
Proof.
  intros Hq Hlen Hp Hne Heq. pose proof (queue_fuel _ _ _ Hq) as Hf. rewrite length_app in Hf. simpl length in Hf.
  destruct Hq as (Hs & _ & _ & _ & Hall). apply Forall2_app_inv in Hall as [Hall1 Hall2]; [|done].
  apply Forall2_cons_1 in Hall2 as [Hreq _]. unfold ipfs_bitswap_peer_request_queue_find_entry.
  rewrite chain_app in Hs. apply seg_app in Hs as (cur & H1 & H2). cbn [chain] in H2. destruct H2 as (-> & n & Hl & _).
  replace (walk_fuel (entries q)) with (length es1 + S (walk_fuel (entries q) - length es1 - 1))%nat by lia.
  rewrite (find_entry_walk q p es1 reqs1 Hp Hall1 Hne _ None (Some l) _ H1).
  rewrite (find_entry_step _ _ _ _ _ _ _ _ Hl Hreq Hp). by rewrite decide_True.
Qed.

Lemma find_entry_none q cur es reqs p fuel : seg (cells (entries q)) cur (chain None es) None ->
  Forall2 (request_of (requests q)) es reqs -> peer_ok p ->
  Forall (fun req => req_id req <> peer_id p) reqs -> (length es < fuel)%nat ->
  find_entry_loop fuel q cur p = Ret None.
Proof.
  intros Hs Hall Hp Hne Hf. replace fuel with (length es + S (fuel - length es - 1))%nat by lia.
  by rewrite (find_entry_walk q p es reqs Hp Hall Hne _ None None _ Hs).
Qed.
End walk.

(** ** Serving a request *)

(** the blocks the store has for what a peer waits for *)
Definition fetched (g : option Cid -> option Block) (they : list CidEntry) : list Block :=
  omap (fun e => if ce_cancel e =? 0 then g (ce_cid e) else None) they.
Definition after_fetch (g : option Cid -> option Block) (e : CidEntry) : CidEntry :=
  if ce_cancel e =? 0 then match g (ce_cid e) with Some _ => set_cancel e | None => e end else e.

Section serve.
Context {M : Malloc} {Hm : MallocOk M}.

Lemma get_blocks_loop_ok ctx g post : Forall (fun e => Get ctx (ce_cid e) = Ret (g (ce_cid e))) post -> forall pre they blocks bs,
  holds they (pre ++ post) -> vector_ok blocks -> holds blocks bs -> zlen bs + zlen post <= 2 ^ 29 ->
  exists they' blocks', get_blocks_loop ctx (length post) (zlen pre) they blocks = Ret (they', blocks') /\
    holds they' (pre ++ (after_fetch g <$> post)) /\ vector_ok blocks' /\ holds blocks' (bs ++ fetched g post).
Proof.
  induction 1 as [|e post Hg _ IH]; intros pre they blocks bs Hthey Hok Hb Hlen.
  - exists they, blocks. split_and!; [done|done|done|]. change (fetched g []) with (@nil Block). by rewrite app_nil_r.
  - rewrite zlen_cons in Hlen. zlen_facts. cbn [length get_blocks_loop]. rewrite (holds_get _ _ _ _ Hthey).
    assert (Hnext : zlen pre + 1 = zlen (pre ++ [e])) by (rewrite zlen_app; reflexivity).
    assert (Hskip : forall e', after_fetch g e = e' -> holds they (pre ++ e' :: post) -> forall blocks' bs',
      vector_ok blocks' -> holds blocks' bs' -> zlen bs' + zlen post <= 2 ^ 29 ->
      exists they' blocks'', get_blocks_loop ctx (length post) (zlen pre + 1) they blocks' = Ret (they', blocks'') /\
        holds they' (pre ++ (after_fetch g <$> e :: post)) /\ vector_ok blocks'' /\ holds blocks'' (bs' ++ fetched g post)).
    { intros e' He Hth blocks' bs' V1 V2 V3.
      assert (Hz : zlen pre + 1 = zlen (pre ++ [e'])) by (rewrite zlen_app; reflexivity).
      rewrite Hz. destruct (IH (pre ++ [e']) they blocks' bs') as (they' & blocks'' & E & K1 & K2 & K3);
        [by rewrite <- app_assoc|done|done|done|].
      exists they', blocks''. rewrite <- app_assoc in K1. rewrite fmap_cons, He. by split_and!. }
    unfold fetched, after_fetch in *. cbn [omap list_omap]. destruct (ce_cancel e =? 0) eqn:Ec.
    + rewrite Hg. cbn [rbind]. destruct (g (ce_cid e)) as [b|] eqn:Eg; [|by apply (Hskip e); [|done..|lia]].
      destruct (holds_add blocks bs b Hb Hok ltac:(lia)) as (v' & n & -> & Hok' & Hv'). cbn [rbind].
      destruct (IH (pre ++ [set_cancel e]) (cid_entry_update they (zlen pre) (set_cancel e)) v' (bs ++ [b]))
        as (they' & blocks'' & E & K1 & K2 & K3); [rewrite <- app_assoc; by apply (holds_set _ _ e)|done|done|zlia|].
      replace (zlen (pre ++ [set_cancel e])) with (zlen pre + 1) in E by (rewrite zlen_app; reflexivity).
      exists they', blocks''. rewrite <- app_assoc in K1, K3. rewrite fmap_cons. rewrite Ec, Eg. by split_and!.
    + by apply (Hskip e); [|done..|lia].
Qed.

Lemma we_want_loop_ok l : we_want_loop (Some <$> l) = Ret (if decide (pendings l = []) then 0 else 1).
Proof.
  unfold pendings. induction l as [|e l IH]; [done|]. cbn [fmap list_fmap we_want_loop].
  rewrite filter_cons. destruct (cid_entry_pending e); cbn [decide]; [|done].
  destruct (decide (true = true)) as [_|Hn]; [by rewrite decide_False|done].
Qed.

Lemma cids_waiting_ok v l : holds v l -> ipfs_bitswap_peer_request_cids_waiting (Some v) =
  if decide (Exists (fun e => ce_cancel e = 0) l) then 1 else 0.
Proof.
  intros Hv. unfold ipfs_bitswap_peer_request_cids_waiting. rewrite vector_each_items, Hv.
  assert (E : existsb (fun e => match e with Some e => ce_cancel e =? 0 | None => false end) (Some <$> l) =
    bool_decide (Exists (fun e => ce_cancel e = 0) l)).
  { clear Hv. induction l as [|e l IH]; [done|]. cbn [fmap list_fmap existsb]. rewrite IH.
    destruct (Z.eqb_spec (ce_cancel e) 0) as [E|E]; simpl; symmetry.
    - apply bool_decide_eq_true_2. by left.
    - apply bool_decide_ext. rewrite Exists_cons. split; [by intros [?|?]|by right]. }
  rewrite E. by destruct (bool_decide_reflect (Exists (fun e => ce_cancel e = 0) l)), (decide _).
Qed.

(** what a message carries *)
Definition payload_is (m : BitswapMessage) (bs : list Block) : Prop :=
  match bm_payload m with Some v => holds v bs | None => bs = [] end.
Definition wants_are (m : BitswapMessage) (l : list CidEntry) : Prop :=
  exists v ws, (wl_entries <$> bm_wantlist m) = Some (Some v) /\ holds v ws /\ Forall2 sent_for ws l.

(** no raw blocks, and the flag of a new wantlist *)
Definition plain (m : BitswapMessage) : Prop := bm_blocks m = None /\ (wl_full <$> bm_wantlist m) = Some 1.

Lemma send_request_ok ctx g r p they we bs : Forall (fun e => Get ctx (ce_cid e) = Ret (g (ce_cid e))) they ->
  holds (cids_they_want r) they -> holds (cids_we_want r) we ->
  vector_ok (blocks_we_want_to_send r) -> holds (blocks_we_want_to_send r) bs ->
  Forall (fun e => cid_valid (ce_cid e)) they -> Forall cid_entry_ok we ->
  Forall (fun b => cid_valid (block_cid b)) (bs ++ fetched g they) -> zlen bs + zlen they + zlen we <= 2 ^ 28 ->
  exists m r', send_request ctx r p = Ret (if ipfs_bitswap_network_send_message ctx p m =? 0 then 0 else 1, r') /\
    payload_is m (bs ++ fetched g they) /\ wants_are m (pendings we) /\ plain m /\
    peer r' = Some p /\ v_items (blocks_we_want_to_send r') = [] /\ holds (cids_we_want r') (marked <$> we) /\
    holds (cids_they_want r')
      (foldl (fun l b => cancel_first (block_cid b) l) (after_fetch g <$> they) (bs ++ fetched g they)).
Proof.
  intros Hg Hthey Hwe Hok Hb Hvt Hvw Hvb Hlen. zlen_facts. unfold send_request, ipfs_bitswap_message_new.
  rewrite malloc_always. unfold ipfs_bitswap_peer_request_get_blocks_they_want. rewrite (holds_total _ _ Hthey).
  unfold zlen at 1. rewrite Nat2Z.id.
  destruct (get_blocks_loop_ok ctx g they Hg [] (cids_they_want r) _ bs Hthey Hok Hb ltac:(lia))
    as (they' & blocks' & E & K1 & K2 & K3).
  change (zlen []) with 0 in E. rewrite E. cbn [rbind blocks_we_want_to_send cids_they_want cids_we_want]. cbn [app] in K1.
  assert (Hvt' : Forall (fun e => cid_valid (ce_cid e)) (after_fetch g <$> they)).
  { apply Forall_fmap. eapply Forall_impl; [exact Hvt|]. intros e He. cbn. unfold after_fetch. by repeat case_match. }
  assert (Hfl : zlen (fetched g they) <= zlen they).
  { clear. unfold fetched, zlen. induction they as [|e l IH]; [done|]. cbn [omap list_omap]. case_match; simpl length in *; lia. }
  destruct (add_wantlist_items_ok (mkMessage None None None) [] (cids_we_want r) we eq_refl Hwe Hvw) as (v & new & we' & E2 & _ & L1 & L2 & L3);
    [change (zlen []) with 0; lia|].
  destruct (bs ++ fetched g they) as [|b l] eqn:Ebs.
  - unfold ipfs_bitswap_message_add_blocks. rewrite (holds_total _ _ K3). change (zlen [] =? 0) with true. cbn [rbind].
    rewrite E2. cbn [rbind bm_blocks bm_payload].
    eexists _, _. split; [done|]. split; [done|]. split; [by exists v, new|]. split; [done|].
    cbn [peer blocks_we_want_to_send cids_we_want cids_they_want]. by split_and!.
  - destruct (add_blocks_ok (mkMessage None None None) blocks' b l [] they' (after_fetch g <$> they) K3 Hvb eq_refl K1 Hvt')
      as (pl & bs' & they'' & E3 & P1 & P2 & P3).
    { change (zlen []) with 0. rewrite <- Ebs, zlen_app. lia. }
    rewrite E3. cbn [rbind bm_wantlist bm_blocks].
    destruct (add_wantlist_items_ok (mkMessage None None (Some pl)) [] (cids_we_want r) we eq_refl Hwe Hvw) as (v2 & new2 & we2 & E4 & _ & Q1 & Q2 & Q3);
      [change (zlen []) with 0; lia|].
    rewrite E4. cbn [rbind bm_blocks bm_payload].
    eexists _, _. split; [done|]. split; [done|]. split; [by exists v2, new2|]. split; [done|]. by split_and!.
Qed.
End serve.

Lemma process_entry_ok {M : Malloc} {Hm : MallocOk M} (ctx : BitswapContext)
    (g : option Cid -> option Block) (r : PeerRequest) (p : Libp2pPeer) (they we : list CidEntry)
    (bs : list Block) :
  Forall (fun e => Get ctx (ce_cid e) = Ret (g (ce_cid e))) they -> peer r = Some p ->
  is_local p <> 0 \/ connection_type p = CONNECTION_TYPE_CONNECTED ->
  holds (cids_they_want r) they -> holds (cids_we_want r) we ->
  vector_ok (blocks_we_want_to_send r) -> holds (blocks_we_want_to_send r) bs ->
  Forall (fun e => cid_valid (ce_cid e)) they -> Forall cid_entry_ok we ->
  Forall (fun b => cid_valid (block_cid b)) (bs ++ fetched g they) -> zlen bs + zlen they + zlen we <= 2 ^ 28 ->
  if decide (pendings we = [] /\ Forall (fun e => ce_cancel e <> 0) they /\ bs = []) then
    ipfs_bitswap_peer_request_process_entry ctx (Some r) = Ret (0, Some r)
  else exists m r',
    ipfs_bitswap_peer_request_process_entry ctx (Some r) =
      Ret (if ipfs_bitswap_network_send_message ctx p m =? 0 then 0 else 1, Some r') /\
    payload_is m (bs ++ fetched g they) /\ wants_are m (pendings we) /\ plain m /\
    peer r' = Some p /\ v_items (blocks_we_want_to_send r') = [] /\ holds (cids_we_want r') (marked <$> we) /\
    holds (cids_they_want r')
      (foldl (fun l b => cancel_first (block_cid b) l) (after_fetch g <$> they) (bs ++ fetched g they)).
Proof.
  intros Hg Hpeer Hconn Hthey Hwe Hok Hb Hvt Hvw Hvb Hlen.
  unfold ipfs_bitswap_peer_request_process_entry. rewrite Hpeer.
  assert (Hc : negb (is_local p =? 0) || (connection_type p =? CONNECTION_TYPE_CONNECTED) = true).
  { destruct Hconn as [E|E]; [by rewrite (proj2 (Z.eqb_neq _ _) E)|].
    rewrite (proj2 (Z.eqb_eq _ _) E). apply orb_true_r. }
  assert (Hu : (is_local p =? 0) && negb (connection_type p =? CONNECTION_TYPE_CONNECTED) = false).
  { destruct (is_local p =? 0), (connection_type p =? CONNECTION_TYPE_CONNECTED); done. }
  rewrite Hu, Hc. cbn [andb]. unfold ipfs_bitswap_peer_request_we_want_cids.
  rewrite vector_each_items, Hwe, we_want_loop_ok. cbn [rbind].
  rewrite (cids_waiting_ok _ they Hthey), (holds_total _ _ Hb).
  assert (Hbs : zlen bs =? 0 = bool_decide (bs = [])) by (by destruct bs).
  rewrite Hbs.
  destruct (decide (pendings we = [] /\ Forall (fun e => ce_cancel e <> 0) they /\ bs = [])) as [(H1 & H2 & H3)|Hneed].
  - rewrite decide_True by done. rewrite decide_False, bool_decide_eq_true_2 by
      (done || (rewrite <- Forall_Exists_neg; done)). done.
  - assert (Hn : negb ((if decide (pendings we = []) then 0 else 1) =? 0)
      || negb ((if decide (Exists (fun e => ce_cancel e = 0) they) then 1 else 0) =? 0)
      || negb (bool_decide (bs = [])) = true).
    { destruct (decide (pendings we = [])); [|done]. destruct (decide (Exists _ they)) as [|He]; [done|].
      destruct (bool_decide_reflect (bs = [])); [|done]. exfalso. apply Hneed. split_and!; try done.
      by apply Forall_Exists_neg. }
    rewrite Hn.
    destruct (send_request_ok ctx g (mkRequest (Some p) (cids_they_want r) (cids_we_want r) (blocks_we_want_to_send r))
      p they we bs) as (m & r' & E & Hrest); try done.
    exists m, r'. rewrite E. by split.
Qed.

(** ** Properties *)

(** Property C4. Serving a request of a connected (or local) peer: when some want
    was not sent yet, the peer waits for some block, or a block is ready, one
    message is sent.  Its payload is the ready blocks followed by those the block
    store has for what the peer waits for, in order, and no raw ones; its wantlist has one entry
    per want that was not sent yet.  Afterwards no block is ready, the wants are
    marked as sent, and what was delivered is cancelled.  When there is nothing to
    say, nothing is sent and the request stays as it is. *)
Theorem process_entry_spec {M : Malloc} {Hm : MallocOk M} (ctx : BitswapContext)
    (g : option Cid -> option Block) (r : PeerRequest) (p : Libp2pPeer) (they we : list CidEntry)
    (bs : list Block) :
  Forall (fun e => Get ctx (ce_cid e) = Ret (g (ce_cid e))) they -> peer r = Some p ->
  is_local p <> 0 \/ connection_type p = CONNECTION_TYPE_CONNECTED ->
  holds (cids_they_want r) they -> holds (cids_we_want r) we ->
  vector_ok (blocks_we_want_to_send r) -> holds (blocks_we_want_to_send r) bs ->
  Forall (fun e => cid_valid (ce_cid e)) they -> Forall cid_entry_ok we ->
  Forall (fun b => cid_valid (block_cid b)) (bs ++ fetched g they) -> zlen bs + zlen they + zlen we <= 2 ^ 28 ->
  if decide (pendings we = [] /\ Forall (fun e => ce_cancel e <> 0) they /\ bs = []) then
    ipfs_bitswap_peer_request_process_entry ctx (Some r) = Ret (0, Some r)
  else exists m r',
    ipfs_bitswap_peer_request_process_entry ctx (Some r) =
      Ret (if ipfs_bitswap_network_send_message ctx p m =? 0 then 0 else 1, Some r') /\
    payload_is m (bs ++ fetched g they) /\ wants_are m (pendings we) /\ plain m /\
    peer r' = Some p /\ v_items (blocks_we_want_to_send r') = [] /\ holds (cids_we_want r') (marked <$> we) /\
    holds (cids_they_want r')
      (foldl (fun l b => cancel_first (block_cid b) l) (after_fetch g <$> they) (bs ++ fetched g they)).
Proof. exact (process_entry_ok ctx g r p they we bs). Qed.

(** Property C13. [ipfs_peer_request_queue_find_peer] on a well-formed queue
    returns the request of the first entry for that peer and changes nothing;
    for a peer that is not in the queue it puts one entry with an empty request
    at the end, the queue stays well-formed, and the next search finds it. *)
Theorem find_peer_spec {M : Malloc} {Hm : MallocOk M} (q : PeerRequestQueue) (es : list (positive * positive))
    (reqs : list PeerRequest) (p : Libp2pPeer) :
  queue_ok q es reqs -> peer_ok p ->
  match find_request p es reqs with
  | Some r => ipfs_peer_request_queue_find_peer q (Some p) = Ret (Some r, q)
  | None => exists q' l r, ipfs_peer_request_queue_find_peer q (Some p) = Ret (Some r, q') /\
      queue_ok q' (es ++ [(l, r)]) (reqs ++ [blank_request p]) /\
      ipfs_peer_request_queue_find_peer q' (Some p) = Ret (Some r, q')
  end.
Proof.
  intros Hq Hp. pose proof (find_peer_ok q es reqs p Hq Hp) as Hfind.
  destruct (find_request p es reqs) as [r|] eqn:E; [done|]. rewrite Hfind.
  destruct (append_peer_ok q es reqs p Hq Hp) as (q' & l & r & Ha & Hq' & _). exists q', l, r.
  split_and!; [done|done|]. rewrite (find_peer_ok _ _ _ _ Hq' Hp).
  destruct Hq as (_ & _ & _ & _ & Hall). rewrite find_request_snoc by (done || by eapply Forall2_length).
  by rewrite decide_True.
Qed.

(** two peers, each with an empty request *)
Definition ex_peer (x : Z) : Libp2pPeer := mkPeer (Some [x]) 1 [] CONNECTION_TYPE_NOT_CONNECTED None 0.
Definition ex_wanted (x : Z) : PeerRequest :=
  mkRequest (Some (ex_peer x)) (vector_of []) (vector_of [Some (mkCidEntry None 0 0 0)]) (vector_of []).
Definition ex_queue : PeerRequestQueue :=
  mkQueue (mkHeap (<[1%positive := (mkEntry None (Some 1%positive), Some 2%positive)]>
             (<[2%positive := (mkEntry (Some 1%positive) (Some 2%positive), None)]> ∅)) 3)
    (mkHeap (<[1%positive := (ex_wanted 1, None)]> (<[2%positive := (ex_wanted 2, None)]> ∅)) 3)
    (Some 1%positive) (Some 2%positive).
Definition ex_entries : list (positive * positive) := [(1%positive, 1%positive); (2%positive, 2%positive)].

Lemma ex_peer_ok x : byte_range x -> peer_ok (ex_peer x).
Proof. intros Hx. split_and!; [done|done|]. by repeat constructor; apply Hx. Qed.

Lemma ex_heap_ok {D} (u v : D * loc) :
  heap_ok (mkHeap (<[1%positive := u]> (<[2%positive := v]> (∅ : gmap positive (D * loc)))) 3).
Proof.
  intros k. cbn [cells brk]. rewrite !lookup_insert_is_Some. intros [<-|[_ [<-|[_ [? E]]]]]; [lia|lia|].
  by rewrite lookup_empty in E.
Qed.

Lemma ex_queue_ok : queue_ok ex_queue ex_entries [ex_wanted 1; ex_wanted 2].
Proof.
  split_and!; [|done|apply ex_heap_ok|apply ex_heap_ok|].
  - split; [done|]. exists (Some 2%positive). split; [done|]. split; [done|]. by exists None.
  - constructor; [|constructor; [|constructor]]; eexists None, _; (split; [reflexivity|]); (split; [reflexivity|]);
      apply ex_peer_ok; unfold byte_range; lia.
Qed.

Lemma find_peer_spec_witness :
  let M := malloc_total in
  ipfs_peer_request_queue_find_peer ex_queue (Some (ex_peer 2)) = Ret (Some 2%positive, ex_queue) /\
  exists q' l r, ipfs_peer_request_queue_find_peer ex_queue (Some (ex_peer 3)) = Ret (Some r, q') /\
    queue_ok q' (ex_entries ++ [(l, r)]) ([ex_wanted 1; ex_wanted 2] ++ [blank_request (ex_peer 3)]) /\
    ipfs_peer_request_queue_find_peer q' (Some (ex_peer 3)) = Ret (Some r, q').
Proof.
  intros M. split.
  - apply (find_peer_spec ex_queue ex_entries [ex_wanted 1; ex_wanted 2] (ex_peer 2)); [exact ex_queue_ok|].
    apply ex_peer_ok. unfold byte_range. lia.
  - apply (find_peer_spec ex_queue ex_entries [ex_wanted 1; ex_wanted 2] (ex_peer 3)); [exact ex_queue_ok|].
    apply ex_peer_ok. unfold byte_range. lia.
Defined.

(** [ipfs_bitswap_peer_request_queue_pop] on a well-formed queue of
    at least two entries: when the first entry has nothing to do, NULL is returned
    and it stays first, whatever the others have to do; otherwise its request is
    returned, the second entry becomes the first and the entry the last.  Its own
    [next] pointer is kept, so the queue is now a cycle: every later search for a
    peer that is not in the queue runs for ever, whatever the fuel. *)
Lemma queue_pop_spec {M : Malloc} (ctx : BitswapContext) (q : PeerRequestQueue)
    (l0 r0 l1 r1 : positive) (es : list (positive * positive)) (req0 : PeerRequest) (reqs : list PeerRequest)
    (t : Z) (req0' : PeerRequest) :
  queue_ok q ((l0, r0) :: (l1, r1) :: es) (req0 :: reqs) -> something_to_do ctx req0 = Ret (t, req0') ->
  (t = 0 -> exists q', ipfs_bitswap_peer_request_queue_pop ctx (Some q) = Ret (None, Some q') /\
     entries q' = entries q /\ first q' = first q /\ last q' = last q) /\
  (t <> 0 -> exists q', ipfs_bitswap_peer_request_queue_pop ctx (Some q) = Ret (Some r0, Some q') /\
     requests q' = requests q /\ first q' = Some l1 /\ last q' = Some l0 /\
     forall p, peer_ok p -> Forall (fun req => req_id req <> peer_id p) (req0 :: reqs) ->
       forall fuel, find_peer_loop fuel q' (first q') (Some p) = NoFuel).
Proof.
  intros (Hs & Hlast & He & Hr & Hall) Htodo. apply Forall2_cons_1 in Hall as [Hreq0 Hall].
  pose proof Hreq0 as (n0 & p0 & Hr0 & Hp0 & Hpok). cbn [snd] in Hr0.
  destruct Hs as (Hfirst & n & Hl0 & Hs). destruct Hs as [Hn Hs'].
  assert (Hs : seg (cells (entries q)) (Some l1) (chain (Some l0) ((l1, r1) :: es)) None) by (by split).
  subst n. clear Hs'.
  unfold ipfs_bitswap_peer_request_queue_pop, ipfs_bitswap_peer_request_something_to_do. rewrite Hfirst.
  rewrite (load_some _ _ _ Hl0). cbn [rbind current]. rewrite (load_some _ _ _ Hr0). cbn [rbind].
  rewrite Htodo. cbn [rbind]. rewrite (store_some _ _ _ _ Hr0). cbn [rbind].
  split; intros Ht.
  - rewrite (proj2 (Z.eqb_eq t 0) Ht). by eexists.
  - rewrite (proj2 (Z.eqb_neq t 0) Ht). rewrite (something_to_do_same _ _ _ _ Htodo Ht).
    rewrite (insert_id (cells (requests q))) by done.
    assert (Heta : mkHeap (cells (requests q)) (brk (requests q)) = requests q) by (by destruct (requests q)).
    rewrite Heta. cbn [entries first last requests].
    rewrite (load_some _ _ _ Hl0). cbn [rbind]. unfold move_to_end. cbn [entries first last requests].
    rewrite (load_some _ _ _ Hl0). cbn [rbind].
    destruct (exists_last (l := (l1, r1) :: es) ltac:(done)) as (pre & [ll lr] & Hes).
    rewrite Hes in *. assert (Hlast' : last q = Some ll).
    { rewrite Hlast. change ((l0, r0) :: pre ++ [(ll, lr)]) with (((l0, r0) :: pre) ++ [(ll, lr)]). apply last_entry_snoc. }
    pose proof (seg_redirect _ _ _ _ _ _ (Some l0) Hs) as Hs2.
    pose proof Hs as Hs3. rewrite chain_app in Hs3. cbn [chain] in Hs3.
    pose proof (seg_lookup _ _ _ _ _ _ _ Hs3) as (n & Hll & _ & _).
    rewrite Hlast'. rewrite (load_some _ _ _ Hll). cbn [rbind]. rewrite (store_some _ _ _ _ Hll). cbn [rbind].
    eexists. split; [done|]. cbn [requests first last]. split_and!; [done|done|done|].
    intros p Hp Hne. apply Forall_cons in Hne as [Hne0 Hne].
    assert (Hl0ll : l0 <> ll).
    { intros E. assert (Hin : l0 ∉ (chain (Some l0) (pre ++ [(ll, lr)])).*1).
      { apply (seg_unique (cells (entries q)) l0 (mkEntry None (Some r0)) [] _ (first q)).
        rewrite <- Hes. cbn [app]. split; [done|]. exists (Some l1). split; [done|]. by rewrite Hes. }
      apply Hin. rewrite chain_fst, fmap_app, E. apply elem_of_app. right. apply list_elem_of_here. }
    apply (find_peer_cycle _ p (pre ++ [(ll, lr)]) reqs (Some l1) (Some l0) l0 r0 req0); try done.
    cbn [entries cells]. by rewrite lookup_insert_ne.
Qed.

Definition ex_context : BitswapContext :=
  mkContext (fun _ => 0) (fun p => (0, p)) (fun _ _ => 1) (fun _ => Ret None).

(** [ipfs_bitswap_peer_request_queue_add] to a queue that is not
    empty makes the new entry [last], but no [next] pointer leads to it: the
    entry is not found again.  To an empty queue it adds a well-formed entry. *)
Lemma queue_add_spec {M : Malloc} {Hm : MallocOk M} (q : PeerRequestQueue) (es : list (positive * positive))
    (reqs : list PeerRequest) (r : positive) (req : PeerRequest) (p : Libp2pPeer) :
  queue_ok q es reqs -> request_of (requests q) (r, r) req -> peer_ok p -> req_id req = peer_id p ->
  Forall (fun req => req_id req <> peer_id p) reqs ->
  exists q' l, ipfs_bitswap_peer_request_queue_add q (Some r) = Ret (1, q') /\ last q' = Some l /\
    match es with
    | [] => queue_ok q' [(l, r)] [req]
    | _ => first q' = first q /\ ipfs_bitswap_peer_request_queue_find_entry q' (Some p) = Ret None
    end.
Proof.
  intros (Hs & Hlast & He & Hr & Hall) Hreq Hp Heq Hne.
  unfold ipfs_bitswap_peer_request_queue_add, ipfs_bitswap_peer_request_entry_new. rewrite alloc_ok.
  erewrite store_some by apply lookup_insert_eq. cbn [rbind cells brk]. rewrite insert_insert_eq.
  eexists _, (brk (entries q)). split; [done|]. split; [done|].
  destruct es as [|[l0 r0] es].
  - simpl in Hs. split_and!; cbn [entries requests first last]; [|done|by apply heap_ok_alloc|done|].
    + rewrite Hs. split; [done|]. exists None. split; [|done]. cbn [cells]. rewrite lookup_insert_eq. by rewrite Hlast.
    + constructor; [|constructor]. destruct Hreq as (n & p' & H1 & H2). by exists n, p'.
  - pose proof Hs as [Hf _]. split; [cbn [first]; by rewrite Hf|].
    unfold ipfs_bitswap_peer_request_queue_find_entry. cbn [first]. rewrite Hf. rewrite Hf in Hs.
    pose proof (seg_insert _ _ _ _ (brk (entries q)) (mkEntry (last q) (Some r), None)
      ltac:(by eapply heap_ok_seg_fresh) Hs) as Hs'.
    apply (find_entry_none _ _ ((l0, r0) :: es) reqs); [done|done|done|done|].
    apply seg_length in Hs'. rewrite chain_length in Hs'. unfold walk_fuel. cbn [entries cells]. lia.
Qed.

(** the memory after the removal of an entry *)
Definition unlinked (q : PeerRequestQueue) (l r lp : positive) (pe : PeerRequestEntry) (n : loc) : PeerRequestQueue :=
  mkQueue (mkHeap (delete l (<[l := (mkEntry None (Some r), None)]> (<[lp := (pe, n)]> (cells (entries q))))) (brk (entries q)))
    (mkHeap (delete r (cells (requests q))) (brk (requests q))) (first q) (last q).

Lemma queue_remove_found {M : Malloc} q l r n prv req n0 p : cells (requests q) !! r = Some (req, n0) -> peer req = Some p ->
  ipfs_bitswap_peer_request_queue_find_entry q (Some p) = Ret (Some l) ->
  cells (entries q) !! l = Some (mkEntry prv (Some r), n) ->
  match prv with
  | None => ipfs_bitswap_peer_request_queue_remove q (Some r) = UB
  | Some lp => forall pe np, cells (entries q) !! lp = Some (pe, np) -> lp <> l ->
      ipfs_bitswap_peer_request_queue_remove q (Some r) = Ret (1, unlinked q l r lp pe n)
  end.
Proof.
  intros Hr Hpeer Hfind Hl. unfold ipfs_bitswap_peer_request_queue_remove. rewrite (load_some _ _ _ Hr). cbn [rbind].
  rewrite Hpeer, Hfind. cbn [rbind]. rewrite (load_some _ _ _ Hl). cbn [rbind prior].
  destruct prv as [lp|]; [|done]. intros pe np Hlp Hne. rewrite (load_some _ _ _ Hlp). cbn [rbind].
  rewrite (store_some _ _ _ _ Hlp). cbn [rbind].
  rewrite (load_some _ l (mkEntry (Some lp) (Some r), n)) by (cbn [cells]; by rewrite lookup_insert_ne). cbn [rbind].
  rewrite (store_some _ l _ (mkEntry (Some lp) (Some r), n)) by (cbn [cells]; by rewrite lookup_insert_ne).
  cbn [rbind current cells brk]. unfold ipfs_bitswap_peer_request_entry_free.
  rewrite (load_some _ l (mkEntry None (Some r), None)) by apply lookup_insert_eq. cbn [rbind current].
  unfold ipfs_bitswap_peer_request_free. rewrite (release_some _ _ _ Hr). cbn [rbind].
  by rewrite (release_some _ l (mkEntry None (Some r), None)) by apply lookup_insert_eq.
Qed.

(** the entries behind the removed one still lead back to it *)
Lemma unlinked_free_ub q l r lp pe n es2 : last q = last_entry (Some l) es2 -> NoDup es2.*1 -> l ∉ es2.*1 -> lp ∉ es2.*1 ->
  seg (cells (entries q)) n (chain (Some l) es2) None ->
  ipfs_bitswap_peer_request_queue_free (unlinked q l r lp pe n) = UB.
Proof.
  intros Hlast Hnd Hl2 Hlp2 Hs2. unfold ipfs_bitswap_peer_request_queue_free, unlinked.
  cbn [last entries requests]. rewrite Hlast. apply seg_has_entries in Hs2. set (m' := delete l _).
  assert (Hsame : forall k, k ∈ es2.*1 -> m' !! k = cells (entries q) !! k).
  { intros k Hk. unfold m'. rewrite lookup_delete_ne by (intros <-; done).
    rewrite !lookup_insert_ne by (intros <-; done). done. }
  apply queue_free_ub; cbn [cells]; [by eapply has_entries_change|done|done|apply lookup_delete_eq|].
  unfold walk_fuel. cbn [cells]. rewrite <- (length_fmap fst es2). apply le_n_S, locs_size; [done|].
  intros k Hk. rewrite Hsame by done. rewrite <- (chain_fst (Some l)) in Hk.
  apply list_elem_of_fmap in Hk as ([k' d] & -> & Hk). unfold has_entries in Hs2. rewrite Forall_forall in Hs2.
  destruct (Hs2 _ Hk) as [nk Hnk]. by exists (d, nk).
Qed.

(** [ipfs_bitswap_peer_request_queue_remove] of the first entry
    dereferences its NULL [prior] pointer.  Any other entry is unlinked and freed
    together with its request, but the [prior] pointer of the next entry, or
    [queue->last], keeps pointing at it: freeing the queue afterwards uses freed
    memory. *)
Lemma queue_remove_spec {M : Malloc} (q : PeerRequestQueue) (es1 : list (positive * positive)) (l r : positive)
    (es2 : list (positive * positive)) (reqs1 : list PeerRequest) (req : PeerRequest) (reqs2 : list PeerRequest)
    (p : Libp2pPeer) :
  queue_ok q (es1 ++ (l, r) :: es2) (reqs1 ++ req :: reqs2) -> length es1 = length reqs1 -> peer req = Some p ->
  Forall (fun req => req_id req <> peer_id p) reqs1 ->
  match es1 with
  | [] => ipfs_bitswap_peer_request_queue_remove q (Some r) = UB
  | _ => exists q', ipfs_bitswap_peer_request_queue_remove q (Some r) = Ret (1, q') /\
      cells (entries q') !! l = None /\ cells (requests q') !! r = None /\
      ipfs_bitswap_peer_request_queue_free q' = UB
  end.
Proof.
  intros Hq Hlen Hpeer Hne.
  pose proof Hq as (Hs & Hlast & _ & _ & Hall). apply Forall2_app_inv in Hall as [_ Hall2]; [|done].
  apply Forall2_cons_1 in Hall2 as [(n0 & p0 & Hr & Hp0 & Hpok) _]. cbn [snd] in Hr.
  assert (p0 = p) as -> by congruence. assert (Hid : req_id req = peer_id p) by (unfold req_id; by rewrite Hpeer).
  pose proof (find_entry_ok q es1 l r es2 reqs1 req reqs2 p Hq Hlen Hpok Hne Hid) as Hfind.
  pose proof (seg_NoDup _ _ _ Hs) as Hnd. rewrite chain_fst in Hnd. rewrite chain_app in Hs. cbn [chain] in Hs.
  pose proof (seg_lookup _ _ _ _ _ _ _ Hs) as (n & Hl & Hs1 & Hs2).
  pose proof (queue_remove_found q l r n _ req n0 p Hr Hpeer Hfind Hl) as Hremove.
  destruct es1 as [|e1 es1]; [done|].
  destruct (exists_last (l := e1 :: es1) ltac:(done)) as (pre & [lp rp] & Hes). rewrite Hes in *.
  rewrite last_entry_snoc in *. rewrite chain_app in Hs1. cbn [chain] in Hs1.
  pose proof (seg_lookup _ _ _ _ _ _ _ Hs1) as (np & Hlp & _ & _).
  rewrite fmap_app, fmap_app in Hnd. cbn [fmap list_fmap fst] in Hnd.
  apply NoDup_app in Hnd as (_ & Hdisj & Hnd). apply NoDup_cons in Hnd as [Hl2 Hnd].
  assert (Hlpin : lp ∈ pre.*1 ++ [lp]) by (apply elem_of_app; right; apply list_elem_of_here).
  assert (Hlpl : lp <> l) by (intros E; apply (Hdisj lp Hlpin); rewrite E; apply list_elem_of_here).
  assert (Hlp2 : lp ∉ es2.*1) by (intros Hin; apply (Hdisj lp Hlpin); by apply list_elem_of_further).
  eexists. split; [by eapply Hremove|]. split; [apply lookup_delete_eq|]. split; [apply lookup_delete_eq|].
  eapply unlinked_free_ub; [|exact Hnd|exact Hl2|exact Hlp2|exact Hs2].
  by rewrite Hlast, last_entry_app.
Qed.

(** a peer that waits for one block, and the store has it *)
Definition ex_served : PeerRequest :=
  mkRequest (Some (mkPeer (Some [1]) 1 [] CONNECTION_TYPE_CONNECTED None 0))
    (vector_of [Some (mkCidEntry (Some sample_cid) 0 0 0)]) sample_wants (vector_of []).
Definition ex_store (c : option Cid) : option Block := Some sample_block.

Lemma process_entry_spec_witness :
  let M := malloc_total in
  let ctx := mkContext (fun _ => 0) (fun p => (0, p)) (fun _ _ => 1) (fun c => Ret (ex_store c)) in
  let p := mkPeer (Some [1]) 1 [] CONNECTION_TYPE_CONNECTED None 0 in
  let they := [mkCidEntry (Some sample_cid) 0 0 0] in
  exists m r',
    ipfs_bitswap_peer_request_process_entry ctx (Some ex_served) =
      Ret (if ipfs_bitswap_network_send_message ctx p m =? 0 then 0 else 1, Some r') /\
    payload_is m ([] ++ fetched ex_store they) /\ wants_are m (pendings sample_wants_list) /\ plain m /\
    peer r' = Some p /\ v_items (blocks_we_want_to_send r') = [] /\
    holds (cids_we_want r') (marked <$> sample_wants_list) /\
    holds (cids_they_want r')
      (foldl (fun l b => cancel_first (block_cid b) l) (after_fetch ex_store <$> they) ([] ++ fetched ex_store they)).
Proof.
  intros M ctx p they.
  apply (process_entry_spec ctx ex_store ex_served p they sample_wants_list []).
  - apply Forall_cons. split; [reflexivity|constructor].
  - reflexivity.
  - right. reflexivity.
  - reflexivity.
  - reflexivity.
  - by split_and!.
  - reflexivity.
  - repeat (apply Forall_cons_2; [first [apply sample_cid_ok|exact I]|]). apply Forall_nil_2.
  - unfold sample_wants_list.
    repeat (apply Forall_cons_2; [split; [first [apply sample_cid_ok|exact I]|cbn; lia]|]). apply Forall_nil_2.
  - repeat (apply Forall_cons_2; [first [apply sample_cid_ok|exact I]|]). apply Forall_nil_2.
  - vm_compute. discriminate.
Defined.
