(* ===== verification/WantlistQueue.v ===== *)
(** * The local wantlist (libipfs/exchange/bitswap/wantlist_queue.c, want_manager.c)

    The CIDs somebody asks this node for, each with the sessions that asked: the
    node itself or remote peers.  The entries are owned by the vector and never
    leave it, so a pointer to an entry is its index. *)
From S2P Require Import Prelude Varint Protobuf Multihash Cid Heap Block Vector Multiaddr Peer BitswapMessage BitswapFill PeerRequestQueue.

Definition WANTLIST_SESSION_TYPE_LOCAL : Z := 0.
Definition WANTLIST_SESSION_TYPE_REMOTE : Z := 1.

(** [context] of a remote session is its peer; that of a local one is not used *)
Record WantListSession := mkSession {
  ws_type : Z;
  ws_context : option Libp2pPeer
}.

Record WantListQueueEntry := mkWantEntry {
  wq_cid : option Cid;
  priority : Z;
  sessionsRequesting : vector WantListSession;
  wq_block : option Block;
  asked_network : Z;
  attempts : Z
}.

(** [queue] *)
Record WantListQueue := mkWantlistQueue {
  wants : option (vector WantListQueueEntry)
}.

Definition sizeof_WantListQueue : Z := 48.
Definition sizeof_WantListQueueEntry : Z := 40.
Definition sizeof_WantListSession : Z := 16.

(** the routing table's [FindProviders]: the vector it fills, or 0 *)
Record WantContext := mkWantContext {
  bitswap : BitswapContext;
  FindProviders : bytes -> option (list (option Libp2pPeer))
}.

Section wantlist.
Context {M : Malloc}.

(** ** Sessions *)
Definition ipfs_bitswap_wantlist_session_compare (a b : option WantListSession) : res Z :=
  match a, b with
  | None, None => Ret 0
  | None, Some _ => Ret (-1)
  | Some _, None => Ret 1
  | Some a, Some b =>
    if ws_type a =? ws_type b then
      if ws_type a =? WANTLIST_SESSION_TYPE_LOCAL then Ret 0
      else libp2p_peer_compare (ws_context a) (ws_context b)
    else Ret (ws_type b - ws_type a)
  end.

Definition ipfs_bitswap_wantlist_session_new : option WantListSession :=
  if malloc_ok sizeof_WantListSession then Some (mkSession WANTLIST_SESSION_TYPE_LOCAL None) else None.

Definition ipfs_bitswap_wantlist_local_request (sessions : vector WantListSession) : Z :=
  if existsb (fun s => match s with Some s => ws_type s =? WANTLIST_SESSION_TYPE_LOCAL | None => false end)
       (vector_each sessions)
  then 1 else 0.

(** ** Entries *)
Definition ipfs_bitswap_wantlist_queue_entry_new : res (option WantListQueueEntry) :=
  if malloc_ok sizeof_WantListQueueEntry then
    let! sessions := libp2p_utils_vector_new 1 in
    Ret (Some (mkWantEntry None 0 sessions None 0 0))
  else Ret None.

Definition set_sessions (s : vector WantListSession) (e : WantListQueueEntry) : WantListQueueEntry :=
  mkWantEntry (wq_cid e) (priority e) s (wq_block e) (asked_network e) (attempts e).
Definition set_block (b : option Block) (e : WantListQueueEntry) : WantListQueueEntry :=
  mkWantEntry (wq_cid e) (priority e) (sessionsRequesting e) b (asked_network e) (attempts e).

Definition entry_add_session (e : WantListQueueEntry) (session : option WantListSession) : res WantListQueueEntry :=
  let! (_, s) := libp2p_utils_vector_add (sessionsRequesting e) session in Ret (set_sessions s e).

Fixpoint entry_decrement_loop (n : nat) (i : Z) (sessions : vector WantListSession)
    (session : option WantListSession) : res (Z * vector WantListSession) :=
  match n with
  | O => Ret (0, sessions)
  | S n =>
    let! c := ipfs_bitswap_wantlist_session_compare session (libp2p_utils_vector_get sessions i) in
    if c =? 0 then Ret (1, libp2p_utils_vector_delete sessions i)
    else entry_decrement_loop n (i + 1) sessions session
  end.

Definition ipfs_bitswap_wantlist_queue_entry_decrement (entry : WantListQueueEntry)
    (session : option WantListSession) : res (Z * WantListQueueEntry) :=
  let! (r, s) := entry_decrement_loop (Z.to_nat (v_total (sessionsRequesting entry))) 0
    (sessionsRequesting entry) session in
  Ret (r, set_sessions s entry).

(** ** The queue *)
Definition ipfs_bitswap_wantlist_queue_new : option WantListQueue :=
  if malloc_ok sizeof_WantListQueue then Some (mkWantlistQueue None) else None.

(** a NULL element ends the search *)
Fixpoint wantlist_find_loop (n : nat) (i : Z) (q : vector WantListQueueEntry) (cid : option Cid)
  : res (option Z) :=
  match n with
  | O => Ret None
  | S n =>
    match libp2p_utils_vector_get q i with
    | None => Ret None
    | Some entry =>
      let! c := ipfs_cid_compare cid (wq_cid entry) in
      if c =? 0 then Ret (Some i) else wantlist_find_loop n (i + 1) q cid
    end
  end.

(** [wantlist->queue] is dereferenced without a test *)
Definition ipfs_bitswap_wantlist_queue_find (wantlist : WantListQueue) (cid : option Cid) : res (option Z) :=
  match wants wantlist with
  | None => UB
  | Some q => wantlist_find_loop (Z.to_nat (v_total q)) 0 q cid
  end.

(** the entry that is added when the CID is not found; it has the session already *)
Definition wantlist_new_entry (cid : option Cid) (session : option WantListSession) : res WantListQueueEntry :=
  let! entry := ipfs_bitswap_wantlist_queue_entry_new in
  match entry, cid with
  | Some entry, Some cid =>
    let! c := ipfs_cid_copy cid in
    entry_add_session (mkWantEntry c 1 (sessionsRequesting entry) None 0 0) session
  | _, _ => UB
  end.

(** the entry at index [i] is updated through its pointer *)
Definition with_entry (q : vector WantListQueueEntry) (i : Z) (f : WantListQueueEntry -> res WantListQueueEntry)
  : res (vector WantListQueueEntry) :=
  match libp2p_utils_vector_get q i with
  | None => UB
  | Some e => let! e := f e in Ret (libp2p_utils_vector_set q i (Some e))
  end.

(** the entry (its index) or NULL, and the wantlist *)
Definition ipfs_bitswap_wantlist_queue_add (wantlist : option WantListQueue) (cid : option Cid)
    (session : option WantListSession) : res (option Z * option WantListQueue) :=
  match wantlist with
  | None => Ret (None, wantlist)
  | Some w =>
    let! q := match wants w with Some q => Ret q | None => libp2p_utils_vector_new 1 end in
    let! found := ipfs_bitswap_wantlist_queue_find (mkWantlistQueue (Some q)) cid in
    let! (i, q) :=
      match found with
      | Some i => Ret (i, q)
      | None =>
        let! entry := wantlist_new_entry cid session in
        let i := v_total q in
        let! (_, q) := libp2p_utils_vector_add q (Some entry) in
        Ret (i, q)
      end in
    let! q := with_entry q i (fun e => entry_add_session e session) in
    Ret (Some i, Some (mkWantlistQueue (Some q)))
  end.

Definition ipfs_bitswap_wantlist_queue_remove (wantlist : option WantListQueue) (cid : option Cid)
    (session : option WantListSession) : res (Z * option WantListQueue) :=
  match wantlist with
  | None => Ret (0, wantlist)
  | Some w =>
    let! found := ipfs_bitswap_wantlist_queue_find w cid in
    match found, wants w with
    | Some i, Some q =>
      let! q := with_entry q i (fun e =>
        let! (_, e) := ipfs_bitswap_wantlist_queue_entry_decrement e session in Ret e) in
      Ret (1, Some (mkWantlistQueue (Some q)))
    | _, _ => Ret (0, wantlist)
    end
  end.

Fixpoint wantlist_pop_loop (l : list (option WantListQueueEntry)) (i : Z) : res (option Z) :=
  match l with
  | [] => Ret None
  | None :: _ => UB
  | Some current :: l =>
    match wq_block current with
    | None => if asked_network current =? 0 then Ret (Some i) else wantlist_pop_loop l (i + 1)
    | Some _ => wantlist_pop_loop l (i + 1)
    end
  end.

(** nothing is taken out of the queue *)
Definition ipfs_bitswap_wantlist_queue_pop (wantlist : option WantListQueue) : res (option Z) :=
  match wantlist with
  | Some (mkWantlistQueue (Some q)) =>
    if v_total q =? 0 then Ret None else wantlist_pop_loop (vector_each q) 0
  | _ => Ret None
  end.

(** ** want_manager.c *)
Definition ipfs_bitswap_want_manager_add := ipfs_bitswap_wantlist_queue_add.

Definition want_manager_entry (localWantlist : WantListQueue) (cid : option Cid) : res (option WantListQueueEntry) :=
  let! found := ipfs_bitswap_wantlist_queue_find localWantlist cid in
  Ret (match found, wants localWantlist with
       | Some i, Some q => libp2p_utils_vector_get q i
       | _, _ => None
       end).

Definition ipfs_bitswap_want_manager_received (localWantlist : WantListQueue) (cid : option Cid) : res Z :=
  let! entry := want_manager_entry localWantlist cid in
  Ret (match entry with Some e => match wq_block e with Some _ => 1 | None => 0 end | None => 0 end).

(** result and, on success, the copy of the block *)
Definition ipfs_bitswap_want_manager_get_block (localWantlist : WantListQueue) (cid : option Cid)
  : res (option Block) :=
  let! entry := want_manager_entry localWantlist cid in
  match entry with
  | Some e => match wq_block e with Some b => ipfs_block_copy b | None => Ret None end
  | None => Ret None
  end.

Definition ipfs_bitswap_want_manager_remove (localWantlist : option WantListQueue) (cid : option Cid)
  : res (Z * option WantListQueue) :=
  ipfs_bitswap_wantlist_queue_remove localWantlist cid (Some (mkSession WANTLIST_SESSION_TYPE_LOCAL None)).

(** ** Serving an entry *)

(** the block store's [Get] is taken to write the block only when it returns 1 *)
Definition ipfs_bitswap_wantlist_get_block_locally (ctx : WantContext) (cid : option Cid) : res (option Block) :=
  Get (bitswap ctx) cid.

(** one provider: the CID is queued for it and its request is served *)
Definition ask_provider (ctx : WantContext) (pq : PeerRequestQueue) (current : option Libp2pPeer) (cid : Cid)
  : res PeerRequestQueue :=
  let! (queueEntry, pq) := ipfs_peer_request_queue_find_peer pq current in
  match ipfs_bitswap_peer_request_cid_entry_new with
  | None => UB
  | Some entry =>
    let! c := ipfs_cid_copy cid in
    let entry := mkCidEntry c (ce_cancel entry) (ce_cancel_has_been_sent entry) (ce_request_has_been_sent entry) in
    let! (r, n) := load (requests pq) queueEntry in
    let! (_, we) := libp2p_utils_vector_add (cids_we_want r) (Some entry) in
    let r := mkRequest (peer r) (cids_they_want r) we (blocks_we_want_to_send r) in
    let! (_, r') := ipfs_bitswap_peer_request_process_entry (bitswap ctx) (Some r) in
    let! rs := store (requests pq) queueEntry (default r r', n) in
    Ret (mkQueue (entries pq) rs (first pq) (last pq))
  end.

Fixpoint ask_providers (ctx : WantContext) (pq : PeerRequestQueue) (providers : list (option Libp2pPeer)) (cid : Cid)
  : res PeerRequestQueue :=
  match providers with
  | [] => Ret pq
  | current :: providers => let! pq := ask_provider ctx pq current cid in ask_providers ctx pq providers cid
  end.

Definition ipfs_bitswap_wantlist_get_block_remote (ctx : WantContext) (pq : PeerRequestQueue) (cid : option Cid)
  : res (Z * PeerRequestQueue) :=
  match cid with
  | None => UB
  | Some cid =>
    let! k := memrd (deref (cid_hash cid)) (cid_hash_length cid) in
    match FindProviders ctx k with
    | Some providers => let! pq := ask_providers ctx pq providers cid in Ret (1, pq)
    | None => Ret (0, pq)
    end
  end.

(** the block goes to every remote session *)
Fixpoint fulfill_loop (pq : PeerRequestQueue) (sessions : list (option WantListSession)) (block : Block)
  : res PeerRequestQueue :=
  match sessions with
  | [] => Ret pq
  | None :: _ => UB
  | Some session :: sessions =>
    if ws_type session =? WANTLIST_SESSION_TYPE_LOCAL then fulfill_loop pq sessions block
    else
      let! (_, pq) := ipfs_bitswap_peer_request_queue_fill pq (ws_context session) (Some block) in
      fulfill_loop pq sessions block
  end.

Definition fulfill (pq : PeerRequestQueue) (entry : WantListQueueEntry) : res PeerRequestQueue :=
  match wq_block entry with
  | None => Ret pq
  | Some block => fulfill_loop pq (vector_each (sessionsRequesting entry)) block
  end.

(** 0 is returned in every case *)
Definition ipfs_bitswap_wantlist_process_entry (ctx : WantContext) (pq : PeerRequestQueue) (entry : WantListQueueEntry)
  : res (Z * PeerRequestQueue * WantListQueueEntry) :=
  let local_request := ipfs_bitswap_wantlist_local_request (sessionsRequesting entry) in
  let! found := ipfs_bitswap_wantlist_get_block_locally ctx (wq_cid entry) in
  let entry := match found with Some b => set_block (Some b) entry | None => entry end in
  match found with
  | Some _ => let! pq := fulfill pq entry in Ret (0, pq, entry)
  | None =>
    if local_request =? 0 then Ret (0, pq, entry)
    else
      let! (r, pq) := ipfs_bitswap_wantlist_get_block_remote ctx pq (wq_cid entry) in
      if r =? 0 then
        let! a := int_op (attempts entry + 1) in
        Ret (0, pq, mkWantEntry (wq_cid entry) (priority entry) (sessionsRequesting entry) (wq_block entry)
                      (asked_network entry) a)
      else
        let entry := mkWantEntry (wq_cid entry) (priority entry) (sessionsRequesting entry) (wq_block entry) 1
                       (attempts entry) in
        let! pq := fulfill pq entry in Ret (0, pq, entry)
  end.
End wantlist.

(** ** Wantlists *)
Definition want_ok (e : WantListQueueEntry) : Prop :=
  from_option cid_ok False (wq_cid e) /\ vector_ok (sessionsRequesting e).

(** the entries of a wantlist, in order *)
Definition wantlist_holds (w : WantListQueue) (es : list WantListQueueEntry) : Prop :=
  match wants w with None => es = [] | Some q => vector_ok q /\ holds q es end /\ Forall want_ok es.

(** the first entry for a CID *)
Definition wanted_at (c : Cid) (es : list WantListQueueEntry) : option nat :=
  fst <$> list_find (fun e => cid_match (Some c) (wq_cid e)) es.

Definition new_want (c : Cid) (s : option WantListSession) : WantListQueueEntry :=
  mkWantEntry (Some c) 1 (vector_of [s; s]) None 0 0.

Lemma wanted_at_cons c e es : wanted_at c (e :: es) =
  if decide (cid_match (Some c) (wq_cid e)) then Some 0%nat else S <$> wanted_at c es.
Proof.
  unfold wanted_at. cbn [list_find]. case_decide; [done|]. by destruct (list_find _ es) as [[]|].
Qed.

Lemma wanted_at_lookup c es k : wanted_at c es = Some k ->
  exists pre e post, es = pre ++ e :: post /\ length pre = k.
Proof.
  unfold wanted_at. destruct (list_find _ es) as [[j e]|] eqn:E; [|done]. intros [= <-].
  apply list_find_Some in E as (Hl & _). exists (take j es), e, (drop (S j) es).
  split; [symmetry; by apply take_drop_middle|]. apply lookup_lt_Some in Hl. rewrite length_take. lia.
Qed.

(** only the CIDs matter *)
Lemma wanted_at_cids c es es' : wq_cid <$> es = wq_cid <$> es' -> wanted_at c es = wanted_at c es'.
Proof.
  revert es'. induction es as [|e es IH]; intros [|e' es'] E; try done. injection E as E1 E2.
  rewrite !wanted_at_cons, E1. case_decide; [done|]. by rewrite (IH es').
Qed.

Lemma wanted_at_snoc c es e : cid_match (Some c) (wq_cid e) -> wanted_at c es = None ->
  wanted_at c (es ++ [e]) = Some (length es).
Proof.
  intros He. induction es as [|e' es IH]; intros E; cbn [app length].
  - by rewrite wanted_at_cons, decide_True.
  - rewrite wanted_at_cons in *. case_decide; [done|]. rewrite IH; [done|]. by destruct (wanted_at c es).
Qed.

Lemma wantlist_find_loop_ok c post : cid_ok c -> forall pre q, Forall want_ok post -> holds q (pre ++ post) ->
  wantlist_find_loop (length post) (zlen pre) q (Some c) =
    Ret ((fun k => zlen pre + Z.of_nat k) <$> wanted_at c post).
Proof.
  intros Hc. induction post as [|e post IH]; intros pre q Hok Hq; [done|].
  apply Forall_cons in Hok as [(Hcid & _) Hok].
  cbn [length wantlist_find_loop]. rewrite (holds_get _ _ _ _ Hq), wanted_at_cons.
  destruct (wq_cid e) as [d|]; [|done]. cbn [from_option] in Hcid.
  destruct (cid_compare_match (Some c) (Some d) Hc Hcid) as (r & -> & Hr). cbn [rbind].
  case_decide as Hm.
  - rewrite (proj2 (Z.eqb_eq r 0)) by (by apply Hr). simpl. do 2 f_equal. lia.
  - rewrite (proj2 (Z.eqb_neq r 0)) by (by rewrite Hr).
    replace (zlen pre + 1) with (zlen (pre ++ [e])) by (rewrite zlen_app; reflexivity).
    rewrite IH by (done || by rewrite <- app_assoc). f_equal. rewrite zlen_app. change (zlen [e]) with 1.
    destruct (wanted_at c post) as [k|]; [|done]. cbn [fmap option_fmap option_map]. f_equal. lia.
Qed.

Lemma wantlist_find_ok w q es c : wants w = Some q -> wantlist_holds w es -> cid_ok c ->
  ipfs_bitswap_wantlist_queue_find w (Some c) = Ret (Z.of_nat <$> wanted_at c es).
Proof.
  intros Hw [Hq Hok] Hc. rewrite Hw in Hq. destruct Hq as [_ Hq].
  unfold ipfs_bitswap_wantlist_queue_find. rewrite Hw, (holds_total _ _ Hq). unfold zlen. rewrite Nat2Z.id.
  exact (wantlist_find_loop_ok c es Hc [] q Hok Hq).
Qed.

Lemma vector_ok_set {A} (v : vector A) i x : vector_ok v -> vector_ok (libp2p_utils_vector_set v i x).
Proof.
  intros Hv. unfold libp2p_utils_vector_set. destruct (_ && _); [|done]. unfold vector_ok, v_total, zlen in *.
  cbn [v_items v_capacity v_alloc]. by rewrite length_insert.
Qed.

Lemma with_entry_ok q pre e post f e' : holds q (pre ++ e :: post) -> vector_ok q -> f e = Ret e' ->
  exists q', with_entry q (zlen pre) f = Ret q' /\ vector_ok q' /\ holds q' (pre ++ e' :: post).
Proof.
  intros Hq Hv Hf. unfold with_entry. rewrite (holds_get _ _ _ _ Hq), Hf. cbn [rbind].
  eexists. split; [done|]. split; [by apply vector_ok_set|by eapply holds_set].
Qed.

Lemma wanted_at_found c es k : Forall want_ok es -> wanted_at c es = Some k ->
  exists e, es !! k = Some e /\ want_ok e.
Proof.
  intros Hok (pre & e & post & -> & <-)%wanted_at_lookup. exists e.
  apply Forall_app in Hok as [_ [Hoke _]%Forall_cons]. by rewrite list_lookup_middle.
Qed.

(** new sessions for an entry that was found *)
Lemma update_want_ok q es c k e v f : wantlist_holds (mkWantlistQueue (Some q)) es -> cid_ok c ->
  wanted_at c es = Some k -> es !! k = Some e -> f e = Ret (set_sessions v e) -> vector_ok v ->
  exists q', with_entry q (Z.of_nat k) f = Ret q' /\
    wantlist_holds (mkWantlistQueue (Some q')) (<[k := set_sessions v e]> es) /\
    ipfs_bitswap_wantlist_queue_find (mkWantlistQueue (Some q')) (Some c) = Ret (Some (Z.of_nat k)).
Proof.
  intros [[Hv Hq] Hok] Hc Hk He Hf Hvo. pose proof (wanted_at_lookup _ _ _ Hk) as (pre & e' & post & -> & <-).
  rewrite list_lookup_middle in He by done. injection He as ->.
  destruct (with_entry_ok q pre e post f _ Hq Hv Hf) as (q' & E & Hv' & Hq'). exists q'. split; [done|].
  replace (length pre) with (length pre + 0)%nat at 1 by lia. rewrite insert_app_r. cbn [insert list_insert].
  assert (wantlist_holds (mkWantlistQueue (Some q')) (pre ++ set_sessions v e :: post)) as Hw'.
  { split; [done|]. apply Forall_app in Hok as [Hok1 [Hoke Hok2]%Forall_cons].
    apply Forall_app. split; [done|]. apply Forall_cons. split; [|done]. split; [apply Hoke|done]. }
  split; [done|]. rewrite (wantlist_find_ok (mkWantlistQueue (Some q')) q' _ c eq_refl Hw' Hc).
  rewrite (wanted_at_cids c _ (pre ++ e :: post)) by (by rewrite !fmap_app, !fmap_cons). by rewrite Hk.
Qed.

Section wants.
Context {M : Malloc} {Hm : MallocOk M}.

Lemma add_session_ok e s : want_ok e -> v_total (sessionsRequesting e) < 2 ^ 28 ->
  exists v, entry_add_session e s = Ret (set_sessions v e) /\ vector_ok v /\
    v_items v = v_items (sessionsRequesting e) ++ [s].
Proof.
  intros (_ & Hv) Hl. destruct (vector_add_ok _ s Hv ltac:(lia)) as (v & Ha & Hv' & Hi).
  exists v. split; [|done]. unfold entry_add_session. by rewrite Ha.
Qed.

Lemma new_entry_ok c s : cid_ok c -> cid_hash c <> None ->
  wantlist_new_entry (Some c) s = Ret (mkWantEntry (Some c) 1 (vector_of [s]) None 0 0).
Proof.
  intros Hc Hn. unfold wantlist_new_entry, ipfs_bitswap_wantlist_queue_entry_new.
  rewrite malloc_always, vector_new_of. cbn [rbind]. destruct Hc as (_ & _ & Hl & _). zlen_facts.
  rewrite cid_copy_ok by (done || lia). cbn [rbind sessionsRequesting]. unfold entry_add_session.
  cbn [sessionsRequesting]. by rewrite vector_add_of.
Qed.
End wants.

Lemma wantlist_add_ok {M : Malloc} {Hm : MallocOk M} (w : WantListQueue) (es : list WantListQueueEntry)
    (c : Cid) (s : option WantListSession) :
  wantlist_holds w es -> cid_ok c -> cid_hash c <> None -> zlen es < 2 ^ 28 ->
  Forall (fun e => v_total (sessionsRequesting e) < 2 ^ 28) es ->
  exists i w' es',
    ipfs_bitswap_wantlist_queue_add (Some w) (Some c) s = Ret (Some (Z.of_nat i), Some w') /\
    wantlist_holds w' es' /\ ipfs_bitswap_wantlist_queue_find w' (Some c) = Ret (Some (Z.of_nat i)) /\
    match wanted_at c es with
    | Some k => i = k /\ exists e v, es !! k = Some e /\ es' = <[k := set_sessions v e]> es /\
        v_items v = v_items (sessionsRequesting e) ++ [s]
    | None => i = length es /\ es' = es ++ [new_want c s]
    end.
Proof.
  intros [Hw Hok] Hc Hn Hlen Hfew. unfold ipfs_bitswap_wantlist_queue_add.
  assert (exists q, match wants w with Some q => Ret q | None => libp2p_utils_vector_new 1 end = Ret q /\
    vector_ok q /\ holds q es) as (q & -> & Hv & Hq).
  { destruct (wants w) as [q|]; [by exists q|]. subst es. exists (vector_of []). by rewrite vector_new_of. }
  cbn [rbind]. rewrite (wantlist_find_ok (mkWantlistQueue (Some q)) q es) by done. cbn [rbind].
  destruct (wanted_at c es) as [k|] eqn:Hk; cbn [fmap option_fmap option_map rbind].
  - destruct (wanted_at_found c es k Hok Hk) as (e & He & Hoke).
    destruct (add_session_ok e s Hoke (proj1 (Forall_lookup _ _) Hfew _ _ He)) as (v & Ha & Hvo & Hi).
    destruct (update_want_ok q es c k e v (fun e => entry_add_session e s)) as (q' & -> & Hw' & Hfind); [by split|done..|].
    cbn [rbind]. exists k, (mkWantlistQueue (Some q')), (<[k := set_sessions v e]> es).
    split_and!; [done|done|done|done|by exists e, v].
  - rewrite new_entry_ok by done. cbn [rbind].
    destruct (holds_add q es (mkWantEntry (Some c) 1 (vector_of [s]) None 0 0) Hq Hv ltac:(lia))
      as (q' & n & -> & Hv' & Hq'). cbn [rbind].
    destruct (with_entry_ok q' es (mkWantEntry (Some c) 1 (vector_of [s]) None 0 0) []
      (fun e => entry_add_session e s) (new_want c s) Hq' Hv') as (q'' & E & Hv'' & Hq'').
    { unfold entry_add_session. cbn [sessionsRequesting]. by rewrite vector_add_of. }
    rewrite (holds_total _ _ Hq), E. cbn [rbind].
    assert (wantlist_holds (mkWantlistQueue (Some q'')) (es ++ [new_want c s])) as Hw'.
    { split; [done|]. apply Forall_app. split; [done|]. apply Forall_cons. split; [|done].
      split; [done|]. split; [vm_compute; split; discriminate|]. split; [done|vm_compute; discriminate]. }
    exists (length es), (mkWantlistQueue (Some q'')), (es ++ [new_want c s]). split_and!; [done|done| |done|done].
    rewrite (wantlist_find_ok (mkWantlistQueue (Some q'')) q'' _ c eq_refl Hw' Hc), wanted_at_snoc; [done| |done]. simpl. done.
Qed.

(** ** Removing a session *)

(** session pointers that the comparison calls equal *)
Definition session_match (a b : option WantListSession) : Prop :=
  match a, b with
  | None, None => True
  | Some a, Some b => ws_type a = ws_type b /\
      (ws_type a = WANTLIST_SESSION_TYPE_LOCAL \/ peer_id <$> ws_context a = peer_id <$> ws_context b)
  | _, _ => False
  end.
#[export] Instance session_match_dec a b : Decision (session_match a b).
Proof. destruct a, b; simpl; apply _. Defined.

Definition session_ok (s : option WantListSession) : Prop :=
  from_option (fun s => from_option peer_ok True (ws_context s)) True s.

Lemma session_compare_ok a b : session_ok a -> session_ok b ->
  exists r, ipfs_bitswap_wantlist_session_compare a b = Ret r /\ (r = 0 <-> session_match a b).
Proof.
  intros Ha Hb. destruct a as [[ta ca]|], b as [[tb cb]|]; cbn [session_match ipfs_bitswap_wantlist_session_compare];
    [|by eexists|by eexists|by exists 0].
  cbn [ws_type ws_context]. destruct (Z.eqb_spec ta tb) as [->|Hne].
  2:{ exists (tb - ta). split; [done|]. split; [lia|]. by intros [? _]. }
  destruct (Z.eqb_spec tb WANTLIST_SESSION_TYPE_LOCAL) as [->|Hne]; [exists 0; split; [done|]; split; [|done]; split; [done|by left]|].
  cbn in Ha, Hb. destruct ca as [p|], cb as [p'|]; cbn [fmap option_fmap option_map].
  - destruct (peer_compare_ok p p' Ha Hb) as (r & -> & Hr). exists r. split; [done|]. rewrite Hr.
    split; [intros ->; split; [done|by right]|]. by intros [_ [?|[= ?]]].
  - exists 1. split; [done|]. split; [done|]. by intros [_ [?|?]].
  - exists (-1). split; [done|]. split; [done|]. by intros [_ [?|?]].
  - exists 0. split; [done|]. split; [|done]. split; [done|by right].
Qed.

(** the first of the entry's sessions that matches *)
Definition session_at (s : option WantListSession) (l : list (option WantListSession)) : option nat :=
  fst <$> list_find (session_match s) l.

(** the sessions after one decrement *)
Definition decremented (s : option WantListSession) (l : list (option WantListSession)) : list (option WantListSession) :=
  match session_at s l with None => l | Some j => tail (<[j := None]> l) end.

Lemma vector_get_items {A} (v : vector A) pre x post : v_items v = pre ++ x :: post ->
  libp2p_utils_vector_get v (zlen pre) = x.
Proof.
  intros Hv. unfold libp2p_utils_vector_get, v_total. rewrite Hv, zlen_app, zlen_cons. zlen_facts. zbool.
  unfold zlen. by rewrite Nat2Z.id, list_lookup_middle.
Qed.

Section remove.
Context {M : Malloc} {Hm : MallocOk M}.

Lemma decrement_loop_ok s v post : session_ok s -> Forall session_ok post -> vector_ok v ->
  forall pre, v_items v = pre ++ post ->
  exists r v', entry_decrement_loop (length post) (zlen pre) v s = Ret (r, v') /\ vector_ok v' /\
    v_items v' = match session_at s post with
                 | None => v_items v
                 | Some j => tail (<[(length pre + j)%nat := None]> (v_items v))
                 end.
Proof.
  intros Hs Hpost Hv. induction Hpost as [|x post Hx _ IH]; intros pre Hi; [by exists 0, v|].
  cbn [length entry_decrement_loop]. rewrite (vector_get_items _ _ _ _ Hi). unfold session_at in *. cbn [list_find].
  destruct (session_compare_ok s x Hs Hx) as (r & -> & Hr). cbn [rbind]. case_decide as Hmatch.
  - rewrite (proj2 (Z.eqb_eq r 0)) by (by apply Hr). eexists _, _. split; [done|]. split; [by apply vector_delete_ok|].
    rewrite vector_delete_items by (unfold v_total; rewrite Hi, zlen_app, zlen_cons; zlen_facts; lia).
    cbn [fmap option_fmap option_map fst]. unfold zlen. by rewrite Nat2Z.id, Nat.add_0_r.
  - rewrite (proj2 (Z.eqb_neq r 0)) by (by rewrite Hr).
    replace (zlen pre + 1) with (zlen (pre ++ [x])) by (rewrite zlen_app; reflexivity).
    destruct (IH (pre ++ [x])) as (r' & v' & -> & Hv' & E); [by rewrite <- app_assoc|].
    exists r', v'. split; [done|]. split; [done|]. rewrite E. destruct (list_find _ post) as [[j ?]|]; [|done].
    rewrite length_app. simpl. by replace (length pre + 1 + j)%nat with (length pre + S j)%nat by lia.
Qed.

Lemma decrement_ok e s : session_ok s -> Forall session_ok (v_items (sessionsRequesting e)) ->
  vector_ok (sessionsRequesting e) ->
  exists r v, ipfs_bitswap_wantlist_queue_entry_decrement e s = Ret (r, set_sessions v e) /\ vector_ok v /\
    v_items v = decremented s (v_items (sessionsRequesting e)).
Proof.
  intros Hs Hl Hv. destruct (decrement_loop_ok s _ _ Hs Hl Hv [] eq_refl) as (r & v & E & Hv' & Hi).
  exists r, v. unfold ipfs_bitswap_wantlist_queue_entry_decrement, v_total, zlen. rewrite Nat2Z.id.
  change 0 with (zlen (A := option WantListSession) []). rewrite E. by split_and!.
Qed.
End remove.

Lemma wantlist_remove_ok {M : Malloc} {Hm : MallocOk M} (w : WantListQueue) (es : list WantListQueueEntry)
    (c : Cid) (s : option WantListSession) :
  wantlist_holds w es -> cid_ok c -> session_ok s ->
  Forall (fun e => Forall session_ok (v_items (sessionsRequesting e))) es ->
  match wants w, wanted_at c es with
  | None, _ => ipfs_bitswap_wantlist_queue_remove (Some w) (Some c) s = UB
  | Some _, None => ipfs_bitswap_wantlist_queue_remove (Some w) (Some c) s = Ret (0, Some w)
  | Some _, Some k => exists w' e v,
      ipfs_bitswap_wantlist_queue_remove (Some w) (Some c) s = Ret (1, Some w') /\
      es !! k = Some e /\ wantlist_holds w' (<[k := set_sessions v e]> es) /\
      v_items v = decremented s (v_items (sessionsRequesting e)) /\
      ipfs_bitswap_wantlist_queue_find w' (Some c) = Ret (Some (Z.of_nat k))
  end.
Proof.
  intros Hw Hc Hs Hall. unfold ipfs_bitswap_wantlist_queue_remove. destruct (wants w) as [q|] eqn:Hq.
  2:{ unfold ipfs_bitswap_wantlist_queue_find. by rewrite Hq. }
  rewrite (wantlist_find_ok w q es) by done. cbn [rbind].
  destruct (wanted_at c es) as [k|] eqn:Hk; cbn [fmap option_fmap option_map rbind]; [|done].
  destruct w as [q']. cbn [wants] in Hq. subst q'.
  destruct (wanted_at_found c es k (proj2 Hw) Hk) as (e & He & [_ Hev]).
  destruct (decrement_ok e s Hs (proj1 (Forall_lookup _ _) Hall _ _ He) Hev) as (r & v & E & Hv & Hi).
  destruct (update_want_ok q es c k e v (fun e => let! (_, e) := ipfs_bitswap_wantlist_queue_entry_decrement e s in Ret e))
    as (q' & -> & Hw' & Hfind); [done..|by rewrite E|done|].
  cbn [rbind]. exists (mkWantlistQueue (Some q')), e, v. by split_and!.
Qed.

(** [want_manager_add] of a new CID and [want_manager_remove] leave one local
    session: the node still asks for the block *)
Lemma want_manager_add_remove {M : Malloc} {Hm : MallocOk M} w es c :
  wantlist_holds w es -> cid_ok c -> cid_hash c <> None -> zlen es < 2 ^ 28 ->
  Forall (fun e => v_total (sessionsRequesting e) < 2 ^ 28) es ->
  Forall (fun e => Forall session_ok (v_items (sessionsRequesting e))) es -> wanted_at c es = None ->
  let s := Some (mkSession WANTLIST_SESSION_TYPE_LOCAL None) in
  exists i w' w'' v, ipfs_bitswap_want_manager_add (Some w) (Some c) s = Ret (Some i, Some w') /\
    ipfs_bitswap_want_manager_remove (Some w') (Some c) = Ret (1, Some w'') /\
    want_manager_entry w'' (Some c) = Ret (Some (set_sessions v (new_want c s))) /\
    ipfs_bitswap_wantlist_local_request v = 1.
Proof.
  intros Hw Hc Hn Hlen Hfew Hses Hk s.
  destruct (wantlist_add_ok w es c s Hw Hc Hn Hlen Hfew) as (i & w' & es' & Ha & Hw' & _ & Hi).
  rewrite Hk in Hi. destruct Hi as [-> ->].
  assert (wanted_at c (es ++ [new_want c s]) = Some (length es)) as Hk' by (by rewrite wanted_at_snoc).
  destruct w' as [[q|]]; [|by destruct Hw' as [?%app_eq_nil _]; destruct_and?].
  pose proof (wantlist_remove_ok (mkWantlistQueue (Some q)) _ c s Hw' Hc I) as Hr. cbn [wants] in Hr.
  rewrite Hk' in Hr. destruct Hr as (w'' & e & v & Hr & He & Hw'' & Hv & Hfind).
  { apply Forall_app. split; [done|]. by repeat constructor. }
  rewrite list_lookup_middle in He by done. injection He as <-.
  exists (Z.of_nat (length es)), (mkWantlistQueue (Some q)), w'', v. split_and!; [done|done| |].
  - unfold want_manager_entry. rewrite Hfind. cbn [rbind]. destruct Hw'' as [Hq' _].
    destruct w'' as [[q'|]]; cbn [wants] in *.
    + destruct Hq' as [_ Hq']. f_equal.
      replace (length es) with (length es + 0)%nat in Hq' by lia. rewrite insert_app_r in Hq'.
      exact (holds_get _ _ _ _ Hq').
    + apply (f_equal length) in Hq'. rewrite length_insert, length_app in Hq'. simpl in Hq'. lia.
  - unfold ipfs_bitswap_wantlist_local_request. by rewrite vector_each_items, Hv.
Qed.

(** ** Handing out a block *)

(** what waits for a peer *)
Definition outbox (req : PeerRequest) : bytes * list (option Block) :=
  (req_id req, v_items (blocks_we_want_to_send req)).

(** one more block for the first request of a peer, or for a new one *)
Fixpoint deliver (pid : bytes) (b : option Block) (boxes : list (bytes * list (option Block))) :=
  match boxes with
  | [] => [(pid, [b])]
  | (i, bs) :: boxes => if decide (i = pid) then (i, bs ++ [b]) :: boxes else (i, bs) :: deliver pid b boxes
  end.

(** there is room for [n] more blocks *)
Definition roomy (n : Z) (req : PeerRequest) : Prop :=
  vector_ok (blocks_we_want_to_send req) /\ v_total (blocks_we_want_to_send req) + n <= 2 ^ 29.

Definition boxes_ok (n : Z) (q : PeerRequestQueue) (boxes : list (bytes * list (option Block))) : Prop :=
  exists es reqs, queue_ok q es reqs /\ NoDup es.*2 /\ Forall (roomy n) reqs /\ outbox <$> reqs = boxes.

Lemma find_request_split p es reqs : length es = length reqs ->
  match find_request p es reqs with
  | Some r => exists es1 l es2 reqs1 req reqs2, es = es1 ++ (l, r) :: es2 /\ reqs = reqs1 ++ req :: reqs2 /\
      length es1 = length reqs1 /\ req_id req = peer_id p /\ Forall (fun req => req_id req <> peer_id p) reqs1
  | None => Forall (fun req => req_id req <> peer_id p) reqs
  end.
Proof.
  revert reqs. induction es as [|[l r] es IH]; intros [|req reqs] Hl; try done; [by constructor|].
  cbn [find_request]. case_decide as E; [by exists [], l, es, [], req, reqs|].
  specialize (IH reqs ltac:(simpl in Hl; lia)). destruct (find_request p es reqs) as [r'|]; [|by constructor].
  destruct IH as (es1 & l' & es2 & reqs1 & req' & reqs2 & -> & -> & Hlen & Hid & Hne).
  exists ((l, r) :: es1), l', es2, (req :: reqs1), req', reqs2. split_and!; [done..|simpl; lia|done|by constructor].
Qed.

Lemma deliver_found pid b pre i bs post : Forall (fun x => x.1 <> pid) pre -> i = pid ->
  deliver pid b (pre ++ (i, bs) :: post) = pre ++ (i, bs ++ [b]) :: post.
Proof.
  intros Hpre ->. induction Hpre as [|[j bs'] pre Hj _ IH]; cbn [app deliver]; [by rewrite decide_True|].
  rewrite decide_False by done. by rewrite IH.
Qed.
Lemma deliver_new pid b boxes : Forall (fun x => x.1 <> pid) boxes -> deliver pid b boxes = boxes ++ [(pid, [b])].
Proof.
  induction 1 as [|[j bs'] pre Hj _ IH]; cbn [app deliver]; [done|]. rewrite decide_False by done. by rewrite IH.
Qed.

(** a request is replaced *)
Lemma queue_update q es1 l r es2 reqs1 req reqs2 req' n :
  queue_ok q (es1 ++ (l, r) :: es2) (reqs1 ++ req :: reqs2) -> length es1 = length reqs1 ->
  NoDup (es1 ++ (l, r) :: es2).*2 -> cells (requests q) !! r = Some (req, n) -> peer req' = peer req ->
  queue_ok (mkQueue (entries q) (mkHeap (<[r := (req', n)]> (cells (requests q))) (brk (requests q))) (first q) (last q))
    (es1 ++ (l, r) :: es2) (reqs1 ++ req' :: reqs2).
Proof.
  intros (Hs & Hlast & He & Hr & Hall) Hlen Hnd Hreq Hp.
  assert (Hother : forall es reqs, r ∉ es.*2 -> Forall2 (request_of (requests q)) es reqs ->
    Forall2 (request_of (mkHeap (<[r := (req', n)]> (cells (requests q))) (brk (requests q)))) es reqs).
  { intros es reqs Hnin H2. induction H2 as [|e rq es reqs (n' & p & Hc & Hrest) _ IH]; constructor.
    - exists n', p. split; [|done]. cbn [cells]. rewrite lookup_insert_ne; [done|].
      intros ->. apply Hnin. cbn [fmap list_fmap]. apply list_elem_of_here.
    - apply IH. intros Hin. apply Hnin. cbn [fmap list_fmap]. by apply list_elem_of_further. }
  rewrite fmap_app in Hnd. cbn [fmap list_fmap snd] in Hnd.
  apply NoDup_app in Hnd as (_ & Hn1 & [Hn2 _]%NoDup_cons).
  apply Forall2_app_inv in Hall as [Hall1 Hall2]; [|done]. apply Forall2_cons in Hall2 as [(n' & p & Hc & Hpp & Hpo) Hall2].
  cbn [snd] in Hc. rewrite Hreq in Hc. injection Hc as <-.
  split_and!; [done|done|done|apply heap_ok_insert; [done|by eexists]|].
  apply Forall2_app; [apply Hother; [|done]|constructor; [|by apply Hother]].
  - intros Hin. apply (Hn1 _ Hin). apply list_elem_of_here.
  - exists n, p. split_and!; [apply lookup_insert_eq|by rewrite Hp|done].
Qed.

Lemma vector_ok_of {A} (l : list (option A)) : zlen l <= 2 ^ 29 -> vector_ok (vector_of l).
Proof.
  intros Hl. pose proof (push_capacity_bound (length l)). unfold vector_ok, v_total, zlen in *.
  cbn [vector_of v_capacity v_alloc v_items]. lia.
Qed.

Section fill.
Context {M : Malloc} {Hm : MallocOk M}.

Lemma roomy_weaken n req : 0 <= n -> roomy (n + 1) req -> roomy n req.
Proof. intros Hn [Hv Hl]. split; [done|lia]. Qed.

(** filling a request that was found *)
Lemma fill_at n q es1 l r es2 reqs1 req reqs2 b : 0 <= n ->
  queue_ok q (es1 ++ (l, r) :: es2) (reqs1 ++ req :: reqs2) -> length es1 = length reqs1 ->
  NoDup (es1 ++ (l, r) :: es2).*2 -> Forall (roomy (n + 1)) (reqs1 ++ req :: reqs2) ->
  exists m v rs,
    load (requests q) (Some r) = Ret (req, m) /\
    libp2p_utils_vector_add (blocks_we_want_to_send req) b = Ret (v_total (blocks_we_want_to_send req) + 1, v) /\
    store (requests q) (Some r) (mkRequest (peer req) (cids_they_want req) (cids_we_want req) v, m) = Ret rs /\
    boxes_ok n (mkQueue (entries q) rs (first q) (last q))
      ((outbox <$> reqs1) ++ (req_id req, v_items (blocks_we_want_to_send req) ++ [b]) :: (outbox <$> reqs2)).
Proof.
  intros Hn0 Hq Hlen Hnd Hroom. pose proof Hq as (_ & _ & _ & _ & Hall).
  apply Forall2_app_inv in Hall as [_ Hall2]; [|done]. apply Forall2_cons in Hall2 as [(m & p & Hc & _) _].
  cbn [snd] in Hc. pose proof Hroom as [Hr1 [[Hv Hl] Hr2]%Forall_cons]%Forall_app.
  destruct (vector_add_ok _ b Hv ltac:(lia)) as (v & Ha & Hv' & Hi).
  eexists m, v, _. split_and!; [by apply load_some|done|by eapply store_some|].
  eexists _, (reqs1 ++ mkRequest (peer req) (cids_they_want req) (cids_we_want req) v :: reqs2).
  split_and!; [by eapply queue_update|done| |].
  - apply Forall_app; split; [by eapply Forall_impl; [exact Hr1|]; intros; apply roomy_weaken|].
    constructor; [|by eapply Forall_impl; [exact Hr2|]; intros; apply roomy_weaken].
    split; [done|]. cbn [blocks_we_want_to_send]. unfold v_total in *. rewrite Hi, zlen_app. change (zlen [b]) with 1. lia.
  - rewrite fmap_app, fmap_cons. unfold outbox at 2. cbn [blocks_we_want_to_send]. by rewrite Hi.
Qed.

Lemma fill_ok n q boxes p b : 0 <= n -> n + 1 <= 2 ^ 29 -> boxes_ok (n + 1) q boxes -> peer_ok p ->
  exists q', ipfs_bitswap_peer_request_queue_fill q (Some p) b = Ret (0, q') /\
    boxes_ok n q' (deliver (peer_id p) b boxes).
Proof.
  intros Hn Hn1 (es & reqs & Hq & Hnd & Hroom & <-) Hp. unfold ipfs_bitswap_peer_request_queue_fill.
  rewrite (find_peer_ok q es reqs p Hq Hp).
  assert (length es = length reqs) as Hlen by (destruct Hq as (_ & _ & _ & _ & Hall); by eapply Forall2_length).
  pose proof (find_request_split p es reqs Hlen) as Hf. destruct (find_request p es reqs) as [r|]; cbn [rbind].
  - destruct Hf as (es1 & l & es2 & reqs1 & req & reqs2 & -> & -> & Hl1 & Hid & Hne).
    destruct (fill_at n q es1 l r es2 reqs1 req reqs2 b Hn Hq Hl1 Hnd Hroom) as (m & v & rs & -> & Ha & Hs & Hbox).
    cbn [rbind]. rewrite Ha. cbn [rbind]. rewrite Hs. cbn [rbind]. eexists. split; [done|].
    rewrite fmap_app, fmap_cons. unfold outbox at 2. rewrite deliver_found; [done| |done].
    apply Forall_fmap. eapply Forall_impl; [exact Hne|]. done.
  - destruct (append_peer_ok q es reqs p Hq Hp) as (q' & l & r & -> & Hq' & Hfree). cbn [rbind].
    assert (NoDup (es ++ [(l, r)]).*2) as Hnd'.
    { rewrite fmap_app. apply NoDup_app. split_and!; [done| |apply NoDup_singleton].
      intros x Hx. cbn [fmap list_fmap snd]. rewrite list_elem_of_singleton. intros ->.
      apply list_elem_of_fmap in Hx as ([l' r'] & E & Hin). cbn [snd] in E. subst r'.
      destruct Hq as (_ & _ & _ & _ & Hall). apply list_elem_of_lookup in Hin as (i & Hin).
      apply (Forall2_lookup_l _ _ _ _ _ Hall) in Hin as (req & _ & n' & p' & Hc & _). cbn [snd] in Hc. congruence. }
    destruct (fill_at n q' es l r [] reqs (blank_request p) [] b Hn Hq' Hlen Hnd') as (m & v & rs & -> & Ha & Hs & Hbox).
    { apply Forall_app. split; [done|]. apply Forall_cons_2; [|apply Forall_nil_2].
      split; [by apply vector_ok_of|]. change (v_total _) with 0. lia. }
    cbn [rbind]. rewrite Ha. cbn [rbind]. rewrite Hs. cbn [rbind]. eexists. split; [done|].
    rewrite deliver_new; [done|]. apply Forall_fmap. eapply Forall_impl; [exact Hf|]. done.
Qed.

(** the peers of the remote sessions, in order *)
Definition remote_peer (s : WantListSession) : option Libp2pPeer :=
  if ws_type s =? WANTLIST_SESSION_TYPE_LOCAL then None else ws_context s.
Definition session_served (s : WantListSession) : Prop :=
  ws_type s = WANTLIST_SESSION_TYPE_LOCAL \/ from_option peer_ok False (ws_context s).

Lemma fulfill_loop_ok b ss : Forall session_served ss -> zlen ss <= 2 ^ 29 ->
  forall q boxes, boxes_ok (zlen ss) q boxes ->
  exists q', fulfill_loop q (Some <$> ss) b = Ret q' /\
    boxes_ok 0 q' (foldl (fun bx p => deliver (peer_id p) (Some b) bx) boxes (omap remote_peer ss)).
Proof.
  induction 1 as [|s ss Hs _ IH]; intros Hlen q boxes Hq; [by exists q|].
  rewrite zlen_cons in Hlen, Hq. zlen_facts. cbn [fmap list_fmap fulfill_loop omap list_omap].
  destruct (Z.eqb_spec (ws_type s) WANTLIST_SESSION_TYPE_LOCAL) as [E|E].
  - assert (remote_peer s = None) as -> by (unfold remote_peer; by rewrite E).
    apply IH; [lia|]. destruct Hq as (es & reqs & H1 & H2 & H3 & H4). exists es, reqs. split_and!; try done.
    eapply Forall_impl; [exact H3|]. intros req [Hv Hl]. split; [done|lia].
  - destruct Hs as [?|Hs]; [done|]. destruct (ws_context s) as [p|] eqn:Ep; [|done]. cbn [from_option] in Hs.
    assert (remote_peer s = Some p) as -> by (unfold remote_peer; by rewrite (proj2 (Z.eqb_neq _ _) E)).
    destruct (fill_ok (zlen ss) q boxes p (Some b)) as (q' & -> & Hq'); [lia|lia|by rewrite Z.add_comm|done|].
    cbn [rbind]. by apply IH; [lia|].
Qed.
End fill.

(** ** Choosing an entry *)

(** not found yet, and the network was not asked *)
Definition waiting (e : WantListQueueEntry) : bool :=
  match wq_block e with None => asked_network e =? 0 | Some _ => false end.

Lemma pop_loop_ok es i : wantlist_pop_loop (Some <$> es) i =
  Ret ((fun k => i + Z.of_nat k) <$> (fst <$> list_find (fun e => waiting e = true) es)).
Proof.
  revert i. induction es as [|e es IH]; intros i; [done|]. cbn [fmap list_fmap wantlist_pop_loop list_find].
  assert ((match wq_block e with
    | None => if asked_network e =? 0 then Ret (Some i) else wantlist_pop_loop (Some <$> es) (i + 1)
    | Some _ => wantlist_pop_loop (Some <$> es) (i + 1)
    end) = if waiting e then Ret (Some i) else wantlist_pop_loop (Some <$> es) (i + 1)) as ->.
  { unfold waiting. by destruct (wq_block e). }
  case_decide as E; [rewrite E; simpl; do 2 f_equal; lia|]. destruct (waiting e); [done|].
  rewrite IH. destruct (list_find _ es) as [[k ?]|]; simpl; [|done]. do 2 f_equal. lia.
Qed.

Lemma pop_ok w es : wantlist_holds w es ->
  ipfs_bitswap_wantlist_queue_pop (Some w) =
    Ret (Z.of_nat <$> (fst <$> list_find (fun e => waiting e = true) es)).
Proof.
  intros [Hq _]. unfold ipfs_bitswap_wantlist_queue_pop. destruct w as [[q|]]; cbn [wants] in Hq; [|by subst es].
  destruct Hq as [_ Hq]. rewrite (holds_total _ _ Hq). destruct es as [|e es]; [done|].
  rewrite zlen_cons. zlen_facts. zbool. rewrite vector_each_items, Hq. apply pop_loop_ok.
Qed.


(** ** Properties *)

(** [ipfs_bitswap_wantlist_queue_add] finds the first entry for the
    CID and appends the session to it; for a CID that nobody wants yet it
    appends one entry, in which the session is recorded twice.  Whichever it
    was, the entry it returns is the one that the next search finds. *)
Lemma wantlist_add_spec {M : Malloc} {Hm : MallocOk M} (w : WantListQueue) (es : list WantListQueueEntry)
    (c : Cid) (s : option WantListSession) :
  wantlist_holds w es -> cid_ok c -> cid_hash c <> None -> zlen es < 2 ^ 28 ->
  Forall (fun e => v_total (sessionsRequesting e) < 2 ^ 28) es ->
  exists i w' es',
    ipfs_bitswap_wantlist_queue_add (Some w) (Some c) s = Ret (Some (Z.of_nat i), Some w') /\
    wantlist_holds w' es' /\ ipfs_bitswap_wantlist_queue_find w' (Some c) = Ret (Some (Z.of_nat i)) /\
    match wanted_at c es with
    | Some k => i = k /\ exists e v, es !! k = Some e /\ es' = <[k := set_sessions v e]> es /\
        v_items v = v_items (sessionsRequesting e) ++ [s]
    | None => i = length es /\ es' = es ++ [new_want c s]
    end.
Proof. apply wantlist_add_ok. Qed.

(** [ipfs_bitswap_wantlist_queue_remove] takes one session away
    from the first entry for the CID -- with the vector's deletion, which leaves
    NULL for the one that matched and drops the first -- and answers 1 even when
    no session matched.  The entry itself is never removed:
    the next search still finds it.  For a CID that is not in the list it
    answers 0; before the first addition the search dereferences NULL. *)
Lemma wantlist_remove_spec {M : Malloc} {Hm : MallocOk M} (w : WantListQueue) (es : list WantListQueueEntry)
    (c : Cid) (s : option WantListSession) :
  wantlist_holds w es -> cid_ok c -> session_ok s ->
  Forall (fun e => Forall session_ok (v_items (sessionsRequesting e))) es ->
  match wants w, wanted_at c es with
  | None, _ => ipfs_bitswap_wantlist_queue_remove (Some w) (Some c) s = UB
  | Some _, None => ipfs_bitswap_wantlist_queue_remove (Some w) (Some c) s = Ret (0, Some w)
  | Some _, Some k => exists w' e v,
      ipfs_bitswap_wantlist_queue_remove (Some w) (Some c) s = Ret (1, Some w') /\
      es !! k = Some e /\ wantlist_holds w' (<[k := set_sessions v e]> es) /\
      v_items v = decremented s (v_items (sessionsRequesting e)) /\
      ipfs_bitswap_wantlist_queue_find w' (Some c) = Ret (Some (Z.of_nat k))
  end.
Proof. apply wantlist_remove_ok. Qed.

(** Property C17. [ipfs_bitswap_wantlist_process_entry] for an entry whose block
    the node does not hold yet.  When the block store has it, the block is put
    into the entry and into the outbox of every remote session's peer, in the
    order of the sessions, and in nobody else's.  Otherwise nothing happens
    unless the node itself asked; then the routing is asked: without an answer
    the attempt is counted, with providers each of them is asked and the entry
    is marked.  The result is 0 in every case, success included. *)
Theorem wantlist_process_entry_spec {M : Malloc} {Hm : MallocOk M} (ctx : WantContext) (pq : PeerRequestQueue)
    (entry : WantListQueueEntry) (c : Cid) (ss : list WantListSession) (boxes : list (bytes * list (option Block)))
    (found : option Block) :
  holds (sessionsRequesting entry) ss -> Forall session_served ss -> zlen ss <= 2 ^ 29 ->
  boxes_ok (zlen ss) pq boxes -> wq_cid entry = Some c -> cid_ok c -> wq_block entry = None ->
  0 <= attempts entry < INT_MAX -> Get (bitswap ctx) (Some c) = Ret found ->
  match found with
  | Some b => exists pq',
      ipfs_bitswap_wantlist_process_entry ctx pq entry = Ret (0, pq', set_block (Some b) entry) /\
      boxes_ok 0 pq' (foldl (fun bx p => deliver (peer_id p) (Some b) bx) boxes (omap remote_peer ss))
  | None =>
    if existsb (fun s => ws_type s =? WANTLIST_SESSION_TYPE_LOCAL) ss then
      match FindProviders ctx (deref (cid_hash c)) with
      | None => ipfs_bitswap_wantlist_process_entry ctx pq entry =
          Ret (0, pq, mkWantEntry (Some c) (priority entry) (sessionsRequesting entry) None (asked_network entry)
                        (attempts entry + 1))
      | Some providers => forall pq', ask_providers ctx pq providers c = Ret pq' ->
          ipfs_bitswap_wantlist_process_entry ctx pq entry =
          Ret (0, pq', mkWantEntry (Some c) (priority entry) (sessionsRequesting entry) None 1 (attempts entry))
      end
    else ipfs_bitswap_wantlist_process_entry ctx pq entry = Ret (0, pq, entry)
  end.
Proof.
  intros Hss Hserved Hlen Hq Hcid Hc Hblock Hatt HGet. unfold ipfs_bitswap_wantlist_process_entry,
    ipfs_bitswap_wantlist_get_block_locally. rewrite !Hcid, HGet. cbn [rbind].
  destruct found as [b|].
  - unfold fulfill, set_block. cbn [wq_block sessionsRequesting]. rewrite vector_each_items, Hss.
    destruct (fulfill_loop_ok b ss Hserved Hlen pq boxes Hq) as (pq' & -> & Hbox). by exists pq'.
  - assert (ipfs_bitswap_wantlist_local_request (sessionsRequesting entry) =
      if existsb (fun s => ws_type s =? WANTLIST_SESSION_TYPE_LOCAL) ss then 1 else 0) as ->.
    { unfold ipfs_bitswap_wantlist_local_request. rewrite vector_each_items, Hss. clear.
      induction ss as [|s ss IH]; simpl; [done|]. by destruct (ws_type s =? _). }
    destruct (existsb _ ss); [|done]. cbn [Z.eqb]. unfold ipfs_bitswap_wantlist_get_block_remote.
    rewrite !Hcid. destruct Hc as (_ & _ & Hl & _). rewrite Hl. rewrite memrd_all by done. cbn [rbind].
    destruct (FindProviders ctx (deref (cid_hash c))) as [providers|].
    + intros pq' ->. cbn [rbind Z.eqb]. unfold fulfill. cbn [wq_block]. rewrite Hblock. done.
    + cbn [rbind Z.eqb]. rewrite int_op_small by (unfold INT_MAX in *; lia). cbn [rbind]. by rewrite Hblock.
Qed.

(** ** Concrete wantlists *)
Definition ex_local : option WantListSession := Some (mkSession WANTLIST_SESSION_TYPE_LOCAL None).
Definition ex_remote (x : Z) : WantListSession := mkSession WANTLIST_SESSION_TYPE_REMOTE (Some (ex_peer x)).
Definition ex_entry : WantListQueueEntry :=
  mkWantEntry (Some sample_cid) 1 (vector_of [Some (ex_remote 1); Some (ex_remote 2)]) None 0 0.
Definition ex_wantlist : WantListQueue := mkWantlistQueue (Some (vector_of [Some ex_entry])).

Lemma ex_wantlist_holds : wantlist_holds ex_wantlist [ex_entry].
Proof.
  split; [split; [apply vector_ok_of; vm_compute; discriminate|done]|].
  apply Forall_cons_2; [|apply Forall_nil_2]. split; [apply sample_cid_ok|apply vector_ok_of; vm_compute; discriminate].
Qed.
Lemma ex_remote_served x : byte_range x -> session_served (ex_remote x).
Proof. intros Hx. right. by apply ex_peer_ok. Qed.

(** two peers asked for a block that the store has *)
Lemma wantlist_process_entry_spec_witness :
  let M := malloc_total in
  let ctx := mkWantContext (mkContext (fun _ => 0) (fun p => (0, p)) (fun _ _ => 1) (fun c => Ret (ex_store c)))
               (fun _ => None) in
  exists pq',
    ipfs_bitswap_wantlist_process_entry ctx ex_queue ex_entry = Ret (0, pq', set_block (Some sample_block) ex_entry) /\
    boxes_ok 0 pq' [([1], [Some sample_block]); ([2], [Some sample_block])].
Proof.
  intros M ctx.
  apply (wantlist_process_entry_spec ctx ex_queue ex_entry sample_cid [ex_remote 1; ex_remote 2]
    [([1], []); ([2], [])] (Some sample_block)).
  - reflexivity.
  - apply Forall_cons_2; [|apply Forall_cons_2; [|apply Forall_nil_2]]; apply ex_remote_served; unfold byte_range; lia.
  - vm_compute. discriminate.
  - exists ex_entries, [ex_wanted 1; ex_wanted 2]. split; [exact ex_queue_ok|]. split.
    { apply NoDup_cons_2; [|apply NoDup_singleton]. intros [=]%list_elem_of_singleton. }
    split; [|reflexivity]. apply Forall_cons_2; [|apply Forall_cons_2; [|apply Forall_nil_2]];
      (split; [apply vector_ok_of; vm_compute; discriminate|vm_compute; discriminate]).
  - reflexivity.
  - apply sample_cid_ok.
  - reflexivity.
  - vm_compute. split; [discriminate|reflexivity].
  - reflexivity.
Defined.
