(* ===== verification/KademliaMessage.v ===== *)
(** * Messages of the DHT (libp2p/record/message.c)

    [struct KademliaMessage] and its protobuf codec, which nests the codecs of
    records and peers. *)
From S2P Require Import Prelude Varint Digits Protobuf Multihash Cid Block Record CString Hex Multiaddr Peer.

Definition MESSAGE_TYPE_PING : Z := 5.

(** a [message_type] is an unsigned enum; the lists are those of the items *)
Record KademliaMessage := mkKademlia {
  message_type : Z;
  km_key : option bytes;
  km_key_size : Z;
  km_record : option Libp2pRecord;
  closer_peer_head : list (option Libp2pPeer);
  provider_peer_head : list (option Libp2pPeer);
  cluster_level_raw : Z
}.

Definition sizeof_KademliaMessage : Z := 56.

Section message.
Context {M : Malloc}.

Definition kademlia_blank : KademliaMessage := mkKademlia MESSAGE_TYPE_PING None 0 None [] [] 0.
Definition libp2p_message_new : option KademliaMessage :=
  if malloc_ok sizeof_KademliaMessage then Some kademlia_blank else None.

Definition peers_size (l : list (option Libp2pPeer)) (sz : Z) : Z :=
  fold_left (fun sz p => u64 (sz + 11 + libp2p_peer_protobuf_encode_size p)) l sz.

Definition libp2p_message_protobuf_encode_size (m : KademliaMessage) : Z :=
  peers_size (provider_peer_head m)
    (peers_size (closer_peer_head m)
       (u64 (11 + 11 + km_key_size m + 11 + 11 + libp2p_record_protobuf_encode_size (km_record m)))).

(** field 3; the temporary buffer is not tested *)
Definition record_field (r : Libp2pRecord) (buffer : bytes) (max : Z) : encoded :=
  let size := libp2p_record_protobuf_encode_size (Some r) in
  if malloc_ok size then encode_nested 3 size (libp2p_record_protobuf_encode r) buffer max else UB.

(** one turn of the loops over the peers *)
Definition peer_field (f : Z) (p : option Libp2pPeer) (buffer : bytes) (max : Z) : encoded :=
  if malloc_ok (libp2p_peer_protobuf_encode_size p) then
    match p with
    | None => UB
    | Some p' => encode_nested f (libp2p_peer_protobuf_encode_size p) (libp2p_peer_protobuf_encode p') buffer max
    end
  else Ret ((0, 0), buffer).

(** [cluster_level_raw] is widened with its sign *)
Definition libp2p_message_protobuf_encode (m : KademliaMessage) (buffer : bytes) (max_buffer_size : Z) : encoded :=
  let max := max_buffer_size in
  (put_field (protobuf_encode_varint 1 WIRETYPE_VARINT (message_type m)) max
  (match km_key m with
   | Some key => put_field (protobuf_encode_length_delimited 2 WIRETYPE_LENGTH_DELIMITED key (km_key_size m)) max
   | None => (fun k => k)
   end
  (match km_record m with
   | Some r => put_field (record_field r) max
   | None => (fun k => k)
   end
  (put_each (peer_field 8) max (closer_peer_head m)
  (put_each (peer_field 9) max (provider_peer_head m)
  (put_field (protobuf_encode_varint 10 WIRETYPE_VARINT (u64 (cluster_level_raw m))) max
  put_done)))))) 0 buffer.

(** the result, [*buffer] and [*buffer_size] *)
Definition libp2p_message_protobuf_allocate_and_encode (m : KademliaMessage) : res (Z * option bytes * Z) :=
  let size := libp2p_message_protobuf_encode_size m in
  if malloc_ok size then
    let! ((retVal, written), buffer) := libp2p_message_protobuf_encode m (fresh size) size in
    Ret (if retVal =? 0 then (0, None, 0) else (retVal, Some buffer, written))
  else Ret (0, None, 0).

(** a nested peer *)
Definition decode_peer (p : bytes) (rem : Z) : res (option (Libp2pPeer * Z)) :=
  let! s := protobuf_decode_length_delimited p rem in
  match s with
  | None => Ret None
  | Some (buffer, n) =>
    if malloc_ok sizeof_Libp2pLinkedList then
      let! peer := libp2p_peer_protobuf_decode buffer (zlen buffer) in
      Ret (match peer with None => None | Some peer => Some (peer, n) end)
    else Ret None
  end.

(** The numbers are stored with eight bytes into four and the padding behind
    them. *)
Definition kademlia_handler : handler KademliaMessage := fun field_no p rem m =>
  if (field_no <? 1) || (10 <? field_no) then Ret None
  else if field_no =? 1 then
    let! (v, n) := varint_decode p (s32 rem) in
    Ret (Some (mkKademlia (u32 v) (km_key m) (km_key_size m) (km_record m) (closer_peer_head m) (provider_peer_head m)
                 (cluster_level_raw m), n))
  else if field_no =? 2 then
    let! s := protobuf_decode_length_delimited p rem in
    match s with
    | None => Ret None
    | Some (d, n) =>
      Ret (Some (mkKademlia (message_type m) (Some d) (zlen d) (km_record m) (closer_peer_head m) (provider_peer_head m)
                   (cluster_level_raw m), n))
    end
  else if field_no =? 3 then
    let! s := protobuf_decode_length_delimited p rem in
    match s with
    | None => Ret None
    | Some (buffer, n) =>
      let! r := libp2p_record_protobuf_decode buffer (zlen buffer) in
      match r with
      | None => Ret None
      | Some r =>
        Ret (Some (mkKademlia (message_type m) (km_key m) (km_key_size m) (Some r) (closer_peer_head m)
                     (provider_peer_head m) (cluster_level_raw m), n))
      end
    end
  else if (field_no =? 8) || (field_no =? 9) then
    let! r := decode_peer p rem in
    match r with
    | None => Ret None
    | Some (peer, n) =>
      Ret (Some (if field_no =? 8 then
                   mkKademlia (message_type m) (km_key m) (km_key_size m) (km_record m)
                     (closer_peer_head m ++ [Some peer]) (provider_peer_head m) (cluster_level_raw m)
                 else
                   mkKademlia (message_type m) (km_key m) (km_key_size m) (km_record m)
                     (closer_peer_head m) (provider_peer_head m ++ [Some peer]) (cluster_level_raw m), n))
    end
  else if field_no =? 10 then
    let! (v, n) := varint_decode p (s32 rem) in
    Ret (Some (mkKademlia (message_type m) (km_key m) (km_key_size m) (km_record m) (closer_peer_head m)
                 (provider_peer_head m) (s32 v), n))
  else Ret (Some (m, 0)).

(** [None]: returned 0 *)
Definition libp2p_message_protobuf_decode (buffer : bytes) (in_size : Z) : res (option KademliaMessage) :=
  match libp2p_message_new with
  | None => Ret None
  | Some m => decode_fields (decode_fuel in_size) kademlia_handler buffer in_size 0 m
  end.
End message.

(** ** Validity and the reference form *)
Definition message_key (m : KademliaMessage) : option bytes := ztake (km_key_size m) <$> km_key m.

(** what the estimate grants the peers of a list *)
Definition peers_total (l : list (option Libp2pPeer)) : Z :=
  foldr (fun p z => 11 + libp2p_peer_protobuf_encode_size p + z) 0 l.

Definition kademlia_size_bound (m : KademliaMessage) : Z :=
  km_key_size m + libp2p_record_protobuf_encode_size (km_record m) + 44
  + peers_total (closer_peer_head m) + peers_total (provider_peer_head m).

Definition a_peer_ok (p : option Libp2pPeer) : Prop := from_option peer_encodable False p.

Definition kademlia_ok (m : KademliaMessage) : Prop :=
  0 <= message_type m < 2 ^ 32 /\ - 2 ^ 31 <= cluster_level_raw m < 2 ^ 31 /\
  0 <= km_key_size m /\ from_option (fun k => km_key_size m <= zlen k) True (km_key m) /\
  from_option record_ok True (km_record m) /\
  Forall a_peer_ok (closer_peer_head m) /\ Forall a_peer_ok (provider_peer_head m) /\
  kademlia_size_bound m <= INT_MAX.

Definition a_peer_wire (f : Z) (p : option Libp2pPeer) : bytes := from_option (fun p => bytes_field f (peer_wire p)) [] p.

Definition kademlia_wire (m : KademliaMessage) : bytes :=
  varint_field 1 (message_type m) ++
  from_option (bytes_field 2) [] (message_key m) ++
  from_option (fun r => bytes_field 3 (record_wire r)) [] (km_record m) ++
  concat (a_peer_wire 8 <$> closer_peer_head m) ++ concat (a_peer_wire 9 <$> provider_peer_head m) ++
  varint_field 10 (u64 (cluster_level_raw m)).

Definition a_peer_saved `{Malloc} (p : option Libp2pPeer) : option Libp2pPeer := peer_saved <$> p.
Definition kademlia_saved `{Malloc} (m : KademliaMessage) : KademliaMessage :=
  mkKademlia (message_type m) (message_key m) (from_option (fun _ => km_key_size m) 0 (km_key m)) (record_saved <$> km_record m)
    (a_peer_saved <$> closer_peer_head m) (a_peer_saved <$> provider_peer_head m) (cluster_level_raw m).

Section proofs.
Context {M : Malloc}.

Lemma peers_total_nonneg l : Forall a_peer_ok l -> 0 <= peers_total l.
Proof using.
  induction 1 as [|[p|] l Hp _ IH]; cbn [peers_total foldr]; [done| |done]. fold (peers_total l).
  pose proof (peer_size_ok p Hp). zlen_facts. lia.
Qed.

Lemma peers_sizes f l : 0 <= f < 16 -> Forall a_peer_ok l -> forall sz, 0 <= sz -> sz + peers_total l <= INT_MAX ->
  zlen (concat (a_peer_wire f <$> l)) <= peers_total l /\ peers_size l sz = sz + peers_total l.
Proof using.
  intros Hf. unfold peers_size. induction 1 as [|p l Hp Hps IH]; intros sz Hsz Hl; [split; [done|cbn; lia]|].
  cbn [fmap list_fmap concat fold_left peers_total foldr] in *. fold (peers_total l) in *. destruct p as [p|]; [|done].
  cbn [a_peer_ok from_option a_peer_wire] in *. rewrite zlen_app. pose proof (peer_size_ok p Hp).
  pose proof (bytes_field_le f (peer_wire p) Hf). pose proof (peers_total_nonneg l Hps). zlen_facts. unfold INT_MAX in *.
  rewrite u64_small by lia. destruct (IH (sz + 11 + libp2p_peer_protobuf_encode_size (Some p)) ltac:(lia) ltac:(lia)) as [A1 A2]. lia.
Qed.

Lemma kademlia_parts m : kademlia_ok m ->
  0 <= libp2p_record_protobuf_encode_size (km_record m) /\
  zlen (from_option (fun r => bytes_field 3 (record_wire r)) [] (km_record m)) <= 11 + libp2p_record_protobuf_encode_size (km_record m) /\
  zlen (from_option (bytes_field 2) [] (message_key m)) <= 11 + km_key_size m.
Proof using.
  intros (Hty & Hc & Hk & Hkey & Hr & _). split; [|split].
  - destruct (km_record m) as [r|]; cbn [from_option] in *; [|done]. pose proof (record_size_ok r (proj1 Hr)). zlen_facts. lia.
  - destruct (km_record m) as [r|]; cbn [from_option] in *; [|done]. pose proof (record_size_ok r (proj1 Hr)).
    pose proof (bytes_field_le 3 (record_wire r) ltac:(lia)). lia.
  - unfold message_key. destruct (km_key m) as [k|]; cbn [fmap option_fmap option_map from_option] in *.
    + pose proof (bytes_field_le 2 (ztake (km_key_size m) k) ltac:(lia)) as Hb. rewrite zlen_take in Hb by lia. lia.
    + change (zlen []) with 0. lia.
Qed.

Lemma kademlia_size_ok m : kademlia_ok m ->
  zlen (kademlia_wire m) <= libp2p_message_protobuf_encode_size m <= INT_MAX.
Proof using.
  intros Hm. destruct (kademlia_parts m Hm) as (Hr0 & Hr1 & Hk1).
  destruct Hm as (Hty & Hc & Hk & Hkey & Hr & H8 & H9 & Hl). unfold kademlia_size_bound in Hl.
  pose proof (peers_total_nonneg _ H8). pose proof (peers_total_nonneg _ H9).
  unfold kademlia_wire. rewrite !zlen_app. pose proof (varint_field_le 1 (message_type m) ltac:(lia)).
  pose proof (varint_field_le 10 (u64 (cluster_level_raw m)) ltac:(lia)).
  unfold libp2p_message_protobuf_encode_size. unfold INT_MAX in *. rewrite (u64_small (11 + 11 + _ + 11 + 11 + _)) by lia.
  set (base := 11 + 11 + _ + 11 + 11 + _).
  destruct (peers_sizes 8 _ ltac:(lia) H8 base ltac:(unfold base; lia) ltac:(unfold base, INT_MAX; lia)) as [A1 ->].
  destruct (peers_sizes 9 _ ltac:(lia) H9 (base + peers_total (closer_peer_head m)) ltac:(unfold base; lia)
    ltac:(unfold base, INT_MAX; lia)) as [B1 ->]. unfold base. lia.
Qed.

Context {Hm : MallocOk M}.

Lemma peer_field_emits f p : field_ok f -> a_peer_ok p -> emits (peer_field f p) (a_peer_wire f p).
Proof using Hm.
  intros Hf Hp. destruct p as [p|]; [|done]. unfold peer_field. rewrite malloc_always. cbn [a_peer_wire from_option a_peer_ok] in *.
  apply (codec_nested_emits (L := peer_codec_laws) f p Hf Hp).
Qed.

Lemma kademlia_encode_emits m : kademlia_ok m -> emits (libp2p_message_protobuf_encode m) (kademlia_wire m).
Proof using Hm.
  intros (Hty & Hc & Hk & Hkey & Hr & H8 & H9 & Hl). apply (emits_continues (fun max => _)). intros max. unfold kademlia_wire.
  apply continues_put; [apply encode_varint_field_emits; [auto with wire|lia]|].
  assert (forall k ks, continues k max ks -> continues (match km_key m with
      | Some key => put_field (protobuf_encode_length_delimited 2 WIRETYPE_LENGTH_DELIMITED key (km_key_size m)) max
      | None => fun k => k end k) max (from_option (bytes_field 2) [] (message_key m) ++ ks)) as Hkf.
  { intros k ks Hks. unfold message_key. destruct (km_key m) as [key|]; [|exact Hks]. cbn [from_option] in Hkey.
    apply continues_put; [|done]. apply encode_prefix_field_emits; [auto with wire|lia]. }
  apply Hkf. assert (forall k ks, continues k max ks -> continues (match km_record m with
      | Some r => put_field (record_field r) max | None => fun k => k end k) max
      (from_option (fun r => bytes_field 3 (record_wire r)) [] (km_record m) ++ ks)) as Hrf.
  { intros k ks Hks. destruct (km_record m) as [r|]; [|exact Hks]. cbn [from_option] in Hr. apply continues_put; [|done].
    unfold record_field. rewrite malloc_always. pose proof (record_size_ok r (proj1 Hr)).
    apply encode_nested_emits; [auto with wire|by apply record_encode_emits, Hr|lia]. }
  apply Hrf. apply continues_each; [eapply Forall_impl; [exact H8|]; intros p; apply peer_field_emits; auto with wire|].
  apply continues_each; [eapply Forall_impl; [exact H9|]; intros p; apply peer_field_emits; auto with wire|].
  rewrite <- (app_nil_r (varint_field 10 _)). apply continues_put; [|apply continues_done].
  apply encode_varint_field_emits; [auto with wire|apply u64_range].
Qed.

(** ** Decoding *)
Lemma decode_peer_ok p rest rem : peer_encodable p ->
  zlen (varint_bytes (zlen (peer_wire p)) ++ peer_wire p) <= rem <= INT_MAX ->
  decode_peer ((varint_bytes (zlen (peer_wire p)) ++ peer_wire p) ++ rest) rem =
    Ret (Some (peer_saved p, zlen (varint_bytes (zlen (peer_wire p)) ++ peer_wire p))).
Proof using Hm.
  intros Hp Hr. unfold decode_peer. rewrite decode_bytes_payload by done. cbn [rbind]. rewrite malloc_always.
  pose proof (codec_decode_all (L := peer_codec_laws) p Hp) as E. cbn [codec_decode codec_wire codec_saved peer_codec peer_codec_laws] in E.
  by rewrite E.
Qed.

(** the state behind the peers of a list *)
Definition with_closer (m : KademliaMessage) (l : list (option Libp2pPeer)) : KademliaMessage :=
  mkKademlia (message_type m) (km_key m) (km_key_size m) (km_record m) (closer_peer_head m ++ (a_peer_saved <$> l))
    (provider_peer_head m) (cluster_level_raw m).
Definition with_provider (m : KademliaMessage) (l : list (option Libp2pPeer)) : KademliaMessage :=
  mkKademlia (message_type m) (km_key m) (km_key_size m) (km_record m) (closer_peer_head m)
    (provider_peer_head m ++ (a_peer_saved <$> l)) (cluster_level_raw m).

Lemma parses_peers f l m (F : list (option Libp2pPeer) -> KademliaMessage) : f = 8 \/ f = 9 -> Forall a_peer_ok l ->
  F = (if f =? 8 then with_closer m else with_provider m) ->
  parses kademlia_handler (concat (a_peer_wire f <$> l)) (F []) (F l).
Proof using Hm.
  intros Hf Hl ->. apply parses_list. intros pre x post Hx. rewrite Hx in Hl.
  apply Forall_app in Hl as [_ [Hp _]%Forall_cons]. destruct x as [p|]; [|done]. cbn [a_peer_wire a_peer_ok from_option] in *.
  apply parses_bytes; [destruct Hf as [-> | ->]; auto with wire|].
  intros rest rem Hr. unfold kademlia_handler.
  assert ((f <? 1) || (10 <? f) = false) as -> by (destruct Hf as [-> | ->]; done).
  assert ((f =? 1) = false /\ (f =? 2) = false /\ (f =? 3) = false) as (-> & -> & ->) by (destruct Hf as [-> | ->]; done).
  assert ((f =? 8) || (f =? 9) = true) as -> by (destruct Hf as [-> | ->]; done).
  rewrite decode_peer_ok by done. cbn [rbind]. destruct (f =? 8); unfold with_closer, with_provider;
    cbn [message_type km_key km_key_size km_record closer_peer_head provider_peer_head cluster_level_raw];
    by rewrite fmap_app, app_assoc.
Qed.

Lemma s32_sign c : - 2 ^ 31 <= c < 2 ^ 31 -> s32 (u64 c) = c.
Proof using. intros Hc. rewrite s32_u64. by apply s32_small. Qed.

Lemma kademlia_parses m : kademlia_ok m -> parses kademlia_handler (kademlia_wire m) kademlia_blank (kademlia_saved m).
Proof using Hm.
  intros Hok. destruct (kademlia_parts m Hok) as (_ & Hr1 & Hk1). destruct Hok as (Hty & Hc & Hk & Hkey & Hr & H8 & H9 & Hl).
  pose proof (peers_total_nonneg _ H8). pose proof (peers_total_nonneg _ H9). unfold kademlia_size_bound in Hl.
  unfold kademlia_wire, kademlia_saved.
  eapply parses_app; [apply parses_varint; [auto with wire|by solve_handles kademlia_handler]|].
  rewrite u32_small by lia. cbn [kademlia_blank km_key km_key_size km_record closer_peer_head provider_peer_head cluster_level_raw].
  eapply (parses_app _ _ _ _ (mkKademlia (message_type m) (message_key m) (from_option (fun _ => km_key_size m) 0 (km_key m)) None [] [] 0)).
  { unfold message_key. destruct (km_key m) as [k|]; cbn [from_option fmap option_fmap option_map] in *; [|apply parses_nil].
    apply parses_bytes; [auto with wire|]. solve_handles kademlia_handler. by rewrite zlen_take by lia. }
  eapply (parses_app _ _ _ _ (mkKademlia (message_type m) (message_key m) (from_option (fun _ => km_key_size m) 0 (km_key m))
    (record_saved <$> km_record m) [] [] 0)).
  { destruct (km_record m) as [r|]; cbn [from_option fmap option_fmap option_map] in *; [|apply parses_nil].
    apply parses_bytes; [auto with wire|]. solve_handles kademlia_handler.
    pose proof (record_decode_wire r [] Hr) as E. rewrite app_nil_r in E. by rewrite E. }
  set (m3 := mkKademlia _ _ _ _ _ _ _).
  eapply parses_app.
  { pose proof (parses_peers 8 _ m3 (with_closer m3) ltac:(by left) H8 eq_refl) as P. change (with_closer m3 []) with m3 in P. exact P. }
  set (m8 := with_closer m3 _). eapply parses_app.
  { pose proof (parses_peers 9 _ m8 (with_provider m8) ltac:(by right) H9 eq_refl) as P. change (with_provider m8 []) with m8 in P. exact P. }
  apply parses_varint; [auto with wire|]. pose proof (u64_range (cluster_level_raw m)). solve_handles kademlia_handler.
  by rewrite s32_sign.
Qed.

Lemma kademlia_decode_wire m post : kademlia_ok m ->
  libp2p_message_protobuf_decode (kademlia_wire m ++ post) (zlen (kademlia_wire m)) = Ret (Some (kademlia_saved m)).
Proof using Hm.
  intros Hok. pose proof (kademlia_size_ok m Hok). unfold libp2p_message_protobuf_decode, libp2p_message_new.
  rewrite malloc_always. apply parses_decode; [by apply kademlia_parses|lia].
Qed.
End proofs.

(** a decoded message is encoded as it came *)
Section saved.
Context {M : Malloc} {Hm : MallocOk M}.

Lemma peers_saved_ok f l : Forall a_peer_ok l -> Forall a_peer_ok (a_peer_saved <$> l) /\
  concat (a_peer_wire f <$> (a_peer_saved <$> l)) = concat (a_peer_wire f <$> l) /\ peers_total (a_peer_saved <$> l) = peers_total l.
Proof using Hm.
  induction 1 as [|[p|] l Hp _ (IH1 & IH2 & IH3)]; [split_and!; done || constructor| |done].
  cbn [a_peer_ok from_option] in Hp. destruct (peer_saved_ok p Hp) as (H1 & H2 & H3).
  cbn [fmap list_fmap a_peer_saved option_fmap option_map concat peers_total foldr a_peer_wire from_option].
  fold (peers_total l). fold (peers_total (a_peer_saved <$> l)). rewrite H2, H3. split_and!.
  - by constructor.
  - f_equal. exact IH2.
  - f_equal. exact IH3.
Qed.

Lemma message_key_saved m : message_key (kademlia_saved m) = message_key m.
Proof using.
  unfold kademlia_saved, message_key. cbn [km_key km_key_size]. destruct (km_key m) as [k|]; [|done].
  cbn [from_option fmap option_fmap option_map] in *. f_equal. unfold ztake. by rewrite take_take, Nat.min_id.
Qed.

Lemma kademlia_saved_ok m : kademlia_ok m -> kademlia_ok (kademlia_saved m) /\ kademlia_wire (kademlia_saved m) = kademlia_wire m /\
  kademlia_size_bound (kademlia_saved m) <= kademlia_size_bound m.
Proof using Hm.
  intros (Ht & Hc & Hk & Hkey & Hr & H8 & H9 & Hl). destruct (peers_saved_ok 8 _ H8) as (A1 & A2 & A3).
  destruct (peers_saved_ok 9 _ H9) as (B1 & B2 & B3).
  pose proof (message_key_saved m) as Ek.
  assert (from_option record_ok True (km_record (kademlia_saved m)) /\
    from_option (fun r => bytes_field 3 (record_wire r)) [] (km_record (kademlia_saved m)) = from_option (fun r => bytes_field 3 (record_wire r)) [] (km_record m) /\
    libp2p_record_protobuf_encode_size (km_record (kademlia_saved m)) = libp2p_record_protobuf_encode_size (km_record m)) as (C1 & C2 & C3).
  { cbn [kademlia_saved km_record]. destruct (km_record m) as [r|]; [|done]. cbn [from_option fmap option_fmap option_map] in *.
    destruct (record_saved_ok r Hr) as [D1 D2]. split; [done|]. by rewrite D2. }
  assert (kademlia_size_bound (kademlia_saved m) <= kademlia_size_bound m) as Hb.
  { unfold kademlia_size_bound. rewrite C3. cbn [kademlia_saved closer_peer_head provider_peer_head km_key_size]. rewrite A3, B3.
    destruct (km_key m); cbn [from_option]; lia. }
  split; [|split; [|done]].
  - split_and!; try done; cbn [kademlia_saved km_key km_key_size message_type cluster_level_raw closer_peer_head provider_peer_head];
      try lia; try done.
    + destruct (km_key m); cbn [from_option]; lia.
    + unfold message_key. destruct (km_key m) as [k|]; cbn [from_option fmap option_fmap option_map] in *; [|done]. rewrite zlen_take; lia.
  - unfold kademlia_wire. rewrite Ek, C2. cbn [kademlia_saved message_type closer_peer_head provider_peer_head cluster_level_raw].
    by rewrite A2, B2.
Qed.
End saved.

(** ** Properties *)

(** A DHT message is encoded in a buffer of the estimated size, and
    decoding gives back its type, key, record, cluster level and, in order, both
    lists of peers -- each as the codec of records or peers saves it. *)
Lemma kademlia_encode_decode {M : Malloc} {Hm : MallocOk M} (m : KademliaMessage) :
  kademlia_ok m ->
  exists buf n, libp2p_message_protobuf_allocate_and_encode m = Ret (1, Some buf, n) /\ n <= zlen buf /\
    libp2p_message_protobuf_decode buf n = Ret (Some (kademlia_saved m)).
Proof.
  intros Hok. pose proof (kademlia_size_ok m Hok). zlen_facts. unfold libp2p_message_protobuf_allocate_and_encode.
  rewrite malloc_always, (kademlia_encode_emits m Hok) by (rewrite ?zlen_fresh by lia; lia). cbn [rbind].
  eexists _, _. split; [done|]. split; [zlia|]. by apply kademlia_decode_wire.
Qed.

Definition sample_kademlia : KademliaMessage :=
  mkKademlia 3 (Some [1; 2; 3]) 2 (Some (mkRecord (Some [107; 0]) 1 (Some [1; 2]) 2 None 0 None 0 (Some [9]) 1))
    [Some sample_peer] [Some sample_peer; Some sample_peer] (-1).

(** A message of eleven bytes whose record has a key of length -6
    behind another key is never decoded: the loop of the record's decoder returns
    to the same field whatever number of turns it is given, and with it the
    decoder of messages does not end. *)
Lemma kademlia_decode_diverges {M : Malloc} {Hm : MallocOk M} (rest : bytes) (len : Z) :
  11 <= len <= INT_MAX ->
  (forall fuel st, decode_fields fuel record_handler record_loop_message 9 0 st = NoFuel) /\
  libp2p_message_protobuf_decode ((26 :: 9 :: record_loop_message) ++ rest) len = NoFuel.
Proof.
  intros Hl. assert (Hd : forall fuel st, decode_fields fuel record_handler record_loop_message 9 0 st = NoFuel).
  { intros fuel st. pose proof (record_decode_diverges [] 9 fuel st ltac:(done)) as E. by rewrite app_nil_r in E. }
  split; [exact Hd|]. unfold libp2p_message_protobuf_decode, libp2p_message_new. rewrite malloc_always. unfold decode_fuel.
  change ((26 :: 9 :: record_loop_message) ++ rest) with ([] ++ wire_key 3 2 ++ ([9] ++ record_loop_message) ++ rest).
  rewrite (decode_fields_turn kademlia_handler 3 2 []) by (auto with wire; change (zlen [] + _) with 1; lia).
  change (zlen [] + _) with 1. unfold kademlia_handler at 1. zbool.
  pose proof (decode_bytes_payload record_loop_message rest (len - 1)) as Hs.
  change (varint_bytes (zlen record_loop_message)) with [9] in Hs.
  rewrite Hs by (change (zlen (_ ++ _)) with 10; lia). cbn [rbind].
  unfold libp2p_record_protobuf_decode, libp2p_record_new. rewrite malloc_always. by rewrite Hd.
Qed.
