(* ===== verification/ThreadsafeBuffer.v ===== *)
(** * Byte buffers (libp2p/utils/threadsafe_buffer.c)

    The queue of received bytes behind a yamux channel: written at the end, read
    or peeked at from the front.  [NULL] contexts, which every function answers
    with 0, are the [None] of the first argument. *)
From S2P Require Import Prelude.

Record ThreadsafeBufferContext := mkBuffer {
  tb_buffer_size : Z;
  tb_buffer : option bytes
}.

Section buffer.
Context {M : Malloc}.

Definition sizeof_ThreadsafeBufferContext : Z := 56.

Definition threadsafe_buffer_context_new : option ThreadsafeBufferContext :=
  if malloc_ok sizeof_ThreadsafeBufferContext then Some (mkBuffer 0 None) else None.

(** the first half of peek and read: the number of bytes read and the results *)
Definition buffer_front (context : ThreadsafeBufferContext) (results : bytes) (results_size : Z)
  : res (Z * bytes) :=
  match tb_buffer context with
  | Some b =>
    if 0 <? tb_buffer_size context then
      let bytes_read :=
        if results_size <? tb_buffer_size context then results_size else tb_buffer_size context in
      let! src := memrd b bytes_read in
      let! results := memwr results src in
      Ret (bytes_read, results)
    else Ret (0, results)
  | None => Ret (0, results)
  end.

Definition threadsafe_buffer_peek (context : option ThreadsafeBufferContext) (results : bytes)
    (results_size : Z) : res (Z * bytes) :=
  match context with
  | None => Ret (0, results)
  | Some c => buffer_front c results results_size
  end.

Definition threadsafe_buffer_read (context : option ThreadsafeBufferContext) (results : bytes)
    (results_size : Z) : res (Z * bytes * option ThreadsafeBufferContext) :=
  match context with
  | None => Ret (0, results, None)
  | Some c =>
    let! (bytes_read, results) := buffer_front c results results_size in
    if 0 <? bytes_read then
      if 0 <? u64 (tb_buffer_size c - bytes_read) then
        let new_buffer_size := u64 (tb_buffer_size c - bytes_read) in
        let! rest := padd (deref (tb_buffer c)) bytes_read in
        let! rest := memrd rest new_buffer_size in
        if malloc_ok new_buffer_size
        then Ret (bytes_read, results, Some (mkBuffer new_buffer_size (Some rest)))
        else UB
      else Ret (bytes_read, results, Some (mkBuffer 0 None))
    else Ret (bytes_read, results, Some c)
  end.

Definition threadsafe_buffer_write (context : option ThreadsafeBufferContext) (src : bytes)
    (bytes_size : Z) : res (Z * option ThreadsafeBufferContext) :=
  match context with
  | None => Ret (0, None)
  | Some c =>
    if bytes_size =? 0 then Ret (0, Some c)
    else if malloc_ok (u64 (tb_buffer_size c + bytes_size)) then
      let! src := memrd src bytes_size in
      let size := u64 (tb_buffer_size c + bytes_size) in
      let! old := memrd (deref (tb_buffer c)) (tb_buffer_size c) in
      if zlen old + zlen src <=? size
      then Ret (bytes_size, Some (mkBuffer size (Some (old ++ src))))
      else UB
    else Ret (0, Some c)
  end.

(** ** The buffer as a queue of bytes *)
Definition queue_buffer (q : bytes) : ThreadsafeBufferContext :=
  mkBuffer (zlen q) (match q with [] => None | _ => Some q end).

Lemma queue_buffer_bytes q : deref (tb_buffer (queue_buffer q)) = q.
Proof. by destruct q. Qed.
Lemma queue_buffer_nonempty q : q <> [] -> queue_buffer q = mkBuffer (zlen q) (Some q).
Proof. by destruct q. Qed.

Lemma buffer_front_ok q results n : zlen q < 2 ^ 64 -> 0 <= n <= zlen results ->
  buffer_front (queue_buffer q) results n
  = Ret (zlen (ztake n q), ztake n q ++ zdrop (zlen (ztake n q)) results).
Proof.
  intros Hq Hn. unfold buffer_front, queue_buffer.
  destruct q as [|b q]; cbn [tb_buffer tb_buffer_size].
  - unfold ztake. rewrite take_nil. done.
  - rewrite (proj2 (Z.ltb_lt _ _)) by zlia. destruct (Z.ltb_spec n (zlen (b :: q))) as [Hlt|Hge].
    + rewrite memrd_ok by lia. cbn [rbind]. rewrite memwr_ok by zlia. cbn [rbind].
      by rewrite zlen_take by lia.
    + rewrite memrd_all by done. cbn [rbind]. rewrite memwr_ok by lia. cbn [rbind].
      by rewrite ztake_all by lia.
Qed.

Context {Hm : MallocOk M}.

Lemma buffer_read_ok q results n : zlen q < 2 ^ 64 -> 0 <= n <= zlen results ->
  threadsafe_buffer_read (Some (queue_buffer q)) results n
  = Ret (zlen (ztake n q), ztake n q ++ zdrop (zlen (ztake n q)) results,
         Some (queue_buffer (zdrop n q))).
Proof.
  intros Hq Hn. unfold threadsafe_buffer_read. rewrite buffer_front_ok by done. cbn [rbind].
  destruct (Z.ltb_spec 0 (zlen (ztake n q))) as [Hpos|Hz].
  - assert (q <> []) as Hne.
    { intros ->. unfold ztake in Hpos. rewrite take_nil in Hpos. done. }
    assert (zlen (ztake n q) = Z.min n (zlen q)) as Hlen.
    { destruct (decide (n <= zlen q)); [rewrite zlen_take by lia; lia|].
      rewrite ztake_all by lia. lia. }
    rewrite queue_buffer_bytes. change (tb_buffer_size (queue_buffer q)) with (zlen q).
    rewrite Hlen. zlen_facts. rewrite (u64_small (_ - _)) by lia.
    destruct (Z.ltb_spec 0 (zlen q - Z.min n (zlen q))) as [Hr|Hr].
    + rewrite Z.min_l in * by lia. rewrite padd_ok by lia. cbn [rbind].
      rewrite memrd_all by zlia. cbn [rbind]. rewrite malloc_always.
      rewrite (queue_buffer_nonempty (zdrop n q)); [by rewrite zlen_drop by lia|].
      intros E%(f_equal zlen). rewrite zlen_drop, zlen_nil in E by lia. lia.
    + by rewrite (zdrop_ge n q) by lia.
  - assert (ztake n q = []) as E by (apply zlen_0_nil; zlia). rewrite E. cbn [app].
    destruct (decide (n = 0)) as [->|Hn0]; [by rewrite zdrop_0|].
    assert (q = []) as ->; [|by unfold zdrop; rewrite drop_nil].
    destruct q as [|b q]; [done|]. exfalso. revert E. unfold ztake.
    destruct (Z.to_nat n) eqn:En; [lia|]. simpl. done.
Qed.

Lemma buffer_write_ok q src n : zlen q + n < 2 ^ 64 -> 0 <= n <= zlen src ->
  threadsafe_buffer_write (Some (queue_buffer q)) src n
  = Ret (n, Some (queue_buffer (q ++ ztake n src))).
Proof.
  intros Hq Hn. unfold threadsafe_buffer_write. zlen_facts.
  destruct (Z.eqb_spec n 0) as [->|Hn0]; [by rewrite ztake_0, app_nil_r|].
  rewrite malloc_always, memrd_ok by lia. cbn [rbind].
  rewrite queue_buffer_bytes. change (tb_buffer_size (queue_buffer q)) with (zlen q).
  rewrite (u64_small (zlen q + n)) by lia. rewrite memrd_all by done. cbn [rbind].
  rewrite zlen_take by lia. zbool.
  rewrite (queue_buffer_nonempty (q ++ _)); [by rewrite zlen_app, zlen_take by lia|].
  intros E%(f_equal zlen). rewrite zlen_app, zlen_take, zlen_nil in E by lia. lia.
Qed.

(** ** Sequences of operations *)
Inductive buffer_op :=
| Write (data : bytes)
| Read (n : Z)
| Peek (n : Z).

(** a read or peek of [n] bytes into an object of [n] bytes: what it returned *)
Definition buffer_run1 (o : buffer_op) (c : option ThreadsafeBufferContext)
  : res (bytes * option ThreadsafeBufferContext) :=
  match o with
  | Write data => let! (_, c) := threadsafe_buffer_write c data (zlen data) in Ret ([], c)
  | Read n =>
    let! (k, results, c) := threadsafe_buffer_read c (fresh n) n in
    let! out := memrd results k in Ret (out, c)
  | Peek n =>
    let! (k, results) := threadsafe_buffer_peek c (fresh n) n in
    let! out := memrd results k in Ret (out, c)
  end.

Fixpoint buffer_run (os : list buffer_op) (c : option ThreadsafeBufferContext)
  : res (list bytes * option ThreadsafeBufferContext) :=
  match os with
  | [] => Ret ([], c)
  | o :: os =>
    let! (out, c) := buffer_run1 o c in
    let! (outs, c) := buffer_run os c in
    Ret (out :: outs, c)
  end.

(** the same operations on a list *)
Definition queue_run1 (o : buffer_op) (q : bytes) : bytes * bytes :=
  match o with
  | Write data => ([], q ++ data)
  | Read n => (ztake n q, zdrop n q)
  | Peek n => (ztake n q, q)
  end.

Fixpoint queue_run (os : list buffer_op) (q : bytes) : list bytes * bytes :=
  match os with
  | [] => ([], q)
  | o :: os =>
    let (out, q) := queue_run1 o q in
    let (outs, q) := queue_run os q in
    (out :: outs, q)
  end.

Definition op_size (o : buffer_op) : Z := match o with Write d => zlen d | _ => 0 end.
Definition ops_size (os : list buffer_op) : Z := foldr (fun o n => op_size o + n) 0 os.
Definition op_ok (o : buffer_op) : Prop := match o with Write _ => True | Read n | Peek n => 0 <= n end.

Lemma op_size_nonneg o : 0 <= op_size o.
Proof. destruct o; simpl; zlia. Qed.
Lemma ops_size_nonneg os : 0 <= ops_size os.
Proof. induction os as [|o os IH]; simpl; [lia|]. pose proof (op_size_nonneg o). lia. Qed.

Lemma zlen_drop_le {A} n (q : list A) : zlen (zdrop n q) <= zlen q.
Proof. unfold zlen, zdrop. rewrite length_drop. lia. Qed.

Lemma buffer_run1_ok o q : op_ok o -> zlen q + op_size o < 2 ^ 64 ->
  buffer_run1 o (Some (queue_buffer q))
  = Ret (fst (queue_run1 o q), Some (queue_buffer (snd (queue_run1 o q)))) /\
  zlen (snd (queue_run1 o q)) <= zlen q + op_size o.
Proof.
  pose proof (op_size_nonneg o) as Hs. intros Ho Hq.
  destruct o as [data|n|n]; cbn [buffer_run1 queue_run1 op_size op_ok fst snd] in *; zlen_facts.
  - rewrite buffer_write_ok by lia. cbn [rbind]. rewrite ztake_all by lia.
    split; [done|]. zlia.
  - rewrite buffer_read_ok by (rewrite ?zlen_fresh; lia). cbn [rbind].
    rewrite memrd_app by done. cbn [rbind]. split; [done|]. pose proof (zlen_drop_le n q). lia.
  - unfold threadsafe_buffer_peek. rewrite buffer_front_ok by (rewrite ?zlen_fresh; lia).
    cbn [rbind]. rewrite memrd_app by done. cbn [rbind]. split; [done|]. lia.
Qed.

Lemma buffer_run_ok os : forall q, Forall op_ok os -> zlen q + ops_size os < 2 ^ 64 ->
  buffer_run os (Some (queue_buffer q))
  = Ret (fst (queue_run os q), Some (queue_buffer (snd (queue_run os q)))).
Proof.
  induction os as [|o os IH]; intros q Hos Hq; [done|].
  apply Forall_cons in Hos as [Ho Hos]. cbn [buffer_run queue_run ops_size foldr] in *.
  fold (ops_size os) in Hq. pose proof (ops_size_nonneg os).
  destruct (buffer_run1_ok o q) as [-> Hle]; [done|lia|]. cbn [rbind].
  destruct (queue_run1 o q) as [out q'] eqn:E. cbn [fst snd] in *.
  rewrite IH by (done || lia). cbn [rbind]. by destruct (queue_run os q').
Qed.
End buffer.

(** Property C20.  A new buffer behaves like a queue of bytes: any sequence of
    writes, reads and peeks of fewer than 2^64 bytes in all returns exactly what
    the same sequence returns on a list that is appended to at its end and split
    at its front, and never touches memory outside the buffer. *)
Theorem buffer_is_queue {M : Malloc} {Hm : MallocOk M} (os : list buffer_op) :
  Forall op_ok os -> ops_size os < 2 ^ 64 ->
  exists c, buffer_run os threadsafe_buffer_context_new = Ret (fst (queue_run os []), c) /\
    tb_buffer_size <$> c = Some (zlen (snd (queue_run os []))) /\
    (c ≫= tb_buffer = None <-> snd (queue_run os []) = []).
Proof.
  intros Hos Hs. unfold threadsafe_buffer_context_new. rewrite malloc_always.
  exists (Some (queue_buffer (snd (queue_run os [])))).
  split; [apply (buffer_run_ok os []); [done|by rewrite zlen_nil]|].
  split; [done|]. simpl. by destruct (snd (queue_run os [])).
Qed.

Definition some_ops : list buffer_op := [Write [1; 2; 3]; Peek 2; Read 2; Write [4]; Read 5].

Lemma buffer_is_queue_witness :
  exists c, buffer_run (M := malloc_total) some_ops (threadsafe_buffer_context_new (M := malloc_total))
    = Ret ([[]; [1; 2]; [1; 2]; []; [3; 4]], c).
Proof.
  destruct (buffer_is_queue (M := malloc_total) some_ops) as (c & Hr & _).
  - repeat (apply Forall_cons_2; [simpl; try lia; exact I|]). apply Forall_nil_2.
  - reflexivity.
  - exists c. exact Hr.
Defined.
