(* ===== verification/Protocol.v ===== *)
(** * Choosing a protocol (libp2p/net/protocol.c and the CanHandle functions)

    A node has a vector of handlers; a message goes to the first one that says
    it can handle it.  [Libp2pProtocolHandler] is generic in what a handler works
    on: the stream the message came through and the state of the node.  [strnstr]
    is libp2p/os/utils.c. *)
From Stdlib Require Import String.
From S2P Require Import Prelude Digits CString Varint Vector.

Record StreamMessage := mkStreamMessage {
  sm_data : option bytes;
  sm_data_size : Z;
  sm_error_number : Z
}.

#[export] Instance StreamMessage_eq_dec : EqDecision StreamMessage.
Proof. solve_decision. Defined.

Definition sizeof_StreamMessage : Z := 24.
Definition stream_message (data : bytes) : StreamMessage := mkStreamMessage (Some data) (zlen data) 0.

(** ** Searching *)
(** [n] turns left, [i] characters passed *)
Fixpoint strnstr_loop (n : nat) (i : Z) (haystack needle : bytes) (needle_len : Z) : res (option Z) :=
  match n with
  | O => Ret None
  | S n =>
    let! h := rd haystack 0 in
    let! c := rd needle 0 in
    let! eq := (if h =? c then strncmp_eq (Z.to_nat needle_len) haystack needle else Ret false) in
    if eq : bool then Ret (Some i)
    else let! haystack := padd haystack 1 in strnstr_loop n (i + 1) haystack needle needle_len
  end.

(** [needle] is the literal without its NUL; the result is the distance from [haystack] *)
Definition strnstr (haystack needle : bytes) (len : Z) : res (option Z) :=
  let needle_len := Z.min (zlen needle) len in
  if needle_len =? 0 then Ret (Some 0)
  else strnstr_loop (Z.to_nat (s32 (len - needle_len) + 1)) 0 haystack (needle ++ [0]) needle_len.

(** ** CanHandle *)
Definition absent (msg : option StreamMessage) : bool :=
  match msg with
  | None => true
  | Some m => (sm_data_size m =? 0) || match sm_data m with None => true | Some _ => false end
  end.
Definition msg_data (msg : option StreamMessage) : bytes := deref (msg ≫= sm_data).
Definition msg_size (msg : option StreamMessage) : Z := from_option sm_data_size 0 msg.

(** the name at the front, or behind a varint: the body the functions of
    multistream, yamux and identify have in common *)
Definition can_handle_name (protocol : bytes) (msg : option StreamMessage) : res Z :=
  if absent msg then Ret 0
  else
    let data := msg_data msg in
    let! b0 := rd data 0 in
    let! p0 := rd protocol 0 in
    let! no_name :=
      (if b0 =? p0 then Ret false
       else let! b1 := rd data 1 in let! p1 := rd protocol 1 in Ret (negb (b1 =? p1))) in
    let! num_bytes :=
      (if no_name : bool then let! (_, n) := varint_decode data (msg_size msg) in Ret n else Ret 0) in
    if u64 (zlen protocol - num_bytes) <=? msg_size msg then
      let! p := padd data num_bytes in
      let! eq := strncmp_eq (Z.to_nat (zlen protocol)) p (protocol ++ [0]) in
      Ret (if eq : bool then 1 else 0)
    else Ret 0.

Definition multistream_id : bytes := Eval vm_compute in txt "/multistream/1.0.0" ++ [10].
Definition yamux_id : bytes := Eval vm_compute in txt "/yamux/1.0.0" ++ [10].
Definition identify_id : bytes := Eval vm_compute in txt "/ipfs/id/1.0.0" ++ [10].

Definition libp2p_net_multistream_can_handle := can_handle_name multistream_id.
Definition yamux_can_handle := can_handle_name yamux_id.
Definition libp2p_identify_can_handle := can_handle_name identify_id.

Definition secio_id : bytes := Eval vm_compute in txt "/secio/1.0.0".
Definition libp2p_secio_can_handle (msg : option StreamMessage) : res Z :=
  if absent msg then Ret 0
  else if msg_size msg <? 12 then Ret 0
  else
    let! result := strnstr (msg_data msg) secio_id (msg_size msg) in
    match result with
    | None => Ret 0
    | Some i =>
      if i =? 0 then Ret 1
      else if i =? 1 then
        let! b := rd (msg_data msg) 0 in Ret (if b =? zlen secio_id + 1 then 1 else 0)
      else Ret 0
    end.

Definition at_start (result : option Z) : Z :=
  match result with Some 0 => 1 | _ => 0 end.

Definition journal_id : bytes := Eval vm_compute in txt "/ipfs/journalio/1.0.0".
Definition ipfs_journal_can_handle (msg : option StreamMessage) : res Z :=
  if absent msg then Ret 0
  else if msg_size msg <? 21 then Ret 0
  else let! result := strnstr (msg_data msg) journal_id (msg_size msg) in Ret (at_start result).

Definition kad_id : bytes := Eval vm_compute in txt "/ipfs/kad".
Definition libp2p_routing_dht_can_handle (msg : option StreamMessage) : res Z :=
  if absent msg then Ret 0
  else if msg_size msg <? 8 then Ret 0
  else let! result := strnstr (msg_data msg) kad_id (msg_size msg) in Ret (at_start result).

Definition bitswap_id : bytes := Eval vm_compute in txt "/ipfs/bitswap".
Definition ipfs_bitswap_can_handle (msg : option StreamMessage) : res Z :=
  if absent msg then Ret 0
  else let! result := strnstr (msg_data msg) bitswap_id (msg_size msg) in Ret (at_start result).

(** ** Dispatch *)
Section dispatch.
Context {St Str : Type}.

Record Libp2pProtocolHandler := mkHandler {
  CanHandle : option StreamMessage -> res Z;
  HandleMessage : option StreamMessage -> Str -> St -> res (Z * St)
}.

Fixpoint protocol_compare_loop (n : nat) (i : Z) (msg : option StreamMessage)
    (protocol_handlers : vector Libp2pProtocolHandler) : res (option Libp2pProtocolHandler) :=
  match n with
  | O => Ret None
  | S n =>
    match libp2p_utils_vector_get protocol_handlers i with
    | None => UB
    | Some handler =>
      let! can := CanHandle handler msg in
      if can =? 0 then protocol_compare_loop n (i + 1) msg protocol_handlers else Ret (Some handler)
    end
  end.

Definition protocol_compare (msg : option StreamMessage)
    (protocol_handlers : option (vector Libp2pProtocolHandler)) : res (option Libp2pProtocolHandler) :=
  match protocol_handlers with
  | None => Ret None
  | Some v => protocol_compare_loop (Z.to_nat (v_total v)) 0 msg v
  end.

Definition libp2p_protocol_get_handler (protocol_handlers : option (vector Libp2pProtocolHandler)) (id : bytes)
  : res (option Libp2pProtocolHandler) :=
  let! n := strlen id in protocol_compare (Some (mkStreamMessage (Some id) n 0)) protocol_handlers.

(** [memchr(&msg->data[1], '\n', msg->data_size - 1)] *)
Definition appears_to_be_a_protocol (msg : option StreamMessage) : res Z :=
  match msg with
  | None => Ret 0
  | Some m =>
    if sm_data_size m <? 2 then Ret 0
    else
      let! p := padd (deref (sm_data m)) 1 in
      let! p := memrd p (sm_data_size m - 1) in
      Ret (if bool_decide (10 ∈ p) then 1 else 0)
  end.

Definition na : bytes := txt "na" ++ [10].

(** [write] is the stream's own: the result, the message and the state.  A NULL
    message is answered by no handler and then written to *)
Definition libp2p_protocol_marshal (write : Str -> bytes -> St -> res (Z * St)) (msg : option StreamMessage)
    (stream : Str) (handlers : option (vector Libp2pProtocolHandler)) (st : St)
  : res (Z * option StreamMessage * St) :=
  let! handler := protocol_compare msg handlers in
  match handler with
  | None =>
    let! a := appears_to_be_a_protocol msg in
    let! st := (if a =? 0 then Ret st else let! (_, st) := write stream na st in Ret st) in
    match msg with
    | None => UB
    | Some m => Ret (-1, Some (mkStreamMessage (sm_data m) (sm_data_size m) 100), st)
    end
  | Some h => let! (r, st) := HandleMessage h msg stream st in Ret (r, msg, st)
  end.

Definition libp2p_protocol_is_valid_protocol (msg : option StreamMessage)
    (handlers : option (vector Libp2pProtocolHandler)) : res Z :=
  let! h := protocol_compare msg handlers in Ret (match h with None => 0 | Some _ => 1 end).
End dispatch.
Arguments Libp2pProtocolHandler : clear implicits.
Arguments mkHandler {St Str}.

(** a handler that is chosen is one of the vector *)
Lemma protocol_compare_loop_elem {St Str} n : forall i msg (v : vector (Libp2pProtocolHandler St Str)) h,
  protocol_compare_loop n i msg v = Ret (Some h) -> Some h ∈ v_items v.
Proof.
  induction n as [|n IH]; intros i msg v h; cbn [protocol_compare_loop]; [done|].
  destruct (libp2p_utils_vector_get v i) as [h'|] eqn:E; [|done].
  intros (can & _ & Hc)%rbind_inv. destruct (can =? 0); [by eapply IH|]. injection Hc as <-.
  unfold libp2p_utils_vector_get in E. destruct (_ && _) in E; [|done].
  destruct (v_items v !! Z.to_nat i) as [o|] eqn:Ei; cbn in E; [|done]. subst o. by eapply list_elem_of_lookup_2.
Qed.
Lemma protocol_compare_elem {St Str} msg (hs : option (vector (Libp2pProtocolHandler St Str))) h :
  protocol_compare msg hs = Ret (Some h) -> exists v, hs = Some v /\ Some h ∈ v_items v.
Proof.
  destruct hs as [v|]; [|done]. intros H. exists v. split; [done|]. by eapply protocol_compare_loop_elem.
Qed.

(** ** The handlers of a node (libipfs/core/ipfs_node.c) *)
Inductive node_protocol := Secio | Journal | Kademlia | Bitswap | Multistream | Yamux | Identify.

Section node.
Context {M : Malloc} {St Str : Type}.
(** the HandleMessage function of each protocol *)
Variable handle : node_protocol -> option StreamMessage -> Str -> St -> res (Z * St).

Definition can_handle (p : node_protocol) : option StreamMessage -> res Z :=
  match p with
  | Secio => libp2p_secio_can_handle
  | Journal => ipfs_journal_can_handle
  | Kademlia => libp2p_routing_dht_can_handle
  | Bitswap => ipfs_bitswap_can_handle
  | Multistream => libp2p_net_multistream_can_handle
  | Yamux => yamux_can_handle
  | Identify => libp2p_identify_can_handle
  end.

Definition protocol_handler (p : node_protocol) : Libp2pProtocolHandler St Str := mkHandler (can_handle p) (handle p).

(** the vector in the order of the calls of [libp2p_utils_vector_add] *)
Fixpoint add_handlers (ps : list node_protocol) (v : vector (Libp2pProtocolHandler St Str))
  : res (vector (Libp2pProtocolHandler St Str)) :=
  match ps with
  | [] => Ret v
  | p :: ps => let! (_, v) := libp2p_utils_vector_add v (Some (protocol_handler p)) in add_handlers ps v
  end.

Definition node_protocols : list node_protocol :=
  [Secio; Journal; Kademlia; Bitswap; Multistream; Yamux; Identify].

Definition ipfs_node_online_build_protocol_handlers : res (vector (Libp2pProtocolHandler St Str)) :=
  let! v := libp2p_utils_vector_new 1 in add_handlers node_protocols v.
End node.

(** ** Lemmas *)
Lemma c_strstr_short s needle : zlen s < zlen needle -> c_strstr s needle = None.
Proof.
  induction s as [|x s IH]; intros Hl.
  - destruct needle; [zlia|done].
  - cbn [c_strstr]. destruct (is_prefix needle (x :: s)) eqn:E.
    + apply is_prefix_spec in E as (rest & E). rewrite E in Hl. zlia.
    + rewrite IH; [done|zlia].
Qed.

Lemma nonzero_ztake n s : nonzero s -> nonzero (ztake n s).
Proof. apply Forall_take. Qed.

Lemma strnstr_loop_spec needle k : nonzero needle -> 0 < k <= zlen needle -> forall hay i,
  strnstr_loop (Z.to_nat (zlen hay - k + 1)) i hay (needle ++ [0]) k
  = Ret (Z.add i <$> c_strstr hay (ztake k needle)).
Proof.
  intros Hn Hk. induction hay as [|x hay IH]; intros i.
  - rewrite c_strstr_short by zlia. rewrite zlen_nil. by replace (Z.to_nat (0 - k + 1)) with O by lia.
  - destruct (Z.ltb_spec (zlen (x :: hay)) k) as [Hs|Hs].
    { rewrite c_strstr_short by zlia. by replace (Z.to_nat _) with O by lia. }
    replace (Z.to_nat _) with (S (Z.to_nat (zlen hay - k + 1))) by zlia.
    cbn [strnstr_loop c_strstr]. rewrite rd_0. cbn [rbind].
    assert (exists c nd, needle = c :: nd) as (c & nd & E) by (destruct needle; [zlia|eauto]).
    replace (rd (needle ++ [0]) 0) with (Ret c) by (by rewrite E). cbn [rbind].
    assert ((if x =? c then strncmp_eq (Z.to_nat k) (x :: hay) (needle ++ [0]) else Ret false)
            = Ret (is_prefix (ztake k needle) (x :: hay))) as ->.
    { destruct (Z.eqb_spec x c) as [->|Hx].
      - rewrite <- (ztake_zdrop k needle), <- app_assoc.
        rewrite strncmp_eq_prefix.
        + by rewrite ztake_zdrop.
        + by apply nonzero_ztake.
        + unfold ztake. rewrite length_take. unfold zlen in *. lia.
        + unfold zlen in *. lia.
      - rewrite E. replace k with (1 + (k - 1)) by lia. rewrite ztake_cons by lia.
        cbn [is_prefix]. by rewrite (proj2 (Z.eqb_neq c x)) by done. }
    cbn [rbind]. destruct (is_prefix _ (x :: hay)); [cbn; by rewrite Z.add_0_r|].
    rewrite padd_ok by zlia. cbn [rbind]. change (zdrop 1 (x :: hay)) with hay.
    rewrite IH. destruct (c_strstr hay _); [|done]. cbn. do 2 f_equal. lia.
Qed.

Lemma strnstr_ok data needle : nonzero needle -> 0 < zlen needle -> 0 < zlen data < 2 ^ 31 ->
  strnstr data needle (zlen data) = Ret (c_strstr data (ztake (zlen data) needle)).
Proof.
  intros Hn Hne Hd. unfold strnstr. zbool. rewrite s32_small by lia. rewrite strnstr_loop_spec by (done || lia).
  replace (ztake (Z.min _ _) needle) with (ztake (zlen data) needle).
  - by destruct (c_strstr data _).
  - destruct (decide (zlen data <= zlen needle)); [by rewrite Z.min_r by lia|].
    rewrite Z.min_l by lia. by rewrite !ztake_all by lia.
Qed.

Lemma c_strstr_nonneg s needle r : c_strstr s needle = Some r -> 0 <= r.
Proof.
  revert r. induction s as [|y s IH]; cbn [c_strstr]; intros r; destruct (is_prefix needle _); try naive_solver lia.
  destruct (c_strstr s needle) as [q|]; [|done]. intros [= <-]. specialize (IH q eq_refl). lia.
Qed.

Lemma at_start_strstr s needle : at_start (c_strstr s needle) = if is_prefix needle s then 1 else 0.
Proof.
  destruct s as [|x s]; cbn [c_strstr]; destruct (is_prefix needle _); try done.
  destruct (c_strstr s needle) as [r|] eqn:Hr; [|done]. apply c_strstr_nonneg in Hr. cbn.
  destruct (Z.succ r) eqn:E; [lia|done|done].
Qed.

(** what a first message of each protocol starts with *)
Definition protocol_id (p : node_protocol) : bytes :=
  match p with
  | Secio => secio_id
  | Journal => journal_id
  | Kademlia => kad_id
  | Bitswap => bitswap_id
  | Multistream => multistream_id
  | Yamux => yamux_id
  | Identify => identify_id
  end.
(** the line in front of which multistream puts its length *)
Definition protocol_line (p : node_protocol) : option bytes :=
  match p with
  | Secio => Some (secio_id ++ [10])
  | Multistream => Some multistream_id
  | Yamux => Some yamux_id
  | Identify => Some identify_id
  | _ => None
  end.
Definition introduces (p : node_protocol) (pre : bytes) : Prop :=
  pre = protocol_id p \/ exists l, protocol_line p = Some l /\ pre = zlen l :: l.

Lemma msg_data_stream_message data : msg_data (Some (stream_message data)) = data.
Proof. reflexivity. Qed.
Lemma absent_stream_message data : 0 < zlen data -> absent (Some (stream_message data)) = false.
Proof. intros. unfold absent, stream_message. cbn [sm_data_size sm_data]. by zbool. Qed.

(** the functions that search, on a message of at most [INT_MAX] bytes *)
Lemma search_ok (needle : bytes) data : forallb (fun b => negb (b =? 0)) needle = true ->
  0 < zlen needle -> 0 < zlen data < 2 ^ 31 ->
  strnstr (msg_data (Some (stream_message data))) needle (msg_size (Some (stream_message data)))
  = Ret (c_strstr data (ztake (zlen data) needle)).
Proof.
  intros Hn Hl Hd. apply strnstr_ok; [|done|done].
  apply Forall_forall. intros b Hb. rewrite forallb_forall in Hn.
  apply list_elem_of_In in Hb. specialize (Hn b Hb). by destruct (Z.eqb_spec b 0).
Qed.

Lemma secio_can_handle_spec data : 0 < zlen data < 2 ^ 31 ->
  libp2p_secio_can_handle (Some (stream_message data))
  = Ret (if (12 <=? zlen data) && (is_prefix secio_id data || is_prefix (13 :: secio_id) data) then 1 else 0).
Proof.
  intros Hd. unfold libp2p_secio_can_handle. rewrite absent_stream_message by lia.
  rewrite search_ok by (done || lia).
  unfold msg_size, stream_message at 1. cbn [from_option sm_data_size rbind].
  destruct (Z.ltb_spec (zlen data) 12) as [Hs|Hs], (Z.leb_spec 12 (zlen data)); try lia; [done|].
  rewrite ztake_all by (change (zlen secio_id) with 12; lia). cbn [andb].
  destruct data as [|x data]; [zlia|]. cbn [c_strstr].
  destruct (is_prefix secio_id (x :: data)) eqn:E0; [done|]. cbn [orb is_prefix].
  rewrite msg_data_stream_message, (Z.eqb_sym 13 x). change (zlen secio_id + 1) with 13.
  destruct data as [|y data]; [zlia|]. cbn [c_strstr].
  destruct (is_prefix secio_id (y :: data)) eqn:E1; [by rewrite andb_true_r|].
  rewrite andb_false_r. destruct (c_strstr data secio_id) as [r|] eqn:Hr; [|done].
  apply c_strstr_nonneg in Hr. cbn [fmap option_fmap option_map].
  by rewrite (proj2 (Z.eqb_neq _ 0)), (proj2 (Z.eqb_neq _ 1)) by lia.
Qed.

Lemma search_can_handle_spec (can : option StreamMessage -> res Z) (needle : bytes) (least : Z) data :
  let msg := Some (stream_message data) in
  can msg = (if absent msg then Ret 0 else if msg_size msg <? least then Ret 0
     else let! result := strnstr (msg_data msg) needle (msg_size msg) in Ret (at_start result)) ->
  forallb (fun b => negb (b =? 0)) needle = true -> 0 < zlen needle -> 0 < zlen data < 2 ^ 31 ->
  can msg = Ret (if (least <=? zlen data) && is_prefix (ztake (zlen data) needle) data then 1 else 0).
Proof.
  intros msg -> Hn Hl Hd. unfold msg. rewrite absent_stream_message, search_ok by (done || lia).
  cbn [rbind]. rewrite at_start_strstr. unfold msg_size, stream_message. cbn [from_option sm_data_size].
  by destruct (Z.ltb_spec (zlen data) least), (Z.leb_spec least (zlen data)); try lia.
Qed.

Lemma journal_can_handle_spec data : 0 < zlen data < 2 ^ 31 ->
  ipfs_journal_can_handle (Some (stream_message data))
  = Ret (if (21 <=? zlen data) && is_prefix (ztake (zlen data) journal_id) data then 1 else 0).
Proof. intros. by apply search_can_handle_spec. Qed.
Lemma kad_can_handle_spec data : 0 < zlen data < 2 ^ 31 ->
  libp2p_routing_dht_can_handle (Some (stream_message data))
  = Ret (if (8 <=? zlen data) && is_prefix (ztake (zlen data) kad_id) data then 1 else 0).
Proof. intros. by apply search_can_handle_spec. Qed.
Lemma bitswap_can_handle_spec data : 0 < zlen data < 2 ^ 31 ->
  ipfs_bitswap_can_handle (Some (stream_message data))
  = Ret (if (1 <=? zlen data) && is_prefix (ztake (zlen data) bitswap_id) data then 1 else 0).
Proof.
  intros Hd. apply search_can_handle_spec; try done.
  unfold ipfs_bitswap_can_handle, msg_size, stream_message. cbn [from_option sm_data_size].
  by rewrite (proj2 (Z.ltb_ge _ 1)) by lia.
Qed.

(** the protocol a message goes to, in the order of the vector *)
Fixpoint first_protocol (ps : list node_protocol) (msg : option StreamMessage) : res (option node_protocol) :=
  match ps with
  | [] => Ret None
  | p :: ps => let! can := can_handle p msg in if can =? 0 then first_protocol ps msg else Ret (Some p)
  end.

Lemma varint_decode_byte b rest : 0 <= b < 128 -> zlen (b :: rest) < 2 ^ 64 ->
  varint_decode (b :: rest) (zlen (b :: rest)) = Ret (b, 1).
Proof.
  intros Hb Hl. pose proof (varint_decode_bytes b rest (zlen (b :: rest))) as H.
  rewrite (varint_bytes_small b Hb) in H. apply H; [lia|zlia].
Qed.

Lemma first_protocol_skip q ps msg r : can_handle q msg = Ret 0 -> first_protocol ps msg = r ->
  first_protocol (q :: ps) msg = r.
Proof. intros Hc <-. cbn [first_protocol]. by rewrite Hc. Qed.
Lemma first_protocol_hit q ps msg : can_handle q msg = Ret 1 -> first_protocol (q :: ps) msg = Ret (Some q).
Proof. intros Hc. cbn [first_protocol]. by rewrite Hc. Qed.

(** names of multistream, yamux and identify: [n] is 0 or the length of a short varint *)
Lemma name_can_handle_spec protocol d0 d1 tl p0 p1 ps (n : Z) (r : bool) :
  let data := d0 :: d1 :: tl in
  protocol = p0 :: p1 :: ps -> 0 <= d0 < 128 -> zlen protocol < 2 ^ 31 -> zlen data < 2 ^ 31 ->
  n = (if (d0 =? p0) || (d1 =? p1) then 0 else 1) ->
  strncmp_eq (length protocol) (zdrop n data) (protocol ++ [0]) = Ret r ->
  (zlen data < zlen protocol - n -> r = false) ->
  can_handle_name protocol (Some (stream_message data)) = Ret (if r then 1 else 0).
Proof.
  intros data Hp Hd Hpl Hdl Hn Hr Hs. unfold can_handle_name.
  assert (2 <= zlen protocol) as Hp2 by (rewrite Hp; zlia).
  rewrite absent_stream_message by (unfold data; zlia).
  change (msg_data _) with data. change (msg_size _) with (zlen data).
  replace (rd protocol 0) with (Ret p0) by (by rewrite Hp).
  replace (rd protocol 1) with (Ret p1) by (by rewrite Hp).
  change (rd data 0) with (Ret d0). change (rd data 1) with (Ret d1). cbn [rbind].
  destruct (d0 =? p0); [|destruct (d1 =? p1)]; cbn [rbind orb negb] in Hn |- *;
    [| |unfold data at 1 2; rewrite varint_decode_byte by (fold data; lia); cbn [rbind]].
  all: subst n; rewrite u64_small by lia.
  all: match goal with |- context [?a <=? ?b] => destruct (Z.leb_spec a b); [|by rewrite Hs by lia] end.
  all: rewrite padd_ok by (unfold data in *; zlia); cbn [rbind].
  all: replace (Z.to_nat (zlen protocol)) with (length protocol) by (unfold zlen; lia).
  all: by rewrite Hr.
Qed.

(** whether a protocol takes a message whose first bytes are known *)
Ltac search_tac :=
  first [rewrite secio_can_handle_spec by zlia | rewrite journal_can_handle_spec by zlia
        | rewrite kad_can_handle_spec by zlia | rewrite bitswap_can_handle_spec by zlia];
  match goal with |- context [?n <=? zlen ?d] => destruct (Z.leb_spec n (zlen d)); [|done || zlia] end;
  rewrite ?ztake_all by (match goal with |- zlen ?x <= _ => let v := eval vm_compute in (zlen x) in change (zlen x) with v end; zlia);
  reflexivity.
Ltac name_tac n r :=
  refine (name_can_handle_spec _ _ _ _ _ _ _ n r eq_refl _ _ _ _ _ _);
    [lia|done|zlia|reflexivity|reflexivity|];
  first [done | match goal with |- context [zlen ?x - _] => let v := eval vm_compute in (zlen x) in change (zlen x) with v end;
                intros; exfalso; zlia].

Lemma first_protocol_ok p pre rest : introduces p pre -> zlen (pre ++ rest) < 2 ^ 31 ->
  first_protocol node_protocols (Some (stream_message (pre ++ rest))) = Ret (Some p).
Proof.
  intros Hp Hl. unfold node_protocols.
  destruct p, Hp as [->|(l & [= <-] & ->)]; cbn [protocol_id] in *.
  all: unfold secio_id, journal_id, kad_id, bitswap_id, multistream_id, yamux_id, identify_id in Hl |- *.
  all: match type of Hl with
       | context [zlen ?l :: _] => let v := eval vm_compute in (zlen l) in change (zlen l) with v in *
       | _ => idtac
       end; cbn [app] in *.
  all: repeat first [apply first_protocol_hit; cbn [can_handle]; first [search_tac | name_tac 0 true | name_tac 1 true]
                    | apply first_protocol_skip; [cbn [can_handle]; first [search_tac | name_tac 0 false | name_tac 1 false]|]].
Qed.

(** ** The vector of handlers *)
Section dispatch_lemmas.
Context {M : Malloc} {Hm : MallocOk M} {St Str : Type}.
Variable handle : node_protocol -> option StreamMessage -> Str -> St -> res (Z * St).

Lemma add_handlers_ok ps : forall l, zlen l + zlen ps < 2 ^ 30 ->
  add_handlers handle ps (vector_of l) = Ret (vector_of (l ++ (Some ∘ protocol_handler handle <$> ps))).
Proof.
  induction ps as [|p ps IH]; intros l Hl; cbn [add_handlers fmap list_fmap].
  - by rewrite app_nil_r.
  - rewrite vector_add_of by zlia. cbn [rbind]. rewrite IH by zlia. by rewrite <- app_assoc.
Qed.

Lemma node_handlers_ok : ipfs_node_online_build_protocol_handlers handle
  = Ret (vector_of (Some ∘ protocol_handler handle <$> node_protocols)).
Proof.
  unfold ipfs_node_online_build_protocol_handlers. rewrite vector_new_of. cbn [rbind].
  by rewrite (add_handlers_ok node_protocols []).
Qed.

Lemma protocol_compare_loop_ok msg ps : forall pre,
  protocol_compare_loop (length ps) (zlen pre) msg (vector_of (Some ∘ protocol_handler handle <$> (pre ++ ps)))
  = let! p := first_protocol ps msg in Ret (protocol_handler handle <$> p).
Proof.
  induction ps as [|p ps IH]; intros pre; cbn [protocol_compare_loop first_protocol length]; [done|].
  assert (libp2p_utils_vector_get (vector_of (Some ∘ protocol_handler handle <$> pre ++ p :: ps)) (zlen pre)
          = Some (protocol_handler handle p)) as ->.
  { unfold libp2p_utils_vector_get. unfold v_total, vector_of. cbn [v_items].
    rewrite zlen_fmap, zlen_app, zlen_cons. zlen_facts. zbool. unfold zlen. rewrite Nat2Z.id.
    rewrite list_lookup_fmap, lookup_app_r by lia. by rewrite Nat.sub_diag. }
  change (CanHandle (protocol_handler handle p) msg) with (can_handle p msg).
  destruct (can_handle p msg) as [can| | |]; cbn [rbind]; [|done..].
  destruct (can =? 0); [|done]. specialize (IH (pre ++ [p])).
  rewrite <- app_assoc in IH. cbn [app] in IH. rewrite <- IH. f_equal. zlia.
Qed.

Lemma node_protocol_compare msg :
  protocol_compare msg (Some (vector_of (Some ∘ protocol_handler handle <$> node_protocols)))
  = let! p := first_protocol node_protocols msg in Ret (protocol_handler handle <$> p).
Proof. apply (protocol_compare_loop_ok msg node_protocols []). Qed.
End dispatch_lemmas.

(** Property C21.  A node with the seven handlers in the order it adds them hands a
    message that starts with the id of a protocol -- or, for secio, multistream,
    yamux and identify, with the length and the line of the id -- to the handler
    of that protocol, whatever follows.  A message of one slash is taken for
    bitswap: the length of the id is cut to that of the message. *)
Theorem dispatch_spec {M : Malloc} {Hm : MallocOk M} {St Str : Type}
    (handle : node_protocol -> option StreamMessage -> Str -> St -> res (Z * St))
    (write : Str -> bytes -> St -> res (Z * St)) p pre rest stream st :
  introduces p pre -> zlen (pre ++ rest) < 2 ^ 31 ->
  exists handlers, ipfs_node_online_build_protocol_handlers handle = Ret handlers /\
    (let msg := Some (stream_message (pre ++ rest)) in
     libp2p_protocol_is_valid_protocol msg (Some handlers) = Ret 1 /\
     libp2p_protocol_marshal write msg stream (Some handlers) st
     = (let! (r, st) := handle p msg stream st in Ret (r, msg, st))) /\
    (let msg := Some (stream_message [47]) in
     libp2p_protocol_marshal write msg stream (Some handlers) st
     = (let! (r, st) := handle Bitswap msg stream st in Ret (r, msg, st))).
Proof.
  intros Hp Hl. eexists. split; [by apply node_handlers_ok|].
  unfold libp2p_protocol_is_valid_protocol, libp2p_protocol_marshal. rewrite !node_protocol_compare.
  rewrite (first_protocol_ok p pre rest) by done. done.
Qed.

Lemma dispatch_spec_witness :
  exists handlers, ipfs_node_online_build_protocol_handlers (M := malloc_total) (St := list Z) (Str := unit)
      (fun p _ _ st => Ret (1, st)) = Ret handlers /\
    libp2p_protocol_is_valid_protocol (Some (stream_message (13 :: yamux_id ++ [7]))) (Some handlers) = Ret 1.
Proof.
  destruct (dispatch_spec (M := malloc_total) (St := list Z) (Str := unit) (fun p _ _ st => Ret (1, st))
    (fun _ _ st => Ret (1, st)) Yamux (13 :: yamux_id) [7] tt []) as (h & Hb & (Hv & _) & _).
  - right. exists yamux_id. split; reflexivity.
  - vm_compute. reflexivity.
  - exists h. split; [exact Hb|exact Hv].
Defined.

(**  A message that no handler takes is refused with -1 and the error
    number 100; it is answered with "na" on its stream when it holds a newline
    behind its first byte, and with nothing otherwise. *)
Lemma marshal_unknown {St Str : Type} (write : Str -> bytes -> St -> res (Z * St)) data e stream
    (handlers : option (vector (Libp2pProtocolHandler St Str))) st :
  let msg := mkStreamMessage (Some data) (zlen data) e in
  protocol_compare (Some msg) handlers = Ret None ->
  libp2p_protocol_marshal write (Some msg) stream handlers st =
    (let! st := (if bool_decide (10 ∈ tail data) then let! (_, st) := write stream na st in Ret st else Ret st) in
     Ret (-1, Some (mkStreamMessage (Some data) (zlen data) 100), st)).
Proof.
  intros msg Hc. unfold libp2p_protocol_marshal. rewrite Hc. cbn [rbind].
  unfold appears_to_be_a_protocol, msg. cbn [sm_data_size sm_data deref default].
  destruct data as [|x data]; [done|]. cbn [tail].
  destruct data as [|y data]; [done|]. change (id (x :: y :: data)) with (x :: y :: data).
  rewrite (proj2 (Z.ltb_ge _ _)) by zlia. rewrite padd_ok by zlia. cbn [rbind].
  change (zdrop 1 (x :: y :: data)) with (y :: data). rewrite memrd_all by zlia. cbn [rbind].
  by destruct (bool_decide (10 ∈ y :: data)).
Qed.

(**  [strnstr] agrees with the search for a substring: it finds the
    first occurrence of the needle, cut to the length of the text, and reads
    nothing outside the text. *)
Lemma strnstr_equiv data needle : nonzero needle -> 0 < zlen needle -> 0 < zlen data < 2 ^ 31 ->
  strnstr data needle (zlen data) = Ret (c_strstr data (ztake (zlen data) needle)).
Proof. exact (strnstr_ok data needle). Qed.
