(* ===== verification/CState.v ===== *)
(** * C functions over a shared state

    Components whose functions call each other and change many objects are
    written in a state monad over [res]: a function takes the state and returns
    its result with the new state, or does what C leaves undefined.  [hoare P m Q]
    is partial correctness: when [m] returns from a state in [P], [Q] relates the
    state, the result and the new state.  [keeps I m] says that [m] preserves [I]. *)
From S2P Require Import Prelude.

Definition cfun (S A : Type) : Type := S -> res (A * S).

Section cfun.
Context {S : Type}.

Definition sret {A} (a : A) : cfun S A := fun s => Ret (a, s).
Definition sbind {A B} (m : cfun S A) (k : A -> cfun S B) : cfun S B :=
  fun s => let! (a, s) := m s in k a s.
(** a call that does not touch the state *)
Definition slift {A} (m : res A) : cfun S A := fun s => let! a := m in Ret (a, s).
Definition sundef {A} : cfun S A := fun _ => UB.
Definition sget {A} (f : S -> A) : cfun S A := fun s => Ret (f s, s).
Definition smod (f : S -> S) : cfun S unit := fun s => Ret (tt, f s).
End cfun.

Notation "'do!' x ':=' m 'in' k" := (sbind m (fun x => k))
  (at level 10, x pattern, m at level 200, k at level 200) : c_scope.

Section logic.
Context {S : Type}.
Implicit Types (P I : S -> Prop).

Definition hoare {A} P (m : cfun S A) (Q : S -> A -> S -> Prop) : Prop :=
  forall s a s', P s -> m s = Ret (a, s') -> Q s a s'.
Definition keeps {A} I (m : cfun S A) : Prop := hoare I m (fun _ _ s' => I s').

Lemma sbind_ret {A B} (m : cfun S A) (k : A -> cfun S B) s a s' :
  m s = Ret (a, s') -> sbind m k s = k a s'.
Proof. intros E. unfold sbind. by rewrite E. Qed.

Lemma sbind_inv {A B} (m : cfun S A) (k : A -> cfun S B) s b s' :
  sbind m k s = Ret (b, s') -> exists a s1, m s = Ret (a, s1) /\ k a s1 = Ret (b, s').
Proof. unfold sbind. intros ([a s1] & Hm & Hk)%rbind_inv. eauto. Qed.

Lemma keeps_ret {A} I (a : A) : keeps I (sret a).
Proof. by intros s b s' HI [= <- <-]. Qed.
Lemma keeps_undef {A} I : keeps (A := A) I sundef.
Proof. by intros s b s' HI. Qed.
Lemma keeps_lift {A} I (m : res A) : keeps I (slift m).
Proof. intros s b s' HI (a & _ & [= <- <-])%rbind_inv. done. Qed.
Lemma keeps_get {A} I (f : S -> A) : keeps I (sget f).
Proof. by intros s b s' HI [= <- <-]. Qed.
Lemma keeps_mod I f : (forall s, I s -> I (f s)) -> keeps I (smod f).
Proof. intros Hf s b s' HI [= <- <-]. auto. Qed.
Lemma keeps_bind {A B} I (m : cfun S A) (k : A -> cfun S B) :
  keeps I m -> (forall a, keeps I (k a)) -> keeps I (sbind m k).
Proof. intros Hm Hk s b s' HI (a & s1 & H1 & H2)%sbind_inv. eapply Hk; [|done]. by eapply Hm. Qed.
(** what was just read is known in the rest *)
Lemma keeps_bind_get {A B} I (f : S -> A) (k : A -> cfun S B) :
  (forall s b s', I s -> k (f s) s = Ret (b, s') -> I s') -> keeps I (sbind (sget f) k).
Proof. intros Hk s b s' HI E. by eapply Hk. Qed.
Lemma holds_bind {A B} P (Q : S -> A -> S -> Prop) (R : S -> B -> S -> Prop) m (k : A -> cfun S B) :
  hoare P m Q -> (forall s, P s -> forall a, hoare (Q s a) (k a) (fun _ b s' => R s b s')) ->
  hoare P (sbind m k) R.
Proof. intros Hm Hk s b s' HP (a & s1 & H1 & H2)%sbind_inv. eapply Hk; eauto. Qed.
End logic.

Create HintDb keeps.
#[export] Hint Resolve keeps_ret keeps_undef keeps_lift keeps_get keeps_mod : keeps.

(** [keeps] by the structure of the function; the calls come from the database *)
Ltac keeps_tac :=
  repeat first
  [ progress intros
  | solve [eauto with keeps]
  | apply keeps_bind
  | match goal with
    | |- keeps _ (match ?x with _ => _ end) => destruct x
    | |- keeps _ (if ?b then _ else _) => destruct b
    | |- keeps _ (let '(_, _) := ?p in _) => destruct p
    end ].
