(* ===== verification/YamuxFrame.v ===== *)
(** * Yamux frames (libp2p/yamux/frame.c and the functions on one frame)

    The twelve bytes in front of every message of a yamux connection, the tests
    and copies that look at one message only, and the macro MIN of stream.c.  The
    host is little endian: a field in memory has its least significant byte
    first. *)
From S2P Require Import Prelude Protocol.

Record yamux_frame := mkFrame {
  version : Z;
  frame_type : Z;
  flags : Z;
  streamid : Z;
  frame_length : Z
}.

#[export] Instance yamux_frame_eq_dec : EqDecision yamux_frame.
Proof. solve_decision. Defined.

Definition YAMUX_VERSION : Z := 0.
Definition YAMUX_STREAMID_SESSION : Z := 0.
Definition yamux_frame_data : Z := 0.
Definition yamux_frame_window_update : Z := 1.
Definition yamux_frame_ping : Z := 2.
Definition yamux_frame_go_away : Z := 3.
Definition yamux_frame_syn : Z := 1.
Definition yamux_frame_ack : Z := 2.
Definition yamux_frame_fin : Z := 4.
Definition yamux_frame_rst : Z := 8.
Definition sizeof_yamux_frame : Z := 12.

(** the bytes of an integer, least significant first *)
Definition byte_at (i n : Z) : Z := Z.land (Z.shiftr n (8 * i)) 255.
Definition le16 (n : Z) : bytes := [byte_at 0 n; byte_at 1 n].
Definition le32 (n : Z) : bytes := [byte_at 0 n; byte_at 1 n; byte_at 2 n; byte_at 3 n].

(** [htons], [ntohs]; [htonl], [ntohl] *)
Definition swap16 (n : Z) : Z := Z.lor (Z.shiftl (byte_at 0 n) 8) (byte_at 1 n).
Definition swap32 (n : Z) : Z :=
  Z.lor (Z.shiftl (byte_at 0 n) 24)
    (Z.lor (Z.shiftl (byte_at 1 n) 16) (Z.lor (Z.shiftl (byte_at 2 n) 8) (byte_at 3 n))).

Definition encode_frame (f : yamux_frame) : yamux_frame :=
  mkFrame (version f) (frame_type f) (swap16 (flags f)) (swap32 (streamid f)) (swap32 (frame_length f)).
Definition decode_frame (f : yamux_frame) : yamux_frame :=
  mkFrame (version f) (frame_type f) (swap16 (flags f)) (swap32 (streamid f)) (swap32 (frame_length f)).

(** the packed struct as an object, and the struct that bytes denote *)
Definition frame_object (f : yamux_frame) : bytes :=
  [version f; frame_type f] ++ le16 (flags f) ++ le32 (streamid f) ++ le32 (frame_length f).
Definition frame_at (p : bytes) : res yamux_frame :=
  match p with
  | v :: t :: f0 :: f1 :: s0 :: s1 :: s2 :: s3 :: l0 :: l1 :: l2 :: l3 :: _ =>
    Ret (mkFrame v t (f0 + 256 * f1) (s0 + 256 * (s1 + 256 * (s2 + 256 * s3)))
           (l0 + 256 * (l1 + 256 * (l2 + 256 * l3))))
  | _ => UB
  end.

(** [y ^ ((x ^ y) & -(x < y))] on [uint32_t] *)
Definition MIN (x y : Z) : Z := Z.lxor y (Z.land (Z.lxor x y) (u32 (- (if x <? y then 1 else 0)))).

(** ** One message *)
Section frame.
Context {M : Malloc}.

Definition libp2p_stream_message_new : option StreamMessage :=
  if malloc_ok sizeof_StreamMessage then Some (mkStreamMessage None 0 0) else None.

Definition libp2p_stream_message_copy (original : StreamMessage) : res (option StreamMessage) :=
  match libp2p_stream_message_new with
  | None => Ret None
  | Some _ =>
    if malloc_ok (sm_data_size original) then
      let! b := memrd (deref (sm_data original)) (sm_data_size original) in
      Ret (Some (mkStreamMessage (Some b) (sm_data_size original) (sm_error_number original)))
    else Ret None
  end.

(** the result of the comparison of sizes is cut to [int]; the copy of the frame
    is not tested *)
Definition yamux_more_to_read (incoming : option StreamMessage) : res Z :=
  match incoming with
  | None => Ret 0
  | Some m =>
    if sm_data_size m <? 12 then Ret 0
    else if malloc_ok sizeof_yamux_frame then
      let! p := memrd (deref (sm_data m)) sizeof_yamux_frame in
      let! original := frame_at p in
      let copy := decode_frame original in
      if frame_type copy =? yamux_frame_data
      then Ret (s32 (u64 (frame_length copy - u64 (sm_data_size m - sizeof_yamux_frame))))
      else Ret 0
    else UB
  end.

(** frame and data in one object; the size of the data is cut to the width of the
    field *)
Definition libp2p_yamux_prepare_to_send (incoming : StreamMessage) : res (option (yamux_frame * bytes)) :=
  match libp2p_stream_message_new with
  | None => Ret None
  | Some _ =>
    if malloc_ok (u64 (sizeof_yamux_frame + sm_data_size incoming)) then
      let! data := memrd (deref (sm_data incoming)) (sm_data_size incoming) in
      Ret (Some (mkFrame YAMUX_VERSION yamux_frame_data 0 0 (u32 (sm_data_size incoming)), data))
    else Ret None
  end.

(** result and message: [None] where the caller's pointer is left alone *)
Definition yamux_pull_message_from_frame (incoming : bytes) (incoming_size : Z)
  : res (Z * option (option StreamMessage)) :=
  if incoming_size <=? 12 then Ret (0, None)
  else
    match libp2p_stream_message_new with
    | None => Ret (0, Some None)
    | Some _ =>
      let data_size := incoming_size - sizeof_yamux_frame in
      if malloc_ok data_size then
        let! p := padd incoming sizeof_yamux_frame in
        let! data := memrd p data_size in
        Ret (1, Some (Some (mkStreamMessage (Some data) data_size 0)))
      else Ret (0, Some None)
    end.
End frame.

(** ** The wire format *)
Definition frame_ok (f : yamux_frame) : Prop :=
  0 <= version f < 2 ^ 8 /\ 0 <= frame_type f < 2 ^ 8 /\ 0 <= flags f < 2 ^ 16 /\
  0 <= streamid f < 2 ^ 32 /\ 0 <= frame_length f < 2 ^ 32.

(** the most significant byte first *)
Definition be16 (n : Z) : bytes := [n / 2 ^ 8 mod 2 ^ 8; n mod 2 ^ 8].
Definition be32 (n : Z) : bytes :=
  [n / 2 ^ 24 mod 2 ^ 8; n / 2 ^ 16 mod 2 ^ 8; n / 2 ^ 8 mod 2 ^ 8; n mod 2 ^ 8].
Definition frame_wire (f : yamux_frame) : bytes :=
  [version f; frame_type f] ++ be16 (flags f) ++ be32 (streamid f) ++ be32 (frame_length f).

Lemma byte_at_div i n : 0 <= i -> byte_at i n = n / 2 ^ (8 * i) mod 2 ^ 8.
Proof.
  intros Hi. unfold byte_at. change 255 with (Z.ones 8).
  rewrite Z.land_ones, Z.shiftr_div_pow2 by lia. done.
Qed.
Lemma byte_at_range i n : 0 <= byte_at i n < 256.
Proof.
  unfold byte_at. change 255 with (Z.ones 8). rewrite Z.land_ones by lia.
  apply Z.mod_pos_bound. lia.
Qed.

Lemma swap16_sum n : swap16 n = byte_at 0 n * 2 ^ 8 + byte_at 1 n.
Proof.
  unfold swap16. pose proof (byte_at_range 0 n). pose proof (byte_at_range 1 n).
  by rewrite lor_shiftl by lia.
Qed.
Lemma swap32_sum n :
  swap32 n = byte_at 0 n * 2 ^ 24 + (byte_at 1 n * 2 ^ 16 + (byte_at 2 n * 2 ^ 8 + byte_at 3 n)).
Proof.
  unfold swap32. pose proof (byte_at_range 0 n). pose proof (byte_at_range 1 n).
  pose proof (byte_at_range 2 n). pose proof (byte_at_range 3 n).
  rewrite (lor_shiftl 8), (lor_shiftl 16), (lor_shiftl 24) by lia. done.
Qed.

(** the bytes of a sum of bytes *)
Lemma byte_at_0 a n : 0 <= a < 256 -> byte_at 0 (a + 256 * n) = a.
Proof.
  intros Ha. rewrite byte_at_div by lia. rewrite Z.div_1_r. change (2 ^ 8) with 256.
  rewrite Z.mul_comm, Z_mod_plus_full. by apply Z.mod_small.
Qed.
Lemma byte_at_S i a n : 0 <= i -> 0 <= a < 256 -> byte_at (1 + i) (a + 256 * n) = byte_at i n.
Proof.
  intros Hi Ha. rewrite !byte_at_div by lia.
  replace (8 * (1 + i)) with (8 + 8 * i) by lia.
  rewrite Z.pow_add_r, <- Z.div_div by lia. change (2 ^ 8) with 256.
  do 2 f_equal. rewrite Z.mul_comm, Z_div_plus_full by lia. rewrite Z.div_small by lia. lia.
Qed.

Lemma le16_swap16 n : le16 (swap16 n) = [byte_at 1 n; byte_at 0 n].
Proof.
  rewrite swap16_sum. pose proof (byte_at_range 0 n). pose proof (byte_at_range 1 n).
  replace (_ + _) with (byte_at 1 n + 256 * (byte_at 0 n + 256 * 0)) by lia.
  unfold le16. rewrite byte_at_0 by done. rewrite (byte_at_S 0), byte_at_0 by (done || lia). done.
Qed.
Lemma le32_swap32 n : le32 (swap32 n) = [byte_at 3 n; byte_at 2 n; byte_at 1 n; byte_at 0 n].
Proof.
  rewrite swap32_sum. pose proof (byte_at_range 0 n). pose proof (byte_at_range 1 n).
  pose proof (byte_at_range 2 n). pose proof (byte_at_range 3 n).
  replace (_ + _) with (byte_at 3 n + 256 * (byte_at 2 n + 256 * (byte_at 1 n + 256 * (byte_at 0 n + 256 * 0)))) by lia.
  unfold le32. rewrite byte_at_0 by done.
  rewrite (byte_at_S 0), (byte_at_S 1), (byte_at_S 2) by (done || lia). rewrite byte_at_0 by done.
  rewrite (byte_at_S 0), (byte_at_S 1) by (done || lia). rewrite byte_at_0 by done.
  rewrite (byte_at_S 0) by (done || lia). by rewrite byte_at_0 by done.
Qed.

Lemma encode_frame_object f : frame_object (encode_frame f) = frame_wire f.
Proof.
  unfold frame_object, frame_wire, encode_frame. cbn [version frame_type flags streamid frame_length].
  rewrite le16_swap16, !le32_swap32. unfold be16, be32. rewrite !byte_at_div by lia.
  by rewrite !Z.div_1_r.
Qed.

Lemma sum16 n : 0 <= n < 2 ^ 16 -> byte_at 0 n + 256 * byte_at 1 n = n.
Proof. intros. rewrite !byte_at_div by lia. change (2 ^ (8 * 0)) with 1. change (2 ^ (8 * 1)) with 256.
  rewrite Z.div_1_r. Z.div_mod_to_equations; lia.
Qed.
Lemma sum32 n : 0 <= n < 2 ^ 32 ->
  byte_at 0 n + 256 * (byte_at 1 n + 256 * (byte_at 2 n + 256 * byte_at 3 n)) = n.
Proof.
  intros. rewrite !byte_at_div by lia. change (2 ^ (8 * 0)) with 1. change (2 ^ (8 * 1)) with 256.
  change (2 ^ (8 * 2)) with 65536. change (2 ^ (8 * 3)) with 16777216. rewrite Z.div_1_r.
  Z.div_mod_to_equations; lia.
Qed.

Lemma frame_at_object f rest : frame_ok f -> frame_at (frame_object f ++ rest) = Ret f.
Proof.
  intros (_ & _ & Hf & Hs & Hl). unfold frame_object, le16, le32. cbn [app frame_at].
  rewrite sum16, !sum32 by done. by destruct f.
Qed.

Lemma swap16_range n : 0 <= swap16 n < 2 ^ 16.
Proof. rewrite swap16_sum. pose proof (byte_at_range 0 n). pose proof (byte_at_range 1 n). lia. Qed.
Lemma swap32_range n : 0 <= swap32 n < 2 ^ 32.
Proof.
  rewrite swap32_sum. pose proof (byte_at_range 0 n). pose proof (byte_at_range 1 n).
  pose proof (byte_at_range 2 n). pose proof (byte_at_range 3 n). lia.
Qed.
Lemma swap16_swap16 n : 0 <= n < 2 ^ 16 -> swap16 (swap16 n) = n.
Proof.
  intros Hn. pose proof (le16_swap16 n) as E. unfold le16 in E. injection E as E0 E1.
  rewrite (swap16_sum (swap16 n)), E0, E1. rewrite <- (sum16 n) at 3 by done. lia.
Qed.
Lemma swap32_swap32 n : 0 <= n < 2 ^ 32 -> swap32 (swap32 n) = n.
Proof.
  intros Hn. pose proof (le32_swap32 n) as E. unfold le32 in E. injection E as E0 E1 E2 E3.
  rewrite (swap32_sum (swap32 n)), E0, E1, E2, E3. rewrite <- (sum32 n) at 5 by done. lia.
Qed.

Lemma encode_frame_ok f : frame_ok f -> frame_ok (encode_frame f).
Proof.
  intros (Hv & Ht & _). unfold frame_ok, encode_frame. cbn [version frame_type flags streamid frame_length].
  pose proof (swap16_range (flags f)). pose proof (swap32_range (streamid f)).
  pose proof (swap32_range (frame_length f)). auto.
Qed.
Lemma decode_encode_frame f : frame_ok f -> decode_frame (encode_frame f) = f.
Proof.
  intros (_ & _ & Hf & Hs & Hl). unfold decode_frame, encode_frame. cbn [version frame_type flags streamid frame_length].
  rewrite swap16_swap16, !swap32_swap32 by done. by destruct f.
Qed.

(** what a receiver reads is what was sent *)
Lemma frame_received f rest : frame_ok f ->
  frame_at (frame_wire f ++ rest) = Ret (encode_frame f).
Proof. intros Hf. rewrite <- encode_frame_object. apply frame_at_object. by apply encode_frame_ok. Qed.
Lemma zlen_frame_wire f : zlen (frame_wire f) = 12.
Proof. reflexivity. Qed.

Lemma MIN_spec x y : 0 <= x < 2 ^ 32 -> 0 <= y < 2 ^ 32 -> MIN x y = Z.min x y.
Proof.
  intros Hx Hy. unfold MIN. destruct (Z.ltb_spec x y).
  - change (u32 (- (1))) with (Z.ones 32). rewrite Z.land_ones by lia.
    rewrite Z.mod_small.
    + rewrite Z.lxor_comm, Z.lxor_assoc, Z.lxor_nilpotent, Z.lxor_0_r. lia.
    + split; [apply Z.lxor_nonneg; lia|]. destruct (Z.eq_dec (Z.lxor x y) 0) as [->|Hne]; [lia|].
      assert (0 <= Z.lxor x y) by (apply Z.lxor_nonneg; lia).
      apply Z.log2_lt_pow2; [lia|].
      eapply Z.le_lt_trans; [apply Z.log2_lxor; lia|].
      apply Z.max_lub_lt; (destruct (Z.eq_dec x 0), (Z.eq_dec y 0); subst; try (cbn; lia); apply Z.log2_lt_pow2; lia).
  - rewrite Z.land_0_r, Z.lxor_0_r. lia.
Qed.

(**  An encoded frame is in memory what the wire format says: version,
    type, and the flags, stream id and length with the most significant byte
    first; the twelve bytes, followed by anything, are read and decoded back to
    the same frame.  The reader asks for exactly the data that is missing behind a
    data frame. *)
Lemma frame_roundtrip {M : Malloc} {Hm : MallocOk M} (f : yamux_frame) (data : bytes) :
  frame_ok f -> zlen data < 2 ^ 31 -> zlen data <= frame_length f < 2 ^ 31 ->
  frame_object (encode_frame f) = frame_wire f /\
  (let! g := frame_at (frame_wire f ++ data) in Ret (decode_frame g)) = Ret f /\
  yamux_more_to_read (Some (stream_message (frame_wire f ++ data)))
  = Ret (if frame_type f =? yamux_frame_data then frame_length f - zlen data else 0).
Proof.
  intros Hf Hd Hl. split; [apply encode_frame_object|]. rewrite frame_received by done.
  split; [cbn [rbind]; by rewrite decode_encode_frame|]. zlen_facts.
  unfold yamux_more_to_read, stream_message. cbn [sm_data_size sm_data]. rewrite zlen_app, zlen_frame_wire.
  rewrite (proj2 (Z.ltb_ge _ _)), malloc_always by lia. change (deref _) with (frame_wire f ++ data).
  rewrite memrd_app by done. cbn [rbind]. rewrite <- (app_nil_r (frame_wire f)), frame_received by done.
  cbn [rbind]. rewrite decode_encode_frame by done. destruct (frame_type f =? yamux_frame_data); [|done].
  unfold sizeof_yamux_frame. rewrite (u64_small (12 + _ - 12)) by lia. rewrite u64_small by lia.
  rewrite s32_small by lia. f_equal. lia.
Qed.
