(* ===== verification/YamuxState.v ===== *)
(** * The state of a yamux connection (structs of libp2p/yamux/, libp2p/net/stream.h)

    One yamux connection: its context, its session with the array of streams, the
    objects these point to, and the multistream negotiation a new stream starts
    with (libp2p/net/multistream.c).  The functions run in the monad of [CState]
    over the record [yamux].  Pointers are locations: streams ([struct Stream]),
    channel contexts and the session's [struct yamux_stream]s live in one map
    each.  A pointer to a context, whose first byte tells the code what it is, is
    a [StreamContext].

    What is written to the stream below, and every other visible effect, is an
    [event] of the trace; the results of the stream below are those of the class
    [Network], which sees the trace.  The callbacks of a session and of its streams
    appear as events and change nothing: the only one the program sets,
    [libp2p_yamux_new_stream], has an empty body. *)
From S2P Require Import Prelude CState Varint Vector Protocol ThreadsafeBuffer YamuxFrame.

Definition EINVAL : Z := 22.
Definition EACCES : Z := 13.
Definition EPROTO : Z := 71.
Definition YAMUX_DEFAULT_WINDOW : Z := 256 * 1024.
Definition default_accept_backlog : Z := 256.

Inductive yamux_stream_state :=
| yamux_stream_inited
| yamux_stream_syn_sent
| yamux_stream_syn_recv
| yamux_stream_est
| yamux_stream_closing
| yamux_stream_closed.

#[export] Instance yamux_stream_state_eq_dec : EqDecision yamux_stream_state.
Proof. solve_decision. Defined.

Inductive event :=
| Sent (data : bytes)
| Received (data : bytes)
| PingFn (value : Z)
| PongFn (value sec nsec : Z)
| GoAwayFn (err : Z)
| NewStreamFn
| RstFn (s : positive)
| FinFn (s : positive)
| FreeFn (s : positive)
| SessionFreeFn
| Upgraded (parent new : positive)
| Closed (s : positive)
| Spawned (c : positive).

(** a [void*] stream context *)
Inductive StreamContext :=
| Context_Raw (socket_descriptor : Z)
| Context_Multistream (status : Z)
| Context_Yamux
| Context_Channel (c : positive).

Definition STREAM_TYPE_MULTISTREAM : Z := 1.
Definition STREAM_TYPE_YAMUX : Z := 5.
Definition STREAM_TYPE_RAW : Z := 7.

Record Stream := mkStream {
  stream_type : Z;
  parent_stream : option positive;
  stream_context : option StreamContext;
  stream_channel : Z
}.

Record YamuxChannelContext := mkChannel {
  cc_yamux_context : option StreamContext;
  cc_stream : positive;
  cc_child_stream : option positive;
  cc_channel : Z;
  cc_window_size : Z;
  cc_state : yamux_stream_state;
  cc_closed : Z;
  cc_buffer : option ThreadsafeBufferContext;
  cc_read_running : Z
}.

Record yamux_stream := mkYStream {
  ys_fin_fn : bool;
  ys_rst_fn : bool;
  ys_free_fn : bool;
  ys_stream : option positive;
  ys_state : yamux_stream_state;
  ys_id : Z;
  ys_window_size : Z
}.

Record yamux_session_stream := mkSlot {
  ss_stream : ptr positive;
  ss_alive : Z
}.

Record yamux_session := mkSession {
  accept_backlog : Z;
  num_streams : Z;
  cap_streams : Z;
  streams : list yamux_session_stream;
  ping_fn : bool;
  pong_fn : bool;
  go_away_fn : bool;
  new_stream_fn : bool;
  free_fn : bool;
  since_ping : Z * Z;
  session_parent : positive;
  nextid : Z;
  closed : Z
}.

Record yamux := mkYamux {
  y_stream : positive;
  y_state : yamux_stream_state;
  y_am_server : Z;
  y_session : yamux_session;
  y_channels : vector positive;
  y_buffered : option StreamMessage;
  y_buffered_pos : Z;
  y_streams : gmap positive Stream;
  y_contexts : gmap positive YamuxChannelContext;
  y_objects : gmap positive yamux_stream;
  y_next : positive;
  y_trace : list event
}.

(** ** The stream below and the clock *)
Class Network := {
  net_write : list event -> bytes -> Z;
  net_read : list event -> Z * option bytes;
  net_read_raw : list event -> Z -> Z * bytes;
  net_clock : list event -> option (Z * Z)
}.

(** ** Updates *)
Definition set_state st y := mkYamux (y_stream y) st (y_am_server y) (y_session y) (y_channels y)
  (y_buffered y) (y_buffered_pos y) (y_streams y) (y_contexts y) (y_objects y) (y_next y) (y_trace y).
Definition set_session s y := mkYamux (y_stream y) (y_state y) (y_am_server y) s (y_channels y)
  (y_buffered y) (y_buffered_pos y) (y_streams y) (y_contexts y) (y_objects y) (y_next y) (y_trace y).
Definition set_channels v y := mkYamux (y_stream y) (y_state y) (y_am_server y) (y_session y) v
  (y_buffered y) (y_buffered_pos y) (y_streams y) (y_contexts y) (y_objects y) (y_next y) (y_trace y).
Definition set_buffered m pos y := mkYamux (y_stream y) (y_state y) (y_am_server y) (y_session y) (y_channels y)
  m pos (y_streams y) (y_contexts y) (y_objects y) (y_next y) (y_trace y).
Definition set_streams m y := mkYamux (y_stream y) (y_state y) (y_am_server y) (y_session y) (y_channels y)
  (y_buffered y) (y_buffered_pos y) m (y_contexts y) (y_objects y) (y_next y) (y_trace y).
Definition set_contexts m y := mkYamux (y_stream y) (y_state y) (y_am_server y) (y_session y) (y_channels y)
  (y_buffered y) (y_buffered_pos y) (y_streams y) m (y_objects y) (y_next y) (y_trace y).
Definition set_objects m y := mkYamux (y_stream y) (y_state y) (y_am_server y) (y_session y) (y_channels y)
  (y_buffered y) (y_buffered_pos y) (y_streams y) (y_contexts y) m (y_next y) (y_trace y).
Definition set_next n y := mkYamux (y_stream y) (y_state y) (y_am_server y) (y_session y) (y_channels y)
  (y_buffered y) (y_buffered_pos y) (y_streams y) (y_contexts y) (y_objects y) n (y_trace y).
Definition set_trace t y := mkYamux (y_stream y) (y_state y) (y_am_server y) (y_session y) (y_channels y)
  (y_buffered y) (y_buffered_pos y) (y_streams y) (y_contexts y) (y_objects y) (y_next y) t.

Definition set_slots l n s := mkSession (accept_backlog s) (num_streams s) n l (ping_fn s) (pong_fn s)
  (go_away_fn s) (new_stream_fn s) (free_fn s) (since_ping s) (session_parent s) (nextid s) (closed s).
Definition set_num n s := mkSession (accept_backlog s) n (cap_streams s) (streams s) (ping_fn s) (pong_fn s)
  (go_away_fn s) (new_stream_fn s) (free_fn s) (since_ping s) (session_parent s) (nextid s) (closed s).
Definition set_since t s := mkSession (accept_backlog s) (num_streams s) (cap_streams s) (streams s) (ping_fn s)
  (pong_fn s) (go_away_fn s) (new_stream_fn s) (free_fn s) t (session_parent s) (nextid s) (closed s).
Definition set_nextid n s := mkSession (accept_backlog s) (num_streams s) (cap_streams s) (streams s) (ping_fn s)
  (pong_fn s) (go_away_fn s) (new_stream_fn s) (free_fn s) (since_ping s) (session_parent s) n (closed s).
Definition set_session_closed c s := mkSession (accept_backlog s) (num_streams s) (cap_streams s) (streams s) (ping_fn s)
  (pong_fn s) (go_away_fn s) (new_stream_fn s) (free_fn s) (since_ping s) (session_parent s) (nextid s) c.

Definition set_cc_state st c := mkChannel (cc_yamux_context c) (cc_stream c) (cc_child_stream c) (cc_channel c)
  (cc_window_size c) st (cc_closed c) (cc_buffer c) (cc_read_running c).
Definition set_cc_child p c := mkChannel (cc_yamux_context c) (cc_stream c) p (cc_channel c)
  (cc_window_size c) (cc_state c) (cc_closed c) (cc_buffer c) (cc_read_running c).
Definition set_cc_channel n c := mkChannel (cc_yamux_context c) (cc_stream c) (cc_child_stream c) n
  (cc_window_size c) (cc_state c) (cc_closed c) (cc_buffer c) (cc_read_running c).
Definition set_cc_buffer b c := mkChannel (cc_yamux_context c) (cc_stream c) (cc_child_stream c) (cc_channel c)
  (cc_window_size c) (cc_state c) (cc_closed c) b (cc_read_running c).

Definition set_ys_state st s := mkYStream (ys_fin_fn s) (ys_rst_fn s) (ys_free_fn s) (ys_stream s) st (ys_id s) (ys_window_size s).
Definition set_ys_stream p s := mkYStream (ys_fin_fn s) (ys_rst_fn s) (ys_free_fn s) p (ys_state s) (ys_id s) (ys_window_size s).
Definition set_ys_window w s := mkYStream (ys_fin_fn s) (ys_rst_fn s) (ys_free_fn s) (ys_stream s) (ys_state s) (ys_id s) w.

Definition set_parent p s := mkStream (stream_type s) p (stream_context s) (stream_channel s).
Definition set_context c s := mkStream (stream_type s) (parent_stream s) c (stream_channel s).

Abbreviation Y := (cfun yamux).

(** ** Objects *)
Definition log_event (e : event) : Y unit := smod (fun y => set_trace (y_trace y ++ [e]) y).
Definition read_stream (s : positive) : Y Stream :=
  fun y => match y_streams y !! s with Some v => Ret (v, y) | None => UB end.
Definition read_context (c : positive) : Y YamuxChannelContext :=
  fun y => match y_contexts y !! c with Some v => Ret (v, y) | None => UB end.
Definition read_object (o : positive) : Y yamux_stream :=
  fun y => match y_objects y !! o with Some v => Ret (v, y) | None => UB end.
Definition write_stream (s : positive) (v : Stream) : Y unit :=
  do! _ := read_stream s in smod (fun y => set_streams (<[s := v]> (y_streams y)) y).
Definition write_context (c : positive) (v : YamuxChannelContext) : Y unit :=
  do! _ := read_context c in smod (fun y => set_contexts (<[c := v]> (y_contexts y)) y).
Definition write_object (o : positive) (v : yamux_stream) : Y unit :=
  do! _ := read_object o in smod (fun y => set_objects (<[o := v]> (y_objects y)) y).
Definition new_stream (v : Stream) : Y positive := fun y =>
  Ret (y_next y, set_next (Pos.succ (y_next y)) (set_streams (<[y_next y := v]> (y_streams y)) y)).
Definition new_context (v : YamuxChannelContext) : Y positive := fun y =>
  Ret (y_next y, set_next (Pos.succ (y_next y)) (set_contexts (<[y_next y := v]> (y_contexts y)) y)).
Definition new_object (v : yamux_stream) : Y positive := fun y =>
  Ret (y_next y, set_next (Pos.succ (y_next y)) (set_objects (<[y_next y := v]> (y_objects y)) y)).
Definition nonnull {A} (p : option A) : Y A := match p with Some a => sret a | None => sundef end.

Definition sizeof_Stream : Z := 104.
Definition sizeof_YamuxChannelContext : Z := 64.
Definition sizeof_yamux_stream : Z := 64.
Definition sizeof_MultistreamContext : Z := 32.
Definition sizeof_yamux_session : Z := 128.
Definition sizeof_yamux_session_stream : Z := 16.
Definition sizeof_YamuxContext : Z := 72.
