(* ===== verification/YamuxStream.v ===== *)
(** * Yamux streams (libp2p/yamux/stream.c and the stream functions of yamux.c)

    Writing to a connection or a channel, the states of a channel, opening a
    channel, the multistream negotiation on a new channel
    (libp2p/net/multistream.c), and what arrives for a stream. *)
From S2P Require Import Prelude CState Varint Vector Protocol ThreadsafeBuffer YamuxFrame YamuxState.

Section stream.
Context {M : Malloc} {N : Network}.

(** ** Contexts *)
(** the first byte of the object decides: ['C'] for a channel.  The one of a raw
    connection is the low byte of its socket: the socket 67 would be taken for a
    channel, and what follows is undefined *)
Definition libp2p_yamux_get_channel_context (stream_context : option StreamContext) : Y (option positive) :=
  match stream_context with
  | None => sundef
  | Some (Context_Channel c) => sret (Some c)
  | Some (Context_Raw fd) => if Z.land fd 255 =? 67 then sundef else sret None
  | Some _ => sret None
  end.

Definition libp2p_yamux_get_context (stream_context : option StreamContext) : Y (option StreamContext) :=
  match stream_context with
  | Some (Context_Channel c) => do! cc := read_context c in sret (cc_yamux_context cc)
  | Some Context_Yamux => sret (Some Context_Yamux)
  | Some (Context_Raw fd) =>
    if (Z.land fd 255 =? 67) || (Z.land fd 255 =? 89) then sundef else sret None
  | Some (Context_Multistream _) | None => sret None
  end.

(** using a pointer as a [YamuxContext] *)
Definition as_yamux (ctx : option StreamContext) : Y unit :=
  match ctx with Some Context_Yamux => sret tt | _ => sundef end.

Definition libp2p_yamux_get_parent_stream (context : option StreamContext) : Y (option positive) :=
  match context with
  | None => sret None
  | Some _ =>
    do! ctx := libp2p_yamux_get_context context in
    match ctx with
    | None => sret None
    | Some _ =>
      do! _ := as_yamux ctx in
      do! s := sget y_stream in
      do! st := read_stream s in sret (parent_stream st)
    end
  end.

(** [write] of the stream below *)
Definition send (data : bytes) : Y Z := fun y =>
  Ret (net_write (y_trace y) data, set_trace (y_trace y ++ [Sent data]) y).

(** [ctx->stream->parent_stream->write(...)] *)
Definition lower_write (data : bytes) : Y Z :=
  do! s := sget y_stream in
  do! st := read_stream s in
  do! _ := nonnull (parent_stream st) in
  send data.

(** ** Flags and frames *)
Definition yamux_write_frame (context : option StreamContext) (f : yamux_frame) : Y Z :=
  match context with
  | None => sret 0
  | Some _ =>
    let f := encode_frame f in
    do! ctx := libp2p_yamux_get_context context in
    do! _ := as_yamux ctx in
    do! r := lower_write (frame_object f) in
    sret (if r =? 0 then 0 else sizeof_yamux_frame)
  end.

(** the flag and the next state *)
Definition flag_of (st : yamux_stream_state) : Z * yamux_stream_state :=
  match st with
  | yamux_stream_inited => (yamux_frame_syn, yamux_stream_syn_sent)
  | yamux_stream_syn_recv => (yamux_frame_ack, yamux_stream_est)
  | _ => (0, st)
  end.

Definition get_flags (context : option StreamContext) : Y Z :=
  match context with
  | Some (Context_Channel c) =>
    do! ctx := read_context c in
    let (flag, st) := flag_of (cc_state ctx) in
    do! _ := write_context c (set_cc_state st ctx) in sret flag
  | Some Context_Yamux =>
    do! st := sget y_state in
    let (flag, st) := flag_of st in
    do! _ := smod (set_state st) in sret flag
  | Some (Context_Raw fd) =>
    if (Z.land fd 255 =? 67) || (Z.land fd 255 =? 89) then sundef else sret 0
  | Some (Context_Multistream _) | None => sret 0
  end.

(** [channel_ctx->yamux_context->stream->stream_context] *)
Definition yamux_context_of (ctx : YamuxChannelContext) : Y (option StreamContext) :=
  do! _ := as_yamux (cc_yamux_context ctx) in
  do! s := sget y_stream in
  do! st := read_stream s in sret (stream_context st).

Definition control_frame (flags streamid length : Z) : yamux_frame :=
  mkFrame YAMUX_VERSION yamux_frame_window_update flags streamid length.

Definition yamux_stream_init (channel_ctx : option positive) : Y Z :=
  match channel_ctx with
  | None => sret (- EINVAL)
  | Some c =>
    do! ctx := read_context c in
    if negb (bool_decide (cc_state ctx = yamux_stream_inited)) || negb (cc_closed ctx =? 0)
    then sret (- EINVAL)
    else
      let f := control_frame yamux_frame_syn (cc_channel ctx) 0 in
      do! _ := write_context c (set_cc_state yamux_stream_syn_sent ctx) in
      do! context := yamux_context_of ctx in yamux_write_frame context f
  end.

(** [context] is a [void*]: its first byte is looked at *)
Definition yamux_stream_close (context : option StreamContext) : Y Z :=
  match context with
  | None => sret 0
  | Some (Context_Channel c) =>
    do! ctx := read_context c in
    if negb (bool_decide (cc_state ctx = yamux_stream_est)) || negb (cc_closed ctx =? 0)
    then sret (- EINVAL)
    else
      let f := control_frame yamux_frame_fin (cc_channel ctx) 0 in
      do! _ := write_context c (set_cc_state yamux_stream_closing ctx) in
      do! context := yamux_context_of ctx in yamux_write_frame context f
  | Some Context_Yamux => yamux_write_frame context (control_frame yamux_frame_fin 0 0)
  | Some (Context_Raw fd) =>
    if (Z.land fd 255 =? 67) || (Z.land fd 255 =? 89) then sundef else sret 0
  | Some (Context_Multistream _) => sret 0
  end.

Definition yamux_stream_reset (channel_ctx : option positive) : Y Z :=
  match channel_ctx with
  | None => sret (- EINVAL)
  | Some c =>
    do! ctx := read_context c in
    if negb (cc_closed ctx =? 0) then sret (- EINVAL)
    else
      let f := control_frame yamux_frame_rst (cc_channel ctx) 0 in
      do! _ := write_context c (set_cc_state yamux_stream_closed ctx) in
      do! context := yamux_context_of ctx in yamux_write_frame context f
  end.

Definition yamux_stream_window_update (channel_ctx : option positive) (delta : Z) : Y Z :=
  match channel_ctx with
  | None => sret (- EINVAL)
  | Some c =>
    do! ctx := read_context c in
    if bool_decide (cc_state ctx = yamux_stream_closed) || bool_decide (cc_state ctx = yamux_stream_closing)
       || negb (cc_closed ctx =? 0)
    then sret (- EINVAL)
    else
      do! flags := get_flags (Some (Context_Channel c)) in
      let f := control_frame flags (cc_channel ctx) (u32 delta) in
      do! context := yamux_context_of ctx in yamux_write_frame context f
  end.

(** one turn of the loop sends the frame and at most a window of data; [n] turns *)
Fixpoint stream_write_loop (n : nat) (c : positive) (id ws : Z) (data : bytes) : Y (option Z) :=
  match n with
  | O => fun _ => NoFuel
  | S n =>
    if zlen data =? 0 then sret None
    else
      let dr := u32 (zlen data) in
      let adv := MIN dr ws in
      do! flags := get_flags (Some (Context_Channel c)) in
      let f := mkFrame YAMUX_VERSION yamux_frame_data flags id adv in
      do! out := slift (memrd data adv) in
      do! ctx := read_context c in
      do! _ := as_yamux (cc_yamux_context ctx) in
      do! r := lower_write (frame_object (encode_frame f) ++ out) in
      if r =? 0 then sret (Some adv)
      else do! data := slift (padd data adv) in stream_write_loop n c id ws data
  end.

(** [fuel] turns of the loop *)
Definition yamux_stream_write (fuel : nat) (channel_ctx : option positive) (data_length : Z)
    (data : option bytes) : Y Z :=
  match channel_ctx, data with
  | Some c, Some data =>
    if data_length =? 0 then sret (- EINVAL)
    else
      do! ctx := read_context c in
      do! data := slift (memrd data data_length) in
      do! r := stream_write_loop fuel c (cc_channel ctx) (u32 (cc_window_size ctx)) data in
      sret (default data_length r)
  | _, _ => sret (- EINVAL)
  end.

(** ** Writing through the connection *)
Definition libp2p_yamux_get_next_id : Y Z :=
  do! s := sget y_session in
  do! am_server := sget y_am_server in
  let next_id :=
    if (negb (am_server =? 0) && (nextid s mod 2 =? 1)) || ((am_server =? 0) && (nextid s mod 2 =? 0))
    then u32 (nextid s + 1) else nextid s in
  do! _ := smod (set_session (set_nextid (u32 (next_id + 1)) s)) in
  sret next_id.

(** both branches of the last test write to the stream below *)
Definition libp2p_yamux_write (context : option StreamContext) (message : StreamMessage) : Y Z :=
  match context with
  | None | Some (Context_Multistream _) => sret 0
  | Some (Context_Raw fd) =>
    if (Z.land fd 255 =? 67) || (Z.land fd 255 =? 89) then sundef else sret 0
  | Some _ =>
    do! ctx := libp2p_yamux_get_context context in
    do! _ := as_yamux ctx in
    do! st := sget y_state in
    if negb (bool_decide (st = yamux_stream_est)) then
      do! data := slift (memrd (deref (sm_data message)) (sm_data_size message)) in lower_write data
    else
      do! outgoing := slift (libp2p_yamux_prepare_to_send message) in
      do! (f, data) := nonnull outgoing in
      do! flags := get_flags context in
      do! id :=
        match context with
        | Some (Context_Channel c) => do! cc := read_context c in sret (cc_channel cc)
        | _ => libp2p_yamux_get_next_id
        end in
      let f := mkFrame (version f) (frame_type f) flags id (frame_length f) in
      lower_write (frame_object (encode_frame f) ++ data)
  end.

(** the message of multistream: its length in front *)
Definition libp2p_net_multistream_prepare_to_send (incoming : StreamMessage) : res (option StreamMessage) :=
  match libp2p_stream_message_new with
  | None => Ret None
  | Some _ =>
    let! (varint_size, varint) := varint_encode (sm_data_size incoming) (fresh 12) 12 in
    let data_size := u64 (varint_size + sm_data_size incoming) in
    if malloc_ok data_size then
      let! front := memrd varint varint_size in
      let! data := memrd (deref (sm_data incoming)) (sm_data_size incoming) in
      Ret (Some (mkStreamMessage (Some (front ++ data)) data_size 0))
    else Ret None
  end.

(** [write] is that of the streams below *)
Definition libp2p_net_multistream_write_without_check (write : positive -> StreamMessage -> Y Z) (st : Stream)
    (incoming : StreamMessage) : Y Z :=
  if 0 <? sm_data_size incoming then
    do! out := slift (libp2p_net_multistream_prepare_to_send incoming) in
    do! out := nonnull out in
    do! parent := nonnull (parent_stream st) in
    do! num_bytes := write parent out in
    sret (if u64 num_bytes =? sm_data_size out then s32 (sm_data_size incoming) else num_bytes)
  else sret 0.

Definition multistream_status_initialized : Z := 0.
Definition multistream_status_syn : Z := 1.
Definition multistream_status_ack : Z := 2.

Definition libp2p_net_multistream_write (write : positive -> StreamMessage -> Y Z) (st : Stream) (status : Z)
    (incoming : StreamMessage) : Y Z :=
  if negb (status =? multistream_status_ack) then sret 0
  else libp2p_net_multistream_write_without_check write st incoming.

(** the [write] of a stream, by what its context is; [n] streams below one another
    at most *)
Fixpoint stream_write (n : nat) (s : positive) (message : StreamMessage) : Y Z :=
  match n with
  | O => fun _ => NoFuel
  | S n =>
    do! st := read_stream s in
    match stream_context st with
    | None => sundef
    | Some (Context_Raw _) =>
      do! data := slift (memrd (deref (sm_data message)) (sm_data_size message)) in send data
    | Some (Context_Multistream status) => libp2p_net_multistream_write (stream_write n) st status message
    | Some _ => libp2p_yamux_write (stream_context st) message
    end
  end.

(** enough for the streams there are *)
Definition stream_fuel (y : yamux) : nat := S (size (y_streams y)).
Definition write_to (s : positive) (message : StreamMessage) : Y Z :=
  fun y => stream_write (stream_fuel y) s message y.

(** ** Opening a channel *)
(** the stream of a channel; [channelNumber] is an [int] *)
Definition libp2p_yamux_channel_stream_new (incoming_stream : positive) (channelNumber : Z) : Y (option positive) :=
  do! incoming := read_stream incoming_stream in
  do! yamuxContext := libp2p_yamux_get_context (stream_context incoming) in
  if malloc_ok sizeof_Stream then
    if malloc_ok sizeof_YamuxChannelContext then
      do! out := new_stream (mkStream STREAM_TYPE_YAMUX None None (-1)) in
      do! (parent, yamux_ctx, child) :=
        match yamuxContext with
        | None =>
          do! p := nonnull (parent_stream incoming) in
          do! parent := read_stream p in
          do! _ := write_stream incoming_stream (set_parent (Some out) incoming) in
          sret (p, stream_context parent, Some incoming_stream)
        | Some _ => sret (incoming_stream, stream_context incoming, None)
        end in
      let buffer := threadsafe_buffer_context_new in
      do! c := new_context (mkChannel yamux_ctx out child (u32 channelNumber) 0 yamux_stream_inited 0 buffer 0) in
      do! _ := write_stream out (mkStream STREAM_TYPE_YAMUX (Some parent) (Some (Context_Channel c)) channelNumber) in
      sret (Some out)
    else sundef
  else sret None.

(** the index of the first dead slot; [n] slots left *)
Fixpoint dead_slot (n : nat) (i : Z) (slots : list yamux_session_stream) : res (option Z) :=
  match n with
  | O => Ret None
  | S n =>
    match slots !! Z.to_nat i with
    | None => UB
    | Some slot => if ss_alive slot =? 0 then Ret (Some i) else dead_slot n (i + 1) slots
    end
  end.

Definition write_slot (i : Z) (slot : yamux_session_stream) (cap : Z) : Y unit :=
  do! s := sget y_session in
  match streams s !! Z.to_nat i with
  | None => sundef
  | Some _ => smod (set_session (set_slots (<[Z.to_nat i := slot]> (streams s)) cap s))
  end.

Definition object_blank : yamux_stream := mkYStream false false false None yamux_stream_inited 0 0.

(** the slot and the object for a new stream: a dead one with the object it had,
    or the next one with a new object *)
Definition choose_slot : Y (option positive) :=
  do! s := sget y_session in
  do! dead :=
    if num_streams s =? cap_streams s then sret None
    else slift (dead_slot (Z.to_nat (cap_streams s)) 0 (streams s)) in
  match dead with
  | Some i =>
    do! slot := nonnull (streams s !! Z.to_nat i) in
    match ss_stream slot with
    | Ptr o =>
      do! _ := write_slot i (mkSlot (Ptr o) 1) (cap_streams s) in sret (Some o)
    | _ => sundef
    end
  | None =>
    if cap_streams s =? accept_backlog s then sret None
    else
      do! slot := nonnull (streams s !! Z.to_nat (cap_streams s)) in
      if negb (ss_alive slot =? 0) then sret None
      else if malloc_ok sizeof_yamux_stream then
        do! o := new_object object_blank in
        do! _ := write_slot (cap_streams s) (mkSlot (Ptr o) 1) (u64 (cap_streams s + 1)) in
        sret (Some o)
      else sundef
  end.

(** the stream of the new channel *)
Definition yamux_channel_new (context : option unit) (id : Z) : Y (option positive) :=
  match context with
  | None => sret None
  | Some _ =>
    do! id :=
      if id =? 0 then
        do! s := sget y_session in
        do! _ := smod (set_session (set_nextid (u32 (nextid s + 2)) s)) in sret (nextid s)
      else sret id in
    do! slot := choose_slot in
    match slot with
    | None => sret None
    | Some o =>
      do! s := sget y_stream in
      do! channelStream := libp2p_yamux_channel_stream_new s (s32 id) in
      do! _ := write_object o (mkYStream false false false channelStream yamux_stream_inited id YAMUX_DEFAULT_WINDOW) in
      do! cs := nonnull channelStream in
      do! st := read_stream cs in
      match stream_context st with
      | Some (Context_Channel c) =>
        do! cc := read_context c in
        do! _ := write_context c (set_cc_state yamux_stream_inited (set_cc_child None (set_cc_channel id cc))) in
        sret (Some cs)
      | _ => sundef
      end
    end
  end.

(** ** Upgrades *)
(** the object whose stream has the channel number; [n] slots left *)
Fixpoint get_session_stream (n : nat) (i : Z) (channel : Z) : Y (option positive) :=
  match n with
  | O => sret None
  | S n =>
    do! s := sget y_session in
    do! slot := nonnull (streams s !! Z.to_nat i) in
    match ss_stream slot with
    | Null => get_session_stream n (i + 1) channel
    | Wild => sundef
    | Ptr o =>
      do! ob := read_object o in
      match ys_stream ob with
      | None => get_session_stream n (i + 1) channel
      | Some st =>
        do! st := read_stream st in
        if stream_channel st =? channel then sret (Some o) else get_session_stream n (i + 1) channel
      end
    end
  end.
Definition yamux_get_session_stream (channel : Z) : Y (option positive) :=
  do! s := sget y_session in get_session_stream (Z.to_nat (cap_streams s)) 0 channel.

(** [negotiate] of a multistream returns NULL, which adds no stream; the other
    streams do not set it *)
Definition libp2p_yamux_stream_add (stream : option positive) : Y Z :=
  match stream with
  | None => sret 0
  | Some stream =>
    do! channel_stream := libp2p_yamux_channel_stream_new stream 0 in
    match channel_stream with
    | None => sret 0
    | Some cs =>
      do! st := read_stream cs in
      match stream_context st with
      | Some (Context_Channel c) =>
        do! v := sget y_channels in
        do! (item, v) := slift (libp2p_utils_vector_add v (Some cs)) in
        do! _ := smod (set_channels v) in
        do! cc := read_context c in
        do! _ := write_context c (set_cc_channel (u32 item) cc) in
        do! am_server := sget y_am_server in
        if negb (am_server =? 0) && negb (u32 item mod 2 =? 0) then
          do! st := read_stream stream in
          match stream_context st with
          | Some (Context_Multistream _) => sret 1
          | _ => sundef
          end
        else sret 1
      | _ => sundef
      end
    end
  end.

Definition libp2p_yamux_handle_upgrade (yamux_stream new_stream : positive) : Y Z :=
  do! st := read_stream yamux_stream in
  do! _ := libp2p_yamux_get_context (stream_context st) in
  do! channel := libp2p_yamux_get_channel_context (stream_context st) in
  match channel with
  | Some c =>
    do! cc := read_context c in
    do! _ := write_context c (set_cc_child (Some new_stream) cc) in
    do! _ := as_yamux (cc_yamux_context cc) in
    do! o := yamux_get_session_stream (s32 (cc_channel cc)) in
    match o with
    | None => sret 0
    | Some o =>
      do! ob := read_object o in
      do! _ := write_object o (set_ys_stream (Some new_stream) ob) in sret 1
    end
  | None => libp2p_yamux_stream_add (Some new_stream)
  end.

(** the [handle_upgrade] of a stream; a raw connection changes its session, which
    is not part of the connection *)
Fixpoint handle_upgrade (n : nat) (parent new : positive) : Y Z :=
  match n with
  | O => fun _ => NoFuel
  | S n =>
    do! st := read_stream parent in
    match stream_context st with
    | None => sundef
    | Some (Context_Raw _) => do! _ := log_event (Upgraded parent new) in sret 1
    | Some (Context_Multistream _) =>
      if negb (stream_type st =? STREAM_TYPE_MULTISTREAM) then sret 0
      else
        do! nst := read_stream new in
        if bool_decide (parent_stream nst = Some parent) then
          do! _ := write_stream new (set_parent (parent_stream st) nst) in
          do! p := nonnull (parent_stream st) in
          do! _ := handle_upgrade n p new in sret 1
        else sret 1
    | Some _ => libp2p_yamux_handle_upgrade parent new
    end
  end.

(** [close]: a channel's does nothing *)
Definition stream_close (s : positive) : Y Z :=
  do! st := read_stream s in
  match stream_context st with
  | Some (Context_Channel _) => sret 1
  | _ => do! _ := log_event (Closed s) in sret 1
  end.

(** ** Multistream on a channel *)
Definition libp2p_net_multistream_negotiate (s : positive) (theyRequested : bool) : Y Z :=
  do! st := read_stream s in
  do! r := libp2p_net_multistream_write_without_check write_to st (stream_message multistream_id) in
  if r =? 0 then sret 0
  else
    let status := if theyRequested then multistream_status_ack else multistream_status_syn in
    do! _ := write_stream s (set_context (Some (Context_Multistream status)) st) in sret 1.

(** the stream is not cleared: its channel number is what the memory held.  The
    wait for the answer is left out: it changes nothing here *)
Definition libp2p_net_multistream_stream_new (parent : positive) (theyRequested : bool) : Y (option positive) :=
  if malloc_ok sizeof_Stream then
    do! _ := read_stream parent in
    do! out := new_stream (mkStream STREAM_TYPE_MULTISTREAM (Some parent) None (s32 (uninit_uint 32))) in
    if malloc_ok sizeof_MultistreamContext then
      do! st := read_stream out in
      do! _ := write_stream out (set_context (Some (Context_Multistream multistream_status_initialized)) st) in
      do! fuel := sget stream_fuel in
      do! _ := handle_upgrade fuel parent out in
      do! r := libp2p_net_multistream_negotiate out theyRequested in
      if r =? 0 then do! _ := stream_close parent in sret None else sret (Some out)
    else do! _ := stream_close parent in sret None
  else sret None.
End stream.
