(* ===== verification/YamuxSession.v ===== *)
(** * Yamux sessions (libp2p/yamux/session.c and the reading half of yamux.c)

    A session from its creation to its release, what a frame from the network
    does to it, and the reads from the connection and from a channel. *)
From Stdlib Require Import String.
From S2P Require Import Prelude Digits CString CState Varint Vector Protocol ThreadsafeBuffer YamuxFrame YamuxState YamuxStream.

(** [strstr] of the protocol's name in the text at [p] *)
Definition names_yamux (p : bytes) : res bool :=
  let! s := read_str p in Ret (bool_decide (is_Some (c_strstr s (txt "/yamux/1.0.0")))).

Section session.
Context {M : Malloc} {N : Network}.
(** the node's handlers, which work on the connection *)
Variable protocol_handlers : option (vector (Libp2pProtocolHandler yamux positive)).

(** ** Making and closing a session *)
Definition yamux_session_new (parent : option positive) (server : bool) : res (option yamux_session) :=
  match parent with
  | None => Ret None
  | Some p =>
    let ab := default_accept_backlog in
    if malloc_ok (sizeof_yamux_session_stream * ab) then
      let slots := replicate (Z.to_nat ab) (mkSlot Wild 0) in
      if malloc_ok sizeof_yamux_session then
        Ret (Some (mkSession ab 0 0 slots false false false false false (0, 0) p (if server then 2 else 1) 0))
      else Ret None
    else UB
  end.

(** the connection over the stream [p] below, whose object is [below]; NULL when the
    protocol id cannot be sent (what the release of the connection then writes is left
    out) *)
Definition libp2p_yamux_stream_new (below : Stream) (am_server : Z) : res (option yamux) :=
  if malloc_ok sizeof_Stream then
    let p := 1%positive in let out := 2%positive in
    if malloc_ok sizeof_YamuxContext then
      let! channels := libp2p_utils_vector_new 1 in
      let! session := yamux_session_new (Some out) (negb (am_server =? 0)) in
      match session with
      | None => UB
      | Some s =>
        let s := mkSession (accept_backlog s) (num_streams s) (cap_streams s) (streams s) (ping_fn s)
                   (pong_fn s) (go_away_fn s) true (free_fn s) (since_ping s) (session_parent s) (nextid s) (closed s) in
        let y := mkYamux out yamux_stream_inited am_server s channels None (-1)
                   (<[out := mkStream STREAM_TYPE_YAMUX (Some p) (Some Context_Yamux) (-1)]> {[p := below]})
                   ∅ ∅ 3 [] in
        let! (_, y) := handle_upgrade 2 p out y in
        let! (r, y) := write_to p (stream_message yamux_id) y in
        Ret (if r =? 0 then None else Some y)
      end
    else UB
  else Ret None.

(** the frame is not converted and goes through the yamux stream itself *)
Definition yamux_session_close (session : option unit) (err : Z) : Y Z :=
  match session with
  | None => sret (- EINVAL)
  | Some _ =>
    do! s := sget y_session in
    if negb (closed s =? 0) then sret 0
    else
      let f := mkFrame YAMUX_VERSION yamux_frame_go_away 0 YAMUX_STREAMID_SESSION (u32 err) in
      do! _ := smod (set_session (set_session_closed 1 s)) in
      do! r := write_to (session_parent s) (stream_message (frame_object f)) in
      sret (if r =? 0 then 0 else sizeof_yamux_frame)
  end.

(** the frame is not converted and goes to the stream below *)
Definition yamux_session_ping (session : option unit) (value : Z) (pong : bool) : Y Z :=
  do! s := sget y_session in
  match session with
  | None => sret (- EINVAL)
  | Some _ =>
    if negb (closed s =? 0) then sret (- EINVAL)
    else
      let f := mkFrame YAMUX_VERSION yamux_frame_ping (if pong then yamux_frame_ack else yamux_frame_syn)
                 YAMUX_STREAMID_SESSION value in
      do! trace := sget y_trace in
      match net_clock trace with
      | None => sret (- EACCES)
      | Some t =>
        do! _ := smod (set_session (set_since t s)) in
        do! st := read_stream (session_parent s) in
        do! p := nonnull (parent_stream st) in
        do! r := write_to p (stream_message (frame_object f)) in
        sret (if r =? 0 then 0 else sizeof_yamux_frame)
      end
  end.

(** ** Releasing streams *)
(** the first live slot with the id; [n] slots left *)
Fixpoint live_slot (n : nat) (i : Z) (id : Z) : Y (option Z) :=
  match n with
  | O => sret None
  | S n =>
    do! s := sget y_session in
    do! slot := nonnull (streams s !! Z.to_nat i) in
    if ss_alive slot =? 0 then live_slot n (i + 1) id
    else
      match ss_stream slot with
      | Ptr o => do! ob := read_object o in if ys_id ob =? id then sret (Some i) else live_slot n (i + 1) id
      | _ => sundef
      end
  end.

Definition yamux_stream_free (stream : option positive) : Y unit :=
  match stream with
  | None => sret tt
  | Some o =>
    do! ob := read_object o in
    do! _ := (if ys_free_fn ob then log_event (FreeFn o) else sret tt) in
    do! ob := read_object o in
    do! s := sget y_session in
    do! i := live_slot (Z.to_nat (cap_streams s)) 0 (ys_id ob) in
    do! _ :=
      match i with
      | None => sret tt
      | Some i =>
        do! slot := nonnull (streams s !! Z.to_nat i) in
        let cap := if i =? u64 (cap_streams s - 1) then u64 (cap_streams s - 1) else cap_streams s in
        do! _ := write_slot i (mkSlot (ss_stream slot) 0) cap in
        do! s := sget y_session in smod (set_session (set_num (u64 (num_streams s - 1)) s))
      end in
    smod (fun y => set_objects (delete o (y_objects y)) y)
  end.

(** the loop of [yamux_session_free] reads the number of slots in every turn *)
Fixpoint session_free_loop (n : nat) (i : Z) : Y unit :=
  match n with
  | O => fun _ => NoFuel
  | S n =>
    do! s := sget y_session in
    if i <? cap_streams s then
      do! slot := nonnull (streams s !! Z.to_nat i) in
      do! _ :=
        (if ss_alive slot =? 0 then sret tt
         else match ss_stream slot with
              | Ptr o => yamux_stream_free (Some o)
              | Null => sret tt
              | Wild => sundef
              end) in
      session_free_loop n (i + 1)
    else sret tt
  end.

Definition yamux_session_free (session : option unit) : Y unit :=
  match session with
  | None => sret tt
  | Some _ =>
    do! s := sget y_session in
    do! _ := (if closed s =? 0 then yamux_session_close session 0 else sret 0) in
    do! _ := (if free_fn s then log_event SessionFreeFn else sret tt) in
    do! cap := sget (cap_streams ∘ y_session) in
    session_free_loop (S (Z.to_nat cap)) 0
  end.

(** ** Data for a stream *)
(** the channel a stream is on: up the parents to the first yamux stream *)
Fixpoint yamux_parent (n : nat) (s : option positive) : Y (option positive) :=
  match n with
  | O => fun _ => NoFuel
  | S n =>
    match s with
    | None => sret None
    | Some p =>
      do! st := read_stream p in
      if stream_type st =? STREAM_TYPE_YAMUX then sret s else yamux_parent n (parent_stream st)
    end
  end.

(** the thread is only started *)
Definition libp2p_yamux_notify_child_stream_has_data (c : positive) : Y Z :=
  do! cc := read_context c in
  if cc_read_running cc =? 0 then do! _ := log_event (Spawned c) in sret 1 else sret 0.

(** no child yet: the whole buffer is offered to the protocols *)
Definition offer_to_protocols (o c : positive) : Y unit :=
  do! cc := read_context c in
  do! buffer := nonnull (cc_buffer cc) in
  let buffer_size := s32 (tb_buffer_size buffer) in
  do! (n, data) := slift (threadsafe_buffer_peek (Some buffer) (fresh buffer_size) (u64 buffer_size)) in
  let message := mkStreamMessage (Some data) (u64 (s32 n)) 0 in
  do! _ := as_yamux (cc_yamux_context cc) in
  do! valid := slift (libp2p_protocol_is_valid_protocol (Some message) protocol_handlers) in
  if valid =? 0 then sret tt
  else
    do! (n, data, rest) := slift (threadsafe_buffer_read (Some buffer) data (u64 (s32 n))) in
    do! _ := write_context c (set_cc_buffer rest cc) in
    do! ob := read_object o in
    do! s := nonnull (ys_stream ob) in
    do! _ := (fun y => libp2p_protocol_marshal (fun s b => write_to s (stream_message b)) (Some (mkStreamMessage (Some data) (u64 (s32 n)) 0)) s
                         protocol_handlers y) in
    sret tt.

Definition channel_deliver (o : positive) (incoming : bytes) (incoming_size : Z) : Y Z :=
  do! ob := read_object o in
  do! fuel := sget stream_fuel in
  do! channel_stream := yamux_parent fuel (ys_stream ob) in
  do! p := nonnull channel_stream in
  do! st := read_stream p in
  do! channel := libp2p_yamux_get_channel_context (stream_context st) in
  match channel with
  | None => sret (- EPROTO)
  | Some c =>
    do! cc := read_context c in
    do! (_, buffer) := slift (threadsafe_buffer_write (cc_buffer cc) incoming incoming_size) in
    do! _ := write_context c (set_cc_buffer buffer cc) in
    do! _ :=
      match cc_child_stream cc with
      | None => offer_to_protocols o c
      | Some _ => do! _ := libp2p_yamux_notify_child_stream_has_data c in sret tt
      end in
    sret incoming_size
  end.

Definition yamux_stream_process (o : positive) (f : yamux_frame) (incoming : bytes) (incoming_size : Z) : Y Z :=
  if (frame_type f =? yamux_frame_window_update) || (frame_type f =? yamux_frame_data) then
    do! _ :=
      (if frame_type f =? yamux_frame_window_update then
         do! ob := read_object o in
         write_object o (set_ys_window (Z.land (u64 (ys_window_size ob + s32 (frame_length f))) (2 ^ 32 - 1)) ob)
       else sret tt) in
    if negb (incoming_size =? frame_length f) && (frame_type f =? yamux_frame_data) then sret (-1)
    else if incoming_size =? 0 then sret 0
    else channel_deliver o incoming incoming_size
  else sret (- EPROTO).

(** ** A frame from the network *)
(** NULL where it finds one, and up the parents where it does not *)
Fixpoint get_parent_channel_context (n : nat) (s : option positive) : Y (option positive) :=
  match n with
  | O => fun _ => NoFuel
  | S n =>
    match s with
    | None => sret None
    | Some p =>
      do! st := read_stream p in
      do! c := libp2p_yamux_get_channel_context (stream_context st) in
      match c with
      | None => get_parent_channel_context n (parent_stream st)
      | Some _ => sret None
      end
    end
  end.
Definition libp2p_yamux_get_parent_channel_context (s : option positive) : Y (option positive) :=
  do! fuel := sget stream_fuel in get_parent_channel_context fuel s.

(** the slot of the stream the frame is for; [n] slots left *)
Fixpoint find_stream (n : nat) (i : Z) (id : Z) : Y (option positive) :=
  match n with
  | O => sret None
  | S n =>
    do! s := sget y_session in
    do! slot := nonnull (streams s !! Z.to_nat i) in
    if ss_alive slot =? 0 then find_stream n (i + 1) id
    else
      match ss_stream slot with
      | Ptr o =>
        do! ob := read_object o in
        if bool_decide (ys_state ob = yamux_stream_closed) then find_stream n (i + 1) id
        else if ys_id ob =? id then sret (Some o) else find_stream n (i + 1) id
      | _ => sundef
      end
  end.

Definition has_flag (f : yamux_frame) (flag : Z) : bool := negb (Z.land (flags f) flag =? 0).

(** session level: ping and go-away *)
Definition decode_session (f : yamux_frame) : Y Z :=
  do! s := sget y_session in
  if frame_type f =? yamux_frame_ping then
    if has_flag f yamux_frame_syn then
      do! _ := yamux_session_ping (Some tt) (frame_length f) true in
      do! _ := (if ping_fn s then log_event (PingFn (frame_length f)) else sret tt) in sret 0
    else if has_flag f yamux_frame_ack && pong_fn s then
      let (last_sec, last_nsec) := since_ping s in
      do! trace := sget y_trace in
      match net_clock trace with
      | None => sret (- EACCES)
      | Some (now_sec, now_nsec) =>
        let (sec, nsec) :=
          if now_nsec <? last_nsec then (now_sec - last_sec - 1, last_nsec - now_nsec)
          else (now_sec - last_sec, now_nsec - last_nsec) in
        do! _ := log_event (PongFn (frame_length f) sec nsec) in sret 0
      end
    else sret (- EPROTO)
  else if frame_type f =? yamux_frame_go_away then
    do! _ := smod (set_session (set_session_closed 1 s)) in
    do! _ := (if go_away_fn s then log_event (GoAwayFn (frame_length f)) else sret tt) in sret 0
  else sret (- EPROTO).

(** the flags of a frame for a stream that is there: [None] to go on *)
Definition decode_flags (o : positive) (f : yamux_frame) : Y (option Z) :=
  do! s := read_object o in
  if has_flag f yamux_frame_rst then
    do! _ := write_object o (set_ys_state yamux_stream_closed s) in
    do! _ := (if ys_rst_fn s then log_event (RstFn o) else sret tt) in sret None
  else if has_flag f yamux_frame_fin then
    do! _ :=
      (if bool_decide (ys_state s = yamux_stream_closing) then sret 0
       else
         do! parent := libp2p_yamux_get_parent_channel_context (ys_stream s) in
         yamux_stream_close (Context_Channel <$> parent)) in
    do! s := read_object o in
    do! _ := write_object o (set_ys_state yamux_stream_closed s) in
    do! _ := (if ys_fin_fn s then log_event (FinFn o) else sret tt) in sret None
  else if has_flag f yamux_frame_ack then
    if negb (bool_decide (ys_state s = yamux_stream_syn_sent)) then sret (Some (- EPROTO))
    else do! _ := write_object o (set_ys_state yamux_stream_est s) in sret None
  else if negb (flags f =? 0) then sret (Some (- EPROTO))
  else sret None.

(** a stream the remote opens: the object [ss.stream] is made for the processing of
    the frame and not kept, since [ss] is a copy of the slot *)
Definition decode_new (f : yamux_frame) (payload : bytes) (payload_size : Z) : Y Z :=
  do! cs := yamux_channel_new (Some tt) (streamid f) in
  match cs with
  | None => sret (- EPROTO)
  | Some cs =>
    do! st := read_stream cs in
    do! c := match stream_context st with Some (Context_Channel c) => sret c | _ => sundef end in
    do! s := sget y_session in
    do! _ := (if new_stream_fn s then log_event NewStreamFn else sret tt) in
    do! _ := nonnull (streams s !! Z.to_nat (streamid f)) in
    if malloc_ok sizeof_yamux_stream then
      do! o := new_object (mkYStream false false false None yamux_stream_syn_recv (streamid f) 0) in
      do! _ := yamux_stream_process o f payload payload_size in
      do! cc := read_context c in
      do! _ := write_context c (set_cc_state yamux_stream_syn_recv cc) in
      do! _ :=
        (if frame_type f =? yamux_frame_window_update then
           do! ob := read_object o in yamux_stream_window_update (Some c) (s32 (ys_window_size ob))
         else sret 0) in
      do! _ := libp2p_net_multistream_stream_new cs false in
      sret 0
    else sundef
  end.

(** the result, and what becomes of [*return_message] *)
Definition yamux_decode (context : option StreamContext) (incoming : bytes) (incoming_size : Z)
  : Y (Z * option (option StreamMessage)) :=
  match context with
  | None => sret (0, None)
  | Some _ =>
    do! ctx := libp2p_yamux_get_context context in
    do! _ := as_yamux ctx in
    if incoming_size <? sizeof_yamux_frame then sret (0, None)
    else
      do! p := slift (memrd incoming sizeof_yamux_frame) in
      do! f := slift (frame_at p) in
      let f := decode_frame f in
      do! payload := slift (padd incoming sizeof_yamux_frame) in
      let payload_size := incoming_size - sizeof_yamux_frame in
      if negb (version f =? YAMUX_VERSION) then sret (0, None)
      else if streamid f =? 0 then do! r := decode_session f in sret (r, None)
      else
        do! s := sget y_session in
        do! found := find_stream (Z.to_nat (cap_streams s)) 0 (streamid f) in
        match found with
        | Some o =>
          do! r := decode_flags o f in
          match r with
          | Some e => sret (e, None)
          | None =>
            do! re := yamux_stream_process o f payload payload_size in
            sret (if re <? 0 then s32 re else s32 (u64 (re + incoming_size)), None)
          end
        | None =>
          if has_flag f yamux_frame_syn then
            do! (_, message) := slift (yamux_pull_message_from_frame incoming incoming_size) in
            do! am_server := sget y_am_server in
            if ((streamid f mod 2 =? 0) && (am_server =? 0)) || ((streamid f mod 2 =? 1) && negb (am_server =? 0))
            then do! r := decode_new f payload payload_size in sret (r, message)
            else sret (0, message)
          else sret (- EPROTO, None)
        end
  end.
(** ** Reading *)
(** [network]: the [read] and [read_raw] of the stream below *)
Definition lower_read : Y (Z * option bytes) := fun y =>
  let (r, data) := net_read (y_trace y) in
  Ret ((r, data), set_trace (y_trace y ++ [Received (deref data)]) y).
Definition lower_read_raw (n : Z) : Y (Z * bytes) := fun y =>
  let (r, data) := net_read_raw (y_trace y) n in
  Ret ((r, data), set_trace (y_trace y ++ [Received data]) y).

(** the result and the message; [None]: the pointer is left alone *)
Definition libp2p_yamux_channel_read (context : option StreamContext) : Y (Z * option (option StreamMessage)) :=
  match context with
  | None => sret (0, None)
  | Some _ =>
    do! channel := libp2p_yamux_get_channel_context context in
    match channel with
    | None => sret (0, None)
    | Some c =>
      match libp2p_stream_message_new with
      | None => sret (0, Some None)
      | Some _ =>
        do! cc := read_context c in
        do! buffer := nonnull (cc_buffer cc) in
        let size := tb_buffer_size buffer in
        if size =? 0 then sret (0, Some None)
        else if malloc_ok size then
          do! (n, data, rest) := slift (threadsafe_buffer_read (Some buffer) (fresh size) size) in
          do! _ := write_context c (set_cc_buffer rest cc) in
          sret (s32 n, Some (Some (mkStreamMessage (Some data) n 0)))
        else sret (0, Some None)
      end
    end
  end.

(** the message with the bytes that were missing, when there are any *)
Definition read_missing (incoming : StreamMessage) : Y (option StreamMessage) :=
  do! moreToRead := slift (yamux_more_to_read (Some incoming)) in
  if 0 <? moreToRead then
    do! (r, data) := lower_read_raw moreToRead in
    if r =? moreToRead then
      if malloc_ok (u64 (sm_data_size incoming + moreToRead)) then
        do! front := slift (memrd (deref (sm_data incoming)) (sm_data_size incoming)) in
        do! back := slift (memrd data moreToRead) in
        sret (Some (mkStreamMessage (Some (front ++ back)) (u64 (sm_data_size incoming + moreToRead))
                      (sm_error_number incoming)))
      else sundef
    else sret None
  else sret (Some incoming).

(** [message] is what [*message] holds; the result and [*message] *)
Definition libp2p_yamux_read (context : option StreamContext) (message : option StreamMessage)
  : Y (Z * option StreamMessage) :=
  match context with
  | None => sret (0, message)
  | Some _ =>
    do! channel := libp2p_yamux_get_channel_context context in
    match channel with
    | Some _ => do! (r, m) := libp2p_yamux_channel_read context in sret (r, default message m)
    | None =>
      do! ctx := libp2p_yamux_get_context context in
      match ctx with
      | None => sret (0, message)
      | Some _ =>
        do! _ := as_yamux ctx in
        do! st := sget y_state in
        do! parent := libp2p_yamux_get_parent_stream context in
        do! _ := nonnull parent in
        do! (r, data) := lower_read in
        if negb (bool_decide (st = yamux_stream_est)) then
          let message := from_option (Some ∘ stream_message) message data in
          if 0 <? r then
            do! m := nonnull message in
            do! found := slift (names_yamux (deref (sm_data m))) in
            if found : bool then do! _ := smod (set_state yamux_stream_est) in sret (0, None)
            else sret (r, message)
          else sret (r, message)
        else if r =? 0 then sret (0, message)
        else
          do! incoming := nonnull data in
          do! incoming := read_missing (stream_message incoming) in
          match incoming with
          | None => sret (0, message)
          | Some incoming =>
            do! (r, m) := yamux_decode ctx (deref (sm_data incoming)) (sm_data_size incoming) in
            let message := default message m in
            if 0 <=? r then
              match message with
              | Some m => if sm_data_size m =? 0 then sret (0, None) else sret (1, message)
              | None => sret (1, message)
              end
            else sret (0, message)
          end
      end
    end
  end.

(** the wait for more bytes is left out: it changes nothing here *)
Definition libp2p_yamux_channel_read_raw (context : option StreamContext) (buffer : bytes) (buffer_size : Z)
  : Y (Z * bytes) :=
  match context with
  | None => sret (0, buffer)
  | Some _ =>
    do! channel := libp2p_yamux_get_channel_context context in
    match channel with
    | None => sret (0, buffer)
    | Some c =>
      do! cc := read_context c in
      do! b := nonnull (cc_buffer cc) in
      do! (n, buffer, rest) := slift (threadsafe_buffer_read (Some b) buffer (u64 buffer_size)) in
      do! _ := write_context c (set_cc_buffer rest cc) in
      sret (s32 n, buffer)
    end
  end.

(** the result and the caller's buffer *)
Definition libp2p_yamux_read_raw (context : option StreamContext) (buffer : bytes) (buffer_size : Z)
  : Y (Z * bytes) :=
  match context with
  | None => sret (-1, buffer)
  | Some _ =>
    do! channel := libp2p_yamux_get_channel_context context in
    match channel with
    | Some _ => libp2p_yamux_channel_read_raw context buffer buffer_size
    | None =>
      do! ctx := libp2p_yamux_get_context context in
      do! _ := as_yamux ctx in
      do! pos := sget y_buffered_pos in
      do! m := sget y_buffered in
      do! ok :=
        (if (pos =? -1) || bool_decide (m = None) then
           do! (r, m) := libp2p_yamux_read context m in
           if r =? 0 then do! _ := smod (set_buffered m pos) in sret false
           else do! _ := smod (set_buffered m 0) in sret true
         else sret true) in
      if negb ok then sret (-1, buffer)
      else
        do! m := sget y_buffered in
        do! m := nonnull m in
        do! pos := sget y_buffered_pos in
        let left := u64 (sm_data_size m - pos) in
        let max_to_read := s32 (if left <? u64 buffer_size then left else buffer_size) in
        do! src := slift (padd (deref (sm_data m)) pos) in
        do! src := slift (memrd src max_to_read) in
        do! buffer := slift (memwr buffer src) in
        let pos := pos + max_to_read in
        do! _ :=
          (if pos =? sm_data_size m then smod (set_buffered None (-1))
           else smod (set_buffered (Some m) max_to_read)) in
        sret (max_to_read, buffer)
    end
  end.
End session.
