(* ===== verification/YamuxWrite.v ===== *)
(** * Writing to a yamux channel: theorems

    What the functions of [YamuxStream] put on the wire. *)
From S2P Require Import Prelude CState Varint Vector Protocol ThreadsafeBuffer YamuxFrame YamuxState YamuxStream.

Section write.
Context {M : Malloc} {N : Network}.

(** the yamux stream of the connection, on a stream below *)
Definition connected (y : yamux) : Prop :=
  exists p ch, y_streams y !! y_stream y = Some (mkStream STREAM_TYPE_YAMUX (Some p) (Some Context_Yamux) ch).

(** a channel of this connection *)
Definition channel_at (y : yamux) (c : positive) (cc : YamuxChannelContext) : Prop :=
  y_contexts y !! c = Some cc /\ cc_yamux_context cc = Some Context_Yamux.

Definition put_channel (c : positive) (cc : YamuxChannelContext) (y : yamux) : yamux :=
  set_contexts (<[c := cc]> (y_contexts y)) y.
Definition put_event (e : event) (y : yamux) : yamux := set_trace (y_trace y ++ [e]) y.

Lemma read_context_ok y c cc : y_contexts y !! c = Some cc -> read_context c y = Ret (cc, y).
Proof. intros H. unfold read_context. by rewrite H. Qed.
Lemma write_context_ok y c cc cc' : y_contexts y !! c = Some cc ->
  write_context c cc' y = Ret (tt, put_channel c cc' y).
Proof. intros H. unfold write_context, sbind, read_context. by rewrite H. Qed.
Lemma read_stream_ok y s st : y_streams y !! s = Some st -> read_stream s y = Ret (st, y).
Proof. intros H. unfold read_stream. by rewrite H. Qed.

Lemma lower_write_ok y data : connected y ->
  lower_write data y = Ret (net_write (y_trace y) data, put_event (Sent data) y).
Proof.
  intros (p & ch & Hs). unfold lower_write, sbind, sget, read_stream. cbn [rbind]. rewrite Hs. reflexivity.
Qed.

Lemma get_flags_ok y c (cc : YamuxChannelContext) : y_contexts y !! c = Some cc ->
  get_flags (Some (Context_Channel c)) y
  = Ret (fst (flag_of (cc_state cc)), put_channel c (set_cc_state (snd (flag_of (cc_state cc))) cc) y).
Proof.
  intros H. unfold get_flags. rewrite (sbind_ret _ _ _ _ _ (read_context_ok _ _ _ H)).
  destruct (flag_of (cc_state cc)) as [flag st]. rewrite (sbind_ret _ _ _ _ _ (write_context_ok _ _ _ _ H)). done.
Qed.

Lemma channel_at_put y c cc' : cc_yamux_context cc' = Some Context_Yamux -> channel_at (put_channel c cc' y) c cc'.
Proof. intros H. split; [|done]. unfold put_channel. cbn [y_contexts set_contexts]. by rewrite lookup_insert_eq. Qed.

(** ** Segments *)
(** the data in pieces of [ws] bytes, the last one shorter *)
Fixpoint segments (n : nat) (ws : Z) (data : bytes) : list bytes :=
  match n, data with
  | S n, _ :: _ => ztake ws data :: segments n ws (zdrop ws data)
  | _, _ => []
  end.

Definition data_frame (flag id : Z) (data : bytes) : bytes :=
  frame_wire (mkFrame YAMUX_VERSION yamux_frame_data flag id (zlen data)) ++ data.
(** only the first frame can carry a flag *)
Definition data_frames (flag id : Z) (pieces : list bytes) : list event :=
  match pieces with
  | [] => []
  | d :: ds => Sent (data_frame flag id d) :: (Sent ∘ data_frame 0 id <$> ds)
  end.

Lemma zlen_ztake_min {A} n (l : list A) : 0 <= n -> zlen (ztake n l) = Z.min n (zlen l).
Proof.
  intros. destruct (decide (n <= zlen l)); [rewrite zlen_take by lia; lia|]. rewrite ztake_all by lia. lia.
Qed.

Lemma segments_spec ws : 0 < ws -> forall n data, (length data <= n)%nat ->
  concat (segments n ws data) = data /\ Forall (fun d => 0 < zlen d <= ws) (segments n ws data).
Proof.
  intros Hws. induction n as [|n IH]; intros [|b data] Hn; cbn [segments concat]; try done; [simpl in Hn; lia|].
  destruct (IH (zdrop ws (b :: data))) as [H1 H2].
  { unfold zdrop. rewrite length_drop. simpl in Hn |- *. lia. }
  rewrite H1, ztake_zdrop. split; [done|]. apply Forall_cons_2; [|done].
  rewrite zlen_ztake_min by lia. zlia.
Qed.

Lemma segments_fuel ws : 0 < ws -> forall n m data, (length data <= n)%nat -> (length data <= m)%nat ->
  segments n ws data = segments m ws data.
Proof.
  intros Hws. induction n as [|n IH]; intros [|m] [|b data] Hn Hm; try done; try (simpl in *; lia).
  cbn [segments]. f_equal. apply IH; unfold zdrop; rewrite length_drop; simpl in *; lia.
Qed.
Lemma segments_step ws data : 0 < ws -> data <> [] ->
  segments (length data) ws data = ztake ws data :: segments (length (zdrop ws data)) ws (zdrop ws data).
Proof.
  intros Hws Hd. destruct data as [|b data]; [done|]. cbn [segments length]. f_equal.
  apply segments_fuel; [done| |done]. unfold zdrop. rewrite length_drop. simpl. lia.
Qed.

Lemma data_frames_flag0 id ds : data_frames 0 id ds = Sent ∘ data_frame 0 id <$> ds.
Proof. by destruct ds. Qed.

Lemma flag_of_snd st : flag_of (snd (flag_of st)) = (0, snd (flag_of st)).
Proof. by destruct st. Qed.

(** the state behind the loop *)
Definition after_write (y : yamux) (c : positive) (cc : YamuxChannelContext) (pieces : list bytes) : yamux :=
  match pieces with
  | [] => y
  | _ =>
    set_trace (y_trace y ++ data_frames (fst (flag_of (cc_state cc))) (cc_channel cc) pieces)
      (put_channel c (set_cc_state (snd (flag_of (cc_state cc))) cc) y)
  end.

Lemma after_write_cons y c cc d ds :
  after_write (put_event (Sent (data_frame (fst (flag_of (cc_state cc))) (cc_channel cc) d))
                 (put_channel c (set_cc_state (snd (flag_of (cc_state cc))) cc) y))
    c (set_cc_state (snd (flag_of (cc_state cc))) cc) ds
  = after_write y c cc (d :: ds).
Proof.
  destruct ds as [|d' ds]; [done|]. unfold after_write. destruct cc as [a b e f g st h i j].
  cbn [set_cc_state cc_state cc_channel]. rewrite flag_of_snd. cbn [fst snd].
  unfold put_event, put_channel, set_trace, set_contexts.
  cbn [y_trace y_contexts y_stream y_state y_am_server y_session y_channels y_buffered y_buffered_pos y_streams y_objects y_next].
  rewrite insert_insert_eq, <- app_assoc. done.
Qed.

Context (Hnet : forall trace data, net_write trace data <> 0).

Lemma stream_write_loop_ok ws : 0 < ws < 2 ^ 32 -> forall n c data y cc,
  connected y -> channel_at y c cc -> zlen data < 2 ^ 32 -> (length data < n)%nat ->
  stream_write_loop n c (cc_channel cc) ws data y = Ret (None, after_write y c cc (segments (length data) ws data)).
Proof.
  intros Hws. induction n as [|n IH]; intros c data y cc Hy [Hc Hcy] Hd Hn; [lia|].
  cbn [stream_write_loop]. destruct data as [|b data0] eqn:Ed; [done|]. rewrite <- Ed in *.
  assert (0 < zlen data) as Hpos by (rewrite Ed; zlia).
  rewrite (proj2 (Z.eqb_neq _ _)) by lia.
  rewrite (u32_small (zlen data)) by lia. rewrite MIN_spec by lia.
  rewrite (sbind_ret _ _ _ _ _ (get_flags_ok _ _ _ Hc)).
  assert (zlen (ztake (Z.min (zlen data) ws) data) = Z.min (zlen data) ws) as Hlen by (apply zlen_take; lia).
  unfold slift at 1. cbn [sbind]. unfold sbind at 1. rewrite memrd_ok by lia. cbn [rbind].
  set (cc' := set_cc_state (snd (flag_of (cc_state cc))) cc).
  assert (channel_at (put_channel c cc' y) c cc') as Hc' by (apply channel_at_put; exact Hcy).
  rewrite (sbind_ret _ _ _ _ _ (read_context_ok _ _ _ (proj1 Hc'))).
  rewrite (proj2 Hc'). unfold as_yamux. unfold sbind at 1, sret at 1. cbn [rbind].
  rewrite (sbind_ret _ _ _ _ _ (lower_write_ok (put_channel c cc' y) _ Hy)).
  rewrite (proj2 (Z.eqb_neq _ 0)) by apply Hnet.
  unfold sbind, slift. rewrite padd_ok by lia. cbn [rbind].
  rewrite encode_frame_object.
  assert (ztake (Z.min (zlen data) ws) data = ztake ws data) as Ht.
  { destruct (decide (zlen data <= ws)); [rewrite Z.min_l, !ztake_all by lia; done|by rewrite Z.min_r by lia]. }
  assert (zdrop (Z.min (zlen data) ws) data = zdrop ws data) as Hz.
  { destruct (decide (zlen data <= ws)); [rewrite Z.min_l, !zdrop_ge by lia; done|by rewrite Z.min_r by lia]. }
  replace (frame_wire _ ++ _) with (data_frame (fst (flag_of (cc_state cc))) (cc_channel cc) (ztake ws data))
    by (unfold data_frame; rewrite <- Ht, Hlen; done).
  rewrite Hz. change (cc_channel cc) with (cc_channel cc') at 1.
  rewrite IH; [|exact Hy|exact Hc'|pose proof (zlen_drop_le ws data); lia|unfold zlen, zdrop in *; rewrite length_drop; lia].
  rewrite (segments_step ws data), <- after_write_cons by (try lia; by rewrite Ed). done.
Qed.

Lemma stream_write_ok y c cc data fuel : connected y -> channel_at y c cc ->
  0 < u32 (cc_window_size cc) -> 0 < zlen data < 2 ^ 32 -> (length data < fuel)%nat ->
  yamux_stream_write fuel (Some c) (zlen data) (Some data) y
  = Ret (zlen data, after_write y c cc (segments (length data) (u32 (cc_window_size cc)) data)).
Proof.
  intros Hy Hc Hws Hd Hf. unfold yamux_stream_write. rewrite (proj2 (Z.eqb_neq _ _)) by lia.
  rewrite (sbind_ret _ _ _ _ _ (read_context_ok _ _ _ (proj1 Hc))).
  unfold sbind, slift. rewrite memrd_all by done. cbn [rbind].
  rewrite stream_write_loop_ok; [done| |done|done|lia|done].
  split; [done|]. unfold u32. pose proof (Z.mod_pos_bound (cc_window_size cc) (2 ^ 32)). lia.
Qed.
End write.

(** a channel without a window sends empty frames for ever *)
Lemma stream_write_stuck {N : Network} (Hnet : forall trace data, net_write trace data <> 0) fuel :
  forall y c cc data id, connected y -> channel_at y c cc -> 0 < zlen data < 2 ^ 32 ->
  stream_write_loop fuel c id 0 data y = NoFuel.
Proof.
  induction fuel as [|n IH]; intros y c cc data id Hy [Hc Hcy] Hd; [done|].
  cbn [stream_write_loop]. rewrite (proj2 (Z.eqb_neq _ _)), (u32_small (zlen data)), MIN_spec by lia.
  rewrite Z.min_r by lia. rewrite (sbind_ret _ _ _ _ _ (get_flags_ok _ _ _ Hc)).
  set (cc' := set_cc_state (snd (flag_of (cc_state cc))) cc).
  assert (channel_at (put_channel c cc' y) c cc') as Hc' by (apply channel_at_put; exact Hcy).
  unfold slift at 1. unfold sbind at 1. rewrite memrd_ok by lia. cbn [rbind].
  rewrite (sbind_ret _ _ _ _ _ (read_context_ok _ _ _ (proj1 Hc'))).
  rewrite (proj2 Hc'). unfold as_yamux. unfold sbind at 1, sret at 1. cbn [rbind].
  rewrite (sbind_ret _ _ _ _ _ (lower_write_ok (put_channel c cc' y) _ Hy)).
  rewrite (proj2 (Z.eqb_neq _ 0)) by apply Hnet.
  unfold sbind, slift. rewrite padd_ok by lia. cbn [rbind]. rewrite zdrop_0.
  apply (IH _ _ cc'); [exact Hy|exact Hc'|done].
Qed.

(** Property C23.  On a channel with a window, over a network that takes every
    message, [yamux_stream_write] returns the number of bytes and has sent the data
    in order, in data frames with the id of the channel and at most a window of data
    each; the first one carries the SYN or ACK the state of the channel asks for and
    moves the state on, the others carry no flag.  With the window of 0 that every
    channel of the program gets, the function does not return. *)
Theorem stream_write_spec {N : Network} (y : yamux) (c : positive) (cc : YamuxChannelContext)
    (data : bytes) (fuel : nat) :
  (forall trace data, net_write trace data <> 0) ->
  connected y -> channel_at y c cc -> 0 < zlen data < 2 ^ 32 ->
  (cc_window_size cc = 0 -> yamux_stream_write fuel (Some c) (zlen data) (Some data) y = NoFuel) /\
  (0 < u32 (cc_window_size cc) -> (length data < fuel)%nat ->
   exists pieces y', concat pieces = data /\
     Forall (fun d => 0 < zlen d <= u32 (cc_window_size cc)) pieces /\
     yamux_stream_write fuel (Some c) (zlen data) (Some data) y = Ret (zlen data, y') /\
     y_trace y' = y_trace y ++ data_frames (fst (flag_of (cc_state cc))) (cc_channel cc) pieces /\
     cc_state <$> y_contexts y' !! c = Some (snd (flag_of (cc_state cc)))).
Proof.
  intros Hnet Hy Hc Hd. split.
  - intros Hw. unfold yamux_stream_write. rewrite (proj2 (Z.eqb_neq _ _)) by lia.
    rewrite (sbind_ret _ _ _ _ _ (read_context_ok _ _ _ (proj1 Hc))), Hw.
    unfold sbind, slift. rewrite memrd_all by done. cbn [rbind]. change (u32 0) with 0.
    by rewrite (stream_write_stuck Hnet fuel y c cc data (cc_channel cc) Hy Hc Hd).
  - intros Hw Hf. destruct (segments_spec (u32 (cc_window_size cc)) Hw (length data) data) as [H1 H2]; [lia|].
    eexists _, _. split; [exact H1|]. split; [exact H2|]. split; [by apply stream_write_ok|].
    destruct (segments _ _ data) as [|d ds] eqn:E; [cbn in H1; subst data; by destruct Hd|].
    split; [done|]. unfold after_write. cbn [set_trace y_contexts put_channel set_contexts].
    by rewrite lookup_insert_eq.
Qed.

(** ** A connection with one channel *)
Definition net_ok : Network :=
  {| net_write := fun _ data => zlen data; net_read := fun _ => (0, None);
     net_read_raw := fun _ _ => (0, []); net_clock := fun _ => Some (10, 500) |}.
Definition net_always : Network :=
  {| net_write := fun _ data => 1; net_read := fun _ => (0, None);
     net_read_raw := fun _ _ => (0, []); net_clock := fun _ => Some (10, 500) |}.

Definition empty_session : yamux_session :=
  mkSession 256 0 0 (replicate 256 (mkSlot Wild 0)) false false false true false (0, 0) 2 1 0.
Definition one_channel (window : Z) (st : yamux_stream_state) : yamux :=
  mkYamux 2 yamux_stream_est 0 empty_session (vector_of []) None (-1)
    {[ 1%positive := mkStream STREAM_TYPE_RAW None (Some (Context_Raw 5)) 0;
       2%positive := mkStream STREAM_TYPE_YAMUX (Some 1%positive) (Some Context_Yamux) (-1) ]}
    {[ 4%positive := mkChannel (Some Context_Yamux) 3 None 7 window st 0 (Some (mkBuffer 0 None)) 0 ]}
    ∅ 5 [].

Lemma stream_write_spec_witness :
  exists y', yamux_stream_write (N := net_always) 6 (Some 4%positive) 5 (Some [1; 2; 3; 4; 5])
    (one_channel 2 yamux_stream_inited) = Ret (5, y') /\ length (y_trace y') = 3%nat.
Proof.
  destruct (stream_write_spec (N := net_always) (one_channel 2 yamux_stream_inited) 4
    (mkChannel (Some Context_Yamux) 3 None 7 2 yamux_stream_inited 0 (Some (mkBuffer 0 None)) 0)
    [1; 2; 3; 4; 5] 6) as [_ H].
  - cbn. lia.
  - exists 1%positive, (-1). reflexivity.
  - split; reflexivity.
  - split; reflexivity.
  - destruct H as (pieces & y' & _ & _ & Hr & _); [reflexivity|cbn; lia|].
    exists y'. split; [exact Hr|]. revert Hr. vm_compute. intros Hr. injection Hr as <-. reflexivity.
Defined.
