(* ===== verification/YamuxInvariant.v ===== *)
(** * The invariant of a yamux session

    What holds of the session's array of streams in every state a connection can
    reach, and what follows for the frames it receives. *)
From S2P Require Import Prelude CState Varint Vector Protocol ThreadsafeBuffer YamuxFrame YamuxState YamuxStream YamuxSession.

(** ** The states a connection can reach *)
Section reachable.
Context {M : Malloc} {N : Network}.
Variable protocol_handlers : option (vector (Libp2pProtocolHandler yamux positive)).

Inductive yamux_op :=
| OpOpen (id : Z)
| OpDecode (context : option StreamContext) (incoming : bytes) (size : Z)
| OpRead (context : option StreamContext) (message : option StreamMessage)
| OpReadRaw (context : option StreamContext) (buffer : bytes) (size : Z)
| OpWrite (s : positive) (message : StreamMessage)
| OpStreamWrite (fuel : nat) (c : option positive) (size : Z) (data : option bytes)
| OpInit (c : option positive)
| OpClose (context : option StreamContext)
| OpReset (c : option positive)
| OpWindowUpdate (c : option positive) (delta : Z)
| OpPing (value : Z) (pong : bool)
| OpGoAway (err : Z)
| OpUpgrade (s new : positive)
| OpMultistream (parent : positive) (theyRequested : bool).

(** an operation without its result *)
Definition run_op (o : yamux_op) : Y unit :=
  match o with
  | OpOpen id => do! _ := yamux_channel_new (Some tt) id in sret tt
  | OpDecode p d n => do! _ := yamux_decode protocol_handlers p d n in sret tt
  | OpRead p m => do! _ := libp2p_yamux_read protocol_handlers p m in sret tt
  | OpReadRaw p b n => do! _ := libp2p_yamux_read_raw protocol_handlers p b n in sret tt
  | OpWrite s m => do! _ := write_to s m in sret tt
  | OpStreamWrite fuel c n d => do! _ := yamux_stream_write fuel c n d in sret tt
  | OpInit c => do! _ := yamux_stream_init c in sret tt
  | OpClose p => do! _ := yamux_stream_close p in sret tt
  | OpReset c => do! _ := yamux_stream_reset c in sret tt
  | OpWindowUpdate c d => do! _ := yamux_stream_window_update c d in sret tt
  | OpPing v b => do! _ := yamux_session_ping (Some tt) v b in sret tt
  | OpGoAway e => do! _ := yamux_session_close (Some tt) e in sret tt
  | OpUpgrade s n => do! _ := libp2p_yamux_handle_upgrade s n in sret tt
  | OpMultistream s b => do! _ := libp2p_net_multistream_stream_new s b in sret tt
  end.

Inductive reachable : yamux -> Prop :=
| reach_new below am_server y : libp2p_yamux_stream_new below am_server = Ret (Some y) -> reachable y
| reach_op y o y' : reachable y -> run_op o y = Ret (tt, y') -> reachable y'.
End reachable.

(** the states the streams of a session are ever in *)
Definition resting (st : yamux_stream_state) : Prop := st = yamux_stream_inited \/ st = yamux_stream_closed.

Definition slot_ok (objects : gmap positive yamux_stream) (cap : Z) (i : nat) (slot : yamux_session_stream) : Prop :=
  if Z.of_nat i <? cap
  then ss_alive slot = 1 /\ exists o ob, ss_stream slot = Ptr o /\ objects !! o = Some ob /\ resting (ys_state ob)
  else ss_alive slot = 0.

(** [least]: a number of streams that is not fallen short of *)
Section least.
Context (least : Z).

Record session_inv (y : yamux) : Prop := {
  ok_length : zlen (streams (y_session y)) = accept_backlog (y_session y);
  ok_backlog : accept_backlog (y_session y) = default_accept_backlog;
  ok_num : num_streams (y_session y) = 0;
  ok_cap : 0 <= cap_streams (y_session y) <= accept_backlog (y_session y);
  ok_least : least <= cap_streams (y_session y);
  ok_slots : forall i slot, streams (y_session y) !! i = Some slot ->
    slot_ok (y_objects y) (cap_streams (y_session y)) i slot;
  ok_fresh : forall o, is_Some (y_objects y !! o) -> (o < y_next y)%positive
}.

(** only the session, the objects and the allocator matter *)
Lemma session_ok_same y y' : y_session y' = y_session y -> y_objects y' = y_objects y ->
  (y_next y <= y_next y')%positive -> session_inv y -> session_inv y'.
Proof.
  intros Hs Ho Hn [H1 H2 H3 H4 H7 H5 H6]. split; rewrite ?Hs, ?Ho; try done.
  intros o Hi. specialize (H6 o Hi). lia.
Qed.

(** fields of the session that the invariant does not look at *)
Lemma session_ok_session y s : accept_backlog s = accept_backlog (y_session y) ->
  num_streams s = num_streams (y_session y) -> cap_streams s = cap_streams (y_session y) ->
  streams s = streams (y_session y) -> session_inv y -> session_inv (set_session s y).
Proof.
  intros E1 E2 E3 E4 [H1 H2 H3 H4 H7 H5 H6].
  split; cbn [set_session y_session y_objects y_next]; rewrite ?E1, ?E2, ?E3, ?E4; done.
Qed.

Lemma slot_ok_insert objects cap i slot o ob v : objects !! o = Some ob ->
  (resting (ys_state ob) -> resting (ys_state v)) -> slot_ok objects cap i slot ->
  slot_ok (<[o := v]> objects) cap i slot.
Proof.
  intros Ho Hv. unfold slot_ok. destruct (Z.of_nat i <? cap); [|done].
  intros (Ha & o' & ob' & Hs & Ho' & Hr). split; [done|].
  destruct (decide (o' = o)) as [->|Hne].
  - rewrite Ho in Ho'. injection Ho' as <-. exists o, v. rewrite lookup_insert_eq. auto.
  - exists o', ob'. rewrite lookup_insert_ne by done. auto.
Qed.

Lemma session_ok_object y o ob v : y_objects y !! o = Some ob ->
  (resting (ys_state ob) -> resting (ys_state v)) -> session_inv y ->
  session_inv (set_objects (<[o := v]> (y_objects y)) y).
Proof.
  intros Ho Hv [H1 H2 H3 H4 H7 H5 H6]. split; cbn [set_objects y_session y_objects y_next]; try done.
  - intros i slot Hi. eapply slot_ok_insert; eauto.
  - intros o' Hi. destruct (decide (o' = o)) as [->|Hne]; [apply H6; by exists ob|].
    rewrite lookup_insert_ne in Hi by done. auto.
Qed.

Lemma session_ok_new_object y v : session_inv y ->
  session_inv (set_next (Pos.succ (y_next y)) (set_objects (<[y_next y := v]> (y_objects y)) y)).
Proof.
  intros [H1 H2 H3 H4 H7 H5 H6].
  split; cbn [set_next set_objects y_session y_objects y_next]; try done.
  - intros i slot Hi. specialize (H5 i slot Hi). unfold slot_ok in *.
    destruct (Z.of_nat i <? _); [|done]. destruct H5 as (Ha & o & ob & Hs & Ho & Hr).
    split; [done|]. exists o, ob. rewrite lookup_insert_ne; [done|].
    intros E. assert (o < y_next y)%positive by (apply H6; by exists ob). lia.
  - intros o Hi. destruct (decide (o = y_next y)) as [->|Hne]; [lia|].
    rewrite lookup_insert_ne in Hi by done. specialize (H6 o Hi). lia.
Qed.

(** ** The primitive operations *)
Ltac same := apply session_ok_same; cbn; try done; lia.

Lemma keeps_emit e : keeps session_inv (log_event e).
Proof. apply keeps_mod. intros s. same. Qed.
Lemma keeps_read_stream s : keeps session_inv (read_stream s).
Proof. intros y a y' HI. unfold read_stream. by destruct (y_streams y !! s); intros [= <- <-]. Qed.
Lemma keeps_read_context s : keeps session_inv (read_context s).
Proof. intros y a y' HI. unfold read_context. by destruct (y_contexts y !! s); intros [= <- <-]. Qed.
Lemma keeps_read_object s : keeps session_inv (read_object s).
Proof. intros y a y' HI. unfold read_object. by destruct (y_objects y !! s); intros [= <- <-]. Qed.
Lemma keeps_write_stream s v : keeps session_inv (write_stream s v).
Proof. apply keeps_bind; [apply keeps_read_stream|]. intros _. apply keeps_mod. intros y. same. Qed.
Lemma keeps_write_context s v : keeps session_inv (write_context s v).
Proof. apply keeps_bind; [apply keeps_read_context|]. intros _. apply keeps_mod. intros y. same. Qed.
Lemma keeps_new_stream v : keeps session_inv (new_stream v).
Proof. intros y a y' HI [= <- <-]. revert HI. same. Qed.
Lemma keeps_new_context v : keeps session_inv (new_context v).
Proof. intros y a y' HI [= <- <-]. revert HI. same. Qed.
Lemma keeps_new_object v : keeps session_inv (new_object v).
Proof. intros y a y' HI [= <- <-]. by apply session_ok_new_object. Qed.
Lemma keeps_nonnull {A} (p : option A) : keeps session_inv (nonnull p).
Proof. destruct p; [apply keeps_ret|apply keeps_undef]. Qed.
Lemma keeps_nofuel {A} : keeps (A := A) session_inv (fun _ => NoFuel).
Proof. by intros y a y' HI. Qed.
Lemma keeps_send `{Network} b : keeps session_inv (send b).
Proof. intros y a y' HI [= <- <-]. revert HI. same. Qed.
Lemma keeps_write_resting o v : resting (ys_state v) -> keeps session_inv (write_object o v).
Proof.
  intros Hv y a y' HI (ob & y1 & H1 & H2)%sbind_inv. unfold read_object in H1.
  destruct (y_objects y !! o) as [ob'|] eqn:E; [|done]. injection H1 as -> ->. injection H2 as <- <-.
  by eapply session_ok_object.
Qed.

(** an update of an object that was just read *)
Lemma keeps_update {B} o (f : yamux_stream -> yamux_stream) (k : yamux_stream -> Y B) :
  (forall ob, resting (ys_state ob) -> resting (ys_state (f ob))) -> (forall ob, keeps session_inv (k ob)) ->
  keeps session_inv (sbind (read_object o) (fun ob => sbind (write_object o (f ob)) (fun _ => k ob))).
Proof.
  intros Hf Hk y b y' HI (ob & y1 & H1 & (u & y2 & H2 & H3)%sbind_inv)%sbind_inv.
  unfold read_object in H1. destruct (y_objects y !! o) as [ob'|] eqn:E; [|done]. injection H1 as -> ->.
  unfold write_object, sbind, read_object in H2. rewrite E in H2. injection H2 as <- <-.
  eapply Hk; [|done]. eapply session_ok_object; eauto.
Qed.
Lemma keeps_update_last o (f : yamux_stream -> yamux_stream) :
  (forall ob, resting (ys_state ob) -> resting (ys_state (f ob))) ->
  keeps session_inv (sbind (read_object o) (fun ob => write_object o (f ob))).
Proof.
  intros Hf y b y' HI (ob & y1 & H1 & H2)%sbind_inv.
  unfold read_object in H1. destruct (y_objects y !! o) as [ob'|] eqn:E; [|done]. injection H1 as -> ->.
  unfold write_object, sbind, read_object in H2. rewrite E in H2. injection H2 as <- <-.
  eapply session_ok_object; eauto.
Qed.

(** like [keeps_tac], with reads of an object that are followed by its update *)
Ltac session_tac :=
  repeat first
  [ progress intros
  | solve [eauto with keeps]
  | apply keeps_update_last; [solve [auto]|..]
  | apply keeps_update; [solve [auto]|..]
  | apply keeps_bind
  | match goal with
    | |- keeps _ (match ?x with _ => _ end) => destruct x
    | |- keeps _ (if ?b then _ else _) => destruct b
    | |- keeps _ (let '(_, _) := ?p in _) => destruct p
    end ].
Hint Resolve keeps_emit keeps_read_stream keeps_read_context keeps_read_object keeps_write_stream
  keeps_write_context keeps_new_stream keeps_new_context keeps_new_object keeps_nonnull keeps_nofuel
  keeps_send keeps_write_resting : keeps.
Hint Extern 1 (keeps session_inv (smod _)) => (apply keeps_mod; intros ?; first [same | apply session_ok_session; done]) : keeps.

Section keeps.
Context {M : Malloc} {N : Network}.

Lemma keeps_get_channel_context p : keeps session_inv (libp2p_yamux_get_channel_context p).
Proof. unfold libp2p_yamux_get_channel_context. keeps_tac. Qed.
Lemma keeps_get_context p : keeps session_inv (libp2p_yamux_get_context p).
Proof. unfold libp2p_yamux_get_context. keeps_tac. Qed.
Lemma keeps_as_yamux p : keeps session_inv (as_yamux p).
Proof. unfold as_yamux. keeps_tac. Qed.
Hint Resolve keeps_get_channel_context keeps_get_context keeps_as_yamux : keeps.
Lemma keeps_lower_write b : keeps session_inv (lower_write b).
Proof. unfold lower_write. keeps_tac. Qed.
Hint Resolve keeps_lower_write : keeps.
Lemma keeps_write_frame p f : keeps session_inv (yamux_write_frame p f).
Proof. unfold yamux_write_frame. keeps_tac. Qed.
Lemma keeps_get_flags p : keeps session_inv (get_flags p).
Proof. unfold get_flags. keeps_tac. Qed.
Lemma keeps_context_of cc : keeps session_inv (yamux_context_of cc).
Proof. unfold yamux_context_of. keeps_tac. Qed.
Hint Resolve keeps_write_frame keeps_get_flags keeps_context_of : keeps.
Lemma keeps_init c : keeps session_inv (yamux_stream_init c).
Proof. unfold yamux_stream_init. keeps_tac. Qed.
Lemma keeps_close p : keeps session_inv (yamux_stream_close p).
Proof. unfold yamux_stream_close. keeps_tac. Qed.
Lemma keeps_reset c : keeps session_inv (yamux_stream_reset c).
Proof. unfold yamux_stream_reset. keeps_tac. Qed.
Lemma keeps_window_update c d : keeps session_inv (yamux_stream_window_update c d).
Proof. unfold yamux_stream_window_update. keeps_tac. Qed.
Hint Resolve keeps_init keeps_close keeps_reset keeps_window_update : keeps.
Lemma keeps_stream_write_loop n : forall c id ws data, keeps session_inv (stream_write_loop n c id ws data).
Proof. induction n as [|n IH]; intros; cbn [stream_write_loop]; keeps_tac. Qed.
Hint Resolve keeps_stream_write_loop : keeps.
Lemma keeps_stream_write fuel c n d : keeps session_inv (yamux_stream_write fuel c n d).
Proof. unfold yamux_stream_write. keeps_tac. Qed.
Lemma keeps_next_id : keeps session_inv libp2p_yamux_get_next_id.
Proof.
  unfold libp2p_yamux_get_next_id. intros y a y' HI. unfold sbind, sget, smod, sret. cbn [rbind].
  intros [= <- <-]. by apply session_ok_session.
Qed.
Hint Resolve keeps_stream_write keeps_next_id : keeps.
Lemma keeps_yamux_write p m : keeps session_inv (libp2p_yamux_write p m).
Proof. unfold libp2p_yamux_write. keeps_tac. Qed.
Hint Resolve keeps_yamux_write : keeps.
Lemma keeps_multistream_write w st m : (forall s m, keeps session_inv (w s m)) ->
  keeps session_inv (libp2p_net_multistream_write_without_check w st m).
Proof. intros Hw. unfold libp2p_net_multistream_write_without_check. keeps_tac. Qed.
Hint Resolve keeps_multistream_write : keeps.
Lemma keeps_write_streams n : forall s m, keeps session_inv (stream_write n s m).
Proof. induction n as [|n IH]; intros; cbn [stream_write]; unfold libp2p_net_multistream_write; keeps_tac. Qed.
Lemma keeps_write_to s m : keeps session_inv (write_to s m).
Proof. intros y a y' HI. by apply keeps_write_streams. Qed.
Hint Resolve keeps_write_to : keeps.
Lemma keeps_channel_stream_new s n : keeps session_inv (libp2p_yamux_channel_stream_new s n).
Proof. unfold libp2p_yamux_channel_stream_new. keeps_tac. Qed.
Hint Resolve keeps_channel_stream_new : keeps.

(** ** Choosing a slot *)
Lemma dead_slot_none n : forall i slots,
  (forall j, (i <= j < i + n)%nat -> exists slot, slots !! j = Some slot /\ ss_alive slot = 1) ->
  dead_slot n (Z.of_nat i) slots = Ret None.
Proof.
  induction n as [|n IH]; intros i slots Hs; [done|]. cbn [dead_slot]. rewrite Nat2Z.id.
  destruct (Hs i) as (slot & -> & ->); [lia|]. change (1 =? 0) with false. cbv iota.
  replace (Z.of_nat i + 1) with (Z.of_nat (S i)) by lia. apply IH. intros j Hj. apply Hs. lia.
Qed.

Lemma session_slot y i : session_inv y -> 0 <= i < accept_backlog (y_session y) ->
  exists slot, streams (y_session y) !! Z.to_nat i = Some slot /\
    slot_ok (y_objects y) (cap_streams (y_session y)) (Z.to_nat i) slot.
Proof.
  intros [H1 H2 H3 H4 H7 H5 H6] Hi.
  destruct (streams (y_session y) !! Z.to_nat i) as [slot|] eqn:E; [by exists slot; auto|].
  apply lookup_ge_None in E. unfold zlen in H1. lia.
Qed.

Lemma session_no_dead_slot y : session_inv y ->
  dead_slot (Z.to_nat (cap_streams (y_session y))) 0 (streams (y_session y)) = Ret None.
Proof.
  intros HI. apply (dead_slot_none _ 0). intros j Hj. pose proof (ok_cap _ HI).
  destruct (session_slot y (Z.of_nat j) HI) as (slot & Hs & Hok); [lia|].
  rewrite Nat2Z.id in Hs, Hok. exists slot. split; [done|]. unfold slot_ok in Hok.
  rewrite (proj2 (Z.ltb_lt _ _)) in Hok by lia. apply Hok.
Qed.

(** the array with one more stream *)
Definition with_stream (y : yamux) (o : positive) : yamux_session :=
  let s := y_session y in
  set_slots (<[Z.to_nat (cap_streams s) := mkSlot (Ptr o) 1]> (streams s)) (cap_streams s + 1) s.

Lemma session_ok_with_stream y o ob : session_inv y -> cap_streams (y_session y) < accept_backlog (y_session y) ->
  y_objects y !! o = Some ob -> resting (ys_state ob) -> session_inv (set_session (with_stream y o) y).
Proof.
  intros [H1 H2 H3 H4 H7 H5 H6] Hlt Ho Hr. unfold with_stream.
  split; cbn [set_session set_slots y_session y_objects y_next streams accept_backlog num_streams cap_streams];
    try done; [by unfold zlen in *; rewrite length_insert|lia|lia|].
  intros i slot Hi. apply list_lookup_insert_Some in Hi as [(<- & <- & _)|(Hne & Hi)].
  - unfold slot_ok. rewrite (proj2 (Z.ltb_lt _ _)) by lia. split; [done|]. by exists o, ob.
  - specialize (H5 i slot Hi). unfold slot_ok in *.
    destruct (Z.ltb_spec (Z.of_nat i) (cap_streams (y_session y))).
    + by rewrite (proj2 (Z.ltb_lt _ _)) by lia.
    + by rewrite (proj2 (Z.ltb_ge _ _)) by lia.
Qed.

Lemma write_slot_ok y i slot old cap : streams (y_session y) !! Z.to_nat i = Some old ->
  write_slot i slot cap y
  = Ret (tt, set_session (set_slots (<[Z.to_nat i := slot]> (streams (y_session y))) cap (y_session y)) y).
Proof.
  intros Hs. unfold write_slot. rewrite (sbind_ret (sget y_session) _ y (y_session y) y eq_refl). by rewrite Hs.
Qed.

(** [choose_slot] never finds a dead slot: it takes the next one or none *)
Lemma choose_slot_ok y : session_inv y ->
  choose_slot y =
    let s := y_session y in
    if cap_streams s =? accept_backlog s then Ret (None, y)
    else if malloc_ok sizeof_yamux_stream then
      let o := y_next y in
      let y1 := set_next (Pos.succ o) (set_objects (<[o := object_blank]> (y_objects y)) y) in
      Ret (Some o, set_session (with_stream y o) y1)
    else UB.
Proof.
  intros HI. pose proof (ok_cap _ HI). pose proof (ok_backlog _ HI) as Hb. unfold default_accept_backlog in Hb.
  unfold choose_slot. unfold sbind at 1. unfold sget at 1. cbn [rbind].
  assert ((if num_streams (y_session y) =? cap_streams (y_session y) then sret None
           else slift (dead_slot (Z.to_nat (cap_streams (y_session y))) 0 (streams (y_session y)))) y
          = Ret (None, y)) as Hd.
  { destruct (_ =? _); [done|]. unfold slift. by rewrite session_no_dead_slot. }
  rewrite (sbind_ret _ _ _ _ _ Hd).
  destruct (Z.eqb_spec (cap_streams (y_session y)) (accept_backlog (y_session y))) as [E|Hne]; [done|].
  destruct (session_slot y (cap_streams (y_session y)) HI) as (slot & Hs & Hok); [lia|].
  rewrite Hs. unfold nonnull. unfold sbind at 1, sret at 1. cbn [rbind].
  unfold slot_ok in Hok. rewrite (proj2 (Z.ltb_ge _ _)) in Hok by lia. rewrite Hok.
  change (negb (0 =? 0)) with false. cbv iota. destruct (malloc_ok sizeof_yamux_stream); [|done].
  rewrite (sbind_ret (new_object _) _ _ _ _ eq_refl).
  erewrite sbind_ret; [|apply (write_slot_ok _ _ _ slot); exact Hs].
  by rewrite u64_small by lia.
Qed.

Lemma keeps_choose_slot : keeps session_inv choose_slot.
Proof.
  intros y r y' HI. rewrite choose_slot_ok by done. cbv zeta. pose proof (ok_cap _ HI).
  destruct (Z.eqb_spec (cap_streams (y_session y)) (accept_backlog (y_session y))); [by intros [= <- <-]|].
  destruct (malloc_ok sizeof_yamux_stream); [|done]. intros [= <- <-].
  apply (session_ok_new_object y object_blank) in HI as HI'.
  apply (session_ok_with_stream _ (y_next y) object_blank) in HI'; [exact HI'|cbn; lia| |by left].
  cbn [set_next set_objects y_objects]. by rewrite lookup_insert_eq.
Qed.
Hint Resolve keeps_choose_slot : keeps.

Lemma resting_inited : resting yamux_stream_inited. Proof. by left. Qed.
Lemma resting_closed : resting yamux_stream_closed. Proof. by right. Qed.
Hint Resolve resting_inited resting_closed : keeps.

Lemma keeps_channel_new (x : option unit) id : keeps session_inv (yamux_channel_new x id).
Proof.
  unfold yamux_channel_new. destruct x as [[]|]; [|keeps_tac]. apply keeps_bind.
  - destruct (id =? 0); [|keeps_tac]. intros y a y' HI. unfold sbind, sget, smod, sret. cbn [rbind].
    intros [= <- <-]. by apply session_ok_session.
  - intros id'. keeps_tac. all: by apply keeps_write_resting; left.
Qed.
Hint Resolve keeps_channel_new : keeps.

(** ** Upgrades and multistream *)
Lemma keeps_get_session_stream n : forall i ch, keeps session_inv (get_session_stream n i ch).
Proof. induction n as [|n IH]; intros; cbn [get_session_stream]; keeps_tac. Qed.
Hint Resolve keeps_get_session_stream : keeps.
Lemma keeps_stream_add s : keeps session_inv (libp2p_yamux_stream_add s).
Proof. unfold libp2p_yamux_stream_add. keeps_tac. Qed.
Hint Resolve keeps_stream_add : keeps.
Lemma keeps_yamux_upgrade s n : keeps session_inv (libp2p_yamux_handle_upgrade s n).
Proof.
  unfold libp2p_yamux_handle_upgrade, yamux_get_session_stream. session_tac.
Qed.
Hint Resolve keeps_yamux_upgrade : keeps.
Lemma keeps_handle_upgrade n : forall p s, keeps session_inv (handle_upgrade n p s).
Proof. induction n as [|n IH]; intros; cbn [handle_upgrade]; keeps_tac. Qed.
Lemma keeps_stream_close s : keeps session_inv (stream_close s).
Proof. unfold stream_close. keeps_tac. Qed.
Lemma keeps_negotiate s b : keeps session_inv (libp2p_net_multistream_negotiate s b).
Proof. unfold libp2p_net_multistream_negotiate. keeps_tac. Qed.
Hint Resolve keeps_handle_upgrade keeps_stream_close keeps_negotiate : keeps.
Lemma keeps_multistream_new s b : keeps session_inv (libp2p_net_multistream_stream_new s b).
Proof. unfold libp2p_net_multistream_stream_new. keeps_tac. Qed.
Hint Resolve keeps_multistream_new : keeps.

(** ** Sessions *)
(** reading the session, and an update of fields the invariant does not look at *)
Lemma keeps_get_session {B} (k : yamux_session -> Y B) :
  (forall y b y', session_inv y -> k (y_session y) y = Ret (b, y') -> session_inv y') ->
  keeps session_inv (sbind (sget y_session) k).
Proof. apply keeps_bind_get. Qed.
Lemma session_ok_mod {B} y s (k : unit -> Y B) b y' : session_inv y -> accept_backlog s = accept_backlog (y_session y) ->
  num_streams s = num_streams (y_session y) -> cap_streams s = cap_streams (y_session y) ->
  streams s = streams (y_session y) -> keeps session_inv (k tt) ->
  sbind (smod (set_session s)) k y = Ret (b, y') -> session_inv y'.
Proof.
  intros HI E1 E2 E3 E4 Hk (u1 & y1 & [= <- <-] & H)%sbind_inv. eapply Hk; [|exact H]. by apply session_ok_session.
Qed.

Lemma keeps_session_close x e : keeps session_inv (yamux_session_close x e).
Proof.
  unfold yamux_session_close. destruct x; [|keeps_tac]. apply keeps_get_session. intros y b y' HI.
  destruct (negb _); [by intros [= <- <-]|]. apply session_ok_mod; try done. keeps_tac.
Qed.
Lemma keeps_session_ping x v b : keeps session_inv (yamux_session_ping x v b).
Proof.
  unfold yamux_session_ping. apply keeps_get_session. intros y r y' HI.
  destruct x; [|by intros [= <- <-]]. destruct (negb _); [by intros [= <- <-]|].
  intros (tr & y1 & [= <- <-] & H)%sbind_inv. destruct (net_clock (y_trace y)) as [t|]; [|by injection H as <- <-].
  revert H. apply session_ok_mod; try done. keeps_tac.
Qed.
Hint Resolve keeps_session_close keeps_session_ping : keeps.

(** a handler of the program only uses the operations of the connection *)
Variable protocol_handlers : option (vector (Libp2pProtocolHandler yamux positive)).
Hypothesis handlers_ok : forall v h, protocol_handlers = Some v -> Some h ∈ v_items v ->
  forall m s, keeps session_inv (HandleMessage h m s).

Lemma keeps_marshal m s :
  keeps session_inv (fun y => libp2p_protocol_marshal (fun s b => write_to s (stream_message b)) m s protocol_handlers y).
Proof.
  intros y [r m'] y' HI. unfold libp2p_protocol_marshal. intros ([h|] & Hc & H)%rbind_inv.
  - apply protocol_compare_elem in Hc as (v & Hv & Hin).
    apply rbind_inv in H as ([r1 y1] & H1 & [= <- <- <-]). by eapply handlers_ok.
  - apply rbind_inv in H as (a & _ & H). apply rbind_inv in H as (y1 & H1 & H).
    destruct m as [m|]; [|done]. injection H as <- <- <-.
    destruct (a =? 0); [by injection H1 as <-|].
    apply rbind_inv in H1 as ([r2 y2] & H1 & [= <-]). by eapply keeps_write_to.
Qed.
Hint Resolve keeps_marshal : keeps.

Lemma keeps_yamux_parent n : forall s, keeps session_inv (yamux_parent n s).
Proof. induction n as [|n IH]; intros; cbn [yamux_parent]; keeps_tac. Qed.
Lemma keeps_notify c : keeps session_inv (libp2p_yamux_notify_child_stream_has_data c).
Proof. unfold libp2p_yamux_notify_child_stream_has_data. keeps_tac. Qed.
Lemma keeps_offer o c : keeps session_inv (offer_to_protocols protocol_handlers o c).
Proof. unfold offer_to_protocols. keeps_tac. Qed.
Hint Resolve keeps_yamux_parent keeps_notify keeps_offer : keeps.
Lemma keeps_deliver o d n : keeps session_inv (channel_deliver protocol_handlers o d n).
Proof. unfold channel_deliver. keeps_tac. Qed.
Hint Resolve keeps_deliver : keeps.
Lemma keeps_process o f d n : keeps session_inv (yamux_stream_process protocol_handlers o f d n).
Proof. unfold yamux_stream_process. session_tac. Qed.
Hint Resolve keeps_process : keeps.
Lemma keeps_parent_channel n : forall s, keeps session_inv (get_parent_channel_context n s).
Proof. induction n as [|n IH]; intros; cbn [get_parent_channel_context]; keeps_tac. Qed.
Lemma keeps_find_stream n : forall i id, keeps session_inv (find_stream n i id).
Proof. induction n as [|n IH]; intros; cbn [find_stream]; keeps_tac. Qed.
Hint Resolve keeps_parent_channel keeps_find_stream : keeps.

Lemma keeps_decode_session f : keeps session_inv (decode_session f).
Proof.
  unfold decode_session. apply keeps_get_session. intros y r y' HI.
  destruct (frame_type f =? yamux_frame_ping).
  - match goal with |- ?m _ = _ -> _ => assert (keeps session_inv m) as Hk by keeps_tac end. by apply Hk.
  - destruct (frame_type f =? yamux_frame_go_away); [|by intros [= <- <-]].
    apply session_ok_mod; try done. keeps_tac.
Qed.

Lemma keeps_get_parent_channel s : keeps session_inv (libp2p_yamux_get_parent_channel_context s).
Proof. unfold libp2p_yamux_get_parent_channel_context. keeps_tac. Qed.
Hint Resolve keeps_decode_session keeps_get_parent_channel : keeps.

(** the last case moves a stream that waits for an ACK on: none of the session's *)
Lemma keeps_decode_flags o f : keeps session_inv (decode_flags o f).
Proof.
  unfold decode_flags. intros y r y' HI (s & y1 & H1 & H2)%sbind_inv. unfold read_object in H1.
  destruct (y_objects y !! o) as [ob|] eqn:E; [|done]. injection H1 as -> <-. revert H2.
  destruct (has_flag f yamux_frame_rst); [|destruct (has_flag f yamux_frame_fin);
    [|destruct (has_flag f yamux_frame_ack); [destruct (decide (ys_state s = yamux_stream_syn_sent)) as [Es|Es]|]]].
  - match goal with |- ?m _ = _ -> _ => assert (keeps session_inv m) as Hk end; [|by apply Hk].
    keeps_tac.
  - match goal with |- ?m _ = _ -> _ => assert (keeps session_inv m) as Hk end; [|by apply Hk].
    keeps_tac.
  - rewrite bool_decide_eq_true_2 by done. cbn [negb]. intros (u1 & y2 & H & [= <- <-])%sbind_inv.
    unfold write_object, sbind, read_object in H. rewrite E in H. injection H as <- <-.
    eapply session_ok_object; [exact E| |done]. rewrite Es. by intros [?|?].
  - rewrite bool_decide_eq_false_2 by done. by intros [= <- <-].
  - destruct (negb _); by intros [= <- <-].
Qed.
Hint Resolve keeps_decode_flags : keeps.

Lemma keeps_decode_new f d n : keeps session_inv (decode_new protocol_handlers f d n).
Proof. unfold decode_new. keeps_tac. Qed.
Hint Resolve keeps_decode_new : keeps.
Lemma keeps_decode p d n : keeps session_inv (yamux_decode protocol_handlers p d n).
Proof. unfold yamux_decode. keeps_tac. Qed.
Hint Resolve keeps_decode : keeps.

Lemma keeps_lower_read : keeps session_inv lower_read.
Proof.
  intros y r y' HI. unfold lower_read. destruct (net_read (y_trace y)). intros [= <- <-]. revert HI. same.
Qed.
Lemma keeps_lower_read_raw n : keeps session_inv (lower_read_raw n).
Proof.
  intros y r y' HI. unfold lower_read_raw. destruct (net_read_raw (y_trace y) n). intros [= <- <-]. revert HI. same.
Qed.
Hint Resolve keeps_lower_read keeps_lower_read_raw : keeps.
Lemma keeps_channel_read p : keeps session_inv (libp2p_yamux_channel_read p).
Proof. unfold libp2p_yamux_channel_read. keeps_tac. Qed.
Lemma keeps_channel_read_raw p b n : keeps session_inv (libp2p_yamux_channel_read_raw p b n).
Proof. unfold libp2p_yamux_channel_read_raw. keeps_tac. Qed.
Lemma keeps_read_missing m : keeps session_inv (read_missing m).
Proof. unfold read_missing. keeps_tac. Qed.
Lemma keeps_parent_stream p : keeps session_inv (libp2p_yamux_get_parent_stream p).
Proof. unfold libp2p_yamux_get_parent_stream. keeps_tac. Qed.
Hint Resolve keeps_channel_read keeps_channel_read_raw keeps_read_missing keeps_parent_stream : keeps.
Lemma keeps_read p m : keeps session_inv (libp2p_yamux_read protocol_handlers p m).
Proof. unfold libp2p_yamux_read. keeps_tac. Qed.
Hint Resolve keeps_read : keeps.
Lemma keeps_read_raw p b n : keeps session_inv (libp2p_yamux_read_raw protocol_handlers p b n).
Proof. unfold libp2p_yamux_read_raw. keeps_tac. Qed.
Hint Resolve keeps_read_raw : keeps.

Lemma keeps_op o : keeps session_inv (run_op protocol_handlers o).
Proof. destruct o; cbn [run_op]; keeps_tac. Qed.

End keeps.
End least.

Section proofs.
Context {M : Malloc} {N : Network}.
Variable protocol_handlers : option (vector (Libp2pProtocolHandler yamux positive)).
(** handlers only use the operations of the connection, so that they keep the invariant *)
Hypothesis handlers_ok : forall least v h, protocol_handlers = Some v -> Some h ∈ v_items v ->
  forall m s, keeps (session_inv least) (HandleMessage h m s).

Lemma session_new_ok p b s : yamux_session_new (Some p) b = Ret (Some s) ->
  s = mkSession 256 0 0 (replicate 256 (mkSlot Wild 0)) false false false false false (0, 0) p (if b then 2 else 1) 0.
Proof.
  unfold yamux_session_new. destruct (malloc_ok _); [|done]. destruct (malloc_ok _); [|done]. by intros [= <-].
Qed.

Lemma stream_new_ok below am y : libp2p_yamux_stream_new below am = Ret (Some y) -> session_inv 0 y.
Proof.
  unfold libp2p_yamux_stream_new. destruct (malloc_ok _); [|done]. destruct (malloc_ok _); [|done].
  intros (v & _ & H)%rbind_inv. apply rbind_inv in H as ([s|] & Hs & H); [|done].
  apply session_new_ok in Hs as ->. apply rbind_inv in H as ([r y1] & H1 & H).
  apply rbind_inv in H as ([r2 y2] & H2 & [= H]). destruct (r2 =? 0); [done|]. injection H as <-.
  eapply keeps_write_to; [|exact H2]. eapply keeps_handle_upgrade; [|exact H1].
  split; cbn; try done; try lia.
  - intros i slot Hi. unfold slot_ok. rewrite (proj2 (Z.ltb_ge _ _)) by lia.
    change (replicate 256 (mkSlot Wild 0) !! i = Some slot) in Hi.
    by apply lookup_replicate_1 in Hi as [-> _].
  - intros o [ob Ho]. by rewrite lookup_empty in Ho.
Qed.

Lemma reachable_ok y : reachable protocol_handlers y -> session_inv 0 y.
Proof. induction 1 as [below am y H|y o y' _ IH H]; [by eapply stream_new_ok|].
  eapply keeps_op; [by apply handlers_ok|exact IH|exact H].
Qed.

(** more operations: nothing is given back *)
Inductive later : yamux -> yamux -> Prop :=
| later_refl y : later y y
| later_op y y1 o y2 : later y y1 -> run_op protocol_handlers o y1 = Ret (tt, y2) -> later y y2.

Lemma later_reachable y y' : reachable protocol_handlers y -> later y y' -> reachable protocol_handlers y'.
Proof.
  intros Hr Hl. revert Hr. induction Hl as [|y y1 o y2 _ IH H]; intros Hr; [done|].
  eapply reach_op; [by apply IH|exact H].
Qed.

Lemma later_ok least y y' : session_inv least y -> later y y' -> session_inv least y'.
Proof.
  intros HI Hl. revert HI. induction Hl as [|y y1 o y2 _ IH H]; intros HI; [done|].
  eapply keeps_op; [by apply handlers_ok|by apply IH|exact H].
Qed.



(** the search for the stream of a frame finds an open one with the id, or there is none *)
Lemma find_stream_ok least y id : session_inv least y -> forall n i,
  (i + n <= Z.to_nat (cap_streams (y_session y)))%nat ->
  exists r, find_stream n (Z.of_nat i) id y = Ret (r, y) /\
    match r with
    | Some o => exists ob, y_objects y !! o = Some ob /\ ys_id ob = id /\ ys_state ob = yamux_stream_inited
    | None => forall j slot o ob, (i <= j < i + n)%nat -> streams (y_session y) !! j = Some slot ->
        ss_stream slot = Ptr o -> y_objects y !! o = Some ob -> ys_id ob = id -> ys_state ob = yamux_stream_closed
    end.
Proof.
  intros HI. induction n as [|n IH]; intros i Hi; [exists None; split; [done|intros; lia]|].
  pose proof (ok_cap _ _ HI) as Hc. destruct (session_slot _ y (Z.of_nat i) HI) as (slot & Hs & Hok); [lia|].
  rewrite Nat2Z.id in Hs, Hok. unfold slot_ok in Hok. rewrite (proj2 (Z.ltb_lt _ _)) in Hok by lia.
  destruct Hok as (Ha & o & ob & Hp & Ho & Hr).
  cbn [find_stream]. rewrite (sbind_ret (sget y_session) _ y _ y eq_refl), Nat2Z.id, Hs.
  rewrite (sbind_ret (nonnull (Some slot)) _ y _ y eq_refl), Ha, Hp. change (1 =? 0) with false. cbv iota.
  assert (read_object o y = Ret (ob, y)) as Hro by (unfold read_object; by rewrite Ho).
  rewrite (sbind_ret _ _ _ _ _ Hro). replace (Z.of_nat i + 1) with (Z.of_nat (S i)) by lia.
  destruct (IH (S i)) as (r & Hf & Hres); [lia|].
  assert ((ys_id ob = id -> ys_state ob = yamux_stream_closed) -> exists r0, find_stream n (Z.of_nat (S i)) id y = Ret (r0, y) /\
    match r0 with
    | Some o => exists ob, y_objects y !! o = Some ob /\ ys_id ob = id /\ ys_state ob = yamux_stream_inited
    | None => forall j slot o ob, (i <= j < i + S n)%nat -> streams (y_session y) !! j = Some slot ->
        ss_stream slot = Ptr o -> y_objects y !! o = Some ob -> ys_id ob = id -> ys_state ob = yamux_stream_closed
    end) as Hskip.
  { intros Hcl. exists r. split; [done|]. destruct r as [o'|]; [done|].
    intros j slot' o' ob' Hj Hs' Hp' Ho' Hid. destruct (decide (j = i)) as [->|Hne].
    - rewrite Hs in Hs'. injection Hs' as <-. rewrite Hp in Hp'. injection Hp' as <-.
      rewrite Ho in Ho'. injection Ho' as <-. auto.
    - eapply (Hres j); eauto. lia. }
  destruct Hr as [Hr|Hr]; rewrite Hr in *.
  - rewrite bool_decide_eq_false_2 by done. destruct (Z.eqb_spec (ys_id ob) id) as [E|E]; [|by apply Hskip].
    exists (Some o). split; [done|]. by exists ob.
  - rewrite bool_decide_eq_true_2 by done. by apply Hskip.
Qed.

(** what [yamux_decode] does first with a frame for a stream *)
Lemma decode_stream_frame y f rest n : frame_ok f -> version f = 0 -> streamid f <> 0 -> 12 <= n ->
  yamux_decode protocol_handlers (Some Context_Yamux) (frame_wire f ++ rest) n y =
  (do! found := find_stream (Z.to_nat (cap_streams (y_session y))) 0 (streamid f) in
   match found with
   | Some o =>
     do! r := decode_flags o f in
     match r with
     | Some e => sret (e, None)
     | None =>
       do! re := yamux_stream_process protocol_handlers o f rest (n - 12) in
       sret (if re <? 0 then s32 re else s32 (u64 (re + n)), None)
     end
   | None =>
     if has_flag f yamux_frame_syn then
       do! (_, message) := slift (yamux_pull_message_from_frame (frame_wire f ++ rest) n) in
       do! am_server := sget y_am_server in
       if ((streamid f mod 2 =? 0) && (am_server =? 0)) || ((streamid f mod 2 =? 1) && negb (am_server =? 0))
       then do! r := decode_new protocol_handlers f rest (n - 12) in sret (r, message)
       else sret (0, message)
     else sret (- EPROTO, None)
   end) y.
Proof.
  intros Hf Hv Hid Hn. unfold yamux_decode. rewrite (sbind_ret (libp2p_yamux_get_context (Some Context_Yamux)) _ y (Some Context_Yamux) y eq_refl).
  rewrite (sbind_ret (as_yamux (Some Context_Yamux)) _ y tt y eq_refl). unfold sizeof_yamux_frame.
  rewrite (proj2 (Z.ltb_ge _ _)) by lia.
  rewrite (sbind_ret (slift (memrd (frame_wire f ++ rest) 12)) _ y (frame_wire f) y);
    [|unfold slift; by rewrite memrd_app].
  rewrite (sbind_ret (slift (frame_at (frame_wire f))) _ y (encode_frame f) y);
    [|unfold slift; rewrite <- (app_nil_r (frame_wire f)); by rewrite frame_received].
  rewrite decode_encode_frame by done.
  rewrite (sbind_ret (slift (padd (frame_wire f ++ rest) 12)) _ y rest y);
    [|unfold slift; by rewrite padd_app].
  rewrite Hv. change (negb (0 =? YAMUX_VERSION)) with false. cbv iota.
  rewrite (proj2 (Z.eqb_neq (streamid f) 0)) by done.
  by rewrite (sbind_ret (sget y_session) _ y _ y eq_refl).
Qed.
End proofs.

(** ** A connection, and one with a channel *)
Definition below : Stream := mkStream STREAM_TYPE_RAW None (Some (Context_Raw 5)) 0.
Definition net_total : Network :=
  {| net_write := fun _ data => zlen data; net_read := fun _ => (0, None);
     net_read_raw := fun _ _ => (0, []); net_clock := fun _ => Some (10, 500) |}.
Definition the {A} (default : A) (r : res A) : A := match r with Ret a => a | _ => default end.
Definition no_connection : yamux :=
  mkYamux 1 yamux_stream_inited 0 (mkSession 0 0 0 [] false false false false false (0, 0) 1 0 0)
    (vector_of []) None (-1) ∅ ∅ ∅ 1 [].
Definition connection (am_server : Z) : yamux :=
  default no_connection (the None (libp2p_yamux_stream_new (M := malloc_total) (N := net_total) below am_server)).
Definition after_op (o : yamux_op) (y : yamux) : yamux :=
  snd (the (tt, no_connection) (run_op (M := malloc_total) (N := net_total) None o y)).

Lemma connection_reachable am : am = 0 \/ am = 1 -> reachable (M := malloc_total) (N := net_total) None (connection am).
Proof.
  intros [->| ->]; [apply (reach_new _ below 0)|apply (reach_new _ below 1)]; vm_compute; reflexivity.
Qed.

(** Property C11.  In every state a connection reaches, whatever arrives and whatever
    is called, the session's array has its 256 slots; the first [cap_streams] are
    alive, each with a stream object that is freshly opened or closed, and the
    others are dead; [num_streams] is still 0.  Nothing is given back: a later state
    has at least as many streams, and once there are 256 no channel can be opened
    any more, however many of them were closed. *)
Theorem session_invariant {M : Malloc} {N : Network}
    (handlers : option (vector (Libp2pProtocolHandler yamux positive))) (y y' : yamux) :
  (forall least v h, handlers = Some v -> Some h ∈ v_items v ->
     forall m s, keeps (session_inv least) (HandleMessage h m s)) ->
  reachable handlers y -> later handlers y y' ->
  let s := y_session y' in
  zlen (streams s) = 256 /\ num_streams s = 0 /\
  cap_streams (y_session y) <= cap_streams s <= 256 /\
  (forall i slot, streams s !! i = Some slot ->
     if Z.of_nat i <? cap_streams s
     then ss_alive slot = 1 /\ exists o ob, ss_stream slot = Ptr o /\ y_objects y' !! o = Some ob /\
            (ys_state ob = yamux_stream_inited \/ ys_state ob = yamux_stream_closed)
     else ss_alive slot = 0) /\
  (cap_streams (y_session y) = 256 -> forall id, id <> 0 -> yamux_channel_new (Some tt) id y' = Ret (None, y')).
Proof.
  intros Hh Hr Hl s. assert (session_inv (cap_streams (y_session y)) y') as HI.
  { eapply later_ok; [exact Hh| |exact Hl]. destruct (reachable_ok _ Hh y Hr) as [H1 H2 H3 H4 H7 H5 H6].
    split; try done; lia. }
  pose proof HI as [H1 H2 H3 H4 H7 H5 H6]. unfold default_accept_backlog in H2.
  split; [unfold s; lia|]. split; [done|]. split; [unfold s; lia|]. split; [exact H5|].
  intros Hc id Hid. unfold yamux_channel_new. rewrite (proj2 (Z.eqb_neq _ _)) by done.
  rewrite (sbind_ret (sret id) _ y' id y' eq_refl). unfold sbind at 1. rewrite (choose_slot_ok _ _ HI).
  cbv zeta. by rewrite (proj2 (Z.eqb_eq _ _)) by lia.
Qed.

Lemma session_invariant_witness :
  let y := connection 0 in let y' := after_op (OpOpen 0) y in
  cap_streams (y_session y') = 1 /\ num_streams (y_session y') = 0 /\ zlen (streams (y_session y')) = 256.
Proof.
  destruct (session_invariant (M := malloc_total) (N := net_total) None (connection 0)
    (after_op (OpOpen 0) (connection 0))) as (H1 & H2 & _).
  - intros least v h Hv. discriminate Hv.
  - apply connection_reachable. left. reflexivity.
  - apply (later_op _ _ (connection 0) (OpOpen 0)); [apply later_refl|vm_compute; reflexivity].
  - cbv zeta. split; [vm_compute; reflexivity|]. split; [exact H2|exact H1].
Defined.

(**  A frame that acknowledges a stream is always refused: in every
    state a connection reaches, a frame for a stream with the flag ACK and none of
    SYN, FIN and RST is answered with -EPROTO and changes nothing.  No stream of a
    session ever waits for an ACK, because the SYN is recorded in the channel. *)
Lemma ack_refused {M : Malloc} {N : Network}
    (handlers : option (vector (Libp2pProtocolHandler yamux positive))) (y : yamux) (f : yamux_frame)
    (data : bytes) :
  (forall least v h, handlers = Some v -> Some h ∈ v_items v ->
     forall m s, keeps (session_inv least) (HandleMessage h m s)) ->
  reachable handlers y -> frame_ok f -> version f = 0 -> streamid f <> 0 ->
  has_flag f yamux_frame_ack = true -> has_flag f yamux_frame_syn = false ->
  has_flag f yamux_frame_fin = false -> has_flag f yamux_frame_rst = false ->
  yamux_decode handlers (Some Context_Yamux) (frame_wire f ++ data) (12 + zlen data) y
  = Ret ((- EPROTO, None), y).
Proof.
  intros Hh Hr Hf Hv Hid Hack Hsyn Hfin Hrst. pose proof (reachable_ok _ Hh y Hr) as HI. zlen_facts.
  rewrite decode_stream_frame by (done || lia).
  destruct (find_stream_ok _ y (streamid f) HI (Z.to_nat (cap_streams (y_session y))) 0) as (r & Hfs & Hres); [lia|].
  change (Z.of_nat 0) with 0 in Hfs. rewrite (sbind_ret _ _ _ _ _ Hfs).
  destruct r as [o|]; [|by rewrite Hsyn]. destruct Hres as (ob & Ho & _ & Hst).
  assert (decode_flags o f y = Ret (Some (- EPROTO), y)) as Hd.
  { unfold decode_flags, sbind, read_object. rewrite Ho. cbn [rbind]. by rewrite Hrst, Hfin, Hack, Hst. }
  by rewrite (sbind_ret _ _ _ _ _ Hd).
Qed.
