(* ===== verification/YamuxTraffic.v ===== *)
(** * Channels and what travels on them: theorems

    Opening a channel, a message from one end of a connection to the buffer of the
    other, the frames of a remote that opens a stream, and reads in parts. *)
From S2P Require Import Prelude CState Varint Vector Protocol ThreadsafeBuffer YamuxFrame YamuxState YamuxStream YamuxSession YamuxWrite YamuxInvariant.

(** the fields of an updated state *)
Ltac fields :=
  cbn [set_next set_contexts set_streams set_objects set_session set_trace set_state put_channel put_event
    y_streams y_next y_contexts y_objects y_session y_stream y_state y_am_server y_trace y_channels y_buffered y_buffered_pos].

Section traffic.
Context {M : Malloc} {Hm : MallocOk M} {N : Network}.

(** ** Opening a channel *)
(** the pieces of a new channel: the slot's object [y_next y], the stream and the
    context behind it *)
Definition opened (y : yamux) (id : Z) : yamux :=
  let o := y_next y in let cs := Pos.succ o in let c := Pos.succ cs in
  mkYamux (y_stream y) (y_state y) (y_am_server y) (with_stream y o) (y_channels y)
    (y_buffered y) (y_buffered_pos y)
    (<[cs := mkStream STREAM_TYPE_YAMUX (Some (y_stream y)) (Some (Context_Channel c)) (s32 id)]> (y_streams y))
    (<[c := mkChannel (Some Context_Yamux) cs None id 0 yamux_stream_inited 0 (Some (queue_buffer [])) 0]> (y_contexts y))
    (<[o := mkYStream false false false (Some cs) yamux_stream_inited id YAMUX_DEFAULT_WINDOW]> (y_objects y))
    (Pos.succ c) (y_trace y).

Lemma channel_stream_new_ok y id : connected y -> (y_stream y < y_next y)%positive -> 0 <= id < 2 ^ 32 ->
  let cs := y_next y in let c := Pos.succ cs in
  libp2p_yamux_channel_stream_new (y_stream y) (s32 id) y
  = Ret (Some cs, set_next (Pos.succ c)
      (set_contexts (<[c := mkChannel (Some Context_Yamux) cs None id 0 yamux_stream_inited 0 (Some (queue_buffer [])) 0]> (y_contexts y))
      (set_streams (<[cs := mkStream STREAM_TYPE_YAMUX (Some (y_stream y)) (Some (Context_Channel c)) (s32 id)]> (y_streams y)) y))).
Proof.
  intros (p & ch & Hs) Hlt Hid cs c. unfold libp2p_yamux_channel_stream_new.
  rewrite (sbind_ret _ _ _ _ _ (read_stream_ok _ _ _ Hs)). cbn [stream_context].
  rewrite (sbind_ret (libp2p_yamux_get_context (Some Context_Yamux)) _ y (Some Context_Yamux) y eq_refl).
  rewrite !malloc_always. rewrite (sbind_ret (new_stream _) _ _ _ _ eq_refl).
  rewrite (sbind_ret (sret _) _ _ _ _ eq_refl).
  rewrite (sbind_ret (new_context _) _ _ _ _ eq_refl).
  unfold threadsafe_buffer_context_new. rewrite malloc_always.
  replace (u32 (s32 id)) with id by (unfold u32, s32; rewrite Zminus_mod_idemp_l; replace (id + 2 ^ 31 - 2 ^ 31) with id by lia; by rewrite Z.mod_small).
  unfold write_stream, sbind, read_stream, smod, sret.
  fields. rewrite lookup_insert_eq. cbn [rbind]. fields.
  rewrite insert_insert_eq. reflexivity.
Qed.

Lemma channel_new_ok least y id : session_inv least y -> connected y -> (y_stream y < y_next y)%positive ->
  cap_streams (y_session y) < 256 -> 0 < id < 2 ^ 32 ->
  yamux_channel_new (Some tt) id y = Ret (Some (Pos.succ (y_next y)), opened y id).
Proof.
  intros HI Hy Hlt Hc Hid. pose proof (ok_backlog _ _ HI) as Hb. unfold default_accept_backlog in Hb.
  unfold yamux_channel_new. rewrite (proj2 (Z.eqb_neq _ _)) by lia.
  rewrite (sbind_ret (sret id) _ y id y eq_refl). unfold sbind at 1. rewrite (choose_slot_ok _ _ HI).
  cbv zeta. rewrite (proj2 (Z.eqb_neq _ _)), malloc_always by lia. cbn [rbind].
  set (o := y_next y).
  set (y1 := set_session _ _).
  rewrite (sbind_ret (sget y_stream) _ y1 (y_stream y) y1 eq_refl).
  rewrite (sbind_ret _ _ _ _ _ (channel_stream_new_ok y1 id Hy ltac:(cbn; lia) ltac:(lia))).
  change (y_next y1) with (Pos.succ o). unfold y1, o, opened, with_stream.
  unfold write_object, write_context, nonnull, sbind, read_object, read_stream, read_context, smod, sret.
  fields. rewrite lookup_insert_eq. cbn [rbind].
  fields. rewrite lookup_insert_eq. cbn [rbind stream_context].
  fields. rewrite lookup_insert_eq. cbn [rbind].
  fields. rewrite lookup_insert_eq. cbn [rbind].
  fields. rewrite !insert_insert_eq. reflexivity.
Qed.

(** ** From one end to the other *)
Lemma yamux_write_ok y c cc data : connected y -> channel_at y c cc -> y_state y = yamux_stream_est ->
  zlen data < 2 ^ 32 ->
  let flag := fst (flag_of (cc_state cc)) in
  let y1 := put_channel c (set_cc_state (snd (flag_of (cc_state cc))) cc) y in
  libp2p_yamux_write (Some (Context_Channel c)) (stream_message data) y
  = Ret (net_write (y_trace y) (data_frame flag (cc_channel cc) data),
         put_event (Sent (data_frame flag (cc_channel cc) data)) y1).
Proof.
  intros Hy [Hc Hcy] Hst Hd flag y1. unfold libp2p_yamux_write, libp2p_yamux_get_context. zlen_facts.
  assert ((do! cc0 := read_context c in sret (cc_yamux_context cc0)) y = Ret (Some Context_Yamux, y)) as Hctx.
  { rewrite (sbind_ret _ _ _ _ _ (read_context_ok _ _ _ Hc)), Hcy. reflexivity. }
  rewrite (sbind_ret _ _ _ _ _ Hctx). rewrite (sbind_ret (as_yamux (Some Context_Yamux)) _ y tt y eq_refl).
  rewrite (sbind_ret (sget y_state) _ y _ y eq_refl), Hst. rewrite bool_decide_eq_true_2 by done. cbn [negb].
  assert (libp2p_yamux_prepare_to_send (stream_message data)
    = Ret (Some (mkFrame YAMUX_VERSION yamux_frame_data 0 0 (zlen data), data))) as Hp.
  { unfold libp2p_yamux_prepare_to_send, libp2p_stream_message_new, stream_message. rewrite !malloc_always.
    cbn [sm_data sm_data_size]. change (deref (Some data)) with data. rewrite memrd_all by done. cbn [rbind].
    by rewrite u32_small by lia. }
  unfold slift. rewrite Hp. unfold sbind at 1. cbn [rbind].
  rewrite (sbind_ret (nonnull (Some (_, _))) _ _ _ _ eq_refl).
  rewrite (sbind_ret _ _ _ _ _ (get_flags_ok _ _ _ Hc)). fold flag y1.
  assert (y_contexts y1 !! c = Some (set_cc_state (snd (flag_of (cc_state cc))) cc)) as Hc1
    by (unfold y1; fields; by rewrite lookup_insert_eq).
  assert ((do! cc0 := read_context c in sret (cc_channel cc0)) y1 = Ret (cc_channel cc, y1)) as Hid
    by (by rewrite (sbind_ret _ _ _ _ _ (read_context_ok _ _ _ Hc1))).
  rewrite (sbind_ret _ _ _ _ _ Hid). rewrite encode_frame_object.
  apply (lower_write_ok y1). exact Hy.
Qed.

(** the object [o] of an open stream: its stream is the multistream [m] over the stream of the
    channel [c], whose child [m] is, with [q] in its buffer *)
Definition listening (y : yamux) (o m c : positive) (cc : YamuxChannelContext) (q : bytes) : Prop :=
  exists ob mst s st, y_objects y !! o = Some ob /\ ys_stream ob = Some m /\ y_streams y !! m = Some mst /\
    stream_type mst = STREAM_TYPE_MULTISTREAM /\ parent_stream mst = Some s /\ y_streams y !! s = Some st /\
    stream_type st = STREAM_TYPE_YAMUX /\ stream_context st = Some (Context_Channel c) /\
    y_contexts y !! c = Some cc /\ cc_buffer cc = Some (queue_buffer q) /\ cc_child_stream cc = Some m.

(** the data is in the buffer, and a thread is started for it unless one runs *)
Definition received (y : yamux) (c : positive) (cc : YamuxChannelContext) (q : bytes) : yamux :=
  let y1 := put_channel c (set_cc_buffer (Some (queue_buffer q)) cc) y in
  if cc_read_running cc =? 0 then put_event (Spawned c) y1 else y1.

Lemma deliver_ok handlers y o m c cc q data : listening y o m c cc q -> 0 < zlen data -> zlen q + zlen data < 2 ^ 64 ->
  channel_deliver handlers o data (zlen data) y = Ret (zlen data, received y c cc (q ++ data)).
Proof.
  intros (ob & mst & s & st & Ho & Hs & Hm1 & Hmt & Hmp & Hst & Hty & Hcx & Hc & Hb & Hch) Hd Hq. unfold channel_deliver.
  assert (read_object o y = Ret (ob, y)) as Hro by (unfold read_object; by rewrite Ho).
  rewrite (sbind_ret _ _ _ _ _ Hro), (sbind_ret (sget stream_fuel) _ y _ y eq_refl), Hs.
  assert (yamux_parent (stream_fuel y) (Some m) y = Ret (Some s, y)) as Hp.
  { unfold stream_fuel. destruct (size (y_streams y)) as [|n] eqn:E; [apply map_size_empty_inv in E; by rewrite E in Hst|].
    cbn [yamux_parent]. rewrite (sbind_ret _ _ _ _ _ (read_stream_ok _ _ _ Hm1)), Hmt, Hmp. cbn [yamux_parent].
    change (STREAM_TYPE_MULTISTREAM =? STREAM_TYPE_YAMUX) with false. cbv iota. rewrite (sbind_ret _ _ _ _ _ (read_stream_ok _ _ _ Hst)). by rewrite Hty. }
  rewrite (sbind_ret _ _ _ _ _ Hp). rewrite (sbind_ret (nonnull (Some s)) _ y s y eq_refl).
  rewrite (sbind_ret _ _ _ _ _ (read_stream_ok _ _ _ Hst)), Hcx.
  rewrite (sbind_ret (libp2p_yamux_get_channel_context (Some (Context_Channel c))) _ y (Some c) y eq_refl).
  rewrite (sbind_ret _ _ _ _ _ (read_context_ok _ _ _ Hc)), Hb. zlen_facts.
  unfold slift. rewrite buffer_write_ok by lia. unfold sbind at 1. cbn [rbind].
  rewrite (sbind_ret _ _ _ _ _ (write_context_ok _ _ _ _ Hc)), Hch. rewrite ztake_all by lia.
  set (cc' := set_cc_buffer _ cc). set (y1 := put_channel c cc' y).
  assert (y_contexts y1 !! c = Some cc') as Hc1 by (unfold y1; fields; by rewrite lookup_insert_eq).
  unfold libp2p_yamux_notify_child_stream_has_data, received.
  unfold sbind, sret, log_event, smod. rewrite (read_context_ok _ _ _ Hc1). cbn [rbind].
  change (cc_read_running cc') with (cc_read_running cc). by destruct (cc_read_running cc =? 0).
Qed.

Lemma deliver_null handlers y o ob data n : y_objects y !! o = Some ob -> ys_stream ob = None ->
  channel_deliver handlers o data n y = UB.
Proof.
  intros Ho Hn. unfold channel_deliver. assert (read_object o y = Ret (ob, y)) as Hro by (unfold read_object; by rewrite Ho).
  rewrite (sbind_ret _ _ _ _ _ Hro), (sbind_ret (sget stream_fuel) _ y _ y eq_refl), Hn. reflexivity.
Qed.
Lemma data_frame_null handlers y o ob f data : y_objects y !! o = Some ob -> ys_stream ob = None ->
  frame_type f = yamux_frame_data -> frame_length f = zlen data -> data <> [] ->
  yamux_stream_process handlers o f data (zlen data) y = UB.
Proof.
  intros Ho Hn Ht Hlen Hne. unfold yamux_stream_process. rewrite Ht, Hlen.
  change (yamux_frame_data =? yamux_frame_window_update) with false. change (yamux_frame_data =? yamux_frame_data) with true.
  rewrite Z.eqb_refl. cbn [orb negb andb].
  rewrite (proj2 (Z.eqb_neq _ 0)) by (intros E; apply Hne; by apply zlen_0_nil).
  rewrite (sbind_ret (sret tt) _ y tt y eq_refl). by apply (deliver_null _ _ _ ob).
Qed.

Lemma decode_data_ok handlers y o m c cc q id data : 0 < id < 2 ^ 32 -> 0 < zlen data < 2 ^ 30 - 12 ->
  zlen q + zlen data < 2 ^ 64 ->
  find_stream (Z.to_nat (cap_streams (y_session y))) 0 id y = Ret (Some o, y) -> listening y o m c cc q ->
  yamux_decode handlers (Some Context_Yamux) (data_frame 0 id data) (12 + zlen data) y
  = Ret ((12 + 2 * zlen data, None), received y c cc (q ++ data)).
Proof.
  intros Hid Hd Hq Hfs Hl. unfold data_frame. rewrite decode_stream_frame; [|unfold frame_ok, YAMUX_VERSION, yamux_frame_data; cbn -[zlen]; lia|done|cbn; lia|lia].
  rewrite (sbind_ret _ _ _ _ _ Hfs). set (f := mkFrame _ _ _ _ _).
  pose proof Hl as (ob & _ & _ & _ & Ho & _).
  assert (decode_flags o f y = Ret (None, y)) as Hf.
  { unfold decode_flags, sbind, read_object. rewrite Ho. reflexivity. }
  rewrite (sbind_ret _ _ _ _ _ Hf). replace (12 + zlen data - 12) with (zlen data) by lia.
  assert (yamux_stream_process handlers o f data (zlen data) y = Ret (zlen data, received y c cc (q ++ data))) as Hp.
  { unfold yamux_stream_process. change (frame_type f =? yamux_frame_window_update) with false.
    change (frame_type f =? yamux_frame_data) with true. cbn [orb].
    rewrite (sbind_ret (sret tt) _ y tt y eq_refl). change (frame_length f) with (zlen data).
    rewrite Z.eqb_refl. cbn [negb andb]. rewrite (proj2 (Z.eqb_neq _ 0)) by lia. apply (deliver_ok _ _ _ m); [done|lia|lia]. }
  rewrite (sbind_ret _ _ _ _ _ Hp). rewrite (proj2 (Z.ltb_ge _ _)) by lia.
  unfold sret. rewrite u64_small, s32_small by lia. do 3 f_equal. lia.
Qed.
(** *** A channel with multistream *)
(** the slots of the session before [n] are of other ids, and their streams of other channels *)
Definition other_slot (y : yamux) (id : Z) (i : nat) : Prop :=
  exists slot o ob s st, streams (y_session y) !! i = Some slot /\ ss_stream slot = Ptr o /\ ss_alive slot = 1 /\
    y_objects y !! o = Some ob /\ ys_id ob <> id /\ ys_stream ob = Some s /\ y_streams y !! s = Some st /\ stream_channel st <> s32 id.

Lemma find_skip y id m n i : (forall k, (i <= k < i + n)%nat -> other_slot y id k) ->
  find_stream (n + m) (Z.of_nat i) id y = find_stream m (Z.of_nat (i + n)) id y.
Proof using.
  revert i. induction n as [|n IH]; intros i H; [by rewrite Nat.add_0_r|]. cbn [Nat.add find_stream].
  destruct (H i ltac:(lia)) as (slot & o & ob & s & st & Hsl & Hp & Ha & Ho & Hid & _).
  rewrite (sbind_ret (sget y_session) _ y _ y eq_refl), Nat2Z.id, Hsl. rewrite (sbind_ret (nonnull (Some slot)) _ y slot y eq_refl), Ha, Hp.
  change (1 =? 0) with false. cbv iota. assert (read_object o y = Ret (ob, y)) as Hro by (unfold read_object; by rewrite Ho).
  rewrite (sbind_ret _ _ _ _ _ Hro). replace (Z.of_nat i + 1) with (Z.of_nat (S i)) by lia. rewrite (proj2 (Z.eqb_neq _ _) Hid).
  replace (i + S n)%nat with (S i + n)%nat by lia. rewrite <- IH by (intros k Hk; apply H; lia). by destruct (bool_decide _).
Qed.

Lemma session_stream_skip y id m n i : (forall k, (i <= k < i + n)%nat -> other_slot y id k) ->
  get_session_stream (n + m) (Z.of_nat i) (s32 id) y = get_session_stream m (Z.of_nat (i + n)) (s32 id) y.
Proof using.
  revert i. induction n as [|n IH]; intros i H; [by rewrite Nat.add_0_r|]. cbn [Nat.add get_session_stream].
  destruct (H i ltac:(lia)) as (slot & o & ob & s & st & Hsl & Hp & _ & Ho & _ & Hs & Hst & Hch).
  rewrite (sbind_ret (sget y_session) _ y _ y eq_refl), Nat2Z.id, Hsl. rewrite (sbind_ret (nonnull (Some slot)) _ y slot y eq_refl), Hp.
  assert (read_object o y = Ret (ob, y)) as Hro by (unfold read_object; by rewrite Ho).
  rewrite (sbind_ret _ _ _ _ _ Hro), Hs, (sbind_ret _ _ _ _ _ (read_stream_ok _ _ _ Hst)), (proj2 (Z.eqb_neq _ _) Hch).
  replace (Z.of_nat i + 1) with (Z.of_nat (S i)) by lia. rewrite IH by (intros k Hk; apply H; lia). by replace (S i + n)%nat with (i + S n)%nat by lia.
Qed.

(** the connection has no stream with the id *)
Definition id_unused (y : yamux) (id : Z) : Prop :=
  forall i slot o ob, Z.of_nat i < cap_streams (y_session y) -> streams (y_session y) !! i = Some slot -> ss_stream slot = Ptr o ->
    y_objects y !! o = Some ob ->
    ys_id ob <> id /\ exists s st, ys_stream ob = Some s /\ (s < y_next y)%positive /\ y_streams y !! s = Some st /\ stream_channel st <> s32 id.

(** the other slots after the channel was opened and its object changed *)
Lemma opened_others least y id y' : session_inv least y -> id_unused y id -> cap_streams (y_session y) < 256 ->
  y_session y' = y_session (opened y id) ->
  (forall o, (o < y_next y)%positive -> y_objects y' !! o = y_objects y !! o) ->
  (forall s, (s < y_next y)%positive -> y_streams y' !! s = y_streams y !! s) ->
  forall k, (k < Z.to_nat (cap_streams (y_session y)))%nat -> other_slot y' id k.
Proof using.
  intros HI Hu Hc Hs Ho Hst k Hk. pose proof (ok_cap _ _ HI) as Hcap.
  destruct (session_slot _ y (Z.of_nat k) HI) as (slot & Hsl & Hok); [lia|]. rewrite Nat2Z.id in Hsl, Hok. unfold slot_ok in Hok.
  rewrite (proj2 (Z.ltb_lt _ _)) in Hok by lia. destruct Hok as (Ha & o & ob & Hp & Hob & _).
  destruct (Hu k slot o ob ltac:(lia) Hsl Hp Hob) as (Hid & s & st & Hys & Hlt & Hstr & Hch).
  exists slot, o, ob, s, st. rewrite Hs, Ho, Hst by (done || by eapply ok_fresh). unfold opened, with_stream. fields. cbn [set_slots streams].
  rewrite list_lookup_insert_ne by lia. done.
Qed.

(** the stream over the channel: its state and what it was sent *)
Definition multistream_at (y : yamux) (id : Z) : yamux :=
  let o := y_next y in let cs := Pos.succ o in let c := Pos.succ cs in let m := Pos.succ c in let y1 := opened y id in
  mkYamux (y_stream y) (y_state y) (y_am_server y) (with_stream y o) (y_channels y) (y_buffered y) (y_buffered_pos y)
    (<[m := mkStream STREAM_TYPE_MULTISTREAM (Some cs) (Some (Context_Multistream multistream_status_syn)) (s32 (uninit_uint 32))]> (y_streams y1))
    (<[c := mkChannel (Some Context_Yamux) cs (Some m) id 0 yamux_stream_syn_sent 0 (Some (queue_buffer [])) 0]> (y_contexts y1))
    (<[o := mkYStream false false false (Some m) yamux_stream_inited id YAMUX_DEFAULT_WINDOW]> (y_objects y))
    (Pos.succ m) (y_trace y ++ [Sent (data_frame yamux_frame_syn id (zlen multistream_id :: multistream_id))]).

(** the multistream asks the stream of the channel for an upgrade *)
Lemma upgrade_ok n y s st c cc o ob new : y_streams y !! s = Some st -> stream_context st = Some (Context_Channel c) -> channel_at y c cc ->
  let y1 := put_channel c (set_cc_child (Some new) cc) y in
  yamux_get_session_stream (s32 (cc_channel cc)) y1 = Ret (Some o, y1) -> y_objects y !! o = Some ob ->
  handle_upgrade (S n) s new y = Ret (1, set_objects (<[o := set_ys_stream (Some new) ob]> (y_objects y)) y1).
Proof using.
  intros Hs Hx [Hc Hcy] y1 Hg Ho. cbn [handle_upgrade]. rewrite (sbind_ret _ _ _ _ _ (read_stream_ok _ _ _ Hs)), Hx. unfold libp2p_yamux_handle_upgrade.
  rewrite (sbind_ret _ _ _ _ _ (read_stream_ok _ _ _ Hs)), Hx.
  assert (libp2p_yamux_get_context (Some (Context_Channel c)) y = Ret (Some Context_Yamux, y)) as Hctx.
  { unfold libp2p_yamux_get_context. by rewrite (sbind_ret _ _ _ _ _ (read_context_ok _ _ _ Hc)), Hcy. }
  rewrite (sbind_ret _ _ _ _ _ Hctx). rewrite (sbind_ret (libp2p_yamux_get_channel_context (Some (Context_Channel c))) _ y (Some c) y eq_refl).
  rewrite (sbind_ret _ _ _ _ _ (read_context_ok _ _ _ Hc)), (sbind_ret _ _ _ _ _ (write_context_ok _ _ _ _ Hc)), Hcy. fold y1.
  rewrite (sbind_ret (as_yamux (Some Context_Yamux)) _ y1 tt y1 eq_refl), (sbind_ret _ _ _ _ _ Hg).
  unfold write_object, sbind, read_object, smod, sret. change (y_objects y1) with (y_objects y). rewrite Ho. cbn [rbind].
  change (y_objects y1) with (y_objects y). by rewrite Ho.
Qed.

(** the name of multistream goes out on the channel, with the flag of its opening *)
Lemma negotiate_ok y m mst s st c cc : (forall t b, net_write t b <> 0) -> connected y -> channel_at y c cc -> y_state y = yamux_stream_est ->
  y_streams y !! m = Some mst -> parent_stream mst = Some s -> y_streams y !! s = Some st -> stream_context st = Some (Context_Channel c) ->
  let flag := flag_of (cc_state cc) in
  libp2p_net_multistream_negotiate m false y =
    Ret (1, set_streams (<[m := set_context (Some (Context_Multistream multistream_status_syn)) mst]> (y_streams y))
      (put_event (Sent (data_frame (fst flag) (cc_channel cc) (zlen multistream_id :: multistream_id))) (put_channel c (set_cc_state (snd flag) cc) y))).
Proof using Hm.
  intros Hnet Hy Hc Hst Hms Hp Hs Hx flag. unfold libp2p_net_multistream_negotiate. rewrite (sbind_ret _ _ _ _ _ (read_stream_ok _ _ _ Hms)).
  set (y1 := put_event _ _).
  assert (exists r, libp2p_net_multistream_write_without_check write_to mst (stream_message multistream_id) y = Ret (r, y1) /\ r <> 0) as (r & Hr & Hr0).
  { unfold libp2p_net_multistream_write_without_check. change (0 <? sm_data_size (stream_message multistream_id)) with true. cbv iota.
    assert (libp2p_net_multistream_prepare_to_send (stream_message multistream_id) = Ret (Some (stream_message (zlen multistream_id :: multistream_id)))) as E
      by (unfold libp2p_net_multistream_prepare_to_send, libp2p_stream_message_new; rewrite malloc_always; cbv -[malloc_ok]; by rewrite malloc_always).
    unfold slift. rewrite E. unfold sbind at 1. cbn [rbind]. rewrite (sbind_ret (nonnull (Some _)) _ y _ y eq_refl), Hp, (sbind_ret (nonnull (Some s)) _ y s y eq_refl).
    assert (write_to s (stream_message (zlen multistream_id :: multistream_id)) y =
      Ret (net_write (y_trace y) (data_frame (fst flag) (cc_channel cc) (zlen multistream_id :: multistream_id)), y1)) as Hw.
    { unfold write_to, stream_fuel. cbn [stream_write]. rewrite (sbind_ret _ _ _ _ _ (read_stream_ok _ _ _ Hs)), Hx. apply yamux_write_ok; done. }
    rewrite (sbind_ret _ _ _ _ _ Hw). eexists. split; [reflexivity|]. destruct (_ =? _); [done|apply Hnet]. }
  rewrite (sbind_ret _ _ _ _ _ Hr), (proj2 (Z.eqb_neq _ _) Hr0). unfold write_stream, sbind, read_stream, smod, sret.
  change (y_streams y1) with (y_streams y). by rewrite Hms.
Qed.

(** the search for the stream with the id ends at the new slot *)
Lemma new_slot_found y id y' s st : y_session y' = y_session (opened y id) -> 0 <= cap_streams (y_session y) < zlen (streams (y_session y)) ->
  (forall k, (k < Z.to_nat (cap_streams (y_session y)))%nat -> other_slot y' id k) ->
  y_objects y' !! y_next y = Some (mkYStream false false false (Some s) yamux_stream_inited id YAMUX_DEFAULT_WINDOW) -> y_streams y' !! s = Some st ->
  find_stream (Z.to_nat (cap_streams (y_session y'))) 0 id y' = Ret (Some (y_next y), y') /\
  (stream_channel st = s32 id -> yamux_get_session_stream (s32 id) y' = Ret (Some (y_next y), y')).
Proof using.
  intros Hs Hc Hothers Ho Hst. set (n := Z.to_nat (cap_streams (y_session y))) in *.
  assert (cap_streams (y_session y') = cap_streams (y_session y) + 1) as Hcap by (by rewrite Hs).
  assert (streams (y_session y') !! n = Some (mkSlot (Ptr (y_next y)) 1)) as Hsl
    by (rewrite Hs; unfold opened, with_stream; fields; cbn [set_slots streams]; apply list_lookup_insert_eq; unfold zlen in Hc; lia).
  assert (read_object (y_next y) y' = Ret (mkYStream false false false (Some s) yamux_stream_inited id YAMUX_DEFAULT_WINDOW, y')) as Hro by (unfold read_object; by rewrite Ho).
  unfold yamux_get_session_stream. rewrite (sbind_ret (sget y_session) _ y' _ y' eq_refl), Hcap.
  replace (Z.to_nat (cap_streams (y_session y) + 1)) with (n + 1)%nat by (unfold n; lia). split.
  - pose proof (find_skip y' id 1 n 0 ltac:(intros k Hk; apply Hothers; lia)) as E. change (Z.of_nat 0) with 0 in E. rewrite E. cbn [find_stream Nat.add].
    rewrite (sbind_ret (sget y_session) _ y' _ y' eq_refl), Nat2Z.id, Hsl, (sbind_ret (nonnull (Some _)) _ y' _ y' eq_refl). cbn [ss_alive ss_stream].
    change (1 =? 0) with false. cbv iota. rewrite (sbind_ret _ _ _ _ _ Hro). cbn [ys_state ys_id]. by rewrite Z.eqb_refl.
  - intros Hch. pose proof (session_stream_skip y' id 1 n 0 ltac:(intros k Hk; apply Hothers; lia)) as E. change (Z.of_nat 0) with 0 in E. rewrite E.
    cbn [get_session_stream Nat.add]. rewrite (sbind_ret (sget y_session) _ y' _ y' eq_refl), Nat2Z.id, Hsl, (sbind_ret (nonnull (Some _)) _ y' _ y' eq_refl).
    cbn [ss_stream]. rewrite (sbind_ret _ _ _ _ _ Hro). cbn [ys_stream]. rewrite (sbind_ret _ _ _ _ _ (read_stream_ok _ _ _ Hst)), Hch. by rewrite Z.eqb_refl.
Qed.

Lemma yamux_eq y y' : y_stream y = y_stream y' -> y_state y = y_state y' -> y_am_server y = y_am_server y' -> y_session y = y_session y' ->
  y_channels y = y_channels y' -> y_buffered y = y_buffered y' -> y_buffered_pos y = y_buffered_pos y' -> y_streams y = y_streams y' ->
  y_contexts y = y_contexts y' -> y_objects y = y_objects y' -> y_next y = y_next y' -> y_trace y = y_trace y' -> y = y'.
Proof using. destruct y, y'. cbn. by intros -> -> -> -> -> -> -> -> -> -> -> ->. Qed.

(** a multistream on the new channel *)
Lemma multistream_new_ok least y id : (forall t b, net_write t b <> 0) -> session_inv least y -> connected y -> (y_stream y < y_next y)%positive ->
  y_state y = yamux_stream_est -> cap_streams (y_session y) < 256 -> 0 < id < 2 ^ 32 -> id_unused y id ->
  libp2p_net_multistream_stream_new (Pos.succ (y_next y)) false (opened y id) =
    Ret (Some (Pos.succ (Pos.succ (Pos.succ (y_next y)))), multistream_at y id).
Proof using Hm.
  intros Hnet HI Hy Hlt Hest Hc Hid Hu. pose proof (ok_cap _ _ HI) as Hcap. pose proof (ok_backlog _ _ HI) as Hb. unfold default_accept_backlog in Hb.
  set (o := y_next y). set (cs := Pos.succ o). set (c := Pos.succ cs). set (m := Pos.succ c).
  unfold libp2p_net_multistream_stream_new. rewrite !malloc_always.
  assert (y_streams (opened y id) !! cs = Some (mkStream STREAM_TYPE_YAMUX (Some (y_stream y)) (Some (Context_Channel c)) (s32 id))) as Hcs
    by (unfold opened; fields; apply lookup_insert_eq).
  rewrite (sbind_ret _ _ _ _ _ (read_stream_ok _ _ _ Hcs)). rewrite (sbind_ret (new_stream _) _ _ _ _ eq_refl). cbn [opened y_next]. fold o cs c m.
  set (mst := mkStream STREAM_TYPE_MULTISTREAM (Some cs) None (s32 (uninit_uint 32))).
  set (y1 := set_next _ (set_streams _ (opened y id))).
  assert (y_streams y1 !! m = Some mst) as Hms by (unfold y1; fields; apply lookup_insert_eq).
  rewrite (sbind_ret _ _ _ _ _ (read_stream_ok _ _ _ Hms)).
  set (mst' := set_context (Some (Context_Multistream multistream_status_initialized)) mst).
  assert (write_stream m mst' y1 = Ret (tt, set_streams (<[m := mst']> (y_streams y1)) y1)) as Hw by (unfold write_stream, sbind, read_stream; by rewrite Hms).
  rewrite (sbind_ret _ _ _ _ _ Hw). set (y2 := set_streams _ y1). rewrite (sbind_ret (sget stream_fuel) _ y2 _ y2 eq_refl).
  assert (y_streams y2 !! cs = Some (mkStream STREAM_TYPE_YAMUX (Some (y_stream y)) (Some (Context_Channel c)) (s32 id))) as Hcs2
    by (unfold y2, y1; fields; rewrite !lookup_insert_ne by lia; exact Hcs).
  set (cc := mkChannel (Some Context_Yamux) cs None id 0 yamux_stream_inited 0 (Some (queue_buffer [])) 0).
  assert (channel_at y2 c cc) as Hcc by (split; [unfold y2, y1, opened; fields; apply lookup_insert_eq|done]).
  assert (y_objects y2 !! o = Some (mkYStream false false false (Some cs) yamux_stream_inited id YAMUX_DEFAULT_WINDOW)) as Ho
    by (unfold y2, y1, opened; fields; apply lookup_insert_eq).
  assert (forall k, (k < Z.to_nat (cap_streams (y_session y)))%nat -> other_slot (put_channel c (set_cc_child (Some m) cc) y2) id k) as Hothers.
  { eapply (opened_others _ y id _ HI Hu Hc); [reflexivity|..].
    - intros o' Ho'. unfold y2, y1, opened. fields. by rewrite lookup_insert_ne by (fold o in Ho'; lia).
    - intros s' Hs'. fold o in Hs'. unfold y2, y1, opened. fields. by rewrite !lookup_insert_ne by (unfold m, c, cs; lia). }
  assert (yamux_get_session_stream (s32 (cc_channel cc)) (put_channel c (set_cc_child (Some m) cc) y2) = Ret (Some o, put_channel c (set_cc_child (Some m) cc) y2)) as Hg.
  { refine (proj2 (new_slot_found y id (put_channel c (set_cc_child (Some m) cc) y2) cs _ _ _ Hothers Ho Hcs2) eq_refl); [reflexivity|rewrite (ok_length _ _ HI); lia]. }
  unfold stream_fuel. rewrite (sbind_ret _ _ _ _ _ (upgrade_ok (size (y_streams y2)) y2 cs _ c cc o _ m Hcs2 eq_refl Hcc Hg Ho)).
  set (y3 := set_objects _ _). set (cc3 := set_cc_child (Some m) cc).
  rewrite (sbind_ret (libp2p_net_multistream_negotiate m false) _ _ _ _ (negotiate_ok y3 m mst' cs _ c cc3 Hnet ltac:(destruct Hy as (p & ch & Hs); exists p, ch;
    unfold y3, y2, y1, opened; fields; by rewrite !lookup_insert_ne by (unfold m, c, cs, o; lia))
    ltac:(apply channel_at_put; reflexivity) Hest ltac:(unfold y3, y2; fields; apply lookup_insert_eq) eq_refl Hcs2 eq_refl)).
  change (1 =? 0) with false. cbv iota. unfold sret. do 2 f_equal. apply yamux_eq; unfold y3, y2, y1, multistream_at, opened; fold o cs c m; fields; by rewrite ?insert_insert_eq.
Qed.

(** the new multistream is listening *)
Lemma multistream_listening least y id : session_inv least y -> cap_streams (y_session y) < 256 -> id_unused y id ->
  let cs := Pos.succ (y_next y) in let c := Pos.succ cs in let m := Pos.succ c in let y' := multistream_at y id in
  find_stream (Z.to_nat (cap_streams (y_session y'))) 0 id y' = Ret (Some (y_next y), y') /\
  listening y' (y_next y) m c (mkChannel (Some Context_Yamux) cs (Some m) id 0 yamux_stream_syn_sent 0 (Some (queue_buffer [])) 0) [].
Proof using.
  intros HI Hc Hu cs c m y'. pose proof (ok_cap _ _ HI) as Hcap. pose proof (ok_backlog _ _ HI) as Hb. unfold default_accept_backlog in Hb.
  assert (y_objects y' !! y_next y = Some (mkYStream false false false (Some m) yamux_stream_inited id YAMUX_DEFAULT_WINDOW)) as Ho by apply lookup_insert_eq.
  assert (y_streams y' !! m = Some (mkStream STREAM_TYPE_MULTISTREAM (Some cs) (Some (Context_Multistream multistream_status_syn)) (s32 (uninit_uint 32)))) as Hms by apply lookup_insert_eq.
  split.
  - refine (proj1 (new_slot_found y id y' m _ _ _ _ Ho Hms)); [reflexivity|rewrite (ok_length _ _ HI); lia|].
    eapply (opened_others _ y id _ HI Hu Hc); [reflexivity|..].
    + intros o' Ho'. unfold y', multistream_at. fields. by rewrite lookup_insert_ne by lia.
    + intros s' Hs'. unfold y', multistream_at, opened. fields. by rewrite !lookup_insert_ne by lia.
  - eexists _, _, cs, _. split; [exact Ho|]. split; [reflexivity|]. split; [exact Hms|]. split; [reflexivity|]. split; [reflexivity|].
    split; [unfold y', multistream_at, opened; fields; rewrite lookup_insert_ne by (unfold m, c; lia); apply lookup_insert_eq|].
    split; [reflexivity|]. split; [reflexivity|]. split; [unfold y', multistream_at; fields; apply lookup_insert_eq|]. by split.
Qed.

(** ** Messages one after the other *)
(** the messages are written; the frames are taken from the network *)
Fixpoint write_messages (c : positive) (messages : list bytes) : Y unit :=
  match messages with
  | [] => sret tt
  | d :: l => do! _ := libp2p_yamux_write (Some (Context_Channel c)) (stream_message d) in write_messages c l
  end.
Fixpoint decode_all (handlers : option (vector (Libp2pProtocolHandler yamux positive))) (frames : list bytes) : Y (list Z) :=
  match frames with
  | [] => sret []
  | b :: l => do! (r, _) := yamux_decode handlers (Some Context_Yamux) b (zlen b) in do! rs := decode_all handlers l in sret (r :: rs)
  end.

Lemma write_messages_ok c messages : Forall (fun d => zlen d < 2 ^ 32) messages -> forall y cc, connected y -> channel_at y c cc -> y_state y = yamux_stream_est ->
  cc_state cc <> yamux_stream_inited -> cc_state cc <> yamux_stream_syn_recv ->
  exists y', write_messages c messages y = Ret (tt, y') /\ y_trace y' = y_trace y ++ (Sent ∘ data_frame 0 (cc_channel cc) <$> messages).
Proof using Hm.
  induction 1 as [|d l Hd _ IH]; intros y cc Hy Hc Hst H1 H2; [exists y; by rewrite app_nil_r|]. cbn [write_messages].
  assert (flag_of (cc_state cc) = (0, cc_state cc)) as Hf by (by destruct (cc_state cc)).
  rewrite (sbind_ret _ _ _ _ _ (yamux_write_ok y c cc d Hy Hc Hst Hd)), Hf. cbn [fst snd].
  destruct (IH (put_event (Sent (data_frame 0 (cc_channel cc) d)) (put_channel c (set_cc_state (cc_state cc) cc) y)) (set_cc_state (cc_state cc) cc)) as (y' & Hw & Ht); try done.
  { apply channel_at_put. apply Hc. }
  exists y'. split; [exact Hw|]. rewrite Ht. cbn [put_event set_trace y_trace put_channel set_contexts fmap list_fmap cc_channel set_cc_state]. by rewrite <- app_assoc.
Qed.

(** what stays when a message has been received *)
Lemma received_fields y c cc q : let y' := received y c cc q in
  y_objects y' = y_objects y /\ y_streams y' = y_streams y /\ y_session y' = y_session y /\
  y_contexts y' = <[c := set_cc_buffer (Some (queue_buffer q)) cc]> (y_contexts y) /\
  y_trace y' = y_trace y ++ (if cc_read_running cc =? 0 then [Spawned c] else []).
Proof using. unfold received. destruct (_ =? 0); repeat split. cbn. by rewrite app_nil_r. Qed.

Lemma listening_received y o m c cc q q' : listening y o m c cc q ->
  listening (received y c cc q') o m c (set_cc_buffer (Some (queue_buffer q')) cc) q'.
Proof using.
  intros (ob & mst & s & st & H). exists ob, mst, s, st. destruct (received_fields y c cc q') as (-> & -> & _ & -> & _). rewrite lookup_insert_eq.
  decompose [and] H. by split_and!.
Qed.

Lemma find_stream_same y y' id : y_session y' = y_session y -> y_objects y' = y_objects y -> forall n i o,
  find_stream n i id y = Ret (o, y) -> find_stream n i id y' = Ret (o, y').
Proof using.
  intros Hs Ho. induction n as [|n IH]; intros i o; [by intros [= <-]|]. cbn [find_stream]. unfold sbind, sget, nonnull, read_object, sret, sundef in *. cbn [rbind].
  rewrite Hs. destruct (streams (y_session y) !! Z.to_nat i) as [slot|]; [|done]. cbn [rbind]. destruct (ss_alive slot =? 0); [apply IH|].
  destruct (ss_stream slot) as [| |p]; [done..|]. rewrite Ho. destruct (y_objects y !! p) as [ob|]; [|done]. cbn [rbind].
  destruct (bool_decide _); [apply IH|]. destruct (ys_id ob =? id); [by intros [= <-]|apply IH].
Qed.

Lemma decode_all_ok handlers id o m c messages : 0 < id < 2 ^ 32 -> Forall (fun d => 0 < zlen d < 2 ^ 30 - 12) messages -> forall y cc q,
  zlen q + zlen (concat messages) < 2 ^ 64 -> cc_read_running cc = 0 ->
  find_stream (Z.to_nat (cap_streams (y_session y))) 0 id y = Ret (Some o, y) -> listening y o m c cc q ->
  exists y' cc', decode_all handlers (data_frame 0 id <$> messages) y = Ret ((fun d => 12 + 2 * zlen d) <$> messages, y') /\
    listening y' o m c cc' (q ++ concat messages) /\ y_trace y' = y_trace y ++ replicate (length messages) (Spawned c).
Proof using Hm.
  intros Hid. induction 1 as [|d l Hd _ IH]; intros y cc q Hq Hrun Hf Hl; [exists y, cc; by rewrite !app_nil_r|]. cbn [fmap list_fmap decode_all concat] in *.
  rewrite zlen_app in Hq. zlen_facts. replace (zlen (data_frame 0 id d)) with (12 + zlen d) by (unfold data_frame; by rewrite zlen_app, zlen_frame_wire).
  rewrite (sbind_ret _ _ _ _ _ (decode_data_ok handlers y o m c cc q id d Hid Hd ltac:(lia) Hf Hl)).
  destruct (received_fields y c cc (q ++ d)) as (Ho & _ & Hs & _ & Ht). rewrite Hrun in Ht. change (0 =? 0) with true in Ht. cbv iota in Ht.
  destruct (IH (received y c cc (q ++ d)) (set_cc_buffer (Some (queue_buffer (q ++ d))) cc) (q ++ d)) as (y' & cc' & Hd' & Hl' & Ht').
  - rewrite zlen_app. lia.
  - exact Hrun.
  - rewrite Hs. by apply (find_stream_same y).
  - by eapply listening_received.
  - exists y', cc'. rewrite (sbind_ret _ _ _ _ _ Hd'). split; [done|]. rewrite app_assoc. split; [done|]. rewrite Ht', Ht, <- app_assoc. done.
Qed.
End traffic.

(** Property C22.  What is written to a channel arrives on it.  A connection opens a channel and
    starts multistream on it, as the dialer does: the channel's stream and its child are then
    one multistream, which hears for the channel.  Any messages the other end writes to
    the channel of that id, once no flag is due, go out as one data frame each; taken from
    the network one after the other they are appended to the channel's buffer in their
    order, each wakes the child, and each counts for its frame and twice its length. *)
Theorem data_delivered {M : Malloc} {Hm : MallocOk M} {N : Network}
    (handlers : option (vector (Libp2pProtocolHandler yamux positive)))
    (least : Z) (ys y : yamux) (c : positive) (cc : YamuxChannelContext) (id : Z) (messages : list bytes) :
  connected ys -> channel_at ys c cc -> y_state ys = yamux_stream_est ->
  cc_state cc <> yamux_stream_inited -> cc_state cc <> yamux_stream_syn_recv -> cc_channel cc = id ->
  session_inv least y -> connected y -> (y_stream y < y_next y)%positive -> y_state y = yamux_stream_est -> cap_streams (y_session y) < 256 ->
  0 < id < 2 ^ 32 -> id_unused y id -> (forall trace b, net_write trace b <> 0) ->
  Forall (fun d => 0 < zlen d < 2 ^ 30 - 12) messages -> zlen (concat messages) < 2 ^ 64 ->
  exists cs y1 m yr, yamux_channel_new (Some tt) id y = Ret (Some cs, y1) /\ libp2p_net_multistream_stream_new cs false y1 = Ret (Some m, yr) /\
  exists frames ys' yr' o cr ccr, write_messages c messages ys = Ret (tt, ys') /\ y_trace ys' = y_trace ys ++ (Sent <$> frames) /\
    decode_all handlers frames yr = Ret ((fun d => 12 + 2 * zlen d) <$> messages, yr') /\
    listening yr' o m cr ccr (concat messages) /\ y_trace yr' = y_trace yr ++ replicate (length messages) (Spawned cr).
Proof.
  intros Hys Hcc Hst Hs1 Hs2 Hch HI Hy Hlt Hest Hcap Hid Hu Hnet Hms Hlen. exists (Pos.succ (y_next y)), (opened y id). eexists _, (multistream_at y id).
  split; [eapply channel_new_ok; done|]. split; [eapply multistream_new_ok; done|].
  destruct (write_messages_ok c messages ltac:(eapply Forall_impl; [exact Hms|cbn; lia]) ys cc Hys Hcc Hst Hs1 Hs2) as (ys' & Hw & Ht).
  destruct (multistream_listening least y id HI Hcap Hu) as [Hf Hl].
  edestruct (fun Hr => decode_all_ok handlers id (y_next y) _ _ messages Hid Hms _ _ [] Hlen Hr Hf Hl) as (yr' & ccr & Hd & Hl' & Ht'); [done|].
  exists (data_frame 0 id <$> messages), ys', yr'. eexists _, _, ccr. split; [exact Hw|]. split; [rewrite Ht, Hch, <- list_fmap_compose; done|].
  split; [exact Hd|]. split; [exact Hl'|exact Ht'].
Qed.

(** a connection that has read the name of yamux *)
Definition net_yamux : Network :=
  {| net_write := fun _ data => 1; net_read := fun _ => (13, Some (yamux_id ++ [0]));
     net_read_raw := fun _ _ => (0, []); net_clock := fun _ => Some (10, 500) |}.
Definition established : yamux :=
  snd (the (0, None, no_connection) (libp2p_yamux_read (M := malloc_total) (N := net_yamux) None (Some Context_Yamux) None (connection 1))).

(** one that has opened channel 7 and has asked for multistream on it *)
Definition sender : yamux :=
  snd (the (None, established) (sbind (yamux_channel_new (M := malloc_total) (Some tt) 7) (fun cs =>
    libp2p_net_multistream_stream_new (M := malloc_total) (N := net_yamux) (default 1%positive cs) false) established)).

Lemma data_delivered_witness :
  exists cs y1 m yr, yamux_channel_new (M := malloc_total) (Some tt) 7 established = Ret (Some cs, y1) /\
    libp2p_net_multistream_stream_new (M := malloc_total) (N := net_yamux) cs false y1 = Ret (Some m, yr) /\
  exists frames ys' yr' c, write_messages (M := malloc_total) (N := net_yamux) 5 [[1; 2; 3]; [9]] sender = Ret (tt, ys') /\
    decode_all (M := malloc_total) (N := net_yamux) None frames yr = Ret ([18; 14], yr') /\
    (y_contexts yr' !! c ≫= cc_buffer) = Some (mkBuffer 4 (Some [1; 2; 3; 9])).
Proof.
  destruct (data_delivered (M := malloc_total) (N := net_yamux) None 0 sender established 5
    (mkChannel (Some Context_Yamux) 4 (Some 6%positive) 7 0 yamux_stream_syn_sent 0 (Some (mkBuffer 0 None)) 0) 7 [[1; 2; 3]; [9]])
    as (cs & y1 & m & yr & H1 & H2 & frames & ys' & yr' & o & cr & ccr & H3 & _ & H4 & Hl & _).
  - exists 1%positive, (-1). vm_compute. reflexivity.
  - split; [vm_compute; reflexivity|reflexivity].
  - vm_compute. reflexivity.
  - discriminate.
  - discriminate.
  - reflexivity.
  - assert (session_inv 0 (connection 1)) as HI by (apply (reachable_ok (M := malloc_total) (N := net_total) None ltac:(discriminate)), connection_reachable; by right).
    eapply session_ok_same; [| | |exact HI]; [vm_compute; reflexivity..|vm_compute; discriminate].
  - eexists _, _. vm_compute. reflexivity.
  - vm_compute. reflexivity.
  - vm_compute. reflexivity.
  - vm_compute. reflexivity.
  - lia.
  - intros i slot o ob Hi. vm_compute in Hi. destruct i; discriminate.
  - discriminate.
  - repeat constructor.
  - reflexivity.
  - exists cs, y1, m, yr. split; [exact H1|]. split; [exact H2|]. exists frames, ys', yr', cr. split; [exact H3|]. split; [exact H4|].
    destruct Hl as (ob & mst & s & st & _ & _ & _ & _ & _ & _ & _ & _ & Hc & Hb & _). rewrite Hc. exact Hb.
Defined.

(**  Opening a channel, for a connection with room for one more: the
    channel gets the id that was asked for, or the next id of the session, which
    then grows by two; the next slot of the array is alive with a new object of
    that id and the default window, and the channel itself is initial, with an empty
    buffer and a window of 0.  Nothing is sent. *)
Lemma channel_new_spec {M : Malloc} {Hm : MallocOk M} {N : Network}
    (handlers : option (vector (Libp2pProtocolHandler yamux positive))) (y : yamux) (id : Z) :
  (forall least v h, handlers = Some v -> Some h ∈ v_items v ->
     forall m s, keeps (session_inv least) (HandleMessage h m s)) ->
  reachable handlers y -> connected y -> (y_stream y < y_next y)%positive ->
  let s := y_session y in
  cap_streams s < 256 -> 0 <= id < 2 ^ 32 -> 0 < nextid s < 2 ^ 32 - 2 ->
  let new_id := if id =? 0 then nextid s else id in
  exists cs c o y', yamux_channel_new (Some tt) id y = Ret (Some cs, y') /\
    cap_streams (y_session y') = cap_streams s + 1 /\
    nextid (y_session y') = (if id =? 0 then nextid s + 2 else nextid s) /\
    streams (y_session y') !! Z.to_nat (cap_streams s) = Some (mkSlot (Ptr o) 1) /\
    y_objects y' !! o = Some (mkYStream false false false (Some cs) yamux_stream_inited new_id YAMUX_DEFAULT_WINDOW) /\
    y_streams y' !! cs = Some (mkStream STREAM_TYPE_YAMUX (Some (y_stream y)) (Some (Context_Channel c)) (s32 new_id)) /\
    y_contexts y' !! c = Some (mkChannel (Some Context_Yamux) cs None new_id 0 yamux_stream_inited 0 (Some (mkBuffer 0 None)) 0) /\
    y_trace y' = y_trace y.
Proof.
  intros Hh Hr Hy Hlt s Hc Hid Hn new_id. pose proof (reachable_ok _ Hh y Hr) as HI.
  set (y1 := if id =? 0 then set_session (set_nextid (u32 (nextid s + 2)) s) y else y).
  assert (yamux_channel_new (Some tt) id y = yamux_channel_new (Some tt) new_id y1) as ->.
  { unfold yamux_channel_new, new_id, y1. destruct (Z.eqb_spec id 0) as [->|Hne].
    - rewrite (proj2 (Z.eqb_neq (nextid s) 0)) by lia. reflexivity.
    - by rewrite (proj2 (Z.eqb_neq id 0)) by done. }
  assert (session_inv 0 y1) as HI1 by (unfold y1; destruct (id =? 0); [by apply session_ok_session|done]).
  assert (cap_streams (y_session y1) = cap_streams s) as Hcap by (unfold y1; by destruct (id =? 0)).
  assert (y_next y1 = y_next y /\ y_stream y1 = y_stream y /\ y_trace y1 = y_trace y) as (Hy1 & Hy2 & Hy3)
    by (unfold y1; by destruct (id =? 0)).
  assert (0 < new_id < 2 ^ 32) as Hnew by (unfold new_id; destruct (Z.eqb_spec id 0); lia).
  exists (Pos.succ (y_next y1)), (Pos.succ (Pos.succ (y_next y1))), (y_next y1), (opened y1 new_id).
  split; [eapply channel_new_ok; [exact HI1| |rewrite Hy1, Hy2; exact Hlt|rewrite Hcap; exact Hc|exact Hnew]|].
  { destruct Hy as (p & ch & Hs). exists p, ch. rewrite Hy2. unfold y1. by destruct (id =? 0). }
  pose proof (ok_cap _ _ HI1) as Hcb. pose proof (ok_length _ _ HI1) as Hlen. pose proof (ok_backlog _ _ HI1) as Hb.
  unfold default_accept_backlog in Hb. unfold opened, with_stream. fields.
  cbn [set_slots cap_streams streams nextid]. rewrite Hcap, !lookup_insert_eq, Hy2, Hy3.
  rewrite list_lookup_insert_eq by (unfold zlen in Hlen; lia).
  split; [done|]. split; [|done]. unfold y1. destruct (id =? 0); [|done].
  cbn [set_session y_session set_nextid nextid]. apply u32_small. lia.
Qed.

(** ** A remote that opens a stream *)
Section remote.
Context {M : Malloc} {Hm : MallocOk M} {N : Network}.
Variable handlers : option (vector (Libp2pProtocolHandler yamux positive)).

(** the ids the other end may choose: even ones from a server, odd ones from a client *)
Definition remote_id (y : yamux) (id : Z) : bool :=
  ((id mod 2 =? 0) && (y_am_server y =? 0)) || ((id mod 2 =? 1) && negb (y_am_server y =? 0)).

Lemma pull_message_ok f data : exists r m,
  yamux_pull_message_from_frame (frame_wire f ++ data) (12 + zlen data) = Ret (r, m).
Proof.
  unfold yamux_pull_message_from_frame, libp2p_stream_message_new. zlen_facts.
  destruct (12 + zlen data <=? 12); [by eauto|]. rewrite !malloc_always. unfold sizeof_yamux_frame.
  rewrite padd_app by done. cbn [rbind]. rewrite memrd_all by lia. cbn [rbind]. eauto.
Qed.

Lemma decode_unknown y f data : frame_ok f -> version f = 0 -> streamid f <> 0 -> has_flag f yamux_frame_syn = true ->
  find_stream (Z.to_nat (cap_streams (y_session y))) 0 (streamid f) y = Ret (None, y) ->
  exists m, yamux_decode handlers (Some Context_Yamux) (frame_wire f ++ data) (12 + zlen data) y
  = (if remote_id y (streamid f)
     then do! r := decode_new handlers f data (zlen data) in sret (r, m)
     else sret (0, m)) y.
Proof.
  intros Hf Hv Hid Hsyn Hfs. destruct (pull_message_ok f data) as (r & m & Hp). exists m. zlen_facts.
  rewrite decode_stream_frame by (done || lia). rewrite (sbind_ret _ _ _ _ _ Hfs), Hsyn.
  unfold slift. rewrite Hp. unfold sbind at 1. cbn [rbind].
  rewrite (sbind_ret (sget y_am_server) _ y _ y eq_refl). fold (remote_id y (streamid f)).
  by replace (12 + zlen data - 12) with (zlen data) by lia.
Qed.

Lemma decode_new_start least y f data n : session_inv least y -> connected y -> (y_stream y < y_next y)%positive ->
  cap_streams (y_session y) < 256 -> 0 < streamid f < 2 ^ 32 ->
  exists y1, zlen (streams (y_session y1)) = 256 /\
    decode_new handlers f data n y =
    (do! _ := nonnull (streams (y_session y1) !! Z.to_nat (streamid f)) in
     do! o := new_object (mkYStream false false false None yamux_stream_syn_recv (streamid f) 0) in
     do! _ := yamux_stream_process handlers o f data n in
     do! cc := read_context (Pos.succ (Pos.succ (y_next y))) in
     do! _ := write_context (Pos.succ (Pos.succ (y_next y))) (set_cc_state yamux_stream_syn_recv cc) in
     do! _ :=
       (if frame_type f =? yamux_frame_window_update then
          do! ob := read_object o in
          yamux_stream_window_update (Some (Pos.succ (Pos.succ (y_next y)))) (s32 (ys_window_size ob))
        else sret 0) in
     do! _ := libp2p_net_multistream_stream_new (Pos.succ (y_next y)) false in
     sret 0) y1.
Proof.
  intros HI Hy Hlt Hc Hid. unfold decode_new.
  rewrite (sbind_ret _ _ _ _ _ (channel_new_ok _ _ _ HI Hy Hlt Hc Hid)).
  set (y0 := opened y (streamid f)).
  assert (y_streams y0 !! Pos.succ (y_next y) = Some (mkStream STREAM_TYPE_YAMUX (Some (y_stream y))
    (Some (Context_Channel (Pos.succ (Pos.succ (y_next y))))) (s32 (streamid f)))) as Hs
    by (unfold y0, opened; fields; by rewrite lookup_insert_eq).
  rewrite (sbind_ret _ _ _ _ _ (read_stream_ok _ _ _ Hs)). cbn [stream_context].
  rewrite (sbind_ret (sret _) _ _ _ _ eq_refl), (sbind_ret (sget y_session) _ y0 _ y0 eq_refl).
  assert (zlen (streams (y_session y0)) = 256) as Hl.
  { pose proof (ok_length _ _ HI) as H1. pose proof (ok_backlog _ _ HI) as H2. unfold default_accept_backlog in H2.
    unfold y0, opened, with_stream. fields. cbn [set_slots streams]. unfold zlen in *. by rewrite length_insert, H1. }
  destruct (new_stream_fn (y_session y0)).
  - rewrite (sbind_ret (log_event _) _ _ _ _ eq_refl).
    exists (put_event NewStreamFn y0). split; [done|]. by rewrite malloc_always.
  - rewrite (sbind_ret (sret _) _ _ _ _ eq_refl). exists y0. split; [done|]. by rewrite malloc_always.
Qed.
End remote.

(**  A SYN frame for a stream the connection does not have: an id that
    is for this end to choose is ignored and changes nothing.  An id of the other end
    opens a channel, but reads the session's array at the id, so that an id from 256
    on is outside of it; and data behind the frame goes to a stream object that has no
    stream, whose context is read through a NULL pointer. *)
Lemma remote_open_undefined {M : Malloc} {Hm : MallocOk M} {N : Network}
    (handlers : option (vector (Libp2pProtocolHandler yamux positive))) (y : yamux) (f : yamux_frame) (data : bytes) :
  (forall least v h, handlers = Some v -> Some h ∈ v_items v ->
     forall m s, keeps (session_inv least) (HandleMessage h m s)) ->
  reachable handlers y -> connected y -> (y_stream y < y_next y)%positive -> cap_streams (y_session y) < 256 ->
  frame_ok f -> version f = 0 -> streamid f <> 0 -> has_flag f yamux_frame_syn = true ->
  find_stream (Z.to_nat (cap_streams (y_session y))) 0 (streamid f) y = Ret (None, y) ->
  let decode := yamux_decode handlers (Some Context_Yamux) (frame_wire f ++ data) (12 + zlen data) y in
  (remote_id y (streamid f) = false -> exists m, decode = Ret ((0, m), y)) /\
  (remote_id y (streamid f) = true -> 256 <= streamid f -> decode = UB) /\
  (remote_id y (streamid f) = true -> frame_type f = yamux_frame_data -> frame_length f = zlen data ->
   data <> [] -> decode = UB).
Proof.
  intros Hh Hr Hy Hlt Hc Hf Hv Hid Hsyn Hfs decode. pose proof (reachable_ok _ Hh y Hr) as HI.
  destruct (decode_unknown handlers y f data Hf Hv Hid Hsyn Hfs) as [m Hd].
  assert (0 < streamid f < 2 ^ 32) as Hsid by (destruct Hf as (_ & _ & _ & ? & _); lia).
  destruct (decode_new_start handlers _ y f data (zlen data) HI Hy Hlt Hc Hsid) as (y1 & Hl & Hn).
  unfold decode. rewrite Hd. split; [intros ->; by exists m|]. split; intros -> Hcase.
  - unfold sbind at 1. rewrite Hn. rewrite lookup_ge_None_2 by (unfold zlen in Hl; lia). done.
  - intros Hlen Hne. unfold sbind at 1. rewrite Hn.
    destruct (streams (y_session y1) !! Z.to_nat (streamid f)); [|done].
    rewrite (sbind_ret (nonnull (Some _)) _ y1 _ y1 eq_refl).
    rewrite (sbind_ret (new_object _) _ _ _ _ eq_refl). unfold sbind at 1.
    erewrite data_frame_null; [reflexivity|fields; apply lookup_insert_eq|done|done|done|done].
Qed.
