(* ===== verification/Peerstore.v ===== *)
(** * The store of peers (libp2p/peer/peerstore.c)

    The peers a node has heard of, as the linked list of entries that is only ever
    appended to: [ps_entries] is the list of the items from [head_entry] to
    [last_entry].  A [struct PeerEntry*] is the position of the entry. *)
From S2P Require Import Prelude Varint Digits Protobuf Base58 CString Hex Multiaddr Peer.

Record PeerEntry := mkPeerEntry { pe_peer : option Libp2pPeer }.
Record Peerstore := mkPeerstore { ps_entries : list PeerEntry }.

Definition sizeof_PeerEntry : Z := 8.
Definition sizeof_Peerstore : Z := 16.

(** a pointer that is NULL or good *)
Definition to_ptr {A} (p : option A) : ptr A := match p with Some a => Ptr a | None => Null end.

(** from the entry at position [i] *)
Fixpoint get_peer_entry_loop (i : nat) (es : list PeerEntry) (peer_id : bytes) (peer_id_size : Z) : res (option nat) :=
  match es with
  | [] => Ret None
  | e :: es =>
    match pe_peer e with
    | None => UB
    | Some peer =>
      if id_size peer =? peer_id_size then
        let! a := memrd peer_id (id_size peer) in
        let! b := memrd (deref (id peer)) (id_size peer) in
        if bool_decide (a = b) then Ret (Some i) else get_peer_entry_loop (S i) es peer_id peer_id_size
      else get_peer_entry_loop (S i) es peer_id peer_id_size
    end
  end.

Definition libp2p_peerstore_get_peer_entry (peerstore : option Peerstore) (peer_id : ptr bytes) (peer_id_size : Z)
  : res (option nat) :=
  match peerstore, peer_id with
  | None, _ | _, Null => Ret None
  | Some ps, _ =>
    if peer_id_size =? 0 then Ret None else get_peer_entry_loop 0 (ps_entries ps) (pderef peer_id) peer_id_size
  end.

(** the peer of an entry *)
Definition entry_peer (ps : Peerstore) (i : nat) : res Libp2pPeer :=
  match ps_entries ps !! i with
  | Some (mkPeerEntry (Some p)) => Ret p
  | _ => UB
  end.

Definition libp2p_peerstore_get_peer (peerstore : option Peerstore) (peer_id : ptr bytes) (peer_id_size : Z)
  : res (option Libp2pPeer) :=
  let! entry := libp2p_peerstore_get_peer_entry peerstore peer_id peer_id_size in
  match entry, peerstore with
  | Some i, Some ps => let! p := entry_peer ps i in Ret (Some p)
  | _, _ => Ret None
  end.

Definition libp2p_peerstore_get_local_peer (peerstore : option Peerstore) : option Libp2pPeer :=
  match peerstore with
  | Some ps => match ps_entries ps with [] => None | e :: _ => pe_peer e end
  | None => None
  end.

Section peerstore.
Context {M : Malloc}.

Definition libp2p_peer_entry_new : option PeerEntry :=
  if malloc_ok sizeof_PeerEntry then Some (mkPeerEntry None) else None.

Definition libp2p_peer_entry_copy (e : PeerEntry) : res (option PeerEntry) :=
  match libp2p_peer_entry_new with
  | None => Ret None
  | Some _ =>
    match pe_peer e with
    | None => UB
    | Some p => let! copy := libp2p_peer_copy p in
      Ret (match copy with None => None | Some _ => Some (mkPeerEntry copy) end)
    end
  end.

Definition libp2p_peerstore_add_peer_entry (ps : Peerstore) (peer_entry : option PeerEntry) : Z * Peerstore :=
  match peer_entry with
  | None => (0, ps)
  | Some e =>
    if malloc_ok sizeof_Libp2pLinkedList then (1, mkPeerstore (ps_entries ps ++ [e])) else (0, ps)
  end.

(** is an address in the list *)
Fixpoint known_address (incoming : MultiAddress) (existing : list (option MultiAddress)) : res bool :=
  match existing with
  | [] => Ret false
  | a :: existing =>
    let! c := multiaddress_compare (Some incoming) a in
    if c =? 0 then Ret true else known_address incoming existing
  end.

(** new addresses go to the front; the second copy is the one that is kept *)
Fixpoint update_addresses_loop (incoming existing : list (option MultiAddress)) : res (list (option MultiAddress)) :=
  match incoming with
  | [] => Ret existing
  | None :: incoming => update_addresses_loop incoming existing
  | Some ma :: incoming =>
    let! known := known_address ma existing in
    if known : bool then update_addresses_loop incoming existing
    else
      let! ma_copy := multiaddress_copy (Some ma) in
      match ma_copy with
      | None => update_addresses_loop incoming existing
      | Some _ =>
        if malloc_ok sizeof_Libp2pLinkedList then
          let! item := multiaddress_copy (Some ma) in update_addresses_loop incoming (item :: existing)
        else UB
      end
  end.

Definition libp2p_peerstore_update_addresses (existing incoming : Libp2pPeer) : res (Z * Libp2pPeer) :=
  let! l := update_addresses_loop (addr_head incoming) (addr_head existing) in
  Ret (1, mkPeer (id existing) (id_size existing) l (connection_type existing) (sessionContext existing) (is_local existing)).

(** the id is printed for the log, also where nothing is logged *)
Definition libp2p_peerstore_add_peer (ps : Peerstore) (peer : option Libp2pPeer) : res (Z * Peerstore) :=
  match peer with
  | None => UB
  | Some peer =>
    let! entry := libp2p_peerstore_get_peer_entry (Some ps) (to_ptr (id peer)) (id_size peer) in
    match entry with
    | Some i =>
      let! existing := entry_peer ps i in
      let! (_, existing) := libp2p_peerstore_update_addresses existing peer in
      Ret (1, mkPeerstore (<[i := mkPeerEntry (Some existing)]> (ps_entries ps)))
    | None =>
      if 0 <? id_size peer then
        let! _ := libp2p_peer_id_to_string peer in
        match libp2p_peer_entry_new with
        | None => Ret (0, ps)
        | Some _ =>
          let! copy := libp2p_peer_copy peer in
          match copy with
          | None => Ret (0, ps)
          | Some _ =>
            let! _ := libp2p_peer_id_to_string peer in
            Ret (libp2p_peerstore_add_peer_entry ps (Some (mkPeerEntry copy)))
          end
        end
      else Ret (0, ps)
    end
  end.

Definition libp2p_peerstore_new (local_peer : option Libp2pPeer) : res (option Peerstore) :=
  if malloc_ok sizeof_Peerstore then
    let! (_, ps) := libp2p_peerstore_add_peer (mkPeerstore []) local_peer in Ret (Some ps)
  else Ret None.

(** the temporary peer has the caller's id, and [libp2p_peer_free] frees it *)
Definition libp2p_peerstore_get_or_add_peer_by_id (ps : Peerstore) (peer_id : ptr bytes) (peer_id_size : Z)
  : res (option Libp2pPeer * Peerstore) :=
  if peer_id_size =? 0 then Ret (None, ps)
  else
    let! entry := libp2p_peerstore_get_peer_entry (Some ps) peer_id peer_id_size in
    match entry with
    | Some i => let! p := entry_peer ps i in Ret (Some p, ps)
    | None =>
      match libp2p_peer_new with
      | None => UB
      | Some t =>
        let! i := match peer_id with Ptr b => Ret (Some b) | Null => Ret None | Wild => UB end in
        let temp := mkPeer i peer_id_size (addr_head t) (connection_type t) (sessionContext t) (is_local t) in
        let! (_, ps) := libp2p_peerstore_add_peer ps (Some temp) in
        let peer_id := match peer_id with Null => Null | _ => Wild end in
        let! p := libp2p_peerstore_get_peer (Some ps) peer_id peer_id_size in
        Ret (p, ps)
      end
    end.

Definition libp2p_peerstore_get_or_add_peer (ps : Peerstore) (peer : option Libp2pPeer)
  : res (option Libp2pPeer * Peerstore) :=
  match peer with
  | None => Ret (None, ps)
  | Some p =>
    let! out := libp2p_peerstore_get_peer (Some ps) (to_ptr (id p)) (id_size p) in
    match out with
    | Some out => Ret (Some out, ps)
    | None =>
      let! (r, ps) := libp2p_peerstore_add_peer ps peer in
      if r =? 0 then Ret (None, ps)
      else let! out := libp2p_peerstore_get_peer (Some ps) (to_ptr (id p)) (id_size p) in Ret (out, ps)
    end
  end.
End peerstore.

(** ** What a store holds

    Seen from outside, a store is a finite map from the id of a peer to the bytes of
    its addresses, the latest first. *)

(** the struct of an address with the bytes [b], and a text *)
Definition address_of (b : bytes) (a : MultiAddress) : Prop :=
  exists s rest, ma_string a = Ptr (s ++ 0 :: rest) /\ nonzero s /\
    ma_bytes a = Ptr b /\ ma_bsize a = zlen b /\ 0 < zlen b < 2 ^ 31 /\ is_bytes b.

(** the NULL items left out *)
Definition present (l : list (option MultiAddress)) : list MultiAddress := omap (fun a => a) l.

(** a peer with the id [i] and addresses with the bytes [l] *)
Definition peer_with (i : bytes) (l : list bytes) (p : Libp2pPeer) : Prop :=
  id_size p = zlen i /\ (exists rest, deref (id p) = i ++ rest) /\ Forall2 address_of l (present (addr_head p)) /\
  0 <= connection_type p < 2 ^ 32.

(** an entry of a store: exactly the bytes of the id, and no NULL item *)
Definition entry_with (i : bytes) (l : list bytes) (e : PeerEntry) : Prop :=
  exists p xs, pe_peer e = Some p /\ id p = Some i /\ id_size p = zlen i /\ 0 < zlen i /\
    addr_head p = Some <$> xs /\ Forall2 address_of l xs /\ 0 <= connection_type p < 2 ^ 32.

Definition store_with (ids : list (bytes * list bytes)) (ps : Peerstore) : Prop :=
  Forall2 (fun d e => entry_with (fst d) (snd d) e) ids (ps_entries ps) /\ NoDup (fst <$> ids).

Definition merge_addresses (incoming existing : list bytes) : list bytes :=
  fold_left (fun l b => if bool_decide (b ∈ l) then l else b :: l) incoming existing.

(** the list after a peer was added *)
Fixpoint add_known (i : bytes) (l : list bytes) (ids : list (bytes * list bytes)) : list (bytes * list bytes) :=
  match ids with
  | [] => [(i, l)]
  | (j, k) :: ids => if bool_decide (i = j) then (j, merge_addresses l k) :: ids else (j, k) :: add_known i l ids
  end.
Definition store_map (ids : list (bytes * list bytes)) : gmap bytes (list bytes) := list_to_map ids.

(** the id and the addresses of a peer *)
Definition peer_desc (p : Libp2pPeer) : bytes * list bytes :=
  (peer_id_bytes p, (fun a => pderef (ma_bytes a)) <$> present (addr_head p)).

(** *** Addresses *)
Lemma compare_bytes_spec a b : is_bytes a -> is_bytes b -> length a = length b ->
  forall prea preb, zlen prea = zlen preb -> exists r, compare_bytes (length a) (zlen prea) (prea ++ a) (preb ++ b) = Ret r /\
    (r = 0 <-> a = b).
Proof.
  intros Ha. revert b. induction Ha as [|x a Hx Ha IH]; intros [|y b] Hb Hl prea preb Hp; try done; [by exists 0|].
  apply Forall_cons in Hb as [Hy Hb]. cbn [length compare_bytes]. rewrite Hp.
  rewrite rd_app_mid. cbn [rbind]. rewrite <- Hp, rd_app_mid. cbn [rbind]. destruct (Z.eqb_spec (y - x) 0) as [E|E].
  - assert (y = x) as -> by lia. destruct (IH b Hb ltac:(cbn in Hl; lia) (prea ++ [x]) (preb ++ [x])) as (r & Hr & Hiff).
    { rewrite !zlen_app. lia. }
    exists r. rewrite <- !app_assoc in Hr. cbn [app] in Hr. rewrite zlen_app in Hr. change (zlen [x]) with 1 in Hr. split; [done|].
    rewrite Hiff. split; [by intros ->|congruence].
  - exists (y - x). split; [done|]. split; [lia|]. intros [=]. lia.
Qed.

Lemma address_compare a b x y : address_of a x -> address_of b y ->
  exists r, multiaddress_compare (Some x) (Some y) = Ret r /\ (r = 0 <-> a = b).
Proof.
  intros (_ & _ & _ & _ & Hxa & Hxs & Ha & Hba) (_ & _ & _ & _ & Hyb & Hys & Hb & Hbb). unfold multiaddress_compare.
  rewrite Hxs, Hys. assert (s32 (u64 (zlen b - zlen a)) = zlen b - zlen a) as -> by (rewrite s32_u64, s32_small; lia).
  destruct (Z.eqb_spec (zlen b - zlen a) 0) as [E|E]; cbn [negb].
  - rewrite (proj2 (Z.eqb_neq _ 0)) by lia. rewrite Hxa, Hyb. cbn [pget rbind].
    destruct (compare_bytes_spec a b Hba Hbb ltac:(unfold zlen in *; lia) [] [] eq_refl) as (r & Hr & Hiff).
    exists r. split; [|done]. replace (Z.to_nat (zlen b)) with (length a) by (unfold zlen in *; lia). exact Hr.
  - exists (zlen b - zlen a). split; [done|]. split; [done|]. intros ->. lia.
Qed.

Lemma known_address_ok b x l xs : address_of b x -> Forall2 address_of l xs ->
  known_address x (Some <$> xs) = Ret (bool_decide (b ∈ l)).
Proof.
  intros Hx. induction 1 as [|c y l xs Hy _ IH]; cbn [known_address fmap list_fmap].
  - by rewrite bool_decide_false by (intros []%elem_of_nil).
  - destruct (address_compare b c x y Hx Hy) as (r & -> & Hr). cbn [rbind]. destruct (Z.eqb_spec r 0) as [E|E].
    + apply Hr in E as ->. by rewrite bool_decide_true by apply list_elem_of_here.
    + fold (fmap Some xs). rewrite IH. f_equal. apply bool_decide_ext. rewrite elem_of_cons. tauto.
Qed.

Section facts.
Context {M : Malloc} {Hm : MallocOk M}.

Lemma address_copied b x : address_of b x -> exists x', multiaddress_copy (Some x) = Ret (Some x') /\ address_of b x'.
Proof using Hm.
  intros (s & rest & Hs & Hnz & Hb & Hsz & Hl & Hby). unfold multiaddress_copy. rewrite malloc_always, Hs, Hb, Hsz.
  rewrite (proj2 (Z.ltb_lt _ _)) by lia. rewrite malloc_always. cbn [pget rbind]. rewrite memrd_all by done. cbn [rbind].
  unfold pstr. cbn [pget rbind]. rewrite read_str_nul by done. cbn [rbind]. rewrite malloc_always.
  eexists. split; [done|]. exists s, []. split_and!; done || lia.
Qed.

Lemma addresses_copied l xs : Forall2 address_of l (present xs) ->
  exists xs', copy_addresses xs = Ret (Some <$> xs') /\ Forall2 address_of l xs'.
Proof using Hm.
  revert l. induction xs as [|[x|] xs IH]; intros l; cbn [present omap list_omap copy_addresses].
  - intros ->%Forall2_nil_inv_r. by exists [].
  - intros (b & l' & Hb & Hl & ->)%Forall2_cons_inv_r. destruct (address_copied b x Hb) as (x' & -> & Hx').
    destruct (IH l' Hl) as (xs' & Hc & Hxs'). rewrite malloc_always. cbn [rbind]. rewrite Hc. exists (x' :: xs').
    split; [done|by constructor].
  - apply IH.
Qed.

Lemma update_loop_ok l xs k ys : Forall2 address_of l (present xs) -> Forall2 address_of k ys ->
  exists ys', update_addresses_loop xs (Some <$> ys) = Ret (Some <$> ys') /\ Forall2 address_of (merge_addresses l k) ys'.
Proof using Hm.
  revert l k ys. induction xs as [|[x|] xs IH]; intros l k ys; cbn [present omap list_omap update_addresses_loop].
  - intros ->%Forall2_nil_inv_r Hk. by exists ys.
  - intros (b & l' & Hb & Hl & ->)%Forall2_cons_inv_r Hk. rewrite (known_address_ok b x k ys Hb Hk). cbn [rbind].
    unfold merge_addresses. cbn [fold_left]. fold (merge_addresses l'). destruct (bool_decide (b ∈ k)); [by apply IH|].
    destruct (address_copied b x Hb) as (x' & -> & Hx'). cbn [rbind]. rewrite malloc_always.
    apply (IH l' (b :: k) (x' :: ys)); [done|by constructor].
  - apply IH.
Qed.

(** *** Entries *)
Lemma entry_loop_ok i post ids es : Forall2 (fun d e => entry_with (fst d) (snd d) e) ids es -> forall n,
  get_peer_entry_loop n es (i ++ post) (zlen i) =
    Ret (Nat.add n <$> (fst <$> list_find (fun d => fst d = i) ids)).
Proof using.
  induction 1 as [|[j k] e ids es (p & xs & He & Hi & Hs & Hz & _) _ IH]; intros n; [done|].
  cbn [fst snd] in *.
  cbn [get_peer_entry_loop list_find fst]. rewrite He, Hs, Hi. change (deref (Some j)) with j. destruct (Z.eqb_spec (zlen j) (zlen i)) as [E|E].
  - rewrite memrd_app, memrd_all by congruence. cbn [rbind]. destruct (decide (j = i)) as [->|Hne].
    + rewrite bool_decide_true by done. cbn. by rewrite Nat.add_0_r.
    + rewrite bool_decide_false by done. rewrite IH. destruct (list_find _ ids) as [[m d]|]; cbn; [|done]. by rewrite Nat.add_succ_r.
  - rewrite decide_False by (intros ->; done). rewrite IH. destruct (list_find _ ids) as [[m d]|]; cbn; [|done]. by rewrite Nat.add_succ_r.
Qed.

Lemma get_entry_ok i post ids ps : store_with ids ps ->
  libp2p_peerstore_get_peer_entry (Some ps) (Ptr (i ++ post)) (zlen i) = Ret (fst <$> list_find (fun d => fst d = i) ids).
Proof using.
  intros [Hs _]. unfold libp2p_peerstore_get_peer_entry. cbn [pderef]. destruct (Z.eqb_spec (zlen i) 0) as [E|E].
  - apply zlen_0_nil in E as ->. rewrite (proj2 (list_find_None _ _)); [done|]. apply Forall_forall. intros [j k] Hd Hj.
    cbn in Hj. subst j. apply list_elem_of_lookup_1 in Hd as [n Hd]. destruct (Forall2_lookup_l _ _ _ _ _ Hs Hd) as (e & _ & p & xs & _ & _ & _ & Hz & _).
    cbn [fst] in Hz. change (zlen []) with 0 in Hz. lia.
  - rewrite (entry_loop_ok i post ids (ps_entries ps) Hs 0). by destruct (list_find _ ids) as [[m d]|].
Qed.

Lemma store_find i ids : NoDup (fst <$> ids) ->
  match list_find (fun d => fst d = i) ids with
  | Some (n, (j, k)) => j = i /\ ids !! n = Some (i, k) /\ store_map ids !! i = Some k /\
      forall l, add_known i l ids = <[n := (i, merge_addresses l k)]> ids
  | None => store_map ids !! i = None /\ forall l, add_known i l ids = ids ++ [(i, l)]
  end.
Proof using.
  induction ids as [|[j k] ids IH]; intros Hnd; cbn [list_find add_known fst store_map list_to_map foldr fmap list_fmap] in *; [done|].
  apply NoDup_cons in Hnd as [_ Hnd]. specialize (IH Hnd). destruct (decide (j = i)) as [->|Hne].
  - split_and!; [done|done|apply lookup_insert_eq|]. intros l. by rewrite bool_decide_true.
  - unfold store_map in *. cbn [list_to_map foldr]. rewrite !lookup_insert_ne by done.
    destruct (list_find _ ids) as [[n [j' k']]|]; cbn.
    + destruct IH as (-> & Hn & Hm' & Ha). split_and!; [done|done|done|]. intros l.
      rewrite bool_decide_false by congruence. by rewrite Ha.
    + destruct IH as [Hm' Ha]. split; [done|]. intros l. rewrite bool_decide_false by congruence. by rewrite Ha.
Qed.

Lemma add_known_map i l ids : NoDup (fst <$> ids) ->
  store_map (add_known i l ids) = <[i := match store_map ids !! i with Some k => merge_addresses l k | None => l end]> (store_map ids) /\
  NoDup (fst <$> add_known i l ids).
Proof using.
  induction ids as [|[j k] ids IH]; intros Hnd; cbn [add_known fmap list_fmap fst] in *.
  - split; [done|]. apply NoDup_singleton.
  - apply NoDup_cons in Hnd as [Hj Hnd]. destruct (IH Hnd) as [IHm IHn]. unfold store_map in *. cbn [list_to_map foldr].
    destruct (decide (i = j)) as [->|Hne].
    + rewrite bool_decide_true by done. rewrite lookup_insert_eq. cbn [fmap list_fmap fst list_to_map foldr].
      rewrite insert_insert_eq. split; [done|]. by apply NoDup_cons.
    + rewrite bool_decide_false by done. rewrite lookup_insert_ne by done. cbn [fmap list_fmap fst snd list_to_map foldr]. rewrite IHm.
      rewrite insert_insert_ne by done. split; [done|]. apply NoDup_cons. split; [|done]. clear IHm IHn IH Hnd.
      intros Hin. apply Hj. clear Hj. induction ids as [|[j' k'] ids IH]; cbn [add_known fmap list_fmap fst] in *.
      * by apply list_elem_of_singleton in Hin.
      * case_bool_decide; subst; [exact Hin|]. cbn [fmap list_fmap fst] in Hin. apply elem_of_cons in Hin as [-> |Hin]; [apply list_elem_of_here|].
        apply list_elem_of_further, IH, Hin.
Qed.

(** the ids that are there stay where they are *)
Lemma add_known_prefix i l ids : fst <$> ids `prefix_of` fst <$> add_known i l ids.
Proof using.
  induction ids as [|[j k] ids IH]; cbn [add_known fmap list_fmap fst]; [apply prefix_nil|].
  case_bool_decide; cbn [fmap list_fmap fst]; [done|]. by apply prefix_cons.
Qed.

Lemma entry_at ids ps n i k : store_with ids ps -> ids !! n = Some (i, k) ->
  exists p xs, entry_peer ps n = Ret p /\ id p = Some i /\ id_size p = zlen i /\ 0 < zlen i /\
    addr_head p = Some <$> xs /\ Forall2 address_of k xs /\ 0 <= connection_type p < 2 ^ 32.
Proof using.
  intros [Hs _] Hn. destruct (Forall2_lookup_l _ _ _ _ _ Hs Hn) as ([e] & He & p & xs & Hp & Hi & Hz & Hnz & Ha & Hx & Hc).
  cbn [pe_peer fst snd] in *. subst e. exists p, xs. split; [unfold entry_peer; by rewrite He|]. by repeat (split; [done|]).
Qed.

Lemma entry_desc i k p xs : id p = Some i -> id_size p = zlen i -> addr_head p = Some <$> xs -> Forall2 address_of k xs ->
  peer_desc p = (i, k).
Proof using.
  intros Hi Hz Ha Hx. unfold peer_desc, peer_id_bytes. rewrite Hz, Hi, Ha. change (deref (Some i)) with i.
  rewrite ztake_all by lia. f_equal. clear -Hx. unfold present.
  induction Hx as [|b x k xs (s & r & _ & _ & Hb & _) _ IH]; [done|]. cbn. rewrite Hb. cbn. f_equal. exact IH.
Qed.

(** nothing can be compared with an id that was freed *)
Lemma freed_id_compared i ids ps : store_with ids ps -> i ∈ fst <$> ids -> 0 < zlen i ->
  libp2p_peerstore_get_peer (Some ps) Wild (zlen i) = UB.
Proof using.
  intros [Hs _] Hi Hnz. unfold libp2p_peerstore_get_peer, libp2p_peerstore_get_peer_entry.
  rewrite (proj2 (Z.eqb_neq _ 0)) by lia. assert (forall n, get_peer_entry_loop n (ps_entries ps) [] (zlen i) = UB) as E; [|by cbn [pderef]; rewrite E].
  induction Hs as [|[j k] e ids es (p & xs & He & Hj & Hz & _) _ IH]; intros n; [by apply elem_of_nil in Hi|].
  cbn [fst snd get_peer_entry_loop] in *. rewrite He, Hz. destruct (Z.eqb_spec (zlen j) (zlen i)) as [E|E].
  - by rewrite memrd_over by (change (zlen []) with 0; lia).
  - apply IH. cbn [fmap list_fmap fst] in Hi. apply elem_of_cons in Hi as [-> |Hi]; [done|exact Hi].
Qed.

Lemma get_peer_entry_with i post ids ps : store_with ids ps ->
  exists o, libp2p_peerstore_get_peer (Some ps) (Ptr (i ++ post)) (zlen i) = Ret o /\
    match store_map ids !! i with
    | Some l => exists p, o = Some p /\ entry_with i l (mkPeerEntry (Some p))
    | None => o = None
    end.
Proof using.
  intros Hs. unfold libp2p_peerstore_get_peer. rewrite (get_entry_ok i post ids ps Hs). cbn [rbind].
  pose proof (store_find i ids (proj2 Hs)) as Hf. destruct (list_find _ ids) as [[n [j k]]|]; cbn [fmap option_fmap option_map fst].
  - destruct Hf as (-> & Hn & -> & _). destruct (entry_at ids ps n i k Hs Hn) as (p & xs & -> & Hi & Hz & Hnz & Ha & Hx & Hc).
    exists (Some p). split; [done|]. exists p. split; [done|]. by exists p, xs.
  - destruct Hf as [-> _]. by exists None.
Qed.

Lemma get_peer_ok i post ids ps : store_with ids ps ->
  exists o, libp2p_peerstore_get_peer (Some ps) (Ptr (i ++ post)) (zlen i) = Ret o /\
    peer_desc <$> o = pair i <$> store_map ids !! i.
Proof using.
  intros Hs. destruct (get_peer_entry_with i post ids ps Hs) as (o & -> & Ho). exists o. split; [done|].
  destruct (store_map ids !! i) as [l|]; [|by subst o]. destruct Ho as (p & -> & q & xs & [= <-] & Hi & Hz & _ & Ha & Hx & _).
  cbn [fmap option_fmap option_map]. f_equal. by apply (entry_desc i l p xs).
Qed.

Lemma id_printed i p : id_size p = zlen i -> (exists rest, deref (id p) = i ++ rest) -> zlen i < 100 ->
  exists s, libp2p_peer_id_to_string p = Ret s.
Proof using.
  intros Hz [rest Hi] Hl. unfold libp2p_peer_id_to_string. rewrite Hi, Hz, memrd_app by done. cbn [rbind].
  rewrite (proj2 (Z.ltb_lt _ _)) by lia. by eexists.
Qed.

Lemma peer_copied i l p : peer_with i l p -> 0 < zlen i ->
  exists c, libp2p_peer_copy p = Ret (Some c) /\ entry_with i l (mkPeerEntry (Some c)).
Proof using Hm.
  intros (Hz & [rest Hi] & Hl & Hc) Hnz. unfold libp2p_peer_copy, libp2p_peer_new. rewrite !malloc_always, Hi, Hz, memrd_app by done.
  cbn [rbind]. destruct (addresses_copied l _ Hl) as (xs & -> & Hx). cbn [rbind]. eexists. split; [done|].
  eexists _, xs. by repeat (split; [done|]).
Qed.

Lemma to_ptr_id i rest p : deref (id p) = i ++ rest -> 0 < zlen i -> to_ptr (id p) = Ptr (i ++ rest).
Proof using. destruct (id p) as [b|]; cbn; intros H; [by rewrite <- H|]. destruct i; [zlia|done]. Qed.

Lemma add_peer_ok i l p ids ps : store_with ids ps -> peer_with i l p -> zlen i < 100 ->
  exists ps', libp2p_peerstore_add_peer ps (Some p) = Ret (if bool_decide (i = []) then 0 else 1, ps') /\
    store_with (if bool_decide (i = []) then ids else add_known i l ids) ps'.
Proof using Hm.
  intros Hs Hp Hl. pose proof Hp as (Hz & [rest Hi] & Hx & _). unfold libp2p_peerstore_add_peer. case_bool_decide as Hnil.
  - subst i. change (zlen []) with 0 in Hz. exists ps. split; [|done]. rewrite Hz. unfold libp2p_peerstore_get_peer_entry.
    by destruct (id p).
  - assert (0 < zlen i) as Hnz by (destruct i; [done|zlia]). rewrite (to_ptr_id i rest p Hi Hnz), Hz, (get_entry_ok i rest ids ps Hs).
    cbn [rbind]. pose proof (store_find i ids (proj2 Hs)) as Hf. destruct (add_known_map i l ids (proj2 Hs)) as [_ Hnd].
    destruct (list_find _ ids) as [[n [j k]]|]; cbn [fmap option_fmap option_map fst].
    + destruct Hf as (-> & Hn & Hm' & Ha). destruct (entry_at ids ps n i k Hs Hn) as (q & ys & Hq & Hqi & Hqz & _ & Hqa & Hqx & Hqc).
      rewrite Hq. cbn [rbind]. unfold libp2p_peerstore_update_addresses. rewrite Hqa.
      destruct (update_loop_ok l (addr_head p) k ys Hx Hqx) as (ys' & -> & Hy). cbn [rbind]. eexists. split; [done|].
      split; [|done]. rewrite Ha. cbn [ps_entries]. apply Forall2_insert; [apply Hs|]. exists (mkPeer (id q) (id_size q) (Some <$> ys') (connection_type q) (sessionContext q) (is_local q)), ys'.
      by repeat (split; [done|]).
    + destruct Hf as [Hm' Ha]. rewrite (proj2 (Z.ltb_lt _ _)) by done. destruct (id_printed i p Hz (ex_intro _ rest Hi) Hl) as [s ->].
      unfold libp2p_peer_entry_new. cbn [rbind]. rewrite malloc_always. destruct (peer_copied i l p Hp Hnz) as (c & -> & Hc). cbn [rbind].
      unfold libp2p_peerstore_add_peer_entry. rewrite malloc_always. eexists. split; [done|]. split; [|done]. rewrite Ha. cbn [ps_entries].
      apply Forall2_app; [apply Hs|by repeat constructor].
Qed.
End facts.

(** *** Runs *)
(** a peer the functions can store: its id is printed into an array of 100 bytes *)
Definition storable (p : Libp2pPeer) : Prop :=
  0 <= id_size p <= zlen (deref (id p)) /\ id_size p < 100 /\ 0 <= connection_type p < 2 ^ 32 /\
  Forall (fun a => address_of (pderef (ma_bytes a)) a) (present (addr_head p)).

Inductive store_op :=
| AddPeer (p : Libp2pPeer)
| GetPeer (i : bytes)
| GetOrAddPeer (p : Libp2pPeer).

Definition store_op_ok (o : store_op) : Prop :=
  match o with AddPeer p | GetOrAddPeer p => storable p | GetPeer _ => True end.

(** one call: what it returns, 1 for a peer that was not asked for, and the store *)
Definition store_run1 `{Malloc} (o : store_op) (ps : Peerstore) : res (Z * option Libp2pPeer * Peerstore) :=
  match o with
  | AddPeer p => let! (r, ps) := libp2p_peerstore_add_peer ps (Some p) in Ret (r, None, ps)
  | GetPeer i => let! p := libp2p_peerstore_get_peer (Some ps) (Ptr i) (zlen i) in Ret (1, p, ps)
  | GetOrAddPeer p => let! (p, ps) := libp2p_peerstore_get_or_add_peer ps (Some p) in Ret (1, p, ps)
  end.
Fixpoint store_run `{Malloc} (os : list store_op) (ps : Peerstore) : res (list (Z * option Libp2pPeer) * Peerstore) :=
  match os with
  | [] => Ret ([], ps)
  | o :: os =>
    let! (r, p, ps) := store_run1 o ps in
    let! (rs, ps) := store_run os ps in Ret ((r, p) :: rs, ps)
  end.

(** the same on a map *)
Definition map_add (d : bytes * list bytes) (m : gmap bytes (list bytes)) : gmap bytes (list bytes) :=
  let (i, l) := d in
  if bool_decide (i = []) then m
  else <[i := match m !! i with Some k => merge_addresses l k | None => l end]> m.
Definition map_run1 (o : store_op) (m : gmap bytes (list bytes)) : Z * option (bytes * list bytes) * gmap bytes (list bytes) :=
  match o with
  | AddPeer p => (if bool_decide (peer_id_bytes p = []) then 0 else 1, None, map_add (peer_desc p) m)
  | GetPeer i => (1, pair i <$> m !! i, m)
  | GetOrAddPeer p =>
    let i := peer_id_bytes p in
    let m := match m !! i with Some _ => m | None => map_add (peer_desc p) m end in (1, pair i <$> m !! i, m)
  end.
Fixpoint map_run (os : list store_op) (m : gmap bytes (list bytes)) : list (Z * option (bytes * list bytes)) * gmap bytes (list bytes) :=
  match os with
  | [] => ([], m)
  | o :: os => let '(r, p, m) := map_run1 o m in let (rs, m) := map_run os m in ((r, p) :: rs, m)
  end.

Definition result_desc (x : Z * option Libp2pPeer) : Z * option (bytes * list bytes) := (fst x, peer_desc <$> snd x).

Lemma storable_with p : storable p -> peer_with (peer_id_bytes p) (snd (peer_desc p)) p /\ zlen (peer_id_bytes p) = id_size p.
Proof.
  intros (Hz & Hl & Hc & Ha). pose proof (zlen_take _ _ Hz) as Hi. split; [|done]. split; [done|]. split; [|split; [|done]].
  - exists (zdrop (id_size p) (deref (id p))). unfold peer_id_bytes, ztake, zdrop. by rewrite take_drop.
  - unfold peer_desc. cbn [snd]. induction Ha; constructor; done.
Qed.

(** what the map knows, and that the first entry is that of the local peer *)
Definition store_is (local : bytes) (m : gmap bytes (list bytes)) (ps : Peerstore) : Prop :=
  exists ids, store_with ids ps /\ store_map ids = m /\ (local <> [] -> head (fst <$> ids) = Some local).

Section runs.
Context {M : Malloc} {Hm : MallocOk M}.

Lemma store_is_local local m ps : store_is local m ps -> local <> [] ->
  exists p, libp2p_peerstore_get_local_peer (Some ps) = Some p /\ id p = Some local.
Proof using.
  intros (ids & [Hs _] & _ & Hh) Hl. specialize (Hh Hl). unfold libp2p_peerstore_get_local_peer.
  destruct Hs as [|[i l] e ids es (p & xs & He & Hi & _)]; [done|]. injection Hh as <-. by exists p.
Qed.

Lemma add_is local m ps p : store_is local m ps -> storable p ->
  exists ps', libp2p_peerstore_add_peer ps (Some p) = Ret (if bool_decide (peer_id_bytes p = []) then 0 else 1, ps') /\
    store_is local (map_add (peer_desc p) m) ps'.
Proof using Hm.
  intros (ids & Hs & <- & Hh) Hp. pose proof Hp as (_ & Hl & _). destruct (storable_with p Hp) as [Hw Hz].
  destruct (add_peer_ok _ _ p ids ps Hs Hw ltac:(lia)) as (ps' & -> & Hs'). exists ps'. split; [done|].
  eexists. split; [exact Hs'|]. unfold map_add, peer_desc in *. cbn [snd]. case_bool_decide; [done|].
  split; [apply add_known_map, Hs|]. intros Hne. specialize (Hh Hne).
  destruct (add_known_prefix (peer_id_bytes p) ((fun a => pderef (ma_bytes a)) <$> present (addr_head p)) ids) as [k ->].
  by destruct (fst <$> ids).
Qed.

Lemma get_is local m ps i post : store_is local m ps ->
  exists o, libp2p_peerstore_get_peer (Some ps) (Ptr (i ++ post)) (zlen i) = Ret o /\ peer_desc <$> o = pair i <$> m !! i.
Proof using. intros (ids & Hs & <- & _). by apply get_peer_ok. Qed.

Lemma get_own_is local m ps p : store_is local m ps -> storable p ->
  exists o, libp2p_peerstore_get_peer (Some ps) (to_ptr (id p)) (id_size p) = Ret o /\
    peer_desc <$> o = if bool_decide (peer_id_bytes p = []) then None else pair (peer_id_bytes p) <$> m !! peer_id_bytes p.
Proof using.
  intros Hs Hp. destruct (storable_with p Hp) as [(Hz & [rest Hi] & _) _]. case_bool_decide as Hnil.
  - exists None. split; [|done]. rewrite Hz, Hnil. unfold libp2p_peerstore_get_peer, libp2p_peerstore_get_peer_entry. by destruct (id p).
  - assert (0 < zlen (peer_id_bytes p)) as Hnz by (destruct (peer_id_bytes p); [done|zlia]).
    rewrite (to_ptr_id _ rest p Hi Hnz), Hz. by apply (get_is local).
Qed.

Lemma empty_unknown local m ps : store_is local m ps -> m !! [] = None.
Proof using.
  intros (ids & [Hs Hnd] & <- & _). pose proof (store_find [] ids Hnd) as Hf.
  destruct (list_find _ ids) as [[n [j k]]|]; [|apply Hf]. destruct Hf as (-> & Hn & _).
  destruct (Forall2_lookup_l _ _ _ _ _ Hs Hn) as (e & _ & p & xs & _ & _ & _ & Hz & _). cbn [fst] in Hz. change (zlen []) with 0 in Hz. lia.
Qed.

Lemma store_run1_ok local o m ps : store_op_ok o -> store_is local m ps ->
  exists r p ps', store_run1 o ps = Ret (r, p, ps') /\ map_run1 o m = (r, peer_desc <$> p, snd (map_run1 o m)) /\
    store_is local (snd (map_run1 o m)) ps'.
Proof using Hm.
  intros Ho Hs. destruct o as [p|i|p]; cbn [store_run1 map_run1 store_op_ok snd] in *.
  - destruct (add_is local m ps p Hs Ho) as (ps' & -> & Hs'). cbn [rbind]. by eexists _, None, ps'.
  - destruct (get_is local m ps i [] Hs) as (o & Hg & Hd). rewrite app_nil_r in Hg. rewrite Hg. cbn [rbind].
    exists 1, o, ps. by rewrite Hd.
  - unfold libp2p_peerstore_get_or_add_peer. destruct (get_own_is local m ps p Hs Ho) as (o & -> & Hd). cbn [rbind].
    pose proof (empty_unknown local m ps Hs) as Hnil. destruct o as [q|]; cbn [fmap option_fmap option_map] in Hd.
    + case_bool_decide as Hi; [done|]. destruct (m !! peer_id_bytes p) as [k|] eqn:E; [|done]. exists 1, (Some q), ps.
      cbn [snd]. rewrite E. cbn [fmap option_fmap option_map] in *. by rewrite Hd.
    + assert (m !! peer_id_bytes p = None) as E.
      { case_bool_decide as Hi; [by rewrite Hi|]. by destruct (m !! peer_id_bytes p). }
      rewrite E. destruct (add_is local m ps p Hs Ho) as (ps' & -> & Hs'). cbn [rbind snd].
      destruct (get_own_is local _ ps' p Hs' Ho) as (o & Hg & Hd'). case_bool_decide as Hi.
      * exists 1, None, ps'. split; [done|]. split; [|done]. pose proof (empty_unknown local _ ps' Hs') as Hn'. by rewrite Hi, Hn'.
      * rewrite Hg. cbn [rbind]. change (1 =? 0) with false. cbv iota. exists 1, o, ps'. by rewrite Hd'.
Qed.

Lemma store_run_ok local os : Forall store_op_ok os -> forall m ps, store_is local m ps ->
  exists rs ps', store_run os ps = Ret (rs, ps') /\ result_desc <$> rs = fst (map_run os m) /\
    store_is local (snd (map_run os m)) ps'.
Proof using Hm.
  induction 1 as [|o os Ho _ IH]; intros m ps Hs; cbn [store_run map_run]; [by exists [], ps|].
  destruct (store_run1_ok local o m ps Ho Hs) as (r & p & ps1 & -> & Hr & Hs1). rewrite Hr. cbn [rbind].
  destruct (IH _ _ Hs1) as (rs & ps' & -> & Hrs & Hs'). cbn [rbind]. destruct (map_run os _) as [rs' m']. cbn [fst snd] in *.
  eexists _, ps'. split; [done|]. split; [|done]. cbn [fmap list_fmap fst snd]. by rewrite <- Hrs.
Qed.

Lemma store_new_ok p : storable p -> exists ps, libp2p_peerstore_new (Some p) = Ret (Some ps) /\
  store_is (peer_id_bytes p) (map_add (peer_desc p) ∅) ps.
Proof using Hm.
  intros Hp. unfold libp2p_peerstore_new. rewrite malloc_always. destruct (storable_with p Hp) as [Hw Hz]. pose proof Hp as (_ & Hl & _).
  assert (store_with [] (mkPeerstore [])) as H0 by (split; constructor).
  destruct (add_peer_ok _ _ p [] _ H0 Hw ltac:(lia)) as (ps' & -> & Hs'). cbn [rbind]. exists ps'. split; [done|].
  eexists. split; [exact Hs'|]. unfold map_add, peer_desc in *. cbn [snd]. case_bool_decide; [done|].
  split; [|done]. destruct (add_known_map (peer_id_bytes p) ((fun a => pderef (ma_bytes a)) <$> present (addr_head p)) [] (NoDup_nil_2)) as [-> _].
  done.
Qed.
End runs.

(** ** Properties *)

(** Property C14.  A store made for a local peer is a finite map: any sequence of
    additions, look-ups and look-ups that add returns what the same sequence returns
    on a map from ids to addresses, where adding a known id puts the addresses that
    are new in front of the old ones; afterwards every id is looked up as in the map,
    and the local peer is still the first. *)
Theorem peerstore_refines_map {M : Malloc} {Hm : MallocOk M} (local : Libp2pPeer) (os : list store_op) :
  storable local -> peer_id_bytes local <> [] -> Forall store_op_ok os ->
  exists ps rs ps', libp2p_peerstore_new (Some local) = Ret (Some ps) /\
    store_run os ps = Ret (rs, ps') /\
    let (results, m) := map_run os {[peer_id_bytes local := snd (peer_desc local)]} in
    result_desc <$> rs = results /\
    (forall i, exists o, libp2p_peerstore_get_peer (Some ps') (Ptr i) (zlen i) = Ret o /\ peer_desc <$> o = pair i <$> m !! i) /\
    exists p, libp2p_peerstore_get_local_peer (Some ps') = Some p /\ id p = Some (peer_id_bytes local).
Proof.
  intros Hl Hne Hos. destruct (store_new_ok local Hl) as (ps & Hn & Hs).
  unfold map_add, peer_desc in Hs. rewrite bool_decide_false, lookup_empty in Hs by done.
  destruct (store_run_ok _ os Hos _ ps Hs) as (rs & ps' & Hr & Hrs & Hs').
  exists ps, rs, ps'. split; [done|]. split; [done|]. change (<[peer_id_bytes local := ?l]> ∅) with ({[peer_id_bytes local := l]} : gmap bytes (list bytes)) in *.
  unfold peer_desc at 1. cbn [snd]. destruct (map_run os _) as [results m]. cbn [fst snd] in *. split; [done|]. split.
  - intros i. pose proof (get_is _ m ps' i [] Hs') as H. by rewrite app_nil_r in H.
  - by apply (store_is_local _ m).
Qed.

Definition sample_local : Libp2pPeer := mkPeer (Some [1; 2; 3]) 2 [] CONNECTION_TYPE_NOT_CONNECTED None 1.
Definition sample_remote (b : bytes) : Libp2pPeer :=
  mkPeer (Some [7]) 1 [None; Some (mkMultiAddress (Ptr [47; 0]) (Ptr b) (zlen b))] CONNECTION_TYPE_NOT_CONNECTED None 0.
Lemma sample_remote_ok a b : byte_range a -> byte_range b -> storable (sample_remote [a; b]).
Proof.
  intros Ha Hb. split; [vm_compute; split; discriminate|]. split; [vm_compute; reflexivity|]. split; [vm_compute; split; [discriminate|reflexivity]|]. constructor; [|constructor]. exists [47], [].
  split_and!; try done; repeat constructor; done || apply Ha || apply Hb.
Qed.

Lemma peerstore_refines_map_witness :
  let M := malloc_total in
  let os := [AddPeer (sample_remote [4; 8]); AddPeer (sample_remote [4; 9]); GetPeer [7]; GetPeer [8]] in
  exists ps rs ps', libp2p_peerstore_new (Some sample_local) = Ret (Some ps) /\
    store_run os ps = Ret (rs, ps') /\
    let (results, m) := map_run os {[[1; 2] := []]} in
    result_desc <$> rs = results /\
    (forall i, exists o, libp2p_peerstore_get_peer (Some ps') (Ptr i) (zlen i) = Ret o /\ peer_desc <$> o = pair i <$> m !! i) /\
    exists p, libp2p_peerstore_get_local_peer (Some ps') = Some p /\ id p = Some [1; 2].
Proof.
  intros M os. apply (peerstore_refines_map sample_local os).
  - split; [vm_compute; split; discriminate|]. split; [vm_compute; reflexivity|]. split; [vm_compute; split; [discriminate|reflexivity]|constructor].
  - discriminate.
  - do 2 (constructor; [apply sample_remote_ok; unfold byte_range; lia|]). repeat constructor.
Defined.

(** an id that is too long to be printed *)
Lemma long_id_undefined {M : Malloc} local m ps i post q : store_is local m ps -> 0 < zlen i -> m !! i = None ->
  id q = Some (i ++ post) -> id_size q = zlen i -> 100 <= zlen i -> libp2p_peerstore_add_peer ps (Some q) = UB.
Proof.
  intros (ids & Hs & <- & _) Hnz Hno Hi Hz Hl. unfold libp2p_peerstore_add_peer.
  rewrite Hi, Hz. cbn [to_ptr]. rewrite (get_entry_ok i post ids ps Hs). cbn [rbind].
  pose proof (store_find i ids (proj2 Hs)) as Hf. destruct (list_find _ ids) as [[n [j k]]|].
  - destruct Hf as (_ & _ & Hf & _). congruence.
  - cbn [fmap option_fmap option_map]. rewrite (proj2 (Z.ltb_lt _ _)) by done. unfold libp2p_peer_id_to_string.
    rewrite Hi, Hz. change (deref (Some (i ++ post))) with (i ++ post). rewrite memrd_app by done. cbn [rbind].
    by rewrite (proj2 (Z.ltb_ge _ _)) by lia.
Qed.

(**  A peer that is not in the store and has an id of 100 bytes or more
    overflows the array its id is printed into for the log.  Looking a peer up by its
    id and adding it when it is missing frees the caller's id and then compares with
    it, unless the peer was there already. *)
Lemma peerstore_undefined {M : Malloc} {Hm : MallocOk M} (local : bytes) (m : gmap bytes (list bytes)) (ps : Peerstore)
    (i rest : bytes) (p : Libp2pPeer) :
  store_is local m ps -> 0 < zlen i ->
  (m !! i = None -> id p = Some (i ++ rest) -> id_size p = zlen i -> 100 <= zlen i ->
   libp2p_peerstore_add_peer ps (Some p) = UB) /\
  (m !! i = None -> libp2p_peerstore_get_or_add_peer_by_id ps (Ptr (i ++ rest)) (zlen i) = UB) /\
  (forall l, m !! i = Some l -> exists q, libp2p_peerstore_get_or_add_peer_by_id ps (Ptr (i ++ rest)) (zlen i) = Ret (Some q, ps) /\
     peer_desc q = (i, l)).
Proof.
  intros Hs Hnz.
  pose proof (fun q post => long_id_undefined local m ps i post q Hs Hnz) as Hadd.
  split; [intros; by apply (Hadd p rest)|]. unfold libp2p_peerstore_get_or_add_peer_by_id.
  rewrite (proj2 (Z.eqb_neq _ 0)) by lia. pose proof Hs as (ids & Hs' & <- & _).
  rewrite (get_entry_ok i rest ids ps Hs'). pose proof (store_find i ids (proj2 Hs')) as Hf. split.
  - intros Hno. destruct (list_find _ ids) as [[n [j k]]|]; [destruct Hf as (_ & _ & Hf & _); congruence|].
    cbn [fmap option_fmap option_map rbind]. unfold libp2p_peer_new. rewrite malloc_always. cbn [peer_blank addr_head connection_type sessionContext is_local rbind].
    set (q := mkPeer _ _ _ _ _ _). destruct (Z.lt_ge_cases (zlen i) 100) as [Hl|Hl]; [|by rewrite (Hadd q rest)].
    assert (peer_with i [] q) as Hq by (split; [done|]; split; [by exists rest|]; split; [constructor|done]).
    destruct (add_peer_ok i [] q ids ps Hs' Hq Hl) as (ps' & -> & Hs2). cbn [rbind]. clear Hadd.
    rewrite bool_decide_false in Hs2 by (intros ->; done). destruct Hf as [_ Hf]. rewrite Hf in Hs2.
    rewrite (freed_id_compared i _ ps' Hs2); [done| |done]. rewrite fmap_app. apply elem_of_app. right. apply list_elem_of_here.
  - intros l Hk. destruct (list_find _ ids) as [[n [j k]]|]; [|destruct Hf; congruence].
    destruct Hf as (-> & Hn & Hf & _). cbn [fmap option_fmap option_map rbind fst].
    destruct (entry_at ids ps n i k Hs' Hn) as (q & xs & -> & Hi & Hz & _ & Ha & Hx & _). cbn [rbind]. exists q. split; [done|].
    rewrite (entry_desc i k q xs Hi Hz Ha Hx). congruence.
Qed.
