(* ===== verification/Providerstore.v ===== *)
(** * The store of providers (libp2p/peer/providerstore.c)

    Which peer has announced which hash.  The datastore that is asked first is the
    interface of [Datastore]; the local peer is a pointer to a peer of the node. *)
From S2P Require Import Prelude Multihash Cid Block Base32 Datastore Vector Digits CString Hex Multiaddr Peer.

Record ProviderEntry := mkProvider {
  pv_hash : bytes;
  pv_hash_size : Z;
  pv_peer_id : bytes;
  pv_peer_id_size : Z
}.

Record ProviderStore := mkProviderStore {
  provider_entries : vector ProviderEntry;
  local_peer : Libp2pPeer
}.

Definition sizeof_ProviderStore : Z := 24.
Definition sizeof_ProviderEntry : Z := 32.

Section providerstore.
Context {M : Malloc} {D : Type} `{Datastore D}.

Definition libp2p_providerstore_new (local_peer : Libp2pPeer) : res (option ProviderStore) :=
  if malloc_ok sizeof_ProviderStore then
    let! v := libp2p_utils_vector_new 4 in Ret (Some (mkProviderStore v local_peer))
  else Ret None.

(** the sizes are [int]s; no allocation is tested *)
Definition libp2p_providerstore_add (store : ProviderStore) (hash : bytes) (hash_size : Z) (peer_id : bytes)
    (peer_id_size : Z) : res (Z * ProviderStore) :=
  let! h := memrd hash hash_size in
  let! i := memrd peer_id peer_id_size in
  if malloc_ok sizeof_ProviderEntry && malloc_ok hash_size && malloc_ok peer_id_size then
    let! (_, v) := libp2p_utils_vector_add (provider_entries store) (Some (mkProvider h hash_size i peer_id_size)) in
    Ret (1, mkProviderStore v (local_peer store))
  else UB.

(** the entries from the index [i], [n] of them *)
Fixpoint provider_loop (n : nat) (i : Z) (v : vector ProviderEntry) (hash : bytes) (hash_size : Z)
  : res (option (bytes * Z)) :=
  match n with
  | O => Ret None
  | S n =>
    match libp2p_utils_vector_get v i with
    | None => UB
    | Some current =>
      let! eq :=
        (if pv_hash_size current =? hash_size then
           let! a := memrd (pv_hash current) hash_size in
           let! b := memrd hash hash_size in Ret (bool_decide (a = b))
         else Ret false) in
      if eq : bool then
        if malloc_ok (pv_peer_id_size current) then
          let! p := memrd (pv_peer_id current) (pv_peer_id_size current) in Ret (Some (p, pv_peer_id_size current))
        else UB
      else provider_loop n (i + 1) v hash hash_size
    end
  end.

(** the id and its size; [None]: returned 0 *)
Definition libp2p_providerstore_get (store : ProviderStore) (datastore : D) (hash : bytes) (hash_size : Z)
  : res (option (bytes * Z)) :=
  let! key := memrd hash hash_size in
  match datastore_get key datastore with
  | Some _ =>
    let p := local_peer store in
    if malloc_ok (id_size p) then
      let peer_id_size := s32 (id_size p) in
      let! i := memrd (deref (id p)) peer_id_size in Ret (Some (i, peer_id_size))
    else Ret None
  | None => provider_loop (Z.to_nat (v_total (provider_entries store))) 0 (provider_entries store) hash hash_size
  end.
End providerstore.

(** ** What a store holds: the announcements, in order *)
Definition announces (a : bytes * bytes) (e : ProviderEntry) : Prop :=
  pv_hash e = fst a /\ pv_hash_size e = zlen (fst a) /\ pv_peer_id e = snd a /\ pv_peer_id_size e = zlen (snd a).
Definition providers (l : list (bytes * bytes)) (store : ProviderStore) : Prop :=
  vector_ok (provider_entries store) /\ exists es, holds (provider_entries store) es /\ Forall2 announces l es.

(** the first announcement counts *)
Definition announced (hash : bytes) (l : list (bytes * bytes)) : option bytes :=
  snd ∘ snd <$> list_find (fun a => fst a = hash) l.

Section facts.
Context {M : Malloc} {Hm : MallocOk M}.

Lemma providerstore_new_ok p : exists s, libp2p_providerstore_new p = Ret (Some s) /\ providers [] s /\ local_peer s = p.
Proof using Hm.
  unfold libp2p_providerstore_new. rewrite malloc_always. destruct (vector_new_ok (A := ProviderEntry) 4 ltac:(lia)) as (v & -> & Hv & Hi).
  eexists. split; [done|]. split; [|done]. split; [done|]. exists []. by split.
Qed.

Lemma providerstore_add_ok l s h hrest i irest : providers l s -> zlen l < 2 ^ 29 ->
  exists s', libp2p_providerstore_add s (h ++ hrest) (zlen h) (i ++ irest) (zlen i) = Ret (1, s') /\
    providers (l ++ [(h, i)]) s' /\ local_peer s' = local_peer s.
Proof using Hm.
  intros (Hv & es & Hh & Ha) Hl. unfold libp2p_providerstore_add. rewrite !memrd_app, !malloc_always by done. cbn [rbind andb].
  pose proof (Forall2_length _ _ _ Ha) as Hlen.
  destruct (holds_add _ _ (mkProvider h (zlen h) i (zlen i)) Hh Hv ltac:(unfold zlen in *; lia)) as (v' & n & -> & Hv' & Hh').
  cbn [rbind]. eexists. split; [done|]. split; [|done]. split; [done|]. exists (es ++ [mkProvider h (zlen h) i (zlen i)]).
  split; [done|]. apply Forall2_app; [done|]. by repeat constructor.
Qed.

Lemma provider_loop_ok h hrest v pre es : forall l, holds v (pre ++ es) -> Forall2 announces l es ->
  provider_loop (length es) (zlen pre) v (h ++ hrest) (zlen h) = Ret ((fun i => (i, zlen i)) <$> announced h l).
Proof using Hm.
  revert pre. induction es as [|e es IH]; intros pre l Hv Ha.
  - by apply Forall2_nil_inv_r in Ha as ->.
  - apply Forall2_cons_inv_r in Ha as ([h' i] & l' & (Hh & Hhs & Hi & His) & Hl & ->). cbn [fst snd length provider_loop] in *.
    rewrite (holds_get _ _ _ _ Hv), Hhs. unfold announced. cbn [list_find fst].
    assert (provider_loop (length es) (zlen pre + 1) v (h ++ hrest) (zlen h) = Ret ((fun i => (i, zlen i)) <$> announced h l')) as Hnext.
    { specialize (IH (pre ++ [e]) l'). rewrite <- app_assoc, zlen_app in IH. by apply IH. }
    destruct (Z.eqb_spec (zlen h') (zlen h)) as [E|E].
    + rewrite Hh, memrd_all, memrd_app by done. cbn [rbind]. destruct (decide (h' = h)) as [->|Hne].
      * rewrite bool_decide_true, malloc_always by done. rewrite Hi, His, memrd_all by done. done.
      * rewrite bool_decide_false by done. rewrite Hnext. unfold announced. by destruct (list_find _ l') as [[]|].
    + cbn [rbind]. rewrite decide_False by (intros ->; done). rewrite Hnext. unfold announced. by destruct (list_find _ l') as [[]|].
Qed.

Lemma providerstore_get_ok {D} `{Datastore D} (d : D) l s h hrest : providers l s ->
  libp2p_providerstore_get s d (h ++ hrest) (zlen h) =
    match datastore_get h d with
    | Some _ => let! i := memrd (deref (id (local_peer s))) (s32 (id_size (local_peer s))) in Ret (Some (i, s32 (id_size (local_peer s))))
    | None => Ret ((fun i => (i, zlen i)) <$> announced h l)
    end.
Proof using Hm.
  intros (_ & es & Hh & Ha). unfold libp2p_providerstore_get. rewrite memrd_app by done. cbn [rbind].
  destruct (datastore_get h d); [by rewrite malloc_always|]. rewrite (holds_total _ _ Hh). unfold zlen. rewrite Nat2Z.id.
  by apply (provider_loop_ok h hrest _ [] es l).
Qed.

(** a later announcement of the same hash changes nothing *)
Lemma announced_app h l a : announced h (l ++ [a]) =
  match announced h l with Some i => Some i | None => if bool_decide (fst a = h) then Some (snd a) else None end.
Proof using.
  unfold announced. induction l as [|[h' i] l IH]; cbn [app list_find fst].
  - destruct a as [h' i]. cbn [fst snd]. destruct (decide (h' = h)); [by rewrite bool_decide_true|by rewrite bool_decide_false].
  - destruct (decide (h' = h)); [done|]. revert IH. destruct (list_find _ (l ++ [a])) as [[]|], (list_find _ l) as [[]|]; cbn; done.
Qed.
End facts.
