(* ===== verification/Dht.v ===== *)
(** * Answering the DHT (libp2p/routing/dht_protocol.c)

    What a node does with a message of the Kademlia protocol: values go to and come
    from its datastore and its file store, providers are announced and asked for,
    peers are looked up by their ids.  The file store is the interface [Filestore].
    The functions of the asking side write to a stream with a session in the place
    of the stream's context and are not modelled. *)
From Stdlib Require Import String.
From S2P Require Import Prelude Varint Digits Protobuf Multihash Cid Block Record Base58 Base32 Vector CString Hex Multiaddr Peer.
From S2P Require Import Datastore KademliaMessage Peerstore Providerstore.

Definition MESSAGE_TYPE_PUT_VALUE : Z := 0.
Definition MESSAGE_TYPE_GET_VALUE : Z := 1.
Definition MESSAGE_TYPE_ADD_PROVIDER : Z := 2.
Definition MESSAGE_TYPE_GET_PROVIDERS : Z := 3.
Definition MESSAGE_TYPE_FIND_NODE : Z := 4.

(** [node_get] of a [struct Filestore]: the data of the node, [None] when it
    returns 0 *)
Class Filestore (F : Type) := node_get : bytes -> F -> option bytes.

Record DhtContext (D F : Type) := mkDht {
  peer_store : Peerstore;
  provider_store : ProviderStore;
  datastore : D;
  filestore : F
}.
Arguments mkDht {D F}.
Arguments peer_store {D F}.
Arguments provider_store {D F}.
Arguments datastore {D F}.
Arguments filestore {D F}.

Definition set_provider_peers (l : list (option Libp2pPeer)) (m : KademliaMessage) : KademliaMessage :=
  mkKademlia (message_type m) (km_key m) (km_key_size m) (km_record m) (closer_peer_head m) l (cluster_level_raw m).
Definition set_message_record (r : option Libp2pRecord) (m : KademliaMessage) : KademliaMessage :=
  mkKademlia (message_type m) (km_key m) (km_key_size m) r (closer_peer_head m) (provider_peer_head m) (cluster_level_raw m).

Section dht.
Context {M : Malloc} {D F : Type} `{Datastore D} `{Filestore F}.
Implicit Types (ctx : DhtContext D F) (m : KademliaMessage).

(** the result, the buffer and its size; a buffer that could not be filled is
    freed, but the caller's pointer is left *)
Definition libp2p_routing_dht_protobuf_message m : res (Z * ptr bytes * Z) :=
  let size := libp2p_message_protobuf_encode_size m in
  if malloc_ok size then
    let! ((r, written), buffer) := libp2p_message_protobuf_encode m (fresh size) size in
    Ret (if r =? 0 then (0, Wild, 0) else (1, Ptr buffer, written))
  else UB.

Definition libp2p_routing_dht_handle_ping m : res (Z * ptr bytes * Z) := libp2p_routing_dht_protobuf_message m.

(** a list with a copy of the peer; the cell is not tested *)
Definition peer_list (p : Libp2pPeer) : res (list (option Libp2pPeer)) :=
  if malloc_ok sizeof_Libp2pLinkedList then let! c := libp2p_peer_copy p in Ret [c] else UB.

(** the key for the log, in an object of 100 bytes *)
Definition log_key m (buffer : bytes) : res unit :=
  let! _ := libp2p_crypto_encoding_base58_encode (deref (km_key m)) (km_key_size m) buffer 100 in Ret tt.

(** the list of providers: of the node itself, or of who announced the key *)
Definition find_providers ctx m : res (list (option Libp2pPeer)) :=
  let! key := memrd (deref (km_key m)) (km_key_size m) in
  match datastore_get key (datastore ctx) with
  | Some _ =>
    match libp2p_peerstore_get_local_peer (Some (peer_store ctx)) with
    | None => UB
    | Some p => peer_list p
    end
  | None =>
    let! found := libp2p_providerstore_get (provider_store ctx) (datastore ctx) (deref (km_key m)) (s32 (km_key_size m)) in
    match found with
    | Some (peer_id, peer_id_size) =>
      let! peer := libp2p_peerstore_get_peer (Some (peer_store ctx)) (Ptr peer_id) (u64 peer_id_size) in
      match peer with
      | Some p => let! _ := libp2p_peer_id_to_string p in peer_list p
      | None => Ret []
      end
    | None => let! _ := log_key m (if malloc_ok 100 then fresh 100 else []) in Ret []
    end
  end.

Definition libp2p_routing_dht_handle_get_providers ctx m : res (Z * ptr bytes * Z) :=
  let! l := find_providers ctx m in
  match l with
  | [] => Ret (1, Null, 0)
  | _ => libp2p_routing_dht_protobuf_message (set_provider_peers l m)
  end.

Fixpoint libp2p_routing_dht_find_peer_ip_multiaddress (l : list (option MultiAddress)) : res (option MultiAddress) :=
  match l with
  | [] => Ret None
  | None :: _ => UB
  | Some out :: l =>
    let! ip := multiaddress_is_ip out in
    if ip =? 0 then libp2p_routing_dht_find_peer_ip_multiaddress l else Ret (Some out)
  end.

(** only the first provider is looked at; the log is taken to be off, with it on a
    message without provider is read through NULL *)
Definition libp2p_routing_dht_handle_add_provider ctx m : res (Z * ptr bytes * Z * DhtContext D F) :=
  match provider_peer_head m with
  | Some peer :: _ =>
    let! peer_ma := libp2p_routing_dht_find_peer_ip_multiaddress (addr_head peer) in
    match peer_ma with
    | None => Ret (0, Null, 0, ctx)
    | Some _ =>
      let! (r, ps) := libp2p_peerstore_add_peer (peer_store ctx) (Some peer) in
      let ctx := mkDht ps (provider_store ctx) (datastore ctx) (filestore ctx) in
      if r =? 0 then Ret (0, Null, 0, ctx)
      else
        let! (r, pv) := libp2p_providerstore_add (provider_store ctx) (deref (km_key m)) (s32 (km_key_size m))
                          (deref (id peer)) (s32 (id_size peer)) in
        let ctx := mkDht (peer_store ctx) pv (datastore ctx) (filestore ctx) in
        if r =? 0 then Ret (0, Null, 0, ctx)
        else
          let! (r, buffer, n) := libp2p_routing_dht_protobuf_message m in
          if r =? 0 then UB else Ret (1, buffer, n, ctx)
    end
  | _ => Ret (0, Null, 0, ctx)
  end.

(** no allocation is tested *)
Definition libp2p_routing_dht_handle_get_value ctx m : res (Z * ptr bytes * Z) :=
  let! key := memrd (deref (km_key m)) (km_key_size m) in
  match node_get key (filestore ctx) with
  | None => let! _ := log_key m (replicate 100 0) in Ret (0, Null, 0)
  | Some data =>
    if malloc_ok sizeof_Libp2pRecord && malloc_ok (km_key_size m) && malloc_ok (zlen data) then
      let record := Record.mkRecord (Some key) (km_key_size m) (Some data) (zlen data) None 0 None 0 None 0 in
      libp2p_routing_dht_protobuf_message (set_message_record (Some record) m)
    else UB
  end.

Definition libp2p_routing_dht_handle_put_value ctx m : res (Z * DhtContext D F) :=
  match km_record m with
  | None => Ret (0, ctx)
  | Some r =>
    match libp2p_datastore_record_new with
    | None => Ret (0, ctx)
    | Some _ =>
      if malloc_ok (Record.rec_key_size r) then
        let! key := memrd (deref (Record.rec_key r)) (Record.rec_key_size r) in
        if malloc_ok (Record.rec_value_size r) then
          let! value := memrd (deref (Record.rec_value r)) (Record.rec_value_size r) in
          let (n, d) := datastore_put (Datastore.mkRecord (Some key) (Record.rec_key_size r) (Some value) (Record.rec_value_size r) 0) (datastore ctx) in
          Ret (n, mkDht (peer_store ctx) (provider_store ctx) d (filestore ctx))
        else Ret (0, ctx)
      else Ret (0, ctx)
    end
  end.

Definition libp2p_routing_dht_handle_find_node ctx m : res (Z * ptr bytes * Z) :=
  let! peer := libp2p_peerstore_get_peer (Some (peer_store ctx)) (to_ptr (km_key m)) (km_key_size m) in
  match peer with
  | None => Ret (0, Null, 0)
  | Some p => let! l := peer_list p in libp2p_routing_dht_protobuf_message (set_provider_peers l m)
  end.

(** the [switch]: the buffer to be sent, its size and the context *)
Definition dht_dispatch ctx m : res (ptr bytes * Z * DhtContext D F) :=
  let t := message_type m in
  if t =? MESSAGE_TYPE_PUT_VALUE then
    let! (_, ctx) := libp2p_routing_dht_handle_put_value ctx m in Ret (Null, 0, ctx)
  else if t =? MESSAGE_TYPE_GET_VALUE then
    let! (_, b, n) := libp2p_routing_dht_handle_get_value ctx m in Ret (b, n, ctx)
  else if t =? MESSAGE_TYPE_ADD_PROVIDER then
    let! (_, b, n, ctx) := libp2p_routing_dht_handle_add_provider ctx m in Ret (b, n, ctx)
  else if t =? MESSAGE_TYPE_GET_PROVIDERS then
    let! (_, b, n) := libp2p_routing_dht_handle_get_providers ctx m in Ret (b, n, ctx)
  else if t =? MESSAGE_TYPE_FIND_NODE then
    let! (_, b, n) := libp2p_routing_dht_handle_find_node ctx m in Ret (b, n, ctx)
  else if t =? MESSAGE_TYPE_PING then
    let! (_, b, n) := libp2p_routing_dht_handle_ping m in Ret (b, n, ctx)
  else Ret (Null, 0, ctx).

(** [incoming] is what [read] returned, and [write] the result of a write; the
    result, what was written, and the context *)
Definition libp2p_routing_dht_handle_message (incoming : Z * option bytes) (write : bytes -> Z) ctx
  : res (Z * list bytes * DhtContext D F) :=
  let (r, buffer) := incoming in
  if r =? 0 then Ret (0, [], ctx)
  else
    match buffer with
    | None => UB
    | Some data =>
      let! message := libp2p_message_protobuf_decode data (zlen data) in
      match message with
      | None => Ret (0, [], ctx)
      | Some m =>
        let! (b, n, ctx) := dht_dispatch ctx m in
        match b with
        | Null => Ret (1, [], ctx)
        | Wild => UB
        | Ptr b => let! out := memrd b n in Ret (if write out =? 0 then 0 else 1, [out], ctx)
        end
      end
    end.

Definition dht_protocol_id : bytes := Eval vm_compute in txt "/ipfs/kad/1.0.0" ++ [10].

(** the handler of the protocol: the result and all that is written *)
Definition libp2p_routing_dht_handle_msg (incoming : Z * option bytes) (write : bytes -> Z) ctx
  : res (Z * list bytes * DhtContext D F) :=
  if write dht_protocol_id =? 0 then Ret (-1, [dht_protocol_id], ctx)
  else
    let! (r, out, ctx) := libp2p_routing_dht_handle_message incoming write ctx in
    Ret (if r =? 0 then -1 else 1, dht_protocol_id :: out, ctx).
End dht.

(** ** Lemmas *)
Section facts.
Context {M : Malloc} {Hm : MallocOk M} {D F : Type} `{Datastore D} `{Filestore F}.
Implicit Types (ctx : DhtContext D F) (m : KademliaMessage).

Lemma protobuf_message_ok m : kademlia_ok m ->
  exists rest, libp2p_routing_dht_protobuf_message m = Ret (1, Ptr (kademlia_wire m ++ rest), zlen (kademlia_wire m)).
Proof using Hm.
  intros Hok. pose proof (kademlia_size_ok m Hok). zlen_facts. unfold libp2p_routing_dht_protobuf_message.
  rewrite malloc_always, (kademlia_encode_emits m Hok) by (rewrite ?zlen_fresh by lia; lia). cbn [rbind].
  by eexists.
Qed.

(** a message that is answered with the message [out] *)
Lemma handle_answer m out write ctx ctx' rest : kademlia_ok m ->
  dht_dispatch ctx (kademlia_saved m) = Ret (Ptr (out ++ rest), zlen out, ctx') ->
  libp2p_routing_dht_handle_message (1, Some (kademlia_wire m)) write ctx = Ret (if write out =? 0 then 0 else 1, [out], ctx').
Proof using Hm.
  intros Hok Hd. unfold libp2p_routing_dht_handle_message. change (1 =? 0) with false. cbv iota.
  pose proof (kademlia_decode_wire m [] Hok) as E. rewrite app_nil_r in E. rewrite E. cbn [rbind]. rewrite Hd. cbn [rbind].
  by rewrite memrd_app by done.
Qed.
(** one that is not *)
Lemma handle_silent m write ctx n ctx' : kademlia_ok m -> dht_dispatch ctx (kademlia_saved m) = Ret (Null, n, ctx') ->
  libp2p_routing_dht_handle_message (1, Some (kademlia_wire m)) write ctx = Ret (1, [], ctx').
Proof using Hm.
  intros Hok Hd. unfold libp2p_routing_dht_handle_message. change (1 =? 0) with false. cbv iota.
  pose proof (kademlia_decode_wire m [] Hok) as E. rewrite app_nil_r in E. rewrite E. cbn [rbind]. by rewrite Hd.
Qed.
Lemma handle_undefined m write ctx : kademlia_ok m -> dht_dispatch ctx (kademlia_saved m) = UB ->
  libp2p_routing_dht_handle_message (1, Some (kademlia_wire m)) write ctx = UB.
Proof using Hm.
  intros Hok Hd. unfold libp2p_routing_dht_handle_message. change (1 =? 0) with false. cbv iota.
  pose proof (kademlia_decode_wire m [] Hok) as E. rewrite app_nil_r in E. rewrite E. cbn [rbind]. by rewrite Hd.
Qed.

(** *** Peers from the network *)
(** an address that is there and can be printed *)
Definition address_from (cs : list component) (a : option MultiAddress) : Prop :=
  printable cs /\ a = Some (address_struct cs).

(** a peer as it is decoded: its id, and the components of its addresses *)
Definition peer_from (i : bytes) (css : list (list component)) (p : Libp2pPeer) : Prop :=
  id p = Some i /\ id_size p = zlen i /\ Forall2 address_from css (addr_head p) /\ 0 <= connection_type p < 2 ^ 32.

Lemma printable_bytes cs : printable cs -> is_bytes (address_bytes cs) /\ 0 < zlen (address_bytes cs) < 2 ^ 31.
Proof using.
  intros ((Hne & Hok & Hl & _) & _). destruct (address_bytes_ok cs Hok) as [Hb Hz]. split; [done|].
  destruct cs; [done|]. cbn [length] in Hz. lia.
Qed.

Lemma address_struct_of cs : printable cs -> address_of (address_bytes cs) (address_struct cs).
Proof using.
  intros Hp. destruct (printable_bytes cs Hp) as [Hb Hl]. pose proof Hp as ((_ & Hok & _ & Hs) & _).
  unfold address_struct, str_object. rewrite zlen_app. change (zlen [47]) with 1.
  replace (Z.to_nat (800 - (zlen (address_string cs) + 1))) with (S (Z.to_nat (800 - (zlen (address_string cs) + 1) - 1))) by lia.
  exists (address_string cs ++ [47]), (replicate (Z.to_nat (800 - (zlen (address_string cs) + 1) - 1)) 0).
  split_and!; try done; try lia. apply Forall_app. split; [by apply address_string_nonzero|by repeat constructor].
Qed.

Lemma peer_from_with i css p : peer_from i css p -> peer_with i (address_bytes <$> css) p.
Proof using.
  intros (Hi & Hz & Ha & Hc). split; [done|]. split; [exists []; rewrite Hi; by rewrite app_nil_r|]. split; [|done].
  clear Hi Hz Hc. induction Ha as [|cs a css l (Hp & ->) _ IH]; [constructor|]. cbn. constructor; [by apply address_struct_of|exact IH].
Qed.

(** a stored peer with such addresses can be sent *)
Lemma described_peer_encodable p xs i css : id p = Some i -> id_size p = zlen i -> addr_head p = Some <$> xs ->
  Forall2 address_of (address_bytes <$> css) xs -> Forall printable css -> 0 <= connection_type p < 2 ^ 32 ->
  zlen i + 1000 * zlen css + 22 <= INT_MAX -> peer_encodable p.
Proof using.
  intros Hi Hz Ha Hx Hp Hc Hl. assert (length xs = length css) as Hlen.
  { apply Forall2_length in Hx. by rewrite length_fmap in Hx. }
  split; [rewrite Hi, Hz; change (deref (Some i)) with i; zlia|]. split; [done|]. split.
  - rewrite Ha. clear -Hx Hp. revert css Hx Hp. induction xs as [|x xs IH]; intros css Hx Hp; [constructor|].
    destruct css as [|cs css]; [by inversion Hx|]. apply Forall_cons in Hp as [H1 H2].
    apply Forall2_cons in Hx as [(s & r & _ & _ & Hb & Hs & _) Hx]. cbn [fmap list_fmap]. constructor; [|by apply (IH css)].
    cbn [from_option]. exists cs. by split_and!.
  - rewrite Ha, Hz. unfold zlen in *. rewrite length_fmap. lia.
Qed.

Lemma encodable_from p : peer_encodable p ->
  exists css, peer_from (peer_id_bytes p) css (peer_saved p) /\ Forall printable css /\
    address_bytes <$> css = snd (peer_desc p) /\ zlen css <= zlen (addr_head p).
Proof using Hm.
  intros Hp. pose proof (peer_id_length p Hp) as Hi. destruct Hp as (Hid & Hc & Ha & Hl).
  assert (exists css, Forall2 address_from css (addr_head (peer_saved p)) /\ Forall printable css /\
    address_bytes <$> css = snd (peer_desc p) /\ zlen css <= zlen (addr_head p)) as (css & H1 & H2 & H3 & H4).
  { unfold peer_desc. cbn [peer_saved addr_head snd]. clear -Ha Hm.
    induction Ha as [|[a|] l Ha _ (css & B1 & B2 & B3 & B4)]; [by exists []| |].
    - cbn [from_option omap list_omap present fmap list_fmap] in *. destruct (readable_saved a Ha) as (cs & Hcs & Es & En).
      assert (pderef (ma_bytes a) = address_bytes cs) as Eb.
      { destruct Ha as (cs' & Hp' & Hb & Hz). rewrite Hb, Hz in En. cbn [pderef] in En. rewrite Hb. cbn [pderef].
        destruct Hp' as (H1 & H2 & H3 & H4). pose proof (new_from_bytes_ok cs' [] H1 H2 H3) as En'.
        rewrite app_nil_r, decide_True in En' by done. rewrite En in En'. by injection En'. }
      exists (cs :: css). rewrite Es. cbn [fmap list_fmap]. rewrite Eb. split_and!.
      + by constructor.
      + by constructor.
      + by f_equal.
      + rewrite !zlen_cons. lia.
    - exists css. cbn [from_option omap list_omap present fmap list_fmap] in *. split_and!; try done. rewrite zlen_cons. lia. }
  exists css. split; [|done]. split; [done|]. split; [|done]. cbn [peer_saved id_size]. by rewrite Hi.
Qed.

Lemma is_ip_struct cs : printable cs ->
  multiaddress_is_ip (address_struct cs) = Ret (if bool_decide (head (address_bytes cs) = Some 4) || bool_decide (head (address_bytes cs) = Some 41) then 1 else 0).
Proof using.
  intros Hp. destruct (printable_bytes cs Hp) as [_ Hl]. unfold multiaddress_is_ip. cbn [address_struct ma_bytes].
  destruct (address_bytes cs) as [|b l]; [change (zlen []) with 0 in Hl; lia|]. cbn [head].
  change (rd (b :: l) 0) with (Ret b). cbn [rbind].
  assert (forall n, (b =? n) = bool_decide (Some b = Some n)) as E; [|by rewrite !E].
  intros n. case_bool_decide as E; [injection E as ->; apply Z.eqb_refl|]. apply Z.eqb_neq. congruence.
Qed.

Lemma find_ip_ok css l : Forall2 address_from css l -> Exists (fun cs => head (address_bytes cs) = Some 4) css ->
  exists a, libp2p_routing_dht_find_peer_ip_multiaddress l = Ret (Some a).
Proof using.
  induction 1 as [|cs a css l (Hp & ->) _ IH]; intros Hex; [by inversion Hex|].
  cbn [libp2p_routing_dht_find_peer_ip_multiaddress]. rewrite is_ip_struct by done. cbn [rbind].
  apply Exists_cons in Hex as [He|He].
  - rewrite bool_decide_true by done. by eexists.
  - destruct (bool_decide _ || bool_decide _); [by eexists|]. by apply IH.
Qed.

Lemma peer_size_bound p : peer_encodable p -> libp2p_peer_protobuf_encode_size (Some p) <= id_size p + 22 + 1000 * zlen (addr_head p).
Proof using.
  intros (Hid & Hc & Ha & Hl). unfold libp2p_peer_protobuf_encode_size. unfold INT_MAX in *. zlen_facts.
  rewrite (u64_small (11 + _ + 11)), s32_small by lia.
  change (fun sz (a : option MultiAddress) => match a with None => sz | Some a => s32 (u64 (sz + 11 + ma_bsize a)) end) with address_size.
  pose proof (address_sizes _ Ha (11 + id_size p + 11) ltac:(lia) ltac:(unfold INT_MAX; lia)) as Hs.
  pose proof (zlen_nonneg (concat (address_wire <$> addr_head p))). rewrite u64_small by lia. lia.
Qed.

(** a message with one provider *)
Lemma with_provider_ok q m : peer_encodable q -> kademlia_ok m ->
  kademlia_size_bound m + id_size q + 33 + 1000 * zlen (addr_head q) <= INT_MAX -> kademlia_ok (set_provider_peers [Some q] m).
Proof using.
  intros Hq (Ht & Hc & Hk & Hkey & Hr & H8 & H9 & Hl) Hb. pose proof (peer_size_bound q Hq). pose proof (peers_total_nonneg _ H9).
  split_and!; try done; try lia; cbn [set_provider_peers message_type cluster_level_raw km_key_size provider_peer_head]; try lia.
  - by constructor.
  - unfold kademlia_size_bound in *. cbn [set_provider_peers km_key_size km_record closer_peer_head provider_peer_head].
    change (peers_total [Some q]) with (11 + libp2p_peer_protobuf_encode_size (Some q) + 0). lia.
Qed.

(** a stored peer is copied into an answer *)
Lemma peer_list_ok i css p : entry_with i (address_bytes <$> css) (mkPeerEntry (Some p)) -> Forall printable css ->
  zlen i + 1000 * zlen css + 22 <= INT_MAX ->
  exists q, peer_list p = Ret [Some q] /\ peer_encodable q /\ peer_desc q = (i, address_bytes <$> css) /\
    id_size q = zlen i /\ zlen (addr_head q) = zlen css.
Proof using Hm.
  intros (p' & xs & [= <-] & Hi & Hz & Hnz & Ha & Hx & Hc) Hp Hl. unfold peer_list. rewrite malloc_always.
  assert (peer_with i (address_bytes <$> css) p) as Hw.
  { split; [done|]. split; [exists []; rewrite Hi; by rewrite app_nil_r|]. split; [|done]. rewrite Ha.
    replace (present (Some <$> xs)) with xs; [done|]. clear. unfold present. induction xs as [|x xs IH]; [done|]. cbn. f_equal. exact IH. }
  destruct (peer_copied i _ p Hw Hnz) as (q & -> & (q' & ys & [= <-] & Hqi & Hqz & _ & Hqa & Hqx & Hqc)). cbn [rbind].
  exists q. split; [done|]. split; [by apply (described_peer_encodable q ys i css)|]. split; [by apply (entry_desc i _ q ys)|].
  split; [done|]. rewrite Hqa. apply Forall2_length in Hqx. rewrite length_fmap in Hqx. unfold zlen. rewrite length_fmap. lia.
Qed.
End facts.

(** ** Properties *)
Section properties.
Context {M : Malloc} {Hm : MallocOk M} {D F : Type} `{Datastore D} `{Filestore F}.

(** the key of a message, as it is decoded *)
Lemma saved_key m k : kademlia_ok m -> message_key m = Some k ->
  km_key (kademlia_saved m) = Some k /\ km_key_size (kademlia_saved m) = zlen k /\ s32 (zlen k) = zlen k /\ 0 <= zlen k < 2 ^ 31.
Proof using Hm.
  intros (_ & _ & Hk & Hkey & Hr & H8 & H9 & Hl) Hmk. cbn [kademlia_saved km_key km_key_size]. unfold message_key in *.
  destruct (km_key m) as [key|]; [|done]. cbn [fmap option_fmap option_map from_option] in *. injection Hmk as <-.
  rewrite zlen_take by lia. pose proof (peers_total_nonneg _ H8). pose proof (peers_total_nonneg _ H9).
  assert (0 <= libp2p_record_protobuf_encode_size (km_record m)).
  { destruct (km_record m) as [r|]; [|done]. unfold libp2p_record_protobuf_encode_size. apply u64_range. }
  unfold kademlia_size_bound, INT_MAX in *. split; [done|]. split; [done|]. split; [apply s32_small; lia|lia].
Qed.

(** an announcement: the context afterwards, and the message as the answer *)
Lemma add_provider_ok local ids l (ctx : DhtContext D F) m p others k :
  store_is local ids (peer_store ctx) -> providers l (provider_store ctx) -> zlen l < 2 ^ 29 ->
  kademlia_ok m -> provider_peer_head m = Some p :: others -> message_key m = Some k ->
  0 < zlen (peer_id_bytes p) < 100 -> Exists (fun b => head b = Some 4) (snd (peer_desc p)) ->
  exists ps pv rest, libp2p_routing_dht_handle_add_provider ctx (kademlia_saved m) =
      Ret (1, Ptr (kademlia_wire m ++ rest), zlen (kademlia_wire m), mkDht ps pv (datastore ctx) (filestore ctx)) /\
    store_is local (map_add (peer_desc p) ids) ps /\ providers (l ++ [(k, peer_id_bytes p)]) pv.
Proof using Hm.
  intros Hs Hpv Hl Hok Hp Hk Hi Hip. destruct (saved_key m k Hok Hk) as (Hsk & Hsz & Hs32 & _).
  assert (peer_encodable p) as Hpe.
  { destruct Hok as (_ & _ & _ & _ & _ & _ & H9 & _). rewrite Hp in H9. by apply Forall_cons in H9 as [H9 _]. }
  destruct (encodable_from p Hpe) as (css & Hf & Hpr & Hbs & _). pose proof (peer_from_with _ _ _ Hf) as Hw.
  pose proof Hf as (Hid & Hidz & Ha & Hc). unfold libp2p_routing_dht_handle_add_provider.
  assert (provider_peer_head (kademlia_saved m) = Some (peer_saved p) :: (a_peer_saved <$> others)) as ->
    by (cbn [kademlia_saved provider_peer_head]; by rewrite Hp).
  destruct (find_ip_ok css _ Ha) as [ma ->]; [rewrite <- Hbs, Exists_fmap in Hip; exact Hip|]. cbn [rbind].
  pose proof Hs as (es & Hse & <- & Hh).
  destruct (add_peer_ok _ _ _ es _ Hse Hw ltac:(lia)) as (ps & -> & Hps). cbn [rbind].
  rewrite bool_decide_false in * by (intros E; rewrite E in Hi; change (zlen []) with 0 in Hi; lia).
  change (1 =? 0) with false. cbv iota. cbn [provider_store peer_store datastore filestore].
  rewrite Hsk, Hsz, Hs32, Hid, Hidz, (s32_small (zlen (peer_id_bytes p))) by lia. change (deref (Some ?b)) with b.
  destruct (providerstore_add_ok l _ k [] (peer_id_bytes p) [] Hpv Hl) as (pv & Ha' & Hpv' & _). rewrite !app_nil_r in Ha'.
  rewrite Ha'. cbn [rbind]. change (1 =? 0) with false. cbv iota.
  destruct (kademlia_saved_ok m Hok) as (Hok' & Hwire & _). destruct (protobuf_message_ok _ Hok') as [rest ->]. cbn [rbind].
  change (1 =? 0) with false. cbv iota. rewrite Hwire. exists ps, pv, rest. split; [done|]. split; [|done].
  eexists. split; [exact Hps|]. unfold map_add, peer_desc in *. cbn [snd] in *.
  rewrite bool_decide_false by (intros E; rewrite E in Hi; change (zlen []) with 0 in Hi; lia).
  rewrite Hbs. split; [apply add_known_map, Hse|]. intros Hne. specialize (Hh Hne).
  destruct (add_known_prefix (peer_id_bytes p) (address_bytes <$> css) es) as [z Hz]. rewrite <- Hbs, Hz. by destruct (fst <$> es).
Qed.

Lemma peer_desc_saved p : peer_encodable p -> peer_desc (peer_saved p) = peer_desc p.
Proof using Hm.
  intros Hp. destruct (encodable_from p Hp) as (css & (Hi & Hz & Ha & _) & _ & Hb & _).
  assert (Forall2 address_of (address_bytes <$> css) (present (addr_head (peer_saved p))) /\
    addr_head (peer_saved p) = Some <$> present (addr_head (peer_saved p))) as [H1 H2].
  { clear -Ha. induction Ha as [|cs a css l (Hp & ->) _ [IH1 IH2]]; [split; constructor|]. cbn [present omap list_omap fmap list_fmap] in *.
    split; [constructor; [by apply address_struct_of|exact IH1]|]. f_equal. exact IH2. }
  rewrite (entry_desc _ _ _ _ Hi Hz H2 H1), Hb. done.
Qed.

(** a peer as it arrives: no session, and not the local one *)
Definition arrived_peer (i : bytes) (css : list (list component)) (q : Libp2pPeer) : Prop :=
  peer_desc q = (i, address_bytes <$> css) /\ peer_with i (address_bytes <$> css) q /\ sessionContext q = None /\ is_local q = 0.

Lemma peer_saved_arrived i css q : peer_encodable q -> peer_desc q = (i, address_bytes <$> css) -> arrived_peer i css (peer_saved q).
Proof using Hm.
  intros Hq Hd. pose proof (peer_desc_saved q Hq) as E. split; [by rewrite E|]. split; [|done].
  destruct (encodable_from q Hq) as (css' & Hf & _ & Hb & _). apply peer_from_with in Hf. rewrite Hb in Hf.
  injection Hd as Hi Ha. unfold peer_desc in Hf. cbn [snd] in Hf. by rewrite Hi, Ha in Hf.
Qed.

(** the answer to a question that names the peer [i] *)
Lemma answer_peer i css p m : kademlia_ok m -> entry_with i (address_bytes <$> css) (mkPeerEntry (Some p)) -> Forall printable css ->
  kademlia_size_bound m + zlen i + 1000 * zlen css + 33 <= INT_MAX ->
  exists q rest out, peer_list p = Ret [Some q] /\
    libp2p_routing_dht_protobuf_message (set_provider_peers [Some q] (kademlia_saved m)) = Ret (1, Ptr (out ++ rest), zlen out) /\
    exists reply q', libp2p_message_protobuf_decode out (zlen out) = Ret (Some reply) /\ message_type reply = message_type m /\
      message_key reply = message_key m /\ provider_peer_head reply = [Some q'] /\ arrived_peer i css q'.
Proof using Hm.
  intros Hok He Hp Hl. pose proof Hok as (_ & _ & Hk & _ & _ & H8 & H9 & _).
  destruct (kademlia_saved_ok m Hok) as (Hok' & _ & Hb).
  pose proof (peers_total_nonneg _ H8). pose proof (peers_total_nonneg _ H9).
  assert (0 <= libp2p_record_protobuf_encode_size (km_record m)).
  { destruct (km_record m) as [r|]; [|done]. unfold libp2p_record_protobuf_encode_size. apply u64_range. }
  assert (zlen i + 1000 * zlen css + 22 <= INT_MAX) as Hq by (unfold kademlia_size_bound in Hl; lia).
  destruct (peer_list_ok i css p He Hp Hq) as (q & Hpl & Hqe & Hqd & Hqz & Hqa).
  assert (kademlia_ok (set_provider_peers [Some q] (kademlia_saved m))) as Hok2 by (apply with_provider_ok; [done|done|lia]).
  destruct (protobuf_message_ok _ Hok2) as [rest Hpm]. eexists q, rest, _. split; [done|]. split; [done|].
  pose proof (kademlia_decode_wire _ [] Hok2) as Hd. rewrite app_nil_r in Hd. eexists _, (peer_saved q). split; [exact Hd|].
  split; [done|]. split; [|split; [done|by apply peer_saved_arrived]].
  rewrite message_key_saved. change (message_key (set_provider_peers ?l ?m)) with (message_key m). apply message_key_saved.
Qed.

Lemma get_providers_ok local ids l (ctx : DhtContext D F) m k i css :
  store_is local ids (peer_store ctx) -> providers l (provider_store ctx) -> kademlia_ok m -> message_key m = Some k ->
  datastore_get k (datastore ctx) = None -> announced k l = Some i -> zlen i < 100 ->
  ids !! i = Some (address_bytes <$> css) -> Forall printable css ->
  kademlia_size_bound m + zlen i + 1000 * zlen css + 33 <= INT_MAX ->
  exists rest out, libp2p_routing_dht_handle_get_providers ctx (kademlia_saved m) = Ret (1, Ptr (out ++ rest), zlen out) /\
    exists reply q, libp2p_message_protobuf_decode out (zlen out) = Ret (Some reply) /\ message_type reply = message_type m /\
      message_key reply = message_key m /\ provider_peer_head reply = [Some q] /\ arrived_peer i css q.
Proof using Hm.
  intros (es & Hse & Hids & Hh) Hpv Hok Hk Hd Ha Hi Hmi Hp Hl. destruct (saved_key m k Hok Hk) as (Hsk & Hsz & Hs32 & _).
  unfold libp2p_routing_dht_handle_get_providers, find_providers. rewrite Hsk, Hsz, Hs32. change (deref (Some k)) with k.
  rewrite memrd_all by done. cbn [rbind]. rewrite Hd. pose proof (providerstore_get_ok (datastore ctx) l _ k [] Hpv) as Hg.
  rewrite app_nil_r, Hd, Ha in Hg. rewrite Hg. cbn [rbind fmap option_fmap option_map].
  destruct (get_peer_entry_with i [] es _ Hse) as (o & Hgp & Ho). rewrite app_nil_r in Hgp. zlen_facts.
  rewrite u64_small, Hgp by lia. rewrite Hids, Hmi in Ho. destruct Ho as (p & -> & He). cbn [rbind].
  pose proof He as (p' & xs & [= <-] & Hpi & Hpz & _).
  destruct (id_printed i p Hpz ltac:(exists []; rewrite Hpi; by rewrite app_nil_r) Hi) as [s ->]. cbn [rbind].
  destruct (answer_peer i css p m Hok He Hp Hl) as (q & rest & out & -> & Hpm & Hr). cbn [rbind]. rewrite Hpm. by exists rest, out.
Qed.
End properties.

(**  An announcement and the question for it.  A node that is told
    (ADD_PROVIDER) by a peer it did not know, with an IPv4 address and an id shorter
    than 100 bytes, that it provides a key nobody has announced, sends the message
    back; asked (GET_PROVIDERS) for the key, which it does not have itself, it sends
    a message that decodes to the question with that peer, and all the peer's
    addresses, as the provider. *)
Lemma announced_provider_found {M : Malloc} {Hm : MallocOk M} {D F : Type} `{Datastore D} `{Filestore F}
    (local : bytes) (ids : gmap bytes (list bytes)) (l : list (bytes * bytes)) (ctx : DhtContext D F)
    (announcement question : KademliaMessage) (p : Libp2pPeer) (others : list (option Libp2pPeer)) (k : bytes) (write : bytes -> Z) :
  store_is local ids (peer_store ctx) -> providers l (provider_store ctx) -> zlen l < 2 ^ 29 ->
  ids !! peer_id_bytes p = None -> announced k l = None -> datastore_get k (datastore ctx) = None ->
  kademlia_ok announcement -> message_type announcement = MESSAGE_TYPE_ADD_PROVIDER -> message_key announcement = Some k ->
  provider_peer_head announcement = Some p :: others -> 0 < zlen (peer_id_bytes p) < 100 ->
  Exists (fun b => head b = Some 4) (snd (peer_desc p)) ->
  kademlia_ok question -> message_type question = MESSAGE_TYPE_GET_PROVIDERS -> message_key question = Some k ->
  kademlia_size_bound question + 1000 * zlen (addr_head p) + 133 <= INT_MAX ->
  exists ctx' out, let sent b := if write b =? 0 then 0 else 1 in
    libp2p_routing_dht_handle_message (1, Some (kademlia_wire announcement)) write ctx
      = Ret (sent (kademlia_wire announcement), [kademlia_wire announcement], ctx') /\
    libp2p_routing_dht_handle_message (1, Some (kademlia_wire question)) write ctx' = Ret (sent out, [out], ctx') /\
    exists reply q, libp2p_message_protobuf_decode out (zlen out) = Ret (Some reply) /\
      message_type reply = MESSAGE_TYPE_GET_PROVIDERS /\ message_key reply = Some k /\
      provider_peer_head reply = [Some q] /\ peer_desc q = peer_desc p.
Proof.
  intros Hs Hpv Hl Hnew Hno Hd Ha Hat Hak Hap Hi Hip Hq Hqt Hqk Hb.
  destruct (add_provider_ok local ids l ctx announcement p others k Hs Hpv Hl Ha Hap Hak Hi Hip) as (ps & pv & rest & Hadd & Hs' & Hpv').
  exists (mkDht ps pv (datastore ctx) (filestore ctx)).
  assert (peer_encodable p) as Hpe.
  { destruct Ha as (_ & _ & _ & _ & _ & _ & H9 & _). rewrite Hap in H9. by apply Forall_cons in H9 as [H9 _]. }
  destruct (encodable_from p Hpe) as (css & _ & Hpr & Hbs & Hlc).
  destruct (get_providers_ok local _ (l ++ [(k, peer_id_bytes p)]) (mkDht ps pv (datastore ctx) (filestore ctx)) question k (peer_id_bytes p) css
    Hs' Hpv' Hq Hqk Hd) as (rest' & out & Hget & reply & q & Hdec & Hrt & Hrk & Hrp & Hrd & _); try done.
  - rewrite announced_app, Hno. cbn [fst snd]. by rewrite bool_decide_true.
  - lia.
  - unfold map_add, peer_desc in *. cbn [snd] in *.
    rewrite bool_decide_false by (intros E; rewrite E in Hi; change (zlen []) with 0 in Hi; lia).
    by rewrite lookup_insert_eq, Hnew, Hbs.
  - lia.
  - exists out. split; [|split].
    + apply (handle_answer _ _ _ _ _ rest Ha). unfold dht_dispatch.
      change (message_type (kademlia_saved announcement)) with (message_type announcement). rewrite Hat. cbn -[zlen libp2p_routing_dht_handle_add_provider kademlia_saved]. by rewrite Hadd.
    + apply (handle_answer _ _ _ _ _ rest' Hq). unfold dht_dispatch.
      change (message_type (kademlia_saved question)) with (message_type question). rewrite Hqt. cbn -[zlen libp2p_routing_dht_handle_get_providers kademlia_saved]. by rewrite Hget.
    + exists reply, q. split; [done|]. rewrite Hrt, Hrk, Hrd, Hbs. done.
Qed.

(** a node whose store has only itself, and an empty datastore *)
Definition sample_dht : DhtContext (gmap bytes DatastoreRecord) unit :=
  mkDht (mkPeerstore [mkPeerEntry (Some (mkPeer (Some [1; 2]) 2 [] 0 None 1))])
    (mkProviderStore (mkVector 4 4 []) peer_blank) ∅ tt.
#[export] Instance no_files : Filestore unit := fun _ _ => None.

Lemma sample_dht_ok : store_is [1; 2] {[[1; 2] := []]} (peer_store sample_dht) /\ providers [] (provider_store sample_dht).
Proof.
  split.
  - exists [([1; 2], [])]. split; [|split; [reflexivity|reflexivity]]. split; [|apply NoDup_singleton].
    constructor; [|constructor]. exists (mkPeer (Some [1; 2]) 2 [] 0 None 1), []. repeat split; [constructor|vm_compute; discriminate].
  - split; [vm_compute; repeat split; discriminate|]. exists []. split; [reflexivity|constructor].
Qed.

Definition sample_announcement : KademliaMessage := mkKademlia 2 (Some [107; 1]) 2 None [] [Some sample_peer] 0.
Definition sample_question : KademliaMessage := mkKademlia 3 (Some [107; 1]) 2 None [] [] 0.

Lemma sample_messages_ok : kademlia_ok sample_announcement /\ kademlia_ok sample_question.
Proof.
  pose proof sample_peer_ok as Hp. split.
  - split; [done|]. split; [done|]. split; [done|]. split; [vm_compute; discriminate|]. split; [done|]. split; [constructor|].
    split; [constructor; [exact Hp|constructor]|]. vm_compute. discriminate.
  - split; [done|]. split; [done|]. split; [done|]. split; [vm_compute; discriminate|]. split; [done|]. split; [constructor|].
    split; [constructor|]. vm_compute. discriminate.
Qed.

(**  What a node answers.  A PING is sent back as it came; a value that
    is put goes to the datastore under the record's key, without an answer; the
    question for a peer (FIND_NODE) is answered with the peer and its addresses when
    it is in the store, and not at all when it is not; other types are ignored.  The
    context changes by a put only. *)
Lemma dht_answers {M : Malloc} {Hm : MallocOk M} {D F : Type} `{Datastore D} `{Filestore F}
    (local : bytes) (ids : gmap bytes (list bytes)) (ctx : DhtContext D F) (m : KademliaMessage) (write : bytes -> Z) :
  store_is local ids (peer_store ctx) -> kademlia_ok m ->
  let answer := libp2p_routing_dht_handle_message (1, Some (kademlia_wire m)) write ctx in
  let sent b := if write b =? 0 then 0 else 1 in
  (message_type m = MESSAGE_TYPE_PING -> answer = Ret (sent (kademlia_wire m), [kademlia_wire m], ctx)) /\
  (message_type m = MESSAGE_TYPE_PUT_VALUE ->
   answer = Ret (1, [], match km_record m with
                        | None => ctx
                        | Some r =>
                          let key := rec_bytes (Record.rec_key r) (Record.rec_key_size r) in
                          let value := rec_bytes (Record.rec_value r) (Record.rec_value_size r) in
                          mkDht (peer_store ctx) (provider_store ctx)
                            (snd (datastore_put (Datastore.mkRecord (Some key) (zlen key) (Some value) (zlen value) 0) (datastore ctx)))
                            (filestore ctx)
                        end)) /\
  (message_type m = MESSAGE_TYPE_FIND_NODE -> forall i, message_key m = Some i ->
   (ids !! i = None -> answer = Ret (1, [], ctx)) /\
   (forall css, ids !! i = Some (address_bytes <$> css) -> Forall printable css ->
    kademlia_size_bound m + zlen i + 1000 * zlen css + 33 <= INT_MAX ->
    exists out reply q, answer = Ret (sent out, [out], ctx) /\
      libp2p_message_protobuf_decode out (zlen out) = Ret (Some reply) /\ message_type reply = MESSAGE_TYPE_FIND_NODE /\
      provider_peer_head reply = [Some q] /\ peer_desc q = (i, address_bytes <$> css))) /\
  (MESSAGE_TYPE_PING < message_type m -> answer = Ret (1, [], ctx)).
Proof.
  intros Hs Hok answer sent. unfold answer, sent. clear answer sent.
  assert (Hd : forall t, message_type m = t -> message_type (kademlia_saved m) = t) by done.
  split; [|split; [|split]].
  - intros Ht. destruct (kademlia_saved_ok m Hok) as (Hok' & Hw & _). destruct (protobuf_message_ok _ Hok') as [rest Hp].
    apply (handle_answer _ _ _ _ _ rest Hok). unfold dht_dispatch. rewrite (Hd _ Ht). cbn -[zlen kademlia_saved libp2p_routing_dht_handle_ping].
    unfold libp2p_routing_dht_handle_ping. by rewrite Hp, Hw.
  - intros Ht. eapply (handle_silent _ _ _ 0); [done|]. unfold dht_dispatch. rewrite (Hd _ Ht).
    cbn -[zlen kademlia_saved libp2p_routing_dht_handle_put_value]. unfold libp2p_routing_dht_handle_put_value.
    cbn [kademlia_saved km_record]. destruct Hok as (_ & _ & _ & _ & Hr & _). destruct (km_record m) as [r|]; [|done].
    cbn [from_option fmap option_fmap option_map] in *. destruct Hr as ((H1 & H2 & _) & _). unfold libp2p_datastore_record_new.
    cbn [record_saved Record.rec_key Record.rec_key_size Record.rec_value Record.rec_value_size]. rewrite !malloc_always. change (deref (Some ?b)) with b.
    pose proof (rec_bytes_length _ _ H1) as E1. pose proof (rec_bytes_length _ _ H2) as E2.
    rewrite memrd_app by done. cbn [rbind]. rewrite memrd_all by done. cbn [rbind]. rewrite E1, E2.
    by destruct (datastore_put _ _).
  - intros Ht i Hi. destruct (saved_key m i Hok Hi) as (Hk & Hz & _). destruct Hs as (es & Hse & Hids & _).
    destruct (get_peer_entry_with i [] es _ Hse) as (o & Hg & Ho). rewrite app_nil_r in Hg. rewrite Hids in Ho. split.
    + intros Hno. rewrite Hno in Ho. subst o. apply (handle_silent _ _ _ 0); [done|]. unfold dht_dispatch. rewrite (Hd _ Ht).
      cbn -[zlen kademlia_saved libp2p_routing_dht_handle_find_node]. unfold libp2p_routing_dht_handle_find_node.
      rewrite Hk, Hz. cbn [to_ptr]. by rewrite Hg.
    + intros css Hc Hp Hl. rewrite Hc in Ho. destruct Ho as (p & -> & He).
      destruct (answer_peer i css p m Hok He Hp Hl) as (q & rest & out & Hpl & Hpm & reply & q' & Hdec & Hrt & _ & Hrp & Hrd & _).
      exists out, reply, q'. split; [|by rewrite Hrt]. apply (handle_answer _ _ _ _ _ rest Hok). unfold dht_dispatch. rewrite (Hd _ Ht).
      cbn -[zlen kademlia_saved libp2p_routing_dht_handle_find_node]. unfold libp2p_routing_dht_handle_find_node.
      rewrite Hk, Hz. cbn [to_ptr]. rewrite Hg. cbn [rbind]. rewrite Hpl. cbn [rbind]. by rewrite Hpm.
  - intros Ht. apply (handle_silent _ _ _ 0); [done|]. unfold dht_dispatch.
    change (message_type (kademlia_saved m)) with (message_type m). unfold MESSAGE_TYPE_PING in Ht.
    unfold MESSAGE_TYPE_PUT_VALUE, MESSAGE_TYPE_GET_VALUE, MESSAGE_TYPE_ADD_PROVIDER, MESSAGE_TYPE_GET_PROVIDERS, MESSAGE_TYPE_FIND_NODE, MESSAGE_TYPE_PING.
    by rewrite !(proj2 (Z.eqb_neq (message_type m) _)) by lia.
Qed.

(** a key with a zero byte in front cannot be printed *)
Lemma log_key_zero {M : Malloc} (m : KademliaMessage) (k buffer : bytes) : km_key m = Some k -> km_key_size m = zlen k ->
  is_bytes k -> head k = Some 0 -> zlen k < 48 -> log_key m buffer = UB.
Proof.
  intros Hk Hz Hb Hh Hl. unfold log_key. rewrite Hk, Hz. change (deref (Some k)) with k.
  destruct (count_zeros_split k) as (r & Hkr & Hr & Hlen & Hc). destruct k as [|b k]; [done|]. injection Hh as ->.
  assert (0 < count_zeros (0 :: k)) as Hpos.
  { destruct (Z.to_nat (count_zeros (0 :: k))) eqn:E; [|lia]. cbn [replicate app] in Hkr. rewrite <- Hkr in Hr. by cbn in Hr. }
  set (z := count_zeros (0 :: k)) in *. zlen_facts.
  rewrite Hkr at 1. rewrite Hlen. replace z with (Z.of_nat (S (Z.to_nat (z - 1)))) at 2 by lia.
  replace (Z.to_nat z) with (S (Z.to_nat (z - 1))) by lia. rewrite <- (app_nil_r r) at 1.
  rewrite base58_encode_leading_zero; [done| |done| |lia|lia].
  - rewrite Hkr in Hb. by apply Forall_app in Hb as [_ Hb].
  - lia.
Qed.

(** Property C24.  Three messages that no node survives.  An announcement by an unknown
    peer with an id of 100 bytes or more, and an address of version 4, overflows the
    array the id is printed into; a question for the providers of a key that is not
    known, or for the value of one, writes over a pointer when the key is short and
    starts with a zero byte, because the key is printed in base 58 for the log. *)
Theorem dht_undefined {M : Malloc} {Hm : MallocOk M} {D F : Type} `{Datastore D} `{Filestore F}
    (local : bytes) (ids : gmap bytes (list bytes)) (l : list (bytes * bytes)) (ctx : DhtContext D F)
    (m : KademliaMessage) (k : bytes) (write : bytes -> Z) :
  store_is local ids (peer_store ctx) -> providers l (provider_store ctx) -> kademlia_ok m -> message_key m = Some k ->
  let answer := libp2p_routing_dht_handle_message (1, Some (kademlia_wire m)) write ctx in
  (message_type m = MESSAGE_TYPE_ADD_PROVIDER -> forall p others, provider_peer_head m = Some p :: others ->
   ids !! peer_id_bytes p = None -> 100 <= zlen (peer_id_bytes p) -> Exists (fun b => head b = Some 4) (snd (peer_desc p)) ->
   answer = UB) /\
  (is_bytes k -> head k = Some 0 -> zlen k < 48 ->
   (message_type m = MESSAGE_TYPE_GET_PROVIDERS -> datastore_get k (datastore ctx) = None -> announced k l = None -> answer = UB) /\
   (message_type m = MESSAGE_TYPE_GET_VALUE -> node_get k (filestore ctx) = None -> answer = UB)).
Proof.
  intros Hs Hpv Hok Hk answer. unfold answer. clear answer. destruct (saved_key m k Hok Hk) as (Hsk & Hsz & Hs32 & _).
  assert (Ht : message_type (kademlia_saved m) = message_type m) by done. split; [|intros Hb Hz Hl; split].
  - intros Hty p others Hp Hnew Hi Hip. apply handle_undefined; [done|]. unfold dht_dispatch. rewrite Ht, Hty.
    cbn -[zlen kademlia_saved libp2p_routing_dht_handle_add_provider]. unfold libp2p_routing_dht_handle_add_provider.
    assert (peer_encodable p) as Hpe.
    { destruct Hok as (_ & _ & _ & _ & _ & _ & H9 & _). rewrite Hp in H9. by apply Forall_cons in H9 as [H9 _]. }
    destruct (encodable_from p Hpe) as (css & (Hid & Hidz & Ha & _) & _ & Hbs & _).
    assert (provider_peer_head (kademlia_saved m) = Some (peer_saved p) :: (a_peer_saved <$> others)) as ->
      by (cbn [kademlia_saved provider_peer_head]; by rewrite Hp).
    destruct (find_ip_ok css _ Ha) as [ma ->]; [rewrite <- Hbs, Exists_fmap in Hip; exact Hip|]. cbn [rbind].
    rewrite (long_id_undefined local ids _ (peer_id_bytes p) []); try done; [lia|by rewrite app_nil_r].
  - intros Hty Hd Ha. apply handle_undefined; [done|]. unfold dht_dispatch. rewrite Ht, Hty.
    cbn -[zlen kademlia_saved libp2p_routing_dht_handle_get_providers]. unfold libp2p_routing_dht_handle_get_providers, find_providers.
    rewrite Hsk, Hsz, Hs32. change (deref (Some k)) with k. rewrite memrd_all by done. cbn [rbind]. rewrite Hd.
    pose proof (providerstore_get_ok (datastore ctx) l _ k [] Hpv) as Hg. rewrite app_nil_r, Hd, Ha in Hg. rewrite Hg. cbn [rbind fmap option_fmap option_map].
    by rewrite (log_key_zero _ k) by done.
  - intros Hty Hd. apply handle_undefined; [done|]. unfold dht_dispatch. rewrite Ht, Hty.
    cbn -[zlen kademlia_saved libp2p_routing_dht_handle_get_value]. unfold libp2p_routing_dht_handle_get_value.
    rewrite Hsk, Hsz. change (deref (Some k)) with k. rewrite memrd_all by done. cbn [rbind]. rewrite Hd.
    by rewrite (log_key_zero _ k) by done.
Qed.

Lemma dht_undefined_witness :
  let M := malloc_total in
  libp2p_routing_dht_handle_message (1, Some (kademlia_wire (mkKademlia 1 (Some [0; 1]) 2 None [] [] 0))) (fun _ => 1) sample_dht = UB.
Proof.
  intros M. destruct sample_dht_ok as [Hs Hp].
  apply (dht_undefined [1; 2] {[[1; 2] := []]} [] sample_dht (mkKademlia 1 (Some [0; 1]) 2 None [] [] 0) [0; 1] (fun _ => 1) Hs Hp);
    try reflexivity.
  - split; [done|]. split; [done|]. split; [done|]. split; [vm_compute; discriminate|]. split; [done|]. split; [constructor|].
    split; [constructor|]. vm_compute. discriminate.
  - repeat constructor; vm_compute; try discriminate; reflexivity.
Defined.
