(* ===== verification/CidText.v ===== *)
(** * Content identifiers as text (libipfs/cid/cid.c, the base58 forms)

    The text of a CID of version 0 is the base58 form of the sha2-256 multihash of
    its hash: 46 characters that start with "Qm". *)
From Stdlib Require Import String.
From S2P Require Import Prelude Digits Multihash Base58 CString Cid.

Section text.
Context {M : Malloc}.

(** [None]: returned 0.  The two bytes in front of the hash are skipped, not looked at. *)
Definition ipfs_cid_decode_hash_from_base58 (incoming : bytes) (incoming_length : Z) : res (option Cid) :=
  if incoming_length <? 2 then Ret None
  else
    let! qm :=
      if incoming_length =? 46 then
        let! c := rd incoming 0 in
        if c =? 81 then let! c := rd incoming 1 in Ret (c =? 109) else Ret false
      else Ret false in
    if qm : bool then
      let hash_length := libp2p_crypto_encoding_base58_decode_size incoming_length in
      let! (retVal, hash, hash_length) :=
        libp2p_crypto_encoding_base58_decode incoming incoming_length (fresh hash_length) hash_length in
      if retVal =? 0 then Ret None
      else
        let! digest := padd hash 2 in
        ipfs_cid_new 0 (Some digest) (u64 (hash_length - 2)) CID_DAG_PROTOBUF
    else Ret None.

(** the result and the buffer; [multihash_len] is an [int], and no array has a
    negative size *)
Definition ipfs_cid_hash_to_base58 (hash : bytes) (hash_length : Z) (buffer : bytes) (max_buffer_length : Z)
  : res (Z * bytes) :=
  let multihash_len := s32 (u64 (hash_length + 2)) in
  if multihash_len <? 0 then UB
  else
    let! (err, multihash) := mh_new (fresh multihash_len) MH_H_SHA2_256 hash hash_length in
    if err <? 0 then Ret (0, buffer)
    else
      let b58_size := libp2p_crypto_encoding_base58_encode_size multihash_len in
      if max_buffer_length <? b58_size then Ret (0, buffer)
      else
        let! (r, buffer, _) := libp2p_crypto_encoding_base58_encode multihash multihash_len buffer max_buffer_length in
        Ret (if r =? 0 then 0 else 1, buffer).

(** the pointer that is returned and [*result], which is left when the string was
    freed *)
Definition ipfs_cid_to_string (cid : Cid) : res (option bytes * ptr bytes) :=
  let str_len := u64 (libp2p_crypto_encoding_base58_encode_size (cid_hash_length cid) + 1) in
  if malloc_ok str_len then
    let! (r, str, _) := libp2p_crypto_encoding_base58_encode (deref (cid_hash cid)) (cid_hash_length cid) (fresh str_len) str_len in
    if r =? 0 then Ret (None, Wild) else Ret (Some str, Ptr str)
  else Ret (None, Null).

(** the CID and the caller's string afterwards: the slash that is overwritten is
    the first one, not the one behind the hash *)
Definition ipfs_cid_decode_hash_from_ipfs_ipns_string (incoming : option bytes) : res (option Cid * option bytes) :=
  match incoming with
  | None => Ret (None, None)
  | Some p =>
    let! s := read_str p in
    if bool_decide (c_strstr s (txt "/ipfs/") <> Some 0) && bool_decide (c_strstr s (txt "/ipns/") <> Some 0)
    then Ret (None, Some p)
    else
      let! base58 := padd p 6 in
      let! p :=
        match c_strstr s (txt "/") with
        | None => Ret p
        | Some slash => let! (_, p) := with_ptr p slash (fun q => let! q := memwr q [0] in Ret (tt, q)) in Ret p
        end in
      let! n := strlen base58 in
      let! cid := ipfs_cid_decode_hash_from_base58 base58 n in
      Ret (cid, Some p)
  end.
End text.

(** ** The text of a hash *)
Definition cid_text (h : bytes) : bytes := b58_string (show 58 (num 256 (multihash_bytes MH_H_SHA2_256 h))).

Lemma cid_text_digits h : is_bytes h -> zlen h = 32 ->
  exists d, cid_text h = b58_string d /\ same_number d (18 :: 32 :: h) /\ zlen d = 46 /\ zlen (cid_text h) = 46.
Proof.
  intros Hh Hl. assert (Hm : is_bytes (18 :: 32 :: h)) by (by repeat (constructor; [unfold byte_range; lia|])).
  pose proof (num_bound 256 ltac:(lia) _ Hm) as [Hn _].
  destruct (show_spec 58 ltac:(lia) _ Hn) as (Hd & Hv & Hz & _). exists (show 58 (num 256 (18 :: 32 :: h))).
  assert (same_number (show 58 (num 256 (18 :: 32 :: h))) (18 :: 32 :: h)) as Hs.
  { split_and!; try done. apply Hz. apply Forall_cons in Hm as [_ Hm]. pose proof (num_bound 256 ltac:(lia) _ Hm).
    cbn [num]. pose proof (Z.pow_pos_nonneg 256 (zlen (32 :: h))). zlen_facts. cbn [num] in *. lia. }
  destruct (b58_multihash_size _ h Hs Hl) as [H46 _].
  unfold cid_text, multihash_bytes. rewrite Hl. split_and!; try done. unfold b58_string. by rewrite zlen_fmap.
Qed.

(** every number of a sha2-256 multihash starts with the same two digits *)
Lemma cid_text_qm h : is_bytes h -> zlen h = 32 -> exists s, cid_text h = 81 :: 109 :: s.
Proof.
  intros Hh Hl. destruct (cid_text_digits h Hh Hl) as (d & -> & (Hd & _ & Hm & _ & Hn) & Hz & _).
  destruct d as [|a [|b d]]; [done|done|]. rewrite !zlen_cons in Hz. assert (zlen d = 44) as Hdl by lia.
  apply Forall_cons in Hd as [Ha Hd]. apply Forall_cons in Hd as [Hb Hd].
  pose proof (num_bound 58 ltac:(lia) d Hd) as Hbd. pose proof (num_bound 256 ltac:(lia) h Hh) as Hbh.
  cbn [num] in Hn. rewrite !zlen_cons, Hdl, Hl in *.
  assert (23 * 58 ^ 45 + 44 * 58 ^ 44 <= 18 * 256 ^ 33 + 32 * 256 ^ 32) by (vm_compute; discriminate).
  assert (18 * 256 ^ 33 + 33 * 256 ^ 32 <= 23 * 58 ^ 45 + 45 * 58 ^ 44) by (vm_compute; discriminate).
  assert (58 ^ 45 = 58 * 58 ^ 44) as E by (vm_compute; reflexivity).
  change (1 + 44) with 45 in *. change (1 + 32) with 33 in *.
  assert (a = 23) as -> by nia. assert (b = 44) as -> by nia. eexists. reflexivity.
Qed.

Lemma cid_text_nonzero h : is_bytes h -> zlen h = 32 -> nonzero (cid_text h).
Proof. intros Hh Hl. destruct (cid_text_digits h Hh Hl) as (d & -> & (Hd & _) & _). by apply b58_string_nonzero. Qed.

Section proofs.
Context {M : Malloc}.

(** the room a caller must give: 47 digits, although 46 are always enough *)
Lemma hash_to_base58_ok h rest buffer max : is_bytes h -> zlen h = 32 -> 47 <= max <= zlen buffer ->
  ipfs_cid_hash_to_base58 (h ++ rest) 32 buffer max = Ret (1, cid_text h ++ 0 :: zdrop 47 buffer).
Proof.
  intros Hh Hl Hmax. destruct (cid_text_digits h Hh Hl) as (d & -> & Hs & Hd & _).
  unfold ipfs_cid_hash_to_base58. rewrite (u64_small (32 + 2)), s32_small by lia. change (32 + 2 <? 0) with false. cbv iota.
  rewrite <- Hl at 2. unfold MH_H_SHA2_256. rewrite mh_new_ok by (rewrite ?zlen_fresh; lia). cbn [rbind].
  change (0 <? 0) with false. cbv iota. rewrite Hl, zdrop_ge by (rewrite zlen_fresh; lia). rewrite app_nil_r.
  unfold multihash_bytes. rewrite Hl.
  assert (libp2p_crypto_encoding_base58_encode_size (32 + 2) = 47) as -> by (vm_compute; reflexivity).
  rewrite (proj2 (Z.ltb_ge max 47)) by lia.
  pose proof Hs as (_ & _ & Hm & Hm0 & _).
  destruct (base58_encode_text (18 :: 32 :: h) [] buffer max Hm Hm0) as (d' & Hs' & _ & E); [rewrite !zlen_cons; lia|].
  rewrite (same_number_unique d' d _ Hs' Hs), Hd in E. rewrite app_nil_r, !zlen_cons, Hl in E.
  change (1 + (1 + 32)) with (32 + 2) in E. rewrite E by lia. done.
Qed.

Context {Hm : MallocOk M}.

Lemma decode_cid_text h rest : is_bytes h -> zlen h = 32 ->
  ipfs_cid_decode_hash_from_base58 (cid_text h ++ 0 :: rest) 46 = Ret (Some (mkCid 0 CID_DAG_PROTOBUF (Some h) 32)).
Proof using Hm.
  intros Hh Hl. destruct (cid_text_qm h Hh Hl) as [s Hq]. destruct (cid_text_digits h Hh Hl) as (d & Ht & Hs & Hd & _).
  unfold ipfs_cid_decode_hash_from_base58. change (46 <? 2) with false. rewrite Z.eqb_refl. cbv iota.
  rewrite Hq at 1. cbn [app]. rewrite rd_0. cbn [rbind]. change (81 =? 81) with true. cbv iota.
  rewrite Hq at 1. cbn [app]. rewrite rd_1. cbn [rbind]. change (109 =? 109) with true. cbv iota.
  unfold libp2p_crypto_encoding_base58_decode_size. assert (b58_digits_ceil 46 = 34) as -> by (vm_compute; reflexivity).
  rewrite Ht, (base58_decode_text d (18 :: 32 :: h) rest _ 34 46 Hs) by (rewrite ?zlen_fresh; lia).
  rewrite !zlen_cons, Hl. change (1 + (1 + 32) <=? 34) with true. cbv iota. cbn [rbind].
  change (34 - (1 + (1 + 32))) with 0. change (Z.to_nat 0) with 0%nat. cbn [replicate app]. change (1 =? 0) with false. cbv iota.
  rewrite padd_ok by zlia. cbn [rbind]. change (zdrop 2 (_ :: _ :: ?l)) with l.
  rewrite u64_small by lia. change (1 + (1 + 32) - 2) with 32. unfold ipfs_cid_new. rewrite !malloc_always.
  change (32 =? 0) with false. cbv iota. by rewrite memrd_app by done.
Qed.
End proofs.

Lemma strstr_prefix s p : is_prefix p s = true -> c_strstr s p = Some 0.
Proof. intros H. destruct s; cbn [c_strstr]; by rewrite H. Qed.

Lemma is_prefix_app p s : is_prefix p (p ++ s) = true.
Proof. apply is_prefix_spec. by exists s. Qed.

(** what is behind the prefix is decoded up to the end of the string *)
Lemma from_ipfs_string {M : Malloc} {Hm : MallocOk M} pre t rest : pre = txt "/ipfs/" \/ pre = txt "/ipns/" -> nonzero t ->
  ipfs_cid_decode_hash_from_ipfs_ipns_string (Some (pre ++ t ++ 0 :: rest)) =
    let! cid := ipfs_cid_decode_hash_from_base58 (t ++ 0 :: rest) (zlen t) in
    Ret (cid, Some (0 :: tail pre ++ t ++ 0 :: rest)).
Proof.
  intros Hpre Ht. unfold ipfs_cid_decode_hash_from_ipfs_ipns_string.
  assert (nonzero pre /\ zlen pre = 6 /\ exists q, pre = 47 :: q) as (Hp & Hl & q & Hq).
  { destruct Hpre as [-> | ->]; (split; [apply txt_nonzero; reflexivity|split; [reflexivity|eexists; reflexivity]]). }
  rewrite (app_assoc pre), read_str_nul by (by apply Forall_app). cbn [rbind].
  assert (bool_decide (c_strstr (pre ++ t) (txt "/ipfs/") <> Some 0) && bool_decide (c_strstr (pre ++ t) (txt "/ipns/") <> Some 0) = false) as ->.
  { apply andb_false_iff. destruct Hpre as [-> | ->]; [left|right]; apply bool_decide_eq_false_2; intros H; apply H, strstr_prefix, is_prefix_app. }
  rewrite <- app_assoc, padd_app by done. cbn [rbind].
  rewrite Hq. rewrite (strstr_prefix _ (txt "/")) by reflexivity. cbn [app tail].
  unfold with_ptr. rewrite padd_ok by (rewrite zlen_cons; zlia). cbn [rbind]. rewrite zdrop_0, memwr_ok by (rewrite !zlen_cons, zlen_nil; zlia).
  change (zlen [0]) with (1 + 0). rewrite zdrop_cons, zdrop_0, ztake_0 by done. cbn [rbind app]. by rewrite strlen_nul.
Qed.

Lemma wrong_length_refused {M : Malloc} p n : n <> 46 -> ipfs_cid_decode_hash_from_base58 p n = Ret None.
Proof. intros Hn. unfold ipfs_cid_decode_hash_from_base58. rewrite (proj2 (Z.eqb_neq n 46)) by done. by destruct (n <? 2). Qed.

(** ** Properties *)

(**  A sha2-256 hash becomes a text of 46 characters that starts with
    "Qm" (a buffer of fewer than 47 bytes is refused), and the text becomes the CID of
    version 0 with that hash.  The text behind "/ipfs/" or "/ipns/" is decoded too,
    but the caller's string is empty afterwards, and with anything behind the hash it
    is refused. *)
Lemma cid_text_roundtrip {M : Malloc} {Hm : MallocOk M} (h rest post buffer pre : bytes) (max : Z) :
  is_bytes h -> zlen h = 32 -> zlen buffer = max -> pre = txt "/ipfs/" \/ pre = txt "/ipns/" -> nonzero post ->
  let text := cid_text h in
  let result := Some (mkCid 0 CID_DAG_PROTOBUF (Some h) 32) in
  zlen text = 46 /\ ztake 2 text = txt "Qm" /\
  ipfs_cid_hash_to_base58 (h ++ rest) 32 buffer max =
    (if max <? 47 then Ret (0, buffer) else Ret (1, text ++ 0 :: zdrop 47 buffer)) /\
  ipfs_cid_decode_hash_from_base58 (text ++ 0 :: rest) (zlen text) = Ret result /\
  ipfs_cid_decode_hash_from_ipfs_ipns_string (Some (pre ++ text ++ post ++ 0 :: rest)) =
    Ret (if bool_decide (post = []) then result else None, Some (0 :: tail pre ++ text ++ post ++ 0 :: rest)).
Proof.
  intros Hh Hl Hb Hpre Hpost text result. destruct (cid_text_digits h Hh Hl) as (_ & _ & _ & _ & H46). fold text in H46.
  destruct (cid_text_qm h Hh Hl) as [q Hq]. split; [done|]. split; [unfold text; by rewrite Hq|].
  rewrite H46. split_and!.
  - destruct (Z.ltb_spec max 47) as [Hlt|Hge]; [|apply hash_to_base58_ok; (done || lia)].
    unfold ipfs_cid_hash_to_base58. rewrite (u64_small (32 + 2)), s32_small by lia. change (32 + 2 <? 0) with false. cbv iota.
    rewrite <- Hl at 2. rewrite mh_new_ok by (rewrite ?zlen_fresh; unfold MH_H_SHA2_256; lia). cbn [rbind].
    assert (libp2p_crypto_encoding_base58_encode_size (32 + 2) = 47) as -> by (vm_compute; reflexivity).
    by rewrite (proj2 (Z.ltb_lt max 47)).
  - by apply decode_cid_text.
  - rewrite (app_assoc text post). rewrite from_ipfs_string by first [done|apply Forall_app; split; [by apply cid_text_nonzero|done]].
    destruct (decide (post = [])) as [->|Hne].
    + rewrite app_nil_r, bool_decide_true by done. rewrite H46. unfold text. by rewrite decode_cid_text.
    + rewrite bool_decide_false by done. rewrite wrong_length_refused; [done|].
      rewrite zlen_app, H46. intros E. apply Hne, zlen_0_nil. lia.
Qed.
