(* ===== verification/Importer.v ===== *)
(** * Importing files (libipfs/importer/importer.c)

    A file is cut into pieces of 256 KiB, each the data of a node; the node of the
    file links to the nodes of the pieces, unless there is only one.  A directory is
    a node with a named link for each of its entries.  The operating system's files
    and directories are the interface [FileSystem], the hash function is mbedtls's;
    what is announced to the routing and printed is part of the state. *)
From Stdlib Require Import String.
From S2P Require Import Prelude Varint Protobuf Multihash Unixfs Cid Block Node Base32 Datastore Files Blockstore Merkledag CString Base58 CidText.

Definition MAX_DATA_SIZE : Z := 262144.
Definition sizeof_FileList : Z := 16.

(** [stat]: whether a name is a directory, [None] when it fails; [readdir]: the names
    in a directory; [fopen] and [fread]: the content of a file *)
Class FileSystem := {
  stat_directory : bytes -> option bool;
  dir_entries : bytes -> option (list bytes);
  file_content : bytes -> option bytes
}.

(** the repository, the calls of [routing->Provide], and the standard output *)
Record ImportState (D : Type) := mkImport {
  import_repo : FSRepo D;
  provided : list (option bytes * Z);
  printed : bytes
}.
Arguments mkImport {D}.
Arguments import_repo {D}.
Arguments provided {D}.
Arguments printed {D}.

Definition set_repo {D} (r : FSRepo D) (st : ImportState D) : ImportState D := mkImport r (provided st) (printed st).
Definition Provide {D} (hash : option bytes) (hash_size : Z) (st : ImportState D) : ImportState D :=
  mkImport (import_repo st) (provided st ++ [(hash, hash_size)]) (printed st).
Definition printf {D} (text : bytes) (st : ImportState D) : ImportState D :=
  mkImport (import_repo st) (provided st) (printed st ++ text).

Definition set_link_t_size (v : Z) (l : NodeLink) : NodeLink := mkNodeLink (nl_hash_size l) (nl_hash l) (nl_name l) v.

Section importer.
Context {M : Malloc} {Dk : Disk} {Fs : FileSystem} {D : Type} {Ds : Datastore D} (sha256 : bytes -> bytes).

(** ** Files and directories (os/utils.c) *)

(** a [stat] that fails leaves the structure uninitialised *)
Definition os_utils_is_directory (file_name : bytes) : res Z :=
  let! s := read_str file_name in
  match stat_directory s with
  | Some d => Ret (if d : bool then 1 else 0)
  | None => UB
  end.

(** the allocations are not tested *)
Definition os_utils_list_directory (path : bytes) : res (list bytes) :=
  let! s := read_str path in
  match dir_entries s with
  | None => Ret []
  | Some names =>
    let names := filter (fun n => n <> txt "." /\ n <> txt "..") names in
    if forallb (fun n => malloc_ok sizeof_FileList && malloc_ok (zlen n + 1)) names then Ret ((.++ [0]) <$> names) else UB
  end.

(** [*path] is left without a slash in the name; the allocations are not tested *)
Definition os_utils_split_filename (in_ : bytes) (path : option bytes) : res (option bytes * bytes) :=
  let! s := read_str in_ in
  let len := zlen s in
  match c_strrchr s 47 with
  | Some i =>
    if malloc_ok (i + 2) && malloc_ok (len - i) then
      let! path := memwr (fresh (i + 2)) (ztake i s ++ [0]) in Ret (Some path, zdrop (i + 1) s ++ [0])
    else UB
  | None => if malloc_ok (len + 1) then Ret (path, s ++ [0]) else UB
  end.

(** ** Nodes *)

(** the results of the calls are ignored *)
Definition ipfs_importer_add_filesize_to_data_section (node : HashtableNode) (bytes_read : Z) : res (Z * HashtableNode) :=
  let! data_section :=
    match n_data node with
    | None => Ret (set_data_type UNIXFS_FILE <$> ipfs_unixfs_new)
    | Some d => ipfs_unixfs_protobuf_decode d (n_data_size node)
    end in
  match data_section with
  | None => UB
  | Some data_section =>
    let (_, data_section) := ipfs_unixfs_add_blocksize bytes_read data_section in
    let data_section := set_file_size (u64 (file_size data_section + bytes_read)) data_section in
    let protobuf_size := ipfs_unixfs_protobuf_encode_size data_section in
    let! ((_, protobuf_size), protobuf) :=
      ipfs_unixfs_protobuf_encode (Some data_section) (fresh protobuf_size) protobuf_size in
    let! (_, node) := ipfs_hashtable_node_set_data node (Some protobuf) protobuf_size in
    Ret (1, node)
  end.

(** a node of its own for a piece of the file, with a link in the parent: [false]
    when one of the calls fails; the last number is the size of the node *)
Definition import_child (protobuf : bytes) (bytes_written bytes_read : Z) (parent_node : HashtableNode)
    (fs_repo : FSRepo D) (total_size : Z) : res (bool * HashtableNode * FSRepo D * Z * Z) :=
  let! (r, new_node) := ipfs_hashtable_node_new_from_data (Some protobuf) bytes_written in
  match (if r =? 0 then None else new_node) with
  | None => Ret (false, parent_node, fs_repo, total_size, 0)
  | Some new_node =>
    let! (r, size_of_node, new_node, fs_repo) := ipfs_merkledag_add sha256 new_node fs_repo in
    let size_of_node := default 0 size_of_node in
    if r =? 0 then Ret (false, parent_node, fs_repo, total_size, size_of_node)
    else
      let! new_link := ipfs_node_link_create None (deref (n_hash new_node)) (n_hash_size new_node) in
      match new_link with
      | None => Ret (false, parent_node, fs_repo, total_size, size_of_node)
      | Some new_link =>
        let parent_node := node_append_link parent_node [set_link_t_size size_of_node new_link] in
        let! (_, parent_node) := ipfs_importer_add_filesize_to_data_section parent_node bytes_read in
        Ret (true, parent_node, fs_repo, u64 (total_size + size_of_node), size_of_node)
      end
  end.

(** the bytes read, the rest of the file, the parent, the repository, [*total_size]
    and [*bytes_written] *)
Definition ipfs_import_chunk (file : bytes) (parent_node : HashtableNode) (fs_repo : FSRepo D) (total_size bytes_written : Z)
  : res (Z * bytes * HashtableNode * FSRepo D * Z * Z) :=
  let data := ztake MAX_DATA_SIZE file in
  let file := zdrop MAX_DATA_SIZE file in
  let bytes_read := zlen data in
  let! buffer := memwr (fresh MAX_DATA_SIZE) data in
  match ipfs_unixfs_new with
  | None => Ret (0, file, parent_node, fs_repo, total_size, bytes_written)
  | Some new_unixfs =>
    let new_unixfs := set_file_size bytes_read (set_data_type UNIXFS_FILE new_unixfs) in
    let! (r, new_unixfs) := ipfs_unixfs_add_data sha256 buffer bytes_read new_unixfs in
    let protobuf_size := ipfs_unixfs_protobuf_encode_size new_unixfs in
    if (r =? 0) || (protobuf_size =? 0) then Ret (0, file, parent_node, fs_repo, total_size, bytes_written)
    else
      let! ((r, bytes_written), protobuf) :=
        ipfs_unixfs_protobuf_encode (Some new_unixfs) (fresh protobuf_size) protobuf_size in
      if r =? 0 then Ret (0, file, parent_node, fs_repo, total_size, bytes_written)
      else if bytes_read =? MAX_DATA_SIZE then
        let! (ok, parent_node, fs_repo, total_size, size_of_node) :=
          import_child protobuf bytes_written bytes_read parent_node fs_repo total_size in
        if ok : bool then Ret (bytes_read, file, parent_node, fs_repo, total_size, size_of_node)
        else Ret (0, file, parent_node, fs_repo, total_size, bytes_written)
      else
        let! (ok, parent_node, fs_repo, total_size, size_of_node) :=
          match n_head_link parent_node with
          | [] =>
            let! (_, parent_node) := ipfs_hashtable_node_set_data parent_node (Some protobuf) bytes_written in
            Ret (true, parent_node, fs_repo, total_size, 0)
          | _ => import_child protobuf bytes_written bytes_read parent_node fs_repo total_size
          end in
        if ok : bool then
          let! (_, written, parent_node, fs_repo) := ipfs_merkledag_add sha256 parent_node fs_repo in
          Ret (bytes_read, file, parent_node, fs_repo, total_size, u64 (default bytes_written written + size_of_node))
        else Ret (0, file, parent_node, fs_repo, total_size, bytes_written)
  end.

(** [while (bytes_read == MAX_DATA_SIZE)] *)
Fixpoint import_chunks (fuel : nat) (file : bytes) (parent_node : HashtableNode) (fs_repo : FSRepo D)
    (total_size bytes_written : Z) : res (HashtableNode * FSRepo D * Z) :=
  match fuel with
  | O => NoFuel
  | S fuel =>
    let! (bytes_read, file, parent_node, fs_repo, total_size, written) :=
      ipfs_import_chunk file parent_node fs_repo total_size 0 in
    let bytes_written := u64 (bytes_written + written) in
    if bytes_read =? MAX_DATA_SIZE then import_chunks fuel file parent_node fs_repo total_size bytes_written
    else Ret (parent_node, fs_repo, bytes_written)
  end.

Definition ipfs_import_print_node_results (node : HashtableNode) (file_name : bytes) (st : ImportState D)
  : res (Z * ImportState D) :=
  let! name := read_str file_name in
  let! (r, buffer) := ipfs_cid_hash_to_base58 (deref (n_hash node)) (n_hash_size node) (fresh 100) 100 in
  if r =? 0 then Ret (0, printf (txt "Unable to generate hash for file " ++ name ++ txt "." ++ [10]) st)
  else
    let! text := read_str buffer in
    Ret (1, printf (txt "added " ++ text ++ txt " " ++ name ++ [10]) st).

(** ** Files and directories *)

(** the result of an import: the value returned, [*parent_node], [*bytes_written] and
    the state *)
Definition import_result : Type := Z * ptr HashtableNode * Z * ImportState D.

Definition announce_links (links : list NodeLink) (st : ImportState D) : ImportState D :=
  fold_left (fun st nl => Provide (nl_hash nl) (nl_hash_size nl) st) links st.

(** the node and the nodes it links to are announced; the results are ignored *)
Definition announce_node (parent_node : HashtableNode) (st : ImportState D) : ImportState D :=
  announce_links (n_head_link parent_node) (Provide (n_hash parent_node) (n_hash_size parent_node) st).

(** [while (next != NULL)] over the names of a directory; [import] is the recursive
    call.  [None]: an entry could not be imported.  The value of [*bytes_written] is
    the one the last entry leaves. *)
Fixpoint import_entries (import : bytes -> bytes -> Z -> ImportState D -> res import_result)
    (fileName new_root_dir : bytes) (names : list bytes) (parent_node : HashtableNode) (bytes_written : Z) (st : ImportState D)
  : res (option HashtableNode * Z * ImportState D) :=
  match names with
  | [] => Ret (Some parent_node, bytes_written, st)
  | next :: names =>
    let! fl := strlen fileName in
    let! nl := strlen next in
    let filename_len := u64 (fl + nl + 2) in
    let! (_, full_file_name) := os_utils_filepath_join fileName next (fresh filename_len) filename_len in
    let! (r, file_node, bytes_written, st) := import new_root_dir full_file_name 0 st in
    if r =? 0 then Ret (None, bytes_written, st)
    else
      let! rl := strlen new_root_dir in
      let len := s32 (u64 (nl + rl + 2)) in
      if len <? 0 then UB
      else
        let! (_, full_path) := os_utils_filepath_join new_root_dir next (fresh len) (u64 len) in
        match file_node with
        | Ptr file_node =>
          let! (_, st) := ipfs_import_print_node_results file_node full_path st in
          let! file_node_link := ipfs_node_link_create (Some next) (deref (n_hash file_node)) (n_hash_size file_node) in
          match file_node_link with
          | None => UB
          | Some l =>
            let parent_node := node_append_link parent_node [set_link_t_size bytes_written l] in
            import_entries import fileName new_root_dir names parent_node bytes_written st
          end
        | _ => UB
        end
  end.

(** the name the entries of the directory are printed under; [None]: no memory *)
Definition import_root_dir (root_dir : option bytes) (fileName : bytes) : res (option bytes) :=
  let! (_, file) := os_utils_split_filename fileName None in
  match root_dir with
  | None => Ret (Some file)
  | Some root =>
    let! rl := strlen root in
    let! fl := strlen file in
    let n := u64 (rl + fl + 2) in
    if malloc_ok n then
      let! (_, path) := os_utils_filepath_join root file (fresh n) n in Ret (Some path)
    else Ret None
  end.

(** [fuel]: the depth of the directories *)
Fixpoint ipfs_import_file (fuel : nat) (root_dir : option bytes) (fileName : bytes) (parent_node : ptr HashtableNode)
    (bytes_written recursive : Z) (st : ImportState D) : res import_result :=
  match fuel with
  | O => NoFuel
  | S fuel =>
    let! dir := os_utils_is_directory fileName in
    if negb (dir =? 0) then
      let! new_root_dir := import_root_dir root_dir fileName in
      match new_root_dir with
      | None => Ret (0, parent_node, bytes_written, st)
      | Some new_root_dir =>
        let! directory := ipfs_hashtable_node_create_directory in
        match directory with
        | None => Ret (0, if malloc_ok sizeof_HashtableNode then Wild else Null, bytes_written, st)
        | Some directory =>
          let! first := os_utils_list_directory fileName in
          let! (node, bytes_written, st) :=
            if recursive =? 0 then Ret (Some directory, bytes_written, st)
            else import_entries (fun root name bytes_written st => ipfs_import_file fuel (Some root) name Wild bytes_written recursive st)
                   fileName new_root_dir first directory bytes_written st in
          match node with
          | None => Ret (0, Wild, bytes_written, st)
          | Some node =>
            let! (_, _, node, repo) := ipfs_merkledag_add sha256 node (import_repo st) in
            Ret (1, Ptr node, bytes_written, announce_node node (set_repo repo st))
          end
        end
      end
    else
      let! s := read_str fileName in
      match file_content s with
      | None => Ret (0, parent_node, bytes_written, st)
      | Some content =>
        match ipfs_hashtable_node_new with
        | None => Ret (0, Null, bytes_written, st)
        | Some node =>
          let! (node, repo, bytes_written) :=
            import_chunks (S (S (Z.to_nat (zlen content / MAX_DATA_SIZE)))) content node (import_repo st) 0 bytes_written in
          Ret (1, Ptr node, bytes_written, announce_node node (set_repo repo st))
        end
      end
  end.

(** ** The command *)

(** the arguments behind the verb, without any further "add"; the cells are not kept
    when one cannot be allocated *)
Definition ipfs_import_get_filelist (verb_index : nat) (argv : list bytes) : res (list bytes) :=
  let! args := fold_right (fun a l =>
    let! l := l in
    let! s := read_str a in
    Ret (if bool_decide (s = txt "add") then l else a :: l)) (Ret []) (drop (S verb_index) argv) in
  Ret (if malloc_ok sizeof_FileList then args else []).

Fixpoint ipfs_import_is_recursive (argv : list bytes) : res Z :=
  match argv with
  | [] => Ret 0
  | a :: argv =>
    let! s := read_str a in
    if bool_decide (s = txt "-r") then Ret 1 else ipfs_import_is_recursive argv
  end.

(** the loop of [ipfs_import_files] over the file list: what is not a switch is
    imported and reported.  A node that was freed already is freed again. *)
Fixpoint import_files_loop (fuel : nat) (files : list bytes) (recursive : Z) (st : ImportState D) : res (Z * ImportState D) :=
  match files with
  | [] => Ret (1, st)
  | file_name :: files =>
    let! c := rd file_name 0 in
    if c =? 45 then import_files_loop fuel files recursive st
    else
      let! (_, filename) := os_utils_split_filename file_name None in
      let! (r, directory_entry, _, st) := ipfs_import_file fuel None file_name Null 0 recursive st in
      if r =? 0 then match directory_entry with Wild => UB | _ => Ret (0, st) end
      else
        match directory_entry with
        | Ptr node =>
          let! (_, st) := ipfs_import_print_node_results node filename st in
          import_files_loop fuel files recursive st
        | _ => UB
        end
  end.

Definition ipfs_import_files (fuel : nat) (argv : list bytes) (verb_index : nat) (st : ImportState D) : res (Z * ImportState D) :=
  let! recursive := ipfs_import_is_recursive argv in
  let! first := ipfs_import_get_filelist verb_index argv in
  import_files_loop fuel first recursive st.
End importer.

(** ** The nodes of a file *)

(** the pieces of a file of more than one piece, the last one shorter than the others *)
Fixpoint pieces (n : nat) (c : bytes) : list bytes :=
  match n with
  | O => [c]
  | S n => ztake MAX_DATA_SIZE c :: pieces n (zdrop MAX_DATA_SIZE c)
  end.
Definition full_pieces (c : bytes) : nat := Z.to_nat (zlen c / MAX_DATA_SIZE).

Definition piece_unixfs (d : bytes) : UnixFS := mkUnixFS UNIXFS_FILE (zlen d) (Some d) (zlen d) [] None 0.
Definition data_node (w : bytes) (ls : list NodeLink) : HashtableNode := mkNode (zlen w) (Some w) ls None None 0.
Definition piece_node (d : bytes) : HashtableNode := data_node (unixfs_wire (piece_unixfs d)) [].

(** the data of a file in pieces: their sizes and nothing else *)
Definition sizes_unixfs (l : list Z) : UnixFS := mkUnixFS UNIXFS_FILE 0 None (foldr Z.add 0 l) l None 0.

Section reference.
Context {M : Malloc} (sha256 : bytes -> bytes).

Definition node_hash (n : HashtableNode) : bytes := sha256 (node_wire n).
(** the size of the block of a node *)
Definition stored_size (n : HashtableNode) : Z := zlen (block_wire (node_block n (node_hash n))).

Definition piece_link (d : bytes) : NodeLink := mkNodeLink 32 (Some (node_hash (piece_node d))) None (stored_size (piece_node d)).
Definition pieces_node (l : list bytes) : HashtableNode :=
  data_node (unixfs_wire (sizes_unixfs (zlen <$> l))) (piece_link <$> l).

(** the node of a file, and the nodes stored for it *)
Definition file_node (c : bytes) : HashtableNode :=
  match full_pieces c with O => piece_node c | n => pieces_node (pieces n c) end.
Definition file_nodes (c : bytes) : list HashtableNode :=
  match full_pieces c with O => [piece_node c] | n => (piece_node <$> pieces n c) ++ [pieces_node (pieces n c)] end.
End reference.

Lemma data_node_ok w : 0 < zlen w < 2 ^ 30 -> node_fits (data_node w []).
Proof.
  intros Hw. assert (node_size (data_node w []) = 11 + zlen w) as E.
  { unfold node_size, data_node. cbn [n_head_link n_data_size links_size foldr]. zbool. lia. }
  split; [|unfold INT_MAX; lia]. split; [constructor|]. split; [done|]. unfold INT_MAX. lia.
Qed.

Lemma piece_unixfs_fits d : zlen d < 2 ^ 29 -> unixfs_fits (piece_unixfs d).
Proof.
  intros Hd. zlen_facts. unfold unixfs_fits, unixfs_ok, INT_MAX, UNIXFS_SYMLINK. cbn [piece_unixfs data_type bytes_size ubytes file_size block_size_head].
  change (zlen (@nil Z)) with 0. change (zlen (deref (Some d))) with (zlen d). unfold UNIXFS_FILE. split_and!; try done; lia.
Qed.

Lemma piece_wire_length {M : Malloc} d : zlen d < 2 ^ 29 -> 0 < zlen (unixfs_wire (piece_unixfs d)) <= zlen d + 24.
Proof.
  intros Hd. split; [apply unixfs_wire_pos|]. pose proof (proj1 (unixfs_size_ok _ (piece_unixfs_fits d Hd))) as H.
  zlen_facts. unfold INT_MAX in *. rewrite encode_size_eq in H; cbn [piece_unixfs bytes_size block_size_head] in *; change (zlen (@nil Z)) with 0 in *; unfold INT_MAX; lia.
Qed.

Lemma piece_node_fits {M : Malloc} d : zlen d <= MAX_DATA_SIZE -> node_fits (piece_node d).
Proof. intros Hd. unfold MAX_DATA_SIZE in Hd. apply data_node_ok. pose proof (piece_wire_length d). lia. Qed.

(** ** What the functions do *)
Section proofs.
Context {M : Malloc} {Hm : MallocOk M} {Dk : Disk} {Hd : DiskOk Dk} {D : Type} {Ds : Datastore D} (sha256 : bytes -> bytes).
Context (Hsha : forall b, hash_ok (sha256 b)) (Hput : forall r d, fst (datastore_put r d) <> 0).

(** the parent while its pieces are stored: the sizes and the links so far *)
Definition parent_at (l : list Z) (links : list NodeLink) : HashtableNode :=
  match l with [] => set_node_links links node_blank | _ => data_node (unixfs_wire (sizes_unixfs l)) links end.

Definition sizes_ok (l : list Z) : Prop := Forall (fun b => 0 <= b < 2 ^ 64) l /\ foldr Z.add 0 l < 2 ^ 63 /\ zlen l <= 2 ^ 24.

Lemma sum_nonneg (l : list Z) : Forall (fun b => 0 <= b < 2 ^ 64) l -> 0 <= foldr Z.add 0 l.
Proof using. induction 1; cbn [foldr]; lia. Qed.

Lemma sum_app (l k : list Z) : foldr Z.add 0 (l ++ k) = foldr Z.add 0 l + foldr Z.add 0 k.
Proof using. induction l; cbn [app foldr]; lia. Qed.

Lemma sizes_fits l : sizes_ok l -> unixfs_fits (sizes_unixfs l).
Proof using.
  intros (Hl & Hs & Hn). pose proof (sum_nonneg l Hl). zlen_facts.
  unfold unixfs_fits, unixfs_ok, INT_MAX, UNIXFS_SYMLINK, UNIXFS_FILE, sizes_unixfs. cbn [data_type bytes_size ubytes file_size block_size_head].
  change (zlen (deref None)) with 0. split_and!; try done; lia.
Qed.

Lemma sizes_wire_length l : sizes_ok l -> 0 < zlen (unixfs_wire (sizes_unixfs l)) <= 24 + 11 * zlen l.
Proof using.
  intros Hl. split; [apply unixfs_wire_pos|]. pose proof (unixfs_wire_length _ (proj1 (sizes_fits l Hl))) as H.
  exact H.
Qed.

(** an object is written into a buffer of its estimated size *)
Lemma unixfs_encoded o : unixfs_fits o -> exists rest,
  ipfs_unixfs_protobuf_encode (Some o) (fresh (ipfs_unixfs_protobuf_encode_size o)) (ipfs_unixfs_protobuf_encode_size o) =
    Ret ((1, zlen (unixfs_wire o)), unixfs_wire o ++ rest).
Proof using.
  intros Ho. pose proof (unixfs_size_ok o Ho). zlen_facts. eexists.
  apply (unixfs_encode_emits o (proj1 Ho)); rewrite ?zlen_fresh; unfold INT_MAX in *; lia.
Qed.

Lemma set_data_ok n w rest : ipfs_hashtable_node_set_data n (Some (w ++ rest)) (zlen w) =
  Ret (1, mkNode (zlen w) (Some w) (n_head_link n) (n_encoded n) (n_hash n) (n_hash_size n)).
Proof using Hm. unfold ipfs_hashtable_node_set_data. rewrite malloc_always. by rewrite memrd_app by done. Qed.

Lemma add_filesize_ok l links b : sizes_ok (l ++ [b]) ->
  ipfs_importer_add_filesize_to_data_section (parent_at l links) b = Ret (1, parent_at (l ++ [b]) links).
Proof using Hm.
  intros Hl. pose proof Hl as (Hf & Hs & Hz). apply Forall_app in Hf as [Hf Hb]. apply Forall_cons in Hb as [Hb _].
  rewrite sum_app in Hs. cbn [foldr] in Hs. pose proof (sum_nonneg l Hf). rewrite zlen_app in Hz. change (zlen [b]) with 1 in Hz.
  assert (sizes_ok l) as Hl' by (split_and!; [done|lia|lia]).
  unfold ipfs_importer_add_filesize_to_data_section.
  assert (E : match n_data (parent_at l links) with
    | Some d => ipfs_unixfs_protobuf_decode d (n_data_size (parent_at l links))
    | None => Ret (set_data_type UNIXFS_FILE <$> ipfs_unixfs_new) end = Ret (Some (sizes_unixfs l))).
  { destruct l as [|x l]; cbn [parent_at].
    - unfold ipfs_unixfs_new. by rewrite malloc_always.
    - cbn [data_node n_data n_data_size]. rewrite <- (app_nil_r (unixfs_wire _)) at 1. by rewrite unixfs_decode_wire by (by apply sizes_fits). }
  rewrite E. cbn [rbind]. unfold ipfs_unixfs_add_blocksize. rewrite malloc_always.
  assert (set_file_size (u64 (file_size (set_block_sizes (block_size_head (sizes_unixfs l) ++ [b]) (sizes_unixfs l)) + b))
    (set_block_sizes (block_size_head (sizes_unixfs l) ++ [b]) (sizes_unixfs l)) = sizes_unixfs (l ++ [b])) as ->.
  { unfold sizes_unixfs, set_file_size, set_block_sizes. cbn [data_type bytes_size ubytes file_size block_size_head hash hash_length].
    rewrite u64_small by lia. rewrite sum_app. cbn [foldr]. by rewrite Z.add_0_r. }
  destruct (unixfs_encoded _ (sizes_fits _ Hl)) as [rest ->]. cbn [rbind]. rewrite set_data_ok. cbn [rbind].
  destruct l; reflexivity.
Qed.

(** a node goes to the store *)
Definition store_node (n : HashtableNode) (repo : FSRepo D) : FSRepo D :=
  let h := node_hash sha256 n in
  mkRepo (path repo) (<[file_name (path repo) h := block_wire (node_block n h)]> (repo_files repo))
    (snd (datastore_put (mkRecord (Some h) 32 (Some (b32 h)) 56 0) (datastore repo))).

Lemma add_node_ok n repo : path_ok (path repo) -> node_fits n -> n_hash n = None ->
  ipfs_merkledag_add sha256 n repo =
    Ret (1, Some (stored_size sha256 n), set_node_hash (Some (node_hash sha256 n)) 32 n, store_node n repo).
Proof using Hm Hd Hsha Hput.
  intros Hp Hn Hh. pose proof (merkledag_add_ok sha256 n (node_hash sha256 n) repo Hp Hn (Hsha _) (or_intror (conj Hh eq_refl))) as E.
  cbv zeta in E. pose proof (Hput (mkRecord (Some (node_hash sha256 n)) 32 (Some (b32 (node_hash sha256 n))) 56 0) (datastore repo)) as Hp1.
  rewrite (proj2 (Z.eqb_neq _ 0) Hp1) in E. exact E.
Qed.

Lemma stored_size_range n : node_fits n -> 0 <= stored_size sha256 n <= INT_MAX.
Proof using Hsha.
  intros Hn. unfold stored_size. pose proof (block_size_ok _ (node_block_ok n (node_hash sha256 n) Hn (Hsha _))). zlen_facts. lia.
Qed.

Lemma link_created h name : hash_ok h -> from_option (fun s => nonzero s /\ 0 < zlen s) True name ->
  ipfs_node_link_create ((.++ [0]) <$> name) h 32 = Ret (Some (mkNodeLink 32 (Some h) ((.++ [0]) <$> name) 0)).
Proof using Hm.
  intros [_ Hl] Hn. unfold ipfs_node_link_create, ipfs_node_link_new. rewrite !malloc_always, memrd_all by done. cbn [rbind].
  destruct name as [s|]; cbn [fmap option_fmap option_map name_present rbind from_option] in *; [|done].
  destruct Hn as [Hz Hs]. rewrite (strlen_nul s []) by done. cbn [rbind]. zbool.
  change (deref (Some ?x)) with x. rewrite (strlen_nul s []) by done. cbn [rbind]. rewrite malloc_always.
  by rewrite memrd_all by (rewrite zlen_app; reflexivity).
Qed.

(** the object of a piece before it is written: it has a hash, which is not saved *)
Definition piece_object (d : bytes) : UnixFS := mkUnixFS UNIXFS_FILE (zlen d) (Some d) (zlen d) [] (Some (sha256 d)) 32.

Lemma piece_encoded d : zlen d <= MAX_DATA_SIZE -> let size := ipfs_unixfs_protobuf_encode_size (piece_object d) in
  0 < size /\ exists rest, ipfs_unixfs_protobuf_encode (Some (piece_object d)) (fresh size) size =
    Ret ((1, zlen (unixfs_wire (piece_unixfs d))), unixfs_wire (piece_unixfs d) ++ rest).
Proof using.
  intros Hz size. unfold MAX_DATA_SIZE in Hz.
  assert (unixfs_fits (piece_object d)) as Hf by (apply (piece_unixfs_fits d); lia).
  pose proof (unixfs_size_ok _ Hf). pose proof (unixfs_wire_pos (piece_object d)). split; [unfold size; lia|].
  exact (unixfs_encoded _ Hf).
Qed.

Lemma import_child_ok d rest l links repo total : path_ok (path repo) -> zlen d <= MAX_DATA_SIZE -> sizes_ok (l ++ [zlen d]) ->
  import_child sha256 (unixfs_wire (piece_unixfs d) ++ rest) (zlen (unixfs_wire (piece_unixfs d))) (zlen d) (parent_at l links) repo total =
    Ret (true, parent_at (l ++ [zlen d]) (links ++ [piece_link sha256 d]), store_node (piece_node d) repo,
         u64 (total + stored_size sha256 (piece_node d)), stored_size sha256 (piece_node d)).
Proof using Hm Hd Hsha Hput.
  intros Hp Hd' Hl. unfold import_child, ipfs_hashtable_node_new_from_data, ipfs_hashtable_node_new. rewrite malloc_always.
  rewrite set_data_ok. cbn [rbind]. change (1 =? 0) with false. cbv iota.
  change (mkNode (zlen _) (Some _) (n_head_link node_blank) (n_encoded node_blank) (n_hash node_blank) (n_hash_size node_blank)) with (piece_node d).
  rewrite add_node_ok by (done || by apply piece_node_fits). cbn [rbind]. change (1 =? 0) with false. cbv iota.
  cbn [set_node_hash n_hash n_hash_size]. change (deref (Some ?x)) with x.
  pose proof (link_created (node_hash sha256 (piece_node d)) None (Hsha _) I) as E. cbn [fmap option_fmap option_map] in E.
  rewrite E. cbn [rbind]. clear E.
  change (default 0 (Some ?x)) with x.
  assert (node_append_link (parent_at l links) [set_link_t_size (stored_size sha256 (piece_node d))
    (mkNodeLink 32 (Some (node_hash sha256 (piece_node d))) None 0)] = parent_at l (links ++ [piece_link sha256 d])) as ->.
  { unfold node_append_link. by destruct l. }
  rewrite add_filesize_ok by done. cbn [rbind]. done.
Qed.

(** a chunk that is not the last one, or the last one of several *)
Lemma import_full_chunk c l links repo total bw : path_ok (path repo) -> MAX_DATA_SIZE <= zlen c -> sizes_ok (l ++ [MAX_DATA_SIZE]) ->
  let d := ztake MAX_DATA_SIZE c in
  exists total', ipfs_import_chunk sha256 c (parent_at l links) repo total bw =
    Ret (MAX_DATA_SIZE, zdrop MAX_DATA_SIZE c, parent_at (l ++ [MAX_DATA_SIZE]) (links ++ [piece_link sha256 d]),
         store_node (piece_node d) repo, total', stored_size sha256 (piece_node d)).
Proof using Hm Hd Hsha Hput.
  intros Hp Hc Hl d. assert (zlen d = MAX_DATA_SIZE) as Hz by (unfold d; apply zlen_take; unfold MAX_DATA_SIZE in *; lia).
  destruct (piece_encoded d ltac:(lia)) as (Hs & rest & Henc). eexists. unfold ipfs_import_chunk. fold d.
  rewrite memwr_ok by (rewrite zlen_fresh, Hz; unfold MAX_DATA_SIZE; lia). cbn [rbind]. unfold ipfs_unixfs_new. rewrite malloc_always.
  unfold ipfs_unixfs_add_data. rewrite !malloc_always, memrd_app by done. cbn [rbind]. change (1 =? 0) with false.
  change (mkUnixFS _ (zlen d) (Some d) _ _ (Some (sha256 d)) 32) with (piece_object d).
  rewrite (proj2 (Z.eqb_neq _ 0)) by lia. cbn [orb]. rewrite Henc. cbn [rbind]. change (1 =? 0) with false. cbv iota.
  rewrite Hz, Z.eqb_refl. pose proof (import_child_ok d rest l links repo total Hp ltac:(lia) ltac:(by rewrite Hz)) as E.
  rewrite Hz in E. rewrite E. cbn [rbind]. reflexivity.
Qed.

Definition store_nodes (ns : list HashtableNode) (repo : FSRepo D) : FSRepo D := foldl (fun r n => store_node n r) repo ns.

Lemma store_nodes_path ns repo : path (store_nodes ns repo) = path repo.
Proof using. revert repo. induction ns as [|n ns IH]; intros repo; [done|]. cbn [store_nodes foldl]. unfold store_nodes in IH. by rewrite IH. Qed.

Lemma piece_link_ok d : zlen d <= MAX_DATA_SIZE -> link_ok (piece_link sha256 d) /\ link_size (piece_link sha256 d) <= 65.
Proof using Hsha.
  intros Hz. pose proof (stored_size_range (piece_node d) (piece_node_fits d Hz)) as Hs. destruct (Hsha (node_wire (piece_node d))) as [Hb Hl].
  unfold INT_MAX in Hs. assert (link_size (piece_link sha256 d) = 43 + (if 0 <? stored_size sha256 (piece_node d) then 22 else 0)) as E by done.
  unfold link_ok. rewrite E. cbn [piece_link nl_hash_size nl_hash nl_name nl_t_size from_option]. unfold node_hash. change (deref (Some ?x)) with x.
  unfold INT_MAX. destruct (0 <? _); split_and!; (done || lia).
Qed.

Lemma pieces_node_fits ds : ds <> [] -> Forall (fun d => zlen d <= MAX_DATA_SIZE) ds -> sizes_ok (zlen <$> ds) -> zlen ds <= 2 ^ 23 ->
  node_fits (pieces_node sha256 ds).
Proof using Hsha.
  intros Hne Hds Hs Hz. pose proof (sizes_wire_length _ Hs) as Hw. rewrite zlen_fmap in Hw.
  assert (Hlinks : Forall link_ok (piece_link sha256 <$> ds)).
  { apply Forall_fmap. eapply Forall_impl; [exact Hds|]. intros d Hd'. apply (piece_link_ok d Hd'). }
  assert (0 <= links_size (piece_link sha256 <$> ds) <= 76 * zlen ds) as Hls.
  { clear Hne Hz Hs Hw Hlinks. induction Hds as [|d ds Hd' _ IH]; cbn [fmap list_fmap links_size foldr]; [done|].
    destruct (piece_link_ok d Hd') as [(_ & _ & _ & _ & Hp & _) Hle]. unfold links_size in IH. rewrite zlen_cons.
    replace (76 * (1 + zlen ds)) with (76 + 76 * zlen ds) by lia. lia. }
  assert (node_size (pieces_node sha256 ds) = links_size (piece_link sha256 <$> ds) + (11 + zlen (unixfs_wire (sizes_unixfs (zlen <$> ds))))) as E.
  { unfold node_size, pieces_node, data_node. cbn [n_head_link n_data_size]. by zbool. }
  split; [split_and!|]; rewrite ?E; unfold INT_MAX; (done || lia).
Qed.

(** the last chunk: the node of a file of one piece, or one more piece *)
Lemma import_last_single c repo total bw : path_ok (path repo) -> zlen c < MAX_DATA_SIZE ->
  ipfs_import_chunk sha256 c node_blank repo total bw =
    Ret (zlen c, [], set_node_hash (Some (node_hash sha256 (piece_node c))) 32 (piece_node c), store_node (piece_node c) repo, total,
         stored_size sha256 (piece_node c)).
Proof using Hm Hd Hsha Hput.
  intros Hp Hz. destruct (piece_encoded c ltac:(lia)) as (Hs & rest & Henc). unfold ipfs_import_chunk.
  rewrite ztake_all, zdrop_ge by lia. rewrite memwr_ok by (rewrite zlen_fresh; unfold MAX_DATA_SIZE in *; lia). cbn [rbind].
  unfold ipfs_unixfs_new. rewrite malloc_always. unfold ipfs_unixfs_add_data. rewrite !malloc_always, memrd_app by done. cbn [rbind].
  change (1 =? 0) with false. change (mkUnixFS _ (zlen c) (Some c) _ _ (Some (sha256 c)) 32) with (piece_object c).
  rewrite (proj2 (Z.eqb_neq _ 0)) by lia. cbn [orb]. rewrite Henc. cbn [rbind]. change (1 =? 0) with false. cbv iota.
  rewrite (proj2 (Z.eqb_neq (zlen c) _)) by lia. cbn [node_blank n_head_link]. rewrite set_data_ok. cbn [rbind].
  change (mkNode (zlen ?w) (Some ?w) _ _ _ _) with (data_node w []). fold (piece_node c).
  rewrite add_node_ok by (done || apply piece_node_fits; lia). cbn [rbind]. change (default ?b (Some ?x)) with x.
  pose proof (stored_size_range _ (piece_node_fits c ltac:(lia))). unfold INT_MAX in *. by rewrite Z.add_0_r, u64_small by lia.
Qed.

Lemma import_last_piece c ds repo total bw : path_ok (path repo) -> zlen c < MAX_DATA_SIZE -> ds <> [] ->
  Forall (fun d => zlen d <= MAX_DATA_SIZE) ds -> sizes_ok (zlen <$> (ds ++ [c])) -> zlen (ds ++ [c]) <= 2 ^ 23 ->
  let P := pieces_node sha256 (ds ++ [c]) in
  exists total', ipfs_import_chunk sha256 c (parent_at (zlen <$> ds) (piece_link sha256 <$> ds)) repo total bw =
    Ret (zlen c, [], set_node_hash (Some (node_hash sha256 P)) 32 P, store_node P (store_node (piece_node c) repo), total',
         stored_size sha256 P + stored_size sha256 (piece_node c)).
Proof using Hm Hd Hsha Hput.
  intros Hp Hz Hne Hds Hs Hn P. destruct (piece_encoded c ltac:(lia)) as (Hs' & rest & Henc). eexists. unfold ipfs_import_chunk.
  rewrite ztake_all, zdrop_ge by lia. rewrite memwr_ok by (rewrite zlen_fresh; unfold MAX_DATA_SIZE in *; lia). cbn [rbind].
  unfold ipfs_unixfs_new. rewrite malloc_always. unfold ipfs_unixfs_add_data. rewrite !malloc_always, memrd_app by done. cbn [rbind].
  change (1 =? 0) with false. change (mkUnixFS _ (zlen c) (Some c) _ _ (Some (sha256 c)) 32) with (piece_object c).
  rewrite (proj2 (Z.eqb_neq _ 0)) by lia. cbn [orb]. rewrite Henc. cbn [rbind]. change (1 =? 0) with false. cbv iota.
  rewrite (proj2 (Z.eqb_neq (zlen c) _)) by lia.
  assert (exists l ls, n_head_link (parent_at (zlen <$> ds) (piece_link sha256 <$> ds)) = l :: ls) as (l & ls & ->)
    by (destruct ds; [done|by eexists _, _]).
  rewrite fmap_app in Hs. rewrite import_child_ok by (done || lia). cbn [rbind].
  assert (parent_at ((zlen <$> ds) ++ [zlen c]) ((piece_link sha256 <$> ds) ++ [piece_link sha256 c]) = P) as ->.
  { unfold P, pieces_node. rewrite !fmap_app. destruct ds; [done|reflexivity]. }
  assert (node_fits P) as HP.
  { apply pieces_node_fits; [by destruct ds|apply Forall_app; split; [done|constructor; [lia|constructor]]|by rewrite fmap_app|done]. }
  rewrite add_node_ok by done. cbn [rbind]. change (default ?b (Some ?x)) with x.
  pose proof (stored_size_range _ (piece_node_fits c ltac:(lia))). pose proof (stored_size_range P HP). unfold INT_MAX in *.
  by rewrite (u64_small (stored_size sha256 P + _)) by lia.
Qed.

(** *** All chunks *)
Lemma short_piece (c : bytes) : zlen c / MAX_DATA_SIZE = 0 -> zlen c < MAX_DATA_SIZE.
Proof using. intros H%Z.div_small_iff; [|done]. zlen_facts. unfold MAX_DATA_SIZE in *. lia. Qed.

Lemma pieces_forall n c : Z.of_nat n = zlen c / MAX_DATA_SIZE -> Forall (fun d => zlen d <= MAX_DATA_SIZE) (pieces n c).
Proof using.
  revert c. induction n as [|n IH]; intros c Hn; cbn [pieces].
  - constructor; [|constructor]. pose proof (short_piece c). lia.
  - assert (MAX_DATA_SIZE <= zlen c) as Hle.
    { pose proof (Z.mul_div_le (zlen c) MAX_DATA_SIZE ltac:(done)). unfold MAX_DATA_SIZE in *. lia. }
    constructor; [rewrite zlen_take; unfold MAX_DATA_SIZE in *; lia|]. apply IH. rewrite zlen_drop by (unfold MAX_DATA_SIZE in *; lia).
    replace (zlen c) with ((zlen c - MAX_DATA_SIZE) + 1 * MAX_DATA_SIZE) in Hn by lia. rewrite Z.div_add in Hn by done. lia.
Qed.

Lemma pieces_concat n c : concat (pieces n c) = c.
Proof using. revert c. induction n as [|n IH]; intros c; cbn [pieces concat]; [apply app_nil_r|]. rewrite IH. apply ztake_zdrop. Qed.

Lemma pieces_length n c : length (pieces n c) = S n.
Proof using. revert c. induction n as [|n IH]; intros c; cbn [pieces length]; [done|]. by rewrite IH. Qed.

Lemma concat_zlen (ds : list bytes) : foldr Z.add 0 (zlen <$> ds) = zlen (concat ds).
Proof using. induction ds as [|d ds IH]; [done|]. cbn [fmap list_fmap foldr concat]. rewrite zlen_app. by f_equal. Qed.

Lemma pieces_sizes_ok (ds : list bytes) : Forall (fun d => zlen d <= MAX_DATA_SIZE) ds -> zlen (concat ds) < 2 ^ 40 -> zlen ds <= 2 ^ 23 -> sizes_ok (zlen <$> ds).
Proof using.
  intros Hds Hc Hz. split_and!; [|rewrite concat_zlen; lia|rewrite zlen_fmap; lia].
  apply Forall_fmap. eapply Forall_impl; [exact Hds|]. intros d Hd'. cbv beta in Hd'. unfold compose, MAX_DATA_SIZE in *. zlen_facts. lia.
Qed.

(** the pieces of a file of less than 1 TiB *)
Lemma pieces_bounds c : zlen c < 2 ^ 40 -> Z.of_nat (full_pieces c) = zlen c / MAX_DATA_SIZE /\
  zlen (pieces (full_pieces c) c) <= 2 ^ 23 /\ Forall (fun d => zlen d <= MAX_DATA_SIZE) (pieces (full_pieces c) c) /\
  sizes_ok (zlen <$> pieces (full_pieces c) c).
Proof using.
  intros Hc. zlen_facts. assert (0 <= zlen c / MAX_DATA_SIZE < 2 ^ 22) as Hn.
  { split; [apply Z.div_pos; done|]. apply Z.div_lt_upper_bound; [done|]. unfold MAX_DATA_SIZE. lia. }
  assert (Z.of_nat (full_pieces c) = zlen c / MAX_DATA_SIZE) as En by (unfold full_pieces; lia).
  assert (zlen (pieces (full_pieces c) c) <= 2 ^ 23) by (unfold zlen at 1; rewrite pieces_length; lia).
  pose proof (pieces_forall _ c En). split_and!; try done. apply pieces_sizes_ok; [done|by rewrite pieces_concat|done].
Qed.

Definition stored_sizes (ns : list HashtableNode) : Z := foldr Z.add 0 (stored_size sha256 <$> ns).

Lemma import_chunks_turn fuel c p repo total bw n c' p' repo' total' w :
  ipfs_import_chunk sha256 c p repo total 0 = Ret (n, c', p', repo', total', w) ->
  import_chunks sha256 (S fuel) c p repo total bw =
    if n =? MAX_DATA_SIZE then import_chunks sha256 fuel c' p' repo' total' (u64 (bw + w)) else Ret (p', repo', u64 (bw + w)).
Proof using. intros E. cbn [import_chunks]. by rewrite E. Qed.

Lemma import_chunks_pieces n : forall c ds k repo total bw, path_ok (path repo) -> Z.of_nat n = zlen c / MAX_DATA_SIZE ->
  ds <> [] \/ n <> 0%nat -> Forall (fun d => zlen d <= MAX_DATA_SIZE) ds -> zlen (concat ds ++ c) < 2 ^ 40 -> zlen (ds ++ pieces n c) <= 2 ^ 23 ->
  let P := pieces_node sha256 (ds ++ pieces n c) in let ns := (piece_node <$> pieces n c) ++ [P] in
  import_chunks sha256 (S (n + k)) c (parent_at (zlen <$> ds) (piece_link sha256 <$> ds)) repo total bw =
    Ret (set_node_hash (Some (node_hash sha256 P)) 32 P, store_nodes ns repo, u64 (bw + stored_sizes ns)).
Proof using Hm Hd Hsha Hput.
  induction n as [|n IH]; intros c ds k repo total bw Hp Hn Hne Hds Hc Hz P ns.
  - assert (zlen c < MAX_DATA_SIZE) as Hlt by (apply short_piece; lia).
    assert (ds <> []) as Hne' by (destruct Hne; done). cbn [pieces] in *.
    destruct (import_last_piece c ds repo total 0 Hp Hlt Hne' Hds) as [total' E]; [|done|].
    { apply pieces_sizes_ok; [apply Forall_app; split; [done|by repeat constructor; lia]| |done].
      rewrite concat_app. cbn [concat]. by rewrite app_nil_r. }
    rewrite (import_chunks_turn _ _ _ _ _ _ _ _ _ _ _ _ E), (proj2 (Z.eqb_neq _ _)) by lia. fold P.
    assert (u64 (bw + (stored_size sha256 P + stored_size sha256 (piece_node c))) = u64 (bw + stored_sizes ns)) as -> by
      (f_equal; unfold stored_sizes, ns; cbn [fmap list_fmap app foldr]; lia). done.
  - assert (MAX_DATA_SIZE <= zlen c) as Hle.
    { pose proof (Z.mul_div_le (zlen c) MAX_DATA_SIZE ltac:(done)). unfold MAX_DATA_SIZE in *. lia. }
    set (d := ztake MAX_DATA_SIZE c) in *. assert (zlen d = MAX_DATA_SIZE) as Hdz by (unfold d; apply zlen_take; unfold MAX_DATA_SIZE in *; lia).
    cbn [pieces] in *. fold d in P, ns, Hz. assert (ds ++ d :: pieces n (zdrop MAX_DATA_SIZE c) = (ds ++ [d]) ++ pieces n (zdrop MAX_DATA_SIZE c)) as Ea by (by rewrite <- app_assoc).
    assert (Forall (fun d => zlen d <= MAX_DATA_SIZE) (ds ++ [d])) as Hds' by (apply Forall_app; split; [done|repeat constructor; lia]).
    assert (concat ds ++ c = concat (ds ++ [d]) ++ zdrop MAX_DATA_SIZE c) as Ec.
    { rewrite concat_app. cbn [concat]. rewrite app_nil_r, <- app_assoc. unfold d. by rewrite ztake_zdrop. }
    change (S (S n + k)) with (S (S (n + k))).
    destruct (import_full_chunk c (zlen <$> ds) (piece_link sha256 <$> ds) repo total 0 Hp Hle) as [total' E].
    { rewrite <- Hdz. change [zlen d] with (zlen <$> [d]). rewrite <- fmap_app. apply pieces_sizes_ok; [done| |].
      - rewrite Ec, zlen_app in Hc. zlen_facts. lia.
      - rewrite Ea, zlen_app in Hz. zlen_facts. lia. }
    rewrite (import_chunks_turn _ _ _ _ _ _ _ _ _ _ _ _ E), Z.eqb_refl. fold d.
    assert (parent_at ((zlen <$> ds) ++ [MAX_DATA_SIZE]) ((piece_link sha256 <$> ds) ++ [piece_link sha256 d]) =
            parent_at (zlen <$> ds ++ [d]) (piece_link sha256 <$> ds ++ [d])) as ->.
    { rewrite !fmap_app, <- Hdz. done. }
    rewrite (IH (zdrop MAX_DATA_SIZE c) (ds ++ [d])).
    + rewrite <- Ea. fold P. rewrite u64_u64_add. f_equal. f_equal. f_equal. unfold stored_sizes, ns. cbn [fmap list_fmap app foldr]. lia.
    + done.
    + rewrite zlen_drop by (unfold MAX_DATA_SIZE in *; lia).
      replace (zlen c) with ((zlen c - MAX_DATA_SIZE) + 1 * MAX_DATA_SIZE) in Hn by lia. rewrite Z.div_add in Hn by done. lia.
    + left. by destruct ds.
    + done.
    + by rewrite <- Ec.
    + by rewrite <- Ea.
Qed.

Lemma import_content_ok c repo bw : path_ok (path repo) -> zlen c < 2 ^ 40 ->
  import_chunks sha256 (S (S (Z.to_nat (zlen c / MAX_DATA_SIZE)))) c node_blank repo 0 bw =
    Ret (set_node_hash (Some (node_hash sha256 (file_node sha256 c))) 32 (file_node sha256 c),
         store_nodes (file_nodes sha256 c) repo, u64 (bw + stored_sizes (file_nodes sha256 c))).
Proof using Hm Hd Hsha Hput.
  intros Hp Hc. destruct (pieces_bounds c Hc) as (En & Hz & _). unfold file_node, file_nodes. fold (full_pieces c).
  destruct (full_pieces c) as [|n] eqn:E.
  - assert (zlen c < MAX_DATA_SIZE) as Hlt by (apply short_piece; lia).
    rewrite (import_chunks_turn _ _ _ _ _ _ _ _ _ _ _ _ (import_last_single c repo 0 0 Hp Hlt)), (proj2 (Z.eqb_neq _ _)) by lia.
    unfold stored_sizes. cbn [fmap list_fmap foldr]. by rewrite Z.add_0_r.
  - pose proof (import_chunks_pieces (S n) c [] 1 repo 0 bw Hp En (or_intror (Nat.neq_succ_0 n)) (Forall_nil_2 _) Hc Hz) as Hi.
    replace (S (S n + 1)) with (S (S (S n))) in Hi by lia. apply Hi.
Qed.

(** what an import of a regular file leaves *)
Lemma import_file_ok {Fs : FileSystem} fuel root name rest p bw recursive c st : nonzero name -> stat_directory name = Some false ->
  file_content name = Some c -> path_ok (path (import_repo st)) -> zlen c < 2 ^ 40 ->
  let n := set_node_hash (Some (node_hash sha256 (file_node sha256 c))) 32 (file_node sha256 c) in
  ipfs_import_file sha256 (S fuel) root (name ++ 0 :: rest) p bw recursive st =
    Ret (1, Ptr n, u64 (bw + stored_sizes (file_nodes sha256 c)), announce_node n (set_repo (store_nodes (file_nodes sha256 c) (import_repo st)) st)).
Proof using Hm Hd Hsha Hput.
  intros Hz Hs Hc Hp Hl n. cbn [ipfs_import_file]. unfold os_utils_is_directory. rewrite read_str_nul by done. cbn [rbind].
  rewrite Hs. change (0 =? 0) with true. cbn [negb rbind]. rewrite Hc. unfold ipfs_hashtable_node_new. rewrite malloc_always.
  rewrite import_content_ok by done. done.
Qed.

(** ** What is stored *)
Definition stored (n : HashtableNode) (repo : FSRepo D) : Prop :=
  is_Some (datastore_get (node_hash sha256 n) (datastore repo)) /\
  repo_files repo !! file_name (path repo) (node_hash sha256 n) = Some (block_wire (node_block n (node_hash sha256 n))).

(** the nodes have different names *)
Definition distinct_names (ns : list HashtableNode) : Prop :=
  forall n m, n ∈ ns -> m ∈ ns -> base32_key (node_hash sha256 n) = base32_key (node_hash sha256 m) -> node_wire n = node_wire m.

Lemma node_block_wire n m h : node_fits n -> node_fits m -> node_wire n = node_wire m ->
  block_wire (node_block n h) = block_wire (node_block m h).
Proof using. intros Hn Hm' E. unfold block_wire. rewrite !node_block_payload by done. by rewrite E. Qed.

Context {Dl : DatastoreLaws D}.

Lemma store_node_stored n repo : stored n (store_node n repo).
Proof using Dl Hput.
  split; [|apply lookup_insert_eq]. cbn [store_node datastore].
  set (r := mkRecord _ _ _ _ _). apply (put_present _ r (datastore repo) (fst (datastore_put r (datastore repo)))); [done| |apply Hput].
  apply surjective_pairing.
Qed.

Lemma store_node_keeps n m repo : node_fits n -> node_fits m ->
  (base32_key (node_hash sha256 n) = base32_key (node_hash sha256 m) -> node_wire n = node_wire m) ->
  stored n repo -> stored n (store_node m repo).
Proof using Dl Hsha.
  intros Hn Hm' Hk [Hg Hf]. split; cbn [store_node datastore path repo_files].
  - eapply put_keeps; [|exact Hg]. apply surjective_pairing.
  - destruct (decide (file_name (path repo) (node_hash sha256 m) = file_name (path repo) (node_hash sha256 n))) as [E|Hne].
    + rewrite E, lookup_insert_eq. apply file_name_inj in E; [|apply Hsha|apply Hsha]. pose proof (Hk (eq_sym E)) as Hw.
      unfold node_hash. rewrite <- Hw. f_equal. by apply node_block_wire.
    + by rewrite lookup_insert_ne.
Qed.

Lemma store_nodes_stored ns repo n : Forall node_fits ns -> distinct_names ns -> n ∈ ns -> stored n (store_nodes ns repo).
Proof using Dl Hput Hsha.
  revert repo. induction ns as [|m ns IH] using rev_ind; intros repo Hf Hdn Hin; [by apply elem_of_nil in Hin|].
  unfold store_nodes. rewrite foldl_app. cbn [foldl]. fold (store_nodes ns repo). pose proof Hf as [Hf' Hf1]%Forall_app. apply Forall_cons in Hf1 as [Hfm _].
  assert (distinct_names ns) as Hdn'.
  { intros a b Ha Hb. apply Hdn; apply elem_of_app; by left. }
  apply elem_of_app in Hin as [Hin|Hin].
  - apply store_node_keeps; [by apply (proj1 (Forall_forall _ _) Hf')|done| |by apply IH].
    apply Hdn; apply elem_of_app; [by left|right; apply list_elem_of_here].
  - apply list_elem_of_singleton in Hin as ->. apply store_node_stored.
Qed.

(** what is stored is read back, by [ipfs_merkledag_get] *)
Lemma stored_get n repo : path_ok (path repo) -> node_fits n -> stored n repo ->
  ipfs_merkledag_get (node_hash sha256 n) 32 repo = Ret (Some (set_node_hash (Some (node_hash sha256 n)) 32 (node_saved n))).
Proof using Hm Hsha. intros Hp Hn [Hg Hf]. apply (merkledag_get_ok repo n (node_hash sha256 n) (node_hash sha256 n)); (done || apply Hsha). Qed.

Lemma file_nodes_fit c : zlen c < 2 ^ 40 -> Forall node_fits (file_nodes sha256 c).
Proof using Hsha.
  intros Hc. destruct (pieces_bounds c Hc) as (_ & Hz & Hps & Hs). unfold file_nodes. destruct (full_pieces c) as [|n].
  - apply Forall_cons in Hps as [Hps _]. constructor; [by apply piece_node_fits|constructor].
  - apply Forall_app. split; [apply Forall_fmap; eapply Forall_impl; [exact Hps|intros d; apply piece_node_fits]|].
    constructor; [|constructor]. by apply pieces_node_fits.
Qed.
End proofs.
