(* ===== verification/Exporter.v ===== *)
(** * Getting files back (libipfs/importer/exporter.c, libipfs/routing/offline.c)

    A node is asked for by its hash from the routing, which without a network looks
    in the repository, and its data is written to a stream, that of its links behind
    it.  Opening a file and the number of bytes a stream takes are the interface
    [Disk]; the answer of a daemon is an argument. *)
From Stdlib Require Import String.
From S2P Require Import Prelude Varint Protobuf Multihash Unixfs Cid Block Node Base32 Datastore Files Blockstore Merkledag CString Base58 CidText Importer.

Definition MODE_OFFLINE : Z := 0.
Definition MODE_API_AVAILABLE : Z := 1.
Definition MODE_ONLINE : Z := 2.

(** what the functions use of [struct IpfsNode] *)
Record IpfsNode (D : Type) := mkIpfsNode {
  mode : Z;
  repo : FSRepo D
}.
Arguments mkIpfsNode {D}.
Arguments mode {D}.
Arguments repo {D}.

Section exporter.
Context {M : Malloc} {Dk : Disk} {D : Type} {Ds : Datastore D}.

(** [GetValue] of a node without a network: the result, and the value with its size.
    With a daemon, the daemon is asked; [dht_get] is its answer to the hash in base
    58, [None] when the request fails. *)
Definition ipfs_routing_generic_get_value (dht_get : bytes -> option bytes) (local_node : IpfsNode D) (key : bytes) (key_size : Z)
  : res (Z * option (bytes * Z)) :=
  if mode local_node =? MODE_API_AVAILABLE then
    let! (r, buffer) := ipfs_cid_hash_to_base58 key key_size (fresh 256) 256 in
    if r =? 0 then Ret (0, None)
    else
      let! text := read_str buffer in
      match dht_get text with
      | None => Ret (0, None)
      | Some response =>
        if 0 <? zlen response then
          if malloc_ok (zlen response + 1) then Ret (1, Some (response ++ [0], zlen response)) else Ret (0, None)
        else Ret (0, None)
      end
  else
    let! node := ipfs_merkledag_get key key_size (repo local_node) in
    match node with
    | None => Ret (0, None)
    | Some node =>
      let! size := ipfs_hashtable_node_protobuf_encode_size node in
      let protobuf_size := u64 (s32 size) in
      if malloc_ok protobuf_size then
        let! ((r, vlen), val) := ipfs_hashtable_node_protobuf_encode node (fresh protobuf_size) protobuf_size in
        if r =? 0 then Ret (0, None) else Ret (1, Some (val, vlen))
      else Ret (0, None)
    end.

Context (dht_get : bytes -> option bytes) (local_node : IpfsNode D).

(** [None]: returned 0 *)
Definition ipfs_exporter_get_node (hash : bytes) (hash_size : Z) : res (option HashtableNode) :=
  let! (r, val) := ipfs_routing_generic_get_value dht_get local_node hash hash_size in
  match (if r =? 0 then None else val) with
  | None => Ret None
  | Some (buffer, buffer_size) =>
    let! result := ipfs_hashtable_node_protobuf_decode buffer buffer_size in
    match result with
    | None => Ret None
    | Some result =>
      if malloc_ok hash_size then
        let! h := memrd hash hash_size in Ret (Some (set_node_hash (Some h) hash_size result))
      else Ret None
    end
  end.

(** ** Streams *)

(** a file that is open for writing *)
Record stream := mkStream { stream_name : bytes; written : bytes }.

(** [fwrite(data, 1, n, file)]: the bytes written *)
Definition fwrite (data : bytes) (n : Z) (file : stream) : res (Z * stream) :=
  let! d := memrd data n in
  let k := Z.max 0 (Z.min n (fwrite_count (stream_name file) n)) in
  Ret (k, mkStream (stream_name file) (written file ++ ztake k d)).

(** the data of a node that is no UnixFS object leaves the pointer uninitialised;
    [false]: not everything could be written *)
Definition write_unixfs (node : HashtableNode) (file : stream) : res (bool * stream) :=
  let! unix_fs := ipfs_unixfs_protobuf_decode (deref (n_data node)) (n_data_size node) in
  match unix_fs with
  | None => UB
  | Some unix_fs =>
    let! (bytes_written, file) := fwrite (deref (ubytes unix_fs)) (bytes_size unix_fs) file in
    Ret (bytes_written =? bytes_size unix_fs, file)
  end.

Fixpoint write_links (links : list NodeLink) (file : stream) : res (Z * stream) :=
  match links with
  | [] => Ret (1, file)
  | link :: links =>
    let! link_node := ipfs_exporter_get_node (deref (nl_hash link)) (nl_hash_size link) in
    match link_node with
    | None => Ret (0, file)
    | Some link_node =>
      let! (ok, file) := write_unixfs link_node file in
      if ok : bool then write_links links file else Ret (0, file)
    end
  end.

(** the data of a node without links, or that of the nodes it links to *)
Definition ipfs_exporter_to_filestream (hash : bytes) (file_descriptor : stream) : res (Z * stream) :=
  let! n := strlen hash in
  let! cid := ipfs_cid_decode_hash_from_base58 hash n in
  match cid with
  | None => Ret (0, file_descriptor)
  | Some cid =>
    let! read_node := ipfs_exporter_get_node (deref (cid_hash cid)) (cid_hash_length cid) in
    match read_node with
    | None => Ret (0, file_descriptor)
    | Some read_node =>
      match n_head_link read_node with
      | [] => let! (ok, file) := write_unixfs read_node file_descriptor in Ret (if ok : bool then 1 else 0, file)
      | links => write_links links file_descriptor
      end
    end
  end.

(** the files afterwards: what could be written stays, whatever the result *)
Definition ipfs_exporter_to_file (hash file_name : bytes) (fs : files) : res (Z * files) :=
  let! name := read_str file_name in
  if fopen_w name then
    let! (retVal, file) := ipfs_exporter_to_filestream hash (mkStream name []) in
    Ret (retVal, <[name := written file]> fs)
  else Ret (0, fs).

(** [fprintf(file, "%c", b)] for each byte; the results are ignored *)
Definition fprint_bytes (d : bytes) (file : stream) : res stream :=
  foldl (fun file b => let! file := file in let! (_, file) := fwrite [b] 1 file in Ret file) (Ret file) d.

(** the loop of [ipfs_exporter_cat_node] over the links; [cat] is the recursive call,
    whose result is ignored *)
Fixpoint cat_links (cat : HashtableNode -> stream -> res (Z * stream)) (links : list NodeLink) (file : stream) : res (Z * stream) :=
  match links with
  | [] => Ret (1, file)
  | current :: links =>
    let! child_node := ipfs_exporter_get_node (deref (nl_hash current)) (nl_hash_size current) in
    match child_node with
    | None => Ret (0, file)
    | Some child_node => let! (_, file) := cat child_node file in cat_links cat links file
    end
  end.

(** [fuel]: the number of nodes on the longest path of links *)
Fixpoint ipfs_exporter_cat_node (fuel : nat) (node : HashtableNode) (file : stream) : res (Z * stream) :=
  match fuel with
  | O => NoFuel
  | S fuel =>
    let! unix_fs := ipfs_unixfs_protobuf_decode (deref (n_data node)) (n_data_size node) in
    match unix_fs with
    | None => Ret (0, file)
    | Some unix_fs =>
      let! d := memrd (deref (ubytes unix_fs)) (bytes_size unix_fs) in
      let! file := fprint_bytes d file in
      cat_links (ipfs_exporter_cat_node fuel) (n_head_link node) file
    end
  end.

Definition ipfs_exporter_object_cat_to_file (fuel : nat) (hash : bytes) (hash_size : Z) (file : stream) : res (Z * stream) :=
  let! read_node := ipfs_exporter_get_node hash hash_size in
  match read_node with
  | None => Ret (0, file)
  | Some read_node => ipfs_exporter_cat_node fuel read_node file
  end.

(** in quotation marks *)
Definition quoted (s : bytes) : bytes := 34 :: s ++ [34].

(** what is printed for a link; without a hash the text is that of an uninitialised
    array *)
Definition console_link (link : NodeLink) : res bytes :=
  let! (_, b58) := ipfs_cid_hash_to_base58 (deref (nl_hash link)) (nl_hash_size link) (fresh 100) 100 in
  let! name := match nl_name link with Some s => read_str s | None => Ret [] end in
  let! text := read_str b58 in
  Ret (txt "{" ++ quoted (txt "Name") ++ txt ":" ++ quoted name ++ txt "," ++ quoted (txt "Hash") ++ txt ":" ++ quoted text ++
       txt "," ++ quoted (txt "Size") ++ txt ":" ++ dec (nl_t_size link) ++ txt "}").

(** the result and what is printed *)
Definition ipfs_exporter_to_console (hash : bytes) : res (Z * bytes) :=
  let! n := strlen hash in
  let! cid := ipfs_cid_decode_hash_from_base58 hash n in
  match cid with
  | None => Ret (0, [])
  | Some cid =>
    let! read_node := ipfs_exporter_get_node (deref (cid_hash cid)) (cid_hash_length cid) in
    match read_node with
    | None => Ret (0, [])
    | Some read_node =>
      let! links := foldr (fun l r => let! t := console_link l in let! r := r in Ret (t ++ r)) (Ret []) (n_head_link read_node) in
      let! data := memrd (deref (n_data read_node)) (n_data_size read_node) in
      Ret (1, txt "{Links:[" ++ links ++ txt "]," ++ quoted (txt "Data") ++ txt ":" ++ quoted (data ≫= hex02 false) ++ txt "}" ++ [10])
    end
  end.
End exporter.

(** ** What is read back *)
Section proofs.
Context {M : Malloc} {Hm : MallocOk M} {Dk : Disk} {Hd : DiskOk Dk} {D : Type} {Ds : Datastore D} {Dl : DatastoreLaws D}.
Context (sha256 : bytes -> bytes) (Hsha : forall b, hash_ok (sha256 b)).
Context (dht_get : bytes -> option bytes) (nd : IpfsNode D) (Hmode : mode nd <> MODE_API_AVAILABLE) (Hpath : path_ok (path (repo nd))).

Lemma get_node_stored n : node_fits n -> node_saved n = n -> stored sha256 n (repo nd) ->
  ipfs_exporter_get_node dht_get nd (node_hash sha256 n) 32 = Ret (Some (set_node_hash (Some (node_hash sha256 n)) 32 n)).
Proof using Hm Hsha Hmode Hpath.
  intros Hn Hs Hst. unfold ipfs_exporter_get_node, ipfs_routing_generic_get_value. rewrite (proj2 (Z.eqb_neq _ _) Hmode).
  rewrite stored_get by done. rewrite Hs. cbn [rbind]. set (h := node_hash sha256 n).
  assert (Hn' : node_ok (set_node_hash (Some h) 32 n)) by apply Hn. pose proof (node_wire_length n (proj1 Hn)) as Hw.
  assert (node_wire (set_node_hash (Some h) 32 n) = node_wire n) as Ew by done.
  rewrite node_encode_size_ok by done. cbn [rbind]. change (node_size (set_node_hash (Some h) 32 n)) with (node_size n).
  destruct Hn as [(_ & _ & Hpos) Hsz]. unfold INT_MAX in *. rewrite s32_small, u64_small, malloc_always by lia.
  rewrite (node_encode_emits _ Hn') by (rewrite ?zlen_fresh, ?Ew; unfold INT_MAX; lia). cbn [rbind]. change (1 =? 0) with false. cbv iota. cbn [rbind]. change (1 =? 0) with false. cbv iota.
  rewrite node_decode_wire by done. cbn [rbind]. rewrite malloc_always. destruct (Hsha (node_wire n)) as [_ Hl].
  rewrite memrd_all by done. cbn [rbind]. change (node_saved (set_node_hash (Some h) 32 n)) with (node_saved n). by rewrite Hs.
Qed.

Lemma data_node_saved w ls : 0 < zlen w -> link_saved <$> ls = ls -> node_saved (data_node w ls) = data_node w ls.
Proof using. intros Hw Hl. unfold node_saved, data_node. cbn [n_data_size n_data n_head_link]. rewrite Hl. by zbool. Qed.

Lemma piece_node_saved d : node_saved (piece_node d) = piece_node d.
Proof using. apply data_node_saved; [apply unixfs_wire_pos|done]. Qed.

Lemma pieces_node_saved ds : node_saved (pieces_node sha256 ds) = pieces_node sha256 ds.
Proof using.
  apply data_node_saved; [apply unixfs_wire_pos|]. rewrite <- list_fmap_compose. apply list_fmap_ext. done.
Qed.

Lemma fwrite_ok d n file : n = zlen d -> fwrite d n file = Ret (n, mkStream (stream_name file) (written file ++ d)).
Proof using Hd.
  intros ->. unfold fwrite. rewrite memrd_all by done. cbn [rbind]. rewrite disk_write. zlen_facts.
  rewrite Z.min_id, Z.max_r, ztake_all by lia. done.
Qed.

Definition append (d : bytes) (file : stream) : stream := mkStream (stream_name file) (written file ++ d).

Lemma fprint_ok d file : fprint_bytes d file = Ret (append d file).
Proof using Hd.
  unfold fprint_bytes, append. revert file. induction d as [|b d IH]; intros file; cbn [foldl].
  - rewrite app_nil_r. by destruct file.
  - cbn [rbind]. rewrite (fwrite_ok [b]) by done. cbn [rbind]. rewrite IH. cbn [stream_name written]. by rewrite <- app_assoc.
Qed.

Lemma data_node_unixfs o ls : unixfs_fits o ->
  ipfs_unixfs_protobuf_decode (deref (n_data (data_node (unixfs_wire o) ls))) (n_data_size (data_node (unixfs_wire o) ls)) = Ret (Some (unixfs_saved o)).
Proof using Hm.
  intros Ho. cbn [data_node n_data n_data_size]. change (deref (Some ?x)) with x. rewrite <- (app_nil_r (unixfs_wire o)) at 1.
  by apply unixfs_decode_wire.
Qed.

(** what is saved of a piece: without bytes the pointer is NULL *)
Lemma piece_saved_bytes d : deref (ubytes (unixfs_saved (piece_unixfs d))) = d /\ bytes_size (unixfs_saved (piece_unixfs d)) = zlen d.
Proof using.
  split; [|done]. unfold unixfs_saved. cbn [piece_unixfs bytes_size ubytes]. destruct (Z.ltb_spec 0 (zlen d)) as [|Hle]; [done|].
  symmetry. apply zlen_0_nil. zlen_facts. lia.
Qed.

Lemma write_piece d hash file : zlen d <= MAX_DATA_SIZE -> write_unixfs (set_node_hash hash 32 (piece_node d)) file = Ret (true, append d file).
Proof using Hm Hd.
  intros Hz. unfold write_unixfs. change (n_data (set_node_hash hash 32 (piece_node d))) with (n_data (piece_node d)).
  change (n_data_size (set_node_hash hash 32 (piece_node d))) with (n_data_size (piece_node d)).
  unfold piece_node. rewrite data_node_unixfs by (apply piece_unixfs_fits; unfold MAX_DATA_SIZE in Hz; lia). cbn [rbind].
  destruct (piece_saved_bytes d) as [-> ->]. rewrite fwrite_ok by done. cbn [rbind]. by rewrite Z.eqb_refl.
Qed.

Lemma append_append d e file : append e (append d file) = append (d ++ e) file.
Proof using. unfold append. cbn [stream_name written]. by rewrite app_assoc. Qed.

Lemma write_pieces ds file : Forall (fun d => zlen d <= MAX_DATA_SIZE) ds -> Forall (fun d => stored sha256 (piece_node d) (repo nd)) ds ->
  write_links dht_get nd (piece_link sha256 <$> ds) file = Ret (1, append (concat ds) file).
Proof using Hm Hd Hsha Hmode Hpath.
  intros Hds Hst. revert file. induction Hds as [|d ds Hz _ IH]; intros file; cbn [fmap list_fmap write_links concat].
  - unfold append. rewrite app_nil_r. by destruct file.
  - apply Forall_cons in Hst as [Hd' Hst]. cbn [piece_link nl_hash nl_hash_size]. change (deref (Some ?x)) with x.
    rewrite get_node_stored by (done || by apply piece_node_fits || by apply piece_node_saved). cbn [rbind].
    rewrite write_piece by done. cbn [rbind]. by rewrite IH, append_append.
Qed.

Lemma cat_data fuel o ls hash file : unixfs_fits o -> let u := unixfs_saved o in bytes_size u = zlen (deref (ubytes u)) ->
  ipfs_exporter_cat_node dht_get nd (S fuel) (set_node_hash hash 32 (data_node (unixfs_wire o) ls)) file =
    cat_links dht_get nd (ipfs_exporter_cat_node dht_get nd fuel) ls (append (deref (ubytes u)) file).
Proof using Hm Hd.
  intros Ho u Hu. cbn [ipfs_exporter_cat_node]. change (n_data (set_node_hash hash 32 ?n)) with (n_data n).
  change (n_data_size (set_node_hash hash 32 ?n)) with (n_data_size n). rewrite data_node_unixfs by done. cbn [rbind].
  rewrite memrd_all by done. cbn [rbind]. rewrite fprint_ok. done.
Qed.

Lemma cat_piece fuel d hash file : zlen d <= MAX_DATA_SIZE ->
  ipfs_exporter_cat_node dht_get nd (S fuel) (set_node_hash hash 32 (piece_node d)) file = Ret (1, append d file).
Proof using Hm Hd.
  intros Hz. destruct (piece_saved_bytes d) as [E1 E2]. unfold piece_node. rewrite cat_data; [by rewrite E1| |by rewrite E2, E1].
  apply piece_unixfs_fits. unfold MAX_DATA_SIZE in Hz. lia.
Qed.

Lemma cat_piece_links fuel ds file : Forall (fun d => zlen d <= MAX_DATA_SIZE) ds -> Forall (fun d => stored sha256 (piece_node d) (repo nd)) ds ->
  cat_links dht_get nd (ipfs_exporter_cat_node dht_get nd (S fuel)) (piece_link sha256 <$> ds) file = Ret (1, append (concat ds) file).
Proof using Hm Hd Hsha Hmode Hpath.
  intros Hds Hst. revert file. induction Hds as [|d ds Hz _ IH]; intros file; cbn [fmap list_fmap cat_links concat].
  - unfold append. rewrite app_nil_r. by destruct file.
  - apply Forall_cons in Hst as [Hd' Hst]. cbn [piece_link nl_hash nl_hash_size]. change (deref (Some ?x)) with x.
    rewrite get_node_stored by (done || by apply piece_node_fits || by apply piece_node_saved). cbn [rbind].
    rewrite cat_piece by done. cbn [rbind]. by rewrite IH, append_append.
Qed.

(** a file whose nodes are stored: both ways to get its content *)
Lemma file_read c file : zlen c < 2 ^ 40 -> Forall (fun n => stored sha256 n (repo nd)) (file_nodes sha256 c) ->
  let h := node_hash sha256 (file_node sha256 c) in
  ipfs_exporter_object_cat_to_file dht_get nd 2 h 32 file = Ret (1, append c file) /\
  forall rest, ipfs_exporter_to_filestream dht_get nd (cid_text h ++ 0 :: rest) file = Ret (1, append c file).
Proof using Hm Hd Hsha Hmode Hpath.
  intros Hc Hst h. pose proof (file_nodes_fit sha256 Hsha c Hc) as Hf. destruct (Hsha (node_wire (file_node sha256 c))) as [Hb Hl].
  destruct (cid_text_digits h Hb Hl) as (_ & _ & _ & _ & H46).
  assert (Hcid : forall rest, ipfs_cid_decode_hash_from_base58 (cid_text h ++ 0 :: rest) (zlen (cid_text h)) = Ret (Some (mkCid 0 CID_DAG_PROTOBUF (Some h) 32)))
    by (intros; rewrite H46; by apply decode_cid_text).
  unfold ipfs_exporter_object_cat_to_file, ipfs_exporter_to_filestream.
  assert (Htext : forall rest, strlen (cid_text h ++ 0 :: rest) = Ret (zlen (cid_text h))) by (intros; by apply strlen_nul, cid_text_nonzero).
  destruct (pieces_bounds c Hc) as (_ & _ & Hps & Hsz).
  unfold h, file_node, file_nodes in *. destruct (full_pieces c) as [|n] eqn:En.
  - apply Forall_cons in Hf as [Hf _]. apply Forall_cons in Hst as [Hst _]. apply Forall_cons in Hps as [Hps _].
    split; [|intros rest; rewrite Htext; cbn [rbind]; rewrite Hcid; cbn [rbind cid_hash cid_hash_length]; change (deref (Some ?x)) with x];
      rewrite get_node_stored by (done || by apply piece_node_saved); cbn [rbind].
    + by apply cat_piece.
    + cbn [set_node_hash n_head_link piece_node data_node]. by rewrite write_piece.
  - apply Forall_app in Hf as [_ Hf]. apply Forall_cons in Hf as [Hf _]. apply Forall_app in Hst as [Hst Hst1]. apply Forall_cons in Hst1 as [Hst1 _].
    apply Forall_fmap in Hst. pose proof (pieces_concat (S n) c) as Hcc. set (ds := pieces (S n) c) in *.
    assert (exists l ls, piece_link sha256 <$> ds = l :: ls) as (l & ls & El) by (by eexists _, _).
    split; [|intros rest; rewrite Htext; cbn [rbind]; rewrite Hcid; cbn [rbind cid_hash cid_hash_length]; change (deref (Some ?x)) with x];
      rewrite get_node_stored by (done || by apply pieces_node_saved); cbn [rbind].
    + unfold pieces_node. rewrite cat_data by (done || by apply sizes_fits).
      rewrite cat_piece_links by done. by rewrite append_append, Hcc.
    + cbn [set_node_hash n_head_link pieces_node data_node]. rewrite El, <- El, write_pieces by done. by rewrite Hcc.
Qed.
End proofs.

Lemma names_distinct (sha256 : bytes -> bytes) ns : NoDup ((fun n => base32_key (node_hash sha256 n)) <$> ns) -> distinct_names sha256 ns.
Proof.
  intros Hnd n m [i Hi]%list_elem_of_lookup [j Hj]%list_elem_of_lookup Hk.
  assert (i = j) as ->; [|congruence]. eapply NoDup_lookup; [exact Hnd|rewrite list_lookup_fmap, Hi; reflexivity|].
  rewrite list_lookup_fmap, Hj. cbn [fmap option_fmap option_map]. by rewrite Hk.
Qed.

Lemma announced_links {D} ls (st : ImportState D) :
  announce_links ls st = mkImport (import_repo st) (provided st ++ ((fun l => (nl_hash l, nl_hash_size l)) <$> ls)) (printed st).
Proof.
  unfold announce_links. revert st. induction ls as [|l ls IH]; intros st; cbn [fold_left fmap list_fmap].
  - rewrite app_nil_r. by destruct st.
  - rewrite IH. unfold Provide. cbn [import_repo provided printed]. by rewrite <- app_assoc.
Qed.

(** ** Properties *)

(** Property C5.  A file that was imported is got back.  For a regular file of less
    than 1 TiB, a datastore that accepts records, and a hash function that gives the
    nodes of the file different names, [ipfs_import_file] succeeds; the node it
    returns has a link for each piece of 256 KiB and one for the rest, or none when
    the file is shorter; it and the nodes it links to are announced to the routing;
    and on the repository it leaves, both [ipfs_exporter_object_cat_to_file] with the
    node's hash and [ipfs_exporter_to_filestream] with its base58 text write exactly
    the content of the file. *)
Theorem file_import_export {M : Malloc} {Hm : MallocOk M} {Dk : Disk} {Hd : DiskOk Dk} {Fs : FileSystem} {D : Type}
    {Ds : Datastore D} {Dl : DatastoreLaws D} (sha256 : bytes -> bytes) (dht_get : bytes -> option bytes) (st : ImportState D)
    (name c rest : bytes) (root : option bytes) (p : ptr HashtableNode) (recursive : Z) (file : stream) :
  (forall b, hash_ok (sha256 b)) -> (forall (r : DatastoreRecord) (d : D), fst (datastore_put r d) <> 0) -> path_ok (path (import_repo st)) ->
  nonzero name -> stat_directory name = Some false -> file_content name = Some c -> zlen c < 2 ^ 40 ->
  distinct_names sha256 (file_nodes sha256 c) ->
  exists node st' bytes_written h,
    ipfs_import_file sha256 1 root (name ++ 0 :: rest) p 0 recursive st = Ret (1, Ptr node, bytes_written, st') /\
    n_hash node = Some h /\ n_hash_size node = 32 /\
    zlen (n_head_link node) = (if zlen c <? MAX_DATA_SIZE then 0 else zlen c / MAX_DATA_SIZE + 1) /\
    provided st' = provided st ++ (Some h, 32) :: ((fun l => (nl_hash l, nl_hash_size l)) <$> n_head_link node) /\
    forall nd, mode nd <> MODE_API_AVAILABLE -> repo nd = import_repo st' ->
      ipfs_exporter_object_cat_to_file dht_get nd 2 h 32 file = Ret (1, append c file) /\
      ipfs_exporter_to_filestream dht_get nd (cid_text h ++ 0 :: rest) file = Ret (1, append c file).
Proof.
  intros Hsha Hput Hp Hz Hst Hc Hl Hdn. eexists _, _, _, (node_hash sha256 (file_node sha256 c)).
  split; [by apply import_file_ok|]. cbn [set_node_hash n_hash n_hash_size n_head_link]. split; [done|]. split; [done|].
  unfold announce_node. rewrite announced_links. cbn [Provide import_repo provided set_repo set_node_hash n_head_link n_hash n_hash_size].
  destruct (pieces_bounds c Hl) as (En & _). split; [|split].
  - unfold file_node. destruct (full_pieces c) as [|n] eqn:E.
    + rewrite (proj2 (Z.ltb_lt _ _)); [done|]. apply short_piece. lia.
    + rewrite (proj2 (Z.ltb_ge _ _)).
      2:{ destruct (Z.lt_ge_cases (zlen c) MAX_DATA_SIZE) as [Hlt|]; [|done]. zlen_facts. rewrite Z.div_small in En by lia. lia. }
      cbn [pieces_node data_node n_head_link]. rewrite zlen_fmap. unfold zlen at 1. rewrite pieces_length. lia.
  - by rewrite <- app_assoc.
  - intros nd Hmode Hr. cbn [import_repo] in Hr.
    assert (path_ok (path (repo nd))) as Hp' by (rewrite Hr, store_nodes_path; exact Hp).
    assert (Forall (fun n => stored sha256 n (repo nd)) (file_nodes sha256 c)) as Hall.
    { rewrite Hr. apply Forall_forall. intros n Hn. apply store_nodes_stored; try done. by apply file_nodes_fit. }
    destruct (file_read sha256 Hsha dht_get nd Hmode Hp' c file Hl Hall) as [H1 H2]. split; [exact H1|apply H2].
Qed.

(** a file of one full piece, which gets a second, empty one *)
Definition ex_content : bytes := replicate (Z.to_nat MAX_DATA_SIZE) 7.
Definition ex_files : FileSystem := {|
  stat_directory := fun n => if bool_decide (n = [102]) then Some false else None;
  dir_entries := fun _ => None;
  file_content := fun n => if bool_decide (n = [102]) then Some ex_content else None
|}.

Lemma ex_sha_ok b : hash_ok (ex_sha b).
Proof.
  split; [|reflexivity]. unfold ex_sha. constructor; [unfold byte_range; apply Z.mod_pos_bound; lia|].
  apply Forall_replicate. unfold byte_range. lia.
Qed.

Lemma file_import_export_witness :
  let M := malloc_total in let Dk := disk_total in let Fs := ex_files in
  let st := mkImport (mkRepo ex_repo_path ∅ (∅ : gmap bytes DatastoreRecord)) [] [] in let out := mkStream [111] [] in
  exists node st' bytes_written h,
    ipfs_import_file ex_sha 1 None ([102] ++ 0 :: []) Null 0 0 st = Ret (1, Ptr node, bytes_written, st') /\
    n_hash node = Some h /\ n_hash_size node = 32 /\
    zlen (n_head_link node) = (if zlen ex_content <? MAX_DATA_SIZE then 0 else zlen ex_content / MAX_DATA_SIZE + 1) /\
    provided st' = provided st ++ (Some h, 32) :: ((fun l => (nl_hash l, nl_hash_size l)) <$> n_head_link node) /\
    forall nd, mode nd <> MODE_API_AVAILABLE -> repo nd = import_repo st' ->
      ipfs_exporter_object_cat_to_file (fun _ => None) nd 2 h 32 out = Ret (1, append ex_content out) /\
      ipfs_exporter_to_filestream (fun _ => None) nd (cid_text h ++ 0 :: []) out = Ret (1, append ex_content out).
Proof.
  intros M Dk Fs st out.
  apply (file_import_export ex_sha (fun _ => None) st [102] ex_content [] None Null 0 out).
  - exact ex_sha_ok.
  - discriminate.
  - exact ex_repo_path_ok.
  - by repeat constructor.
  - reflexivity.
  - reflexivity.
  - vm_compute. reflexivity.
  - apply names_distinct. apply (bool_decide_eq_true_1 _). vm_compute. reflexivity.
Defined.
