(* ===== verification/ImportTree.v ===== *)
(** * Importing directories (libipfs/importer/importer.c)

    What an import of a whole tree of files and directories leaves: the node of each
    file and directory, with a named link for each entry.  The tree is the reference;
    [on_disk] says that the file system has it at a path. *)
From Stdlib Require Import String.
From S2P Require Import Prelude Varint Protobuf Multihash Unixfs Cid Block Node Base32 Datastore Files Blockstore Merkledag CString Base58 CidText Importer.

#[warnings="-register-all"]
Inductive tree :=
  | FileT (content : bytes)
  | DirT (entries : list (bytes * tree)).

(** induction with the hypothesis for every entry *)
Section tree_induction.
Context (P : tree -> Prop) (Hfile : forall c, P (FileT c)) (Hdir : forall l, Forall (fun e => P (snd e)) l -> P (DirT l)).
Fixpoint tree_induction (t : tree) : P t :=
  match t with
  | FileT c => Hfile c
  | DirT l => Hdir l ((fix go (l : list (bytes * tree)) : Forall (fun e => P (snd e)) l :=
      match l with
      | [] => Forall_nil_2 _
      | e :: l => Forall_cons_2 _ _ _ (tree_induction (snd e)) (go l)
      end) l)
  end.
End tree_induction.

Fixpoint height (t : tree) : nat :=
  match t with
  | FileT _ => 1
  | DirT l => S (list_max (height ∘ snd <$> l))
  end.

(** ** The nodes of a tree *)
Definition directory_unixfs : UnixFS := mkUnixFS UNIXFS_DIRECTORY 0 None 0 [] None 0.
Definition directory_node (ls : list NodeLink) : HashtableNode := data_node (unixfs_wire directory_unixfs) ls.

Section reference.
Context {M : Malloc} (sha256 : bytes -> bytes).

(** the node, what [*bytes_written] is set to, and the nodes stored: for a directory
    the bytes are those of its last entry *)
Definition tree_result : Type := HashtableNode * Z * list HashtableNode.

Definition entry_link (e : bytes * tree_result) : NodeLink :=
  let '(name, (n, written, _)) := e in mkNodeLink 32 (Some (node_hash sha256 n)) (Some (name ++ [0])) written.
Definition directory_result (l : list (bytes * tree_result)) : tree_result :=
  let n := directory_node (entry_link <$> l) in
  (n, from_option (fun e => snd (fst (snd e))) 0 (last l), concat ((fun e => snd (snd e)) <$> l) ++ [n]).

Fixpoint tree_import (t : tree) : tree_result :=
  match t with
  | FileT c => (file_node sha256 c, u64 (stored_sizes sha256 (file_nodes sha256 c)), file_nodes sha256 c)
  | DirT l => directory_result ((fun e => (fst e, tree_import (snd e))) <$> l)
  end.
Definition tree_node (t : tree) : HashtableNode := fst (fst (tree_import t)).
Definition tree_nodes (t : tree) : list HashtableNode := snd (tree_import t).
End reference.

(** ** A tree in the file system *)
Definition entry_name (n : bytes) : Prop := nonzero n /\ n <> [] /\ (47 ∉ n) /\ n <> txt "." /\ n <> txt "..".

Fixpoint on_disk `{FileSystem} (path : bytes) (t : tree) : Prop :=
  nonzero path /\ path <> [] /\ last path <> Some 47 /\ zlen path < 2 ^ 29 /\
  match t with
  | FileT c => stat_directory path = Some false /\ file_content path = Some c
  | DirT l =>
    stat_directory path = Some true /\
    (exists names, dir_entries path = Some names /\ filter (fun n => n <> txt "." /\ n <> txt "..") names = fst <$> l) /\
    Forall entry_name (fst <$> l) /\
    (fix all (l : list (bytes * tree)) : Prop :=
       match l with [] => True | (n, t) :: l => on_disk (path ++ 47 :: n) t /\ all l end) l
  end.

(** every file is shorter than 1 TiB, and the node of every directory fits *)
Fixpoint tree_fits `{Malloc} (sha256 : bytes -> bytes) (t : tree) : Prop :=
  match t with
  | FileT c => zlen c < 2 ^ 40
  | DirT l => node_fits (tree_node sha256 (DirT l)) /\
    (fix all (l : list (bytes * tree)) : Prop := match l with [] => True | (_, t) :: l => tree_fits sha256 t /\ all l end) l
  end.

(** ** Names *)
(** the part behind the last slash *)
Definition base_name (s : bytes) : bytes := match c_strrchr s 47 with Some i => zdrop (i + 1) s | None => s end.

Lemma base_name_split p n : (47 ∉ n) -> base_name (p ++ 47 :: n) = n.
Proof.
  intros Hn. unfold base_name. rewrite strrchr_last by done. change (p ++ 47 :: n) with (p ++ [47] ++ n). rewrite app_assoc.
  apply zdrop_app_ge. rewrite zlen_app. reflexivity.
Qed.

(** a path is a part that ends with a slash, or nothing, and its base name *)
Lemma base_name_spec s : exists p, s = p ++ base_name s /\ (p = [] \/ last p = Some 47) /\ (47 ∉ base_name s).
Proof.
  destruct (decide (47 ∈ s)) as [Hin|Hno].
  - assert (exists p n, s = p ++ 47 :: n /\ (47 ∉ n)) as (p & n & -> & Hn).
    { clear - Hin. induction s as [|b s IH]; [by apply elem_of_nil in Hin|]. destruct (decide (47 ∈ s)) as [H|H].
      - destruct (IH H) as (p & n & -> & Hn). by exists (b :: p), n.
      - apply elem_of_cons in Hin as [<-|Hin]; [by exists [], s|done]. }
    exists (p ++ [47]). rewrite base_name_split by done. rewrite <- app_assoc. split; [done|]. split; [|done].
    right. apply last_snoc.
  - exists []. unfold base_name. rewrite strrchr_none by done. split; [done|]. split; [by left|done].
Qed.

Section proofs.
Context {M : Malloc} {Hm : MallocOk M} {Dk : Disk} {Hd : DiskOk Dk} {Fs : FileSystem} {D : Type} {Ds : Datastore D} (sha256 : bytes -> bytes).
Context (Hsha : forall b, hash_ok (sha256 b)) (Hput : forall (r : DatastoreRecord) (d : D), fst (datastore_put r d) <> 0).

(** a directory's name without a slash at the end *)
Definition good_path (s : bytes) : Prop := nonzero s /\ s <> [] /\ last s <> Some 47 /\ zlen s < 2 ^ 29.

Lemma base_name_good s : good_path s -> good_path (base_name s) /\ (47 ∉ base_name s) /\ zlen (base_name s) <= zlen s.
Proof using.
  intros (Hz & Hne & Hl & Hlen). destruct (base_name_spec s) as (p & E & Hp & Hn).
  assert (zlen (base_name s) <= zlen s) as Hle by (rewrite E at 2; rewrite zlen_app; zlen_facts; lia).
  assert (nonzero (base_name s)) as Hz' by (rewrite E in Hz; by apply Forall_app in Hz as [_ Hz]).
  assert (base_name s <> []) as Hne'.
  { intros Eb. rewrite Eb, app_nil_r in E. subst p. by destruct Hp as [Hp|Hp]. }
  assert (last (base_name s) <> Some 47) as Hl' by (intros H%last_Some_elem_of; done).
  split; [|done]. split_and!; try done. lia.
Qed.

Lemma split_ok s rest : good_path s -> exists p, os_utils_split_filename (s ++ 0 :: rest) None = Ret (p, base_name s ++ [0]).
Proof using Hm.
  intros (Hz & Hne & Hl & _). unfold os_utils_split_filename, base_name. rewrite read_str_nul by done. cbn [rbind].
  destruct (base_name_spec s) as (p & E & Hp & Hn). destruct (c_strrchr s 47) as [i|] eqn:Ei; rewrite !malloc_always; [|by eexists].
  assert (0 <= i < zlen s) as Hi.
  { clear - Ei. revert i Ei. induction s as [|b s IH]; intros i Ei; [done|]. cbn [c_strrchr] in Ei. rewrite zlen_cons. zlen_facts.
    destruct (c_strrchr s 47) as [j|]; [specialize (IH j eq_refl); injection Ei as <-; lia|]. destruct (b =? 47); [injection Ei as <-; lia|done]. }
  rewrite memwr_ok by (rewrite zlen_app, zlen_take, zlen_fresh by lia; change (zlen [0]) with 1; lia). cbn [rbind]. by eexists.
Qed.

Lemma join_name s n : good_path s -> (47 ∉ n) -> join s n = s ++ 47 :: n.
Proof using.
  intros (_ & _ & Hl & _) Hn. unfold join. rewrite (bool_decide_eq_false_2 _ Hl).
  rewrite (bool_decide_eq_false_2 (head n = Some 47)); [done|].
  destruct n as [|b n]; [done|]. intros [= ->]. apply Hn, list_elem_of_here.
Qed.

(** the root the entries are printed under *)
Definition root_ok (root : option bytes) (s : bytes) : Prop :=
  match root with
  | None => True
  | Some obj => exists r q, obj = r ++ 0 :: q /\ good_path r /\ zlen r + 1 + zlen (base_name s) <= zlen s
  end.

Lemma root_dir_ok root s rest : good_path s -> root_ok root s ->
  exists r q, import_root_dir root (s ++ 0 :: rest) = Ret (Some (r ++ 0 :: q)) /\ good_path r /\ zlen r <= zlen s.
Proof using Hm.
  intros Hs Hr. destruct (split_ok s rest Hs) as [p E]. destruct (base_name_good s Hs) as (Hb & Hn & Hle).
  unfold import_root_dir. rewrite E. cbn [rbind]. destruct root as [obj|]; [|by exists (base_name s), []].
  destruct Hr as (r & q & -> & Hr & Hlen). pose proof Hs as (_ & _ & _ & Hsl). pose proof Hb as (Hbz & _). pose proof Hr as (Hrz & Hrne & _).
  rewrite (strlen_nul r q) by done. cbn [rbind]. rewrite (strlen_nul (base_name s) []) by done. cbn [rbind].
  zlen_facts. rewrite u64_small, malloc_always by lia.
  destruct (filepath_join_ok r (base_name s) q [] (fresh (zlen r + zlen (base_name s) + 2)) Hrz Hbz Hrne) as (q' & Ej & _).
  { rewrite zlen_fresh by lia. lia. }
  rewrite zlen_fresh in Ej by lia. change [0] with (0 :: @nil Z). rewrite Ej. cbn [rbind].
  rewrite join_name by done. exists (r ++ 47 :: base_name s), q'. split; [done|].
  assert (zlen (r ++ 47 :: base_name s) = zlen r + 1 + zlen (base_name s)) as El by (rewrite zlen_app, zlen_cons; lia).
  split; [|lia]. pose proof Hb as (_ & Hbne & Hbl & _). split_and!.
  - apply Forall_app. split; [done|constructor; done].
  - by destruct r.
  - rewrite last_app_cons, last_cons. destruct (last (base_name s)) eqn:El'; [done|]. by apply last_None in El'.
  - lia.
Qed.

Lemma print_node_ok n name rest (st : ImportState D) : n_hash_size n = 32 -> (exists h, n_hash n = Some h /\ hash_ok h) -> nonzero name ->
  exists r text, ipfs_import_print_node_results n (name ++ 0 :: rest) st = Ret (r, printf text st).
Proof using.
  intros Hs (h & Hh & Hb & Hl) Hn. unfold ipfs_import_print_node_results. rewrite read_str_nul by done. cbn [rbind].
  rewrite Hs, Hh. change (deref (Some h)) with h. rewrite <- (app_nil_r h). rewrite hash_to_base58_ok by (rewrite ?zlen_fresh; done).
  cbn [rbind]. change (1 =? 0) with false. cbv iota. rewrite read_str_nul by (by apply cid_text_nonzero). cbn [rbind]. by eexists _, _.
Qed.

(** ** Directories *)
Lemma directory_fits : unixfs_fits directory_unixfs.
Proof using. by repeat split. Qed.

Lemma create_directory_ok : ipfs_hashtable_node_create_directory = Ret (Some (directory_node [])).
Proof using Hm.
  unfold ipfs_hashtable_node_create_directory, ipfs_hashtable_node_new, ipfs_unixfs_new. rewrite !malloc_always. cbv zeta.
  change (set_data_type UNIXFS_DIRECTORY unixfs_blank) with directory_unixfs.
  destruct (unixfs_encoded _ directory_fits) as [rest ->]. cbn [rbind]. change (1 =? 0) with false. cbv iota.
  by rewrite set_data_ok.
Qed.

(** an entry that can be imported from anywhere *)
Definition imports (import : bytes -> bytes -> Z -> ImportState D -> res (import_result (D := D))) (s : bytes) (t : tree) : Prop :=
  forall root rest st, root_ok (Some root) s -> path_ok (path (import_repo st)) -> exists st',
    import root (s ++ 0 :: rest) 0 st =
      Ret (1, Ptr (set_node_hash (Some (node_hash sha256 (tree_node sha256 t))) 32 (tree_node sha256 t)), snd (fst (tree_import sha256 t)), st') /\
    import_repo st' = store_nodes sha256 (tree_nodes sha256 t) (import_repo st).

Lemma store_nodes_app ns ms (repo : FSRepo D) : store_nodes sha256 (ns ++ ms) repo = store_nodes sha256 ms (store_nodes sha256 ns repo).
Proof using. apply foldl_app. Qed.

Lemma list_directory_ok s rest names l : nonzero s -> dir_entries s = Some names ->
  filter (fun n => n <> txt "." /\ n <> txt "..") names = l -> os_utils_list_directory (s ++ 0 :: rest) = Ret ((.++ [0]) <$> l).
Proof using Hm.
  intros Hz He Hl. unfold os_utils_list_directory. rewrite read_str_nul by done. cbn [rbind]. rewrite He. cbv zeta. rewrite Hl.
  rewrite (proj2 (forallb_forall _ l)); [done|]. intros n _. by rewrite !malloc_always.
Qed.

Lemma printed_repo text (st : ImportState D) : import_repo (printf text st) = import_repo st.
Proof using. done. Qed.

Lemma import_entries_ok import s rest r q : good_path s -> good_path r -> zlen r <= zlen s ->
  forall (l : list (bytes * tree)) parent bw st, path_ok (path (import_repo st)) ->
  Forall (fun e => entry_name (fst e) /\ zlen s + 1 + zlen (fst e) < 2 ^ 29 /\ imports import (s ++ 47 :: fst e) (snd e)) l ->
  let res := (fun e => (fst e, tree_import sha256 (snd e))) <$> l in
  exists st', import_entries import (s ++ 0 :: rest) (r ++ 0 :: q) ((.++ [0]) <$> (fst <$> l)) parent bw st =
    Ret (Some (node_append_link parent (entry_link sha256 <$> res)), from_option (fun e => snd (fst (snd e))) bw (last res), st') /\
    import_repo st' = store_nodes sha256 (concat ((fun e => snd (snd e)) <$> res)) (import_repo st).
Proof using Hm Hsha.
  intros Hs Hr Hrs. pose proof Hs as (Hsz & Hsne & _ & Hsl). pose proof Hr as (Hrz & Hrne & _).
  induction l as [|[n t] l IH]; intros parent bw st Hp Hl res; cbn [fmap list_fmap import_entries] in *.
  { exists st. unfold node_append_link, set_node_links. rewrite app_nil_r. by destruct parent. }
  apply Forall_cons in Hl as [((Hn & Hnne & Hns & _) & Hlen & Hi) Hl]. cbn [fst snd] in *. zlen_facts.
  rewrite (strlen_nul s rest) by done. cbn [rbind]. rewrite (strlen_nul n []) by done. cbn [rbind]. rewrite u64_small by lia.
  destruct (filepath_join_ok s n rest [] (fresh (zlen s + zlen n + 2)) Hsz Hn Hsne) as (q1 & E1 & _); [rewrite zlen_fresh by lia; lia|].
  rewrite zlen_fresh in E1 by lia. change [0] with (0 :: @nil Z). rewrite E1, join_name by done. cbn [rbind].
  destruct (Hi (r ++ 0 :: q) q1 st) as (st1 & E2 & Hr1); [|done|].
  { exists r, q. split; [done|]. split; [done|]. rewrite base_name_split by done. rewrite zlen_app, zlen_cons. lia. }
  rewrite E2. cbn [rbind]. change (1 =? 0) with false. cbv iota. rewrite (strlen_nul r q) by done. cbn [rbind].
  rewrite u64_small, s32_small, u64_small by lia. rewrite (proj2 (Z.ltb_ge _ 0)) by lia.
  destruct (filepath_join_ok r n q [] (fresh (zlen n + zlen r + 2)) Hrz Hn Hrne) as (q2 & E3 & _); [rewrite zlen_fresh by lia; lia|].
  rewrite zlen_fresh in E3 by lia. rewrite E3. cbn [rbind].
  destruct (print_node_ok (set_node_hash (Some (node_hash sha256 (tree_node sha256 t))) 32 (tree_node sha256 t)) (join r n) q2 st1) as (x & text & ->);
    [done|by eexists; split; [done|apply Hsha]|by apply join_ok|]. cbn [rbind set_node_hash n_hash n_hash_size]. change (deref (Some ?x)) with x.
  pose proof (link_created (node_hash sha256 (tree_node sha256 t)) (Some n) (Hsha _)) as E4. cbn [fmap option_fmap option_map from_option] in E4.
  change (0 :: @nil Z) with [0]. rewrite E4 by (split; [done|]; destruct n; [done|rewrite zlen_cons; zlen_facts; lia]). cbn [rbind].
  destruct (IH (node_append_link parent [set_link_t_size (snd (fst (tree_import sha256 t))) (mkNodeLink 32 (Some (node_hash sha256 (tree_node sha256 t))) (Some (n ++ [0])) 0)])
    (snd (fst (tree_import sha256 t))) (printf text st1)) as (st' & E5 & Hr5); [by rewrite printed_repo, Hr1, store_nodes_path|done|].
  exists st'. rewrite E5. unfold res. cbn [fmap list_fmap]. split; [|by rewrite Hr5, printed_repo, Hr1, <- store_nodes_app].
  f_equal. f_equal. f_equal.
  - unfold node_append_link, set_node_links. cbn [n_head_link]. rewrite <- app_assoc. unfold tree_node, entry_link, set_link_t_size. cbn [app nl_hash_size nl_hash nl_name fst snd].
    by destruct (tree_import sha256 t) as [[nt wt] st0].
  - rewrite last_cons. by destruct (last _).
Qed.

Lemma on_disk_good s t : on_disk s t -> good_path s.
Proof using. destruct t; intros (H1 & H2 & H3 & H4 & _); done. Qed.

Lemma announce_repo n (st : ImportState D) : import_repo (announce_node n st) = import_repo st.
Proof using.
  unfold announce_node, announce_links. generalize (n_head_link n). intros l. assert (H : forall (st : ImportState D),
    import_repo (fold_left (fun st nl => Provide (nl_hash nl) (nl_hash_size nl) st) l st) = import_repo st); [|by rewrite H].
  induction l as [|x l IH]; intros st0; cbn [fold_left]; [done|]. by rewrite IH.
Qed.

Lemma import_tree_ok t : forall fuel s root rest p st, on_disk s t -> tree_fits sha256 t -> (height t <= fuel)%nat -> root_ok root s ->
  path_ok (path (import_repo st)) -> exists st',
  ipfs_import_file sha256 fuel root (s ++ 0 :: rest) p 0 1 st =
    Ret (1, Ptr (set_node_hash (Some (node_hash sha256 (tree_node sha256 t))) 32 (tree_node sha256 t)), snd (fst (tree_import sha256 t)), st') /\
  import_repo st' = store_nodes sha256 (tree_nodes sha256 t) (import_repo st).
Proof using Hm Hd Hsha Hput.
  induction t as [c|l IH] using tree_induction; intros fuel s root rest p st Ht Hf Hh Hr Hp; (destruct fuel as [|fuel]; [cbn [height] in Hh; lia|]).
  - destruct Ht as (Hz & _ & _ & _ & Hs & Hc). pose proof (import_file_ok sha256 Hsha Hput fuel root s rest p 0 1 c st Hz Hs Hc Hp Hf) as E.
    eexists. split; [exact E|]. by rewrite announce_repo.
  - pose proof (on_disk_good _ _ Ht) as Hgood. destruct Ht as (Hz & _ & _ & _ & Hs & (names & Hdir & Hnames) & Hnok & Hall).
    destruct Hf as [Hfit Hfall]. cbn [ipfs_import_file]. unfold os_utils_is_directory. rewrite read_str_nul by done. cbn [rbind]. rewrite Hs.
    change (negb (1 =? 0)) with true. cbn [rbind]. destruct (root_dir_ok root s rest Hgood Hr) as (r & q & -> & Hrg & Hrl). cbn [rbind].
    rewrite create_directory_ok. cbn [rbind]. rewrite (list_directory_ok s rest names (fst <$> l)) by done. cbn [rbind]. change (1 =? 0) with false. cbv iota.
    set (import := fun root name bytes_written st => ipfs_import_file sha256 fuel (Some root) name Wild bytes_written 1 st).
    destruct (import_entries_ok import s rest r q Hgood Hrg Hrl l (directory_node []) 0 st Hp) as (st' & -> & Hr').
    { cbn [height] in Hh. clear Hdir Hnames Hfit Hs. assert (Hb : Forall (fun h => h <= fuel)%nat (height ∘ snd <$> l)) by (apply list_max_le; lia).
      clear Hh. induction l as [|[n t] l IHl]; [constructor|]. apply Forall_cons in IH as [IHt IH]. apply Forall_cons in Hnok as [Hn Hnok].
      destruct Hall as [Ht Hall]. destruct Hfall as [Hft Hfall]. apply Forall_cons in Hb as [Hb Hbs]. constructor; [|by apply IHl]. cbn [fst snd].
      split; [done|]. pose proof (on_disk_good _ _ Ht) as (_ & _ & _ & Hl). rewrite zlen_app, zlen_cons in Hl. split; [lia|].
      intros root' rest' st0 Hroot Hp0. by apply IHt. }
    cbn [rbind]. cbn [directory_node data_node node_append_link set_node_links n_data_size n_data n_head_link n_encoded n_hash n_hash_size app].
    change (mkNode (zlen ?w) (Some ?w) ?ls None None 0) with (data_node w ls).
    change (data_node (unixfs_wire directory_unixfs) (entry_link sha256 <$> ((fun e => (fst e, tree_import sha256 (snd e))) <$> l))) with (tree_node sha256 (DirT l)).
    rewrite add_node_ok; [|done|done|by rewrite Hr', store_nodes_path|done|done]. cbn [rbind]. eexists. split; [reflexivity|].
    rewrite announce_repo. cbn [set_repo import_repo]. rewrite Hr'. unfold tree_nodes. cbn [tree_import directory_result snd].
    by rewrite store_nodes_app.
Qed.
End proofs.
