(* ===== verification/Resolver.v ===== *)
(** * Resolving paths (libipfs/importer/resolver.c)

    A path names a node: the base58 text of a hash, then names of entries of
    directories.  What a remote peer answers is an argument. *)
From Stdlib Require Import String.
From S2P Require Import Prelude Varint Protobuf Multihash Unixfs Cid Block Node Base32 Datastore Files Blockstore Merkledag CString Base58 CidText.
From S2P Require Import Importer ImportTree Exporter.

(** the first characters of [path] that are no slashes; the last part is all of
    [whole], with the slashes in front of it *)
Fixpoint next_section (whole path : bytes) : option bytes :=
  match path with
  | [] => None
  | b :: s =>
    if b =? 47 then next_section whole s
    else Some (match c_strstr s [47] with None => whole | Some n => b :: ztake n s end)
  end.

Section resolver.
Context {M : Malloc} {Dk : Disk} {D : Type} {Ds : Datastore D}.

(** [None]: returned 0 *)
Definition ipfs_resolver_next_path (path : bytes) : res (option bytes) :=
  let! s := read_str path in
  match next_section s s with
  | None => Ret None
  | Some p => if malloc_ok (zlen p + 1) then Ret (Some (p ++ [0])) else Ret None
  end.

(** the id of the local peer, [fs_repo->config->identity->peer] *)
Context (id : bytes) (id_size : Z).

(** [&path[pos]] is never NULL, so that the loop only ends with what is no prefix;
    [first] is [first_non_slash] *)
Fixpoint remove_prefix_loop (fuel : nat) (path : bytes) (pos : Z) (first : option Z) : res bytes :=
  match fuel with
  | O => NoFuel
  | S fuel =>
    let! b := rd path pos in
    if b =? 47 then remove_prefix_loop fuel path (pos + 1) first
    else
      let first := default pos first in
      let! p := padd path pos in
      let! prefix :=
        if pos =? first then
          let! ipfs := strncmp_eq 4 p (txt "ipfs") in
          if ipfs : bool then Ret true else strncmp_eq 4 p (txt "ipns")
        else Ret false in
      if prefix : bool then remove_prefix_loop fuel path (pos + 4) (Some first)
      else
        let! own := strncmp_eq (Z.to_nat id_size) p id in
        if own : bool then remove_prefix_loop fuel path (s32 (u64 (pos + id_size + 1))) (Some first)
        else Ret p
  end.
Definition ipfs_resolver_remove_path_prefix (path : bytes) : res bytes :=
  remove_prefix_loop (S (length path)) path 0 None.

Fixpoint skip_slashes (path : bytes) : res bytes :=
  match path with
  | [] => UB
  | b :: s => if b =? 47 then skip_slashes s else Ret path
  end.

(** a hash that does not start with the local peer's id is remote *)
Definition ipfs_resolver_is_remote (path : bytes) : res Z :=
  let! p := skip_slashes path in
  let! ipfs := strncmp_eq 5 p (txt "ipfs/") in
  let! prefix := if ipfs : bool then Ret true else strncmp_eq 5 p (txt "ipns/") in
  if prefix : bool then
    let! p := padd p 5 in
    let! c := rd p 0 in
    if c =? 81 then
      let! c := rd p 1 in
      if c =? 109 then
        let! own := strncmp_eq (Z.to_nat id_size) p id in Ret (if own : bool then 0 else 1)
      else Ret 0
    else Ret 0
  else Ret 0.

(** the node for the hash that [path_section] is the base58 text of *)
Definition resolve_hash (path_section : bytes) (fs_repo : FSRepo D) : res (option HashtableNode) :=
  let! n := strlen path_section in
  let hash_length := libp2p_crypto_encoding_base58_decode_size n in
  let! (r, hash, hash_length) := libp2p_crypto_encoding_base58_decode path_section n (fresh hash_length) hash_length in
  if r =? 0 then Ret None else ipfs_merkledag_get_by_multihash hash hash_length fs_repo.

(** the first link with the name; a link without a name is read through NULL *)
Fixpoint find_named (links : list NodeLink) (path_section : bytes) : res (option NodeLink) :=
  match links with
  | [] => Ret None
  | l :: links =>
    match nl_name l with
    | None => UB
    | Some name =>
      let! c := c_strcmp name path_section in
      if c =? 0 then Ret (Some l) else find_named links path_section
    end
  end.

Context (remote_get : bytes -> res (option HashtableNode)).

(** [fuel]: the number of parts of the path and one more *)
Fixpoint ipfs_resolver_get (fuel : nat) (path : bytes) (from : option HashtableNode) (fs_repo : FSRepo D)
  : res (option HashtableNode) :=
  match fuel with
  | O => NoFuel
  | S fuel =>
    let! remote := match from with None => ipfs_resolver_is_remote path | Some _ => Ret 0 end in
    if negb (remote =? 0) then remote_get path
    else
      let! path := match from with None => ipfs_resolver_remove_path_prefix path | Some _ => Ret path end in
      let! path_section := ipfs_resolver_next_path path in
      match path_section, from with
      | None, _ => Ret None
      | Some path_section, None =>
        let! c0 := rd path_section 0 in
        let! c1 := if c0 =? 81 then rd path_section 1 else Ret 0 in
        if (c0 =? 81) && (c1 =? 109) then
          let! current_node := resolve_hash path_section fs_repo in
          match current_node with
          | None => Ret None
          | Some current_node =>
            let! pos := strlen path_section in
            let! n := strlen path in
            if pos =? n then Ret (Some current_node)
            else let! rest := padd path (pos + 1) in ipfs_resolver_get fuel rest (Some current_node) fs_repo
          end
        else Ret None
      | Some path_section, Some from =>
        let! directory := ipfs_hashtable_node_is_directory from in
        if directory =? 0 then Ret None
        else
          let! link := find_named (n_head_link from) path_section in
          match link with
          | None => Ret None
          | Some curr_link =>
            let! current_node := ipfs_merkledag_get (deref (nl_hash curr_link)) (nl_hash_size curr_link) fs_repo in
            match current_node with
            | None => Ret None
            | Some current_node =>
              let! pos := strlen path_section in
              let! n := strlen path in
              if pos =? n then Ret (Some current_node)
              else
                let! rest := padd path pos in
                let! next := ipfs_resolver_next_path rest in
                match next with
                | None => UB
                | Some next => ipfs_resolver_get fuel next (Some current_node) fs_repo
                end
            end
          end
      end
  end.
End resolver.

(** ** Parts of paths *)
Lemma strstr_char_none s : 47 ∉ s -> c_strstr s [47] = None.
Proof.
  induction s as [|b s IH]; intros Hs; [done|]. apply not_elem_of_cons in Hs as [Hb Hs]. cbn [c_strstr is_prefix].
  rewrite (proj2 (Z.eqb_neq 47 b)) by done. cbn [andb]. by rewrite IH.
Qed.

Lemma strstr_char_some p s : 47 ∉ p -> c_strstr (p ++ 47 :: s) [47] = Some (zlen p).
Proof.
  induction p as [|b p IH]; intros Hs; [done|]. apply not_elem_of_cons in Hs as [Hb Hs]. cbn [app c_strstr is_prefix].
  rewrite (proj2 (Z.eqb_neq 47 b)) by done. cbn [andb]. rewrite IH by done. cbn [fmap option_fmap option_map]. rewrite zlen_cons. f_equal. lia.
Qed.

Lemma is_prefix_long p s x : zlen p <= zlen s -> is_prefix p (s ++ x) = is_prefix p s.
Proof.
  revert s. induction p as [|a p IH]; intros s Hs; [done|]. rewrite zlen_cons in Hs. zlen_facts.
  destruct s as [|b s]; [by change (zlen (@nil Z)) with 0 in Hs; lia|]. rewrite zlen_cons in Hs. cbn [app is_prefix]. by rewrite IH by lia.
Qed.

Lemma next_last whole n : n <> [] -> 47 ∉ n -> next_section whole n = Some whole.
Proof.
  intros Hne Hn. destruct n as [|b n]; [done|]. apply not_elem_of_cons in Hn as [Hb Hn]. cbn [next_section].
  rewrite (proj2 (Z.eqb_neq b 47)) by done. by rewrite strstr_char_none.
Qed.

Lemma next_inner whole n s : n <> [] -> 47 ∉ n -> next_section whole (n ++ 47 :: s) = Some n.
Proof.
  intros Hne Hn. destruct n as [|b n]; [done|]. apply not_elem_of_cons in Hn as [Hb Hn]. cbn [app next_section].
  rewrite (proj2 (Z.eqb_neq b 47)) by done. rewrite strstr_char_some by done. by rewrite ztake_app_len.
Qed.

Section proofs.
Context {M : Malloc} {Hm : MallocOk M} {Dk : Disk} {D : Type} {Ds : Datastore D} {Dl : DatastoreLaws D} (sha256 : bytes -> bytes).
Context (Hsha : forall b, hash_ok (sha256 b)).

Definition plain (n : bytes) : Prop := nonzero n /\ n <> [] /\ 47 ∉ n.

Lemma next_path_last n rest : plain n -> ipfs_resolver_next_path (n ++ 0 :: rest) = Ret (Some (n ++ [0])).
Proof using Hm. intros (Hz & Hne & Hn). unfold ipfs_resolver_next_path. rewrite read_str_nul by done. cbn [rbind]. rewrite next_last by done. by rewrite malloc_always. Qed.

Lemma next_path_slash_last n rest : plain n -> ipfs_resolver_next_path (47 :: n ++ 0 :: rest) = Ret (Some (47 :: n ++ [0])).
Proof using Hm.
  intros (Hz & Hne & Hn). unfold ipfs_resolver_next_path. change (47 :: n ++ 0 :: rest) with ((47 :: n) ++ 0 :: rest).
  rewrite read_str_nul by (by constructor). cbn [rbind]. cbn [next_section]. change (47 =? 47) with true. cbv iota.
  rewrite next_last by done. by rewrite malloc_always.
Qed.

Lemma next_path_inner pre n s rest : plain n -> nonzero s -> pre = [] \/ pre = [47] ->
  ipfs_resolver_next_path (pre ++ n ++ 47 :: s ++ 0 :: rest) = Ret (Some (n ++ [0])).
Proof using Hm.
  intros (Hz & Hne & Hn) Hs Hpre. unfold ipfs_resolver_next_path.
  assert (pre ++ n ++ 47 :: s ++ 0 :: rest = (pre ++ n ++ 47 :: s) ++ 0 :: rest) as -> by (by rewrite <- !app_assoc).
  assert (nonzero (n ++ 47 :: s)) as Hns by (apply Forall_app; split; [done|by constructor]).
  rewrite read_str_nul by (destruct Hpre as [-> | ->]; [done|by constructor]). cbn [rbind].
  assert (next_section (pre ++ n ++ 47 :: s) (pre ++ n ++ 47 :: s) = Some n) as ->.
  { destruct Hpre as [-> | ->]; [by apply next_inner|]. cbn [app next_section]. change (47 =? 47) with true. cbv iota. by apply next_inner. }
  by rewrite malloc_always.
Qed.

(** ** The first part *)
Lemma prefix_kept t id_rest s : nonzero t -> zlen t <= 46 -> is_prefix t (81 :: 109 :: s) = false -> 44 <= zlen s ->
  ipfs_resolver_is_remote (t ++ id_rest) (zlen t) (81 :: 109 :: s) = Ret 0 /\
  ipfs_resolver_remove_path_prefix (t ++ id_rest) (zlen t) (81 :: 109 :: s) = Ret (81 :: 109 :: s).
Proof using.
  intros Ht Hlen Hp Hs. split; [done|]. unfold ipfs_resolver_remove_path_prefix. cbn [remove_prefix_loop]. rewrite rd_0. cbn [rbind].
  change (81 =? 47) with false. cbv iota. rewrite padd_ok by (rewrite !zlen_cons; zlen_facts; lia). rewrite zdrop_0. cbn [rbind default].
  change (0 =? 0) with true. cbv iota. change (strncmp_eq 4 (81 :: 109 :: s) (txt "ipfs")) with (Ret false).
  change (strncmp_eq 4 (81 :: 109 :: s) (txt "ipns")) with (Ret false). cbn [rbind].
  rewrite strncmp_eq_prefix; [by rewrite Hp|done|unfold zlen; lia|]. cbn [length]. unfold zlen in *. lia.
Qed.

Lemma resolve_hash_ok h repo : is_bytes h -> zlen h = 32 ->
  resolve_hash (cid_text h ++ [0]) repo = ipfs_merkledag_get h 32 repo.
Proof using.
  intros Hh Hl. destruct (cid_text_digits h Hh Hl) as (d & Et & Hs & Hd & H46). unfold resolve_hash.
  rewrite (strlen_nul (cid_text h) []) by (by apply cid_text_nonzero). cbn [rbind]. rewrite H46.
  unfold libp2p_crypto_encoding_base58_decode_size. assert (b58_digits_ceil 46 = 34) as -> by (vm_compute; reflexivity).
  rewrite Et, (base58_decode_text d (18 :: 32 :: h) [] _ 34 46 Hs) by (rewrite ?zlen_fresh; lia).
  rewrite !zlen_cons, Hl. change (1 + (1 + 32) <=? 34) with true. cbv iota. cbn [rbind]. change (1 =? 0) with false. cbv iota.
  change (34 - (1 + (1 + 32))) with 0. change (Z.to_nat 0) with 0%nat. cbn [replicate app]. change (1 + (1 + 32)) with 34.
  unfold ipfs_merkledag_get_by_multihash. rewrite zdrop_ge by (rewrite zlen_fresh; lia). rewrite app_nil_r.
  pose proof (multihash_digest_32 h [] (conj Hh Hl)) as E. unfold MH_H_SHA2_256 in E. rewrite app_nil_r in E. by rewrite E.
Qed.

(** ** Entries *)
Fixpoint lookup_entry (n : bytes) (l : list (bytes * tree)) : option tree :=
  match l with
  | [] => None
  | (m, u) :: l => if bool_decide (m = n) then Some u else lookup_entry n l
  end.

Definition entry_of (e : bytes * tree) : NodeLink := entry_link sha256 (fst e, tree_import sha256 (snd e)).

Lemma find_named_ok l n : Forall nonzero (fst <$> l) -> nonzero n ->
  exists o, find_named (entry_of <$> l) (n ++ [0]) = Ret o /\
    match lookup_entry n l with
    | Some u => exists name size, o = Some (mkNodeLink 32 (Some (node_hash sha256 (tree_node sha256 u))) name size)
    | None => o = None
    end.
Proof using.
  intros Hl Hn. induction l as [|[m u] l IH]; cbn [fmap list_fmap find_named lookup_entry]; [by eexists|].
  apply Forall_cons in Hl as [Hm' Hl]. cbn [fst] in Hm'. unfold entry_of at 1, entry_link at 1. cbn [fst snd].
  destruct (tree_import sha256 u) as [[un uw] us] eqn:Eu. cbn [nl_name].
  destruct (c_strcmp_ok (m ++ [0]) (n ++ [0]) (terminated_nul m []) (terminated_nul n [])) as (r & -> & Hr). cbn [rbind].
  rewrite (c_str_nul m []), (c_str_nul n []) in Hr by done. destruct (decide (m = n)) as [->|Hne].
  - rewrite (proj2 Hr eq_refl). rewrite bool_decide_true by done. eexists. split; [reflexivity|].
    unfold entry_of, entry_link, tree_node. cbn [fst snd]. rewrite Eu. by eexists _, _.
  - rewrite bool_decide_false by done. rewrite (proj2 (Z.eqb_neq r 0)) by tauto. by apply IH.
Qed.

Lemma entry_of_links (l : list (bytes * tree)) : entry_link sha256 <$> ((fun e => (fst e, tree_import sha256 (snd e))) <$> l) = entry_of <$> l.
Proof using. by rewrite <- list_fmap_compose. Qed.

(** what [ipfs_merkledag_get] reads of a node of a tree *)
Definition read_tree (u : tree) : HashtableNode := set_node_hash (Some (node_hash sha256 (tree_node sha256 u))) 32 (tree_node sha256 u).

Lemma entry_saved (l : list (bytes * tree)) : Forall (fun n => nonzero n /\ n <> []) (fst <$> l) -> link_saved <$> (entry_of <$> l) = entry_of <$> l.
Proof using.
  intros Hl. induction l as [|[n u] l IH]; cbn [fmap list_fmap]; [done|]. apply Forall_cons in Hl as [[Hz Hne] Hl]. cbn [fst] in *.
  rewrite IH by done. f_equal. unfold entry_of, entry_link. cbn [fst snd]. destruct (tree_import sha256 u) as [[un uw] us].
  unfold link_saved, link_name. cbn [nl_hash_size nl_hash nl_name nl_t_size]. change (deref (Some ?x)) with x. rewrite (c_str_nul n []) by done.
  change (0 <? 32) with true. destruct n as [|b n]; [done|]. rewrite zlen_cons. zlen_facts. by rewrite (proj2 (Z.ltb_lt _ _)) by lia.
Qed.

Lemma tree_node_saved u : (forall l, u = DirT l -> Forall (fun n => nonzero n /\ n <> []) (fst <$> l)) ->
  node_saved (tree_node sha256 u) = tree_node sha256 u.
Proof using.
  intros Hu. destruct u as [c|l].
  - unfold tree_node. cbn [tree_import fst]. unfold file_node. destruct (full_pieces c); [apply piece_node_saved|apply pieces_node_saved].
  - unfold tree_node. cbn [tree_import directory_result fst]. apply data_node_saved; [apply unixfs_wire_pos|].
    rewrite entry_of_links. by apply entry_saved, Hu.
Qed.

Lemma tree_kind u : tree_fits sha256 u ->
  ipfs_hashtable_node_is_directory (read_tree u) = Ret (match u with DirT _ => 1 | FileT _ => 0 end).
Proof using Hm Hsha.
  intros Hf. destruct u as [c|l].
  - unfold read_tree, tree_node. cbn [tree_import fst]. cbn [tree_fits] in Hf. destruct (pieces_bounds c Hf) as (_ & _ & Hp & Hs).
    unfold file_node. destruct (full_pieces c) as [|n].
    + apply Forall_cons in Hp as [Hp _]. destruct (node_directory_recognised (piece_unixfs c) (set_node_hash (Some (node_hash sha256 (piece_node c))) 32 (piece_node c))) as [-> _]; try done.
      apply piece_unixfs_fits. unfold MAX_DATA_SIZE in Hp. lia.
    + destruct (node_directory_recognised (sizes_unixfs (zlen <$> pieces (S n) c))
        (set_node_hash (Some (node_hash sha256 (pieces_node sha256 (pieces (S n) c)))) 32 (pieces_node sha256 (pieces (S n) c)))) as [-> _]; try done.
      by apply sizes_fits.
  - destruct (node_directory_recognised directory_unixfs (read_tree (DirT l)) directory_fits) as [-> _]; done.
Qed.

Lemma tree_node_fits u : tree_fits sha256 u -> node_fits (tree_node sha256 u).
Proof using Hsha.
  intros Hf. destruct u as [c|l]; [|apply Hf]. pose proof (file_nodes_fit sha256 Hsha c Hf) as H. unfold tree_node. cbn [tree_import fst].
  unfold file_nodes, file_node in *. destruct (full_pieces c); [by apply Forall_cons in H as [H _]|].
  apply Forall_app in H as [_ H]. by apply Forall_cons in H as [H _].
Qed.

(** ** The nodes of a tree in a repository *)

(** names of entries, at every level *)
Fixpoint tree_names (t : tree) : Prop :=
  match t with
  | FileT _ => True
  | DirT l => Forall plain (fst <$> l) /\
    (fix all (l : list (bytes * tree)) : Prop := match l with [] => True | (_, t) :: l => tree_names t /\ all l end) l
  end.

Definition holds (repo : FSRepo D) (t : tree) : Prop :=
  Forall (fun n => stored sha256 n repo) (tree_nodes sha256 t) /\ tree_fits sha256 t /\ tree_names t.

Lemma on_disk_names `{FileSystem} t : forall s, on_disk s t -> tree_names t.
Proof using.
  induction t as [c|l IH] using tree_induction; intros s Ht; [done|]. destruct Ht as (_ & _ & _ & _ & _ & _ & Hn & Hall). cbn [tree_names]. split.
  - eapply Forall_impl; [exact Hn|]. intros n (H1 & H2 & H3 & _). done.
  - clear Hn. induction l as [|[n t] l IHl]; [done|]. apply Forall_cons in IH as [IHt IH]. destruct Hall as [Ht Hall].
    split; [by eapply IHt|by apply IHl].
Qed.

Lemma tree_node_in t : tree_node sha256 t ∈ tree_nodes sha256 t.
Proof using.
  destruct t as [c|l].
  - unfold tree_node, tree_nodes. cbn [tree_import fst snd]. unfold file_node, file_nodes. destruct (full_pieces c); [apply list_elem_of_here|].
    apply elem_of_app. right. apply list_elem_of_here.
  - unfold tree_node, tree_nodes. cbn [tree_import directory_result fst snd]. apply elem_of_app. right. apply list_elem_of_here.
Qed.

Lemma entry_nodes n u (l : list (bytes * tree)) : (n, u) ∈ l -> tree_nodes sha256 u ⊆ tree_nodes sha256 (DirT l).
Proof using.
  intros Hin m Hm'. unfold tree_nodes at 1. cbn [tree_import directory_result snd]. apply elem_of_app. left.
  rewrite <- list_fmap_compose. apply list_elem_of_In, in_concat. exists (tree_nodes sha256 u). split; [|by apply list_elem_of_In].
  apply list_elem_of_In, list_elem_of_fmap. by exists (n, u).
Qed.

Lemma lookup_entry_in n l u : lookup_entry n l = Some u -> (n, u) ∈ l.
Proof using.
  induction l as [|[m v] l IH]; cbn [lookup_entry]; [done|]. destruct (bool_decide_reflect (m = n)) as [->|_].
  - intros [= ->]. apply list_elem_of_here.
  - intros H. apply list_elem_of_further. by apply IH.
Qed.

Lemma holds_entry repo l n u : holds repo (DirT l) -> (n, u) ∈ l -> holds repo u.
Proof using.
  intros (Hs & [_ Hf] & [_ Hn]) Hin. split_and!.
  - apply Forall_forall. intros m Hm'. rewrite Forall_forall in Hs. by apply Hs, (entry_nodes n u l).
  - clear - Hf Hin. induction l as [|[m v] l IH]; [by apply elem_of_nil in Hin|]. destruct Hf as [Hv Hf].
    apply elem_of_cons in Hin as [[= <- <-]|Hin]; [done|by apply IH].
  - clear - Hn Hin. induction l as [|[m v] l IH]; [by apply elem_of_nil in Hin|]. destruct Hn as [Hv Hn].
    apply elem_of_cons in Hin as [[= <- <-]|Hin]; [done|by apply IH].
Qed.

Lemma tree_get repo u : path_ok (path repo) -> holds repo u ->
  ipfs_merkledag_get (node_hash sha256 (tree_node sha256 u)) 32 repo = Ret (Some (read_tree u)).
Proof using Hm Hsha.
  intros Hp (Hs & Hf & Hn). rewrite stored_get; [|done|done|by apply tree_node_fits|].
  - rewrite tree_node_saved; [done|]. intros l ->. destruct Hn as [Hn _]. eapply Forall_impl; [exact Hn|]. intros n (H1 & H2 & _). done.
  - rewrite Forall_forall in Hs. apply Hs, tree_node_in.
Qed.

Lemma tree_nodes_fit t : tree_fits sha256 t -> Forall node_fits (tree_nodes sha256 t).
Proof using Hsha.
  induction t as [c|l IH] using tree_induction; intros Hf; [by apply file_nodes_fit|]. pose proof (tree_node_fits _ Hf) as Hn.
  unfold tree_nodes. cbn [tree_import directory_result snd]. apply Forall_app. split; [|by apply Forall_singleton]. destruct Hf as [_ Hf]. clear Hn.
  induction l as [|[n t] l IHl]; [constructor|]. apply Forall_cons in IH as [IHt IH]. destruct Hf as [Ht Hf].
  cbn [fmap list_fmap concat snd]. apply Forall_app. split; [by apply IHt|by apply IHl].
Qed.

(** ** Resolving names *)
Definition entry (n : bytes) (u : tree) : option tree := match u with DirT l => lookup_entry n l | FileT _ => None end.

(** what the names behind a hash lead to: a second name that is the last is looked
    for with its slash, and what is behind a second name is left out *)
Definition resolved (t : tree) (names : list bytes) : option tree :=
  match names with
  | [] => Some t
  | [n] => entry n t
  | [_; _] => None
  | n :: m :: _ => entry n t ≫= entry m
  end.
Definition names_text (names : list bytes) : bytes := names ≫= cons 47.

Context (remote : bytes -> res (option HashtableNode)) (repo : FSRepo D) (Hpath : path_ok (path repo)).

(** looking up a part of the path in a directory *)
Lemma find_entry u n : holds repo u -> nonzero n ->
  (let! directory := ipfs_hashtable_node_is_directory (read_tree u) in
   if directory =? 0 then Ret None
   else
     let! link := find_named (n_head_link (read_tree u)) (n ++ [0]) in
     match link with
     | None => Ret None
     | Some curr_link => ipfs_merkledag_get (deref (nl_hash curr_link)) (nl_hash_size curr_link) repo
     end) = Ret (read_tree <$> entry n u).
Proof using Hm Hsha Hpath.
  intros Hu Hn. rewrite tree_kind by apply Hu. destruct u as [c|l]; cbn [rbind entry]; [done|]. change (1 =? 0) with false. cbv iota.
  change (n_head_link (read_tree (DirT l))) with (entry_link sha256 <$> ((fun e => (fst e, tree_import sha256 (snd e))) <$> l)). rewrite entry_of_links.
  destruct (find_named_ok l n) as (o & -> & Ho); [|done|].
  { destruct Hu as (_ & _ & [Hl _]). eapply Forall_impl; [exact Hl|]. by intros m (H & _). }
  cbn [rbind]. destruct (lookup_entry n l) as [u|] eqn:El; [|by subst o].
  destruct Ho as (name & sz & ->). cbn [nl_hash nl_hash_size]. change (deref (Some ?x)) with x. rewrite tree_get; [done|done|].
  by apply lookup_entry_in, (holds_entry repo l) in El.
Qed.

(** a step whose part of the path is [n] *)
Lemma resolve_step peer size fuel u n path : holds repo u -> nonzero n -> ipfs_resolver_next_path path = Ret (Some (n ++ [0])) ->
  ipfs_resolver_get peer size remote (S fuel) path (Some (read_tree u)) repo =
    match entry n u with
    | None => Ret None
    | Some v =>
      let! k := strlen path in
      if zlen n =? k then Ret (Some (read_tree v))
      else
        let! rest := padd path (zlen n) in
        let! next := ipfs_resolver_next_path rest in
        match next with
        | None => UB
        | Some next => ipfs_resolver_get peer size remote fuel next (Some (read_tree v)) repo
        end
    end.
Proof using Hm Hsha Hpath.
  intros Hu Hn Hnext. pose proof (find_entry u n Hu Hn) as Hf. cbn [ipfs_resolver_get rbind]. change (negb (0 =? 0)) with false. cbv iota.
  rewrite Hnext. cbn [rbind]. destruct (ipfs_hashtable_node_is_directory (read_tree u)) as [d| | |]; [|done..]. cbn [rbind] in *.
  destruct (d =? 0); [by destruct (entry n u)|]. destruct (find_named (n_head_link (read_tree u)) (n ++ [0])) as [o| | |]; [|done..]. cbn [rbind] in *.
  destruct o as [x|]; [|by destruct (entry n u)]. rewrite Hf. cbn [rbind]. destruct (entry n u) as [v|]; cbn [fmap option_fmap option_map]; [|done].
  rewrite (strlen_nul n []) by done. done.
Qed.

Lemma names_nonzero names : Forall plain names -> nonzero (names_text names).
Proof using. induction 1 as [|n l (Hn & _) _ IH]; [constructor|]. cbn. constructor; [done|]. by apply Forall_app. Qed.

(** no entry has a name with a slash *)
Lemma entry_slash u m : holds repo u -> entry (47 :: m) u = None.
Proof using.
  intros (_ & _ & Hn). destruct u as [c|l]; [done|]. destruct (entry (47 :: m) (DirT l)) as [v|] eqn:E; [|done].
  apply lookup_entry_in, (list_elem_of_fmap_2 fst) in E. destruct Hn as [Hn _]. rewrite Forall_forall in Hn.
  destruct (Hn _ E) as (_ & _ & H). cbn [fst] in H. apply not_elem_of_cons in H as [H _]. done.
Qed.

Lemma entry_holds u n v : holds repo u -> entry n u = Some v -> holds repo v.
Proof using. intros Hu E. destruct u as [c|l]; [done|]. by eapply holds_entry, lookup_entry_in. Qed.

(** the last part of a path *)
Lemma resolve_last peer size fuel u n rest : holds repo u -> plain n ->
  ipfs_resolver_get peer size remote (S fuel) (n ++ 0 :: rest) (Some (read_tree u)) repo = Ret (read_tree <$> entry n u).
Proof using Hm Hsha Hpath.
  intros Hu Hn. rewrite (resolve_step peer size fuel u n) by (done || apply Hn || by apply next_path_last).
  rewrite strlen_nul by apply Hn. cbn [rbind]. rewrite Z.eqb_refl. by destruct (entry n u).
Qed.

(** names behind a directory *)
Lemma resolve_names peer size u names rest : holds repo u -> names <> [] -> Forall plain names ->
  ipfs_resolver_get peer size remote 2 (tail (names_text names) ++ 0 :: rest) (Some (read_tree u)) repo =
    Ret (read_tree <$> resolved u names).
Proof using Hm Hsha Hpath.
  intros Hu Hne Hn. destruct names as [|n [|m more]]; [done| |]; apply Forall_cons in Hn as [Hn Hms].
  { cbn [names_text mbind list_bind tail app resolved]. rewrite app_nil_r. by apply resolve_last. }
  pose proof Hn as (Hnz & _ & Hns). pose proof (names_nonzero _ Hms) as Hz. apply Forall_cons in Hms as [Hm' Hmore].
  change (names_text (m :: more)) with (47 :: m ++ names_text more) in Hz. apply Forall_cons in Hz as [_ Hz].
  change (tail (names_text (n :: m :: more))) with (n ++ 47 :: m ++ names_text more). rewrite <- app_assoc.
  change ((47 :: m ++ names_text more) ++ 0 :: rest) with (47 :: (m ++ names_text more) ++ 0 :: rest).
  rewrite (resolve_step peer size 1 u n) by (done || by apply (next_path_inner [] n (m ++ names_text more)); auto).
  transitivity (Ret (read_tree <$> (entry n u ≫= fun v => match more with [] => None | _ => entry m v end)));
    [|f_equal; destruct more; [by destruct (entry n u)|done]].
  destruct (entry n u) as [v|] eqn:Ev; [|done]. pose proof (entry_holds u n v Hu Ev) as Hv. cbn [mbind option_bind].
  assert (Hnz' : nonzero (n ++ 47 :: m ++ names_text more)) by (apply Forall_app; split; [done|by constructor]).
  pose proof (strlen_nul _ rest Hnz') as El. rewrite <- app_assoc in El. cbn [app] in El. rewrite El. cbn [rbind].
  rewrite (proj2 (Z.eqb_neq _ _)) by (rewrite zlen_app, zlen_cons; zlen_facts; lia).
  rewrite padd_ok, zdrop_app_len by (rewrite zlen_app; zlen_facts; lia). cbn [rbind]. destruct more as [|k more].
  - cbn [names_text mbind list_bind] in *. rewrite app_nil_r in *. rewrite next_path_slash_last by done. cbn [rbind].
    change (47 :: m ++ [0]) with ((47 :: m) ++ [0]). rewrite (resolve_step peer size 0 v (47 :: m)).
    + by rewrite entry_slash.
    + done.
    + by constructor.
    + by apply (next_path_slash_last m []).
  - assert (nonzero (k ++ names_text more)) as Hk.
    { apply Forall_cons in Hmore as [(Hk & _) Hmore]. apply Forall_app. split; [done|by apply names_nonzero]. }
    change (names_text (k :: more)) with (47 :: k ++ names_text more).
    assert (47 :: (m ++ 47 :: k ++ names_text more) ++ 0 :: rest = [47] ++ m ++ 47 :: (k ++ names_text more) ++ 0 :: rest) as ->
      by (cbn [app]; f_equal; exact (eq_sym (app_assoc m (47 :: k ++ names_text more) (0 :: rest)))).
    rewrite (next_path_inner [47] m (k ++ names_text more) rest) by auto. cbn [rbind]. by apply resolve_last.
Qed.

Lemma cid_text_plain h : is_bytes h -> zlen h = 32 -> plain (cid_text h).
Proof using.
  intros Hh Hl. split; [by apply cid_text_nonzero|]. destruct (cid_text_digits h Hh Hl) as (d & -> & (Hd & _) & _ & H46).
  split; [by intros E; rewrite E in H46|]. intros Hin. pose proof (b58_string_valid d Hd) as Hv. rewrite Forall_forall in Hv.
  destruct (Hv _ Hin) as [_ H]. by vm_compute in H.
Qed.

(** a path that starts with the hash of a tree *)
Lemma resolve_text id id_rest u names rest : nonzero id -> zlen id <= 46 ->
  let h := node_hash sha256 (tree_node sha256 u) in is_prefix id (cid_text h) = false -> holds repo u -> Forall plain names ->
  ipfs_resolver_get (id ++ id_rest) (zlen id) remote 3 (cid_text h ++ names_text names ++ 0 :: rest) None repo =
    Ret (read_tree <$> resolved u names).
Proof using Hm Hsha Hpath.
  intros Hid Hlen h Hpre Hu Hn. destruct (Hsha (node_wire (tree_node sha256 u))) as [Hb Hl]. fold (node_hash sha256 (tree_node sha256 u)) in Hb, Hl. fold h in Hb, Hl.
  pose proof (cid_text_plain h Hb Hl) as Ht. destruct (cid_text_digits h Hb Hl) as (_ & _ & _ & _ & H46). destruct (cid_text_qm h Hb Hl) as [q Hq].
  set (path := cid_text h ++ names_text names ++ 0 :: rest).
  assert (exists s, path = 81 :: 109 :: s /\ 44 <= zlen s /\ is_prefix id (81 :: 109 :: s) = false) as (s & Es & Hs & Hps).
  { exists (q ++ names_text names ++ 0 :: rest). unfold path. rewrite Hq in *. rewrite !zlen_cons in H46. split; [done|]. split; [rewrite zlen_app; zlen_facts; lia|].
    rewrite <- Hpre. change (81 :: 109 :: q ++ ?x) with ((81 :: 109 :: q) ++ x). rewrite is_prefix_long; [done|]. rewrite !zlen_cons. lia. }
  destruct (prefix_kept id id_rest s Hid Hlen Hps Hs) as [E1 E2]. rewrite <- Es in E1, E2.
  cbn [ipfs_resolver_get]. rewrite E1. cbn [rbind]. change (negb (0 =? 0)) with false. cbv iota. rewrite E2. cbn [rbind].
  assert (ipfs_resolver_next_path path = Ret (Some (cid_text h ++ [0]))) as ->.
  { unfold path. destruct names as [|n l]; [by apply next_path_last|]. change (names_text (n :: l)) with (47 :: n ++ names_text l).
    assert ((47 :: n ++ names_text l) ++ 0 :: rest = 47 :: (n ++ names_text l) ++ 0 :: rest) as -> by done.
    apply (next_path_inner [] (cid_text h) (n ++ names_text l) rest); [done| |auto].
    apply Forall_cons in Hn as [(Hn & _) Hl']. apply Forall_app. split; [done|by apply names_nonzero]. }
  cbn [rbind]. assert (rd (cid_text h ++ [0]) 0 = Ret 81 /\ rd (cid_text h ++ [0]) 1 = Ret 109) as [-> ->] by (by rewrite Hq).
  cbn [rbind]. change (81 =? 81) with true. cbv iota. cbn [rbind].
  change (true && (109 =? 109)) with true. cbv iota. rewrite resolve_hash_ok by done. unfold h. rewrite tree_get by done. fold h. cbn [rbind].
  rewrite (strlen_nul _ []) by apply Ht. cbn [rbind]. assert (nonzero (cid_text h ++ names_text names)) as Hz by (apply Forall_app; split; [apply Ht|by apply names_nonzero]).
  pose proof (strlen_nul _ rest Hz) as El. rewrite <- app_assoc in El. fold path in El. rewrite El. cbn [rbind]. rewrite zlen_app.
  destruct names as [|n l]; [change (zlen (names_text [])) with 0; by rewrite Z.add_0_r, Z.eqb_refl|].
  change (names_text (n :: l)) with (47 :: n ++ names_text l). rewrite zlen_cons, (proj2 (Z.eqb_neq _ _)) by (zlen_facts; lia).
  unfold path. change (names_text (n :: l)) with ([47] ++ n ++ names_text l). rewrite <- app_assoc, app_assoc.
  rewrite padd_ok, zdrop_app_ge by (rewrite !zlen_app; change (zlen [47]) with 1; zlen_facts; lia). cbn [rbind].
  by apply (resolve_names (id ++ id_rest) (zlen id) u (n :: l)).
Qed.

Lemma resolved_holds u names v : holds repo u -> resolved u names = Some v -> holds repo v.
Proof using.
  intros Hu E. destruct names as [|n [|m [|k l]]]; cbn [resolved] in E; [by injection E as <-|by eapply entry_holds|done|].
  destruct (entry n u) as [w|] eqn:Ew; [|done]. eapply entry_holds; [by eapply entry_holds|exact E].
Qed.
End proofs.

(** ** Properties *)

(** Property C7.  A directory that was imported recursively is found by its paths.
    For a tree of files and directories on the disk, a datastore that accepts
    records, and a hash function that gives the nodes of the tree different names,
    [ipfs_import_file] succeeds with the node of the tree; on the repository it
    leaves, a path of the text of that node's hash and names separated by slashes
    resolves, without asking a peer, to the node [resolved] says: the hash alone to
    the node itself, one name to the first entry that has it, two names to nothing
    whatever the entries are, and more than two to what the first two lead to.  When
    that is a file, writing it out by its hash gives the content it has on the disk. *)
Theorem directory_import_resolve {M : Malloc} {Hm : MallocOk M} {Dk : Disk} {Hd : DiskOk Dk} {Fs : FileSystem} {D : Type}
    {Ds : Datastore D} {Dl : DatastoreLaws D} (sha256 : bytes -> bytes) (remote : bytes -> res (option HashtableNode))
    (dht_get : bytes -> option bytes) (st : ImportState D) (t : tree) (fuel : nat) (s post : bytes) (p : ptr HashtableNode) (id id_rest : bytes) :
  (forall b, hash_ok (sha256 b)) -> (forall (r : DatastoreRecord) (d : D), fst (datastore_put r d) <> 0) -> path_ok (path (import_repo st)) ->
  on_disk s t -> tree_fits sha256 t -> (height t <= fuel)%nat -> distinct_names sha256 (tree_nodes sha256 t) ->
  let h := node_hash sha256 (tree_node sha256 t) in
  nonzero id -> zlen id <= 46 -> is_prefix id (cid_text h) = false ->
  exists node w st',
    ipfs_import_file sha256 fuel None (s ++ 0 :: post) p 0 1 st = Ret (1, Ptr node, w, st') /\ n_hash node = Some h /\
    forall names rest, Forall plain names ->
      ipfs_resolver_get (id ++ id_rest) (zlen id) remote 3 (cid_text h ++ names_text names ++ 0 :: rest) None (import_repo st') =
        Ret (read_tree sha256 <$> resolved t names) /\
      forall c nd file, resolved t names = Some (FileT c) -> mode nd <> MODE_API_AVAILABLE -> repo nd = import_repo st' ->
        ipfs_exporter_object_cat_to_file dht_get nd 2 (deref (n_hash (read_tree sha256 (FileT c)))) 32 file = Ret (1, append c file).
Proof.
  intros Hsha Hput Hp Ht Hf Hh Hdn h Hid Hlen Hpre.
  destruct (import_tree_ok sha256 Hsha Hput t fuel s None post p st Ht Hf Hh I Hp) as (st' & E & Hr).
  eexists _, _, st'. split; [exact E|]. split; [done|]. intros names rest Hn.
  assert (Hp' : path_ok (path (import_repo st'))) by (by rewrite Hr, store_nodes_path).
  assert (Hall : holds sha256 (import_repo st') t).
  { split; [|split; [done|by eapply on_disk_names]]. rewrite Hr. apply Forall_forall. intros n Hin.
    apply store_nodes_stored; try done. by apply tree_nodes_fit. }
  split; [by apply resolve_text|]. intros c nd file Hc Hmode Hnd. destruct (resolved_holds _ _ _ _ _ Hall Hc) as (Hs & Hfc & _).
  rewrite <- Hnd in Hp', Hs. apply (file_read sha256 Hsha dht_get nd Hmode Hp' c file Hfc Hs).
Qed.

(** a directory with a file and a directory that has a file *)
Definition ex_tree : tree := DirT [([97], FileT [1; 2]); ([98], DirT [([99], FileT [3])])].
Definition ex_tree_files : FileSystem := {|
  stat_directory := fun n => if bool_decide (n ∈ [[100]; [100; 47; 98]]) then Some true else Some false;
  dir_entries := fun n => if bool_decide (n = [100]) then Some [txt "."; txt ".."; [97]; [98]] else Some [[99]];
  file_content := fun n => if bool_decide (n = [100; 47; 97]) then Some [1; 2] else Some [3]
|}.

Lemma directory_import_resolve_witness :
  let M := malloc_total in let Dk := disk_total in let Fs := ex_tree_files in let id := txt "QmPeer" in
  let st := mkImport (mkRepo ex_repo_path ∅ (∅ : gmap bytes DatastoreRecord)) [] [] in let remote := fun _ => Ret None in
  exists node w st',
    ipfs_import_file ex_sha 3 None ([100] ++ 0 :: []) Null 0 1 st = Ret (1, Ptr node, w, st') /\ n_hash node = Some (node_hash ex_sha (tree_node ex_sha ex_tree)) /\
    forall names rest, Forall plain names ->
      ipfs_resolver_get (id ++ [0]) (zlen id) remote 3 (cid_text (node_hash ex_sha (tree_node ex_sha ex_tree)) ++ names_text names ++ 0 :: rest) None (import_repo st') =
        Ret (read_tree ex_sha <$> resolved ex_tree names) /\
      forall c nd file, resolved ex_tree names = Some (FileT c) -> mode nd <> MODE_API_AVAILABLE -> repo nd = import_repo st' ->
        ipfs_exporter_object_cat_to_file (fun _ => None) nd 2 (deref (n_hash (read_tree ex_sha (FileT c)))) 32 file = Ret (1, append c file).
Proof.
  intros M Dk Fs id st remote.
  apply (directory_import_resolve ex_sha remote (fun _ => None) st ex_tree 3 [100] [] Null id [0]).
  - exact ex_sha_ok.
  - discriminate.
  - exact ex_repo_path_ok.
  - repeat split; try reflexivity; try discriminate; try (by repeat constructor); try (by apply (bool_decide_unpack _)); eexists; split; reflexivity.
  - repeat split; try reflexivity; try discriminate; repeat (constructor; [split_and!; [reflexivity|discriminate|apply terminated_nul|discriminate|reflexivity|reflexivity|discriminate]|]); constructor.
  - cbn. lia.
  - apply names_distinct. apply (bool_decide_eq_true_1 _). vm_compute. reflexivity.
  - by repeat constructor.
  - vm_compute. discriminate.
  - vm_compute. reflexivity.
Defined.
