(* ===== verification/Connection.v ===== *)
(** * Connections (libp2p/net/connectionstream.c and what a stream is)

    A socket is what the other side does to it: the bytes that arrive, in pieces, and
    how much of what is sent is taken at a time.  A stream of the network reads and
    writes messages; the raw one is a socket.  [Stream] is the table of functions of
    [struct Stream], [StreamLaws] what the layers above rely on. *)
From Stdlib Require Import String.
From S2P Require Import Prelude Digits CString Multiaddr Protocol.

(** ** The socket: [recv], [send] and [ioctl] *)
(** bytes that arrive, or a call that fails with this error; after the last one the
    other side has closed *)
Inductive arrival := Arrived (b : bytes) | Fails (e : Z).
(** a call that takes at most [n] bytes, or fails; after the last one all is taken *)
Inductive acceptance := Accepts (n : Z) | Refuses (e : Z).

Record Socket := mkSocket {
  socket_descriptor : Z;
  arrivals : list arrival;
  acceptances : list acceptance;
  errno : Z;
  sent : bytes;
  waiting : Z
}.

Definition with_arrivals (s : Socket) (l : list arrival) : Socket :=
  mkSocket (socket_descriptor s) l (acceptances s) (errno s) (sent s) (waiting s).
Definition with_error (s : Socket) (e : Z) : Socket :=
  mkSocket (socket_descriptor s) (arrivals s) (acceptances s) e (sent s) (waiting s).
Definition with_descriptor (s : Socket) (d : Z) : Socket :=
  mkSocket d (arrivals s) (acceptances s) (errno s) (sent s) (waiting s).
Definition with_sent (s : Socket) (b : bytes) (l : list acceptance) : Socket :=
  mkSocket (socket_descriptor s) (arrivals s) l (errno s) (sent s ++ b) (waiting s).

(** the number of bytes, the bytes and the socket *)
Definition socket_read (s : Socket) (len : Z) : Z * bytes * Socket :=
  if len =? 0 then (0, [], s)
  else
    match arrivals s with
    | [] => (0, [], s)
    | Fails e :: l => (-1, [], with_arrivals (with_error s e) l)
    | Arrived b :: l =>
      if zlen b <=? len then (zlen b, b, with_arrivals s l)
      else (len, ztake len b, with_arrivals s (Arrived (zdrop len b) :: l))
    end.

Definition socket_write (s : Socket) (b : bytes) : Z * Socket :=
  match acceptances s with
  | [] => (zlen b, with_sent s b [])
  | Refuses e :: l => (-1, with_sent (with_error s e) [] l)
  | Accepts n :: l => (Z.min n (zlen b), with_sent s (ztake n b) l)
  end.

(** ** Streams *)
(** the functions of a stream on its context: [read_raw] gives the bytes it has
    written to the buffer *)
Class Stream (S : Type) := {
  stream_read : S -> Z -> res (Z * option StreamMessage * S);
  stream_read_raw : S -> Z -> Z -> res (Z * bytes * S);
  stream_write : S -> StreamMessage -> res (Z * S);
  stream_peek : S -> Z
}.

(** a stream without errors: the bytes to come, and the bytes that were sent *)
Class StreamLaws (S : Type) {St : Stream S} := {
  incoming : S -> bytes;
  outgoing : S -> bytes;
  good : S -> Prop;
  read_raw_good s n t : good s -> 0 <= n <= zlen (incoming s) ->
    exists s', stream_read_raw s n t = Ret (n, ztake n (incoming s), s') /\
      good s' /\ incoming s' = zdrop n (incoming s) /\ outgoing s' = outgoing s;
  write_good s m : good s -> 0 <= sm_data_size m <= zlen (deref (sm_data m)) ->
    exists s', stream_write s m = Ret (s32 (sm_data_size m), s') /\
      good s' /\ incoming s' = incoming s /\ outgoing s' = outgoing s ++ ztake (sm_data_size m) (deref (sm_data m))
}.

(** ["%d"] *)
Definition print_int (n : Z) : bytes := if n <? 0 then 45 :: dec (- n) else dec n.

(** ** The raw connection *)
(** a context that is there, or NULL; the time of the last use is left out *)
Section connection.
Context {M : Malloc}.

(** the result, and the descriptor that was closed *)
Definition libp2p_net_connection_close (ctx : option Socket) : Z * option Z :=
  match ctx with
  | None => (0, None)
  | Some s => (1, if 0 <? socket_descriptor s then Some (socket_descriptor s) else None)
  end.

Definition libp2p_net_connection_peek (ctx : option Socket) : Z :=
  match ctx with
  | None => 0
  | Some s => if socket_descriptor s <? 0 then -1 else if waiting s <? 0 then -1 else waiting s
  end.

(** the first round: two bytes, then what they announce or as much as there is *)
Definition first_read (s : Socket) : res (Z * bytes * Socket) :=
  let '(retVal, buffer, s) := socket_read s 2 in
  if retVal =? 2 then
    let! b0 := rd buffer 0 in
    let! b1 := rd buffer 1 in
    let '(retVal, more, s) := if (0 <? b0) && (b1 =? 47) then socket_read s (b0 - 1) else socket_read s (4096 - 2) in
    Ret (if 0 <? retVal then retVal + 2 else retVal, buffer ++ more, s)
  else Ret (retVal, buffer, s).

(** the message that is built at the end *)
Definition build_message (s : Socket) (result_buffer : bytes) : Z * option StreamMessage * option Socket :=
  if malloc_ok sizeof_StreamMessage then (zlen result_buffer, Some (stream_message result_buffer), Some s) else (0, None, Some s).

(** after 4096 bytes there is a second round; its bytes are copied behind the first
    ones in the object that [realloc] has given up *)
Definition libp2p_net_connection_read (ctx : option Socket) (timeout_secs : Z) : res (Z * option StreamMessage * option Socket) :=
  match ctx with
  | None => UB
  | Some s =>
    let! (retVal, buffer, s) := first_read s in
    if retVal <? 1 then Ret (0, None, Some s)
    else if negb (malloc_ok retVal) then Ret (0, None, Some s)
    else
      let! result_buffer := memrd buffer retVal in
      if negb (retVal =? 4096) then Ret (build_message s result_buffer)
      else
        let '(retVal, _, s) := socket_read s 4096 in
        if retVal <? 0 then Ret (0, None, Some s)
        else if retVal =? 0 then Ret (build_message s result_buffer)
        else if malloc_ok (4096 + retVal) then UB
        else Ret (0, None, Some s)
  end.

(** the loop over [n] bytes: the result, and what is in the buffer *)
Fixpoint read_raw_loop (n : nat) (s : Socket) (num_read : Z) (buffer : bytes) : Z * bytes * Socket :=
  match n with
  | O => (num_read, buffer, s)
  | S n =>
    let '(retVal, b, s) := socket_read s 1 in
    if retVal <? 0 then (-1, buffer, s)
    else if retVal <? 1 then (num_read, buffer, s)
    else read_raw_loop n s (num_read + retVal) (buffer ++ b)
  end.
Definition libp2p_net_connection_read_raw (ctx : option Socket) (buffer_size timeout_secs : Z) : res (Z * bytes * option Socket) :=
  match ctx with
  | None => Ret (-1, [], None)
  | Some s => let '(r, b, s) := read_raw_loop (Z.to_nat buffer_size) s 0 [] in Ret (r, b, Some s)
  end.

Definition libp2p_net_connection_write (ctx : option Socket) (msg : StreamMessage) : res (Z * option Socket) :=
  match ctx with
  | None => Ret (-1, None)
  | Some s =>
    let! b := memrd (deref (sm_data msg)) (sm_data_size msg) in
    let '(r, s) := socket_write s b in
    Ret (s32 r, Some s)
  end.

(** the address of a new stream and its context: the descriptor; the text has an
    object of [strlen(ip) + 25] bytes *)
Definition libp2p_net_connection_established (fd : Z) (ip : bytes) (port : Z) : res (option MultiAddress * Z) :=
  let! n := strlen ip in
  let str := txt "/ip4/" ++ c_str ip ++ txt "/tcp/" ++ print_int port ++ [0] in
  if zlen str <=? n + 25 then
    let! address := multiaddress_new_from_string str in Ret (address, fd)
  else UB.
End connection.

#[export] Instance connection_stream {M : Malloc} : Stream (option Socket) := {
  stream_read := libp2p_net_connection_read;
  stream_read_raw := libp2p_net_connection_read_raw;
  stream_write := libp2p_net_connection_write;
  stream_peek := libp2p_net_connection_peek
}.

(** ** A connection without errors *)
Definition arrived (a : arrival) : bytes := match a with Arrived b => b | Fails _ => [] end.
Definition arrives (a : arrival) : Prop := match a with Arrived b => 0 < zlen b | Fails _ => False end.
Definition socket_incoming (s : Socket) : bytes := arrivals s ≫= arrived.
Definition socket_good (s : Socket) : Prop := Forall arrives (arrivals s) /\ acceptances s = [].

Lemma socket_read_one s : socket_good s -> 0 < zlen (socket_incoming s) ->
  exists s', socket_read s 1 = (1, ztake 1 (socket_incoming s), s') /\
    socket_good s' /\ socket_incoming s' = zdrop 1 (socket_incoming s) /\ sent s' = sent s.
Proof.
  intros [Ha Hc] Hi. destruct s as [d l acc e o w]. unfold socket_incoming, socket_good, socket_read in *. cbn [arrivals acceptances sent] in *.
  destruct l as [|[b|?] l]; [done| |by apply Forall_cons in Ha as [? _]]. apply Forall_cons in Ha as [Hb Ha]. cbn in Hb.
  destruct b as [|x b]; [change (0 < 0) in Hb; lia|]. cbn [mbind list_bind arrived app]. change (1 =? 0) with false. cbv iota.
  rewrite zlen_cons in *. destruct (Z.leb_spec (1 + zlen b) 1) as [Hl|Hl].
  - assert (b = []) as -> by (apply zlen_0_nil; zlen_facts; lia). by eexists.
  - eexists. split; [done|]. cbn. split; [|done]. split; [|done]. constructor; [|done]. change (zdrop 1 (x :: b)) with b. cbn. lia.
Qed.

Lemma read_raw_loop_good n : forall s num buffer, socket_good s -> Z.of_nat n <= zlen (socket_incoming s) ->
  exists s', read_raw_loop n s num buffer = (num + Z.of_nat n, buffer ++ ztake (Z.of_nat n) (socket_incoming s), s') /\
    socket_good s' /\ socket_incoming s' = zdrop (Z.of_nat n) (socket_incoming s) /\ sent s' = sent s.
Proof.
  induction n as [|n IH]; intros s num buffer Hg Hn; cbn [read_raw_loop].
  - exists s. rewrite Z.add_0_r. change (Z.of_nat 0) with 0. by rewrite ztake_0, app_nil_r, zdrop_0.
  - destruct (socket_read_one s Hg) as (s1 & -> & Hg1 & Hi1 & Hs1); [lia|]. zbool.
    destruct (IH s1 (num + 1) (buffer ++ ztake 1 (socket_incoming s)) Hg1) as (s2 & -> & Hg2 & Hi2 & Hs2); [rewrite Hi1, zlen_drop by lia; lia|].
    exists s2. rewrite Hi2, Hi1, Hs2, Hs1, zdrop_zdrop by lia. replace (1 + Z.of_nat n) with (Z.of_nat (S n)) by lia.
    split; [|done]. f_equal. f_equal; [lia|]. rewrite <- app_assoc. f_equal.
    destruct (socket_incoming s) as [|x l]; [change (Z.of_nat (S n) <= 0) in Hn; lia|]. replace (Z.of_nat (S n)) with (1 + Z.of_nat n) by lia.
    by rewrite ztake_cons by lia.
Qed.

#[export] Instance connection_laws {M : Malloc} : StreamLaws (option Socket).
Proof.
  refine {| incoming := from_option socket_incoming []; outgoing := from_option sent []; good := fun o => exists s, o = Some s /\ socket_good s |}.
  - intros o n t (s & -> & Hg) Hn. cbn in *. unfold libp2p_net_connection_read_raw.
    destruct (read_raw_loop_good (Z.to_nat n) s 0 [] Hg) as (s' & -> & Hg' & Hi & Hs); [lia|].
    rewrite Z2Nat.id in * by lia. rewrite Z.add_0_l. exists (Some s'). cbn. by eauto 6.
  - intros o m (s & -> & Hg) Hm. cbn in *. unfold libp2p_net_connection_write. rewrite memrd_ok by done. cbn [rbind].
    unfold socket_write. destruct Hg as [Ha Hc]. rewrite Hc. rewrite zlen_take by lia.
    eexists. split; [done|]. cbn. split; [|done]. eexists. split; [done|]. done.
Defined.
