(* ===== verification/Lmdb.v ===== *)
(** * The datastore over lmdb (libipfs/repo/fsrepo/lmdb_datastore.c, lmdb_journalstore.c, lmdb_cursor.c)

    Two databases of liblmdb: the datastore, from a hash to a time and a text, and the
    journal, from a time to the hashes stored then.  liblmdb is the interface [Lmdb]. *)
From S2P Require Import Prelude Varint Protobuf Multihash Cid Block Base32 Datastore.

Inductive dbi := DATASTORE | JOURNALSTORE.
Inductive cursor_op := CURSOR_FIRST | CURSOR_NEXT | CURSOR_LAST | CURSOR_PREVIOUS.

Definition MDB_KEYEXIST : Z := -30799.
Definition sizeof_JournalRecord : Z := 32.
Definition sizeof_lmdb_trans_cursor : Z := 40.

(** What liblmdb does with an environment: the items of a database in its order (a
    key may have several), and the calls that change it or may be refused.  A
    transaction works on a state of its own, which the commit makes the state of the
    environment or drops. *)
Class Lmdb (T : Type) := {
  mdb_items : dbi -> T -> list (bytes * bytes);
  mdb_put : dbi -> bytes -> bytes -> T -> Z * T;
  mdb_txn_begin : T -> Z;
  mdb_txn_commit : T -> T -> Z * T;
  mdb_cursor_open : T -> Z
}.

(** the first item with the key *)
Definition mdb_get `{Lmdb T} (db : dbi) (key : bytes) (t : T) : option bytes :=
  snd <$> (list_find (fun e => fst e = key) (mdb_items db t) ≫= fun '(_, e) => Some e).

(** A cursor is at an item, or nowhere yet; what is behind the last item or in front
    of the first is not found, and the cursor stays. *)
Definition mdb_cursor_get (op : cursor_op) (items : list (bytes * bytes)) (cursor : option nat)
  : option ((bytes * bytes) * nat) :=
  let at_ i := (fun e => (e, i)) <$> items !! i in
  match op, cursor with
  | CURSOR_FIRST, _ | CURSOR_NEXT, None => at_ 0%nat
  | CURSOR_LAST, _ | CURSOR_PREVIOUS, None => at_ (pred (length items))
  | CURSOR_NEXT, Some i => at_ (S i)
  | CURSOR_PREVIOUS, Some 0%nat => None
  | CURSOR_PREVIOUS, Some (S i) => at_ i
  end.

Record JournalRecord := mkJournalRecord {
  jr_timestamp : Z;
  jr_pin : Z;
  jr_pending : Z;
  jr_hash : option bytes;
  jr_hash_size : Z
}.
#[export] Instance JournalRecord_eq_dec : EqDecision JournalRecord.
Proof. solve_decision. Defined.

Section lmdb.
Context {M : Malloc}.

(** ** The value of a datastore record: its time and its value *)
Definition repo_fsrepo_lmdb_encode_record (record : DatastoreRecord) : res (option (bytes * Z)) :=
  let! (num_bytes, ts_varint) := varint_encode (timestamp record) (fresh 8) 8 in
  let n := u64 (num_bytes + rec_value_size record) in
  if malloc_ok n then
    let! ts := memrd ts_varint num_bytes in
    let! result := memwr (fresh n) ts in
    let! value := memrd (deref (rec_value record)) (rec_value_size record) in
    let! (_, result) := with_ptr result num_bytes (fun p => let! p := memwr p value in Ret (tt, p)) in
    Ret (Some (result, u64 (rec_value_size record + num_bytes)))
  else Ret None.

(** the result and [*record]; without memory for the record the result is 1 *)
Definition repo_fsrepo_lmdb_build_record (key value : bytes) : res (Z * option DatastoreRecord) :=
  match libp2p_datastore_record_new with
  | None => Ret (1, None)
  | Some _ =>
    if malloc_ok (zlen key) then
      let! (ts, varint_size) := varint_decode value (s32 (zlen value)) in
      let value_size := u64 (zlen value - varint_size) in
      if malloc_ok value_size then
        let! p := padd value varint_size in
        let! v := memrd p value_size in
        Ret (1, Some (mkRecord (Some key) (zlen key) (Some v) value_size ts))
      else Ret (0, None)
    else Ret (0, None)
  end.

(** ** The journal *)
Definition journal_record_blank : JournalRecord := mkJournalRecord 0 0 0 None 0.
Definition lmdb_journal_record_new : option JournalRecord :=
  if malloc_ok sizeof_JournalRecord then Some journal_record_blank else None.

(** the size of the key, and a pointer to an array of this function *)
Definition lmdb_journalstore_generate_key (r : JournalRecord) : res (Z * ptr bytes) :=
  let! (n, _) := varint_encode (jr_timestamp r) (fresh 8) 8 in Ret (n, Wild).

(** the key and the value are in arrays of functions that have returned *)
Definition lmdb_journalstore_build_key_value_pair (r : JournalRecord) : res ((Z * ptr bytes) * (Z * ptr bytes)) :=
  let! key := lmdb_journalstore_generate_key r in
  let record_size := u64 (jr_hash_size r + 2) in
  let! record := memwr (fresh record_size) [u8 (jr_pin r)] in
  let! (_, record) := with_ptr record 1 (fun p => let! p := memwr p [u8 (jr_pending r)] in Ret (tt, p)) in
  let! hash := memrd (deref (jr_hash r)) (jr_hash_size r) in
  let! _ := with_ptr record 2 (fun p => let! p := memwr p hash in Ret (tt, p)) in
  Ret (key, (record_size, Wild)).

(** [false]: returned 0; the hash the record had is freed first *)
Definition lmdb_journalstore_build_record (key value : bytes) (rec : option JournalRecord) : res (bool * option JournalRecord) :=
  match (match rec with Some r => Some r | None => lmdb_journal_record_new end) with
  | None => Ret (false, None)
  | Some _ =>
    let! (ts, _) := varint_decode key (s32 (zlen key)) in
    let! pin := rd value 0 in
    let! pending := rd value 1 in
    let n := u64 (zlen value - 2) in
    if malloc_ok n then
      let! p := padd value 2 in
      let! hash := memrd p n in
      Ret (true, Some (mkJournalRecord ts pin pending (Some hash) n))
    else Ret (false, Some (mkJournalRecord ts pin pending None n))
  end.

Fixpoint compare_hashes (n : nat) (i : Z) (a b : bytes) : res Z :=
  match n with
  | O => Ret 0
  | S n =>
    let! x := rd a i in
    let! y := rd b i in
    if x =? y then compare_hashes n (i + 1) a b else Ret (y - x)
  end.

Definition lmdb_journalstore_composite_key_compare (a b : option JournalRecord) : res Z :=
  match a, b with
  | None, None => Ret 0
  | None, Some _ => Ret 1
  | Some _, None => Ret (-1)
  | Some a, Some b =>
    if negb (jr_timestamp a =? jr_timestamp b) then Ret (if jr_timestamp b <? jr_timestamp a then -1 else 1)
    else if negb (jr_hash_size a =? jr_hash_size b) then Ret (if jr_hash_size b <? jr_hash_size a then -1 else 1)
    else compare_hashes (Z.to_nat (jr_hash_size a)) 0 (deref (jr_hash a)) (deref (jr_hash b))
  end.

(** The loop that looks for [record] from the item [key], [value] on.  The result of
    moving the cursor is ignored, and at the end the item stays what it was.  [None]:
    an item cannot be read; the result is the item found, if any. *)
Fixpoint find_record (fuel : nat) (record : JournalRecord) (items : list (bytes * bytes)) (item : bytes * bytes) (pos : nat) (curr : JournalRecord)
  : res (option (option JournalRecord) * nat) :=
  match fuel with
  | O => NoFuel
  | S fuel =>
    let! c := lmdb_journalstore_composite_key_compare (Some record) (Some curr) in
    if c =? 0 then Ret (Some (Some curr), pos)
    else if negb (jr_timestamp record =? jr_timestamp curr) then Ret (Some None, pos)
    else
      let '(item, pos) := match mdb_cursor_get CURSOR_NEXT items (Some pos) with Some (e, i) => (e, i) | None => (item, pos) end in
      let! (ok, next) := lmdb_journalstore_build_record (fst item) (snd item) None in
      match (if ok : bool then next else None) with
      | None => Ret (None, pos)
      | Some next => find_record fuel record items item pos next
      end
  end.

(** the result, [*record] and where the cursor is; the key made of [*record] is not
    used by any of the four operations, but it must fit its array *)
Definition lmdb_journalstore_cursor_get (fuel : nat) (items : list (bytes * bytes)) (cursor : option nat) (op : cursor_op) (record : option JournalRecord)
  : res (Z * option JournalRecord * option nat) :=
  let! _ := match record with Some r => let! _ := lmdb_journalstore_generate_key r in Ret tt | None => Ret tt end in
  match mdb_cursor_get op items cursor with
  | None => Ret (0, record, cursor)
  | Some (item, pos) =>
    match record with
    | None =>
      let! (ok, record) := lmdb_journalstore_build_record (fst item) (snd item) None in
      Ret (if ok : bool then 1 else 0, record, Some pos)
    | Some r =>
      if 0 <? jr_hash_size r then
        let! (ok, curr) := lmdb_journalstore_build_record (fst item) (snd item) None in
        match (if ok : bool then curr else None) with
        | None => Ret (0, Some r, Some pos)
        | Some curr =>
          let! (found, pos) := find_record fuel r items item pos curr in
          match found with
          | Some (Some c) =>
            Ret (1, Some (mkJournalRecord (jr_timestamp r) (jr_pin c) (jr_pending c) (jr_hash r) (jr_hash_size r)), Some pos)
          | _ => Ret (0, Some r, Some pos)
          end
        end
      else
        let! (ok, record) := lmdb_journalstore_build_record (fst item) (snd item) (Some r) in
        Ret (if ok : bool then 1 else 0, record, Some pos)
    end
  end.

(** ** Reading and writing *)
Section store.
Context {T : Type} {L : Lmdb T}.

(** [datastore_context] and the environment in it may be NULL *)
Definition context : Type := option (option T).

Definition repo_fsrepo_lmdb_get_with_transaction (key : bytes) (t : T) : res (Z * option DatastoreRecord) :=
  match mdb_get DATASTORE key t with
  | None => Ret (0, None)
  | Some value =>
    let! (r, record) := repo_fsrepo_lmdb_build_record key value in
    Ret (if r =? 0 then 0 else 1, record)
  end.

(** the result, [*record] and the datastore *)
Definition repo_fsrepo_lmdb_get (key : bytes) (datastore : context) : res (Z * option DatastoreRecord * context) :=
  match datastore with
  | Some (Some t) =>
    if mdb_txn_begin t =? 0 then
      let! (retVal, record) := repo_fsrepo_lmdb_get_with_transaction key t in
      Ret (retVal, record, Some (Some (snd (mdb_txn_commit t t))))
    else Ret (0, None, datastore)
  | _ => Ret (0, None, datastore)
  end.

Definition lmdb_datastore_create_transaction (t : T) : Z := if mdb_txn_begin t =? 0 then 1 else 0.

(** the memory a call of liblmdb reads *)
Definition read_val (v : Z * ptr bytes) : res bytes := match snd v with Ptr b => memrd b (fst v) | _ => UB end.

(** with a transaction *)
Definition lmdb_journalstore_journal_add (r : JournalRecord) (t : T) : res (Z * T) :=
  let! (key, value) := lmdb_journalstore_build_key_value_pair r in
  let! key := read_val key in
  let! value := read_val value in
  let (n, t) := mdb_put JOURNALSTORE key value t in
  Ret (if n =? 0 then 1 else 0, t).

(** [mdb_cursor_put] is a put that moves the cursor *)
Definition lmdb_journalstore_cursor_put (r : JournalRecord) (t : T) : res (Z * T) :=
  let! (key, value) := lmdb_journalstore_build_key_value_pair r in
  let! key := read_val key in
  let! value := read_val value in
  let (n, t) := mdb_put JOURNALSTORE key value t in
  Ret (if n =? 0 then 1 else 0, t).

(** with a transaction and an open cursor *)
Definition lmdb_journalstore_get_record (fuel : nat) (t : T) (record : option JournalRecord) : res (Z * option JournalRecord) :=
  let! (r, record, _) := lmdb_journalstore_cursor_get fuel (mdb_items JOURNALSTORE t) None CURSOR_FIRST record in
  Ret (if r =? 0 then 0 else 1, record).

(** the time a record is stored with: what it has, unless the one that is there is
    older, and not later than now *)
Definition put_timestamp (existing : option DatastoreRecord) (ts : Z) : Z :=
  match existing with
  | Some e => if negb (timestamp e =? 0) && (timestamp e <? ts) then timestamp e else ts
  | None => ts
  end.
Definition set_timestamp (ts : Z) (r : DatastoreRecord) : DatastoreRecord :=
  mkRecord (rec_key r) (rec_key_size r) (rec_value r) (rec_value_size r) ts.

(** the journal record that is looked for when the key is there; the result of the
    search is ignored.  [None]: no memory for the hash *)
Definition search_record (fuel : nat) (r : DatastoreRecord) (t : T) : res (option JournalRecord) :=
  match lmdb_journal_record_new with
  | None => UB
  | Some _ =>
    if malloc_ok (rec_key_size r) then
      let! hash := memrd (deref (rec_key r)) (rec_key_size r) in
      let! (_, j) := lmdb_journalstore_get_record fuel t (Some (mkJournalRecord (timestamp r) 0 0 (Some hash) (rec_key_size r))) in
      Ret j
    else Ret None
  end.

(** what is done to the journal when the datastore has taken the record *)
Definition put_journal (journal : option JournalRecord) (r : DatastoreRecord) (t : T) : res (Z * T) :=
  match journal with
  | Some j =>
    if jr_timestamp j =? timestamp r then Ret (0, t)
    else lmdb_journalstore_cursor_put (mkJournalRecord (timestamp r) (jr_pin j) (jr_pending j) (jr_hash j) (jr_hash_size j)) t
  | None =>
    match lmdb_journal_record_new with
    | None => UB
    | Some _ =>
      if malloc_ok (rec_key_size r) then
        let! hash := memrd (deref (rec_key r)) (rec_key_size r) in
        let! (_, t) := lmdb_journalstore_journal_add (mkJournalRecord (timestamp r) 1 1 (Some hash) (rec_key_size r)) t in
        Ret (1, t)
      else Ret (0, t)
    end
  end.

(** The result, the record with the time it was stored with, and the datastore.
    [now] is what [os_utils_gmtime] returns.  The transaction of the cursor is
    committed when the cursor cannot be opened, and used all the same; a value that
    could not be encoded is an uninitialised pointer. *)
Definition repo_fsrepo_lmdb_put (fuel : nat) (now : Z) (record : DatastoreRecord) (datastore : context)
  : res (Z * DatastoreRecord * context) :=
  match datastore with
  | Some (Some t) =>
    if lmdb_datastore_create_transaction t =? 0 then Ret (0, record, datastore)
    else if negb (malloc_ok sizeof_lmdb_trans_cursor) then Ret (0, record, datastore)
    else if negb (mdb_cursor_open t =? 0) then UB
    else
      let! key := memrd (deref (rec_key record)) (rec_key_size record) in
      let! (_, existing) := repo_fsrepo_lmdb_get_with_transaction key t in
      let record := set_timestamp (put_timestamp existing (timestamp record)) record in
      let! journal :=
        match existing with
        | None => Ret (Some None)
        | Some _ => let! j := search_record fuel record t in Ret (Some <$> j)
        end in
      match journal with
      | None => Ret (0, record, datastore)
      | Some journal =>
        let ts := timestamp record in
        let record := if (ts =? 0) || (now <? ts) then set_timestamp now record else record in
        let! encoded := repo_fsrepo_lmdb_encode_record record in
        match encoded with
        | None => UB
        | Some (value, record_size) =>
          let! value := memrd value record_size in
          let (n, t') := mdb_put DATASTORE key value t in
          let! (retVal, t') :=
            if n =? 0 then put_journal journal record t'
            else Ret (if n =? MDB_KEYEXIST then n else 0, t') in
          Ret (retVal, record, Some (Some (snd (mdb_txn_commit t t'))))
        end
      end
  | _ => Ret (0, record, datastore)
  end.
End store.
End lmdb.

(** ** Records *)
(** the value that is stored *)
Definition stored_value (r : DatastoreRecord) : bytes :=
  varint_bytes (timestamp r) ++ ztake (rec_value_size r) (deref (rec_value r)).

Definition record_storable (r : DatastoreRecord) : Prop :=
  0 <= timestamp r < 2 ^ 56 /\ 0 <= rec_value_size r <= zlen (deref (rec_value r)) /\ rec_value_size r < 2 ^ 30.

Lemma time_bytes ts : 0 <= ts < 2 ^ 56 -> 1 <= zlen (varint_bytes ts) <= 8.
Proof.
  intros. pose proof (varint_bytes_pos ts). split; [done|]. rewrite varint_bytes_length by lia. unfold varint_encoding_length, N1, N2, N3, N4, N5, N6, N7, N8.
  repeat case_match; lia.
Qed.

Section proofs.
Context {M : Malloc}.

Lemma time_encoded ts buf : 0 <= ts < 2 ^ 56 -> zlen buf = 8 ->
  varint_encode ts buf 8 = Ret (zlen (varint_bytes ts), varint_bytes ts ++ zdrop (zlen (varint_bytes ts)) buf).
Proof. intros Ht Hb. pose proof (time_bytes ts Ht). rewrite varint_encode_spec by lia. by rewrite (proj2 (Z.leb_le _ _)) by lia. Qed.

Lemma encode_record_ok {Hm : MallocOk M} r : record_storable r ->
  repo_fsrepo_lmdb_encode_record r = Ret (Some (stored_value r, zlen (stored_value r))).
Proof.
  intros (Ht & Hv & Hs). pose proof (time_bytes _ Ht) as Hn. zlen_facts. unfold repo_fsrepo_lmdb_encode_record, stored_value.
  rewrite time_encoded by (done || apply zlen_fresh; lia). cbn [rbind]. rewrite u64_small, malloc_always, memrd_app by lia. cbn [rbind].
  set (ts := varint_bytes (timestamp r)) in *. set (v := ztake (rec_value_size r) (deref (rec_value r))).
  assert (zlen v = rec_value_size r) as Hvl by (by apply zlen_take).
  rewrite memwr_ok by (rewrite zlen_fresh; lia). cbn [rbind]. unfold memrd. rewrite (proj2 (Z.leb_le 0 _)), (proj2 (Z.leb_le (rec_value_size r) _)) by lia. cbn [andb rbind]. fold v.
  rewrite (with_ptr_append ts v _ _ tt); [|by rewrite memwr_ok by (rewrite zlen_drop, zlen_fresh by (rewrite ?zlen_fresh; lia); lia)|].
  2:{ rewrite zlen_fresh; lia. }
  cbn [rbind]. rewrite zdrop_ge by (rewrite zlen_app, zlen_fresh; lia). rewrite app_nil_r, zlen_app, u64_small by lia. do 3 f_equal. lia.
Qed.

(** what is read back under a key *)
Lemma build_record_ok {Hm : MallocOk M} key r : record_storable r ->
  repo_fsrepo_lmdb_build_record key (stored_value r) =
    Ret (1, Some (mkRecord (Some key) (zlen key) (Some (ztake (rec_value_size r) (deref (rec_value r)))) (rec_value_size r) (timestamp r))).
Proof.
  intros (Ht & Hv & Hs). pose proof (time_bytes _ Ht) as Hn. unfold repo_fsrepo_lmdb_build_record, libp2p_datastore_record_new, stored_value.
  set (ts := varint_bytes (timestamp r)) in *. set (v := ztake (rec_value_size r) (deref (rec_value r))).
  assert (zlen v = rec_value_size r) as Hvl by (by apply zlen_take). rewrite !malloc_always, zlen_app, s32_small by lia.
  unfold ts at 1. rewrite varint_decode_bytes by (fold ts; lia). fold ts. cbn [rbind]. rewrite u64_small by lia.
  rewrite padd_ok, zdrop_app_len by (rewrite zlen_app; lia). cbn [rbind].
  rewrite malloc_always, memrd_all by lia. cbn [rbind]. do 4 f_equal; lia.
Qed.

(** ** Dangling keys *)
Lemma pair_dangling r k v : lmdb_journalstore_build_key_value_pair r = Ret (k, v) -> snd k = Wild.
Proof.
  unfold lmdb_journalstore_build_key_value_pair, lmdb_journalstore_generate_key.
  intros ([n p] & ([m q] & _ & [= <- <-])%rbind_inv & H)%rbind_inv.
  apply rbind_inv in H as (? & _ & H). apply rbind_inv in H as ([[] ?] & _ & H). do 2 (apply rbind_inv in H as (? & _ & H)).
  by injection H as <- <-.
Qed.

Lemma pair_built r : 0 <= jr_timestamp r < 2 ^ 56 -> 0 <= jr_hash_size r <= zlen (deref (jr_hash r)) -> jr_hash_size r < 2 ^ 30 ->
  exists k v, lmdb_journalstore_build_key_value_pair r = Ret (k, v).
Proof.
  intros Ht Hh Hs. unfold lmdb_journalstore_build_key_value_pair, lmdb_journalstore_generate_key.
  rewrite time_encoded by (done || apply zlen_fresh; lia). cbn [rbind]. zlen_facts. rewrite u64_small by lia.
  set (n := jr_hash_size r + 2). assert (zlen (fresh n) = n) as Hn by (apply zlen_fresh; lia). set (b := fresh n) in *.
  rewrite memwr_ok by (change (zlen [u8 (jr_pin r)]) with 1; lia). cbn [rbind]. change (zlen [u8 (jr_pin r)]) with (zlen [u8 (jr_pin r)] + 0).
  rewrite Z.add_0_r. pose proof (with_ptr_append [u8 (jr_pin r)] [u8 (jr_pending r)] b (fun p => let! p := memwr p [u8 (jr_pending r)] in Ret (tt, p)) tt) as E.
  change (zlen [u8 (jr_pin r)]) with 1 in *. change (zlen [u8 (jr_pending r)]) with 1 in *.
  rewrite E by (rewrite ?memwr_ok by (rewrite zlen_drop by lia; change (zlen [u8 (jr_pending r)]) with 1; lia); done || lia). cbn [rbind app].
  unfold memrd. rewrite (proj2 (Z.leb_le 0 _)), (proj2 (Z.leb_le (jr_hash_size r) _)) by lia. cbn [andb rbind].
  set (h := ztake _ _). assert (zlen h = jr_hash_size r) as Hhl by (by apply zlen_take).
  pose proof (with_ptr_append [u8 (jr_pin r); u8 (jr_pending r)] h b (fun p => let! p := memwr p h in Ret (tt, p)) tt) as E2.
  change (zlen [u8 (jr_pin r); u8 (jr_pending r)]) with 2 in *. cbn [app] in E2.
  rewrite E2 by (rewrite ?memwr_ok by (rewrite zlen_drop by lia; lia); done || lia). cbn [rbind]. by eexists _, _.
Qed.

Context {T : Type} {L : Lmdb T}.

Lemma journal_put_undefined r (t : T) x :
  lmdb_journalstore_journal_add r t <> Ret x /\ lmdb_journalstore_cursor_put r t <> Ret x.
Proof.
  unfold lmdb_journalstore_journal_add, lmdb_journalstore_cursor_put.
  split; intros ([k v] & Hp & H)%rbind_inv; apply pair_dangling in Hp; apply rbind_inv in H as (? & H & _);
    unfold read_val in H; by rewrite Hp in H.
Qed.

Lemma put_journal_zero j r (t : T) n t' : put_journal j r t = Ret (n, t') -> n = 0 /\ t' = t.
Proof.
  unfold put_journal. destruct j as [j|].
  - destruct (_ =? _); [by intros [= <- <-]|]. by intros H%journal_put_undefined.
  - destruct lmdb_journal_record_new; [|done]. destruct (malloc_ok _); [|by intros [= <- <-]].
    intros (h & _ & H)%rbind_inv. apply rbind_inv in H as (x & H & _). by apply journal_put_undefined in H.
Qed.

(** a hash that is not there yet *)
Lemma put_new_undefined {Hm : MallocOk M} fuel now r (t : T) : record_storable r -> 0 <= now < 2 ^ 56 ->
  0 <= rec_key_size r <= zlen (deref (rec_key r)) -> rec_key_size r < 2 ^ 30 ->
  mdb_get DATASTORE (ztake (rec_key_size r) (deref (rec_key r))) t = None ->
  mdb_txn_begin t = 0 -> mdb_cursor_open t = 0 -> (forall k v, fst (mdb_put DATASTORE k v t) = 0) ->
  repo_fsrepo_lmdb_put fuel now r (Some (Some t)) = UB.
Proof.
  intros Hr Hnow Hk Hks Hget Hb Hc Hput. unfold repo_fsrepo_lmdb_put, lmdb_datastore_create_transaction. rewrite Hb, malloc_always, Hc.
  change (1 =? 0) with false. cbn [negb Z.eqb]. unfold memrd at 1. rewrite (proj2 (Z.leb_le 0 _)), (proj2 (Z.leb_le _ (zlen (deref (rec_key r))))) by lia. cbn [andb rbind].
  unfold repo_fsrepo_lmdb_get_with_transaction. rewrite Hget. cbn [rbind]. cbv zeta. set (ts := put_timestamp None (timestamp r)).
  assert (exists ts', (if (timestamp (set_timestamp ts r) =? 0) || (now <? timestamp (set_timestamp ts r)) then set_timestamp now (set_timestamp ts r) else set_timestamp ts r)
    = set_timestamp ts' r /\ 0 <= ts' < 2 ^ 56) as (ts' & -> & Ht').
  { destruct (_ || _); [by exists now|]. exists ts. split; [done|]. apply Hr. }
  assert (record_storable (set_timestamp ts' r)) as Hr' by (split; [done|apply Hr]). rewrite encode_record_ok by done. cbn [rbind].
  rewrite memrd_all by done. cbn [rbind]. pose proof (Hput (ztake (rec_key_size r) (deref (rec_key r))) (stored_value (set_timestamp ts' r))) as Hn.
  destruct (mdb_put _ _ _ _) as [n t1]. cbn [fst] in Hn. subst n. change (0 =? 0) with true. cbv iota. unfold put_journal, lmdb_journal_record_new.
  rewrite !malloc_always. cbn [set_timestamp rec_key rec_key_size timestamp]. unfold memrd at 1. rewrite (proj2 (Z.leb_le 0 _)), (proj2 (Z.leb_le _ (zlen (deref (rec_key r))))) by lia. cbn [andb rbind].
  set (h := ztake _ _). assert (zlen h = rec_key_size r) as Hh by (by apply zlen_take).
  destruct (pair_built (mkJournalRecord ts' 1 1 (Some h) (rec_key_size r)) Ht') as (k & v & E); [change (deref (jr_hash _)) with h; cbn [jr_hash_size]; lia..|].
  pose proof (pair_dangling _ _ _ E) as Hd. unfold lmdb_journalstore_journal_add. rewrite E. cbn [rbind]. unfold read_val. by rewrite Hd.
Qed.

(** a key that is there: the first journal record is of another time *)
Definition other_time (ts : Z) (items : list (bytes * bytes)) : Prop :=
  match items with
  | [] => True
  | (k, v) :: _ => exists t0, k = varint_bytes t0 /\ 0 <= t0 < 2 ^ 56 /\ t0 <> ts /\ 2 <= zlen v < 2 ^ 30
  end.

Lemma journal_record_read {Hm : MallocOk M} t0 v : 0 <= t0 < 2 ^ 56 -> 2 <= zlen v < 2 ^ 30 ->
  exists r, lmdb_journalstore_build_record (varint_bytes t0) v None = Ret (true, Some r) /\ jr_timestamp r = t0.
Proof.
  intros Ht Hv. pose proof (time_bytes t0 Ht). unfold lmdb_journalstore_build_record, lmdb_journal_record_new. rewrite malloc_always, s32_small by lia.
  pose proof (varint_decode_bytes t0 [] (zlen (varint_bytes t0)) ltac:(lia) ltac:(lia)) as E. rewrite app_nil_r in E. rewrite E. cbn [rbind]. destruct v as [|pin [|pending h]]; [change (zlen (@nil Z)) with 0 in Hv; lia| |].
  { rewrite zlen_cons in Hv. change (zlen (@nil Z)) with 0 in Hv. lia. }
  rewrite !zlen_cons in *. zlen_facts. rewrite rd_0. cbn [rbind]. rewrite rd_1. cbn [rbind]. rewrite u64_small, malloc_always by lia.
  rewrite padd_ok by (rewrite !zlen_cons; lia). cbn [rbind].
  change (zdrop 2 (pin :: pending :: h)) with h. rewrite memrd_all by lia.
  cbn [rbind]. by eexists.
Qed.

Lemma search_nothing {Hm : MallocOk M} fuel r (t : T) : record_storable r -> 0 < rec_key_size r <= zlen (deref (rec_key r)) -> rec_key_size r < 2 ^ 30 ->
  other_time (timestamp r) (mdb_items JOURNALSTORE t) ->
  search_record (S fuel) r t = Ret (Some (mkJournalRecord (timestamp r) 0 0 (Some (ztake (rec_key_size r) (deref (rec_key r)))) (rec_key_size r))).
Proof.
  intros (Ht & _) Hk Hks Hj. unfold search_record, lmdb_journal_record_new. rewrite !malloc_always. unfold memrd.
  rewrite (proj2 (Z.leb_le 0 _)), (proj2 (Z.leb_le (rec_key_size r) _)) by lia. cbn [andb rbind].
  unfold lmdb_journalstore_get_record, lmdb_journalstore_cursor_get, lmdb_journalstore_generate_key. cbn [jr_timestamp].
  rewrite time_encoded by (done || apply zlen_fresh; lia). cbn [rbind]. unfold other_time in Hj. destruct (mdb_items JOURNALSTORE t) as [|[k v] l]; [done|].
  destruct Hj as (t0 & -> & Ht0 & Hne & Hv). cbn [mdb_cursor_get lookup list_lookup fmap option_fmap option_map jr_hash_size]. rewrite (proj2 (Z.ltb_lt 0 _)) by lia.
  destruct (journal_record_read t0 v Ht0 Hv) as (j & E & Hjt). cbn [fst snd]. rewrite E. cbn [rbind find_record lmdb_journalstore_composite_key_compare].
  cbn [jr_timestamp]. rewrite Hjt, (proj2 (Z.eqb_neq (timestamp r) t0)) by done. cbn [negb rbind].
  by destruct (t0 <? timestamp r).
Qed.
(** ** A put without a time *)
(** whether the journal has a record of the key or not, it gets a dangling key *)
Lemma put_journal_undefined {Hm : MallocOk M} j r (t : T) : 0 <= timestamp r < 2 ^ 56 -> 0 <= rec_key_size r <= zlen (deref (rec_key r)) -> rec_key_size r < 2 ^ 30 ->
  (forall x, j = Some x -> jr_timestamp x <> timestamp r /\ 0 <= jr_hash_size x <= zlen (deref (jr_hash x)) /\ jr_hash_size x < 2 ^ 30) ->
  put_journal j r t = UB.
Proof.
  intros Ht Hk Hks Hj. unfold put_journal. destruct j as [j|].
  - destruct (Hj j eq_refl) as (Hne & Hh & Hhs). rewrite (proj2 (Z.eqb_neq _ _) Hne).
    destruct (pair_built (mkJournalRecord (timestamp r) (jr_pin j) (jr_pending j) (jr_hash j) (jr_hash_size j)) Ht Hh Hhs) as (k & v & E).
    unfold lmdb_journalstore_cursor_put. rewrite E. cbn [rbind]. unfold read_val. by rewrite (pair_dangling _ _ _ E).
  - unfold lmdb_journal_record_new. rewrite !malloc_always. unfold memrd at 1. rewrite (proj2 (Z.leb_le 0 _)), (proj2 (Z.leb_le _ (zlen (deref (rec_key r))))) by lia. cbn [andb rbind].
    set (h := ztake _ _). assert (zlen h = rec_key_size r) as Hh by (by apply zlen_take).
    destruct (pair_built (mkJournalRecord (timestamp r) 1 1 (Some h) (rec_key_size r)) Ht) as (k & v & E); [change (deref (jr_hash _)) with h; cbn [jr_hash_size]; lia..|].
    unfold lmdb_journalstore_journal_add. rewrite E. cbn [rbind]. unfold read_val. by rewrite (pair_dangling _ _ _ E).
Qed.

(** liblmdb is asked to store the value with the time of now; when it does, the journal is
    written, otherwise its code decides *)
Lemma put_untimed {Hm : MallocOk M} fuel now r (t : T) : timestamp r = 0 -> 0 <= rec_value_size r <= zlen (deref (rec_value r)) -> rec_value_size r < 2 ^ 30 ->
  0 < now < 2 ^ 56 -> 0 < rec_key_size r <= zlen (deref (rec_key r)) -> rec_key_size r < 2 ^ 30 -> mdb_txn_begin t = 0 -> mdb_cursor_open t = 0 ->
  let key := ztake (rec_key_size r) (deref (rec_key r)) in
  mdb_get DATASTORE key t = None \/ (exists old, record_storable old /\ mdb_get DATASTORE key t = Some (stored_value old)) /\ other_time 0 (mdb_items JOURNALSTORE t) ->
  let r' := set_timestamp now r in let put := mdb_put DATASTORE key (stored_value r') t in
  repo_fsrepo_lmdb_put (S fuel) now r (Some (Some t)) =
    if fst put =? 0 then UB else Ret (if fst put =? MDB_KEYEXIST then fst put else 0, r', Some (Some (snd (mdb_txn_commit t (snd put))))).
Proof.
  intros H0 Hv Hvs Hnow Hk Hks Hb Hc key Hold r' put. unfold repo_fsrepo_lmdb_put, lmdb_datastore_create_transaction. rewrite Hb, malloc_always, Hc.
  change (1 =? 0) with false. cbn [negb Z.eqb]. unfold memrd at 1. rewrite (proj2 (Z.leb_le 0 _)), (proj2 (Z.leb_le _ (zlen (deref (rec_key r))))) by lia. cbn [andb rbind]. fold key.
  assert (set_timestamp 0 r = r) as Hr0 by (destruct r; cbn in H0; by subst).
  assert (exists e j, repo_fsrepo_lmdb_get_with_transaction key t = Ret e /\ put_timestamp (snd e) (timestamp r) = 0 /\
    (match snd e with None => Ret (Some None) | Some _ => let! j := search_record (S fuel) r t in Ret (Some <$> j) end) = Ret (Some j) /\
    (forall x, j = Some x -> jr_timestamp x <> now /\ 0 <= jr_hash_size x <= zlen (deref (jr_hash x)) /\ jr_hash_size x < 2 ^ 30)) as ([e1 e2] & j & He & Hts & Hj & Hjx).
  { unfold repo_fsrepo_lmdb_get_with_transaction. destruct Hold as [-> | [(old & Ho & ->) Hj]].
    - exists (0, None), None. by rewrite H0.
    - rewrite build_record_ok by done. eexists _, _. split; [reflexivity|]. cbn [rbind snd put_timestamp timestamp]. rewrite H0.
      assert (record_storable r) as Hr by (split; [rewrite H0; lia|done]).
      rewrite (search_nothing fuel r t Hr Hk Hks ltac:(by rewrite H0)). cbn [rbind fmap option_fmap option_map]. rewrite H0. split; [|split; [reflexivity|]].
      + destruct Ho as [Hot _]. by rewrite (proj2 (Z.ltb_ge _ 0)), andb_false_r by lia.
      + intros x [= <-]. cbn [jr_timestamp jr_hash_size jr_hash]. change (deref (Some ?x)) with x. rewrite zlen_take by lia. fold key. lia. }
  rewrite He. cbn [rbind snd] in *. cbv zeta. rewrite Hts, Hr0, Hj. cbn [rbind]. rewrite H0. change (0 =? 0) with true. cbn [orb]. fold r'.
  assert (record_storable r') as Hr' by (split; [cbn; lia|done]). rewrite encode_record_ok by done. cbn [rbind]. rewrite memrd_all by done. cbn [rbind].
  unfold put. destruct (mdb_put _ _ _ _) as [n t1]. cbn [fst snd]. destruct (n =? 0); [|done].
  rewrite put_journal_undefined; [done|change (timestamp r') with now; lia|change (0 <= rec_key_size r <= zlen (deref (rec_key r))); lia|done|exact Hjx].
Qed.
End proofs.

(** ** A small lmdb, for the witnesses *)
Fixpoint bytes_le (a b : bytes) : bool :=
  match a, b with
  | [], _ => true
  | _ :: _, [] => false
  | x :: a, y :: b => if x =? y then bytes_le a b else x <? y
  end.
Fixpoint insert_item (e : bytes * bytes) (l : list (bytes * bytes)) : list (bytes * bytes) :=
  match l with
  | [] => [e]
  | f :: l => if bool_decide (fst e = fst f) && negb (bytes_le (snd e) (snd f)) || negb (bytes_le (fst e) (fst f)) then f :: insert_item e l else e :: f :: l
  end.
Definition small_lmdb : Lmdb (list (bytes * bytes) * list (bytes * bytes)) := {|
  mdb_items := fun db t => match db with DATASTORE => fst t | JOURNALSTORE => snd t end;
  mdb_put := fun db k v t => (0, match db with DATASTORE => (insert_item (k, v) (fst t), snd t) | JOURNALSTORE => (fst t, insert_item (k, v) (snd t)) end);
  mdb_txn_begin := fun _ => 0;
  mdb_txn_commit := fun _ t => (0, t);
  mdb_cursor_open := fun _ => 0
|}.

(** ** Properties *)

(** Property C26.  A put into the lmdb datastore is never reported as done.  Whatever
    liblmdb does, a put that returns returns 0 or the code of a key that exists.  When
    every call is granted, a hash that is not there yet is undefined behaviour: the
    journal gets a key and a value in arrays of functions that have returned.  A hash
    that is there gets a second value, with the older of the two times, and the
    result is 0 although it was stored. *)
Theorem lmdb_put_outcomes {M : Malloc} {Hm : MallocOk M} {T : Type} {L : Lmdb T} (fuel : nat) (now : Z) (r : DatastoreRecord) (t : T) :
  let key := ztake (rec_key_size r) (deref (rec_key r)) in
  (forall ctx n r' ctx', repo_fsrepo_lmdb_put fuel now r ctx = Ret (n, r', ctx') -> n = 0 \/ n = MDB_KEYEXIST) /\
  (record_storable r -> 0 <= now < 2 ^ 56 -> 0 < rec_key_size r <= zlen (deref (rec_key r)) -> rec_key_size r < 2 ^ 30 ->
   mdb_txn_begin t = 0 -> mdb_cursor_open t = 0 -> (forall k v, fst (mdb_put DATASTORE k v t) = 0) ->
   (mdb_get DATASTORE key t = None -> repo_fsrepo_lmdb_put fuel now r (Some (Some t)) = UB) /\
   (forall old, record_storable old -> mdb_get DATASTORE key t = Some (stored_value old) -> 0 < timestamp old <= timestamp r -> timestamp old <= now ->
    other_time (timestamp old) (mdb_items JOURNALSTORE t) ->
    let r' := set_timestamp (timestamp old) r in
    repo_fsrepo_lmdb_put (S fuel) now r (Some (Some t)) =
      Ret (0, r', Some (Some (snd (mdb_txn_commit t (snd (mdb_put DATASTORE key (stored_value r') t)))))))).
Proof.
  intros key. split.
  - intros ctx n r' ctx'. unfold repo_fsrepo_lmdb_put. destruct ctx as [[t'|]|]; [|by intros [= <- _ _]; left..].
    destruct (lmdb_datastore_create_transaction t' =? 0); [by intros [= <- _ _]; left|]. destruct (negb (malloc_ok _)); [by intros [= <- _ _]; left|].
    destruct (negb (mdb_cursor_open t' =? 0)); [done|]. intros (k & _ & H)%rbind_inv. apply rbind_inv in H as ([x e] & _ & H). cbv zeta in H.
    apply rbind_inv in H as ([j|] & _ & H); [|by injection H as <- _ _; left]. apply rbind_inv in H as ([[v size]|] & _ & H); [|done].
    apply rbind_inv in H as (v' & _ & H). destruct (mdb_put _ _ _ _) as [m t1]. apply rbind_inv in H as ([n' t2] & Hj & H). injection H as <- _ _.
    destruct (m =? 0); [left; by apply put_journal_zero in Hj as [-> _]|]. injection Hj as <- _. destruct (Z.eqb_spec m MDB_KEYEXIST); auto.
  - intros Hr Hnow Hk Hks Hb Hc Hput. split; [intros Hget; apply put_new_undefined; (done || lia)|]. intros old Ho Hget Hts Hton Hj r'.
    unfold repo_fsrepo_lmdb_put, lmdb_datastore_create_transaction. rewrite Hb, malloc_always, Hc. change (1 =? 0) with false. cbn [negb Z.eqb].
    unfold memrd at 1. rewrite (proj2 (Z.leb_le 0 _)), (proj2 (Z.leb_le _ (zlen (deref (rec_key r))))) by lia. cbn [andb rbind]. fold key.
    unfold repo_fsrepo_lmdb_get_with_transaction. rewrite Hget, build_record_ok by done. cbn [rbind put_timestamp timestamp]. cbv zeta.
    assert (set_timestamp (if negb (timestamp old =? 0) && (timestamp old <? timestamp r) then timestamp old else timestamp r) r = r') as ->.
    { unfold r'. f_equal. rewrite (proj2 (Z.eqb_neq _ 0)) by lia. cbn [negb andb]. destruct (Z.ltb_spec (timestamp old) (timestamp r)); lia. }
    assert (record_storable r') as Hr' by (split; [apply Ho|apply Hr]).
    rewrite (search_nothing fuel r' t Hr' Hk Hks Hj). cbn [rbind fmap option_fmap option_map]. change (timestamp r') with (timestamp old).
    rewrite (proj2 (Z.eqb_neq _ 0)), (proj2 (Z.ltb_ge now _)) by lia. cbn [orb]. rewrite encode_record_ok by done. cbn [rbind].
    rewrite memrd_all by done. cbn [rbind]. pose proof (Hput key (stored_value r')) as Hn. destruct (mdb_put _ _ _ _) as [n t1]. cbn [fst] in Hn. subst n.
    change (0 =? 0) with true. cbv iota. unfold put_journal. cbn [jr_timestamp]. change (timestamp r') with (timestamp old). by rewrite Z.eqb_refl.
Qed.

Definition ex_record (ts : Z) : DatastoreRecord := mkRecord (Some [9; 8; 7]) 2 (Some [65; 66]) 2 ts.
Definition ex_present : list (bytes * bytes) * list (bytes * bytes) := ([([9; 8], [5; 65])], [([6], [1; 1; 9])]).

Lemma lmdb_put_outcomes_witness :
  let M := malloc_total in let L := small_lmdb in
  repo_fsrepo_lmdb_put 1 100 (ex_record 7) (Some (Some ([], []))) = UB /\
  repo_fsrepo_lmdb_put 1 100 (ex_record 7) (Some (Some ex_present)) =
    Ret (0, ex_record 5, Some (Some ([([9; 8], [5; 65]); ([9; 8], [5; 65; 66])], [([6], [1; 1; 9])]))).
Proof.
  intros M L. split.
  - pose proof (lmdb_put_outcomes 1 100 (ex_record 7) (@nil (bytes * bytes), @nil (bytes * bytes))) as [_ H].
    apply H; (done || by repeat split).
  - pose proof (lmdb_put_outcomes 0 100 (ex_record 7) ex_present) as [_ H].
    destruct H as [_ H]; [by repeat split|done|done|done|done|done|done|].
    apply (H (mkRecord None 0 (Some [65]) 1 5)); [by repeat split|reflexivity|done|done|]. exists 6. by repeat split.
Defined.

(** Property C27.  What the lmdb datastore keeps of a record is its time, as a varint,
    and its value.  A record with a time below 2^56 is encoded, and what is encoded
    is got back under any key it is found at; a time from 2^56 on does not fit the
    eight bytes it is written to, and an assertion fails. *)
Theorem lmdb_record_roundtrip {M : Malloc} {Hm : MallocOk M} {T : Type} {L : Lmdb T} (r : DatastoreRecord) (key : bytes) (t : T) :
  (record_storable r ->
   repo_fsrepo_lmdb_encode_record r = Ret (Some (stored_value r, zlen (stored_value r))) /\
   (mdb_txn_begin t = 0 -> mdb_get DATASTORE key t = Some (stored_value r) ->
    repo_fsrepo_lmdb_get key (Some (Some t)) =
      Ret (1, Some (mkRecord (Some key) (zlen key) (Some (ztake (rec_value_size r) (deref (rec_value r)))) (rec_value_size r) (timestamp r)),
           Some (Some (snd (mdb_txn_commit t t)))))) /\
  (2 ^ 56 <= timestamp r < 2 ^ 64 -> repo_fsrepo_lmdb_encode_record r = AssertFail).
Proof.
  split.
  - intros Hr. split; [by apply encode_record_ok|]. intros Hb Hget. unfold repo_fsrepo_lmdb_get, repo_fsrepo_lmdb_get_with_transaction.
    rewrite Hb, Hget. change (0 =? 0) with true. cbv iota. by rewrite build_record_ok by done.
  - intros Ht. unfold repo_fsrepo_lmdb_encode_record. rewrite varint_encode_spec by (rewrite ?zlen_fresh; lia).
    assert (8 < zlen (varint_bytes (timestamp r))) as Hl.
    { rewrite varint_bytes_length by lia. unfold varint_encoding_length, N1, N2, N3, N4, N5, N6, N7, N8. repeat case_match; lia. }
    by rewrite (proj2 (Z.leb_gt _ _)) by lia.
Qed.

Lemma lmdb_record_roundtrip_witness :
  let M := malloc_total in let L := small_lmdb in
  repo_fsrepo_lmdb_encode_record (ex_record 300) = Ret (Some ([172; 2; 65; 66], 4)) /\
  repo_fsrepo_lmdb_get [1] (Some (Some ([([1], [172; 2; 65; 66])], []))) =
    Ret (1, Some (mkRecord (Some [1]) 1 (Some [65; 66]) 2 300), Some (Some ([([1], [172; 2; 65; 66])], []))) /\
  repo_fsrepo_lmdb_encode_record (ex_record (2 ^ 56)) = AssertFail.
Proof.
  intros M L. pose proof (lmdb_record_roundtrip (ex_record 300) [1] ([([1], [172; 2; 65; 66])], @nil (bytes * bytes))) as [H _].
  destruct H as [H1 H2]; [by repeat split|]. split; [exact H1|]. split; [by apply H2|].
  by apply (lmdb_record_roundtrip (ex_record (2 ^ 56)) [1] (@nil (bytes * bytes), @nil (bytes * bytes))).
Defined.
