(* ===== verification/Dialer.v ===== *)
(** * Dialing and the streams of sessions (libp2p/conn/dialer.c, tcp_transport_dialer.c, transport_dialer.c)

    How a peer is joined: its addresses are dialed one after the other, and on the first
    connection multistream, secio, multistream again, yamux and the identification are
    started.  The sockets and the negotiations, in which the thread of the swarm takes part,
    are the interface [Sessions].

    What a session is for a stream: [default_stream->write] and [->read] are handed the
    session by the asking side of the DHT, although every stream takes its own context. *)
From Stdlib Require Import String.
From S2P Require Import Prelude Varint Digits Protobuf Base58 CString Hex Multiaddr YamuxState Connection Peer.

(** The world of a dialer, a session being named by the position of its peer.  [socket_connect]
    is 0 when a new socket is connected to the host and port; [open_session] makes the connection
    the default stream of the session, with the host and the port; the others are the calls of
    [libp2p_conn_dialer_join_swarm] with their results.  [default_stream] is the type of the
    default stream, if there is one, and [session_first_byte] the first byte of the session,
    which is the lowest of its pointer [host].  [handshake_done] tells whether the handshake of
    secio, in the thread of the swarm, has found the peer in the store and marked it as connected. *)
Class Sessions (N : Type) := {
  socket_connect : bytes -> Z -> N -> Z * N;
  open_session : nat -> option bytes -> Z -> N -> N;
  swarm_add_peer : nat -> N -> N;
  multistream_ready : nat -> N -> Z * N;
  secio_stream_new : nat -> N -> bool * N;
  secio_ready : nat -> N -> Z * N;
  yamux_stream_new : nat -> N -> bool * N;
  yamux_stream_ready : nat -> N -> Z * N;
  identify_handler : N -> bool;
  channel_new : nat -> N -> option Z * N;
  channel_multistream : nat -> N -> Z * N;
  identify_stream_new : nat -> N -> N;
  handshake_done : nat -> N -> bool;
  default_stream : nat -> N -> option Z;
  session_first_byte : nat -> N -> Z
}.

Definition sizeof_TcpStream : Z := 104.
Definition sizeof_ConnectionContext : Z := 24.
Definition sizeof_SessionContext : Z := 296.

Definition set_session (s : option bool) (p : Libp2pPeer) : Libp2pPeer :=
  mkPeer (id p) (id_size p) (addr_head p) (connection_type p) s (is_local p).

Definition mark_connected (done : bool) (p : Libp2pPeer) : Libp2pPeer :=
  if done then mkPeer (id p) (id_size p) (addr_head p) CONNECTION_TYPE_CONNECTED (sessionContext p) (is_local p) else p.

Section dialer.
Context {M : Malloc} {N : Type} {S : Sessions N}.
Implicit Types n : N.

(** ** One address *)
(** whether there is a stream; without memory for its context it is there without one *)
Definition libp2p_net_connection_new (ip : bytes) (port : Z) n : res (bool * N) :=
  if malloc_ok sizeof_TcpStream then
    let! _ := libp2p_net_connection_established 0 ip port in
    if malloc_ok sizeof_ConnectionContext then
      let! host := read_str ip in
      let '(r, n) := socket_connect host port n in Ret (r =? 0, n)
    else UB
  else Ret (false, n).

Definition libp2p_conn_tcp_dial (addr : MultiAddress) n : res (bool * N) :=
  let! port := multiaddress_get_ip_port addr in
  let! (r, ip) := multiaddress_get_ip_address addr in
  match ip with
  | Some ip => if r =? 0 then Ret (false, n) else libp2p_net_connection_new ip port n
  | None => if r =? 0 then Ret (false, n) else UB
  end.

(** the list of the other dialers is never filled; a NULL item is dereferenced *)
Definition libp2p_conn_dialer_get_connection (multiaddress : option MultiAddress) n : res (bool * N) :=
  match multiaddress with None => UB | Some ma => libp2p_conn_tcp_dial ma n end.

(** ** All addresses *)
(** what is done with the connection to [ma]: the session is made if there is none *)
Definition take_connection (ma : option MultiAddress) (i : nat) (p : Libp2pPeer) n : res (Libp2pPeer * N) :=
  match ma with
  | None => UB
  | Some ma =>
    if bool_decide (sessionContext p = None) && negb (malloc_ok sizeof_SessionContext) then UB
    else
      let! port := multiaddress_get_ip_port ma in
      let! (_, host) := multiaddress_get_ip_address ma in
      Ret (set_session (Some true) p, open_session i host port n)
  end.

(** the first address that answers *)
Fixpoint dial_loop (l : list (option MultiAddress)) (i : nat) (p : Libp2pPeer) n : res (bool * Libp2pPeer * N) :=
  match l with
  | [] => Ret (false, p, n)
  | ma :: l =>
    let! (connected, n) := libp2p_conn_dialer_get_connection ma n in
    if connected : bool then let! (p, n) := take_connection ma i p n in Ret (true, p, n)
    else dial_loop l i p n
  end.

(** ** Joining *)
(** the wait for multistream first takes the session for the context of a channel *)
Definition session_multistream_ready (i : nat) n : res (Z * N) :=
  if session_first_byte i n =? 67 then UB else Ret (multistream_ready i n).

(** the identification over a channel of yamux; [false]: it ends the joining *)
Definition start_identify (i : nat) n : res (bool * N) :=
  if identify_handler n then
    match default_stream i n with
    | None => UB
    | Some t =>
      if t =? STREAM_TYPE_YAMUX then
        match channel_new i n with
        | (Some channel, n) =>
          if 0 <? channel then
            let '(r, n) := channel_multistream i n in
            Ret (if r =? 0 then (false, n) else (true, identify_stream_new i n))
          else Ret (true, n)
        | (None, n) => Ret (true, n)
        end
      else Ret (true, n)
    end
  else Ret (true, n).

(** on a connection: [true] when all protocols are there *)
Definition negotiate (i : nat) n : res (bool * N) :=
  let! (r, n) := session_multistream_ready i n in
  if r =? 0 then Ret (false, n)
  else
    match default_stream i n with
    | None => Ret (false, n)
    | Some _ =>
      let '(secio, n) := secio_stream_new i n in
      if negb secio then Ret (false, n)
      else
        let '(r, n) := secio_ready i n in
        if r =? 0 then Ret (false, n)
        else
          let! (r, n) := session_multistream_ready i n in
          if r =? 0 then Ret (false, n)
          else
            let '(yamux, n) := yamux_stream_new i n in
            if negb yamux then Ret (false, n)
            else
              let '(r, n) := yamux_stream_ready i n in
              if r =? 0 then Ret (false, n) else start_identify i n
    end.

(** the result, the peer and the network; only the handshake touches [connection_type] *)
Definition libp2p_conn_dialer_join_swarm (i : nat) (peer : Libp2pPeer) n : res (Z * Libp2pPeer * N) :=
  let! (connected, peer, n) := dial_loop (addr_head peer) i peer n in
  if negb connected then Ret (0, peer, n)
  else
    let n := swarm_add_peer i n in
    let! _ := libp2p_peer_id_to_string peer in
    let! (joined, n) := negotiate i n in
    Ret (if joined : bool then 1 else 0, mark_connected (handshake_done i n) peer, n).

(** ** A session in place of a context *)
(** [libp2p_yamux_write] takes what begins with ['C'] for a channel and what begins with
    ['Y'] for a connection, and writes nothing otherwise; the other streams use the session as
    the context they have themselves *)
Definition session_write (i : nat) (message : bytes) n : res (Z * N) :=
  match default_stream i n with
  | None => UB
  | Some t =>
    if t =? STREAM_TYPE_YAMUX then
      if (session_first_byte i n =? 67) || (session_first_byte i n =? 89) then UB else Ret (0, n)
    else UB
  end.

(** [libp2p_yamux_read] the same; the message is left as it was *)
Definition session_read (i : nat) n : res (Z * option bytes * N) :=
  match default_stream i n with
  | None => UB
  | Some t =>
    if t =? STREAM_TYPE_YAMUX then
      if (session_first_byte i n =? 67) || (session_first_byte i n =? 89) then UB else Ret (0, None, n)
    else UB
  end.

(** ** Lemmas *)
(** a session of a joined peer: the default stream is yamux, and the first byte of the session,
    the lowest of an address [malloc] has aligned, is none of the two letters *)
Definition over_yamux (i : nat) n : Prop :=
  default_stream i n = Some STREAM_TYPE_YAMUX /\ session_first_byte i n <> 67 /\ session_first_byte i n <> 89.

Lemma session_write_nothing i b n : over_yamux i n -> session_write i b n = Ret (0, n).
Proof using.
  intros (Ht & H1 & H2). unfold session_write. rewrite Ht. change (STREAM_TYPE_YAMUX =? STREAM_TYPE_YAMUX) with true. cbv iota.
  by rewrite (proj2 (Z.eqb_neq _ _) H1), (proj2 (Z.eqb_neq _ _) H2).
Qed.

(** a session on any other stream *)
Definition over_other (i : nat) n : Prop := exists t, default_stream i n = Some t /\ t <> STREAM_TYPE_YAMUX.

Lemma session_write_undefined i b n : over_other i n -> session_write i b n = UB.
Proof using. intros (t & Ht & Hne). unfold session_write. by rewrite Ht, (proj2 (Z.eqb_neq _ _) Hne). Qed.

(** an address that cannot be dialed *)
Definition unreachable n (ma : option MultiAddress) : Prop := libp2p_conn_dialer_get_connection ma n = Ret (false, n).

Lemma dial_nobody l i p n : Forall (unreachable n) l -> dial_loop l i p n = Ret (false, p, n).
Proof using. induction 1 as [|ma l Hma _ IH]; [done|]. cbn [dial_loop]. rewrite Hma. exact IH. Qed.

Lemma join_nobody i p n : Forall (unreachable n) (addr_head p) -> libp2p_conn_dialer_join_swarm i p n = Ret (0, p, n).
Proof using. intros H. unfold libp2p_conn_dialer_join_swarm. by rewrite dial_nobody. Qed.
End dialer.
