(* ===== verification/Online.v ===== *)
(** * Asking the network (libipfs/routing/online.c, the asking side of libp2p/routing/dht_protocol.c)

    Who provides a key, where a peer is, what the value of a key is: questions that go as
    kademlia messages to the peers of the store and come back as messages.  A peer of the
    store is the position of its entry, and so is its session ([Dialer]).  The session is
    handed to the functions of its default stream in place of the stream's context, so that
    no question leaves the node. *)
From Stdlib Require Import String.
From S2P Require Import Prelude Varint Digits Protobuf Multihash Cid Block Record Base58 Base32 Vector CString Hex Multiaddr Peer.
From S2P Require Import Files Datastore Blockstore Node Merkledag KademliaMessage Peerstore Providerstore Dht CidText Exporter YamuxState Dialer.

(** what the functions use of a node: the repository, the own peer, the text of its first
    address, the addresses to start with, its peers and providers, and the network *)
Record OnlineNode (D N : Type) := mkOnlineNode {
  on_repo : IpfsNode D;
  on_identity : Libp2pPeer;
  on_swarm_head : bytes;
  on_bootstrap : vector MultiAddress;
  on_peerstore : Peerstore;
  on_providerstore : ProviderStore;
  on_network : N
}.
Arguments mkOnlineNode {D N}.
Arguments on_repo {D N}.
Arguments on_identity {D N}.
Arguments on_swarm_head {D N}.
Arguments on_bootstrap {D N}.
Arguments on_peerstore {D N}.
Arguments on_providerstore {D N}.
Arguments on_network {D N}.

Definition with_network {D N} (nd : OnlineNode D N) (n : N) : OnlineNode D N :=
  mkOnlineNode (on_repo nd) (on_identity nd) (on_swarm_head nd) (on_bootstrap nd) (on_peerstore nd) (on_providerstore nd) n.
Definition with_peers {D N} (nd : OnlineNode D N) (ps : Peerstore) : OnlineNode D N :=
  mkOnlineNode (on_repo nd) (on_identity nd) (on_swarm_head nd) (on_bootstrap nd) ps (on_providerstore nd) (on_network nd).

Definition set_connection (t : Z) (p : Libp2pPeer) : Libp2pPeer :=
  mkPeer (id p) (id_size p) (addr_head p) t (sessionContext p) (is_local p).
Definition store_peer (ps : Peerstore) (i : nat) (p : Libp2pPeer) : Peerstore :=
  mkPeerstore (<[i := mkPeerEntry (Some p)]> (ps_entries ps)).

Definition new_message (t : Z) (key : bytes) (key_size : Z) : KademliaMessage :=
  mkKademlia t (Some key) key_size None [] [] 0.

Section online.
Context {M : Malloc} {Dk : Disk} {D N : Type} {Ds : Datastore D} {S : Sessions N}.
Implicit Types (nd : OnlineNode D N) (m : KademliaMessage) (n : N).

(** ** One message (dht_protocol.c) *)
(** the session, whose stream has to be there *)
Definition session_of (p : Libp2pPeer) : res unit :=
  match sessionContext p with Some true => Ret tt | _ => UB end.

Definition libp2p_routing_dht_upgrade_stream (p : Libp2pPeer) (i : nat) n : res (Z * N) :=
  let! _ := session_of p in
  let! (w, n) := session_write i dht_protocol_id n in
  if w =? 0 then Ret (0, n)
  else
    let! (r, results, n) := session_read i n in
    if r =? 0 then Ret (0, n)
    else
      match results with
      | None => Ret (0, n)
      | Some data =>
        if negb (zlen data =? zlen dht_protocol_id) then Ret (0, n)
        else
          let! eq := strncmp_eq (length data) data (dht_protocol_id ++ [0]) in
          Ret (if eq : bool then 1 else 0, n)
      end.

(** the buffer is not tested, and whether the message could be encoded is not looked at *)
Definition libp2p_routing_dht_send_message (p : Libp2pPeer) (i : nat) m n : res (Z * N) :=
  let protobuf_size := libp2p_message_protobuf_encode_size m in
  if malloc_ok protobuf_size then
    let! ((_, protobuf_size), protobuf) := libp2p_message_protobuf_encode m (fresh protobuf_size) protobuf_size in
    let! (r, n) := libp2p_routing_dht_upgrade_stream p i n in
    if r =? 0 then Ret (0, n)
    else
      let! out := memrd protobuf protobuf_size in
      let! (w, n) := session_write i out n in
      Ret (if w =? 0 then 0 else 1, n)
  else UB.

(** the result is 1 in every case: it tells whether [result], not [*result], is NULL *)
Definition libp2p_routing_dht_receive_message (p : Libp2pPeer) (i : nat) n : res (Z * option KademliaMessage * N) :=
  let! _ := session_of p in
  let! (r, results, n) := session_read i n in
  if r =? 0 then Ret (1, None, n)
  else
    match results with
    | None => UB
    | Some data => let! msg := libp2p_message_protobuf_decode data (zlen data) in Ret (1, msg, n)
    end.

Definition ipfs_routing_online_send_receive_message (p : Libp2pPeer) (i : nat) m n : res (option KademliaMessage * N) :=
  let! (r, n) := libp2p_routing_dht_send_message p i m n in
  if r =? 0 then Ret (None, n)
  else let! (_, reply, n) := libp2p_routing_dht_receive_message p i n in Ret (reply, n).

(** [libp2p_peer_connect] on the peer at [i] of a store: the result, the peer, the network *)
Definition libp2p_peer_connect (p : Libp2pPeer) (i : nat) n : res (Z * Libp2pPeer * N) :=
  let p := if (connection_type p =? CONNECTION_TYPE_CONNECTED) && bool_decide (sessionContext p = None)
           then set_connection CONNECTION_TYPE_NOT_CONNECTED p else p in
  let! _ := libp2p_peer_id_to_string p in
  libp2p_conn_dialer_join_swarm i p n.

(** the walk over the store from the entry at [i], [sent] being the number of peers the
    message went to; the entries are not tested for a peer *)
Fixpoint nearest_loop (es : list PeerEntry) (i : nat) (sent : Z) (ps : Peerstore) m (numToSend : Z) n : res (Z * Peerstore * N) :=
  match es with
  | [] => Ret (sent, ps, n)
  | mkPeerEntry None :: _ => UB
  | mkPeerEntry (Some p) :: es =>
    if negb (is_local p =? 0) then nearest_loop es (Datatypes.S i) sent ps m numToSend n
    else
      let! (r, p, n) := libp2p_peer_connect p i n in
      let ps := store_peer ps i p in
      let! (sent, n) :=
        if r =? 0 then Ret (sent, n)
        else let! (r, n) := libp2p_routing_dht_send_message p i m n in Ret (if r =? 0 then sent else sent + 1, n) in
      if numToSend <=? sent then Ret (sent, ps, n) else nearest_loop es (Datatypes.S i) sent ps m numToSend n
  end.

Definition libp2p_routing_dht_send_message_nearest_x (ps : Peerstore) m (numToSend : Z) n : res (Z * Peerstore * N) :=
  let! (sent, ps, n) := nearest_loop (ps_entries ps) 0 0 ps m numToSend n in
  Ret (if 0 <? sent then 1 else 0, ps, n).

(** ** Questions (online.c) *)
(** the message with a copy of the key; [None]: no memory for the key *)
Definition key_message (t : Z) (key : bytes) (key_size : Z) : res (option KademliaMessage) :=
  match libp2p_message_new with
  | None => UB
  | Some _ =>
    if malloc_ok key_size then let! k := memrd key key_size in Ret (Some (new_message t k key_size)) else Ret None
  end.

(** [libp2p_peerstore_get_or_add_peer], as the position of the peer *)
Definition get_or_add_position (ps : Peerstore) (p : Libp2pPeer) : res (option nat * Peerstore) :=
  let! found := libp2p_peerstore_get_peer_entry (Some ps) (to_ptr (id p)) (id_size p) in
  match found with
  | Some i => Ret (Some i, ps)
  | None =>
    let! (_, ps) := libp2p_peerstore_add_peer ps (Some p) in
    let! found := libp2p_peerstore_get_peer_entry (Some ps) (to_ptr (id p)) (id_size p) in
    Ret (found, ps)
  end.

(** the peers of an answer, as positions of the store they are added to *)
Fixpoint collect_peers (l : list (option Libp2pPeer)) (ps : Peerstore) (peers : vector nat) : res (Peerstore * vector nat) :=
  match l with
  | [] => Ret (ps, peers)
  | None :: _ => UB
  | Some current :: l =>
    let! (found, ps) := get_or_add_position ps current in
    let! (_, peers) := libp2p_utils_vector_add peers found in
    collect_peers l ps peers
  end.

Fixpoint ask_for_providers (es : list PeerEntry) (i : nat) m nd : res (option (vector nat) * OnlineNode D N) :=
  match es with
  | [] => Ret (None, nd)
  | mkPeerEntry None :: _ => UB
  | mkPeerEntry (Some p) :: es =>
    if connection_type p =? CONNECTION_TYPE_CONNECTED then
      let! (reply, n) := ipfs_routing_online_send_receive_message p i m (on_network nd) in
      let nd := with_network nd n in
      match provider_peer_head <$> reply with
      | Some ((_ :: _) as l) =>
        let! peers := libp2p_utils_vector_new 1 in
        let! (ps, peers) := collect_peers l (on_peerstore nd) peers in
        Ret (Some peers, with_peers nd ps)
      | _ => ask_for_providers es (Datatypes.S i) m nd
      end
    else ask_for_providers es (Datatypes.S i) m nd
  end.

(** the result and [*peers]; [None]: it was not set *)
Definition ipfs_routing_online_find_remote_providers nd (key : bytes) (key_size : Z)
  : res (Z * option (vector nat) * OnlineNode D N) :=
  let! message := key_message MESSAGE_TYPE_GET_PROVIDERS key key_size in
  match message with
  | None => Ret (0, None, nd)
  | Some message =>
    let! (peers, nd) := ask_for_providers (ps_entries (on_peerstore nd)) 0 message nd in
    Ret (match peers with Some _ => 1 | None => 0 end, peers, nd)
  end.

Definition ipfs_routing_online_find_providers nd (key : bytes) (key_size : Z)
  : res (Z * option (vector nat) * OnlineNode D N) :=
  let! provider := libp2p_providerstore_get (on_providerstore nd) (Merkledag.datastore (repo (on_repo nd))) key (s32 key_size) in
  let! _ := libp2p_peer_id_to_string (on_identity nd) in
  match provider with
  | None => ipfs_routing_online_find_remote_providers nd key key_size
  | Some (peer_id, peer_id_size) =>
    let! peer := libp2p_peerstore_get_peer_entry (Some (on_peerstore nd)) (Ptr peer_id) (u64 peer_id_size) in
    match peer with
    | None => Ret (0, None, nd)
    | Some i =>
      let! p := entry_peer (on_peerstore nd) i in
      let! _ := libp2p_peer_id_to_string p in
      let! peers := libp2p_utils_vector_new 1 in
      let! (_, peers) := libp2p_utils_vector_add peers (Some i) in
      Ret (1, Some peers, nd)
    end
  end.

(** the result, what is put into [*result], and the node *)
Definition ipfs_routing_online_ask_peer_for_peer nd (i : nat) (p : Libp2pPeer) (peer_id : bytes) (peer_id_size : Z)
  : res (Z * option Libp2pPeer * OnlineNode D N) :=
  if connection_type p =? CONNECTION_TYPE_CONNECTED then
    match libp2p_message_new with
    | None => Ret (0, None, nd)
    | Some _ =>
      if malloc_ok peer_id_size then
        let! k := memrd peer_id peer_id_size in
        let! (reply, n) := ipfs_routing_online_send_receive_message p i (new_message MESSAGE_TYPE_FIND_NODE k peer_id_size) (on_network nd) in
        let nd := with_network nd n in
        match reply with
        | None =>
          let! _ := memrd (deref (id p)) (id_size p) in
          Ret (0, None, with_peers nd (store_peer (on_peerstore nd) i (set_connection CONNECTION_TYPE_NOT_CONNECTED p)))
        | Some reply =>
          match provider_peer_head reply with
          | Some q :: _ => let! copy := libp2p_peer_copy q in Ret (1, copy, nd)
          | _ => Ret (0, None, nd)
          end
        end
      else Ret (0, None, nd)
    end
  else Ret (0, None, nd).

Fixpoint ask_every_peer (es : list PeerEntry) (i : nat) (peer_id : bytes) (peer_id_size : Z) nd
  : res (Z * option Libp2pPeer * OnlineNode D N) :=
  match es with
  | [] => Ret (0, None, nd)
  | mkPeerEntry None :: _ => UB
  | mkPeerEntry (Some p) :: es =>
    let! (_, result, nd) := ipfs_routing_online_ask_peer_for_peer nd i p peer_id peer_id_size in
    match result with
    | Some _ => Ret (1, result, nd)
    | None => ask_every_peer es (Datatypes.S i) peer_id peer_id_size nd
    end
  end.

Definition ipfs_routing_online_find_peer nd (peer_id : bytes) (peer_id_size : Z) : res (Z * option Libp2pPeer * OnlineNode D N) :=
  let! found := libp2p_peerstore_get_peer (Some (on_peerstore nd)) (Ptr peer_id) peer_id_size in
  match found with
  | Some _ => Ret (1, found, nd)
  | None => ask_every_peer (ps_entries (on_peerstore nd)) 0 peer_id peer_id_size nd
  end.

(** ** Announcements *)
(** the address others are told has the port of the first address and the loopback as host;
    the text is printed into an array of 255 bytes *)
Definition ipfs_routing_online_build_local_peer nd : res Libp2pPeer :=
  let! copy := libp2p_peer_copy (on_identity nd) in
  match copy with
  | None => UB
  | Some copy =>
    if malloc_ok sizeof_Libp2pLinkedList then
      let! temp_ma := multiaddress_new_from_string (on_swarm_head nd) in
      match temp_ma with
      | None => UB
      | Some temp_ma =>
        let! port := multiaddress_get_ip_port temp_ma in
        let! i := read_str (deref (id (on_identity nd))) in
        let text := txt "/ip4/127.0.0.1/tcp/" ++ (if port <? 0 then 45 :: dec (- port) else dec port) ++ txt "/ipfs/" ++ i ++ [47] in
        let! str := strcpy_into 255 text in
        let! ma := multiaddress_new_from_string (str_object 255 str) in
        match ma with
        | None => UB
        | Some _ =>
          Ret (mkPeer (id copy) (id_size copy) [ma] CONNECTION_TYPE_CONNECTED (sessionContext copy) (is_local copy))
        end
      end
    else UB
  end.

(** the answers are not looked at *)
Fixpoint provide_loop (es : list PeerEntry) (i : nat) m n : res N :=
  match es with
  | [] => Ret n
  | mkPeerEntry None :: _ => UB
  | mkPeerEntry (Some p) :: es =>
    if (is_local p =? 0) && (connection_type p =? CONNECTION_TYPE_CONNECTED) then
      let! (_, n) := ipfs_routing_online_send_receive_message p i m n in provide_loop es (Datatypes.S i) m n
    else provide_loop es (Datatypes.S i) m n
  end.

Definition ipfs_routing_online_provide nd (key : bytes) (key_size : Z) : res (Z * OnlineNode D N) :=
  let! local_peer := ipfs_routing_online_build_local_peer nd in
  let! msg := key_message MESSAGE_TYPE_ADD_PROVIDER key key_size in
  match msg with
  | None => Ret (0, nd)
  | Some msg =>
    if malloc_ok sizeof_Libp2pLinkedList then
      let! n := provide_loop (ps_entries (on_peerstore nd)) 0 (set_provider_peers [Some local_peer] msg) (on_network nd) in
      Ret (1, with_network nd n)
    else UB
  end.

(** the peer at [i] *)
Definition ipfs_routing_online_ping nd (i : nat) : res (Z * OnlineNode D N) :=
  let! p := entry_peer (on_peerstore nd) i in
  let! (stop, p, nd) :=
    if negb (connection_type p =? CONNECTION_TYPE_CONNECTED) then
      let! (r, p, n) := libp2p_peer_connect p i (on_network nd) in
      Ret (r =? 0, p, with_peers (with_network nd n) (store_peer (on_peerstore nd) i p))
    else Ret (false, p, nd) in
  if stop : bool then Ret (0, nd)
  else if connection_type p =? CONNECTION_TYPE_CONNECTED then
    match libp2p_message_new with
    | None => Ret (0, nd)
    | Some out =>
      let! (reply, n) := ipfs_routing_online_send_receive_message p i out (on_network nd) in
      Ret (match reply with
           | None => 0
           | Some reply => if message_type reply =? MESSAGE_TYPE_PING then 1 else 0
           end, with_network nd n)
    end
  else Ret (1, nd).

(** ** Values *)
(** the result, and the value with its size *)
Definition ipfs_routing_online_get_peer_value nd (i : nat) (p : Libp2pPeer) (key : bytes) (key_size : Z)
  : res (option (bytes * Z) * OnlineNode D N) :=
  let! msg := key_message MESSAGE_TYPE_GET_VALUE key key_size in
  match msg with
  | None => Ret (None, nd)
  | Some msg =>
    let! (reply, n) := ipfs_routing_online_send_receive_message p i msg (on_network nd) in
    let nd := with_network nd n in
    match reply with
    | None => Ret (None, nd)
    | Some reply =>
      match km_record reply with
      | None => Ret (None, nd)
      | Some r =>
        if Record.rec_value_size r <=? 0 then Ret (None, nd)
        else if malloc_ok (Record.rec_value_size r) then
          let! v := memrd (deref (Record.rec_value r)) (Record.rec_value_size r) in
          Ret (Some (v, Record.rec_value_size r), nd)
        else Ret (None, nd)
      end
    end
  end.

(** the peers that are connected, and the node itself; [dht_get] as in [Exporter].  The value
    a failing local search leaves is not one *)
Fixpoint get_value_connected (dht_get : bytes -> option bytes) (l : list (option nat)) nd (key : bytes) (key_size : Z)
  : res (option (bytes * Z) * OnlineNode D N) :=
  match l with
  | [] => Ret (None, nd)
  | None :: _ => UB
  | Some i :: l =>
    let! q := entry_peer (on_peerstore nd) i in
    let! (found, ps) := get_or_add_position (on_peerstore nd) q in
    let nd := with_peers nd ps in
    match found with
    | None => UB
    | Some i =>
      let! p := entry_peer (on_peerstore nd) i in
      if negb (is_local p =? 0) then
        let! (r, v) := ipfs_routing_generic_get_value dht_get (on_repo nd) key key_size in
        if r =? 0 then get_value_connected dht_get l nd key key_size else Ret (v, nd)
      else
        let (c, p) := libp2p_peer_is_connected p in
        let nd := with_peers nd (store_peer (on_peerstore nd) i p) in
        if c =? 0 then get_value_connected dht_get l nd key key_size
        else
          let! _ := libp2p_peer_id_to_string p in
          let! (v, nd) := ipfs_routing_online_get_peer_value nd i p key key_size in
          match v with
          | Some _ => Ret (v, nd)
          | None => get_value_connected dht_get l nd key key_size
          end
    end
  end.

Fixpoint get_value_others (l : list (option nat)) nd (key : bytes) (key_size : Z) : res (option (bytes * Z) * OnlineNode D N) :=
  match l with
  | [] => Ret (None, nd)
  | None :: _ => UB
  | Some i :: l =>
    let! p := entry_peer (on_peerstore nd) i in
    if negb (is_local p =? 0) then get_value_others l nd key key_size
    else
      let (c, p) := libp2p_peer_is_connected p in
      let nd := with_peers nd (store_peer (on_peerstore nd) i p) in
      if negb (c =? 0) then get_value_others l nd key key_size
      else
        let! (r, p, n) := libp2p_peer_connect p i (on_network nd) in
        let nd := with_peers (with_network nd n) (store_peer (on_peerstore nd) i p) in
        if r =? 0 then get_value_others l nd key key_size
        else
          let! (v, nd) := ipfs_routing_online_get_peer_value nd i p key key_size in
          match v with
          | Some _ => Ret (v, nd)
          | None => get_value_others l nd key key_size
          end
  end.

(** the result, and the value when there is one; when nothing was found the result is 1 too,
    because the pointer to the size is compared with 0 *)
Definition ipfs_routing_online_get_value (dht_get : bytes -> option bytes) nd (key : bytes) (key_size : Z)
  : res (Z * option (bytes * Z) * OnlineNode D N) :=
  let! (_, peers, nd) := ipfs_routing_online_find_providers nd key key_size in
  match peers with
  | None => Ret (0, None, nd)
  | Some peers =>
    let! (v, nd) := get_value_connected dht_get (vector_each peers) nd key key_size in
    match v with
    | Some _ => Ret (1, v, nd)
    | None => let! (v, nd) := get_value_others (vector_each peers) nd key key_size in Ret (1, v, nd)
    end
  end.

(** ** Starting *)
(** a NULL item is dereferenced by [multiaddress_get_peer_id] *)
Fixpoint bootstrap_loop (l : list (option MultiAddress)) nd : res (Z * OnlineNode D N) :=
  match l with
  | [] => Ret (0, nd)
  | None :: _ => UB
  | Some address :: l =>
    let! peer_id := multiaddress_get_peer_id address in
    match peer_id with
    | None => bootstrap_loop l nd
    | Some peer_id =>
      let! i := read_str peer_id in
      if negb (malloc_ok sizeof_Libp2pPeer) then UB
      else if negb (malloc_ok (zlen i + 1)) then Ret (-1, nd)
      else if negb (malloc_ok sizeof_Libp2pLinkedList) then Ret (-1, nd)
      else
        let! copy := multiaddress_copy (Some address) in
        let peer := mkPeer (Some (i ++ [0])) (zlen i) [copy] CONNECTION_TYPE_NOT_CONNECTED None 0 in
        let! (_, ps) := libp2p_peerstore_add_peer (on_peerstore nd) (Some peer) in
        let nd := with_peers nd ps in
        let! found := libp2p_peerstore_get_peer_entry (Some ps) (Ptr peer_id) (zlen i) in
        match found with
        | None => Ret (-1, nd)
        | Some k =>
          let! p := entry_peer ps k in
          match sessionContext p with
          | Some _ => bootstrap_loop l nd
          | None =>
            let! (r, p, n) := libp2p_peer_connect p k (on_network nd) in
            let nd := with_peers (with_network nd n) (store_peer ps k p) in
            let! _ := if r =? 0 then libp2p_peer_id_to_string p else Ret [] in
            bootstrap_loop l nd
          end
        end
    end
  end.

Definition ipfs_routing_online_bootstrap nd : res (Z * OnlineNode D N) := bootstrap_loop (vector_each (on_bootstrap nd)) nd.

Definition sizeof_IpfsRouting : Z := 96.
Definition ipfs_routing_new_online nd : res (OnlineNode D N) :=
  if malloc_ok sizeof_IpfsRouting then
    let nd := mkOnlineNode (mkIpfsNode MODE_ONLINE (repo (on_repo nd))) (on_identity nd) (on_swarm_head nd) (on_bootstrap nd)
                (on_peerstore nd) (on_providerstore nd) (on_network nd) in
    let! (_, nd) := ipfs_routing_online_bootstrap nd in Ret nd
  else UB.
End online.

(** ** Lemmas *)
Section facts.
Context {M : Malloc} {Hm : MallocOk M} {Dk : Disk} {D N : Type} {Ds : Datastore D} {S : Sessions N}.
Implicit Types (n : N) (m : KademliaMessage) (nd : OnlineNode D N).

Lemma with_network_same nd : with_network nd (on_network nd) = nd.
Proof using. by destruct nd. Qed.

Lemma key_message_ok t k rest : key_message t (k ++ rest) (zlen k) = Ret (Some (new_message t k (zlen k))).
Proof using Hm. unfold key_message, libp2p_message_new. rewrite !malloc_always, memrd_app by done. done. Qed.

Lemma new_message_ok t k : 0 <= t < 2 ^ 32 -> zlen k + 44 <= INT_MAX ->
  kademlia_ok (new_message t k (zlen k)) /\ message_key (new_message t k (zlen k)) = Some k.
Proof using.
  intros Ht Hk. zlen_facts. split.
  - unfold new_message, kademlia_ok, kademlia_size_bound. cbn [message_type cluster_level_raw km_key_size km_key km_record closer_peer_head provider_peer_head from_option].
    split_and!; try done; try lia; try constructor; change (peers_total []) with 0; change (libp2p_record_protobuf_encode_size None) with 0; lia.
  - unfold message_key, new_message. cbn. by rewrite ztake_all by lia.
Qed.

Lemma kademlia_blank_ok : kademlia_ok kademlia_blank.
Proof using. split_and!; try done; constructor. Qed.

(** *** One question *)
(** nothing is written on a session over yamux *)
Lemma send_nothing p i m n : sessionContext p = Some true -> over_yamux i n -> kademlia_ok m ->
  libp2p_routing_dht_send_message p i m n = Ret (0, n).
Proof using Hm.
  intros Hs Hy Hok. pose proof (kademlia_size_ok m Hok). zlen_facts. unfold libp2p_routing_dht_send_message.
  rewrite malloc_always, (kademlia_encode_emits m Hok) by (rewrite ?zlen_fresh by lia; lia). cbn [rbind].
  unfold libp2p_routing_dht_upgrade_stream, session_of. rewrite Hs. cbn [rbind]. by rewrite session_write_nothing.
Qed.

Lemma ask_nothing p i m n : sessionContext p = Some true -> over_yamux i n -> kademlia_ok m ->
  ipfs_routing_online_send_receive_message p i m n = Ret (None, n).
Proof using Hm. intros Hs Hy Hok. unfold ipfs_routing_online_send_receive_message. by rewrite send_nothing. Qed.

(** another stream takes the session for its own context *)
Lemma ask_undefined p i m n : sessionContext p = Some true -> over_other i n -> kademlia_ok m ->
  ipfs_routing_online_send_receive_message p i m n = UB.
Proof using Hm.
  intros Hs Hy Hok. pose proof (kademlia_size_ok m Hok). zlen_facts. unfold ipfs_routing_online_send_receive_message, libp2p_routing_dht_send_message.
  rewrite malloc_always, (kademlia_encode_emits m Hok) by (rewrite ?zlen_fresh by lia; lia). cbn [rbind].
  unfold libp2p_routing_dht_upgrade_stream, session_of. rewrite Hs. cbn [rbind]. by rewrite session_write_undefined.
Qed.

(** *** All peers *)
(** the session of a connected peer is over yamux *)
Definition silent n (i : nat) (e : PeerEntry) : Prop :=
  exists p, e = mkPeerEntry (Some p) /\ (exists b, memrd (deref (id p)) (id_size p) = Ret b) /\
    (connection_type p = CONNECTION_TYPE_CONNECTED -> sessionContext p = Some true /\ over_yamux i n).
Definition all_silent n (i : nat) (es : list PeerEntry) : Prop := forall k e, es !! k = Some e -> silent n (i + k) e.

Lemma all_silent_cons n i e es : all_silent n i (e :: es) -> silent n i e /\ all_silent n (Datatypes.S i) es.
Proof using.
  intros H. split; [rewrite <- (Nat.add_0_r i); by apply H|]. intros k e' He. rewrite Nat.add_succ_l, <- Nat.add_succ_r. by apply H.
Qed.

(** nobody is asked for providers *)
Lemma ask_nobody m nd : kademlia_ok m -> forall es i, all_silent (on_network nd) i es -> ask_for_providers es i m nd = Ret (None, nd).
Proof using Hm.
  intros Hok es. induction es as [|e es IH]; intros i H; [done|]. apply all_silent_cons in H as [(p & -> & _ & Hp) H]. cbn [ask_for_providers].
  destruct (Z.eqb_spec (connection_type p) CONNECTION_TYPE_CONNECTED) as [Hc|Hc]; [|by apply IH].
  destruct (Hp Hc) as [Hs Hy]. rewrite ask_nothing by done. cbn [rbind fmap option_fmap option_map]. rewrite with_network_same. by apply IH.
Qed.

(** nobody is told *)
Lemma tell_nobody m n : kademlia_ok m -> forall es i, all_silent n i es -> provide_loop es i m n = Ret n.
Proof using Hm.
  intros Hok es. induction es as [|e es IH]; intros i H; [done|]. apply all_silent_cons in H as [(p & -> & _ & Hp) H]. cbn [provide_loop].
  destruct (is_local p =? 0); cbn [andb]; [|by apply IH].
  destruct (Z.eqb_spec (connection_type p) CONNECTION_TYPE_CONNECTED) as [Hc|Hc]; [|by apply IH].
  destruct (Hp Hc) as [Hs Hy]. rewrite ask_nothing by done. cbn [rbind]. by apply IH.
Qed.

(** the search for a peer marks every connected peer as not connected *)
Definition cut_off (e : PeerEntry) : PeerEntry :=
  match e with
  | mkPeerEntry (Some p) =>
    if connection_type p =? CONNECTION_TYPE_CONNECTED then mkPeerEntry (Some (set_connection CONNECTION_TYPE_NOT_CONNECTED p)) else e
  | _ => e
  end.

Lemma search_cuts_off k rest : zlen k + 44 <= INT_MAX -> forall es pre nd, ps_entries (on_peerstore nd) = pre ++ es ->
  all_silent (on_network nd) (length pre) es ->
  ask_every_peer es (length pre) (k ++ rest) (zlen k) nd = Ret (0, None, with_peers nd (mkPeerstore (pre ++ (cut_off <$> es)))).
Proof using Hm.
  intros Hk es. induction es as [|e es IH]; intros pre nd Hes H.
  - cbn [ask_every_peer fmap list_fmap]. rewrite <- Hes. by destruct nd as [? ? ? ? [? ]].
  - apply all_silent_cons in H as [(p & -> & [b Hb] & Hp) H]. cbn [ask_every_peer]. unfold ipfs_routing_online_ask_peer_for_peer, libp2p_message_new.
    cbn [fmap list_fmap cut_off]. rewrite (cons_middle (mkPeerEntry _)), app_assoc in Hes.
    destruct (Z.eqb_spec (connection_type p) CONNECTION_TYPE_CONNECTED) as [Hc|Hc].
    + destruct (Hp Hc) as [Hs Hy]. rewrite !malloc_always, memrd_app by done. cbn [rbind].
      rewrite ask_nothing by first [done|apply new_message_ok; [done|lia]]. cbn [rbind]. rewrite Hb. cbn [rbind].
      set (p' := set_connection CONNECTION_TYPE_NOT_CONNECTED p). rewrite with_network_same.
      specialize (IH (pre ++ [mkPeerEntry (Some p')]) (with_peers nd (store_peer (on_peerstore nd) (length pre) p'))).
      rewrite length_app, Nat.add_1_r in IH. rewrite IH; [by rewrite <- app_assoc| |done].
      cbn [with_peers on_peerstore store_peer ps_entries]. rewrite Hes, <- !app_assoc. cbn [app]. by rewrite (insert_app_r_alt _ _ (length pre)), Nat.sub_diag by lia.
    + cbn [rbind]. specialize (IH (pre ++ [mkPeerEntry (Some p)]) nd). rewrite length_app, Nat.add_1_r in IH. rewrite IH by done. by rewrite <- app_assoc.
Qed.

Lemma known_position ids ps (n : nat) i l p : store_with ids ps -> ids !! n = Some (i, l) -> id p = Some i -> id_size p = zlen i ->
  get_or_add_position ps p = Ret (Some n, ps).
Proof using.
  intros Hs Hn Hi Hz. unfold get_or_add_position. rewrite Hi, Hz. cbn [to_ptr].
  pose proof (get_entry_ok i [] ids ps Hs) as E. rewrite app_nil_r in E. rewrite E. cbn [rbind].
  destruct (list_find _ ids) as [[n' [j k]]|] eqn:Ef; cbn [fmap option_fmap option_map fst].
  - apply list_find_Some in Ef as (Hn' & Hj & _). cbn in Hj. subst j. do 3 f_equal.
    apply (NoDup_lookup (fst <$> ids) n' n i (proj2 Hs)); rewrite list_lookup_fmap; [by rewrite Hn'|by rewrite Hn].
  - apply list_find_None in Ef. apply list_elem_of_lookup_2 in Hn. by apply (proj1 (Forall_forall _ _) Ef) in Hn.
Qed.

Lemma store_peer_ok ids ps (n : nat) i l p : store_with ids ps -> ids !! n = Some (i, l) -> entry_with i l (mkPeerEntry (Some p)) ->
  store_with ids (store_peer ps n p) /\ entry_peer (store_peer ps n p) n = Ret p.
Proof using.
  intros [Hs Hnd] Hn He. pose proof (Forall2_length _ _ _ Hs) as Hlen. apply lookup_lt_Some in Hn as Hlt. split.
  - split; [|done]. cbn [store_peer ps_entries]. rewrite <- (list_insert_id ids n (i, l) Hn). by apply Forall2_insert.
  - unfold entry_peer, store_peer. cbn [ps_entries]. by rewrite list_lookup_insert_eq by lia.
Qed.

(** a peer without a session is not connected *)
Lemma no_session_connected i l c : sessionContext c = None -> entry_with i l (mkPeerEntry (Some c)) ->
  exists c', libp2p_peer_is_connected c = (0, c') /\ libp2p_peer_is_connected c' = (0, c') /\ connection_type c' <> CONNECTION_TYPE_CONNECTED /\
    sessionContext c' = None /\ is_local c' = is_local c /\ addr_head c' = addr_head c /\ entry_with i l (mkPeerEntry (Some c')).
Proof using.
  intros Hs (p & xs & [= <-] & Hi & Hz & Hnz & Ha & Hx & Hc). unfold libp2p_peer_is_connected. rewrite Hs.
  destruct (Z.eqb_spec (connection_type c) CONNECTION_TYPE_CONNECTED) as [E|E].
  - eexists. split; [reflexivity|]. split; [done|]. split; [done|]. split; [done|]. split; [done|]. split; [done|].
    eexists _, xs. repeat (split; [done|]). done.
  - rewrite (proj2 (Z.eqb_neq _ _) E). eexists. split; [reflexivity|]. rewrite !(proj2 (Z.eqb_neq _ _) E). repeat (split; [done|]).
    exists c, xs. by repeat (split; [done|]).
Qed.

(** the peers that are not connected are not asked *)
Definition not_connected (e : PeerEntry) : Prop := exists p, e = mkPeerEntry (Some p) /\ connection_type p <> CONNECTION_TYPE_CONNECTED.

Lemma ask_skip es es' m nd : Forall not_connected es -> forall i,
  ask_for_providers (es ++ es') i m nd = ask_for_providers es' (length es + i) m nd.
Proof using.
  induction 1 as [|e es (p & -> & Hp) _ IH]; intros i; [done|]. cbn [app ask_for_providers length].
  rewrite (proj2 (Z.eqb_neq _ _) Hp), IH. f_equal. lia.
Qed.

(** *** The own address *)
(** the address a node tells the others *)
Definition loopback (port : Z) (t : bytes) : list component := [Ip4 127 0 0 1; Tcp port; Ipfs t].

Lemma loopback_printable port t : 0 < port < 10000 -> is_bytes t -> zlen t = 32 ->
  printable (loopback port t) /\ zlen (address_bytes (loopback port t)) < 50 /\ zlen (address_string (loopback port t)) < 100 /\
  head (address_bytes (loopback port t)) = Some 4 /\
  txt "/ip4/127.0.0.1/tcp/" ++ dec port ++ txt "/ipfs/" ++ peer_text t ++ [47] = address_string (loopback port t) ++ [47].
Proof using.
  intros Hp Ht Hl. pose proof (peer_text_length t Ht Hl) as H46.
  assert (zlen (dec port) <= 4) as Hd.
  { unfold dec, zlen. rewrite length_fmap. pose proof (show_length 10 ltac:(lia) port 4 ltac:(lia)) as Hs. unfold zlen in Hs. lia. }
  assert (address_string (loopback port t) = txt "/ip4/127.0.0.1/tcp/" ++ dec port ++ txt "/ipfs/" ++ peer_text t) as Es.
  { unfold loopback. rewrite !address_string_cons. change (address_string []) with (@nil Z). rewrite app_nil_r.
    unfold component_text, component_words, delimited. cbn [fmap list_fmap concat]. rewrite <- !app_assoc.
    assert (ip4_text 127 0 0 1 = txt "127.0.0.1") as -> by (vm_compute; reflexivity). rewrite !app_nil_r. done. }
  assert (address_bytes (loopback port t) = [4; 127; 0; 0; 1; 6; port / 256; port mod 256; 42; 196; 18; 32] ++ t) as Eb.
  { unfold loopback, address_bytes. cbn [mbind list_bind component_bytes port_bytes peer_hash].
    assert (show 256 (num 256 [127; 0; 0; 1]) = [127; 0; 0; 1]) as -> by (vm_compute; reflexivity). by rewrite app_nil_r. }
  assert (zlen (address_string (loopback port t)) < 100) as Hs.
  { rewrite Es, !zlen_app, H46. change (zlen (txt "/ip4/127.0.0.1/tcp/")) with 19. change (zlen (txt "/ipfs/")) with 6. lia. }
  assert (zlen (address_bytes (loopback port t)) = 44) as Hb by (rewrite Eb, zlen_app, Hl; reflexivity).
  split_and!.
  - split; [|split; [|split]].
    + split; [done|]. split; [|rewrite Hb; lia]. unfold loopback.
      repeat (constructor; [cbn [component_ok]; first [lia|done|repeat constructor; unfold byte_range; lia]|]). constructor.
    + unfold loopback. repeat (constructor; [cbn [canonical]; done || lia|]). constructor.
    + done.
    + unfold loopback. repeat (constructor; [cbn [short_port]; done || lia|]). constructor.
  - lia.
  - done.
  - by rewrite Eb.
  - rewrite Es. by rewrite <- !app_assoc.
Qed.

(** the node's own peer, as the others get it *)
Lemma build_local_ok nd t r l ma0 port : peer_with (peer_text t) l (on_identity nd) -> deref (id (on_identity nd)) = peer_text t ++ 0 :: r ->
  is_bytes t -> zlen t = 32 -> multiaddress_new_from_string (on_swarm_head nd) = Ret (Some ma0) -> multiaddress_get_ip_port ma0 = Ret port ->
  0 < port < 10000 ->
  exists q, ipfs_routing_online_build_local_peer nd = Ret q /\ peer_encodable q /\ peer_id_bytes q = peer_text t /\ id_size q = 46 /\
    peer_desc q = (peer_text t, [address_bytes (loopback port t)]) /\ zlen (addr_head q) = 1.
Proof using Hm.
  intros Hw Hid Ht Hl Hma0 Hport Hp. destruct (loopback_printable port t Hp Ht Hl) as (Hpr & Hb & Hs & Hh & Ets). pose proof (peer_text_length t Ht Hl) as H46.
  destruct (peer_text_piece t Ht Hl) as [_ Hnz]. unfold ipfs_routing_online_build_local_peer.
  destruct (peer_copied _ _ _ Hw ltac:(lia)) as (c & -> & (c0 & xs & [= <-] & Hci & Hcz & _)). cbn [rbind]. rewrite malloc_always, Hma0. cbn [rbind]. rewrite Hport. cbn [rbind].
  rewrite Hid, read_str_nul by done. cbn [rbind]. rewrite (proj2 (Z.ltb_ge port 0)) by lia. rewrite Ets.
  zlen_facts. unfold strcpy_into. rewrite (proj2 (Z.ltb_lt _ _)) by (rewrite zlen_app; change (zlen [47]) with 1; lia). cbn [rbind].
  unfold str_object. rewrite zlen_app. change (zlen [47]) with 1.
  replace (Z.to_nat (255 - (zlen (address_string (loopback port t)) + 1))) with (Datatypes.S (Z.to_nat (254 - (zlen (address_string (loopback port t)) + 1)))) by lia.
  cbn [replicate]. rewrite new_from_string_ok by (by apply Hpr || by right). cbn [rbind]. eexists. split; [reflexivity|].
  unfold peer_encodable, peer_id_bytes, peer_desc, peer_id_bytes. cbn [id id_size addr_head connection_type omap list_omap present fmap list_fmap ma_bytes pderef].
  rewrite Hci, Hcz, H46. change (deref (Some (peer_text t))) with (peer_text t). rewrite ztake_all by lia.
  split_and!; try done; try lia. constructor; [|constructor]. exists (loopback port t). by split_and!.
Qed.
End facts.

(** ** Properties *)
Section situations.
Context {D N : Type} {S : Sessions N}.
Implicit Types nd : OnlineNode D N.

(** the node is the peer with the digest [t], and the port of its first address is [port] *)
Definition own_peer {M : Malloc} nd (t : bytes) (port : Z) : Prop :=
  is_bytes t /\ zlen t = 32 /\ 0 < port < 10000 /\
  exists r la ma, peer_with (peer_text t) la (on_identity nd) /\ deref (id (on_identity nd)) = peer_text t ++ 0 :: r /\
    multiaddress_new_from_string (on_swarm_head nd) = Ret (Some ma) /\ multiaddress_get_ip_port ma = Ret port.

(** the sessions of all connected peers are over yamux *)
Definition sessions_over_yamux nd : Prop :=
  forall i p, entry_peer (on_peerstore nd) i = Ret p -> connection_type p = CONNECTION_TYPE_CONNECTED ->
    sessionContext p = Some true /\ over_yamux i (on_network nd).

(** the session of the first connected peer is over another stream *)
Definition first_over_other nd : Prop :=
  exists es p es', ps_entries (on_peerstore nd) = es ++ mkPeerEntry (Some p) :: es' /\ Forall not_connected es /\
    connection_type p = CONNECTION_TYPE_CONNECTED /\ sessionContext p = Some true /\ over_other (length es) (on_network nd).

(** the node neither has the value of the key nor was told who has it *)
Definition does_not_know {Ds : Datastore D} nd (k : bytes) : Prop :=
  (exists l, providers l (on_providerstore nd) /\ announced k l = None) /\
  datastore_get k (Merkledag.datastore (repo (on_repo nd))) = None /\ exists s, libp2p_peer_id_to_string (on_identity nd) = Ret s.

Lemma store_silent ids nd : store_with ids (on_peerstore nd) -> sessions_over_yamux nd -> all_silent (on_network nd) 0 (ps_entries (on_peerstore nd)).
Proof using.
  intros [Hs _] Hy k e He. destruct (Forall2_lookup_r _ _ _ _ _ Hs He) as ([i l] & _ & p & xs & Hp & Hi & Hz & _). destruct e as [q]. cbn [pe_peer fst] in *. subst q.
  exists p. split; [done|]. split; [exists i; rewrite Hi, Hz; by apply memrd_all|]. intros Hc. apply Hy; [|done]. unfold entry_peer. change (0 + k)%nat with k. by rewrite He.
Qed.
End situations.

(** Property C15.  Nothing is ever asked.  The asking side hands the session to the write of the
    default stream, which is yamux on every joined peer and finds neither a channel nor a
    connection in it: it writes nothing and returns 0.  So however many peers are connected, no
    providers are found and no value that is not known here; an announcement returns 1
    and nobody is told; a ping returns 0; and the search for a peer finds none, marks
    every connected peer as not connected, and changes nothing else.  If the first connected
    peer's default stream is any other stream, the search for providers is undefined
    behaviour: the stream uses the session as its own context. *)
Theorem nothing_is_asked {M : Malloc} {Hm : MallocOk M} {Dk : Disk} {D N : Type} {Ds : Datastore D} {S : Sessions N}
    (dht_get : bytes -> option bytes) (nd : OnlineNode D N) (ids : list (bytes * list bytes)) (k rest : bytes) :
  store_with ids (on_peerstore nd) -> zlen k + 2000 <= INT_MAX ->
  (sessions_over_yamux nd ->
   ipfs_routing_online_find_remote_providers nd (k ++ rest) (zlen k) = Ret (0, None, nd) /\
   (does_not_know nd k -> ipfs_routing_online_get_value dht_get nd (k ++ rest) (zlen k) = Ret (0, None, nd)) /\
   (forall t port, own_peer nd t port -> ipfs_routing_online_provide nd (k ++ rest) (zlen k) = Ret (1, nd)) /\
   (forall i p, entry_peer (on_peerstore nd) i = Ret p -> connection_type p = CONNECTION_TYPE_CONNECTED -> ipfs_routing_online_ping nd i = Ret (0, nd)) /\
   (k ∉ fst <$> ids ->
    ipfs_routing_online_find_peer nd (k ++ rest) (zlen k) = Ret (0, None, with_peers nd (mkPeerstore (cut_off <$> ps_entries (on_peerstore nd)))))) /\
  (first_over_other nd -> ipfs_routing_online_find_remote_providers nd (k ++ rest) (zlen k) = UB).
Proof.
  intros Hs Hk. zlen_facts.
  assert (forall t, 0 <= t < 2 ^ 32 -> kademlia_ok (new_message t k (zlen k))) as Hok by (intros t Ht; apply new_message_ok; [done|lia]). split.
  - intros Hy. pose proof (store_silent ids nd Hs Hy) as Hsil.
    assert (ipfs_routing_online_find_remote_providers nd (k ++ rest) (zlen k) = Ret (0, None, nd)) as Hfind.
    { unfold ipfs_routing_online_find_remote_providers. rewrite key_message_ok. cbn [rbind]. by rewrite ask_nobody by (done || by apply Hok). }
    split; [done|]. split; [|split; [|split]].
    + intros ((l & Hpv & Ha) & Hd & s & Hid). unfold ipfs_routing_online_get_value, ipfs_routing_online_find_providers.
      rewrite s32_small by (unfold INT_MAX in *; lia). rewrite (providerstore_get_ok _ l _ k rest Hpv), Hd, Ha. cbn [rbind fmap option_fmap option_map].
      rewrite Hid. cbn [rbind]. by rewrite Hfind.
    + intros t port (Ht & Htl & Hp & r & la & ma & Hw & Hid & Hma & Hport).
      destruct (build_local_ok nd t r la ma port Hw Hid Ht Htl Hma Hport Hp) as (q & Hq & Hqe & _ & Hqz & _ & Hqa). unfold ipfs_routing_online_provide.
      rewrite Hq. cbn [rbind]. rewrite key_message_ok. cbn [rbind]. rewrite malloc_always. rewrite (tell_nobody _ (on_network nd)) by first [exact Hsil|
        apply with_provider_ok; [done|by apply Hok|]; rewrite Hqz, Hqa; unfold kademlia_size_bound, new_message;
        cbn [km_key_size km_record closer_peer_head provider_peer_head]; change (peers_total []) with 0; change (libp2p_record_protobuf_encode_size None) with 0; lia].
      cbn [rbind]. by rewrite with_network_same.
    + intros i p Hp Hc. destruct (Hy i p Hp Hc) as [Hsess Hov]. unfold ipfs_routing_online_ping, libp2p_message_new. rewrite Hp, malloc_always. cbn [rbind]. rewrite Hc.
      change (CONNECTION_TYPE_CONNECTED =? CONNECTION_TYPE_CONNECTED) with true. cbn [negb rbind]. rewrite ?Hc. change (CONNECTION_TYPE_CONNECTED =? CONNECTION_TYPE_CONNECTED) with true. cbv iota.
      rewrite ask_nothing by first [done|apply kademlia_blank_ok]. cbn [rbind]. by rewrite with_network_same.
    + intros Hi. unfold ipfs_routing_online_find_peer, libp2p_peerstore_get_peer. rewrite (get_entry_ok k rest ids _ Hs).
      rewrite (proj2 (list_find_None _ ids)) by (apply Forall_forall; intros d Hd E; apply Hi, list_elem_of_fmap; by exists d).
      cbn [rbind fmap option_fmap option_map]. apply (search_cuts_off k rest ltac:(lia) _ []); [done|exact Hsil].
  - intros (es & p & es' & Hes & Hnc & Hc & Hsess & Hov). unfold ipfs_routing_online_find_remote_providers. rewrite key_message_ok. cbn [rbind].
    rewrite Hes, ask_skip by done. cbn [ask_for_providers]. rewrite Hc, Nat.add_0_r. change (CONNECTION_TYPE_CONNECTED =? CONNECTION_TYPE_CONNECTED) with true. cbv iota.
    by rewrite ask_undefined by (done || by apply Hok).
Qed.

(** Property C36.  When none of the addresses of the only provider that is known can be dialed,
    the search for the value returns 1, as with success, and sets no value; the peer is
    then marked as not connected, and nothing else has changed. *)
Theorem unreachable_is_success {M : Malloc} {Hm : MallocOk M} {Dk : Disk} {D N : Type} {Ds : Datastore D} {S : Sessions N}
    (dht_get : bytes -> option bytes) (nd : OnlineNode D N) (k rest i : bytes) (l : list (bytes * bytes))
    (ids : list (bytes * list bytes)) (la : list bytes) (j : nat) (p : Libp2pPeer) :
  providers l (on_providerstore nd) -> announced k l = Some i -> datastore_get k (Merkledag.datastore (repo (on_repo nd))) = None ->
  (exists s, libp2p_peer_id_to_string (on_identity nd) = Ret s) -> zlen k < 2 ^ 31 -> zlen i < 100 ->
  store_with ids (on_peerstore nd) -> ids !! j = Some (i, la) -> entry_peer (on_peerstore nd) j = Ret p -> is_local p = 0 ->
  sessionContext p = None -> Forall (unreachable (on_network nd)) (addr_head p) ->
  exists p', ipfs_routing_online_get_value dht_get nd (k ++ rest) (zlen k) =
      Ret (1, None, with_peers nd (store_peer (on_peerstore nd) j p')) /\ connection_type p' <> CONNECTION_TYPE_CONNECTED.
Proof.
  intros Hpv Ha Hd [s0 Hid0] Hkl Hil Hs Hj Hp Hloc Hsess Hnet. zlen_facts.
  destruct (entry_at ids _ j i la Hs Hj) as (q & xs & Hq & Hi & Hz & Hnz & Hax & Hx & Hct). rewrite Hp in Hq. injection Hq as <-.
  assert (entry_with i la (mkPeerEntry (Some p))) as He by (by exists p, xs).
  destruct (no_session_connected i la p Hsess He) as (p' & E1 & E2 & Hct' & Hs' & Hl' & Had & He'). rewrite Hloc in Hl'.
  destruct (store_peer_ok _ _ j i la p' Hs Hj He') as [Hst Hent].
  assert (forall c, entry_with i la (mkPeerEntry (Some c)) -> exists s, libp2p_peer_id_to_string c = Ret s) as Hprint.
  { intros c (c0 & ys & [= <-] & Hci & Hcz & _). apply (id_printed i c Hcz); [exists []; rewrite Hci; by rewrite app_nil_r|lia]. }
  destruct (Hprint p He) as [s1 Hp1]. destruct (Hprint p' He') as [s2 Hp2].
  exists p'. split; [|done]. unfold ipfs_routing_online_get_value, ipfs_routing_online_find_providers. rewrite s32_small by lia.
  rewrite (providerstore_get_ok _ l _ k rest Hpv), Hd, Ha. cbn [rbind fmap option_fmap option_map]. rewrite Hid0. cbn [rbind].
  rewrite u64_small by lia. pose proof (get_entry_ok i [] ids _ Hs) as Hg. rewrite app_nil_r in Hg. rewrite Hg. cbn [rbind].
  pose proof (known_position ids _ j i la p Hs Hj Hi Hz) as Hkp. unfold get_or_add_position in Hkp. rewrite Hi, Hz in Hkp. cbn [to_ptr] in Hkp. rewrite Hg in Hkp. cbn [rbind] in Hkp.
  destruct (list_find _ ids) as [[j' [i' k']]|] eqn:Ef; cbn [fmap option_fmap option_map fst] in *;
    [|apply list_find_None in Ef; apply list_elem_of_lookup_2 in Hj; by apply (proj1 (Forall_forall _ _) Ef) in Hj].
  injection Hkp as ->. rewrite Hp. cbn [rbind]. rewrite Hp1, vector_new_of. cbn [rbind]. rewrite vector_add_of by (change (zlen (@nil (option nat))) with 0; lia).
  cbn [rbind app]. rewrite vector_each_items. cbn [vector_of v_items get_value_connected get_value_others]. rewrite Hp. cbn [rbind].
  rewrite (known_position ids _ j i la p Hs Hj Hi Hz). cbn [rbind with_peers on_peerstore]. rewrite Hp. cbn [rbind]. rewrite Hloc. change (negb (0 =? 0)) with false. cbv iota.
  rewrite E1. change (0 =? 0) with true. cbv iota. cbn [rbind with_peers on_peerstore]. rewrite Hent. cbn [rbind]. rewrite Hl'. change (negb (0 =? 0)) with false. cbv iota.
  rewrite E2. change (negb (0 =? 0)) with false. cbv iota. unfold libp2p_peer_connect. rewrite (proj2 (Z.eqb_neq _ _) Hct'). cbn [andb]. rewrite Hp2.
  cbn [rbind with_peers with_network on_peerstore on_network rbind]. rewrite join_nobody by (by rewrite Had). cbn [rbind]. change (0 =? 0) with true. cbv iota. cbn [rbind].
  do 2 f_equal. unfold with_peers, with_network, store_peer. cbn. by rewrite !list_insert_insert_eq.
Qed.


(** sessions with the type of their default stream and their first byte, in a network without
    another node *)
#[export] Instance lonely_sessions : Sessions (gmap nat (Z * Z)) := {
  socket_connect host port n := (-1, n);
  open_session i host port n := n;
  swarm_add_peer i n := n;
  multistream_ready i n := (0, n);
  secio_stream_new i n := (false, n);
  secio_ready i n := (0, n);
  handshake_done i n := false;
  yamux_stream_new i n := (false, n);
  yamux_stream_ready i n := (0, n);
  identify_handler n := false;
  channel_new i n := (None, n);
  channel_multistream i n := (0, n);
  identify_stream_new i n := n;
  default_stream i n := fst <$> n !! i;
  session_first_byte i n := from_option snd 0 (n !! i)
}.

Definition ex_digest : bytes := replicate 32%nat 7.
Definition ex_own (i : bytes) : Libp2pPeer := mkPeer (Some (i ++ [0])) (zlen i) [] CONNECTION_TYPE_NOT_CONNECTED None 1.
Definition ex_tracker : Libp2pPeer := mkPeer (Some [1; 2]) 2 [] CONNECTION_TYPE_CONNECTED (Some true) 0.

(** a node with the id [i] that is connected to a tracker, with what it was told *)
Definition ex_online (i : bytes) (told : ProviderStore) (n : gmap nat (Z * Z)) : OnlineNode (gmap bytes DatastoreRecord) (gmap nat (Z * Z)) :=
  mkOnlineNode (mkIpfsNode MODE_ONLINE (mkRepo [] ∅ ∅)) (ex_own i) (lit "/ip4/127.0.0.1/tcp/4001") (mkVector 0 0 [])
    (mkPeerstore [mkPeerEntry (Some (mkPeer (Some i) (zlen i) [] CONNECTION_TYPE_NOT_CONNECTED None 1)); mkPeerEntry (Some ex_tracker)]) told n.

Lemma ex_online_stores i told n : 0 < zlen i -> i <> [1; 2] -> store_with [(i, []); ([1; 2], [])] (on_peerstore (ex_online i told n)).
Proof.
  intros Hi Hne. split.
  - constructor; [|constructor; [|constructor]].
    + exists (mkPeer (Some i) (zlen i) [] CONNECTION_TYPE_NOT_CONNECTED None 1), []. repeat split; [done|constructor|vm_compute; discriminate].
    + exists ex_tracker, []. repeat split; [constructor|vm_compute; discriminate].
  - apply NoDup_cons. split; [|apply NoDup_singleton]. by intros ?%list_elem_of_singleton.
Qed.

Lemma nothing_is_asked_witness :
  let M := malloc_total in let Dk := disk_total in
  let node t := ex_online (peer_text ex_digest) (provider_store sample_dht) {[1%nat := (t, 16)]} in
  ipfs_routing_online_provide (node STREAM_TYPE_YAMUX) [107; 1] 2 = Ret (1, node STREAM_TYPE_YAMUX) /\
  ipfs_routing_online_find_remote_providers (node STREAM_TYPE_YAMUX) [107; 1] 2 = Ret (0, None, node STREAM_TYPE_YAMUX) /\
  (exists nd, ipfs_routing_online_find_peer (node STREAM_TYPE_YAMUX) [107; 1] 2 = Ret (0, None, nd) /\
    (connection_type <$> omap pe_peer (ps_entries (on_peerstore nd))) = [0; 0]) /\
  ipfs_routing_online_find_remote_providers (node STREAM_TYPE_MULTISTREAM) [107; 1] 2 = UB.
Proof.
  intros M Dk node. pose proof (fun t => nothing_is_asked (M := malloc_total) (Dk := disk_total) (fun _ => None) (node t) [(peer_text ex_digest, []); ([1; 2], [])] [107; 1] []
    (ex_online_stores (peer_text ex_digest) _ _ ltac:(reflexivity) ltac:(vm_compute; discriminate)) ltac:(vm_compute; discriminate)) as H.
  destruct (H STREAM_TYPE_YAMUX) as [(Hf & _ & Hp & _ & Hs) _].
  { intros i p. destruct i as [|[|i]]; unfold entry_peer; cbn; [intros [= <-]; discriminate|intros [= <-] _|done]. split; [done|].
    split; [reflexivity|]. split; vm_compute; discriminate. }
  split; [|split; [exact Hf|split]].
  - apply (Hp ex_digest 4001). split; [apply Forall_replicate; unfold byte_range; lia|]. split; [reflexivity|]. split; [lia|]. eexists [], [], _.
    split; [|split; [reflexivity|split; [vm_compute; reflexivity|vm_compute; reflexivity]]].
    split; [reflexivity|]. split; [exists [0]; reflexivity|]. split; [constructor|vm_compute; split; congruence].
  - eexists. split; [apply Hs|reflexivity]. intros [E|E%list_elem_of_singleton]%elem_of_cons; vm_compute in E; discriminate.
  - apply (H STREAM_TYPE_MULTISTREAM). exists [mkPeerEntry (Some (mkPeer (Some (peer_text ex_digest)) 46 [] CONNECTION_TYPE_NOT_CONNECTED None 1))], ex_tracker, [].
    split; [reflexivity|]. split; [constructor; [|constructor]; eexists; split; [reflexivity|discriminate]|]. split; [done|]. split; [done|].
    exists STREAM_TYPE_MULTISTREAM. split; [reflexivity|discriminate].
Defined.

Lemma unreachable_is_success_witness :
  let M := malloc_total in let Dk := disk_total in
  let address := mkMultiAddress (Ptr (lit "/ip4/10.0.0.1/tcp/4001")) (Ptr [4; 10; 0; 0; 1; 6; 15; 161]) 8 in
  let store p := mkPeerstore [mkPeerEntry (Some (mkPeer (Some [9; 9]) 2 [] CONNECTION_TYPE_NOT_CONNECTED None 1)); mkPeerEntry (Some p)] in
  let gone t := mkPeer (Some [1; 2]) 2 [Some address] t None 0 in
  let nd := mkOnlineNode (mkIpfsNode MODE_ONLINE (mkRepo [] ∅ (∅ : gmap bytes DatastoreRecord))) (ex_own [9; 9]) [0] (mkVector 0 0 [])
    (store (gone 1)) (mkProviderStore (mkVector 4 4 [Some (mkProvider [107; 1] 2 [1; 2] 2)]) peer_blank) (∅ : gmap nat (Z * Z)) in
  exists nd', ipfs_routing_online_get_value (fun _ => None) nd [107; 1] 2 = Ret (1, None, nd').
Proof.
  intros M Dk address store gone nd.
  destruct (unreachable_is_success (M := malloc_total) (Dk := disk_total) (fun _ => None) nd [107; 1] [] [1; 2] [([107; 1], [1; 2])]
    [([9; 9], []); ([1; 2], [[4; 10; 0; 0; 1; 6; 15; 161]])] [[4; 10; 0; 0; 1; 6; 15; 161]] 1%nat (gone 1)) as (p' & E & _).
  - split; [vm_compute; repeat split; discriminate|]. exists [mkProvider [107; 1] 2 [1; 2] 2]. split; [reflexivity|]. by repeat constructor.
  - reflexivity.
  - reflexivity.
  - by eexists.
  - reflexivity.
  - reflexivity.
  - split.
    + constructor; [|constructor; [|constructor]].
      * eexists _, []. split; [reflexivity|]. repeat split; [constructor|vm_compute; discriminate].
      * eexists _, [address]. split; [reflexivity|]. repeat split; [|vm_compute; discriminate]. constructor; [|constructor].
        exists (txt "/ip4/10.0.0.1/tcp/4001"), []. split; [reflexivity|]. split; [by apply txt_nonzero|]. split; [done|]. split; [done|]. split; [done|].
        repeat constructor; unfold byte_range; lia.
    + apply NoDup_cons. split; [|apply NoDup_singleton]. intros E%list_elem_of_singleton. discriminate.
  - reflexivity.
  - reflexivity.
  - reflexivity.
  - reflexivity.
  - constructor; [|constructor]. vm_compute. reflexivity.
  - eexists. exact E.
Defined.
