(* ===== verification/Ipns.v ===== *)
(** * Names that move (libipfs/namesys/publisher.c, resolver.c)

    A node publishes a path under the hash of its id: the path goes into its own datastore and,
    as a PUT_VALUE message, to the peers it can reach.  A name "/ipns/<id>" is resolved in the
    local datastore, step by step until the path is no name any more.  Publishing is proved on
    the datastore of the repository, lmdb ([Lmdb]). *)
From Stdlib Require Import String.
From S2P Require Import Prelude Varint Digits Protobuf Multihash Cid Block Record Base58 Base32 Vector CString Hex Multiaddr Peer.
From S2P Require Import Files Datastore Paths Blockstore Node Merkledag KademliaMessage Peerstore Providerstore Dht CidText Exporter Lmdb Dialer Online.

Definition IpnsEntry_EOL : Z := 0.

(** the texts of a [struct ipns_entry] that are used; [validityType] is the number it points to *)
Record ipns_entry := mkIpnsEntry {
  ie_value : option bytes;
  ie_signature : option bytes;
  ie_validityType : option Z;
  ie_validity : option bytes;
  ie_sequence : option Z;
  ie_ttl : option Z
}.

(** a number of four bytes in memory *)
Definition int32_bytes (v : Z) : bytes := [u8 v; u8 (v / 2 ^ 8); u8 (v / 2 ^ 16); u8 (v / 2 ^ 24)].

Section names.
Context {M : Malloc}.

(** the two texts, the number, and a zero byte *)
Definition ipns_entry_data_for_sig (entry : option ipns_entry) : res (option bytes) :=
  match entry with
  | Some (mkIpnsEntry (Some value) _ validityType (Some validity) _ _) =>
    let! v := read_str value in
    let! w := read_str validity in
    if malloc_ok (zlen v + zlen w + 4 + 1) then
      Ret (Some (v ++ w ++ int32_bytes (default IpnsEntry_EOL validityType) ++ [0]))
    else Ret None
  | _ => Ret None
  end.

(** what is pointed to is released; the cache and the end of life are left *)
Definition ipfs_namesys_ipnsentry_reset (m : option ipns_entry) : option ipns_entry :=
  match m with Some _ => Some (mkIpnsEntry None None None None None None) | None => None end.

Definition ipfs_namesys_pb_new_ipns_entry : option ipns_entry :=
  if malloc_ok 64 then Some (mkIpnsEntry None None None None None None) else None.

(** the choice among records and the test of one are comments in the code *)
Definition ipns_select_record : Z := 0.
Definition ipns_validate_ipns_record : Z := 0.

(** the pointers are there or NULL; a second record is written behind the pointer of the caller *)
Definition ipns_selector_func (idx recs k : bool) (vals : option (list bytes)) : res Z :=
  match vals with
  | Some vals =>
    if idx && recs && k then
      if negb (malloc_ok (8 * (zlen vals + 1))) then Ret ErrAllocFailed
      else
        match vals with
        | [] => Ret ipns_select_record
        | v :: vals => if malloc_ok 64 then match vals with [] => Ret ipns_select_record | _ => UB end else Ret ErrAllocFailed
        end
    else Ret ErrInvalidParam
  | None => Ret ErrInvalidParam
  end.

(** [None]: returned 0 *)
Definition ipfs_namesys_copy_bytes (from : bytes) (from_size : Z) : res (option (bytes * Z)) :=
  if malloc_ok from_size then let! b := memrd from from_size in Ret (Some (b, from_size)) else Ret None.

(** ** Resolving *)
Definition is_ipns_string (path : option bytes) : res Z :=
  match path with
  | None => Ret 0
  | Some p => let! s := read_str p in Ret (if bool_decide (c_strstr s (txt "/ipns/") = Some 0) then 1 else 0)
  end.

Section resolver.
Context {D : Type} {Ds : Datastore D}.

(** the result and [*results]; the caller's path is not used afterwards *)
Definition ipfs_namesys_resolver_resolve_once (d : D) (path : bytes) : res (Z * option bytes) :=
  let! (cid, _) := ipfs_cid_decode_hash_from_ipfs_ipns_string (Some path) in
  match cid with
  | None => Ret (0, None)
  | Some cid =>
    let! key := memrd (deref (cid_hash cid)) (cid_hash_length cid) in
    match datastore_get key d with
    | None => Ret (0, None)
    | Some record =>
      if malloc_ok (u64 (rec_value_size record + 1)) then
        let! v := memrd (deref (rec_value record)) (rec_value_size record) in Ret (1, Some (v ++ [0]))
      else Ret (0, None)
    end
  end.

(** [n] is 11 - [counter]; a copy that fails is not tested and ends the loop *)
Fixpoint resolve_loop (n : nat) (d : D) (current_path : bytes) (recursive : Z) : res (Z * option bytes) :=
  match n with
  | O => Ret (0, None)
  | S n =>
    let! (r, result) := ipfs_namesys_resolver_resolve_once d current_path in
    if r =? 0 then Ret (0, None)
    else
      let! s := read_str (deref result) in
      let current_path := if malloc_ok (zlen s + 1) then Some (s ++ [0]) else None in
      let! again := if negb (recursive =? 0) then is_ipns_string current_path else Ret 0 in
      match current_path with
      | Some p => if negb (again =? 0) then resolve_loop n d p recursive else Ret (1, Some p)
      | None => Ret (1, None)
      end
  end.

Definition ipfs_namesys_resolver_resolve (d : D) (path : bytes) (recursive : Z) : res (Z * option bytes) :=
  let! s := read_str path in
  if malloc_ok (zlen s + 1) then resolve_loop 11 d (s ++ [0]) recursive else Ret (0, None).
End resolver.

(** ** Publishing *)
Section publisher.
Context {D N : Type} {S : Sessions N}.
(** [datastore->datastore_put] *)
Context (put : DatastoreRecord -> D -> res (Z * D)).
Implicit Types nd : OnlineNode D N.

Definition with_store nd (d : D) : OnlineNode D N :=
  mkOnlineNode (mkIpfsNode (mode (on_repo nd)) (mkRepo (path (repo (on_repo nd))) (repo_files (repo (on_repo nd))) d))
    (on_identity nd) (on_swarm_head nd) (on_bootstrap nd) (on_peerstore nd) (on_providerstore nd) (on_network nd).

(** what is sent: the record has the hash as author and as key; the message has no key *)
Definition publish_message nd (hash : bytes) (hash_length : Z) (path : bytes) (size : Z) : res (option KademliaMessage) :=
  match libp2p_message_new with
  | None => Ret None
  | Some _ =>
    let! peers := peer_list (on_identity nd) in
    if negb (malloc_ok sizeof_Libp2pRecord) then Ret None
    else
      let! author := ipfs_namesys_copy_bytes hash hash_length in
      let! key := ipfs_namesys_copy_bytes hash hash_length in
      let! value := ipfs_namesys_copy_bytes path size in
      Ret (match author, key, value with
           | Some (a, an), Some (k, kn), Some (v, vn) =>
             Some (mkKademlia MESSAGE_TYPE_PUT_VALUE None 0 (Some (Record.mkRecord (Some k) kn (Some v) vn (Some a) an None 0 None 0)) [] peers 0)
           | _, _, _ => None
           end)
  end.

(** how many peers it was sent to is not looked at *)
Definition ipfs_namesys_publisher_publish nd (path : bytes) : res (Z * OnlineNode D N) :=
  match libp2p_datastore_record_new with
  | None => Ret (0, nd)
  | Some _ =>
    let! local_peer := ipfs_cid_decode_hash_from_base58 (deref (id (on_identity nd))) (id_size (on_identity nd)) in
    match local_peer with
    | None => Ret (0, nd)
    | Some local_peer =>
      let hash := deref (cid_hash local_peer) in
      let! key := ipfs_namesys_copy_bytes hash (cid_hash_length local_peer) in
      match key with
      | None => Ret (0, nd)
      | Some (k, kn) =>
        let! size := strlen path in
        let! value := ipfs_namesys_copy_bytes path size in
        match value with
        | None => Ret (0, nd)
        | Some (v, vn) =>
          let! (r, d) := put (mkRecord (Some k) kn (Some v) vn 0) (Merkledag.datastore (repo (on_repo nd))) in
          let nd := with_store nd d in
          if r =? 0 then Ret (0, nd)
          else
            let! msg := publish_message nd hash (cid_hash_length local_peer) path size in
            match msg with
            | None => Ret (0, nd)
            | Some msg =>
              let! (_, ps, n) := libp2p_routing_dht_send_message_nearest_x (on_peerstore nd) msg 10 (on_network nd) in
              Ret (1, with_peers (with_network nd n) ps)
            end
        end
      end
    end
  end.
End publisher.

(** lmdb's put for an open datastore, without what it does to the record *)
Definition lmdb_put {T : Type} {L : Lmdb T} (fuel : nat) (now : Z) (r : DatastoreRecord) (t : T) : res (Z * T) :=
  let! (n, _, c) := repo_fsrepo_lmdb_put fuel now r (Some (Some t)) in
  match c with Some (Some t) => Ret (n, t) | _ => UB end.
End names.

(** ** What names lead to *)
(** the name of a hash *)
Definition ipns_name (h : bytes) : bytes := ipns_prefix ++ cid_text h.
Definition is_name (path : bytes) : Prop := is_prefix ipns_prefix path = true.

Lemma strstr_nonneg s n k : c_strstr s n = Some k -> 0 <= k.
Proof.
  revert k. induction s as [|x s IH]; intros k; cbn [c_strstr]; (destruct (is_prefix n _); [intros [= <-]; lia|]); [done|].
  destruct (c_strstr s n) as [j|]; [|done]. intros [= <-]. specialize (IH j eq_refl). lia.
Qed.

Section steps.
Context {M : Malloc} {Hm : MallocOk M} {D : Type} {Ds : Datastore D}.
Implicit Types d : D.

(** the datastore has the text [q] under the hash [h] *)
Definition entry_of d (h q : bytes) : Prop :=
  is_bytes h /\ zlen h = 32 /\ nonzero q /\ zlen q < 2 ^ 62 /\
  exists r rest, datastore_get h d = Some r /\ rec_value r = Some (q ++ rest) /\ rec_value_size r = zlen q.

(** a name, or the path of an object, is looked up *)
Definition step d (p q : bytes) : Prop :=
  exists h pre, p = pre ++ cid_text h /\ (pre = txt "/ipfs/" \/ pre = txt "/ipns/") /\ entry_of d h q.

(** [n] steps, all but the last of which lead to a name *)
Inductive steps d : nat -> bytes -> bytes -> Prop :=
| steps_one p q : step d p q -> steps d 1 p q
| steps_more n p q r : step d p q -> is_name q -> steps d n q r -> steps d (S n) p r.

Lemma step_nonzero d p q : step d p q -> nonzero p /\ nonzero q /\ zlen q < 2 ^ 62.
Proof using.
  intros (h & pre & -> & Hpre & Hh & Hl & Hq & Hql & _). split; [|done]. apply Forall_app. split; [|by apply cid_text_nonzero].
  destruct Hpre as [-> | ->]; by apply txt_nonzero.
Qed.

Lemma resolve_once_ok d p q rest : step d p q ->
  ipfs_namesys_resolver_resolve_once d (p ++ 0 :: rest) = Ret (1, Some (q ++ [0])).
Proof using Hm.
  intros (h & pre & -> & Hpre & Hh & Hl & Hq & Hql & r & more & Hr & Hv & Hs). zlen_facts. unfold ipfs_namesys_resolver_resolve_once.
  rewrite <- app_assoc, from_ipfs_string by (done || by apply cid_text_nonzero). destruct (cid_text_digits h Hh Hl) as (_ & _ & _ & _ & H46).
  rewrite H46, decode_cid_text by done. cbn [rbind cid_hash cid_hash_length]. change (deref (Some h)) with h. rewrite memrd_all by done. cbn [rbind].
  rewrite Hr, malloc_always, Hv, Hs. change (deref (Some (q ++ more))) with (q ++ more). by rewrite memrd_app.
Qed.

Lemma is_ipns_ok q : nonzero q -> is_ipns_string (Some (q ++ [0])) = Ret (if is_prefix ipns_prefix q then 1 else 0).
Proof using.
  intros Hq. unfold is_ipns_string. rewrite read_str_nul by done. cbn [rbind]. do 2 f_equal. change (txt "/ipns/") with ipns_prefix.
  destruct (is_prefix ipns_prefix q) eqn:E.
  - rewrite (strstr_prefix q ipns_prefix E). done.
  - rewrite bool_decide_false; [done|]. intros Hc. destruct q as [|x q]; [done|]. cbn [c_strstr] in Hc. rewrite E in Hc.
    destruct (c_strstr q ipns_prefix) as [k|] eqn:Ek; [|done]. injection Hc as Hc. pose proof (strstr_nonneg _ _ _ Ek). lia.
Qed.

(** one turn of the loop *)
Lemma resolve_turn d n p q rest recursive : step d p q ->
  resolve_loop (Datatypes.S n) d (p ++ 0 :: rest) recursive =
    if negb (recursive =? 0) && is_prefix ipns_prefix q then resolve_loop n d (q ++ [0]) recursive else Ret (1, Some (q ++ [0])).
Proof using Hm.
  intros Hst. destruct (step_nonzero d p q Hst) as (_ & Hq & Hql). cbn [resolve_loop]. rewrite (resolve_once_ok d p q rest Hst). cbn [rbind].
  change (1 =? 0) with false. cbv iota. change (deref (Some (q ++ [0]))) with (q ++ [0]). rewrite read_str_nul by done. cbn [rbind].
  rewrite malloc_always. destruct (recursive =? 0); cbn [negb andb rbind]; [done|]. rewrite is_ipns_ok by done. cbn [rbind].
  by destruct (is_prefix ipns_prefix q).
Qed.

Lemma resolve_steps d n p q rest k : steps d n p q -> (n <= k)%nat -> is_prefix ipns_prefix q = false ->
  resolve_loop k d (p ++ 0 :: rest) 1 = Ret (1, Some (q ++ [0])).
Proof using Hm.
  intros Hst. revert k rest. induction Hst as [p q Hs|n p q r Hs Hq Hst IH]; intros k rest Hk Hend; (destruct k as [|k]; [lia|]); rewrite (resolve_turn d k p _ rest 1 Hs).
  - by rewrite Hend.
  - change (negb (1 =? 0)) with true. rewrite Hq. cbn [andb]. apply IH; [lia|done].
Qed.

Lemma resolve_gives_up d n p q rest : steps d n p q -> is_name q -> resolve_loop n d (p ++ 0 :: rest) 1 = Ret (0, None).
Proof using Hm.
  intros Hst. revert rest. induction Hst as [p q Hs|n p q r Hs Hq Hst IH]; intros rest Hend; rewrite (resolve_turn d _ p _ rest 1 Hs).
  - change (negb (1 =? 0)) with true. rewrite Hend. done.
  - change (negb (1 =? 0)) with true. rewrite Hq. cbn [andb]. by apply IH.
Qed.

Lemma resolve_start d p rest recursive : nonzero p -> ipfs_namesys_resolver_resolve d (p ++ 0 :: rest) recursive = resolve_loop 11 d (p ++ 0 :: []) recursive.
Proof using Hm. intros Hp. unfold ipfs_namesys_resolver_resolve. rewrite read_str_nul by done. cbn [rbind]. by rewrite malloc_always. Qed.

Lemma steps_start d n p q : steps d n p q -> nonzero p.
Proof using. intros [p' q' Hs|n' p' q' r Hs _ _]; by apply step_nonzero in Hs as [Hs _]. Qed.
End steps.

(** Property C37.  Resolving a name.  Without recursion the text that is stored for the name is
    the result, whatever it is.  With it the names are followed until one leads to
    something that is no name, if that takes at most eleven steps; when the eleventh step
    leads to a name again, as in a circle, the resolution fails, and it ends. *)
Theorem ipns_resolve {M : Malloc} {Hm : MallocOk M} {D : Type} {Ds : Datastore D} (d : D) (p q rest : bytes) :
  (step d p q -> ipfs_namesys_resolver_resolve d (p ++ 0 :: rest) 0 = Ret (1, Some (q ++ [0]))) /\
  (forall n, steps d n p q -> (n <= 11)%nat -> ~ is_name q -> ipfs_namesys_resolver_resolve d (p ++ 0 :: rest) 1 = Ret (1, Some (q ++ [0]))) /\
  (steps d 11 p q -> is_name q -> ipfs_namesys_resolver_resolve d (p ++ 0 :: rest) 1 = Ret (0, None)).
Proof.
  split_and!.
  - intros Hs. rewrite resolve_start by (by apply step_nonzero in Hs as [Hs _]). by rewrite (resolve_turn d 10 p q [] 0 Hs).
  - intros n Hs Hn Hq. rewrite resolve_start by (by eapply steps_start). apply (resolve_steps d n p q []); [done|done|]. unfold is_name in Hq. by destruct (is_prefix ipns_prefix q).
  - intros Hs Hq. rewrite resolve_start by (by eapply steps_start). by eapply resolve_gives_up.
Qed.

(** ** Publishing *)
Section publishing.
Context {M : Malloc} {Hm : MallocOk M} {D N : Type} {S : Sessions N}.
Implicit Types nd : OnlineNode D N.

(** what others are sent *)
Lemma publish_message_ok nd h path rest r css : is_bytes h -> zlen h = 32 -> nonzero h -> zlen path + 1000 * zlen css + 500 <= INT_MAX ->
  peer_with (cid_text h) (address_bytes <$> css) (on_identity nd) -> deref (id (on_identity nd)) = cid_text h ++ 0 :: r -> Forall printable css ->
  exists m, publish_message nd h 32 (path ++ rest) (zlen path) = Ret (Some m).
Proof using Hm.
  intros Hh Hl Hnz Hlen Hw Hid Hpr. zlen_facts. destruct (cid_text_digits h Hh Hl) as (_ & _ & _ & _ & H46).
  unfold publish_message, libp2p_message_new, peer_list. rewrite !malloc_always.
  destruct (peer_copied _ _ _ Hw ltac:(lia)) as (c & -> & (c0 & xs & [= <-] & Hci & Hcz & _ & Ha & Hx & Hct)). cbn [rbind negb].
  unfold ipfs_namesys_copy_bytes. rewrite !malloc_always, memrd_app, memrd_all by done. cbn [rbind]. by eexists.
Qed.

(** nobody to tell: a local peer, or one whose addresses cannot be dialed *)
Definition out_of_reach (n : N) (e : PeerEntry) : Prop :=
  exists p, e = mkPeerEntry (Some p) /\ (is_local p <> 0 \/
    (connection_type p <> CONNECTION_TYPE_CONNECTED /\ (exists s, libp2p_peer_id_to_string p = Ret s) /\ Forall (unreachable n) (addr_head p))).

Lemma nearest_nobody m k n : 0 < k -> forall es pre ps, ps_entries ps = pre ++ es -> Forall (out_of_reach n) es ->
  nearest_loop es (length pre) 0 ps m k n = Ret (0, ps, n).
Proof using.
  intros Hk es. induction es as [|e es IH]; intros pre ps Hps Hes; [done|]. apply Forall_cons in Hes as [(p & -> & Hp) Hes]. cbn [nearest_loop].
  specialize (IH (pre ++ [mkPeerEntry (Some p)]) ps). rewrite length_app, Nat.add_1_r, <- app_assoc in IH. specialize (IH Hps Hes).
  destruct (Z.eqb_spec (is_local p) 0) as [Hl|Hl]; cbn [negb]; [|exact IH]. destruct Hp as [Hp|(Hc & [s Hs] & Ha)]; [done|].
  unfold libp2p_peer_connect. rewrite (proj2 (Z.eqb_neq _ _) Hc). cbn [andb]. rewrite Hs. cbn [rbind]. rewrite join_nobody by done. cbn [rbind].
  change (0 =? 0) with true. cbn [rbind]. rewrite (proj2 (Z.leb_gt k 0)) by done.
  assert (store_peer ps (length pre) p = ps) as -> by (destruct ps as [l]; cbn in *; unfold store_peer; cbn; f_equal; rewrite list_insert_id; [done|by rewrite Hps, list_lookup_middle]).
  exact IH.
Qed.
End publishing.

(** Property C16.  Publishing into the datastore of the repository never succeeds in storing.
    Whether the node has published before or not, liblmdb is asked to store the path with the
    time of now under the hash of the node's id.  When liblmdb stores it, the journal is
    written with a key that no longer exists: undefined behaviour.  When it refuses, the
    result is 0 and nobody is told.  Only when exactly this path was already published in
    the same second, and so nothing is stored, the node goes on to tell its peers; the result is
    then 1 even if it reaches none of them. *)
Theorem ipns_publish_lmdb {M : Malloc} {Hm : MallocOk M} {T N : Type} {L : Lmdb T} {S : Sessions N} (fuel : nat) (now : Z)
    (nd : OnlineNode T N) (h path rest r : bytes) (css : list (list component)) :
  is_bytes h -> zlen h = 32 -> nonzero h -> nonzero path -> zlen path < 2 ^ 30 -> zlen path + 1000 * zlen css + 500 <= INT_MAX -> 0 < now < 2 ^ 56 ->
  peer_with (cid_text h) (address_bytes <$> css) (on_identity nd) -> deref (id (on_identity nd)) = cid_text h ++ 0 :: r ->
  id_size (on_identity nd) = 46 -> Forall printable css ->
  let t := Merkledag.datastore (repo (on_repo nd)) in mdb_txn_begin t = 0 -> mdb_cursor_open t = 0 ->
  mdb_get DATASTORE h t = None \/
    (exists old, record_storable old /\ mdb_get DATASTORE h t = Some (stored_value old)) /\ other_time 0 (mdb_items JOURNALSTORE t) ->
  let stored := mdb_put DATASTORE h (varint_bytes now ++ path) t in
  let nd' := with_store nd (snd (mdb_txn_commit t (snd stored))) in
  (fst stored = 0 -> ipfs_namesys_publisher_publish (lmdb_put (Datatypes.S fuel) now) nd (path ++ 0 :: rest) = UB) /\
  (fst stored <> 0 -> fst stored <> MDB_KEYEXIST ->
   ipfs_namesys_publisher_publish (lmdb_put (Datatypes.S fuel) now) nd (path ++ 0 :: rest) = Ret (0, nd')) /\
  (fst stored = MDB_KEYEXIST -> Forall (out_of_reach (on_network nd)) (ps_entries (on_peerstore nd)) ->
   ipfs_namesys_publisher_publish (lmdb_put (Datatypes.S fuel) now) nd (path ++ 0 :: rest) = Ret (1, nd')).
Proof.
  intros Hh Hl Hnz Hpath Hlen Hmsg Hnow Hw Hid Hidz Hpr t Hb Hc Hold stored nd'. zlen_facts. destruct (cid_text_digits h Hh Hl) as (_ & _ & _ & _ & H46).
  set (rec := mkRecord (Some h) 32 (Some path) (zlen path) 0).
  assert (ztake (rec_key_size rec) (deref (rec_key rec)) = h) as Ek by (change (ztake 32 h = h); by rewrite ztake_all by lia).
  pose proof (put_untimed fuel now rec t eq_refl) as Hput. change (deref (rec_value rec)) with path in Hput. change (deref (rec_key rec)) with h in Hput at 1.
  change (rec_value_size rec) with (zlen path) in Hput. change (rec_key_size rec) with 32 in Hput at 1 2 3. cbv zeta in Hput. rewrite Ek in Hput.
  assert (stored_value (set_timestamp now rec) = varint_bytes now ++ path) as Ev by (unfold stored_value; cbn; by rewrite ztake_all by done).
  rewrite Ev in Hput. specialize (Hput ltac:(lia) Hlen Hnow ltac:(lia) ltac:(lia) Hb Hc Hold).
  destruct (publish_message_ok nd h path (0 :: rest) r css Hh Hl Hnz Hmsg Hw Hid Hpr) as [m Hm'].
  assert (ipfs_namesys_publisher_publish (lmdb_put (Datatypes.S fuel) now) nd (path ++ 0 :: rest) =
    if fst stored =? 0 then UB
    else if (if fst stored =? MDB_KEYEXIST then fst stored else 0) =? 0 then Ret (0, nd')
    else let! (_, ps, n) := libp2p_routing_dht_send_message_nearest_x (on_peerstore nd) m 10 (on_network nd) in
         Ret (1, with_peers (with_network nd' n) ps)) as E.
  { unfold ipfs_namesys_publisher_publish, libp2p_datastore_record_new. rewrite malloc_always, Hid, Hidz, decode_cid_text by done. cbn [rbind cid_hash cid_hash_length].
    change (deref (Some h)) with h. unfold ipfs_namesys_copy_bytes at 1. rewrite malloc_always, memrd_all by done. cbn [rbind].
    rewrite strlen_nul by done. cbn [rbind]. unfold ipfs_namesys_copy_bytes at 1. rewrite malloc_always, memrd_app by done. cbn [rbind]. fold rec t.
    unfold lmdb_put. rewrite Hput. fold stored. destruct (fst stored =? 0); [done|]. cbn [rbind]. destruct ((if _ : bool then _ else _) =? 0); [done|].
    change (publish_message (with_store nd _)) with (publish_message nd). by rewrite Hm'. }
  rewrite E. split; [|split].
  - intros ->. done.
  - intros Hn0 Hne. by rewrite (proj2 (Z.eqb_neq _ _) Hn0), (proj2 (Z.eqb_neq _ _) Hne).
  - intros -> Hall. change (MDB_KEYEXIST =? 0) with false. rewrite Z.eqb_refl. change (MDB_KEYEXIST =? 0) with false. cbv iota.
    unfold libp2p_routing_dht_send_message_nearest_x. rewrite (nearest_nobody _ 10 (on_network nd) ltac:(lia) _ []) by done. done.
Qed.

Lemma entry_step {D : Type} {Ds : Datastore D} (d : D) h q : entry_of d h q -> step d (ipns_name h) q.
Proof. intros He. exists h, ipns_prefix. split; [done|]. by split; [right|]. Qed.

Definition ex_hash (x : Z) : bytes := replicate 32%nat x.
Definition ex_names (l : list (bytes * bytes)) : gmap bytes DatastoreRecord :=
  list_to_map ((fun e => (fst e, mkRecord (Some (fst e)) 32 (Some (snd e)) (zlen (snd e)) 0)) <$> l).

Lemma ex_names_entry l x v : list_to_map (M := gmap bytes bytes) l !! ex_hash x = Some v -> byte_range x -> nonzero v -> zlen v < 2 ^ 62 ->
  entry_of (ex_names l) (ex_hash x) v.
Proof.
  intros Hl Hx Hv Hvl. split_and!; try done; [by apply Forall_replicate|]. exists (mkRecord (Some (ex_hash x)) 32 (Some v) (zlen v) 0), [].
  split; [|split; [by rewrite app_nil_r|done]]. unfold ex_names. simpl. revert Hl. induction l as [|[k w] l IH]; [done|]. cbn [fmap list_fmap list_to_map foldr fst snd].
  destruct (decide (k = ex_hash x)) as [->|Hne]; [rewrite !lookup_insert_eq; by intros [= ->]|]. rewrite !lookup_insert_ne by done. apply IH.
Qed.

Lemma ipns_resolve_witness :
  let M := malloc_total in
  let d := ex_names [(ex_hash 1, ipns_name (ex_hash 2)); (ex_hash 2, txt "/ipfs/QmX")] in
  ipfs_namesys_resolver_resolve d (ipns_name (ex_hash 1) ++ [0]) 0 = Ret (1, Some (ipns_name (ex_hash 2) ++ [0])) /\
  ipfs_namesys_resolver_resolve d (ipns_name (ex_hash 1) ++ [0]) 1 = Ret (1, Some (lit "/ipfs/QmX")).
Proof.
  intros M d.
  assert (step d (ipns_name (ex_hash 1)) (ipns_name (ex_hash 2))) as H1.
  { apply entry_step, ex_names_entry; [reflexivity|unfold byte_range; lia|apply (bool_decide_unpack _); vm_compute; reflexivity|vm_compute; reflexivity]. }
  assert (step d (ipns_name (ex_hash 2)) (txt "/ipfs/QmX")) as H2.
  { apply entry_step, ex_names_entry; [reflexivity|unfold byte_range; lia|apply (bool_decide_unpack _); vm_compute; reflexivity|vm_compute; reflexivity]. }
  split.
  - apply (proj1 (ipns_resolve (M := malloc_total) d _ _ []) H1).
  - apply (proj1 (proj2 (ipns_resolve (M := malloc_total) d (ipns_name (ex_hash 1)) (txt "/ipfs/QmX") [])) 2%nat).
    + eapply steps_more; [exact H1|apply is_prefix_app|by constructor].
    + lia.
    + by vm_compute.
Defined.


(** the path is refused, stored or already there, as liblmdb says *)
Definition answering_lmdb (code : Z) : Lmdb (list (bytes * bytes) * list (bytes * bytes)) := {|
  mdb_items := @mdb_items _ small_lmdb;
  mdb_put db k v t := if code =? 0 then @mdb_put _ small_lmdb db k v t else (code, t);
  mdb_txn_begin := @mdb_txn_begin _ small_lmdb;
  mdb_txn_commit := @mdb_txn_commit _ small_lmdb;
  mdb_cursor_open := @mdb_cursor_open _ small_lmdb
|}.

Lemma ipns_publish_lmdb_witness :
  let M := malloc_total in
  let nd := mkOnlineNode (mkIpfsNode MODE_ONLINE (mkRepo [] ∅ (@nil (bytes * bytes), @nil (bytes * bytes)))) (ex_own (cid_text (ex_hash 7))) [0] (mkVector 0 0 [])
    (mkPeerstore [mkPeerEntry (Some (ex_own (cid_text (ex_hash 7))))]) (mkProviderStore (mkVector 0 0 []) peer_blank) (∅ : gmap nat (Z * Z)) in
  let publish code := let L := answering_lmdb code in ipfs_namesys_publisher_publish (lmdb_put 1 100) nd (lit "/ipfs/QmX") in
  publish 0 = UB /\ publish 28 = Ret (0, nd) /\ publish MDB_KEYEXIST = Ret (1, nd).
Proof.
  intros M nd publish.
  pose proof (fun code => ipns_publish_lmdb (M := malloc_total) (L := answering_lmdb code) 0 100 nd (ex_hash 7) (txt "/ipfs/QmX") [] [] []
    ltac:(apply Forall_replicate; unfold byte_range; lia) ltac:(reflexivity) ltac:(by apply Forall_replicate) ltac:(by apply txt_nonzero) ltac:(reflexivity) ltac:(vm_compute; discriminate) ltac:(lia)
    ltac:(split; [reflexivity|]; split; [exists [0]; reflexivity|]; split; [constructor|vm_compute; split; congruence]) ltac:(reflexivity) ltac:(reflexivity) ltac:(constructor)
    ltac:(reflexivity) ltac:(reflexivity) ltac:(by left)) as H.
  split; [|split].
  - apply (H 0). reflexivity.
  - apply (H 28); discriminate.
  - apply (H MDB_KEYEXIST); [reflexivity|]. constructor; [|constructor]. eexists. split; [reflexivity|]. left. discriminate.
Defined.
