(* ===== verification/Names.v ===== *)
(** * Names outside of the repository (libipfs/namesys/proquint.c, isdomain.c, dns.c, dnslink/dnslink.c, libp2p/utils/urlencode.c)

    Bytes as pronounceable texts, texts that are domains, links in DNS records and the command that follows them,
    the escapes of URLs, and the cache of the old name system (namesys/routing.c). *)
From Stdlib Require Import String.
From S2P Require Import Prelude Digits CString Hex Files Paths.

Definition ErrInvalidDomain : Z := 12.
Definition ErrInvalidDNSLink : Z := 13.
Definition ErrResolveLimit : Z := 20.

(** ** Proquints *)
Definition conse : bytes := Eval vm_compute in txt "bdfghjklmnprstvz".
Definition vowse : bytes := Eval vm_compute in txt "aiou".

(** the index of the character, 0 when it is none of the list *)
Fixpoint index_in (l : bytes) (c : Z) (i : Z) : Z :=
  match l with
  | [] => 0
  | x :: l => if c =? x then i else index_in l c (i + 1)
  end.
Definition consd (c : Z) : Z := index_in conse c 0.
Definition vowsd (c : Z) : Z := index_in vowse c 0.

(** to 16 bits *)
Definition u16 (z : Z) : Z := z mod 2 ^ 16.

Section proquint.
Context {M : Malloc}.

(** the characters from the index [i] on *)
Fixpoint is_proquint_loop (s : bytes) (i : Z) : Z :=
  match s with
  | [] => 1
  | c :: s =>
    let good :=
      if (i + 1) mod 6 =? 0 then c =? 45
      else if (i + 1) mod 2 =? 0 then bool_decide (vowse !! Z.to_nat (vowsd c) = Some c)
      else bool_decide (conse !! Z.to_nat (consd c) = Some c) in
    if good then is_proquint_loop s (i + 1) else 0
  end.

(** the text is measured before it is compared with NULL *)
Definition ipfs_proquint_is_proquint (str : option bytes) : res Z :=
  match str with
  | None => UB
  | Some p => let! s := read_str p in Ret (if (zlen s + 1) mod 6 =? 0 then is_proquint_loop s 0 else 0)
  end.

(** the six characters of two bytes *)
Definition proquint_word (n : Z) : bytes :=
  let at_ (l : bytes) i := nth (Z.to_nat i) l 0 in
  [at_ conse (Z.land (Z.shiftr n 12) 15); at_ vowse (Z.land (Z.shiftr n 10) 3); at_ conse (Z.land (Z.shiftr n 6) 15);
   at_ vowse (Z.land (Z.shiftr n 4) 3); at_ conse (Z.land n 15); 45].

(** [n] words from the index [i] *)
Fixpoint proquint_encode_loop (n : nat) (i : Z) (buf : bytes) : res bytes :=
  match n with
  | O => Ret []
  | S n =>
    let! a := rd buf i in
    let! b := rd buf (i + 1) in
    let! ret := proquint_encode_loop n (i + 2) buf in
    Ret (proquint_word (u16 (Z.lor (Z.shiftl a 8) b)) ++ ret)
  end.

(** the last dash becomes the NUL; without a word the byte in front of the object does *)
Definition ipfs_proquint_encode (buf : option bytes) (size : Z) : res (option bytes) :=
  if negb (Z.rem size 2 =? 0) then Ret None
  else
    match buf with
    | None => Ret None
    | Some buf =>
      let! room := int_op (size * 3) in
      if negb (malloc_ok (u64 room)) then Ret None
      else
        let! ret := proquint_encode_loop (Z.to_nat (size / 2)) 0 buf in
        if zlen ret =? 0 then UB else Ret (Some (ztake (zlen ret - 1) ret ++ [0]))
    end.

(** [n] words of the text from the index [i], written to [ret] from [c] *)
Fixpoint proquint_decode_loop (n : nat) (i c : Z) (str ret : bytes) : res bytes :=
  match n with
  | O => Ret ret
  | S n =>
    let! c0 := rd str i in
    let! c1 := rd str (i + 1) in
    let! c2 := rd str (i + 2) in
    let! c3 := rd str (i + 3) in
    let! c4 := rd str (i + 4) in
    let x := u16 (Z.lor (Z.lor (Z.lor (Z.lor (Z.shiftl (consd c0) 12) (Z.shiftl (vowsd c1) 10)) (Z.shiftl (consd c2) 6)) (Z.shiftl (vowsd c3) 4)) (consd c4)) in
    let! (_, ret) := with_ptr ret c (fun q => let! q := memwr q [Z.shiftr x 8; Z.land x 255] in Ret (tt, q)) in
    proquint_decode_loop n (i + 6) (c + 2) str ret
  end.

(** a text that is no proquint is refused only if its length fits *)
Definition ipfs_proquint_decode (str : bytes) : res (option bytes) :=
  let! s := read_str str in
  let l := zlen s in
  let! good := ipfs_proquint_is_proquint (Some str) in
  if (good =? 0) && ((l + 1) mod 3 =? 0) then Ret None
  else if negb (malloc_ok ((l + 1) / 3)) then Ret None
  else let! ret := proquint_decode_loop (Z.to_nat ((l + 5) / 6)) 0 0 str (fresh ((l + 1) / 3)) in Ret (Some ret).

(** the error, and [*p] where it is set; the test is the wrong way round *)
Definition ipfs_proquint_resolve_once (name : option bytes) : res (Z * option (option bytes)) :=
  let! err := ipfs_proquint_is_proquint name in
  if negb (err =? 0) then Ret (ErrInvalidProquint, Some None)
  else
    match name with
    | None => UB
    | Some name =>
      let! t := ipfs_proquint_decode name in
      let! (err, buf) := ipfs_path_parse t in
      if err =? 0 then
        match buf with
        | None => UB
        | Some buf =>
          let! s := read_str buf in
          if malloc_ok (zlen s + 1) then Ret (0, Some (Some (s ++ [0]))) else UB
        end
      else Ret (err, None)
    end.
End proquint.

(** ** Domains (isdomain.c) *)
(** [toupper]; outside of ASCII the argument is negative *)
Definition c_toupper (c : Z) : res Z :=
  if 128 <=? c then UB else Ret (if (97 <=? c) && (c <=? 122) then c - 32 else c).
Fixpoint ipfs_isdomain_to_upper (s : bytes) : res bytes :=
  match s with
  | [] => Ret []
  | c :: s => let! c := c_toupper c in let! s := ipfs_isdomain_to_upper s in Ret (c :: s)
  end.

(** on the contents of the texts; a suffix that is longer is read in front of the object *)
Definition ipfs_isdomain_has_suffix (s suf : bytes) : res Z :=
  if zlen s <? zlen suf then UB else Ret (if bool_decide (zdrop (zlen s - zlen suf) s = suf) then 1 else 0).

Fixpoint find_tld (a : list (bytes * Z)) (str : bytes) : Z :=
  match a with
  | [] => 0
  | (t, condition) :: a => if bool_decide (t = str) then condition else find_tld a str
  end.
Definition ipfs_isdomain_is_at_array (a : list (bytes * Z)) (s : bytes) : res Z :=
  let! str := ipfs_isdomain_to_upper s in Ret (find_tld a str).

Definition TLDs_text : list string := [
  "AC"; "ACADEMY"; "ACCOUNTANTS"; "ACTIVE"; "ACTOR"; "AD"; "AE"; "AERO"; "AF"; "AG"; "AGENCY"; "AI"; "AIRFORCE"; "AL";
  "ALLFINANZ"; "AM"; "AN"; "AO"; "AQ"; "AR"; "ARCHI"; "ARMY"; "ARPA"; "AS"; "ASIA"; "ASSOCIATES"; "AT"; "ATTORNEY";
  "AU"; "AUCTION"; "AUDIO"; "AUTOS"; "AW"; "AX"; "AXA"; "AZ"; "BA"; "BAR"; "BARGAINS"; "BAYERN"; "BB"; "BD"; "BE";
  "BEER"; "BERLIN"; "BEST"; "BF"; "BG"; "BH"; "BI"; "BID"; "BIKE"; "BIO"; "BIZ"; "BJ"; "BLACK"; "BLACKFRIDAY"; "BLUE";
  "BM"; "BMW"; "BN"; "BNPPARIBAS"; "BO"; "BOO"; "BOUTIQUE"; "BR"; "BRUSSELS"; "BS"; "BT"; "BUDAPEST"; "BUILD";
  "BUILDERS"; "BUSINESS"; "BUZZ"; "BV"; "BW"; "BY"; "BZ"; "BZH"; "CA"; "CAB"; "CAL"; "CAMERA"; "CAMP";
  "CANCERRESEARCH"; "CAPETOWN"; "CAPITAL"; "CARAVAN"; "CARDS"; "CARE"; "CAREER"; "CAREERS"; "CASA"; "CASH"; "CAT";
  "CATERING"; "CC"; "CD"; "CENTER"; "CEO"; "CERN"; "CF"; "CG"; "CH"; "CHANNEL"; "CHEAP"; "CHRISTMAS"; "CHROME";
  "CHURCH"; "CI"; "CITIC"; "CITY"; "CK"; "CL"; "CLAIMS"; "CLEANING"; "CLICK"; "CLINIC"; "CLOTHING"; "CLUB"; "CM"; "CN";
  "CO"; "CODES"; "COFFEE"; "COLLEGE"; "COLOGNE"; "COM"; "COMMUNITY"; "COMPANY"; "COMPUTER"; "CONDOS"; "CONSTRUCTION";
  "CONSULTING"; "CONTRACTORS"; "COOKING"; "COOL"; "COOP"; "COUNTRY"; "CR"; "CREDIT"; "CREDITCARD"; "CRUISES"; "CU";
  "CUISINELLA"; "CV"; "CW"; "CX"; "CY"; "CYMRU"; "CZ"; "DAD"; "DANCE"; "DATING"; "DAY"; "DE"; "DEALS"; "DEGREE";
  "DEMOCRAT"; "DENTAL"; "DENTIST"; "DESI"; "DIAMONDS"; "DIET"; "DIGITAL"; "DIRECT"; "DIRECTORY"; "DISCOUNT"; "DJ";
  "DK"; "DM"; "DNP"; "DO"; "DOMAINS"; "DURBAN"; "DVAG"; "DZ"; "EAT"; "EC"; "EDU"; "EDUCATION"; "EE"; "EG"; "EMAIL";
  "ENGINEER"; "ENGINEERING"; "ENTERPRISES"; "EQUIPMENT"; "ER"; "ES"; "ESQ"; "ESTATE"; "ET"; "EU"; "EUS"; "EVENTS";
  "EXCHANGE"; "EXPERT"; "EXPOSED"; "FAIL"; "FARM"; "FEEDBACK"; "FI"; "FINANCE"; "FINANCIAL"; "FISH"; "FISHING";
  "FITNESS"; "FJ"; "FK"; "FLIGHTS"; "FLORIST"; "FLY"; "FM"; "FO"; "FOO"; "FORSALE"; "FOUNDATION"; "FR"; "FRL";
  "FROGANS"; "FUND"; "FURNITURE"; "FUTBOL"; "GA"; "GAL"; "GALLERY"; "GB"; "GBIZ"; "GD"; "GE"; "GENT"; "GF"; "GG"; "GH";
  "GI"; "GIFT"; "GIFTS"; "GIVES"; "GL"; "GLASS"; "GLE"; "GLOBAL"; "GLOBO"; "GM"; "GMAIL"; "GMO"; "GMX"; "GN"; "GOOGLE";
  "GOP"; "GOV"; "GP"; "GQ"; "GR"; "GRAPHICS"; "GRATIS"; "GREEN"; "GRIPE"; "GS"; "GT"; "GU"; "GUIDE"; "GUITARS"; "GURU";
  "GW"; "GY"; "HAMBURG"; "HAUS"; "HEALTHCARE"; "HELP"; "HERE"; "HIPHOP"; "HIV"; "HK"; "HM"; "HN"; "HOLDINGS";
  "HOLIDAY"; "HOMES"; "HORSE"; "HOST"; "HOSTING"; "HOUSE"; "HOW"; "HR"; "HT"; "HU"; "IBM"; "ID"; "IE"; "IL"; "IM";
  "IMMO"; "IMMOBILIEN"; "IN"; "INDUSTRIES"; "INFO"; "ING"; "INK"; "INSTITUTE"; "INSURE"; "INT"; "INTERNATIONAL";
  "INVESTMENTS"; "IO"; "IQ"; "IR"; "IS"; "IT"; "JE"; "JETZT"; "JM"; "JO"; "JOBS"; "JOBURG"; "JP"; "JUEGOS"; "KAUFEN";
  "KE"; "KG"; "KH"; "KI"; "KIM"; "KITCHEN"; "KIWI"; "KM"; "KN"; "KOELN"; "KP"; "KR"; "KRD"; "KRED"; "KW"; "KY"; "KZ";
  "LA"; "LACAIXA"; "LAND"; "LAWYER"; "LB"; "LC"; "LEASE"; "LGBT"; "LI"; "LIFE"; "LIGHTING"; "LIMITED"; "LIMO"; "LINK";
  "LK"; "LOANS"; "LONDON"; "LOTTO"; "LR"; "LS"; "LT"; "LTDA"; "LU"; "LUXE"; "LUXURY"; "LV"; "LY"; "MA"; "MAISON";
  "MANAGEMENT"; "MANGO"; "MARKET"; "MARKETING"; "MC"; "MD"; "ME"; "MEDIA"; "MEET"; "MELBOURNE"; "MEME"; "MENU"; "MG";
  "MH"; "MIAMI"; "MIL"; "MINI"; "MK"; "ML"; "MM"; "MN"; "MO"; "MOBI"; "MODA"; "MOE"; "MONASH"; "MORTGAGE"; "MOSCOW";
  "MOTORCYCLES"; "MOV"; "MP"; "MQ"; "MR"; "MS"; "MT"; "MU"; "MUSEUM"; "MV"; "MW"; "MX"; "MY"; "MZ"; "NA"; "NAGOYA";
  "NAME"; "NAVY"; "NC"; "NE"; "NET"; "NETWORK"; "NEUSTAR"; "NEW"; "NEXUS"; "NF"; "NG"; "NGO"; "NHK"; "NI"; "NINJA";
  "NL"; "NO"; "NP"; "NR"; "NRA"; "NRW"; "NU"; "NYC"; "NZ"; "OKINAWA"; "OM"; "ONG"; "ONL"; "OOO"; "ORG"; "ORGANIC";
  "OTSUKA"; "OVH"; "PA"; "PARIS"; "PARTNERS"; "PARTS"; "PE"; "PF"; "PG"; "PH"; "PHARMACY"; "PHOTO"; "PHOTOGRAPHY";
  "PHOTOS"; "PHYSIO"; "PICS"; "PICTURES"; "PINK"; "PIZZA"; "PK"; "PL"; "PLACE"; "PLUMBING"; "PM"; "PN"; "POHL"; "POST";
  "PR"; "PRAXI"; "PRESS"; "PRO"; "PROD"; "PRODUCTIONS"; "PROF"; "PROPERTIES"; "PROPERTY"; "PS"; "PT"; "PUB"; "PW";
  "PY"; "QA"; "QPON"; "QUEBEC"; "RE"; "REALTOR"; "RECIPES"; "RED"; "REHAB"; "REISE"; "REISEN"; "REN"; "RENTALS";
  "REPAIR"; "REPORT"; "REPUBLICAN"; "REST"; "RESTAURANT"; "REVIEWS"; "RICH"; "RIO"; "RO"; "ROCKS"; "RODEO"; "RS";
  "RSVP"; "RU"; "RUHR"; "RW"; "RYUKYU"; "SA"; "SAARLAND"; "SARL"; "SB"; "SC"; "SCA"; "SCB"; "SCHMIDT"; "SCHULE";
  "SCOT"; "SD"; "SE"; "SERVICES"; "SEXY"; "SG"; "SH"; "SHIKSHA"; "SHOES"; "SI"; "SINGLES"; "SJ"; "SK"; "SL"; "SM";
  "SN"; "SO"; "SOCIAL"; "SOFTWARE"; "SOHU"; "SOLAR"; "SOLUTIONS"; "SOY"; "SPACE"; "SPIEGEL"; "SR"; "ST"; "SU";
  "SUPPLIES"; "SUPPLY"; "SUPPORT"; "SURF"; "SURGERY"; "SUZUKI"; "SV"; "SX"; "SY"; "SYSTEMS"; "SZ"; "TATAR"; "TATTOO";
  "TAX"; "TC"; "TD"; "TECHNOLOGY"; "TEL"; "TF"; "TG"; "TH"; "TIENDA"; "TIPS"; "TIROL"; "TJ"; "TK"; "TL"; "TM"; "TN";
  "TO"; "TODAY"; "TOKYO"; "TOOLS"; "TOP"; "TOWN"; "TOYS"; "TP"; "TR"; "TRADE"; "TRAINING"; "TRAVEL"; "TT"; "TUI"; "TV";
  "TW"; "TZ"; "UA"; "UG"; "UK"; "UNIVERSITY"; "UNO"; "UOL"; "US"; "UY"; "UZ"; "VA"; "VACATIONS"; "VC"; "VE"; "VEGAS";
  "VENTURES"; "VERSICHERUNG"; "VET"; "VG"; "VI"; "VIAJES"; "VILLAS"; "VISION"; "VLAANDEREN"; "VN"; "VODKA"; "VOTE";
  "VOTING"; "VOTO"; "VOYAGE"; "VU"; "WALES"; "WANG"; "WATCH"; "WEBCAM"; "WEBSITE"; "WED"; "WF"; "WHOSWHO"; "WIEN";
  "WIKI"; "WILLIAMHILL"; "WME"; "WORK"; "WORKS"; "WORLD"; "WS"; "WTC"; "WTF"; "XN--1QQW23A"; "XN--3BST00M";
  "XN--3DS443G"; "XN--3E0B707E"; "XN--45BRJ9C"; "XN--4GBRIM"; "XN--55QW42G"; "XN--55QX5D"; "XN--6FRZ82G";
  "XN--6QQ986B3XL"; "XN--80ADXHKS"; "XN--80AO21A"; "XN--80ASEHDB"; "XN--80ASWG"; "XN--90A3AC"; "XN--C1AVG";
  "XN--CG4BKI"; "XN--CLCHC0EA0B2G2A9GCD"; "XN--CZR694B"; "XN--CZRU2D"; "XN--D1ACJ3B"; "XN--FIQ228C5HS"; "XN--FIQ64B";
  "XN--FIQS8S"; "XN--FIQZ9S"; "XN--FPCRJ9C3D"; "XN--FZC2C9E2C"; "XN--GECRJ9C"; "XN--H2BRJ9C"; "XN--I1B6B1A6A2E";
  "XN--IO0A7I"; "XN--J1AMH"; "XN--J6W193G"; "XN--KPRW13D"; "XN--KPRY57D"; "XN--KPUT3I"; "XN--L1ACC"; "XN--LGBBAT1AD8J";
  "XN--MGB9AWBF"; "XN--MGBA3A4F16A"; "XN--MGBAAM7A8H"; "XN--MGBAB2BD"; "XN--MGBAYH7GPA"; "XN--MGBBH1A71E";
  "XN--MGBC0A9AZCG"; "XN--MGBERP4A5D4AR"; "XN--MGBX4CD0AB"; "XN--NGBC5AZD"; "XN--NQV7F"; "XN--NQV7FS00EMA";
  "XN--O3CW4H"; "XN--OGBPF8FL"; "XN--P1ACF"; "XN--P1AI"; "XN--PGBS0DH"; "XN--Q9JYB4C"; "XN--RHQV96G"; "XN--S9BRJ9C";
  "XN--SES554G"; "XN--UNUP4Y"; "XN--VERMGENSBERATER-CTB"; "XN--VERMGENSBERATUNG-PWB"; "XN--VHQUV"; "XN--WGBH1C";
  "XN--WGBL6A"; "XN--XHQ521B"; "XN--XKC2AL3HYE2A"; "XN--XKC2DL3A5EE0H"; "XN--YFRO4I67O"; "XN--YGBI2AMMX";
  "XN--ZFR164B"; "XXX"; "XYZ"; "YACHTS"; "YANDEX"; "YE"; "YOKOHAMA"; "YOUTUBE"; "YT"; "ZA"; "ZIP"; "ZM"; "ZONE"; "ZW"
]%string.
Definition TLDs : list (bytes * Z) := Eval vm_compute in (fun t => (txt t, 1)) <$> TLDs_text.
Definition ExtendedTLDs : list (bytes * Z) := Eval vm_compute in [(txt "BIT", 1); (txt "ONION", 1)].

Definition ipfs_isdomain_is_icann_tld (s : bytes) : res Z := ipfs_isdomain_is_at_array TLDs s.
Definition ipfs_isdomain_is_extended_tld (s : bytes) : res Z := ipfs_isdomain_is_at_array ExtendedTLDs s.
Definition ipfs_isdomain_is_tld (s : bytes) : res Z :=
  let! r := ipfs_isdomain_is_icann_tld s in
  if negb (r =? 0) then Ret 1 else let! r := ipfs_isdomain_is_extended_tld s in Ret (if r =? 0 then 0 else 1).

Definition upper (c : Z) : bool := (65 <=? c) && (c <=? 90).
Definition domain_char (c : Z) : bool := upper c || is_digit c || (c =? 46) || (c =? 45).

(** the last two characters have to be letters *)
Definition ipfs_isdomain_match_string (d : bytes) : res Z :=
  let! str := ipfs_isdomain_to_upper d in
  let! l := padd str (zlen str - 2) in
  if bool_decide (head str = Some 46) then Ret 0
  else
    let! a := rd l 0 in
    let! b := rd l 1 in
    if upper a && upper b then Ret (if forallb domain_char str then 1 else 0) else Ret 0.

(** without memory the error code is the result, which is not 0 *)
Definition ipfs_isdomain_is_domain {M : Malloc} (s : bytes) : res Z :=
  if negb (malloc_ok (zlen s + 1)) then Ret ErrAllocFailed
  else
    let! dot := ipfs_isdomain_has_suffix s [46] in
    let s := if dot =? 0 then s else ztake (zlen s - 1) s in
    match c_strrchr s 46 with
    | None => Ret 0
    | Some k =>
      let! r := ipfs_isdomain_is_tld (zdrop (k + 1) s) in
      if r =? 0 then Ret 0 else ipfs_isdomain_match_string s
    end.

(** ** Links in records (dnslink.c, dns.c) *)
Section dnslink.
Context {M : Malloc}.

Definition dnslink_word : bytes := Eval vm_compute in txt "dnslink".
Definition dns_word : bytes := Eval vm_compute in txt "dns".

(** [path]: whether the pointer for the result is there.  The error, and [*path] where it is
    set; a path that could not be cleaned is no error *)
Definition ipfs_dnslink_parse_txt (path : bool) (t : option bytes) : res (Z * option (option bytes)) :=
  match path, t with
  | true, Some t =>
    let! parts := ipfs_path_split_n t [61; 0] 2 in
    match parts with
    | None => Ret (ErrAllocFailed, None)
    | Some parts =>
      match parts with
      | [a; b] =>
        if bool_decide (a = dnslink_word) && bool_decide (head b = Some 47) then
          let! p := ipfs_path_clean_path (b ++ [0]) in Ret (0, Some p)
        else Ret (ErrInvalidDNSLink, Some None)
      | _ => Ret (ErrInvalidDNSLink, Some None)
      end
    end
  | _, _ => Ret (ErrInvalidParam, None)
  end.

(** the error, [*domain] and [*rest]; of what follows the domain only the first segment is kept *)
Definition ipfs_dnslink_parse_link_domain (t : option bytes) : res (Z * option bytes * option bytes) :=
  match t with
  | None => Ret (ErrInvalidParam, None, None)
  | Some t =>
    let! parts := ipfs_path_split_n t [47; 0] 4 in
    match parts with
    | Some ([] :: dns :: domain :: rest) =>
      if bool_decide (dns = dns_word) then
        let! good := ipfs_isdomain_is_domain domain in
        if good =? 0 then Ret (ErrInvalidDomain, None, None)
        else if negb (malloc_ok (zlen domain + 1)) then Ret (ErrAllocFailed, None, None)
        else
          match rest with
          | [] => Ret (0, Some (domain ++ [0]), None)
          | r :: _ =>
            if malloc_ok (zlen r + 1) then Ret (0, Some (domain ++ [0]), Some (r ++ [0])) else Ret (ErrAllocFailed, None, None)
          end
      else Ret (ErrInvalidDNSLink, None, None)
    | _ => Ret (ErrInvalidDNSLink, None, None)
    end
  end.

(** the answer of the resolver library (res_query, ns_initparse) for a name, if there is one:
    for each record whether it can be parsed (ns_parserr) and the bytes from its data to the
    end of the answer *)
Definition dns_query : Type := bytes -> option (list (option bytes)).

(** the loop over the records: the texts behind one another in the 4096 bytes of [buf]; the
    first byte of a record is its length.  [None]: ErrResolveFailed *)
Fixpoint save_records (records : list (option bytes)) (buf : bytes) : res (option bytes) :=
  match records with
  | [] => Ret (Some buf)
  | None :: _ => Ret None
  | Some rdata :: records =>
    let! n := rd rdata 0 in
    let! text := memrd (zdrop 1 rdata) n in
    if 4096 <? zlen buf + n + 1 then UB else save_records records (buf ++ text ++ [0])
  end.

(** the error and the records.  [*txt[i]] is [*(txt[i])]: from the second record on a pointer
    behind the variable of the caller is followed *)
Definition ipfs_dnslink_resolv_lookupTXT (q : dns_query) (domain : bytes) : res (Z * list bytes) :=
  let! domain := read_str domain in
  match q domain with
  | None => Ret (ErrResolveFailed, [])
  | Some records =>
    let! buf := save_records records [] in
    match buf with
    | None => Ret (ErrResolveFailed, [])
    | Some buf =>
      if negb (malloc_ok ((zlen records + 1) * 8)) then Ret (ErrAllocFailed, [])
      else if negb (malloc_ok (zlen buf)) then Ret (ErrAllocFailed, [])
      else match records with
           | [] => Ret (0, [])
           | [_] => Ret (0, [buf])
           | _ => UB
           end
    end
  end.

(** a function that looks the records of a domain up: the error and the records *)
Definition lookup_txt : Type := bytes -> res (Z * list bytes).

(** the loop over the records; [*p], which was set to NULL, is given in place of [p] *)
Fixpoint try_records (err : Z) (records : list bytes) : res Z :=
  match records with
  | [] => Ret err
  | t :: records =>
    let! (err, _) := ipfs_dnslink_parse_txt false (Some t) in
    if err =? 0 then Ret 0 else try_records err records
  end.

(** [lookup]: [ipfs_dnslink_lookup_txt] if it is set.  The error and [*p], which stays NULL *)
Definition ipfs_dnslink_resolve_once (q : dns_query) (lookup : option lookup_txt) (domain : option bytes) : res (Z * option bytes) :=
  match domain with
  | None => Ret (ErrInvalidParam, None)
  | Some domain =>
    let! d := read_str domain in
    let! good := ipfs_isdomain_is_domain d in
    if good =? 0 then Ret (ErrInvalidDomain, None)
    else
      let! (err, records) := default (ipfs_dnslink_resolv_lookupTXT q) lookup domain in
      if negb (err =? 0) then Ret (err, None)
      else let! err := try_records ErrResolveFailed records in Ret (err, None)
  end.

Definition dns_prefix : bytes := Eval vm_compute in txt "/dns/".

(** what [strncpy] or [strncat] leave of a text in an array of 500 bytes *)
Definition text_499 (s : bytes) : bytes := ztake 499 s.

(** the steps that are left; [tail] has no text before a step has set it, and [strncpy] puts no
    NUL behind 499 bytes.  [*p[l]] is [*(p[l])], behind the pointer of the caller *)
Fixpoint resolve_steps (q : dns_query) (lookup : option lookup_txt) (n : nat) (domain : bytes) (tail : option bytes) : res (Z * option bytes) :=
  match n with
  | O => match tail with None => UB | Some _ => Ret (ErrResolveLimit, None) end
  | S n =>
    let! (err, link) := ipfs_dnslink_resolve_once q lookup (Some (domain ++ [0])) in
    if negb (err =? 0) then Ret (err, None)
    else
      match link with
      | None => UB
      | Some link =>
        let! pre := memrd link 5 in
        if negb (bool_decide (pre = dns_prefix)) then
          let! text := read_str link in
          match tail with
          | None => UB
          | Some tail =>
            let l := zlen text + zlen tail in
            if negb (malloc_ok (l + 1)) then Ret (ErrAllocFailed, None)
            else if 0 <? l then UB
            else Ret (0, Some (text ++ tail ++ [0]))
          end
        else
          let! (err, d, rest) := ipfs_dnslink_parse_link_domain (Some link) in
          if negb (err =? 0) then Ret (err, None)
          else
            match d, rest, tail with
            | Some d, Some rest, Some tail =>
              let! d := read_str d in
              let! rest := read_str rest in
              if (499 <=? zlen rest) || (499 <=? zlen tail) then UB
              else resolve_steps q lookup n (text_499 d) (Some (text_499 (rest ++ tail)))
            | _, _, _ => UB
            end
      end
  end.

Definition ipfs_dnslink_resolve_n (q : dns_query) (lookup : option lookup_txt) (d : bytes) (depth : Z) : res (Z * option bytes) :=
  let! s := read_str d in resolve_steps q lookup (Z.to_nat depth) (text_499 s) None.

Definition DefaultDepthLimit : Z := 32.
Definition ipfs_dnslink_resolve (q : dns_query) (lookup : option lookup_txt) (domain : bytes) : res (Z * option bytes) :=
  ipfs_dnslink_resolve_n q lookup domain DefaultDepthLimit.

(** ** The command (ipfs_dns) *)
(** the steps that are left: the error, or the last [param] with its NUL *)
Fixpoint dns_steps (q : dns_query) (n : nat) (r : Z) (param : bytes) : res (Z + option bytes) :=
  match n with
  | O => Ret (inr (Some param))
  | S n =>
    let! pre := memrd param 6 in
    let! (err, txt) := ipfs_dnslink_resolv_lookupTXT q (if bool_decide (pre = ipns_prefix) then zdrop 6 param else param) in
    if negb (err =? 0) then Ret (inl err)
    else
      let! (err, path) := ipfs_dnslink_parse_txt true (head txt) in
      if negb (err =? 0) then Ret (inl err)
      else if r =? 0 then Ret (inr (mjoin path))
      else
        match mjoin path with
        | None => UB
        | Some path =>
          let! pre := memrd path 6 in
          if bool_decide (pre = ipfs_prefix) then Ret (inr (Some path)) else dns_steps q n r path
        end
  end.

(** [while (--r);], with the turns that are taken at most *)
Fixpoint count_down (fuel : nat) (r : Z) : res Z :=
  match fuel with
  | O => NoFuel
  | S fuel => let! r := int_op (r - 1) in if r =? 0 then Ret 0 else count_down fuel r
  end.

Definition recursive_flag : bytes := Eval vm_compute in lit "-r".

(** the result and what is printed *)
Definition ipfs_dns (fuel : nat) (q : dns_query) (argv : list bytes) : res (Z * bytes) :=
  let! (r, argv) :=
    match argv with
    | [_; a; b; c] => let! e := c_strcmp recursive_flag b in Ret (if e =? 0 then (1, [a; b; c]) else (0, argv))
    | _ => Ret (0, argv)
    end in
  match argv with
  | [_; _; name] =>
    let! s := read_str name in
    if negb (malloc_ok (zlen s + 1)) then Ret (1, [])
    else
      let! out := dns_steps q (Z.to_nat DefaultDepthLimit) r (s ++ [0]) in
      match out with
      | inl err => Ret (err, [])
      | inr param =>
        let! _ := count_down fuel r in
        match param with
        | None => UB
        | Some param => let! text := read_str param in Ret (0, text ++ [10])
        end
      end
  | _ => Ret (-1, [])
  end.

(** the path goes into the array of the segments and not to the caller *)
Definition ipfs_dns_try_parse_dns_link (t : bytes) : res Z :=
  let! parts := ipfs_path_split_n t [61; 0] 2 in
  match parts with
  | Some [a; b] =>
    if bool_decide (a = dnslink_word) then
      let! (err, buf) := ipfs_path_parse (Some (b ++ [0])) in
      if err =? 0 then
        match buf with
        | None => UB
        | Some buf => let! s := read_str buf in Ret (if malloc_ok (zlen s + 1) then 0 else ErrAllocFailed)
        end
      else Ret err
    else Ret ErrInvalidDNSLink
  | _ => Ret ErrInvalidDNSLink
  end.

(** the error, and the path where it is set *)
Definition ipfs_dns_parse_entry (t : bytes) : res (Z * option bytes) :=
  let! (err, buf) := ipfs_path_parse_from_cid (Some t) in
  if err =? 0 then
    match buf with
    | None => UB
    | Some buf => let! s := read_str buf in Ret (if malloc_ok (zlen s + 1) then (0, Some (s ++ [0])) else (ErrAllocFailed, None))
    end
  else let! err := ipfs_dns_try_parse_dns_link t in Ret (err, None).

(** the records of a domain; [write] is the pipe.  A path that was never set is written *)
Fixpoint parse_entries (write : bytes -> Z) (records : list bytes) : res Z :=
  match records with
  | [] => Ret ErrResolveFailed
  | t :: records =>
    let! (err, path) := ipfs_dns_parse_entry t in
    if err =? 0 then
      match path with
      | None => UB
      | Some p => let! s := read_str p in Ret (if negb (write s =? zlen s) then 4 else 0)
      end
    else parse_entries write records
  end.
Definition ipfs_dns_work_domain (write : bytes -> Z) (lookup : lookup_txt) (name : bytes) : res Z :=
  let! (err, records) := lookup name in
  if negb (err =? 0) then Ret err else parse_entries write records.
End dnslink.

(** ** Escapes of URLs (libp2p/utils/urlencode.c) *)
Definition c_isalnum (c : Z) : bool := is_digit c || ((65 <=? c) && (c <=? 90)) || ((97 <=? c) && (c <=? 122)).
Definition hex_digits : bytes := Eval vm_compute in txt "0123456789abcdef".

(** a byte outside of ASCII is negative, for [isalnum] and as an index *)
Fixpoint encode_chars (src : bytes) : res bytes :=
  match src with
  | [] => Ret []
  | c :: src =>
    let! e :=
      if 128 <=? c then UB
      else if c_isalnum c then Ret [c]
      else let! a := rd hex_digits (Z.shiftr c 4) in let! b := rd hex_digits (Z.land c 15) in Ret [37; a; b] in
    let! rest := encode_chars src in Ret (e ++ rest)
  end.

(** the NUL needs a byte too *)
Definition libp2p_utils_url_encode {M : Malloc} (src : bytes) : res (option bytes) :=
  let! s := read_str src in
  if negb (malloc_ok (zlen s * 3)) then Ret None
  else
    let! e := encode_chars s in
    if zlen s * 3 <? zlen e + 1 then UB else Ret (if malloc_ok (zlen e + 1) then Some (e ++ [0]) else None).

Definition h2b (c : Z) : Z :=
  if is_digit c then c - 48 else if (97 <=? c) && (c <=? 102) then c - 97 + 10 else if (65 <=? c) && (c <=? 70) then c - 65 + 10 else 0.

(** the NUL may be taken for a digit, and the text be read behind it *)
Fixpoint decode_chars (src : bytes) : res bytes :=
  match src with
  | [] => UB
  | c :: src =>
    if c =? 0 then Ret []
    else if negb (c =? 37) then let! rest := decode_chars src in Ret (c :: rest)
    else
      match src with
      | a :: b :: src =>
        let! rest := decode_chars src in
        Ret (Z.lor (u8 (Z.shiftl (h2b a) 4)) (Z.land (h2b b) 15) :: rest)
      | _ => UB
      end
  end.

(** the request is not tested *)
Definition libp2p_utils_url_decode {M : Malloc} (src : bytes) : res (option bytes) :=
  let! s := read_str src in
  if negb (malloc_ok (zlen s + 1)) then UB
  else
    let! d := decode_chars src in
    if zlen s + 1 <? zlen d + 1 then UB else Ret (if malloc_ok (zlen d + 1) then Some (d ++ [0]) else None).

(** ** The cache of resolved names (namesys/routing.c) *)
Record cacheEntry := { ce_key : bytes; ce_value : bytes; ce_eol : Z * Z }.
(** [data_there]: whether there is an array for the entries *)
Record routingResolver := { cachesize : Z; cache_data : list cacheEntry; data_there : bool }.
Definition DefaultResolverCacheTTL : Z := 60.

Definition before (a b : Z * Z) : bool := (a.1 <? b.1) || ((a.1 =? b.1) && (a.2 <? b.2)).
Fixpoint cache_loop (now : Z * Z) (key : bytes) (data : list cacheEntry) : res (option bytes) :=
  match data with
  | [] => Ret None
  | e :: data =>
    if before now (ce_eol e) then
      let! c := c_strcmp (ce_key e) key in
      if c =? 0 then Ret (Some (ce_value e)) else cache_loop now key data
    else cache_loop now key data
  end.
Definition ipfs_routing_cache_get (now : Z * Z) (key : option bytes) (cache : option routingResolver) : res (option bytes) :=
  match key, cache with
  | Some key, Some cache => cache_loop now key (cache_data cache)
  | _, _ => Ret None
  end.
(** an entry is never taken out of the cache; a full cache takes no more *)
Definition sizeof_cacheEntry : Z := 32.
Definition ipfs_routing_cache_set {M : Malloc} (now : Z * Z) (key value : option bytes) (cache : option routingResolver) : res (option routingResolver) :=
  match key, value, cache with
  | Some key, Some value, Some c =>
    if (zlen (cache_data c) <? cachesize c) && malloc_ok sizeof_cacheEntry then
      if data_there c then
        Ret (Some {| cachesize := cachesize c;
                     cache_data := cache_data c ++ [{| ce_key := key; ce_value := value; ce_eol := (now.1 + DefaultResolverCacheTTL, now.2) |}];
                     data_there := true |})
      else UB
    else Ret cache
  | _, _, _ => Ret cache
  end.
(** without a value store the process exits.  It is the resolver that is tested twice and not its array *)
Definition sizeof_routingResolver : Z := 16.
Definition ipfs_namesys_new_routing_resolver {M : Malloc} (route : bool) (size : Z) : res (option routingResolver) :=
  if negb route then AssertFail
  else if negb (malloc_ok sizeof_routingResolver) then Ret None
  else Ret (Some {| cachesize := size; cache_data := []; data_there := (0 <=? size) && malloc_ok (8 * size) |}).

(** each byte is printed with a NUL behind it, the last one too *)
Definition ipfs_namesys_bytes_to_hex_string (b buffer : bytes) (buffer_length : Z) : res (Z * bytes) :=
  if buffer_length <? zlen b * 2 then Ret (ErrInvalidParam, buffer)
  else if zlen b =? 0 then Ret (0, buffer)
  else let! buffer := memwr buffer (hex false b ++ [0]) in Ret (0, buffer).

(** ** Proquints and bytes are the same *)
Definition conse_at (k : Z) : Z := nth (Z.to_nat k) conse 0.
Definition vowse_at (k : Z) : Z := nth (Z.to_nat k) vowse 0.

Lemma below_forall (n : nat) (P : Z -> bool) : forallb P (Z.of_nat <$> seq 0 n) = true -> forall k, 0 <= k < Z.of_nat n -> P k = true.
Proof.
  rewrite forallb_forall. intros H k Hk. apply H. apply list_elem_of_In, list_elem_of_fmap.
  exists (Z.to_nat k). rewrite elem_of_seq. lia.
Qed.

Lemma consd_at k : 0 <= k < 16 -> consd (conse_at k) = k.
Proof. intros H. pose proof (below_forall 16 (fun k => consd (conse_at k) =? k) eq_refl k H) as E. cbv beta in E. lia. Qed.
Lemma conse_ok k : 0 <= k < 16 -> conse !! Z.to_nat (consd (conse_at k)) = Some (conse_at k).
Proof.
  intros H. pose proof (below_forall 16 (fun k => bool_decide (conse !! Z.to_nat (consd (conse_at k)) = Some (conse_at k))) eq_refl k H) as E. cbv beta in E.
  by apply bool_decide_eq_true_1 in E.
Qed.
Lemma conse_nonzero k : 0 <= k < 16 -> conse_at k <> 0.
Proof. intros H. pose proof (below_forall 16 (fun k => negb (conse_at k =? 0)) eq_refl k H) as E. cbv beta in E. lia. Qed.
Lemma vowsd_at k : 0 <= k < 4 -> vowsd (vowse_at k) = k.
Proof. intros H. pose proof (below_forall 16 (fun k => (4 <=? k) || (vowsd (vowse_at k) =? k)) eq_refl k ltac:(lia)) as E. cbv beta in E. lia. Qed.
Lemma vowse_ok k : 0 <= k < 4 -> vowse !! Z.to_nat (vowsd (vowse_at k)) = Some (vowse_at k).
Proof.
  intros H.
  pose proof (below_forall 16 (fun k => (4 <=? k) || bool_decide (vowse !! Z.to_nat (vowsd (vowse_at k)) = Some (vowse_at k))) eq_refl k ltac:(lia)) as E. cbv beta in E.
  apply orb_prop in E as [E|E]; [lia|]. by apply bool_decide_eq_true_1 in E.
Qed.
Lemma vowse_nonzero k : 0 <= k < 4 -> vowse_at k <> 0.
Proof. intros H. pose proof (below_forall 16 (fun k => (4 <=? k) || negb (vowse_at k =? 0)) eq_refl k ltac:(lia)) as E. cbv beta in E. lia. Qed.

Lemma index_in_range l c i : 0 <= i -> 0 <= index_in l c i < i + zlen l \/ index_in l c i = 0.
Proof.
  revert i. induction l as [|x l IH]; intros i Hi; cbn [index_in]; [by right|]. rewrite zlen_cons. zlen_facts.
  destruct (Z.eqb_spec c x); [left; lia|]. destruct (IH (i + 1) ltac:(lia)) as [E|E]; [left; lia|by right].
Qed.
Lemma consd_range c : 0 <= consd c < 16.
Proof. unfold consd. destruct (index_in_range conse c 0 ltac:(lia)) as [E|E]; [|lia]. by change (zlen conse) with 16 in E. Qed.
Lemma vowsd_range c : 0 <= vowsd c < 4.
Proof. unfold vowsd. destruct (index_in_range vowse c 0 ltac:(lia)) as [E|E]; [|lia]. by change (zlen vowse) with 4 in E. Qed.

(** the number of a word *)
Definition word_number (k0 k1 k2 k3 k4 : Z) : Z := k0 * 4096 + k1 * 1024 + k2 * 64 + k3 * 16 + k4.
Definition good_word (k0 k1 k2 k3 k4 : Z) : Prop := 0 <= k0 < 16 /\ 0 <= k1 < 4 /\ 0 <= k2 < 16 /\ 0 <= k3 < 4 /\ 0 <= k4 < 16.

Lemma word_shifts k0 k1 k2 k3 k4 : good_word k0 k1 k2 k3 k4 ->
  Z.lor (Z.lor (Z.lor (Z.lor (Z.shiftl k0 12) (Z.shiftl k1 10)) (Z.shiftl k2 6)) (Z.shiftl k3 4)) k4 = word_number k0 k1 k2 k3 k4.
Proof.
  intros (H0 & H1 & H2 & H3 & H4). unfold word_number. rewrite <- !Z.lor_assoc.
  rewrite (lor_shiftl 4) by lia. rewrite (lor_shiftl 6) by lia. rewrite (lor_shiftl 10) by lia. rewrite (lor_shiftl 12) by lia. lia.
Qed.

Lemma land_shift n s w : 0 <= s -> 0 <= w -> Z.land (Z.shiftr n s) (2 ^ w - 1) = n / 2 ^ s mod 2 ^ w.
Proof. intros Hs Hw. replace (2 ^ w - 1) with (Z.ones w) by (rewrite Z.ones_equiv; lia). by rewrite Z.land_ones, Z.shiftr_div_pow2. Qed.

Lemma word_of n k0 k1 k2 k3 k4 : good_word k0 k1 k2 k3 k4 -> n = word_number k0 k1 k2 k3 k4 ->
  proquint_word n = [conse_at k0; vowse_at k1; conse_at k2; vowse_at k3; conse_at k4; 45].
Proof.
  intros (H0 & H1 & H2 & H3 & H4) ->. unfold proquint_word, word_number. set (n := _ + _).
  pose proof (land_shift n 12 4 ltac:(lia) ltac:(lia)) as E0. pose proof (land_shift n 10 2 ltac:(lia) ltac:(lia)) as E1.
  pose proof (land_shift n 6 4 ltac:(lia) ltac:(lia)) as E2. pose proof (land_shift n 4 2 ltac:(lia) ltac:(lia)) as E3.
  pose proof (land_shift n 0 4 ltac:(lia) ltac:(lia)) as E4. rewrite Z.shiftr_0_r in E4.
  assert (n = word_number k0 k1 k2 k3 k4) as En by done. unfold word_number in En. clearbody n. unfold conse_at, vowse_at.
  change (2 ^ 4) with 16 in *. change (2 ^ 2) with 4 in *. change (2 ^ 12) with 4096 in *. change (2 ^ 10) with 1024 in *.
  change (2 ^ 6) with 64 in *. change (2 ^ 0) with 1 in *. change (16 - 1) with 15 in *. change (4 - 1) with 3 in *.
  rewrite E0, E1, E2, E3, E4.
  repeat match goal with |- _ :: _ = _ :: _ => f_equal end; f_equal; f_equal; Z.to_euclidean_division_equations; lia.
Qed.

(** every number of two bytes has its word *)
Lemma word_exists n : 0 <= n < 65536 -> exists k0 k1 k2 k3 k4, good_word k0 k1 k2 k3 k4 /\ n = word_number k0 k1 k2 k3 k4.
Proof.
  intros H. exists (n / 4096), (n / 1024 mod 4), (n / 64 mod 16), (n / 16 mod 4), (n mod 16). unfold good_word, word_number.
  Z.to_euclidean_division_equations; lia.
Qed.

(** the bytes of whole words, and their text: six characters for every word, without the last dash *)
Inductive words : bytes -> Prop :=
| last_word a b : byte_range a -> byte_range b -> words [a; b]
| more_words a b l : byte_range a -> byte_range b -> words l -> words (a :: b :: l).

Fixpoint proquint_text (l : bytes) : bytes :=
  match l with
  | a :: b :: r =>
    match r with
    | [] => take 5 (proquint_word (a * 256 + b))
    | _ => proquint_word (a * 256 + b) ++ proquint_text r
    end
  | _ => []
  end.

Lemma words_even l : is_bytes l -> l <> [] -> Z.rem (zlen l) 2 = 0 -> words l.
Proof.
  remember (length l) as n eqn:En. revert l En. induction (lt_wf n) as [n _ IH]. intros [|a [|b l]] -> Hb Hne Hev; [done|done|].
  apply Forall_cons in Hb as [Ha Hb]. apply Forall_cons in Hb as [Hb Hl].
  destruct l as [|c l]; [by constructor|]. constructor; [done..|].
  eapply (IH (length (c :: l))); [cbn; lia|done|done|done|]. rewrite !zlen_cons in *. rewrite Z.rem_mod_nonneg in * by (zlen_facts; lia).
  Z.to_euclidean_division_equations; lia.
Qed.

Lemma byte_word a b : byte_range a -> byte_range b -> u16 (Z.lor (Z.shiftl a 8) b) = a * 256 + b /\
  exists k0 k1 k2 k3 k4, good_word k0 k1 k2 k3 k4 /\ a * 256 + b = word_number k0 k1 k2 k3 k4 /\
    proquint_word (a * 256 + b) = [conse_at k0; vowse_at k1; conse_at k2; vowse_at k3; conse_at k4; 45].
Proof.
  unfold byte_range. intros Ha Hb. rewrite (lor_shiftl 8) by lia. change (2 ^ 8) with 256. split; [unfold u16; rewrite Z.mod_small; lia|].
  destruct (word_exists (a * 256 + b) ltac:(lia)) as (k0 & k1 & k2 & k3 & k4 & Hg & E).
  exists k0, k1, k2, k3, k4. split_and!; [done|done|]. by apply word_of.
Qed.

Lemma text_more a b l : words l -> proquint_text (a :: b :: l) = proquint_word (a * 256 + b) ++ proquint_text l.
Proof. by destruct 1. Qed.

Lemma words_of l : words l -> is_bytes l /\ l <> [] /\ Z.rem (zlen l) 2 = 0 /\ zlen (proquint_text l) = 3 * zlen l - 1 /\
  proquint_text l <> [] /\ nonzero (proquint_text l).
Proof.
  assert (forall a b, byte_range a -> byte_range b -> nonzero (proquint_word (a * 256 + b))) as Hw.
  { intros a b Ha Hb. destruct (byte_word a b Ha Hb) as [_ (k0 & k1 & k2 & k3 & k4 & (H0 & H1 & H2 & H3 & H4) & _ & ->)].
    unfold nonzero. rewrite !Forall_cons. split_and!; try done; (by apply conse_nonzero) || (by apply vowse_nonzero). }
  intros H. induction H as [a b Ha Hb|a b l Ha Hb Hl IH].
  - split_and!; [by repeat apply Forall_cons_2|done|done|done|done|]. cbn [proquint_text]. apply Forall_take. by apply Hw.
  - destruct IH as (H1 & H2 & H3 & H4 & H5 & H6). rewrite text_more by done. split_and!.
    + by repeat apply Forall_cons_2.
    + done.
    + rewrite !zlen_cons. rewrite Z.rem_mod_nonneg in * by (zlen_facts; lia). Z.to_euclidean_division_equations; lia.
    + rewrite zlen_app, !zlen_cons. change (zlen (proquint_word _)) with 6. lia.
    + done.
    + apply Forall_app. split; [by apply Hw|done].
Qed.

Lemma encode_words l : words l -> forall pre post,
  proquint_encode_loop (Z.to_nat (zlen l / 2)) (zlen pre) (pre ++ l ++ post) = Ret (proquint_text l ++ [45]).
Proof.
  assert (forall a b r pre post k, byte_range a -> byte_range b -> 
    proquint_encode_loop (S k) (zlen pre) (pre ++ (a :: b :: r) ++ post) =
    (let! t := proquint_encode_loop k (zlen (pre ++ [a; b])) ((pre ++ [a; b]) ++ r ++ post) in Ret (proquint_word (a * 256 + b) ++ t))) as Hstep.
  { clear. intros a b r pre post k Ha Hb. cbn [proquint_encode_loop app]. rewrite rd_app_mid. cbn [rbind].
    replace (zlen pre + 1) with (zlen (pre ++ [a])) by (rewrite zlen_app; done).
    replace (pre ++ a :: b :: r ++ post) with ((pre ++ [a]) ++ b :: r ++ post) by by rewrite <- app_assoc.
    rewrite rd_app_mid. cbn [rbind]. destruct (byte_word a b Ha Hb) as [-> _].
    replace (zlen pre + 2) with (zlen (pre ++ [a; b])) by (rewrite zlen_app; done). by rewrite <- !app_assoc. }
  intros Hw. induction Hw as [a b Ha Hb|a b l Ha Hb Hl IH]; intros pre post.
  - change (Z.to_nat (zlen [a; b] / 2)) with 1%nat. rewrite Hstep by done. done.
  - replace (Z.to_nat (zlen (a :: b :: l) / 2)) with (S (Z.to_nat (zlen l / 2))) by (rewrite !zlen_cons; zlen_facts; Z.to_euclidean_division_equations; lia).
    rewrite Hstep, IH, text_more by done. cbn [rbind]. by rewrite <- app_assoc.
Qed.

Definition word_text (k0 k1 k2 k3 k4 : Z) : bytes := [conse_at k0; vowse_at k1; conse_at k2; vowse_at k3; conse_at k4].

Lemma is_cons c s i : (i + 1) mod 6 <> 0 -> (i + 1) mod 2 <> 0 ->
  is_proquint_loop (c :: s) i = if bool_decide (conse !! Z.to_nat (consd c) = Some c) then is_proquint_loop s (i + 1) else 0.
Proof. intros H1 H2. cbn [is_proquint_loop]. by rewrite (proj2 (Z.eqb_neq _ _) H1), (proj2 (Z.eqb_neq _ _) H2). Qed.
Lemma is_vow c s i : (i + 1) mod 6 <> 0 -> (i + 1) mod 2 = 0 ->
  is_proquint_loop (c :: s) i = if bool_decide (vowse !! Z.to_nat (vowsd c) = Some c) then is_proquint_loop s (i + 1) else 0.
Proof. intros H1 H2. cbn [is_proquint_loop]. by rewrite (proj2 (Z.eqb_neq _ _) H1), (proj2 (Z.eqb_eq _ _) H2). Qed.
Lemma is_dash c s i : (i + 1) mod 6 = 0 -> is_proquint_loop (c :: s) i = if c =? 45 then is_proquint_loop s (i + 1) else 0.
Proof. intros H1. cbn [is_proquint_loop]. by rewrite (proj2 (Z.eqb_eq _ _) H1). Qed.

(** at the start of a word: the five characters are those of a number *)
Lemma is_word c0 c1 c2 c3 c4 s i : i mod 6 = 0 -> is_proquint_loop (c0 :: c1 :: c2 :: c3 :: c4 :: s) i = 1 <->
  (exists k0 k1 k2 k3 k4, good_word k0 k1 k2 k3 k4 /\ [c0; c1; c2; c3; c4] = word_text k0 k1 k2 k3 k4) /\ is_proquint_loop s (i + 5) = 1.
Proof.
  intros Hi. rewrite is_cons, is_vow, is_cons, is_vow, is_cons by (Z.to_euclidean_division_equations; lia).
  replace (i + 1 + 1 + 1 + 1 + 1) with (i + 5) by lia. split.
  - repeat (case_bool_decide; [|done]). intros Hs. split; [|done].
    exists (consd c0), (vowsd c1), (consd c2), (vowsd c3), (consd c4). split.
    + unfold good_word. split_and!; apply consd_range || apply vowsd_range.
    + unfold word_text, conse_at, vowse_at.
      repeat match goal with H : _ !! _ = Some _ |- _ => rewrite (nth_lookup_Some _ _ 0 _ H) end. done.
  - intros [(k0 & k1 & k2 & k3 & k4 & (H0 & H1 & H2 & H3 & H4) & [= -> -> -> -> ->]) Hs].
    repeat (rewrite bool_decide_true by (by (apply conse_ok || apply vowse_ok))). done.
Qed.

Lemma is_text l : words l -> forall i, i mod 6 = 0 -> is_proquint_loop (proquint_text l) i = 1.
Proof.
  induction 1 as [a b Ha Hb|a b l Ha Hb Hl IH]; intros i Hi; destruct (byte_word a b Ha Hb) as [_ (k0 & k1 & k2 & k3 & k4 & Hg & _ & E)].
  - cbn [proquint_text]. rewrite E. cbn [take]. apply is_word; [done|]. split; [by exists k0, k1, k2, k3, k4|done].
  - rewrite text_more, E by done. cbn [app]. apply is_word; [done|]. split; [by exists k0, k1, k2, k3, k4|].
    rewrite is_dash by (Z.to_euclidean_division_equations; lia). cbn. apply IH. Z.to_euclidean_division_equations; lia.
Qed.

Lemma word_bytes k0 k1 k2 k3 k4 : good_word k0 k1 k2 k3 k4 -> exists a b, byte_range a /\ byte_range b /\
  proquint_word (a * 256 + b) = word_text k0 k1 k2 k3 k4 ++ [45].
Proof.
  intros Hg. pose proof Hg as (H0 & H1 & H2 & H3 & H4). set (n := word_number k0 k1 k2 k3 k4).
  exists (n / 256), (n mod 256). unfold byte_range, n, word_number. split_and!; try (Z.to_euclidean_division_equations; lia).
  apply word_of; [done|]. unfold word_number. Z.to_euclidean_division_equations; lia.
Qed.

(** what the test accepts is the text of some bytes *)
Lemma is_inv n : forall s i, i mod 6 = 0 -> length s = (6 * n + 5)%nat -> is_proquint_loop s i = 1 -> exists l, words l /\ s = proquint_text l.
Proof.
  induction n as [|n IH]; intros s i Hi Hlen Hs; destruct s as [|c0 [|c1 [|c2 [|c3 [|c4 s]]]]]; try (cbn in Hlen; lia);
    apply is_word in Hs as [(k0 & k1 & k2 & k3 & k4 & Hg & E) Hs]; [|done| |done];
    destruct (word_bytes _ _ _ _ _ Hg) as (a & b & Ha & Hb & Ew).
  - destruct s; [|cbn in Hlen; lia]. exists [a; b]. split; [by constructor|]. cbn [proquint_text]. by rewrite Ew, E.
  - destruct s as [|d s]; [cbn in Hlen; lia|]. rewrite is_dash in Hs by (Z.to_euclidean_division_equations; lia).
    destruct (Z.eqb_spec d 45) as [->|]; [|done].
    destruct (IH s (i + 5 + 1)) as (l & Hl & ->); [Z.to_euclidean_division_equations; lia|cbn in Hlen; lia|done|].
    exists (a :: b :: l). split; [by constructor|]. rewrite text_more, Ew, <- app_assoc by done. cbn [app].
    injection E as -> -> -> -> ->. done.
Qed.

Lemma rd_past pre p j : 0 <= j -> rd (pre ++ p) (zlen pre + j) = rd p j.
Proof.
  intros Hj. unfold rd. pose proof (zlen_nonneg pre). zbool. replace (Z.to_nat (zlen pre + j)) with (length pre + Z.to_nat j)%nat by (unfold zlen; lia).
  by rewrite lookup_app_r, Nat.add_comm, Nat.add_sub by lia.
Qed.

Lemma word_rd k0 k1 k2 k3 k4 s :
  let w := conse_at k0 :: vowse_at k1 :: conse_at k2 :: vowse_at k3 :: conse_at k4 :: s in
  rd w 1 = Ret (vowse_at k1) /\ rd w 2 = Ret (conse_at k2) /\ rd w 3 = Ret (vowse_at k3) /\ rd w 4 = Ret (conse_at k4).
Proof. done. Qed.

Lemma decode_word a b n pre suf d x y rest : byte_range a -> byte_range b ->
  proquint_decode_loop (S n) (zlen pre) (zlen d) (pre ++ take 5 (proquint_word (a * 256 + b)) ++ suf) (d ++ x :: y :: rest) =
  proquint_decode_loop n (zlen pre + 6) (zlen d + 2) (pre ++ take 5 (proquint_word (a * 256 + b)) ++ suf) (d ++ a :: b :: rest).
Proof.
  intros Ha Hb. destruct (byte_word a b Ha Hb) as [_ (k0 & k1 & k2 & k3 & k4 & Hg & En & ->)].
  pose proof Hg as (H0 & H1 & H2 & H3 & H4). cbn [take app proquint_decode_loop].
  rewrite rd_app_mid, !rd_past by lia. destruct (word_rd k0 k1 k2 k3 k4 suf) as (-> & -> & -> & ->). cbn [rbind].
  rewrite !consd_at, !vowsd_at, word_shifts, <- En by done. unfold byte_range in *.
  unfold u16. rewrite Z.mod_small by lia. rewrite Z.shiftr_div_pow2 by lia. change 255 with (Z.ones 8). rewrite Z.land_ones by lia.
  change (2 ^ 8) with 256. replace ((a * 256 + b) / 256) with a by (Z.to_euclidean_division_equations; lia).
  replace ((a * 256 + b) mod 256) with b by (Z.to_euclidean_division_equations; lia).
  erewrite with_ptr_app; [|done|rewrite memwr_ok by (rewrite !zlen_cons; change (zlen (@nil Z)) with 0; zlen_facts; lia); done]. cbn [rbind]. done.
Qed.

Lemma decode_words l : words l -> forall pre suf d rest, zlen rest = zlen l ->
  proquint_decode_loop (Z.to_nat (zlen l / 2)) (zlen pre) (zlen d) (pre ++ proquint_text l ++ suf) (d ++ rest) = Ret (d ++ l).
Proof.
  intros Hw. induction Hw as [a b Ha Hb|a b l Ha Hb Hl IH]; intros pre suf d rest Hr; destruct rest as [|x [|y rest]];
    try (rewrite !zlen_cons in Hr; change (zlen (@nil Z)) with 0 in Hr; zlen_facts; lia).
  - destruct rest; [|rewrite !zlen_cons in Hr; change (zlen (@nil Z)) with 0 in Hr; zlen_facts; lia].
    change (Z.to_nat (zlen [a; b] / 2)) with 1%nat. cbn [proquint_text]. by rewrite decode_word.
  - replace (Z.to_nat (zlen (a :: b :: l) / 2)) with (S (Z.to_nat (zlen l / 2))) by (rewrite !zlen_cons; zlen_facts; Z.to_euclidean_division_equations; lia).
    rewrite text_more by done. set (w := proquint_word (a * 256 + b)).
    replace ((w ++ proquint_text l) ++ suf) with (take 5 w ++ [45] ++ proquint_text l ++ suf) by done.
    unfold w. rewrite decode_word by done. fold w.
    replace (pre ++ take 5 w ++ [45] ++ proquint_text l ++ suf) with ((pre ++ w) ++ proquint_text l ++ suf) by (by rewrite <- app_assoc).
    replace (zlen pre + 6) with (zlen (pre ++ w)) by (by rewrite zlen_app). replace (zlen d + 2) with (zlen (d ++ [a; b])) by (by rewrite zlen_app).
    replace (d ++ a :: b :: rest) with ((d ++ [a; b]) ++ rest) by (by rewrite <- app_assoc).
    rewrite IH by (rewrite !zlen_cons in Hr; lia). by rewrite <- app_assoc.
Qed.

Section proquints.
Context {M : Malloc} {HM : MallocOk M}.

Lemma is_proquint_text l : words l -> ipfs_proquint_is_proquint (Some (proquint_text l ++ [0])) = Ret 1.
Proof using.
  intros Hw. destruct (words_of l Hw) as (_ & _ & H3 & H4 & H5 & H6). unfold ipfs_proquint_is_proquint. rewrite read_str_nul by done. cbn [rbind].
  rewrite H4. replace ((3 * zlen l - 1 + 1) mod 6 =? 0) with true; [by rewrite is_text|].
  symmetry. apply Z.eqb_eq. rewrite Z.rem_mod_nonneg in * by (zlen_facts; lia). Z.to_euclidean_division_equations; lia.
Qed.

Lemma encode_ok l post : words l -> zlen l * 3 <= INT_MAX -> ipfs_proquint_encode (Some (l ++ post)) (zlen l) = Ret (Some (proquint_text l ++ [0])).
Proof using HM.
  intros Hw Hmax. destruct (words_of l Hw) as (_ & _ & H3 & H4 & H5 & H6). unfold ipfs_proquint_encode. rewrite H3. cbn [negb Z.eqb].
  unfold INT_MAX in *. rewrite int_op_small by (zlen_facts; lia). cbn [rbind]. rewrite malloc_always. cbn [negb].
  pose proof (encode_words l Hw [] post) as E. cbn [app] in E. change (zlen (@nil Z)) with 0 in E. rewrite E. cbn [rbind].
  rewrite zlen_app. change (zlen [45]) with 1. pose proof (zlen_nonneg (proquint_text l)).
  rewrite (proj2 (Z.eqb_neq _ _)) by lia. replace (zlen (proquint_text l) + 1 - 1) with (zlen (proquint_text l)) by lia.
  by rewrite ztake_app_len.
Qed.

Lemma decode_ok l : words l -> ipfs_proquint_decode (proquint_text l ++ [0]) = Ret (Some l).
Proof using HM.
  intros Hw. destruct (words_of l Hw) as (_ & Hne & H3 & H4 & H5 & H6). unfold ipfs_proquint_decode. rewrite read_str_nul by done. cbn [rbind].
  rewrite is_proquint_text by done. cbn [rbind Z.eqb andb]. rewrite H4, malloc_always. cbn [negb].
  rewrite Z.rem_mod_nonneg in * by (zlen_facts; lia).
  replace (Z.to_nat ((3 * zlen l - 1 + 5) / 6)) with (Z.to_nat (zlen l / 2)) by (zlen_facts; f_equal; Z.to_euclidean_division_equations; lia).
  replace ((3 * zlen l - 1 + 1) / 3) with (zlen l) by (Z.to_euclidean_division_equations; lia).
  pose proof (decode_words l Hw [] [0] [] (fresh (zlen l))) as E. cbn [app] in E. change (zlen (@nil Z)) with 0 in E.
  rewrite E; [done|]. apply zlen_fresh. zlen_facts; lia.
Qed.

(** Property C38.  Proquints and even numbers of bytes are the same: what [ipfs_proquint_encode]
    makes of bytes is accepted by [ipfs_proquint_is_proquint] and decoded to them, and every text
    that is accepted is decoded to bytes that are encoded as it. *)
Theorem proquint_roundtrip :
  (forall l post, is_bytes l -> l <> [] -> Z.rem (zlen l) 2 = 0 -> zlen l * 3 <= INT_MAX ->
    exists t, ipfs_proquint_encode (Some (l ++ post)) (zlen l) = Ret (Some (t ++ [0])) /\ nonzero t /\
      ipfs_proquint_is_proquint (Some (t ++ [0])) = Ret 1 /\ ipfs_proquint_decode (t ++ [0]) = Ret (Some l)) /\
  (forall t, nonzero t -> zlen t < INT_MAX -> ipfs_proquint_is_proquint (Some (t ++ [0])) = Ret 1 ->
    exists l, ipfs_proquint_decode (t ++ [0]) = Ret (Some l) /\ is_bytes l /\ 3 * zlen l = zlen t + 1 /\
      ipfs_proquint_encode (Some l) (zlen l) = Ret (Some (t ++ [0]))).
Proof using HM.
  split.
  - intros l post Hb Hne Hev Hmax. pose proof (words_even l Hb Hne Hev) as Hw. exists (proquint_text l).
    split_and!; [by apply encode_ok|by apply words_of|by apply is_proquint_text|by apply decode_ok].
  - intros t Hnz Hmax Ht. unfold ipfs_proquint_is_proquint in Ht. rewrite read_str_nul in Ht by done. cbn [rbind] in Ht.
    destruct (Z.eqb_spec ((zlen t + 1) mod 6) 0) as [E|]; [|done]. injection Ht as Ht.
    destruct (is_inv (Z.to_nat (zlen t / 6)) t 0) as (l & Hw & ->); [done|unfold zlen in *; Z.to_euclidean_division_equations; lia|done|].
    destruct (words_of l Hw) as (H1 & _ & _ & H4 & _ & _). exists l.
    split_and!; [by apply decode_ok|done|lia|]. rewrite <- (app_nil_r l) at 1. apply encode_ok; [done|unfold INT_MAX in *; lia].
Qed.
End proquints.

Lemma proquint_roundtrip_witness : ipfs_proquint_encode (M := malloc_total) (Some [127; 0; 0; 1]) 4 = Ret (Some (lit "lusab-babad")) /\
  exists t, ipfs_proquint_encode (M := malloc_total) (Some [127; 0; 0; 1]) 4 = Ret (Some (t ++ [0])) /\ nonzero t /\
      ipfs_proquint_is_proquint (Some (t ++ [0])) = Ret 1 /\ ipfs_proquint_decode (M := malloc_total) (t ++ [0]) = Ret (Some [127; 0; 0; 1]).
Proof.
  split; [reflexivity|]. apply (proj1 (proquint_roundtrip (M := malloc_total)) [127; 0; 0; 1] []).
  - repeat (apply Forall_cons_2; [split; [discriminate|reflexivity]|]). apply Forall_nil_2.
  - discriminate.
  - reflexivity.
  - vm_compute. discriminate.
Defined.

(** ** Nothing resolves *)
Lemma strcmp_equal a p : nonzero p -> c_strcmp a (p ++ [0]) = Ret 0 -> read_str a = Ret p.
Proof.
  intros Hp E. enough (exists rest, a = p ++ 0 :: rest) as [rest ->] by by apply read_str_nul. revert a E.
  induction Hp as [|y p Hy Hp IH]; intros [|x a] E; try done; cbn [app c_strcmp] in E.
  - destruct (Z.eqb_spec x 0) as [->|]; [by exists a|]. injection E as E. lia.
  - destruct (Z.eqb_spec x y) as [->|]; [|injection E as E; lia]. rewrite (proj2 (Z.eqb_neq y 0) Hy) in E.
    destruct (IH a E) as [rest ->]. by exists rest.
Qed.

Lemma parse_from_cid_fails {M : Malloc} t e x : ipfs_path_parse_from_cid t = Ret (e, x) -> e <> 0.
Proof.
  destruct t as [t|]; [|by intros [= <- _]]. cbn [ipfs_path_parse_from_cid]. intros (c & _ & E)%rbind_inv. case_match; by injection E as <- _.
Qed.

Lemma path_parse_error {M : Malloc} t e x : ipfs_path_parse t = Ret (e, x) -> e <> 0.
Proof.
  destruct t as [t|]; [|by intros [= <- _]]. cbn [ipfs_path_parse]. intros (c & _ & E)%rbind_inv.
  case_match; [by injection E as <- _|]. apply rbind_inv in E as ([] & _ & E).
  - apply rbind_inv in E as (t' & _ & E). apply rbind_inv in E as ([e' d] & E1 & E). injection E as <- _. by apply parse_from_cid_fails in E1.
  - apply rbind_inv in E as (s & Es & E). destruct (Z.ltb_spec (count_char 47 s) 3) as [|Hs]; [by injection E as <- _|].
    assert (forall p, nonzero p -> count_char 47 p < 3 -> c_strcmp t (p ++ [0]) <> Ret 0) as Hno.
    { intros p Hp Hc E0. apply strcmp_equal in E0; [|done]. rewrite E0 in Es. injection Es as ->. lia. }
    apply rbind_inv in E as (e1 & E1 & E).
    destruct (Z.eqb_spec e1 0) as [->|]; [by apply Hno in E1; [|apply (bool_decide_unpack _)|]|].
    apply rbind_inv in E as (e2 & E2 & E).
    destruct (Z.eqb_spec e2 0) as [->|]; [by apply Hno in E2; [|apply (bool_decide_unpack _)|]|]. by injection E as <- _.
Qed.

Lemma parse_entry_error {M : Malloc} t e x : ipfs_dns_parse_entry t = Ret (e, x) -> e <> 0.
Proof.
  unfold ipfs_dns_parse_entry. intros ([e1 b] & E1 & E)%rbind_inv. apply parse_from_cid_fails in E1.
  rewrite (proj2 (Z.eqb_neq _ _) E1) in E. apply rbind_inv in E as (e2 & E2 & E). injection E as <- _.
  unfold ipfs_dns_try_parse_dns_link in E2. apply rbind_inv in E2 as (parts & _ & E2).
  repeat (case_match; try by injection E2 as <-). apply rbind_inv in E2 as ([e3 b3] & E3 & E2). apply path_parse_error in E3.
  rewrite (proj2 (Z.eqb_neq _ _) E3) in E2. by injection E2 as <-.
Qed.

Lemma parse_entries_error {M : Malloc} write records : parse_entries write records <> Ret 0.
Proof.
  induction records as [|t records IH]; cbn [parse_entries]; [done|]. intros ([e x] & E & E')%rbind_inv.
  apply parse_entry_error in E. by rewrite (proj2 (Z.eqb_neq _ _) E) in E'.
Qed.

Lemma try_records_error {M : Malloc} err records : err <> 0 -> try_records err records <> Ret 0.
Proof. revert err. induction records as [|t records IH]; intros err He; cbn [try_records]; [congruence|]. by apply IH. Qed.

(** What never succeeds, whatever the texts, the records and the memory are: the parser of
    paths; the parser of records of namesys/dns.c, and so the search for one for the pipe; the
    resolver of dnslink.c, once and with any number of steps; and the resolver of proquints. *)
Lemma names_never_resolve {M : Malloc} (q : dns_query) (lookup : option lookup_txt) (search : lookup_txt) (write : bytes -> Z)
    (t : option bytes) (s : bytes) (depth : Z) (p : option bytes) (r : option (option bytes)) :
  ipfs_path_parse t <> Ret (0, p) /\
  ipfs_dns_parse_entry s <> Ret (0, p) /\
  ipfs_dns_work_domain write search s <> Ret 0 /\
  ipfs_dnslink_resolve_once q lookup t <> Ret (0, p) /\
  ipfs_dnslink_resolve_n q lookup s depth <> Ret (0, p) /\
  ipfs_proquint_resolve_once t <> Ret (0, r).
Proof.
  assert (Honce : forall t p, ipfs_dnslink_resolve_once q lookup t <> Ret (0, p)).
  { intros [d|] p'; [|done]. intros (d' & _ & E)%rbind_inv. apply rbind_inv in E as (g & _ & E). case_match; [done|].
    apply rbind_inv in E as ([e l] & _ & E). destruct (Z.eqb_spec e 0) as [->|]; cbn [negb] in E; [|congruence].
    apply rbind_inv in E as (e' & E' & [= -> _]). by apply try_records_error in E'. }
  split_and!.
  - by intros ?%path_parse_error.
  - by intros ?%parse_entry_error.
  - unfold ipfs_dns_work_domain. intros ([e l] & _ & E)%rbind_inv.
    destruct (Z.eqb_spec e 0); cbn [negb] in E; [by apply parse_entries_error in E|congruence].
  - apply Honce.
  - unfold ipfs_dnslink_resolve_n. intros (d & _ & E)%rbind_inv. destruct (Z.to_nat depth); [done|]. cbn [resolve_steps] in E.
    apply rbind_inv in E as ([e l] & E1 & E). destruct (Z.eqb_spec e 0) as [->|]; [by apply Honce in E1|]. cbn [negb] in E. congruence.
  - unfold ipfs_proquint_resolve_once. intros (e & _ & E)%rbind_inv. case_match; [done|]. destruct t as [t|]; [|done].
    apply rbind_inv in E as (t' & _ & E). apply rbind_inv in E as ([e2 b] & E2 & E). apply path_parse_error in E2.
    rewrite (proj2 (Z.eqb_neq _ _) E2) in E. congruence.
Qed.

(** ** The links of records *)
Lemma take_cut c n : forall s, split_loop n s [c] = take n (cut c s).
Proof.
  induction n as [|n IH]; intros s; destruct (cut_cons c s) as (w & ws & E); rewrite E; [done|].
  cbn [split_loop]. rewrite strstr_one, E. destruct ws as [|w' ws]; [by rewrite (cut_last c s w E); destruct n|].
  destruct (cut_step c s w w' ws E) as [-> H2]. change (zlen [c]) with 1. by rewrite IH, H2.
Qed.

Lemma cut_nonzero c s : nonzero s -> Forall nonzero (cut c s).
Proof.
  induction 1 as [|x s Hx Hs IH]; [apply Forall_cons_2; apply Forall_nil_2|]. cbn [cut]. destruct (cut_cons c s) as (w & ws & E). rewrite E in *.
  apply Forall_cons in IH as [Hw Hws]. case_match; [apply Forall_cons_2; [apply Forall_nil_2|by apply Forall_cons_2]|]. apply Forall_cons_2; [by apply Forall_cons_2|done].
Qed.

(** the path in a record: it is a link exactly when it is "dnslink", one equals sign and a text
    that begins with a slash; the path is the shortest name of that text *)
Definition link_of (t : bytes) : option bytes :=
  match cut 61 t with
  | [name; link] =>
    if bool_decide (name = dnslink_word /\ head link = Some 47) then Some (render (foldl clean_element None (cut 47 link))) else None
  | _ => None
  end.

Lemma dnslink_parse_spec {M : Malloc} {Hm : MallocOk M} (s rest : bytes) : nonzero s -> zlen s < 2 ^ 62 ->
  ipfs_dnslink_parse_txt true (Some (s ++ 0 :: rest)) =
    Ret match link_of s with Some l => (0, Some (Some (l ++ [0]))) | None => (ErrInvalidDNSLink, Some None) end.
Proof.
  intros Hs Hl. unfold ipfs_dnslink_parse_txt, ipfs_path_split_n, link_of. change (read_str [61; 0]) with (Ret [61]). cbn [rbind].
  change (2 =? 0) with false. change (2 <? 0) with false. cbv iota. rewrite read_str_nul by done. change (int_op (2 + 1)) with (Ret 3). cbn [rbind].
  rewrite !malloc_always. cbn [negb rbind]. rewrite take_cut. change (Z.to_nat 3) with 3%nat.
  pose proof (cut_nonzero 61 s Hs) as Hn. pose proof (glue_cut 61 s) as Hg.
  destruct (cut_cons 61 s) as (w & ws & E). rewrite E in *. destruct ws as [|link [|x [|y ws]]]; cbn [take]; try done.
  apply Forall_cons in Hn as [_ Hn]. apply Forall_cons in Hn as [Hn _].
  rewrite bool_decide_and. case_match; [|done]. rewrite clean_path_ok; [done|done|].
  rewrite <- Hg in Hl. cbn in Hl. rewrite !zlen_app, zlen_cons, zlen_app in Hl. zlen_facts. lia.
Qed.

Definition elements_nonzero (st : clean_state) : Prop := match st with Some (_, l) => Forall nonzero l | None => True end.

Lemma clean_element_nonzero st w : nonzero w -> elements_nonzero st -> elements_nonzero (clean_element st w).
Proof.
  intros Hw Hst. unfold clean_element. repeat case_decide; destruct st as [[r l]|]; cbn in *; try done; try (by repeat constructor).
  - case_match; [done|by apply Forall_take].
  - apply Forall_app. split; [done|by repeat constructor].
Qed.

Lemma render_nonzero st : elements_nonzero st -> nonzero (render st).
Proof.
  assert (Hd : forall l, Forall nonzero l -> nonzero (delimited 47 l)).
  { induction 1 as [|w l Hw Hl IH]; [constructor|]. unfold delimited. cbn. constructor; [done|]. by apply Forall_app. }
  intros Hst. destruct st as [[r l]|]; [|constructor]. cbn in Hst. cbn [render].
  destruct r; [destruct l|]; [by repeat constructor| |]; apply Forall_app; (split; [by repeat constructor|by apply Hd]).
Qed.

Lemma link_nonzero t l : nonzero t -> link_of t = Some l -> nonzero l.
Proof.
  intros Ht. unfold link_of. pose proof (cut_nonzero 61 t Ht) as Hc. destruct (cut 61 t) as [|n [|k [|]]]; try done.
  case_match; [|done]. intros [= <-]. apply Forall_cons in Hc as [_ Hc]. apply Forall_cons in Hc as [Hk _].
  apply render_nonzero. pose proof (cut_nonzero 47 k Hk) as Hs. revert Hs. assert (H0 : elements_nonzero None) by done. revert H0.
  generalize (@None (bool * list bytes)) as st. induction (cut 47 k) as [|w ws IH]; intros st H0 Hs; [done|].
  apply Forall_cons in Hs as [Hw Hs]. cbn [foldl]. apply IH; [by apply clean_element_nonzero|done].
Qed.

(** ** Following links *)
(** the name without the prefix of names that move *)
Definition bare (name : bytes) : bytes := if bool_decide (ztake 6 name = ipns_prefix) then zdrop 6 name else name.

(** what a recursive search finds where [zone] has the text of the record of a name: the error or
    the last path.  Six bytes of a name and its NUL are compared, whatever its length *)
Fixpoint walk (zone : bytes -> option bytes) (n : nat) (name : bytes) : res (Z + bytes) :=
  match n with
  | O => Ret (inr name)
  | S n =>
    if zlen name <? 5 then UB
    else
      match zone (bare name) with
      | None => Ret (inl ErrResolveFailed)
      | Some t =>
        match link_of t with
        | None => Ret (inl ErrInvalidDNSLink)
        | Some l =>
          if zlen l <? 5 then UB
          else if bool_decide (ztake 6 l = ipfs_prefix) then Ret (inr l) else walk zone n l
        end
      end
  end.

Definition record_text (t : bytes) : Prop := nonzero t /\ zlen t <= 255.
(** every answer is one record, with what follows it *)
Definition serves (q : dns_query) (zone : bytes -> option bytes) : Prop :=
  forall name, exists rest, q name = (fun t => [Some (zlen t :: t ++ rest)]) <$> zone name.
Definition zone_ok (zone : bytes -> option bytes) : Prop := forall name t, zone name = Some t -> record_text t.

Section following.
Context {M : Malloc} {Hm : MallocOk M}.

Lemma save_record t rest records buf : record_text t -> zlen buf <= 2048 ->
  save_records (Some (zlen t :: t ++ rest) :: records) buf = save_records records (buf ++ t ++ [0]).
Proof.
  intros [_ Hl] Hb. cbn [save_records]. rewrite rd_0. cbn [rbind]. change (zdrop 1 (zlen t :: t ++ rest)) with (t ++ rest).
  rewrite memrd_app by done. cbn [rbind]. by rewrite (proj2 (Z.ltb_ge _ _)) by lia.
Qed.

Lemma lookup_served q zone name : serves q zone -> zone_ok zone -> nonzero name ->
  ipfs_dnslink_resolv_lookupTXT q (name ++ [0]) =
    Ret match zone name with Some t => (0, [t ++ [0]]) | None => (ErrResolveFailed, []) end.
Proof.
  intros Hq Hz Hn. unfold ipfs_dnslink_resolv_lookupTXT. rewrite read_str_nul by done. cbn [rbind].
  destruct (Hq name) as (rest & ->). destruct (zone name) as [t|] eqn:E; [|done]. cbn [fmap option_fmap option_map].
  rewrite save_record by (zlen_facts; first [by eapply Hz|change (zlen []) with 0; lia]). cbn [save_records rbind].
  by rewrite !malloc_always.
Qed.

Lemma ztake_within n (s k : bytes) : 0 <= n <= zlen s -> ztake n (s ++ k) = ztake n s.
Proof. intros. unfold ztake, zlen in *. apply take_app_le. lia. Qed.
Lemma zdrop_within n (s k : bytes) : 0 <= n <= zlen s -> zdrop n (s ++ k) = zdrop n s ++ k.
Proof. intros. unfold zdrop, zlen in *. apply drop_app_le. lia. Qed.

(** a prefix of six bytes, with the NUL in the object *)
Lemma prefix_nul p s : nonzero p -> bool_decide (ztake 6 (s ++ [0]) = p) = bool_decide (ztake 6 s = p) \/ zlen p <> 6.
Proof.
  intros Hp. destruct (decide (zlen p = 6)) as [Hl|]; [left|by right]. apply bool_decide_ext.
  destruct (Z.le_gt_cases 6 (zlen s)) as [Hs|Hs]; [by rewrite ztake_within by lia|].
  rewrite (ztake_all 6 (s ++ [0])), (ztake_all 6 s) by (rewrite ?zlen_app; change (zlen [0]) with 1; lia).
  split; intros <-; [|lia]. apply Forall_app in Hp as [_ Hp]. by apply Forall_cons in Hp as [? _].
Qed.

Lemma bare_object name : nonzero name -> 5 <= zlen name ->
  (if bool_decide (ztake 6 (name ++ [0]) = ipns_prefix) then zdrop 6 (name ++ [0]) else name ++ [0]) = bare name ++ [0] /\ nonzero (bare name).
Proof.
  intros Hn Hl. destruct (prefix_nul ipns_prefix name) as [->|]; [by repeat constructor| |done]. unfold bare. case_bool_decide as E; [|done].
  assert (6 <= zlen name) by (assert (zlen (ztake 6 name) = 6) by (by rewrite E); unfold ztake, zlen in *; rewrite length_take in *; lia).
  split; [by rewrite zdrop_within by lia|]. by apply Forall_drop.
Qed.

(** one step with a single record *)
Lemma dns_step q zone n r name : serves q zone -> zone_ok zone -> nonzero name ->
  dns_steps q (S n) r (name ++ [0]) =
    if zlen name <? 5 then UB
    else
      match zone (bare name) with
      | None => Ret (inl ErrResolveFailed)
      | Some t =>
        match link_of t with
        | None => Ret (inl ErrInvalidDNSLink)
        | Some l =>
          if r =? 0 then Ret (inr (Some (l ++ [0])))
          else if zlen l <? 5 then UB
          else if bool_decide (ztake 6 l = ipfs_prefix) then Ret (inr (Some (l ++ [0]))) else dns_steps q n r (l ++ [0])
        end
      end.
Proof.
  intros Hq Hz Hn. cbn [dns_steps]. destruct (Z.ltb_spec (zlen name) 5) as [Hl|Hl].
  { by rewrite memrd_over by (rewrite zlen_app; change (zlen [0]) with 1; lia). }
  rewrite memrd_ok by (rewrite zlen_app; change (zlen [0]) with 1; lia). cbn [rbind].
  destruct (bare_object name Hn Hl) as [-> Hb]. rewrite (lookup_served q zone) by done. cbn [rbind].
  destruct (zone (bare name)) as [t|] eqn:Et; [|done]. change (0 =? 0) with true. cbn [negb head].
  destruct (Hz _ _ Et) as [Ht Htl]. rewrite dnslink_parse_spec by (done || lia). cbn [rbind].
  destruct (link_of t) as [l|]; [|done]. change (0 =? 0) with true. cbn [negb mjoin option_join].
  destruct (r =? 0); [done|]. destruct (Z.ltb_spec (zlen l) 5) as [Hll|Hll].
  { by rewrite memrd_over by (rewrite zlen_app; change (zlen [0]) with 1; lia). }
  rewrite memrd_ok by (rewrite zlen_app; change (zlen [0]) with 1; lia). cbn [rbind].
  by destruct (prefix_nul ipfs_prefix l) as [->|]; [by repeat constructor| |].
Qed.

Lemma dns_steps_walk q zone : serves q zone -> zone_ok zone -> forall n name, nonzero name ->
  (dns_steps q n 1 (name ++ [0]) = let! out := walk zone n name in
    Ret match out with inl e => inl e | inr l => inr (Some (l ++ [0])) end) /\
  (forall l, walk zone n name = Ret (inr l) -> nonzero l).
Proof.
  intros Hq Hz. induction n as [|n IH]; intros name Hn; [split; [done|by intros l [= <-]]|].
  rewrite (dns_step q zone) by done. cbn [walk]. destruct (zlen name <? 5); [done|].
  destruct (zone (bare name)) as [t|] eqn:Et; [|done]. destruct (link_of t) as [l|] eqn:El; [|done].
  pose proof (link_nonzero t l (proj1 (Hz _ _ Et)) El) as Hl. change (1 =? 0) with false. cbv iota.
  destruct (zlen l <? 5); [done|]. case_bool_decide; [split; [done|by intros ? [= <-]]|]. by apply IH.
Qed.

Lemma count_down_under fuel : forall r, - 2 ^ 31 <= r <= 0 -> 2 ^ 31 + r < Z.of_nat fuel -> count_down fuel r = UB.
Proof.
  induction fuel as [|fuel IH]; intros r Hr Hf; [lia|]. cbn [count_down]. unfold int_op.
  destruct (Z.leb_spec (- 2 ^ 31) (r - 1)) as [Hlow|]; [|done]. rewrite (proj2 (Z.ltb_lt _ _)) by lia. cbn [andb rbind].
  rewrite (proj2 (Z.eqb_neq _ 0)) by lia. apply IH; lia.
Qed.
End following.

(** Property C39.  What the command [ipfs dns] does where every name has at most one record.  With
    -r it follows the links, a name without a leading /ipns/ at each step, and prints the first
    path that begins with /ipfs/, or the path of the 32nd step; where a name has no record, or
    none that is a link, it prints nothing and returns the error.  Without -r it returns the
    same errors, but when there is a link it never prints it: the loop behind the steps counts
    down from 0 below the range of an int, with any fuel for more than 2^31 turns.  A name that
    has two records is undefined behaviour. *)
Theorem ipfs_dns_follows {M : Malloc} {Hm : MallocOk M} (q : dns_query) (zone : bytes -> option bytes) (a b name rest : bytes) :
  serves q zone -> zone_ok zone -> nonzero name ->
  (forall fuel, (0 < fuel)%nat ->
    ipfs_dns fuel q [a; b; recursive_flag; name ++ 0 :: rest] =
      let! out := walk zone 32 name in Ret match out with inl e => (e, []) | inr l => (0, l ++ [10]) end) /\
  (forall fuel, 2 ^ 31 < Z.of_nat fuel ->
    ipfs_dns fuel q [a; b; name ++ 0 :: rest] =
      if zlen name <? 5 then UB
      else
        match zone (bare name) with
        | None => Ret (ErrResolveFailed, [])
        | Some t => match link_of t with None => Ret (ErrInvalidDNSLink, []) | Some _ => UB end
        end) /\
  (forall fuel q' t1 t2, record_text t1 -> record_text t2 -> q' (bare name) = Some [Some (zlen t1 :: t1); Some (zlen t2 :: t2)] ->
    ipfs_dns fuel q' [a; b; name ++ 0 :: rest] = UB).
Proof.
  intros Hq Hz Hn. unfold ipfs_dns. split_and!.
  - intros [|fuel] Hf; [lia|]. change (c_strcmp recursive_flag recursive_flag) with (Ret 0). cbn [rbind]. change (0 =? 0) with true. cbn [rbind].
    rewrite read_str_nul by done. cbn [rbind]. rewrite malloc_always. cbn [negb]. change (Z.to_nat DefaultDepthLimit) with 32%nat.
    destruct (dns_steps_walk q zone Hq Hz 32 name Hn) as [-> Hl]. destruct (walk zone 32 name) as [[e|l]| | |]; [done| |done..].
    cbn [rbind count_down]. change (int_op (1 - 1)) with (Ret 0). cbn [rbind]. change (0 =? 0) with true. cbn [rbind].
    by rewrite read_str_nul by (by apply Hl).
  - intros fuel Hf. cbn [rbind]. rewrite read_str_nul by done. cbn [rbind]. rewrite malloc_always. cbn [negb].
    change (Z.to_nat DefaultDepthLimit) with 32%nat. rewrite (dns_step q zone) by done. destruct (zlen name <? 5); [done|].
    destruct (zone (bare name)) as [t|]; [|done]. destruct (link_of t) as [l|]; [|done]. change (0 =? 0) with true. cbn [rbind].
    by rewrite count_down_under by lia.
  - intros fuel q' t1 t2 H1 H2 E. cbn [rbind]. rewrite read_str_nul by done. cbn [rbind]. rewrite malloc_always. cbn [negb].
    change (Z.to_nat DefaultDepthLimit) with 32%nat. cbn [dns_steps]. destruct (Z.le_gt_cases 5 (zlen name)) as [Hl|Hl].
    2:{ by rewrite memrd_over by (rewrite zlen_app; change (zlen [0]) with 1; lia). }
    rewrite memrd_ok by (rewrite zlen_app; change (zlen [0]) with 1; lia). cbn [rbind].
    destruct (bare_object name Hn Hl) as [-> Hb]. unfold ipfs_dnslink_resolv_lookupTXT. rewrite read_str_nul by done. cbn [rbind]. rewrite E.
    pose proof (save_record t1 [] [Some (zlen t2 :: t2)] [] H1 ltac:(done)) as S1.
    pose proof (save_record t2 [] [] (t1 ++ [0]) H2) as S2. rewrite app_nil_r in S1, S2. rewrite S1. cbn [app] in S1 |- *. rewrite S2.
    2:{ destruct H1 as [_ H1]. rewrite zlen_app. change (zlen [0]) with 1. lia. }
    cbn [save_records rbind]. by rewrite !malloc_always.
Qed.

Definition ex_zone (name : bytes) : option bytes :=
  if bool_decide (name = txt "foo.io") then Some (txt "dnslink=/ipns/bar.io")
  else if bool_decide (name = txt "bar.io") then Some (txt "dnslink=/ipfs//Qm")
  else if bool_decide (name = txt "text.io") then Some (txt "v=1") else None.

Lemma ipfs_dns_follows_witness :
  let M := malloc_total in
  let q := fun name => (fun t => [Some (zlen t :: t)]) <$> ex_zone name in
  let q2 := fun _ => Some [Some (zlen (txt "a") :: txt "a"); Some (zlen (txt "b") :: txt "b")] in
  let command := [lit "ipfs"; lit "dns"] in
  ipfs_dns 1 q (command ++ [lit "-r"; lit "foo.io"]) = Ret (0, txt "/ipfs/Qm" ++ [10]) /\
  ipfs_dns 1 q (command ++ [lit "-r"; lit "text.io"]) = Ret (ErrInvalidDNSLink, []) /\
  ipfs_dns 1 q (command ++ [lit "-r"; lit "nothing.io"]) = Ret (ErrResolveFailed, []) /\
  (forall fuel, 2 ^ 31 < Z.of_nat fuel -> ipfs_dns fuel q (command ++ [lit "foo.io"]) = UB) /\
  (forall fuel, ipfs_dns fuel q2 (command ++ [lit "foo.io"]) = UB).
Proof.
  intros M q q2 command.
  assert (Hq : serves q ex_zone).
  { intros name. exists []. unfold q. destruct (ex_zone name) as [t|]; [|reflexivity]. cbn. by rewrite app_nil_r. }
  assert (Hz : zone_ok ex_zone).
  { intros name t. unfold ex_zone. repeat case_bool_decide; intros [= <-]; (split; [apply (bool_decide_unpack _); vm_compute; exact I|vm_compute; discriminate]). }
  assert (H1 : record_text (txt "a")) by (split; [apply (bool_decide_unpack _); vm_compute; exact I|vm_compute; discriminate]).
  assert (H2 : record_text (txt "b")) by (split; [apply (bool_decide_unpack _); vm_compute; exact I|vm_compute; discriminate]).
  pose proof (ipfs_dns_follows (M := malloc_total) q ex_zone (lit "ipfs") (lit "dns") (txt "foo.io") [] Hq Hz ltac:(apply (bool_decide_unpack _); vm_compute; exact I)) as (A & B & C).
  pose proof (ipfs_dns_follows (M := malloc_total) q ex_zone (lit "ipfs") (lit "dns") (txt "text.io") [] Hq Hz ltac:(apply (bool_decide_unpack _); vm_compute; exact I)) as (A2 & _ & _).
  pose proof (ipfs_dns_follows (M := malloc_total) q ex_zone (lit "ipfs") (lit "dns") (txt "nothing.io") [] Hq Hz ltac:(apply (bool_decide_unpack _); vm_compute; exact I)) as (A3 & _ & _).
  split; [|split; [|split; [|split]]].
  - etransitivity; [exact (A 1%nat ltac:(lia))|vm_compute; reflexivity].
  - etransitivity; [exact (A2 1%nat ltac:(lia))|vm_compute; reflexivity].
  - etransitivity; [exact (A3 1%nat ltac:(lia))|vm_compute; reflexivity].
  - intros fuel Hf. etransitivity; [exact (B fuel Hf)|vm_compute; reflexivity].
  - intros fuel. exact (C fuel q2 (txt "a") (txt "b") H1 H2 eq_refl).
Defined.

(** ** Escapes *)
Lemma encode_char_ok c : 0 < c < 128 -> c_isalnum c = false ->
  exists a b, rd hex_digits (Z.shiftr c 4) = Ret a /\ rd hex_digits (Z.land c 15) = Ret b /\ nonzero [a; b] /\
    Z.lor (u8 (Z.shiftl (h2b a) 4)) (Z.land (h2b b) 15) = c.
Proof.
  intros Hc Ha.
  pose proof (below_forall 128 (fun c => match rd hex_digits (Z.shiftr c 4), rd hex_digits (Z.land c 15) with
    | Ret a, Ret b => negb (a =? 0) && negb (b =? 0) && (Z.lor (u8 (Z.shiftl (h2b a) 4)) (Z.land (h2b b) 15) =? c) | _, _ => false end)
    eq_refl c ltac:(lia)) as E. cbv beta in E.
  destruct (rd hex_digits (Z.shiftr c 4)) as [a| | |] eqn:E1; try done. destruct (rd hex_digits (Z.land c 15)) as [b| | |] eqn:E2; try done.
  exists a, b. split_and!; [done|done|repeat (apply Forall_cons_2; [lia|]); apply Forall_nil_2|lia].
Qed.

(** the escapes of a text, and that there are three characters for each that is no letter or digit *)
Lemma encode_chars_ok s : Forall (fun c => 0 < c < 128) s -> exists e, encode_chars s = Ret e /\ nonzero e /\
  zlen e = 3 * zlen s - 2 * zlen (filter (fun c => c_isalnum c = true) s) /\ forall rest, decode_chars (e ++ 0 :: rest) = Ret s.
Proof.
  induction 1 as [|c s Hc Hs (e & E & Hn & Hl & Hd)]; [exists []; split_and!; [done|apply Forall_nil_2|done|done]|]. cbn [encode_chars].
  rewrite (proj2 (Z.leb_gt 128 c)) by lia. rewrite filter_cons. destruct (c_isalnum c) eqn:Ea.
  - exists (c :: e). cbn [rbind]. rewrite E. cbn [rbind app]. rewrite decide_True by done. rewrite !zlen_cons.
    split_and!; [done|apply Forall_cons_2; [lia|done]|lia|]. intros rest. cbn [decode_chars].
    rewrite (proj2 (Z.eqb_neq c 0)), (proj2 (Z.eqb_neq c 37)) by (intros ->; (lia || by vm_compute in Ea)). cbn [negb]. by rewrite Hd.
  - destruct (encode_char_ok c Hc Ea) as (a & b & -> & -> & Hab & Ec). exists (37 :: a :: b :: e). cbn [rbind]. rewrite E. cbn [rbind app].
    rewrite decide_False by done. rewrite !zlen_cons. apply Forall_cons in Hab as [Ha Hab]. apply Forall_cons in Hab as [Hb _].
    split_and!; [done|repeat (apply Forall_cons_2; [done|]); done|lia|]. intros rest. cbn [decode_chars]. change (37 =? 0) with false. change (37 =? 37) with true.
    cbn [negb]. rewrite Hd. cbn [rbind]. by rewrite Ec.
Qed.

(** An ASCII text with a letter or digit is got back from its escapes.  Without one the
    object for the escapes has no room for the NUL, and the behaviour is undefined; the empty text
    is one of these. *)
Lemma url_roundtrip {M : Malloc} {HM : MallocOk M} (s rest : bytes) : Forall (fun c => 0 < c < 128) s ->
  if existsb c_isalnum s then
    exists e, libp2p_utils_url_encode (s ++ 0 :: rest) = Ret (Some (e ++ [0])) /\ nonzero e /\
      forall rest', libp2p_utils_url_decode (e ++ 0 :: rest') = Ret (Some (s ++ [0]))
  else libp2p_utils_url_encode (s ++ 0 :: rest) = UB.
Proof.
  intros Hs. destruct (encode_chars_ok s Hs) as (e & E & Hn & Hl & Hd).
  assert (nonzero s) as Hnz by (eapply Forall_impl; [exact Hs|intros c Hc; cbn in Hc; lia]).
  unfold libp2p_utils_url_encode. rewrite read_str_nul by done. cbn [rbind]. rewrite malloc_always. cbn [negb]. rewrite E. cbn [rbind].
  assert (0 <= zlen (filter (fun c => c_isalnum c = true) s) <= zlen s) by (pose proof (length_filter (fun c => c_isalnum c = true) s); unfold zlen; lia).
  destruct (existsb c_isalnum s) eqn:Ex.
  - apply existsb_exists in Ex as (c & Hc%list_elem_of_In & Ha).
    assert (c ∈ filter (fun c => c_isalnum c = true) s) as Hin by (by apply list_elem_of_filter).
    assert (0 < zlen (filter (fun c => c_isalnum c = true) s)) by (destruct (filter _ s); [by apply not_elem_of_nil in Hin|rewrite zlen_cons; zlen_facts; lia]).
    exists e. rewrite (proj2 (Z.ltb_ge _ _)) by lia. rewrite malloc_always. split_and!; [done|done|]. intros rest'.
    unfold libp2p_utils_url_decode. rewrite read_str_nul by done. cbn [rbind]. rewrite malloc_always. cbn [negb]. rewrite Hd. cbn [rbind].
    rewrite (proj2 (Z.ltb_ge _ _)) by lia. by rewrite malloc_always.
  - assert (filter (fun c => c_isalnum c = true) s = []) as Ef.
    { destruct (filter _ s) as [|c l] eqn:Ef; [done|]. assert (c ∈ filter (fun c => c_isalnum c = true) s) as Hin by (rewrite Ef; apply list_elem_of_here).
      apply list_elem_of_filter in Hin as [Ha Hin]. apply not_true_iff_false in Ex as []. apply existsb_exists. exists c. by rewrite <- list_elem_of_In. }
    rewrite Ef in Hl. change (zlen []) with 0 in Hl. by rewrite (proj2 (Z.ltb_lt _ _)) by lia.
Qed.
