(* ===== verification/Pins.v ===== *)
(** * Pins (libipfs/pin/pin.c, pin.h, datastore/key.c)

    The modes of pins and their texts, and whether a node is below another one: what a
    recursive pin of the second one covers. *)
From Stdlib Require Import String.
From S2P Require Import Prelude Varint Digits Protobuf Unixfs Cid Base32 Block CString Files Datastore Blockstore Node Merkledag Paths.
From S2P Require Import CidText Importer ImportTree Exporter Resolver.

(** ** Modes *)
Definition Recursive_pin : Z := 0.
Definition Direct : Z := 1.
Definition Indirect : Z := 2.
Definition Internal : Z := 3.
Definition NotPinned : Z := 4.
Definition Any : Z := 5.
Definition All : Z := 6.

Definition ipfs_pin_linkmap : list bytes := Eval vm_compute in
  txt <$> ["recursive"; "direct"; "indirect"; "internal"; "not pinned"; "any"; "all"]%string.

Record Pinned := mkPinned { pin_Key : option Cid; pin_Mode : Z; pin_Via : option Cid }.

Definition ipfs_pin_mode_to_string (mode : Z) : option bytes :=
  if (mode <? 0) || (zlen ipfs_pin_linkmap <=? mode) then None else ipfs_pin_linkmap !! Z.to_nat mode.

(** the mode whose text it is, from the one with the number [pm] on *)
Fixpoint mode_loop (l : list bytes) (pm : Z) (str : bytes) : res Z :=
  match l with
  | [] => Ret (-1)
  | t :: l => let! c := c_strcmp (t ++ [0]) str in if c =? 0 then Ret pm else mode_loop l (pm + 1) str
  end.
Definition ipfs_string_to_pin_mode (str : bytes) : res Z := mode_loop ipfs_pin_linkmap 0 str.

Definition ipfs_pin_is_pinned (p : Pinned) : Z := if pin_Mode p =? NotPinned then 0 else 1.

(** how two hashes of the node and the child are compared: by size, then by the bytes *)
Definition same_hash (size : Z) (hash : option bytes) (child : bytes) (child_size : Z) : res bool :=
  if size =? child_size then
    let! a := memrd (deref hash) child_size in let! b := memrd child child_size in Ret (bool_decide (a = b))
  else Ret false.

Section pins.
Context {M : Malloc}.

Definition ipfs_pin_pinned_msg (p : Pinned) : res (option bytes) :=
  if pin_Mode p =? NotPinned then
    let msg := txt "not pinned" in Ret (if malloc_ok (zlen msg + 1) then Some (msg ++ [0]) else None)
  else if pin_Mode p =? Indirect then
    match pin_Via p with
    | None => UB
    | Some via =>
      let msg := txt "pinned via " in
      if malloc_ok (u64 (zlen msg + cid_hash_length via + 1)) then
        let! h := memrd (deref (cid_hash via)) (cid_hash_length via) in Ret (Some (msg ++ h ++ [0]))
      else Ret None
    end
  else
    match ipfs_pin_mode_to_string (pin_Mode p) with
    | None => Ret None
    | Some t => let msg := txt "pinned: " in Ret (if malloc_ok (zlen msg + zlen t + 1) then Some (msg ++ t ++ [0]) else None)
    end.

(** the result, and the object that is written; the length that was written is not stored *)
Definition ipfs_datastore_key_new (input output : bytes) (max_output_length : Z) : res (Z * bytes) :=
  let! s := read_str input in
  if max_output_length <? zlen s + 1 then Ret (0, output)
  else let! output := memwr output (s ++ [0]) in Ret (1, output).

(** [pinDatastoreKey], which is set up once, and the result: the success of the key is taken for an
    error, and what follows is not reached unless the key does not fit, which it does *)
Definition PIN_DATASTOREKEY_SIZE : Z := 100.
Definition empty_hash : bytes := Eval vm_compute in txt "QmdfTbBqBPQ7VNxZEYEj14VmRuZBkqFbiwReogJgS1zR1n".
Definition ErrCidDecodeFailed : Z := 24.
Definition ipfs_pin_init (pinDatastoreKey : option bytes) : res (Z * option bytes) :=
  match pinDatastoreKey with
  | Some _ => Ret (0, pinDatastoreKey)
  | None =>
    if negb (malloc_ok PIN_DATASTOREKEY_SIZE) then Ret (ErrAllocFailed, None)
    else
      let! (err, key) := ipfs_datastore_key_new (lit "/local/pins") (fresh PIN_DATASTOREKEY_SIZE) PIN_DATASTOREKEY_SIZE in
      if negb (err =? 0) then Ret (err, None)
      else
        let! cid := ipfs_cid_protobuf_decode empty_hash (zlen empty_hash) in
        match cid with None => Ret (ErrCidDecodeFailed, Some key) | Some _ => Ret (0, Some key) end
  end.
End pins.

Section children.
Context {M : Malloc} {Dk : Disk} {D : Type} {Ds : Datastore D}.

(** the links of a node; [deeper] is the search below a hash *)
Fixpoint child_loop (deeper : bytes -> Z -> res Z) (links : list NodeLink) (child : bytes) (child_size : Z) : res Z :=
  match links with
  | [] => Ret 0
  | l :: links =>
    let! same := same_hash (nl_hash_size l) (nl_hash l) child child_size in
    let! below := if (nl_hash_size l =? child_size) && negb same then deeper (deref (nl_hash l)) (nl_hash_size l) else Ret 0 in
    if negb (below =? 0) then Ret 1 else if same : bool then Ret 1 else child_loop deeper links child child_size
  end.

(** [fuel] bounds the depth: a hash is below itself only if sha256 has a cycle *)
Fixpoint ipfs_pin_has_child (fuel : nat) (ds : FSRepo D) (hash : bytes) (hash_size : Z) (child : bytes) (child_size : Z) : res Z :=
  match fuel with
  | O => NoFuel
  | S fuel =>
    let! node := ipfs_merkledag_get hash hash_size ds in
    match node with
    | None => Ret 0
    | Some node =>
      let! same := same_hash (n_hash_size node) (n_hash node) child child_size in
      if same : bool then Ret 1
      else child_loop (fun h size => ipfs_pin_has_child fuel ds h size child child_size) (n_head_link node) child child_size
    end
  end.
End children.

(** ** What a recursive pin covers *)
Section proofs.
Context {M : Malloc} {Hm : MallocOk M} {Dk : Disk} {D : Type} {Ds : Datastore D} {Dl : DatastoreLaws D} (sha256 : bytes -> bytes).
Context (Hsha : forall b, hash_ok (sha256 b)) (repo : FSRepo D) (Hpath : path_ok (path repo)) (c : bytes) (Hc : zlen c = 32).

Lemma same_hash_ok h : zlen h = 32 -> same_hash 32 (Some h) c 32 = Ret (bool_decide (h = c)).
Proof using Hc.
  intros Hh. unfold same_hash. change (32 =? 32) with true. cbv iota. change (deref (Some h)) with h.
  rewrite !memrd_ok by lia. cbn [rbind]. by rewrite !ztake_all by lia.
Qed.

(** a node with links whose answers are known *)
Lemma child_loop_ok {A} (f : A -> NodeLink) (hash_of : A -> bytes) (below : A -> bool) deeper (xs : list A) :
  Forall (fun x => nl_hash_size (f x) = 32 /\ nl_hash (f x) = Some (hash_of x) /\ zlen (hash_of x) = 32 /\
    deeper (hash_of x) 32 = Ret (if below x then 1 else 0) /\ (hash_of x = c -> below x = true)) xs ->
  child_loop deeper (f <$> xs) c 32 = Ret (if existsb below xs then 1 else 0).
Proof using Hc.
  induction 1 as [|x xs (E1 & E2 & E3 & E4 & E5) _ IH]; [done|]. cbn [fmap list_fmap child_loop existsb]. rewrite E1, E2, same_hash_ok by done.
  cbn [rbind]. change (32 =? 32) with true. change (deref (Some (hash_of x))) with (hash_of x). cbn [andb]. destruct (bool_decide_reflect (hash_of x = c)) as [E|E].
  - cbn [negb rbind]. by rewrite E5.
  - cbn [negb]. rewrite E4. cbn [rbind]. destruct (below x); cbn [orb]; [done|]. by rewrite IH.
Qed.

Lemma has_child_node {A} (f : A -> NodeLink) (hash_of : A -> bytes) (below : A -> bool) fuel h node (xs : list A) : zlen h = 32 ->
  ipfs_merkledag_get h 32 repo = Ret (Some (set_node_hash (Some h) 32 node)) -> n_head_link node = f <$> xs ->
  Forall (fun x => nl_hash_size (f x) = 32 /\ nl_hash (f x) = Some (hash_of x) /\ zlen (hash_of x) = 32 /\
    ipfs_pin_has_child fuel repo (hash_of x) 32 c 32 = Ret (if below x then 1 else 0) /\ (hash_of x = c -> below x = true)) xs ->
  ipfs_pin_has_child (S fuel) repo h 32 c 32 = Ret (if bool_decide (h = c) || existsb below xs then 1 else 0).
Proof using Hc.
  intros Hh Hg Hl Hxs. cbn [ipfs_pin_has_child]. rewrite Hg. cbn [rbind]. change (n_hash_size (set_node_hash (Some h) 32 node)) with 32.
  change (n_hash (set_node_hash (Some h) 32 node)) with (Some h). change (n_head_link (set_node_hash (Some h) 32 node)) with (n_head_link node).
  rewrite same_hash_ok by done. cbn [rbind]. destruct (bool_decide (h = c)); cbn [orb]; [done|]. rewrite Hl. by apply (child_loop_ok f hash_of).
Qed.

Definition tree_hashes (t : tree) : list bytes := node_hash sha256 <$> tree_nodes sha256 t.

Lemma hash_length n : zlen (node_hash sha256 n) = 32.
Proof using Hsha. by destruct (Hsha (node_wire n)). Qed.

Lemma has_child_leaf fuel h node : zlen h = 32 -> ipfs_merkledag_get h 32 repo = Ret (Some (set_node_hash (Some h) 32 node)) -> n_head_link node = [] ->
  ipfs_pin_has_child (S fuel) repo h 32 c 32 = Ret (if bool_decide (h = c) then 1 else 0).
Proof using Hc.
  intros Hh Hg Hl. rewrite (has_child_node (A := unit) (fun _ => link_blank) (fun _ => []) (fun _ => false) fuel h node []); [|done..|constructor].
  cbn [existsb]. by rewrite orb_false_r.
Qed.

(** the hashes of the answers put together *)
Lemma below_any {A} (h : bytes) (below : A -> list bytes) (xs : list A) :
  bool_decide (h = c) || existsb (fun x => bool_decide (c ∈ below x)) xs = bool_decide (c ∈ concat (below <$> xs) ++ [h]).
Proof using Hc.
  apply eq_true_iff_eq. rewrite orb_true_iff, existsb_exists, !bool_decide_eq_true, elem_of_app, list_elem_of_singleton. split.
  - intros [->|(x & Hx & E%bool_decide_eq_true_1)]; [by right|]. left. apply list_elem_of_In, in_concat. exists (below x).
    split; [|by apply list_elem_of_In]. apply list_elem_of_In, list_elem_of_fmap. exists x. split; [done|by apply list_elem_of_In].
  - intros [E| ->]; [|by left]. right. apply list_elem_of_In, in_concat in E as (l & Hl%list_elem_of_In & E%list_elem_of_In).
    apply list_elem_of_fmap in Hl as (x & -> & Hx). exists x. split; [by apply list_elem_of_In|by apply bool_decide_eq_true_2].
Qed.

Lemma has_child_file d fuel : holds sha256 repo (FileT d) ->
  ipfs_pin_has_child (S (S fuel)) repo (node_hash sha256 (tree_node sha256 (FileT d))) 32 c 32 = Ret (if bool_decide (c ∈ tree_hashes (FileT d)) then 1 else 0).
Proof using Hsha Hc Hpath Hm.
  intros Hh. pose proof (tree_get sha256 Hsha repo _ Hpath Hh) as Hg. destruct Hh as (Hs & Hf & _).
  unfold tree_hashes, tree_nodes, tree_node in *. cbn [tree_import fst snd tree_fits] in *. unfold read_tree, tree_node in Hg. cbn [tree_import fst] in Hg.
  pose proof (file_nodes_fit sha256 Hsha d Hf) as Hfit. unfold file_node, file_nodes in *. destruct (full_pieces d) as [|n].
  - rewrite (has_child_leaf _ _ (piece_node d)); [|apply hash_length|exact Hg|done].
    cbn [fmap list_fmap]. erewrite bool_decide_ext; [reflexivity|]. rewrite list_elem_of_singleton. by split.
  - apply Forall_app in Hs as [Hs _]. apply Forall_app in Hfit as [Hfit _]. rewrite Forall_fmap in Hs, Hfit.
    pose (below := fun p => [node_hash sha256 (piece_node p)]).
    rewrite (has_child_node (piece_link sha256) (fun p => node_hash sha256 (piece_node p)) (fun p => bool_decide (c ∈ below p)) (S fuel) _
      (pieces_node sha256 (pieces (S n) d)) (pieces (S n) d)); [|apply hash_length|exact Hg|done|].
    + rewrite below_any. erewrite bool_decide_ext; [reflexivity|]. rewrite fmap_app, <- list_fmap_compose. unfold below. clear.
      rewrite !elem_of_app. f_equiv; [|done]. induction (pieces (S n) d) as [|p l IH]; [done|].
      cbn [fmap list_fmap concat app]. rewrite !elem_of_cons. by rewrite IH.
    + rewrite Forall_forall in *. intros p Hp. split_and!; [done|done|apply hash_length| |by intros <-; apply bool_decide_eq_true_2, list_elem_of_singleton].
      pose proof (stored_get sha256 Hsha (piece_node p) repo Hpath (Hfit p Hp) (Hs p Hp)) as Hgp. rewrite piece_node_saved in Hgp.
      rewrite (has_child_leaf _ _ (piece_node p)); [|apply hash_length|exact Hgp|done].
      erewrite bool_decide_ext; [reflexivity|]. unfold below. rewrite list_elem_of_singleton. by split.
Qed.

Lemma has_child_directory l fuel : holds sha256 repo (DirT l) ->
  Forall (fun e => ipfs_pin_has_child fuel repo (node_hash sha256 (tree_node sha256 (snd e))) 32 c 32 =
    Ret (if bool_decide (c ∈ tree_hashes (snd e)) then 1 else 0)) l ->
  ipfs_pin_has_child (S fuel) repo (node_hash sha256 (tree_node sha256 (DirT l))) 32 c 32 = Ret (if bool_decide (c ∈ tree_hashes (DirT l)) then 1 else 0).
Proof using Hsha Hc Hpath Hm.
  intros Hh Hl. pose proof (tree_get sha256 Hsha repo _ Hpath Hh) as Hg.
  rewrite (has_child_node (entry_of sha256) (fun e => node_hash sha256 (tree_node sha256 (snd e))) (fun e => bool_decide (c ∈ tree_hashes (snd e))) fuel _
    (tree_node sha256 (DirT l)) l); [|apply hash_length|exact Hg|by rewrite <- entry_of_links|].
  - rewrite below_any. erewrite bool_decide_ext; [reflexivity|]. unfold tree_hashes, tree_nodes. cbn [tree_import directory_result snd].
    rewrite fmap_app, !elem_of_app. f_equiv; [|done]. rewrite <- list_fmap_compose. clear.
    induction l as [|e l IH]; [done|]. cbn [fmap list_fmap concat]. rewrite fmap_app, !elem_of_app. by rewrite IH.
  - eapply Forall_impl; [exact Hl|]. intros [n u] E. cbn [snd] in *. split_and!.
    + unfold entry_of, entry_link. cbn [fst snd]. by destruct (tree_import sha256 u) as [[? ?] ?].
    + unfold entry_of, entry_link, tree_node. cbn [fst snd]. by destruct (tree_import sha256 u) as [[? ?] ?].
    + apply hash_length.
    + exact E.
    + intros <-. apply bool_decide_eq_true_2. unfold tree_hashes. apply list_elem_of_fmap_2, tree_node_in.
Qed.

Lemma has_child_tree t : forall fuel, holds sha256 repo t -> (height t < fuel)%nat ->
  ipfs_pin_has_child fuel repo (node_hash sha256 (tree_node sha256 t)) 32 c 32 = Ret (if bool_decide (c ∈ tree_hashes t) then 1 else 0).
Proof using Hsha Hc Hpath Hm.
  induction t as [d|l IH] using tree_induction; intros [|fuel] Hh Hf; try (cbn in Hf; lia); cbn [height] in Hf.
  - destruct fuel; [lia|]. by apply has_child_file.
  - apply has_child_directory; [done|]. rewrite Forall_forall in *. intros [n u] Hin. apply (IH (n, u) Hin).
    + by apply (holds_entry sha256 repo l n u).
    + cbn [snd]. assert (height u <= list_max ((height ∘ snd) <$> l))%nat; [|lia].
      pose proof (proj1 (list_max_le ((height ∘ snd) <$> l) _) (Nat.le_refl _)) as H. rewrite Forall_fmap, Forall_forall in H. exact (H (n, u) Hin).
Qed.
End proofs.

(** Property C40.  What a recursive pin of an imported directory covers: after the import,
    [ipfs_pin_has_child] finds a hash below the root exactly when it is the hash of a node that was
    stored for the directory, and ends when the fuel exceeds the height of the directory. *)
Theorem pin_covers_tree {M : Malloc} {Hm : MallocOk M} {Dk : Disk} {Hd : DiskOk Dk} {Fs : FileSystem} {D : Type}
    {Ds : Datastore D} {Dl : DatastoreLaws D} (sha256 : bytes -> bytes) (st : ImportState D) (t : tree) (fuel fuel' : nat) (s post : bytes)
    (p : ptr HashtableNode) (c : bytes) :
  (forall b, hash_ok (sha256 b)) -> (forall (r : DatastoreRecord) (d : D), fst (datastore_put r d) <> 0) -> path_ok (path (import_repo st)) ->
  on_disk s t -> tree_fits sha256 t -> (height t <= fuel)%nat -> distinct_names sha256 (tree_nodes sha256 t) ->
  zlen c = 32 -> (height t < fuel')%nat ->
  let h := node_hash sha256 (tree_node sha256 t) in
  exists node w st',
    ipfs_import_file sha256 fuel None (s ++ 0 :: post) p 0 1 st = Ret (1, Ptr node, w, st') /\ n_hash node = Some h /\
    ipfs_pin_has_child fuel' (import_repo st') h 32 c 32 = Ret (if bool_decide (c ∈ node_hash sha256 <$> tree_nodes sha256 t) then 1 else 0).
Proof.
  intros Hsha Hput Hp Ht Hf Hfuel Hdn Hc Hfuel' h.
  destruct (import_tree_ok sha256 Hsha Hput t fuel s None post p st Ht Hf Hfuel I Hp) as (st' & E & Hr).
  eexists _, _, st'. split; [exact E|]. split; [done|]. apply (has_child_tree sha256 Hsha); [by rewrite Hr, store_nodes_path|done| |done].
  split; [|split; [done|by eapply on_disk_names]]. rewrite Hr. apply Forall_forall. intros n Hin.
  apply store_nodes_stored; try done. by apply tree_nodes_fit.
Qed.

Lemma pin_covers_tree_witness :
  let M := malloc_total in let Dk := disk_total in let Fs := ex_tree_files in
  let st := mkImport (mkRepo ex_repo_path ∅ (∅ : gmap bytes DatastoreRecord)) [] [] in
  exists node w st',
    ipfs_import_file ex_sha 3 None ([100] ++ 0 :: []) Null 0 1 st = Ret (1, Ptr node, w, st') /\ n_hash node = Some (node_hash ex_sha (tree_node ex_sha ex_tree)) /\
    ipfs_pin_has_child 4 (import_repo st') (node_hash ex_sha (tree_node ex_sha ex_tree)) 32 (node_hash ex_sha (tree_node ex_sha (FileT [3]))) 32 =
      Ret (if bool_decide (node_hash ex_sha (tree_node ex_sha (FileT [3])) ∈ node_hash ex_sha <$> tree_nodes ex_sha ex_tree) then 1 else 0).
Proof.
  intros M Dk Fs st.
  apply (pin_covers_tree ex_sha st ex_tree 3 4 [100] [] Null).
  - exact ex_sha_ok.
  - discriminate.
  - exact ex_repo_path_ok.
  - repeat split; try reflexivity; try discriminate; try (by repeat constructor); try (by apply (bool_decide_unpack _)); eexists; split; reflexivity.
  - repeat split; try reflexivity; try discriminate; repeat (constructor; [split_and!; [reflexivity|discriminate|apply terminated_nul|discriminate|reflexivity|reflexivity|discriminate]|]); constructor.
  - cbn. lia.
  - apply names_distinct. apply (bool_decide_eq_true_1 _). vm_compute. reflexivity.
  - reflexivity.
  - cbn. lia.
Defined.

(** The text of a mode names it. *)
Lemma pin_mode_roundtrip m rest : 0 <= m < 7 -> exists t, ipfs_pin_mode_to_string m = Some t /\ ipfs_string_to_pin_mode (t ++ 0 :: rest) = Ret m.
Proof. intros H. assert (m = 0 \/ m = 1 \/ m = 2 \/ m = 3 \/ m = 4 \/ m = 5 \/ m = 6) as E by lia. by decompose [or] E; subst m; eexists. Qed.

(** With memory, [ipfs_pin_init] takes the success of the key for an error each time: nothing is ever set up. *)
Lemma pin_init_fails {M : Malloc} {Hm : MallocOk M} : ipfs_pin_init None = Ret (1, None).
Proof.
  unfold ipfs_pin_init. rewrite malloc_always. cbn [negb]. unfold ipfs_datastore_key_new.
  change (read_str (lit "/local/pins")) with (Ret (txt "/local/pins")). cbn [rbind]. change (PIN_DATASTOREKEY_SIZE <? zlen (txt "/local/pins") + 1) with false.
  cbv iota. rewrite memwr_ok; [done|]. rewrite zlen_fresh by (unfold PIN_DATASTOREKEY_SIZE; lia). vm_compute. discriminate.
Qed.
