(* ===== verification/JournalMessage.v ===== *)
(** * Journal messages (libipfs/journal/journal_entry.c, journal_message.c)

    What a node sends to the peers it replicates to: the times it has seen and the
    hashes it has stored.  Both structs and their protobuf codecs. *)
From S2P Require Import Prelude Varint Protobuf Multihash Cid Block Vector BitswapMessage.

Record JournalEntry := mkJournalEntry {
  je_timestamp : Z;
  je_pin : Z;
  je_hash : option bytes;
  je_hash_size : Z
}.

Record JournalMessage := mkJournalMessage {
  current_epoch : Z;
  start_epoch : Z;
  end_epoch : Z;
  journal_entries : vector JournalEntry
}.

#[export] Instance JournalEntry_eq_dec : EqDecision JournalEntry.
Proof. solve_decision. Defined.

Definition sizeof_JournalEntry : Z := 32.
Definition sizeof_JournalMessage : Z := 32.

Section journal.
Context {M : Malloc}.

(** ** Entries *)
Definition journal_entry_blank : JournalEntry := mkJournalEntry 0 0 None 0.
Definition ipfs_journal_entry_new : option JournalEntry :=
  if malloc_ok sizeof_JournalEntry then Some journal_entry_blank else None.

(** computed in [int] *)
Definition ipfs_journal_entry_encode_size (entry : JournalEntry) : res Z :=
  let! n := int_op (s32 (je_hash_size entry) + 11) in
  let! n := int_op (n + 1) in
  int_op (n + 11).

(** with no room, [*bytes_written] is not set *)
Definition ipfs_journal_entry_encode (entry : JournalEntry) (buffer : bytes) (max_buffer_size : Z) : encoded :=
  if max_buffer_size =? 0 then Ret ((0, max_buffer_size), buffer)
  else
    let max := max_buffer_size in
    (put_field (protobuf_encode_varint 1 WIRETYPE_VARINT (je_timestamp entry)) max
    (put_field (protobuf_encode_length_delimited 2 WIRETYPE_LENGTH_DELIMITED (deref (je_hash entry)) (je_hash_size entry)) max
    (put_field (protobuf_encode_varint 3 WIRETYPE_VARINT (je_pin entry)) max
    put_done))) 0 buffer.

(** the entry, and [got_something] *)
Definition journal_entry_handler : handler (JournalEntry * bool) := fun field_no p rem '(entry, got) =>
  if field_no =? 1 then
    let! (v, n) := protobuf_decode_varint p rem in
    Ret (Some ((mkJournalEntry v (je_pin entry) (je_hash entry) (je_hash_size entry), true), n))
  else if field_no =? 2 then
    let! s := protobuf_decode_length_delimited p rem in
    match s with
    | None => Ret None
    | Some (d, n) => Ret (Some ((mkJournalEntry (je_timestamp entry) (je_pin entry) (Some d) (zlen d), true), n))
    end
  else if field_no =? 3 then
    let! (v, n) := protobuf_decode_varint p rem in
    Ret (Some ((mkJournalEntry (je_timestamp entry) (if v =? 1 then 1 else 0) (je_hash entry) (je_hash_size entry), true), n))
  else Ret (Some ((entry, got), 0)).

(** a message without a known field is refused; [None]: returned 0 *)
Definition if_something {S} (r : res (option (S * bool))) : res (option S) :=
  let! r := r in
  Ret (match r with Some (s, true) => Some s | _ => None end).

Definition ipfs_journal_entry_decode (incoming : bytes) (incoming_size : Z) : res (option JournalEntry) :=
  match ipfs_journal_entry_new with
  | None => Ret None
  | Some entry =>
    if_something (decode_fields (decode_fuel incoming_size) journal_entry_handler incoming incoming_size 0 (entry, false))
  end.

(** ** Messages *)
Definition ipfs_journal_message_new : res (option JournalMessage) :=
  if malloc_ok sizeof_JournalMessage then
    let! entries := libp2p_utils_vector_new 1 in Ret (Some (mkJournalMessage 0 0 0 entries))
  else Ret None.

Definition ipfs_journal_message_encode_size (message : JournalMessage) : res Z :=
  foldl (fun sz entry =>
    let! sz := sz in
    match entry with
    | None => UB
    | Some entry => let! n := ipfs_journal_entry_encode_size entry in int_op (sz + n)
    end) (Ret 33) (vector_each (journal_entries message)).

Definition journal_entry_field (entry : option JournalEntry) (buffer : bytes) (max : Z) : encoded :=
  match entry with
  | None => UB
  | Some entry =>
    let! temp_size := ipfs_journal_entry_encode_size entry in
    encode_nested 4 (u64 temp_size) (ipfs_journal_entry_encode entry) buffer max
  end.

Definition ipfs_journal_message_encode (message : JournalMessage) (buffer : bytes) (max_buffer_size : Z) : encoded :=
  if max_buffer_size =? 0 then Ret ((0, max_buffer_size), buffer)
  else
    let max := max_buffer_size in
    (put_field (protobuf_encode_varint 1 WIRETYPE_VARINT (current_epoch message)) max
    (put_field (protobuf_encode_varint 2 WIRETYPE_VARINT (start_epoch message)) max
    (put_field (protobuf_encode_varint 3 WIRETYPE_VARINT (end_epoch message)) max
    (put_each journal_entry_field max (vector_each (journal_entries message))
    put_done)))) 0 buffer.

(** the bytes of an entry that could not be copied are used all the same *)
Definition journal_message_handler : handler (JournalMessage * bool) := fun field_no p rem '(m, got) =>
  if field_no =? 1 then
    let! (v, n) := protobuf_decode_varint p rem in
    Ret (Some ((mkJournalMessage v (start_epoch m) (end_epoch m) (journal_entries m), true), n))
  else if field_no =? 2 then
    let! (v, n) := protobuf_decode_varint p rem in
    Ret (Some ((mkJournalMessage (current_epoch m) v (end_epoch m) (journal_entries m), true), n))
  else if field_no =? 3 then
    let! (v, n) := protobuf_decode_varint p rem in
    Ret (Some ((mkJournalMessage (current_epoch m) (start_epoch m) v (journal_entries m), true), n))
  else if field_no =? 4 then
    let! s := protobuf_decode_length_delimited p rem in
    match s with
    | None => UB
    | Some (temp, n) =>
      let! entry := ipfs_journal_entry_decode temp (zlen temp) in
      match entry with
      | None => Ret None
      | Some entry =>
        let! (_, entries) := libp2p_utils_vector_add (journal_entries m) (Some entry) in
        Ret (Some ((mkJournalMessage (current_epoch m) (start_epoch m) (end_epoch m) entries, true), n))
      end
    end
  else Ret (Some ((m, got), 0)).

Definition ipfs_journal_message_decode (incoming : bytes) (incoming_size : Z) : res (option JournalMessage) :=
  let! m := ipfs_journal_message_new in
  match m with
  | None => Ret None
  | Some m =>
    if_something (decode_fields (decode_fuel incoming_size) journal_message_handler incoming incoming_size 0 (m, false))
  end.
End journal.

(** ** Reference forms *)
Definition entry_hash (e : JournalEntry) : bytes := ztake (je_hash_size e) (deref (je_hash e)).

Definition journal_entry_ok (e : JournalEntry) : Prop :=
  0 <= je_timestamp e < 2 ^ 64 /\ 0 <= je_pin e < 2 ^ 8 /\ 0 <= je_hash_size e <= zlen (deref (je_hash e)) /\ je_hash_size e < 2 ^ 20.

Definition journal_entry_wire (e : JournalEntry) : bytes :=
  varint_field 1 (je_timestamp e) ++ bytes_field 2 (entry_hash e) ++ varint_field 3 (je_pin e).

(** a pin other than 1 is not kept *)
Definition journal_entry_saved (e : JournalEntry) : JournalEntry :=
  mkJournalEntry (je_timestamp e) (if je_pin e =? 1 then 1 else 0) (Some (entry_hash e)) (je_hash_size e).

Definition journal_size (l : list JournalEntry) : Z := foldr (fun e z => je_hash_size e + 23 + z) 0 l.

Definition journal_message_ok (m : JournalMessage) : Prop :=
  0 <= current_epoch m < 2 ^ 64 /\ 0 <= start_epoch m < 2 ^ 64 /\ 0 <= end_epoch m < 2 ^ 64 /\
  all_live (journal_entries m) /\ Forall journal_entry_ok (live (journal_entries m)) /\
  journal_size (live (journal_entries m)) + 33 <= INT_MAX.

Definition journal_message_wire (m : JournalMessage) : bytes :=
  varint_field 1 (current_epoch m) ++ varint_field 2 (start_epoch m) ++ varint_field 3 (end_epoch m) ++
  concat ((fun e => bytes_field 4 (journal_entry_wire e)) <$> live (journal_entries m)).

Definition journal_message_saved (m : JournalMessage) : JournalMessage :=
  mkJournalMessage (current_epoch m) (start_epoch m) (end_epoch m)
    (vector_of (Some <$> (journal_entry_saved <$> live (journal_entries m)))).

Lemma entry_hash_length e : journal_entry_ok e -> zlen (entry_hash e) = je_hash_size e.
Proof. intros (_ & _ & H & _). by apply zlen_take. Qed.

Lemma varint_field_pos f v : 0 < zlen (varint_field f v).
Proof. unfold varint_field. rewrite zlen_app. pose proof (wire_key_pos f WIRETYPE_VARINT). zlen_facts. lia. Qed.

Lemma varint_bytes_le3 n : 0 <= n < 2 ^ 21 -> zlen (varint_bytes n) <= 3.
Proof. intros. rewrite varint_bytes_length by lia. unfold varint_encoding_length, N1, N2, N3. repeat case_match; lia. Qed.

Lemma bytes_field_le4 f d : 0 <= f < 16 -> zlen d < 2 ^ 21 -> zlen (bytes_field f d) <= 4 + zlen d.
Proof.
  intros. zlen_facts. unfold bytes_field. rewrite !zlen_app, wire_key_length by auto using wt_delimited_ok.
  pose proof (varint_bytes_le3 (zlen d)). lia.
Qed.

(** the room that is left for the header of the entry in a message *)
Lemma journal_entry_length e : journal_entry_ok e -> 0 < zlen (journal_entry_wire e) <= je_hash_size e + 18.
Proof.
  intros He. pose proof He as (_ & Hp & Hh & Hl). unfold journal_entry_wire. rewrite !zlen_app, <- (entry_hash_length e He) in *.
  pose proof (varint_field_pos 1 (je_timestamp e)). pose proof (varint_field_le 1 (je_timestamp e) ltac:(lia)).
  pose proof (bytes_field_le4 2 (entry_hash e) ltac:(lia) ltac:(lia)).
  assert (zlen (varint_field 3 (je_pin e)) <= 3).
  { unfold varint_field. rewrite zlen_app, wire_key_length by auto with wire lia. pose proof (varint_bytes_le2 (je_pin e)). lia. }
  zlen_facts. lia.
Qed.

Section proofs.
Context {M : Malloc}.

Lemma journal_entry_size_ok e : journal_entry_ok e -> ipfs_journal_entry_encode_size e = Ret (je_hash_size e + 23).
Proof.
  intros (_ & _ & Hh & Hl). unfold ipfs_journal_entry_encode_size. rewrite s32_small by lia.
  do 2 (rewrite int_op_small by lia; cbn [rbind]). rewrite int_op_small by lia. f_equal. lia.
Qed.

(** an encoder that refuses a buffer without room *)
Lemma emits_room (e : bytes -> Z -> encoded) bs : 0 < zlen bs -> emits e bs ->
  emits (fun buffer max => if max =? 0 then Ret ((0, max), buffer) else e buffer max) bs.
Proof. intros Hl He buf max H1 H2 H3. rewrite (proj2 (Z.eqb_neq max 0)) by lia. by apply He. Qed.

Lemma journal_entry_emits e : journal_entry_ok e -> emits (ipfs_journal_entry_encode e) (journal_entry_wire e).
Proof.
  intros He. apply emits_room; [by apply journal_entry_length|]. destruct He as (Ht & Hp & Hh & _).
  apply (emits_continues (fun max => _)). intros max. unfold journal_entry_wire, entry_hash.
  rewrite <- (app_nil_r (varint_field 3 _)). auto 10 with wire lia.
Qed.

Lemma journal_entries_sum l z : Forall journal_entry_ok l -> 0 <= z -> z + journal_size l <= INT_MAX ->
  foldl (fun sz entry =>
    let! sz := sz in
    match entry with
    | None => UB
    | Some entry => let! n := ipfs_journal_entry_encode_size entry in int_op (sz + n)
    end) (Ret z) (Some <$> l) = Ret (z + journal_size l).
Proof.
  intros Hl. revert z. unfold journal_size, INT_MAX. induction Hl as [|e l He Hl IH]; intros z Hz Hb; cbn [fmap list_fmap foldl foldr] in *; [by rewrite Z.add_0_r|].
  assert (0 <= foldr (fun e z => je_hash_size e + 23 + z) 0 l).
  { clear -Hl. induction Hl as [|e l He _ IH]; cbn [foldr]; [done|]. destruct He as (_ & _ & Hh & _). lia. }
  pose proof He as (_ & _ & Hh & Hb20). rewrite journal_entry_size_ok by done. cbn [rbind]. rewrite int_op_small by lia. rewrite IH by lia. f_equal. lia.
Qed.

Lemma journal_message_size_ok m : journal_message_ok m ->
  ipfs_journal_message_encode_size m = Ret (33 + journal_size (live (journal_entries m))).
Proof.
  intros (_ & _ & _ & Hv & Hl & Hs). unfold ipfs_journal_message_encode_size. rewrite vector_each_items, Hv. apply journal_entries_sum; [done|lia..].
Qed.

Lemma journal_message_length m : journal_message_ok m ->
  0 < zlen (journal_message_wire m) <= 33 + journal_size (live (journal_entries m)).
Proof.
  intros (_ & _ & _ & _ & Hl & _). unfold journal_message_wire. rewrite !zlen_app.
  pose proof (varint_field_pos 1 (current_epoch m)). pose proof (varint_field_le 1 (current_epoch m) ltac:(lia)).
  pose proof (varint_field_le 2 (start_epoch m) ltac:(lia)). pose proof (varint_field_le 3 (end_epoch m) ltac:(lia)).
  pose proof (concat_fields_le 4 journal_entry_wire (fun e => je_hash_size e + 23) (live (journal_entries m))) as Hc.
  unfold journal_size. zlen_facts. split; [lia|]. enough (zlen (concat ((fun x => bytes_field 4 (journal_entry_wire x)) <$> live (journal_entries m)))
    <= foldr (fun x z => je_hash_size x + 23 + z) 0 (live (journal_entries m))) by lia.
  apply Hc. eapply Forall_impl; [exact Hl|]. intros e He. cbv beta. pose proof (journal_entry_length e He). destruct He as (_ & _ & Hh & Hb).
  pose proof (bytes_field_le4 4 (journal_entry_wire e) ltac:(lia) ltac:(lia)). lia.
Qed.

Lemma journal_message_emits m : journal_message_ok m -> emits (ipfs_journal_message_encode m) (journal_message_wire m).
Proof.
  intros Hm. apply emits_room; [by apply journal_message_length|]. destruct Hm as (H1 & H2 & H3 & Hv & Hl & Hs).
  apply (emits_continues (fun max => _)). intros max. unfold journal_message_wire. rewrite vector_each_items, Hv.
  apply continues_put; [auto with wire|]. apply continues_put; [auto with wire|]. apply continues_put; [auto with wire|].
  rewrite <- (app_nil_r (concat _)).
  replace ((fun e => bytes_field 4 (journal_entry_wire e)) <$> live (journal_entries m))
    with (from_option (fun e => bytes_field 4 (journal_entry_wire e)) [] <$> (Some <$> live (journal_entries m))) by (by rewrite <- list_fmap_compose).
  apply continues_each; [|apply continues_done]. apply Forall_fmap. eapply Forall_impl; [exact Hl|]. intros e He buf max'. unfold compose, journal_entry_field.
  rewrite journal_entry_size_ok by done. cbn [rbind from_option]. pose proof (journal_entry_length e He). pose proof He as (_ & _ & Hh & Hb).
  rewrite u64_small by lia. apply encode_nested_emits; [auto with wire|by apply journal_entry_emits|unfold INT_MAX; lia].
Qed.

Context {Hm : MallocOk M}.

Tactic Notation "solve_journal" reference(h) :=
  let rest := fresh "rest" in let rem := fresh "rem" in let Hr := fresh "Hr" in
  intros rest rem Hr; unfold h, protobuf_decode_varint; zbool;
  first [ rewrite decode_varint_payload by lia | rewrite decode_bytes_payload by auto ]; cbn [rbind].

Lemma journal_entry_parses e got : journal_entry_ok e ->
  parses journal_entry_handler (journal_entry_wire e) (journal_entry_blank, got) (journal_entry_saved e, true).
Proof.
  intros He. pose proof He as (Ht & Hp & Hh & Hl). unfold journal_entry_wire, journal_entry_saved. rewrite <- (entry_hash_length e He).
  eapply parses_app; [apply parses_varint; [auto with wire|by solve_journal journal_entry_handler]|].
  eapply parses_app; [apply parses_bytes; [auto with wire|by solve_journal journal_entry_handler]|].
  apply parses_varint; [auto with wire|by solve_journal journal_entry_handler].
Qed.

Lemma journal_entry_decode_all e : journal_entry_ok e ->
  ipfs_journal_entry_decode (journal_entry_wire e) (zlen (journal_entry_wire e)) = Ret (Some (journal_entry_saved e)).
Proof.
  intros He. pose proof (journal_entry_length e He). pose proof He as (_ & _ & Hh & Hl).
  unfold ipfs_journal_entry_decode, ipfs_journal_entry_new. rewrite malloc_always.
  pose proof (parses_decode _ _ [] _ _ (journal_entry_parses e false He) ltac:(unfold INT_MAX; lia)) as Hd.
  rewrite app_nil_r in Hd. by rewrite Hd.
Qed.

(** the message read so far *)
Definition journal_read (c s e : Z) (l : list JournalEntry) : JournalMessage * bool :=
  (mkJournalMessage c s e (vector_of (Some <$> (journal_entry_saved <$> l))), true).

Lemma journal_entries_parse c s e l : Forall journal_entry_ok l -> zlen l < 2 ^ 30 ->
  parses journal_message_handler (concat ((fun e => bytes_field 4 (journal_entry_wire e)) <$> l)) (journal_read c s e []) (journal_read c s e l).
Proof.
  intros Hl Hn. apply (parses_list _ (fun e => bytes_field 4 (journal_entry_wire e)) (journal_read c s e)).
  intros pre x post ->. apply Forall_app in Hl as [_ Hl]. apply Forall_cons in Hl as [Hx _]. rewrite zlen_app in Hn. zlen_facts.
  apply parses_bytes; [auto with wire|]. intros rest rem Hr. unfold journal_message_handler, journal_read. zbool.
  rewrite decode_bytes_payload by done. cbn [rbind]. rewrite journal_entry_decode_all by done. cbn [rbind journal_entries].
  rewrite vector_add_of by (rewrite !zlen_fmap; lia). cbn [rbind]. by rewrite !fmap_app.
Qed.

Lemma journal_entries_few m : journal_message_ok m -> zlen (live (journal_entries m)) < 2 ^ 30.
Proof.
  intros (_ & _ & _ & _ & Hl & Hs). pose proof (sum_length_le (fun e => je_hash_size e + 23) 23 (live (journal_entries m))) as Hc.
  unfold journal_size, INT_MAX in *. zlen_facts. enough (23 * zlen (live (journal_entries m)) <= 2 ^ 31 - 1) by lia.
  etransitivity; [apply Hc|lia]. eapply Forall_impl; [exact Hl|]. intros e (_ & _ & Hh & _). cbv beta. lia.
Qed.

Lemma journal_message_parses m : journal_message_ok m ->
  parses journal_message_handler (journal_message_wire m) (mkJournalMessage 0 0 0 (vector_of []), false) (journal_message_saved m, true).
Proof.
  intros Hok. pose proof (journal_entries_few m Hok). destruct Hok as (H1 & H2 & H3 & _ & Hl & _). unfold journal_message_wire.
  do 3 (eapply parses_app; [apply parses_varint; [auto with wire|by solve_journal journal_message_handler]|]).
  by apply (journal_entries_parse (current_epoch m) (start_epoch m) (end_epoch m)).
Qed.

Lemma journal_message_decode_wire m post : journal_message_ok m ->
  ipfs_journal_message_decode (journal_message_wire m ++ post) (zlen (journal_message_wire m)) = Ret (Some (journal_message_saved m)).
Proof.
  intros Hok. pose proof (journal_message_length m Hok). pose proof Hok as (_ & _ & _ & _ & _ & Hs).
  unfold ipfs_journal_message_decode, ipfs_journal_message_new. rewrite malloc_always, vector_new_of. cbn [rbind].
  rewrite (parses_decode _ _ post _ _ (journal_message_parses m Hok)) by lia. done.
Qed.
End proofs.

(** ** Properties *)

(**  A journal message with entries whose hashes are shorter than 1 MiB
    is encoded within its own size estimate, into the bytes of the reference form, and
    decoding what was written gives the message back; a pin that is not 1 becomes 0.
    A message without any of its fields is not decoded. *)
Lemma journal_encode_decode {M : Malloc} {Hm : MallocOk M} (m : JournalMessage) (post : bytes) :
  journal_message_ok m ->
  exists size buf,
    ipfs_journal_message_encode_size m = Ret size /\
    ipfs_journal_message_encode m (fresh size) size = Ret ((1, zlen (journal_message_wire m)), buf) /\
    zlen (journal_message_wire m) <= size /\ zlen buf = size /\
    ipfs_journal_message_decode (buf ++ post) (zlen (journal_message_wire m)) = Ret (Some (journal_message_saved m)) /\
    ipfs_journal_message_decode [] 0 = Ret None.
Proof.
  intros Hok. pose proof (journal_message_length m Hok) as Hl. pose proof Hok as (_ & _ & _ & _ & _ & Hs).
  eexists _, _. split; [by apply journal_message_size_ok|]. zlen_facts.
  rewrite (journal_message_emits m Hok) by (rewrite ?zlen_fresh; lia). split; [done|]. split; [lia|]. split.
  - rewrite zlen_app, zlen_drop, zlen_fresh by (rewrite ?zlen_fresh; lia). lia.
  - rewrite <- app_assoc. split; [by apply journal_message_decode_wire|].
    unfold ipfs_journal_message_decode, ipfs_journal_message_new. by rewrite malloc_always, vector_new_of.
Qed.

Definition sample_journal : JournalMessage :=
  mkJournalMessage 300 100 200 (vector_of [Some (mkJournalEntry 100 1 (Some [18; 32; 7]) 3); Some (mkJournalEntry 200 2 (Some [9]) 0)]).

Lemma sample_journal_ok : journal_message_ok sample_journal.
Proof. by repeat (split || constructor). Qed.
