(* ===== verification/Journal.v ===== *)
(** * Journal synchronisation (libipfs/journal/journal.c)

    A node tells its replication peers which hashes it stored last, and when; a peer
    that is told asks for the blocks it does not have and takes over times that are
    older than its own.  The stream, the routing and the exchange are arguments. *)
From Stdlib Require Import String.
From S2P Require Import Prelude Varint Digits Protobuf Multihash Cid Block Base32 Datastore Vector BitswapMessage CString Base58 Hex Multiaddr Peer Protocol JournalMessage Lmdb.

Record ReplicationPeer := mkReplicationPeer {
  rp_peer : Libp2pPeer;
  lastConnect : Z;
  lastJournalTime : Z
}.

(** [JOURNAL_REMOTE_NEEDS] is never set *)
Inductive JournalAction := JOURNAL_ENTRY_NEEDED | JOURNAL_TIME_ADJUST | JOURNAL_REMOTE_NEEDS.

(** [td_hash] is the pointer of the entry *)
Record JournalToDo := mkToDo {
  td_action : JournalAction;
  td_local_timestamp : Z;
  td_remote_timestamp : Z;
  td_hash : option bytes;
  td_hash_size : Z
}.
Definition sizeof_JournalToDo : Z := 40.

Section journal.
Context {M : Malloc}.

(** ** Sending *)

(** The vector has the same record [snd] times: once [rec] is not NULL, the cursor
    looks for this record, and the pointer is added again.  [None]: NULL is returned,
    or the vector without an item when the cursor cannot be opened. *)
Fixpoint get_last_loop (fuel : nat) (search : nat) (items : list (bytes * bytes)) (cursor : option nat) (rec : JournalRecord) (added : nat) (i n : Z)
  : res (JournalRecord * nat) :=
  match fuel with
  | O => NoFuel
  | S fuel =>
    let added := S added in
    let! (r, record, cursor) := lmdb_journalstore_cursor_get search items cursor CURSOR_PREVIOUS (Some rec) in
    let rec := default rec record in
    if r =? 0 then Ret (rec, added)
    else
      let! i := int_op (i + 1) in
      if i <? n then get_last_loop fuel search items cursor rec added i n else Ret (rec, added)
  end.

Definition ipfs_journal_get_last {T} {L : Lmdb T} (search : nat) (t : T) (n : Z) : res (option (JournalRecord * nat)) :=
  let! _ := libp2p_utils_vector_new (A := JournalRecord) 1 in
  if negb (malloc_ok sizeof_lmdb_trans_cursor) || negb (mdb_txn_begin t =? 0) || negb (mdb_cursor_open t =? 0) then Ret None
  else
    let! (r, rec, cursor) := lmdb_journalstore_cursor_get search (mdb_items JOURNALSTORE t) None CURSOR_LAST None in
    if r =? 0 then Ret None
    else
      match rec with
      | None => UB
      | Some rec => let! v := get_last_loop (S (Z.to_nat n)) search (mdb_items JOURNALSTORE t) cursor rec 0 0 n in Ret (Some v)
      end.

(** one turn of the loop over the records; [None]: no memory for the hash *)
Definition message_add_record (rec : JournalRecord) (m : JournalMessage) : res (option JournalMessage) :=
  let ts := jr_timestamp rec in
  let e := if end_epoch m <? ts then ts else end_epoch m in
  let s := if (start_epoch m =? 0) || (ts <? start_epoch m) then ts else start_epoch m in
  match ipfs_journal_entry_new with
  | None => UB
  | Some _ =>
    if malloc_ok (jr_hash_size rec) then
      let! hash := memrd (deref (jr_hash rec)) (jr_hash_size rec) in
      let! (_, entries) := libp2p_utils_vector_add (journal_entries m) (Some (mkJournalEntry ts 1 (Some hash) (jr_hash_size rec))) in
      Ret (Some (mkJournalMessage (current_epoch m) s e entries))
    else Ret None
  end.
Fixpoint message_add_records (n : nat) (rec : JournalRecord) (m : JournalMessage) : res (option JournalMessage) :=
  match n with
  | O => Ret (Some m)
  | S n =>
    let! m := message_add_record rec m in
    match m with None => Ret None | Some m => message_add_records n rec m end
  end.

(** [libp2p_peer_connect], and the writing on the stream of the session *)
Context (connect : Libp2pPeer -> Libp2pPeer) (write : bytes -> Z).

Definition journal_header : bytes := txt "/ipfs/journalio/1.0.0" ++ [10].

(** the result and what is written *)
Definition ipfs_journal_send_message (peer : Libp2pPeer) (message : JournalMessage) : res (Z * list bytes) :=
  let peer := if connection_type peer =? CONNECTION_TYPE_CONNECTED then peer else connect peer in
  if negb (connection_type peer =? CONNECTION_TYPE_CONNECTED) then Ret (0, [])
  else
    let! size := ipfs_journal_message_encode_size message in
    let! ((r, msg_size), msg) := ipfs_journal_message_encode message (fresh (u64 size)) (u64 size) in
    if r =? 0 then Ret (0, [])
    else
      match sessionContext peer with
      | Some true =>
        if write journal_header =? 0 then Ret (0, [journal_header])
        else
          let! msg := memrd msg msg_size in
          Ret (write msg, [journal_header; msg])
      | _ => UB
      end.

(** a record that is in the vector more than once is freed more than once *)
Definition ipfs_journal_free_records (records : JournalRecord * nat) : res Z := if (2 <=? snd records)%nat then UB else Ret 1.

Definition set_current_epoch (c : Z) (m : JournalMessage) : JournalMessage :=
  mkJournalMessage c (start_epoch m) (end_epoch m) (journal_entries m).

(** [peer] is what the peerstore has for the id of the replication peer, [secure]
    whether its session has a secure stream, [now] what [os_utils_gmtime] returns
    when the message is built, and [journal_records] what [ipfs_journal_get_last]
    returned *)
Definition ipfs_journal_sync (replication_peer : ReplicationPeer) (peer : option Libp2pPeer) (secure : bool)
    (journal_records : option (JournalRecord * nat)) (now : Z) : res (Z * ReplicationPeer * list bytes) :=
  let! _ := libp2p_peer_id_to_string (rp_peer replication_peer) in
  match peer with
  | None => let! _ := libp2p_peer_id_to_string (rp_peer replication_peer) in Ret (0, replication_peer, [])
  | Some peer =>
    if negb (is_local peer =? 0) then Ret (0, replication_peer, [])
    else if match sessionContext peer with None => true | Some _ => negb secure end then Ret (0, replication_peer, [])
    else
      match journal_records with
      | None => Ret (1, mkReplicationPeer (rp_peer replication_peer) now (lastJournalTime replication_peer), [])
      | Some (rec, n) =>
        let! message := ipfs_journal_message_new in
        match message with
        | None => UB
        | Some message =>
          let! message := message_add_records n rec message in
          match message with
          | None => let! _ := ipfs_journal_free_records (rec, n) in Ret (0, replication_peer, [])
          | Some message =>
            let message := set_current_epoch now message in
            let! _ := libp2p_peer_id_to_string peer in
            let! (retVal, sent) := ipfs_journal_send_message peer message in
            let! _ := ipfs_journal_free_records (rec, n) in
            Ret (retVal, if retVal =? 0 then replication_peer
                         else mkReplicationPeer (rp_peer replication_peer) (current_epoch message) (end_epoch message), sent)
          end
        end
      end
  end.

(** ** Receiving *)
Definition journal_todo_blank : JournalToDo := mkToDo JOURNAL_ENTRY_NEEDED 0 0 None 0.
Definition ipfs_journal_todo_new : option JournalToDo := if malloc_ok sizeof_JournalToDo then Some journal_todo_blank else None.

Section handle.
Context {D : Type} {Ds : Datastore D}.

(** what is to be done for an entry; a to-do item without memory is written through
    NULL *)
Definition entry_todo (entry : JournalEntry) (d : D) : res (option JournalToDo) :=
  let! hash := memrd (deref (je_hash entry)) (je_hash_size entry) in
  let new td := match ipfs_journal_todo_new with None => UB | Some _ => Ret (Some td) end in
  match datastore_get hash d with
  | None => new (mkToDo JOURNAL_ENTRY_NEEDED 0 (je_timestamp entry) (je_hash entry) (je_hash_size entry))
  | Some r =>
    if (timestamp r =? 0) && negb (je_timestamp entry =? 0) || negb (je_timestamp entry =? 0) && (je_timestamp entry <? timestamp r)
    then new (mkToDo JOURNAL_TIME_ADJUST (timestamp r) (je_timestamp entry) (je_hash entry) (je_hash_size entry))
    else Ret None
  end.

Fixpoint build_todo (entries : list (option JournalEntry)) (d : D) (todos : vector JournalToDo) : res (vector JournalToDo) :=
  match entries with
  | [] => Ret todos
  | None :: _ => UB
  | Some entry :: entries =>
    let! td := entry_todo entry d in
    let! todos := match td with None => Ret todos | Some td => let! (_, v) := libp2p_utils_vector_add todos (Some td) in Ret v end in
    build_todo entries d todos
  end.
Definition ipfs_journal_build_todo (incoming : JournalMessage) (d : D) : res (Z * vector JournalToDo) :=
  let! todos := libp2p_utils_vector_new 1 in
  let! todos := build_todo (vector_each (journal_entries incoming)) d todos in
  Ret (0, todos).

Definition ipfs_journal_adjust_time (todo : JournalToDo) (d : D) : res (Z * D) :=
  let! hash := memrd (deref (td_hash todo)) (td_hash_size todo) in
  match datastore_get hash d with
  | None => Ret (0, d)
  | Some r =>
    let put r := let (n, d) := datastore_put r d in Ret (if n =? 0 then 0 else 1, d) in
    if td_remote_timestamp todo =? 0 then put r
    else if td_remote_timestamp todo <? timestamp r then put (set_timestamp (td_remote_timestamp todo) r)
    else Ret (1, d)
  end.

(** [exchange->GetBlockAsync]: whether it succeeded, and the block; what it does to
    the datastore *)
Context (GetBlockAsync : option Cid -> D -> (Z * option Block) * D).

(** the datastore, and the hashes that were asked for *)
Fixpoint process_todos (todos : list (option JournalToDo)) (d : D) (asked : list bytes) : res (D * list bytes) :=
  match todos with
  | [] => Ret (d, asked)
  | None :: _ => UB
  | Some curr :: todos =>
    match td_action curr with
    | JOURNAL_ENTRY_NEEDED =>
      let! cid := ipfs_cid_new 0 (td_hash curr) (td_hash_size curr) CID_DAG_PROTOBUF in
      let '((r, block), d) := GetBlockAsync cid d in
      let asked := asked ++ [deref (cid ≫= cid_hash)] in
      match (if r =? 0 then None else block) with
      | Some _ => let! (_, d) := ipfs_journal_adjust_time curr d in process_todos todos d asked
      | None => process_todos todos d asked
      end
    | JOURNAL_TIME_ADJUST => let! (_, d) := ipfs_journal_adjust_time curr d in process_todos todos d asked
    | JOURNAL_REMOTE_NEEDS => process_todos todos d asked
    end
  end.

(** The loop that skips the name of the protocol.  [read] is what the stream has next
    ([None]: it returns 0); the message that was read is freed before it is used.  The
    size of what is behind the newline is one too large.  [None]: returned -1. *)
Fixpoint skip_protocol (n : nat) (i : Z) (data : bytes) (size : Z) (read : option bytes) (pos : ptr bytes * Z) : res (option (ptr bytes * Z)) :=
  match n with
  | O => Ret (Some pos)
  | S n =>
    let! c := rd data i in
    if c =? 10 then
      if i + 1 <? size then let! p := padd data (i + 1) in Ret (Some (Ptr p, size - i))
      else
        match read with
        | None => Ret None
        | Some _ => skip_protocol n (i + 1) data size read (Wild, snd pos)
        end
    else skip_protocol n (i + 1) data size read pos
  end.

(** the result, the datastore, and the hashes that were asked for *)
Definition ipfs_journal_handle_message (incoming_msg : StreamMessage) (read : option bytes) (now : Z) (d : D) : res (Z * D * list bytes) :=
  let data := deref (sm_data incoming_msg) in
  let size := sm_data_size incoming_msg in
  let! pos := skip_protocol (Z.to_nat size) 0 data size read (match sm_data incoming_msg with Some p => Ptr p | None => Null end, size) in
  match pos with
  | None => Ret (-1, d, [])
  | Some (Wild, _) => UB
  | Some (pos, pos_size) =>
    let! message := ipfs_journal_message_decode (pderef pos) pos_size in
    match message with
    | None => Ret (-1, d, [])
    | Some message =>
      let our_time_diff := s64 (u64 (now - current_epoch message)) in
      if our_time_diff =? - 2 ^ 63 then UB
      else if 300 <? Z.abs our_time_diff then Ret (-1, d, [])
      else
        let! (_, todos) := ipfs_journal_build_todo message d in
        let! (d, asked) := process_todos (vector_each todos) d [] in
        Ret (1, d, asked)
    end
  end.
End handle.
End journal.

(** ** Skipping the name *)
Lemma skip_newline header x n size read pos : forall pre, 10 ∉ header -> (length header < n)%nat ->
  skip_protocol n (zlen pre) (pre ++ header ++ 10 :: x) size read pos =
    if zlen pre + zlen header + 1 <? size then Ret (Some (Ptr x, size - (zlen pre + zlen header)))
    else match read with
         | None => Ret None
         | Some _ => skip_protocol (n - S (length header)) (zlen pre + zlen header + 1) (pre ++ header ++ 10 :: x) size read (Wild, snd pos)
         end.
Proof.
  revert n. induction header as [|b header IH]; intros n pre Hh Hn; (destruct n as [|n]; [cbn [length] in Hn; lia|]); cbn [skip_protocol].
  - cbn [app]. change (zlen (@nil Z)) with 0. rewrite Z.add_0_r, rd_app_mid. cbn [rbind]. change (10 =? 10) with true. cbv iota.
    destruct (zlen pre + 1 <? size).
    + change (pre ++ 10 :: x) with (pre ++ [10] ++ x). rewrite app_assoc, padd_app by (rewrite zlen_app; reflexivity). done.
    + destruct read; [|done]. cbn [length]. by rewrite Nat.sub_succ, Nat.sub_0_r.
  - apply not_elem_of_cons in Hh as [Hb Hh]. cbn [app]. rewrite rd_app_mid. cbn [rbind]. rewrite (proj2 (Z.eqb_neq b 10)) by done.
    cbn [length] in Hn. specialize (IH n (pre ++ [b]) Hh ltac:(lia)). rewrite <- !app_assoc in IH. cbn [app] in IH.
    rewrite zlen_app in IH. change (zlen [b]) with 1 in IH. rewrite IH, zlen_cons. cbn [length]. rewrite !Nat.sub_succ, !Z.add_assoc.
    replace (zlen pre + 1 + zlen header) with (zlen pre + zlen header + 1) by lia. by replace (zlen pre + 1 + zlen header + 1) with (zlen pre + zlen header + 1 + 1) by lia.
Qed.

(** ** What is done for an entry *)
Section entries.
Context {M : Malloc} {Hm : MallocOk M} {D : Type} {Ds : Datastore D}.
Context (GetBlockAsync : option Cid -> D -> (Z * option Block) * D).
Implicit Types (d : D) (e : JournalEntry).

(** a record that is later than the entry is put with the time of the entry *)
Definition put_time d e : D :=
  match datastore_get (entry_hash e) d with
  | None => d
  | Some r =>
    if je_timestamp e =? 0 then snd (datastore_put r d)
    else if je_timestamp e <? timestamp r then snd (datastore_put (set_timestamp (je_timestamp e) r) d)
    else d
  end.

Definition entry_cid e : Cid :=
  mkCid 0 CID_DAG_PROTOBUF (if je_hash_size e =? 0 then None else Some (entry_hash e)) (je_hash_size e).

(** [d0] is the datastore when the message arrives, by which what is to be done is chosen *)
Definition follow_up d0 d e : D :=
  match datastore_get (entry_hash e) d0 with
  | None =>
    match GetBlockAsync (Some (entry_cid e)) d with
    | ((0, _), d) | ((_, None), d) => d
    | ((_, Some _), d) => put_time d e
    end
  | Some r => if negb (je_timestamp e =? 0) && ((timestamp r =? 0) || (je_timestamp e <? timestamp r)) then put_time d e else d
  end.

(** the hashes that are not there *)
Definition missing d (entries : list JournalEntry) : list bytes :=
  omap (fun e => match datastore_get (entry_hash e) d with None => Some (entry_hash e) | Some _ => None end) entries.

Definition todo_for d e : option JournalToDo :=
  match datastore_get (entry_hash e) d with
  | None => Some (mkToDo JOURNAL_ENTRY_NEEDED 0 (je_timestamp e) (Some (entry_hash e)) (je_hash_size e))
  | Some r =>
    if (timestamp r =? 0) && negb (je_timestamp e =? 0) || negb (je_timestamp e =? 0) && (je_timestamp e <? timestamp r)
    then Some (mkToDo JOURNAL_TIME_ADJUST (timestamp r) (je_timestamp e) (Some (entry_hash e)) (je_hash_size e)) else None
  end.

Lemma entry_todo_ok d e : journal_entry_ok e -> entry_todo (journal_entry_saved e) d = Ret (todo_for d e).
Proof using Hm.
  intros He. unfold entry_todo, ipfs_journal_todo_new, todo_for. cbn [journal_entry_saved je_hash je_hash_size je_timestamp].
  change (deref (Some (entry_hash e))) with (entry_hash e). rewrite memrd_all by (by rewrite entry_hash_length). cbn [rbind].
  rewrite malloc_always. destruct (datastore_get (entry_hash e) d) as [r|]; [|done]. by destruct (_ || _).
Qed.

Lemma build_todo_ok d entries pre : Forall journal_entry_ok entries -> zlen pre + zlen entries < 2 ^ 30 ->
  build_todo (Some <$> (journal_entry_saved <$> entries)) d (vector_of (Some <$> pre)) = Ret (vector_of (Some <$> (pre ++ omap (todo_for d) entries))).
Proof.
  intros He. revert pre. induction He as [|e entries He _ IH]; intros pre Hl; cbn [fmap list_fmap build_todo omap list_omap].
  - by rewrite app_nil_r.
  - rewrite entry_todo_ok by done. rewrite zlen_cons in Hl. zlen_facts. cbn [rbind]. destruct (todo_for d e) as [td|]; [|by apply IH; lia].
    rewrite vector_add_of by (rewrite zlen_fmap; lia). cbn [rbind]. change [Some td] with (Some <$> [td]). rewrite <- fmap_app, IH by (rewrite zlen_app; change (zlen [td]) with 1; lia).
    by rewrite <- app_assoc.
Qed.

Lemma hash_cid e : journal_entry_ok e -> ipfs_cid_new 0 (Some (entry_hash e)) (je_hash_size e) CID_DAG_PROTOBUF = Ret (Some (entry_cid e)) /\
  deref (cid_hash (entry_cid e)) = entry_hash e.
Proof using Hm.
  intros He. pose proof (entry_hash_length e He) as Hl. unfold ipfs_cid_new, entry_cid. rewrite !malloc_always, <- Hl.
  destruct (Z.eqb_spec (zlen (entry_hash e)) 0) as [E|_].
  - split; [done|]. by rewrite (zlen_0_nil _ E).
  - change (deref (Some (entry_hash e))) with (entry_hash e). rewrite memrd_all by done. by split.
Qed.

Lemma adjust_ok d e td : journal_entry_ok e -> td_hash td = Some (entry_hash e) -> td_hash_size td = je_hash_size e -> td_remote_timestamp td = je_timestamp e ->
  exists n, ipfs_journal_adjust_time td d = Ret (n, put_time d e).
Proof using.
  intros He H1 H2 H3. unfold ipfs_journal_adjust_time, put_time. rewrite H1, H2, H3. change (deref (Some (entry_hash e))) with (entry_hash e).
  rewrite memrd_all by (symmetry; by apply entry_hash_length). cbn [rbind]. destruct (datastore_get (entry_hash e) d) as [r|]; [|by eexists]. cbv zeta.
  destruct (je_timestamp e =? 0); [destruct (datastore_put r d); by eexists|]. destruct (_ <? _); [|by eexists].
  destruct (datastore_put _ d). by eexists.
Qed.

Lemma process_ok d0 entries : Forall journal_entry_ok entries -> forall d asked,
  process_todos GetBlockAsync (Some <$> omap (todo_for d0) entries) d asked = Ret (fold_left (follow_up d0) entries d, asked ++ missing d0 entries).
Proof using Hm.
  induction 1 as [|e entries He _ IH]; intros d asked; [by rewrite app_nil_r|]. cbn [omap list_omap fold_left]. unfold missing. cbn [omap list_omap]. fold (missing d0 entries).
  unfold todo_for at 1, follow_up at 2. destruct (datastore_get (entry_hash e) d0) as [r|].
  - rewrite (andb_comm (timestamp r =? 0)), <- andb_orb_distrib_r. destruct (_ && _); [|apply IH]. cbn [fmap list_fmap process_todos td_action].
    destruct (adjust_ok d e (mkToDo JOURNAL_TIME_ADJUST (timestamp r) (je_timestamp e) (Some (entry_hash e)) (je_hash_size e)) He eq_refl eq_refl eq_refl) as [n ->].
    cbn [rbind]. apply IH.
  - cbn [fmap list_fmap process_todos td_action td_hash td_hash_size]. destruct (hash_cid e He) as [-> Hc]. cbn [rbind mbind option_bind].
    destruct (GetBlockAsync (Some (entry_cid e)) d) as [[n block] d1]. rewrite Hc. change (entry_hash e :: missing d0 entries) with ([entry_hash e] ++ missing d0 entries). rewrite app_assoc.
    destruct (adjust_ok d1 e (mkToDo JOURNAL_ENTRY_NEEDED 0 (je_timestamp e) (Some (entry_hash e)) (je_hash_size e)) He eq_refl eq_refl eq_refl) as [k Ek].
    destruct n as [|n|n]; [apply IH|..]; (destruct block; [|apply IH]); change (_ =? 0) with false; cbv iota; rewrite Ek; cbn [rbind]; apply IH.
Qed.
End entries.

(** ** The size that is one too large *)
Section one_more.
Context {M : Malloc} {Hm : MallocOk M}.

Lemma decode_one_more m post : journal_message_ok m -> zlen (journal_message_wire m) < INT_MAX ->
  let w := journal_message_wire m in
  exists fuel, ipfs_journal_message_decode (w ++ post) (zlen w + 1) =
    if_something (let! (field_no, _, bytes_read) := protobuf_decode_field_and_type post (s32 (zlen w + 1)) in
      let pos := u64 (zlen w + bytes_read) in
      let! p := padd (w ++ post) pos in
      let! r := journal_message_handler field_no p (u64 (zlen w + 1 - pos)) (journal_message_saved m, true) in
      match r with
      | None => Ret None
      | Some (st, n) => decode_fields (S fuel) journal_message_handler (w ++ post) (zlen w + 1) (u64 (pos + n)) st
      end).
Proof using Hm.
  intros Hok Hl w. pose proof (zlen_nonneg w) as Hw. fold w in Hl.
  destruct (journal_message_parses m Hok [] post (zlen w + 1)) as (k & Hk & Hd); [change (zlen (@nil Z)) with 0; fold w; lia|].
  fold w in Hk, Hd. change (zlen (@nil Z)) with 0 in Hd. cbn [app] in Hd. change (0 + zlen w) with (zlen w) in Hd.
  exists (length w - k)%nat. unfold ipfs_journal_message_decode, ipfs_journal_message_new. rewrite malloc_always, vector_new_of. cbn [rbind].
  assert (decode_fuel (zlen w + 1) = (k + S (S (length w - k)))%nat) as -> by (unfold decode_fuel, zlen; lia).
  rewrite Hd. cbn [decode_fields]. rewrite (proj2 (Z.ltb_lt _ _)) by lia. by rewrite padd_app by done.
Qed.

Lemma decode_spare_zero m rest : journal_message_ok m -> zlen (journal_message_wire m) < INT_MAX ->
  ipfs_journal_message_decode (journal_message_wire m ++ 0 :: rest) (zlen (journal_message_wire m) + 1) = Ret (Some (journal_message_saved m)).
Proof using Hm.
  intros Hok Hl. destruct (decode_one_more m (0 :: rest) Hok Hl) as [fuel ->]. set (w := journal_message_wire m) in *. zlen_facts. unfold INT_MAX in Hl.
  assert (protobuf_decode_field_and_type (0 :: rest) (s32 (zlen w + 1)) = Ret (0, 0, 1)) as -> by done. cbn [rbind]. cbv zeta. rewrite u64_small by lia.
  rewrite padd_ok by (rewrite zlen_app, zlen_cons; zlen_facts; lia). cbn [rbind journal_message_handler Z.eqb decode_fields].
  rewrite u64_small, (proj2 (Z.ltb_ge _ _)) by lia. done.
Qed.

Lemma decode_past_end m : journal_message_ok m -> zlen (journal_message_wire m) < INT_MAX ->
  ipfs_journal_message_decode (journal_message_wire m) (zlen (journal_message_wire m) + 1) = UB.
Proof using Hm. intros Hok Hl. destruct (decode_one_more m [] Hok Hl) as [fuel E]. rewrite app_nil_r in E. by rewrite E. Qed.
End one_more.

(** ** The last records *)
Definition item_of (r : JournalRecord) : bytes * bytes :=
  (varint_bytes (jr_timestamp r), jr_pin r :: jr_pending r :: deref (jr_hash r)).
Definition journal_record_ok (r : JournalRecord) : Prop :=
  0 <= jr_timestamp r < 2 ^ 56 /\ exists h, jr_hash r = Some h /\ jr_hash_size r = zlen h /\ 0 < zlen h < 2 ^ 29.

Section last.
Context {M : Malloc} {Hm : MallocOk M}.

Lemma item_read r : journal_record_ok r -> lmdb_journalstore_build_record (fst (item_of r)) (snd (item_of r)) None = Ret (true, Some r).
Proof using Hm.
  destruct r as [ts pin pending hash size]. intros (Ht & h & Hh & Hs & Hz). cbn [jr_timestamp jr_hash jr_hash_size item_of fst snd] in *. subst hash size. change (deref (Some h)) with h.
  pose proof (time_bytes ts Ht). unfold lmdb_journalstore_build_record, lmdb_journal_record_new. rewrite malloc_always, s32_small by lia.
  pose proof (varint_decode_bytes ts [] (zlen (varint_bytes ts)) ltac:(lia) ltac:(lia)) as E. rewrite app_nil_r in E. cbn [jr_timestamp]. rewrite E. cbn [rbind].
  cbn [jr_pin jr_pending]. rewrite rd_0. cbn [rbind]. rewrite rd_1. cbn [rbind]. rewrite !zlen_cons, u64_small, malloc_always by lia.
  rewrite padd_ok by (rewrite !zlen_cons; lia). cbn [rbind]. change (zdrop 2 (pin :: pending :: h)) with h. rewrite memrd_all by lia. cbn [rbind].
  by replace (1 + (1 + zlen h) - 2) with (zlen h) by lia.
Qed.

Lemma compare_hashes_ok a b n i p q : zlen a = zlen b -> n = length a -> i = zlen p -> zlen p = zlen q ->
  exists c, compare_hashes n i (p ++ a) (q ++ b) = Ret c /\ (c = 0 <-> a = b).
Proof using.
  revert b n i p q. induction a as [|x a IH]; intros b n i p q Hl -> -> Hpq; cbn [length compare_hashes].
  - exists 0. split; [done|]. split; [intros _; symmetry; by apply zlen_0_nil|done].
  - destruct b as [|y b]; [rewrite zlen_cons in Hl; zlen_facts; change (zlen (@nil Z)) with 0 in Hl; lia|].
    rewrite rd_app_mid. cbn [rbind]. rewrite Hpq, rd_app_mid. cbn [rbind]. rewrite !zlen_cons in Hl. destruct (Z.eqb_spec x y) as [->|Hne].
    + destruct (IH b (length a) (zlen q + 1) (p ++ [y]) (q ++ [y])) as (c & Hc & Hi); [lia|done|rewrite zlen_app; change (zlen [y]) with 1; lia|rewrite !zlen_app; lia|].
      rewrite <- !app_assoc in Hc. cbn [app] in Hc. exists c. split; [exact Hc|]. rewrite Hi. split; [by intros ->|by intros [= ->]].
    + exists (y - x). split; [done|]. split; [lia|congruence].
Qed.

Lemma compare_records a b : journal_record_ok a -> journal_record_ok b -> jr_timestamp a = jr_timestamp b ->
  exists c, lmdb_journalstore_composite_key_compare (Some a) (Some b) = Ret c /\ (c = 0 <-> jr_hash a = jr_hash b).
Proof using.
  intros (_ & h & Ha & Has & _) (_ & k & Hb & Hbs & _) Ht. cbn [lmdb_journalstore_composite_key_compare]. rewrite Ht, Z.eqb_refl, Has, Hbs, Ha, Hb. cbn [negb].
  destruct (Z.eqb_spec (zlen h) (zlen k)) as [E|Hne].
  - cbn [negb]. change (deref (Some h)) with h. change (deref (Some k)) with k. destruct (compare_hashes_ok h k (Z.to_nat (zlen h)) 0 [] []) as (c & Hc & Hi); [done|unfold zlen; lia|done|done|].
    exists c. split; [exact Hc|]. rewrite Hi. split; congruence.
  - cbn [negb]. eexists. split; [done|]. split; [by destruct (zlen k <? zlen h)|]. intros [= ->]. done.
Qed.

Lemma key_fits r : journal_record_ok r -> exists k, lmdb_journalstore_generate_key r = Ret k.
Proof using. intros (Ht & _). unfold lmdb_journalstore_generate_key. rewrite time_encoded by (done || apply zlen_fresh; lia). by eexists. Qed.

(** in front of the last record [b] of the journal is [a] *)
Lemma previous_found search pre a b cursor : journal_record_ok a -> journal_record_ok b -> (2 <= search)%nat ->
  let items := pre ++ [item_of a; item_of b] in cursor = Some (S (length pre)) ->
  lmdb_journalstore_cursor_get search items cursor CURSOR_PREVIOUS (Some b) =
    Ret (if (jr_timestamp a =? jr_timestamp b) then (if bool_decide (jr_hash a = jr_hash b) then (1, Some (mkJournalRecord (jr_timestamp b) (jr_pin a) (jr_pending a) (jr_hash b) (jr_hash_size b)), Some (length pre))
                                                  else (1, Some b, cursor)) else (0, Some b, Some (length pre))).
Proof using Hm.
  intros Ha Hb Hs items ->. destruct search as [|[|search]]; [lia..|]. destruct (key_fits b Hb) as [k Hk]. unfold lmdb_journalstore_cursor_get. rewrite Hk. cbn [rbind mdb_cursor_get].
  assert (items !! length pre = Some (item_of a) /\ items !! S (length pre) = Some (item_of b)) as [-> E2].
  { unfold items. split; [by rewrite list_lookup_middle|]. change (pre ++ [item_of a; item_of b]) with (pre ++ [item_of a] ++ [item_of b]). rewrite app_assoc.
    apply list_lookup_middle. rewrite length_app. cbn [length]. lia. }
  cbn [fmap option_fmap option_map]. pose proof Hb as (_ & h & Hh & Hhs & Hz). rewrite (proj2 (Z.ltb_lt 0 _)) by lia. rewrite item_read by done. cbn [rbind find_record].
  destruct (Z.eqb_spec (jr_timestamp a) (jr_timestamp b)) as [Et|Hne].
  - destruct (compare_records b a Hb Ha (eq_sym Et)) as (c & -> & Hc). cbn [rbind]. destruct (Z.eqb_spec c 0) as [Ec|Ec].
    + rewrite bool_decide_true by (symmetry; by apply Hc). done.
    + rewrite bool_decide_false by (intros E; apply Ec, Hc; done). rewrite Et, Z.eqb_refl. cbn [negb mdb_cursor_get]. rewrite E2. cbn [fmap option_fmap option_map].
      rewrite item_read by done. cbn [rbind]. destruct (compare_records b b Hb Hb eq_refl) as (c' & -> & Hc'). cbn [rbind]. rewrite (proj2 Hc' eq_refl). cbn [Z.eqb rbind]. by destruct b.
  - cbn [lmdb_journalstore_composite_key_compare]. rewrite (proj2 (Z.eqb_neq (jr_timestamp b) _)) by congruence. cbn [negb rbind]. destruct (jr_timestamp a <? jr_timestamp b); done.
Qed.

(** the last item *)
Lemma last_found search pre a b : journal_record_ok b ->
  lmdb_journalstore_cursor_get search (pre ++ [item_of a; item_of b]) None CURSOR_LAST None = Ret (1, Some b, Some (S (length pre))).
Proof using Hm.
  intros Hb. unfold lmdb_journalstore_cursor_get. cbn [rbind mdb_cursor_get]. rewrite length_app. cbn [length].
  replace (pred (length pre + 2)) with (S (length pre)) by lia. change (pre ++ [item_of a; item_of b]) with (pre ++ [item_of a] ++ [item_of b]).
  rewrite app_assoc, list_lookup_middle by (rewrite length_app; cbn [length]; lia). cbn [fmap option_fmap option_map]. by rewrite item_read by done.
Qed.

(** the loop adds the record again and again *)
Lemma last_loop_same search pre a b n : journal_record_ok a -> journal_record_ok b -> (2 <= search)%nat -> jr_timestamp a = jr_timestamp b -> jr_hash a <> jr_hash b ->
  n < 2 ^ 31 -> forall k f i added, i + Z.of_nat k = n -> 0 <= i -> (0 < k <= f)%nat ->
  get_last_loop f search (pre ++ [item_of a; item_of b]) (Some (S (length pre))) b added i n = Ret (b, (added + k)%nat).
Proof using Hm.
  intros Ha Hb Hs Ht Hne Hn. induction k as [|k IH]; intros f i added Hi Hi0 Hk; [lia|]. destruct f as [|f]; [lia|]. cbn [get_last_loop].
  rewrite (previous_found search pre a b) by done.
  rewrite (proj2 (Z.eqb_eq _ _) Ht), bool_decide_false by done. cbn [rbind default]. change (1 =? 0) with false. cbv iota.
  rewrite int_op_small by lia. cbn [rbind]. destruct (Z.ltb_spec (i + 1) n).
  - change (from_option Datatypes.id b (Some b)) with b. rewrite IH by lia. do 2 f_equal. lia.
  - assert (k = 0)%nat as -> by lia. change (from_option Datatypes.id b (Some b)) with b. do 2 f_equal. lia.
Qed.
End last.

(** ** Properties *)

(** Property C25.  What a journal message leads to.  It arrives in one piece behind the name of
    the protocol, with one more zero byte in memory.  If the sender's clock is more than
    five minutes off, the result is -1 and nothing is done.  Otherwise the result is 1; every
    hash the datastore does not have is asked for, in the order of the message; and, entry
    by entry, a record that was there with a later time than the entry's, or whose block came at
    once, is put with the entry's time if it still has a later one.  A time of 0 in the
    message changes nothing that was there, and a record with the time 0 keeps it.  Whether a put succeeds,
    and what it does to the old record, is the datastore's affair. *)
Theorem journal_message_followed {M : Malloc} {Hm : MallocOk M} {D : Type} {Ds : Datastore D}
    (GetBlockAsync : option Cid -> D -> (Z * option Block) * D)
    (m : JournalMessage) (name rest : bytes) (read : option bytes) (now error : Z) (d : D) :
  journal_message_ok m -> zlen (journal_message_wire m) < INT_MAX -> 10 ∉ name -> 0 <= now < 2 ^ 62 -> current_epoch m < 2 ^ 62 ->
  let wire := journal_message_wire m in let entries := live (journal_entries m) in
  let handle := ipfs_journal_handle_message GetBlockAsync (mkStreamMessage (Some (name ++ 10 :: wire ++ 0 :: rest)) (zlen name + 1 + zlen wire) error) read now d in
  (300 < Z.abs (now - current_epoch m) -> handle = Ret (-1, d, [])) /\
  (Z.abs (now - current_epoch m) <= 300 -> handle = Ret (1, fold_left (follow_up GetBlockAsync d) entries d, missing d entries)).
Proof.
  intros Hok Hmax Hname Hnow Hep wire entries handle. pose proof (journal_message_length m Hok) as Hw. fold wire in Hw. fold wire in Hmax. zlen_facts.
  pose proof (journal_entries_few m Hok) as Hfew. fold entries in Hfew. pose proof Hok as (He & _ & _ & Hv & Hl & Hs).
  assert (handle = let our_time_diff := now - current_epoch m in if 300 <? Z.abs our_time_diff then Ret (-1, d, []) else
    Ret (1, fold_left (follow_up GetBlockAsync d) entries d, missing d entries)) as ->.
  { unfold handle, ipfs_journal_handle_message. cbn [sm_data sm_data_size]. change (deref (Some ?x)) with x.
    pose proof (skip_newline name (wire ++ 0 :: rest) (Z.to_nat (zlen name + 1 + zlen wire)) (zlen name + 1 + zlen wire) read
      (Ptr (name ++ 10 :: wire ++ 0 :: rest), zlen name + 1 + zlen wire) [] Hname ltac:(unfold zlen; lia)) as E.
    change (zlen (@nil Z)) with 0 in E. cbn [app] in E. rewrite E, (proj2 (Z.ltb_lt _ _)) by lia. cbn [rbind pderef].
    replace (zlen name + 1 + zlen wire - (0 + zlen name)) with (zlen wire + 1) by lia.
    unfold wire in *. rewrite decode_spare_zero by (done || lia). cbn [rbind journal_message_saved current_epoch].
    assert (s64 (u64 (now - current_epoch m)) = now - current_epoch m) as ->.
    { unfold s64, u64. rewrite Zplus_mod_idemp_l, Z.mod_small; lia. }
    rewrite (proj2 (Z.eqb_neq _ (- 2 ^ 63))) by lia. cbv zeta. destruct (300 <? Z.abs _); [done|]. unfold ipfs_journal_build_todo. rewrite vector_new_of. cbn [rbind journal_entries].
    rewrite vector_each_items. change (v_items (journal_entries (journal_message_saved m))) with (Some <$> (journal_entry_saved <$> entries)).
    pose proof (build_todo_ok d entries [] Hl ltac:(change (zlen (@nil JournalToDo)) with 0; lia)) as Eb.
    cbn [fmap list_fmap app] in Eb. rewrite Eb. cbn [rbind]. rewrite vector_each_items. cbn [v_items vector_of]. by rewrite process_ok. }
  cbv zeta. split; intros Hdiff; [by rewrite (proj2 (Z.ltb_lt _ _))|by rewrite (proj2 (Z.ltb_ge _ _))].
Qed.

Definition ex_times : gmap bytes DatastoreRecord :=
  <[[18; 32; 7] := mkRecord (Some [18; 32; 7]) 3 (Some [65]) 1 500]> ∅.

Lemma journal_message_followed_witness :
  let M := malloc_total in let wire := journal_message_wire sample_journal in let fetch (c : option Cid) (d : gmap bytes DatastoreRecord) := ((1, @None Block), d) in
  let handle now := ipfs_journal_handle_message fetch (mkStreamMessage (Some (txt "/ipfs/journalio/1.0.0" ++ 10 :: wire ++ 0 :: [])) (zlen (txt "/ipfs/journalio/1.0.0") + 1 + zlen wire) 0) None now ex_times in
  handle 1000 = Ret (-1, ex_times, []) /\
  exists d', handle 310 = Ret (1, d', [[]]) /\ (timestamp <$> d' !! [18; 32; 7]) = Some 100.
Proof.
  intros M wire fetch handle.
  pose proof (fun now (Hnow : 0 <= now < 2 ^ 62) => journal_message_followed fetch sample_journal (txt "/ipfs/journalio/1.0.0") [] None now 0 ex_times
    sample_journal_ok ltac:(by vm_compute) ltac:(by apply (bool_decide_unpack _)) Hnow ltac:(by vm_compute)) as H.
  split.
  - apply (H 1000); [lia|by vm_compute].
  - eexists. split; [apply (H 310); [lia|vm_compute; discriminate]|by vm_compute].
Defined.

(**  What [ipfs_journal_send_message] sends is not what
    [ipfs_journal_handle_message] can take.  The name of the protocol goes out as a
    message of its own, and a node that gets it reads the next message, frees it and
    decodes it; when both come in one object of the size of the message, one byte
    behind it is read. *)
Lemma journal_undefined {M : Malloc} {Hm : MallocOk M} {D : Type} {Ds : Datastore D}
    (GetBlockAsync : option Cid -> D -> (Z * option Block) * D) (connect : Libp2pPeer -> Libp2pPeer) (write : bytes -> Z)
    (m : JournalMessage) (peer : Libp2pPeer) (read : option bytes) (now error : Z) (d : D) :
  journal_message_ok m -> zlen (journal_message_wire m) < INT_MAX -> connection_type peer = CONNECTION_TYPE_CONNECTED -> sessionContext peer = Some true ->
  (forall b, write b = 1) -> is_Some read ->
  let wire := journal_message_wire m in
  ipfs_journal_send_message connect write peer m = Ret (1, [journal_header; wire]) /\
  ipfs_journal_handle_message GetBlockAsync (mkStreamMessage (Some journal_header) (zlen journal_header) error) read now d = UB /\
  ipfs_journal_handle_message GetBlockAsync (mkStreamMessage (Some (journal_header ++ wire)) (zlen journal_header + zlen wire) error) read now d = UB.
Proof.
  intros Hok Hmax Hc Hs Hw [x ->] wire. pose proof (journal_message_length m Hok) as Hl. pose proof Hok as (_ & _ & _ & _ & _ & Hsz).
  fold wire in Hl, Hmax. assert (Hname : 10 ∉ txt "/ipfs/journalio/1.0.0") by (by apply (bool_decide_unpack _)). unfold INT_MAX in *. split_and!.
  - unfold ipfs_journal_send_message. rewrite Hc. change (CONNECTION_TYPE_CONNECTED =? CONNECTION_TYPE_CONNECTED) with true. cbv iota. rewrite Hc.
    change (negb (CONNECTION_TYPE_CONNECTED =? CONNECTION_TYPE_CONNECTED)) with false. cbv iota. rewrite journal_message_size_ok by done. cbn [rbind].
    rewrite u64_small by lia. rewrite (journal_message_emits m Hok) by (rewrite ?zlen_fresh; unfold INT_MAX; fold wire; lia). fold wire. cbn [rbind].
    change (1 =? 0) with false. cbv iota. rewrite Hs, Hw. change (1 =? 0) with false. cbv iota. rewrite memrd_app by done. cbn [rbind]. by rewrite Hw.
  - reflexivity.
  - unfold ipfs_journal_handle_message. cbn [sm_data sm_data_size]. change (deref (Some ?x)) with x.
    pose proof (skip_newline (txt "/ipfs/journalio/1.0.0") wire (Z.to_nat (zlen journal_header + zlen wire)) (zlen journal_header + zlen wire) (Some x)
      (Ptr (journal_header ++ wire), zlen journal_header + zlen wire) [] Hname ltac:(unfold zlen in *; change (length journal_header) with 22%nat; change (length (txt "/ipfs/journalio/1.0.0")) with 21%nat; lia)) as E.
    change ([] ++ txt "/ipfs/journalio/1.0.0" ++ 10 :: wire) with (journal_header ++ wire) in E. change (zlen (@nil Z)) with 0 in E.
    change (zlen (txt "/ipfs/journalio/1.0.0")) with 21 in E. change (zlen journal_header) with 22 in *.
    rewrite E, (proj2 (Z.ltb_lt _ _)) by lia. cbn [rbind pderef]. replace (22 + zlen wire - (0 + 21)) with (zlen wire + 1) by lia.
    unfold wire. by rewrite decode_past_end by (done || unfold INT_MAX; fold wire; lia).
Qed.

(**  The last records of the journal.  Asked for the last [n] records of
    a journal with at least two items, [ipfs_journal_get_last] gives only the very last
    one when the time of the one in front differs: the record is the one that is
    searched for.  When both have one time and different hashes, it gives the same
    record [n] times, and freeing two or more is undefined behaviour. *)
Lemma journal_last_records {M : Malloc} {Hm : MallocOk M} {T : Type} {L : Lmdb T} (search : nat) (t : T) (n : Z) (pre : list (bytes * bytes)) (a b : JournalRecord) :
  mdb_items JOURNALSTORE t = pre ++ [item_of a; item_of b] -> mdb_txn_begin t = 0 -> mdb_cursor_open t = 0 ->
  journal_record_ok a -> journal_record_ok b -> (2 <= search)%nat -> 1 <= n < 2 ^ 31 ->
  (jr_timestamp a <> jr_timestamp b -> ipfs_journal_get_last search t n = Ret (Some (b, 1%nat))) /\
  (jr_timestamp a = jr_timestamp b -> jr_hash a <> jr_hash b ->
   ipfs_journal_get_last search t n = Ret (Some (b, Z.to_nat n)) /\
   (2 <= n -> ipfs_journal_free_records (b, Z.to_nat n) = UB)).
Proof.
  intros Hi Ht Hc Ha Hb Hs Hn. assert (H : forall v, get_last_loop (S (Z.to_nat n)) search (pre ++ [item_of a; item_of b]) (Some (S (length pre))) b 0 0 n = Ret v ->
    ipfs_journal_get_last search t n = Ret (Some v)).
  { intros v E. unfold ipfs_journal_get_last. rewrite vector_new_of, malloc_always, Ht, Hc, Hi. cbn [rbind negb orb Z.eqb]. rewrite last_found by done.
    cbn [rbind]. change (1 =? 0) with false. cbv iota. by rewrite E. }
  split.
  - intros Hne. apply H. cbn [get_last_loop]. rewrite (previous_found search pre a b), (proj2 (Z.eqb_neq _ _) Hne) by done. done.
  - intros He Hd. split.
    + apply H. by rewrite (last_loop_same search pre a b n Ha Hb Hs He Hd ltac:(lia) (Z.to_nat n)) by lia.
    + intros H2. unfold ipfs_journal_free_records. cbn [snd]. by rewrite (proj2 (Nat.leb_le _ _)) by lia.
Qed.

Definition ex_journal_record (ts h : Z) : JournalRecord := mkJournalRecord ts 1 0 (Some [h]) 1.
