(* ===== verification/Decoders.v ===== *)
(** * Which decoders end

    Every decoder of a message is the loop [decode_fields] of [Protobuf] with a
    handler.  The handlers that check where a field ends move forward, and their
    decoders end on every input; those of links and of kademlia records add a length
    they took for a signed number, and do not. *)

From stdpp Require Import base list.
From S2P Require Import Prelude Varint Protobuf Vector Cid Unixfs Block Node BitswapMessage Record KademliaMessage JournalMessage.

Section journal.
Context {M : Malloc}.

Lemma if_something_total {S} (r : res (option (S * bool))) : r <> NoFuel -> if_something r <> NoFuel.
Proof. by destruct r as [[[? []]|]| | |]. Qed.

Lemma journal_entry_handler_forward : forward journal_entry_handler.
Proof.
  intros f p rem [e got] Hp. unfold journal_entry_handler, protobuf_decode_varint.
  destruct (f =? 1); [solve_advances Hp|]. destruct (f =? 2); [solve_advances Hp|]. destruct (f =? 3); solve_advances Hp.
Qed.
Lemma journal_entry_decode_total buf n : zlen buf < 2 ^ 63 -> ipfs_journal_entry_decode buf n <> NoFuel.
Proof.
  intros Hb. unfold ipfs_journal_entry_decode. destruct ipfs_journal_entry_new; [|done].
  by apply if_something_total, decode_fields_terminates; [apply journal_entry_handler_forward|].
Qed.

Lemma journal_message_handler_forward : forward journal_message_handler.
Proof.
  intros f p rem [m got] Hp. unfold journal_message_handler, protobuf_decode_varint.
  destruct (f =? 1); [solve_advances Hp|]. destruct (f =? 2); [solve_advances Hp|]. destruct (f =? 3); [solve_advances Hp|].
  destruct (f =? 4); [|solve_advances Hp].
  pose proof (advances_bytes p rem Hp) as Ha. pose proof (decode_bytes_inv p rem) as Hi. revert Ha Hi.
  destruct (protobuf_decode_length_delimited p rem) as [[[d n]|]| | |]; cbn [advances rbind]; try done. intros Hn Hi. specialize (Hi d n eq_refl).
  pose proof (journal_entry_decode_total d (zlen d) ltac:(lia)) as Ht. revert Ht.
  destruct (ipfs_journal_entry_decode d (zlen d)) as [[e|]| | |]; cbn [rbind]; try done. intros _.
  pose proof (vector_add_total (journal_entries m) (Some e)) as Ht. revert Ht.
  by destruct (libp2p_utils_vector_add (journal_entries m) (Some e)) as [[? ?]| | |].
Qed.
Lemma journal_message_decode_total buf n : zlen buf < 2 ^ 63 -> ipfs_journal_message_decode buf n <> NoFuel.
Proof.
  intros Hb. unfold ipfs_journal_message_decode. apply rbind_total.
  - unfold ipfs_journal_message_new. destruct (malloc_ok _); [|done]. pose proof (vector_new_total (A := JournalEntry) 1) as Ht. revert Ht.
    by destruct (libp2p_utils_vector_new 1).
  - intros [m|] _; [|done]. by apply if_something_total, decode_fields_terminates; [apply journal_message_handler_forward|].
Qed.
End journal.

(** Property C28.  Which decoders end.  Whatever the bytes and the size they are said to
    have, the decoders of UnixFS data, CIDs, blocks, bitswap messages and journal
    messages need no more turns than the size says, the messages inside a message
    included.  The decoder of links does not end on six bytes, and the decoder of
    kademlia messages does not on eleven, whatever follows and however many turns the
    loop is given. *)
Theorem decoders_terminate {M : Malloc} {Hm : MallocOk M} (buffer : bytes) (n : Z) :
  zlen buffer < 2 ^ 63 ->
  (ipfs_unixfs_protobuf_decode buffer n <> NoFuel /\ ipfs_cid_protobuf_decode buffer n <> NoFuel /\
   ipfs_blocks_block_protobuf_decode buffer n <> NoFuel /\ ipfs_bitswap_message_protobuf_decode buffer n <> NoFuel /\
   ipfs_journal_message_decode buffer n <> NoFuel) /\
  (6 <= n <= INT_MAX -> forall fuel st, decode_fields fuel link_handler ([18; 250; 255; 255; 255; 15] ++ buffer) n 0 st = NoFuel) /\
  (11 <= n <= INT_MAX ->
   (forall fuel st, decode_fields fuel record_handler record_loop_message 9 0 st = NoFuel) /\
   libp2p_message_protobuf_decode ((26 :: 9 :: record_loop_message) ++ buffer) n = NoFuel).
Proof.
  intros Hb. split_and!.
  - by apply unixfs_decode_terminates.
  - by apply cid_decode_total.
  - by apply block_decode_total.
  - by apply message_decode_terminates.
  - by apply journal_message_decode_total.
  - intros Hn fuel st. by apply link_decode_diverges.
  - intros Hn. by apply kademlia_decode_diverges.
Qed.

Lemma decoders_terminate_witness :
  let M := malloc_total in
  ipfs_journal_message_decode [8; 1; 34; 255] 20 <> NoFuel /\
  (forall fuel, decode_fields fuel link_handler [18; 250; 255; 255; 255; 15; 8; 1; 34; 255] 10 0 link_blank = NoFuel).
Proof.
  intros M. split.
  - pose proof (decoders_terminate [8; 1; 34; 255] 20) as [H _]; [reflexivity|apply H].
  - intros fuel. pose proof (decoders_terminate [8; 1; 34; 255] 10) as [_ [H _]]; [reflexivity|]. apply (H ltac:(unfold INT_MAX; lia) fuel).
Defined.
