(* ===== verification/Base32Decode.v ===== *)
(** * Base32, the other direction (libp2p/crypto/encoding/base32.c,
    libipfs/datastore/ds_helper.c)

    The decoder with and without a context (the context keeps an incomplete group
    between calls and skips newlines), the functions that allocate, and the way from
    the key of a datastore back to the hash. *)
From S2P Require Import Prelude Protobuf Base32 Cid Block Datastore.

(** ** The table, as it is in the source: the entries of the bytes 64 and 164 are those
    of 32 and 132 *)
Definition B32 (c : Z) : Z :=
  if (65 <=? c) && (c <=? 90) then c - 65
  else if (50 <=? c) && (c <=? 55) then c - 24
  else -1.
Definition b32_table : list Z := B32 <$> (seqZ 0 64 ++ [32] ++ seqZ 65 99 ++ [132] ++ seqZ 165 91).
Definition b32_at (ch : Z) : Z := default (-1) (b32_table !! Z.to_nat ch).
Definition isbase32 (ch : Z) : bool := 0 <=? b32_at ch.

(** ** A group of eight characters *)
(** the output buffer, where the next byte goes, and how many may be written *)
Record dest := mkDest { d_buf : bytes; d_pos : Z; d_left : Z }.

(** [if ( *outleft) { *out++ = c; --*outleft; }] *)
Definition put_char (d : dest) (c : Z) : res dest :=
  if d_left d =? 0 then Ret d
  else
    let! (_, buf) := with_ptr (d_buf d) (d_pos d) (fun p => let! p := memwr p [u8 c] in Ret (tt, p)) in
    Ret (mkDest buf (d_pos d + 1) (d_left d - 1)).

(** tests of the characters at some places, until one fails *)
Fixpoint all_at (test : Z -> bool) (inp : bytes) (places : list Z) : res bool :=
  match places with
  | [] => Ret true
  | i :: places => let! c := rd inp i in if test c then all_at test inp places else Ret false
  end.

(** [b32[to_uchar(in[i])]] *)
Definition value_at (inp : bytes) (i : Z) : res Z := let! c := rd inp i in Ret (b32_at c).

Definition decode_8 (inp : bytes) (inlen : Z) (d : dest) : res (bool * dest) :=
  if inlen <? 8 then Ret (false, d)
  else
    let! ok := all_at isbase32 inp [0; 1] in
    if negb ok then Ret (false, d)
    else
      let! v0 := value_at inp 0 in
      let! v1 := value_at inp 1 in
      let! d := put_char d (Z.lor (Z.shiftl v0 3) (Z.shiftr v1 2)) in
      let! c2 := rd inp 2 in
      if c2 =? pad then let! ok := all_at (Z.eqb pad) inp [3; 4; 5; 6; 7] in Ret (ok, d)
      else
        let! ok := all_at isbase32 inp [2; 3] in
        if negb ok then Ret (false, d)
        else
          let! v2 := value_at inp 2 in
          let! v3 := value_at inp 3 in
          let! d := put_char d (Z.lor (Z.lor (Z.shiftl v1 6) (Z.shiftl v2 1)) (Z.shiftr v3 4)) in
          let! c4 := rd inp 4 in
          if c4 =? pad then let! ok := all_at (Z.eqb pad) inp [5; 6; 7] in Ret (ok, d)
          else
            let! ok := all_at isbase32 inp [4] in
            if negb ok then Ret (false, d)
            else
              let! v4 := value_at inp 4 in
              let! d := put_char d (Z.lor (Z.shiftl v3 4) (Z.shiftr v4 1)) in
              let! c5 := rd inp 5 in
              if c5 =? pad then let! ok := all_at (Z.eqb pad) inp [6; 7] in Ret (ok, d)
              else
                let! ok := all_at isbase32 inp [5; 6] in
                if negb ok then Ret (false, d)
                else
                  let! v5 := value_at inp 5 in
                  let! v6 := value_at inp 6 in
                  let! d := put_char d (Z.lor (Z.lor (Z.shiftl v4 7) (Z.shiftl v5 2)) (Z.shiftr v6 3)) in
                  let! c7 := rd inp 7 in
                  if c7 =? pad then Ret (true, d)
                  else if negb (isbase32 c7) then Ret (false, d)
                  else
                    let! d := put_char d (Z.lor (Z.shiftl v6 5) (b32_at c7)) in
                    Ret (true, d).

(** ** The context *)
Record base32_decode_context := mkB32ctx { ctx_i : Z; ctx_buf : bytes }.

Definition base32_decode_ctx_init (ctx : base32_decode_context) : base32_decode_context := mkB32ctx 0 (ctx_buf ctx).

Definition newline : Z := 10.

(** the loop of [get_8] over the [n] bytes up to [in_end]; what is left of the input *)
Fixpoint get_8_copy (n : nat) (ctx : base32_decode_context) (p : bytes) : res (base32_decode_context * bytes * Z) :=
  match n with
  | O => Ret (ctx, p, 0)
  | S n' =>
    let! c := rd p 0 in
    let! p := padd p 1 in
    if c =? newline then get_8_copy n' ctx p
    else
      let! (_, buf) := with_ptr (ctx_buf ctx) (ctx_i ctx) (fun q => let! q := memwr q [c] in Ret (tt, q)) in
      let ctx := mkB32ctx (ctx_i ctx + 1) buf in
      if ctx_i ctx =? 8 then Ret (ctx, p, Z.of_nat n') else get_8_copy n' ctx p
  end.

(** the context, what is left of the input and its length, the group, and
    [*n_non_newline] *)
Definition get_8 (ctx : base32_decode_context) (inp : bytes) (inlen : Z)
  : res (base32_decode_context * bytes * Z * bytes * Z) :=
  let ctx := if ctx_i ctx =? 8 then mkB32ctx 0 (ctx_buf ctx) else ctx in
  let! whole :=
    if (ctx_i ctx =? 0) && (8 <=? inlen) then
      let! t := memrd inp 8 in Ret (negb (existsb (Z.eqb newline) t))
    else Ret false in
  if whole : bool then let! rest := padd inp 8 in Ret (ctx, rest, inlen - 8, inp, 8)
  else
    let! (ctx, rest, remaining) := get_8_copy (Z.to_nat inlen) ctx inp in
    Ret (ctx, rest, remaining, ctx_buf ctx, ctx_i ctx).

(** ** The decoder *)
(** the inner loop: groups as long as they decode; [outleft_save] and what the last,
    failing call left *)
Fixpoint decode_groups (fuel : nat) (inp : bytes) (inlen : Z) (d : dest) : res (bytes * Z * Z * dest) :=
  match fuel with
  | O => NoFuel
  | S fuel =>
    let! (ok, d') := decode_8 inp inlen d in
    if ok : bool then let! inp := padd inp 8 in decode_groups fuel inp (inlen - 8) d'
    else Ret (inp, inlen, d_left d, d')
  end.

(** the outer loop, and what is returned; the context of the caller, if there is one,
    is changed by [get_8] only, and whether it was empty is decided before the loop *)
Fixpoint base32_decode_loop (fuel : nat) (ctx : option base32_decode_context) (at_start flush : bool)
    (inp : bytes) (inlen : Z) (d : dest) : res (bool * option base32_decode_context * dest) :=
  match fuel with
  | O => NoFuel
  | S fuel =>
    let! (inp, inlen, outleft_save, d) :=
      if at_start && negb flush then decode_groups (S (Z.to_nat inlen)) inp inlen d
      else Ret (inp, inlen, d_left d, d) in
    if (inlen =? 0) && negb flush then Ret (true, ctx, d)
    else
      let! skip := if inlen =? 0 then Ret false else let! c := rd inp 0 in Ret ((c =? newline) && bool_decide (is_Some ctx)) in
      if skip : bool then
        let! inp := padd inp 1 in
        base32_decode_loop fuel ctx at_start flush inp (inlen - 1) d
      else
        let d := mkDest (d_buf d) (d_pos d - (outleft_save - d_left d)) outleft_save in
        let! (ctx, rest, remaining, non_nl, n) :=
          match ctx with
          | Some ctx => let! (ctx, rest, remaining, non_nl, n) := get_8 ctx inp inlen in Ret (Some ctx, rest, remaining, non_nl, n)
          | None => Ret (None, inp, inlen, inp, inlen)
          end in
        if (n =? 0) || ((n <? 8) && negb flush && bool_decide (is_Some ctx)) then Ret (true, ctx, d)
        else
          let! (ok, d) := decode_8 non_nl n d in
          if ok : bool then base32_decode_loop fuel ctx at_start flush rest remaining d
          else Ret (n =? 0, ctx, d)
  end.

(** the result, the context, [out] and [*outlen] *)
Definition base32_decode_ctx (ctx : option base32_decode_context) (inp : bytes) (inlen : Z) (out : bytes) (outlen : Z)
  : res (bool * option base32_decode_context * bytes * Z) :=
  let at_start := match ctx with Some c => ctx_i c =? 0 | None => true end in
  let flush := match ctx with Some _ => inlen =? 0 | None => false end in
  let! (ok, ctx, d) := base32_decode_loop (S (S (Z.to_nat inlen))) ctx at_start flush inp inlen (mkDest out 0 outlen) in
  Ret (ok, ctx, d_buf d, outlen - d_left d).

(** [*out] is [None] when there is no memory or the text is refused *)
Definition base32_decode_alloc_ctx {M : Malloc} (ctx : option base32_decode_context) (inp : bytes) (inlen : Z)
  : res (bool * option base32_decode_context * option (bytes * Z)) :=
  let needlen := 5 * (inlen / 8) + 5 in
  if malloc_ok needlen then
    let! (ok, ctx, out, n) := base32_decode_ctx ctx inp inlen (fresh needlen) needlen in
    Ret (ok, ctx, if ok then Some (out, n) else None)
  else Ret (true, ctx, None).

(** the text with its zero byte, or [None]; the result is its length, or what would
    have been allocated *)
Definition BASE32_LENGTH (inlen : Z) : Z := u64 (u64 (inlen + 4) / 5 * 8).
Definition base32_encode_alloc {M : Malloc} (inp : bytes) (inlen : Z) : res (Z * option bytes) :=
  let outlen := u64 (1 + BASE32_LENGTH inlen) in
  if outlen <? inlen then Ret (0, None)
  else if malloc_ok outlen then
    let! text := base32_encode inp inlen outlen in
    let! out := memwr (fresh outlen) text in
    Ret (u64 (outlen - 1), Some out)
  else Ret (outlen, None).

(** ** The public functions *)
Definition libp2p_crypto_encoding_base32_decode (incoming : bytes) (incoming_length : Z) (results : bytes) (results_length : Z)
  : res (Z * bytes * Z) :=
  let! (retVal, _, results, results_length) := base32_decode_ctx None incoming incoming_length results results_length in
  Ret (if retVal : bool then 1 else 0, results, results_length).

Definition libp2p_crypto_encoding_base32_decode_size (incoming_length : Z) : Z := u64 (5 * (incoming_length / 8) + 5).

(** the result, the buffer, and [*completed_binary_array_length] *)
Definition ipfs_datastore_helper_binary_from_ds_key (ds_key : bytes) (key_length : Z) (binary_array : bytes)
    (max_binary_array_length completed : Z) : res (Z * bytes * Z) :=
  let decoded_length := libp2p_crypto_encoding_base32_decode_size key_length in
  if max_binary_array_length <? decoded_length then Ret (0, binary_array, completed)
  else
    let! (retVal, binary_array, completed) :=
      libp2p_crypto_encoding_base32_decode ds_key key_length binary_array max_binary_array_length in
    if retVal =? 0 then Ret (0, binary_array, 0) else Ret (1, binary_array, completed).

(** ** The reference decoder *)
(** the values of the characters at the front that have one *)
Definition values (l : bytes) : list Z := b32_at <$> l.

(** the bytes of a group with [length l] values *)
Definition group_bytes (l : list Z) : option bytes :=
  match l with
  | [v0; v1] => Some [v0 * 8 + v1 / 4]
  | [v0; v1; v2; v3] => Some [v0 * 8 + v1 / 4; v1 mod 4 * 64 + v2 * 2 + v3 / 16]
  | [v0; v1; v2; v3; v4] => Some [v0 * 8 + v1 / 4; v1 mod 4 * 64 + v2 * 2 + v3 / 16; v3 mod 16 * 16 + v4 / 2]
  | [v0; v1; v2; v3; v4; v5; v6] =>
    Some [v0 * 8 + v1 / 4; v1 mod 4 * 64 + v2 * 2 + v3 / 16; v3 mod 16 * 16 + v4 / 2; v4 mod 2 * 128 + v5 * 4 + v6 / 8]
  | [v0; v1; v2; v3; v4; v5; v6; v7] =>
    Some [v0 * 8 + v1 / 4; v1 mod 4 * 64 + v2 * 2 + v3 / 16; v3 mod 16 * 16 + v4 / 2; v4 mod 2 * 128 + v5 * 4 + v6 / 8; v6 mod 8 * 32 + v7]
  | _ => None
  end.

(** eight characters: values, and padding behind them *)
Fixpoint group_values (l : bytes) : option (list Z) :=
  match l with
  | [] => Some []
  | c :: l =>
    if c =? pad then if forallb (Z.eqb pad) l then Some [] else None
    else if isbase32 c then cons (b32_at c) <$> group_values l else None
  end.
Definition group_value (l : bytes) : option bytes := group_values l ≫= group_bytes.

(** a text: groups of eight characters *)
Fixpoint b32_value (s : bytes) : option bytes :=
  match s with
  | [] => Some []
  | a :: b :: c :: d :: e :: f :: g :: h :: s =>
    match group_value [a; b; c; d; e; f; g; h], b32_value s with
    | Some v, Some w => Some (v ++ w)
    | _, _ => None
    end
  | _ => None
  end.

(** ** Writing *)
Definition dest_ok (d : dest) : Prop := 0 <= d_pos d /\ 0 <= d_left d /\ d_pos d + d_left d <= zlen (d_buf d).

(** [d] after the bytes [w], as many as there is room for *)
Definition push (d : dest) (w : bytes) : dest :=
  let k := ztake (d_left d) w in
  mkDest (ztake (d_pos d) (d_buf d) ++ k ++ zdrop (d_pos d + zlen k) (d_buf d)) (d_pos d + zlen k) (d_left d - zlen k).

Lemma push_nil d : dest_ok d -> push d [] = d.
Proof.
  destruct d as [b p l]. intros (H1 & H2 & H3). unfold push. cbn [d_buf d_pos d_left] in *. unfold ztake at 2 3 4 5. rewrite take_nil.
  change (zlen (@nil Z)) with 0. rewrite Z.add_0_r, Z.sub_0_r. cbn [app]. by rewrite ztake_zdrop.
Qed.

Lemma ztake_length_le n (w : bytes) : 0 <= n -> zlen (ztake n w) = Z.min n (zlen w).
Proof. intros. unfold zlen, ztake. rewrite length_take. lia. Qed.

Lemma ztake_snoc n (w : bytes) c : 0 <= n -> ztake n (w ++ [c]) = if zlen w <? n then w ++ [c] else ztake n w.
Proof.
  intros Hn. unfold ztake, zlen. destruct (Z.ltb_spec (Z.of_nat (length w)) n).
  - apply take_ge. rewrite length_app. cbn [length]. lia.
  - by rewrite take_app_le by lia.
Qed.

Lemma push_ok d w : dest_ok d -> dest_ok (push d w).
Proof.
  destruct d as [b p l]. intros (H1 & H2 & H3). unfold dest_ok, push. cbn [d_buf d_pos d_left] in *.
  pose proof (ztake_length_le l w H2). zlen_facts. rewrite !zlen_app, (zlen_take p b), zlen_drop by lia. lia.
Qed.

Lemma put_char_ok d w c : dest_ok d -> put_char (push d w) c = Ret (push d (w ++ [u8 c])).
Proof.
  destruct d as [b p l]. intros (H1 & H2 & H3). cbn [d_buf d_pos d_left] in *. unfold put_char, push. cbn [d_buf d_pos d_left].
  pose proof (ztake_length_le l w H2) as Hk. zlen_facts. rewrite ztake_snoc by lia. destruct (Z.ltb_spec (zlen w) l) as [Hl|Hl].
  - rewrite (ztake_all l w) in * by lia. rewrite (proj2 (Z.eqb_neq _ 0)) by lia. rewrite !app_assoc.
    set (pre := ztake p b ++ w). assert (zlen pre = p + zlen w) as <- by (unfold pre; rewrite zlen_app, zlen_take by lia; lia).
    assert (zlen (pre ++ [u8 c]) <= zlen b) as Hb by (unfold pre; rewrite !zlen_app, zlen_take by lia; change (zlen [u8 c]) with 1; lia).
    rewrite zlen_app in Hb. pose proof (zlen_nonneg pre). pose proof (zlen_nonneg [u8 c]).
    rewrite (with_ptr_append pre [u8 c] b _ tt); [|by rewrite memwr_ok by (rewrite zlen_drop by lia; lia)|done].
    cbn [rbind]. unfold pre. rewrite <- !app_assoc, !zlen_app, (zlen_take p b) by lia. change (zlen [u8 c]) with 1.
    f_equal. f_equal; lia.
  - rewrite (proj2 (Z.eqb_eq _ 0)) by lia. done.
Qed.


(** ** The bits of a group *)
Ltac bits :=
  intros; rewrite <- ?Z.lor_assoc, ?Z.shiftr_div_pow2 by lia;
  rewrite ?lor_shiftl by (rewrite ?lor_shiftl by (Z.to_euclidean_division_equations; lia); Z.to_euclidean_division_equations; lia);
  unfold u8; Z.to_euclidean_division_equations; lia.
Lemma bits_0 v0 v1 : 0 <= v0 < 32 -> 0 <= v1 < 32 -> u8 (Z.lor (Z.shiftl v0 3) (Z.shiftr v1 2)) = v0 * 8 + v1 / 4.
Proof. bits. Qed.
Lemma bits_1 v1 v2 v3 : 0 <= v1 < 32 -> 0 <= v2 < 32 -> 0 <= v3 < 32 ->
  u8 (Z.lor (Z.lor (Z.shiftl v1 6) (Z.shiftl v2 1)) (Z.shiftr v3 4)) = v1 mod 4 * 64 + v2 * 2 + v3 / 16.
Proof. bits. Qed.
Lemma bits_2 v3 v4 : 0 <= v3 < 32 -> 0 <= v4 < 32 -> u8 (Z.lor (Z.shiftl v3 4) (Z.shiftr v4 1)) = v3 mod 16 * 16 + v4 / 2.
Proof. bits. Qed.
Lemma bits_3 v4 v5 v6 : 0 <= v4 < 32 -> 0 <= v5 < 32 -> 0 <= v6 < 32 ->
  u8 (Z.lor (Z.lor (Z.shiftl v4 7) (Z.shiftl v5 2)) (Z.shiftr v6 3)) = v4 mod 2 * 128 + v5 * 4 + v6 / 8.
Proof. bits. Qed.
Lemma bits_4 v6 v7 : 0 <= v6 < 32 -> 0 <= v7 < 32 -> u8 (Z.lor (Z.shiftl v6 5) v7) = v6 mod 8 * 32 + v7.
Proof. bits. Qed.

Lemma base32_value c : isbase32 c = true -> 0 <= b32_at c < 32.
Proof.
  unfold isbase32. intros H%Z.leb_le. split; [done|]. revert H. unfold b32_at.
  destruct (b32_table !! Z.to_nat c) eqn:E; [|cbn; lia]. cbn [default from_option]. intros _.
  assert (Hall : forallb (fun v => v <? 32) b32_table = true) by (by vm_compute).
  rewrite forallb_forall in Hall. apply Z.ltb_lt, Hall, list_elem_of_In. by eapply list_elem_of_lookup_2.
Qed.

Lemma not_pad c : isbase32 c = true -> (c =? pad) = false.
Proof. intros H. destruct (Z.eqb_spec c pad) as [->|]; [by vm_compute in H|done]. Qed.

Lemma pad_not_base32 c : (c =? pad) = true -> isbase32 c = false.
Proof. by intros ->%Z.eqb_eq. Qed.

(** [all_at] on explicit characters *)
Ltac read_chars := repeat (erewrite rd_at by (lia || reflexivity); cbn [rbind all_at]).

(** a case of the decoder: the value of the group, and what is written *)
Ltac group_case w :=
  exists w; unfold group_value; cbn [group_values forallb];
  repeat match goal with H : isbase32 ?c = true |- _ => rewrite ?(not_pad c H); rewrite ?H; clear H end;
  repeat match goal with
    | H : isbase32 ?c = _ |- _ => rewrite ?H; clear H
    | H : (?c =? pad) = _ |- _ => rewrite ?H; clear H
    | H : (pad =? ?c) = _ |- _ => rewrite ?H; clear H
    end;
  cbn; repeat case_match; cbn in *; simplify_eq; (split; [try done; by rewrite app_nil_r|by intros ? [= <-]]).
Ltac pad_cases w :=
  read_chars; repeat match goal with |- context [if pad =? ?c then _ else _] => destruct (pad =? c) eqn:? end; cbn [rbind]; group_case w.


Lemma group_stop c l : isbase32 c = false -> group_values (c :: l) = None \/ group_values (c :: l) = Some [].
Proof. intros H. cbn [group_values]. rewrite H. destruct (c =? pad); [|by left]. destruct (forallb _ _); [by right|by left]. Qed.

Lemma decode_8_ok d w l rest n : dest_ok d -> length l = 8%nat -> 8 <= n ->
  exists w', decode_8 (l ++ rest) n (push d w) = Ret (bool_decide (is_Some (group_value l)), push d (w ++ w')) /\
    forall v, group_value l = Some v -> w' = v.
Proof.
  intros Hd Hl Hn. destruct l as [|c0 [|c1 [|c2 [|c3 [|c4 [|c5 [|c6 [|c7 [|]]]]]]]]]; try done. clear Hl. cbn [app].
  unfold decode_8, value_at. rewrite (proj2 (Z.ltb_ge _ _)) by lia. read_chars.
  destruct (isbase32 c0) eqn:H0; [|exists []; unfold group_value; destruct (group_stop c0 [c1; c2; c3; c4; c5; c6; c7] H0) as [-> | ->]; by rewrite app_nil_r]. read_chars.
  destruct (isbase32 c1) eqn:H1; [|exists []; unfold group_value; remember [c2; c3; c4; c5; c6; c7] as l eqn:El;
    replace (group_values (c0 :: c1 :: l)) with (cons (b32_at c0) <$> group_values (c1 :: l)) by (symmetry; cbn [group_values]; by rewrite (not_pad c0 H0), H0);
    destruct (group_stop c1 l H1) as [-> | ->]; by rewrite app_nil_r]. cbn [rbind negb].
  rewrite put_char_ok, bits_0 by eauto using base32_value. cbn [rbind]. set (b0 := b32_at c0 * 8 + b32_at c1 / 4).
  destruct (c2 =? pad) eqn:P2; [pad_cases [b0]|]. read_chars.
  destruct (isbase32 c2) eqn:H2; [|cbn [rbind negb]; group_case [b0]]. read_chars.
  destruct (isbase32 c3) eqn:H3; [|cbn [rbind negb]; group_case [b0]]. cbn [rbind negb].
  rewrite put_char_ok, bits_1, <- app_assoc by eauto using base32_value. cbn [rbind app]. set (b1 := _ + b32_at c3 / 16).
  destruct (c4 =? pad) eqn:P4; [pad_cases [b0; b1]|]. read_chars.
  destruct (isbase32 c4) eqn:H4; [|cbn [rbind negb]; group_case [b0; b1]]. cbn [rbind negb].
  rewrite put_char_ok, bits_2, <- app_assoc by eauto using base32_value. cbn [rbind app]. set (b2 := _ + b32_at c4 / 2).
  destruct (c5 =? pad) eqn:P5; [pad_cases [b0; b1; b2]|]. read_chars.
  destruct (isbase32 c5) eqn:H5; [|cbn [rbind negb]; group_case [b0; b1; b2]]. read_chars.
  destruct (isbase32 c6) eqn:H6; [|cbn [rbind negb]; group_case [b0; b1; b2]]. cbn [rbind negb].
  rewrite put_char_ok, bits_3, <- app_assoc by eauto using base32_value. cbn [rbind app]. set (b3 := _ + b32_at c6 / 8).
  destruct (c7 =? pad) eqn:P7; [group_case [b0; b1; b2; b3]|].
  destruct (isbase32 c7) eqn:H7; [|cbn [rbind negb]; group_case [b0; b1; b2; b3]]. cbn [rbind negb].
  rewrite put_char_ok, bits_4, <- app_assoc by eauto using base32_value. cbn [rbind app]. set (b4 := _ + b32_at c7).
  group_case [b0; b1; b2; b3; b4].
Qed.

(** ** The loops *)
Lemma octet_ind (P : bytes -> Prop) : (forall s, (length s < 8)%nat -> P s) ->
  (forall l s, length l = 8%nat -> P s -> P (l ++ s)) -> forall s, P s.
Proof.
  intros H0 H1 s. remember (length s) as n eqn:E. revert s E. induction (lt_wf n) as [n _ IH]. intros s ->.
  destruct (le_lt_dec 8 (length s)) as [H|H]; [|by apply H0]. rewrite <- (take_drop 8 s). apply H1; [rewrite length_take; lia|].
  eapply IH; [|reflexivity]. rewrite length_drop. lia.
Qed.

Lemma b32_value_group l s : length l = 8%nat ->
  b32_value (l ++ s) = match group_value l, b32_value s with Some v, Some w => Some (v ++ w) | _, _ => None end.
Proof. intros Hl. by destruct l as [|c0 [|c1 [|c2 [|c3 [|c4 [|c5 [|c6 [|c7 [|]]]]]]]]]. Qed.

Lemma b32_value_short s : (length s < 8)%nat -> s <> [] -> b32_value s = None.
Proof. intros Hl Hs. destruct s as [|c0 [|c1 [|c2 [|c3 [|c4 [|c5 [|c6 [|c7 s]]]]]]]]; try done. simpl in Hl. lia. Qed.

(** what a group that cannot be decoded looks like *)
Definition undecodable (bad : bytes) : Prop :=
  bad <> [] /\ ((length bad < 8)%nat \/ exists l t, bad = l ++ t /\ length l = 8%nat /\ group_value l = None).

Lemma decode_8_bad bad rest d : dest_ok d -> undecodable bad -> exists w, decode_8 (bad ++ rest) (zlen bad) d = Ret (false, push d w).
Proof.
  intros Hd [_ [Hs|(l & t & -> & Hl & Hg)]].
  - exists []. unfold decode_8. rewrite (proj2 (Z.ltb_lt _ _)) by (unfold zlen; lia). by rewrite push_nil.
  - destruct (decode_8_ok d [] l (t ++ rest) (zlen (l ++ t)) Hd Hl) as (w & E & _); [unfold zlen; rewrite length_app; lia|].
    rewrite push_nil in E by done. exists w. by rewrite <- app_assoc, E, Hg.
Qed.

Lemma decode_groups_ok s : forall fuel rest d w, dest_ok d -> (length s < fuel)%nat ->
  match b32_value s with
  | Some v => decode_groups fuel (s ++ rest) (zlen s) (push d w) = Ret (rest, 0, d_left (push d (w ++ v)), push d (w ++ v))
  | None => exists bad v v', undecodable bad /\
      decode_groups fuel (s ++ rest) (zlen s) (push d w) = Ret (bad ++ rest, zlen bad, d_left (push d (w ++ v)), push d (w ++ v ++ v'))
  end.
Proof.
  induction s as [s Hs|l s Hl IH] using octet_ind; intros fuel rest d w Hd Hf; (destruct fuel as [|fuel]; [lia|]).
  - cbn [decode_groups]. unfold decode_8 at 1 2. rewrite (proj2 (Z.ltb_lt _ _)) by (unfold zlen; lia). cbn [rbind].
    destruct s as [|c s]; [cbn [b32_value]; by rewrite app_nil_r|]. rewrite b32_value_short by done.
    exists (c :: s), [], []. rewrite !app_nil_r. split; [|done]. split; [done|by left].
  - rewrite length_app in Hf. rewrite b32_value_group, <- app_assoc by done. cbn [decode_groups].
    assert (zlen (l ++ s) = 8 + zlen s) as Hz by (rewrite zlen_app; unfold zlen at 1; lia). rewrite Hz. zlen_facts.
    destruct (decode_8_ok d w l (s ++ rest) (8 + zlen s) Hd Hl ltac:(lia)) as (w' & E & Ew). rewrite E. cbn [rbind].
    destruct (group_value l) as [v|] eqn:Eg.
    + rewrite bool_decide_true by done. rewrite padd_app by (unfold zlen; lia). cbn [rbind]. rewrite (Ew v eq_refl). replace (8 + zlen s - 8) with (zlen s) by lia.
      specialize (IH fuel rest d (w ++ v) Hd ltac:(lia)). destruct (b32_value s) as [u|].
      * by rewrite IH, <- app_assoc.
      * destruct IH as (bad & u & u' & Hb & ->). exists bad, (v ++ u), u'. split; [done|]. by rewrite !app_assoc.
    + rewrite bool_decide_false by (by intros [? ?]). exists (l ++ s), [], w'. rewrite app_nil_r, <- app_assoc, Hz. split; [|done].
      split; [by destruct l|right]. by exists l, s.
Qed.

Lemma push_sum d w : d_pos (push d w) + d_left (push d w) = d_pos d + d_left d.
Proof. unfold push. cbn [d_pos d_left]. lia. Qed.
Lemma push_length d w : dest_ok d -> zlen (d_buf (push d w)) = zlen (d_buf d).
Proof.
  destruct d as [b p l]. intros (H1 & H2 & H3). unfold push. cbn [d_buf d_pos d_left] in *.
  pose proof (ztake_length_le l w H2). zlen_facts. rewrite !zlen_app, (zlen_take p b), zlen_drop by lia. lia.
Qed.

(** without a context *)
Lemma base32_decode_ok s rest results n : 0 <= n <= zlen results ->
  match b32_value s with
  | Some v => base32_decode_ctx None (s ++ rest) (zlen s) results n =
      Ret (true, None, ztake n v ++ zdrop (zlen (ztake n v)) results, zlen (ztake n v))
  | None => exists r m, base32_decode_ctx None (s ++ rest) (zlen s) results n = Ret (false, None, r, m)
  end.
Proof.
  intros Hn. set (d := mkDest results 0 n). assert (dest_ok d) as Hd by (unfold dest_ok; cbn [d d_pos d_left d_buf]; lia).
  unfold base32_decode_ctx. fold d. rewrite <- (push_nil d Hd). cbn [base32_decode_loop andb negb].
  pose proof (decode_groups_ok s (S (Z.to_nat (zlen s))) rest d [] Hd ltac:(unfold zlen; lia)) as E. cbn [app] in E.
  destruct (b32_value s) as [v|].
  - rewrite E. cbn [rbind]. change (0 =? 0) with true. cbn [andb rbind]. unfold push. cbn [d d_pos d_left d_buf]. rewrite ztake_0. cbn [app].
    do 2 f_equal. lia.
  - destruct E as (bad & v & v' & Hb & ->). cbn [rbind]. destruct Hb as [Hne Hb']. pose proof (conj Hne Hb' : undecodable bad) as Hb. zlen_facts.
    assert (zlen bad <> 0) as Hz by (by intros ?%zlen_0_nil). rewrite (proj2 (Z.eqb_neq _ _) Hz). cbn [andb].
    destruct bad as [|c bad']; [done|]. cbn [app]. rewrite rd_0. cbn [rbind]. rewrite andb_false_r. cbn [rbind orb].
    rewrite andb_false_r. set (d2 := mkDest _ _ _).
    assert (dest_ok d2) as Hd2.
    { pose proof (push_sum d v). pose proof (push_sum d (v ++ v')). pose proof (push_length d (v ++ v') Hd). pose proof (push_ok d v Hd) as (? & ? & _).
      unfold d2, dest_ok in *. cbn [d_pos d_left d_buf] in *. lia. }
    destruct (decode_8_bad (c :: bad') rest d2 Hd2 Hb) as [u E]. cbn [app] in E. rewrite E. cbn [rbind]. by eexists _, _.
Qed.

(** ** There and back *)
Lemma b32_at_chr q : 0 <= q < 32 -> isbase32 (chr q) = true /\ b32_at (chr q) = q.
Proof.
  intros Hq. assert (H : forallb (fun q => isbase32 (chr q) && (b32_at (chr q) =? q)) (seqZ 0 32) = true) by (by vm_compute).
  rewrite forallb_forall in H. specialize (H q). rewrite andb_true_iff, Z.eqb_eq in H. apply H, list_elem_of_In, elem_of_seqZ. lia.
Qed.

Lemma forallb_pad n : forallb (Z.eqb pad) (replicate n pad) = true.
Proof. by induction n. Qed.

Lemma group_values_chars l n : Forall (fun q => 0 <= q < 32) l -> group_values ((chr <$> l) ++ replicate n pad) = Some l.
Proof.
  induction 1 as [|q l Hq _ IH].
  - destruct n; [done|]. cbn [replicate fmap list_fmap app group_values]. change (pad =? pad) with true. cbv iota. by rewrite forallb_pad.
  - destruct (b32_at_chr q Hq) as [H1 H2]. cbn [fmap list_fmap app group_values]. rewrite (not_pad _ H1), H1, H2.
    change (list_fmap Z Z chr l) with (chr <$> l). by rewrite IH.
Qed.

Lemma group_value_last n a b c d : (n <= 8)%nat -> 0 <= a < 256 -> group_value (b32_last n a b c d) = group_bytes (take n (quintets a b c d 0)).
Proof. intros Hn Ha. unfold group_value, b32_last. by rewrite group_values_chars by (by apply Forall_take, quintets_range). Qed.

Lemma b32_value_single l : length l = 8%nat -> b32_value l = (fun v => v ++ []) <$> group_value l.
Proof. intros Hl. rewrite <- (app_nil_r l) at 1. rewrite b32_value_group by done. by destruct (group_value l). Qed.

Lemma cons_eq {A} (x y : A) l k : x = y -> l = k -> x :: l = y :: k.
Proof. by intros -> ->. Qed.
Ltac by_quintets := f_equal; repeat (apply cons_eq; [Z.to_euclidean_division_equations; lia|]); done.

Lemma b32_value_b32 s : is_bytes s -> b32_value (b32 s) = Some s.
Proof.
  induction s as [|a|a b|a b c|a b c d|a b c d e s IH] using group_ind; intros Hs; unfold is_bytes, byte_range in Hs; uncons_bytes; [done| | | | |].
  1-4: cbn [b32]; rewrite b32_value_single, group_value_last by (done || lia); cbn [quintets take group_bytes fmap option_fmap option_map app];
    by_quintets.
  cbn [b32]. rewrite b32_value_group, IH by done. unfold group_value.
  pose proof (group_values_chars (quintets a b c d e) 0 (quintets_range a b c d e ltac:(done))) as E. cbn [replicate] in E. rewrite app_nil_r in E.
  rewrite E. cbn [quintets mbind option_bind group_bytes app]. by_quintets.
Qed.

(** a text whose length is not a multiple of eight is refused *)
Lemma b32_value_length s v : b32_value s = Some v -> (length s mod 8 = 0)%nat.
Proof.
  revert v. induction s as [s Hs|l s Hl IH] using octet_ind; intros v.
  - destruct s as [|c s]; [done|]. by rewrite b32_value_short.
  - rewrite b32_value_group by done. destruct (group_value l), (b32_value s); try done. intros _. rewrite length_app, Hl.
    rewrite <- (Nat.mul_1_l 8) at 1. rewrite Nat.add_comm, Nat.Div0.mod_add. by eapply IH.
Qed.

(** ** Properties *)

(** Property C29.  The base32 decoder takes exactly the texts that are groups of eight
    characters with a value, padding in the last places of any group, and writes
    their bytes, as many as the buffer has room for, reporting success even when some
    did not fit.  The key made of a hash, in a buffer that holds it, leads back to
    the hash, but only if the buffer for the hash has the five bytes more that
    [ipfs_datastore_helper_binary_from_ds_key] asks for; the name of a block's file,
    which is cut, is always refused. *)
Theorem ds_key_roundtrip (text s rest results key_buffer after : bytes) (n max completed : Z) :
  0 <= n <= zlen results -> is_bytes s -> 5 <= zlen s < 2 ^ 60 -> zlen (b32 s) <= max <= zlen key_buffer ->
  let key := b32 s in
  match b32_value text with
  | Some v => libp2p_crypto_encoding_base32_decode (text ++ rest) (zlen text) results n =
      Ret (1, ztake n v ++ zdrop (zlen (ztake n v)) results, Z.min n (zlen v))
  | None => exists r m, libp2p_crypto_encoding_base32_decode (text ++ rest) (zlen text) results n = Ret (0, r, m)
  end /\
  (exists tail, ipfs_datastore_helper_ds_key_from_binary (s ++ rest) (zlen s) key_buffer max completed = Ret (1, zlen key, key ++ tail)) /\
  ipfs_datastore_helper_binary_from_ds_key (key ++ after) (zlen key) results n completed =
    (if n <? 5 * (zlen key / 8) + 5 then Ret (0, results, completed) else Ret (1, s ++ zdrop (zlen s) results, zlen s)) /\
  exists r m, ipfs_datastore_helper_binary_from_ds_key (base32_key s ++ after) (zlen (base32_key s)) results n completed = Ret (0, r, m).
Proof.
  intros Hn Hs Hl Hmax key. pose proof (b32_length s) as Hk. fold key in Hk, Hmax. zlen_facts.
  assert (Hq : 8 <= (zlen s + 4) / 5 * 8 < 2 ^ 62) by (Z.to_euclidean_division_equations; lia).
  split_and!.
  - pose proof (base32_decode_ok text rest results n Hn) as E. unfold libp2p_crypto_encoding_base32_decode. destruct (b32_value text) as [v|].
    + by rewrite E, ztake_length_le by lia.
    + destruct E as (r & m & ->). by exists r, m.
  - unfold ipfs_datastore_helper_ds_key_from_binary. rewrite encode_size_ok by lia.
    rewrite (proj2 (Z.ltb_ge _ _)) by (Z.to_euclidean_division_equations; lia). fold key in Hk.
    destruct (Z.leb_spec max (zlen key)).
    + rewrite encode_fits by (done || (fold key; lia)). fold key. eexists. cbn [rbind]. change (1 =? 0) with false. cbv iota. rewrite (ztake_all max key) by lia.
      replace max with (zlen key) by lia. reflexivity.
    + rewrite encode_padded by (done || (fold key; lia)). fold key. cbn [rbind]. change (1 =? 0) with false. by eexists.
  - unfold ipfs_datastore_helper_binary_from_ds_key, libp2p_crypto_encoding_base32_decode_size.
    rewrite u64_small by (Z.to_euclidean_division_equations; lia). destruct (Z.ltb_spec n (5 * (zlen key / 8) + 5)) as [|Hle]; [done|].
    pose proof (base32_decode_ok key after results n Hn) as E. unfold key in E at 1. rewrite b32_value_b32 in E by done. fold key in E.
    unfold libp2p_crypto_encoding_base32_decode. rewrite E. cbn [rbind]. change (1 =? 0) with false. cbv iota.
    assert (zlen s <= n) by (Z.to_euclidean_division_equations; lia). by rewrite (ztake_all n s) by done.
  - unfold ipfs_datastore_helper_binary_from_ds_key. destruct (n <? _); [by eexists _, _|].
    pose proof (base32_decode_ok (base32_key s) after results n Hn) as E.
    destruct (b32_value (base32_key s)) as [v|] eqn:Ev.
    + exfalso. apply b32_value_length in Ev. assert (zlen (base32_key s) = (zlen s - 5) / 5 * 8 + 1) as Hz.
      { unfold base32_key. fold key. rewrite zlen_take; Z.to_euclidean_division_equations; lia. }
      unfold zlen in Hz at 1. apply (f_equal Z.of_nat) in Ev. rewrite Nat2Z.inj_mod, Hz in Ev. revert Ev.
      change (Z.of_nat 8) with 8. rewrite Z.add_comm, Z.mod_add by lia. done.
    + destruct E as (r & m & E). unfold libp2p_crypto_encoding_base32_decode. rewrite E. cbn [rbind]. change (0 =? 0) with true. by eexists _, _.
Qed.

Lemma ds_key_roundtrip_witness :
  let s := ex_hash 1 in let key := b32 s in
  libp2p_crypto_encoding_base32_decode ([77; 70; 82; 71; 71; 61; 61; 61] ++ [0]) 8 (replicate 100 0) 100 = Ret (1, [97; 98; 99] ++ replicate 97 0, 3) /\
  ipfs_datastore_helper_binary_from_ds_key (key ++ [0]) 56 (replicate 100 0) 100 0 = Ret (1, s ++ replicate 68 0, 32).
Proof.
  intros s key.
  pose proof (ds_key_roundtrip [77; 70; 82; 71; 71; 61; 61; 61] s [0] (replicate 100 0) (replicate 100 1) [0] 100 100 0) as (H1 & _ & H2 & _).
  - split; [done|by vm_compute].
  - repeat constructor; unfold byte_range; lia.
  - vm_compute. split; [discriminate|reflexivity].
  - vm_compute. split; discriminate.
  - split; [exact H1|exact H2].
Defined.
