(* ===== verification/Multibase.v ===== *)
(** * Base16 and multibase (libp2p/crypto/encoding/base16.c,
    libipfs/multibase/multibase.c)

    A multibase text is a character that names an encoding and the text in that
    encoding; base 58 and base 16 are supported. *)
From Stdlib Require Import String.
From S2P Require Import Prelude Varint Protobuf Digits CString Base58 Hex.

(** ** Base 16 *)
(** the loop from [i], with [n] turns left; [results] and [*results_length] *)
Fixpoint base16_encode_loop (n : nat) (i : Z) (incoming results : bytes) (results_length : Z) : res (bytes * Z) :=
  match n with
  | O => Ret (results, results_length)
  | S n =>
    let! c := rd incoming i in
    let! (_, results) := with_ptr results (i * 2) (fun p => let! p := memwr p (hex02 false c) in Ret (tt, p)) in
    let! i := int_op (i + 1) in
    base16_encode_loop n i incoming results (results_length + 2)
  end.

(** the result, the buffer and [*results_length] *)
Definition libp2p_crypto_encoding_base16_encode (incoming : bytes) (incoming_length : Z) (results : bytes) (results_length : Z)
  : res (Z * bytes * Z) :=
  if results_length <? u64 (incoming_length * 2) then Ret (0, results, results_length)
  else
    let! results := memwr results (replicate (Z.to_nat results_length) 0) in
    let! (results, results_length) := base16_encode_loop (Z.to_nat incoming_length) 0 incoming results 0 in
    Ret (1, results, results_length).

Definition libp2p_crypto_encoding_base16_encode_size (incoming_length : Z) : Z := s32 (u64 (incoming_length * 2)).

(** [sscanf(s, "%2hhx", &b)] on the characters of a string: the number in the two
    characters behind spaces, if there is one *)
Definition scan_byte (s : bytes) : option Z :=
  let s := skip_spaces s in
  let (neg, t) := read_sign (take 2 s) in
  match read_digits hex_val t with
  | [] => None
  | ds => Some (u8 (if neg : bool then - num 16 ds else num 16 ds))
  end.

(** [sscanf] takes a string: [pos] must lead to a zero byte.  What cannot be read
    stays 0. *)
Fixpoint base16_decode_loop (n : nat) (i : Z) (pos results : bytes) : res bytes :=
  match n with
  | O => Ret results
  | S n =>
    let! len := strlen pos in
    let! s := memrd pos len in
    let! (_, results) :=
      with_ptr results i (fun p => match scan_byte s with Some b => let! p := memwr p [b] in Ret (tt, p) | None => Ret (tt, p) end) in
    let! pos := padd pos 2 in
    let! i := int_op (i + 1) in
    base16_decode_loop n i pos results
  end.

(** [*results_length] stays what it was *)
Definition libp2p_crypto_encoding_base16_decode (incoming : bytes) (incoming_length : Z) (results : bytes) (results_length : Z)
  : res (Z * bytes * Z) :=
  if results_length <? incoming_length / 2 then Ret (0, results, results_length)
  else
    let! results := memwr results (replicate (Z.to_nat results_length) 0) in
    let! results := base16_decode_loop (Z.to_nat (incoming_length / 2)) 0 incoming results in
    Ret (1, results, results_length).

Definition libp2p_crypto_encoding_base16_decode_size (incoming_length : Z) : Z := s32 (incoming_length / 2).

(** ** Multibase *)
Definition MULTIBASE_BASE16 : Z := 102.
Definition MULTIBASE_BASE58_BTC : Z := 122.

(** [memcpy(&p[1], p, n)]: the objects overlap when there are two bytes or more *)
Definition copy_up (p : bytes) (n : Z) : res bytes :=
  if 2 <=? n then UB
  else
    let! src := memrd p n in
    let! (_, p) := with_ptr p 1 (fun q => let! q := memwr q src in Ret (tt, q)) in
    Ret p.

(** the result, the buffer and [*results_length] *)
Definition multibase_encode (base : Z) (incoming : bytes) (incoming_length : Z) (results : bytes) (results_max_length : Z)
  : res (Z * bytes * Z) :=
  let finish (r : res (Z * bytes * Z)) :=
    let! (retVal, results, results_length) := r in
    if retVal =? 0 then Ret (0, results, results_length)
    else if results_max_length <=? results_length then Ret (0, results, results_length)
    else
      let! results := copy_up results results_length in
      let! results := memwr results [base] in
      Ret (1, results, results_length + 1) in
  if base =? MULTIBASE_BASE58_BTC then finish (libp2p_crypto_encoding_base58_encode incoming incoming_length results results_max_length)
  else if base =? MULTIBASE_BASE16 then finish (libp2p_crypto_encoding_base16_encode incoming incoming_length results results_max_length)
  else Ret (0, results, results_max_length).

Definition multibase_encode_size (base : Z) (incoming_length : Z) : Z :=
  if base =? MULTIBASE_BASE58_BTC then s32 (libp2p_crypto_encoding_base58_encode_size incoming_length + 1)
  else if base =? MULTIBASE_BASE16 then libp2p_crypto_encoding_base16_encode_size incoming_length
  else 0.

Definition multibase_decode (incoming : bytes) (incoming_length : Z) (results : bytes) (results_max_length : Z)
  : res (Z * bytes * Z) :=
  let! base := rd incoming 0 in
  let finish (r : res (Z * bytes * Z)) :=
    let! (retVal, results, results_length) := r in
    Ret (if retVal =? 0 then 0 else 1, results, results_length) in
  if base =? MULTIBASE_BASE58_BTC then
    let! p := padd incoming 1 in finish (libp2p_crypto_encoding_base58_decode p (u64 (incoming_length - 1)) results results_max_length)
  else if base =? MULTIBASE_BASE16 then
    let! p := padd incoming 1 in finish (libp2p_crypto_encoding_base16_decode p (u64 (incoming_length - 1)) results results_max_length)
  else Ret (0, results, results_max_length).

Definition multibase_decode_size (base : Z) (incoming_length : Z) : Z :=
  if base =? MULTIBASE_BASE58_BTC then s32 (libp2p_crypto_encoding_base58_decode_size incoming_length + 1)
  else if base =? MULTIBASE_BASE16 then libp2p_crypto_encoding_base16_decode_size incoming_length
  else 0.

(** ** Lemmas *)
Lemma encode_loop_ok s : is_bytes s -> forall i pre rest buf, zlen pre = i -> i + zlen s < 2 ^ 31 ->
  zlen (hex false pre) + zlen (hex false s) <= zlen buf -> is_bytes pre ->
  base16_encode_loop (length s) i (pre ++ s ++ rest) (hex false pre ++ zdrop (zlen (hex false pre)) buf) (2 * i) =
    Ret (hex false (pre ++ s) ++ zdrop (zlen (hex false (pre ++ s))) buf, 2 * (i + zlen s)).
Proof.
  induction 1 as [|c s Hc Hs IH]; intros i pre rest buf Hi Hl Hb Hp; cbn [length base16_encode_loop].
  - rewrite app_nil_r, zlen_nil, Z.add_0_r. done.
  - cbn [app]. rewrite <- Hi, rd_app_mid. cbn [rbind]. rewrite zlen_cons in Hl. zlen_facts.
    pose proof (hex_length false pre Hp) as Hh. rewrite hex_cons, zlen_app in Hb. pose proof (zlen_nonneg (hex02 false c)). pose proof (zlen_nonneg (hex false s)).
    replace (zlen pre * 2) with (zlen (hex false pre)) by lia.
    rewrite (with_ptr_append (hex false pre) (hex02 false c) buf _ tt); [|by rewrite memwr_ok by (rewrite zlen_drop by lia; lia)|lia].
    cbn [rbind]. rewrite int_op_small by lia. cbn [rbind].
    assert (hex false pre ++ hex02 false c = hex false (pre ++ [c])) as -> by (rewrite hex_app; cbn; by rewrite app_nil_r).
    specialize (IH (zlen pre + 1) (pre ++ [c]) rest buf). rewrite <- app_assoc in IH. cbn [app] in IH.
    replace (2 * zlen pre + 2) with (2 * (zlen pre + 1)) by lia. rewrite IH.
    + rewrite <- app_assoc. cbn [app]. rewrite zlen_cons. do 2 f_equal. lia.
    + rewrite zlen_app. reflexivity.
    + lia.
    + rewrite hex_app, zlen_app. cbn. rewrite app_nil_r. lia.
    + apply Forall_app. split; [exact Hp|by apply Forall_singleton].
Qed.

Lemma base16_encode_ok s rest results n : is_bytes s -> zlen s < 2 ^ 31 -> 2 * zlen s <= n <= zlen results ->
  libp2p_crypto_encoding_base16_encode (s ++ rest) (zlen s) results n =
    Ret (1, hex false s ++ replicate (Z.to_nat (n - 2 * zlen s)) 0 ++ zdrop n results, 2 * zlen s).
Proof.
  intros Hs Hl Hn. zlen_facts. pose proof (hex_length false s Hs) as Hh. unfold libp2p_crypto_encoding_base16_encode.
  rewrite u64_small, (proj2 (Z.ltb_ge _ _)) by lia. set (zeros := replicate (Z.to_nat n) 0).
  assert (zlen zeros = n) as Hz by (apply zlen_replicate; lia).
  rewrite memwr_ok by lia. cbn [rbind]. pose proof (encode_loop_ok s Hs 0 [] rest (zeros ++ zdrop (zlen zeros) results) eq_refl ltac:(lia)) as E.
  cbn [app] in E. change (zlen (hex false [])) with 0 in E. rewrite zdrop_0 in E. cbn [app] in E. change (hex false []) with (@nil Z) in E. change (2 * 0) with 0 in E. cbn [app] in E.
  assert (Z.to_nat (zlen s) = length s) as -> by (unfold zlen; lia). rewrite E by (constructor || (rewrite zlen_app, zlen_drop by lia; lia)). cbn [rbind].
  rewrite !Z.add_0_l, Hh, Hz. do 3 f_equal. unfold zdrop at 1. rewrite drop_app_le.
  - f_equal. unfold zeros. rewrite drop_replicate, Z2Nat.inj_sub by lia. done.
  - unfold zeros. rewrite length_replicate. lia.
Qed.

Lemma scan_byte_hex up b t : byte_range b -> scan_byte (hex02 up b ++ t) = Some b.
Proof.
  intros Hb. destruct (hex02_ok up b Hb) as (E & _). assert (scan_byte (hex02 up b ++ t) = scan_byte (hex02 up b)) as ->.
  { rewrite E. cbn [app]. unfold scan_byte. assert (is_space (hex_chr up (b / 16)) = false) as Hsp.
    { unfold byte_range in Hb. unfold is_space, hex_chr. destruct (Z.ltb_spec (b / 16) 10); [|destruct up]; zbool; cbn [andb orb];
        (reflexivity || (Z.to_euclidean_division_equations; lia)). }
    cbn [skip_spaces]. rewrite Hsp. done. }
  assert (forallb (fun b => bool_decide (scan_byte (hex02 up b) = Some b)) (seqZ 0 256) = true) as Hall by (destruct up; vm_compute; reflexivity).
  exact (bool_decide_eq_true_1 _ (byte_forall _ Hall b Hb)).
Qed.

Lemma decode_loop_ok up s : is_bytes s -> forall pre rest buf, zlen pre + zlen s < 2 ^ 31 -> zlen pre + zlen s <= zlen buf ->
  base16_decode_loop (length s) (zlen pre) (hex up s ++ 0 :: rest) (pre ++ zdrop (zlen pre) buf) = Ret ((pre ++ s) ++ zdrop (zlen (pre ++ s)) buf).
Proof.
  induction 1 as [|c s Hc Hs IH]; intros pre rest buf Hl Hb; cbn [length base16_decode_loop].
  - by rewrite app_nil_r.
  - assert (is_bytes (c :: s)) as Hcs by (by constructor). rewrite strlen_nul by (by apply hex_nonzero). cbn [rbind]. rewrite memrd_app by done. cbn [rbind].
    rewrite zlen_cons in *. zlen_facts. rewrite hex_cons, scan_byte_hex by done.
    rewrite (with_ptr_append pre [c] buf _ tt); [|by rewrite memwr_ok by (rewrite zlen_drop by lia; change (zlen [c]) with 1; lia)|change (zlen [c]) with 1; lia].
    cbn [rbind]. destruct (hex02_ok up c Hc) as (E & _). rewrite <- app_assoc, padd_app by (by rewrite E). cbn [rbind]. rewrite int_op_small by lia. cbn [rbind].
    specialize (IH (pre ++ [c]) rest buf). rewrite zlen_app in IH. change (zlen [c]) with 1 in IH.
    rewrite (zlen_app pre [c]). change (zlen [c]) with 1. rewrite IH by lia. by rewrite <- !app_assoc.
Qed.

Lemma base16_decode_ok up s rest results n : is_bytes s -> zlen s < 2 ^ 30 -> zlen s <= n <= zlen results ->
  libp2p_crypto_encoding_base16_decode (hex up s ++ 0 :: rest) (2 * zlen s) results n =
    Ret (1, s ++ replicate (Z.to_nat (n - zlen s)) 0 ++ zdrop n results, n).
Proof.
  intros Hs Hl Hn. zlen_facts. unfold libp2p_crypto_encoding_base16_decode.
  assert (2 * zlen s / 2 = zlen s) as -> by (by rewrite Z.mul_comm, Z.div_mul). rewrite (proj2 (Z.ltb_ge _ _)) by lia.
  set (zeros := replicate (Z.to_nat n) 0). assert (zlen zeros = n) as Hz by (apply zlen_replicate; lia).
  rewrite memwr_ok by lia. cbn [rbind]. assert (Z.to_nat (zlen s) = length s) as -> by (unfold zlen; lia).
  pose proof (decode_loop_ok up s Hs [] rest (zeros ++ zdrop (zlen zeros) results)) as E. cbn [app] in E. change (zlen (@nil Z)) with 0 in E. rewrite zdrop_0 in E.
  rewrite E by (rewrite ?zlen_app, ?zlen_drop by lia; lia). cbn [rbind]. rewrite Hz. do 3 f_equal. unfold zdrop at 1. rewrite drop_app_le.
  - f_equal. unfold zeros. rewrite drop_replicate, Z2Nat.inj_sub by lia. done.
  - unfold zeros. rewrite length_replicate. lia.
Qed.

(** a text without a zero byte behind it *)
Lemma base16_decode_open text n results k : nonzero text -> 2 <= n -> n / 2 <= k <= zlen results -> libp2p_crypto_encoding_base16_decode text n results k = UB.
Proof.
  intros Ht Hn Hk. unfold libp2p_crypto_encoding_base16_decode. rewrite (proj2 (Z.ltb_ge _ _)) by lia.
  rewrite memwr_ok by (rewrite zlen_replicate by (Z.to_euclidean_division_equations; lia); lia). cbn [rbind].
  destruct (Z.to_nat (n / 2)) as [|m] eqn:E; [exfalso; Z.to_euclidean_division_equations; lia|]. cbn [base16_decode_loop].
  assert (strlen text = UB) as ->; [|done]. clear -Ht. induction Ht as [|b text Hb _ IH]; [done|]. cbn [strlen]. by rewrite (proj2 (Z.eqb_neq _ _) Hb), IH.
Qed.

(** ** What [multibase_encode] gives *)
Lemma encode_loop_length n : forall i incoming results k r k', base16_encode_loop n i incoming results k = Ret (r, k') -> k' = k + 2 * Z.of_nat n.
Proof.
  induction n as [|n IH]; intros i incoming results k r k'; cbn [base16_encode_loop]; [intros [= _ ->]; lia|].
  intros (c & _ & H)%rbind_inv. apply rbind_inv in H as ([[] ?] & _ & H). apply rbind_inv in H as (? & _ & H). apply IH in H. lia.
Qed.

(** a text of two bytes or more cannot be moved *)
Definition long_text (r : res (Z * bytes * Z)) : Prop := forall n b k, r = Ret (n, b, k) -> n = 0 \/ 2 <= k.

Lemma base16_long_text incoming n results k : 0 < n -> long_text (libp2p_crypto_encoding_base16_encode incoming n results k).
Proof.
  intros Hn r b k'. unfold libp2p_crypto_encoding_base16_encode. destruct (_ <? _); [intros [= <- _ _]; by left|].
  intros (? & _ & H)%rbind_inv. apply rbind_inv in H as ([? ?] & H & [= _ _ <-]). apply encode_loop_length in H. right. lia.
Qed.

Lemma base58_long_text s rest results k : is_bytes s -> 0 < zlen s < 2 ^ 29 -> long_text (libp2p_crypto_encoding_base58_encode (s ++ rest) (zlen s) results k).
Proof.
  intros Hs Hl r b k'. destruct (count_zeros_split s) as (m & Es & Hm & Hz). set (z := Z.to_nat (count_zeros s)) in *.
  assert (is_bytes m) as Hmb by (rewrite Es in Hs; by apply Forall_app in Hs as [_ ?]).
  assert (zlen s = Z.of_nat z + zlen m) as Hzl by (rewrite Es at 1; rewrite zlen_app; unfold zlen at 1; by rewrite length_replicate).
  zlen_facts. destruct (base58_encode_ok z m rest results k Hmb Hm ltac:(lia) ltac:(lia)) as (d & Hd & _ & Hnum & _ & E).
  rewrite Es at 1. rewrite <- app_assoc, Hzl, E. destruct (_ <=? _); [intros [= <- _ _]; by left|]. destruct (Z.ltb_spec 0 (Z.of_nat z)); [done|].
  intros (? & _ & [= _ _ <-])%rbind_inv. right. destruct d as [|? d]; [|rewrite zlen_cons; zlen_facts; lia]. exfalso.
  destruct m as [|y m]; [change (zlen (@nil Z)) with 0 in *; lia|]. cbn [num hd] in *. apply Forall_cons in Hmb as [Hy Hmb].
  pose proof (num_bound 256 ltac:(lia) m Hmb). unfold byte_range in Hy. assert (0 < 256 ^ zlen m) by (apply Z.pow_pos_nonneg; zlen_facts; lia). nia.
Qed.

Lemma multibase_never base s rest results max r b k : is_bytes s -> 0 < zlen s < 2 ^ 29 ->
  multibase_encode base (s ++ rest) (zlen s) results max = Ret (r, b, k) -> r = 0.
Proof.
  intros Hs Hl. assert (H : forall e, long_text e -> (let! (retVal, results, results_length) := e in
    if retVal =? 0 then Ret (0, results, results_length) else if max <=? results_length then Ret (0, results, results_length)
    else let! results := copy_up results results_length in let! results := memwr results [base] in Ret (1, results, results_length + 1)) = Ret (r, b, k) -> r = 0).
  { intros e He. destruct e as [[[n b'] k']| | |]; cbn [rbind]; try done. destruct (He n b' k' eq_refl) as [->|Hk]; [by intros [= <- _ _]|].
    destruct (n =? 0); [by intros [= <- _ _]|]. destruct (max <=? k'); [by intros [= <- _ _]|]. unfold copy_up. by rewrite (proj2 (Z.leb_le 2 k')). }
  unfold multibase_encode. destruct (base =? _); [by apply H, base58_long_text|]. destruct (base =? _); [apply H, base16_long_text; lia|by intros [= <- _ _]].
Qed.

(** ** Properties *)

(**  A base 16 text of bytes, in either case and with a zero byte behind
    it, is decoded to them by itself and behind the letter f; without the zero byte
    that the comment says is not needed, the behaviour is undefined.  What
    [multibase_encode] makes is never decoded: it fails or copies a text over itself
    with memcpy, whatever it encodes except the empty string, and with a buffer of
    the size [multibase_encode_size] gives for base 16 it always fails. *)
Lemma base16_multibase (s rest text results : bytes) (up : bool) (base n max : Z) :
  is_bytes s -> 0 < zlen s < 2 ^ 29 -> 2 * zlen s <= n <= zlen results -> nonzero text -> zlen text = 2 * zlen s ->
  libp2p_crypto_encoding_base16_encode (s ++ rest) (zlen s) results n =
    Ret (1, hex false s ++ replicate (Z.to_nat (n - 2 * zlen s)) 0 ++ zdrop n results, 2 * zlen s) /\
  (let back := s ++ replicate (Z.to_nat (n - zlen s)) 0 ++ zdrop n results in
   libp2p_crypto_encoding_base16_decode (hex up s ++ 0 :: rest) (2 * zlen s) results n = Ret (1, back, n) /\
   multibase_decode (MULTIBASE_BASE16 :: hex up s ++ 0 :: rest) (1 + 2 * zlen s) results n = Ret (1, back, n)) /\
  libp2p_crypto_encoding_base16_decode text (2 * zlen s) results n = UB /\
  (forall r b k, multibase_encode base (s ++ rest) (zlen s) results max = Ret (r, b, k) -> r = 0) /\
  exists b k, multibase_encode MULTIBASE_BASE16 (s ++ rest) (zlen s) results (multibase_encode_size MULTIBASE_BASE16 (zlen s)) = Ret (0, b, k).
Proof.
  intros Hs Hl Hn Ht Htl. split_and!.
  - apply base16_encode_ok; (done || lia).
  - intros back. split; [apply base16_decode_ok; (done || lia)|]. unfold back, multibase_decode. rewrite rd_0. cbn [rbind]. change (MULTIBASE_BASE16 =? MULTIBASE_BASE58_BTC) with false. rewrite Z.eqb_refl. cbv iota.
    change (MULTIBASE_BASE16 :: hex up s ++ 0 :: rest) with ([MULTIBASE_BASE16] ++ hex up s ++ 0 :: rest). rewrite padd_app by done. cbn [rbind].
    rewrite u64_small by lia. replace (1 + 2 * zlen s - 1) with (2 * zlen s) by lia. by rewrite base16_decode_ok by (done || lia).
  - apply base16_decode_open; [done|lia|]. rewrite Z.mul_comm, Z.div_mul by lia. lia.
  - intros r b k. by apply multibase_never.
  - unfold multibase_encode, multibase_encode_size, libp2p_crypto_encoding_base16_encode_size.
    change (MULTIBASE_BASE16 =? MULTIBASE_BASE58_BTC) with false. rewrite Z.eqb_refl. cbv iota zeta. rewrite u64_small, s32_small by lia.
    replace (zlen s * 2) with (2 * zlen s) by lia. rewrite base16_encode_ok by (done || lia). cbn [rbind]. change (1 =? 0) with false. cbv iota.
    rewrite Z.leb_refl. by eexists _, _.
Qed.
