(* ===== verification/Keys.v ===== *)
(** * Keys and peer ids (libp2p/crypto/key.c, libp2p/crypto/peerutils.c)

    A key is its type and the DER bytes of the key; a peer is named by the multihash
    of its public key in base 58. *)
From Stdlib Require Import String.
From S2P Require Import Prelude Varint Protobuf Digits Multihash Cid Block CString Base58.

(** ** Keys *)
Definition KEYTYPE_RSA : Z := 0.
Definition KEYTYPE_ED25519 : Z := 1.
Definition KEYTYPE_INVALID : Z := 2.

Record PublicKey := mkPublicKey { pk_type : Z; pk_data : option bytes; pk_data_size : Z }.
Record PrivateKey := mkPrivateKey { sk_type : Z; sk_data : option bytes; sk_data_size : Z }.
#[export] Instance PublicKey_eq_dec : EqDecision PublicKey.
Proof. solve_decision. Defined.
#[export] Instance PrivateKey_eq_dec : EqDecision PrivateKey.
Proof. solve_decision. Defined.

Definition sizeof_PublicKey : Z := 24.

Section keys.
Context {M : Malloc}.

Definition public_key_blank : PublicKey := mkPublicKey KEYTYPE_INVALID None 0.
Definition libp2p_crypto_public_key_new : option PublicKey := if malloc_ok sizeof_PublicKey then Some public_key_blank else None.

Definition libp2p_crypto_public_key_protobuf_encode_size (key : PublicKey) : Z := u64 (11 + 11 + pk_data_size key).

(** the result of the first field is not looked at *)
Definition libp2p_crypto_public_key_protobuf_encode (key : PublicKey) (buffer : bytes) (max_buffer_length : Z) : encoded :=
  let max := max_buffer_length in
  put_unchecked (protobuf_encode_varint 1 WIRETYPE_VARINT (pk_type key)) max
  (put_field (protobuf_encode_length_delimited 2 WIRETYPE_LENGTH_DELIMITED (deref (pk_data key)) (pk_data_size key)) max
  put_done) 0 buffer.

(** the type is written as eight bytes over the four of the enumeration and the
    padding behind them *)
Definition public_key_handler : handler PublicKey := fun field_no p rem key =>
  if field_no =? 1 then
    let! (v, n) := protobuf_decode_varint p rem in Ret (Some (mkPublicKey (u32 v) (pk_data key) (pk_data_size key), n))
  else if field_no =? 2 then
    let! s := protobuf_decode_length_delimited p rem in
    match s with
    | None => Ret None
    | Some (d, n) => Ret (Some (mkPublicKey (pk_type key) (Some d) (zlen d), n))
    end
  else Ret (Some (key, 0)).

Definition libp2p_crypto_public_key_protobuf_decode (buffer : bytes) (buffer_length : Z) : res (option PublicKey) :=
  match libp2p_crypto_public_key_new with
  | None => Ret None
  | Some key => decode_fields (decode_fuel buffer_length) public_key_handler buffer buffer_length 0 key
  end.

Definition private_key_blank : PrivateKey := mkPrivateKey KEYTYPE_INVALID None 0.
Definition libp2p_crypto_private_key_new : option PrivateKey := if malloc_ok sizeof_PublicKey then Some private_key_blank else None.

(** the result and [*destination]; a destination that is freed is gone *)
Definition libp2p_crypto_private_key_copy (source destination : option PrivateKey) : res (Z * option PrivateKey) :=
  match source, destination with
  | Some s, Some d =>
    if malloc_ok (sk_data_size s) then
      let! data := memrd (deref (sk_data s)) (sk_data_size s) in
      Ret (1, Some (mkPrivateKey (sk_type s) (Some data) (sk_data_size s)))
    else Ret (0, None)
  | _, d => Ret (0, d)
  end.

Definition libp2p_crypto_private_key_protobuf_encode_size (key : PrivateKey) : Z := u64 (22 + sk_data_size key).

Definition libp2p_crypto_private_key_protobuf_encode (key : PrivateKey) (buffer : bytes) (max_buffer_length : Z) : encoded :=
  let max := max_buffer_length in
  put_field (protobuf_encode_varint 1 WIRETYPE_VARINT (sk_type key)) max
  (put_field (protobuf_encode_length_delimited 2 WIRETYPE_LENGTH_DELIMITED (deref (sk_data key)) (sk_data_size key)) max
  put_done) 0 buffer.

Definition private_key_handler : handler PrivateKey := fun field_no p rem key =>
  if field_no =? 1 then
    let! (v, n) := protobuf_decode_varint p rem in Ret (Some (mkPrivateKey (u32 v) (sk_data key) (sk_data_size key), n))
  else if field_no =? 2 then
    let! s := protobuf_decode_length_delimited p rem in
    match s with
    | None => Ret None
    | Some (d, n) => Ret (Some (mkPrivateKey (sk_type key) (Some d) (zlen d), n))
    end
  else Ret (Some (key, 0)).

Definition libp2p_crypto_private_key_protobuf_decode (buffer : bytes) (buffer_length : Z) : res (option PrivateKey) :=
  match libp2p_crypto_private_key_new with
  | None => Ret None
  | Some key => decode_fields (decode_fuel buffer_length) private_key_handler buffer buffer_length 0 key
  end.

(** ** Peer ids *)
Definition MH_H_SHA2_256 : Z := 18.

(** the result, the buffer and [*rezbuflen]: the multihash is taken for a string *)
Definition PrettyID (pointyaddr : bytes) (rezbuflen : Z) (ID_BUF : bytes) (ID_BUF_SIZE : Z) : res (Z * bytes * Z) :=
  let! (retVal, temp_buffer) := mh_new (replicate (Z.to_nat rezbuflen) 0) MH_H_SHA2_256 ID_BUF ID_BUF_SIZE in
  if retVal <? 0 then Ret (0, pointyaddr, rezbuflen)
  else
    let! n := strlen temp_buffer in
    let! (returnstatus, pointyaddr, rezbuflen) := libp2p_crypto_encoding_base58_encode temp_buffer n pointyaddr rezbuflen in
    Ret (if returnstatus =? 0 then 0 else 1, pointyaddr, rezbuflen).

(** the result and [*peer_id] *)
Definition libp2p_crypto_public_key_to_peer_id (sha256 : bytes -> bytes) (public_key : PublicKey) : res (Z * option bytes) :=
  let protobuf_len := libp2p_crypto_public_key_protobuf_encode_size public_key in
  let! ((_, protobuf_len), protobuf) := libp2p_crypto_public_key_protobuf_encode public_key (fresh protobuf_len) protobuf_len in
  let! (_, hashed) := libp2p_crypto_hashing_sha256 sha256 protobuf protobuf_len in
  let! (r, final_id, final_id_size) := PrettyID (replicate 100 0) 100 hashed 32 in
  if r =? 0 then Ret (0, None)
  else if malloc_ok (u64 (final_id_size + 1)) then
    let! id := memrd final_id final_id_size in Ret (1, Some (id ++ [0]))
  else Ret (0, None).
End keys.

(** ** Reference forms *)
Definition public_key_bytes (k : PublicKey) : bytes := ztake (pk_data_size k) (deref (pk_data k)).
Definition public_key_ok (k : PublicKey) : Prop :=
  0 <= pk_type k < 2 ^ 32 /\ 0 <= pk_data_size k <= zlen (deref (pk_data k)) /\ pk_data_size k + 22 <= INT_MAX.
Definition public_key_wire (k : PublicKey) : bytes := varint_field 1 (pk_type k) ++ bytes_field 2 (public_key_bytes k).
Definition public_key_saved (k : PublicKey) : PublicKey := mkPublicKey (pk_type k) (Some (public_key_bytes k)) (pk_data_size k).

(** a private key has the layout of a public one, and the same encoding *)
Definition as_public (k : PrivateKey) : PublicKey := mkPublicKey (sk_type k) (sk_data k) (sk_data_size k).
Definition as_private (k : PublicKey) : PrivateKey := mkPrivateKey (pk_type k) (pk_data k) (pk_data_size k).

Section proofs.
Context {M : Malloc}.

Lemma public_key_bytes_length k : public_key_ok k -> zlen (public_key_bytes k) = pk_data_size k.
Proof. intros (_ & H & _). by apply zlen_take. Qed.

Lemma public_key_emits k : public_key_ok k -> emits (libp2p_crypto_public_key_protobuf_encode k) (public_key_wire k).
Proof.
  intros Hk. pose proof Hk as (Ht & Hd & _). apply (emits_continues (fun max => _)). intros max. unfold public_key_wire.
  apply continues_put_unchecked; [auto with wire lia|]. rewrite <- (app_nil_r (bytes_field 2 _)). unfold public_key_bytes. auto 10 with wire lia.
Qed.

Lemma private_key_emits k : public_key_ok (as_public k) -> emits (libp2p_crypto_private_key_protobuf_encode k) (public_key_wire (as_public k)).
Proof.
  intros Hk. pose proof Hk as (Ht & Hd & _). apply (emits_continues (fun max => _)). intros max. unfold public_key_wire.
  apply continues_put; [auto with wire lia|]. rewrite <- (app_nil_r (bytes_field 2 _)). unfold public_key_bytes. cbn [as_public pk_data pk_data_size] in *. auto 10 with wire lia.
Qed.

Lemma public_key_length k : public_key_ok k -> zlen (public_key_wire k) <= libp2p_crypto_public_key_protobuf_encode_size k <= INT_MAX.
Proof.
  intros Hk. pose proof Hk as (Ht & Hd & Hs). unfold public_key_wire, libp2p_crypto_public_key_protobuf_encode_size, INT_MAX in *.
  rewrite zlen_app, u64_small by lia. pose proof (varint_field_le 1 (pk_type k) ltac:(lia)).
  pose proof (bytes_field_le 2 (public_key_bytes k) ltac:(lia)). rewrite public_key_bytes_length in * by done. lia.
Qed.

Context {Hm : MallocOk M}.

Tactic Notation "solve_key" reference(h) :=
  let rest := fresh "rest" in let rem := fresh "rem" in let Hr := fresh "Hr" in
  intros rest rem Hr; unfold h, protobuf_decode_varint; zbool;
  first [ rewrite decode_varint_payload by lia | rewrite decode_bytes_payload by auto ]; cbn [rbind].

Lemma public_key_parses k : public_key_ok k -> parses public_key_handler (public_key_wire k) public_key_blank (public_key_saved k).
Proof using Hm.
  intros Hk. pose proof Hk as (Ht & Hd & _). unfold public_key_wire, public_key_saved. rewrite <- (public_key_bytes_length k Hk).
  eapply parses_app; [apply parses_varint; [auto with wire|by solve_key public_key_handler]|].
  apply parses_bytes; [auto with wire|]. solve_key public_key_handler. by rewrite u32_small by lia.
Qed.

Lemma public_key_decode_wire k post : public_key_ok k ->
  libp2p_crypto_public_key_protobuf_decode (public_key_wire k ++ post) (zlen (public_key_wire k)) = Ret (Some (public_key_saved k)).
Proof using Hm.
  intros Hk. pose proof (public_key_length k Hk). unfold libp2p_crypto_public_key_protobuf_decode, libp2p_crypto_public_key_new.
  rewrite malloc_always. apply parses_decode; [by apply public_key_parses|lia].
Qed.

Lemma private_key_parses k : public_key_ok (as_public k) ->
  parses private_key_handler (public_key_wire (as_public k)) private_key_blank (as_private (public_key_saved (as_public k))).
Proof using Hm.
  intros Hk. pose proof Hk as (Ht & Hd & _). unfold public_key_wire, public_key_saved. rewrite <- (public_key_bytes_length _ Hk).
  eapply parses_app; [apply parses_varint; [auto with wire|by solve_key private_key_handler]|].
  apply parses_bytes; [auto with wire|]. solve_key private_key_handler. by rewrite u32_small by lia.
Qed.

(** ** Peer ids *)
(** the bytes in front of the first zero byte *)
Definition cut (h : bytes) : bytes := c_str (h ++ [0]).

Lemma c_str_nonzero p : Forall (fun b => b <> 0) (c_str p).
Proof. induction p as [|b p IH]; cbn [c_str]; [constructor|]. destruct (Z.eqb_spec b 0); [constructor|by constructor]. Qed.

Lemma cut_split h rest : exists tail, h ++ 0 :: rest = cut h ++ 0 :: tail.
Proof.
  induction h as [|b h [tail IH]]; [by exists rest|]. unfold cut in *. cbn [app c_str]. destruct (Z.eqb_spec b 0) as [->|].
  - by eexists.
  - exists tail. by rewrite IH.
Qed.

Lemma cut_length h : zlen (cut h) <= zlen h.
Proof.
  unfold cut. induction h as [|b h IH]; [done|]. cbn [app c_str]. destruct (b =? 0); [change (zlen (@nil Z)) with 0; apply zlen_nonneg|]. rewrite !zlen_cons. lia.
Qed.

Lemma cut_bytes h : is_bytes h -> is_bytes (cut h).
Proof.
  unfold cut. induction 1 as [|b h Hb _ IH]; [constructor|]. cbn [app c_str]. destruct (b =? 0); [constructor|]. by constructor.
Qed.

(** the id is made of the multihash of what is in front of the first zero byte *)
Lemma pretty_id_ok h : is_bytes h -> zlen h = 32 ->
  exists d tail, same_number d (18 :: 32 :: cut h) /\ zlen d <= 98 /\
    PrettyID (replicate 100 0) 100 h 32 = Ret (1, b58_string d ++ 0 :: tail, zlen d + 1).
Proof using.
  intros Hb Hl. unfold PrettyID, MH_H_SHA2_256. change (replicate (Z.to_nat 100) 0) with (replicate 100 0).
  pose proof (mh_new_ok (replicate 100 0) 18 h [] ltac:(lia) ltac:(lia) ltac:(rewrite Hl; done)) as E. rewrite app_nil_r, Hl in E. rewrite E. cbn [rbind].
  change (0 <? 0) with false. cbv iota. unfold multihash_bytes. rewrite Hl.
  change (zdrop (2 + 32) (replicate 100 0)) with (0 :: replicate 65 0). destruct (cut_split h (replicate 65 0)) as [tail Et].
  change ((18 :: 32 :: h) ++ 0 :: replicate 65 0) with ([18; 32] ++ (h ++ 0 :: replicate 65 0)). rewrite Et, app_assoc. change ([18; 32] ++ cut h) with (18 :: 32 :: cut h).
  rewrite strlen_nul by (repeat (constructor; [done|]); apply c_str_nonzero). cbn [rbind].
  assert (is_bytes (18 :: 32 :: cut h)) as Hm18 by (repeat (constructor; [unfold byte_range; lia|]); by apply cut_bytes).
  pose proof (cut_length h) as Hc. zlen_facts. assert (zlen (18 :: 32 :: cut h) <= 34) as Hc2 by (rewrite !zlen_cons; lia).
  destruct (base58_encode_text (18 :: 32 :: cut h) (0 :: tail) (replicate 100 0) 100 Hm18 ltac:(done) ltac:(lia)) as (d & Hd & Hdl & Henc).
  assert (zlen d <= 98) as Hd98.
  { etransitivity; [exact Hdl|]. enough (zlen (18 :: 32 :: cut h) * 138 / 100 <= 34 * 138 / 100) as H' by (change (34 * 138 / 100) with 46 in H'; lia).
    apply Z.div_le_mono; lia. }
  rewrite Henc by (split; [lia|done]). cbn [rbind]. change (1 =? 0) with false. cbv iota. by eexists d, _.
Qed.

Lemma peer_id_ok sha256 k : public_key_ok k -> is_bytes (sha256 (public_key_wire k)) -> zlen (sha256 (public_key_wire k)) = 32 ->
  exists d, same_number d (18 :: 32 :: cut (sha256 (public_key_wire k))) /\
    libp2p_crypto_public_key_to_peer_id sha256 k = Ret (1, Some (b58_string d ++ [0; 0])).
Proof using Hm.
  intros Hk Hb Hl. pose proof (public_key_length k Hk) as Hs. unfold libp2p_crypto_public_key_to_peer_id. zlen_facts.
  rewrite (public_key_emits k Hk) by (rewrite ?zlen_fresh; lia). cbn [rbind]. unfold libp2p_crypto_hashing_sha256. rewrite memrd_app by done. cbn [rbind].
  destruct (pretty_id_ok _ Hb Hl) as (d & tail & Hd & Hd98 & E). exists d. split; [done|]. rewrite E. cbn [rbind]. change (1 =? 0) with false. cbv iota.
  zlen_facts. assert (zlen (b58_string d) = zlen d) as Hz by apply zlen_fmap.
  rewrite malloc_always. change (b58_string d ++ 0 :: tail) with (b58_string d ++ [0] ++ tail). rewrite app_assoc, memrd_app by (rewrite zlen_app, Hz; done). cbn [rbind].
  by rewrite <- app_assoc.
Qed.
End proofs.

(** ** Properties *)

(**  A public or a private key is encoded within its size estimate into
    the same bytes, and decoded to itself, whatever its type. *)
Lemma keys_encode_decode {M : Malloc} {Hm : MallocOk M} (k : PublicKey) (buf post : bytes) :
  public_key_ok k -> let size := libp2p_crypto_public_key_protobuf_encode_size k in size <= zlen buf <= INT_MAX ->
  let n := zlen (public_key_wire k) in
  exists buf', n <= size /\ zlen buf' = zlen buf /\
    libp2p_crypto_public_key_protobuf_encode k buf (zlen buf) = Ret ((1, n), buf') /\
    libp2p_crypto_private_key_protobuf_encode (as_private k) buf (zlen buf) = Ret ((1, n), buf') /\
    libp2p_crypto_public_key_protobuf_decode (buf' ++ post) n = Ret (Some (public_key_saved k)) /\
    libp2p_crypto_private_key_protobuf_decode (buf' ++ post) n = Ret (Some (as_private (public_key_saved k))).
Proof.
  intros Hk size Hb n. pose proof (public_key_length k Hk) as Hl. subst n size. zlen_facts. set (n := zlen (public_key_wire k)) in *.
  assert (as_public (as_private k) = k) as Ek by (by destruct k).
  exists (public_key_wire k ++ zdrop n buf). split; [lia|]. split; [rewrite zlen_app, zlen_drop by lia; fold n; lia|].
  split; [apply (public_key_emits k Hk); lia|]. split.
  - rewrite <- Ek in Hk. pose proof (private_key_emits (as_private k) Hk) as He. rewrite Ek in He. apply He; lia.
  - rewrite <- app_assoc. unfold n. split; [by apply public_key_decode_wire|].
    unfold libp2p_crypto_private_key_protobuf_decode, libp2p_crypto_private_key_new. rewrite malloc_always.
    rewrite <- Ek in Hk. pose proof (private_key_parses (as_private k) Hk) as Hp. rewrite Ek in Hp. apply parses_decode; [exact Hp|lia].
Qed.

Definition ex_public_key : PublicKey := mkPublicKey KEYTYPE_RSA (Some [48; 1; 2]) 3.

(**  The id of a peer is the base 58 text of the multihash of its
    encoded public key, cut at the first zero byte of the hash, because the multihash
    is measured with strlen: two keys whose hashes agree up to the first zero byte
    have one id. *)
Lemma peer_id_cut {M : Malloc} {Hm : MallocOk M} (sha256 : bytes -> bytes) (k k' : PublicKey) :
  public_key_ok k -> public_key_ok k' -> (forall x, is_bytes (sha256 x) /\ zlen (sha256 x) = 32) ->
  let hash := sha256 (public_key_wire k) in
  (exists id, libp2p_crypto_public_key_to_peer_id sha256 k = Ret (1, Some (id ++ [0; 0])) /\
     Forall b58_valid id /\ b58_number id = num 256 (18 :: 32 :: cut hash)) /\
  (cut hash = cut (sha256 (public_key_wire k')) ->
   libp2p_crypto_public_key_to_peer_id sha256 k' = libp2p_crypto_public_key_to_peer_id sha256 k).
Proof.
  intros Hk Hk' Hs hash. destruct (peer_id_ok sha256 k Hk (proj1 (Hs _)) (proj2 (Hs _))) as (d & Hd & E).
  destruct (peer_id_ok sha256 k' Hk' (proj1 (Hs _)) (proj2 (Hs _))) as (d' & Hd' & E'). fold hash in Hd. split.
  - exists (b58_string d). split; [exact E|]. destruct Hd as (H1 & _ & _ & _ & H2). split; [by apply b58_string_valid|].
    unfold b58_number. by rewrite b58_string_digits.
  - intros Hc. rewrite E, E'. rewrite <- Hc in Hd'. by rewrite (same_number_unique d d' _ Hd Hd').
Qed.

(** a hash function that gives a zero byte third *)
Definition ex_zero_hash (x : bytes) : bytes := [1; 2; 0] ++ replicate 28 7 ++ [u8 (zlen x)].
