(* ===== verification/SecioMessage.v ===== *)
(** * The messages of the secure channel (libp2p/secio/propose.c,
    libp2p/secio/exchange.c)

    A [Propose] offers a nonce, a public key and lists of algorithms; an [Exchange]
    has the ephemeral key and the signature of what was said before. *)
From S2P Require Import Prelude Varint Protobuf Cid Block Keys.

Record Propose := mkPropose {
  p_rand : option bytes; p_rand_size : Z;
  p_public_key : option bytes; p_public_key_size : Z;
  p_exchanges : option bytes; p_exchanges_size : Z;
  p_ciphers : option bytes; p_ciphers_size : Z;
  p_hashes : option bytes; p_hashes_size : Z
}.
Record Exchange := mkExchange {
  x_epubkey : option bytes; x_epubkey_size : Z;
  x_signature : option bytes; x_signature_size : Z
}.
#[export] Instance Propose_eq_dec : EqDecision Propose.
Proof. solve_decision. Defined.
#[export] Instance Exchange_eq_dec : EqDecision Exchange.
Proof. solve_decision. Defined.

Definition sizeof_Propose : Z := 80.
Definition sizeof_Exchange : Z := 32.
Definition sizeof_PrivateKey : Z := 24.

Section messages.
Context {M : Malloc}.

(** ** Propose *)
Definition propose_blank : Propose := mkPropose None 0 None 0 None 0 None 0 None 0.
Definition libp2p_secio_propose_new : option Propose := if malloc_ok sizeof_Propose then Some propose_blank else None.

(** the result, [*to] and [*to_size] *)
Definition libp2p_secio_propose_set_property (to_size : Z) (from : bytes) (from_size : Z) : res (Z * option bytes * Z) :=
  if malloc_ok from_size then let! b := memrd from from_size in Ret (1, Some b, from_size)
  else Ret (0, None, to_size).

Definition libp2p_secio_propose_protobuf_encode_size (p : Propose) : Z :=
  let retVal := u64 (0 + u64 (11 + p_rand_size p)) in
  let retVal := u64 (retVal + u64 (11 + p_public_key_size p)) in
  let retVal := u64 (retVal + u64 (11 + p_ciphers_size p)) in
  let retVal := u64 (retVal + u64 (11 + p_exchanges_size p)) in
  u64 (retVal + u64 (11 + p_hashes_size p)).

(** one field that is a pointer and a size *)
Definition put_object (field_no : Z) (data : option bytes) (size : Z) :=
  put_field (protobuf_encode_length_delimited field_no WIRETYPE_LENGTH_DELIMITED (deref data) size).

Definition libp2p_secio_propose_protobuf_encode (p : Propose) (buffer : bytes) (max_buffer_length : Z) : encoded :=
  let max := max_buffer_length in
  put_object 1 (p_rand p) (p_rand_size p) max
  (put_object 2 (p_public_key p) (p_public_key_size p) max
  (put_object 3 (p_exchanges p) (p_exchanges_size p) max
  (put_object 4 (p_ciphers p) (p_ciphers_size p) max
  (put_object 5 (p_hashes p) (p_hashes_size p) max
  put_done)))) 0 buffer.

Definition set_rand d p := mkPropose (Some d) (zlen d) (p_public_key p) (p_public_key_size p) (p_exchanges p) (p_exchanges_size p) (p_ciphers p) (p_ciphers_size p) (p_hashes p) (p_hashes_size p).
Definition set_public_key d p := mkPropose (p_rand p) (p_rand_size p) (Some d) (zlen d) (p_exchanges p) (p_exchanges_size p) (p_ciphers p) (p_ciphers_size p) (p_hashes p) (p_hashes_size p).
Definition set_exchanges d p := mkPropose (p_rand p) (p_rand_size p) (p_public_key p) (p_public_key_size p) (Some d) (zlen d) (p_ciphers p) (p_ciphers_size p) (p_hashes p) (p_hashes_size p).
Definition set_ciphers d p := mkPropose (p_rand p) (p_rand_size p) (p_public_key p) (p_public_key_size p) (p_exchanges p) (p_exchanges_size p) (Some d) (zlen d) (p_hashes p) (p_hashes_size p).
Definition set_hashes d p := mkPropose (p_rand p) (p_rand_size p) (p_public_key p) (p_public_key_size p) (p_exchanges p) (p_exchanges_size p) (p_ciphers p) (p_ciphers_size p) (Some d) (zlen d).

(** the message, and [got_something] *)
Definition propose_handler : handler (Propose * bool) := fun field_no p rem '(m, got) =>
  let read set :=
    let! s := protobuf_decode_length_delimited p rem in
    match s with None => Ret None | Some (d, n) => Ret (Some ((set d m, true), n)) end in
  if field_no =? 1 then read set_rand
  else if field_no =? 2 then read set_public_key
  else if field_no =? 3 then read set_exchanges
  else if field_no =? 4 then read set_ciphers
  else if field_no =? 5 then read set_hashes
  else Ret (Some ((m, got), 0)).

(** [None]: returned 0, with [*out] freed *)
Definition libp2p_secio_propose_protobuf_decode (buffer : bytes) (buffer_length : Z) : res (option Propose) :=
  match libp2p_secio_propose_new with
  | None => Ret None
  | Some p =>
    let! r := decode_fields (decode_fuel buffer_length) propose_handler buffer buffer_length 0 (p, false) in
    Ret (match r with Some (p, true) => Some p | _ => None end)
  end.

(** [p = malloc(n); memcpy(p, src, n)] without a test of the pointer *)
Definition copy_unchecked (src : bytes) (n : Z) : res bytes := if malloc_ok n then memrd src n else UB.

(** a string, with its length and without the zero byte, in an object with it *)
Definition copy_string (s : bytes) : res (bytes * Z) :=
  let! n := strlen s in
  let! b := copy_unchecked s (n + 1) in
  Ret (b, n).

(** [public_key_der] with its length is what the code uses of the RSA key *)
Definition libp2p_secio_propose_build (nonce : bytes) (public_key_der : bytes) (public_key_length : Z)
    (supportedExchanges supportedCiphers supportedHashes : bytes) : res (option Propose) :=
  match libp2p_secio_propose_new with
  | None => Ret None
  | Some _ =>
    let! rand := copy_unchecked nonce 16 in
    let! (ciphers, ciphers_size) := copy_string supportedCiphers in
    let! (exchanges, exchanges_size) := copy_string supportedExchanges in
    let! (hashes, hashes_size) := copy_string supportedHashes in
    let! data := copy_unchecked public_key_der public_key_length in
    let pub_key := mkPublicKey KEYTYPE_RSA (Some data) public_key_length in
    let size := libp2p_crypto_public_key_protobuf_encode_size pub_key in
    if malloc_ok size then
      let! ((r, n), key) := libp2p_crypto_public_key_protobuf_encode pub_key (fresh size) size in
      Ret (if r =? 0 then None
           else Some (mkPropose (Some rand) 16 (Some key) n (Some exchanges) exchanges_size (Some ciphers) ciphers_size (Some hashes) hashes_size))
    else Ret None
  end.

(** ** Exchange *)
Definition exchange_blank : Exchange := mkExchange None 0 None 0.
Definition libp2p_secio_exchange_new : option Exchange := if malloc_ok sizeof_Exchange then Some exchange_blank else None.

Definition libp2p_secio_exchange_protobuf_encode_size (x : Exchange) : Z :=
  let retVal := u64 (0 + u64 (11 + x_epubkey_size x)) in
  u64 (retVal + u64 (11 + x_signature_size x)).

Definition libp2p_secio_exchange_protobuf_encode (x : Exchange) (buffer : bytes) (max_buffer_length : Z) : encoded :=
  let max := max_buffer_length in
  put_object 1 (x_epubkey x) (x_epubkey_size x) max
  (put_object 2 (x_signature x) (x_signature_size x) max
  put_done) 0 buffer.

Definition exchange_handler : handler Exchange := fun field_no p rem m =>
  if field_no =? 1 then
    let! s := protobuf_decode_length_delimited p rem in
    match s with None => Ret None | Some (d, n) => Ret (Some (mkExchange (Some d) (zlen d) (x_signature m) (x_signature_size m), n)) end
  else if field_no =? 2 then
    let! s := protobuf_decode_length_delimited p rem in
    match s with None => Ret None | Some (d, n) => Ret (Some (mkExchange (x_epubkey m) (x_epubkey_size m) (Some d) (zlen d), n)) end
  else Ret (Some (m, 0)).

Definition libp2p_secio_exchange_protobuf_decode (buffer : bytes) (buffer_length : Z) : res (option Exchange) :=
  match libp2p_secio_exchange_new with
  | None => Ret None
  | Some m => decode_fields (decode_fuel buffer_length) exchange_handler buffer buffer_length 0 m
  end.

(** [libp2p_crypto_rsa_sign] (libp2p/crypto/rsa.c): the result and the signature, if one
    was written, for the DER bytes of a key and a message, both with their lengths *)
Context (rsa_sign : bytes -> Z -> bytes -> Z -> res (Z * option bytes)).

Definition libp2p_secio_sign (private_key : PrivateKey) (input : bytes) (in_length : Z) : res (Z * option bytes) :=
  if sk_type private_key =? KEYTYPE_RSA then rsa_sign (deref (sk_data private_key)) (sk_data_size private_key) input in_length
  else Ret (0, None).

(** [public_key] is the ephemeral key of the session, with a first byte that is not
    sent; the result of the signing is not looked at *)
Definition libp2p_secio_exchange_build (public_key : bytes) (bytes_size : Z) (der : bytes) (der_length : Z)
    (bytes_to_be_signed : bytes) (size : Z) : res (option Exchange) :=
  match libp2p_secio_exchange_new with
  | None => Ret None
  | Some _ =>
    let n := u64 (bytes_size - 1) in
    if malloc_ok n then
      let! p := padd public_key 1 in
      let! epubkey := memrd p n in
      match libp2p_crypto_private_key_new with
      | None => UB
      | Some _ =>
        let! (_, signature) := libp2p_secio_sign (mkPrivateKey KEYTYPE_RSA (Some der) der_length) bytes_to_be_signed size in
        Ret (Some (mkExchange (Some epubkey) n signature (zlen (deref signature))))
      end
    else Ret None
  end.
End messages.

(** ** Reference forms *)
Definition field_bytes (d : option bytes) (n : Z) : bytes := ztake n (deref d).
Definition field_ok_size (d : option bytes) (n : Z) : Prop := 0 <= n <= zlen (deref d) /\ n < 2 ^ 24.

Definition propose_ok (p : Propose) : Prop :=
  field_ok_size (p_rand p) (p_rand_size p) /\ field_ok_size (p_public_key p) (p_public_key_size p) /\
  field_ok_size (p_exchanges p) (p_exchanges_size p) /\ field_ok_size (p_ciphers p) (p_ciphers_size p) /\ field_ok_size (p_hashes p) (p_hashes_size p).
Definition propose_wire (p : Propose) : bytes :=
  bytes_field 1 (field_bytes (p_rand p) (p_rand_size p)) ++ bytes_field 2 (field_bytes (p_public_key p) (p_public_key_size p)) ++
  bytes_field 3 (field_bytes (p_exchanges p) (p_exchanges_size p)) ++ bytes_field 4 (field_bytes (p_ciphers p) (p_ciphers_size p)) ++
  bytes_field 5 (field_bytes (p_hashes p) (p_hashes_size p)).
Definition propose_saved (p : Propose) : Propose :=
  set_hashes (field_bytes (p_hashes p) (p_hashes_size p)) (set_ciphers (field_bytes (p_ciphers p) (p_ciphers_size p))
  (set_exchanges (field_bytes (p_exchanges p) (p_exchanges_size p)) (set_public_key (field_bytes (p_public_key p) (p_public_key_size p))
  (set_rand (field_bytes (p_rand p) (p_rand_size p)) propose_blank)))).

Definition exchange_ok (x : Exchange) : Prop :=
  field_ok_size (x_epubkey x) (x_epubkey_size x) /\ field_ok_size (x_signature x) (x_signature_size x).
Definition exchange_wire (x : Exchange) : bytes :=
  bytes_field 1 (field_bytes (x_epubkey x) (x_epubkey_size x)) ++ bytes_field 2 (field_bytes (x_signature x) (x_signature_size x)).
Definition exchange_saved (x : Exchange) : Exchange :=
  mkExchange (Some (field_bytes (x_epubkey x) (x_epubkey_size x))) (x_epubkey_size x) (Some (field_bytes (x_signature x) (x_signature_size x))) (x_signature_size x).

Lemma field_bytes_length d n : field_ok_size d n -> zlen (field_bytes d n) = n.
Proof. intros [H _]. by apply zlen_take. Qed.

Lemma field_length_le f d n : 0 <= f < 16 -> field_ok_size d n -> zlen (bytes_field f (field_bytes d n)) <= 11 + n.
Proof. intros Hf Hd. pose proof (bytes_field_le f (field_bytes d n) Hf). by rewrite field_bytes_length in * by done. Qed.

Section proofs.
Context {M : Malloc}.

Lemma continues_object f d n max k ks : 0 <= f < 16 -> field_ok_size d n -> continues k max ks ->
  continues (put_object f d n max k) max (bytes_field f (field_bytes d n) ++ ks).
Proof.
  intros Hf [Hd _] Hk. unfold put_object, field_bytes. apply continues_put; [|exact Hk]. auto with wire lia.
Qed.

Lemma propose_emits p : propose_ok p -> emits (libp2p_secio_propose_protobuf_encode p) (propose_wire p).
Proof.
  intros (H1 & H2 & H3 & H4 & H5). apply (emits_continues (fun max => _)). intros max. unfold propose_wire.
  do 4 (apply continues_object; [lia|done|]). rewrite <- (app_nil_r (bytes_field 5 _)). apply continues_object; [lia|done|apply continues_done].
Qed.
Lemma exchange_emits x : exchange_ok x -> emits (libp2p_secio_exchange_protobuf_encode x) (exchange_wire x).
Proof.
  intros (H1 & H2). apply (emits_continues (fun max => _)). intros max. unfold exchange_wire.
  apply continues_object; [lia|done|]. rewrite <- (app_nil_r (bytes_field 2 _)). apply continues_object; [lia|done|apply continues_done].
Qed.

(** sums of sizes, from the inside out *)
Ltac inner_u64 :=
  repeat match goal with
  | |- context [u64 ?z] => lazymatch z with context [u64 _] => fail | _ => rewrite (u64_small z) by lia end
  end.

Lemma propose_length p : propose_ok p -> zlen (propose_wire p) <= libp2p_secio_propose_protobuf_encode_size p <= INT_MAX.
Proof.
  intros (H1 & H2 & H3 & H4 & H5). unfold propose_wire, libp2p_secio_propose_protobuf_encode_size, INT_MAX. rewrite !zlen_app.
  pose proof (field_length_le 1 _ _ ltac:(lia) H1). pose proof (field_length_le 2 _ _ ltac:(lia) H2). pose proof (field_length_le 3 _ _ ltac:(lia) H3).
  pose proof (field_length_le 4 _ _ ltac:(lia) H4). pose proof (field_length_le 5 _ _ ltac:(lia) H5). unfold field_ok_size in *.
  inner_u64. lia.
Qed.
Lemma exchange_length x : exchange_ok x -> zlen (exchange_wire x) <= libp2p_secio_exchange_protobuf_encode_size x <= INT_MAX.
Proof.
  intros (H1 & H2). unfold exchange_wire, libp2p_secio_exchange_protobuf_encode_size, INT_MAX. rewrite !zlen_app.
  pose proof (field_length_le 1 _ _ ltac:(lia) H1). pose proof (field_length_le 2 _ _ ltac:(lia) H2). unfold field_ok_size in *.
  inner_u64. lia.
Qed.

Context {Hm : MallocOk M}.

Tactic Notation "solve_object" reference(h) :=
  let rest := fresh "rest" in let rem := fresh "rem" in let Hr := fresh "Hr" in
  intros rest rem Hr; unfold h; zbool; rewrite decode_bytes_payload by auto; cbn [rbind].

Lemma propose_parses p got : propose_ok p -> parses propose_handler (propose_wire p) (propose_blank, got) (propose_saved p, true).
Proof using Hm.
  intros (H1 & H2 & H3 & H4 & H5). unfold propose_wire, propose_saved.
  do 4 (eapply parses_app; [apply parses_bytes; [auto with wire|by solve_object propose_handler]|]).
  apply parses_bytes; [auto with wire|by solve_object propose_handler].
Qed.
Lemma exchange_parses x : exchange_ok x -> parses exchange_handler (exchange_wire x) exchange_blank (exchange_saved x).
Proof using Hm.
  intros (H1 & H2). unfold exchange_wire, exchange_saved. rewrite <- (field_bytes_length _ _ H1) at 3. rewrite <- (field_bytes_length _ _ H2) at 3.
  eapply parses_app; [apply parses_bytes; [auto with wire|by solve_object exchange_handler]|].
  apply parses_bytes; [auto with wire|by solve_object exchange_handler].
Qed.

Lemma propose_decode_wire p post : propose_ok p ->
  libp2p_secio_propose_protobuf_decode (propose_wire p ++ post) (zlen (propose_wire p)) = Ret (Some (propose_saved p)).
Proof using Hm.
  intros Hp. pose proof (propose_length p Hp). unfold libp2p_secio_propose_protobuf_decode, libp2p_secio_propose_new. rewrite malloc_always.
  by rewrite (parses_decode _ _ post _ _ (propose_parses p false Hp)) by lia.
Qed.
Lemma exchange_decode_wire x post : exchange_ok x ->
  libp2p_secio_exchange_protobuf_decode (exchange_wire x ++ post) (zlen (exchange_wire x)) = Ret (Some (exchange_saved x)).
Proof using Hm.
  intros Hx. pose proof (exchange_length x Hx). unfold libp2p_secio_exchange_protobuf_decode, libp2p_secio_exchange_new. rewrite malloc_always.
  by rewrite (parses_decode _ _ post _ _ (exchange_parses x Hx)) by lia.
Qed.
End proofs.

(** ** Properties *)

(** Property C30.  The messages of the secure channel are encoded within their size
    estimates and decoded to themselves, when every part is below 16 MiB.  No bytes at
    all are an [Exchange] without key and signature, but not a [Propose]. *)
Theorem secio_messages_roundtrip {M : Malloc} {Hm : MallocOk M} (p : Propose) (x : Exchange) (post : bytes) :
  propose_ok p -> exchange_ok x ->
  let m := libp2p_secio_propose_protobuf_encode_size p in let n := libp2p_secio_exchange_protobuf_encode_size x in
  exists b c,
    libp2p_secio_propose_protobuf_encode p (fresh m) m = Ret ((1, zlen (propose_wire p)), b) /\ zlen (propose_wire p) <= zlen b /\ zlen b = m /\
    libp2p_secio_propose_protobuf_decode (b ++ post) (zlen (propose_wire p)) = Ret (Some (propose_saved p)) /\
    libp2p_secio_exchange_protobuf_encode x (fresh n) n = Ret ((1, zlen (exchange_wire x)), c) /\ zlen (exchange_wire x) <= zlen c /\ zlen c = n /\
    libp2p_secio_exchange_protobuf_decode (c ++ post) (zlen (exchange_wire x)) = Ret (Some (exchange_saved x)) /\
    libp2p_secio_propose_protobuf_decode [] 0 = Ret None /\ libp2p_secio_exchange_protobuf_decode [] 0 = Ret (Some exchange_blank).
Proof.
  intros Hp Hx m n. pose proof (propose_length p Hp) as Hpl. pose proof (exchange_length x Hx) as Hxl. fold m in Hpl. fold n in Hxl. zlen_facts.
  exists (propose_wire p ++ zdrop (zlen (propose_wire p)) (fresh m)), (exchange_wire x ++ zdrop (zlen (exchange_wire x)) (fresh n)).
  assert (zlen (fresh m) = m) as Hm' by (apply zlen_fresh; lia). assert (zlen (fresh n) = n) as Hn' by (apply zlen_fresh; lia).
  split; [apply (propose_emits p Hp); lia|]. split; [rewrite zlen_app, zlen_drop by lia; lia|]. split; [rewrite zlen_app, zlen_drop by lia; lia|].
  split; [rewrite <- app_assoc; by apply propose_decode_wire|].
  split; [apply (exchange_emits x Hx); lia|]. split; [rewrite zlen_app, zlen_drop by lia; lia|]. split; [rewrite zlen_app, zlen_drop by lia; lia|].
  split; [rewrite <- app_assoc; by apply exchange_decode_wire|].
  unfold libp2p_secio_propose_protobuf_decode, libp2p_secio_propose_new, libp2p_secio_exchange_protobuf_decode, libp2p_secio_exchange_new.
  by rewrite !malloc_always.
Qed.

Definition ex_propose : Propose := mkPropose (Some [1; 2; 3]) 3 (Some [4; 5]) 2 (Some [80; 0]) 1 (Some [65; 0]) 1 None 0.
Definition ex_exchange : Exchange := mkExchange (Some [7; 8]) 2 (Some [9]) 1.

Lemma secio_messages_roundtrip_witness :
  let M := malloc_total in let p := ex_propose in let x := ex_exchange in
  let m := libp2p_secio_propose_protobuf_encode_size p in let n := libp2p_secio_exchange_protobuf_encode_size x in
  exists b c,
    libp2p_secio_propose_protobuf_encode p (fresh m) m = Ret ((1, zlen (propose_wire p)), b) /\ zlen (propose_wire p) <= zlen b /\ zlen b = m /\
    libp2p_secio_propose_protobuf_decode (b ++ [1]) (zlen (propose_wire p)) = Ret (Some (propose_saved p)) /\
    libp2p_secio_exchange_protobuf_encode x (fresh n) n = Ret ((1, zlen (exchange_wire x)), c) /\ zlen (exchange_wire x) <= zlen c /\ zlen c = n /\
    libp2p_secio_exchange_protobuf_decode (c ++ [1]) (zlen (exchange_wire x)) = Ret (Some (exchange_saved x)) /\
    libp2p_secio_propose_protobuf_decode [] 0 = Ret None /\ libp2p_secio_exchange_protobuf_decode [] 0 = Ret (Some exchange_blank).
Proof. intros M p x. apply (secio_messages_roundtrip ex_propose ex_exchange [1]); by repeat split. Defined.
