(* ===== verification/SecioCrypto.v ===== *)
(** * The choices and the cipher of the secure channel (libp2p/secio/secio.c)

    How two peers choose algorithms from their lists, how the keys of a session are
    made of the shared secret, and how a message is encrypted and checked.  SHA-256,
    HMAC and the block cipher AES are those of mbedTLS: arguments; its counter mode is a
    definition. *)
From Stdlib Require Import String.
From S2P Require Import Prelude Varint Protobuf Digits Cid Block CString Protocol Keys SecioMessage.

(** ** Lists of algorithms *)
Definition sizeof_StringList : Z := 16.

Section lists.
Context {M : Malloc}.

(** the pieces strtok finds, each in a new cell with a new string; the results of
    malloc are not looked at *)
Fixpoint string_list (pieces : list bytes) : res (list bytes) :=
  match pieces with
  | [] => Ret []
  | s :: pieces =>
    if malloc_ok sizeof_StringList && malloc_ok (zlen s + 1) then let! l := string_list pieces in Ret (s :: l) else UB
  end.

Definition comma : Z := 44.
Definition libp2p_secio_split_list (l : option bytes) (list_size : Z) : res (list bytes) :=
  let! copy := memrd (deref l) list_size in string_list (tokens comma (c_str (copy ++ [0]))).

Definition libp2p_secio_string_allocate (s : bytes) : res bytes := if malloc_ok (zlen s + 1) then Ret s else UB.

(** the two loops: the first of [lead] that is in [follower] *)
Fixpoint best_match (lead follower : list bytes) : option bytes :=
  match lead with
  | [] => None
  | s :: lead => if existsb (fun t => bool_decide (s = t)) follower then Some s else best_match lead follower
  end.

(** [None]: returned 0 *)
Definition libp2p_secio_select_best (order : Z) (local_list : option bytes) (local_list_size : Z) (remote_list : option bytes) (remote_list_size : Z)
  : res (option bytes) :=
  let! local := libp2p_secio_split_list local_list (s32 local_list_size) in
  if order =? 0 then
    match local with [] => UB | s :: _ => let! s := libp2p_secio_string_allocate s in Ret (Some s) end
  else
    let! remote := libp2p_secio_split_list remote_list (s32 remote_list_size) in
    match (if 0 <? order then best_match local remote else best_match remote local) with
    | None => Ret None
    | Some s => let! s := libp2p_secio_string_allocate s in Ret (Some s)
    end.

(** ** The order of two peers *)
Context (sha256 : bytes -> bytes).

Definition libp2p_secio_hash (key : option bytes) (key_size : Z) (nonce : option bytes) (nonce_size : Z) : res bytes :=
  if malloc_ok (u64 (key_size + nonce_size)) then
    let! k := memrd (deref key) key_size in
    let! n := memrd (deref nonce) nonce_size in
    let! (_, h) := libp2p_crypto_hashing_sha256 sha256 (k ++ n) (u64 (key_size + nonce_size)) in
    Ret h
  else UB.

Fixpoint libp2p_secio_bytes_compare (n : nat) (a b : bytes) : res Z :=
  match n with
  | O => Ret 0
  | S n =>
    let! x := rd a 0 in
    let! y := rd b 0 in
    if x <? y then Ret (-1) else if y <? x then Ret 1
    else let! a := padd a 1 in let! b := padd b 1 in libp2p_secio_bytes_compare n a b
  end.

Definition libp2p_secio_determine_order (remote local : Propose) : res Z :=
  let! hash1 := libp2p_secio_hash (p_public_key remote) (p_public_key_size remote) (p_rand local) (p_rand_size local) in
  let! hash2 := libp2p_secio_hash (p_public_key local) (p_public_key_size local) (p_rand remote) (p_rand_size remote) in
  libp2p_secio_bytes_compare 32 hash1 hash2.
End lists.

(** ** Keys *)
Record StretchedKey := mkStretched {
  k_iv : bytes; k_iv_size : Z;
  k_cipher_key : bytes; k_cipher_size : Z;
  k_mac_key : bytes; k_mac_size : Z
}.
#[export] Instance StretchedKey_eq_dec : EqDecision StretchedKey.
Proof. solve_decision. Defined.
Definition sizeof_StretchedKey : Z := 48.

(** what the handshake leaves in a session for the cipher *)
Record Cipher := mkCipher {
  local_stretched_key : StretchedKey;
  remote_stretched_key : StretchedKey;
  aes_encode_nonce_offset : Z;
  aes_encode_stream_block : bytes;
  aes_decode_nonce_offset : Z;
  aes_decode_stream_block : bytes
}.

Section keys.
Context {M : Malloc} (hmac : bytes -> bytes -> bytes).

Definition seed : bytes := Eval vm_compute in txt "key expansion".
Definition hmac_size : Z := 20.

(** the sizes of the initial vector and of the cipher key *)
Definition cipher_sizes (cipherType : bytes) : option (Z * Z) :=
  if bool_decide (cipherType = txt "AES-128") then Some (16, 16)
  else if bool_decide (cipherType = txt "AES-256") then Some (16, 32)
  else if bool_decide (cipherType = txt "Blowfish") then Some (8, 32)
  else None.

(** the loop that fills [result]; the last block is cut *)
Fixpoint fill_keys (fuel : nat) (secret a_hash : bytes) (num_filled result_size : Z) : res bytes :=
  match fuel with
  | O => NoFuel
  | S fuel =>
    if num_filled <? result_size then
      let b_hash := hmac secret (a_hash ++ seed) in
      let todo := if result_size <? 32 + num_filled then result_size - num_filled else 32 in
      let! b := memrd b_hash todo in
      let! rest := fill_keys fuel secret (hmac secret a_hash) (num_filled + todo) result_size in
      Ret (b ++ rest)
    else Ret []
  end.

(** the pieces of one key in [temp], and what follows; malloc is not checked *)
Definition cut_key (temp : bytes) (iv_size cipher_size : Z) : res (StretchedKey * bytes) :=
  let! iv := copy_unchecked temp iv_size in
  let! temp := padd temp iv_size in
  let! cipher_key := copy_unchecked temp cipher_size in
  let! temp := padd temp cipher_size in
  let! mac_key := copy_unchecked temp hmac_size in
  let! temp := padd temp hmac_size in
  Ret (mkStretched iv iv_size cipher_key cipher_size mac_key hmac_size, temp).

(** [None]: returned 0.  The hash that was chosen is not looked at.  Without memory
    for the second key the first field of it is written through NULL. *)
Definition libp2p_secio_stretch_keys (cipherType : bytes) (secret : bytes) (secret_size : Z) : res (option (StretchedKey * StretchedKey)) :=
  if negb (malloc_ok sizeof_StretchedKey) then Ret None
  else
    match cipher_sizes cipherType with
    | None => Ret None
    | Some (iv_size, cipher_size) =>
      let result_size := 2 * (iv_size + cipher_size * hmac_size) in
      if malloc_ok result_size then
        let! secret := memrd secret secret_size in
        let! result := fill_keys (S (Z.to_nat result_size)) secret (hmac secret seed) 0 result_size in
        let! (k1, temp) := cut_key result iv_size cipher_size in
        let! (k2, _) := cut_key temp iv_size cipher_size in
        Ret (Some (k1, k2))
      else Ret None
    end.

(** the result and the key; the size of the MAC key changes, its object does not *)
Definition libp2p_secio_make_mac_and_cipher (chosen_hash chosen_cipher : bytes) (k : StretchedKey) : Z * StretchedKey :=
  let set n := mkStretched (k_iv k) (k_iv_size k) (k_cipher_key k) (k_cipher_size k) (k_mac_key k) n in
  let after k := (if negb (bool_decide (chosen_cipher = txt "AES-128")) || bool_decide (chosen_cipher = txt "AES-256") then 1 else 0, k) in
  if bool_decide (chosen_hash = txt "SHA1") then after (set 40)
  else if bool_decide (chosen_hash = txt "SHA512") then after (set 64)
  else if bool_decide (chosen_hash = txt "SHA256") then after k
  else (0, k).

(** ** The cipher (libp2p/mbedtls/aes.c) *)
(** one block with a key; [mbedtls_aes_setkey_enc] gives 0 for the sizes it knows *)
Context (aes_crypt_ecb : bytes -> bytes -> bytes).
Definition aes_key_bits (keybits : Z) : bool := (keybits =? 128) || (keybits =? 192) || (keybits =? 256).

(** the counter, from its last byte on *)
Fixpoint increment (i : nat) (counter : bytes) : res bytes :=
  match i with
  | O => Ret counter
  | S i =>
    let! b := rd counter (Z.of_nat i) in
    let counter := <[i := u8 (b + 1)]> counter in
    if u8 (b + 1) =? 0 then increment i counter else Ret counter
  end.

(** the offset in the block, the counter and the block of the key stream *)
Definition ctr_state : Type := Z * bytes * bytes.

Definition next_block (key : bytes) (st : ctr_state) : res ctr_state :=
  let '(n, nonce_counter, stream_block) := st in
  if n =? 0 then
    let! b := memrd nonce_counter 16 in
    let! nonce_counter := increment 16 nonce_counter in
    Ret (n, nonce_counter, aes_crypt_ecb key b)
  else Ret st.

(** the state that is left, and the output *)
Fixpoint mbedtls_aes_crypt_ctr (key : bytes) (st : ctr_state) (input : bytes) : res (ctr_state * bytes) :=
  match input with
  | [] => Ret (st, [])
  | c :: input =>
    let! (n, nonce_counter, stream_block) := next_block key st in
    let! s := rd stream_block n in
    let! (st, output) := mbedtls_aes_crypt_ctr key (Z.land (n + 1) 15, nonce_counter, stream_block) input in
    Ret (st, u8 (Z.lxor c s) :: output)
  end.

(** ** Messages *)
(** one call of the cipher with a stretched key *)
Definition crypt (k : StretchedKey) (offset : Z) (block : bytes) (input : bytes) : res (StretchedKey * Z * bytes * bytes) :=
  let! key := memrd (k_cipher_key k) (k_cipher_size k) in
  let! (offset, iv, block, output) := mbedtls_aes_crypt_ctr key (offset, k_iv k, block) input in
  Ret (mkStretched iv (k_iv_size k) (k_cipher_key k) (k_cipher_size k) (k_mac_key k) (k_mac_size k), offset, block, output).

Definition mac (k : StretchedKey) (data : bytes) : res bytes :=
  let! key := memrd (k_mac_key k) (k_mac_size k) in Ret (hmac key data).

(** [None]: returned 0; otherwise [*outgoing] *)
Definition libp2p_secio_encrypt (c : Cipher) (incoming : bytes) (incoming_size : Z) : res (Cipher * option bytes) :=
  let k := local_stretched_key c in
  let! _ := memrd (k_cipher_key k) (k_cipher_size k) in
  if negb (aes_key_bits (u32 (u64 (k_cipher_size k * 8)))) then Ret (c, None)
  else if negb (malloc_ok (u64 (incoming_size + 32))) then UB
  else
    let! input := memrd incoming incoming_size in
    let! (k, offset, block, output) := crypt k (aes_encode_nonce_offset c) (aes_encode_stream_block c) input in
    let! m := mac k output in
    Ret (mkCipher k (remote_stretched_key c) offset block (aes_decode_nonce_offset c) (aes_decode_stream_block c), Some (output ++ m)).

(** the number of bytes, and [*outgoing]: the raw bytes when the MAC is wrong.  Only
    the data of the message is tested for memory *)
Definition libp2p_secio_decrypt (c : Cipher) (incoming : bytes) (incoming_size : Z) : res (Cipher * Z * option bytes) :=
  let data_section_size := u64 (incoming_size - 32) in
  let k := remote_stretched_key c in
  let! data := memrd incoming data_section_size in
  let! generated_mac := mac k data in
  let! p := padd incoming data_section_size in
  let! received := memrd p 32 in
  if bool_decide (received <> ztake 32 generated_mac) then
    if negb (malloc_ok sizeof_StreamMessage) then Ret (c, 0, None)
    else if malloc_ok incoming_size then let! raw := memrd incoming incoming_size in Ret (c, 0, Some raw) else UB
  else
    let! _ := memrd (k_cipher_key k) (k_cipher_size k) in
    if negb (aes_key_bits (u32 (u64 (k_cipher_size k * 8)))) then Ret (c, 0, None)
    else if negb (malloc_ok sizeof_StreamMessage) then UB
    else if negb (malloc_ok data_section_size) then if data_section_size =? 0 then Ret (c, 0, None) else UB
    else
      let! (k, offset, block, output) := crypt k (aes_decode_nonce_offset c) (aes_decode_stream_block c) data in
      Ret (mkCipher (local_stretched_key c) k (aes_encode_nonce_offset c) (aes_encode_stream_block c) offset block, s32 (zlen output), Some output).

Definition libp2p_secio_initialize_crypto (local remote : StretchedKey) : Cipher :=
  mkCipher local remote 0 (replicate 16 0) 0 (replicate 16 0).
End keys.

(** ** Orders and choices *)
Definition sign_of (c : comparison) : Z := match c with Lt => -1 | Eq => 0 | Gt => 1 end.

(** what a list of algorithms holds, and the choice of a leader *)
Definition algorithms (l : option bytes) (n : Z) : list bytes := tokens comma (c_str (ztake n (deref l) ++ [0])).
Definition first_common (lead follower : list bytes) (s : bytes) : Prop :=
  exists before after, lead = before ++ s :: after /\ s ∈ follower /\ Forall (fun t => t ∉ follower) before.

Section choices.
Context {M : Malloc} {Hm : MallocOk M}.

Lemma bytes_compare_lex n a b : length a = n -> length b = n -> libp2p_secio_bytes_compare n a b = Ret (sign_of (lex a b)).
Proof.
  revert a b. induction n as [|n IH]; intros [|x a] [|y b] Ha Hb; try done; cbn in Ha, Hb.
  cbn [libp2p_secio_bytes_compare lex]. rewrite !rd_0. cbn [rbind]. destruct (Z.compare_spec x y) as [->|H|H]; zbool; [|done..].
  rewrite !padd_ok by zlia. cbn [rbind]. apply IH; lia.
Qed.

Lemma string_list_ok l : string_list l = Ret l.
Proof using Hm. induction l as [|s l IH]; cbn [string_list]; [done|]. by rewrite !malloc_always, IH. Qed.

Lemma split_list_ok l n : field_ok_size l n -> libp2p_secio_split_list l (s32 n) = Ret (algorithms l n).
Proof using Hm.
  intros [H1 H2]. unfold libp2p_secio_split_list. rewrite s32_small by lia. rewrite memrd_ok by lia. cbn [rbind]. apply string_list_ok.
Qed.

Lemma in_existsb (s : bytes) l : existsb (fun t => bool_decide (s = t)) l = true <-> s ∈ l.
Proof.
  rewrite existsb_exists. split.
  - intros (t & Ht & He). apply bool_decide_eq_true in He as ->. by apply list_elem_of_In.
  - intros H. exists s. split; [by apply list_elem_of_In|]. by apply bool_decide_eq_true.
Qed.

Lemma best_match_first lead follower :
  match best_match lead follower with
  | Some s => first_common lead follower s
  | None => forall s, ~ (s ∈ lead /\ s ∈ follower)
  end.
Proof.
  induction lead as [|t lead IH]; cbn [best_match]; [intros s [Hs _]; by apply not_elem_of_nil in Hs|].
  destruct (existsb _ follower) eqn:E; [apply in_existsb in E; exists [], lead; by repeat split|].
  assert (t ∉ follower) as Ht by (by rewrite <- in_existsb, E). destruct (best_match lead follower) as [s|]; [|intros s [H1 H2]; apply elem_of_cons in H1 as [->|H1]; [done|by apply (IH s)]].
  destruct IH as (before & after & -> & Hs & Hb). exists (t :: before), after. repeat split; [done|by constructor].
Qed.

Lemma select_best_ok order la n lb m : field_ok_size la n -> field_ok_size lb m -> order <> 0 ->
  libp2p_secio_select_best order la n lb m =
  Ret (if 0 <? order then best_match (algorithms la n) (algorithms lb m) else best_match (algorithms lb m) (algorithms la n)).
Proof using Hm.
  intros Ha Hb Ho. unfold libp2p_secio_select_best. rewrite !split_list_ok by done. cbn [rbind]. rewrite (proj2 (Z.eqb_neq order 0)) by done.
  unfold libp2p_secio_string_allocate. destruct (0 <? order); by destruct (best_match _ _); [rewrite malloc_always|].
Qed.

Context (sha256 : bytes -> bytes).
Hypothesis sha256_length : forall m, zlen (sha256 m) = 32.

Definition order_hash (k : Propose) (r : Propose) : bytes :=
  sha256 (field_bytes (p_public_key k) (p_public_key_size k) ++ field_bytes (p_rand r) (p_rand_size r)).

Lemma hash_ok key n nonce m : field_ok_size key n -> field_ok_size nonce m ->
  libp2p_secio_hash sha256 key n nonce m = Ret (sha256 (field_bytes key n ++ field_bytes nonce m)).
Proof using Hm.
  intros Hk Hn. unfold libp2p_secio_hash, field_bytes, libp2p_crypto_hashing_sha256. pose proof Hk as [Hk1 Hk2]. pose proof Hn as [Hn1 Hn2].
  rewrite malloc_always, !memrd_ok by lia. cbn [rbind]. rewrite u64_small by lia. by rewrite memrd_all by zlia.
Qed.

Lemma determine_order_ok r l : propose_ok r -> propose_ok l ->
  libp2p_secio_determine_order sha256 r l = Ret (sign_of (lex (order_hash r l) (order_hash l r))).
Proof using Hm sha256_length.
  intros (Hr1 & Hr2 & _) (Hl1 & Hl2 & _). unfold libp2p_secio_determine_order. rewrite !hash_ok by done. cbn [rbind].
  pose proof (fun m => sha256_length m) as Hs. unfold zlen in Hs.
  apply bytes_compare_lex; [specialize (Hs (field_bytes (p_public_key r) (p_public_key_size r) ++ field_bytes (p_rand l) (p_rand_size l)))|
    specialize (Hs (field_bytes (p_public_key l) (p_public_key_size l) ++ field_bytes (p_rand r) (p_rand_size r)))]; unfold order_hash; lia.
Qed.

Lemma determine_order_opposite r l o : propose_ok r -> propose_ok l ->
  libp2p_secio_determine_order sha256 r l = Ret o -> libp2p_secio_determine_order sha256 l r = Ret (- o).
Proof using Hm sha256_length.
  intros Hr Hl. rewrite !determine_order_ok by done. intros [= <-]. rewrite (lex_antisym (order_hash r l) (order_hash l r)).
  by destruct (lex _ _).
Qed.
End choices.

(** ** The cipher and its stream *)
Section stream.
Context {M : Malloc} {Hm : MallocOk M} (aes_crypt_ecb hmac : bytes -> bytes -> bytes).
Hypothesis aes_length : forall k b, zlen (aes_crypt_ecb k b) = 16.
Hypothesis hmac_length : forall k m, zlen (hmac k m) = 32.

Definition ctr_ok (st : ctr_state) : Prop := let '(n, counter, block) := st in 0 <= n < 16 /\ zlen counter = 16 /\ zlen block = 16.

Lemma increment_ok i counter : Z.of_nat i <= zlen counter -> exists c, increment i counter = Ret c /\ zlen c = zlen counter.
Proof.
  revert counter. induction i as [|i IH]; intros counter Hi; cbn [increment]; [by eexists|].
  unfold rd. zbool. rewrite Nat2Z.id. destruct (lookup_lt_is_Some_2 counter i) as [b Hb]; [unfold zlen in Hi; lia|].
  rewrite Hb. cbn [rbind]. set (c := <[i := _]> counter). assert (zlen c = zlen counter) as Hc by (unfold c, zlen; by rewrite length_insert).
  destruct (u8 (b + 1) =? 0); [|by eexists]. destruct (IH c) as (c' & -> & Hc'); [lia|]. eexists. split; [done|]. lia.
Qed.

Lemma next_block_ok key st : ctr_ok st -> exists st', next_block aes_crypt_ecb key st = Ret st' /\ ctr_ok st' /\ st'.1.1 = st.1.1.
Proof using aes_length.
  destruct st as [[n counter] block]. intros (Hn & Hc & Hb). unfold next_block. destruct (n =? 0); [|by eexists].
  rewrite memrd_ok by lia. cbn [rbind]. destruct (increment_ok 16 counter) as (c & -> & Hc'); [lia|]. cbn [rbind].
  eexists. split; [done|]. repeat split; cbn; [lia..|]. apply aes_length.
Qed.

Lemma xor_twice c s : byte_range c -> u8 (Z.lxor (u8 (Z.lxor c s)) s) = c.
Proof.
  intros Hc. unfold byte_range in Hc. transitivity (u8 c); [|by apply u8_small]. unfold u8. apply Z.bits_inj'. intros i Hi.
  destruct (Z.lt_ge_cases i 8).
  - rewrite !Z.mod_pow2_bits_low by lia. rewrite Z.lxor_spec, Z.mod_pow2_bits_low, Z.lxor_spec by lia. by rewrite xorb_assoc, xorb_nilpotent, xorb_false_r.
  - by rewrite !Z.mod_pow2_bits_high by lia.
Qed.

(** the cipher is its own inverse, and the state depends on the length only *)
Lemma ctr_involutive key input st : ctr_ok st -> is_bytes input ->
  exists st' output, mbedtls_aes_crypt_ctr aes_crypt_ecb key st input = Ret (st', output) /\
    mbedtls_aes_crypt_ctr aes_crypt_ecb key st output = Ret (st', input) /\ ctr_ok st' /\ zlen output = zlen input.
Proof using aes_length.
  intros Hst Hi. revert st Hst. induction Hi as [|c input Hc _ IH]; intros st Hst; cbn [mbedtls_aes_crypt_ctr]; [by exists st, []|].
  destruct (next_block_ok key st Hst) as ([[n counter] block] & E & (Hn & Hcl & Hbl) & _). rewrite E. cbn [rbind]. unfold rd. zbool.
  destruct (lookup_lt_is_Some_2 block (Z.to_nat n)) as [s Hs]; [unfold zlen in Hbl; lia|]. rewrite Hs. cbn [rbind].
  destruct (IH (Z.land (n + 1) 15, counter, block)) as (st' & output & E1 & E2 & Hst' & Hl).
  { repeat split; [apply Z.land_nonneg; lia| |done..]. change 15 with (Z.ones 4). rewrite Z.land_ones by lia. by apply Z.mod_pos_bound. }
  rewrite E1. cbn [rbind]. exists st', (u8 (Z.lxor c s) :: output). split; [done|]. cbn [mbedtls_aes_crypt_ctr].
  rewrite E. cbn [rbind]. unfold rd. zbool. rewrite Hs. cbn [rbind]. rewrite E2. cbn [rbind]. rewrite xor_twice by done.
  repeat split; [done|]. by rewrite !zlen_cons, Hl.
Qed.
End stream.

(** the keys of a direction: what the cipher reads of them is there *)
Definition key_ok (k : StretchedKey) : Prop :=
  zlen (k_iv k) = 16 /\ 0 <= k_cipher_size k <= zlen (k_cipher_key k) /\ aes_key_bits (k_cipher_size k * 8) = true /\
  0 <= k_mac_size k <= zlen (k_mac_key k).
Definition encode_ok (c : Cipher) : Prop :=
  key_ok (local_stretched_key c) /\ 0 <= aes_encode_nonce_offset c < 16 /\ zlen (aes_encode_stream_block c) = 16.

(** [d] can read what [c] writes *)
Definition paired (c d : Cipher) : Prop :=
  local_stretched_key c = remote_stretched_key d /\ aes_encode_nonce_offset c = aes_decode_nonce_offset d /\
  aes_encode_stream_block c = aes_decode_stream_block d.

Section stream.
Context {M : Malloc} {Hm : MallocOk M} (aes_crypt_ecb hmac : bytes -> bytes -> bytes).
Hypothesis aes_length : forall k b, zlen (aes_crypt_ecb k b) = 16.
Hypothesis hmac_length : forall k m, zlen (hmac k m) = 32.

Lemma key_bits k : key_ok k -> aes_key_bits (u32 (u64 (k_cipher_size k * 8))) = true.
Proof.
  intros (_ & Hc & Hb & _). unfold aes_key_bits in *. rewrite !orb_true_iff, !Z.eqb_eq in Hb.
  assert (0 <= k_cipher_size k * 8 < 2 ^ 9) as Hr by (destruct Hb as [[->| ->]| ->]; lia).
  rewrite u64_small, u32_small by lia. by rewrite !orb_true_iff, !Z.eqb_eq.
Qed.

(** one call of the cipher, and the call that undoes it *)
Lemma crypt_involutive k offset block m : key_ok k -> 0 <= offset < 16 -> zlen block = 16 -> is_bytes m ->
  exists k' offset' block' output, crypt aes_crypt_ecb k offset block m = Ret (k', offset', block', output) /\
    crypt aes_crypt_ecb k offset block output = Ret (k', offset', block', m) /\
    key_ok k' /\ 0 <= offset' < 16 /\ zlen block' = 16 /\ zlen output = zlen m /\ (forall m, mac hmac k' m = mac hmac k m).
Proof using aes_length.
  intros Hk Ho Hb Hm'. pose proof Hk as (Hiv & Hc & Hbits & Hmac). unfold crypt.
  destruct (ctr_involutive aes_crypt_ecb aes_length (ztake (k_cipher_size k) (k_cipher_key k)) m (offset, k_iv k, block)) as ([[n c] b] & output & E1 & E2 & (? & ? & ?) & Hl);
    [done..|].
  exists (mkStretched c (k_iv_size k) (k_cipher_key k) (k_cipher_size k) (k_mac_key k) (k_mac_size k)), n, b, output.
  rewrite memrd_ok by lia. cbn [rbind]. rewrite E1, E2. cbn [rbind]. unfold key_ok. cbn. by repeat split; try lia.
Qed.

Lemma mac_ok k m : key_ok k -> mac hmac k m = Ret (hmac (ztake (k_mac_size k) (k_mac_key k)) m).
Proof. intros (_ & _ & _ & H). unfold mac. by rewrite memrd_ok. Qed.

(** one message *)
Lemma encrypt_decrypt c d m : encode_ok c -> paired c d -> is_bytes m -> zlen m < 2 ^ 31 ->
  exists c' d' frame, libp2p_secio_encrypt hmac aes_crypt_ecb c m (zlen m) = Ret (c', Some frame) /\ zlen frame = zlen m + 32 /\
    libp2p_secio_decrypt hmac aes_crypt_ecb d frame (zlen frame) = Ret (d', zlen m, Some m) /\ encode_ok c' /\ paired c' d' /\
    (remote_stretched_key c' = remote_stretched_key c /\ aes_decode_nonce_offset c' = aes_decode_nonce_offset c /\ aes_decode_stream_block c' = aes_decode_stream_block c) /\
    (local_stretched_key d' = local_stretched_key d /\ aes_encode_nonce_offset d' = aes_encode_nonce_offset d /\ aes_encode_stream_block d' = aes_encode_stream_block d).
Proof using Hm aes_length hmac_length.
  intros (Hk & Ho & Hb) (P1 & P2 & P3) Hi Hlen. destruct c as [k r o b o2 b2], d as [l k' o3 b3 o' b']. cbn in *. subst k' o' b'.
  destruct (crypt_involutive k o b m Hk Ho Hb Hi) as (k' & o' & b' & output & E1 & E2 & Hk' & Ho' & Hb' & Hl & Hmac).
  pose proof Hk as (_ & Hcs & _). pose proof (key_bits k Hk) as Hbits. zlen_facts.
  set (tag := hmac (ztake (k_mac_size k) (k_mac_key k)) output).
  assert (zlen tag = 32) as Htag by apply hmac_length.
  exists (mkCipher k' r o' b' o2 b2), (mkCipher l k' o3 b3 o' b'), (output ++ tag).
  assert (libp2p_secio_encrypt hmac aes_crypt_ecb (mkCipher k r o b o2 b2) m (zlen m) = Ret (mkCipher k' r o' b' o2 b2, Some (output ++ tag))) as ->.
  { unfold libp2p_secio_encrypt. cbn [local_stretched_key remote_stretched_key aes_encode_nonce_offset aes_encode_stream_block aes_decode_nonce_offset aes_decode_stream_block].
    rewrite memrd_ok by done. cbn [rbind]. rewrite Hbits, malloc_always, memrd_all by done. cbn [negb rbind]. rewrite E1. cbn [rbind].
    rewrite Hmac, mac_ok by done. done. }
  assert (libp2p_secio_decrypt hmac aes_crypt_ecb (mkCipher l k o3 b3 o b) (output ++ tag) (zlen (output ++ tag)) = Ret (mkCipher l k' o3 b3 o' b', zlen m, Some m)) as ->.
  { unfold libp2p_secio_decrypt. cbn [local_stretched_key remote_stretched_key aes_encode_nonce_offset aes_encode_stream_block aes_decode_nonce_offset aes_decode_stream_block].
    rewrite zlen_app, Htag, Hl, u64_small by lia. replace (zlen m + 32 - 32) with (zlen m) by lia.
    rewrite memrd_app by done. cbn [rbind]. rewrite mac_ok by done. cbn [rbind]. rewrite padd_app by done. cbn [rbind]. rewrite memrd_all by done. cbn [rbind].
    fold tag. rewrite ztake_all by lia. rewrite bool_decide_eq_false_2 by auto. rewrite memrd_ok by done. cbn [rbind].
    rewrite Hbits, !malloc_always. cbn [negb]. rewrite E2. cbn [rbind]. by rewrite s32_small by lia. }
  rewrite zlen_app. unfold encode_ok, paired. cbn. by split_and!; try lia.
Qed.

(** ** A sequence of messages *)
Fixpoint encrypt_all (c : Cipher) (messages : list bytes) : res (Cipher * list bytes) :=
  match messages with
  | [] => Ret (c, [])
  | m :: messages =>
    let! (c, frame) := libp2p_secio_encrypt hmac aes_crypt_ecb c m (zlen m) in
    match frame with
    | None => Ret (c, [])
    | Some frame => let! (c, frames) := encrypt_all c messages in Ret (c, frame :: frames)
    end
  end.
Fixpoint decrypt_all (d : Cipher) (frames : list bytes) : res (Cipher * list (Z * option bytes)) :=
  match frames with
  | [] => Ret (d, [])
  | frame :: frames =>
    let! (d, n, m) := libp2p_secio_decrypt hmac aes_crypt_ecb d frame (zlen frame) in
    let! (d, l) := decrypt_all d frames in
    Ret (d, (n, m) :: l)
  end.

Lemma stream_ok messages : Forall (fun m => is_bytes m /\ zlen m < 2 ^ 31) messages -> forall c d, encode_ok c -> paired c d ->
  exists c' d' frames, encrypt_all c messages = Ret (c', frames) /\ decrypt_all d frames = Ret (d', (fun m => (zlen m, Some m)) <$> messages) /\
    zlen <$> frames = (fun m => zlen m + 32) <$> messages /\ encode_ok c' /\ paired c' d'.
Proof using Hm aes_length hmac_length.
  induction 1 as [|m messages [Hi Hlen] _ IH]; intros c d Hc Hp; [by exists c, d, []|].
  destruct (encrypt_decrypt c d m Hc Hp Hi Hlen) as (c1 & d1 & frame & E1 & Hl & E2 & Hc1 & Hp1 & _).
  destruct (IH c1 d1 Hc1 Hp1) as (c' & d' & frames & E3 & E4 & Hls & Hc' & Hp').
  exists c', d', (frame :: frames). cbn [encrypt_all decrypt_all fmap list_fmap]. rewrite E1. cbn [rbind]. rewrite E3. cbn [rbind].
  rewrite E2. cbn [rbind]. rewrite E4. cbn [rbind]. split_and!; try done; [cbn; by f_equal].
Qed.

(** a frame with another tag *)
Lemma decrypt_wrong_mac d data tag : key_ok (remote_stretched_key d) -> zlen tag = 32 -> zlen data + 32 < 2 ^ 64 ->
  tag <> hmac (ztake (k_mac_size (remote_stretched_key d)) (k_mac_key (remote_stretched_key d))) data ->
  libp2p_secio_decrypt hmac aes_crypt_ecb d (data ++ tag) (zlen (data ++ tag)) = Ret (d, 0, Some (data ++ tag)).
Proof using Hm hmac_length.
  intros Hk Ht Hd Hne. zlen_facts. unfold libp2p_secio_decrypt. rewrite zlen_app, Ht, u64_small by lia.
  replace (zlen data + 32 - 32) with (zlen data) by lia. rewrite memrd_app by done. cbn [rbind]. rewrite mac_ok by done. cbn [rbind].
  rewrite padd_app by done. cbn [rbind]. rewrite memrd_all by done. cbn [rbind]. rewrite ztake_all by (rewrite hmac_length; lia).
  rewrite bool_decide_eq_true_2 by done. rewrite !malloc_always, memrd_all by zlia. done.
Qed.
End stream.

(** ** The keys of a session *)
(** the blocks the shared secret is stretched to *)
Fixpoint key_stream (hmac : bytes -> bytes -> bytes) (n : nat) (secret a_hash : bytes) : bytes :=
  match n with O => [] | S n => hmac secret (a_hash ++ seed) ++ key_stream hmac n secret (hmac secret a_hash) end.

(** the bytes of a key *)
Definition key_bytes (k : StretchedKey) : bytes := k_iv k ++ k_cipher_key k ++ k_mac_key k.

Section stretch.
Context {M : Malloc} {Hm : MallocOk M} (hmac : bytes -> bytes -> bytes).
Hypothesis hmac_length : forall k m, zlen (hmac k m) = 32.

Lemma key_stream_length n secret a : zlen (key_stream hmac n secret a) = 32 * Z.of_nat n.
Proof using hmac_length. revert a. induction n as [|n IH]; intros a; cbn [key_stream]; [done|]. rewrite zlen_app, hmac_length, IH. lia. Qed.

Lemma ztake_app (n : Z) (a b : bytes) : 0 <= n -> ztake n (a ++ b) = ztake n a ++ ztake (n - zlen a) b.
Proof using. intros. unfold ztake, zlen. rewrite take_app. do 2 f_equal. lia. Qed.

Lemma fill_keys_ok fuel : forall secret a filled size, 0 <= filled -> (Z.to_nat (size - filled) < fuel)%nat ->
  fill_keys hmac fuel secret a filled size = Ret (ztake (size - filled) (key_stream hmac fuel secret a)).
Proof using hmac_length.
  induction fuel as [|fuel IH]; intros secret a filled size Hf Hn; [lia|]. cbn [fill_keys key_stream].
  destruct (Z.ltb_spec filled size); [|unfold ztake; replace (Z.to_nat (size - filled)) with 0%nat by lia; done].
  pose proof (hmac_length secret (a ++ seed)) as Hh. rewrite ztake_app, Hh by lia.
  set (todo := if size <? 32 + filled then size - filled else 32).
  assert (0 < todo <= 32 /\ todo <= size - filled) as (? & ?) by (unfold todo; destruct (Z.ltb_spec size (32 + filled)); lia).
  rewrite memrd_ok by lia. cbn [rbind]. rewrite IH by lia. cbn [rbind]. do 2 f_equal.
  - unfold todo. destruct (Z.ltb_spec size (32 + filled)); [done|]. by rewrite !ztake_all by lia.
  - unfold todo. destruct (Z.ltb_spec size (32 + filled)); [|f_equal; lia].
    unfold ztake. by replace (Z.to_nat (size - (filled + (size - filled)))) with 0%nat by lia; replace (Z.to_nat (size - filled - 32)) with 0%nat by lia.
Qed.

Lemma copy_unchecked_ok src n : 0 <= n <= zlen src -> copy_unchecked src n = Ret (ztake n src).
Proof using Hm. intros. unfold copy_unchecked. by rewrite malloc_always, memrd_ok. Qed.

Lemma cut_key_ok temp iv cs : 0 <= iv -> 0 <= cs -> iv + cs + hmac_size <= zlen temp ->
  exists k, cut_key temp iv cs = Ret (k, zdrop (iv + cs + hmac_size) temp) /\ key_bytes k = ztake (iv + cs + hmac_size) temp /\
    zlen (k_iv k) = iv /\ k_iv_size k = iv /\ zlen (k_cipher_key k) = cs /\ k_cipher_size k = cs /\ zlen (k_mac_key k) = hmac_size /\ k_mac_size k = hmac_size.
Proof using Hm.
  unfold hmac_size. intros Hi Hc Hl.
  assert (zlen (zdrop iv temp) = zlen temp - iv) as L1 by (apply zlen_drop; lia).
  assert (zlen (zdrop cs (zdrop iv temp)) = zlen temp - iv - cs) as L2 by (rewrite zlen_drop; lia).
  unfold cut_key. unfold hmac_size. rewrite copy_unchecked_ok by lia. cbn [rbind]. rewrite padd_ok by lia. cbn [rbind].
  rewrite copy_unchecked_ok by lia. cbn [rbind]. rewrite padd_ok by lia. cbn [rbind].
  rewrite copy_unchecked_ok by lia. cbn [rbind]. rewrite padd_ok by lia. cbn [rbind].
  eexists. split; [by rewrite (zdrop_zdrop 20), (zdrop_zdrop (cs + 20)), Z.add_assoc by lia|]. unfold key_bytes. cbn [k_iv k_cipher_key k_mac_key k_iv_size k_cipher_size k_mac_size].
  split; [|repeat split; apply zlen_take; lia].
  rewrite <- (ztake_zdrop iv temp) at 4. rewrite ztake_app, zlen_take by lia. rewrite (ztake_all _ (ztake iv temp)) by (rewrite zlen_take; lia).
  f_equal. rewrite <- (ztake_zdrop cs (zdrop iv temp)) at 3. rewrite ztake_app, zlen_take by lia. rewrite (ztake_all _ (ztake cs _)) by (rewrite zlen_take; lia).
  do 2 f_equal. lia.
Qed.

Lemma key_stream_prefix n m secret a : exists rest, key_stream hmac (n + m) secret a = key_stream hmac n secret a ++ rest.
Proof using. revert a. induction n as [|n IH]; intros a; cbn; [by eexists|]. destruct (IH (hmac secret a)) as [rest ->]. exists rest. by rewrite <- app_assoc. Qed.

Lemma key_stream_cut k n m secret a : 0 <= k <= 32 * Z.of_nat n -> (n <= m)%nat ->
  ztake k (key_stream hmac m secret a) = ztake k (key_stream hmac n secret a).
Proof using hmac_length.
  intros Hk Hm'. destruct (key_stream_prefix n (m - n) secret a) as [rest E]. replace (n + (m - n))%nat with m in E by lia. rewrite E.
  pose proof (key_stream_length n secret a). rewrite ztake_app by lia. unfold ztake at 2. replace (Z.to_nat (k - _)) with 0%nat by lia.
  apply app_nil_r.
Qed.

Lemma stretch_keys_ok cipher secret iv cs : cipher_sizes cipher = Some (iv, cs) ->
  exists k1 k2, libp2p_secio_stretch_keys hmac cipher secret (zlen secret) = Ret (Some (k1, k2)) /\
    key_bytes k1 ++ key_bytes k2 = ztake (2 * (iv + cs + 20)) (key_stream hmac 5 secret (hmac secret seed)) /\
    Forall (fun k => zlen (k_iv k) = iv /\ zlen (k_cipher_key k) = cs /\ k_cipher_size k = cs /\ zlen (k_mac_key k) = 20 /\ k_mac_size k = 20) [k1; k2].
Proof using Hm hmac_length.
  intros Hc. assert ((iv = 8 \/ iv = 16) /\ (cs = 16 \/ cs = 32)) as [Hiv Hcs].
  { unfold cipher_sizes in Hc. repeat (case_bool_decide; [injection Hc as <- <-; auto|]). done. }
  unfold libp2p_secio_stretch_keys. rewrite Hc, !malloc_always, memrd_all by done. cbn [negb rbind]. unfold hmac_size.
  set (size := 2 * (iv + cs * 20)). rewrite fill_keys_ok by lia. cbn [rbind]. rewrite Z.sub_0_r.
  set (a := hmac secret seed). set (w := ztake size _).
  assert (zlen w = size) as Hw. { apply zlen_take. rewrite key_stream_length. unfold size in *. lia. }
  destruct (cut_key_ok w iv cs) as (k1 & -> & B1 & ? & ? & ? & ? & ? & ?); unfold hmac_size in *; [unfold size in *; lia..|]. cbn [rbind].
  destruct (cut_key_ok (zdrop (iv + cs + 20) w) iv cs) as (k2 & -> & B2 & ? & ? & ? & ? & ? & ?); unfold hmac_size in *;
    [lia..|rewrite zlen_drop; unfold size in *; lia|]. cbn [rbind].
  exists k1, k2. split; [done|]. split; [|by repeat constructor].
  rewrite B1, B2. transitivity (ztake (2 * (iv + cs + 20)) w).
  - rewrite <- (ztake_zdrop (iv + cs + 20) w) at 3. rewrite ztake_app, zlen_take by (unfold size in *; lia).
    rewrite (ztake_all _ (ztake _ w)) by (rewrite zlen_take; unfold size in *; lia). do 2 f_equal. lia.
  - unfold w. unfold ztake at 1 2. rewrite take_take, Nat.min_l by (unfold size; lia). apply key_stream_cut; lia.
Qed.

Lemma stretched_key_ok k cs : (cs = 16 \/ cs = 32) -> zlen (k_iv k) = 16 -> zlen (k_cipher_key k) = cs -> k_cipher_size k = cs ->
  zlen (k_mac_key k) = 20 -> k_mac_size k = 20 -> key_ok k.
Proof using. intros Hcs Hi Hc Hcs' Hm1 Hm2. unfold key_ok. rewrite Hi, Hc, Hcs', Hm1, Hm2. destruct Hcs as [-> | ->]; by repeat split. Qed.
End stretch.

Section undefined.
Context {M : Malloc} {Hm : MallocOk M} (aes_crypt_ecb hmac : bytes -> bytes -> bytes).
Hypothesis aes_length : forall k b, zlen (aes_crypt_ecb k b) = 16.

Definition with_mac_size (k : StretchedKey) (n : Z) : StretchedKey :=
  mkStretched (k_iv k) (k_iv_size k) (k_cipher_key k) (k_cipher_size k) (k_mac_key k) n.

(** a MAC key that is shorter than its size *)
Lemma encrypt_short_mac k r m n : key_ok k -> is_bytes m -> zlen (k_mac_key k) < n ->
  libp2p_secio_encrypt hmac aes_crypt_ecb (libp2p_secio_initialize_crypto (with_mac_size k n) r) m (zlen m) = UB.
Proof using Hm aes_length.
  intros Hk Hi Hn. pose proof Hk as (_ & Hcs & _). unfold libp2p_secio_encrypt, libp2p_secio_initialize_crypto.
  cbn [local_stretched_key remote_stretched_key aes_encode_nonce_offset aes_encode_stream_block].
  change (k_cipher_size (with_mac_size k n)) with (k_cipher_size k). change (k_cipher_key (with_mac_size k n)) with (k_cipher_key k).
  rewrite memrd_ok, key_bits, malloc_always, memrd_all by done. cbn [negb rbind].
  destruct (ctr_involutive aes_crypt_ecb aes_length (ztake (k_cipher_size k) (k_cipher_key k)) m (0, k_iv k, replicate 16 0)) as ([[o c] b] & output & E & _);
    [by destruct Hk|done|].
  unfold crypt. cbn [with_mac_size k_iv k_iv_size k_cipher_key k_cipher_size k_mac_key k_mac_size]. rewrite memrd_ok by done. cbn [rbind].
  rewrite E. cbn [rbind]. unfold mac. cbn [k_mac_key k_mac_size]. by rewrite memrd_over.
Qed.

(** a counter of fewer than 16 bytes *)
Lemma encrypt_short_counter k r x m : zlen (k_iv k) < 16 -> 0 <= k_cipher_size k <= zlen (k_cipher_key k) ->
  aes_key_bits (u32 (u64 (k_cipher_size k * 8))) = true ->
  libp2p_secio_encrypt hmac aes_crypt_ecb (libp2p_secio_initialize_crypto k r) (x :: m) (zlen (x :: m)) = UB.
Proof using Hm.
  intros Hiv Hc Hb. unfold libp2p_secio_encrypt, libp2p_secio_initialize_crypto.
  cbn [local_stretched_key remote_stretched_key aes_encode_nonce_offset aes_encode_stream_block].
  rewrite memrd_ok by done. cbn [rbind]. rewrite Hb, malloc_always, memrd_all by done. cbn [negb rbind].
  unfold crypt. rewrite memrd_ok by done. cbn [rbind mbedtls_aes_crypt_ctr next_block Z.eqb]. by rewrite memrd_over.
Qed.
End undefined.

(** ** Properties *)

(** Property C31.  Two peers that exchanged their proposals find opposite orders, and
    with an order that is not 0 they make the same choice from any two lists: the first
    entry of the leader's list that the other one has, or none when they share none. *)
Theorem secio_negotiation {M : Malloc} {Hm : MallocOk M} (sha256 : bytes -> bytes) (a b : Propose) (la lb : option bytes) (n m : Z) :
  (forall d, zlen (sha256 d) = 32) -> propose_ok a -> propose_ok b -> field_ok_size la n -> field_ok_size lb m ->
  exists order, libp2p_secio_determine_order sha256 b a = Ret order /\ libp2p_secio_determine_order sha256 a b = Ret (- order) /\
    (order = 0 <-> order_hash sha256 a b = order_hash sha256 b a) /\
    (order <> 0 ->
     exists choice, libp2p_secio_select_best order la n lb m = Ret choice /\ libp2p_secio_select_best (- order) lb m la n = Ret choice /\
       match choice with
       | Some s => if 0 <? order then first_common (algorithms la n) (algorithms lb m) s else first_common (algorithms lb m) (algorithms la n) s
       | None => forall s, ~ (s ∈ algorithms la n /\ s ∈ algorithms lb m)
       end).
Proof.
  intros Hs Ha Hb Hla Hlb. pose proof (determine_order_ok sha256 Hs b a Hb Ha) as E. set (order := sign_of _) in E.
  exists order. split; [done|]. split; [by apply determine_order_opposite|]. split.
  { rewrite <- (lex_eq (order_hash sha256 a b)), lex_antisym. unfold order. by destruct (lex _ _). }
  intros Ho. assert ((0 <? - order) = negb (0 <? order)) as Hneg by (destruct (Z.ltb_spec 0 (- order)), (Z.ltb_spec 0 order); try done; lia).
  rewrite (select_best_ok order), (select_best_ok (- order)), Hneg by (done || lia). eexists. split; [done|]. split; [by destruct (0 <? order)|].
  pose proof (best_match_first (algorithms la n) (algorithms lb m)) as H1. pose proof (best_match_first (algorithms lb m) (algorithms la n)) as H2.
  destruct (0 <? order); [by destruct (best_match (algorithms la n) _)|]. destruct (best_match (algorithms lb m) _); [done|].
  intros s [Hs1 Hs2]. by apply (H2 s).
Qed.

Definition ex_sha (m : bytes) : bytes := ztake 32 (m ++ replicate 32 0).
Definition ex_peer (k r : Z) : Propose := mkPropose (Some [r]) 1 (Some [k]) 1 None 0 None 0 None 0.

Lemma ex_sha_length d : zlen (ex_sha d) = 32.
Proof. apply zlen_take. rewrite zlen_app. change (zlen (replicate 32 0)) with 32. zlen_facts. lia. Qed.

Lemma secio_negotiation_witness :
  let M := malloc_total in
  let la := Some (txt "AES-256,AES-128") in let lb := Some (txt "Blowfish,AES-128") in
  exists order, libp2p_secio_determine_order ex_sha (ex_peer 1 4) (ex_peer 2 3) = Ret order /\
    libp2p_secio_determine_order ex_sha (ex_peer 2 3) (ex_peer 1 4) = Ret (- order) /\
    (order = 0 <-> order_hash ex_sha (ex_peer 2 3) (ex_peer 1 4) = order_hash ex_sha (ex_peer 1 4) (ex_peer 2 3)) /\
    (order <> 0 ->
     exists choice, libp2p_secio_select_best order la 15 lb 16 = Ret choice /\ libp2p_secio_select_best (- order) lb 16 la 15 = Ret choice /\
       match choice with
       | Some s => if 0 <? order then first_common (algorithms la 15) (algorithms lb 16) s else first_common (algorithms lb 16) (algorithms la 15) s
       | None => forall s, ~ (s ∈ algorithms la 15 /\ s ∈ algorithms lb 16)
       end).
Proof. intros M la lb. apply (secio_negotiation ex_sha (ex_peer 2 3) (ex_peer 1 4) la lb 15 16); [exact ex_sha_length|..]; by repeat split. Defined.

(**  What one end encrypts, in any number of messages, the other end
    decrypts in the same order, each to its own bytes, and the two stay in step; a
    frame whose last 32 bytes are not the MAC of the others gives 0 with the frame
    itself, and changes nothing. *)
Lemma secio_stream {M : Malloc} {Hm : MallocOk M} (aes_crypt_ecb hmac : bytes -> bytes -> bytes) (c d : Cipher) (messages : list bytes) (data tag : bytes) :
  (forall k b, zlen (aes_crypt_ecb k b) = 16) -> (forall k m, zlen (hmac k m) = 32) ->
  encode_ok c -> paired c d -> Forall (fun m => is_bytes m /\ zlen m < 2 ^ 31) messages ->
  zlen tag = 32 -> zlen data + 32 < 2 ^ 64 ->
  let k := remote_stretched_key d in
  tag <> hmac (ztake (k_mac_size k) (k_mac_key k)) data ->
  (exists c' d' frames, encrypt_all aes_crypt_ecb hmac c messages = Ret (c', frames) /\
    decrypt_all aes_crypt_ecb hmac d frames = Ret (d', (fun m => (zlen m, Some m)) <$> messages) /\
    zlen <$> frames = (fun m => zlen m + 32) <$> messages /\ encode_ok c' /\ paired c' d') /\
  libp2p_secio_decrypt hmac aes_crypt_ecb d (data ++ tag) (zlen (data ++ tag)) = Ret (d, 0, Some (data ++ tag)).
Proof.
  intros Ha Hh Hc Hp Hms Ht Hd k Hne. split; [by apply stream_ok|]. apply decrypt_wrong_mac; [done| |done..].
  destruct Hp as [<- _]. apply Hc.
Qed.

Definition ex_key : StretchedKey := mkStretched (replicate 16 255) 16 (replicate 16 7) 16 (replicate 20 9) 20.
Definition ex_aes (k b : bytes) : bytes := ztake 16 (((fun '(x, y) => u8 (x + y + 1)) <$> zip k b) ++ replicate 16 3).
Lemma ex_aes_length k b : zlen (ex_aes k b) = 16.
Proof. apply zlen_take. rewrite zlen_app. change (zlen (replicate 16 3)) with 16. zlen_facts. lia. Qed.
Definition ex_hmac (k m : bytes) : bytes := ex_sha (k ++ m).

(**  The keys of both directions are cut, one after the other, from the
    blocks the shared secret is stretched to; with AES and SHA256 they are usable and
    left as they are, with another hash of the list or with Blowfish the first message
    reads outside of an object, and an unknown cipher has no keys. *)
Lemma secio_keys {M : Malloc} {Hm : MallocOk M} (aes_crypt_ecb hmac : bytes -> bytes -> bytes) (cipher hash secret m : bytes) (x : Z) :
  (forall k b, zlen (aes_crypt_ecb k b) = 16) -> (forall k m, zlen (hmac k m) = 32) -> is_bytes (x :: m) ->
  match cipher_sizes cipher with
  | None => libp2p_secio_stretch_keys hmac cipher secret (zlen secret) = Ret None
  | Some (iv, cs) =>
    exists k1 k2, libp2p_secio_stretch_keys hmac cipher secret (zlen secret) = Ret (Some (k1, k2)) /\
      key_bytes k1 ++ key_bytes k2 = ztake (2 * (iv + cs + 20)) (key_stream hmac 5 secret (hmac secret seed)) /\
      let used k := (libp2p_secio_make_mac_and_cipher hash cipher k).2 in
      let first_message := libp2p_secio_encrypt hmac aes_crypt_ecb (libp2p_secio_initialize_crypto (used k1) (used k2)) (x :: m) (zlen (x :: m)) in
      (cipher = txt "Blowfish" -> first_message = UB) /\
      (cipher <> txt "Blowfish" ->
        key_ok k1 /\ key_ok k2 /\
        (hash = txt "SHA256" -> used k1 = k1 /\ used k2 = k2) /\
        (hash = txt "SHA512" \/ hash = txt "SHA1" -> first_message = UB))
  end.
Proof.
  intros Ha Hh Hi. destruct (cipher_sizes cipher) as [[iv cs]|] eqn:Hc; [|unfold libp2p_secio_stretch_keys; by rewrite Hc, malloc_always].
  destruct (stretch_keys_ok hmac Hh cipher secret iv cs Hc) as (k1 & k2 & E & B & HF). apply Forall_cons in HF as [H1 HF]. apply Forall_cons in HF as [H2 _].
  exists k1, k2. split; [done|]. split; [done|]. intros used first_message.
  assert (forall k, used k = k \/ used k = with_mac_size k 40 \/ used k = with_mac_size k 64) as Hu.
  { intros k. unfold used, libp2p_secio_make_mac_and_cipher. do 3 (case_bool_decide; [by auto|]). by auto. }
  destruct H1 as (I1 & C1 & S1 & M1 & Z1). destruct H2 as (I2 & C2 & S2 & M2 & Z2).
  split.
  - intros ->. injection Hc as <- <-. unfold first_message.
    destruct (Hu k1) as [->|[->| ->]]; apply encrypt_short_counter; cbn [with_mac_size k_iv k_cipher_size k_cipher_key]; rewrite ?I1, ?S1, ?C1; (lia || done).
  - intros Hne. assert (iv = 16 /\ (cs = 16 \/ cs = 32)) as [-> Hcs].
    { unfold cipher_sizes in Hc. do 2 (case_bool_decide; [injection Hc as <- <-; auto|]). by rewrite bool_decide_eq_false_2 in Hc. }
    assert (key_ok k1) as K1 by (by apply (stretched_key_ok k1 cs)). split; [done|]. split; [by apply (stretched_key_ok k2 cs)|]. split.
    + intros ->. done.
    + intros Hh'. unfold first_message.
      assert (exists n, used k1 = with_mac_size k1 n /\ 20 < n) as (n & -> & Hn) by (destruct Hh' as [-> | ->]; by eexists).
      apply encrypt_short_mac; [done..|lia].
Qed.
