(* ===== verification/MultistreamIO.v ===== *)
(** * Multistream (libp2p/net/multistream.c)

    Messages over any stream of the network: the length of a message goes in front
    of it as a varint.  The functions are those of the file on the context of a
    multistream, which has the stream below and the state of the negotiation. *)
From Stdlib Require Import String.
From S2P Require Import Prelude Varint Digits Vector CString Protocol Connection.

Definition multistream_status_initialized : Z := 0.
Definition multistream_status_syn : Z := 1.
Definition multistream_status_ack : Z := 2.

Record MultistreamContext (S : Type) := mkMultistream { ms_status : Z; ms_parent : S }.
Arguments mkMultistream {S}.
Arguments ms_status {S}.
Arguments ms_parent {S}.

Section multistream.
Context {M : Malloc} {S : Type} {St : Stream S}.

Definition with_parent (c : MultistreamContext S) (s : S) : MultistreamContext S := mkMultistream (ms_status c) s.
Definition with_status (c : MultistreamContext S) (n : Z) : MultistreamContext S := mkMultistream n (ms_parent c).

Definition libp2p_net_multistream_prepare_to_send (message : StreamMessage) : res (option StreamMessage) :=
  if malloc_ok sizeof_StreamMessage then
    let! (varint_size, varint) := varint_encode (sm_data_size message) (fresh 12) 12 in
    let size := u64 (varint_size + sm_data_size message) in
    if malloc_ok size then
      let! v := memrd varint varint_size in
      let! d := memrd (deref (sm_data message)) (sm_data_size message) in
      Ret (Some (mkStreamMessage (Some (v ++ d)) size 0))
    else Ret None
  else Ret None.

(** the message that is prepared is not tested *)
Definition libp2p_net_multistream_write_without_check (c : MultistreamContext S) (message : StreamMessage) : res (Z * MultistreamContext S) :=
  if 0 <? sm_data_size message then
    let! out := libp2p_net_multistream_prepare_to_send message in
    match out with
    | None => UB
    | Some out =>
      let! (num_bytes, parent) := stream_write (ms_parent c) out in
      Ret (if u64 num_bytes =? sm_data_size out then s32 (sm_data_size message) else num_bytes, with_parent c parent)
    end
  else Ret (0, c).

Definition libp2p_net_multistream_write (c : MultistreamContext S) (message : StreamMessage) : res (Z * MultistreamContext S) :=
  if negb (ms_status c =? multistream_status_ack) then Ret (0, c) else libp2p_net_multistream_write_without_check c message.

(** the loop over the bytes of the varint: [None] for an error, the length otherwise.
    A read that gives nothing leaves the zero that is in the array *)
Fixpoint read_length (n : nat) (i : Z) (varint : bytes) (c : MultistreamContext S) (timeout_secs : Z) : res (option Z * MultistreamContext S) :=
  match n with
  | O => Ret (Some 0, c)
  | Datatypes.S n =>
    let! (r, b, parent) := stream_read_raw (ms_parent c) 1 timeout_secs in
    let c := with_parent c parent in
    if r =? -1 then Ret (None, c)
    else
      let! (_, varint) := with_ptr varint i (fun p => let! p := memwr p b in Ret (tt, p)) in
      let! x := rd varint i in
      if Z.shiftr x 7 =? 0 then let! (v, _) := varint_decode varint (i + 1) in Ret (Some v, c)
      else read_length n (i + 1) varint c timeout_secs
  end.

(** the result and the message; without memory for the data it is written through
    NULL *)
Definition libp2p_net_multistream_read (c : MultistreamContext S) (timeout_secs : Z) : res (Z * option StreamMessage * MultistreamContext S) :=
  let! (num_bytes_requested, c) := read_length 12 0 (replicate 12 0) c timeout_secs in
  match num_bytes_requested with
  | None => Ret (0, None, c)
  | Some num_bytes_requested =>
    if num_bytes_requested <=? 0 then Ret (0, None, c)
    else if negb (malloc_ok sizeof_StreamMessage && malloc_ok num_bytes_requested) then UB
    else
      let! (bytes_read, b, parent) := stream_read_raw (ms_parent c) (s32 num_bytes_requested) timeout_secs in
      let c := with_parent c parent in
      if negb (u64 bytes_read =? num_bytes_requested) then Ret (0, None, c)
      else Ret (1, Some (mkStreamMessage (Some b) num_bytes_requested 0), c)
  end.

Definition libp2p_net_multistream_read_raw (c : option (MultistreamContext S)) (buffer_len timeout_secs : Z)
  : res (Z * bytes * option (MultistreamContext S)) :=
  match c with
  | None => Ret (0, [], None)
  | Some c => let! (r, b, parent) := stream_read_raw (ms_parent c) buffer_len timeout_secs in Ret (r, b, Some (with_parent c parent))
  end.

(** a multistream has a parent *)
Definition libp2p_net_multistream_peek (c : option (MultistreamContext S)) : Z :=
  match c with None => -1 | Some c => stream_peek (ms_parent c) end.

Definition libp2p_net_multistream_negotiate (c : MultistreamContext S) (theyRequested : bool) : res (Z * MultistreamContext S) :=
  let! (r, c) := libp2p_net_multistream_write_without_check c (stream_message multistream_id) in
  if r =? 0 then Ret (0, c)
  else Ret (1, with_status c (if theyRequested then multistream_status_ack else multistream_status_syn)).

Definition sizeof_Stream : Z := 104.
Definition sizeof_MultistreamContext : Z := 32.
(** [None]: NULL, and after the first allocation the parent is closed; the upgrade of the parent changes the session, which is not part of the model; a
    response that the other thread reads within five seconds may change the status,
    nothing else *)
Definition libp2p_net_multistream_stream_new (parent_stream : S) (theyRequested : bool) : res (option (MultistreamContext S)) :=
  if malloc_ok sizeof_Stream && malloc_ok sizeof_MultistreamContext then
    let! (r, c) := libp2p_net_multistream_negotiate (mkMultistream multistream_status_initialized parent_stream) theyRequested in
    Ret (if r =? 0 then None else Some c)
  else Ret None.

(** a message for a stream that is a multistream: the answer to our own id *)
Definition multistream_answered (c : MultistreamContext S) : Z * MultistreamContext S :=
  if ms_status c =? multistream_status_ack then (-1, c) else (1, with_status c multistream_status_ack).
End multistream.

(** ** Reference forms *)
Definition multistream_frame (m : bytes) : bytes := varint_bytes (zlen m) ++ m.
Definition multistream_wire (messages : list bytes) : bytes := messages ≫= multistream_frame.

Lemma base128_shape k n : 0 <= n < 128 ^ Z.of_nat k -> (0 < k)%nat ->
  exists init x, base128 k n = init ++ [x] /\ Forall (fun b => 128 <= b < 256) init /\ 0 <= x < 128.
Proof.
  revert n. induction k as [|k IH]; intros n Hn Hk; [lia|]. rewrite base128_S. destruct (Z.ltb_spec n 128) as [Hs|Hs].
  - exists [], n. repeat split; [constructor|lia..].
  - destruct k as [|k]; [change (128 ^ Z.of_nat 1) with 128 in Hn; lia|].
    destruct (IH (n / 128)) as (init & x & -> & Hi & Hx); [by apply div128_bound|lia|].
    exists ((128 + n mod 128) :: init), x. split; [done|]. split; [|done]. constructor; [|done].
    pose proof (Z.mod_pos_bound n 128 ltac:(lia)). lia.
Qed.

Section messages.
Context {M : Malloc} {Hm : MallocOk M} {S : Type} {St : Stream S} {L : StreamLaws S}.

(** a multistream whose parent has no errors *)
Definition ms_good (c : MultistreamContext S) : Prop := good (ms_parent c).

Lemma read_length_ok init x rest t : Forall (fun b => 128 <= b < 256) init -> 0 <= x < 128 -> forall n pre c,
  ms_good c -> incoming (ms_parent c) = init ++ x :: rest -> (length init < n)%nat ->
  exists c', read_length n (zlen pre) (pre ++ replicate n 0) c t =
      (let! (v, _) := varint_decode (pre ++ init ++ x :: replicate (n - length init - 1) 0) (zlen pre + zlen init + 1) in Ret (Some v, c')) /\
    ms_good c' /\ incoming (ms_parent c') = rest /\ outgoing (ms_parent c') = outgoing (ms_parent c) /\ ms_status c' = ms_status c.
Proof.
  intros Hi Hx. induction Hi as [|b init Hb _ IH]; intros n pre c Hc Hin Hn; (destruct n as [|n]; [cbn in Hn; lia|]); cbn [read_length replicate].
  - destruct (read_raw_good (ms_parent c) 1 t Hc) as (s' & -> & Hg & Hi' & Ho); [rewrite Hin; zlia|]. cbn [rbind].
    rewrite Hin in *. change (ztake 1 ([] ++ x :: rest)) with [x]. change (1 =? -1) with false. cbv iota.
    unfold with_ptr. rewrite padd_app by done. cbn [rbind]. rewrite memwr_ok by (rewrite !zlen_cons; zlia). cbn [rbind].
    rewrite ztake_app_len. change (zdrop (zlen [x]) (0 :: replicate n 0)) with (replicate n 0). cbn [app]. rewrite rd_app_mid. cbn [rbind].
    assert ((Z.shiftr x 7 =? 0) = true) as ->. { rewrite Z.shiftr_div_pow2 by lia. by rewrite Z.div_small by lia. }
    cbn [length]. exists (with_parent c s'). rewrite Nat.sub_0_r. change (Datatypes.S n - 1)%nat with (n - 0)%nat. rewrite Nat.sub_0_r.
    change (zlen (@nil Z)) with 0. rewrite Z.add_0_r. done.
  - destruct (read_raw_good (ms_parent c) 1 t Hc) as (s' & -> & Hg & Hi' & Ho); [rewrite Hin; cbn [app]; zlia|]. cbn [rbind].
    rewrite Hin in *. change (ztake 1 ((b :: init) ++ x :: rest)) with [b]. change (1 =? -1) with false. cbv iota.
    unfold with_ptr. rewrite padd_app by done. cbn [rbind]. rewrite memwr_ok by (rewrite !zlen_cons; zlia). cbn [rbind].
    rewrite ztake_app_len. change (zdrop (zlen [b]) (0 :: replicate n 0)) with (replicate n 0). cbn [app]. rewrite rd_app_mid. cbn [rbind].
    assert ((Z.shiftr b 7 =? 0) = false) as ->. { rewrite Z.shiftr_div_pow2 by lia. change (2 ^ 7) with 128. apply Z.eqb_neq. pose proof (Z.div_le_lower_bound b 128 1). lia. }
    destruct (IH n (pre ++ [b]) (with_parent c s') Hg Hi') as (c' & E & Hc' & Hin' & Ho' & Hst); [cbn in Hn; lia|].
    rewrite zlen_app, <- !app_assoc in E. change (zlen [b]) with 1 in E. cbn [app] in E. rewrite E. exists c'.
    split; [|by rewrite Ho'; repeat split]. cbn [length]. rewrite zlen_cons. replace (zlen pre + 1 + zlen init + 1) with (zlen pre + (1 + zlen init) + 1) by lia. done.
Qed.

Definition message_ok (m : bytes) : Prop := 0 < zlen m < 2 ^ 31 - 16.

Lemma multistream_write_ok c m : ms_good c -> ms_status c = multistream_status_ack -> message_ok m ->
  exists c', libp2p_net_multistream_write c (stream_message m) = Ret (zlen m, c') /\
    ms_good c' /\ ms_status c' = ms_status c /\ incoming (ms_parent c') = incoming (ms_parent c) /\
    outgoing (ms_parent c') = outgoing (ms_parent c) ++ multistream_frame m.
Proof using Hm.
  unfold message_ok. intros Hc Hst Hl. unfold libp2p_net_multistream_write. rewrite Hst. cbn [negb Z.eqb]. change (multistream_status_ack =? multistream_status_ack) with true.
  unfold libp2p_net_multistream_write_without_check, libp2p_net_multistream_prepare_to_send, stream_message. cbn [negb sm_data_size sm_data].
  pose proof (varint_bytes_le (zlen m)). pose proof (varint_bytes_pos (zlen m)).
  zbool. rewrite malloc_always. rewrite varint_encode_spec by (rewrite ?zlen_fresh; lia). zbool. cbn [rbind].
  rewrite u64_small by lia. rewrite malloc_always, memrd_app by done. cbn [rbind]. change (deref (Some m)) with m. rewrite memrd_all by done. cbn [rbind].
  set (out := mkStreamMessage _ _ _).
  assert (zlen (varint_bytes (zlen m) ++ m) = zlen (varint_bytes (zlen m)) + zlen m) as Hz by apply zlen_app.
  destruct (write_good (ms_parent c) out Hc) as (s' & -> & Hg & Hi & Ho); [unfold out; cbn [sm_data_size sm_data]; change (deref (Some (varint_bytes (zlen m) ++ m))) with (varint_bytes (zlen m) ++ m); lia|]. cbn [rbind].
  exists (with_parent c s'). unfold out in *. cbn [sm_data_size sm_data] in *. rewrite (s32_small (_ + _)), u64_small, s32_small by lia. zbool.
  split; [done|]. repeat split; [done..|]. change (deref (Some ?l)) with l in Ho. rewrite ztake_all in Ho by lia. exact Ho.
Qed.

Lemma multistream_read_ok c m rest t : ms_good c -> message_ok m -> incoming (ms_parent c) = multistream_frame m ++ rest ->
  exists c', libp2p_net_multistream_read c t = Ret (1, Some (stream_message m), c') /\
    ms_good c' /\ incoming (ms_parent c') = rest /\ outgoing (ms_parent c') = outgoing (ms_parent c) /\ ms_status c' = ms_status c.
Proof using Hm.
  unfold message_ok. intros Hc Hl Hin. unfold multistream_frame in Hin. unfold libp2p_net_multistream_read.
  destruct (base128_shape 10 (zlen m)) as (init & x & E & Hi & Hx); [change (128 ^ Z.of_nat 10) with 1180591620717411303424; lia|lia|].
  change (base128 10 (zlen m)) with (varint_bytes (zlen m)) in E.
  pose proof (varint_bytes_le (zlen m)) as Hle. rewrite E, zlen_app in Hle. change (zlen [x]) with 1 in Hle. unfold zlen at 1 in Hle.
  rewrite E, <- !app_assoc in Hin. cbn [app] in Hin.
  destruct (read_length_ok init x (m ++ rest) t Hi Hx 12 [] c Hc Hin) as (c1 & R & Hc1 & Hi1 & Ho1 & Hs1); [lia|].
  change (zlen (@nil Z)) with 0 in R. cbn [app] in R. rewrite R. replace (init ++ x :: replicate (12 - length init - 1) 0) with (varint_bytes (zlen m) ++ replicate (12 - length init - 1) 0) by (by rewrite E, <- app_assoc).
  rewrite varint_decode_bytes by (rewrite ?E, ?zlen_app; change (zlen [x]) with 1; lia). cbn [rbind]. zbool. rewrite !malloc_always. cbn [andb negb].
  rewrite s32_small by lia. destruct (read_raw_good (ms_parent c1) (zlen m) t Hc1) as (s' & -> & Hg & Hi2 & Ho2); [rewrite Hi1; zlia|]. cbn [rbind].
  rewrite u64_small by lia. zbool. exists (with_parent c1 s'). rewrite Hi1 in *. rewrite ztake_app_len. split; [done|].
  cbn [ms_parent with_parent ms_status]. rewrite Hi2, Ho2, zdrop_app_len. by repeat split.
Qed.

Fixpoint write_all (c : MultistreamContext S) (messages : list bytes) : res (list Z * MultistreamContext S) :=
  match messages with
  | [] => Ret ([], c)
  | m :: messages =>
    let! (n, c) := libp2p_net_multistream_write c (stream_message m) in
    let! (l, c) := write_all c messages in
    Ret (n :: l, c)
  end.
Fixpoint read_all (n : nat) (c : MultistreamContext S) (t : Z) : res (list (Z * option StreamMessage) * MultistreamContext S) :=
  match n with
  | O => Ret ([], c)
  | Datatypes.S n =>
    let! (r, m, c) := libp2p_net_multistream_read c t in
    let! (l, c) := read_all n c t in
    Ret ((r, m) :: l, c)
  end.

Lemma write_all_ok messages : Forall message_ok messages -> forall c, ms_good c -> ms_status c = multistream_status_ack ->
  exists c', write_all c messages = Ret (zlen <$> messages, c') /\ ms_good c' /\ ms_status c' = ms_status c /\
    incoming (ms_parent c') = incoming (ms_parent c) /\ outgoing (ms_parent c') = outgoing (ms_parent c) ++ multistream_wire messages.
Proof using Hm.
  induction 1 as [|m messages Hl _ IH]; intros c Hc Hst; cbn [write_all].
  - exists c. cbn. rewrite app_nil_r. by repeat split.
  - destruct (multistream_write_ok c m Hc Hst Hl) as (c1 & -> & Hc1 & Hs1 & Hi1 & Ho1). cbn [rbind].
    destruct (IH c1 Hc1) as (c' & -> & Hc' & Hs' & Hi' & Ho'); [by rewrite Hs1|]. exists c'. cbn [rbind]. split; [done|].
    rewrite Hs', Hi', Ho', Ho1, <- app_assoc. by repeat split.
Qed.

Lemma read_all_ok t messages : Forall message_ok messages -> forall rest c, ms_good c -> incoming (ms_parent c) = multistream_wire messages ++ rest ->
  exists c', read_all (length messages) c t = Ret ((fun m => (1, Some (stream_message m))) <$> messages, c') /\
    ms_good c' /\ incoming (ms_parent c') = rest /\ outgoing (ms_parent c') = outgoing (ms_parent c) /\ ms_status c' = ms_status c.
Proof using Hm.
  induction 1 as [|m messages Hl _ IH]; intros rest c Hc Hin; cbn [read_all length].
  - by exists c.
  - unfold multistream_wire in Hin. cbn [mbind list_bind] in Hin. rewrite <- app_assoc in Hin.
    destruct (multistream_read_ok c m _ t Hc Hl Hin) as (c1 & -> & Hc1 & Hi1 & Ho1 & Hs1). cbn [rbind].
    destruct (IH rest c1 Hc1 Hi1) as (c' & -> & Hc' & Hi' & Ho' & Hs'). exists c'. cbn [rbind]. split; [done|].
    rewrite Hi', Ho', Hs', Ho1, Hs1. by repeat split.
Qed.
End messages.

(** ** Properties *)

(** Property C32.  Over any stream that keeps the laws, the messages written to a
    multistream are what a multistream at the other end reads, one by one, each with
    its own length, and nothing of what follows is touched; before the negotiation is
    done nothing is written. *)
Theorem multistream_messages {M : Malloc} {Hm : MallocOk M} {S : Type} {St : Stream S} {L : StreamLaws S}
    (w r : MultistreamContext S) (messages : list bytes) (rest : bytes) (t : Z) :
  ms_good w -> ms_good r -> Forall message_ok messages ->
  incoming (ms_parent r) = multistream_wire messages ++ rest ->
  (ms_status w <> multistream_status_ack -> forall m, libp2p_net_multistream_write w m = Ret (0, w)) /\
  (ms_status w = multistream_status_ack ->
   exists w', write_all w messages = Ret (zlen <$> messages, w') /\ outgoing (ms_parent w') = outgoing (ms_parent w) ++ multistream_wire messages) /\
  exists r', read_all (length messages) r t = Ret ((fun m => (1, Some (stream_message m))) <$> messages, r') /\
    incoming (ms_parent r') = rest /\ outgoing (ms_parent r') = outgoing (ms_parent r).
Proof.
  intros Hw Hr Hms Hin. split; [|split].
  - intros Hst m. unfold libp2p_net_multistream_write. by rewrite (proj2 (Z.eqb_neq _ _)).
  - intros Hst. destruct (write_all_ok messages Hms w Hw Hst) as (w' & E & _ & _ & _ & Ho). by exists w'.
  - destruct (read_all_ok t messages Hms rest r Hr Hin) as (r' & E & _ & Hi & Ho & _). by exists r'.
Qed.

Definition ex_socket (l : list arrival) : Socket := mkSocket 5 l [] 0 [] 0.

Lemma multistream_messages_witness :
  let M := malloc_total in
  let w := mkMultistream multistream_status_ack (Some (ex_socket [])) in
  let r := mkMultistream multistream_status_ack (Some (ex_socket [Arrived [3]; Arrived [7; 8]; Arrived [9; 1; 5; 77]])) in
  (ms_status w <> multistream_status_ack -> forall m, libp2p_net_multistream_write w m = Ret (0, w)) /\
  (ms_status w = multistream_status_ack ->
   exists w', write_all w [[7; 8; 9]; [5]] = Ret ([3; 1], w') /\ outgoing (ms_parent w') = outgoing (ms_parent w) ++ multistream_wire [[7; 8; 9]; [5]]) /\
  exists r', read_all 2 r 5 = Ret ([(1, Some (stream_message [7; 8; 9])); (1, Some (stream_message [5]))], r') /\
    incoming (ms_parent r') = [77] /\ outgoing (ms_parent r') = outgoing (ms_parent r).
Proof.
  intros M w r. apply (multistream_messages w r [[7; 8; 9]; [5]] [77] 5).
  - by exists (ex_socket []).
  - exists (ex_socket [Arrived [3]; Arrived [7; 8]; Arrived [9; 1; 5; 77]]). split; [done|]. by repeat constructor.
  - by repeat constructor.
  - done.
Defined.
