(* ===== verification/SecioStream.v ===== *)
(** * Frames and messages of the secure channel (libp2p/secio/secio.c)

    The channel sits on the raw connection, whose socket it uses itself: a frame is
    its length in four bytes, and its bytes.  When the handshake is done a frame is an
    encrypted message. *)
From Stdlib Require Import String.
From S2P Require Import Prelude Digits Protocol YamuxFrame Connection Keys SecioMessage SecioCrypto.

Definition secio_status_unknown : Z := 0.
Definition secio_status_initialized : Z := 1.
Definition secio_status_syn : Z := 2.
Definition secio_status_ack : Z := 3.

Definition EAGAIN : Z := 11.
Definition EINPROGRESS : Z := 115.

(** ** Frames *)
(** every call uses up something of the socket, or ends the loop *)
Definition write_fuel (s : Socket) : nat := S (length (acceptances s)).
Definition read_fuel (s : Socket) (timeout_secs : Z) : nat := length (arrivals s) + Z.to_nat timeout_secs + 6.

Section frames.
Context {M : Malloc}.

(** the loop for the size: [&size_as_char[written]] with a [written] that stays 0 *)
Fixpoint send_size (fuel : nat) (s : Socket) (size_as_char : bytes) (left : Z) : res (bool * Socket) :=
  match fuel with
  | O => NoFuel
  | Datatypes.S fuel =>
    let! b := memrd size_as_char left in
    let '(n, s) := socket_write s b in
    if n <? 0 then if errno s =? EAGAIN then send_size fuel s size_as_char left else Ret (false, s)
    else if 0 <? left - n then send_size fuel s size_as_char (left - n) else Ret (true, s)
  end.

(** the loop for the data *)
Fixpoint send_data (fuel : nat) (s : Socket) (data : bytes) (left : Z) : res (bool * Socket) :=
  match fuel with
  | O => NoFuel
  | Datatypes.S fuel =>
    let! b := memrd data left in
    let '(n, s) := socket_write s b in
    if n <? 0 then if errno s =? EAGAIN then send_data fuel s data left else Ret (false, s)
    else
      let! data := padd data n in
      if 0 <? left - n then send_data fuel s data (left - n) else Ret (true, s)
  end.

Definition libp2p_secio_unencrypted_write (s : Socket) (msg : option StreamMessage) : res (Z * Socket) :=
  match msg with
  | None => Ret (0, s)
  | Some m =>
    if 0 <? sm_data_size m then
      let! (ok, s) := send_size (write_fuel s) s (le32 (swap32 (u32 (sm_data_size m)))) 4 in
      if ok : bool then
        let left := s32 (sm_data_size m) in
        let! (ok, s) := send_data (write_fuel s) s (deref (sm_data m)) left in
        Ret (if ok : bool then left else 0, s)
      else Ret (0, s)
    else Ret (0, s)
  end.

(** the loop for the size: [None] for 0 was returned, otherwise the bytes that came *)
Fixpoint read_size (fuel : nat) (s : Socket) (size : bytes) (left time_left : Z) : res (option bytes * Socket) :=
  match fuel with
  | O => NoFuel
  | Datatypes.S fuel =>
    let '(n, b, s) := socket_read s 1 in
    if n <=? 0 then
      if errno s =? EINPROGRESS then
        if time_left - 1 =? 0 then Ret (Some size, s) else read_size fuel s size left (time_left - 1)
      else if (errno s =? EAGAIN) || negb (errno s =? 0) then Ret (None, s)
      else Ret (None, with_descriptor s 0)
    else if 0 <? left - n then read_size fuel s (size ++ b) (left - n) time_left
    else Ret (Some (size ++ b), s)
  end.

(** the loop for the data, into an object that may be NULL: the object, and whether 0
    was returned *)
Fixpoint read_data (fuel : nat) (s : Socket) (data : option bytes) (read left time_left : Z) : res (bool * option bytes * Socket) :=
  match fuel with
  | O => NoFuel
  | Datatypes.S fuel =>
    let '(n, b, s) := socket_read s (u64 left) in
    if n <? 0 then
      if errno s =? EINPROGRESS then
        if time_left - 1 =? 0 then Ret (true, data, s)
        else if 0 <? left then read_data fuel s data read left (time_left - 1) else Ret (true, data, s)
      else if errno s =? EAGAIN then
        if 0 <? left then read_data fuel s data read left time_left else Ret (true, data, s)
      else Ret (false, data, s)
    else if n =? 0 then Ret (false, data, s)
    else
      match data with
      | None => UB
      | Some d =>
        let! (_, d) := with_ptr d read (fun p => let! p := memwr p b in Ret (tt, p)) in
        if 0 <? left - n then read_data fuel s (Some d) (read + n) (left - n) time_left else Ret (true, Some d, s)
      end
  end.

(** the number of bytes, the message and the socket *)
Definition libp2p_secio_unencrypted_read (s : Socket) (timeout_secs : Z) : res (Z * option StreamMessage * Socket) :=
  if socket_descriptor s <=? 0 then Ret (0, None, s)
  else
    let! (size, s) := read_size (read_fuel s timeout_secs) s [] 4 timeout_secs in
    match size with
    | None => Ret (0, None, s)
    | Some size =>
      let bytes_of := size ++ replicate (4 - length size) 0 in
      let buffer_size := swap32 (num 256 (rev bytes_of)) in
      if buffer_size =? 0 then Ret (0, None, s)
      else if negb (malloc_ok sizeof_StreamMessage) then Ret (0, None, s)
      else
        let left := s32 buffer_size in
        let data := if malloc_ok (u64 left) then Some (fresh (u64 left)) else None in
        let! (ok, data, s) := read_data (read_fuel s timeout_secs) s data 0 left timeout_secs in
        if ok : bool then Ret (s32 buffer_size, Some (mkStreamMessage data buffer_size 0), s)
        else Ret (0, Some (mkStreamMessage data (u64 left) 0), s)
    end.

(** ** The secure stream *)
Context (aes_crypt_ecb hmac : bytes -> bytes -> bytes).

(** the context: [ctx_cipher] are the fields of the session, there after the
    handshake; -1 as a [size_t] is the position when nothing is buffered *)
Record SecioContext := mkSecio {
  ctx_socket : Socket;
  ctx_status : Z;
  ctx_cipher : option Cipher;
  buffered_message : option StreamMessage;
  buffered_message_pos : Z
}.
Definition with_socket (c : SecioContext) (s : Socket) : SecioContext :=
  mkSecio s (ctx_status c) (ctx_cipher c) (buffered_message c) (buffered_message_pos c).
Definition with_cipher (c : SecioContext) (k : Cipher) : SecioContext :=
  mkSecio (ctx_socket c) (ctx_status c) (Some k) (buffered_message c) (buffered_message_pos c).
Definition with_buffer (c : SecioContext) (m : option StreamMessage) (pos : Z) : SecioContext :=
  mkSecio (ctx_socket c) (ctx_status c) (ctx_cipher c) m pos.

(** the socket of a connection that is there *)
Definition some_socket (o : option Socket) : res Socket := match o with Some s => Ret s | None => UB end.

Definition libp2p_secio_encrypted_write (c : SecioContext) (m : StreamMessage) : res (Z * SecioContext) :=
  if negb (ctx_status c =? secio_status_ack) then
    let! (r, s) := libp2p_net_connection_write (Some (ctx_socket c)) m in
    let! s := some_socket s in Ret (r, with_socket c s)
  else
    match ctx_cipher c with
    | None => UB
    | Some k =>
      let! (k, outgoing) := libp2p_secio_encrypt hmac aes_crypt_ecb k (deref (sm_data m)) (sm_data_size m) in
      let c := with_cipher c k in
      match outgoing with
      | None => Ret (0, c)
      | Some b => let! (r, s) := libp2p_secio_unencrypted_write (ctx_socket c) (Some (stream_message b)) in Ret (r, with_socket c s)
      end
    end.

(** a message whose MAC is wrong is given to the caller with the result 0 *)
Definition libp2p_secio_encrypted_read (c : SecioContext) (timeout_secs : Z) : res (Z * option StreamMessage * SecioContext) :=
  if negb (ctx_status c =? secio_status_ack) then
    let! (r, m, s) := libp2p_net_connection_read (Some (ctx_socket c)) timeout_secs in
    let! s := some_socket s in Ret (r, m, with_socket c s)
  else
    let! (r, msg, s) := libp2p_secio_unencrypted_read (ctx_socket c) 10 in
    let c := with_socket c s in
    if r =? 0 then Ret (0, None, c)
    else
      match msg, ctx_cipher c with
      | Some msg, Some k =>
        let! (k, n, b) := libp2p_secio_decrypt hmac aes_crypt_ecb k (deref (sm_data msg)) (sm_data_size msg) in
        Ret (n, stream_message <$> b, with_cipher c k)
      | _, _ => UB
      end.

Definition libp2p_secio_peek (c : option SecioContext) : Z :=
  match c with None => -1 | Some c => libp2p_net_connection_peek (Some (ctx_socket c)) end.

Definition NOTHING_BUFFERED : Z := u64 (-1).

(** from a message that is buffered; what is left starts at the number of bytes that
    were read last *)
Definition read_buffered (c : SecioContext) (buffer_size : Z) : res (Z * bytes * option SecioContext) :=
  match buffered_message c with
  | None => UB
  | Some m =>
    let max_to_read := s32 (if sm_data_size m <? u64 buffer_size then sm_data_size m else u64 buffer_size) in
    let! p := padd (deref (sm_data m)) (buffered_message_pos c) in
    let! b := memrd p (u64 max_to_read) in
    if u64 (buffered_message_pos c + max_to_read) =? sm_data_size m then Ret (max_to_read, b, Some (with_buffer c None NOTHING_BUFFERED))
    else Ret (max_to_read, b, Some (with_buffer c (Some m) (u64 max_to_read)))
  end.

Definition libp2p_secio_read_raw (c : option SecioContext) (buffer_size timeout_secs : Z) : res (Z * bytes * option SecioContext) :=
  match c with
  | None => Ret (-1, [], None)
  | Some c =>
    if buffered_message_pos c =? NOTHING_BUFFERED then
      let! (r, m, c) := libp2p_secio_encrypted_read c timeout_secs in
      let m := match m with None => buffered_message c | m => m end in
      if r =? 0 then Ret (-1, [], Some (with_buffer c m NOTHING_BUFFERED)) else read_buffered (with_buffer c m 0) buffer_size
    else read_buffered c buffer_size
  end.
End frames.

(** ** Frames *)
Definition secio_frame (m : bytes) : bytes := be32 (zlen m) ++ m.

(** no error but the one that means to try again, and room for the size *)
Definition calm (a : acceptance) : Prop := match a with Accepts n => 4 <= n | Refuses e => e = EAGAIN end.

Lemma ztake_nonpos n (l : bytes) : n <= 0 -> ztake n l = [].
Proof. intros. unfold ztake. by replace (Z.to_nat n) with 0%nat by lia. Qed.

Lemma size_bytes n : 0 <= n < 2 ^ 32 -> le32 (swap32 (u32 n)) = be32 n.
Proof. intros Hn. rewrite u32_small, le32_swap32 by lia. unfold be32. rewrite !byte_at_div by lia. by rewrite Z.div_1_r. Qed.

Lemma size_value n : 0 <= n < 2 ^ 32 -> swap32 (num 256 (rev (be32 n ++ replicate (4 - length (be32 n)) 0))) = n.
Proof.
  intros Hn. rewrite <- (swap32_swap32 n Hn) at 3. f_equal. rewrite swap32_sum, !byte_at_div by lia. rewrite Z.div_1_r.
  change (num 256 [n mod 2 ^ 8; n / 2 ^ 8 mod 2 ^ 8; n / 2 ^ 16 mod 2 ^ 8; n / 2 ^ 24 mod 2 ^ 8] =
    n mod 2 ^ 8 * 2 ^ 24 + (n / 2 ^ 8 mod 2 ^ 8 * 2 ^ 16 + (n / 2 ^ 16 mod 2 ^ 8 * 2 ^ 8 + n / 2 ^ 24 mod 2 ^ 8))).
  cbn [num]. rewrite !zlen_cons. change (zlen (@nil Z)) with 0.
  change (256 ^ (1 + (1 + (1 + 0)))) with (2 ^ 24). change (256 ^ (1 + (1 + 0))) with (2 ^ 16). change (256 ^ (1 + 0)) with (2 ^ 8). change (256 ^ 0) with 1. lia.
Qed.

Section frames.
Context {M : Malloc} {Hm : MallocOk M}.

Lemma socket_write_calm s b : Forall calm (acceptances s) -> 0 < zlen b ->
  exists n s', socket_write s b = (n, s') /\ Forall calm (acceptances s') /\ arrivals s' = arrivals s /\ socket_descriptor s' = socket_descriptor s /\
    (n = -1 /\ errno s' = EAGAIN /\ sent s' = sent s /\ length (acceptances s) = S (length (acceptances s')) \/
     Z.min 4 (zlen b) <= n <= zlen b /\ sent s' = sent s ++ ztake n b /\ (n = zlen b \/ length (acceptances s) = S (length (acceptances s')))).
Proof.
  intros Hc Hb. destruct s as [d l acc e o w]. unfold socket_write. cbn [acceptances]. cbn in Hc. destruct Hc as [|[n|x] acc Ha Hc]; cbn in *.
  - do 2 eexists. split; [done|]. cbn. repeat split; [constructor|]. right. rewrite ztake_all by lia. split_and!; [lia..|done|]. by left.
  - do 2 eexists. split; [done|]. cbn. repeat split; [done|]. right. split; [lia|]. split; [|by right]. f_equal.
    destruct (Z.le_gt_cases n (zlen b)); [by rewrite Z.min_l by lia|]. by rewrite Z.min_r, !ztake_all by lia.
  - subst x. do 2 eexists. split; [done|]. cbn. repeat split; [done|]. left. by rewrite app_nil_r.
Qed.

Lemma send_data_calm fuel : forall s data left, (length (acceptances s) < fuel)%nat -> Forall calm (acceptances s) -> 0 < left <= zlen data ->
  exists s', send_data fuel s data left = Ret (true, s') /\ Forall calm (acceptances s') /\ arrivals s' = arrivals s /\
    socket_descriptor s' = socket_descriptor s /\ sent s' = sent s ++ ztake left data.
Proof.
  induction fuel as [|fuel IH]; intros s data left Hf Hc Hl; [lia|]. cbn [send_data]. rewrite memrd_ok by lia. cbn [rbind].
  destruct (socket_write_calm s (ztake left data) Hc) as (n & s1 & -> & Hc1 & Ha1 & Hd1 & H); [rewrite zlen_take; lia|]. rewrite zlen_take in H by lia.
  destruct H as [(-> & He & Hs & Hlen)|(Hn & Hs & Hlen)].
  - zbool.
    destruct (IH s1 data left) as (s' & -> & Hc' & Ha' & Hd' & Hs'); [lia|done..|]. exists s'. rewrite Hs', Hs. rewrite Ha', Ha1, Hd', Hd1. done.
  - zbool. rewrite padd_ok by lia. cbn [rbind]. destruct (Z.ltb_spec 0 (left - n)) as [Hl2|Hl2].
    + destruct (IH s1 (zdrop n data) (left - n)) as (s' & -> & Hc' & Ha' & Hd' & Hs'); [lia|done|rewrite zlen_drop; lia|].
      exists s'. rewrite Hs', Hs, Ha', Ha1, Hd', Hd1, <- app_assoc. split_and!; try done. f_equal.
      rewrite <- (ztake_zdrop n data) at 3. rewrite ztake_app, zlen_take by lia. rewrite (ztake_all left (ztake n data)) by (rewrite zlen_take; lia).
      f_equal. unfold ztake. rewrite take_take. f_equal. lia.
    + assert (n = left) as -> by lia. exists s1. rewrite Hs. split_and!; try done. f_equal. unfold ztake. by rewrite take_take, Nat.min_id.
Qed.

Lemma send_size_calm fuel : forall s size, (length (acceptances s) < fuel)%nat -> Forall calm (acceptances s) -> zlen size = 4 ->
  exists s', send_size fuel s size 4 = Ret (true, s') /\ Forall calm (acceptances s') /\ arrivals s' = arrivals s /\
    socket_descriptor s' = socket_descriptor s /\ sent s' = sent s ++ size.
Proof using.
  induction fuel as [|fuel IH]; intros s size Hf Hc Hl; [lia|]. cbn [send_size]. rewrite memrd_all by done. cbn [rbind].
  destruct (socket_write_calm s size Hc) as (n & s1 & -> & Hc1 & Ha1 & Hd1 & H); [lia|].
  destruct H as [(-> & He & Hs & Hlen)|(Hn & Hs & Hlen)].
  - zbool. destruct (IH s1 size) as (s' & -> & Hc' & Ha' & Hd' & Hs'); [lia|done..|]. exists s'. rewrite Hs', Hs, Ha', Ha1, Hd', Hd1. done.
  - assert (n = 4) as -> by lia. exists s1. rewrite Hs, ztake_all by lia. done.
Qed.

Lemma unencrypted_write_size s d n e : Forall calm (acceptances s) -> 0 < n <= zlen d -> n < 2 ^ 31 ->
  exists s', libp2p_secio_unencrypted_write s (Some (mkStreamMessage (Some d) n e)) = Ret (n, s') /\ Forall calm (acceptances s') /\
    arrivals s' = arrivals s /\ socket_descriptor s' = socket_descriptor s /\ sent s' = sent s ++ secio_frame (ztake n d).
Proof using.
  intros Hc Hl Hn. unfold libp2p_secio_unencrypted_write, write_fuel. cbn [sm_data_size sm_data]. zbool. rewrite size_bytes by lia.
  destruct (send_size_calm (S (length (acceptances s))) s (be32 n)) as (s1 & -> & Hc1 & Ha1 & Hd1 & Hs1); [lia|done..|]. cbn [rbind].
  rewrite s32_small by lia. change (deref (Some d)) with d.
  destruct (send_data_calm (S (length (acceptances s1))) s1 d n) as (s2 & -> & Hc2 & Ha2 & Hd2 & Hs2); [lia|done|lia|]. cbn [rbind].
  exists s2. unfold secio_frame. rewrite zlen_take by lia. rewrite Hs2, Hs1, Ha2, Ha1, Hd2, Hd1, <- app_assoc. done.
Qed.
Lemma unencrypted_write_calm s m : Forall calm (acceptances s) -> 0 < zlen m < 2 ^ 31 ->
  exists s', libp2p_secio_unencrypted_write s (Some (stream_message m)) = Ret (zlen m, s') /\ Forall calm (acceptances s') /\
    arrivals s' = arrivals s /\ socket_descriptor s' = socket_descriptor s /\ sent s' = sent s ++ secio_frame m.
Proof using.
  intros Hc Hl. destruct (unencrypted_write_size s m (zlen m) 0 Hc) as (s' & H); [lia..|]. rewrite ztake_all in H by lia. by exists s'.
Qed.

(** ** Reading *)
(** a socket from which bytes come, in any pieces *)
Definition readable (s : Socket) : Prop := Forall arrives (arrivals s).

Lemma socket_read_good s n : readable s -> 0 < n -> 0 < zlen (socket_incoming s) ->
  exists k s', socket_read s n = (k, ztake k (socket_incoming s), s') /\ 0 < k <= n /\ k <= zlen (socket_incoming s) /\
    readable s' /\ socket_incoming s' = zdrop k (socket_incoming s) /\ sent s' = sent s /\ socket_descriptor s' = socket_descriptor s /\
    acceptances s' = acceptances s /\ (k = n \/ length (arrivals s) = S (length (arrivals s'))) /\ (length (arrivals s') <= length (arrivals s))%nat.
Proof using.
  intros Ha Hn Hi. destruct s as [d l acc e o w]. unfold socket_incoming, readable, socket_read in *. cbn [arrivals acceptances sent] in *.
  destruct l as [|[b|?] l]; [done| |by apply Forall_cons in Ha as [? _]]. apply Forall_cons in Ha as [Hb Ha]. cbn in Hb. zbool.
  cbn [mbind list_bind arrived] in *. rewrite zlen_app in *. zlen_facts. destruct (Z.leb_spec (zlen b) n) as [Hl|Hl].
  - exists (zlen b). eexists. rewrite ztake_app_len, zdrop_app_len. split; [done|]. cbn. split_and!; try done; lia.
  - exists n. eexists. rewrite (ztake_app n) by lia. rewrite (ztake_nonpos (n - zlen b)) by lia. rewrite app_nil_r. split; [done|]. cbn. split_and!; try done; try lia.
    + constructor; [|done]. cbn. rewrite zlen_drop; lia.
    + unfold zdrop, zlen in *. rewrite drop_app_le by lia. done.
Qed.

Lemma read_size_good fuel : forall s size left t, (Z.to_nat left <= fuel)%nat -> 0 < left -> readable s -> left <= zlen (socket_incoming s) ->
  exists s', read_size fuel s size left t = Ret (Some (size ++ ztake left (socket_incoming s)), s') /\ readable s' /\
    socket_incoming s' = zdrop left (socket_incoming s) /\ sent s' = sent s /\ socket_descriptor s' = socket_descriptor s /\ acceptances s' = acceptances s.
Proof using.
  induction fuel as [|fuel IH]; intros s size left t Hf Hl Hg Hi; [lia|]. cbn [read_size].
  destruct (socket_read_good s 1 Hg) as (k & s1 & -> & Hk & Hk2 & Hg1 & Hi1 & Hs1 & Hd1 & Hc1 & _); [lia..|]. assert (k = 1) as -> by lia. zbool.
  destruct (Z.ltb_spec 0 (left - 1)) as [Hl2|Hl2].
  - destruct (IH s1 (size ++ ztake 1 (socket_incoming s)) (left - 1) t) as (s' & -> & Hg' & Hi' & Hs' & Hd' & Hc'); [lia|lia|done|rewrite Hi1, zlen_drop; lia|].
    exists s'. rewrite Hi', Hs', Hd', Hc', Hi1, Hs1, Hd1, Hc1, zdrop_zdrop, <- app_assoc by lia. replace (1 + (left - 1)) with left by lia.
    split_and!; try done. do 3 f_equal. rewrite <- (ztake_zdrop 1 (socket_incoming s)) at 3. rewrite (ztake_app left), zlen_take by lia.
    by rewrite (ztake_all left (ztake 1 _)) by (rewrite zlen_take; lia).
  - assert (left = 1) as -> by lia. by exists s1.
Qed.

Lemma read_data_good fuel : forall s pre free left t, (length (arrivals s) < fuel)%nat -> 0 < left < 2 ^ 31 -> zlen free = left -> readable s ->
  left <= zlen (socket_incoming s) ->
  exists s', read_data fuel s (Some (pre ++ free)) (zlen pre) left t = Ret (true, Some (pre ++ ztake left (socket_incoming s)), s') /\ readable s' /\
    socket_incoming s' = zdrop left (socket_incoming s) /\ sent s' = sent s /\ socket_descriptor s' = socket_descriptor s /\ acceptances s' = acceptances s.
Proof using.
  induction fuel as [|fuel IH]; intros s pre free left t Hf Hl Hfree Hg Hi; [lia|]. cbn [read_data]. rewrite u64_small by lia.
  destruct (socket_read_good s left Hg) as (k & s1 & -> & Hk & Hk2 & Hg1 & Hi1 & Hs1 & Hd1 & Hc1 & Hsh & _); [lia..|]. zbool.
  set (b := ztake k (socket_incoming s)). assert (zlen b = k) as Hb by (apply zlen_take; lia).
  unfold with_ptr. rewrite padd_app by done. cbn [rbind]. rewrite memwr_ok, Hb, ztake_app_len by lia. cbn [rbind].
  destruct (Z.ltb_spec 0 (left - k)) as [Hl2|Hl2].
  - destruct (IH s1 (pre ++ b) (zdrop k free) (left - k) t) as (s' & E & Hg' & Hi' & Hs' & Hd' & Hc'); [lia|lia|rewrite zlen_drop; lia|done|rewrite Hi1, zlen_drop; lia|].
    rewrite zlen_app, Hb, <- !app_assoc in E. rewrite E. exists s'. rewrite Hi', Hs', Hd', Hc', Hi1, Hs1, Hd1, Hc1, zdrop_zdrop by lia.
    replace (k + (left - k)) with left by lia. split_and!; try done. do 4 f_equal.
    rewrite <- (ztake_zdrop k (socket_incoming s)) at 2. fold b. rewrite (ztake_app left), Hb by lia. by rewrite (ztake_all left b) by lia.
  - assert (k = left) as -> by lia. exists s1. rewrite (zdrop_ge left free) by lia. rewrite app_nil_r. by split_and!.
Qed.

Lemma unencrypted_read_good s m rest t : readable s -> 0 < socket_descriptor s -> 0 < zlen m < 2 ^ 31 -> socket_incoming s = secio_frame m ++ rest ->
  exists s', libp2p_secio_unencrypted_read s t = Ret (zlen m, Some (stream_message m), s') /\ readable s' /\ socket_incoming s' = rest /\
    sent s' = sent s /\ socket_descriptor s' = socket_descriptor s /\ acceptances s' = acceptances s.
Proof using Hm.
  intros Hg Hd Hl Hi. unfold libp2p_secio_unencrypted_read, read_fuel. zbool. unfold secio_frame in Hi. rewrite <- app_assoc in Hi.
  assert (zlen (be32 (zlen m)) = 4) as H4 by done.
  destruct (read_size_good (length (arrivals s) + Z.to_nat t + 6) s [] 4 t) as (s1 & -> & Hg1 & Hi1 & Hs1 & Hd1 & Hc1); [lia|lia|done|rewrite Hi, zlen_app; zlen_facts; lia|].
  cbn [rbind]. rewrite Hi in *. rewrite <- H4 in Hi1. rewrite zdrop_app_len in Hi1. replace (ztake 4 _) with (be32 (zlen m)) by done.
  cbn [app]. rewrite size_value by lia. zbool. rewrite !malloc_always. cbn [negb]. rewrite s32_small, u64_small by lia.
  destruct (read_data_good (length (arrivals s1) + Z.to_nat t + 6) s1 [] (fresh (zlen m)) (zlen m) t) as (s2 & E & Hg2 & Hi2 & Hs2 & Hd2 & Hc2);
    [lia|lia|apply zlen_fresh; lia|done|rewrite Hi1, zlen_app; zlen_facts; lia|].
  change (zlen (@nil Z)) with 0 in E. cbn [app] in E. rewrite E. cbn [rbind]. rewrite Hi1, ztake_app_len. exists s2.
  rewrite Hi2, Hi1, zdrop_app_len, Hs2, Hs1, Hd2, Hd1, Hc2, Hc1. by split_and!.
Qed.
End frames.

(** ** Messages *)
Section channel.
Context {M : Malloc} {Hm : MallocOk M} (aes_crypt_ecb hmac : bytes -> bytes -> bytes).
Hypothesis aes_length : forall k b, zlen (aes_crypt_ecb k b) = 16.
Hypothesis hmac_length : forall k m, zlen (hmac k m) = 32.

(** the end that writes, and an end that reads what it writes *)
Definition can_write (c : SecioContext) (k : Cipher) : Prop :=
  ctx_status c = secio_status_ack /\ ctx_cipher c = Some k /\ encode_ok k /\ Forall calm (acceptances (ctx_socket c)).
Definition can_read (c : SecioContext) (k : Cipher) : Prop :=
  ctx_status c = secio_status_ack /\ ctx_cipher c = Some k /\ readable (ctx_socket c) /\ 0 < socket_descriptor (ctx_socket c).
Definition secret_ok (m : bytes) : Prop := is_bytes m /\ 0 < zlen m < 2 ^ 31 - 32.

Lemma encrypted_write_read a k d m : can_write a k -> paired k d -> secret_ok m ->
  exists a' k' wire d', libp2p_secio_encrypted_write aes_crypt_ecb hmac a (stream_message m) = Ret (zlen m + 32, a') /\
    can_write a' k' /\ sent (ctx_socket a') = sent (ctx_socket a) ++ wire /\ paired k' d' /\
    (forall b rest t, can_read b d -> socket_incoming (ctx_socket b) = wire ++ rest ->
      exists b', libp2p_secio_encrypted_read aes_crypt_ecb hmac b t = Ret (zlen m, Some (stream_message m), b') /\
        can_read b' d' /\ socket_incoming (ctx_socket b') = rest).
Proof using Hm aes_length hmac_length.
  intros (Sa & Ka & Ke & Ca) Hp [Hi Hl].
  destruct (encrypt_decrypt aes_crypt_ecb hmac aes_length hmac_length k d m Ke Hp Hi) as (k' & d' & frame & E1 & Hf & E2 & Ke' & Hp' & _); [lia|].
  destruct (unencrypted_write_calm (ctx_socket a) frame Ca) as (s & W & Cs & _ & _ & Hs); [lia|].
  exists (with_socket (with_cipher a k') s), k', (secio_frame frame), d'.
  unfold libp2p_secio_encrypted_write, stream_message. rewrite Sa, Ka. cbn [sm_data sm_data_size negb]. change (negb (secio_status_ack =? secio_status_ack)) with false.
  change (deref (Some m)) with m. rewrite E1. cbn [rbind]. change (ctx_socket (with_cipher a k')) with (ctx_socket a).
  unfold stream_message in W. rewrite W. cbn [rbind]. rewrite Hf. split; [done|]. split; [done|]. split; [done|]. split; [done|].
  intros b rest t (Sb & Kb & Gb & Db) Hin. destruct (unencrypted_read_good (ctx_socket b) frame rest 10 Gb Db) as (s2 & R & G2 & I2 & _ & D2 & _); [lia|done|].
  unfold libp2p_secio_encrypted_read. rewrite Sb. change (negb (secio_status_ack =? secio_status_ack)) with false. rewrite R. cbn [rbind].
  change (ctx_cipher (with_socket b s2)) with (ctx_cipher b). rewrite Kb. zbool. unfold stream_message at 1 2. cbn [sm_data sm_data_size].
  change (deref (Some frame)) with frame. rewrite E2. cbn [rbind]. eexists. split; [done|]. split; [|done].
  unfold can_read. cbn. rewrite D2. by split_and!.
Qed.

Fixpoint write_messages (c : SecioContext) (messages : list bytes) : res (list Z * SecioContext) :=
  match messages with
  | [] => Ret ([], c)
  | m :: messages =>
    let! (n, c) := libp2p_secio_encrypted_write aes_crypt_ecb hmac c (stream_message m) in
    let! (l, c) := write_messages c messages in
    Ret (n :: l, c)
  end.
Fixpoint read_messages (n : nat) (c : SecioContext) (t : Z) : res (list (Z * option StreamMessage) * SecioContext) :=
  match n with
  | O => Ret ([], c)
  | Datatypes.S n =>
    let! (r, m, c) := libp2p_secio_encrypted_read aes_crypt_ecb hmac c t in
    let! (l, c) := read_messages n c t in
    Ret ((r, m) :: l, c)
  end.

Lemma write_read_messages messages t : Forall secret_ok messages -> forall a k d, can_write a k -> paired k d ->
  exists a' k' wire d', write_messages a messages = Ret ((fun m => zlen m + 32) <$> messages, a') /\ can_write a' k' /\
    sent (ctx_socket a') = sent (ctx_socket a) ++ wire /\ paired k' d' /\
    (forall b rest, can_read b d -> socket_incoming (ctx_socket b) = wire ++ rest ->
      exists b', read_messages (length messages) b t = Ret ((fun m => (zlen m, Some (stream_message m))) <$> messages, b') /\
        can_read b' d' /\ socket_incoming (ctx_socket b') = rest).
Proof using Hm aes_length hmac_length.
  induction 1 as [|m messages Hok _ IH]; intros a k d Ha Hp; cbn [write_messages read_messages length].
  - exists a, k, [], d. rewrite app_nil_r. split_and!; try done. intros b rest Hb Hin. by exists b.
  - destruct (encrypted_write_read a k d m Ha Hp Hok) as (a1 & k1 & w1 & d1 & W & Ha1 & Hs1 & Hp1 & R).
    destruct (IH a1 k1 d1 Ha1 Hp1) as (a' & k' & w2 & d' & Ws & Ha' & Hs' & Hp' & Rs).
    exists a', k', (w1 ++ w2), d'. rewrite W. cbn [rbind]. rewrite Ws. cbn [rbind]. rewrite Hs', Hs1, <- app_assoc. split_and!; try done.
    intros b rest Hb Hin. rewrite <- app_assoc in Hin. destruct (R b (w2 ++ rest) t Hb Hin) as (b1 & E1 & Hb1 & Hin1).
    destruct (Rs b1 rest Hb1 Hin1) as (b' & E2 & Hb' & Hin'). exists b'. rewrite E1. cbn [rbind]. rewrite E2. by split_and!.
Qed.
End channel.

(** a message that is read in pieces: the position is set to the size of the last one *)
Lemma read_raw_buffered {M : Malloc} aes hmac c m n t : buffered_message c = Some (stream_message m) -> buffered_message_pos c <> NOTHING_BUFFERED ->
  0 < n -> 0 <= buffered_message_pos c -> buffered_message_pos c + n < zlen m < 2 ^ 31 ->
  libp2p_secio_read_raw aes hmac (Some c) n t = Ret (n, ztake n (zdrop (buffered_message_pos c) m), Some (with_buffer c (Some (stream_message m)) n)).
Proof.
  intros Hb Hp Hn H0 Hl. unfold libp2p_secio_read_raw, read_buffered. rewrite (proj2 (Z.eqb_neq _ _) Hp), Hb. unfold stream_message. cbn [sm_data sm_data_size].
  change (deref (Some m)) with m. rewrite (u64_small n) by lia. zbool. rewrite s32_small, !u64_small by lia.
  rewrite padd_ok by lia. cbn [rbind]. rewrite memrd_ok by (rewrite zlen_drop; lia). cbn [rbind]. zbool. done.
Qed.

(** the first bytes of the size are sent again *)
Lemma short_size {M : Malloc} s k m : acceptances s = [Accepts k] -> 0 < k < 4 -> 0 < zlen m < 2 ^ 31 ->
  exists s', libp2p_secio_unencrypted_write s (Some (stream_message m)) = Ret (zlen m, s') /\
    sent s' = sent s ++ ztake k (be32 (zlen m)) ++ ztake (4 - k) (be32 (zlen m)) ++ m.
Proof.
  intros Ha Hk Hl. destruct s as [d l acc e o w]. cbn in Ha. subst acc. unfold libp2p_secio_unencrypted_write, stream_message, write_fuel.
  cbn [sm_data_size sm_data acceptances length]. zbool. rewrite size_bytes, s32_small by lia. change (deref (Some m)) with m.
  assert (zlen (be32 (zlen m)) = 4) as H4 by done.
  cbn [send_size]. rewrite memrd_all by done. cbn [rbind socket_write acceptances]. rewrite H4, Z.min_l by lia. zbool.
  rewrite memrd_ok by lia. cbn [rbind socket_write with_sent acceptances]. rewrite zlen_take by lia. zbool.
  cbn [rbind send_data acceptances]. rewrite memrd_all by done. cbn [rbind socket_write acceptances with_sent]. zbool.
  rewrite padd_ok by lia. cbn [rbind]. zbool. eexists. split; [done|]. cbn. by rewrite <- !app_assoc.
Qed.

(** ** Properties *)

(** Property C10.  After the handshake, messages of one end go through the two sockets
    to the other end: each write gives the length of its frame, and each read the next
    message with its length, whatever the pieces in which the bytes are taken and
    arrive, as long as the four bytes of a size are taken together; what follows is not
    touched. *)
Theorem secio_channel {M : Malloc} {Hm : MallocOk M} (aes_crypt_ecb hmac : bytes -> bytes -> bytes)
    (a : SecioContext) (k d : Cipher) (messages : list bytes) (t : Z) :
  (forall k b, zlen (aes_crypt_ecb k b) = 16) -> (forall k m, zlen (hmac k m) = 32) ->
  can_write a k -> paired k d -> Forall secret_ok messages ->
  exists a' k' wire d', write_messages aes_crypt_ecb hmac a messages = Ret ((fun m => zlen m + 32) <$> messages, a') /\ can_write a' k' /\
    sent (ctx_socket a') = sent (ctx_socket a) ++ wire /\ paired k' d' /\
    (forall b rest, can_read b d -> socket_incoming (ctx_socket b) = wire ++ rest ->
      exists b', read_messages aes_crypt_ecb hmac (length messages) b t = Ret ((fun m => (zlen m, Some (stream_message m))) <$> messages, b') /\
        can_read b' d' /\ socket_incoming (ctx_socket b') = rest).
Proof. intros Ha Hh Hw Hp Hok. exact (write_read_messages aes_crypt_ecb hmac Ha Hh messages t Hok a k d Hw Hp). Qed.

Definition ex_secio (l : list acceptance) : SecioContext :=
  mkSecio (mkSocket 3 [] l 0 [] 0) secio_status_ack (Some (libp2p_secio_initialize_crypto ex_key ex_key)) None NOTHING_BUFFERED.

Lemma secio_channel_witness :
  let M := malloc_total in let a := ex_secio [Refuses EAGAIN; Accepts 4; Accepts 20] in
  let k := libp2p_secio_initialize_crypto ex_key ex_key in let messages := [[1; 2; 3]; [4]] in
  exists a' k' wire d', write_messages ex_aes ex_hmac a messages = Ret ((fun m => zlen m + 32) <$> messages, a') /\ can_write a' k' /\
    sent (ctx_socket a') = sent (ctx_socket a) ++ wire /\ paired k' d' /\
    (forall b rest, can_read b k -> socket_incoming (ctx_socket b) = wire ++ rest ->
      exists b', read_messages ex_aes ex_hmac 2 b 10 = Ret ((fun m => (zlen m, Some (stream_message m))) <$> messages, b') /\
        can_read b' d' /\ socket_incoming (ctx_socket b') = rest).
Proof.
  intros M a k messages. apply (secio_channel ex_aes ex_hmac a k k messages 10).
  - exact ex_aes_length.
  - intros key m. apply ex_sha_length.
  - split; [done|]. split; [done|]. split; [by repeat split|]. by repeat constructor.
  - done.
  - repeat constructor; unfold byte_range; cbn; lia.
Defined.

(**  Two things go wrong in pieces.  When the socket takes fewer than the
    four bytes of a size, its first bytes are sent again in place of the others.  A
    message that is read raw in pieces of [n] gives, from the third piece on, the second
    one again. *)
Lemma secio_pieces {M : Malloc} (aes_crypt_ecb hmac : bytes -> bytes -> bytes) (s : Socket) (c : SecioContext) (m : bytes) (k n t : Z) :
  acceptances s = [Accepts k] -> 0 < k < 4 -> 2 * n < zlen m < 2 ^ 31 -> 0 < n ->
  (exists s', libp2p_secio_unencrypted_write s (Some (stream_message m)) = Ret (zlen m, s') /\
    sent s' = sent s ++ ztake k (be32 (zlen m)) ++ ztake (4 - k) (be32 (zlen m)) ++ m) /\
  let c0 := with_buffer c (Some (stream_message m)) 0 in
  let c1 := with_buffer c (Some (stream_message m)) n in
  libp2p_secio_read_raw aes_crypt_ecb hmac (Some c0) n t = Ret (n, ztake n m, Some c1) /\
  libp2p_secio_read_raw aes_crypt_ecb hmac (Some c1) n t = Ret (n, ztake n (zdrop n m), Some c1).
Proof.
  intros Ha Hk Hl Hn. split; [apply (short_size s k m Ha Hk); lia|]. intros c0 c1.
  assert (NOTHING_BUFFERED = 2 ^ 64 - 1) as HN by done. split.
  - rewrite (read_raw_buffered aes_crypt_ecb hmac c0 m n t); cbn; [done|done|rewrite HN; lia|lia..].
  - rewrite (read_raw_buffered aes_crypt_ecb hmac c1 m n t); cbn; [done|done|rewrite HN; lia|lia..].
Qed.
