(* ===== verification/Secio.v ===== *)
(** * The handshake of the secure channel (libp2p/secio/secio.c, libp2p/crypto/rsa.c,
    libp2p/crypto/ephemeral.c)

    The two sides send each other a proposal, choose algorithms, send each other an
    ephemeral key with a signature, make keys of the shared secret, and check that
    they can read each other.  RSA and the curves of mbedTLS are arguments. *)
From Stdlib Require Import String.
From S2P Require Import Prelude Digits CString Protobuf Base58 Multiaddr Peer Peerstore Protocol YamuxFrame Connection Keys SecioMessage SecioCrypto SecioStream.
From S2P Require Import Block.

Definition SupportedExchanges : bytes := Eval vm_compute in txt "P-256,P-384,P-521".
Definition SupportedCiphers : bytes := Eval vm_compute in txt "AES-256,AES-128,Blowfish".
Definition SupportedHashes : bytes := Eval vm_compute in txt "SHA256,SHA512".

(** what the handshake uses of a private key *)
Record RsaPrivateKey := mkRsa { r_der : bytes; r_der_length : Z; r_public_key_der : bytes; r_public_key_length : Z }.

(** mbedTLS: parsing a key, the length of its modulus, signing and verifying a hash;
    seeding the generator, loading a curve, making a key pair in a buffer of so many
    bytes from what the generator gives, reading the other key and computing the secret *)
Class Mbedtls := {
  rsa_ctx : Type;
  pk_parse_key : bytes -> option rsa_ctx;
  pk_parse_public_key : bytes -> option rsa_ctx;
  rsa_len : rsa_ctx -> Z;
  rsassa_sign : rsa_ctx -> bytes -> option bytes;
  rsassa_verify : rsa_ctx -> bytes -> bytes -> bool;
  ecdh_ctx : Type;
  ctr_drbg_seed : bool;
  ecp_group_load : Z -> option ecdh_ctx;
  ecdh_make_public : ecdh_ctx -> Z -> bytes -> option (ecdh_ctx * bytes);
  ecdh_read_public : ecdh_ctx -> bytes -> option ecdh_ctx;
  ecdh_calc_secret : ecdh_ctx -> Z -> option bytes;
  sha256 : bytes -> bytes;
  hmac : bytes -> bytes -> bytes;
  aes_crypt_ecb : bytes -> bytes -> bytes
}.

Definition MBEDTLS_ECP_DP_SECP256R1 : Z := 3.
Definition MBEDTLS_ECP_DP_SECP384R1 : Z := 4.
Definition MBEDTLS_ECP_DP_SECP521R1 : Z := 5.

Section crypto.
Context {M : Malloc} {B : Mbedtls}.

(** ** Signatures *)
(** the result and the signature: the last byte of the key is read to see whether a
    zero follows; a signature that is not made leaves the bytes of malloc *)
Definition libp2p_crypto_rsa_sign (der : bytes) (der_length : Z) (message : bytes) (message_length : Z) : res (Z * option bytes) :=
  let! (_, hash) := libp2p_crypto_hashing_sha256 sha256 message message_length in
  let! last := rd der (der_length - 1) in
  if negb (last =? 0) && negb (malloc_ok (u64 (der_length + 1))) then Ret (0, None)
  else
    let! key := memrd der der_length in
    match pk_parse_key key with
    | None => Ret (0, None)
    | Some ctx =>
      if negb ctr_drbg_seed then Ret (0, None)
      else if malloc_ok (rsa_len ctx) then
        match rsassa_sign ctx hash with
        | Some signature => Ret (1, Some signature)
        | None => Ret (0, Some (fresh (rsa_len ctx)))
        end
      else UB
    end.

(** the result of the parser is not looked at, and the signature is as long as the key
    says *)
Definition libp2p_crypto_rsa_verify (der : bytes) (der_length : Z) (message : bytes) (message_length : Z) (signature : bytes) : res Z :=
  let! (_, hash) := libp2p_crypto_hashing_sha256 sha256 message message_length in
  let! key := memrd der der_length in
  match pk_parse_public_key key with
  | None => UB
  | Some ctx =>
    let! s := memrd signature (rsa_len ctx) in
    Ret (if rsassa_verify ctx hash s then 1 else 0)
  end.

Definition libp2p_secio_verify_signature (public_key : PublicKey) (input : bytes) (in_length : Z) (signature : option bytes) : res Z :=
  if pk_type public_key =? KEYTYPE_RSA then
    libp2p_crypto_rsa_verify (deref (pk_data public_key)) (pk_data_size public_key) input in_length (deref signature)
  else Ret 0.

(** ** Ephemeral keys *)
(** the context, and what is used of the public key *)
Record EphemeralPrivateKey := mkEphemeral {
  e_ctx : ecdh_ctx;
  e_bytes : bytes;
  e_bytes_size : Z;
  e_shared_key : option bytes;
  e_shared_key_size : Z
}.
Definition sizeof_EphemeralPrivateKey : Z := 400.
Definition sizeof_EphemeralPublicKey : Z := 56.

Definition selected_curve (curve : bytes) : Z :=
  if bool_decide (curve = txt "P-256") then MBEDTLS_ECP_DP_SECP256R1
  else if bool_decide (curve = txt "P-384") then MBEDTLS_ECP_DP_SECP384R1
  else MBEDTLS_ECP_DP_SECP521R1.

(** [None]: returned 0; the new key is not tested, nor its buffer of 66 bytes *)
Definition libp2p_crypto_ephemeral_keypair_generate (curve entropy : bytes) : res (option EphemeralPrivateKey) :=
  if malloc_ok sizeof_EphemeralPrivateKey && malloc_ok sizeof_EphemeralPublicKey then
    if negb ctr_drbg_seed then Ret None
    else
      match ecp_group_load (selected_curve curve) with
      | None => Ret None
      | Some ctx =>
        if malloc_ok 66 then
          match ecdh_make_public ctx 66 entropy with
          | None => Ret None
          | Some (ctx, public) =>
            let! b := memwr (fresh 66) public in Ret (Some (mkEphemeral ctx b (zlen public) None 0))
          end
        else UB
      end
  else UB.

(** the result, and the key with the secret *)
Definition libp2p_crypto_ephemeral_generate_shared_secret (k : EphemeralPrivateKey) (remote_public_key : bytes) (remote_public_key_size : Z)
  : res (Z * EphemeralPrivateKey) :=
  if negb ctr_drbg_seed then Ret (0, k)
  else
    let! remote := memrd remote_public_key remote_public_key_size in
    match ecdh_read_public (e_ctx k) remote with
    | None => Ret (0, k)
    | Some ctx =>
      if malloc_ok 100 then
        match ecdh_calc_secret ctx 100 with
        | None => Ret (0, mkEphemeral ctx (e_bytes k) (e_bytes_size k) (Some (fresh 100)) 100)
        | Some secret =>
          let! b := memwr (fresh 100) secret in
          Ret (1, mkEphemeral ctx (e_bytes k) (e_bytes_size k) (Some b) (zlen secret))
        end
      else UB
    end.
End crypto.

(** ** The session *)
(** the host and the port of the connection, whether there is a default stream, and
    what the negotiation fills in *)
Record Session `{Mbedtls} := mkSession {
  host : bytes;
  port : Z;
  default_stream : bool;
  local_nonce : bytes;
  remote_nonce : bytes;
  remote_peer_id : option bytes;
  chosen_curve : option bytes;
  chosen_cipher : option bytes;
  chosen_hash : option bytes;
  ephemeral_private_key : option EphemeralPrivateKey;
  remote_ephemeral_public_key : bytes;
  shared_key : option bytes
}.

(** a handshake: the context with its socket, the session (which a connection error
    frees), and the store of peers *)
Record Handshake `{Mbedtls} := mkHandshake {
  hs_context : SecioContext;
  hs_session : option Session;
  hs_peerstore : option Peerstore
}.

Arguments mkSession {_}.
Arguments mkHandshake {_}.

Section handshake.
Context {M : Malloc} {B : Mbedtls}.

Definition with_context (h : Handshake) (c : SecioContext) : Handshake := mkHandshake c (hs_session h) (hs_peerstore h).
Definition with_session (h : Handshake) (s : Session) : Handshake := mkHandshake (hs_context h) (Some s) (hs_peerstore h).
Definition session (h : Handshake) : res Session := match hs_session h with Some s => Ret s | None => UB end.

Definition set_nonces (s : Session) (l r : bytes) : Session :=
  mkSession (host s) (port s) (default_stream s) l r (remote_peer_id s) (chosen_curve s) (chosen_cipher s) (chosen_hash s)
    (ephemeral_private_key s) (remote_ephemeral_public_key s) (shared_key s).
Definition set_peer_id (s : Session) (i : option bytes) : Session :=
  mkSession (host s) (port s) (default_stream s) (local_nonce s) (remote_nonce s) i (chosen_curve s) (chosen_cipher s) (chosen_hash s)
    (ephemeral_private_key s) (remote_ephemeral_public_key s) (shared_key s).
Definition set_chosen (s : Session) (curve cipher hash : option bytes) : Session :=
  mkSession (host s) (port s) (default_stream s) (local_nonce s) (remote_nonce s) (remote_peer_id s) curve cipher hash
    (ephemeral_private_key s) (remote_ephemeral_public_key s) (shared_key s).
Definition set_ephemeral (s : Session) (k : option EphemeralPrivateKey) : Session :=
  mkSession (host s) (port s) (default_stream s) (local_nonce s) (remote_nonce s) (remote_peer_id s) (chosen_curve s) (chosen_cipher s) (chosen_hash s)
    k (remote_ephemeral_public_key s) (shared_key s).
Definition set_secrets (s : Session) (k : option EphemeralPrivateKey) (remote : bytes) (shared : option bytes) : Session :=
  mkSession (host s) (port s) (default_stream s) (local_nonce s) (remote_nonce s) (remote_peer_id s) (chosen_curve s) (chosen_cipher s) (chosen_hash s)
    k remote shared.

(** ** The peer at the other end *)
(** a peer in the store, by its position, or one of the handshake's own *)
Inductive remote_peer := InStore (i : nat) | Own (p : Libp2pPeer).

Definition connected (p : Libp2pPeer) (ds : bool) : Libp2pPeer :=
  mkPeer (id p) (id_size p) (addr_head p) CONNECTION_TYPE_CONNECTED (Some ds) (is_local p).

(** the text of the address in an array of 100 bytes *)
Definition peer_url (s : Session) (peer_id : bytes) : res bytes :=
  let url := txt "/ip4/" ++ c_str (host s) ++ txt "/tcp/" ++ print_int (port s) ++ txt "/ipfs/" ++ peer_id ++ [0] in
  if zlen url <=? 100 then Ret url else UB.

(** a new peer is copied to the store before it is marked as connected; without an
    address it is freed, and the session with it *)
Definition libp2p_secio_get_peer_or_add (h : Handshake) : res (option remote_peer * Handshake) :=
  let! s := session h in
  let i := deref (remote_peer_id s) in
  let! id_size := strlen i in
  let! entry := libp2p_peerstore_get_peer_entry (hs_peerstore h) (to_ptr (remote_peer_id s)) id_size in
  match entry, hs_peerstore h with
  | Some n, Some ps =>
    let! p := entry_peer ps n in
    let ps := mkPeerstore (<[n := mkPeerEntry (Some (connected p (default_stream s)))]> (ps_entries ps)) in
    Ret (Some (InStore n), mkHandshake (hs_context h) (hs_session h) (Some ps))
  | _, _ =>
    match libp2p_peer_new with
    | None => UB
    | Some _ =>
      let! b := memrd i id_size in
      let id := if (0 <? id_size) && malloc_ok (id_size + 1) then Some (b ++ [0]) else None in
      let p := mkPeer id id_size [] CONNECTION_TYPE_NOT_CONNECTED (Some (default_stream s)) 0 in
      let! text := libp2p_peer_id_to_string p in
      let! url := peer_url s (c_str text) in
      let! ma := multiaddress_new_from_string url in
      match ma with
      | None => Ret (None, mkHandshake (hs_context h) None (hs_peerstore h))
      | Some ma =>
        if malloc_ok sizeof_Libp2pLinkedList then
          let p := mkPeer id id_size [Some ma] CONNECTION_TYPE_NOT_CONNECTED (Some (default_stream s)) 0 in
          let! ps := match hs_peerstore h with
                     | None => Ret None
                     | Some ps => let! (_, ps) := libp2p_peerstore_add_peer ps (Some p) in Ret (Some ps)
                     end in
          Ret (Some (Own (connected p (default_stream s))), mkHandshake (hs_context h) (hs_session h) ps)
        else UB
      end
    end
  end.

(** [libp2p_peer_handle_connection_error] on the peer, which frees its session: the one
    of this handshake *)
Definition connection_error (p : option remote_peer) (h : Handshake) : res Handshake :=
  match p with
  | None => UB
  | Some (Own _) => Ret (mkHandshake (hs_context h) None (hs_peerstore h))
  | Some (InStore n) =>
    match hs_peerstore h with
    | None => UB
    | Some ps =>
      let! p := entry_peer ps n in
      let ps := mkPeerstore (<[n := mkPeerEntry (Some (libp2p_peer_handle_connection_error p))]> (ps_entries ps)) in
      Ret (mkHandshake (hs_context h) None (Some ps))
    end
  end.

(** ** The handshake, part by part: [None] for a jump to the exit with 0 *)
Definition on_socket {A} (h : Handshake) (f : Socket -> res (A * Socket)) : res (A * Handshake) :=
  let! (a, s) := f (ctx_socket (hs_context h)) in Ret (a, with_context h (with_socket (hs_context h) s)).

(** a message that is written as it is; whether all of it was *)
Definition send_bytes (h : Handshake) (data : bytes) (size : Z) : res (bool * Handshake) :=
  let! (n, h) := on_socket h (fun s => libp2p_secio_unencrypted_write s (Some (mkStreamMessage (Some data) size 0))) in
  Ret (u64 n =? size, h).

(** our proposal, its bytes and their number *)
Definition send_propose (key : RsaPrivateKey) (nonce : bytes) (h : Handshake) : res (option (Propose * bytes * Z) * Handshake) :=
  let! s := session h in
  let h := with_session h (set_nonces s nonce (remote_nonce s)) in
  let! p := libp2p_secio_propose_build nonce (r_public_key_der key) (r_public_key_length key)
              (SupportedExchanges ++ [0]) (SupportedCiphers ++ [0]) (SupportedHashes ++ [0]) in
  match p with
  | None => UB
  | Some p =>
    let size := libp2p_secio_propose_protobuf_encode_size p in
    if malloc_ok size then
      let! ((r, n), out) := libp2p_secio_propose_protobuf_encode p (fresh size) size in
      if r =? 0 then Ret (None, h)
      else
        let! (ok, h) := send_bytes h out n in
        Ret (if ok : bool then Some (p, out, n) else None, h)
    else UB
  end.

(** their proposal, its bytes, and their key; the result of the peer id is not looked
    at *)
Definition receive_propose (h : Handshake) : res (option (Propose * bytes * PublicKey * option remote_peer) * Handshake) :=
  let! (n, msg, h) := on_socket h (fun s => let! (n, msg, s) := libp2p_secio_unencrypted_read s 10 in Ret (n, msg, s)) in
  if n =? 0 then Ret (None, h)
  else
    match msg with
    | None => UB
    | Some m =>
      let! propose_in_bytes := copy_unchecked (deref (sm_data m)) (sm_data_size m) in
      let! p := libp2p_secio_propose_protobuf_decode propose_in_bytes (sm_data_size m) in
      match p with
      | None => Ret (None, h)
      | Some p =>
        if negb (p_rand_size p =? 16) then Ret (None, h)
        else
          let! s := session h in
          let! nonce := memrd (deref (p_rand p)) 16 in
          let s := set_nonces s (local_nonce s) nonce in
          let! k := libp2p_crypto_public_key_protobuf_decode (deref (p_public_key p)) (p_public_key_size p) in
          match k with
          | None => Ret (None, with_session h s)
          | Some k =>
            let! (r, i) := libp2p_crypto_public_key_to_peer_id sha256 k in
            let s := set_peer_id s (if r =? 0 then remote_peer_id s else i) in
            let! (peer, h) := libp2p_secio_get_peer_or_add (with_session h s) in
            Ret (Some (p, propose_in_bytes, k, peer), h)
          end
      end
    end.

(** the order; [false] when nothing could be chosen *)
Definition choose (propose_in propose_out : Propose) (h : Handshake) : res (bool * Z * Handshake) :=
  let! order := libp2p_secio_determine_order sha256 propose_in propose_out in
  let select f g := libp2p_secio_select_best order (f propose_out) (g propose_out) (f propose_in) (g propose_in) in
  let! curve := select p_exchanges p_exchanges_size in
  match curve with
  | None => Ret (false, order, h)
  | Some curve =>
    let! s := session h in
    let! cipher := select p_ciphers p_ciphers_size in
    match cipher with
    | None => Ret (false, order, with_session h (set_chosen s (Some curve) (chosen_cipher s) (chosen_hash s)))
    | Some cipher =>
      let! hash := select p_hashes p_hashes_size in
      match hash with
      | None => Ret (false, order, with_session h (set_chosen s (Some curve) (Some cipher) (chosen_hash s)))
      | Some hash => Ret (true, order, with_session h (set_chosen s (Some curve) (Some cipher) (Some hash)))
      end
    end
  end.

(** our exchange: the results of the encoder and of the signature are not looked at *)
Definition send_exchange (key : RsaPrivateKey) (entropy : bytes) (out_bytes in_bytes : bytes) (out_size in_size : Z) (h : Handshake)
  : res (option EphemeralPrivateKey * Handshake) :=
  let! s := session h in
  let! k := libp2p_crypto_ephemeral_keypair_generate (deref (chosen_curve s)) entropy in
  match k with
  | None => Ret (None, h)
  | Some k =>
    let h := with_session h (set_ephemeral s (Some k)) in
    let length := u64 (in_size + out_size + e_bytes_size k - 1) in
    if malloc_ok length then
      let! a := memrd out_bytes out_size in
      let! b := memrd in_bytes in_size in
      let! p := padd (e_bytes k) 1 in
      let! c := memrd p (u64 (e_bytes_size k - 1)) in
      let! x := libp2p_secio_exchange_build libp2p_crypto_rsa_sign (e_bytes k) (e_bytes_size k) (r_der key) (r_der_length key) (a ++ b ++ c) length in
      match x with
      | None => Ret (None, h)
      | Some x =>
        let size := libp2p_secio_exchange_protobuf_encode_size x in
        if malloc_ok size then
          let! ((_, n), out) := libp2p_secio_exchange_protobuf_encode x (fresh size) size in
          let! (ok, h) := send_bytes h out n in
          Ret (if ok : bool then Some k else None, h)
        else Ret (None, h)
      end
    else Ret (None, h)
  end.

(** their exchange, and their ephemeral key with its length in front *)
Definition receive_exchange (peer : option remote_peer) (h : Handshake) : res (option (Exchange * bytes) * Handshake) :=
  let! (n, msg, h) := on_socket h (fun s => let! (n, msg, s) := libp2p_secio_unencrypted_read s 10 in Ret (n, msg, s)) in
  if n =? 0 then let! h := connection_error peer h in Ret (None, h)
  else
    match msg with
    | None => UB
    | Some m =>
      let! x := libp2p_secio_exchange_protobuf_decode (deref (sm_data m)) (sm_data_size m) in
      match x with
      | None => UB
      | Some x =>
        if malloc_ok (u64 (x_epubkey_size x + 1)) then
          let! b := memrd (deref (x_epubkey x)) (x_epubkey_size x) in
          Ret (Some (x, u8 (x_epubkey_size x) :: b), h)
        else UB
      end
    end.

(** the signature, the shared secret and the keys *)
Definition make_keys (order : Z) (x : Exchange) (remote : bytes) (k : EphemeralPrivateKey) (public_key : PublicKey)
    (out_bytes in_bytes : bytes) (out_size in_size : Z) (h : Handshake) : res (option Cipher * Handshake) :=
  let! s := session h in
  let h := with_session h (set_secrets s (Some k) remote (shared_key s)) in
  let size := u64 (x_epubkey_size x + 1) in
  let length := u64 (in_size + out_size + size - 1) in
  if negb (malloc_ok length) then Ret (None, h)
  else
    let! a := memrd in_bytes in_size in
    let! b := memrd out_bytes out_size in
    let! p := padd remote 1 in
    let! c := memrd p (u64 (size - 1)) in
    let! verified := libp2p_secio_verify_signature public_key (a ++ b ++ c) length (x_signature x) in
    if verified =? 0 then Ret (None, h)
    else
      let! (r, k) := libp2p_crypto_ephemeral_generate_shared_secret k remote size in
      let h := with_session h (set_secrets s (Some k) remote (shared_key s)) in
      if r =? 0 then Ret (None, h)
      else
        let! shared := copy_unchecked (deref (e_shared_key k)) (e_shared_key_size k) in
        let h := with_session h (set_secrets s (Some k) remote (Some shared)) in
        let! keys := libp2p_secio_stretch_keys hmac (deref (chosen_cipher s)) shared (e_shared_key_size k) in
        match keys with
        | None => Ret (None, h)
        | Some (k1, k2) =>
          let '(local, remote) := if 0 <? order then (k1, k2) else (k2, k1) in
          let hash := deref (chosen_hash s) in
          if bool_decide (hash = txt "SHA1") || bool_decide (hash = txt "SHA512") || bool_decide (hash = txt "SHA256") then
            let '(_, local) := libp2p_secio_make_mac_and_cipher hash (deref (chosen_cipher s)) local in
            let '(_, remote) := libp2p_secio_make_mac_and_cipher hash (deref (chosen_cipher s)) remote in
            Ret (Some (libp2p_secio_initialize_crypto local remote), h)
          else Ret (None, h)
        end.

(** the nonces, through the cipher *)
Definition check_nonces (h : Handshake) : res (Z * Handshake) :=
  let! s := session h in
  let! (r, c) := libp2p_secio_encrypted_write aes_crypt_ecb hmac (hs_context h) (mkStreamMessage (Some (remote_nonce s)) 16 0) in
  let h := with_context h c in
  if r <=? 0 then Ret (0, h)
  else
    let! (n, m, c) := libp2p_secio_encrypted_read aes_crypt_ecb hmac c 10 in
    let h := with_context h c in
    if n <=? 0 then Ret (0, h)
    else
      match m with
      | None => Ret (0, h)
      | Some m =>
        if negb (sm_data_size m =? 16) then Ret (0, h)
        else
          let! cmp := libp2p_secio_bytes_compare 16 (deref (sm_data m)) (local_nonce s) in
          Ret (if cmp =? 0 then 1 else 0, h)
      end.

Definition acknowledged (h : Handshake) (c : Cipher) : Handshake :=
  let x := hs_context h in
  with_context h (mkSecio (ctx_socket x) secio_status_ack (Some c) (buffered_message x) (buffered_message_pos x)).

(** [nonce] is what /dev/urandom gives, [entropy] what the generator of mbedTLS does *)
Definition libp2p_secio_handshake (key : RsaPrivateKey) (nonce entropy : bytes) (h : Handshake) : res (Z * Handshake) :=
  let! (r, h) := send_propose key nonce h in
  match r with
  | None => Ret (0, h)
  | Some (propose_out, out_bytes, out_size) =>
    let! (r, h) := receive_propose h in
    match r with
    | None => Ret (0, h)
    | Some (propose_in, in_bytes, public_key, peer) =>
      let! (chosen, order, h) := choose propose_in propose_out h in
      if negb chosen then Ret (0, h)
      else
        let! (k, h) := send_exchange key entropy out_bytes in_bytes out_size (zlen in_bytes) h in
        match k with
        | None => Ret (0, h)
        | Some k =>
          let! (x, h) := receive_exchange peer h in
          match x with
          | None => Ret (0, h)
          | Some (x, remote) =>
            let! (c, h) := make_keys order x remote k public_key out_bytes in_bytes out_size (zlen in_bytes) h in
            match c with
            | None => Ret (0, h)
            | Some c => check_nonces (acknowledged h c)
            end
          end
        end
    end
  end.
End handshake.
