(* ===== verification/SecioHandshake.v ===== *)
(** * Two ends of a handshake (libp2p/secio/secio.c)

    What the handshake of Secio does when the socket has no errors and the other end
    runs it too. *)
From Stdlib Require Import String.
From S2P Require Import Prelude Digits Varint CString Protobuf Base58 Multiaddr Peer Peerstore Protocol YamuxFrame Block Connection Keys SecioMessage SecioCrypto SecioStream Secio.

(** ** The peer at the other end *)
Definition peers_ok (o : option Peerstore) : Prop :=
  match o with None => True | Some ps => exists ids, store_with ids ps end.

Definition session_address (port : Z) (a b c d : Z) (t : bytes) : list component := [Ip4 a b c d; Tcp port; Ipfs t].

(** a session on a connection with an IPv4 address *)
Definition host_ok `{Mbedtls} (s : Session) : Prop :=
  exists a b c d, c_str (host s) = ip4_text a b c d /\ is_bytes [a; b; c; d] /\ 0 < port s < 65536.

Lemma show_256_length a b c d : is_bytes [a; b; c; d] -> zlen (show 256 (num 256 [a; b; c; d])) <= 4.
Proof. intros H. apply (show_length 256 ltac:(lia)); [|lia]. apply (num_bound 256 ltac:(lia) _ H). Qed.

Section peer.
Context {M : Malloc} {Hm : MallocOk M} {B : Mbedtls}.

Lemma session_address_text port a b c d t : address_string (session_address port a b c d t) =
  txt "/ip4/" ++ ip4_text a b c d ++ txt "/tcp/" ++ dec port ++ txt "/ipfs/" ++ peer_text t.
Proof.
  unfold address_string, address_words, session_address, delimited. cbn [mbind list_bind component_words app fmap list_fmap concat].
  rewrite app_nil_r. reflexivity.
Qed.

Lemma session_address_ok port a b c d t : 0 < port < 65536 -> is_bytes [a; b; c; d] -> is_bytes t -> zlen t = 32 ->
  address_ok (session_address port a b c d t) /\ zlen (address_string (session_address port a b c d t)) < 100.
Proof using.
  intros Hp Hi Ht Hl. pose proof (ip4_text_length a b c d Hi). pose proof (peer_text_length t Ht Hl). pose proof (dec_length port 5).
  assert (zlen (address_string (session_address port a b c d t)) < 100) as Hs.
  { rewrite session_address_text, !zlen_app. change (zlen (txt "/ip4/")) with 5. change (zlen (txt "/tcp/")) with 5. change (zlen (txt "/ipfs/")) with 6. lia. }
  split; [|done]. split; [done|]. split; [constructor; [exact Hi|constructor; [exact Hp|constructor; [by split|constructor]]]|]. split; [|lia].
  unfold address_bytes, session_address. cbn [mbind list_bind component_bytes]. unfold peer_hash, port_bytes.
  pose proof (show_256_length a b c d Hi). repeat (rewrite ?zlen_app, ?zlen_cons). rewrite Hl. change (zlen (@nil Z)) with 0. lia.
Qed.

(** the text of the address of a new peer makes an address *)
Lemma url_address (s : Session) a b c d t : c_str (host s) = ip4_text a b c d -> is_bytes [a; b; c; d] -> 0 < port s < 65536 ->
  is_bytes t -> zlen t = 32 ->
  exists url ma, peer_url s (peer_text t) = Ret url /\ multiaddress_new_from_string url = Ret (Some ma) /\
    address_of (address_bytes (session_address (port s) a b c d t)) ma.
Proof using Hm.
  intros Hh Hi Hp Ht Hl. destruct (session_address_ok (port s) a b c d t Hp Hi Ht Hl) as [Hok Hlen].
  set (cs := session_address (port s) a b c d t) in *. exists (address_string cs ++ [0]).
  exists (mkMultiAddress (Ptr (address_string cs ++ [0])) (Ptr (address_bytes cs)) (zlen (address_bytes cs))). split_and!.
  - unfold peer_url, print_int. rewrite Hh. rewrite (proj2 (Z.ltb_ge (port s) 0)) by lia.
    match goal with |- (if zlen ?u <=? 100 then _ else _) = _ => replace u with (address_string cs ++ [0]) end.
    + rewrite zlen_app. change (zlen [0]) with 1. by zbool.
    + unfold cs. rewrite session_address_text. by rewrite <- !app_assoc.
  - pose proof (new_from_string_ok cs [] [] Hok ltac:(by left)) as E. rewrite app_nil_r in E. exact E.
  - destruct Hok as (_ & Hok & Hb & _). exists (address_string cs), []. cbn [ma_string ma_bytes ma_bsize].
    destruct (address_bytes_ok cs Hok) as [Hby Hn]. change (Z.of_nat (length cs)) with 3 in Hn.
    split_and!; try done; [by apply address_string_nonzero|lia..].
Qed.

Lemma new_peer_text (o : option bool) i : nonzero i -> 0 < zlen i < 100 ->
  libp2p_peer_id_to_string (mkPeer (Some (i ++ [0])) (zlen i) [] CONNECTION_TYPE_NOT_CONNECTED o 0) = Ret (i ++ [0]) /\ c_str (i ++ [0]) = i.
Proof using.
  intros Hn Hl. unfold libp2p_peer_id_to_string. cbn [id id_size]. change (deref (Some ?x)) with x. rewrite memrd_app by done. cbn [rbind]. zbool.
  split; [done|]. by apply c_str_nul.
Qed.

Lemma get_peer_or_add_ok (h : Handshake) (s : Session) t post : hs_session h = Some s -> remote_peer_id s = Some (peer_text t ++ 0 :: post) ->
  is_bytes t -> zlen t = 32 -> host_ok s -> peers_ok (hs_peerstore h) ->
  exists pe ps', libp2p_secio_get_peer_or_add h = Ret (Some pe, mkHandshake (hs_context h) (Some s) ps') /\ peers_ok ps'.
Proof using Hm.
  intros Hs Hid Ht Hl (a & b & c & d & Hh & Hi & Hp) Hps. unfold libp2p_secio_get_peer_or_add, session. rewrite Hs. cbn [rbind]. rewrite Hid. cbn [to_ptr].
  destruct (peer_text_piece t Ht Hl) as [_ Hnz]. pose proof (peer_text_length t Ht Hl) as H46. change (deref (Some ?x)) with x.
  rewrite strlen_nul by done. cbn [rbind]. destruct (url_address s a b c d t Hh Hi Hp Ht Hl) as (url & ma & Eu & Em & Hma).
  set (i := peer_text t) in *. destruct (new_peer_text (Some (default_stream s)) i Hnz ltac:(lia)) as [En Ec].
  unfold libp2p_peer_new. rewrite !malloc_always. zbool. rewrite memrd_app by done.
  destruct h as [x o [ps|]]; cbn [hs_context hs_session hs_peerstore] in *.
  - destruct Hps as (ids & Hids). rewrite (get_entry_ok i (0 :: post) ids ps Hids). cbn [rbind].
    pose proof (store_find i ids (proj2 Hids)) as Hf. destruct (list_find _ ids) as [[n [j k]]|]; cbn [fmap option_fmap option_map fst].
    + destruct Hf as (-> & Hn & _). destruct (entry_at ids ps n i k Hids Hn) as (p & xs & -> & Hpi & Hpz & Hpn & Hpa & Hpx & Hpc). cbn [rbind].
      subst o. do 2 eexists. split; [done|]. exists ids. split; [|apply Hids]. rewrite <- (list_insert_id ids n (i, k)) by done.
      apply Forall2_insert; [apply Hids|]. exists (connected p (default_stream s)), xs. by repeat (split; [done|]).
    + rewrite En. cbn [rbind]. rewrite Ec, Eu. cbn [rbind]. rewrite Em. cbn [rbind]. set (p := mkPeer _ _ [Some ma] _ _ _).
      destruct (add_peer_ok i [address_bytes (session_address (port s) a b c d t)] p ids ps Hids) as (ps' & -> & Hps'); [|lia|].
      * split; [done|]. split; [by exists [0]|]. split; [by repeat constructor|done].
      * cbn [rbind]. subst o. do 2 eexists. split; [done|]. eexists. exact Hps'.
  - cbn [libp2p_peerstore_get_peer_entry rbind]. rewrite En. cbn [rbind]. rewrite Ec, Eu. cbn [rbind]. rewrite Em. cbn [rbind]. subst o.
    by do 2 eexists.
Qed.
End peer.

(** ** What the handshake relies on *)
(** the library works: P-256 has key pairs whose public key is a length byte and 65
    bytes, and the secret of two pairs does not depend on the side *)
Class MbedtlsOk (B : Mbedtls) := {
  sha256_length m : is_bytes (sha256 m) /\ zlen (sha256 m) = 32;
  hmac_length k m : zlen (hmac k m) = 32;
  aes_length k b : zlen (aes_crypt_ecb k b) = 16;
  seeded : ctr_drbg_seed = true;
  p256 : ecdh_ctx;
  p256_loaded : ecp_group_load MBEDTLS_ECP_DP_SECP256R1 = Some p256;
  pair_ctx : bytes -> ecdh_ctx;
  pair_public : bytes -> bytes;
  pair_made e : ecdh_make_public p256 66 e = Some (pair_ctx e, 65 :: pair_public e);
  pair_length e : zlen (pair_public e) = 65;
  secret : bytes -> bytes -> bytes;
  secret_made e f : exists c, ecdh_read_public (pair_ctx e) (65 :: pair_public f) = Some c /\ ecdh_calc_secret c 100 = Some (secret e f);
  secret_symmetric e f : secret e f = secret f e;
  secret_length e f : zlen (secret e f) <= 100
}.

(** one side: its key, its nonce and its randomness *)
Record party := mkParty { pa_key : RsaPrivateKey; pa_nonce : bytes; pa_entropy : bytes }.

Definition rsa_public (k : RsaPrivateKey) : PublicKey := mkPublicKey KEYTYPE_RSA (Some (ztake (r_public_key_length k) (r_public_key_der k))) (r_public_key_length k).

(** the two halves of the key belong together *)
Definition rsa_ok `{Mbedtls} (k : RsaPrivateKey) : Prop :=
  0 < r_der_length k <= zlen (r_der k) /\ 0 <= r_public_key_length k <= zlen (r_public_key_der k) /\ r_public_key_length k < 2 ^ 20 /\
  exists sctx vctx, pk_parse_key (ztake (r_der_length k) (r_der k)) = Some sctx /\
    pk_parse_public_key (ztake (r_public_key_length k) (r_public_key_der k)) = Some vctx /\ 0 <= rsa_len vctx < 2 ^ 24 /\
    forall h, exists s, rsassa_sign sctx h = Some s /\ zlen s = rsa_len vctx /\ rsassa_verify vctx h s = true.

Definition party_ok `{Mbedtls} (p : party) : Prop := rsa_ok (pa_key p) /\ is_bytes (pa_nonce p) /\ zlen (pa_nonce p) = 16.

Section parts.
Context {M : Malloc} {Hm : MallocOk M} {B : Mbedtls} {L : MbedtlsOk B}.

(** ** Proposals *)
Definition proposal (p : party) : Propose :=
  let k := public_key_wire (rsa_public (pa_key p)) in
  mkPropose (Some (pa_nonce p)) 16 (Some k) (zlen k) (Some SupportedExchanges) (zlen SupportedExchanges)
    (Some SupportedCiphers) (zlen SupportedCiphers) (Some SupportedHashes) (zlen SupportedHashes).

(** a proposal with the same bytes in its fields *)
Definition same_fields (p q : Propose) : Prop :=
  propose_ok p /\ p_rand_size p = p_rand_size q /\ p_public_key_size p = p_public_key_size q /\ p_exchanges_size p = p_exchanges_size q /\
  p_ciphers_size p = p_ciphers_size q /\ p_hashes_size p = p_hashes_size q /\
  field_bytes (p_rand p) (p_rand_size p) = field_bytes (p_rand q) (p_rand_size q) /\
  field_bytes (p_public_key p) (p_public_key_size p) = field_bytes (p_public_key q) (p_public_key_size q) /\
  field_bytes (p_exchanges p) (p_exchanges_size p) = field_bytes (p_exchanges q) (p_exchanges_size q) /\
  field_bytes (p_ciphers p) (p_ciphers_size p) = field_bytes (p_ciphers q) (p_ciphers_size q) /\
  field_bytes (p_hashes p) (p_hashes_size p) = field_bytes (p_hashes q) (p_hashes_size q).

Definition longer (d e : option bytes) : Prop := exists rest, deref d = deref e ++ rest.
Lemma field_longer d e n : longer d e -> field_ok_size e n -> field_ok_size d n /\ field_bytes d n = field_bytes e n.
Proof.
  intros [rest E] [Hn Hl]. unfold field_ok_size, field_bytes. rewrite E, zlen_app. zlen_facts. split; [lia|]. unfold ztake, zlen in *.
  by rewrite take_app_le by lia.
Qed.

Lemma fields_same p rand key ex ci ha : propose_ok p -> longer rand (p_rand p) -> longer key (p_public_key p) -> longer ex (p_exchanges p) ->
  longer ci (p_ciphers p) -> longer ha (p_hashes p) ->
  same_fields (mkPropose rand (p_rand_size p) key (p_public_key_size p) ex (p_exchanges_size p) ci (p_ciphers_size p) ha (p_hashes_size p)) p.
Proof.
  intros (O1 & O2 & O3 & O4 & O5) L1 L2 L3 L4 L5. destruct (field_longer _ _ _ L1 O1), (field_longer _ _ _ L2 O2), (field_longer _ _ _ L3 O3),
    (field_longer _ _ _ L4 O4), (field_longer _ _ _ L5 O5). unfold same_fields, propose_ok. cbn. by split_and!.
Qed.

Lemma rsa_public_ok k : rsa_ok k -> public_key_ok (rsa_public k).
Proof.
  intros (_ & Hk & Hl & _). unfold public_key_ok, rsa_public, INT_MAX, KEYTYPE_RSA. cbn [pk_type pk_data pk_data_size].
  change (deref (Some ?x)) with x. rewrite zlen_take by lia. lia.
Qed.

Lemma proposal_ok p : party_ok p -> propose_ok (proposal p).
Proof.
  intros (Hk & _ & Hn). pose proof (rsa_public_ok _ Hk) as Hp. pose proof (public_key_length _ Hp) as Hl.
  destruct Hk as (_ & Hk & Hkl & _). unfold libp2p_crypto_public_key_protobuf_encode_size in Hl. cbn [rsa_public pk_data_size] in Hl. rewrite u64_small in Hl by lia.
  unfold propose_ok, proposal, field_ok_size. cbn [p_rand p_rand_size p_public_key p_public_key_size p_exchanges p_exchanges_size p_ciphers p_ciphers_size p_hashes p_hashes_size].
  change (deref (Some ?x)) with x. zlen_facts. rewrite Hn.
  repeat split; try lia; done.
Qed.

Lemma copy_string_ok s : nonzero s -> copy_string (s ++ [0]) = Ret (s ++ [0], zlen s).
Proof using Hm.
  intros Hs. unfold copy_string. rewrite strlen_nul by done. cbn [rbind]. rewrite copy_unchecked_ok by (rewrite zlen_app; change (zlen [0]) with 1; zlen_facts; lia).
  cbn [rbind]. by rewrite ztake_all by (rewrite zlen_app; change (zlen [0]) with 1; lia).
Qed.

Lemma propose_build_ok p : party_ok p ->
  exists q, libp2p_secio_propose_build (pa_nonce p) (r_public_key_der (pa_key p)) (r_public_key_length (pa_key p))
      (SupportedExchanges ++ [0]) (SupportedCiphers ++ [0]) (SupportedHashes ++ [0]) = Ret (Some q) /\ same_fields q (proposal p).
Proof using Hm.
  intros Hp. pose proof Hp as (Hk & _ & Hn). pose proof Hk as (_ & Hd & Hdl & _). unfold libp2p_secio_propose_build, libp2p_secio_propose_new.
  rewrite malloc_always, copy_unchecked_ok by lia. cbn [rbind]. rewrite !copy_string_ok by (repeat constructor; done). cbn [rbind].
  rewrite copy_unchecked_ok by lia. cbn [rbind]. fold (rsa_public (pa_key p)). rewrite malloc_always.
  pose proof (rsa_public_ok _ Hk) as Hpk. pose proof (public_key_length _ Hpk) as Hl. zlen_facts.
  rewrite (public_key_emits _ Hpk) by (rewrite ?zlen_fresh; lia). cbn [rbind]. change (1 =? 0) with false. cbv iota. eexists. split; [done|].
  apply (fields_same (proposal p)); [by apply proposal_ok|..]; cbn [proposal p_rand p_rand_size p_public_key p_public_key_size p_exchanges p_exchanges_size p_ciphers p_ciphers_size p_hashes p_hashes_size].
  - exists []. by rewrite app_nil_r, ztake_all by lia.
  - by eexists.
  - by exists [0].
  - by exists [0].
  - by exists [0].
Qed.

Lemma same_wire p q : same_fields p q -> propose_wire p = propose_wire q /\ propose_saved p = propose_saved q.
Proof. intros (_ & _ & _ & _ & _ & _ & E1 & E2 & E3 & E4 & E5). unfold propose_wire, propose_saved. by rewrite E1, E2, E3, E4, E5. Qed.

Lemma saved_fields p : propose_ok p -> same_fields (propose_saved p) p.
Proof.
  intros (H1 & H2 & H3 & H4 & H5).
  assert (propose_saved p = mkPropose (Some (field_bytes (p_rand p) (p_rand_size p))) (p_rand_size p) (Some (field_bytes (p_public_key p) (p_public_key_size p))) (p_public_key_size p)
    (Some (field_bytes (p_exchanges p) (p_exchanges_size p))) (p_exchanges_size p) (Some (field_bytes (p_ciphers p) (p_ciphers_size p))) (p_ciphers_size p)
    (Some (field_bytes (p_hashes p) (p_hashes_size p))) (p_hashes_size p)) as ->.
  { unfold propose_saved, set_hashes, set_ciphers, set_exchanges, set_public_key, set_rand. cbn. by rewrite !field_bytes_length. }
  assert (forall d n, field_ok_size d n -> field_ok_size (Some (field_bytes d n)) n /\ field_bytes (Some (field_bytes d n)) n = field_bytes d n) as Hf.
  { intros d n Hd. pose proof (field_bytes_length d n Hd) as Hl. unfold field_ok_size, field_bytes in *. change (deref (Some ?x)) with x. destruct Hd as [Hd Hn].
    rewrite Hl. split; [lia|]. by rewrite ztake_all by lia. }
  destruct (Hf _ _ H1), (Hf _ _ H2), (Hf _ _ H3), (Hf _ _ H4), (Hf _ _ H5). unfold same_fields, propose_ok. cbn. by split_and!.
Qed.

Definition pair_order (other me : party) : Z :=
  sign_of (lex (order_hash sha256 (proposal other) (proposal me)) (order_hash sha256 (proposal me) (proposal other))).

Lemma pair_order_opposite p q : pair_order q p = - pair_order p q.
Proof. unfold pair_order. rewrite lex_antisym. by destruct (lex _ _). Qed.

Lemma same_hash p q r s : same_fields p q -> same_fields r s -> order_hash sha256 p r = order_hash sha256 q s.
Proof. intros (_ & _ & _ & _ & _ & _ & _ & E & _) (_ & _ & _ & _ & _ & _ & E' & _). unfold order_hash. by rewrite E, E'. Qed.

Lemma chosen_first order la lb (l : bytes) s : order <> 0 -> field_ok_size la (zlen l) -> field_ok_size lb (zlen l) ->
  field_bytes la (zlen l) = l -> field_bytes lb (zlen l) = l -> head (tokens comma (c_str (l ++ [0]))) = Some s ->
  libp2p_secio_select_best order la (zlen l) lb (zlen l) = Ret (Some s).
Proof using Hm.
  intros Ho Ha Hb Ea Eb Hs. rewrite select_best_ok by done. unfold algorithms. unfold field_bytes in Ea, Eb. rewrite Ea, Eb.
  destruct (tokens comma (c_str (l ++ [0]))) as [|x t]; [done|]. injection Hs as ->. cbn [best_match existsb]. rewrite bool_decide_eq_true_2 by done. by destruct (0 <? order).
Qed.

Lemma choose_ok me other pin pout h s : same_fields pin (proposal other) -> same_fields pout (proposal me) -> pair_order other me <> 0 -> hs_session h = Some s ->
  choose pin pout h = Ret (true, pair_order other me, with_session h (set_chosen s (Some (txt "P-256")) (Some (txt "AES-256")) (Some (txt "SHA256")))).
Proof using Hm L.
  intros Hi Ho Hne Hs. unfold choose. pose proof Hi as (Oi & I1 & I2 & I3 & I4 & I5 & _ & _ & F3 & F4 & F5). pose proof Ho as (Oo & J1 & J2 & J3 & J4 & J5 & _ & _ & G3 & G4 & G5).
  rewrite (determine_order_ok sha256 (fun m => proj2 (sha256_length m)) pin pout Oi Oo). cbn [rbind].
  rewrite (same_hash _ _ _ _ Hi Ho), (same_hash _ _ _ _ Ho Hi). fold (pair_order other me).
  destruct Oi as (_ & _ & Oi3 & Oi4 & Oi5), Oo as (_ & _ & Oo3 & Oo4 & Oo5).
  rewrite I3, I4, I5, J3, J4, J5 in *. cbn [proposal p_exchanges p_exchanges_size p_ciphers p_ciphers_size p_hashes p_hashes_size] in *.
  rewrite (chosen_first _ _ _ SupportedExchanges (txt "P-256")) by done. cbn [rbind]. unfold session. rewrite Hs. cbn [rbind].
  rewrite (chosen_first _ _ _ SupportedCiphers (txt "AES-256")) by done. cbn [rbind].
  rewrite (chosen_first _ _ _ SupportedHashes (txt "SHA256")) by done. done.
Qed.
End parts.

(** ** The parts on a socket *)
Section steps.
Context {M : Malloc} {Hm : MallocOk M} {B : Mbedtls} {L : MbedtlsOk B}.

Definition sock (h : Handshake) : Socket := ctx_socket (hs_context h).

(** a handshake in progress, with this session *)
Definition running (h : Handshake) (s : Session) : Prop :=
  hs_session h = Some s /\ Forall calm (acceptances (sock h)) /\ readable (sock h) /\ 0 < socket_descriptor (sock h) /\ peers_ok (hs_peerstore h).

(** what was sent and read from one state to another *)
Definition moved (h h' : Handshake) (out inn : bytes) : Prop :=
  sent (sock h') = sent (sock h) ++ out /\ socket_incoming (sock h) = inn ++ socket_incoming (sock h').

Lemma moved_none h h' : sock h' = sock h -> moved h h' [] [].
Proof. intros E. unfold moved. by rewrite E, app_nil_r. Qed.
Lemma moved_trans h1 h2 h3 o1 i1 o2 i2 : moved h1 h2 o1 i1 -> moved h2 h3 o2 i2 -> moved h1 h3 (o1 ++ o2) (i1 ++ i2).
Proof. intros [E1 F1] [E2 F2]. unfold moved. by rewrite E2, E1, F1, F2, <- !app_assoc. Qed.

Lemma send_bytes_ok h s d n : running h s -> 0 < n <= zlen d -> n < 2 ^ 31 ->
  exists h', send_bytes h d n = Ret (true, h') /\ running h' s /\ moved h h' (secio_frame (ztake n d)) [].
Proof using.
  intros (Hs & Hc & Hr & Hd & Hp) Hn Hl. unfold send_bytes, on_socket.
  destruct (unencrypted_write_size (sock h) d n 0 Hc) as (s' & E & Hc' & Ha' & Hd' & Hs'); [lia|lia|]. unfold sock in E. rewrite E. cbn [rbind].
  rewrite u64_small by lia. rewrite (proj2 (Z.eqb_eq n n)) by done. eexists. split; [done|].
  unfold running, moved, readable, socket_incoming, sock in *. cbn. rewrite Ha', Hd', Hs'. by split_and!.
Qed.

(** a frame that comes *)
Definition read_frame (h : Handshake) : res (Z * option StreamMessage * Handshake) :=
  on_socket h (fun s => let! (n, msg, s) := libp2p_secio_unencrypted_read s 10 in Ret (n, msg, s)).
Lemma read_frame_ok h s m rest : running h s -> 0 < zlen m < 2 ^ 31 -> socket_incoming (sock h) = secio_frame m ++ rest ->
  exists h', read_frame h = Ret (zlen m, Some (stream_message m), h') /\ running h' s /\ moved h h' [] (secio_frame m) /\ socket_incoming (sock h') = rest.
Proof using Hm.
  intros (Hs & Hc & Hr & Hd & Hp) Hl Hi. unfold read_frame, on_socket.
  destruct (unencrypted_read_good (sock h) m rest 10 Hr Hd Hl Hi) as (s' & E & Hr' & Hi' & Hs' & Hd' & Hc'). unfold sock in E. rewrite E. cbn [rbind].
  eexists. split; [done|]. unfold running, moved, sock in *. cbn. rewrite Hi, Hi', Hs', Hd', Hc', app_nil_r. by split_and!.
Qed.

Lemma with_session_running h s s' : running h s -> running (with_session h s') s' /\ moved h (with_session h s') [] [].
Proof. intros (_ & H). split; [by split|by apply moved_none]. Qed.

(** what a party sends first *)
Definition wire (p : party) : bytes := propose_wire (proposal p).

Lemma wire_length p : party_ok p -> 0 < zlen (wire p) < 2 ^ 31.
Proof.
  intros Hp. pose proof (propose_length _ (proposal_ok p Hp)) as Hl. unfold INT_MAX in Hl. split; [|unfold wire; lia].
  assert (forall f d, 1 <= zlen (bytes_field f d)) as Hf.
  { intros f d. unfold bytes_field. rewrite !zlen_app. pose proof (varint_bytes_pos (zlen d)). zlen_facts. lia. }
  unfold wire, propose_wire. rewrite zlen_app. pose proof (Hf 1 (field_bytes (p_rand (proposal p)) (p_rand_size (proposal p)))). zlen_facts. lia.
Qed.

Lemma send_propose_ok p h s : party_ok p -> running h s ->
  exists q out h', send_propose (pa_key p) (pa_nonce p) h = Ret (Some (q, out, zlen (wire p)), h') /\ same_fields q (proposal p) /\
    (exists rest, out = wire p ++ rest) /\ running h' (set_nonces s (pa_nonce p) (remote_nonce s)) /\ moved h h' (secio_frame (wire p)) [].
Proof using Hm.
  intros Hp Hr. pose proof Hr as (Hs & _). unfold send_propose, session. rewrite Hs. cbn [rbind].
  destruct (propose_build_ok p Hp) as (q & -> & Hq). cbn [rbind]. rewrite malloc_always.
  pose proof Hq as (Hok & _). pose proof (propose_length q Hok) as Hl. destruct (same_wire q (proposal p) Hq) as [Hw _]. fold (wire p) in Hw.
  pose proof (wire_length p Hp) as Hwl. zlen_facts. rewrite (propose_emits q Hok) by (rewrite ?zlen_fresh; lia). cbn [rbind]. change (1 =? 0) with false. cbv iota.
  rewrite Hw in *. destruct (with_session_running h s (set_nonces s (pa_nonce p) (remote_nonce s)) Hr) as [Hr1 _].
  set (out := wire p ++ _). destruct (send_bytes_ok (with_session h (set_nonces s (pa_nonce p) (remote_nonce s))) _ out (zlen (wire p)) Hr1) as (h' & -> & Hr' & Hmv).
  { unfold out. rewrite zlen_app. zlen_facts. lia. }
  { lia. }
  cbn [rbind]. exists q, out, h'. unfold out in *. rewrite ztake_app_len in Hmv. split_and!; try done. by eexists.
Qed.

(** the id of a party's key, whose hash has no zero byte *)
Definition key_hash (p : party) : bytes := sha256 (public_key_wire (rsa_public (pa_key p))).
Definition known_session (s : Session) (p : party) : Prop := remote_nonce s = pa_nonce p /\ remote_peer_id s = Some (peer_text (key_hash p) ++ [0; 0]).

Lemma peer_id_text p : party_ok p -> nonzero (key_hash p) ->
  libp2p_crypto_public_key_to_peer_id sha256 (rsa_public (pa_key p)) = Ret (1, Some (peer_text (key_hash p) ++ [0; 0])).
Proof using Hm L.
  intros (Hk & _) Hn. destruct (sha256_length (public_key_wire (rsa_public (pa_key p)))) as [Hb Hz].
  destruct (peer_id_ok sha256 _ (rsa_public_ok _ Hk) Hb Hz) as (d & Hd & ->). do 4 f_equal. unfold peer_text. f_equal.
  destruct (peer_digits (key_hash p) Hb Hz) as [Hs _]. eapply same_number_unique; [|exact Hs].
  unfold cut in Hd. rewrite c_str_nul in Hd by done. exact Hd.
Qed.

Lemma rsa_saved k : rsa_ok k -> public_key_saved (rsa_public k) = rsa_public k.
Proof.
  intros (_ & Hk & _). unfold public_key_saved, public_key_bytes, rsa_public. cbn [pk_type pk_data pk_data_size]. change (deref (Some ?x)) with x.
  by rewrite ztake_all by (rewrite zlen_take; lia).
Qed.

Lemma receive_propose_ok p h s rest : party_ok p -> nonzero (key_hash p) -> running h s -> host_ok s ->
  socket_incoming (sock h) = secio_frame (wire p) ++ rest ->
  exists pin pe h' s', receive_propose h = Ret (Some (pin, wire p, rsa_public (pa_key p), Some pe), h') /\ same_fields pin (proposal p) /\
    running h' s' /\ moved h h' [] (secio_frame (wire p)) /\ socket_incoming (sock h') = rest /\
    s' = set_peer_id (set_nonces s (local_nonce s) (pa_nonce p)) (Some (peer_text (key_hash p) ++ [0; 0])).
Proof using Hm L.
  intros Hp Hnz Hr Hh Hi. pose proof (wire_length p Hp) as Hwl. unfold receive_propose. fold (read_frame h).
  destruct (read_frame_ok h s (wire p) rest Hr Hwl Hi) as (h1 & -> & Hr1 & Hmv1 & Hi1). cbn [rbind]. zbool. unfold stream_message. cbn [sm_data sm_data_size].
  change (deref (Some ?x)) with x. rewrite copy_unchecked_ok by lia. cbn [rbind]. rewrite ztake_all by lia.
  pose proof (proposal_ok p Hp) as Hok. pose proof (propose_decode_wire (proposal p) [] Hok) as Ed. rewrite app_nil_r in Ed. fold (wire p) in Ed. rewrite Ed. cbn [rbind].
  destruct (saved_fields _ Hok) as (Hsok & E1 & E2 & Erest). pose proof (saved_fields _ Hok) as Hsf. rewrite E1. change (negb (p_rand_size (proposal p) =? 16)) with false. cbv iota.
  unfold session. destruct Hr1 as (Hs1 & Hr1). rewrite Hs1. cbn [rbind]. destruct Hp as (Hk & Hnb & Hn).
  set (kw := public_key_wire (rsa_public (pa_key p))) in *.
  assert (deref (p_rand (propose_saved (proposal p))) = pa_nonce p) as -> by (apply (ztake_all 16 (pa_nonce p)); lia).
  assert (deref (p_public_key (propose_saved (proposal p))) = kw) as -> by (apply (ztake_all (zlen kw) kw); lia).
  rewrite memrd_all by done. cbn [rbind]. rewrite E2. change (p_public_key_size (proposal p)) with (zlen kw).
  pose proof (public_key_decode_wire _ [] (rsa_public_ok _ Hk)) as Ek. rewrite app_nil_r in Ek. fold kw in Ek. rewrite Ek, rsa_saved by done. cbn [rbind].
  rewrite peer_id_text by (done || by repeat split). cbn [rbind]. change (1 =? 0) with false. cbv iota.
  set (s' := set_peer_id _ _). destruct (sha256_length (public_key_wire (rsa_public (pa_key p)))) as [Hb Hz].
  destruct (get_peer_or_add_ok (with_session h1 s') s' (key_hash p) [0]) as (pe & ps' & -> & Hps'); [done|done|done|done|exact Hh|apply Hr1|].
  cbn [rbind hs_context with_session]. do 4 eexists. split; [done|]. split; [done|]. split; [|split; [exact Hmv1|by split]].
  destruct Hr1 as (? & ? & ? & ?). by repeat split.
Qed.
End steps.

(** ** Exchanges *)
Section exchanges.
Context {M : Malloc} {Hm : MallocOk M} {B : Mbedtls} {L : MbedtlsOk B}.

(** what a party signs: both proposals and its ephemeral key *)
Definition signed (me other : party) : bytes := wire me ++ wire other ++ pair_public (pa_entropy me).
Definition signature (me other : party) : bytes :=
  match pk_parse_key (ztake (r_der_length (pa_key me)) (r_der (pa_key me))) with
  | Some ctx => default [] (rsassa_sign ctx (sha256 (signed me other)))
  | None => []
  end.
Definition exchange_of (me other : party) : Exchange :=
  mkExchange (Some (pair_public (pa_entropy me))) 65 (Some (signature me other)) (zlen (signature me other)).
Definition exchange_bytes (me other : party) : bytes := exchange_wire (exchange_of me other).
Definition ephemeral (me : party) : EphemeralPrivateKey := mkEphemeral (pair_ctx (pa_entropy me)) (65 :: pair_public (pa_entropy me)) 66 None 0.

Lemma signature_ok me other : party_ok me -> exists sctx vctx,
  pk_parse_key (ztake (r_der_length (pa_key me)) (r_der (pa_key me))) = Some sctx /\
  rsassa_sign sctx (sha256 (signed me other)) = Some (signature me other) /\
  pk_parse_public_key (deref (pk_data (rsa_public (pa_key me)))) = Some vctx /\ rsa_len vctx = zlen (signature me other) /\ zlen (signature me other) < 2 ^ 24 /\
  rsassa_verify vctx (sha256 (signed me other)) (signature me other) = true.
Proof.
  intros ((_ & _ & _ & sctx & vctx & Hs & Hv & Hn & Hsig) & _). unfold signature. rewrite Hs. destruct (Hsig (sha256 (signed me other))) as (sig & Es & Hl & Hok). rewrite Es.
  exists sctx, vctx. change (default [] (Some sig)) with sig. rewrite Hl. split_and!; try done; lia.
Qed.

Lemma exchange_of_ok me other : party_ok me -> exchange_ok (exchange_of me other).
Proof.
  intros Hp. destruct (signature_ok me other Hp) as (_ & _ & _ & _ & _ & _ & Hl & _). unfold exchange_ok, field_ok_size, exchange_of. cbn [x_epubkey x_epubkey_size x_signature x_signature_size].
  change (deref (Some ?x)) with x. rewrite pair_length. zlen_facts. lia.
Qed.

Lemma exchange_bytes_length me other : party_ok me -> 0 < zlen (exchange_bytes me other) < 2 ^ 31.
Proof.
  intros Hp. pose proof (exchange_length _ (exchange_of_ok me other Hp)) as Hl. unfold INT_MAX in Hl. split; [|unfold exchange_bytes; lia].
  unfold exchange_bytes, exchange_wire. rewrite zlen_app. unfold bytes_field at 1. rewrite !zlen_app. unfold exchange_of. cbn [x_epubkey x_epubkey_size].
  pose proof (varint_bytes_pos (zlen (field_bytes (Some (pair_public (pa_entropy me))) 65))). zlen_facts. lia.
Qed.

Lemma keypair_ok me : libp2p_crypto_ephemeral_keypair_generate (txt "P-256") (pa_entropy me) = Ret (Some (ephemeral me)).
Proof using Hm.
  unfold libp2p_crypto_ephemeral_keypair_generate. rewrite !malloc_always, seeded. cbn [negb andb].
  change (selected_curve (txt "P-256")) with MBEDTLS_ECP_DP_SECP256R1. rewrite p256_loaded, pair_made.
  assert (zlen (65 :: pair_public (pa_entropy me)) = 66) as H66 by (rewrite zlen_cons, pair_length; done).
  rewrite memwr_ok, H66 by (rewrite H66, zlen_fresh; lia). rewrite (zdrop_ge 66) by (rewrite zlen_fresh; lia). by rewrite app_nil_r.
Qed.

Lemma rsa_sign_ok me other : party_ok me ->
  libp2p_crypto_rsa_sign (r_der (pa_key me)) (r_der_length (pa_key me)) (signed me other) (zlen (signed me other)) = Ret (1, Some (signature me other)).
Proof using Hm.
  intros Hp. destruct (signature_ok me other Hp) as (sctx & vctx & Hk & Hs & _). destruct Hp as ((Hd & _) & _).
  unfold libp2p_crypto_rsa_sign, libp2p_crypto_hashing_sha256. rewrite memrd_all by done. cbn [rbind]. unfold rd. zbool.
  destruct (lookup_lt_is_Some_2 (r_der (pa_key me)) (Z.to_nat (r_der_length (pa_key me) - 1))) as [x Hx]; [unfold zlen in Hd; lia|]. rewrite Hx. cbn [rbind].
  rewrite malloc_always, andb_false_r, memrd_ok by lia. cbn [rbind]. by rewrite Hk, seeded, malloc_always, Hs.
Qed.

Lemma exchange_build_ok me other : party_ok me ->
  libp2p_secio_exchange_build libp2p_crypto_rsa_sign (65 :: pair_public (pa_entropy me)) 66 (r_der (pa_key me)) (r_der_length (pa_key me)) (signed me other) (zlen (signed me other)) =
    Ret (Some (exchange_of me other)).
Proof using Hm.
  intros Hp. unfold libp2p_secio_exchange_build, libp2p_secio_exchange_new, libp2p_crypto_private_key_new. rewrite !malloc_always.
  change (u64 (66 - 1)) with 65. pose proof (pair_length (pa_entropy me)) as Hl. zlen_facts. rewrite padd_ok by (rewrite zlen_cons; lia). cbn [rbind].
  change (zdrop 1 (65 :: pair_public (pa_entropy me))) with (pair_public (pa_entropy me)). rewrite memrd_all by done. cbn [rbind].
  unfold libp2p_secio_sign. cbn [sk_type sk_data sk_data_size]. change (KEYTYPE_RSA =? KEYTYPE_RSA) with true. cbv iota. change (deref (Some ?x)) with x.
  rewrite rsa_sign_ok by done. done.
Qed.

Lemma send_exchange_ok me other h s rest : party_ok me -> party_ok other -> running h s -> chosen_curve s = Some (txt "P-256") ->
  exists h', send_exchange (pa_key me) (pa_entropy me) (wire me ++ rest) (wire other) (zlen (wire me)) (zlen (wire other)) h = Ret (Some (ephemeral me), h') /\
    running h' (set_ephemeral s (Some (ephemeral me))) /\ moved h h' (secio_frame (exchange_bytes me other)) [].
Proof using Hm.
  intros Hme Hot Hr Hc. pose proof (wire_length me Hme). pose proof (wire_length other Hot). unfold send_exchange, session. destruct Hr as (Hs & Hr). rewrite Hs. cbn [rbind].
  rewrite Hc. change (deref (Some ?x)) with x. rewrite keypair_ok. cbn [rbind ephemeral e_bytes_size e_bytes]. rewrite u64_small by lia. rewrite malloc_always.
  rewrite memrd_app by done. cbn [rbind]. rewrite memrd_all by done. cbn [rbind]. pose proof (pair_length (pa_entropy me)) as Hl.
  rewrite padd_ok by (rewrite zlen_cons; lia). cbn [rbind]. change (u64 (66 - 1)) with 65. change (zdrop 1 (65 :: pair_public (pa_entropy me))) with (pair_public (pa_entropy me)).
  rewrite memrd_all by done. cbn [rbind].
  replace (zlen (wire other) + zlen (wire me) + 66 - 1) with (zlen (signed me other)) by (unfold signed; rewrite !zlen_app; lia).
  change (wire me ++ wire other ++ pair_public (pa_entropy me)) with (signed me other). rewrite exchange_build_ok by done. cbn [rbind]. rewrite malloc_always.
  pose proof (exchange_of_ok me other Hme) as Hok. pose proof (exchange_length _ Hok) as Hxl. pose proof (exchange_bytes_length me other Hme) as Hxb. unfold exchange_bytes in *. zlen_facts.
  rewrite (exchange_emits _ Hok) by (rewrite ?zlen_fresh; lia). cbn [rbind]. fold (ephemeral me). set (s' := set_ephemeral s (Some (ephemeral me))).
  set (out := exchange_wire _ ++ _). destruct (send_bytes_ok (with_session h s') s' out (zlen (exchange_wire (exchange_of me other)))) as (h' & -> & Hr' & Hmv).
  { split; [done|exact Hr]. }
  { unfold out. rewrite zlen_app. zlen_facts. lia. }
  { lia. }
  cbn [rbind]. exists h'. unfold out in Hmv. rewrite ztake_app_len in Hmv. by split_and!.
Qed.

Lemma receive_exchange_ok me other h s pe rest : party_ok other -> running h s -> socket_incoming (sock h) = secio_frame (exchange_bytes other me) ++ rest ->
  exists h', receive_exchange pe h = Ret (Some (exchange_of other me, 65 :: pair_public (pa_entropy other)), h') /\ running h' s /\
    moved h h' [] (secio_frame (exchange_bytes other me)) /\ socket_incoming (sock h') = rest.
Proof using Hm.
  intros Hp Hr Hi. unfold receive_exchange. fold (read_frame h). pose proof (exchange_bytes_length other me Hp) as Hl.
  destruct (read_frame_ok h s _ rest Hr Hl Hi) as (h' & -> & Hr' & Hmv & Hi'). cbn [rbind]. zbool. unfold stream_message. cbn [sm_data sm_data_size].
  change (deref (Some ?x)) with x. pose proof (exchange_of_ok other me Hp) as Hok.
  pose proof (exchange_decode_wire _ [] Hok) as Ed. rewrite app_nil_r in Ed. fold (exchange_bytes other me) in Ed. rewrite Ed. cbn [rbind].
  assert (exchange_saved (exchange_of other me) = exchange_of other me) as ->.
  { unfold exchange_saved, exchange_of, field_bytes. cbn [x_epubkey x_epubkey_size x_signature x_signature_size]. change (deref (Some ?x)) with x.
    rewrite !ztake_all by (rewrite ?pair_length; lia). done. }
  rewrite malloc_always. cbn [exchange_of x_epubkey x_epubkey_size]. change (deref (Some ?x)) with x. rewrite memrd_all by (by rewrite pair_length). cbn [rbind].
  change (u8 65) with 65. by exists h'.
Qed.
End exchanges.

(** ** Keys and nonces *)
Section secrets.
Context {M : Malloc} {Hm : MallocOk M} {B : Mbedtls} {L : MbedtlsOk B}.

(** the two keys of a pair, in the order of the stretching *)
Definition stretched (e f : bytes) (k1 k2 : StretchedKey) : Prop :=
  libp2p_secio_stretch_keys hmac (txt "AES-256") (secret e f) (zlen (secret e f)) = Ret (Some (k1, k2)).

Lemma stretched_exist e f : exists k1 k2, stretched e f k1 k2 /\ key_ok k1 /\ key_ok k2.
Proof using Hm L.
  destruct (stretch_keys_ok hmac hmac_length (txt "AES-256") (secret e f) 16 32 eq_refl) as (k1 & k2 & E & _ & HF).
  apply Forall_cons in HF as [(I1 & C1 & S1 & M1 & Z1) HF]. apply Forall_cons in HF as [(I2 & C2 & S2 & M2 & Z2) _].
  exists k1, k2. split_and!; [done|apply (stretched_key_ok k1 32); auto|apply (stretched_key_ok k2 32); auto].
Qed.

(** the cipher of a side *)
Definition session_cipher (order : Z) (k1 k2 : StretchedKey) : Cipher :=
  if 0 <? order then libp2p_secio_initialize_crypto k1 k2 else libp2p_secio_initialize_crypto k2 k1.

Lemma verify_ok me other : party_ok other ->
  libp2p_secio_verify_signature (rsa_public (pa_key other)) (signed other me) (zlen (signed other me)) (Some (signature other me)) = Ret 1.
Proof.
  intros Hp. destruct (signature_ok other me Hp) as (_ & vctx & _ & _ & Hv & Hl & _ & Hok). destruct Hp as ((_ & Hk & _) & _).
  unfold libp2p_secio_verify_signature, libp2p_crypto_rsa_verify, libp2p_crypto_hashing_sha256. change (pk_type _ =? KEYTYPE_RSA) with true. cbv iota.
  rewrite memrd_all by done. cbn [rbind]. cbn [rsa_public pk_data pk_data_size] in *. change (deref (Some ?x)) with x in *.
  rewrite memrd_all by (by rewrite zlen_take). cbn [rbind]. rewrite Hv, memrd_all by done. cbn [rbind]. by rewrite Hok.
Qed.

Lemma shared_secret_ok me other : exists c b,
  libp2p_crypto_ephemeral_generate_shared_secret (ephemeral me) (65 :: pair_public (pa_entropy other)) 66 =
    Ret (1, mkEphemeral c (65 :: pair_public (pa_entropy me)) 66 (Some (secret (pa_entropy me) (pa_entropy other) ++ b)) (zlen (secret (pa_entropy me) (pa_entropy other)))).
Proof using Hm.
  unfold libp2p_crypto_ephemeral_generate_shared_secret. rewrite seeded. cbn [negb]. rewrite memrd_all by (by rewrite zlen_cons, pair_length). cbn [rbind].
  destruct (secret_made (pa_entropy me) (pa_entropy other)) as (c & Hc & Hs). cbn [ephemeral e_ctx]. rewrite Hc, malloc_always, Hs.
  rewrite memwr_ok by (rewrite zlen_fresh; [apply secret_length|lia]). by do 2 eexists.
Qed.

Lemma make_keys_ok me other order h s rest k1 k2 : party_ok me -> party_ok other -> running h s ->
  chosen_cipher s = Some (txt "AES-256") -> chosen_hash s = Some (txt "SHA256") -> stretched (pa_entropy me) (pa_entropy other) k1 k2 ->
  exists h' s', make_keys order (exchange_of other me) (65 :: pair_public (pa_entropy other)) (ephemeral me) (rsa_public (pa_key other))
      (wire me ++ rest) (wire other) (zlen (wire me)) (zlen (wire other)) h = Ret (Some (session_cipher order k1 k2), h') /\
    running h' s' /\ moved h h' [] [] /\ local_nonce s' = local_nonce s /\ remote_nonce s' = remote_nonce s /\ remote_peer_id s' = remote_peer_id s.
Proof using Hm L.
  intros Hme Hot Hr Hci Hha Hk. pose proof (wire_length me Hme). pose proof (wire_length other Hot). pose proof (pair_length (pa_entropy other)) as Hl.
  unfold make_keys, session. destruct Hr as (Hs & Hr). rewrite Hs. cbn [rbind exchange_of x_epubkey_size x_signature]. change (u64 (65 + 1)) with 66.
  rewrite malloc_always. cbn [negb]. rewrite memrd_all by done. cbn [rbind]. rewrite memrd_app by done. cbn [rbind]. rewrite padd_ok by (rewrite zlen_cons; lia). cbn [rbind].
  change (zdrop 1 (65 :: pair_public (pa_entropy other))) with (pair_public (pa_entropy other)). change (u64 (66 - 1)) with 65. rewrite memrd_all by done. cbn [rbind].
  rewrite u64_small by lia. replace (zlen (wire other) + zlen (wire me) + 66 - 1) with (zlen (signed other me)) by (unfold signed; rewrite !zlen_app; lia).
  change (wire other ++ wire me ++ pair_public (pa_entropy other)) with (signed other me). rewrite verify_ok by done. cbn [rbind]. change (1 =? 0) with false. cbv iota.
  destruct (shared_secret_ok me other) as (c & b & ->). cbn [rbind]. change (1 =? 0) with false. cbv iota. cbn [e_shared_key e_shared_key_size]. change (deref (Some ?x)) with x.
  rewrite copy_unchecked_ok by (rewrite zlen_app; zlen_facts; lia). cbn [rbind]. rewrite ztake_app_len, Hci, Hha. change (deref (Some ?x)) with x.
  unfold stretched in Hk. rewrite Hk. cbn [rbind]. unfold session_cipher.
  destruct (0 <? order); (do 2 eexists; split; [done|]; split; [split; [done|exact Hr]|]; by split_and!; [apply moved_none|..]).
Qed.

Definition has_cipher (h : Handshake) (c : Cipher) : Prop := ctx_status (hs_context h) = secio_status_ack /\ ctx_cipher (hs_context h) = Some c.

Lemma check_nonces_ok h s c c1 c2 mine theirs rest : running h s -> has_cipher h c -> zlen (remote_nonce s) = 16 -> zlen (local_nonce s) = 16 ->
  libp2p_secio_encrypt hmac aes_crypt_ecb c (remote_nonce s) 16 = Ret (c1, Some mine) -> zlen mine = 48 ->
  libp2p_secio_decrypt hmac aes_crypt_ecb c1 theirs 48 = Ret (c2, 16, Some (local_nonce s)) -> zlen theirs = 48 ->
  socket_incoming (sock h) = secio_frame theirs ++ rest ->
  exists h', check_nonces h = Ret (1, h') /\ running h' s /\ moved h h' (secio_frame mine) (secio_frame theirs) /\ socket_incoming (sock h') = rest /\ has_cipher h' c2.
Proof using Hm.
  intros (Hs & Hc & Hr & Hd & Hp) (Hst & Hci) Hrn Hln He Hm48 Hde Ht48 Hi. unfold check_nonces, session. rewrite Hs. cbn [rbind].
  destruct (unencrypted_write_calm (sock h) mine Hc) as (s1 & W & Hc1 & Ha1 & Hd1 & Hs1); [lia|]. rewrite Hm48 in W.
  unfold libp2p_secio_encrypted_write. rewrite Hst, Hci. change (negb (secio_status_ack =? secio_status_ack)) with false. cbv iota. cbn [sm_data sm_data_size].
  change (deref (Some ?x)) with x. rewrite He. cbn [rbind]. change (ctx_socket (with_cipher (hs_context h) c1)) with (sock h). rewrite W. cbn [rbind]. change (48 <=? 0) with false. cbv iota.
  destruct (unencrypted_read_good s1 theirs rest 10) as (s2 & R & Hr2 & Hi2 & Hs2 & Hd2 & Hc2); [by unfold readable; rewrite Ha1|lia|lia|by unfold socket_incoming; rewrite Ha1|].
  unfold libp2p_secio_encrypted_read. cbn [ctx_status with_socket with_cipher ctx_socket ctx_cipher]. rewrite Hst. change (negb (secio_status_ack =? secio_status_ack)) with false. cbv iota.
  rewrite R, Ht48. cbn [rbind]. change (48 =? 0) with false. cbv iota. unfold stream_message. cbn [sm_data sm_data_size ctx_cipher]. change (deref (Some ?x)) with x. rewrite Ht48, Hde. cbn [rbind fmap option_fmap option_map].
  change (16 <=? 0) with false. cbv iota. unfold stream_message. cbn [sm_data_size sm_data]. rewrite Hln. change (negb (16 =? 16)) with false. cbv iota. change (deref (Some ?x)) with x.
  rewrite bytes_compare_lex by (unfold zlen in Hln; lia). rewrite lex_refl. cbn [rbind]. eexists. split; [done|].
  unfold running, moved, has_cipher, readable, sock in *. cbn. rewrite Hs2, Hs1, Hi2, Hc2, Hd2, Hd1. unfold sock in Hi. by split_and!.
Qed.
End secrets.

(** ** One side, and both *)
Section handshake.
Context {M : Malloc} {Hm : MallocOk M} {B : Mbedtls} {L : MbedtlsOk B}.

(** a side that is ready for the other one *)
Definition ready (h : Handshake) : Prop := exists s, running h s /\ host_ok s.

(** the three frames of a side *)
Definition conversation (me other : party) (last : bytes) : bytes :=
  secio_frame (wire me) ++ secio_frame (exchange_bytes me other) ++ secio_frame last.

Definition talks_to (h : Handshake) (other : party) (c : Cipher) : Prop :=
  has_cipher h c /\ exists s, running h s /\ remote_nonce s = pa_nonce other /\ remote_peer_id s = Some (peer_text (key_hash other) ++ [0; 0]).

Lemma one_side me other h k1 k2 c1 c2 mine theirs rest : party_ok me -> party_ok other -> nonzero (key_hash other) -> pair_order other me <> 0 ->
  ready h -> stretched (pa_entropy me) (pa_entropy other) k1 k2 ->
  libp2p_secio_encrypt hmac aes_crypt_ecb (session_cipher (pair_order other me) k1 k2) (pa_nonce other) 16 = Ret (c1, Some mine) -> zlen mine = 48 ->
  libp2p_secio_decrypt hmac aes_crypt_ecb c1 theirs 48 = Ret (c2, 16, Some (pa_nonce me)) -> zlen theirs = 48 ->
  socket_incoming (sock h) = conversation other me theirs ++ rest ->
  exists h', libp2p_secio_handshake (pa_key me) (pa_nonce me) (pa_entropy me) h = Ret (1, h') /\
    sent (sock h') = sent (sock h) ++ conversation me other mine /\ socket_incoming (sock h') = rest /\ talks_to h' other c2.
Proof using Hm L.
  intros Hme Hot Hnz Hne (s & Hr & Hh) Hk He Hm48 Hde Ht48 Hi. unfold conversation in Hi. rewrite <- !app_assoc in Hi. unfold libp2p_secio_handshake.
  destruct (send_propose_ok me h s Hme Hr) as (q & out & h1 & -> & Hq & (r1 & ->) & Hr1 & [S1 I1]). cbn [rbind]. cbn [app] in I1. rewrite Hi in I1. symmetry in I1.
  destruct (receive_propose_ok other h1 _ _ Hot Hnz Hr1 Hh I1) as (pin & pe & h2 & s2 & -> & Hpin & Hr2 & [S2 _] & I2 & Es2). cbn [rbind].
  rewrite (choose_ok me other pin q h2 s2 Hpin Hq Hne) by apply Hr2. cbn [rbind negb]. set (s3 := set_chosen s2 _ _ _).
  destruct (with_session_running h2 s2 s3 Hr2) as [Hr3 _].
  destruct (send_exchange_ok me other (with_session h2 s3) s3 r1 Hme Hot Hr3 eq_refl) as (h4 & -> & Hr4 & [S4 I4]). cbn [rbind]. cbn [app] in I4.
  change (sock (with_session h2 s3)) with (sock h2) in *. rewrite I2 in I4. symmetry in I4.
  destruct (receive_exchange_ok me other h4 _ (Some pe) _ Hot Hr4 I4) as (h5 & -> & Hr5 & [S5 _] & I5). cbn [rbind].
  destruct (make_keys_ok me other (pair_order other me) h5 _ r1 k1 k2 Hme Hot Hr5 eq_refl eq_refl Hk) as (h6 & s6 & -> & Hr6 & [S6 I6] & L6 & R6 & P6). cbn [rbind].
  set (c := session_cipher _ k1 k2) in *. set (h7 := acknowledged h6 c).
  cbn [set_ephemeral local_nonce remote_nonce remote_peer_id] in L6, R6, P6. unfold s3 in L6, R6, P6. subst s2. cbn [set_chosen set_peer_id set_nonces local_nonce remote_nonce remote_peer_id] in L6, R6, P6.
  pose proof Hme as (_ & _ & Hn1). pose proof Hot as (_ & _ & Hn2).
  destruct (check_nonces_ok h7 s6 c c1 c2 mine theirs rest) as (h8 & -> & Hr8 & [S8 _] & I8 & Hc8); try done; rewrite ?R6, ?L6; try done.
  { change (sock h7) with (sock h6). cbn [app] in I6. by rewrite <- I6. }
  exists h8. split; [done|]. split; [|split; [done|split; [done|by exists s6]]].
  rewrite S8. change (sock h7) with (sock h6). rewrite S6, S5, S4, S2, S1, !app_nil_r. unfold conversation. by rewrite <- !app_assoc.
Qed.
End handshake.

Lemma session_ciphers order k1 k2 : order <> 0 -> key_ok k1 -> key_ok k2 ->
  let ca := session_cipher order k1 k2 in let cb := session_cipher (- order) k1 k2 in
  encode_ok ca /\ encode_ok cb /\ paired ca cb /\ paired cb ca.
Proof.
  intros Ho K1 K2 ca cb. unfold ca, cb, session_cipher, encode_ok, paired.
  destruct (Z.ltb_spec 0 order), (Z.ltb_spec 0 (- order)); try lia; cbn; by split_and!.
Qed.

(** the ends of the exchange of nonces, in both directions *)
Lemma nonces_crossed {M : Malloc} {Hm : MallocOk M} {B : Mbedtls} {L : MbedtlsOk B} ca cb m n : encode_ok ca -> encode_ok cb -> paired ca cb -> paired cb ca ->
  is_bytes m -> is_bytes n -> zlen m = 16 -> zlen n = 16 ->
  exists ca1 cb1 ca2 cb2 fa fb,
    libp2p_secio_encrypt hmac aes_crypt_ecb ca n 16 = Ret (ca1, Some fa) /\ zlen fa = 48 /\
    libp2p_secio_encrypt hmac aes_crypt_ecb cb m 16 = Ret (cb1, Some fb) /\ zlen fb = 48 /\
    libp2p_secio_decrypt hmac aes_crypt_ecb ca1 fb 48 = Ret (ca2, 16, Some m) /\
    libp2p_secio_decrypt hmac aes_crypt_ecb cb1 fa 48 = Ret (cb2, 16, Some n) /\
    encode_ok ca2 /\ encode_ok cb2 /\ paired ca2 cb2 /\ paired cb2 ca2.
Proof.
  intros Ea Eb Pab Pba Hm' Hn' Lm Ln. destruct Pab as (A1 & A2 & A3), Pba as (B1 & B2 & B3).
  destruct (encrypt_decrypt aes_crypt_ecb hmac aes_length hmac_length ca cb n Ea) as (ca1 & _ & fa & Fa & La & _ & Ea1 & _ & (Ra1 & Ra2 & Ra3) & _); [done|done|lia|].
  destruct (encrypt_decrypt aes_crypt_ecb hmac aes_length hmac_length cb ca m Eb) as (cb1 & _ & fb & Fb & Lb & _ & Eb1 & _ & (Rb1 & Rb2 & Rb3) & _); [done|done|lia|].
  destruct (encrypt_decrypt aes_crypt_ecb hmac aes_length hmac_length ca cb1 n Ea) as (ca1' & cb2 & fa' & Fa' & _ & Da & _ & (Q1 & Q2 & Q3) & _ & (T1 & T2 & T3)); [split; [|split]; congruence|done|lia|].
  destruct (encrypt_decrypt aes_crypt_ecb hmac aes_length hmac_length cb ca1 m Eb) as (cb1' & ca2 & fb' & Fb' & _ & Db & _ & (V1 & V2 & V3) & _ & (U1 & U2 & U3)); [split; [|split]; congruence|done|lia|].
  rewrite Fa in Fa'. injection Fa' as <- <-. rewrite Fb in Fb'. injection Fb' as <- <-.
  rewrite Ln in *. rewrite Lm in *. rewrite La in Da. rewrite Lb in Db. exists ca1, cb1, ca2, cb2, fa, fb.
  unfold encode_ok, paired in *. rewrite T1, T2, T3, U1, U2, U3. split_and!; try done; try congruence; (apply Ea1 || apply Eb1).
Qed.

(** ** Properties *)

(** Property C6.  Two sides whose keys and library work, with nonces and keys that give
    an order, complete the handshake when each receives what the other one sends: both
    return 1, know the other's id and nonce, and have ciphers with which each can read
    what the other one writes. *)
Theorem secio_handshake_completes {M : Malloc} {Hm : MallocOk M} {B : Mbedtls} {L : MbedtlsOk B} (a b : party) :
  party_ok a -> party_ok b -> nonzero (key_hash a) -> nonzero (key_hash b) -> pair_order b a <> 0 ->
  exists wire_a wire_b ca cb, forall ha hb resta restb, ready ha -> ready hb ->
    socket_incoming (sock ha) = wire_b ++ resta -> socket_incoming (sock hb) = wire_a ++ restb ->
    exists ha' hb', libp2p_secio_handshake (pa_key a) (pa_nonce a) (pa_entropy a) ha = Ret (1, ha') /\
      libp2p_secio_handshake (pa_key b) (pa_nonce b) (pa_entropy b) hb = Ret (1, hb') /\
      sent (sock ha') = sent (sock ha) ++ wire_a /\ sent (sock hb') = sent (sock hb) ++ wire_b /\
      socket_incoming (sock ha') = resta /\ socket_incoming (sock hb') = restb /\
      talks_to ha' b ca /\ talks_to hb' a cb /\ paired ca cb /\ paired cb ca /\ encode_ok ca /\ encode_ok cb.
Proof.
  intros Ha Hb Hza Hzb Hne. destruct (stretched_exist (pa_entropy a) (pa_entropy b)) as (k1 & k2 & Hk & K1 & K2).
  assert (stretched (pa_entropy b) (pa_entropy a) k1 k2) as Hk' by (unfold stretched; by rewrite secret_symmetric).
  destruct (session_ciphers (pair_order b a) k1 k2 Hne K1 K2) as (Ea & Eb & Pab & Pba). rewrite <- pair_order_opposite in Eb, Pab, Pba.
  pose proof Ha as (_ & Bna & Lna). pose proof Hb as (_ & Bnb & Lnb).
  destruct (nonces_crossed _ _ (pa_nonce a) (pa_nonce b) Ea Eb Pab Pba Bna Bnb Lna Lnb) as (ca1 & cb1 & ca2 & cb2 & fa & fb & Fa & La & Fb & Lb & Da & Db & Ea2 & Eb2 & P1 & P2).
  assert (pair_order a b <> 0) as Hne' by (rewrite pair_order_opposite; lia).
  exists (conversation a b fa), (conversation b a fb), ca2, cb2. intros ha hb resta restb Ra Rb Ia Ib.
  destruct (one_side a b ha k1 k2 ca1 ca2 fa fb resta) as (ha' & Ha1 & Ha2 & Ha3 & Ha4); [done..|].
  destruct (one_side b a hb k1 k2 cb1 cb2 fb fa restb) as (hb' & Hb1 & Hb2 & Hb3 & Hb4); [done..|].
  exists ha', hb'. by split_and!.
Qed.

(** a library of toys with which the laws hold *)
Definition toy_sha (m : bytes) : bytes := replicate 31 1 ++ [1 + (num 256 m mod 255)].
Definition toy_public (e : bytes) : bytes := ztake 65 (e ++ replicate 65 0).
Definition toy_library : Mbedtls := {|
  rsa_ctx := bytes;
  pk_parse_key := Some;
  pk_parse_public_key := Some;
  rsa_len := fun _ => 32;
  rsassa_sign := fun _ h => Some (ex_sha h);
  rsassa_verify := fun _ h s => bool_decide (s = ex_sha h);
  ecdh_ctx := bytes;
  ctr_drbg_seed := true;
  ecp_group_load := fun i => if i =? MBEDTLS_ECP_DP_SECP256R1 then Some [] else None;
  ecdh_make_public := fun _ n e => if 66 <=? n then Some (toy_public e, 65 :: toy_public e) else None;
  ecdh_read_public := fun c b => Some (zip_with Z.lxor c (zdrop 1 b));
  ecdh_calc_secret := fun c n => if zlen c <=? n then Some c else None;
  sha256 := toy_sha;
  hmac := ex_hmac;
  aes_crypt_ecb := ex_aes
|}.

Lemma toy_public_length e : zlen (toy_public e) = 65.
Proof. unfold toy_public. rewrite zlen_take; [done|]. rewrite zlen_app. change (zlen (replicate 65 0)) with 65. zlen_facts. lia. Qed.
Lemma toy_secret_length e f : zlen (zip_with Z.lxor (toy_public e) (toy_public f)) = 65.
Proof.
  pose proof (toy_public_length e). pose proof (toy_public_length f). unfold zlen in *. rewrite length_zip_with. lia.
Qed.

#[refine] Instance toy_library_ok : MbedtlsOk toy_library := {|
  p256 := [] : @ecdh_ctx toy_library;
  pair_ctx := toy_public : bytes -> @ecdh_ctx toy_library;
  pair_public := toy_public;
  secret e f := zip_with Z.lxor (toy_public e) (toy_public f)
|}.
Proof.
  - intros m. split; [|done]. apply Forall_app. split; [by repeat constructor|]. repeat constructor; pose proof (Z.mod_pos_bound (num 256 m) 255); lia.
  - intros k m. apply ex_sha_length.
  - exact ex_aes_length.
  - done.
  - done.
  - done.
  - exact toy_public_length.
  - intros e f. exists (zip_with Z.lxor (toy_public e) (toy_public f)). split; [done|]. cbn [toy_library ecdh_calc_secret].
    rewrite toy_secret_length. done.
  - intros e f. generalize (toy_public e), (toy_public f). intros l; induction l as [|x l IH]; intros [|y k]; cbn; [done..|]. by rewrite Z.lxor_comm, IH.
  - intros e f. rewrite toy_secret_length. lia.
Qed.

Definition ex_rsa (x : Z) : RsaPrivateKey := mkRsa [x; x; 0] 3 [x; 2; 3] 3.
Definition ex_party (x : Z) : party := mkParty (ex_rsa x) (replicate 16 x) [x].
Lemma ex_rsa_ok x : @rsa_ok toy_library (ex_rsa x).
Proof.
  unfold rsa_ok. cbn [ex_rsa r_der_length r_der r_public_key_length r_public_key_der]. split; [done|]. split; [done|]. split; [done|].
  do 2 eexists. split; [done|]. split; [done|]. split; [done|]. intros h. exists (ex_sha h). split; [done|]. split; [apply ex_sha_length|].
  by apply bool_decide_eq_true_2.
Qed.

Definition ex_handshake (l : list acceptance) (incoming : bytes) : @Handshake toy_library :=
  mkHandshake (mkSecio (mkSocket 3 [Arrived (incoming ++ [0])] l 0 [] 0) 0 None None NOTHING_BUFFERED)
    (Some (mkSession (txt "10.0.0.7" ++ [0]) 4001 true [] [] None None None None None [] None)) None.

Lemma secio_handshake_completes_witness :
  let M := malloc_total in let B := toy_library in let a := ex_party 7 in let b := ex_party 9 in
  exists ha hb ha' hb' ca cb, libp2p_secio_handshake (pa_key a) (pa_nonce a) (pa_entropy a) ha = Ret (1, ha') /\
    libp2p_secio_handshake (pa_key b) (pa_nonce b) (pa_entropy b) hb = Ret (1, hb') /\
    socket_incoming (sock ha) = sent (sock hb') ++ [0] /\ socket_incoming (sock hb) = sent (sock ha') ++ [0] /\
    talks_to ha' b ca /\ talks_to hb' a cb /\ paired ca cb /\ paired cb ca.
Proof.
  cbv zeta. destruct (secio_handshake_completes (M := malloc_total) (L := toy_library_ok) (ex_party 7) (ex_party 9)) as (wa & wb & ca & cb & H).
  - split; [apply ex_rsa_ok|]. split; [by repeat constructor|done].
  - split; [apply ex_rsa_ok|]. split; [by repeat constructor|done].
  - vm_compute. by repeat constructor.
  - vm_compute. by repeat constructor.
  - vm_compute. done.
  - assert (forall l m, Forall calm l -> @ready toy_library (ex_handshake l m)) as Hr.
    { intros l m Hl. eexists. split.
      { split; [done|]. split; [exact Hl|]. split; [|by split]. repeat constructor. cbn. rewrite zlen_app. change (zlen [0]) with 1. zlen_facts. lia. }
      exists 10, 0, 0, 7. by repeat constructor. }
    destruct (H (ex_handshake [Accepts 4; Refuses EAGAIN] wb) (ex_handshake [] wa) [0] [0]) as (ha' & hb' & R).
    + apply Hr. by repeat constructor.
    + by apply Hr.
    + apply app_nil_r.
    + apply app_nil_r.
    + exists (ex_handshake [Accepts 4; Refuses EAGAIN] wb), (ex_handshake [] wa), ha', hb', ca, cb.
      destruct R as (R1 & R2 & R3 & R4 & _ & _ & R5 & R6 & R7 & R8 & _). rewrite R3, R4. split_and!; try done; apply app_nil_r.
Defined.
