(* ===== verification/BitswapNetwork.v ===== *)
(** * Bitswap on the network (libipfs/exchange/bitswap/network.c, bitswap.c, engine.c)

    What a node sends to a peer and what a message of a peer does to it: blocks go into
    its stores and to the entries of its wantlist, wants into the queue of requests.  The
    functions of the exchange, and one turn of the thread that serves the wantlist. *)
From Stdlib Require Import String.
From S2P Require Import Prelude Varint Protobuf Multihash CString Cid Heap Block Vector Files Base32 Datastore Blockstore Multiaddr Peer Peerstore BitswapMessage BitswapFill PeerRequestQueue WantlistQueue.

Definition bitswap_header : bytes := Eval vm_compute in txt "/ipfs/bitswap/1.1.0" ++ [10].

(** what the functions use of a node: its block store (a directory) and datastore, the
    wantlist and the queue of its bitswap context, and its peers *)
Record BitswapNode (D : Type) := mkBitswapNode {
  nd_path : bytes;
  nd_files : files;
  nd_datastore : D;
  localWantlist : WantListQueue;
  peerRequestQueue : PeerRequestQueue;
  nd_peerstore : Peerstore
}.
Arguments mkBitswapNode {D}.
Arguments nd_path {D}.
Arguments nd_files {D}.
Arguments nd_datastore {D}.
Arguments localWantlist {D}.
Arguments peerRequestQueue {D}.
Arguments nd_peerstore {D}.

Definition with_stores {D} (n : BitswapNode D) (fs : files) (d : D) : BitswapNode D :=
  mkBitswapNode (nd_path n) fs d (localWantlist n) (peerRequestQueue n) (nd_peerstore n).
Definition with_wantlist {D} (n : BitswapNode D) (w : WantListQueue) : BitswapNode D :=
  mkBitswapNode (nd_path n) (nd_files n) (nd_datastore n) w (peerRequestQueue n) (nd_peerstore n).
Definition with_queue {D} (n : BitswapNode D) (q : PeerRequestQueue) : BitswapNode D :=
  mkBitswapNode (nd_path n) (nd_files n) (nd_datastore n) (localWantlist n) q (nd_peerstore n).
Definition with_peerstore {D} (n : BitswapNode D) (ps : Peerstore) : BitswapNode D :=
  mkBitswapNode (nd_path n) (nd_files n) (nd_datastore n) (localWantlist n) (peerRequestQueue n) ps.

Section network.
Context {M : Malloc} {Dk : Disk} {D : Type} {Ds : Datastore D}.

(** ** Sending *)
(** the result, what was handed to the stream, and the peer; [connect] is
    [libp2p_peer_connect] (its result is not looked at), [write] the write of the
    default stream *)
Definition ipfs_bitswap_network_send_message (connect : Libp2pPeer -> Z * Libp2pPeer) (write : bytes -> Z)
    (p : Libp2pPeer) (message : BitswapMessage) : res (Z * option bytes * Libp2pPeer) :=
  let connected p := connection_type p =? CONNECTION_TYPE_CONNECTED in
  let p := if negb (connected p) || negb (bool_decide (is_Some (sessionContext p))) then (connect p).2 else p in
  if negb (connected p) then Ret (0, None, p)
  else
    let! buf_size := ipfs_bitswap_message_protobuf_encode_size (Some message) in
    if negb (malloc_ok (u64 (buf_size + 20))) then Ret (0, None, p)
    else
      let! ((r, n), buf) := ipfs_bitswap_message_protobuf_encode (Some message) (fresh buf_size) buf_size in
      if r =? 0 then Ret (0, None, p)
      else
        let! data := memrd (bitswap_header ++ buf) (u64 (n + 20)) in
        match sessionContext p with
        | Some true => let w := s32 (write data) in Ret (if w <=? 0 then 0 else 1, Some data, p)
        | _ => UB
        end.

(** ** Receiving *)
(** the loop does not advance: when the first entry is another one, what lies behind the
    vector is taken for a vector *)
Definition ipfs_bitswap_network_adjust_cid_queue (collection : option (vector CidEntry)) (cid : option Cid) (cancel : Z)
  : res (Z * option (vector CidEntry)) :=
  match collection, cid with
  | None, _ | _, None => Ret (0, collection)
  | Some v, Some _ =>
    if 0 <? v_total v then
      match libp2p_utils_vector_get v 0 with
      | None => UB
      | Some current =>
        let! c := ipfs_cid_compare (ce_cid current) cid in
        if c =? 0 then Ret (1, Some (if negb (cancel =? 0) then libp2p_utils_vector_delete v 0 else v)) else UB
      end
    else if cancel =? 0 then
      match ipfs_bitswap_peer_request_cid_entry_new with
      | None => UB
      | Some e =>
        let! (_, v) := libp2p_utils_vector_add v
          (Some (mkCidEntry cid 0 (ce_cancel_has_been_sent e) (ce_request_has_been_sent e))) in
        Ret (0, Some v)
      end
    else Ret (0, collection)
  end.

(** the place behind the first newline *)
Fixpoint find_start (n : nat) (i : Z) (b : bytes) : res (option Z) :=
  match n with
  | O => Ret None
  | S n => let! x := rd b i in if x =? 10 then Ret (Some (i + 1)) else find_start n (i + 1) b
  end.

(** the results of the two stores are not looked at *)
Definition ipfs_bitswap_has_block (n : BitswapNode D) (block : option Block) : res (Z * BitswapNode D) :=
  match block with
  | None => UB
  | Some b =>
    let! (_, _, fs) := ipfs_blockstore_put (nd_path n) (nd_files n) b in
    let! (_, d) := ipfs_datastore_helper_add_block_to_datastore b (nd_datastore n) in
    let n := with_stores n fs d in
    let! found := ipfs_bitswap_wantlist_queue_find (localWantlist n) (block_cid b) in
    match found, wants (localWantlist n) with
    | Some i, Some q =>
      let! q := with_entry q i (fun e => Ret (set_block (Some b) e)) in
      Ret (0, with_wantlist n (mkWantlistQueue (Some q)))
    | _, _ => Ret (0, n)
    end
  end.

Fixpoint receive_blocks (n : BitswapNode D) (payload : list (option Block)) : res (BitswapNode D) :=
  match payload with
  | [] => Ret n
  | None :: _ => UB
  | Some blk :: payload =>
    let! copy := ipfs_block_copy blk in
    let! (_, n) := ipfs_bitswap_has_block n copy in
    receive_blocks n payload
  end.

(** [false]: returned 0; a CID without bytes is NULL and dereferenced *)
Fixpoint receive_wants (entries : list (option WantlistEntry)) (they_want : vector CidEntry) : res (bool * vector CidEntry) :=
  match entries with
  | [] => Ret (true, they_want)
  | None :: _ => UB
  | Some entry :: entries =>
    let! cid := ipfs_cid_protobuf_decode (pderef (we_block entry)) (we_block_size entry) in
    match cid with
    | None => Ret (false, they_want)
    | Some None => UB
    | Some (Some cid) =>
      if cid_hash_length cid =? 0 then Ret (false, they_want)
      else
        let! (_, v) := ipfs_bitswap_network_adjust_cid_queue (Some they_want) (Some cid) (we_cancel entry) in
        match v with
        | None => UB
        | Some they_want => receive_wants entries they_want
        end
    end
  end.

(** the wants of the peer with this id *)
Definition handle_wants (n : BitswapNode D) (remote_peer_id : option bytes) (entries : vector WantlistEntry)
  : res (Z * BitswapNode D) :=
  match remote_peer_id with
  | None => Ret (0, n)
  | Some i =>
    let! size := strlen i in
    let! (p, ps) := libp2p_peerstore_get_or_add_peer_by_id (nd_peerstore n) (Ptr i) size in
    let n := with_peerstore n ps in
    match p with
    | None => Ret (0, n)
    | Some p =>
      let! (l, q) := ipfs_peer_request_queue_find_peer (peerRequestQueue n) (Some p) in
      let! (r, next) := load (requests q) l in
      let! (ok, they) := receive_wants (vector_each entries) (cids_they_want r) in
      let! rs := store (requests q) l (mkRequest (peer r) they (cids_we_want r) (blocks_we_want_to_send r), next) in
      Ret (if ok : bool then 1 else 0, with_queue n (mkQueue (PeerRequestQueue.entries q) rs (first q) (last q)))
    end
  end.

(** a message of no bytes is NULL and dereferenced *)
Definition ipfs_bitswap_network_handle_message (n : BitswapNode D) (remote_peer_id : option bytes) (b : bytes) (bytes_length : Z)
  : res (Z * BitswapNode D) :=
  let! start := find_start (Z.to_nat bytes_length) 0 b in
  match start with
  | None => Ret (0, n)
  | Some start =>
    let! p := padd b start in
    let! message := ipfs_bitswap_message_protobuf_decode p (bytes_length - start) in
    match message with
    | None => Ret (0, n)
    | Some None => UB
    | Some (Some message) =>
      let! n := receive_blocks n (each_of (bm_payload message)) in
      match bm_wantlist message with
      | Some w =>
        match wl_entries w with
        | Some es => if 0 <? v_total es then handle_wants n remote_peer_id es else Ret (1, n)
        | None => Ret (1, n)
        end
      | None => Ret (1, n)
      end
    end
  end.

(** [session]: the id in the session of the stream, if there is a session *)
Definition ipfs_bitswap_handle_message (n : BitswapNode D) (session : option (option bytes)) (b : bytes) (size : Z)
  : res (Z * BitswapNode D) :=
  match session with
  | None => Ret (-1, n)
  | Some remote_peer_id =>
    let! (r, n) := ipfs_bitswap_network_handle_message n remote_peer_id b size in
    Ret (if r =? 0 then -1 else r, n)
  end.

(** ** The functions of the exchange (bitswap.c) *)
Definition ipfs_bitswap_is_online : Z := 1.
Definition ipfs_bitswap_get_blocks : Z := 0.

(** the turns of waiting that are left, after each of which the other threads have done
    something ([others]) to the node; the entry of the wantlist stays where it is *)
Fixpoint wait_for_block (n : nat) (others : nat -> BitswapNode D -> BitswapNode D) (nd : BitswapNode D) (cid : Cid) (i : Z)
  : res (option Block * BitswapNode D) :=
  let remove :=
    let! (_, w) := ipfs_bitswap_want_manager_remove (Some (localWantlist nd)) (Some cid) in
    Ret (match w with Some w => with_wantlist nd w | None => nd end) in
  match wants (localWantlist nd) with
  | None => UB
  | Some q =>
    match libp2p_utils_vector_get q i with
    | None => UB
    | Some e =>
      match wq_block e with
      | Some b =>
        let! copy := ipfs_block_copy b in
        let! nd := remove in
        Ret (copy, nd)
      | None =>
        match n with
        | O => let! nd := remove in Ret (None, nd)
        | S n => wait_for_block n others (others n nd) cid i
        end
      end
    end
  end.

(** [None]: returned 0.  There are 60 turns of one second *)
Definition ipfs_bitswap_get_block (nd : BitswapNode D) (others : nat -> BitswapNode D -> BitswapNode D) (cid : Cid)
  : res (option Block * BitswapNode D) :=
  let! local := ipfs_blockstore_get (nd_path nd) (nd_files nd) cid in
  match local with
  | Some b => Ret (Some b, nd)
  | None =>
    match ipfs_bitswap_wantlist_session_new with
    | None => UB
    | Some session =>
      let! (i, w) := ipfs_bitswap_want_manager_add (Some (localWantlist nd)) (Some cid) (Some session) in
      let nd := match w with Some w => with_wantlist nd w | None => nd end in
      match i with
      | None => Ret (None, nd)
      | Some i => wait_for_block 59 others nd cid i
      end
    end
  end.

(** the block that is found is put into a variable of the function *)
Definition ipfs_bitswap_get_block_async (nd : BitswapNode D) (cid : Cid) : res (Z * BitswapNode D) :=
  let! local := ipfs_blockstore_get (nd_path nd) (nd_files nd) cid in
  match local with
  | Some _ => Ret (1, nd)
  | None =>
    match ipfs_bitswap_wantlist_session_new with
    | None => UB
    | Some session =>
      let! (_, w) := ipfs_bitswap_want_manager_add (Some (localWantlist nd)) (Some cid) (Some session) in
      Ret (1, match w with Some w => with_wantlist nd w | None => nd end)
    end
  end.
End network.

(** ** The thread of the wantlist (engine.c) *)
Section engine.
Context {M : Malloc}.

(** the sessions of an entry that was tried too often, while there are any behind [i] *)
Fixpoint give_up_loop (fuel : nat) (i : Z) (item : Z) (w : WantListQueue) : res WantListQueue :=
  match fuel with
  | O => NoFuel
  | S fuel =>
    match wants w with
    | None => UB
    | Some q =>
      match libp2p_utils_vector_get q item with
      | None => UB
      | Some e =>
        if i <? v_total (sessionsRequesting e) then
          let! (_, w') := ipfs_bitswap_wantlist_queue_remove (Some w) (wq_cid e) (libp2p_utils_vector_get (sessionsRequesting e) i) in
          give_up_loop fuel (i + 1) item (default w w')
        else Ret w
      end
    end
  end.

(** one turn of the loop; [false] when there is nothing to do and the thread sleeps *)
Definition engine_wantlist_turn (ctx : WantContext) (w : WantListQueue) (pq : PeerRequestQueue)
  : res (bool * WantListQueue * PeerRequestQueue) :=
  let! item := ipfs_bitswap_wantlist_queue_pop (Some w) in
  match item, wants w with
  | Some i, Some q =>
    match libp2p_utils_vector_get q i with
    | None => UB
    | Some e =>
      if 10 <? attempts e then
        let! w := give_up_loop (S (Z.to_nat (v_total (sessionsRequesting e)))) 0 i w in Ret (true, w, pq)
      else
        let! (_, pq, e) := ipfs_bitswap_wantlist_process_entry ctx pq e in
        let! q := with_entry q i (fun _ => Ret e) in
        Ret (true, mkWantlistQueue (Some q), pq)
    end
  | _, _ => Ret (false, w, pq)
  end.

(** so many turns *)
Fixpoint ipfs_bitswap_engine_wantlist_processor_start (turns : nat) (ctx : WantContext) (w : WantListQueue) (pq : PeerRequestQueue)
  : res (WantListQueue * PeerRequestQueue) :=
  match turns with
  | O => Ret (w, pq)
  | S turns =>
    let! (_, w, pq) := engine_wantlist_turn ctx w pq in
    ipfs_bitswap_engine_wantlist_processor_start turns ctx w pq
  end.
End engine.

(** ** Messages that were filled by the queue *)
Lemma holds_live {A} (v : vector A) l : holds v l -> all_live v /\ live v = l.
Proof.
  intros Hv. assert (live v = l) as E.
  { unfold live. rewrite Hv. clear Hv. induction l as [|x l IH]; [done|]. cbn. by rewrite IH. }
  split; [|done]. unfold all_live. by rewrite E.
Qed.

Definition want_size (e : CidEntry) : Z := 33 + zlen (cid_wire_opt (ce_cid e)).
Definition wants_size (l : list CidEntry) : Z := foldr (fun e z => want_size e + z) 0 l.

Lemma wants_size_nonneg l : 0 <= wants_size l.
Proof.
  induction l as [|e l IH]; [done|]. change (0 <= want_size e + wants_size l). unfold want_size. zlen_facts. lia.
Qed.

Lemma sent_entries_ok ws l : Forall2 sent_for ws l -> Forall cid_entry_ok l -> wants_size l <= INT_MAX ->
  Forall entry_ok ws /\ entries_size ws = wants_size l.
Proof.
  induction 1 as [|w e ws l (Hd & Hs & Hp & Hc) _ IH]; intros Hl Hsz; [done|].
  apply Forall_cons in Hl as [(He & Hce) Hl]. cbn [wants_size foldr] in Hsz. fold (wants_size l) in Hsz.
  pose proof (wants_size_nonneg l). zlen_facts. unfold want_size in *.
  destruct IH as [IH1 IH2]; [done|lia|]. split.
  - constructor; [|done]. unfold entry_ok. rewrite Hp, Hc. unfold entry_data in Hd.
    assert (zlen (ztake (we_block_size w) (pderef (we_block w))) <= zlen (pderef (we_block w))).
    { unfold ztake, zlen. rewrite length_take. lia. }
    rewrite Hd in *. split_and!; try lia.
  - cbn [entries_size wants_size foldr]. fold (entries_size ws). fold (wants_size l). rewrite IH2, Hs. unfold want_size. lia.
Qed.

(** a message with these blocks and wants can be sent *)
Lemma filled_message_ok m bs l : payload_is m bs -> wants_are m l -> plain m -> Forall block_ok bs -> Forall cid_entry_ok l ->
  payload_size bs + wants_size l + 68 <= INT_MAX -> message_ok m.
Proof.
  intros Hbs (v & ws & Hw & Hv & Hsent) [Hb Hfull] Hbok Hl Hsz.
  destruct (holds_live v ws Hv) as [Hlv Hlive]. pose proof (wants_size_nonneg l).
  assert (0 <= payload_size bs).
  { clear -Hbok. unfold payload_size. induction Hbok as [|b bs Hb _ IH]; cbn [foldr]; [lia|].
    pose proof (block_size_ok b Hb). zlen_facts. lia. }
  destruct (sent_entries_ok ws l Hsent Hl ltac:(lia)) as [Hent Hes].
  assert (all_live_of (bm_payload m) /\ live_of (bm_payload m) = bs) as [Hpl Hplive].
  { unfold payload_is in Hbs. destruct (bm_payload m) as [pv|]; [by apply holds_live|by subst]. }
  unfold message_ok, message_size. rewrite Hplive, Hb. destruct (bm_wantlist m) as [[es full]|]; [|done].
  cbn in Hw, Hfull. injection Hw as ->. injection Hfull as ->. cbn [from_option live_of all_live_of blocks_size foldr].
  assert (wantlist_size (mkWantlist (Some v) 1) = wants_size l + 34) as E.
  { unfold wantlist_size. cbn [wl_entries live_of from_option]. by rewrite Hlive, Hes. }
  rewrite E. split_and!; try done; try lia.
  unfold wantlist_ok. rewrite E. cbn [wl_entries wl_full]. rewrite Hlive. split_and!; (done || lia).
Qed.

(** what the receiver reads *)
Lemma filled_message_saved m bs l : payload_is m bs -> wants_are m l -> plain m ->
  exists ws, Forall2 sent_for ws l /\ message_saved m =
    mkMessage (Some (mkWantlist (pushed (Some <$> (entry_saved <$> ws))) 1)) None (pushed (Some <$> (block_saved <$> bs))).
Proof.
  intros Hbs (v & ws & Hw & Hv & Hsent) [Hb Hfull]. exists ws. split; [done|].
  destruct (holds_live v ws Hv) as [_ Hlive]. unfold message_saved, payload_is in *. rewrite Hb.
  destruct (bm_wantlist m) as [[es full]|]; [|done]. cbn in Hw, Hfull. injection Hw as ->. injection Hfull as ->.
  unfold wantlist_saved. cbn [fmap option_fmap option_map wl_entries wl_full live_of from_option]. rewrite Hlive. f_equal.
  destruct (bm_payload m) as [pv|]; [|by subst]. cbn [live_of from_option]. by rewrite (proj2 (holds_live pv bs Hbs)).
Qed.

Lemma filled_wire_pos m l : wants_are m l -> 0 < zlen (message_wire m).
Proof.
  intros (v & ws & Hw & _). unfold message_wire. destruct (bm_wantlist m) as [w|]; [|done]. rewrite !zlen_app.
  unfold bytes_field. rewrite !zlen_app. pose proof (wire_key_pos 3 WIRETYPE_LENGTH_DELIMITED). zlen_facts. lia.
Qed.

(** ** The two ends of a message *)
Section ends.
Context {M : Malloc} {Hm : MallocOk M} {Dk : Disk} {D : Type} {Ds : Datastore D}.

(** a peer with a stream *)
Definition reachable (p : Libp2pPeer) : Prop :=
  connection_type p = CONNECTION_TYPE_CONNECTED /\ sessionContext p = Some true.

Lemma send_ok connect write p m : reachable p -> message_ok m ->
  0 < write (bitswap_header ++ message_wire m) < 2 ^ 31 ->
  ipfs_bitswap_network_send_message connect write p m = Ret (1, Some (bitswap_header ++ message_wire m), p).
Proof.
  intros [Hc Hs] Hok Hw. unfold ipfs_bitswap_network_send_message. cbv zeta. rewrite Hc, Hs.
  rewrite (bool_decide_true (is_Some (Some true))) by by eexists. change (negb (_ =? _) || negb true) with false. cbv iota.
  rewrite Hc. change (negb (CONNECTION_TYPE_CONNECTED =? CONNECTION_TYPE_CONNECTED)) with false. cbv iota.
  rewrite message_encode_size_ok by done. cbn [rbind]. rewrite malloc_always. cbn [negb].
  pose proof (message_wire_length m Hok). pose proof Hok as (_ & _ & _ & _ & _ & Hsz). zlen_facts. unfold INT_MAX in *.
  rewrite (message_encode_emits m Hok) by (rewrite ?zlen_fresh by lia; unfold INT_MAX; lia). cbn [rbind].
  change (1 =? 0) with false. cbv iota. rewrite u64_small by lia. rewrite app_assoc.
  replace (zlen (message_wire m) + 20) with (zlen (bitswap_header ++ message_wire m)) by (rewrite zlen_app; change (zlen bitswap_header) with 20; lia).
  rewrite memrd_app by done. cbn [rbind]. rewrite Hs, s32_small by lia. by rewrite (proj2 (Z.leb_gt _ _)) by lia.
Qed.

Lemma find_start_ok pre k post : Forall (fun x => x <> 10) pre -> forall done,
  find_start (length pre + S k) (zlen done) (done ++ pre ++ 10 :: post) = Ret (Some (zlen done + zlen pre + 1)).
Proof.
  induction 1 as [|x pre Hx _ IH]; intros done; cbn [length Nat.add app find_start]; rewrite rd_app_mid; cbn [rbind].
  - change (10 =? 10) with true. cbv iota. rewrite zlen_nil. do 2 f_equal. lia.
  - rewrite (proj2 (Z.eqb_neq _ _) Hx).
    replace (done ++ x :: pre ++ 10 :: post) with ((done ++ [x]) ++ pre ++ 10 :: post) by (by rewrite <- app_assoc).
    replace (zlen done + 1) with (zlen (done ++ [x])) by (by rewrite zlen_app).
    rewrite IH, zlen_app, !zlen_cons, zlen_nil. do 2 f_equal. lia.
Qed.

(** the message behind the header *)
Lemma handle_message_ok n rid m : message_ok m -> 0 < zlen (message_wire m) ->
  ipfs_bitswap_network_handle_message n rid (bitswap_header ++ message_wire m) (zlen (bitswap_header ++ message_wire m)) =
    let message := message_saved m in
    let! n := receive_blocks n (each_of (bm_payload message)) in
    match bm_wantlist message with
    | Some w =>
      match wl_entries w with
      | Some es => if 0 <? v_total es then handle_wants n rid es else Ret (1, n)
      | None => Ret (1, n)
      end
    | None => Ret (1, n)
    end.
Proof.
  intros Hok Hpos. unfold ipfs_bitswap_network_handle_message.
  pose proof (message_wire_length m Hok). pose proof Hok as (_ & _ & _ & _ & _ & Hsz).
  assert (Hl : Z.to_nat (zlen (bitswap_header ++ message_wire m)) = (19 + S (length (message_wire m)))%nat).
  { unfold zlen. rewrite Nat2Z.id, length_app. done. }
  rewrite Hl.
  pose proof (find_start_ok (removelast bitswap_header) (length (message_wire m)) (message_wire m)) as Hf.
  specialize (Hf ltac:(by apply (bool_decide_unpack _)) []).
  change (length (removelast bitswap_header)) with 19%nat in Hf.
  change ([] ++ removelast bitswap_header ++ 10 :: message_wire m) with (bitswap_header ++ message_wire m) in Hf.
  change (zlen []) with 0 in Hf. rewrite Hf. cbn [rbind].
  change (0 + zlen (removelast bitswap_header) + 1) with (zlen bitswap_header). rewrite padd_app by done. cbn [rbind].
  rewrite zlen_app. replace (zlen bitswap_header + zlen (message_wire m) - zlen bitswap_header) with (zlen (message_wire m)) by lia.
  unfold ipfs_bitswap_message_protobuf_decode, ipfs_bitswap_message_new. rewrite (proj2 (Z.eqb_neq _ _)) by lia.
  rewrite malloc_always.
  pose proof (parses_decode _ _ [] _ _ (message_parses m Hok) ltac:(lia)) as Hd. rewrite app_nil_r in Hd. by rewrite Hd.
Qed.
End ends.

(** ** Blocks that arrive *)

(** a block that survives the message: its CID has a sha2-256 hash and a codec that
    passes through a [char] *)
Definition sha_cid (c : Cid) (h : bytes) : Prop :=
  cid_ok c /\ cid_hash c = Some h /\ cid_hash_length c = 32 /\ hash_ok h /\ 0 <= cid_codec c < 128.
Definition sendable (b : Block) : Prop := block_ok b /\ exists c h, block_cid b = Some c /\ sha_cid c h.

Lemma sha_cid_saved c h : sha_cid c h -> cid_saved c = c.
Proof.
  intros (_ & Hh & Hl & _ & Hc). unfold cid_saved. rewrite Hl. change (32 =? 0) with false. cbv iota.
  destruct c as [v k o n]. cbn in *. rewrite s8_small by lia. by subst.
Qed.

Lemma sendable_saved b : sendable b -> block_saved b = mkBlock (block_cid b) (Some (block_payload b)) (block_data_length b).
Proof. intros (_ & c & h & Hc & Hsha). unfold block_saved. rewrite Hc. cbn. by rewrite (sha_cid_saved c h). Qed.

Lemma saved_payload b : payload_ok b -> block_payload (block_saved b) = block_payload b.
Proof.
  intros Hb. unfold block_payload at 1, block_saved. cbn [block_data_length block_data deref].
  apply ztake_all. by rewrite block_payload_length.
Qed.

Lemma sendable_again b : sendable b -> sendable (block_saved b) /\ block_wire (block_saved b) = block_wire b.
Proof.
  intros Hs. pose proof (sendable_saved b Hs) as E. destruct Hs as ((Hc & Hp & Hl) & c & h & Hcid & Hsha).
  split; [|unfold block_wire; rewrite saved_payload, E by done; done].
  split; [|exists c, h; rewrite E; done]. rewrite E. split_and!; [done| |done].
  unfold payload_ok. cbn [block_data block_data_length]. change (deref (Some (block_payload b))) with (block_payload b).
  rewrite block_payload_length by done. unfold payload_ok in Hp. lia.
Qed.


Section arrival.
Context {M : Malloc} {Hm : MallocOk M} {Dk : Disk} {Hd : DiskOk Dk} {D : Type} {Ds : Datastore D}.





Lemma copy_sendable b : sendable b -> ipfs_block_copy (block_saved b) = Ret (Some (block_saved b)).
Proof.
  intros Hs. rewrite (sendable_saved b Hs). destruct Hs as ((_ & Hp & _) & c & h & Hc & (_ & Hh & Hl & (_ & Hz) & _)).
  unfold ipfs_block_copy, ipfs_block_new. rewrite !malloc_always. cbn [block_data block_data_length block_cid].
  change (deref (Some (block_payload b))) with (block_payload b). rewrite <- (block_payload_length b) at 1 by done. rewrite memrd_all by done. cbn [rbind]. rewrite Hc.
  by rewrite cid_copy_ok by (rewrite ?Hh, ?Hl; (done || lia)).
Qed.

End arrival.

(** ** Wants that arrive *)
Definition asked (c : Cid) : CidEntry := mkCidEntry (Some c) 0 0 0.

Section wanting.
Context {M : Malloc} {Hm : MallocOk M} {D : Type}.

Lemma receive_want_ok w c h : sha_cid c h -> sent_for w (asked c) ->
  exists v, receive_wants [Some (entry_saved w)] (vector_of []) = Ret (true, v) /\ holds v [asked c].
Proof.
  intros Hc (Hd & Hs & _ & Hcancel). cbn [ce_cid asked ce_cancel cid_wire_opt] in *.
  pose proof Hc as (Hok & _ & Hl & _). cbn [receive_wants entry_saved we_block we_block_size we_cancel pderef].
  pose proof (cid_decode_wire c [] Hok) as Hdec. rewrite app_nil_r in Hdec. rewrite Hd, Hs, Hdec. cbn [rbind].
  rewrite (sha_cid_saved c h Hc), Hl. change (32 =? 0) with false. cbv iota.
  unfold ipfs_bitswap_network_adjust_cid_queue. change (0 <? v_total (vector_of [])) with false. cbv iota.
  rewrite Hcancel. change (0 =? 0) with true. cbv iota. unfold ipfs_bitswap_peer_request_cid_entry_new. rewrite malloc_always.
  cbn [ce_cancel_has_been_sent ce_request_has_been_sent].
  destruct (holds_add (vector_of []) [] (asked c) eq_refl) as (v & k & Ha & _ & Hv); [by apply (vector_ok_of [])|done|].
  change (mkCidEntry (Some c) 0 0 0) with (asked c). rewrite Ha. cbn [rbind]. exists v. by split.
Qed.

(** a peer of the store that has no request yet: it gets an empty one *)
Lemma known_request (n : BitswapNode D) i rest ids k addrs p es reqs :
  store_with ids (nd_peerstore n) -> ids !! k = Some (i, addrs) -> entry_peer (nd_peerstore n) k = Ret p ->
  nonzero i -> peer_ok p -> queue_ok (peerRequestQueue n) es reqs -> find_request p es reqs = None ->
  exists q' l r nx,
    queue_ok q' (es ++ [(l, r)]) (reqs ++ [blank_request p]) /\ (r ∉ es.*2) /\ (cells (requests q')) !! r = Some (blank_request p, nx) /\
    forall entries, handle_wants n (Some (i ++ 0 :: rest)) entries =
      let! (ok, they) := receive_wants (vector_each entries) (vector_of []) in
      let! rs := store (requests q') (Some r) (mkRequest (Some p) they (vector_of []) (vector_of []), nx) in
      Ret (if ok : bool then 1 else 0, with_queue n (mkQueue (PeerRequestQueue.entries q') rs (first q') (last q'))).
Proof.
  intros Hst Hk Hp Hi Hpok Hq Hf.
  destruct (entry_at ids _ k i addrs Hst Hk) as (p0 & xs & Ep & Hpi & Hpz & Hpos & _). rewrite Hp in Ep. injection Ep as <-.
  pose proof (store_find i ids (proj2 Hst)) as Hfind. destruct (list_find _ ids) as [[k' [j kk]]|] eqn:El.
  2:{ apply list_find_None in El. rewrite Forall_forall in El. by destruct (El _ (list_elem_of_lookup_2 _ _ _ Hk)). }
  destruct Hfind as (-> & Hk' & _).
  assert (k' = k) as ->.
  { destruct Hst as [_ Hn]. eapply NoDup_lookup; [exact Hn| |]; rewrite list_lookup_fmap; [by rewrite Hk'|by rewrite Hk]. }
  destruct (append_peer_ok _ es reqs p Hq Hpok) as (q' & l & r & Ha & Hq' & Hfresh).
  pose proof Hq' as (_ & _ & _ & _ & Hall). apply Forall2_app_inv in Hall as [_ Hlast].
  2:{ destruct Hq as (_ & _ & _ & _ & Hall0). by eapply Forall2_length. }
  apply Forall2_cons in Hlast as [(nx & p' & Hr & _) _]. cbn [snd] in Hr.
  exists q', l, r, nx. split; [done|]. split; [|split; [done|]].
  - intros ([l' r'] & Er & Hx)%list_elem_of_fmap. cbn in Er. subst r'.
    destruct Hq as (_ & _ & _ & _ & Hall0). apply list_elem_of_lookup_1 in Hx as [j' Hj].
    destruct (Forall2_lookup_l _ _ _ _ _ Hall0 Hj) as (req & _ & nn & pp & Hcell & _). cbn [snd] in Hcell. congruence.
  - intros entries. unfold handle_wants. rewrite strlen_nul by done. cbn [rbind].
    unfold libp2p_peerstore_get_or_add_peer_by_id. rewrite (proj2 (Z.eqb_neq (zlen i) 0)) by lia.
    rewrite (get_entry_ok i (0 :: rest) ids _ Hst), El. cbn [fmap option_fmap option_map fst rbind].
    rewrite Hp. cbn [rbind nd_peerstore with_peerstore peerRequestQueue].
    rewrite (find_peer_ok _ _ _ _ Hq Hpok), Hf, Ha. cbn [rbind].
    rewrite (load_some _ _ _ Hr). cbn [rbind blank_request cids_they_want peer cids_we_want blocks_we_want_to_send].
    by destruct n.
Qed.


Lemma adjust_other v e l c cancel : holds v (e :: l) -> cid_valid (ce_cid e) -> cid_ok c ->
  ~ cid_match (ce_cid e) (Some c) -> ipfs_bitswap_network_adjust_cid_queue (Some v) (Some c) cancel = UB.
Proof.
  intros Hv He Hc Hne. unfold ipfs_bitswap_network_adjust_cid_queue. rewrite (holds_total _ _ Hv), zlen_cons. zlen_facts.
  rewrite (proj2 (Z.ltb_lt 0 _)) by lia. pose proof (holds_get v [] e l Hv) as Hg. change (zlen []) with 0 in Hg. rewrite Hg.
  destruct (cid_compare_match (ce_cid e) (Some c) He Hc) as (r & -> & Hr). cbn [rbind].
  rewrite (proj2 (Z.eqb_neq r 0)); [done|]. by rewrite Hr.
Qed.

(** the second of two CIDs is looked for behind the vector *)
Lemma two_wants_undefined w1 w2 ws c1 c2 h1 h2 : sha_cid c1 h1 -> sha_cid c2 h2 -> ~ cid_equiv c1 c2 ->
  sent_for w1 (asked c1) -> sent_for w2 (asked c2) ->
  receive_wants (Some (entry_saved w1) :: Some (entry_saved w2) :: ws) (vector_of []) = UB.
Proof.
  intros H1 H2 Hne Hw1 Hw2. destruct (receive_want_ok w1 c1 h1 H1 Hw1) as (v & E & Hv). cbn [receive_wants] in E |- *.
  destruct (ipfs_cid_protobuf_decode _ _) as [[[d|]|]| | |] in E |- *; cbn [rbind] in E |- *; try done.
  destruct (cid_hash_length d =? 0); [done|].
  destruct (ipfs_bitswap_network_adjust_cid_queue _ _ _) as [[r [v'|]]| | |] in E |- *; cbn [rbind] in E |- *; try done.
  injection E as ->. destruct Hw2 as (Hd2 & Hs2 & _). cbn [asked ce_cid cid_wire_opt] in Hd2, Hs2. cbn [entry_saved we_block we_block_size pderef].
  pose proof (cid_decode_wire c2 [] (proj1 H2)) as Hdec. rewrite app_nil_r in Hdec. rewrite Hd2, Hs2, Hdec. cbn [rbind].
  rewrite (sha_cid_saved c2 h2 H2). pose proof H2 as (Hc2 & _ & -> & _). change (32 =? 0) with false. cbv iota.
  by rewrite (adjust_other v (asked c1) [] c2) by (done || apply H1).
Qed.

(** wants of a peer that is not in the store *)
Lemma unknown_wants_undefined (n : BitswapNode D) ids i rest entries : store_with ids (nd_peerstore n) ->
  i ∉ ids.*1 -> 0 < zlen i -> nonzero i -> handle_wants n (Some (i ++ 0 :: rest)) entries = UB.
Proof.
  intros Hst Hno Hi Hnz. unfold handle_wants. rewrite strlen_nul by done. cbn [rbind].
  assert (Hs : store_is [] (store_map ids) (nd_peerstore n)) by (by exists ids).
  assert (Hm' : store_map ids !! i = None) by (by apply not_elem_of_list_to_map_1).
  by rewrite (proj1 (proj2 (peerstore_undefined [] _ _ i (0 :: rest) peer_blank Hs Hi)) Hm').
Qed.
End wanting.

(** ** An exchange of two nodes *)
Section exchange.
Context {M : Malloc} {Hm : MallocOk M} {Dk : Disk} {Hd : DiskOk Dk} {D : Type} {Ds : Datastore D}.

(** what the peer does with a message of the queue *)
Lemma delivered (n : BitswapNode D) rid connect write p m bs l : payload_is m bs -> wants_are m l -> plain m ->
  Forall block_ok bs -> Forall cid_entry_ok l -> payload_size bs + wants_size l + 68 <= INT_MAX ->
  reachable p -> (forall data, 0 < write data < 2 ^ 31) ->
  exists data ws, ipfs_bitswap_network_send_message connect write p m = Ret (1, Some data, p) /\ Forall2 sent_for ws l /\
    ipfs_bitswap_network_handle_message n rid data (zlen data) =
      let! n := receive_blocks n (Some <$> (block_saved <$> bs)) in
      match ws with [] => Ret (1, n) | _ => handle_wants n rid (vector_of (Some <$> (entry_saved <$> ws))) end.
Proof.
  intros Hbs Hl Hpl Hbok Hlok Hsz Hp Hw. pose proof (filled_message_ok m bs l Hbs Hl Hpl Hbok Hlok Hsz) as Hok.
  destruct (filled_message_saved m bs l Hbs Hl Hpl) as (ws & Hsent & Hsaved). eexists _, ws.
  split; [by apply send_ok|]. split; [done|]. rewrite handle_message_ok by (done || by eapply filled_wire_pos).
  cbv zeta. rewrite Hsaved. cbn [bm_payload bm_wantlist wl_entries].
  assert (E : each_of (pushed (Some <$> (block_saved <$> bs))) = Some <$> (block_saved <$> bs)).
  { destruct bs as [|b bs]; [done|]. cbn [fmap list_fmap pushed each_of]. by rewrite vector_each_items. }
  rewrite E. destruct (receive_blocks _ _) as [n'| | |]; [|done..]. cbn [rbind].
  destruct ws as [|w ws]; [done|]. cbn [fmap list_fmap pushed].
  rewrite (proj2 (Z.ltb_lt 0 _)); [done|]. unfold v_total. cbn [vector_of v_items]. rewrite zlen_cons.
  pose proof (zlen_nonneg (Some <$> (entry_saved <$> ws))). lia.
Qed.

Lemma asked_size c h : sha_cid c h -> cid_entry_ok (asked c) /\ wants_size [asked c] + 68 <= INT_MAX.
Proof.
  intros (Hok & _ & Hl & _). split; [split; [done|cbn; lia]|]. pose proof (cid_wire_length c Hok) as Hw.
  unfold ipfs_cid_protobuf_encode_size in Hw. rewrite Hl in Hw. cbn [wants_size foldr]. unfold want_size. cbn [asked ce_cid cid_wire_opt].
  change (u64 _) with 66 in Hw. unfold INT_MAX. lia.
Qed.


(** a block when nothing was ever wanted: the stores take it, the wantlist has no vector *)
Lemma first_block_undefined (n : BitswapNode D) b : sendable b -> path_ok (nd_path n) -> wants (localWantlist n) = None ->
  ipfs_bitswap_has_block n (Some b) = UB.
Proof.
  intros (Hb & c & h & Hc & _ & Hh & Hl & Hhok & _) Hp Hwn. unfold ipfs_bitswap_has_block.
  rewrite (blockstore_put_ok _ _ b c h) by done. cbn [rbind]. unfold ipfs_datastore_helper_add_block_to_datastore.
  rewrite (block_record_ok h b c) by done. cbn [rbind]. destruct (datastore_put _ _) as [r d].
  unfold ipfs_bitswap_wantlist_queue_find. cbn [localWantlist with_stores]. by rewrite Hwn.
Qed.
End exchange.



(** [knows n es reqs i p]: [n] has the peer [p] with the id [i], and no request of it *)
Definition knows {D} (n : BitswapNode D) (es : list (positive * positive)) (reqs : list PeerRequest) (i : bytes) (p : Libp2pPeer) : Prop :=
  (exists ids k addrs, store_with ids (nd_peerstore n) /\ ids !! k = Some (i, addrs) /\ entry_peer (nd_peerstore n) k = Ret p) /\
  nonzero i /\ peer_ok p /\ queue_ok (peerRequestQueue n) es reqs /\ NoDup es.*2 /\ find_request p es reqs = None.

Section serving.
Context {M : Malloc} {Hm : MallocOk M} {Dk : Disk} {Hd : DiskOk Dk} {D : Type}.


End serving.

(** ** Properties *)


(** *** Two nodes *)
Definition ex_peer_at (x : Z) : Libp2pPeer := mkPeer (Some [x]) 1 [] CONNECTION_TYPE_CONNECTED (Some true) 0.
Definition ex_wanting (c : Cid) : WantListQueueEntry := mkWantEntry (Some c) 1 (vector_of []) None 0 0.
Definition ex_want_cid : Cid := ex_cid (ex_hash 1).
Definition ex_no_requests : PeerRequestQueue := mkQueue (mkHeap ∅ 1) (mkHeap ∅ 1) None None.
Definition ex_node (fs : files) (x : Z) : BitswapNode (gmap bytes DatastoreRecord) :=
  mkBitswapNode ex_repo_path fs ∅ (mkWantlistQueue (Some (vector_of [Some (ex_wanting ex_want_cid)]))) ex_no_requests
    (mkPeerstore [mkPeerEntry (Some (ex_peer_at x))]).

Lemma ex_cid_sha x : byte_range x -> sha_cid (ex_cid (ex_hash x)) (ex_hash x).
Proof.
  intros Hx. pose proof (ex_hash_ok x Hx) as Hh. split_and!; try done.
  unfold cid_ok, ex_cid. cbn [cid_version cid_codec cid_hash cid_hash_length].
  change (deref (Some (ex_hash x))) with (ex_hash x). destruct Hh as [Hb Hl]. rewrite Hl.
  unfold CID_DAG_PROTOBUF, INT_MAX. by split_and!.
Qed.
Lemma ex_sha_cid : sha_cid ex_want_cid (ex_hash 1).
Proof. apply ex_cid_sha. unfold byte_range. lia. Qed.


Lemma ex_knows fs x : 0 < x < 256 -> knows (ex_node fs x) [] [] [x] (ex_peer_at x).
Proof.
  intros Hx. split_and!.
  - exists [([x], [])], 0%nat, []. split_and!; [|done|done]. split; [|apply NoDup_singleton].
    constructor; [|constructor]. exists (ex_peer_at x), []. by split_and!.
  - repeat constructor. lia.
  - split_and!; [done|done|]. repeat constructor; cbn; lia.
  - split_and!; try done; intros k; cbn; rewrite lookup_empty; by intros [? ?].
  - constructor.
  - done.
Qed.


(** *** What a peer can make undefined *)

(** Property C33. Messages of a peer that are undefined behaviour when the handler of the
    protocol gets them: the header of the protocol and nothing else; and three messages
    that [ipfs_bitswap_network_send_message] itself writes to the stream.  One that wants
    two different CIDs, from a peer that the node knows, since the loop over the queue
    moves the vector instead of the index; one with any want from a peer that is not in
    the store, whose id is freed and used; and one with a block, from anyone, before
    anything was wanted, when the wantlist has no vector. *)
Theorem bitswap_network_undefined {M : Malloc} {Hm : MallocOk M} {Dk : Disk} {Hd : DiskOk Dk} {D : Type} {Ds : Datastore D}
    (n : BitswapNode D) (rid : option bytes) (connect : Libp2pPeer -> Z * Libp2pPeer) (write : bytes -> Z) (to p : Libp2pPeer)
    (two one filled : BitswapMessage) (l l1 l2 : list CidEntry) (c1 c2 : Cid) (h1 h2 : bytes) (e1 : CidEntry) (b : Block)
    (ids : list (bytes * list bytes)) (i j rest : bytes) (es : list (positive * positive)) (reqs : list PeerRequest) :
  reachable to -> (forall data, 0 < write data < 2 ^ 31) ->
  sha_cid c1 h1 -> sha_cid c2 h2 -> ~ cid_equiv c1 c2 -> sendable b ->
  payload_is two [] -> wants_are two (asked c1 :: asked c2 :: l) -> plain two ->
  payload_is one [] -> wants_are one (e1 :: l1) -> plain one ->
  payload_is filled [b] -> wants_are filled l2 -> plain filled ->
  Forall cid_entry_ok l -> wants_size (asked c1 :: asked c2 :: l) + 68 <= INT_MAX ->
  Forall cid_entry_ok (e1 :: l1) -> wants_size (e1 :: l1) + 68 <= INT_MAX ->
  Forall cid_entry_ok l2 -> payload_size [b] + wants_size l2 + 68 <= INT_MAX ->
  knows n es reqs i p -> store_with ids (nd_peerstore n) -> j ∉ ids.*1 -> 0 < zlen j -> nonzero j ->
  path_ok (nd_path n) -> wants (localWantlist n) = None ->
  ipfs_bitswap_handle_message n (Some rid) bitswap_header (zlen bitswap_header) = UB /\
  exists data1 data2 data3,
    ipfs_bitswap_network_send_message connect write to two = Ret (1, Some data1, to) /\
    ipfs_bitswap_handle_message n (Some (Some (i ++ 0 :: rest))) data1 (zlen data1) = UB /\
    ipfs_bitswap_network_send_message connect write to one = Ret (1, Some data2, to) /\
    ipfs_bitswap_handle_message n (Some (Some (j ++ 0 :: rest))) data2 (zlen data2) = UB /\
    ipfs_bitswap_network_send_message connect write to filled = Ret (1, Some data3, to) /\
    ipfs_bitswap_handle_message n (Some rid) data3 (zlen data3) = UB.
Proof.
  intros Hto Hw H1 H2 Hne Hb P2 W2 Pl2 P1 W1 Pl1 Pb Wb Plb Hl Hsz Hl1 Hsz1 Hl2 Hsz2 Hk Hst Hj Hjl Hjz Hp Hwn.
  assert (Hl' : Forall cid_entry_ok (asked c1 :: asked c2 :: l)).
  { constructor; [by eapply asked_size|]. constructor; [by eapply asked_size|done]. }
  split; [reflexivity|]. unfold ipfs_bitswap_handle_message.
  destruct (delivered n (Some (i ++ 0 :: rest)) connect write to two [] _ P2 W2 Pl2 ltac:(constructor) Hl') as (d1 & ws1 & S1 & F1 & R1); [done..|].
  destruct (delivered n (Some (j ++ 0 :: rest)) connect write to one [] _ P1 W1 Pl1 ltac:(constructor) Hl1) as (d2 & ws2 & S2 & F2 & R2); [done..|].
  destruct (delivered n rid connect write to filled [b] _ Pb Wb Plb) as (d3 & ws3 & S3 & F3 & R3); [by constructor; [apply Hb|]|done..|].
  exists d1, d2, d3. split; [done|]. split; [|split; [done|split; [|split; [done|]]]].
  - rewrite R1. apply Forall2_cons_inv_r in F1 as (w1 & ws & Hw1 & (w2 & ws' & Hw2 & _ & ->)%Forall2_cons_inv_r & ->).
    cbn [fmap list_fmap receive_blocks rbind].
    destruct Hk as ((ids' & k & addrs & Hst' & Hki & Hpk) & Hi & Hpok & Hq & _ & Hf).
    destruct (known_request n i rest ids' k addrs p es reqs Hst' Hki Hpk Hi Hpok Hq Hf) as (? & ? & ? & ? & _ & _ & _ & ->).
    rewrite vector_each_items. cbn [v_items vector_of]. by rewrite (two_wants_undefined w1 w2 _ c1 c2 h1 h2).
  - rewrite R2. apply Forall2_cons_inv_r in F2 as (w & ws & _ & _ & ->). cbn [fmap list_fmap receive_blocks rbind].
    by rewrite (unknown_wants_undefined n ids).
  - rewrite R3. cbn [fmap list_fmap receive_blocks]. rewrite (copy_sendable b Hb). cbn [rbind].
    by rewrite (first_block_undefined n (block_saved b) (proj1 (sendable_again b Hb))).
Qed.

Definition ex_message {M : Malloc} (bs : list Block) (l : list CidEntry) : BitswapMessage :=
  mkMessage (Some (mkWantlist (Some (vector_of (Some <$> (made_entry <$> l)))) 1)) None
    (match bs with [] => None | _ => Some (vector_of (Some <$> bs)) end).

Lemma ex_message_ok {M : Malloc} bs l : Forall cid_entry_ok l ->
  payload_is (ex_message bs l) bs /\ wants_are (ex_message bs l) l /\ plain (ex_message bs l).
Proof.
  intros Hl. split_and!; [by destruct bs| |done..].
  exists (vector_of (Some <$> (made_entry <$> l))), (made_entry <$> l). split_and!; [done..|].
  induction Hl; constructor; [by apply made_entry_sent|done].
Qed.

(** *** A want that was given up *)

(** Giving a want up does not take it out of the wantlist.  When the first
    entry that still waits was tried more than 10 times and has no session left, every
    turn of the thread picks it again and changes nothing, so that no entry behind it is
    ever served. *)
Lemma engine_stuck {M : Malloc} (ctx : WantContext) (w : WantListQueue) (pq : PeerRequestQueue)
    (pre post : list WantListQueueEntry) (e : WantListQueueEntry) (turns : nat) :
  wantlist_holds w (pre ++ e :: post) -> Forall (fun e => waiting e = false) pre -> waiting e = true ->
  10 < attempts e -> v_total (sessionsRequesting e) = 0 ->
  ipfs_bitswap_engine_wantlist_processor_start turns ctx w pq = Ret (w, pq).
Proof.
  intros Hw Hpre He Ha Hs. induction turns as [|turns IH]; [done|]. cbn [ipfs_bitswap_engine_wantlist_processor_start].
  unfold engine_wantlist_turn. rewrite (pop_ok w _ Hw).
  assert (list_find (fun e => waiting e = true) (pre ++ e :: post) = Some (length pre, e)) as ->.
  { apply list_find_Some. split_and!; [by apply list_lookup_middle|done|]. intros j x Hj Hlt.
    rewrite lookup_app_l in Hj by done. rewrite Forall_forall in Hpre. by rewrite (Hpre x (list_elem_of_lookup_2 _ _ _ Hj)). }
  cbn [fmap option_fmap option_map fst rbind]. pose proof Hw as [Hq _]. destruct w as [[q|]]; cbn [wants] in Hq |- *; [|by destruct pre].
  destruct Hq as [_ Hq]. change (Z.of_nat (length pre)) with (zlen pre). rewrite (holds_get _ _ _ _ Hq), (proj2 (Z.ltb_lt _ _) Ha), Hs.
  change (S (Z.to_nat 0)) with 1%nat. cbn [give_up_loop wants]. rewrite (holds_get _ _ _ _ Hq), Hs. cbn [rbind]. exact IH.
Qed.

Lemma bitswap_network_undefined_witness :
  let M := malloc_total in let Dk := disk_total in
  let a1 := asked (ex_cid (ex_hash 1)) in let a2 := asked (ex_cid (ex_hash 2)) in
  let n := with_wantlist (ex_node ∅ 1) (mkWantlistQueue None) in
  let send := ipfs_bitswap_network_send_message (fun p => (0, p)) (fun _ => 1) (ex_peer_at 2) in
  ipfs_bitswap_handle_message n (Some (Some [1; 0])) bitswap_header (zlen bitswap_header) = UB /\
  exists data1 data2 data3,
    send (ex_message [] [a1; a2]) = Ret (1, Some data1, ex_peer_at 2) /\
    ipfs_bitswap_handle_message n (Some (Some [1; 0])) data1 (zlen data1) = UB /\
    send (ex_message [] [a1]) = Ret (1, Some data2, ex_peer_at 2) /\
    ipfs_bitswap_handle_message n (Some (Some [2; 0])) data2 (zlen data2) = UB /\
    send (ex_message [ex_block] []) = Ret (1, Some data3, ex_peer_at 2) /\
    ipfs_bitswap_handle_message n (Some (Some [1; 0])) data3 (zlen data3) = UB.
Proof.
  intros M Dk a1 a2 n send.
  assert (H2 : sha_cid (ex_cid (ex_hash 2)) (ex_hash 2)) by (apply ex_cid_sha; unfold byte_range; lia).
  assert (A1 : cid_entry_ok a1) by (split; [apply ex_sha_cid|cbn; lia]).
  assert (A2 : cid_entry_ok a2) by (split; [apply H2|cbn; lia]).
  pose proof (ex_message_ok [] [a1; a2] ltac:(by repeat constructor)) as (X1 & X2 & X3).
  pose proof (ex_message_ok [] [a1] ltac:(by repeat constructor)) as (Y1 & Y2 & Y3).
  pose proof (ex_message_ok [ex_block] [] ltac:(by repeat constructor)) as (Z1 & Z2 & Z3).
  apply (bitswap_network_undefined (M := malloc_total) (Dk := disk_total) n (Some [1; 0]) (fun p => (0, p)) (fun _ => 1)
    (ex_peer_at 2) (ex_peer_at 1) (ex_message [] [a1; a2]) (ex_message [] [a1]) (ex_message [ex_block] []) [] [] []
    (ex_cid (ex_hash 1)) (ex_cid (ex_hash 2)) (ex_hash 1) (ex_hash 2) a1 ex_block [([1], [])] [1] [2] [] [] []).
  - split; reflexivity.
  - intros data. lia.
  - exact ex_sha_cid.
  - exact H2.
  - intros (_ & _ & _ & E). discriminate.
  - split; [exact ex_block_ok|]. exists (ex_cid (ex_hash 1)), (ex_hash 1). split; [reflexivity|exact ex_sha_cid].
  - exact X1.
  - exact X2.
  - exact X3.
  - exact Y1.
  - exact Y2.
  - exact Y3.
  - exact Z1.
  - exact Z2.
  - exact Z3.
  - constructor.
  - vm_compute. discriminate.
  - constructor; [exact A1|constructor].
  - vm_compute. discriminate.
  - constructor.
  - vm_compute. discriminate.
  - apply ex_knows. lia.
  - split; [|apply NoDup_singleton]. constructor; [|constructor]. exists (ex_peer_at 1), []. by split_and!.
  - by intros ?%list_elem_of_singleton.
  - reflexivity.
  - repeat constructor. lia.
  - exact ex_repo_path_ok.
  - reflexivity.
Defined.
